(* ===== verification/_CoqProject ===== *)
-Q . S2P
Prelude.v
Pktq.v
PktqSpec.v
PktqRefine.v
PktqSystem.v
PktqFilter.v
PktqTheorems.v
Bits.v
Mwbmap.v
MwbmapSpec.v
MwbmapTheorems.v
Id16.v
Id16Theorems.v
PktidMap.v
PktidSpec.v
PktidTheorems.v
Dll.v
DllTheorems.v
Crc.v
CrcTheorems.v
Mem.v
BcmStdlib.v
BcmStdlibTheorems.v
BcmStr.v
BcmStrTheorems.v
ChanSpec.v
ChanText.v
ChanTheorems.v
ChanTextTheorems.v
ChanIter.v
Tlv.v
TlvTheorems.v
Endian.v
MsgRing.v
MsgRingTheorems.v
FlowQueue.v
FlowQueueTheorems.v
FlowData.v
FlowTable.v
FlowTableSpec.v
FlowTableTheorems.v
FlowSta.v
FlowStaTheorems.v
FlowRing.v
FlowSched.v
FlowSystem.v
FlowInit.v
FlowLife.v
FlowRuns.v
WlfcTag.v
WlfcHanger.v
WlfcHangerTheorems.v
WlfcCredit.v
WlfcCreditTheorems.v
WlfcQueue.v
WlfcQueueTheorems.v
WlfcHeader.v
WlfcHeaderTheorems.v
WlfcState.v
WlfcSend.v
WlfcTransfer.v
WlfcEvents.v
WlfcInv.v
WlfcMoves.v
WlfcSendTheorems.v
WlfcTransferTheorems.v
WlfcEventsTheorems.v
WlfcRunTheorems.v
Wbrc.v
WbrcTheorems.v
DbgRing.v
DbgRingTheorems.v
Bloom.v
BloomTheorems.v
Xtlv.v
XtlvSpec.v
XtlvTheorems.v
RecoveryInit.v
RecoverySpec.v
RecoveryTheorems.v
