(* ===== verification/Prelude.v ===== *)
(** * Verification of the bcmdhd driver's data path and utilities and of recovery_init

    The repository is the software of a board: a Linux kernel with Broadcom's
    wireless driver bcmdhd (src/kernel-extra/drivers/net/wireless/rockchip_wlan/
    rkwifi/bcmdhd, called B below), boot and build material, and the recovery
    program src/recovery-init.  The development models the parts whose behaviour
    is decided by the repository's own C code: the queues, allocators, rings,
    buffers and codecs that the driver is built from, and the recovery program.

    ** The parts and how they fit

    The driver moves packets between the network stack and a dongle.  A packet
    waits in a queue (hnd_pktq.c), gets a 32-bit id under which its DMA data is
    kept (the packet id map of dhd_msgbuf.c), and is announced to the dongle in a
    work item of a ring (the message rings of dhd_msgbuf.c).  On a PCIe dongle
    each destination and priority has a flow: a ring with a queue in front of it,
    found through a table of flows (dhd_flowring.c) that also consults the
    stations of the interface (dhd_linux.c), and made, flushed and deleted by
    requests that the dongle answers (dhd_pcie.c).  On an SDIO dongle the host
    keeps the flow control (dhd_wlfc.c): a packet waits in the queue of its
    destination, takes a credit of its category, gets a header of elements and
    goes to the bus, waits for its status, and is freed or queued again.  Flow ids, buffers and timers come from the small allocators of bcmutils.c.  Requests and events
    are buffers of tagged elements (bcmutils.c, bcmxtlv.c), names of channels are
    16-bit words (bcmwifi_channels.c), text is handled by bcmutils.c and
    bcmstdlib_s.c, and debug records go to user space through a byte ring
    (dhd_dbg_ring.c).  recovery_init runs as process 1 of an emergency system: it
    mounts the root partition and copies the C library and the loader into it.

    ** Files

    - Prelude: machine integers as [Z] with their wrap-around, the option monad,
      lists and loops.  Mem: byte memory and what reading and writing it mean;
      Endian: B/include/bcmendian.h.
    - Pktq (model), PktqSpec (invariant), PktqRefine, PktqFilter, PktqSystem (the
      calls as steps), PktqTheorems: B/hnd_pktq.c, B/include/hnd_pktq.h.
    - Bits; Mwbmap, MwbmapSpec, MwbmapTheorems; Id16, Id16Theorems; Dll,
      DllTheorems; Crc, CrcTheorems: the bit counts, the bitmap and id
      allocators, the lists and their pools and the checksums of B/bcmutils.c and
      B/include/bcmutils.h.
    - PktidMap, PktidSpec, PktidTheorems; MsgRing, MsgRingTheorems: the packet id
      map and the rings of B/dhd_msgbuf.c.  DbgRing, DbgRingTheorems:
      B/dhd_dbg_ring.c, over the memory and the functions of BcmStdlib.
    - BcmStdlib, BcmStdlibTheorems: B/bcmstdlib_s.c.  BcmStr, BcmStrTheorems:
      numbers, addresses, hexadecimal data and strings, B/bcmutils.c.
    - ChanSpec, ChanText (model), ChanTheorems, ChanTextTheorems, ChanIter (the
      iterator and its properties): B/bcmwifi_channels.c; the text goes through
      BcmStr.
    - Tlv, TlvTheorems: the elements of B/bcmutils.c; Xtlv, XtlvSpec,
      XtlvTheorems: B/bcmxtlv.c.  Bloom, BloomTheorems: B/bcmbloom.c.
    - FlowQueue, FlowQueueTheorems: the queue of a flow ring, B/dhd_flowring.c, over
      the packet store of Pktq.  FlowData: the structures of the flow rings and of
      the device, B/dhd_flowring.h, B/dhd.h.  FlowTable, FlowTableSpec,
      FlowTableTheorems: the table of flows, B/dhd_flowring.c.  FlowSta,
      FlowStaTheorems: the stations of an interface and their pool,
      B/dhd_linux.c.  The interface through which both take their ids, with
      Id16's allocator as an instance, is at the end of Id16Theorems.
    - FlowRing (the requests and responses, B/dhd_flowring.c, B/dhd_pcie.c) and
      FlowInit (start, end and the events that touch several parts,
      B/dhd_flowring.c, B/dhd_linux.c, B/dhd_common.c): model.  FlowSched (moving
      packets to a ring), FlowSystem (the invariant and the steps that keep it),
      FlowLife (creation and release, events, start and end), FlowRuns (runs of the whole): properties.
    - WlfcTag: the words that travel with a packet, B/include/wlfc_proto.h,
      B/dhd_wlfc.h.  WlfcHanger, WlfcHangerTheorems; WlfcCredit,
      WlfcCreditTheorems; WlfcQueue, WlfcQueueTheorems: the
      hanger, the credits, the suppressed queue and the queues of the packets at
      the dongle, B/dhd_wlfc.c, over the queues of Pktq.
    - The whole of the flow control, B/dhd_wlfc.c.  Model: WlfcHeader,
      WlfcHeaderTheorems (the header of a packet), WlfcState (the state, and the
      monad of steps on it), WlfcSend (the queues of a destination),
      WlfcTransfer (sending, completion and freeing), WlfcEvents (destinations,
      statuses, elements, start).  Properties: WlfcInv (each packet in one place;
      the invariant: places, shape of the packets, counters), WlfcMoves (weakest
      preconditions of the steps; a packet goes from place to place),
      WlfcSendTheorems, WlfcTransferTheorems, WlfcEventsTheorems (each routine
      keeps the invariant), WlfcRunTheorems (runs of the whole).
    - Wbrc, WbrcTheorems: the coordinator of the power line that Wi-Fi and
      Bluetooth share, B/wb_regon_coordinator.c.  It is the one part whose
      routines run interleaved access by access: a routine is a program (a free
      monad) over the accesses, and a world has a program for each thread.
    - RecoveryInit, RecoverySpec, RecoveryTheorems: src/recovery-init/
      recovery_init.c, over a kernel that is a parameter: the model and its
      monad, which keeps the calls also of a run that stops before its end; the
      predicates on runs and the class FileSystem of kernels that behave like a
      file system; the theorems.

    A definition has the name of the C function, macro or type it models; the
    body of a loop or a repeated piece of code has a name of its own and a comment.

    ** How the code is modelled

    - State is passed explicitly: a structure is a record, the packets, list nodes
      and bytes that pointers name are one store that each routine takes and
      returns, so aliasing is visible.  Where a routine writes through its
      caller's pointers, the new values are results.
    - A result of type [option] is [None] where C leaves the behaviour open (an
      access outside an array or through NULL, an overlapping memcpy) or the loop
      does not end.  The theorems that name a [Some] result therefore show that
      neither happens.
    - An unsigned integer of width w is a [Z] that is reduced modulo 2^w after
      every operation that can leave its range; conversions to signed types are
      written out.
    - The build is the board's: ASSERT is empty (the bitmap allocator alone keeps
      its assertions, as an [option], because they say where it fails), the debug, audit and thread
      safety switches of the packet queue and the maps are off, the host is
      little-endian with 64-bit pointers and an unsigned plain char.  ChanSpec
      keeps the three preprocessor switches of its file as a class; its theorems
      are about the instance of the board.

    ** What the theorems show

    - Refinement: every sequence of calls of the packet queues
      (pktq_run_refines), the packet id map (pktid_run_refines), the message ring
      (msgring_run_refines), the bitmap allocator (mwbmap_run_refines), the id
      allocator (id16_run_refines) and the element pool (dll_pool_run_refines)
      stays inside its arrays and behaves as FIFO lists by precedence, a stack of
      ids with a finite map, a queue of slots, a set, a stack and a list (the
      bitmap with fewer than 65536 items).  The
      queue of a flow ring is a bounded FIFO (flow_queue_run_refines), the table
      of flows without TDLS peers a map to distinct ids (flow_table_run_refines),
      the stations lists of addresses, distinct when dhd_add_sta is only called
      for new ones (sta_run_refines); the hanger of the flow control is
      a map from slots to packets unless a status names a slot outside of it
      (hanger_run_refines) and its queues at the
      dongle are lists from which a status takes the packet with its counter
      (afq_run_refines).
    - Composition: in every run of the flow rings with a dongle that answers its
      requests in their order ([drv_enabled] of FlowRuns), whatever the network
      and the events do, no step has a bad access and the rings, the table
      and the queues agree (flow_rings_safe), a packet gets a ring of its flow
      (flow_lookup_right_ring) and the transmit routine gets the packets of a ring
      in order (schedule_queue_spec).  In every run of allowed calls of the flow
      control ([allowed] of WlfcRunTheorems), whatever the bus and the clock
      answer, each call has a result, each packet is in one place with its data
      behind a whole header or none, and the counters pkt_cnt_in_q,
      pkt_cnt_per_ac, pkt_cnt_in_drv and transit_count are the numbers of packets
      (flow_control_runs); a packet stays until the bus completes it
      (packet_stays), and these counters are zero when all packets are gone
      (counters_return).  The total pkt_cnt_in_psq is not one of them (psq_leak).
    - Conservation: no credit of the flow control is made, and none is lost but,
      outside the implied mode, one for each failure of the bus
      (credits_conserved); a packet that comes back goes to its place in the order
      of the counters (prec_enque_in_order).
    - Functional behaviour on every branch: filtering of the queues
      (pktq_filter_spec), the records of the debug ring (dbg_ring_push_spec, which
      also says that a push ends, dbg_ring_pull_spec), searching in element
      buffers (xtlv_buffer_reads and the lemma bcm_parse_tlvs_first) and what the constructors
      of a channel return (chspec_constructors).
    - Round trips: packets under ids (pktid_roundtrip), elements written and read
      (bcm_xtlv_put_appends, and the lemma bcm_write_tlv_parse), the header that is
      pushed on a packet and its elements (header_roundtrip), channels as text
      (wf_chspec_text_roundtrip), addresses and hexadecimal data as text (the
      lemma bcm_address_text_roundtrip).
    - Equivalence with a reference: the table-driven checksums are polynomial
      division (crc_table_driven).
    - Bounds and errors: reads of a ring (msgring_read_spec), the string functions
      (bcm_strings_bounded), the stale padding of the debug ring
      (the lemma dbg_ring_stale_pad) and the record of exactly its size
      (push_exact_size), which dbg_ring_push_spec and dbg_ring_pull_spec exclude.
    - Termination and progress: requests to a ring (msgring_progress), the
      recovery program (recovery_terminates), the iterator over channels (the
      lemma wf_chanspec_iter_visits).
    - The recovery program: what it merges and copies (merge_dir_spec, and the
      lemma copy_file_spec), the calls it can make at all (recovery_calls_allowed), its
      descriptors (recovery_descriptors) and its final states (recovery_outcome).
      These hold for every kernel and wherever a run stops; that a run does get
      to its end is for kernels of the class FileSystem.
    - Concurrency: in every interleaving of the routines of the power line
      coordinator messages are whole and the mutex comes free
      (wbrc_interleavings_safe), and an acknowledgement answers the latest request
      (wl2bt_reset_acknowledged).
    - Safety of the Bloom filter (bloom_no_false_negative).

    Further lemmas of the same kind are in the files, such as pktq_mdeq_priority
    (service by priority), crc_detects_byte, bcm_strtoul_number, bcmstrtok_spec,
    bcm_tlv_advance_spec, bcm_unpack_xtlv_buf_to_mem_spec, bcm_hex_text_roundtrip,
    chspec_parts, wf_freq_channel_inverse, wf_chspec_overlap_spec,
    pretx_tag_fields (the fields of a packet's tag), pktq_flush_spec,
    pktq_pdeq_prev_spec, spktq_delete_node_spec, spktq_enq_chain_spec,
    bcm_mwbmap_init_bounds, crc_good_value, bcm_find_ie_first,
    bcm_pack_xtlv_buf_from_mem_spec, bcm_xtlv_pack_header_reads,
    bcm_unpack_xtlv_entry_spec, bcm_string_compare, bcm_string_search and
    wf_get_all_ext_spec.  Where the code differs from its documentation, an
    Example or a clause of a theorem shows how.

    ** Fuel

    A loop that C bounds by a count recurses on that count.  The others have fuel:
    a loop that reads a new byte in each round has one round more than the memory
    has bytes, so that it ends or leaves the memory before the fuel does
    (fuel_of); the loops over a circular list have the size of the store; the
    loops over 20 MHz sidebands, which step through bytes by 4, have 65 rounds,
    after which they have been in one state twice (sb_fuel); the making of room in
    the debug ring has the number of its bytes; the loops over a queue of packets
    have one round more than the store has packets, the search for a free slot
    of the hanger one more than there are slots.  In the flow control the loop over
    the packets of a category has as many rounds as packets may be sent in it
    (send_ac: a round that sends none ends it), the borrowing of all credits one
    more than there are packets of the category (borrow_all), the loop over
    elements one more than there are bytes (parse_loop); flow_control_runs shows
    that they are enough.  The recovery program
    has (N + 1) * (D + 1) rounds when no file or directory that it reads has more
    than N bytes or entries and the trees are D levels deep: each read takes from
    what is left of its descriptor, and each directory that is entered is lower
    (recovery_terminates).

    ** What is assumed, and what is not modelled

    Nothing is assumed outside the hypotheses of the theorems.  Parameters stand
    for what is not in the repository: the kernel under recovery_init, the dongle
    (the ring index it publishes), the allocator (whether it succeeds) and the
    callbacks of filters, walkers and hashes.  Locks are modelled in Wbrc only:
    elsewhere each operation is a step, as the callers' locks make it.

    The theorems about runs of the flow control are about the mode that
    dhd_wlfc_init chooses for firmware with the old definition of it
    (WLFC_MODE_AFQ), with explicit credits, and about callers that keep to what
    [allowed] of WlfcRunTheorems says: packets are new, have 16 bytes of room and a
    category of at most 4, are not of signals only, and are fewer than a queue can
    count (32767); the bus
    gives back what it has; an element has the bytes that the host reads of it;
    stations and interfaces come, each to an unused entry, and do not leave.
    What leaving does (_dhd_wlfc_cleanup) is modelled in WlfcTransfer.

    Not modelled: the rest of the driver, which is register access, firmware
    messages and the kernel's network, wireless and device interfaces around the
    components; of the flow rings, the map of priorities that comes from a
    firmware variable (dhd_flow_prio_map); of dhd_wlfc.c, the modes with a hanger
    or with reordered sequence numbers above the hanger and the queues
    themselves, statistics, printing, and the settings that the initialisation
    agrees upon with the firmware; the message protocol of dhd_msgbuf.c above
    its rings; the remaining conversions of bcmutils.c; scripts, configuration, device trees,
    firmware. *)

From stdpp Require Export base tactics option list numbers gmap.

#[global] Open Scope Z_scope.

(** ** Machine integers

    A C unsigned integer of width w is a [Z] kept in [0, 2^w); every C
    operation that can leave the range is followed by the wrap of its type. *)
Definition u8 (x : Z) : Z := x mod 256.
Definition u16 (x : Z) : Z := x mod 65536.
Definition u32 (x : Z) : Z := x mod 4294967296.
Definition u64 (x : Z) : Z := x mod 18446744073709551616.

(** Conversion to the signed type of the same width (two's complement). *)
Definition s8 (x : Z) : Z := (x + 128) mod 256 - 128.
Definition s32 (x : Z) : Z := (x + 2147483648) mod 4294967296 - 2147483648.

Lemma u8_small x : 0 <= x < 256 -> u8 x = x.
Proof. apply Z.mod_small. Qed.
Lemma u16_small x : 0 <= x < 65536 -> u16 x = x.
Proof. apply Z.mod_small. Qed.
Lemma u32_small x : 0 <= x < 4294967296 -> u32 x = x.
Proof. apply Z.mod_small. Qed.

Lemma s8_small x : -128 <= x < 128 -> s8 x = x.
Proof. intros H. unfold s8. rewrite Z.mod_small; lia. Qed.
Lemma s32_small x : -2147483648 <= x < 2147483648 -> s32 x = x.
Proof. intros H. unfold s32. rewrite Z.mod_small; lia. Qed.

Lemma u8_range x : 0 <= u8 x < 256.
Proof. apply Z.mod_pos_bound; lia. Qed.
Lemma u16_range x : 0 <= u16 x < 65536.
Proof. apply Z.mod_pos_bound; lia. Qed.
Lemma u32_range x : 0 <= u32 x < 4294967296.
Proof. apply Z.mod_pos_bound; lia. Qed.

Create Rewrite HintDb cint.
Create HintDb cint_range.
#[export] Hint Rewrite u8_small u16_small u32_small s8_small s32_small using lia : cint.
#[export] Hint Resolve u8_range u16_range u32_range : cint_range.

(** ** The option monad as "defined behaviour"

    A routine that dereferences memory returns an [option]: [None] is a run
    that C does not define (a NULL or wild dereference, an index outside an
    array) or that does not end.  [simplify_opt] runs a bind whose computation
    is known. *)
Ltac simplify_opt :=
  repeat match goal with
  | H : ?e = Some _ |- context [?e ≫= _] => rewrite H; cbn [mbind option_bind]
  | H : Some _ ≫= _ = Some _ |- _ => cbn [mbind option_bind] in H
  | H : ?e ≫= _ = Some _ |- _ =>
      let E := fresh "E" in destruct e eqn:E; cbn [mbind option_bind] in H; [|discriminate H]
  | |- context [Some _ ≫= _] => cbn [mbind option_bind]
  end.

(** Splits the conjunctions and existentials of the context. *)
Ltac destruct_ex :=
  repeat match goal with
  | H : _ ∧ _ |- _ => destruct H
  | H : ∃ _, _ |- _ => destruct H
  end.

(** ** Lists *)

Lemma last_cons_is_Some {A} (x : A) l : is_Some (last (x :: l)).
Proof. destruct (last (x :: l)) eqn:E; [eauto|]. by apply last_None in E. Qed.

Lemma last_app_ne {A} (l1 l2 : list A) : l2 ≠ [] -> last (l1 ++ l2) = last l2.
Proof.
  intros Hne. rewrite last_app. destruct l2 as [|x l2]; [done|].
  by destruct (last_cons_is_Some x l2) as [y ->].
Qed.

(** Taking one element out of a list. *)
Lemma filter_ne_id {A} `{EqDecision A} (l : list A) i : i ∉ l -> filter (λ k, k ≠ i) l = l.
Proof.
  induction l as [|k l IH]; intros Hl; [done|]. rewrite filter_cons_True, IH by set_solver. done.
Qed.

Lemma filter_ne_middle {A} `{EqDecision A} (l1 l2 : list A) i :
  NoDup (l1 ++ i :: l2) -> filter (λ k, k ≠ i) (l1 ++ i :: l2) = l1 ++ l2.
Proof.
  intros H. assert (i ∉ l1 ++ l2) as Hi.
  { rewrite <-Permutation_middle in H. by apply NoDup_cons in H as [? _]. }
  rewrite filter_app, filter_cons_False by naive_solver. by rewrite !filter_ne_id by set_solver.
Qed.

(** A stack kept in the first cells of an array, its top in the last of them. *)
Lemma take_stack_pop {A} (a : list A) (x : A) (l : list A) :
  take (length (x :: l)) a = reverse (x :: l) -> a !! length l = Some x ∧ take (length l) a = reverse l.
Proof.
  intros H. assert (length l < length a)%nat as Hlt.
  { pose proof (f_equal length H) as HL. rewrite length_take, length_reverse in HL. cbn [length] in HL. lia. }
  destruct (lookup_lt_is_Some_2 a (length l) Hlt) as [y Hy]. cbn [length] in H.
  rewrite (take_S_r _ _ _ Hy), reverse_cons in H. by apply app_inj_tail in H as [-> ->].
Qed.

Lemma take_stack_push {A} (a : list A) (x : A) (l : list A) :
  (length l < length a)%nat -> take (length l) a = reverse l ->
  take (length (x :: l)) (<[length l := x]> a) = reverse (x :: l).
Proof.
  intros Hlt H. cbn [length].
  rewrite (take_S_r _ _ x) by (by apply list_lookup_insert_eq).
  by rewrite take_insert_ge, H, reverse_cons by lia.
Qed.

(** Distinct numbers of an interval, one of its numbers missing. *)
Lemma NoDup_seqZ_room (l : list Z) (v a n : Z) :
  NoDup l -> v ∉ l -> a <= v < a + n -> (∀ x, x ∈ l -> a <= x < a + n) -> Z.of_nat (length l) < n.
Proof.
  intros Hn Hv Hr Hl. assert (v :: l ⊆+ seqZ a n) as Hsub.
  { apply NoDup_submseteq; [by apply NoDup_cons|].
    intros x [->|Hx]%elem_of_cons; apply elem_of_seqZ; [done|by apply Hl]. }
  apply submseteq_length in Hsub. rewrite length_seqZ in Hsub. cbn [length] in Hsub. lia.
Qed.

(** One iteration of a loop that fills consecutive cells with consecutive
    numbers. *)
Lemma seqZ_fill_step (a : list Z) (i n : nat) (v : Z) :
  (i < length a)%nat ->
  take (S i) (<[i := v]> a) ++ seqZ (v + 1) (Z.of_nat n) ++ drop (S i + n) (<[i := v]> a)
  = take i a ++ seqZ v (Z.of_nat (S n)) ++ drop (i + S n) a.
Proof.
  intros Hi. rewrite (seqZ_cons v (Z.of_nat (S n))) by lia.
  replace (Z.pred (Z.of_nat (S n))) with (Z.of_nat n) by lia. replace (Z.succ v) with (v + 1) by lia.
  rewrite (take_S_r (<[i := v]> a) i v) by (by apply list_lookup_insert_eq).
  rewrite take_insert_ge, drop_insert_lt by lia. rewrite <-app_assoc. simpl. by rewrite Nat.add_succ_r.
Qed.

(** A property of the numbers of an interval, checked by evaluation. *)
Lemma forall_seqZ (f : Z -> bool) (a n : Z) :
  forallb f (seqZ a n) = true -> ∀ x, a <= x < a + n -> f x = true.
Proof. intros H x Hx. apply (proj1 (forallb_forall _ _) H), list_elem_of_In, elem_of_seqZ, Hx. Qed.
