(* ===== verification/Pktq.v ===== *)
(** * hnd_pktq.c: the packet queues (model)

    The packets are socket buffers: the only field the queue code reads or
    writes is [skb->prev] (PKTLINK/PKTSETLINK of include/linux_pkt.h), so the
    shared store is a finite map from packets to their link.  A queue structure
    holds pointers into that store.  Every routine takes and returns the store;
    [None] is a run that dereferences NULL or an unallocated packet, indexes
    outside [q[PKTQ_MAX_PREC]], or loops for ever.

    HND_PKTQ_THREAD_SAFE and WL_TXQ_STALL are not defined by the Makefile: the
    mutex macros are the constant OSL_EXT_SUCCESS and no dequeue_count
    statistics are kept.  ASSERT expands to nothing in this build
    (BCMASSERT_LOG comes only with CONFIG_BCMDHD_DEBUG2): what an ASSERT states
    is a hypothesis of the theorems and not a check of the code.  PKTSETQCALLER
    is empty (include/osl.h). *)

From S2P Require Import Prelude.

Abbreviation pkt := positive.
(** A [void *] to a packet; [None] is NULL. *)
Abbreviation ptr := (option pkt).
Abbreviation heap := (gmap pkt ptr).

Definition PKTLINK (h : heap) (p : pkt) : option ptr := h !! p.

Definition PKTSETLINK (h : heap) (p : pkt) (x : ptr) : option heap :=
  _ ← h !! p; Some (<[p := x]> h).

Definition PKTQ_MAX_PREC : nat := 16.

(** ** The structures of include/hnd_pktq.h *)

Record pktq_prec := mk_prec {
  head : ptr;
  tail : ptr;
  n_pkts : Z;        (* uint16 *)
  max_pkts : Z;      (* uint16 *)
  stall_count : Z;   (* uint16 *)
  dequeue_count : Z  (* uint16 *)
}.

Record pktq := mk_pktq {
  pktqlog : ptr;
  num_prec : Z;      (* uint16 *)
  hi_prec : Z;       (* uint16 *)
  pq_max_pkts : Z;   (* uint16 max_pkts *)
  n_pkts_tot : Z;    (* uint16 *)
  q : list pktq_prec (* q[PKTQ_MAX_PREC] *)
}.

Record spktq := mk_spktq { spq_q : pktq_prec }.

(** Field assignments. *)
Definition set_head (x : ptr) (q : pktq_prec) : pktq_prec :=
  mk_prec x (tail q) (n_pkts q) (max_pkts q) (stall_count q) (dequeue_count q).
Definition set_tail (x : ptr) (q : pktq_prec) : pktq_prec :=
  mk_prec (head q) x (n_pkts q) (max_pkts q) (stall_count q) (dequeue_count q).
Definition set_n_pkts (x : Z) (q : pktq_prec) : pktq_prec :=
  mk_prec (head q) (tail q) x (max_pkts q) (stall_count q) (dequeue_count q).
Definition set_max_pkts (x : Z) (q : pktq_prec) : pktq_prec :=
  mk_prec (head q) (tail q) (n_pkts q) x (stall_count q) (dequeue_count q).
Definition set_hi_prec (x : Z) (pq : pktq) : pktq :=
  mk_pktq (pktqlog pq) (num_prec pq) x (pq_max_pkts pq) (n_pkts_tot pq) (q pq).
Definition set_n_pkts_tot (x : Z) (pq : pktq) : pktq :=
  mk_pktq (pktqlog pq) (num_prec pq) (hi_prec pq) (pq_max_pkts pq) x (q pq).
Definition set_q (x : list pktq_prec) (pq : pktq) : pktq :=
  mk_pktq (pktqlog pq) (num_prec pq) (hi_prec pq) (pq_max_pkts pq) (n_pkts_tot pq) x.

(** [&pq->q[prec]]: the array has PKTQ_MAX_PREC entries. *)
Definition getq (pq : pktq) (prec : Z) : option pktq_prec :=
  if bool_decide (0 <= prec) then q pq !! Z.to_nat prec else None.
Definition putq (prec : Z) (qp : pktq_prec) (pq : pktq) : pktq :=
  set_q (<[Z.to_nat prec := qp]> (q pq)) pq.

Definition isNULL (p : ptr) : bool := match p with None => true | Some _ => false end.

(** [if (pq->hi_prec < prec) pq->hi_prec = (uint8)prec;] *)
Definition raise_hi_prec (prec : Z) (pq : pktq) : pktq :=
  if bool_decide (hi_prec pq < prec) then set_hi_prec (u8 prec) pq else pq.

(** ** Statement sequences shared by the pktq_ and spktq_ variants *)

(** [if (q->head) PKTSETLINK(q->tail, p); else q->head = p;
     q->tail = p; q->n_pkts++;] *)
Definition enq_tail (h : heap) (qp : pktq_prec) (p : pkt) : option (heap * pktq_prec) :=
  '(h, qp) ← (if isNULL (head qp) then Some (h, set_head (Some p) qp)
              else t ← tail qp; h ← PKTSETLINK h t (Some p); Some (h, qp));
  Some (h, set_n_pkts (u16 (n_pkts qp + 1)) (set_tail (Some p) qp)).

(** [if (q->head == NULL) q->tail = p; PKTSETLINK(p, q->head);
     q->head = p; q->n_pkts++;] *)
Definition enq_head (h : heap) (qp : pktq_prec) (p : pkt) : option (heap * pktq_prec) :=
  let qp := if isNULL (head qp) then set_tail (Some p) qp else qp in
  h ← PKTSETLINK h p (head qp);
  Some (h, set_n_pkts (u16 (n_pkts qp + 1)) (set_head (Some p) qp)).

(** [if ((p = q->head) == NULL) goto done;
     if ((q->head = PKTLINK(p)) == NULL) q->tail = NULL;
     q->n_pkts--; PKTSETLINK(p, NULL);] *)
Definition deq_head (h : heap) (qp : pktq_prec) : option (ptr * heap * pktq_prec) :=
  match head qp with
  | None => Some (None, h, qp)
  | Some p =>
      nx ← PKTLINK h p;
      let qp := set_head nx qp in
      let qp := if isNULL nx then set_tail None qp else qp in
      let qp := set_n_pkts (u16 (n_pkts qp - 1)) qp in
      h ← PKTSETLINK h p None;
      Some (Some p, h, qp)
  end.

(** [for (prev = NULL; p != q->tail; p = PKTLINK(p)) prev = p;]
    The loop visits no packet twice unless it runs for ever, so one step more
    than there are packets is all the fuel a terminating run can use. *)
Fixpoint find_tail (fuel : nat) (h : heap) (tl prev p : ptr) : option (ptr * ptr) :=
  if decide (p = tl) then Some (prev, p)
  else match fuel with
       | O => None
       | S fuel => x ← p; nx ← PKTLINK h x; find_tail fuel h tl (Some x) nx
       end.

(** [if ((p = q->head) == NULL) goto done; <find_tail>
     if (prev) PKTSETLINK(prev, NULL); else q->head = NULL;
     q->tail = prev; q->n_pkts--;] *)
Definition deq_tail (h : heap) (qp : pktq_prec) : option (ptr * heap * pktq_prec) :=
  if isNULL (head qp) then Some (None, h, qp)
  else
    '(prev, p) ← find_tail (S (size h)) h (tail qp) None (head qp);
    '(h, qp) ← (match prev with
                | Some x => h ← PKTSETLINK h x None; Some (h, qp)
                | None => Some (h, set_head None qp)
                end);
    Some (p, h, set_n_pkts (u16 (n_pkts qp - 1)) (set_tail prev qp)).

(** [if (q->head) PKTSETLINK(q->tail, list_q->head); else q->head = list_q->head;
     q->tail = list_q->tail; q->n_pkts += list_q->n_pkts;] *)
Definition join_tail (h : heap) (qp lq : pktq_prec) : option (heap * pktq_prec) :=
  '(h, qp) ← (if isNULL (head qp) then Some (h, set_head (head lq) qp)
              else t ← tail qp; h ← PKTSETLINK h t (head lq); Some (h, qp));
  Some (h, set_n_pkts (u16 (n_pkts qp + n_pkts lq)) (set_tail (tail lq) qp)).

(** [PKTSETLINK(list_q->tail, q->head); q->head = list_q->head;
     if (q->tail == NULL) q->tail = list_q->tail; q->n_pkts += list_q->n_pkts;] *)
Definition join_head (h : heap) (qp lq : pktq_prec) : option (heap * pktq_prec) :=
  t ← tail lq;
  h ← PKTSETLINK h t (head qp);
  let qp := set_head (head lq) qp in
  let qp := if isNULL (tail qp) then set_tail (tail lq) qp else qp in
  Some (h, set_n_pkts (u16 (n_pkts qp + n_pkts lq)) qp).

(** [list_q->head = NULL; list_q->tail = NULL; list_q->n_pkts = 0;] *)
Definition clear_list (lq : pktq_prec) : pktq_prec :=
  set_n_pkts 0 (set_tail None (set_head None lq)).

(** ** Enqueue *)

Definition pktq_penq (h : heap) (pq : pktq) (prec : Z) (p : pkt)
    : option (ptr * heap * pktq) :=
  qp ← getq pq prec;
  '(h, qp) ← enq_tail h qp p;
  let pq := putq prec qp pq in
  let pq := set_n_pkts_tot (u16 (n_pkts_tot pq + 1)) pq in
  Some (Some p, h, raise_hi_prec prec pq).

(** Returns [dspq] itself in C; the source queue is not written. *)
Definition spktq_enq_chain (h : heap) (dspq sspq : spktq) : option (heap * spktq) :=
  let dq := spq_q dspq in
  let sq := spq_q sspq in
  '(h, dq) ← join_tail h dq sq;
  Some (h, mk_spktq dq).

Definition spktq_enq (h : heap) (spq : spktq) (p : pkt) : option (ptr * heap * spktq) :=
  h ← PKTSETLINK h p None;
  '(h, qp) ← enq_tail h (spq_q spq) p;
  Some (Some p, h, mk_spktq qp).

Definition pktq_penq_head (h : heap) (pq : pktq) (prec : Z) (p : pkt)
    : option (ptr * heap * pktq) :=
  qp ← getq pq prec;
  '(h, qp) ← enq_head h qp p;
  let pq := putq prec qp pq in
  let pq := set_n_pkts_tot (u16 (n_pkts_tot pq + 1)) pq in
  Some (Some p, h, raise_hi_prec prec pq).

Definition spktq_enq_head (h : heap) (spq : spktq) (p : pkt) : option (ptr * heap * spktq) :=
  h ← PKTSETLINK h p None;
  '(h, qp) ← enq_head h (spq_q spq) p;
  Some (Some p, h, mk_spktq qp).

(** ** Dequeue *)

(** Stores the queue of [prec] back after a removal attempt: the total is
    decremented only when a packet was removed. *)
Definition commit_deq (prec : Z) (p : ptr) (qp : pktq_prec) (pq : pktq) : pktq :=
  let pq := putq prec qp pq in
  if isNULL p then pq else set_n_pkts_tot (u16 (n_pkts_tot pq - 1)) pq.

Definition pktq_pdeq (h : heap) (pq : pktq) (prec : Z) : option (ptr * heap * pktq) :=
  qp ← getq pq prec;
  '(p, h, qp) ← deq_head h qp;
  Some (p, h, commit_deq prec p qp pq).

Definition spktq_deq (h : heap) (spq : spktq) : option (ptr * heap * spktq) :=
  '(p, h, qp) ← deq_head h (spq_q spq);
  Some (p, h, mk_spktq qp).

Definition spktq_delete_node (h : heap) (spq : spktq) (prev cur : ptr)
    : option (ptr * heap * spktq) :=
  if decide (cur = head (spq_q spq)) then
    '(_, h, spq) ← spktq_deq h spq;
    Some (head (spq_q spq), h, spq)
  else match cur, prev with
       | Some c, Some pv =>
           next ← PKTLINK h c;
           h ← PKTSETLINK h pv next;
           h ← PKTSETLINK h c None;
           let qp := spq_q spq in
           Some (next, h, mk_spktq (set_n_pkts (u16 (n_pkts qp - 1)) qp))
       | _, _ => Some (None, h, spq)
       end.

(** OSL_PHYS_TO_VIRT_ADDR is the identity on the host. *)
Definition spktq_deq_virt (h : heap) (spq : spktq) : option (ptr * heap * spktq) :=
  '(p, h, qp) ← deq_head h (spq_q spq);
  Some (p, h, mk_spktq qp).

Definition pktq_pdeq_tail (h : heap) (pq : pktq) (prec : Z) : option (ptr * heap * pktq) :=
  qp ← getq pq prec;
  '(p, h, qp) ← deq_tail h qp;
  Some (p, h, commit_deq prec p qp pq).

Definition spktq_deq_tail (h : heap) (spq : spktq) : option (ptr * heap * spktq) :=
  '(p, h, qp) ← deq_tail h (spq_q spq);
  Some (p, h, mk_spktq qp).

(** [for (prec = 0; prec < pq->hi_prec; prec++) if (pq->q[prec].head) break;]
    with [k] iterations left, starting at [prec]. *)
Fixpoint lowest_prec (k : nat) (pq : pktq) (prec : Z) : option Z :=
  match k with
  | O => Some prec
  | S k => qp ← getq pq prec;
           if isNULL (head qp) then lowest_prec k pq (prec + 1) else Some prec
  end.

(** The second component is what is stored through [prec_out]: [None] when
    nothing is stored.  A NULL [prec_out] discards it. *)
Definition pktq_peek_tail (pq : pktq) : option (ptr * option Z) :=
  if bool_decide (n_pkts_tot pq = 0) then Some (None, None)
  else
    prec ← lowest_prec (Z.to_nat (hi_prec pq)) pq 0;
    qp ← getq pq prec;
    Some (tail qp, Some prec).

(** ** Whole lists *)

Definition pktq_append (h : heap) (pq : pktq) (prec : Z) (list : spktq)
    : option (heap * pktq * spktq) :=
  let lq := spq_q list in
  if isNULL (head lq) then Some (h, pq, list)
  else
    qp ← getq pq prec;
    '(h, qp) ← join_tail h qp lq;
    let pq := putq prec qp pq in
    let pq := set_n_pkts_tot (u16 (n_pkts_tot pq + n_pkts lq)) pq in
    Some (h, raise_hi_prec prec pq, mk_spktq (clear_list lq)).

Definition spktq_append (h : heap) (spq list : spktq) : option (heap * spktq * spktq) :=
  let lq := spq_q list in
  if isNULL (head lq) then Some (h, spq, list)
  else
    '(h, qp) ← join_tail h (spq_q spq) lq;
    Some (h, mk_spktq qp, mk_spktq (clear_list lq)).

Definition pktq_prepend (h : heap) (pq : pktq) (prec : Z) (list : spktq)
    : option (heap * pktq * spktq) :=
  let lq := spq_q list in
  if isNULL (head lq) then Some (h, pq, list)
  else
    qp ← getq pq prec;
    '(h, qp) ← join_head h qp lq;
    let pq := putq prec qp pq in
    let pq := set_n_pkts_tot (u16 (n_pkts_tot pq + n_pkts lq)) pq in
    Some (h, raise_hi_prec prec pq, mk_spktq (clear_list lq)).

Definition spktq_prepend (h : heap) (spq list : spktq) : option (heap * spktq * spktq) :=
  let lq := spq_q list in
  if isNULL (head lq) then Some (h, spq, list)
  else
    '(h, qp) ← join_head h (spq_q spq) lq;
    Some (h, mk_spktq qp, mk_spktq (clear_list lq)).

(** ** Removal from the middle *)

Definition pktq_pdeq_prev (h : heap) (pq : pktq) (prec : Z) (prev_p : ptr)
    : option (ptr * heap * pktq) :=
  qp ← getq pq prec;
  match prev_p with
  | None => Some (None, h, pq)
  | Some pv =>
      p ← PKTLINK h pv;
      match p with
      | None => Some (None, h, pq)
      | Some x =>
          let qp := set_n_pkts (u16 (n_pkts qp - 1)) qp in
          let pq := putq prec qp pq in
          let pq := set_n_pkts_tot (u16 (n_pkts_tot pq - 1)) pq in
          nx ← PKTLINK h x;
          h ← PKTSETLINK h pv nx;
          h ← PKTSETLINK h x None;
          Some (p, h, pq)
      end
  end.

(** [while (p) if (fn == NULL || fn(p, arg)) break; else prev = p, p = PKTLINK(p);] *)
Fixpoint find_match (fuel : nat) (h : heap) (fn : pkt -> bool) (prev p : ptr)
    : option (ptr * ptr) :=
  match p with
  | None => Some (prev, None)
  | Some x =>
      if fn x then Some (prev, p)
      else match fuel with
           | O => None
           | S fuel => nx ← PKTLINK h x; find_match fuel h fn p nx
           end
  end.

(** [fn == NULL || ( *fn)(p, arg)]: a NULL predicate is [None]. *)
Definition match_fn (fn : option (pkt -> Z -> bool)) (arg : Z) (x : pkt) : bool :=
  match fn with None => true | Some f => f x arg end.

Definition pktq_pdeq_with_fn (h : heap) (pq : pktq) (prec : Z)
    (fn : option (pkt -> Z -> bool)) (arg : Z) : option (ptr * heap * pktq) :=
  qp ← getq pq prec;
  '(prev, p) ← find_match (S (size h)) h (match_fn fn arg) None (head qp);
  match p with
  | None => Some (None, h, pq)
  | Some x =>
      nx ← PKTLINK h x;
      '(h, qp) ← (match prev with
                  | None =>
                      let qp := set_head nx qp in
                      Some (h, if isNULL nx then set_tail None qp else qp)
                  | Some pv =>
                      h ← PKTSETLINK h pv nx;
                      Some (h, if decide (tail qp = p) then set_tail prev qp else qp)
                  end);
      let qp := set_n_pkts (u16 (n_pkts qp - 1)) qp in
      h ← PKTSETLINK h x None;
      Some (p, h, commit_deq prec p qp pq)
  end.

(** [for (p = q->head; p && PKTLINK(p) != pktbuf; p = PKTLINK(p));] *)
Fixpoint find_pred (fuel : nat) (h : heap) (pktbuf : pkt) (p : ptr) : option ptr :=
  match p with
  | None => Some None
  | Some x =>
      nx ← PKTLINK h x;
      if decide (nx = Some pktbuf) then Some p
      else match fuel with O => None | S fuel => find_pred fuel h pktbuf nx end
  end.

Definition pktq_pdel (h : heap) (pq : pktq) (pktbuf : ptr) (prec : Z)
    : option (bool * heap * pktq) :=
  match pktbuf with
  | None => Some (false, h, pq)
  | Some b =>
      qp ← getq pq prec;
      let finish h qp :=
        h ← PKTSETLINK h b None;
        Some (true, h, commit_deq prec pktbuf (set_n_pkts (u16 (n_pkts qp - 1)) qp) pq) in
      if decide (head qp = pktbuf) then
        nx ← PKTLINK h b;
        let qp := set_head nx qp in
        finish h (if isNULL nx then set_tail None qp else qp)
      else
        p ← find_pred (S (size h)) h b (head qp);
        match p with
        | None => Some (false, h, pq)
        | Some x =>
            nx ← PKTLINK h b;
            h ← PKTSETLINK h x nx;
            finish h (if decide (tail qp = pktbuf) then set_tail p qp else qp)
        end
  end.

(** ** Filtering and flushing

    The caller's callbacks get the packet store and a state of their own ([W]:
    the [ctx] pointers and whatever they reach); they may free or re-link the
    packet they are given.  A callback that works on the queue being filtered
    or flushed is outside the model (hnd_pktq.h warns against it). *)

Inductive pktq_filter_result :=
  | PKT_FILTER_NOACTION
  | PKT_FILTER_DELETE
  | PKT_FILTER_REMOVE.

Section Callbacks.
Context {W : Type}.

(** [pktq_filter_t] with its [fltr_ctx], [defer_free_pkt_fn_t] with its
    [defer_ctx], [flush_free_pkt_fn_t] with its [flush_ctx]. *)
Abbreviation pktq_filter_t := (W -> heap -> pkt -> option (W * heap * pktq_filter_result)).
Abbreviation defer_free_pkt_fn_t := (W -> heap -> pkt -> option (W * heap)).
Abbreviation flush_free_pkt_fn_t := (W -> heap -> option (W * heap)).

(** The loop over the work queue, of which only [wq.head] is read again;
    [penq] is the re-insertion of the caller's queue type [Q]. *)
Fixpoint filter_loop {Q} (fuel : nat) (fltr : pktq_filter_t) (defer : defer_free_pkt_fn_t)
    (penq : heap -> Q -> pkt -> option (ptr * heap * Q))
    (w : W) (h : heap) (pq : Q) (wq_head : ptr) : option (W * heap * Q) :=
  match wq_head with
  | None => Some (w, h, pq)
  | Some p =>
      match fuel with
      | O => None
      | S fuel =>
          wq_head ← PKTLINK h p;
          h ← PKTSETLINK h p None;
          '(w, h, r) ← fltr w h p;
          '(w, h, pq) ← (match r with
                         | PKT_FILTER_NOACTION => '(_, h, pq) ← penq h pq p; Some (w, h, pq)
                         | PKT_FILTER_DELETE => '(w, h) ← defer w h p; Some (w, h, pq)
                         | PKT_FILTER_REMOVE => Some (w, h, pq)
                         end);
          filter_loop fuel fltr defer penq w h pq wq_head
      end
  end.

Definition _pktq_pfilter (fltr : pktq_filter_t) (defer : defer_free_pkt_fn_t)
    (w : W) (h : heap) (pq : pktq) (prec : Z) : option (W * heap * pktq) :=
  wq ← getq pq prec;
  let pq := putq prec (clear_list wq) pq in
  let pq := set_n_pkts_tot (u16 (n_pkts_tot pq - n_pkts wq)) pq in
  filter_loop (S (size h)) fltr defer (fun h pq p => pktq_penq h pq prec p) w h pq (head wq).

Definition pktq_pfilter (fltr : pktq_filter_t) (defer : defer_free_pkt_fn_t)
    (flush : flush_free_pkt_fn_t) (w : W) (h : heap) (pq : pktq) (prec : Z)
    : option (W * heap * pktq) :=
  '(w, h, pq) ← _pktq_pfilter fltr defer w h pq prec;
  '(w, h) ← flush w h;
  Some (w, h, pq).

(** [PKTQ_PREC_ITER(pq, prec)]: from [num_prec - 1] down to 0; [k] precedences
    are left. *)
Fixpoint prec_iter {A} (k : nat) (body : A -> Z -> option A) (a : A) : option A :=
  match k with
  | O => Some a
  | S k => a ← body a (Z.of_nat k); prec_iter k body a
  end.

Definition pktq_filter (fltr : pktq_filter_t) (defer : defer_free_pkt_fn_t)
    (flush : flush_free_pkt_fn_t) (w : W) (h : heap) (pq : pktq)
    : option (W * heap * pktq) :=
  if bool_decide (n_pkts_tot pq > 0) then
    '(w, h, pq) ← prec_iter (Z.to_nat (num_prec pq))
                    (fun '(w, h, pq) prec => _pktq_pfilter fltr defer w h pq prec) (w, h, pq);
    '(w, h) ← flush w h;
    Some (w, h, pq)
  else Some (w, h, pq).

Definition spktq_filter (fltr : pktq_filter_t) (defer : defer_free_pkt_fn_t)
    (flush : flush_free_pkt_fn_t) (w : W) (h : heap) (spq : spktq)
    : option (W * heap * spktq) :=
  let wq := spq_q spq in
  if bool_decide (n_pkts wq = 0) then Some (w, h, spq)
  else
    '(w, h, spq) ← filter_loop (S (size h)) fltr defer spktq_enq w h
                     (mk_spktq (clear_list wq)) (head wq);
    '(w, h) ← flush w h;
    Some (w, h, spq).

(** PKTFREE is linux_pktfree of linux_pkt.c: a callback of this model. *)
Context (PKTFREE : W -> heap -> pkt -> bool -> option (W * heap)).

(** [while ((p = <deq>) != NULL) <free p>] *)
Fixpoint flush_loop {Q} (fuel : nat) (deq : heap -> Q -> option (ptr * heap * Q))
    (free : W -> heap -> pkt -> option (W * heap))
    (w : W) (h : heap) (pq : Q) : option (W * heap * Q) :=
  '(p, h, pq) ← deq h pq;
  match p with
  | None => Some (w, h, pq)
  | Some x =>
      match fuel with
      | O => None
      | S fuel => '(w, h) ← free w h x; flush_loop fuel deq free w h pq
      end
  end.

Definition pktq_pflush (w : W) (h : heap) (pq : pktq) (prec : Z) (dir : bool)
    : option (W * heap * pktq) :=
  flush_loop (S (size h)) (fun h pq => pktq_pdeq h pq prec)
    (fun w h p => PKTFREE w h p dir) w h pq.

Definition spktq_flush_ext (w : W) (h : heap) (spq : spktq) (dir : bool)
    (pktq_flush_cb : option (W -> heap -> pkt -> option (W * heap)))
    : option (W * heap * spktq) :=
  flush_loop (S (size h)) spktq_deq
    (fun w h pkt =>
       '(w, h) ← (match pktq_flush_cb with
                  | Some cb => cb w h pkt
                  | None => Some (w, h)
                  end);
       PKTFREE w h pkt dir) w h spq.

Definition pktq_flush (w : W) (h : heap) (pq : pktq) (dir : bool)
    : option (W * heap * pktq) :=
  if bool_decide (n_pkts_tot pq > 0) then
    prec_iter (Z.to_nat (num_prec pq))
      (fun '(w, h, pq) prec => pktq_pflush w h pq prec dir) (w, h, pq)
  else Some (w, h, pq).
End Callbacks.

(** ** Initialisation *)

Definition zero_prec : pktq_prec := mk_prec None None 0 0 0 0.

(** [bzero] clears the header and the first [num_prec] queues only; beyond
    PKTQ_MAX_PREC it would write outside the structure. *)
Definition pktq_init (pq : pktq) (num_prec max_pkts : Z) : option (bool * pktq) :=
  let n := Z.to_nat num_prec in
  if decide ((n <= length (q pq))%nat) then
    let m := u16 max_pkts in
    Some (true, mk_pktq None (u16 num_prec) 0 m 0
                  (replicate n (set_max_pkts m zero_prec) ++ drop n (q pq)))
  else None.

Definition spktq_init (max_pkts : Z) : bool * spktq :=
  (true, mk_spktq (set_max_pkts (u16 max_pkts) zero_prec)).

Definition spktq_init_list (h : heap) (max_pkts : Z) (hd tl : ptr) (n : Z)
    : option (bool * heap * spktq) :=
  t ← tl;
  h ← PKTSETLINK h t None;
  Some (true, h, mk_spktq (mk_prec hd tl n (u16 max_pkts) 0 0)).

Definition pktq_deinit (pq : pktq) : bool := true.
Definition spktq_deinit (spq : spktq) : bool := true.

Definition pktq_set_max_plen (pq : pktq) (prec max_pkts : Z) : option pktq :=
  if bool_decide (prec < num_prec pq) then
    qp ← getq pq prec;
    Some (putq prec (set_max_pkts (u16 max_pkts) qp) pq)
  else Some pq.

(** ** Dequeue by precedence *)

(** [while ((prec = pq->hi_prec) > 0 && pq->q[prec].head == NULL) pq->hi_prec--;]
    where [n] is [pq->hi_prec]. *)
Fixpoint lower_hi_prec (n : nat) (pq : pktq) : option pktq :=
  match n with
  | O => Some pq
  | S m => qp ← getq pq (Z.of_nat n);
           if isNULL (head qp) then lower_hi_prec m (set_hi_prec (Z.of_nat m) pq) else Some pq
  end.

Definition pktq_deq (h : heap) (pq : pktq) : option (ptr * option Z * heap * pktq) :=
  if bool_decide (n_pkts_tot pq = 0) then Some (None, None, h, pq)
  else
    pq ← lower_hi_prec (Z.to_nat (hi_prec pq)) pq;
    let prec := hi_prec pq in
    qp ← getq pq prec;
    '(p, h, qp) ← deq_head h qp;
    Some (p, (if isNULL p then None else Some prec), h, commit_deq prec p qp pq).

Definition pktq_deq_tail (h : heap) (pq : pktq) : option (ptr * option Z * heap * pktq) :=
  if bool_decide (n_pkts_tot pq = 0) then Some (None, None, h, pq)
  else
    prec ← lowest_prec (Z.to_nat (hi_prec pq)) pq 0;
    qp ← getq pq prec;
    if isNULL (head qp) then Some (None, None, h, pq)
    else
      '(p, h, qp) ← deq_tail h qp;
      x ← p;
      h ← PKTSETLINK h x None;
      Some (p, Some prec, h, commit_deq prec p qp pq).

Definition pktq_peek (pq : pktq) : option (ptr * option Z * pktq) :=
  if bool_decide (n_pkts_tot pq = 0) then Some (None, None, pq)
  else
    pq ← lower_hi_prec (Z.to_nat (hi_prec pq)) pq;
    qp ← getq pq (hi_prec pq);
    Some (head qp, Some (hi_prec pq), pq).

Definition spktq_peek (spq : spktq) : ptr :=
  if bool_decide (n_pkts (spq_q spq) = 0) then None else head (spq_q spq).

(** [for (prec = 0; prec <= pq->hi_prec; prec++)
       if (prec_bmp & (1u << prec)) len += pq->q[prec].n_pkts;] *)
Fixpoint mlen_loop (k : nat) (pq : pktq) (prec_bmp prec len : Z) : option Z :=
  match k with
  | O => Some len
  | S k =>
      if Z.testbit prec_bmp prec then
        qp ← getq pq prec; mlen_loop k pq prec_bmp (prec + 1) (len + n_pkts qp)
      else mlen_loop k pq prec_bmp (prec + 1) len
  end.

Definition pktq_mlen (pq : pktq) (prec_bmp : Z) : option Z :=
  mlen_loop (S (Z.to_nat (hi_prec pq))) pq prec_bmp 0 0.

(** [while ((prec_bmp & (1u << prec)) == 0 || pq->q[prec].head == NULL)
       if (prec-- == 0) goto done;]
    [Some None] is the jump to [done].  pktq_mdeq tests the head first. *)
Fixpoint mpeek_scan (prec : nat) (pq : pktq) (prec_bmp : Z) : option (option Z) :=
  empty ← (if Z.testbit prec_bmp (Z.of_nat prec)
           then qp ← getq pq (Z.of_nat prec); Some (isNULL (head qp))
           else Some true);
  if (empty : bool) then match prec with
                | O => Some None
                | S prec => mpeek_scan prec pq prec_bmp
                end
  else Some (Some (Z.of_nat prec)).

Fixpoint mdeq_scan (prec : nat) (pq : pktq) (prec_bmp : Z) : option (option Z) :=
  qp ← getq pq (Z.of_nat prec);
  if isNULL (head qp) || negb (Z.testbit prec_bmp (Z.of_nat prec))
  then match prec with
       | O => Some None
       | S prec => mdeq_scan prec pq prec_bmp
       end
  else Some (Some (Z.of_nat prec)).

Definition pktq_mpeek (pq : pktq) (prec_bmp : Z) : option (ptr * option Z * pktq) :=
  if bool_decide (n_pkts_tot pq = 0) then Some (None, None, pq)
  else
    pq ← lower_hi_prec (Z.to_nat (hi_prec pq)) pq;
    r ← mpeek_scan (Z.to_nat (hi_prec pq)) pq prec_bmp;
    match r with
    | None => Some (None, None, pq)
    | Some prec =>
        qp ← getq pq prec;
        Some (head qp, (if isNULL (head qp) then None else Some prec), pq)
    end.

Definition pktq_mdeq (h : heap) (pq : pktq) (prec_bmp : Z)
    : option (ptr * option Z * heap * pktq) :=
  if bool_decide (n_pkts_tot pq = 0) then Some (None, None, h, pq)
  else
    pq ← lower_hi_prec (Z.to_nat (hi_prec pq)) pq;
    r ← mdeq_scan (Z.to_nat (hi_prec pq)) pq prec_bmp;
    match r with
    | None => Some (None, None, h, pq)
    | Some prec =>
        qp ← getq pq prec;
        '(p, h, qp) ← deq_head h qp;
        let qp := if negb (isNULL p) && bool_decide (n_pkts qp = 0)
                  then set_tail None (set_head None qp) else qp in
        Some (p, (if isNULL p then None else Some prec), h, commit_deq prec p qp pq)
    end.

(** ** The size macros of include/hnd_pktq.h *)

Definition pktqprec_avail_pkts (qp : pktq_prec) : Z := max_pkts qp - n_pkts qp.
Definition pktqprec_full (qp : pktq_prec) : bool := bool_decide (max_pkts qp <= n_pkts qp).
Definition pktq_avail (pq : pktq) : Z := pq_max_pkts pq - n_pkts_tot pq.
Definition pktq_full (pq : pktq) : bool := bool_decide (pq_max_pkts pq <= n_pkts_tot pq).
Definition spktq_avail (spq : spktq) : Z := max_pkts (spq_q spq) - n_pkts (spq_q spq).
Definition spktq_full (spq : spktq) : bool :=
  bool_decide (max_pkts (spq_q spq) <= n_pkts (spq_q spq)).

(** ** The registered free and suppress callbacks

    [spktq_cbinfo] and [spktq_suppress_cbinfo] are one-element stores holding a
    callback and its argument. *)
Record cbinfo (C A : Type) := mk_cbinfo { cb : option C; cb_arg : option A }.
Arguments mk_cbinfo {C A}.
Arguments cb {C A}.
Arguments cb_arg {C A}.

Section Registration.
Context {W A S : Type}.

(** [cb(arg, spq)]: a registered callback gets its argument and the queue. *)
Abbreviation spktq_cb_t := (option A -> S -> W -> W).
Abbreviation spktq_suppress_cb_t := (option A -> S -> W -> Z * W).

Definition spktq_free_register (f : option spktq_cb_t) (arg : option A) : cbinfo spktq_cb_t A :=
  mk_cbinfo f arg.

Definition spktq_cb (info : cbinfo spktq_cb_t A) (spq : S) (w : W) : W :=
  match cb info with
  | Some f => f (cb_arg info) spq w
  | None => w
  end.

Definition spktq_suppress_register (f : option spktq_suppress_cb_t) (arg : option A)
    : cbinfo spktq_suppress_cb_t A := mk_cbinfo f arg.

(** BCME_UNSUPPORTED (-23) converted to the uint32 return type. *)
Definition spktq_suppress_cb (info : cbinfo spktq_suppress_cb_t A) (spq : S) (w : W) : Z * W :=
  match cb info with
  | Some f => f (cb_arg info) spq w
  | None => (u32 (-23), w)
  end.
End Registration.
