(* ===== verification/PktqSpec.v ===== *)
(** * hnd_pktq.c: representation invariant and refinement

    [lseg] is a linked segment of the packet store, [qrep] says that a
    [struct pktq_prec] represents a list of packets, [pqrep] that a
    [struct pktq] represents one list per precedence. *)

From S2P Require Import Prelude Pktq.

(** ** Linked segments *)

Fixpoint lseg (h : heap) (p : ptr) (l : list pkt) (r : ptr) : Prop :=
  match l with
  | [] => p = r
  | x :: l => p = Some x ∧ ∃ nx, h !! x = Some nx ∧ lseg h nx l r
  end.

Lemma lseg_app h p l1 l2 r :
  lseg h p (l1 ++ l2) r ↔ ∃ m, lseg h p l1 m ∧ lseg h m l2 r.
Proof.
  revert p. induction l1 as [|x l1 IH]; intros p; simpl.
  - naive_solver.
  - setoid_rewrite IH. naive_solver.
Qed.

Lemma lseg_snoc h p l x r :
  lseg h p (l ++ [x]) r ↔ lseg h p l (Some x) ∧ h !! x = Some r.
Proof. rewrite lseg_app. simpl. naive_solver. Qed.

Lemma lseg_frame h h' p l r :
  (∀ x, x ∈ l -> h' !! x = h !! x) -> lseg h p l r -> lseg h' p l r.
Proof.
  revert p. induction l as [|x l IH]; intros p Hf; simpl; [done|].
  intros (-> & nx & Hx & Hl). split; [done|]. exists nx. split.
  - rewrite Hf; [done|left].
  - apply IH; [|done]. intros y Hy. apply Hf. by right.
Qed.

(** A NULL-terminated list is determined by its first pointer, hence acyclic. *)
Lemma lseg_fun h p l1 l2 : lseg h p l1 None -> lseg h p l2 None -> l1 = l2.
Proof.
  revert p l2. induction l1 as [|x l1 IH]; intros p [|y l2]; simpl.
  - done.
  - by intros -> [? _].
  - by intros [-> _] ?.
  - intros (-> & nx & Hx & H1) (Heq & ny & Hy & H2). simplify_eq. f_equal. eauto.
Qed.

Lemma lseg_dom h p l r x : lseg h p l r -> x ∈ l -> is_Some (h !! x).
Proof.
  revert p. induction l as [|y l IH]; intros p; simpl; [set_solver|].
  intros (-> & nx & Hy & Hl) [->|Hx]%elem_of_cons; eauto.
Qed.

Lemma lseg_NoDup h p l : lseg h p l None -> NoDup l.
Proof.
  revert p. induction l as [|x l IH]; intros p; [constructor|].
  intros (-> & nx & Hx & Hl). constructor; [|eauto].
  intros (l1 & l2 & ->)%list_elem_of_split.
  pose proof Hl as (m & _ & (Hm & ny & Hy & H2))%lseg_app.
  rewrite Hx in Hy. simplify_eq.
  pose proof (f_equal length (lseg_fun _ _ _ _ Hl H2)) as Hlen.
  rewrite length_app in Hlen. simpl in Hlen. lia.
Qed.

Lemma lseg_length h p l : lseg h p l None -> (length l <= size h)%nat.
Proof.
  intros Hl. pose proof (lseg_NoDup _ _ _ Hl) as Hnd.
  rewrite <-size_dom, <-(size_list_to_set (C := gset pkt) l) by done.
  apply subseteq_size. intros x Hx%elem_of_list_to_set.
  apply elem_of_dom. eauto using lseg_dom.
Qed.

(** Rewriting the last link of a segment moves its end. *)
Lemma lseg_relink h p l x r r' :
  x ∉ l -> lseg h p (l ++ [x]) r -> lseg (<[x := r']> h) p (l ++ [x]) r'.
Proof.
  intros Hx [Hl _]%lseg_snoc. apply lseg_snoc. split; [|by simplify_map_eq].
  eapply lseg_frame; [|done]. intros y Hy. rewrite lookup_insert_ne; [done|].
  intros ->. done.
Qed.

Lemma lseg_insert_notin h p l r x v :
  x ∉ l -> lseg h p l r -> lseg (<[x := v]> h) p l r.
Proof.
  intros Hx. apply lseg_frame. intros y Hy. rewrite lookup_insert_ne; [done|].
  intros ->. done.
Qed.

Lemma PKTSETLINK_Some h p x : is_Some (h !! p) -> PKTSETLINK h p x = Some (<[p := x]> h).
Proof. unfold PKTSETLINK. by intros [v ->]. Qed.

(** ** One queue *)

(** [qp] holds the packets [l], first to last. *)
Record qrep (h : heap) (qp : pktq_prec) (l : list pkt) : Prop := {
  qrep_seg : lseg h (head qp) l None;
  qrep_tail : tail qp = last l;
  qrep_len : n_pkts qp = Z.of_nat (length l);
  qrep_bound : n_pkts qp < 65536
}.

Create HintDb pktq.
#[export] Hint Resolve qrep_seg qrep_tail qrep_len qrep_bound : pktq.

(** [h'] differs from [h] only on the packets of [l], and allocates nothing. *)
Definition frame (l : list pkt) (h h' : heap) : Prop :=
  dom h' = dom h ∧ ∀ x, x ∉ l -> h' !! x = h !! x.

Lemma frame_refl l h : frame l h h.
Proof. split; auto. Qed.

Lemma frame_insert l h x v : x ∈ l -> is_Some (h !! x) -> frame l h (<[x := v]> h).
Proof.
  intros Hx Hd%elem_of_dom. split; [set_solver|].
  intros y Hy. rewrite lookup_insert_ne; [done|]. intros ->. done.
Qed.

Lemma frame_trans l h1 h2 h3 : frame l h1 h2 -> frame l h2 h3 -> frame l h1 h3.
Proof. intros [Hd1 H1] [Hd2 H2]. split; [congruence|]. intros. rewrite H2; auto. Qed.

Lemma frame_mono l l' h h' : l ⊆ l' -> frame l h h' -> frame l' h h'.
Proof. intros Hl [Hd H]. split; [done|]. intros x Hx. apply H. set_solver. Qed.

Lemma frame_Some l h h' x : frame l h h' -> is_Some (h !! x) -> is_Some (h' !! x).
Proof. intros [Hd _]. rewrite <-!elem_of_dom. by rewrite Hd. Qed.

Lemma qrep_frame h h' qp l : (∀ x, x ∈ l -> h' !! x = h !! x) -> qrep h qp l -> qrep h' qp l.
Proof. intros Hf [H1 H2 H3 H4]. split; eauto using lseg_frame. Qed.

Lemma qrep_nil_iff h qp l : qrep h qp l -> (isNULL (head qp) = true <-> l = []).
Proof. intros [Hs _ _ _]. destruct l; simpl in Hs; [by rewrite Hs|]. destruct Hs as [-> _]. by split. Qed.

Lemma qrep_n_pkts h qp l : qrep h qp l -> 0 <= n_pkts qp < 65536.
Proof. intros [_ _ Hn Hb]. lia. Qed.

(** A queue is empty, or it has a first packet with a link, or it has a last one. *)
Lemma qrep_cons_inv h qp x l :
  qrep h qp (x :: l) ->
  head qp = Some x ∧ x ∉ l ∧ ∃ nx, h !! x = Some nx ∧ lseg h nx l None.
Proof.
  intros [Hs _ _ _]. pose proof (lseg_NoDup _ _ _ Hs) as Hnd.
  apply NoDup_cons in Hnd as [Hx _]. destruct Hs as (-> & Hs). by split_and!.
Qed.

Lemma qrep_snoc_inv h qp l x :
  qrep h qp (l ++ [x]) ->
  tail qp = Some x ∧ x ∉ l ∧ lseg h (head qp) l (Some x) ∧ h !! x = Some None.
Proof.
  intros [Hs Ht _ _]. rewrite last_snoc in Ht.
  pose proof (lseg_NoDup _ _ _ Hs) as Hnd. apply lseg_snoc in Hs.
  apply NoDup_app in Hnd as (_ & Hd & _).
  split; [done|]. split; [|done]. intros Hx. apply (Hd x Hx). set_solver.
Qed.

(** ** The shared statement sequences on one queue

    [same_limits] : the fields the queue operations never touch. *)
Definition same_limits (q1 q2 : pktq_prec) : Prop :=
  max_pkts q1 = max_pkts q2 ∧ stall_count q1 = stall_count q2
  ∧ dequeue_count q1 = dequeue_count q2.

Ltac cell :=
  unfold same_limits; split_and!; simpl;
  try solve [done | by apply frame_refl | rewrite ?length_app, ?u16_small by (simpl; lia); simpl; lia].

Lemma enq_tail_spec h qp l p :
  qrep h qp l -> p ∉ l -> h !! p = Some None -> Z.of_nat (length l) + 1 < 65536 ->
  ∃ h' qp', enq_tail h qp p = Some (h', qp') ∧ qrep h' qp' (l ++ [p])
            ∧ frame l h h' ∧ same_limits qp' qp.
Proof.
  intros Hq Hp Hh Hlen. pose proof Hq as [Hs Ht Hn _]. unfold enq_tail.
  destruct l as [|t l _] using rev_ind.
  - simpl in Hs. rewrite Hs. simpl. eexists _, _. split; [done|].
    split; [|split; [by apply frame_refl|done]].
    split; simpl; [eauto|done| |]; rewrite Hn; by vm_compute.
  - destruct (qrep_snoc_inv _ _ _ _ Hq) as (Ht' & Htl & _ & Hth).
    assert (isNULL (head qp) = false) as ->.
    { destruct (isNULL (head qp)) eqn:E; [|done]. apply (qrep_nil_iff _ _ _ Hq) in E.
      by destruct l. }
    rewrite Ht'. simpl. rewrite PKTSETLINK_Some by (rewrite Hth; eauto). simpl.
    eexists _, _. split; [done|]. split; [split; simpl|].
    + apply lseg_snoc. split; [by eapply lseg_relink|]. rewrite lookup_insert_ne; [done|].
      intros ->. apply Hp. set_solver.
    + by rewrite last_snoc.
    + rewrite Hn, !length_app in *. simpl in *. rewrite u16_small; lia.
    + rewrite Hn, !length_app in *. simpl in *. rewrite u16_small; lia.
    + split; [|done]. apply frame_insert; [set_solver|]. rewrite Hth. eauto.
Qed.

Lemma enq_head_spec h qp l p :
  qrep h qp l -> p ∉ l -> is_Some (h !! p) -> Z.of_nat (length l) + 1 < 65536 ->
  ∃ h' qp', enq_head h qp p = Some (h', qp') ∧ qrep h' qp' (p :: l)
            ∧ frame [p] h h' ∧ same_limits qp' qp.
Proof.
  intros Hq Hp Hh Hlen. pose proof Hq as [Hs Ht Hn _]. unfold enq_head.
  destruct l as [|x l].
  - simpl in Hs. rewrite Hs. simpl. rewrite Hs, PKTSETLINK_Some by done. simpl.
    eexists _, _. split; [done|]. split; [split; simpl|].
    + split; [done|]. eexists. by simplify_map_eq.
    + done.
    + rewrite Hn. by vm_compute.
    + rewrite Hn. by vm_compute.
    + split; [|done]. apply frame_insert; [set_solver|done].
  - destruct (qrep_cons_inv _ _ _ _ Hq) as (Hhd & _). rewrite Hhd. simpl.
    rewrite Hhd, PKTSETLINK_Some by done. simpl.
    eexists _, _. split; [done|]. split; [split; simpl|].
    + split; [done|]. exists (Some x). split; [by simplify_map_eq|].
      rewrite Hhd in Hs. by apply (lseg_insert_notin h (Some x) (x :: l)).
    + done.
    + rewrite Hn in *. simpl in *. rewrite u16_small; lia.
    + rewrite Hn in *. simpl in *. rewrite u16_small; lia.
    + split; [|done]. apply frame_insert; [set_solver|done].
Qed.

Lemma deq_head_nil h qp : qrep h qp [] -> deq_head h qp = Some (None, h, qp).
Proof. intros [Hs _ _ _]. unfold deq_head. simpl in Hs. by rewrite Hs. Qed.

(** Unlinking the first packet: the pointers of [q] after
    [if ((q->head = PKTLINK(p)) == NULL) q->tail = NULL; q->n_pkts--;]. *)
Definition unlink_head (nx : ptr) (qp : pktq_prec) : pktq_prec :=
  let qp := set_head nx qp in
  let qp := if isNULL nx then set_tail None qp else qp in
  set_n_pkts (u16 (n_pkts qp - 1)) qp.

Lemma unlink_head_fields nx qp :
  head (unlink_head nx qp) = nx ∧ tail (unlink_head nx qp) = (if isNULL nx then None else tail qp)
  ∧ n_pkts (unlink_head nx qp) = u16 (n_pkts qp - 1) ∧ same_limits (unlink_head nx qp) qp.
Proof. by destruct nx. Qed.

Lemma qrep_unlink_head h qp x l nx :
  qrep h qp (x :: l) -> h !! x = Some nx ->
  qrep (<[x := None]> h) (unlink_head nx qp) l.
Proof.
  intros Hq Hx. pose proof Hq as [Hs Ht Hn Hb].
  destruct (qrep_cons_inv _ _ _ _ Hq) as (Hhd & Hp & nx' & Hx' & Hl). simplify_eq.
  destruct (unlink_head_fields nx qp) as (F1 & F2 & F3 & _).
  split; rewrite ?F1, ?F2, ?F3; simpl in Hn.
  - by apply lseg_insert_notin.
  - destruct l as [|y l]; simpl in Hl; [by rewrite Hl|]. destruct Hl as [-> _].
    simpl. by rewrite Ht, last_cons_cons.
  - rewrite u16_small; lia.
  - rewrite u16_small; lia.
Qed.

Lemma deq_head_cons h qp p l :
  qrep h qp (p :: l) ->
  ∃ h' qp', deq_head h qp = Some (Some p, h', qp') ∧ qrep h' qp' l
            ∧ frame [p] h h' ∧ same_limits qp' qp ∧ h' !! p = Some None.
Proof.
  intros Hq. destruct (qrep_cons_inv _ _ _ _ Hq) as (Hhd & Hp & nx & Hx & Hl).
  unfold deq_head, PKTLINK. rewrite Hhd, Hx. simpl.
  rewrite PKTSETLINK_Some by eauto. simpl.
  eexists _, _. split; [done|]. split; [by apply qrep_unlink_head|].
  split; [apply frame_insert; [set_solver|eauto]|].
  split; [apply unlink_head_fields|by simplify_map_eq].
Qed.

(** The last element of [l], or [prev] when there is none: what a trailing
    pointer holds after a walk over [l]. *)
Definition last_or (prev : ptr) (l : list pkt) : ptr :=
  match last l with Some x => Some x | None => prev end.

Lemma last_or_cons prev x l : last_or prev (x :: l) = last_or (Some x) l.
Proof.
  unfold last_or. destruct l as [|y l]; [done|]. rewrite last_cons_cons.
  by destruct (last_cons_is_Some y l) as [z ->].
Qed.

Lemma last_or_snoc prev l x : last_or prev (l ++ [x]) = Some x.
Proof. unfold last_or. by rewrite last_snoc. Qed.

Lemma find_tail_spec h t l fuel prev p :
  lseg h p l (Some t) -> t ∉ l -> (length l <= fuel)%nat ->
  find_tail fuel h (Some t) prev p = Some (last_or prev l, Some t).
Proof.
  revert fuel prev p. induction l as [|x l IH]; intros fuel prev p Hl Ht Hf.
  - simpl in Hl. subst p. destruct fuel; simpl; by rewrite decide_True.
  - destruct Hl as (-> & nx & Hx & Hl). destruct fuel as [|fuel]; simpl in Hf; [lia|].
    simpl. rewrite decide_False by set_solver. unfold PKTLINK. rewrite Hx. simpl.
    rewrite last_or_cons. apply IH; [done|set_solver|lia].
Qed.

Lemma qrep_fuel h qp l : qrep h qp l -> (length l <= S (size h))%nat.
Proof. intros [Hs _ _ _]. pose proof (lseg_length _ _ _ Hs). lia. Qed.

Lemma deq_tail_nil h qp : qrep h qp [] -> deq_tail h qp = Some (None, h, qp).
Proof. intros [Hs _ _ _]. unfold deq_tail. simpl in Hs. by rewrite Hs. Qed.

Lemma deq_tail_snoc h qp l p :
  qrep h qp (l ++ [p]) ->
  ∃ h' qp', deq_tail h qp = Some (Some p, h', qp') ∧ qrep h' qp' l
            ∧ frame l h h' ∧ same_limits qp' qp ∧ h' !! p = Some None.
Proof.
  intros Hq. pose proof Hq as [Hs Ht Hn Hb]. pose proof (qrep_fuel _ _ _ Hq) as Hf.
  destruct (qrep_snoc_inv _ _ _ _ Hq) as (Htl & Hp & Hl & Hh).
  rewrite length_app in Hn, Hf. simpl in Hn, Hf.
  unfold deq_tail.
  assert (isNULL (head qp) = false) as ->.
  { destruct (isNULL (head qp)) eqn:E; [|done]. apply (qrep_nil_iff _ _ _ Hq) in E.
    by destruct l. }
  rewrite Htl, (find_tail_spec h p l) by (done || lia). simpl.
  destruct l as [|y l _] using rev_ind.
  - simpl. eexists _, _. split; [done|].
    split; [split; simpl; try done|split; [by apply frame_refl|done]].
    all: rewrite Hn; by vm_compute.
  - rewrite last_or_snoc. apply lseg_snoc in Hl as [Hl Hy].
    assert (y ∉ l) as Hyl.
    { apply lseg_NoDup in Hs. rewrite <-app_assoc in Hs. apply NoDup_app in Hs as (_ & Hd & _).
      intros Hin. by apply (Hd _ Hin); left. }
    rewrite PKTSETLINK_Some by (rewrite Hy; eauto). simpl.
    eexists _, _. split; [done|]. split; [split; simpl|split; [|split; [done|]]].
    + apply lseg_snoc. split; [by apply lseg_insert_notin|by simplify_map_eq].
    + by rewrite last_snoc.
    + rewrite length_app in *. simpl in *. rewrite Hn in *. rewrite u16_small; lia.
    + pose proof (u16_range (n_pkts qp - 1)). lia.
    + apply frame_insert; [set_solver|]. rewrite Hy. eauto.
    + rewrite lookup_insert_ne; [done|]. set_solver.
Qed.

Lemma join_tail_spec h qp lq l l' :
  qrep h qp l -> qrep h lq l' -> l' ≠ [] -> (∀ x, x ∈ l -> x ∉ l') ->
  n_pkts qp + n_pkts lq < 65536 ->
  ∃ h' qp', join_tail h qp lq = Some (h', qp') ∧ qrep h' qp' (l ++ l')
            ∧ frame l h h' ∧ same_limits qp' qp.
Proof.
  intros Hq Hlq Hne Hd Hb. pose proof Hq as [Hs Ht Hn _]. pose proof Hlq as [Hs' Ht' Hn' _].
  unfold join_tail. destruct l as [|t l _] using rev_ind.
  - simpl in Hs. rewrite Hs. simpl. eexists _, _. split; [done|].
    split; [|split; [by apply frame_refl|done]].
    split; simpl; [done|done|..]; simpl in Hn; rewrite u16_small; lia.
  - destruct (qrep_snoc_inv _ _ _ _ Hq) as (Htl & Htn & _ & Hth).
    assert (isNULL (head qp) = false) as ->.
    { destruct (isNULL (head qp)) eqn:E; [|done]. apply (qrep_nil_iff _ _ _ Hq) in E.
      by destruct l. }
    rewrite Htl. simpl. rewrite PKTSETLINK_Some by (rewrite Hth; eauto). simpl.
    eexists _, _. split; [done|]. split; [split; simpl|split; [|done]].
    + apply lseg_app. exists (head lq). split; [by eapply lseg_relink|].
      apply lseg_insert_notin; [|done]. apply Hd. set_solver.
    + by rewrite last_app_ne.
    + rewrite length_app. rewrite u16_small; lia.
    + pose proof (u16_range (n_pkts qp + n_pkts lq)). lia.
    + apply frame_insert; [set_solver|]. rewrite Hth. eauto.
Qed.

Lemma join_head_spec h qp lq l l' :
  qrep h qp l -> qrep h lq l' -> l' ≠ [] -> (∀ x, x ∈ l -> x ∉ l') ->
  n_pkts qp + n_pkts lq < 65536 ->
  ∃ h' qp', join_head h qp lq = Some (h', qp') ∧ qrep h' qp' (l' ++ l)
            ∧ frame l' h h' ∧ same_limits qp' qp.
Proof.
  intros Hq Hlq Hne Hd Hb. pose proof Hq as [Hs Ht Hn _]. pose proof Hlq as [Hs' Ht' Hn' _].
  unfold join_head. destruct l' as [|t l' _] using rev_ind; [done|].
  destruct (qrep_snoc_inv _ _ _ _ Hlq) as (Htl & Htn & _ & Hth).
  rewrite Htl. simpl. rewrite PKTSETLINK_Some by (rewrite Hth; eauto). simpl.
  eexists _, _. split; [done|]. split; [split|split; [|by destruct (tail qp)]].
  - assert (head (set_n_pkts (u16 (n_pkts
      (if isNULL (tail qp) then set_tail (Some t) (set_head (head lq) qp)
       else set_head (head lq) qp) + n_pkts lq))
      (if isNULL (tail qp) then set_tail (Some t) (set_head (head lq) qp)
       else set_head (head lq) qp)) = head lq) as -> by by destruct (tail qp).
    apply lseg_app. exists (head qp). split; [by eapply lseg_relink|].
    apply lseg_insert_notin; [|done]. intros Hin. apply (Hd _ Hin). set_solver.
  - destruct l as [|y l].
    + rewrite Ht, app_nil_r. simpl. by rewrite last_snoc.
    + rewrite last_app_ne, Ht by done. destruct (last_cons_is_Some y l) as [z Hz].
      rewrite Hz. simpl. by rewrite Ht, Hz.
  - rewrite length_app. simpl.
    assert (n_pkts (if isNULL (tail qp) then set_tail (Some t) (set_head (head lq) qp)
                    else set_head (head lq) qp) = n_pkts qp) as -> by by destruct (tail qp).
    rewrite u16_small; lia.
  - simpl. match goal with |- u16 ?z < _ => pose proof (u16_range z) end. lia.
  - apply frame_insert; [set_solver|]. rewrite Hth. eauto.
Qed.

(** Unlinking the packet after [pv]: what pktq_pdel and pktq_pdeq_with_fn do. *)
Definition unlink_after (pv x : pkt) (qp : pktq_prec) : pktq_prec :=
  let qp := if decide (tail qp = Some x) then set_tail (Some pv) qp else qp in
  set_n_pkts (u16 (n_pkts qp - 1)) qp.

Lemma unlink_after_fields pv x qp :
  head (unlink_after pv x qp) = head qp
  ∧ tail (unlink_after pv x qp) = (if decide (tail qp = Some x) then Some pv else tail qp)
  ∧ n_pkts (unlink_after pv x qp) = u16 (n_pkts qp - 1)
  ∧ same_limits (unlink_after pv x qp) qp.
Proof. unfold unlink_after. by case_decide. Qed.

Lemma qrep_unlink_after h qp l1 pv x l2 nx :
  qrep h qp (l1 ++ pv :: x :: l2) -> h !! x = Some nx ->
  qrep (<[x := None]> (<[pv := nx]> h)) (unlink_after pv x qp) (l1 ++ pv :: l2).
Proof.
  intros [Hs Ht Hn Hb] Hx.
  pose proof (lseg_NoDup _ _ _ Hs) as (_ & Hd & Hnd)%NoDup_app.
  apply NoDup_cons in Hnd as [Hpv [Hxl Hnd]%NoDup_cons].
  destruct (unlink_after_fields pv x qp) as (F1 & F2 & F3 & _).
  rewrite length_app in Hn. simpl in Hn.
  split; rewrite ?F1, ?F2, ?F3.
  - apply lseg_app in Hs as (m & Hl1 & (-> & n1 & Hpvn & (-> & n2 & Hx' & Hl2))).
    simplify_eq. apply lseg_app. exists (Some pv). split.
    + eapply lseg_frame; [|done]. intros y Hy.
      rewrite !lookup_insert_ne; [done|intros ->; apply (Hd _ Hy)..]; set_solver.
    + split; [done|]. eexists. split.
      * rewrite lookup_insert_ne by set_solver. by simplify_map_eq.
      * apply lseg_insert_notin; [done|]. apply lseg_insert_notin; [set_solver|done].
  - rewrite Ht, last_app_ne by done. destruct l2 as [|y l2].
    + simpl. rewrite decide_True by done. by rewrite last_snoc.
    + rewrite last_app_ne, !last_cons_cons by done.
      rewrite decide_False; [done|]. intros Hl. apply last_Some_elem_of in Hl. done.
  - rewrite length_app. simpl. rewrite u16_small; lia.
  - pose proof (u16_range (n_pkts qp - 1)). lia.
Qed.

Lemma find_match_spec h fn l1 r fuel prev p :
  lseg h p l1 r -> (∀ x, x ∈ l1 -> fn x = false) ->
  match r with None => True | Some x => fn x = true end -> (length l1 <= fuel)%nat ->
  find_match fuel h fn prev p = Some (last_or prev l1, r).
Proof.
  revert fuel prev p. induction l1 as [|x l IH]; intros fuel prev p Hl Hfn Hr Hf.
  - simpl in Hl. subst p. destruct r as [x|], fuel; simpl; by rewrite ?Hr.
  - destruct Hl as (-> & nx & Hx & Hl). destruct fuel as [|fuel]; simpl in Hf; [lia|].
    simpl. rewrite Hfn by set_solver. unfold PKTLINK. rewrite Hx. simpl.
    rewrite last_or_cons. apply IH; [done|set_solver|done|lia].
Qed.

Lemma find_pred_none h b l fuel p :
  lseg h p l None -> b ∉ tl l -> (length l <= fuel)%nat -> find_pred fuel h b p = Some None.
Proof.
  revert fuel p. induction l as [|x l IH]; intros fuel p Hl Hb Hf.
  - simpl in Hl. subst p. by destruct fuel.
  - destruct Hl as (-> & nx & Hx & Hl). destruct fuel as [|fuel]; simpl in Hf; [lia|].
    simpl in *. unfold PKTLINK. rewrite Hx. simpl. rewrite decide_False.
    + apply IH; [done| |lia]. destruct l as [|y l]; [done|].
      by apply not_elem_of_cons in Hb as [_ Hb].
    + intros ->. destruct l as [|y l]; [done|]. destruct Hl as [[= ->] _].
      apply Hb. left.
Qed.

Lemma find_pred_spec h b l1 pv r fuel p :
  lseg h p (l1 ++ [pv]) (Some b) -> b ∉ l1 ++ [pv] -> (length l1 <= fuel)%nat ->
  r = Some pv -> find_pred fuel h b p = Some r.
Proof.
  intros Hl Hb Hf ->. revert fuel p Hl Hb Hf.
  induction l1 as [|x l IH]; intros fuel p Hl Hb Hf.
  - destruct Hl as (-> & nx & Hx & Hl). simpl in Hl. subst nx.
    destruct fuel; simpl; unfold PKTLINK; rewrite Hx; simpl; by rewrite decide_True.
  - destruct Hl as (-> & nx & Hx & Hl). destruct fuel as [|fuel]; simpl in Hf; [lia|].
    simpl. unfold PKTLINK. rewrite Hx. simpl. rewrite decide_False.
    + apply IH; [done|set_solver|lia].
    + intros ->. fold (app l [pv]) in Hl. destruct (l ++ [pv]) as [|y l'] eqn:E.
      * by destruct l.
      * destruct Hl as [[= ->] _]. apply Hb. simpl. rewrite E. right. left.
Qed.

#[global] Arguments find_tail : simpl never.
#[global] Arguments find_match : simpl never.
#[global] Arguments find_pred : simpl never.
