(* ===== verification/PktqRefine.v ===== *)
(** * hnd_pktq.c: the multi-precedence queue against its specification *)

From S2P Require Import Prelude Pktq PktqSpec.

(** ** Lists of queues *)

(** The packets queued at precedence [n]; out of range there are none. *)
Abbreviation lists := (list (list pkt)).

Definition total (ls : lists) : Z := Z.of_nat (sum_list_with length ls).

Definition queued (ls : lists) (x : pkt) : Prop := ∃ i, x ∈ ls !!! i.

Lemma lists_lookup (ls : lists) i l : ls !! i = Some l -> ls !!! i = l.
Proof. apply list_lookup_total_correct. Qed.

Lemma lists_lookup_lt (ls : lists) i : (i < length ls)%nat -> ls !! i = Some (ls !!! i).
Proof. apply list_lookup_lookup_total_lt. Qed.

Lemma lists_insert_eq (ls : lists) i l : (i < length ls)%nat -> <[i := l]> ls !!! i = l.
Proof. intros. apply list_lookup_total_correct, list_lookup_insert_eq; done. Qed.

Lemma lists_insert_ne (ls : lists) i j l : i ≠ j -> <[i := l]> ls !!! j = ls !!! j.
Proof. intros. by rewrite !list_lookup_total_alt, list_lookup_insert_ne. Qed.

Lemma sum_length_insert (ls : lists) i l :
  (i < length ls)%nat ->
  (sum_list_with length (<[i := l]> ls) + length (ls !!! i)
   = sum_list_with length ls + length l)%nat.
Proof.
  revert i. induction ls as [|l0 ls IH]; intros [|i] Hi; simpl in *; try lia.
  specialize (IH i ltac:(lia)). lia.
Qed.

Lemma total_insert (ls : lists) i l :
  (i < length ls)%nat ->
  total (<[i := l]> ls) = total ls + Z.of_nat (length l) - Z.of_nat (length (ls !!! i)).
Proof. intros Hi. unfold total. pose proof (sum_length_insert ls i l Hi). lia. Qed.

Lemma total_ge (ls : lists) i : Z.of_nat (length (ls !!! i)) <= total ls.
Proof.
  unfold total. revert i. induction ls as [|l ls IH]; intros [|i]; simpl; try lia.
  specialize (IH i). lia.
Qed.

Lemma total_zero (ls : lists) : total ls = 0 <-> ∀ i, ls !!! i = [].
Proof.
  split.
  - intros H i. pose proof (total_ge ls i). destruct (ls !!! i); simpl in *; [done|lia].
  - unfold total. induction ls as [|l ls IH]; intros H; [done|]. simpl.
    pose proof (H O) as H0. simpl in H0. subst l. simpl. apply IH.
    intros i. apply (H (S i)).
Qed.

(** ** The representation invariant *)

Record pqrep (h : heap) (pq : pktq) (ls : lists) : Prop := {
  pqrep_len : (length ls <= length (q pq))%nat;
  pqrep_lens : num_prec pq = Z.of_nat (length ls);
  pqrep_q : ∀ i qp, (i < length ls)%nat -> q pq !! i = Some qp -> qrep h qp (ls !!! i);
  pqrep_disj : ∀ i j x, x ∈ ls !!! i -> x ∈ ls !!! j -> i = j;
  pqrep_tot : n_pkts_tot pq = total ls;
  pqrep_bound : n_pkts_tot pq < 65536;
  pqrep_hi : 0 <= hi_prec pq < num_prec pq;
  pqrep_num : num_prec pq <= 16;
  pqrep_above : ∀ i, hi_prec pq < Z.of_nat i -> ls !!! i = []
}.

(** Arithmetic with the bounds of the invariant. *)
Ltac pqlia H :=
  pose proof (pqrep_len _ _ _ H); pose proof (pqrep_lens _ _ _ H);
  pose proof (pqrep_hi _ _ _ H); pose proof (pqrep_num _ _ _ H); lia.

Lemma pqrep_total_range h pq ls : pqrep h pq ls -> 0 <= total ls < 65536.
Proof. intros []. unfold total in *. lia. Qed.

Lemma pqrep_lookup h pq ls n :
  pqrep h pq ls -> (n < length ls)%nat -> ∃ qp, q pq !! n = Some qp ∧ qrep h qp (ls !!! n).
Proof.
  intros H Hn. destruct (lookup_lt_is_Some_2 (q pq) n) as [qp Hqp].
  { pose proof (pqrep_len _ _ _ H). lia. }
  exists qp. split; [done|]. by eapply pqrep_q.
Qed.

Lemma pqrep_getq h pq ls prec :
  pqrep h pq ls -> 0 <= prec < num_prec pq ->
  ∃ qp, getq pq prec = Some qp ∧ q pq !! Z.to_nat prec = Some qp
        ∧ qrep h qp (ls !!! Z.to_nat prec).
Proof.
  intros H Hp. destruct (pqrep_lookup h pq ls (Z.to_nat prec) H) as (qp & Hqp & Hr).
  { pose proof (pqrep_lens _ _ _ H). lia. }
  exists qp. unfold getq. rewrite bool_decide_true by lia. done.
Qed.

Lemma pqrep_agree h h' pq ls :
  (∀ x, queued ls x -> h' !! x = h !! x) -> pqrep h pq ls -> pqrep h' pq ls.
Proof.
  intros Hf []. split; try done.
  intros i qp Hi Hqp. eapply qrep_frame; [|eauto]. intros x Hx. apply Hf. by exists i.
Qed.

Lemma pqrep_frame l h h' pq ls :
  frame l h h' -> (∀ x, x ∈ l -> ¬ queued ls x) -> pqrep h pq ls -> pqrep h' pq ls.
Proof. intros [_ Hf] Hl. apply pqrep_agree. intros x Hx. apply Hf. intros Hin. by apply (Hl x). Qed.

(** The whole step: queue [n] goes from [ls !!! n] to [l'], the store changes
    only on packets of queue [n] or of no queue. *)
Lemma pqrep_update l0 h h' pq pq' ls n qp' l' :
  pqrep h pq ls -> (n < length ls)%nat ->
  qrep h' qp' l' -> frame l0 h h' ->
  (∀ x i, x ∈ l0 ++ l' -> x ∈ ls !!! i -> i = n) ->
  q pq' = <[n := qp']> (q pq) ->
  num_prec pq' = num_prec pq ->
  n_pkts_tot pq' = total (<[n := l']> ls) -> n_pkts_tot pq' < 65536 ->
  hi_prec pq <= hi_prec pq' < num_prec pq ->
  (l' = [] ∨ Z.of_nat n <= hi_prec pq') ->
  pqrep h' pq' (<[n := l']> ls).
Proof.
  intros [Hlen Hlens Hq Hdisj Htot Hb Hhi Hnum Habove] Hn Hq' [_ Hf] Hin Eq Enum Etot Hb' Hhi' Hl'.
  split; rewrite ?Eq, ?length_insert, ?Enum; try done; try lia.
  - intros i qp Hil Hi. destruct (decide (i = n)) as [->|Hne].
    + rewrite list_lookup_insert_eq in Hi by lia. simplify_eq.
      by rewrite lists_insert_eq by lia.
    + rewrite list_lookup_insert_ne in Hi by done. rewrite lists_insert_ne by done.
      eapply qrep_frame; [|eauto]. intros x Hx. apply Hf. intros Hx0.
      apply Hne, (Hin x); [set_solver|done].
  - intros i j x. destruct (decide (i = n)) as [->|Hi], (decide (j = n)) as [->|Hj];
      rewrite ?lists_insert_eq, ?lists_insert_ne by (lia || done); intros H1 H2; try done.
    + symmetry. apply (Hin x); [set_solver|done].
    + apply (Hin x); [set_solver|done].
    + eauto.
  - intros i Hi. destruct (decide (i = n)) as [->|Hne].
    + rewrite lists_insert_eq by lia. destruct Hl'; [done|lia].
    + rewrite lists_insert_ne by done. apply Habove. lia.
Qed.

Lemma raise_hi_prec_fields prec pq :
  0 <= prec < 256 ->
  hi_prec (raise_hi_prec prec pq) = Z.max (hi_prec pq) prec
  ∧ q (raise_hi_prec prec pq) = q pq ∧ num_prec (raise_hi_prec prec pq) = num_prec pq
  ∧ n_pkts_tot (raise_hi_prec prec pq) = n_pkts_tot pq.
Proof.
  intros Hp. unfold raise_hi_prec. case_bool_decide; simpl; [|by split_and!; [lia|..]].
  split_and!; try done. rewrite u8_small; lia.
Qed.

(** ** Storing a queue back

    The two ways the operations end: with packets added ([raise_hi_prec]) and
    with one packet removed ([commit_deq]). *)

Lemma pqrep_commit_enq l0 h h' pq ls prec qp' l l' k :
  pqrep h pq ls -> 0 <= prec < num_prec pq -> ls !!! Z.to_nat prec = l ->
  qrep h' qp' l' -> frame l0 h h' ->
  (∀ x i, x ∈ l0 ++ l' -> x ∈ ls !!! i -> i = Z.to_nat prec) ->
  Z.of_nat (length l') = Z.of_nat (length l) + k -> 0 <= k -> total ls + k < 65536 ->
  let pq' := raise_hi_prec prec (set_n_pkts_tot (u16 (n_pkts_tot pq + k)) (putq prec qp' pq)) in
  pqrep h' pq' (<[Z.to_nat prec := l']> ls) ∧ num_prec pq' = num_prec pq.
Proof.
  intros H Hp Hl Hr Hf Hin Hlen Hk Htot. cbv zeta. subst l.
  pose proof (pqrep_num _ _ _ H). pose proof (pqrep_lens _ _ _ H) as Hlens.
  pose proof (pqrep_hi _ _ _ H).
  set (pq1 := set_n_pkts_tot _ _).
  destruct (raise_hi_prec_fields prec pq1) as (F1 & F2 & F3 & F4); [lia|].
  split; [|by rewrite F3]. pose proof (pqrep_total_range _ _ _ H).
  assert (n_pkts_tot pq1 = total (<[Z.to_nat prec := l']> ls)) as Et.
  { simpl. rewrite (pqrep_tot _ _ _ H), total_insert, u16_small by lia. lia. }
  eapply (pqrep_update l0); [done|lia|done|done|done|..];
    rewrite ?F1, ?F2, ?F3, ?F4; try done; simpl; try lia.
  apply u16_range.
Qed.

Lemma pqrep_commit_deq l0 h h' pq ls prec x qp' l l' :
  pqrep h pq ls -> 0 <= prec < num_prec pq -> ls !!! Z.to_nat prec = l ->
  qrep h' qp' l' -> frame l0 h h' ->
  l0 ++ l' ⊆ l -> length l = S (length l') ->
  let pq' := commit_deq prec (Some x) qp' pq in
  pqrep h' pq' (<[Z.to_nat prec := l']> ls) ∧ num_prec pq' = num_prec pq.
Proof.
  intros H Hp Hl Hr Hf Hin Hlen. cbv zeta. unfold commit_deq. simpl. split; [|done]. subst l.
  pose proof (pqrep_lens _ _ _ H) as Hlens.
  pose proof (pqrep_hi _ _ _ H). pose proof (pqrep_total_range _ _ _ H).
  pose proof (total_ge ls (Z.to_nat prec)).
  eapply (pqrep_update l0); [done|lia|done|done|..]; simpl; try done.
  - intros y i Hy Hi. eapply pqrep_disj; [done|done|]. by apply Hin.
  - rewrite (pqrep_tot _ _ _ H), total_insert, u16_small by lia. lia.
  - apply u16_range.
  - lia.
  - destruct (decide (hi_prec pq < prec)); [left|right; lia].
    pose proof (pqrep_above _ _ _ H (Z.to_nat prec) ltac:(lia)) as E. rewrite E in Hlen. done.
Qed.

(** Nothing removed: the queue is stored back as it was. *)
Lemma commit_deq_None h pq ls prec qp :
  pqrep h pq ls -> getq pq prec = Some qp -> commit_deq prec None qp pq = pq.
Proof.
  intros H Hg. unfold commit_deq, putq, set_q, getq in *. simpl.
  case_bool_decide; [|done]. rewrite list_insert_id by done. by destruct pq.
Qed.

Lemma pqrep_disj_in h pq ls n l1 l2 :
  pqrep h pq ls -> l1 ⊆ ls !!! n -> (∀ x, x ∈ l2 -> ¬ queued ls x) ->
  ∀ x i, x ∈ l1 ++ l2 -> x ∈ ls !!! i -> i = n.
Proof.
  intros H H1 H2 x i [Hx|Hx]%elem_of_app Hi; [eapply pqrep_disj; eauto|].
  destruct (H2 _ Hx). by exists i.
Qed.

(** ** One precedence at a time *)

Lemma pktq_penq_spec h pq ls prec p l :
  pqrep h pq ls -> 0 <= prec < num_prec pq -> ls !!! Z.to_nat prec = l ->
  ¬ queued ls p -> h !! p = Some None -> total ls + 1 < 65536 ->
  ∃ h' pq', pktq_penq h pq prec p = Some (Some p, h', pq')
    ∧ pqrep h' pq' (<[Z.to_nat prec := l ++ [p]]> ls) ∧ num_prec pq' = num_prec pq ∧ frame l h h'.
Proof.
  intros H Hp Hl Hfresh Hh Htot. pose proof (pqrep_num _ _ _ H) as Hnum.
  destruct (pqrep_getq h pq ls prec H) as (qp & Hg & Hqp & Hr); [lia|]. rewrite Hl in Hr.
  pose proof (total_ge ls (Z.to_nat prec)) as Hge. rewrite Hl in Hge.
  destruct (enq_tail_spec h qp l p Hr) as (h' & qp' & He & Hr' & Hf & _); [|done|lia|].
  { intros Hin. apply Hfresh. exists (Z.to_nat prec). by rewrite Hl. }
  unfold pktq_penq. rewrite Hg. simpl. rewrite He. simpl. eexists _, _. split; [done|].
  destruct (pqrep_commit_enq l h h' pq ls prec qp' l (l ++ [p]) 1) as [Hpq Hnp]; try done; try lia.
  - rewrite app_assoc. eapply pqrep_disj_in; [done|set_solver|set_solver].
  - rewrite length_app. simpl. lia.
Qed.

Lemma pktq_penq_head_spec h pq ls prec p l :
  pqrep h pq ls -> 0 <= prec < num_prec pq -> ls !!! Z.to_nat prec = l ->
  ¬ queued ls p -> is_Some (h !! p) -> total ls + 1 < 65536 ->
  ∃ h' pq', pktq_penq_head h pq prec p = Some (Some p, h', pq')
    ∧ pqrep h' pq' (<[Z.to_nat prec := p :: l]> ls) ∧ num_prec pq' = num_prec pq ∧ frame [p] h h'.
Proof.
  intros H Hp Hl Hfresh Hh Htot. pose proof (pqrep_num _ _ _ H) as Hnum.
  destruct (pqrep_getq h pq ls prec H) as (qp & Hg & Hqp & Hr); [lia|]. rewrite Hl in Hr.
  pose proof (total_ge ls (Z.to_nat prec)) as Hge. rewrite Hl in Hge.
  destruct (enq_head_spec h qp l p Hr) as (h' & qp' & He & Hr' & Hf & _); [|done|lia|].
  { intros Hin. apply Hfresh. exists (Z.to_nat prec). by rewrite Hl. }
  unfold pktq_penq_head. rewrite Hg. simpl. rewrite He. simpl. eexists _, _. split; [done|].
  destruct (pqrep_commit_enq [p] h h' pq ls prec qp' l (p :: l) 1) as [Hpq Hnp]; try done; try lia.
  - intros x i Hx. eapply (pqrep_disj_in h pq ls _ l [p]); [done|set_solver|set_solver|].
    set_solver.
  - simpl. lia.
Qed.

Lemma pktq_pdeq_nil h pq ls prec :
  pqrep h pq ls -> 0 <= prec < num_prec pq -> ls !!! Z.to_nat prec = [] ->
  pktq_pdeq h pq prec = Some (None, h, pq).
Proof.
  intros H Hp Hl. destruct (pqrep_getq h pq ls prec H) as (qp & Hg & Hqp & Hr); [lia|].
  rewrite Hl in Hr. unfold pktq_pdeq. rewrite Hg. simpl. rewrite deq_head_nil by done. simpl.
  by erewrite commit_deq_None.
Qed.

Lemma pktq_pdeq_cons h pq ls prec p l :
  pqrep h pq ls -> 0 <= prec < num_prec pq -> ls !!! Z.to_nat prec = p :: l ->
  ∃ h' pq', pktq_pdeq h pq prec = Some (Some p, h', pq')
    ∧ pqrep h' pq' (<[Z.to_nat prec := l]> ls) ∧ num_prec pq' = num_prec pq
    ∧ frame [p] h h' ∧ h' !! p = Some None.
Proof.
  intros H Hp Hl. destruct (pqrep_getq h pq ls prec H) as (qp & Hg & Hqp & Hr); [lia|].
  rewrite Hl in Hr.
  destruct (deq_head_cons _ _ _ _ Hr) as (h' & qp' & He & Hr' & Hf & _ & Hn).
  unfold pktq_pdeq. rewrite Hg. simpl. rewrite He. simpl. eexists _, _. split; [done|].
  destruct (pqrep_commit_deq [p] h h' pq ls prec p qp' (p :: l) l); by try set_solver.
Qed.

Lemma pktq_pdeq_tail_nil h pq ls prec :
  pqrep h pq ls -> 0 <= prec < num_prec pq -> ls !!! Z.to_nat prec = [] ->
  pktq_pdeq_tail h pq prec = Some (None, h, pq).
Proof.
  intros H Hp Hl. destruct (pqrep_getq h pq ls prec H) as (qp & Hg & Hqp & Hr); [lia|].
  rewrite Hl in Hr. unfold pktq_pdeq_tail. rewrite Hg. simpl. rewrite deq_tail_nil by done. simpl.
  by erewrite commit_deq_None.
Qed.

Lemma pktq_pdeq_tail_snoc h pq ls prec p l :
  pqrep h pq ls -> 0 <= prec < num_prec pq -> ls !!! Z.to_nat prec = l ++ [p] ->
  ∃ h' pq', pktq_pdeq_tail h pq prec = Some (Some p, h', pq')
    ∧ pqrep h' pq' (<[Z.to_nat prec := l]> ls) ∧ num_prec pq' = num_prec pq
    ∧ frame l h h' ∧ h' !! p = Some None.
Proof.
  intros H Hp Hl. destruct (pqrep_getq h pq ls prec H) as (qp & Hg & Hqp & Hr); [lia|].
  rewrite Hl in Hr.
  destruct (deq_tail_snoc _ _ _ _ Hr) as (h' & qp' & He & Hr' & Hf & _ & Hn).
  unfold pktq_pdeq_tail. rewrite Hg. simpl. rewrite He. simpl. eexists _, _. split; [done|].
  destruct (pqrep_commit_deq l h h' pq ls prec p qp' (l ++ [p]) l); try done; [set_solver|].
  rewrite length_app. simpl. lia.
Qed.

(** ** Removal by search *)

(** The first element that satisfies [fn], and the list without it. *)
Fixpoint take_match (fn : pkt -> bool) (l : list pkt) : option (pkt * list pkt) :=
  match l with
  | [] => None
  | x :: l => if fn x then Some (x, l)
              else '(y, l) ← take_match fn l; Some (y, x :: l)
  end.

Lemma take_match_Some fn l x l' :
  take_match fn l = Some (x, l') ->
  ∃ l1 l2, l = l1 ++ x :: l2 ∧ l' = l1 ++ l2 ∧ fn x = true ∧ ∀ y, y ∈ l1 -> fn y = false.
Proof.
  revert l'. induction l as [|z l IH]; intros l'; simpl; [done|].
  destruct (fn z) eqn:E.
  - intros [= -> ->]. exists [], l'. split_and!; [done..|set_solver].
  - intros Hs. destruct (take_match fn l) as [[y l0]|] eqn:E'; [|done]. simpl in Hs.
    injection Hs as -> <-. destruct (IH _ eq_refl) as (l1 & l2 & -> & -> & Hx & H1).
    exists (z :: l1), l2. split_and!; [done..|]. intros y [->|Hy]%elem_of_cons; [done|auto].
Qed.

Lemma take_match_None fn l : take_match fn l = None -> ∀ y, y ∈ l -> fn y = false.
Proof.
  induction l as [|z l IH]; simpl; [set_solver|].
  destruct (fn z) eqn:E; [done|]. destruct (take_match fn l) as [[y l0]|]; [done|].
  intros _ y [->|Hy]%elem_of_cons; auto.
Qed.

(** Removing the packet [x] found at [l1 ++ x :: l2] through a trailing pointer. *)
Lemma qrep_unlink h qp l1 x l2 nx :
  qrep h qp (l1 ++ x :: l2) -> h !! x = Some nx ->
  match last_or None l1 with
  | None => l1 = [] ∧ qrep (<[x := None]> h) (unlink_head nx qp) l2
  | Some pv => pv ≠ x ∧ pv ∈ l1 ∧ is_Some (h !! pv) ∧
               qrep (<[x := None]> (<[pv := nx]> h)) (unlink_after pv x qp) (l1 ++ l2)
  end.
Proof.
  intros Hq Hx. destruct l1 as [|pv l1 _] using rev_ind.
  - split; [done|]. by apply qrep_unlink_head.
  - rewrite last_or_snoc. rewrite <-app_assoc in Hq. simpl in Hq.
    pose proof (qrep_seg _ _ _ Hq) as Hs.
    split_and!.
    + apply lseg_NoDup, NoDup_app in Hs as (_ & _ & [Hpv _]%NoDup_cons). set_solver.
    + set_solver.
    + eapply lseg_dom; [done|set_solver].
    + rewrite <-app_assoc. by apply qrep_unlink_after.
Qed.

Lemma pktq_pdeq_with_fn_none h pq ls prec fn arg :
  pqrep h pq ls -> 0 <= prec < num_prec pq ->
  take_match (match_fn fn arg) (ls !!! Z.to_nat prec) = None ->
  pktq_pdeq_with_fn h pq prec fn arg = Some (None, h, pq).
Proof.
  intros H Hp Hm. destruct (pqrep_getq h pq ls prec H) as (qp & Hg & Hqp & Hr); [lia|].
  unfold pktq_pdeq_with_fn. rewrite Hg. simpl.
  rewrite (find_match_spec h _ _ None (S (size h)) None (head qp) (qrep_seg _ _ _ Hr));
    [done|by apply take_match_None|done|by eapply qrep_fuel].
Qed.

Lemma pktq_pdeq_with_fn_some h pq ls prec fn arg x l' :
  pqrep h pq ls -> 0 <= prec < num_prec pq ->
  take_match (match_fn fn arg) (ls !!! Z.to_nat prec) = Some (x, l') ->
  ∃ h' pq', pktq_pdeq_with_fn h pq prec fn arg = Some (Some x, h', pq')
    ∧ pqrep h' pq' (<[Z.to_nat prec := l']> ls) ∧ num_prec pq' = num_prec pq
    ∧ frame (ls !!! Z.to_nat prec) h h' ∧ h' !! x = Some None.
Proof.
  intros H Hp Hm. destruct (pqrep_getq h pq ls prec H) as (qp & Hg & Hqp & Hr); [lia|].
  destruct (take_match_Some _ _ _ _ Hm) as (l1 & l2 & Hl & -> & Hfx & Hf1).
  rewrite Hl in Hr |- *. pose proof Hr as [Hs _ _ _].
  apply lseg_app in Hs as (m & Hs1 & (-> & nx & Hx & Hs2)).
  pose proof (qrep_fuel _ _ _ Hr) as Hfuel. rewrite length_app in Hfuel.
  unfold pktq_pdeq_with_fn. rewrite Hg. simpl.
  rewrite (find_match_spec h _ l1 (Some x) (S (size h)) None (head qp)) by (done || lia).
  simpl. unfold PKTLINK. rewrite Hx. simpl.
  pose proof (qrep_unlink h qp l1 x l2 nx Hr Hx) as Hu.
  destruct (last_or None l1) as [pv|].
  - destruct Hu as (Hne & Hpv & Hd & Hr'). rewrite PKTSETLINK_Some by done. simpl.
    rewrite PKTSETLINK_Some by (rewrite lookup_insert_ne by done; eauto). simpl.
    eexists _, _. split; [done|].
    assert (frame (l1 ++ x :: l2) h (<[x:=None]> (<[pv:=nx]> h))) as Hf.
    { eapply frame_trans; apply frame_insert; [set_solver|done|set_solver|].
      rewrite lookup_insert_ne by done. eauto. }
    edestruct (pqrep_commit_deq (l1 ++ x :: l2) h _ pq ls prec x _ _ _ H Hp Hl Hr' Hf) as [H1 H2];
      [set_solver|rewrite !length_app; simpl; lia|].
    split_and!; [exact H1|done|done|by simplify_map_eq].
  - destruct Hu as (-> & Hr'). simpl. rewrite PKTSETLINK_Some by eauto. simpl.
    eexists _, _. split; [done|].
    assert (frame (x :: l2) h (<[x:=None]> h)) as Hf by (apply frame_insert; [set_solver|eauto]).
    edestruct (pqrep_commit_deq (x :: l2) h _ pq ls prec x _ _ _ H Hp Hl Hr' Hf) as [H1 H2];
      [set_solver|done|].
    split_and!; [exact H1|done|done|by simplify_map_eq].
Qed.

Lemma pktq_pdel_notin h pq ls p prec :
  pqrep h pq ls -> 0 <= prec < num_prec pq -> p ∉ ls !!! Z.to_nat prec ->
  pktq_pdel h pq (Some p) prec = Some (false, h, pq).
Proof.
  intros H Hp Hm. destruct (pqrep_getq h pq ls prec H) as (qp & Hg & Hqp & Hr); [lia|].
  unfold pktq_pdel. rewrite Hg. simpl. pose proof (qrep_seg _ _ _ Hr) as Hs.
  pose proof (qrep_fuel _ _ _ Hr) as Hfuel.
  rewrite decide_False.
  - rewrite (find_pred_none h p _ _ _ Hs); [done| |done].
    destruct (ls !!! Z.to_nat prec); [done|]. by apply not_elem_of_cons in Hm as [_ Hm].
  - intros E. apply Hm. destruct (ls !!! Z.to_nat prec); simpl in Hs; [congruence|].
    destruct Hs as [E' _]. rewrite E' in E. injection E as ->. left.
Qed.

Lemma pktq_pdel_in h pq ls p prec l1 l2 :
  pqrep h pq ls -> 0 <= prec < num_prec pq -> ls !!! Z.to_nat prec = l1 ++ p :: l2 ->
  ∃ h' pq', pktq_pdel h pq (Some p) prec = Some (true, h', pq')
    ∧ pqrep h' pq' (<[Z.to_nat prec := l1 ++ l2]> ls) ∧ num_prec pq' = num_prec pq
    ∧ frame (l1 ++ p :: l2) h h' ∧ h' !! p = Some None.
Proof.
  intros H Hp Hl. destruct (pqrep_getq h pq ls prec H) as (qp & Hg & Hqp & Hr); [lia|].
  rewrite Hl in Hr. pose proof Hr as [Hs _ _ _]. pose proof (lseg_NoDup _ _ _ Hs) as Hnd.
  apply lseg_app in Hs as (m & Hs1 & (-> & nx & Hx & Hs2)).
  pose proof (qrep_fuel _ _ _ Hr) as Hfuel. rewrite length_app in Hfuel.
  pose proof (qrep_unlink h qp l1 p l2 nx Hr Hx) as Hu.
  unfold pktq_pdel. rewrite Hg. simpl.
  destruct l1 as [|pv l1 _] using rev_ind.
  - simpl in Hs1. destruct Hu as (_ & Hr'). rewrite decide_True by done.
    unfold PKTLINK. rewrite Hx. simpl. rewrite PKTSETLINK_Some by eauto. simpl.
    eexists _, _. split; [done|].
    assert (frame (p :: l2) h (<[p:=None]> h)) as Hf by (apply frame_insert; [set_solver|eauto]).
    edestruct (pqrep_commit_deq (p :: l2) h _ pq ls prec p _ _ _ H Hp Hl Hr' Hf) as [H1 H2];
      [set_solver|done|].
    split_and!; [exact H1|done|done|by simplify_map_eq].
  - rewrite last_or_snoc in Hu. destruct Hu as (Hne & Hpv & Hd & Hr').
    assert (p ∉ l1 ++ [pv]) as Hpl.
    { apply NoDup_app in Hnd as (_ & Hnd & _). intros Hin. apply (Hnd _ Hin). set_solver. }
    rewrite decide_False.
    2:{ intros E. destruct l1 as [|y l1]; destruct Hs1 as [E' _]; simpl in *;
        rewrite E' in E; injection E as ->; set_solver. }
    rewrite (find_pred_spec h p l1 pv (Some pv) _ _ Hs1) by (done || rewrite length_app in Hfuel; lia).
    simpl. unfold PKTLINK. rewrite Hx. simpl. rewrite PKTSETLINK_Some by done. simpl.
    rewrite PKTSETLINK_Some by (rewrite lookup_insert_ne by done; eauto). simpl.
    eexists _, _. split; [done|].
    assert (frame ((l1 ++ [pv]) ++ p :: l2) h (<[p:=None]> (<[pv:=nx]> h))) as Hf.
    { eapply frame_trans; apply frame_insert; [set_solver|done|set_solver|].
      rewrite lookup_insert_ne by done. eauto. }
    edestruct (pqrep_commit_deq _ h _ pq ls prec p _ _ _ H Hp Hl Hr' Hf) as [H1 H2];
      [set_solver|rewrite !length_app; simpl; lia|].
    split_and!; [exact H1|done|done|by simplify_map_eq].
Qed.

(** ** Whole lists *)

Lemma clear_list_qrep h lq : qrep h (clear_list lq) [].
Proof. by split. Qed.

Lemma pktq_append_nil h pq lst prec :
  qrep h (spq_q lst) [] -> pktq_append h pq prec lst = Some (h, pq, lst).
Proof. intros [Hs _ _ _]. unfold pktq_append. simpl in Hs. by rewrite Hs. Qed.

Lemma pktq_prepend_nil h pq lst prec :
  qrep h (spq_q lst) [] -> pktq_prepend h pq prec lst = Some (h, pq, lst).
Proof. intros [Hs _ _ _]. unfold pktq_prepend. simpl in Hs. by rewrite Hs. Qed.

Lemma qrep_not_null h qp l : qrep h qp l -> l ≠ [] -> isNULL (head qp) = false.
Proof.
  intros Hq Hne. destruct (isNULL (head qp)) eqn:E; [|done].
  by apply (qrep_nil_iff _ _ _ Hq) in E.
Qed.

Section WholeLists.
Context (h : heap) (pq : pktq) (ls : lists) (lst : spktq) (l' : list pkt) (prec : Z) (l : list pkt).
Context (H : pqrep h pq ls) (Hp : 0 <= prec < num_prec pq) (Hl : ls !!! Z.to_nat prec = l).
Context (Hq' : qrep h (spq_q lst) l') (Hne : l' ≠ []).
Context (Hfresh : ∀ x, x ∈ l' -> ¬ queued ls x).
Context (Htot : total ls + Z.of_nat (length l') < 65536).

Let Hlen' : n_pkts (spq_q lst) = Z.of_nat (length l') := qrep_len _ _ _ Hq'.

Lemma whole_list_pre qp :
  qrep h qp l -> (∀ x, x ∈ l -> x ∉ l') ∧ n_pkts qp + n_pkts (spq_q lst) < 65536.
Proof.
  intros Hr. split.
  - intros x Hx Hx'. apply (Hfresh _ Hx'). exists (Z.to_nat prec). by rewrite Hl.
  - pose proof (total_ge ls (Z.to_nat prec)) as Hge. rewrite Hl in Hge.
    rewrite (qrep_len _ _ _ Hr). lia.
Qed.

Lemma pktq_append_spec :
  ∃ h' pq' lst', pktq_append h pq prec lst = Some (h', pq', lst')
    ∧ pqrep h' pq' (<[Z.to_nat prec := l ++ l']> ls) ∧ num_prec pq' = num_prec pq
    ∧ qrep h' (spq_q lst') [] ∧ frame l h h'.
Proof.
  pose proof (pqrep_num _ _ _ H).
  destruct (pqrep_getq h pq ls prec H) as (qp & Hg & Hqp & Hr); [lia|]. rewrite Hl in Hr.
  destruct (whole_list_pre qp Hr) as [Hd Hb].
  destruct (join_tail_spec h qp (spq_q lst) l l' Hr Hq' Hne Hd Hb) as (h' & qp' & He & Hr' & Hf & _).
  unfold pktq_append. rewrite (qrep_not_null _ _ _ Hq' Hne), Hg. simpl. rewrite He. simpl.
  eexists _, _, _. split; [done|]. rewrite Hlen'.
  destruct (pqrep_commit_enq l h h' pq ls prec qp' l (l ++ l') (Z.of_nat (length l'))) as [Hpq Hnp];
    try done; try lia.
  - rewrite app_assoc. eapply pqrep_disj_in; [done|set_solver|done].
  - rewrite length_app. lia.
Qed.

Lemma pktq_prepend_spec :
  ∃ h' pq' lst', pktq_prepend h pq prec lst = Some (h', pq', lst')
    ∧ pqrep h' pq' (<[Z.to_nat prec := l' ++ l]> ls) ∧ num_prec pq' = num_prec pq
    ∧ qrep h' (spq_q lst') [] ∧ frame l' h h'.
Proof.
  pose proof (pqrep_num _ _ _ H).
  destruct (pqrep_getq h pq ls prec H) as (qp & Hg & Hqp & Hr); [lia|]. rewrite Hl in Hr.
  destruct (whole_list_pre qp Hr) as [Hd Hb].
  destruct (join_head_spec h qp (spq_q lst) l l' Hr Hq' Hne Hd Hb) as (h' & qp' & He & Hr' & Hf & _).
  unfold pktq_prepend. rewrite (qrep_not_null _ _ _ Hq' Hne), Hg. simpl. rewrite He. simpl.
  eexists _, _, _. split; [done|]. rewrite Hlen'.
  destruct (pqrep_commit_enq l' h h' pq ls prec qp' l (l' ++ l) (Z.of_nat (length l'))) as [Hpq Hnp];
    try done; try lia.
  - intros x i Hx. eapply (pqrep_disj_in h pq ls _ l l'); [done|set_solver|done|set_solver].
  - rewrite length_app. lia.
Qed.
End WholeLists.

(** ** Search by precedence *)

(** The highest precedence below [n] that is non-empty and satisfies [P]. *)
Fixpoint top_prec (P : nat -> bool) (n : nat) (ls : lists) : option nat :=
  match n with
  | O => None
  | S n => if P n && negb (bool_decide (ls !!! n = [])) then Some n else top_prec P n ls
  end.

(** The lowest non-empty precedence. *)
Fixpoint low_prec (ls : lists) : option nat :=
  match ls with
  | [] => None
  | l :: ls => if bool_decide (l = []) then S <$> low_prec ls else Some O
  end.

Lemma top_prec_above P n m ls :
  (n <= m)%nat -> (∀ i, (n <= i)%nat -> ls !!! i = []) -> top_prec P m ls = top_prec P n ls.
Proof.
  intros Hnm Ha. induction Hnm as [|m Hnm IH]; [done|]. simpl.
  rewrite (Ha m) by lia. rewrite bool_decide_true by done. by rewrite andb_false_r.
Qed.

Lemma top_prec_Some P n ls i :
  top_prec P n ls = Some i ->
  (i < n)%nat ∧ P i = true ∧ ls !!! i ≠ [] ∧ ∀ j, (i < j < n)%nat -> P j = true -> ls !!! j = [].
Proof.
  induction n as [|n IH]; simpl; [done|]. case_match eqn:E.
  - intros [= ->]. apply andb_true_iff in E as [HP E]. case_bool_decide; [done|].
    split_and!; [lia|done|done|lia].
  - intros Hi. destruct (IH Hi) as (? & ? & ? & Ha). split_and!; [lia|done|done|].
    intros j Hj HP. destruct (decide (j = n)) as [->|]; [|apply Ha; [lia|done]].
    rewrite HP in E. simpl in E. by case_bool_decide.
Qed.

Lemma top_prec_None P n ls i : top_prec P n ls = None -> (i < n)%nat -> P i = true -> ls !!! i = [].
Proof.
  induction n as [|n IH]; simpl; [lia|]. case_match eqn:E; [done|].
  intros Hn Hi HP. destruct (decide (i = n)) as [->|]; [|apply IH; [done|lia|done]].
  rewrite HP in E. simpl in E. by case_bool_decide.
Qed.

Lemma low_prec_Some ls i :
  low_prec ls = Some i -> (i < length ls)%nat ∧ ls !!! i ≠ [] ∧ ∀ j, (j < i)%nat -> ls !!! j = [].
Proof.
  revert i. induction ls as [|l ls IH]; intros i; simpl; [done|]. case_bool_decide.
  - intros (j & Hj & ->)%fmap_Some. destruct (IH _ Hj) as (? & ? & Ha).
    split_and!; [lia|done|]. intros [|k] Hk; simpl; [done|apply Ha; lia].
  - intros [= <-]. split_and!; [lia|done|lia].
Qed.

Lemma low_prec_None ls : low_prec ls = None -> total ls = 0.
Proof.
  intros H. apply total_zero. revert H. induction ls as [|l ls IH]; simpl; [done|].
  case_bool_decide; [|done]. subst l. intros Hn%fmap_None [|i]; simpl; auto.
Qed.

Lemma head_null_iff h pq ls n qp :
  pqrep h pq ls -> (n < length ls)%nat -> q pq !! n = Some qp ->
  isNULL (head qp) = bool_decide (ls !!! n = []).
Proof.
  intros H Hn Hqp. pose proof (qrep_nil_iff _ _ _ (pqrep_q _ _ _ H _ _ Hn Hqp)) as E.
  case_bool_decide as D; [by apply E|]. destruct (isNULL (head qp)); [|done].
  destruct D. by apply E.
Qed.

Lemma getq_nat pq n : getq pq (Z.of_nat n) = q pq !! n.
Proof. unfold getq. rewrite bool_decide_true by lia. by rewrite Nat2Z.id. Qed.

(** [hi_prec] comes down to the highest non-empty precedence, or to 0. *)
Lemma lower_hi_prec_spec h pq ls n :
  pqrep h pq ls -> hi_prec pq = Z.of_nat n ->
  ∃ m, lower_hi_prec n pq = Some (set_hi_prec (Z.of_nat m) pq) ∧ (m <= n)%nat
    ∧ pqrep h (set_hi_prec (Z.of_nat m) pq) ls
    ∧ (∀ j, (m < j)%nat -> ls !!! j = []) ∧ (m ≠ O -> ls !!! m ≠ []).
Proof.
  revert pq. induction n as [|n IH]; intros pq H Hn.
  - exists O. simpl. split; [destruct pq; simpl in *; by rewrite Hn|]. split; [lia|].
    split; [destruct pq, H; simpl in *; split; simpl in *; try done; by subst|].
    split; [|done]. intros j Hj. apply (pqrep_above _ _ _ H). lia.
  - pose proof (pqrep_hi _ _ _ H). pose proof (pqrep_num _ _ _ H).
    destruct (pqrep_lookup h pq ls (S n) H) as (qp & Hqp & Hr); [pqlia H|].
    cbn [lower_hi_prec]. rewrite getq_nat, Hqp. cbn [mbind option_bind].
    rewrite (head_null_iff h pq ls (S n)) by (done || pqlia H). case_bool_decide as Hnil.
    + assert (pqrep h (set_hi_prec (Z.of_nat n) pq) ls) as H'.
      { destruct H. split; simpl; try done; [lia|]. intros i Hi.
        destruct (decide (i = S n)) as [->|]; [done|]. apply pqrep_above0. lia. }
      destruct (IH _ H' eq_refl) as (m & -> & Hm & Hr' & Ha & Hne).
      exists m. split; [done|]. split; [lia|]. by split_and!.
    + exists (S n). split_and!; [|lia|..|done].
      * destruct pq; simpl in *. by subst.
      * destruct H, pq; simpl in *. subst. by split.
      * intros j Hj. apply (pqrep_above _ _ _ H). lia.
Qed.

(** Everything the scans rely on once [n_pkts_tot] is known to be positive. *)
Lemma lower_hi_prec_total h pq ls :
  pqrep h pq ls -> total ls ≠ 0 ->
  ∃ m, lower_hi_prec (Z.to_nat (hi_prec pq)) pq = Some (set_hi_prec (Z.of_nat m) pq)
    ∧ pqrep h (set_hi_prec (Z.of_nat m) pq) ls ∧ (m < length ls)%nat
    ∧ ls !!! m ≠ [] ∧ (∀ j, (m < j)%nat -> ls !!! j = []).
Proof.
  intros H Ht. pose proof (pqrep_hi _ _ _ H). pose proof (pqrep_num _ _ _ H).
  destruct (lower_hi_prec_spec h pq ls (Z.to_nat (hi_prec pq)) H) as (m & Hl & Hm & Hr & Ha & Hne);
    [lia|].
  exists m. split_and!; [done..|pqlia H| |done].
  destruct (decide (m = O)) as [->|]; [|auto]. intros E. apply Ht, total_zero.
  intros [|i]; [done|]. apply Ha. lia.
Qed.

Lemma top_prec_hi P m ls :
  (m < length ls)%nat -> (∀ j, (m < j)%nat -> ls !!! j = []) ->
  top_prec P (length ls) ls = top_prec P (S m) ls.
Proof. intros Hm Ha. apply top_prec_above; [lia|]. intros i Hi. apply Ha. lia. Qed.

Lemma mdeq_scan_spec h pq ls bmp n :
  pqrep h pq ls -> (n < length ls)%nat ->
  mdeq_scan n pq bmp
  = Some (Z.of_nat <$> top_prec (fun i => Z.testbit bmp (Z.of_nat i)) (S n) ls).
Proof.
  intros H. induction n as [|n IH]; intros Hn;
    (destruct (pqrep_lookup h pq ls _ H Hn) as (qp & Hqp & Hr));
    unfold mdeq_scan; fold mdeq_scan; rewrite getq_nat, Hqp; cbn [mbind option_bind];
    rewrite (head_null_iff h pq ls _ qp H Hn Hqp);
    cbn [top_prec]; rewrite ?IH by lia;
    by destruct (bool_decide _), (Z.testbit _ _).
Qed.

Lemma mpeek_scan_spec h pq ls bmp n :
  pqrep h pq ls -> (n < length ls)%nat -> mpeek_scan n pq bmp = mdeq_scan n pq bmp.
Proof.
  intros H. induction n as [|n IH]; intros Hn;
    (destruct (pqrep_lookup h pq ls _ H Hn) as (qp & Hqp & Hr));
    unfold mpeek_scan, mdeq_scan; fold mpeek_scan; fold mdeq_scan; rewrite getq_nat, Hqp;
    cbn [mbind option_bind]; rewrite ?IH by lia;
    by destruct (Z.testbit _ _), (isNULL (head qp)).
Qed.

Lemma lowest_prec_spec h pq ls k n :
  pqrep h pq ls -> (n + k < length ls)%nat ->
  (∀ j, (j < n)%nat -> ls !!! j = []) -> (∃ j, (j <= n + k)%nat ∧ ls !!! j ≠ []) ->
  ∃ i, lowest_prec k pq (Z.of_nat n) = Some (Z.of_nat i) ∧ (i < length ls)%nat
    ∧ ls !!! i ≠ [] ∧ ∀ j, (j < i)%nat -> ls !!! j = [].
Proof.
  intros H. revert n. induction k as [|k IH]; intros n Hn Hbelow (j & Hj & Hne); simpl.
  - exists n. split_and!; [done|lia| |done]. intros E.
    destruct (decide (j = n)) as [->|]; [done|]. apply Hne, Hbelow. lia.
  - destruct (pqrep_lookup h pq ls n H) as (qp & Hqp & Hr); [lia|].
    rewrite getq_nat, Hqp. simpl. rewrite (head_null_iff h pq ls n) by (done || lia).
    case_bool_decide as Hnil; [|exists n; split_and!; [done|lia|done..]].
    replace (Z.of_nat n + 1) with (Z.of_nat (S n)) by lia. apply IH; [lia| |exists j; split; [lia|done]].
    intros i Hi. destruct (decide (i = n)) as [->|]; [done|]. apply Hbelow. lia.
Qed.

Lemma low_prec_unique ls i :
  (i < length ls)%nat -> ls !!! i ≠ [] -> (∀ j, (j < i)%nat -> ls !!! j = []) -> low_prec ls = Some i.
Proof.
  intros Hi Hne Hb. destruct (low_prec ls) as [k|] eqn:E.
  - destruct (low_prec_Some _ _ E) as (Hk & Hkne & Hkb).
    destruct (Nat.lt_trichotomy i k) as [Hlt|[->|Hlt]]; [|done|].
    + by destruct (Hne (Hkb _ Hlt)).
    + by destruct (Hkne (Hb _ Hlt)).
  - apply low_prec_None in E. by destruct (Hne (proj1 (total_zero ls) E i)).
Qed.

Lemma lowest_prec_low h pq ls :
  pqrep h pq ls -> total ls ≠ 0 ->
  ∃ i, lowest_prec (Z.to_nat (hi_prec pq)) pq 0 = Some (Z.of_nat i) ∧ low_prec ls = Some i
    ∧ (i < length ls)%nat ∧ ls !!! i ≠ [].
Proof.
  intros H Ht. pose proof (pqrep_hi _ _ _ H). pose proof (pqrep_num _ _ _ H).
  destruct (lowest_prec_spec h pq ls (Z.to_nat (hi_prec pq)) 0 H) as (i & E & Hi & Hne & Hb).
  - pqlia H.
  - lia.
  - destruct (lower_hi_prec_total h pq ls H Ht) as (m & _ & _ & Hm & Hne & _).
    exists m. split; [|done]. destruct (decide (m <= 0 + Z.to_nat (hi_prec pq))%nat); [done|].
    destruct Hne. apply (pqrep_above _ _ _ H). lia.
  - exists i. split_and!; [exact E| |done..]. apply low_prec_unique; [|done..].
    done.
Qed.

(** The packets at the precedences of [bmp], counting from precedence [i]. *)
Fixpoint sel_total (bmp : Z) (i : nat) (ls : lists) : Z :=
  match ls with
  | [] => 0
  | l :: ls => (if Z.testbit bmp (Z.of_nat i) then Z.of_nat (length l) else 0)
               + sel_total bmp (S i) ls
  end.

Lemma sel_total_app bmp i ls1 ls2 :
  sel_total bmp i (ls1 ++ ls2) = sel_total bmp i ls1 + sel_total bmp (i + length ls1) ls2.
Proof.
  revert i. induction ls1 as [|l ls1 IH]; intros i; simpl; [by rewrite Nat.add_0_r|].
  rewrite IH. replace (i + S (length ls1))%nat with (S i + length ls1)%nat by lia. lia.
Qed.

Lemma sel_total_nil bmp i ls : (∀ l, l ∈ ls -> l = []) -> sel_total bmp i ls = 0.
Proof.
  revert i. induction ls as [|l ls IH]; intros i Hl; simpl; [done|].
  rewrite (Hl l) by left. rewrite IH by (intros; apply Hl; by right). by case_match.
Qed.

Lemma mlen_loop_spec h pq ls bmp k n acc :
  pqrep h pq ls -> (n + k <= length ls)%nat ->
  mlen_loop k pq bmp (Z.of_nat n) acc = Some (acc + sel_total bmp n (take k (drop n ls))).
Proof.
  intros H. pose proof (pqrep_lens _ _ _ H) as Hlens. revert n acc.
  induction k as [|k IH]; intros n acc Hn; simpl; [by rewrite Z.add_0_r|].
  destruct (pqrep_lookup h pq ls n H) as (qp & Hqp & Hr); [lia|].
  rewrite getq_nat, Hqp, (drop_S ls (ls !!! n) n) by (apply lists_lookup_lt; lia). simpl.
  replace (Z.of_nat n + 1) with (Z.of_nat (S n)) by lia.
  rewrite !IH, (qrep_len _ _ _ Hr) by lia. destruct (Z.testbit _ _); simpl; f_equal; lia.
Qed.

Lemma pktq_mlen_spec h pq ls bmp :
  pqrep h pq ls -> pktq_mlen pq bmp = Some (sel_total bmp 0 ls).
Proof.
  intros H. pose proof (pqrep_hi _ _ _ H). pose proof (pqrep_num _ _ _ H).
  unfold pktq_mlen. change 0 with (Z.of_nat 0) at 1.
  rewrite (mlen_loop_spec h pq ls) by (done || pqlia H). rewrite drop_0. simpl.
  f_equal. rewrite <-(take_drop (S (Z.to_nat (hi_prec pq))) ls) at 2.
  rewrite sel_total_app, (sel_total_nil _ _ (drop _ _)); [lia|].
  intros l (i & Hi)%list_elem_of_lookup. rewrite lookup_drop in Hi.
  apply lists_lookup in Hi as <-. apply (pqrep_above _ _ _ H). lia.
Qed.
