(* ===== verification/PktqSystem.v ===== *)
(** * hnd_pktq.c: the operations as one system

    A [sys] is the packet store, one multi-precedence queue and one simple
    queue; an [op] is a call of hnd_pktq.c on them.  [spec] is the abstract
    meaning of the call on lists of packets, [enabled] the preconditions that
    the source states by ASSERT (plus the room for one more packet in the
    16-bit counters), and [exec_refines] the refinement step. *)

From S2P Require Import Prelude Pktq PktqSpec PktqRefine.

Record sys := mk_sys { s_h : heap; s_pq : pktq; s_l : spktq }.

Record abs := mk_abs {
  a_pkts : gset pkt;     (* the allocated packets *)
  a_ls : lists;          (* the multi-precedence queue, by precedence *)
  a_lst : list pkt       (* the simple queue *)
}.

Inductive op :=
  | Penq (prec : Z) (p : pkt)
  | PenqHead (prec : Z) (p : pkt)
  | Pdeq (prec : Z)
  | PdeqTail (prec : Z)
  | PdeqFn (prec : Z) (fn : option (pkt -> Z -> bool)) (arg : Z)
  | Pdel (p : pkt) (prec : Z)
  | Append (prec : Z)
  | Prepend (prec : Z)
  | Deq
  | DeqTail
  | Peek
  | PeekTail
  | Mpeek (bmp : Z)
  | Mdeq (bmp : Z)
  | Mlen (bmp : Z)
  | SetMax (prec n : Z)
  | SEnq (p : pkt)
  | SEnqHead (p : pkt)
  | SDeq
  | SDeqTail
  | SPeek.

Inductive res :=
  | RPkt (p : ptr)
  | RPrec (p : ptr) (prec : option Z)
  | RBool (b : bool)
  | RLen (n : Z)
  | RUnit.

Definition on_pq (s : sys) (r : option (ptr * heap * pktq)) : option (res * sys) :=
  '(p, h, pq) ← r; Some (RPkt p, mk_sys h pq (s_l s)).
Definition on_pqp (s : sys) (r : option (ptr * option Z * heap * pktq)) : option (res * sys) :=
  '(p, prec, h, pq) ← r; Some (RPrec p prec, mk_sys h pq (s_l s)).
Definition on_peek (s : sys) (r : option (ptr * option Z * pktq)) : option (res * sys) :=
  '(p, prec, pq) ← r; Some (RPrec p prec, mk_sys (s_h s) pq (s_l s)).
Definition on_list (s : sys) (r : option (heap * pktq * spktq)) : option (res * sys) :=
  '(h, pq, l) ← r; Some (RUnit, mk_sys h pq l).
Definition on_spq (s : sys) (r : option (ptr * heap * spktq)) : option (res * sys) :=
  '(p, h, l) ← r; Some (RPkt p, mk_sys h (s_pq s) l).

(** The call of the code. *)
Definition exec (o : op) (s : sys) : option (res * sys) :=
  let h := s_h s in
  let pq := s_pq s in
  match o with
  | Penq prec p => on_pq s (pktq_penq h pq prec p)
  | PenqHead prec p => on_pq s (pktq_penq_head h pq prec p)
  | Pdeq prec => on_pq s (pktq_pdeq h pq prec)
  | PdeqTail prec => on_pq s (pktq_pdeq_tail h pq prec)
  | PdeqFn prec fn arg => on_pq s (pktq_pdeq_with_fn h pq prec fn arg)
  | Pdel p prec => '(b, h, pq) ← pktq_pdel h pq (Some p) prec; Some (RBool b, mk_sys h pq (s_l s))
  | Append prec => on_list s (pktq_append h pq prec (s_l s))
  | Prepend prec => on_list s (pktq_prepend h pq prec (s_l s))
  | Deq => on_pqp s (pktq_deq h pq)
  | DeqTail => on_pqp s (pktq_deq_tail h pq)
  | Peek => on_peek s (pktq_peek pq)
  | PeekTail => '(p, prec) ← pktq_peek_tail pq; Some (RPrec p prec, s)
  | Mpeek bmp => on_peek s (pktq_mpeek pq bmp)
  | Mdeq bmp => on_pqp s (pktq_mdeq h pq bmp)
  | Mlen bmp => n ← pktq_mlen pq bmp; Some (RLen n, s)
  | SetMax prec n => pq ← pktq_set_max_plen pq prec n; Some (RUnit, mk_sys h pq (s_l s))
  | SEnq p => on_spq s (spktq_enq h (s_l s) p)
  | SEnqHead p => on_spq s (spktq_enq_head h (s_l s) p)
  | SDeq => on_spq s (spktq_deq h (s_l s))
  | SDeqTail => on_spq s (spktq_deq_tail h (s_l s))
  | SPeek => Some (RPkt (spktq_peek (s_l s)), s)
  end.

(** ** The abstract meaning *)

Definition split_last (l : list pkt) : option (list pkt * pkt) :=
  match reverse l with [] => None | p :: r => Some (reverse r, p) end.

Definition put (a : abs) (n : nat) (l : list pkt) : abs :=
  mk_abs (a_pkts a) (<[n := l]> (a_ls a)) (a_lst a).
Definition put_lst (a : abs) (l : list pkt) : abs := mk_abs (a_pkts a) (a_ls a) l.

(** First and last packet of precedence [n]. *)
Definition take_head (a : abs) (n : nat) : ptr * abs :=
  match a_ls a !!! n with [] => (None, a) | p :: l => (Some p, put a n l) end.
Definition take_tail (a : abs) (n : nat) : ptr * abs :=
  match split_last (a_ls a !!! n) with None => (None, a) | Some (l, p) => (Some p, put a n l) end.

Definition selected (bmp : Z) (i : nat) : bool := Z.testbit bmp (Z.of_nat i).
Definition top (P : nat -> bool) (a : abs) : option nat := top_prec P (length (a_ls a)) (a_ls a).

(** The packet at precedence [r] when there is one. *)
Definition at_prec (r : option nat) (f : nat -> ptr * abs) (a : abs) : res * abs :=
  match r with
  | None => (RPrec None None, a)
  | Some i => let '(p, a) := f i in (RPrec p (Some (Z.of_nat i)), a)
  end.

Definition spec (o : op) (a : abs) : res * abs :=
  match o with
  | Penq prec p =>
      (RPkt (Some p), put a (Z.to_nat prec) (a_ls a !!! Z.to_nat prec ++ [p]))
  | PenqHead prec p =>
      (RPkt (Some p), put a (Z.to_nat prec) (p :: a_ls a !!! Z.to_nat prec))
  | Pdeq prec => let '(p, a) := take_head a (Z.to_nat prec) in (RPkt p, a)
  | PdeqTail prec => let '(p, a) := take_tail a (Z.to_nat prec) in (RPkt p, a)
  | PdeqFn prec fn arg =>
      match take_match (match_fn fn arg) (a_ls a !!! Z.to_nat prec) with
      | None => (RPkt None, a)
      | Some (p, l) => (RPkt (Some p), put a (Z.to_nat prec) l)
      end
  | Pdel p prec =>
      match take_match (fun x => bool_decide (x = p)) (a_ls a !!! Z.to_nat prec) with
      | None => (RBool false, a)
      | Some (_, l) => (RBool true, put a (Z.to_nat prec) l)
      end
  | Append prec =>
      (RUnit, put_lst (put a (Z.to_nat prec) (a_ls a !!! Z.to_nat prec ++ a_lst a)) [])
  | Prepend prec =>
      (RUnit, put_lst (put a (Z.to_nat prec) (a_lst a ++ a_ls a !!! Z.to_nat prec)) [])
  | Deq => at_prec (top (fun _ => true) a) (take_head a) a
  | DeqTail => at_prec (low_prec (a_ls a)) (take_tail a) a
  | Peek => at_prec (top (fun _ => true) a) (fun i => (list.head (a_ls a !!! i), a)) a
  | PeekTail => at_prec (low_prec (a_ls a)) (fun i => (last (a_ls a !!! i), a)) a
  | Mpeek bmp => at_prec (top (selected bmp) a) (fun i => (list.head (a_ls a !!! i), a)) a
  | Mdeq bmp => at_prec (top (selected bmp) a) (take_head a) a
  | Mlen bmp => (RLen (sel_total bmp 0 (a_ls a)), a)
  | SetMax prec n => (RUnit, a)
  | SEnq p => (RPkt (Some p), put_lst a (a_lst a ++ [p]))
  | SEnqHead p => (RPkt (Some p), put_lst a (p :: a_lst a))
  | SDeq => match a_lst a with [] => (RPkt None, a) | p :: l => (RPkt (Some p), put_lst a l) end
  | SDeqTail => match split_last (a_lst a) with
                | None => (RPkt None, a)
                | Some (l, p) => (RPkt (Some p), put_lst a l)
                end
  | SPeek => (RPkt (list.head (a_lst a)), a)
  end.

(** ** The preconditions *)

Definition queuedb (a : abs) (p : pkt) : bool :=
  existsb (fun l => bool_decide (p ∈ l)) (a_ls a) || bool_decide (p ∈ a_lst a).

Definition prec_ok (a : abs) (prec : Z) : bool :=
  bool_decide (0 <= prec < Z.of_nat (length (a_ls a))).

(** An allocated packet that is on no queue, and room in the counters. *)
Definition may_add (a : abs) (p : pkt) : bool :=
  bool_decide (p ∈ a_pkts a) && negb (queuedb a p).
Definition room (n : Z) (l : Z) : bool := bool_decide (n + l < 65536).

Definition enabled (o : op) (a : abs) : bool :=
  match o with
  | Penq prec p | PenqHead prec p => prec_ok a prec && may_add a p && room (total (a_ls a)) 1
  | Pdeq prec | PdeqTail prec | PdeqFn prec _ _ | Pdel _ prec => prec_ok a prec
  | Append prec | Prepend prec =>
      prec_ok a prec && room (total (a_ls a)) (Z.of_nat (length (a_lst a)))
  | SEnq p | SEnqHead p => may_add a p && room (Z.of_nat (length (a_lst a))) 1
  | SetMax prec _ => bool_decide (0 <= prec)
  | Deq | DeqTail | Peek | PeekTail | Mpeek _ | Mdeq _ | Mlen _ | SDeq | SDeqTail | SPeek => true
  end.

(** ** The representation relation *)

Definition used (ls : lists) (lst : list pkt) (x : pkt) : Prop := queued ls x ∨ x ∈ lst.

Record sysrep (s : sys) (a : abs) : Prop := {
  sr_pq : pqrep (s_h s) (s_pq s) (a_ls a);
  sr_l : qrep (s_h s) (spq_q (s_l s)) (a_lst a);
  sr_disj : ∀ x, x ∈ a_lst a -> ¬ queued (a_ls a) x;
  sr_dom : dom (s_h s) = a_pkts a;
  sr_free : ∀ x, x ∈ a_pkts a -> ¬ used (a_ls a) (a_lst a) x -> s_h s !! x = Some None
}.

(** Precedence [n] holds [l'] in place of [l]; the store changed on [l0] only. *)
Lemma queued_insert ls n l' x :
  (n < length ls)%nat -> queued (<[n := l']> ls) x ->
  x ∈ l' ∨ ∃ i, i ≠ n ∧ x ∈ ls !!! i.
Proof.
  intros Hn [i Hi]. destruct (decide (i = n)) as [->|Hne].
  - rewrite lists_insert_eq in Hi by done. by left.
  - rewrite lists_insert_ne in Hi by done. right. eauto.
Qed.

Lemma queued_inserted ls n l' x :
  (n < length ls)%nat -> x ∈ l' -> queued (<[n := l']> ls) x.
Proof. intros Hn Hx. exists n. by rewrite lists_insert_eq. Qed.

Lemma queued_other ls n l' x i :
  i ≠ n -> x ∈ ls !!! i -> queued (<[n := l']> ls) x.
Proof. intros Hn Hx. exists i. by rewrite lists_insert_ne. Qed.

(** A step on precedence [n] of the multi-precedence queue: the packets it
    may write are [l0], those of precedence [n] or free ones, and each packet it
    leaves out of [l'] has its link cleared. *)
Lemma sysrep_pq h pq l a h' pq' n l' l0 :
  sysrep (mk_sys h pq l) a -> (n < length (a_ls a))%nat ->
  pqrep h' pq' (<[n := l']> (a_ls a)) -> frame l0 h h' ->
  (∀ x, x ∈ l0 ++ l' -> x ∉ a_lst a) ->
  (∀ x, x ∈ l0 ++ a_ls a !!! n -> x ∉ l' -> h' !! x = Some None) ->
  sysrep (mk_sys h' pq' l) (put a n l').
Proof.
  intros [Hpq Hl Hd Hdom Hfree] Hn Hpq' [Hdom' Hf] Hout Hnull; simpl in *.
  split; simpl; [done|..].
  - eapply qrep_frame; [|done]. intros x Hx. apply Hf. intros Hx0. apply (Hout x); set_solver.
  - intros x Hx [Hx'|(i & Hne & Hi)]%queued_insert; [|by destruct (Hd x Hx); exists i|done].
    apply (Hout x); set_solver.
  - by rewrite Hdom'.
  - intros x Hx Hu. destruct (decide (x ∈ l0 ++ a_ls a !!! n)) as [Hin|Hin].
    + apply Hnull; [done|]. intros Hx'. apply Hu. left. by apply queued_inserted.
    + rewrite Hf by set_solver. apply Hfree; [done|]. intros [[i Hi]|Hx'].
      * apply Hu. left. eapply (queued_other _ n _ x i); [|done]. intros ->. set_solver.
      * apply Hu. by right.
Qed.

(** A step on the simple queue. *)
Lemma sysrep_l h pq l a h' l1 l' l0 :
  sysrep (mk_sys h pq l) a -> qrep h' (spq_q l1) l' -> frame l0 h h' ->
  (∀ x, x ∈ l0 ++ l' -> ¬ queued (a_ls a) x) ->
  (∀ x, x ∈ l0 ++ a_lst a -> x ∉ l' -> h' !! x = Some None) ->
  sysrep (mk_sys h' pq l1) (put_lst a l').
Proof.
  intros [Hpq Hl Hd Hdom Hfree] Hl' [Hdom' Hf] Hout Hnull; simpl in *.
  split; simpl.
  - eapply pqrep_frame; [by split| |done]. intros x Hx. apply Hout. set_solver.
  - done.
  - intros x Hx. apply Hout. set_solver.
  - by rewrite Hdom'.
  - intros x Hx Hu. destruct (decide (x ∈ l0 ++ a_lst a)) as [Hin|Hin].
    + apply Hnull; [done|]. intros Hx'. apply Hu. by right.
    + rewrite Hf by set_solver. apply Hfree; [done|]. intros [Hq|Hx'].
      * apply Hu. by left.
      * set_solver.
Qed.

(** Both at once: the simple queue emptied into precedence [n]. *)
Lemma sysrep_join h pq l a h' pq' l1 n l' l0 :
  sysrep (mk_sys h pq l) a -> (n < length (a_ls a))%nat ->
  pqrep h' pq' (<[n := l']> (a_ls a)) -> qrep h' (spq_q l1) [] -> frame l0 h h' ->
  l0 ⊆ l' -> a_ls a !!! n ⊆ l' -> a_lst a ⊆ l' ->
  sysrep (mk_sys h' pq' l1) (put_lst (put a n l') []).
Proof.
  intros [Hpq Hl Hd Hdom Hfree] Hn Hpq' Hl1 [Hdom' Hf] H0 H1 H2; simpl in *.
  split; simpl; [done|done|set_solver|by rewrite Hdom'|].
  intros x Hx Hu.
  assert (x ∉ l') as Hx' by (intros Hx'; apply Hu; left; by apply queued_inserted).
  rewrite Hf by set_solver. apply Hfree; [done|]. intros [[i Hi]|Hx2]; [|set_solver].
  apply Hu. left. apply (queued_other _ n _ x i); [|done]. intros ->. set_solver.
Qed.

(** ** From the boolean preconditions *)

Lemma queuedb_spec a p : queuedb a p = false -> ¬ used (a_ls a) (a_lst a) p.
Proof.
  unfold queuedb. rewrite orb_false_iff. intros [H1 H2] [[i Hi]|Hp].
  - destruct (a_ls a !! i) as [l|] eqn:E.
    + rewrite (lists_lookup _ _ _ E) in Hi. apply not_true_iff_false in H1. apply H1.
      apply existsb_exists. exists l. split; [|by apply bool_decide_eq_true].
      by eapply list_elem_of_In, list_elem_of_lookup_2.
    + rewrite list_lookup_total_alt, E in Hi. simpl in Hi. by apply elem_of_nil in Hi.
  - by apply bool_decide_eq_false in H2.
Qed.

Lemma may_add_spec s a p :
  sysrep s a -> may_add a p = true -> ¬ used (a_ls a) (a_lst a) p ∧ s_h s !! p = Some None.
Proof.
  intros H [Hp%bool_decide_eq_true Hq%negb_true_iff]%andb_true_iff.
  apply queuedb_spec in Hq. split; [done|]. by eapply sr_free.
Qed.

Lemma prec_ok_spec s a prec :
  sysrep s a -> prec_ok a prec = true ->
  0 <= prec < num_prec (s_pq s) ∧ (Z.to_nat prec < length (a_ls a))%nat.
Proof.
  intros H Hp%bool_decide_eq_true. pose proof (pqrep_lens _ _ _ (sr_pq _ _ H)). lia.
Qed.

Lemma split_last_Some l l' p : split_last l = Some (l', p) -> l = l' ++ [p].
Proof.
  unfold split_last. destruct (reverse l) as [|x r] eqn:E; [done|]. intros [= <- <-].
  by rewrite <-(reverse_involutive l), E, reverse_cons.
Qed.

Lemma split_last_None l : split_last l = None -> l = [].
Proof.
  unfold split_last. destruct (reverse l) as [|x r] eqn:E; [|done]. intros _.
  by rewrite <-(reverse_involutive l), E.
Qed.

(** ** Every call refines its specification *)

Definition refines (o : op) : Prop :=
  ∀ s a, sysrep s a -> enabled o a = true ->
  ∃ s', exec o s = Some (fst (spec o a), s') ∧ sysrep s' (snd (spec o a)).

Ltac refine_start :=
  intros s a H He; pose proof H as Hs; destruct s as [h pq l]; cbn [enabled] in He;
  repeat match goal with
  | E : _ && _ = true |- _ => apply andb_true_iff in E as [? ?]
  | E : prec_ok _ _ = true |- _ => apply (prec_ok_spec _ _ _ Hs) in E; destruct E as [Hp Hn]
  | E : may_add _ _ = true |- _ => apply (may_add_spec _ _ _ Hs) in E; destruct E as [Hu Hnull]
  | E : room _ _ = true |- _ => apply bool_decide_eq_true in E; rename E into Hroom
  | E : bool_decide _ = true |- _ => apply bool_decide_eq_true in E
  end; destruct H as [Hpq Hl Hd Hdom Hfr]; cbn [s_h s_pq s_l] in *;
  cbn [exec spec s_h s_pq s_l].

Lemma lst_queued h pq l a x n :
  sysrep (mk_sys h pq l) a -> x ∈ a_ls a !!! n -> x ∉ a_lst a.
Proof. intros H Hx Hx'. apply (sr_disj _ _ H x Hx'). by exists n. Qed.

Lemma used_notin h pq l a x :
  sysrep (mk_sys h pq l) a -> ¬ used (a_ls a) (a_lst a) x ->
  x ∉ a_lst a ∧ ∀ n, x ∉ a_ls a !!! n.
Proof.
  intros H Hx. split; [|intros n]; intros Hx'; apply Hx; [by right|left; by exists n].
Qed.

(** The side conditions of the steps, from what is known about the packets. *)
Ltac members Hs :=
  intros;
  repeat match goal with
  | E : _ ∈ _ ++ _ |- _ => apply elem_of_app in E as [E|E]
  | E : _ ∈ _ :: _ |- _ => apply elem_of_cons in E as [E|E]
  | E : _ ∈ [] |- _ => by apply elem_of_nil in E
  | E : ¬ used _ _ _ |- _ => apply (used_notin _ _ _ _ _ Hs) in E as [??]
  | E : ¬ (_ ∈ _ ++ _) |- _ => apply not_elem_of_app in E as [??]
  | E : ¬ (_ ∈ _ :: _) |- _ => apply not_elem_of_cons in E as [??]
  | E : _ ∈ a_ls _ !!! _ |- _ ∉ a_lst _ => by apply (lst_queued _ _ _ _ _ _ Hs E)
  | E : ?l = a_ls _ !!! _, E' : _ ∈ ?l |- _ => rewrite E in E'
  end; subst; try done.

Lemma refines_Penq prec p : refines (Penq prec p).
Proof.
  refine_start.
  destruct (pktq_penq_spec h pq (a_ls a) prec p _ Hpq Hp eq_refl) as (h' & pq' & -> & Hpq' & _ & Hf);
    try done; [intros Hq; apply Hu; by left|].
  eexists. split; [done|]. eapply sysrep_pq; [done..| |]; members Hs.
Qed.

Lemma refines_PenqHead prec p : refines (PenqHead prec p).
Proof.
  refine_start.
  destruct (pktq_penq_head_spec h pq (a_ls a) prec p _ Hpq Hp eq_refl)
    as (h' & pq' & -> & Hpq' & _ & Hf); try done; [intros Hq; apply Hu; by left|].
  eexists. split; [done|]. eapply sysrep_pq; [done..| |]; members Hs.
Qed.

(** Removal of [p] from [l1 ++ p :: l2]. *)
Lemma sysrep_remove h pq l a h' pq' n p l0 l1 l2 :
  sysrep (mk_sys h pq l) a -> (n < length (a_ls a))%nat -> a_ls a !!! n = l1 ++ p :: l2 ->
  pqrep h' pq' (<[n := l1 ++ l2]> (a_ls a)) -> frame l0 h h' -> l0 ⊆ l1 ++ p :: l2 ->
  h' !! p = Some None -> sysrep (mk_sys h' pq' l) (put a n (l1 ++ l2)).
Proof.
  intros Hs Hn Hl Hpq' Hf H0 Hp. eapply sysrep_pq; [done..| |].
  - intros x Hx. apply (lst_queued _ _ _ _ _ n Hs). rewrite Hl. set_solver.
  - rewrite Hl. intros x Hx Hx'.
    assert (x ∈ l1 ++ p :: l2) as [E|[->|E]%elem_of_cons]%elem_of_app by set_solver;
      [set_solver|done|set_solver].
Qed.

Lemma take_head_refines h pq l a n h' pq' p l' :
  sysrep (mk_sys h pq l) a -> (n < length (a_ls a))%nat -> a_ls a !!! n = p :: l' ->
  pqrep h' pq' (<[n := l']> (a_ls a)) -> frame [p] h h' -> h' !! p = Some None ->
  sysrep (mk_sys h' pq' l) (put a n l').
Proof.
  intros Hs Hn Hl Hpq' Hf Hp.
  apply (sysrep_remove h pq l a h' pq' n p [p] [] l'); try done. set_solver.
Qed.

Lemma take_tail_refines h pq l a n h' pq' p l' :
  sysrep (mk_sys h pq l) a -> (n < length (a_ls a))%nat -> a_ls a !!! n = l' ++ [p] ->
  pqrep h' pq' (<[n := l']> (a_ls a)) -> frame l' h h' -> h' !! p = Some None ->
  sysrep (mk_sys h' pq' l) (put a n l').
Proof.
  intros Hs Hn Hl Hpq' Hf Hp. rewrite <-(app_nil_r l') in Hpq' |- *.
  apply (sysrep_remove h pq l a h' pq' n p l' l' []); try done. set_solver.
Qed.

Lemma refines_Pdeq prec : refines (Pdeq prec).
Proof.
  refine_start. unfold take_head. destruct (a_ls a !!! Z.to_nat prec) as [|p l'] eqn:E.
  - rewrite (pktq_pdeq_nil h pq (a_ls a)) by done. eexists. split; [done|]. done.
  - destruct (pktq_pdeq_cons h pq (a_ls a) prec p l') as (h' & pq' & -> & Hpq' & _ & Hf & Hn');
      [done..|].
    eexists. split; [done|]. by eapply take_head_refines.
Qed.

Lemma refines_PdeqTail prec : refines (PdeqTail prec).
Proof.
  refine_start. unfold take_tail.
  destruct (split_last (a_ls a !!! Z.to_nat prec)) as [[l' p]|] eqn:E.
  - apply split_last_Some in E.
    destruct (pktq_pdeq_tail_snoc h pq (a_ls a) prec p l') as (h' & pq' & -> & Hpq' & _ & Hf & Hn');
      [done..|].
    eexists. split; [done|]. by eapply take_tail_refines.
  - apply split_last_None in E. rewrite (pktq_pdeq_tail_nil h pq (a_ls a)) by done.
    eexists. split; [done|]. done.
Qed.

Lemma refines_PdeqFn prec fn arg : refines (PdeqFn prec fn arg).
Proof.
  refine_start. destruct (take_match _ _) as [[p l']|] eqn:E.
  - destruct (pktq_pdeq_with_fn_some h pq (a_ls a) prec fn arg p l')
      as (h' & pq' & -> & Hpq' & _ & Hf & Hn'); [done..|].
    destruct (take_match_Some _ _ _ _ E) as (l1 & l2 & El & -> & _).
    rewrite El in Hf. eexists. split; [done|]. by eapply sysrep_remove.
  - rewrite (pktq_pdeq_with_fn_none h pq (a_ls a)) by done. eexists. split; [done|]. done.
Qed.

Lemma refines_Pdel p prec : refines (Pdel p prec).
Proof.
  refine_start. destruct (take_match _ _) as [[x l']|] eqn:E.
  - destruct (take_match_Some _ _ _ _ E) as (l1 & l2 & El & -> & Hx%bool_decide_eq_true & _). subst x.
    destruct (pktq_pdel_in h pq (a_ls a) p prec l1 l2) as (h' & pq' & -> & Hpq' & _ & Hf & Hn');
      [done..|].
    eexists. split; [done|]. by eapply sysrep_remove.
  - rewrite (pktq_pdel_notin h pq (a_ls a)); [|done..|].
    + eexists. split; [done|]. done.
    + intros Hin. pose proof (take_match_None _ _ E p Hin) as Hf. by apply bool_decide_eq_false in Hf.
Qed.

Lemma refines_Append prec : refines (Append prec).
Proof.
  refine_start. destruct (decide (a_lst a = [])) as [Enil|Hne].
  - rewrite Enil in *. rewrite pktq_append_nil by done. eexists. split; [done|]. cbn [snd].
    rewrite app_nil_r. unfold put_lst, put. cbn [a_pkts a_ls a_lst].
    rewrite list_insert_id by (by apply lists_lookup_lt). rewrite <-Enil. by destruct a.
  - destruct (pktq_append_spec h pq (a_ls a) l (a_lst a) prec _ Hpq Hp eq_refl Hl Hne Hd Hroom)
      as (h' & pq' & l' & -> & Hpq' & _ & Hl' & Hf).
    eexists. split; [done|]. eapply sysrep_join; [done..| | |]; set_solver.
Qed.

Lemma refines_Prepend prec : refines (Prepend prec).
Proof.
  refine_start. destruct (decide (a_lst a = [])) as [Enil|Hne].
  - rewrite Enil in *. rewrite pktq_prepend_nil by done. eexists. split; [done|]. cbn [snd].
    unfold put_lst, put. cbn [a_pkts a_ls a_lst app].
    rewrite list_insert_id by (by apply lists_lookup_lt). rewrite <-Enil. by destruct a.
  - destruct (pktq_prepend_spec h pq (a_ls a) l (a_lst a) prec _ Hpq Hp eq_refl Hl Hne Hd Hroom)
      as (h' & pq' & l' & -> & Hpq' & _ & Hl' & Hf).
    eexists. split; [done|]. eapply sysrep_join; [done..| | |]; set_solver.
Qed.

(** ** Service by precedence *)

Lemma total_nonzero_ne ls n : ls !!! n ≠ [] -> total ls ≠ 0.
Proof. intros Hne Ht. apply Hne. by apply total_zero. Qed.

Lemma top_prec_zero P n ls : total ls = 0 -> top_prec P n ls = None.
Proof.
  intros Ht. destruct (top_prec P n ls) as [i|] eqn:E; [|done].
  destruct (top_prec_Some _ _ _ _ E) as (_ & _ & Hne & _). by destruct (total_nonzero_ne _ _ Hne).
Qed.

Lemma low_prec_zero ls : total ls = 0 -> low_prec ls = None.
Proof.
  intros Ht. destruct (low_prec ls) as [i|] eqn:E; [|done].
  destruct (low_prec_Some _ _ E) as (_ & Hne & _). by destruct (total_nonzero_ne _ _ Hne).
Qed.

(** [hi_prec] is only a hint: lowering it changes nothing that is observed. *)
Lemma sysrep_hi h pq l a m :
  sysrep (mk_sys h pq l) a -> pqrep h (set_hi_prec m pq) (a_ls a) ->
  sysrep (mk_sys h (set_hi_prec m pq) l) a.
Proof. intros [] ?. by split. Qed.

Lemma pdeq_inv h pq prec p h' pq' :
  pktq_pdeq h pq prec = Some (p, h', pq') ->
  ∃ qp qp', getq pq prec = Some qp ∧ deq_head h qp = Some (p, h', qp')
    ∧ pq' = commit_deq prec p qp' pq.
Proof.
  unfold pktq_pdeq. intros H. destruct (getq pq prec) as [qp|]; [|done]. simpl in H.
  destruct (deq_head h qp) as [[[p0 h0] qp']|] eqn:E; [|done]. simpl in H. simplify_eq.
  by exists qp, qp'.
Qed.

Lemma n_pkts_tot_zero h pq ls :
  pqrep h pq ls -> bool_decide (n_pkts_tot pq = 0) = bool_decide (total ls = 0).
Proof. intros H. by rewrite (pqrep_tot _ _ _ H). Qed.

Lemma refines_Deq : refines Deq.
Proof.
  refine_start. clear He. unfold pktq_deq, top. rewrite (n_pkts_tot_zero _ _ _ Hpq).
  case_bool_decide as Ht.
  - rewrite top_prec_zero by done. eexists. split; [done|]. done.
  - destruct (lower_hi_prec_total h pq (a_ls a) Hpq Ht) as (m & -> & Hpq1 & Hm & Hne & Ha).
    cbn [mbind option_bind hi_prec set_hi_prec].
    assert (top_prec (fun _ => true) (length (a_ls a)) (a_ls a) = Some m) as ->.
    { rewrite (top_prec_hi _ m) by done. simpl. by rewrite bool_decide_false. }
    cbn [at_prec]. unfold take_head. destruct (a_ls a !!! m) as [|p l'] eqn:E; [done|].
    destruct (pktq_pdeq_cons h (set_hi_prec (Z.of_nat m) pq) (a_ls a) (Z.of_nat m) p l')
      as (h' & pq' & Hd' & Hpq' & _ & Hf & Hn'); [done|simpl; pqlia Hpq|by rewrite Nat2Z.id|].
    rewrite Nat2Z.id in Hpq'. apply pdeq_inv in Hd' as (qp & qp' & -> & Hd' & ->).
    cbn [mbind option_bind]. rewrite Hd'. eexists. split; [done|].
    eapply take_head_refines; [by apply sysrep_hi|done..].
Qed.

Lemma refines_DeqTail : refines DeqTail.
Proof.
  refine_start. clear He. unfold pktq_deq_tail. rewrite (n_pkts_tot_zero _ _ _ Hpq).
  case_bool_decide as Ht.
  - rewrite low_prec_zero by done. eexists. split; [done|]. done.
  - destruct (lowest_prec_low h pq (a_ls a) Hpq Ht) as (i & -> & -> & Hi & Hne).
    cbn [mbind option_bind at_prec]. unfold take_tail.
    destruct (split_last (a_ls a !!! i)) as [[l' p]|] eqn:E; [|by apply split_last_None in E].
    apply split_last_Some in E.
    destruct (pqrep_lookup h pq _ i Hpq Hi) as (qp & Hqp & Hr).
    rewrite getq_nat, Hqp. cbn [mbind option_bind].
    rewrite (head_null_iff h pq (a_ls a) i), bool_decide_false by done. rewrite E in Hr.
    destruct (deq_tail_snoc _ _ _ _ Hr) as (h' & qp' & -> & Hr' & Hf & _ & Hn').
    cbn [mbind option_bind]. rewrite PKTSETLINK_Some, insert_id by eauto. cbn [mbind option_bind].
    eexists. split; [done|].
    edestruct (pqrep_commit_deq l' h h' pq (a_ls a) (Z.of_nat i) p qp' (l' ++ [p]) l') as [Hpq' _];
      try done; [pqlia Hpq|by rewrite Nat2Z.id|set_solver|rewrite length_app; simpl; lia|].
    rewrite Nat2Z.id in Hpq'. by eapply take_tail_refines.
Qed.

Lemma qrep_head h qp l : qrep h qp l -> head qp = list.head l.
Proof. intros [Hs _ _ _]. destruct l; [done|]. by destruct Hs as [-> _]. Qed.

Lemma refines_Peek : refines Peek.
Proof.
  refine_start. clear He. unfold pktq_peek, top. rewrite (n_pkts_tot_zero _ _ _ Hpq).
  case_bool_decide as Ht.
  - rewrite top_prec_zero by done. eexists. split; [done|]. done.
  - destruct (lower_hi_prec_total h pq (a_ls a) Hpq Ht) as (m & -> & Hpq1 & Hm & Hne & Ha).
    cbn [mbind option_bind hi_prec set_hi_prec].
    rewrite (top_prec_hi _ m) by done. simpl top_prec. rewrite bool_decide_false by done.
    cbn [negb andb at_prec].
    destruct (pqrep_lookup h _ _ m Hpq1 Hm) as (qp & Hqp & Hr).
    rewrite getq_nat, Hqp. cbn [mbind option_bind]. rewrite (qrep_head _ _ _ Hr).
    eexists. split; [done|]. by apply sysrep_hi.
Qed.

Lemma refines_PeekTail : refines PeekTail.
Proof.
  refine_start. clear He. unfold pktq_peek_tail. rewrite (n_pkts_tot_zero _ _ _ Hpq).
  case_bool_decide as Ht.
  - rewrite low_prec_zero by done. eexists. split; [done|]. done.
  - destruct (lowest_prec_low h pq (a_ls a) Hpq Ht) as (i & -> & -> & Hi & Hne).
    cbn [mbind option_bind at_prec].
    destruct (pqrep_lookup h pq _ i Hpq Hi) as (qp & Hqp & Hr).
    rewrite getq_nat, Hqp. cbn [mbind option_bind]. rewrite (qrep_tail _ _ _ Hr).
    eexists. split; [done|]. done.
Qed.

Lemma refines_Mpeek bmp : refines (Mpeek bmp).
Proof.
  refine_start. clear He. unfold pktq_mpeek, top. rewrite (n_pkts_tot_zero _ _ _ Hpq).
  case_bool_decide as Ht.
  - rewrite top_prec_zero by done. eexists. split; [done|]. done.
  - destruct (lower_hi_prec_total h pq (a_ls a) Hpq Ht) as (m & -> & Hpq1 & Hm & Hne & Ha).
    cbn [mbind option_bind hi_prec set_hi_prec]. rewrite Nat2Z.id.
    rewrite (mpeek_scan_spec h _ (a_ls a)), (mdeq_scan_spec h _ (a_ls a)) by done.
    rewrite (top_prec_hi _ m) by done. cbn [mbind option_bind]. fold (selected bmp).
    destruct (top_prec (selected bmp) (S m) (a_ls a)) as [i|] eqn:E; cbn [fmap option_fmap option_map].
    + destruct (top_prec_Some _ _ _ _ E) as (Hi & _ & Hine & _).
      destruct (pqrep_lookup h _ (a_ls a) i Hpq1 ltac:(lia)) as (qp & Hqp & Hr).
      rewrite getq_nat, Hqp. cbn [mbind option_bind].
      rewrite (head_null_iff h _ (a_ls a) i qp Hpq1), bool_decide_false by (done || lia).
      rewrite (qrep_head _ _ _ Hr). eexists. split; [done|]. by apply sysrep_hi.
    + eexists. split; [done|]. by apply sysrep_hi.
Qed.

(** pktq_mdeq clears the pointers of a queue it has emptied; they were clear. *)
Lemma clear_emptied h qp l p :
  qrep h qp l ->
  (if negb (isNULL p) && bool_decide (n_pkts qp = 0)
   then set_tail None (set_head None qp) else qp) = qp.
Proof.
  intros [Hs Ht Hn Hb]. destruct (negb _); [|done]. simpl. case_bool_decide as E; [|done].
  destruct l as [|x l]; [|simpl in Hn; lia]. simpl in *. destruct qp; simpl in *. by subst.
Qed.

Lemma refines_Mdeq bmp : refines (Mdeq bmp).
Proof.
  refine_start. clear He. unfold pktq_mdeq, top. rewrite (n_pkts_tot_zero _ _ _ Hpq).
  case_bool_decide as Ht.
  - rewrite top_prec_zero by done. eexists. split; [done|]. done.
  - destruct (lower_hi_prec_total h pq (a_ls a) Hpq Ht) as (m & -> & Hpq1 & Hm & Hne & Ha).
    cbn [mbind option_bind hi_prec set_hi_prec]. rewrite Nat2Z.id.
    rewrite (mdeq_scan_spec h _ (a_ls a)) by done.
    rewrite (top_prec_hi _ m) by done. cbn [mbind option_bind]. fold (selected bmp).
    destruct (top_prec (selected bmp) (S m) (a_ls a)) as [i|] eqn:E; cbn [fmap option_fmap option_map].
    + destruct (top_prec_Some _ _ _ _ E) as (Hi & _ & Hine & _).
      destruct (pqrep_lookup h _ (a_ls a) i Hpq1 ltac:(lia)) as (qp & Hqp & Hr).
      rewrite getq_nat, Hqp. cbn [mbind option_bind at_prec]. unfold take_head.
      destruct (a_ls a !!! i) as [|p l'] eqn:El; [done|].
      destruct (deq_head_cons _ _ _ _ Hr) as (h' & qp' & -> & Hr' & Hf & _ & Hn').
      cbn [mbind option_bind]. rewrite (clear_emptied _ _ _ _ Hr').
      edestruct (pqrep_commit_deq [p] h h' (set_hi_prec (Z.of_nat m) pq) (a_ls a) (Z.of_nat i)
                   p qp' (p :: l') l') as [Hpq' _];
        try done; [simpl; pqlia Hpq|by rewrite Nat2Z.id|].
      rewrite Nat2Z.id in Hpq'. eexists. split; [done|].
      eapply take_head_refines; [by apply sysrep_hi|lia|done..].
    + eexists. split; [done|]. by apply sysrep_hi.
Qed.

Lemma refines_Mlen bmp : refines (Mlen bmp).
Proof.
  refine_start. rewrite (pktq_mlen_spec h pq (a_ls a)) by done. eexists. split; [done|]. done.
Qed.

Lemma refines_SetMax prec n : refines (SetMax prec n).
Proof.
  refine_start. unfold pktq_set_max_plen. case_bool_decide as Hlt.
  - destruct (pqrep_getq h pq (a_ls a) prec Hpq) as (qp & -> & Hqp & Hr); [lia|].
    cbn [mbind option_bind]. eexists. split; [done|].
    assert (qrep h (set_max_pkts (u16 n) qp) (a_ls a !!! Z.to_nat prec)) as Hr'
      by (destruct Hr; by split).
    split; [|done..]. cbn [s_h s_pq].
    destruct Hpq as [Hlen Hlens Hq Hdj Htot Hb Hhi Hnum Hab]. split; try done.
    + cbn. by rewrite length_insert.
    + intros i qp' Hi Hi'. cbn in Hi'. destruct (decide (i = Z.to_nat prec)) as [->|Hne].
      * rewrite list_lookup_insert_eq in Hi' by lia. by simplify_eq.
      * rewrite list_lookup_insert_ne in Hi' by done. by apply Hq.
  - eexists. split; [done|]. done.
Qed.

(** ** The simple queue *)

Lemma lst_notqueued h pq l a x :
  sysrep (mk_sys h pq l) a -> x ∈ a_lst a -> ¬ queued (a_ls a) x.
Proof. intros H Hx. by apply (sr_disj _ _ H). Qed.

Lemma refines_SEnq p : refines (SEnq p).
Proof.
  refine_start. unfold spktq_enq. rewrite PKTSETLINK_Some, insert_id by eauto.
  cbn [mbind option_bind]. destruct (used_notin _ _ _ _ _ Hs Hu) as [Hpl _].
  destruct (enq_tail_spec h (spq_q l) (a_lst a) p Hl Hpl Hnull Hroom) as (h' & qp' & -> & Hr' & Hf & _).
  eexists. split; [done|].
  apply (sysrep_l h pq l a h' (mk_spktq qp') _ (a_lst a)); try done.
  - intros x Hx Hq. assert (x ∈ a_lst a ∨ x = p) as [Hx'| ->] by set_solver.
    + by apply (Hd x Hx').
    + apply Hu. by left.
  - set_solver.
Qed.

Lemma refines_SEnqHead p : refines (SEnqHead p).
Proof.
  refine_start. unfold spktq_enq_head. rewrite PKTSETLINK_Some, insert_id by eauto.
  cbn [mbind option_bind]. destruct (used_notin _ _ _ _ _ Hs Hu) as [Hpl _].
  destruct (enq_head_spec h (spq_q l) (a_lst a) p Hl Hpl) as (h' & qp' & -> & Hr' & Hf & _);
    [eauto|done|].
  eexists. split; [done|].
  apply (sysrep_l h pq l a h' (mk_spktq qp') _ [p]); try done.
  - intros x Hx Hq. assert (x ∈ a_lst a ∨ x = p) as [Hx'| ->] by set_solver.
    + by apply (Hd x Hx').
    + apply Hu. by left.
Qed.

Lemma refines_SDeq : refines SDeq.
Proof.
  refine_start. unfold spktq_deq. destruct (a_lst a) as [|p l'] eqn:E.
  - rewrite deq_head_nil by done. eexists. split; [done|]. by destruct l.
  - destruct (deq_head_cons _ _ _ _ Hl) as (h' & qp' & -> & Hr' & Hf & _ & Hn').
    eexists. split; [done|]. apply (sysrep_l h pq l a h' (mk_spktq qp') _ [p]); try done.
    rewrite E. intros x Hx Hx'. assert (x = p) as -> by set_solver. done.
Qed.

Lemma refines_SDeqTail : refines SDeqTail.
Proof.
  refine_start. unfold spktq_deq_tail. destruct (split_last (a_lst a)) as [[l' p]|] eqn:E.
  - apply split_last_Some in E. rewrite E in Hl.
    destruct (deq_tail_snoc _ _ _ _ Hl) as (h' & qp' & -> & Hr' & Hf & _ & Hn').
    eexists. split; [done|]. apply (sysrep_l h pq l a h' (mk_spktq qp') _ l'); try done.
    + intros x Hx. apply Hd. rewrite E. set_solver.
    + rewrite E. intros x Hx Hx'. assert (x = p) as -> by set_solver. done.
  - apply split_last_None in E. rewrite E in Hl. rewrite deq_tail_nil by done.
    eexists. split; [done|]. by destruct l.
Qed.

Lemma refines_SPeek : refines SPeek.
Proof.
  refine_start. unfold spktq_peek. eexists. split; [|done]. do 2 f_equal.
  rewrite <-(qrep_head _ _ _ Hl). case_bool_decide as E; [|done].
  rewrite (qrep_len _ _ _ Hl) in E. destruct (a_lst a) eqn:El; [|simpl in E; lia].
  by rewrite (qrep_head _ _ _ Hl).
Qed.

#[export] Hint Resolve refines_Penq refines_PenqHead refines_Pdeq refines_PdeqTail refines_PdeqFn
  refines_Pdel refines_Append refines_Prepend refines_Deq refines_DeqTail refines_Peek
  refines_PeekTail refines_Mpeek refines_Mdeq refines_Mlen refines_SetMax refines_SEnq
  refines_SEnqHead refines_SDeq refines_SDeqTail refines_SPeek : pktq.

Lemma exec_step o : refines o.
Proof. destruct o; auto with pktq. Qed.

(** ** Runs *)

Fixpoint exec_all (os : list op) (s : sys) : option (list res * sys) :=
  match os with
  | [] => Some ([], s)
  | o :: os => '(r, s) ← exec o s; '(rs, s) ← exec_all os s; Some (r :: rs, s)
  end.

Fixpoint spec_all (os : list op) (a : abs) : list res * abs :=
  match os with
  | [] => ([], a)
  | o :: os => let '(r, a) := spec o a in let '(rs, a) := spec_all os a in (r :: rs, a)
  end.

Fixpoint enabled_all (os : list op) (a : abs) : bool :=
  match os with
  | [] => true
  | o :: os => enabled o a && enabled_all os (snd (spec o a))
  end.

Lemma exec_all_step os s a :
  sysrep s a -> enabled_all os a = true ->
  ∃ s', exec_all os s = Some (fst (spec_all os a), s') ∧ sysrep s' (snd (spec_all os a)).
Proof.
  revert s a. induction os as [|o os IH]; intros s a Hs He; simpl in *; [by exists s|].
  apply andb_true_iff in He as [Ho He]. destruct (exec_step o s a Hs Ho) as (s1 & -> & Hs1).
  destruct (spec o a) as [r a1]. simpl in *. destruct (IH _ _ Hs1 He) as (s2 & -> & Hs2).
  destruct (spec_all os a1) as [rs a2]. simpl in *. by exists s2.
Qed.

(** ** The state after initialisation *)

Definition init_abs (P : gset pkt) (n : nat) : abs := mk_abs P (replicate n []) [].

Lemma lookup_total_replicate_nil n i : (replicate n [] : lists) !!! i = [].
Proof.
  rewrite list_lookup_total_alt. destruct (replicate n [] !! i) as [l|] eqn:E; [|done].
  by apply lookup_replicate in E as [-> _].
Qed.

Lemma total_replicate_nil n : total (replicate n []) = 0.
Proof. apply total_zero. intros i. apply lookup_total_replicate_nil. Qed.

Lemma sysrep_init h (P : gset pkt) pq pq' n m ms :
  dom h = P -> (∀ p, p ∈ P -> h !! p = Some None) ->
  pktq_init pq n m = Some (true, pq') -> 0 < n <= 16 ->
  sysrep (mk_sys h pq' (snd (spktq_init ms))) (init_abs P (Z.to_nat n)).
Proof.
  intros Hdom Hfree Hinit Hn. unfold pktq_init in Hinit. case_decide as Hlen; [|done].
  injection Hinit as <-. split; cbn [s_h s_pq s_l a_ls a_lst init_abs snd].
  - split; cbn [num_prec hi_prec n_pkts_tot q]; rewrite ?total_replicate_nil, ?length_replicate; try done.
    + rewrite length_app, length_replicate. lia.
    + rewrite u16_small; lia.
    + intros i qp Hi Hq. rewrite lookup_app_l in Hq by (by rewrite length_replicate).
      apply lookup_replicate in Hq as [-> _]. by rewrite lookup_total_replicate_nil.
    + intros i j x Hx. rewrite lookup_total_replicate_nil in Hx. by apply elem_of_nil in Hx.
    + rewrite u16_small; lia.
    + rewrite u16_small; lia.
    + intros. apply lookup_total_replicate_nil.
  - done.
  - intros x Hx. by apply elem_of_nil in Hx.
  - done.
  - intros x Hx _. by apply Hfree.
Qed.
