(* ===== verification/PktqFilter.v ===== *)
(** * hnd_pktq.c: filtering and flushing

    The caller's callbacks are parameters.  What is assumed of them is what
    hnd_pktq.h asks for: they answer for the packet they are given and do not
    touch the link of another packet. *)

From S2P Require Import Prelude Pktq PktqSpec PktqRefine PktqSystem.

(** ** The abstract meaning *)

Section Meaning.
Context {W : Type} (decision : W -> pkt -> W * pktq_filter_result) (deferred : W -> pkt -> W).

(** The contexts after the packets of [l] and the packets that stay. *)
Fixpoint filter_list (w : W) (l : list pkt) : W * list pkt :=
  match l with
  | [] => (w, [])
  | p :: l =>
      let '(w, r) := decision w p in
      match r with
      | PKT_FILTER_NOACTION => let '(w, k) := filter_list w l in (w, p :: k)
      | PKT_FILTER_DELETE => filter_list (deferred w p) l
      | PKT_FILTER_REMOVE => filter_list w l
      end
  end.

(** The precedences from [k - 1] down to 0. *)
Fixpoint filter_precs (k : nat) (w : W) (ls : lists) : W * lists :=
  match k with
  | O => (w, ls)
  | S k => let '(w, l) := filter_list w (ls !!! k) in filter_precs k w (<[k := l]> ls)
  end.

Lemma filter_list_sub w l : snd (filter_list w l) ⊆ l ∧ (length (snd (filter_list w l)) <= length l)%nat.
Proof.
  revert w. induction l as [|p l IH]; intros w; simpl; [by split|].
  destruct (decision w p) as [w1 []].
  - destruct (IH w1) as [H1 H2]. destruct (filter_list w1 l) as [w2 k]. simpl in *.
    split; [set_solver|lia].
  - destruct (IH (deferred w1 p)). split; [set_solver|lia].
  - destruct (IH w1). split; [set_solver|lia].
Qed.
End Meaning.

(** Freeing [l] in order, and the precedences from [k - 1] down to 0. *)
Fixpoint free_precs {W} (freed : W -> pkt -> W) (k : nat) (w : W) (ls : lists) : W :=
  match k with
  | O => w
  | S k => free_precs freed k (fold_left freed (ls !!! k) w) ls
  end.

(** ** What the callbacks promise *)

Definition only (p : pkt) (h h' : heap) : Prop := ∀ x, x ≠ p -> h' !! x = h !! x.

Section Contracts.
Context {W : Type}.

Definition filter_ok (fltr : W -> heap -> pkt -> option (W * heap * pktq_filter_result))
    (decision : W -> pkt -> W * pktq_filter_result) : Prop :=
  ∀ w h p, h !! p = Some None ->
  ∃ h', fltr w h p = Some (fst (decision w p), h', snd (decision w p)) ∧ only p h h'
        ∧ (snd (decision w p) ≠ PKT_FILTER_REMOVE -> h' !! p = Some None).

(** Callbacks that take the packet over. *)
Definition consume_ok (cb : W -> heap -> pkt -> option (W * heap)) (done : W -> pkt -> W) : Prop :=
  ∀ w h p, h !! p = Some None -> ∃ h', cb w h p = Some (done w p, h') ∧ only p h h'.

(** The end of a filter: the packets still queued are not touched. *)
Definition flush_ok (flush : W -> heap -> option (W * heap)) (flushed : W -> W)
    (keep : pkt -> Prop) : Prop :=
  ∀ w h, ∃ h', flush w h = Some (flushed w, h') ∧ ∀ x, keep x -> h' !! x = h !! x.
End Contracts.

(** ** The filter loop, for any queue type

    [Rep h q k] says that [q] holds [k] at the place being filtered, and
    [Own k] are the packets this depends on. *)

Section Loop.
Context {W Q : Type} (Rep : heap -> Q -> list pkt -> Prop) (Own : list pkt -> pkt -> Prop).
Context (room_for : Z) (penq : heap -> Q -> pkt -> option (ptr * heap * Q)).
Context (Rep_frame : ∀ h h' q k, (∀ x, Own k x -> h' !! x = h !! x) -> Rep h q k -> Rep h' q k).
Context (Own_snoc : ∀ k p x, Own (k ++ [p]) x -> Own k x ∨ x = p).
Context (penq_ok : ∀ h q k p,
  Rep h q k -> ¬ Own k p -> h !! p = Some None -> Z.of_nat (length k) + 1 <= room_for ->
  ∃ h' q', penq h q p = Some (Some p, h', q') ∧ Rep h' q' (k ++ [p])
           ∧ ∀ x, ¬ Own k x -> h' !! x = h !! x).
Context (fltr : W -> heap -> pkt -> option (W * heap * pktq_filter_result)).
Context (decision : W -> pkt -> W * pktq_filter_result).
Context (defer : W -> heap -> pkt -> option (W * heap)) (deferred : W -> pkt -> W).
Context (Hfltr : filter_ok fltr decision) (Hdefer : consume_ok defer deferred).

Lemma filter_loop_spec rest : ∀ fuel w h q hd k,
  lseg h hd rest None -> (∀ x, x ∈ rest -> ¬ Own k x) -> Rep h q k ->
  Z.of_nat (length k) + Z.of_nat (length rest) <= room_for -> (length rest <= fuel)%nat ->
  ∃ h' q', filter_loop fuel fltr defer penq w h q hd
           = Some (fst (filter_list decision deferred w rest), h', q')
    ∧ Rep h' q' (k ++ snd (filter_list decision deferred w rest))
    ∧ ∀ x, ¬ Own k x -> x ∉ rest -> h' !! x = h !! x.
Proof.
  induction rest as [|p rest IH]; intros fuel w h q hd k Hs Hd HR Hroom Hfuel.
  { simpl in Hs. subst hd. exists h, q. destruct fuel; simpl; by rewrite app_nil_r. }
  pose proof (lseg_NoDup _ _ _ Hs) as [Hp Hnd]%NoDup_cons.
  destruct Hs as (-> & nx & Hx & Hs). destruct fuel as [|fuel]; simpl in Hfuel; [lia|].
  cbn [filter_loop]. unfold PKTLINK. rewrite Hx. cbn [mbind option_bind].
  rewrite PKTSETLINK_Some by eauto. cbn [mbind option_bind].
  destruct (Hfltr w (<[p := None]> h) p) as (h1 & -> & H1 & Hn1); [by simplify_map_eq|].
  assert (∀ x, x ≠ p -> h1 !! x = h !! x) as Hh1.
  { intros x Hne. rewrite H1 by done. by rewrite lookup_insert_ne. }
  assert (¬ Own k p) as Hpk by (apply Hd; left).
  assert (∀ h2 x, only p h1 h2 -> x ≠ p -> h2 !! x = h !! x) as Hcomp
    by (intros h2 x Ho Hne; rewrite Ho, Hh1; done).
  cbn [mbind option_bind filter_list]. destruct (decision w p) as [w1 r]. cbn [fst snd] in *.
  assert (∀ h2 w2 q2 k2, (∀ x, ¬ Own k x -> x ≠ p -> h2 !! x = h !! x) -> Rep h2 q2 k2 ->
            (∀ x, Own k2 x -> Own k x ∨ x = p) -> (length k2 <= S (length k))%nat ->
            ∃ h' q', filter_loop fuel fltr defer penq w2 h2 q2 nx
              = Some (fst (filter_list decision deferred w2 rest), h', q')
              ∧ Rep h' q' (k2 ++ snd (filter_list decision deferred w2 rest))
              ∧ ∀ x, ¬ Own k x -> x ∉ p :: rest -> h' !! x = h !! x) as Hrec.
  { intros h2 w2 q2 k2 Hh2 HR2 Hk2 Hlen2.
    assert (∀ x, x ∈ rest -> ¬ Own k x ∧ x ≠ p) as Hrest
      by (intros x Hx'; split; [apply Hd; by right|by intros ->]).
    destruct (IH fuel w2 h2 q2 nx k2) as (h' & q' & E & HR' & Hf').
    - eapply lseg_frame; [|done]. intros x Hx'. by apply Hh2; apply Hrest.
    - intros x Hx' [Ho| ->]%Hk2; [by apply (proj1 (Hrest _ Hx'))|done].
    - done.
    - simpl in Hroom. lia.
    - lia.
    - exists h', q'. split_and!; [done..|]. intros x Ho [Hne Hin]%not_elem_of_cons.
      rewrite Hf', Hh2; try done. by intros [?|?]%Hk2. }
  destruct r; cbn [mbind option_bind].
  - destruct (penq_ok h1 q k p) as (h2 & q2 & -> & HR2 & Hf2); [|done|by apply Hn1|simpl in Hroom; lia|].
    { eapply Rep_frame; [|done]. intros x Hx'. apply Hh1. by intros ->. }
    cbn [mbind option_bind]. destruct (Hrec h2 w1 q2 (k ++ [p])) as (h' & q' & -> & HR' & Hf');
      [|done|by apply Own_snoc|rewrite length_app; simpl; lia|].
    { intros x Ho Hne. by rewrite Hf2, Hh1. }
    destruct (filter_list decision deferred w1 rest) as [w3 kept]. cbn [fst snd] in *.
    exists h', q'. split_and!; [done| |done]. by rewrite <-app_assoc in HR'.
  - destruct (Hdefer w1 h1 p) as (h2 & -> & H2); [by apply Hn1|]. cbn [mbind option_bind].
    apply Hrec; [|eapply Rep_frame; [|done]|by left|lia].
    + intros x _ Hne. by apply Hcomp.
    + intros x Hx'. apply Hcomp; [done|]. by intros ->.
  - apply Hrec; [by intros; apply Hh1|eapply Rep_frame; [|done]|by left|lia].
    intros x Hx'. apply Hh1. by intros ->.
Qed.
End Loop.

(** ** One precedence, and all of them *)

Section Filter.
Context {W : Type}.
Context (fltr : W -> heap -> pkt -> option (W * heap * pktq_filter_result)).
Context (decision : W -> pkt -> W * pktq_filter_result).
Context (defer : W -> heap -> pkt -> option (W * heap)) (deferred : W -> pkt -> W).
Context (Hfltr : filter_ok fltr decision) (Hdefer : consume_ok defer deferred).

Lemma queued_same ls n l x :
  (n < length ls)%nat -> l ⊆ ls !!! n -> queued (<[n := l]> ls) x -> queued ls x.
Proof. intros Hn Hl [Hx|(i & _ & Hx)]%queued_insert; [exists n|by exists i|done]. by apply Hl. Qed.

Lemma pqrep_cleared h pq ls prec wq :
  pqrep h pq ls -> 0 <= prec < num_prec pq -> getq pq prec = Some wq ->
  pqrep h (set_n_pkts_tot (u16 (n_pkts_tot pq - n_pkts wq)) (putq prec (clear_list wq) pq))
    (<[Z.to_nat prec := []]> ls).
Proof.
  intros H Hp Hg. destruct (pqrep_getq h pq ls prec H Hp) as (qp & Hg' & Hqp & Hr).
  simplify_eq. pose proof (total_ge ls (Z.to_nat prec)). pose proof (pqrep_total_range _ _ _ H).
  eapply (pqrep_update []); [exact H|pqlia H|apply clear_list_qrep|apply frame_refl|..]; simpl; try done.
  - intros x i Hx. by apply elem_of_nil in Hx.
  - rewrite (pqrep_tot _ _ _ H), (qrep_len _ _ _ Hr), total_insert, u16_small by (simpl; pqlia H).
    simpl. lia.
  - apply u16_range.
  - pqlia H.
  - by left.
Qed.

Lemma pfilter_spec w h pq ls prec l :
  pqrep h pq ls -> 0 <= prec < num_prec pq -> ls !!! Z.to_nat prec = l ->
  ∃ h' pq', _pktq_pfilter fltr defer w h pq prec
            = Some (fst (filter_list decision deferred w l), h', pq')
    ∧ pqrep h' pq' (<[Z.to_nat prec := snd (filter_list decision deferred w l)]> ls)
    ∧ num_prec pq' = num_prec pq
    ∧ ∀ x, ¬ queued ls x -> h' !! x = h !! x.
Proof.
  intros H Hp Hl. destruct (pqrep_getq h pq ls prec H Hp) as (wq & Hg & Hqp & Hr).
  pose proof (pqrep_cleared h pq ls prec wq H Hp Hg) as H1.
  unfold _pktq_pfilter. rewrite Hg. cbn [mbind option_bind].
  assert (Z.to_nat prec < length ls)%nat as Hn by pqlia H.
  pose proof (total_insert ls (Z.to_nat prec)) as Htot. rewrite Hl in Hr, Htot.
  pose proof (pqrep_total_range _ _ _ H) as Hrange.
  assert (∀ k x, queued (<[Z.to_nat prec := k]> ls) x -> x ∈ k ∨ queued ls x) as Hown.
  { intros k x [Hx|(i & _ & Hx)]%queued_insert; [by left|right; by exists i|done]. }
  edestruct (filter_loop_spec (W := W)
    (fun h q k => pqrep h q (<[Z.to_nat prec := k]> ls) ∧ num_prec q = num_prec pq)
    (fun k => queued (<[Z.to_nat prec := k]> ls)) (Z.of_nat (length l))
    (fun h pq p => pktq_penq h pq prec p))
    with (fltr := fltr) (decision := decision) (defer := defer) (deferred := deferred)
      (k := @nil pkt) (rest := l) (fuel := S (size h)) (w := w)
    as (h' & pq' & E & [HR Hnum] & Hf'); [..|exact Hfltr|exact Hdefer|exact (qrep_seg _ _ _ Hr)|
      |split; [exact H1|done]| | |].
  - intros h1 h2 q k Hf [HR Hnum]. split; [|done]. by eapply pqrep_agree.
  - intros k p x [[Hx| ->%list_elem_of_singleton]%elem_of_app|(i & Hne & Hx)]%queued_insert; [|by right| |done].
    + left. by apply queued_inserted.
    + left. by apply (queued_other _ _ _ _ i).
  - intros h1 q k p [HR Hnum] Hno Hnull Hroom.
    destruct (pktq_penq_spec h1 q _ prec p k HR) as (h2 & q2 & E & HR2 & Hnum2 & Hf2);
      [lia|by rewrite lists_insert_eq|done|done|rewrite Htot by done; lia|].
    rewrite list_insert_insert_eq in HR2. exists h2, q2. split_and!; [done..|congruence|].
    intros x Hx. apply (proj2 Hf2). intros Hin. apply Hx. by apply queued_inserted.
  - intros x Hx [Hx'|(i & Hne & Hi)]%queued_insert; [by apply elem_of_nil in Hx'| |done].
    apply Hne, (pqrep_disj _ _ _ H i (Z.to_nat prec) x Hi). by rewrite Hl.
  - simpl. lia.
  - by eapply qrep_fuel.
  - exists h', pq'. split_and!; [exact E|exact HR|done|]. intros x Hx. apply Hf'.
    + intros [Hx'|?]%Hown; [by apply elem_of_nil in Hx'|done].
    + intros Hin. apply Hx. exists (Z.to_nat prec). by rewrite Hl.
Qed.

Lemma filter_precs_spec k : ∀ w h pq ls,
  pqrep h pq ls -> (k <= length ls)%nat ->
  ∃ h' pq', prec_iter k (fun '(w, h, pq) prec => _pktq_pfilter fltr defer w h pq prec) (w, h, pq)
            = Some (fst (filter_precs decision deferred k w ls), h', pq')
    ∧ pqrep h' pq' (snd (filter_precs decision deferred k w ls))
    ∧ num_prec pq' = num_prec pq
    ∧ ∀ x, ¬ queued ls x -> h' !! x = h !! x.
Proof.
  induction k as [|k IH]; intros w h pq ls H Hk; [by exists h, pq|]. cbn [prec_iter filter_precs].
  destruct (pfilter_spec w h pq ls (Z.of_nat k) (ls !!! k)) as (h1 & pq1 & -> & H1 & Hnum1 & Hf1);
    [done|pqlia H|by rewrite Nat2Z.id|].
  cbn [mbind option_bind]. rewrite Nat2Z.id in H1.
  destruct (filter_list_sub decision deferred w (ls !!! k)) as [Hsub _].
  destruct (filter_list decision deferred w (ls !!! k)) as [w1 l1]. cbn [fst snd] in *.
  destruct (IH w1 h1 pq1 _ H1) as (h2 & pq2 & E & H2 & Hnum2 & Hf2); [rewrite length_insert; lia|].
  exists h2, pq2. split_and!; [done..|congruence|]. intros x Hx. rewrite Hf2, Hf1; [done|done|].
  intros Hq. apply Hx. eapply queued_same; [|done..]. lia.
Qed.

Lemma spfilter_spec w h spq l :
  qrep h (spq_q spq) l -> l ≠ [] ->
  ∃ h' spq', filter_loop (S (size h)) fltr defer spktq_enq w h (mk_spktq (clear_list (spq_q spq)))
               (head (spq_q spq))
             = Some (fst (filter_list decision deferred w l), h', spq')
    ∧ qrep h' (spq_q spq') (snd (filter_list decision deferred w l))
    ∧ ∀ x, x ∉ l -> h' !! x = h !! x.
Proof.
  intros Hr Hne.
  edestruct (filter_loop_spec (W := W) (fun h q k => qrep h (spq_q q) k) (fun k x => x ∈ k)
    (Z.of_nat (length l)) spktq_enq)
    with (q := mk_spktq (clear_list (spq_q spq))) (fltr := fltr) (decision := decision) (defer := defer) (deferred := deferred)
      (k := @nil pkt) (rest := l) (fuel := S (size h)) (w := w)
    as (h' & pq' & E & HR & Hf'); [..|exact Hfltr|exact Hdefer|exact (qrep_seg _ _ _ Hr)|
      |by apply clear_list_qrep| | |].
  - intros h1 h2 q k Hf. by apply qrep_frame.
  - intros k p x. set_solver.
  - intros h1 q k p HR Hno Hnull Hroom. unfold spktq_enq.
    rewrite PKTSETLINK_Some, insert_id by eauto. cbn [mbind option_bind].
    destruct (enq_tail_spec h1 (spq_q q) k p HR Hno Hnull) as (h2 & q2 & -> & HR2 & Hf2 & _).
    { pose proof (qrep_n_pkts _ _ _ Hr). rewrite (qrep_len _ _ _ Hr) in *. lia. }
    exists h2, (mk_spktq q2). split_and!; [done..|]. apply Hf2.
  - set_solver.
  - simpl. lia.
  - by eapply qrep_fuel.
  - exists h', pq'. split_and!; [exact E|exact HR|]. intros x Hx. apply Hf'; [set_solver|done].
Qed.
End Filter.

(** ** Flushing *)

Section FlushLoop.
Context {W Q : Type} (Rep : heap -> Q -> list pkt -> Prop) (Own : list pkt -> pkt -> Prop).
Context (deq : heap -> Q -> option (ptr * heap * Q)).
Context (Rep_frame : ∀ h h' q k, (∀ x, Own k x -> h' !! x = h !! x) -> Rep h q k -> Rep h' q k).
Context (deq_nil : ∀ h q, Rep h q [] -> deq h q = Some (None, h, q)).
Context (deq_cons : ∀ h q p k, Rep h q (p :: k) ->
  ∃ h' q', deq h q = Some (Some p, h', q') ∧ Rep h' q' k ∧ h' !! p = Some None
           ∧ only p h h' ∧ ¬ Own k p).
Context (free : W -> heap -> pkt -> option (W * heap)) (freed : W -> pkt -> W).
Context (Hfree : consume_ok free freed).

Lemma flush_loop_spec k : ∀ fuel w h q,
  Rep h q k -> (length k <= fuel)%nat ->
  ∃ h' q', flush_loop fuel deq free w h q = Some (fold_left freed k w, h', q')
    ∧ Rep h' q' [] ∧ ∀ x, x ∉ k -> h' !! x = h !! x.
Proof.
  induction k as [|p k IH]; intros fuel w h q HR Hfuel.
  - exists h, q. destruct fuel; simpl; by rewrite (deq_nil h q HR).
  - destruct fuel as [|fuel]; simpl in Hfuel; [lia|].
    destruct (deq_cons h q p k HR) as (h1 & q1 & E & HR1 & Hn & Ho & Hown).
    cbn [flush_loop]. rewrite E. cbn [mbind option_bind].
    destruct (Hfree w h1 p Hn) as (h2 & -> & Ho2). cbn [mbind option_bind fold_left].
    destruct (IH fuel (freed w p) h2 q1) as (h3 & q3 & -> & HR3 & Hf3).
    + eapply Rep_frame; [|done]. intros x Hx. apply Ho2. by intros ->.
    + lia.
    + exists h3, q3. split_and!; [done..|]. intros x [Hne Hx]%not_elem_of_cons.
      by rewrite Hf3, Ho2, Ho.
Qed.
End FlushLoop.

Section Flush.
Context {W : Type} (free : W -> heap -> pkt -> option (W * heap)) (freed : W -> pkt -> W).
Context (Hfree : consume_ok free freed).

Lemma pflush_spec fuel w h pq ls prec l :
  pqrep h pq ls -> 0 <= prec < num_prec pq -> ls !!! Z.to_nat prec = l -> (length l <= fuel)%nat ->
  ∃ h' pq', flush_loop fuel (fun h pq => pktq_pdeq h pq prec) free w h pq
            = Some (fold_left freed l w, h', pq')
    ∧ pqrep h' pq' (<[Z.to_nat prec := []]> ls) ∧ num_prec pq' = num_prec pq
    ∧ ∀ x, ¬ queued ls x -> h' !! x = h !! x.
Proof.
  intros H Hp Hl Hfuel. assert (Z.to_nat prec < length ls)%nat as Hn by pqlia H.
  edestruct (flush_loop_spec (W := W)
    (fun h q k => (pqrep h q (<[Z.to_nat prec := k]> ls) ∧ num_prec q = num_prec pq) ∧ k `suffix_of` l)
    (fun k => queued (<[Z.to_nat prec := k]> ls)) (fun h pq => pktq_pdeq h pq prec))
    with (free := free) (freed := freed) (k := l) (fuel := fuel) (w := w) (h := h) (q := pq)
    as (h' & pq' & E & [[HR Hnum] _] & Hf'); [..|exact Hfree| | |].
  - intros h1 h2 q k Hf [[HR Hnum] Hs]. split_and!; [|done..]. by eapply pqrep_agree.
  - intros h1 q [[HR Hnum] _]. eapply pktq_pdeq_nil; [done|lia|by apply lists_insert_eq].
  - intros h1 q p k [[HR Hnum] Hs].
    destruct (pktq_pdeq_cons h1 q _ prec p k HR) as (h2 & q2 & E & HR2 & Hnum2 & Hf & Hnull);
      [lia|by apply lists_insert_eq|].
    rewrite list_insert_insert_eq in HR2. exists h2, q2. split_and!; [done..|congruence| |done| |].
    + destruct Hs as [k0 ->]. exists (k0 ++ [p]). by rewrite <-app_assoc.
    + intros x Hx. apply Hf. by rewrite list_elem_of_singleton.
    + intros [Hin|(i & Hne & Hi)]%queued_insert; [..|done].
      * destruct (pqrep_getq h1 q _ prec HR) as (qp & _ & _ & Hr); [lia|].
        rewrite lists_insert_eq in Hr by done.
        by apply qrep_seg, lseg_NoDup, NoDup_cons in Hr as [Hr _].
      * destruct Hs as [k0 ->]. apply Hne, (pqrep_disj _ _ _ H i (Z.to_nat prec) p Hi).
        rewrite Hl. set_solver.
  - split_and!; [|done..]. rewrite list_insert_id; [done|]. rewrite <-Hl. by apply lists_lookup_lt.
  - done.
  - exists h', pq'. split_and!; [done..|]. intros x Hx. apply Hf'. intros Hin. apply Hx.
    exists (Z.to_nat prec). by rewrite Hl.
Qed.

Lemma spflush_spec fuel w h spq l :
  qrep h (spq_q spq) l -> (length l <= fuel)%nat ->
  ∃ h' spq', flush_loop fuel spktq_deq free w h spq = Some (fold_left freed l w, h', spq')
    ∧ qrep h' (spq_q spq') [] ∧ ∀ x, x ∉ l -> h' !! x = h !! x.
Proof.
  intros Hr Hfuel.
  edestruct (flush_loop_spec (W := W) (fun h q k => qrep h (spq_q q) k) (fun k x => x ∈ k) spktq_deq)
    with (free := free) (freed := freed) (k := l) (fuel := fuel) (w := w) (h := h) (q := spq)
    as (h' & pq' & E & HR & Hf'); [..|exact Hfree|exact Hr|done|by exists h', pq'].
  - intros h1 h2 q k Hf. by apply qrep_frame.
  - intros h1 q HR. unfold spktq_deq. rewrite deq_head_nil by done. by destruct q.
  - intros h1 q p k HR. unfold spktq_deq. pose proof (qrep_cons_inv _ _ _ _ HR) as (_ & Hp & _).
    destruct (deq_head_cons _ _ _ _ HR) as (h2 & qp & -> & HR2 & Hf & _ & Hn).
    eexists _, _. split_and!; [done..| |done]. intros x Hx. apply Hf. by rewrite list_elem_of_singleton.
Qed.
End Flush.

Lemma pktq_pflush_spec {W} (PKTFREE : W -> heap -> pkt -> bool -> option (W * heap)) dir freed
    w h pq ls prec l :
  consume_ok (fun w h p => PKTFREE w h p dir) freed ->
  pqrep h pq ls -> 0 <= prec < num_prec pq -> ls !!! Z.to_nat prec = l ->
  ∃ h' pq', pktq_pflush PKTFREE w h pq prec dir = Some (fold_left freed l w, h', pq')
    ∧ pqrep h' pq' (<[Z.to_nat prec := []]> ls) ∧ num_prec pq' = num_prec pq
    ∧ ∀ x, ¬ queued ls x -> h' !! x = h !! x.
Proof.
  intros Hfree H Hp Hl. destruct (pqrep_getq h pq ls prec H Hp) as (qp & _ & _ & Hr).
  eapply pflush_spec; [done..|]. rewrite <-Hl. by eapply qrep_fuel.
Qed.

Lemma flush_precs_spec {W} (PKTFREE : W -> heap -> pkt -> bool -> option (W * heap)) dir freed k :
  consume_ok (fun w h p => PKTFREE w h p dir) freed -> ∀ w h pq ls,
  pqrep h pq ls -> (k <= length ls)%nat ->
  ∃ h' pq', prec_iter k (fun '(w, h, pq) prec => pktq_pflush PKTFREE w h pq prec dir) (w, h, pq)
            = Some (free_precs freed k w ls, h', pq')
    ∧ pqrep h' pq' (replicate k [] ++ drop k ls)
    ∧ num_prec pq' = num_prec pq ∧ ∀ x, ¬ queued ls x -> h' !! x = h !! x.
Proof.
  intros Hfree. induction k as [|k IH]; intros w h pq ls H Hk; [by exists h, pq; rewrite drop_0|].
  cbn [prec_iter free_precs].
  destruct (pktq_pflush_spec PKTFREE dir freed w h pq ls (Z.of_nat k) (ls !!! k) Hfree)
    as (h1 & pq1 & -> & H1 & Hnum1 & Hf1);
    [done|pqlia H|by rewrite Nat2Z.id|].
  cbn [mbind option_bind]. rewrite Nat2Z.id in H1.
  destruct (IH (fold_left freed (ls !!! k) w) h1 pq1 _ H1) as (h2 & pq2 & E & H2 & Hnum2 & Hf2);
    [rewrite length_insert; lia|].
  rewrite E. exists h2, pq2. split_and!; [|..|congruence|].
  - do 3 f_equal. clear -Hk. assert (∀ j w, (j <= k)%nat ->
      free_precs freed j w (<[k := []]> ls) = free_precs freed j w ls) as HG; [|by apply HG].
    induction j as [|j IHj]; intros w' Hj; [done|]. simpl. rewrite lists_insert_ne by lia. apply IHj. lia.
  - replace (replicate (S k) [] ++ drop (S k) ls) with (replicate k [] ++ drop k (<[k:=[]]> ls)); [done|].
    rewrite (drop_S (<[k:=[]]> ls) [] k) by (by apply list_lookup_insert_eq).
    rewrite drop_insert_lt by lia. by rewrite replicate_S_end, <-app_assoc.
  - intros x Hx. rewrite Hf2, Hf1; [done|done|]. intros Hq. apply Hx.
    eapply (queued_same ls k []); [lia|set_solver|done].
Qed.
