(* ===== verification/PktqTheorems.v ===== *)
(** * hnd_pktq.c: the properties *)

From S2P Require Import Prelude Pktq PktqSpec PktqRefine PktqSystem PktqFilter.

(** The smallest interesting store: the packets of [P], none of them linked. *)
Definition fresh_store (P : gset pkt) : heap := gset_to_gmap None P.

Lemma fresh_store_dom P : dom (fresh_store P) = P.
Proof. apply dom_gset_to_gmap. Qed.

Lemma fresh_store_lookup P p : p ∈ P -> fresh_store P !! p = Some None.
Proof. intros Hp. by apply lookup_gset_to_gmap_Some. Qed.

(** A structure as it lies in uninitialised memory, with room for [n] queues. *)
Definition raw_pktq (n : nat) : pktq :=
  mk_pktq (Some 9%positive) 77 88 99 11 (replicate n (mk_prec (Some 5%positive) None 1 2 3 4)).

(** ** Every run refines the abstract queues *)

(** C1.  From pktq_init and spktq_init, every sequence of calls that respects
    the asserted preconditions runs without undefined behaviour, returns the
    results of the abstract queues (FIFO order at each precedence, service by
    precedence, lengths), and ends in a state that represents the abstract one:
    NULL-terminated chains with the right tail, exact 16-bit counts, hi_prec
    above every non-empty precedence, unlinked free packets. *)
Theorem pktq_run_refines (h : heap) (P : gset pkt) (pq pq' : pktq) (n m ms : Z) (os : list op) :
  dom h = P -> (∀ p, p ∈ P -> h !! p = Some None) -> 0 < n <= 16 ->
  pktq_init pq n m = Some (true, pq') ->
  enabled_all os (init_abs P (Z.to_nat n)) = true ->
  ∃ s', exec_all os (mk_sys h pq' (snd (spktq_init ms)))
        = Some (fst (spec_all os (init_abs P (Z.to_nat n))), s')
    ∧ sysrep s' (snd (spec_all os (init_abs P (Z.to_nat n)))).
Proof.
  intros Hdom Hfree Hn Hinit He. apply exec_all_step; [|done].
  by eapply sysrep_init.
Qed.

Definition demo_pkts : gset pkt := list_to_set [1; 2; 3; 4; 5]%positive.

Definition demo_ops : list op :=
  [Penq 2 1; Penq 0 2; PenqHead 2 3; SEnq 4; SEnq 5; Append 1; Deq; Mdeq 1; SetMax 1 7; Mlen 6;
   Pdel 5 1; Deq; DeqTail; Peek]%positive.

Lemma pktq_run_refines_witness :
  ∃ pq', pktq_init (raw_pktq 3) 3 50 = Some (true, pq')
    ∧ fst (spec_all demo_ops (init_abs demo_pkts 3))
      = [RPkt (Some 1); RPkt (Some 2); RPkt (Some 3); RPkt (Some 4); RPkt (Some 5); RUnit;
         RPrec (Some 3) (Some 2%Z); RPrec (Some 2) (Some 0%Z); RUnit; RLen 3%Z; RBool true;
         RPrec (Some 1) (Some 2%Z); RPrec (Some 4) (Some 1%Z); RPrec None None]%positive
    ∧ ∃ s', exec_all demo_ops (mk_sys (fresh_store demo_pkts) pq' (snd (spktq_init 9)))
            = Some (fst (spec_all demo_ops (init_abs demo_pkts (Z.to_nat 3))), s')
        ∧ sysrep s' (snd (spec_all demo_ops (init_abs demo_pkts (Z.to_nat 3)))).
Proof.
  eexists. split; [reflexivity|]. split; [vm_compute; reflexivity|].
  apply (pktq_run_refines _ demo_pkts (raw_pktq 3) _ 3 50 9 demo_ops).
  - apply fresh_store_dom.
  - apply fresh_store_lookup.
  - lia.
  - reflexivity.
  - vm_compute. reflexivity.
Defined.

(** ** Service by precedence *)

(** pktq_mdeq with a precedence bitmap removes the first packet of the
    highest selected precedence that is not empty, reports that precedence and
    leaves every other queue alone; it returns NULL exactly when every selected
    precedence is empty, and then the queues are unchanged. *)
Theorem pktq_mdeq_priority (s : sys) (a : abs) (bmp : Z) :
  sysrep s a ->
  ∃ p prec h' pq' a', pktq_mdeq (s_h s) (s_pq s) bmp = Some (p, prec, h', pq')
    ∧ sysrep (mk_sys h' pq' (s_l s)) a'
    ∧ match p with
      | Some x => ∃ i l, prec = Some (Z.of_nat i) ∧ (i < length (a_ls a))%nat
          ∧ Z.testbit bmp (Z.of_nat i) = true ∧ a_ls a !!! i = x :: l
          ∧ (∀ j, (i < j < length (a_ls a))%nat -> Z.testbit bmp (Z.of_nat j) = true ->
                  a_ls a !!! j = [])
          ∧ a_ls a' = <[i := l]> (a_ls a) ∧ h' !! x = Some None
      | None => prec = None ∧ a' = a
          ∧ ∀ j, (j < length (a_ls a))%nat -> Z.testbit bmp (Z.of_nat j) = true -> a_ls a !!! j = []
      end.
Proof.
  intros Hs. destruct (exec_step (Mdeq bmp) s a Hs eq_refl) as (s' & E & Hs').
  cbn [exec spec] in E, Hs'. unfold on_pqp in E.
  destruct (pktq_mdeq _ _ _) as [[[[p prec] h'] pq']|]; [|done]. cbn [mbind option_bind] in E.
  injection E as Ep Es. subst s'. exists p, prec, h', pq', (snd (at_prec (top (selected bmp) a) (take_head a) a)).
  split; [done|]. split; [done|]. unfold top in *.
  destruct (top_prec (selected bmp) _ _) as [i|] eqn:Et; cbn [at_prec] in *.
  - destruct (top_prec_Some _ _ _ _ Et) as (Hi & Hb & Hne & Ha). unfold take_head in *.
    destruct (a_ls a !!! i) as [|x l] eqn:El; [done|]. cbn [fst snd] in *. injection Ep as -> ->.
    exists i, l. split_and!; try done. apply (sr_free _ _ Hs').
    + cbn [a_pkts put]. rewrite <-(sr_dom _ _ Hs). apply elem_of_dom.
      destruct (pqrep_lookup _ _ _ i (sr_pq _ _ Hs) Hi) as (qp & _ & Hr).
      eapply lseg_dom; [exact (qrep_seg _ _ _ Hr)|]. rewrite El. left.
    + assert (x ∈ a_ls a !!! i) as Hx by (rewrite El; left).
      intros [[Hx'|(j & Hne' & Hj)]%queued_insert|Hx']; [| |done|].
      * destruct (pqrep_lookup _ _ _ i (sr_pq _ _ Hs) Hi) as (qp & _ & Hr).
        rewrite El in Hr. by apply qrep_seg, lseg_NoDup, NoDup_cons in Hr as [Hr _].
      * by apply Hne', (pqrep_disj _ _ _ (sr_pq _ _ Hs) j i x).
      * apply (sr_disj _ _ Hs x Hx'). by exists i.
  - cbn [fst snd] in *. injection Ep as -> ->. split_and!; try done.
    intros j Hj Hb. by eapply top_prec_None.
Qed.

(** Three empty precedences and an empty simple queue. *)
Definition demo_init : sys :=
  mk_sys (fresh_store demo_pkts) (mk_pktq None 3 0 50 0 (replicate 3 (set_max_pkts 50 zero_prec)))
    (snd (spktq_init 9)).

Lemma demo_init_rep : sysrep demo_init (init_abs demo_pkts 3).
Proof.
  apply (sysrep_init _ _ (raw_pktq 3) _ 3 50); [apply fresh_store_dom|apply fresh_store_lookup|done|lia].
Qed.

Lemma pktq_mdeq_priority_witness :
  ∃ s a, sysrep s a ∧ a_ls a = [[2]; []; [3; 1]]%positive
    ∧ ∃ h' pq', pktq_mdeq (s_h s) (s_pq s) 3 = Some (Some 2%positive, Some 0, h', pq').
Proof.
  destruct (exec_all_step (take 3 demo_ops) demo_init (init_abs demo_pkts 3) demo_init_rep)
    as (s' & _ & Hs').
  - vm_compute. reflexivity.
  - exists s', (snd (spec_all (take 3 demo_ops) (init_abs demo_pkts 3))).
    split; [exact Hs'|]. split; [vm_compute; reflexivity|].
    destruct (pktq_mdeq_priority s' _ 3 Hs') as (p & prec & h' & pq' & a' & E & _ & Hp).
    exists h', pq'. rewrite E.
    destruct p as [x|].
    + destruct Hp as (i & l & -> & Hi & Hb & Hl & Ha & _).
      destruct i as [|[|[|i]]]; vm_compute in Hl; [by simplify_eq|by discriminate|by vm_compute in Hb|].
      exfalso. vm_compute in Hi. lia.
    + destruct Hp as (_ & _ & Ha). specialize (Ha O). vm_compute in Ha.
      specialize (Ha ltac:(lia) eq_refl). discriminate.
Defined.

(** ** Filtering and flushing *)

(** C2.  pktq_filter, given callbacks that act on the packet they are handed,
    visits the precedences from the highest to the lowest and the packets of
    each in order, hands every DELETE packet to the deferred free routine,
    re-queues exactly the NOACTION packets in their old order and precedence,
    and calls the final flush once, when there was a packet at all. *)
Theorem pktq_filter_spec {W} fltr (decision : W -> pkt -> W * pktq_filter_result)
    defer (deferred : W -> pkt -> W) flush (flushed : W -> W) (w : W) h pq ls :
  filter_ok fltr decision -> consume_ok defer deferred ->
  pqrep h pq ls -> total ls ≠ 0 ->
  let r := filter_precs decision deferred (length ls) w ls in
  flush_ok flush flushed (queued (snd r)) ->
  ∃ h' pq', pktq_filter fltr defer flush w h pq = Some (flushed (fst r), h', pq')
    ∧ pqrep h' pq' (snd r).
Proof.
  intros Hfltr Hdefer H Ht r Hflush. unfold pktq_filter.
  pose proof (pqrep_total_range _ _ _ H). rewrite bool_decide_true by (rewrite (pqrep_tot _ _ _ H); lia).
  rewrite (pqrep_lens _ _ _ H), Nat2Z.id.
  destruct (filter_precs_spec fltr decision defer deferred Hfltr Hdefer (length ls) w h pq ls H)
    as (h1 & pq1 & -> & H1 & _); [done|].
  cbn [mbind option_bind]. destruct (Hflush (fst r) h1) as (h2 & E & H2). fold r in H1 |- *.
  rewrite E. exists h2, pq1. split; [done|]. by eapply pqrep_agree.
Qed.

(** Filters of a list of precedences: odd packets are freed, packet 4 is taken
    away and the rest stay; the context is the list of freed packets. *)
Definition demo_decision (w : list pkt) (p : pkt) : list pkt * pktq_filter_result :=
  (w, if bool_decide (p = 4%positive) then PKT_FILTER_REMOVE
      else if Z.odd (Zpos p) then PKT_FILTER_DELETE else PKT_FILTER_NOACTION).
Definition demo_fltr (w : list pkt) (h : heap) (p : pkt) : option (list pkt * heap * pktq_filter_result) :=
  Some (fst (demo_decision w p), h, snd (demo_decision w p)).
Definition demo_defer (w : list pkt) (h : heap) (p : pkt) : option (list pkt * heap) :=
  Some (w ++ [p], delete p h).

Lemma demo_fltr_ok : filter_ok demo_fltr demo_decision.
Proof. intros w h p Hp. exists h. split; [done|]. by split. Qed.
Lemma demo_defer_ok : consume_ok demo_defer (fun w p => w ++ [p]).
Proof. intros w h p Hp. exists (delete p h). split; [done|]. intros x Hx. by rewrite lookup_delete_ne. Qed.

(** Precedence 0 holds 1 and 2, precedence 2 holds 3, 4 and 5. *)
Definition demo_pq : option (heap * pktq) :=
  '(_, s) ← exec_all [Penq 0 1; Penq 0 2; Penq 2 3; Penq 2 4; Penq 2 5]%positive demo_init;
  Some (s_h s, s_pq s).

Lemma demo_pqrep :
  ∃ h pq, demo_pq = Some (h, pq) ∧ pqrep h pq [[1; 2]; []; [3; 4; 5]]%positive.
Proof.
  destruct (exec_all_step [Penq 0 1; Penq 0 2; Penq 2 3; Penq 2 4; Penq 2 5]%positive
    demo_init (init_abs demo_pkts 3) demo_init_rep) as (s' & E & Hs'); [by vm_compute|].
  exists (s_h s'), (s_pq s'). split; [|exact (sr_pq _ _ Hs')]. unfold demo_pq. by rewrite E.
Qed.

Lemma pktq_filter_spec_witness :
  ∃ h pq h' pq', demo_pq = Some (h, pq)
    ∧ pktq_filter demo_fltr demo_defer (fun w h => Some (w, h)) [] h pq = Some ([3; 5; 1]%positive, h', pq')
    ∧ pqrep h' pq' [[2]; []; []]%positive.
Proof.
  destruct demo_pqrep as (h & pq & E & H). exists h, pq.
  destruct (pktq_filter_spec demo_fltr demo_decision demo_defer (fun w p => w ++ [p])
    (fun w h => Some (w, h)) (fun w => w) [] h pq _ demo_fltr_ok demo_defer_ok H) as (h' & pq' & Ef & Hr).
  - vm_compute. discriminate.
  - intros w h0. by exists h0.
  - exists h', pq'. split; [exact E|]. split; [rewrite Ef; vm_compute; reflexivity|exact Hr].
Defined.

(** spktq_filter does the same on a simple queue. *)
Lemma spktq_filter_spec {W} fltr (decision : W -> pkt -> W * pktq_filter_result)
    defer (deferred : W -> pkt -> W) flush (flushed : W -> W) (w : W) h spq l :
  filter_ok fltr decision -> consume_ok defer deferred ->
  qrep h (spq_q spq) l -> l ≠ [] ->
  let r := filter_list decision deferred w l in
  flush_ok flush flushed (fun x => x ∈ snd r) ->
  ∃ h' spq', spktq_filter fltr defer flush w h spq = Some (flushed (fst r), h', spq')
    ∧ qrep h' (spq_q spq') (snd r).
Proof.
  intros Hfltr Hdefer H Hne r Hflush. unfold spktq_filter.
  rewrite bool_decide_false by (rewrite (qrep_len _ _ _ H); destruct l; simpl; [done|lia]).
  destruct (spfilter_spec fltr decision defer deferred Hfltr Hdefer w h spq l H Hne)
    as (h1 & q1 & -> & H1 & _).
  cbn [mbind option_bind]. destruct (Hflush (fst r) h1) as (h2 & E & H2). fold r in H1 |- *.
  rewrite E. exists h2, q1. split; [done|]. by eapply qrep_frame.
Qed.

(** A simple queue holding 1, 2, 3, 4. *)
Definition demo_spq : spktq := mk_spktq (mk_prec (Some 1) (Some 4) 4 10 0 0)%positive.
Definition demo_store : heap :=
  list_to_map [(1, Some 2); (2, Some 3); (3, Some 4); (4, None); (5, None)]%positive.

Lemma demo_qrep : qrep demo_store (spq_q demo_spq) [1; 2; 3; 4]%positive.
Proof. split; [|reflexivity|reflexivity|vm_compute; reflexivity]. simpl. naive_solver. Qed.

Lemma spktq_filter_spec_witness :
  ∃ h' spq', spktq_filter demo_fltr demo_defer (fun w h => Some (w, h)) [] demo_store demo_spq
             = Some ([1; 3]%positive, h', spq')
    ∧ qrep h' (spq_q spq') [2]%positive.
Proof.
  apply (spktq_filter_spec demo_fltr demo_decision demo_defer (fun w p => w ++ [p])
    (fun w h => Some (w, h)) (fun w => w) [] demo_store demo_spq _ demo_fltr_ok demo_defer_ok demo_qrep).
  - discriminate.
  - intros w h0. by exists h0.
Defined.

(** pktq_flush hands every queued packet to PKTFREE exactly once, from the
    highest precedence to the lowest and in queue order, and leaves all the
    precedences empty. *)
Theorem pktq_flush_spec {W} (PKTFREE : W -> heap -> pkt -> bool -> option (W * heap))
    (freed : W -> pkt -> W) dir (w : W) h pq ls :
  consume_ok (fun w h p => PKTFREE w h p dir) freed -> pqrep h pq ls ->
  ∃ h' pq', pktq_flush PKTFREE w h pq dir = Some (free_precs freed (length ls) w ls, h', pq')
    ∧ pqrep h' pq' (replicate (length ls) []) ∧ n_pkts_tot pq' = 0.
Proof.
  intros Hfree H. unfold pktq_flush. pose proof (pqrep_total_range _ _ _ H).
  assert (∀ h pq, pqrep h pq (replicate (length ls) []) -> n_pkts_tot pq = 0) as Hz.
  { intros h0 pq0 Hr0. by rewrite (pqrep_tot _ _ _ Hr0), total_replicate_nil. }
  case_bool_decide as Ht; rewrite (pqrep_tot _ _ _ H) in Ht.
  - rewrite (pqrep_lens _ _ _ H), Nat2Z.id.
    destruct (flush_precs_spec PKTFREE dir freed (length ls) Hfree w h pq ls H)
      as (h1 & pq1 & -> & H1 & _); [done|].
    rewrite drop_all, app_nil_r in H1. exists h1, pq1. eauto.
  - assert (∀ i, ls !!! i = []) as Hnil by (apply total_zero; lia).
    assert (ls = replicate (length ls) []) as Els.
    { apply list_eq_same_length with (n := length ls); [by rewrite length_replicate|done|].
      intros i x y Hi Hx Hy. apply lookup_replicate in Hy as [-> _].
      apply lists_lookup in Hx as <-. apply Hnil. }
    exists h, pq. rewrite <-Els. split_and!; [|done|rewrite Els in H; eauto]. do 3 f_equal.
    assert (∀ k, free_precs freed k w ls = w) as E; [|by rewrite E].
    induction k as [|k IH]; simpl; [done|]. by rewrite Hnil.
Qed.

Definition demo_free (w : list pkt) (h : heap) (p : pkt) (dir : bool) : option (list pkt * heap) :=
  demo_defer w h p.

Lemma pktq_flush_spec_witness :
  ∃ h pq h' pq', demo_pq = Some (h, pq)
    ∧ pktq_flush demo_free [] h pq true = Some ([3; 4; 5; 1; 2]%positive, h', pq')
    ∧ pqrep h' pq' [[]; []; []] ∧ n_pkts_tot pq' = 0.
Proof.
  destruct demo_pqrep as (h & pq & E & H).
  destruct (pktq_flush_spec demo_free (fun w p => w ++ [p]) true [] h pq _ demo_defer_ok H)
    as (h' & pq' & Ef & Hr). by exists h, pq, h', pq'.
Defined.

(** spktq_flush_ext frees the packets of a simple queue in order, after the
    optional callback has seen each of them. *)
Lemma spktq_flush_ext_spec {W} (PKTFREE : W -> heap -> pkt -> bool -> option (W * heap))
    (cb : option (W -> heap -> pkt -> option (W * heap))) (seen : W -> pkt -> W)
    (freed : W -> pkt -> W) dir (w : W) h spq l :
  consume_ok (fun w h p => PKTFREE w h p dir) freed ->
  match cb with
  | Some f => ∀ w h p, h !! p = Some None ->
      ∃ h', f w h p = Some (seen w p, h') ∧ only p h h' ∧ h' !! p = Some None
  | None => ∀ w p, seen w p = w
  end ->
  qrep h (spq_q spq) l ->
  ∃ h' spq', spktq_flush_ext PKTFREE w h spq dir cb
             = Some (fold_left (fun w p => freed (seen w p) p) l w, h', spq')
    ∧ qrep h' (spq_q spq') [].
Proof.
  intros Hfree Hcb Hr. unfold spktq_flush_ext.
  edestruct (spflush_spec (fun w h p => '(w, h) ← (match cb with Some cb => cb w h p | None => Some (w, h) end);
      PKTFREE w h p dir) (fun w p => freed (seen w p) p)) as (h' & q' & E & Hq & _);
    [|exact Hr|by eapply qrep_fuel|exists h', q'; split; [exact E|done]].
  intros w0 h0 p Hp. destruct cb as [f|].
  - destruct (Hcb w0 h0 p Hp) as (h1 & -> & Ho & Hp1). cbn [mbind option_bind].
    destruct (Hfree (seen w0 p) h1 p Hp1) as (h2 & -> & Ho2). exists h2. split; [done|].
    intros x Hx. by rewrite Ho2, Ho.
  - cbn [mbind option_bind]. rewrite Hcb. by apply Hfree.
Qed.

Lemma spktq_flush_ext_spec_witness :
  ∃ h' spq', spktq_flush_ext demo_free [] demo_store demo_spq false
               (Some (fun w h p => Some (p :: w, h)))
             = Some ([4; 3; 2; 1; 1; 2; 3; 4]%positive, h', spq')
    ∧ qrep h' (spq_q spq') [].
Proof.
  apply (spktq_flush_ext_spec demo_free (Some (fun w h p => Some (p :: w, h)))
    (fun w p => p :: w) (fun w p => w ++ [p]) false [] demo_store demo_spq [1; 2; 3; 4]%positive demo_defer_ok);
    [|exact demo_qrep].
  intros w h p Hp. by exists h.
Defined.

(** ** Simple queues joined *)

(** spktq_append and spktq_prepend move every packet of the argument list
    to the end (the front) of the queue in order, and leave the list empty. *)
Lemma spktq_join_spec h q lst l l' :
  qrep h (spq_q q) l -> qrep h (spq_q lst) l' -> (∀ x, x ∈ l -> x ∉ l') ->
  Z.of_nat (length l) + Z.of_nat (length l') < 65536 ->
  (∃ h' q' lst', spktq_append h q lst = Some (h', q', lst')
     ∧ qrep h' (spq_q q') (l ++ l') ∧ qrep h' (spq_q lst') [])
  ∧ (∃ h' q' lst', spktq_prepend h q lst = Some (h', q', lst')
     ∧ qrep h' (spq_q q') (l' ++ l) ∧ qrep h' (spq_q lst') []).
Proof.
  intros Hq Hl Hd Hb. unfold spktq_append, spktq_prepend.
  destruct (decide (l' = [])) as [->|Hne].
  - rewrite app_nil_r. simpl. rewrite (proj2 (qrep_nil_iff _ _ _ Hl)) by done. split; by eexists _, _, _.
  - rewrite (qrep_not_null _ _ _ Hl) by done.
    assert (n_pkts (spq_q q) + n_pkts (spq_q lst) < 65536)
      by (rewrite (qrep_len _ _ _ Hq), (qrep_len _ _ _ Hl); lia).
    split.
    + destruct (join_tail_spec h (spq_q q) (spq_q lst) l l') as (h' & qp & -> & Hr & _); [done..|].
      eexists _, _, _. split; [done|]. split; [done|apply clear_list_qrep].
    + destruct (join_head_spec h (spq_q q) (spq_q lst) l l') as (h' & qp & -> & Hr & _); [done..|].
      eexists _, _, _. split; [done|]. split; [done|apply clear_list_qrep].
Qed.

(** A second simple queue in the same store: packet 5 alone. *)
Definition demo_spq5 : spktq := mk_spktq (mk_prec (Some 5) (Some 5) 1 10 0 0)%positive.
Lemma demo_qrep5 : qrep demo_store (spq_q demo_spq5) [5]%positive.
Proof. split; [|reflexivity|reflexivity|vm_compute; reflexivity]. simpl. naive_solver. Qed.

Lemma spktq_join_spec_witness :
  (∃ h' q' lst', spktq_append demo_store demo_spq demo_spq5 = Some (h', q', lst')
     ∧ qrep h' (spq_q q') [1; 2; 3; 4; 5]%positive ∧ qrep h' (spq_q lst') [])
  ∧ (∃ h' q' lst', spktq_prepend demo_store demo_spq demo_spq5 = Some (h', q', lst')
     ∧ qrep h' (spq_q q') [5; 1; 2; 3; 4]%positive ∧ qrep h' (spq_q lst') []).
Proof.
  apply (spktq_join_spec demo_store demo_spq demo_spq5 [1; 2; 3; 4] [5])%positive;
    [exact demo_qrep|exact demo_qrep5|set_solver|simpl; lia].
Defined.

(** ** Removal behind a given packet *)

(** Unlinking behind [pv] without the update of the tail is right only when the
    removed packet was not the last. *)
Lemma qrep_unlink_middle h qp l1 pv x l2 nx :
  qrep h qp (l1 ++ pv :: x :: l2) -> l2 ≠ [] -> h !! x = Some nx ->
  qrep (<[x := None]> (<[pv := nx]> h)) (set_n_pkts (u16 (n_pkts qp - 1)) qp) (l1 ++ pv :: l2).
Proof.
  intros Hr Hne Hx. pose proof (qrep_unlink_after h qp l1 pv x l2 nx Hr Hx) as H.
  unfold unlink_after in H. rewrite decide_False in H; [done|].
  pose proof (qrep_seg _ _ _ Hr) as (_ & _ & Hnd)%lseg_NoDup%NoDup_app.
  apply NoDup_cons in Hnd as [_ [Hxl _]%NoDup_cons].
  rewrite (qrep_tail _ _ _ Hr), last_app_ne by done.
  change (pv :: x :: l2) with ([pv; x] ++ l2). rewrite last_app_ne by done.
  intros [l3 ->]%last_Some. set_solver.
Qed.

(** The store facts behind such a removal. *)
Lemma lseg_pair h hd l1 pv x l2 :
  lseg h hd (l1 ++ pv :: x :: l2) None ->
  h !! pv = Some (Some x) ∧ pv ≠ x ∧ ∃ nx, h !! x = Some nx ∧ lseg h nx l2 None.
Proof.
  intros Hs. pose proof (lseg_NoDup _ _ _ Hs) as (_ & _ & [Hpv _]%NoDup_cons)%NoDup_app.
  apply lseg_app in Hs as (m & _ & (-> & n1 & Hpx & (-> & nx & Hx & Hs))).
  split_and!; [done|set_solver|eauto].
Qed.

Lemma getq_putq pq prec qp :
  0 <= prec -> (Z.to_nat prec < length (q pq))%nat -> getq (putq prec qp pq) prec = Some qp.
Proof.
  intros Hp Hl. unfold getq. rewrite bool_decide_true by done. by apply list_lookup_insert_eq.
Qed.

Lemma getq_set_tot pq n prec : getq (set_n_pkts_tot n pq) prec = getq pq prec.
Proof. done. Qed.

Lemma getq_raise pq p prec : getq (raise_hi_prec p pq) prec = getq pq prec.
Proof. unfold raise_hi_prec. by case_bool_decide. Qed.

(** Enqueueing behind a tail that is not on the chain. *)
Lemma enq_tail_stale h qp l x y :
  lseg h (head qp) l None -> l ≠ [] -> tail qp = Some x -> is_Some (h !! x) -> x ∉ l ->
  ∃ h' qp', enq_tail h qp y = Some (h', qp') ∧ head qp' = head qp
    ∧ n_pkts qp' = u16 (n_pkts qp + 1) ∧ lseg h' (head qp) l None.
Proof.
  intros Hs Hne Ht Hx Hin. unfold enq_tail.
  destruct (head qp) as [hd|] eqn:E; [|by destruct l; [done|destruct Hs as [? _]]].
  cbn [isNULL]. rewrite Ht. cbn [mbind option_bind]. rewrite PKTSETLINK_Some by done.
  cbn [mbind option_bind]. eexists _, _. split; [done|]. split; [done|]. split; [done|].
  by apply lseg_insert_notin.
Qed.

(** When the removed packet was the last one, pktq_pdeq_prev leaves the
    tail pointing at it: the packet the next pktq_penq accepts is counted but
    cannot be reached from the head of the queue. *)
Lemma pktq_pdeq_prev_stale h pq ls prec l1 pv x y :
  pqrep h pq ls -> 0 <= prec < num_prec pq -> ls !!! Z.to_nat prec = l1 ++ [pv; x] ->
  y ∉ l1 ++ [pv; x] ->
  ∃ h' pq' qp', pktq_pdeq_prev h pq prec (Some pv) = Some (Some x, h', pq')
    ∧ getq pq' prec = Some qp' ∧ tail qp' = Some x
    ∧ ∃ h'' pq'' qp'', pktq_penq h' pq' prec y = Some (Some y, h'', pq'')
        ∧ getq pq'' prec = Some qp''
        ∧ lseg h'' (head qp'') (l1 ++ [pv]) None
        ∧ n_pkts qp'' = Z.of_nat (length (l1 ++ [pv])) + 1.
Proof.
  intros H Hp Hl Hy. destruct (pqrep_getq h pq ls prec H Hp) as (qp & Hg & Hqp & Hr).
  rewrite Hl in Hr. pose proof Hr as [Hs Ht Hn Hb].
  destruct (lseg_pair _ _ _ _ _ _ Hs) as (Hpv & Hpx & nx & Hx & Hnx). simpl in Hnx. subst nx.
  pose proof (qrep_unlink_after h qp l1 pv x [] None Hr Hx) as [Hs' _ Hn' _].
  destruct (unlink_after_fields pv x qp) as (F1 & _ & F3 & _). rewrite F1 in Hs'. rewrite F3 in Hn'.
  assert (last (l1 ++ [pv; x]) = Some x) as Hlast by by rewrite last_app_ne.
  rewrite Hlast in Ht.
  unfold pktq_pdeq_prev. rewrite Hg. cbn [mbind option_bind]. unfold PKTLINK. rewrite Hpv.
  cbn [mbind option_bind]. rewrite Hx. cbn [mbind option_bind].
  rewrite PKTSETLINK_Some by eauto. cbn [mbind option_bind].
  set (h' := <[x := None]> (<[pv := None]> h)) in *.
  rewrite PKTSETLINK_Some by (rewrite lookup_insert_ne by done; eauto). cbn [mbind option_bind].
  assert (Z.to_nat prec < length (q pq))%nat as Hlt by pqlia H.
  eexists h', _, _. split; [done|]. rewrite getq_set_tot, getq_putq by lia.
  split; [done|]. split; [done|].
  destruct (enq_tail_stale h' (set_n_pkts (u16 (n_pkts qp - 1)) qp) (l1 ++ [pv]) x y)
    as (h2 & qp2 & E & Hh2 & Hn2 & Hs2); [done|by destruct l1|done|subst h'; by simplify_map_eq| |].
  { pose proof (lseg_NoDup _ _ _ Hs) as Hnd.
    replace (l1 ++ [pv; x]) with ((l1 ++ [pv]) ++ [x]) in Hnd by by rewrite <-app_assoc.
    apply NoDup_app in Hnd as (_ & Hnd & _). intros Hin. apply (Hnd x Hin). left. }
  unfold pktq_penq. rewrite getq_set_tot, getq_putq by lia. cbn [mbind option_bind].
  rewrite E. cbn [mbind option_bind]. eexists h2, _, qp2. split; [done|].
  rewrite getq_raise, getq_set_tot, getq_putq by (cbn; rewrite ?length_insert; lia).
  split; [done|]. rewrite Hh2. split; [done|]. rewrite Hn2. cbn [n_pkts set_n_pkts].
  rewrite Hn', length_app, u16_small; [done|]. rewrite length_app in Hn, Hn'. simpl in *. lia.
Qed.

(** With packets on both sides the removed packet leaves a well-formed queue. *)
Lemma pktq_pdeq_prev_unlink h pq ls prec l1 pv x l2 :
  pqrep h pq ls -> 0 <= prec < num_prec pq -> ls !!! Z.to_nat prec = l1 ++ pv :: x :: l2 -> l2 ≠ [] ->
  ∃ h' pq', pktq_pdeq_prev h pq prec (Some pv) = Some (Some x, h', pq')
    ∧ pqrep h' pq' (<[Z.to_nat prec := l1 ++ pv :: l2]> ls) ∧ h' !! x = Some None.
Proof.
  intros H Hp Hl Hne. destruct (pqrep_getq h pq ls prec H Hp) as (qp & Hg & Hqp & Hr).
  rewrite Hl in Hr. unfold pktq_pdeq_prev. rewrite Hg. cbn [mbind option_bind].
  pose proof (qrep_seg _ _ _ Hr) as Hs.
  destruct (lseg_pair _ _ _ _ _ _ Hs) as (Hpv & Hpx & nx & Hx & _).
  unfold PKTLINK. rewrite Hpv. cbn [mbind option_bind]. rewrite Hx. cbn [mbind option_bind].
  rewrite PKTSETLINK_Some by eauto. cbn [mbind option_bind].
  rewrite PKTSETLINK_Some by (rewrite lookup_insert_ne by done; eauto). cbn [mbind option_bind].
  eexists _, _. split; [done|]. split; [|by simplify_map_eq].
  assert (frame (l1 ++ pv :: x :: l2) h (<[x := None]> (<[pv := nx]> h))) as Hf.
  { eapply frame_trans; apply frame_insert; [set_solver|by eauto|set_solver|].
    rewrite lookup_insert_ne by done. eauto. }
  pose proof (qrep_unlink_middle h qp l1 pv x l2 nx Hr Hne Hx) as Hr'.
  edestruct (pqrep_commit_deq _ h _ pq ls prec x _ _ _ H Hp Hl Hr' Hf) as [Hpq _];
    [set_solver|rewrite !length_app; simpl; lia|exact Hpq].
Qed.

(** pktq_pdeq_prev removes the packet behind [prev_p] and returns it
    unlinked, when a further packet follows it; behind the last packet, or with
    a NULL [prev_p], it returns NULL and changes nothing.  When the packet it
    removes is the last one, it leaves the tail pointing at it: the packet the
    next pktq_penq accepts is counted but cannot be reached from the head. *)
Theorem pktq_pdeq_prev_spec h pq ls prec l1 pv l2 :
  pqrep h pq ls -> 0 <= prec < num_prec pq -> ls !!! Z.to_nat prec = l1 ++ pv :: l2 ->
  pktq_pdeq_prev h pq prec None = Some (None, h, pq)
  ∧ match l2 with
    | [] => pktq_pdeq_prev h pq prec (Some pv) = Some (None, h, pq)
    | [x] => ∀ y, y ∉ l1 ++ [pv; x] ->
        ∃ h' pq' qp', pktq_pdeq_prev h pq prec (Some pv) = Some (Some x, h', pq')
          ∧ getq pq' prec = Some qp' ∧ tail qp' = Some x
          ∧ ∃ h'' pq'' qp'', pktq_penq h' pq' prec y = Some (Some y, h'', pq'')
              ∧ getq pq'' prec = Some qp''
              ∧ lseg h'' (head qp'') (l1 ++ [pv]) None
              ∧ n_pkts qp'' = Z.of_nat (length (l1 ++ [pv])) + 1
    | x :: l2 =>
        ∃ h' pq', pktq_pdeq_prev h pq prec (Some pv) = Some (Some x, h', pq')
          ∧ pqrep h' pq' (<[Z.to_nat prec := l1 ++ pv :: l2]> ls) ∧ h' !! x = Some None
    end.
Proof.
  intros H Hp Hl. destruct (pqrep_getq h pq ls prec H Hp) as (qp & Hg & Hqp & Hr).
  split; [unfold pktq_pdeq_prev; by rewrite Hg|]. destruct l2 as [|x [|z l2]].
  - rewrite Hl in Hr. pose proof (qrep_seg _ _ _ Hr) as Hs. apply lseg_snoc in Hs as [_ Hpv].
    unfold pktq_pdeq_prev, PKTLINK. rewrite Hg. cbn [mbind option_bind]. by rewrite Hpv.
  - intros y Hy. by apply (pktq_pdeq_prev_stale h pq ls).
  - by eapply pktq_pdeq_prev_unlink.
Qed.

Lemma pktq_pdeq_prev_spec_witness :
  ∃ h pq h' pq', demo_pq = Some (h, pq)
    ∧ pktq_pdeq_prev h pq 2 (Some 3%positive) = Some (Some 4%positive, h', pq')
    ∧ pqrep h' pq' [[1; 2]; []; [3; 5]]%positive.
Proof.
  destruct demo_pqrep as (h & pq & E & H).
  destruct (pktq_pdeq_prev_spec h pq _ 2 [] 3%positive [4; 5]%positive H) as [_ Hm].
  - rewrite (pqrep_lens _ _ _ H). simpl. lia.
  - reflexivity.
  - destruct Hm as (h' & pq' & Ed & Hr & _). by exists h, pq, h', pq'.
Defined.

(** Deleting the last packet of a simple queue leaves the tail pointing at
    it, and the next packet spktq_enq accepts cannot be reached from the head. *)
Lemma spktq_delete_node_stale h spq l1 pv x y :
  qrep h (spq_q spq) (l1 ++ [pv; x]) -> y ∉ l1 ++ [pv; x] -> is_Some (h !! y) ->
  ∃ h' spq', spktq_delete_node h spq (Some pv) (Some x) = Some (None, h', spq')
    ∧ tail (spq_q spq') = Some x
    ∧ ∃ h'' spq'', spktq_enq h' spq' y = Some (Some y, h'', spq'')
        ∧ lseg h'' (head (spq_q spq'')) (l1 ++ [pv]) None
        ∧ n_pkts (spq_q spq'') = Z.of_nat (length (l1 ++ [pv])) + 1.
Proof.
  intros Hr Hy Hyd. pose proof Hr as [Hs Ht Hn Hb].
  destruct (lseg_pair _ _ _ _ _ _ Hs) as (Hpv & Hpx & nx & Hx & Hnx). simpl in Hnx. subst nx.
  pose proof (qrep_unlink_after h (spq_q spq) l1 pv x [] None Hr Hx) as [Hs' _ Hn' _].
  destruct (unlink_after_fields pv x (spq_q spq)) as (F1 & _ & F3 & _). rewrite F1 in Hs'. rewrite F3 in Hn'.
  assert (last (l1 ++ [pv; x]) = Some x) as Hlast by by rewrite last_app_ne.
  rewrite Hlast in Ht.
  assert (x ∉ l1 ++ [pv]) as Hxl.
  { pose proof (lseg_NoDup _ _ _ Hs) as Hnd.
    replace (l1 ++ [pv; x]) with ((l1 ++ [pv]) ++ [x]) in Hnd by by rewrite <-app_assoc.
    apply NoDup_app in Hnd as (_ & Hnd & _). intros Hin. apply (Hnd x Hin). left. }
  unfold spktq_delete_node. rewrite decide_False.
  2:{ rewrite (qrep_head _ _ _ Hr). destruct l1; simpl; intros [= ->]; set_solver. }
  unfold PKTLINK. rewrite Hx. cbn [mbind option_bind].
  rewrite PKTSETLINK_Some by eauto. cbn [mbind option_bind].
  rewrite PKTSETLINK_Some by (rewrite lookup_insert_ne by done; eauto). cbn [mbind option_bind].
  set (h' := <[x := None]> (<[pv := None]> h)) in *.
  eexists h', _. split; [done|]. split; [done|]. unfold spktq_enq.
  assert (y ≠ x ∧ y ≠ pv ∧ y ∉ l1) as (Hyx & Hypv & Hyl) by set_solver.
  assert (is_Some (h' !! y)) by (subst h'; by rewrite !lookup_insert_ne).
  rewrite PKTSETLINK_Some by done. cbn [mbind option_bind spq_q].
  destruct (enq_tail_stale (<[y := None]> h') (set_n_pkts (u16 (n_pkts (spq_q spq) - 1)) (spq_q spq))
    (l1 ++ [pv]) x y) as (h2 & qp2 & -> & Hh2 & Hn2 & Hs2);
    [by apply lseg_insert_notin; [set_solver|]|by destruct l1|done| |done|].
  { rewrite lookup_insert_ne by done. subst h'. by simplify_map_eq. }
  cbn [mbind option_bind]. eexists _, _. split; [done|]. cbn [spq_q]. rewrite Hh2. split; [done|].
  rewrite Hn2. cbn [n_pkts set_n_pkts].
  rewrite Hn', length_app, u16_small; [done|]. rewrite length_app in Hn, Hn'. simpl in *. lia.
Qed.

(** spktq_delete_node removes [cur] when it is the head or has packets on
    both sides, and returns the packet that follows it.  When [cur] is the last
    packet, behind another one, the tail is left pointing at it, and the next
    packet spktq_enq accepts cannot be reached from the head. *)
Theorem spktq_delete_node_spec h spq l1 pv x l2 :
  (∀ prev, qrep h (spq_q spq) (x :: l2) ->
     ∃ h' spq', spktq_delete_node h spq prev (Some x) = Some (list.head l2, h', spq')
       ∧ qrep h' (spq_q spq') l2 ∧ h' !! x = Some None)
  ∧ (qrep h (spq_q spq) (l1 ++ pv :: x :: l2) -> l2 ≠ [] ->
     ∃ h' spq', spktq_delete_node h spq (Some pv) (Some x) = Some (list.head l2, h', spq')
       ∧ qrep h' (spq_q spq') (l1 ++ pv :: l2) ∧ h' !! x = Some None)
  ∧ (∀ y, qrep h (spq_q spq) (l1 ++ [pv; x]) -> y ∉ l1 ++ [pv; x] -> is_Some (h !! y) ->
     ∃ h' spq', spktq_delete_node h spq (Some pv) (Some x) = Some (None, h', spq')
       ∧ tail (spq_q spq') = Some x
       ∧ ∃ h'' spq'', spktq_enq h' spq' y = Some (Some y, h'', spq'')
           ∧ lseg h'' (head (spq_q spq'')) (l1 ++ [pv]) None
           ∧ n_pkts (spq_q spq'') = Z.of_nat (length (l1 ++ [pv])) + 1).
Proof.
  split_and!; [| |apply spktq_delete_node_stale].
  - intros prev Hr. unfold spktq_delete_node. rewrite (qrep_head _ _ _ Hr). simpl.
    rewrite decide_True by done. unfold spktq_deq.
    destruct (deq_head_cons _ _ _ _ Hr) as (h' & qp' & -> & Hr' & _ & _ & Hn). simpl.
    rewrite (qrep_head _ _ _ Hr'). by eexists _, _.
  - intros Hr Hne. pose proof (qrep_seg _ _ _ Hr) as Hs.
    destruct (lseg_pair _ _ _ _ _ _ Hs) as (Hpv & Hpx & nx & Hx & Hs2).
    pose proof (lseg_NoDup _ _ _ Hs) as (_ & Hd & _)%NoDup_app.
    unfold spktq_delete_node. rewrite decide_False.
    2:{ rewrite (qrep_head _ _ _ Hr). destruct l1 as [|z l1]; simpl; [by intros [= ->]|].
        intros [= ->]. apply (Hd z); set_solver. }
    unfold PKTLINK. rewrite Hx. cbn [mbind option_bind].
    rewrite PKTSETLINK_Some by eauto. cbn [mbind option_bind].
    rewrite PKTSETLINK_Some by (rewrite lookup_insert_ne by done; eauto). cbn [mbind option_bind].
    assert (nx = list.head l2) as -> by (destruct l2; [done|by destruct Hs2 as [-> _]]).
    eexists _, _. split; [done|]. split; [|by simplify_map_eq].
    cbn [spq_q]. by apply qrep_unlink_middle.
Qed.

Lemma spktq_delete_node_spec_witness :
  ∃ h' spq', spktq_delete_node demo_store demo_spq (Some 2%positive) (Some 3%positive)
             = Some (Some 4%positive, h', spq')
    ∧ qrep h' (spq_q spq') [1; 2; 4]%positive ∧ h' !! 3%positive = Some None.
Proof.
  apply (proj1 (proj2 (spktq_delete_node_spec demo_store demo_spq [1] 2 3 [4])%positive));
    [exact demo_qrep|discriminate].
Defined.

(** spktq_enq_chain appends the packets of the source queue, and does not
    touch the source, which keeps naming them.  With an empty source and a
    non-empty destination it sets the tail to NULL, and the next spktq_enq
    dereferences it. *)
Theorem spktq_enq_chain_spec h dspq sspq l l' :
  qrep h (spq_q dspq) l -> qrep h (spq_q sspq) l' -> (∀ x, x ∈ l -> x ∉ l') ->
  Z.of_nat (length l) + Z.of_nat (length l') < 65536 ->
  (l' ≠ [] -> ∃ h' d', spktq_enq_chain h dspq sspq = Some (h', d')
     ∧ qrep h' (spq_q d') (l ++ l') ∧ qrep h' (spq_q sspq) l')
  ∧ (l' = [] -> l ≠ [] -> ∃ h' d', spktq_enq_chain h dspq sspq = Some (h', d')
     ∧ ∀ p, is_Some (h' !! p) -> spktq_enq h' d' p = None).
Proof.
  intros Hd Hs Hdis Hb. unfold spktq_enq_chain. split.
  - intros Hne. destruct (join_tail_spec h (spq_q dspq) (spq_q sspq) l l') as (h' & qp & -> & Hr & Hf & _);
      [done..|rewrite (qrep_len _ _ _ Hd), (qrep_len _ _ _ Hs); lia|].
    cbn [mbind option_bind]. eexists _, _. split; [done|]. split; [done|].
    eapply qrep_frame; [|exact Hs]. intros x Hx. apply Hf. intros Hx'. by apply (Hdis x).
  - intros -> Hne. unfold join_tail. rewrite (qrep_not_null _ _ _ Hd Hne).
    destruct l as [|z l]; [done|]. destruct (last_cons_is_Some z l) as [t Hlast].
    rewrite (qrep_tail _ _ _ Hd), Hlast. cbn [mbind option_bind].
    rewrite PKTSETLINK_Some.
    2:{ eapply lseg_dom; [exact (qrep_seg _ _ _ Hd)|]. by apply last_Some_elem_of. }
    cbn [mbind option_bind]. eexists _, _. split; [done|]. intros p Hp.
    unfold spktq_enq. rewrite PKTSETLINK_Some by done. cbn [mbind option_bind spq_q].
    unfold enq_tail. cbn [head tail set_tail set_n_pkts].
    rewrite (qrep_not_null _ _ _ Hd Hne), (qrep_tail _ _ _ Hs). done.
Qed.

Lemma spktq_enq_chain_spec_witness :
  (∃ h' d', spktq_enq_chain demo_store demo_spq demo_spq5 = Some (h', d')
     ∧ qrep h' (spq_q d') [1; 2; 3; 4; 5]%positive ∧ qrep h' (spq_q demo_spq5) [5]%positive)
  ∧ ∃ h' d', spktq_enq_chain demo_store demo_spq (snd (spktq_init 4)) = Some (h', d')
     ∧ ∀ p, is_Some (h' !! p) -> spktq_enq h' d' p = None.
Proof.
  split.
  - apply (spktq_enq_chain_spec demo_store demo_spq demo_spq5 [1; 2; 3; 4] [5])%positive;
      [exact demo_qrep|exact demo_qrep5|set_solver|simpl; lia|discriminate].
  - apply (spktq_enq_chain_spec demo_store demo_spq (snd (spktq_init 4)) [1; 2; 3; 4]%positive []);
      [exact demo_qrep|by split|set_solver|simpl; lia|done|discriminate].
Defined.
