(* ===== verification/Bits.v ===== *)
(** * bcmutils.h: counting bits (model), and the lemmas on bits *)

From S2P Require Import Prelude.

(** The macros that build the 256-entry table of set-bit counts. *)
Definition B2 (n : Z) : list Z := [n; n + 1; n + 1; n + 2].
Definition B4 (n : Z) : list Z := B2 n ++ B2 (n + 1) ++ B2 (n + 1) ++ B2 (n + 2).
Definition B6 (n : Z) : list Z := B4 n ++ B4 (n + 1) ++ B4 (n + 1) ++ B4 (n + 2).
Definition _CSBTBL : list Z := B6 0 ++ B6 (0 + 1) ++ B6 (0 + 1) ++ B6 (0 + 2).

(** Byte [i] of a 32-bit word; the sum does not depend on the byte order. *)
Definition byte_of (i x : Z) : Z := Z.land (Z.shiftr x (8 * i)) 255.

Definition bcm_cntsetbits (u32arg : Z) : Z :=
  let c i := nth (Z.to_nat (byte_of i u32arg)) _CSBTBL 0 in
  u32 (c 0 + c 1 + c 2 + c 3).

(** [while (u32arg) { shifts++; u32arg >>= 1; }]: a 32-bit value is zero after
    32 shifts. *)
Fixpoint shift_count (fuel : nat) (u32arg shifts : Z) : Z :=
  match fuel with
  | O => shifts
  | S fuel => if bool_decide (u32arg = 0) then shifts
              else shift_count fuel (Z.shiftr u32arg 1) (shifts + 1)
  end.

(** bcm_count_leading_zeros is this function: __USE_ASM_CLZ__ is defined for
    Cortex-M3/R4 only. *)
Definition C_bcm_count_leading_zeros (u32arg : Z) : Z :=
  u32 (32 - shift_count 32 u32arg 0).

(** * Bits of machine words: the lemmas the bitmap components share *)

(** The number of set bits among the first [n]. *)
Fixpoint popcount (n : nat) (v : Z) : Z :=
  match n with
  | O => 0
  | S n => Z.b2z (Z.testbit v (Z.of_nat n)) + popcount n v
  end.

Lemma popcount_range n v : 0 <= popcount n v <= Z.of_nat n.
Proof. induction n as [|n IH]; simpl popcount; [lia|]. destruct (Z.testbit _ _); simpl Z.b2z; lia. Qed.

Lemma popcount_ext n v w :
  (∀ i, 0 <= i < Z.of_nat n -> Z.testbit v i = Z.testbit w i) -> popcount n v = popcount n w.
Proof.
  induction n as [|n IH]; intros H; simpl; [done|].
  rewrite H by lia. f_equal. apply IH. intros i Hi. apply H. lia.
Qed.

Lemma popcount_app n k v :
  popcount (n + k) v = popcount n v + popcount k (Z.shiftr v (Z.of_nat n)).
Proof.
  induction k as [|k IH]; [rewrite Nat.add_0_r; simpl popcount; lia|].
  rewrite Nat.add_succ_r. simpl popcount. rewrite IH, Z.shiftr_spec by lia.
  replace (Z.of_nat k + Z.of_nat n) with (Z.of_nat (n + k)) by lia. lia.
Qed.

Lemma csbtbl_table : forallb (fun x => bool_decide (nth (Z.to_nat x) _CSBTBL 0 = popcount 8 x)) (seqZ 0 256) = true.
Proof. vm_compute. reflexivity. Qed.

(** The table counts the bits of a byte. *)
Lemma csbtbl_byte i v : 0 <= i -> nth (Z.to_nat (byte_of i v)) _CSBTBL 0 = popcount 8 (Z.shiftr v (8 * i)).
Proof.
  intros Hi. unfold byte_of. change 255 with (Z.ones 8). rewrite Z.land_ones by lia. set (x := Z.shiftr v (8 * i)).
  pose proof (Z.mod_pos_bound x (2 ^ 8) ltac:(lia)) as Hx. pose proof csbtbl_table as H. rewrite forallb_forall in H.
  specialize (H (x mod 2 ^ 8)). rewrite <-list_elem_of_In, elem_of_seqZ, bool_decide_eq_true in H. rewrite H by lia.
  apply popcount_ext. intros j Hj. by rewrite Z.mod_pow2_bits_low by lia.
Qed.

Lemma bcm_cntsetbits_spec v : bcm_cntsetbits v = popcount 32 v.
Proof.
  unfold bcm_cntsetbits. rewrite !csbtbl_byte by lia.
  pose proof (popcount_app 8 24 v) as E1. pose proof (popcount_app 8 16 (Z.shiftr v 8)) as E2.
  pose proof (popcount_app 8 8 (Z.shiftr (Z.shiftr v 8) 8)) as E3.
  change (8 + 24)%nat with 32%nat in E1. change (8 + 16)%nat with 24%nat in E2. change (8 + 8)%nat with 16%nat in E3.
  change (Z.of_nat 8) with 8 in *. rewrite !Z.shiftr_shiftr in * by lia.
  change (8 * 0) with 0. change (8 * 1) with 8. change (8 * 2) with 16. change (8 * 3) with 24. rewrite Z.shiftr_0_r.
  change (8 + 8) with 16 in *. change (16 + 8) with 24 in *.
  pose proof (popcount_range 8 v). pose proof (popcount_range 8 (Z.shiftr v 8)).
  pose proof (popcount_range 8 (Z.shiftr v 16)). pose proof (popcount_range 8 (Z.shiftr v 24)).
  rewrite u32_small; lia.
Qed.

Lemma popcount_flip n v w b :
  0 <= b < Z.of_nat n -> (∀ i, i ≠ b -> Z.testbit w i = Z.testbit v i) ->
  popcount n w = popcount n v + Z.b2z (Z.testbit w b) - Z.b2z (Z.testbit v b).
Proof.
  induction n as [|n IH]; intros Hb H; [lia|]. simpl. destruct (decide (b = Z.of_nat n)) as [->|Hne].
  - rewrite (popcount_ext n w v); [lia|]. intros i Hi. apply H. lia.
  - rewrite H by done. rewrite IH by (done || lia). lia.
Qed.

Lemma popcount_0 n v :
  popcount n v = 0 <-> ∀ i, 0 <= i < Z.of_nat n -> Z.testbit v i = false.
Proof.
  induction n as [|n IH]; simpl; [split; [lia|done]|].
  pose proof (popcount_range n v). split.
  - intros H0 i Hi. destruct (Z.testbit v (Z.of_nat n)) eqn:E; simpl in H0; [lia|].
    destruct (decide (i = Z.of_nat n)) as [->|]; [done|]. apply IH; lia.
  - intros H0. rewrite H0 by lia. simpl. apply IH. intros i Hi. apply H0. lia.
Qed.

(** ** Words of 32 bits *)

Definition word (v : Z) : Prop := 0 <= v < 4294967296.

Lemma word_high v i : word v -> 32 <= i -> Z.testbit v i = false.
Proof.
  intros Hv Hi. destruct (decide (v = 0)) as [->|]; [apply Z.bits_0|].
  apply Z.bits_above_log2; [apply Hv|]. apply Z.log2_lt_pow2; [destruct Hv; lia|].
  apply Z.lt_le_trans with (2 ^ 32); [apply Hv|]. apply Z.pow_le_mono_r; lia.
Qed.

Lemma word_zero v : word v -> (∀ i, 0 <= i < 32 -> Z.testbit v i = false) -> v = 0.
Proof.
  intros Hv H. apply Z.bits_inj'. intros i Hi. rewrite Z.bits_0.
  destruct (decide (i < 32)); [by apply H|]. apply word_high; [done|lia].
Qed.

Lemma word_bits v : (∀ i, 32 <= i -> Z.testbit v i = false) -> 0 <= v -> word v.
Proof.
  intros H Hv. split; [done|]. change 4294967296 with (2 ^ 32).
  destruct (decide (v = 0)) as [->|]; [done|]. apply Z.log2_lt_pow2; [lia|].
  destruct (decide (Z.log2 v < 32)); [done|].
  pose proof (Z.bit_log2 v ltac:(lia)) as Hb. rewrite H in Hb; [done|lia].
Qed.

Lemma u32_land x : u32 x = Z.land x (Z.ones 32).
Proof. symmetry. apply (Z.land_ones x 32). lia. Qed.

Lemma u32_testbit x i : 0 <= i < 32 -> Z.testbit (u32 x) i = Z.testbit x i.
Proof. intros Hi. unfold u32. rewrite (Z.mod_pow2_bits_low x 32); [done|lia]. Qed.

Lemma u32_word x : word (u32 x).
Proof. apply u32_range. Qed.

Lemma word_lxor v w : word v -> word w -> word (Z.lxor v w).
Proof.
  intros Hv Hw. apply word_bits; [|apply Z.lxor_nonneg; split; intros; [apply Hw|apply Hv]].
  intros i Hi. rewrite Z.lxor_spec, !word_high by done. done.
Qed.

Lemma word_lor v w : word v -> word w -> word (Z.lor v w).
Proof.
  intros Hv Hw. apply word_bits; [|apply Z.lor_nonneg; split; [apply Hv|apply Hw]].
  intros i Hi. rewrite Z.lor_spec, !word_high by done. done.
Qed.

Lemma shl1_testbit b i : 0 <= b -> Z.testbit (Z.shiftl 1 b) i = bool_decide (i = b).
Proof.
  intros Hb. rewrite Z.shiftl_1_l. case_bool_decide as E; [subst; by apply Z.pow2_bits_true|].
  by apply Z.pow2_bits_false.
Qed.

Lemma shl1_word b : 0 <= b < 32 -> word (Z.shiftl 1 b).
Proof.
  intros Hb. rewrite Z.shiftl_1_l. split; [apply Z.pow_nonneg; lia|].
  change 4294967296 with (2 ^ 32). apply Z.pow_lt_mono_r; lia.
Qed.

(** The lowest set bit. *)
Definition lowest (v b : Z) : Prop :=
  0 <= b ∧ Z.testbit v b = true ∧ ∀ i, 0 <= i < b -> Z.testbit v i = false.

Lemma lowest_exists v : word v -> v ≠ 0 -> ∃ b, lowest v b ∧ b < 32.
Proof.
  intros Hv Hne. assert (∀ n, (∀ i, 0 <= i < Z.of_nat n -> Z.testbit v i = false)
    ∨ ∃ b, lowest v b ∧ b < Z.of_nat n) as H.
  { induction n as [|n [IH|(b & Hb & Hlt)]].
    - left. lia.
    - destruct (Z.testbit v (Z.of_nat n)) eqn:E.
      + right. exists (Z.of_nat n). split; [|lia]. by split_and!; [lia|..].
      + left. intros i Hi. destruct (decide (i = Z.of_nat n)) as [->|]; [done|]. apply IH. lia.
    - right. exists b. split; [done|lia]. }
  destruct (H 32%nat) as [H0|?]; [|done]. destruct Hne. by apply word_zero.
Qed.

Lemma land_opp_odd c : Z.odd c = true -> Z.land c (- c) = 1.
Proof.
  intros Hc. pose proof (Z.div2_odd c) as E. rewrite Hc in E. set (d := Z.div2 c) in *.
  replace (- c) with (Z.lnot (2 * d)) by (unfold Z.lnot; rewrite E; simpl Z.b2z; lia).
  apply Z.bits_inj'. intros i Hi. rewrite Z.land_spec, Z.lnot_spec by done.
  destruct (decide (i = 0)) as [->|].
  - rewrite Z.bit0_odd, Hc, Z.testbit_even_0. done.
  - replace i with (Z.succ (i - 1)) by lia. rewrite E at 1. simpl Z.b2z.
    rewrite Z.testbit_odd_succ, Z.testbit_even_succ by lia.
    rewrite andb_negb_r. change 1 with (2 ^ 0). by rewrite Z.pow2_bits_false by lia.
Qed.

Lemma land_opp_lowest v b : lowest v b -> Z.land v (- v) = 2 ^ b.
Proof.
  intros (Hb & Ht & Hl). set (c := Z.shiftr v b).
  assert (v = Z.shiftl c b) as Ev.
  { apply Z.bits_inj'. intros i Hi. rewrite Z.shiftl_spec by done. subst c.
    destruct (decide (i < b)); [by rewrite Hl, Z.testbit_neg_r by lia|].
    rewrite Z.shiftr_spec by lia. f_equal. lia. }
  assert (- v = Z.shiftl (- c) b) as -> by (rewrite Ev at 1; rewrite !Z.shiftl_mul_pow2 by done; lia).
  rewrite Ev at 1. rewrite <-Z.shiftl_land, land_opp_odd; [by rewrite Z.shiftl_1_l|].
  rewrite <-Z.bit0_odd. subst c. rewrite Z.shiftr_spec by lia. by rewrite Z.add_0_l.
Qed.

Lemma testbit_add_pow32 x k i : 0 <= i < 32 -> Z.testbit (x + k * 2 ^ 32) i = Z.testbit x i.
Proof.
  intros Hi. rewrite <-(Z.mod_pow2_bits_low (x + k * 2 ^ 32) 32 i), Z.mod_add by lia.
  by rewrite Z.mod_pow2_bits_low by lia.
Qed.

(** What the code computes: the word is read as a signed int and negated. *)
Lemma isolate_lowest v b :
  word v -> lowest v b -> u32 (Z.land (s32 v) (- s32 v)) = Z.shiftl 1 b.
Proof.
  intros Hv Hl. assert (b < 32) as Hb.
  { destruct Hl as (Hb & Ht & _). destruct (decide (b < 32)); [done|].
    rewrite word_high in Ht; [done..|lia]. }
  assert (∃ k, s32 v = v + k * 2 ^ 32) as [k Hk].
  { unfold s32. exists (- ((v + 2147483648) / 2 ^ 32)).
    pose proof (Z.div_mod (v + 2147483648) (2 ^ 32) ltac:(lia)).
    change 4294967296 with (2 ^ 32). lia. }
  assert (∀ x i, 0 <= i < 32 -> Z.testbit (x + k * 2 ^ 32) i = Z.testbit x i) as Hs.
  { intros x i Hi. by apply testbit_add_pow32. }
  rewrite Z.shiftl_1_l, <-(land_opp_lowest v b Hl). apply Z.bits_inj'. intros i Hi.
  destruct (decide (i < 32)).
  - rewrite u32_testbit, !Z.land_spec, Hk, Hs by lia. f_equal.
    replace (- (v + k * 2 ^ 32)) with (- v + (- k) * 2 ^ 32) by lia. by apply testbit_add_pow32.
  - rewrite (word_high (u32 _)) by (apply u32_word || lia). rewrite Z.land_spec.
    by rewrite (word_high v) by (done || lia).
Qed.

(** ** Counting leading zeros *)

Lemma shift_count_spec fuel x n :
  0 <= x < 2 ^ Z.of_nat fuel ->
  shift_count fuel x n = n + (if decide (x = 0) then 0 else Z.log2 x + 1).
Proof.
  revert x n. induction fuel as [|fuel IH]; intros x n Hx; simpl.
  - change (2 ^ Z.of_nat 0) with 1 in Hx. rewrite decide_True by lia. lia.
  - case_bool_decide as E; [rewrite decide_True by done; lia|]. rewrite decide_False by done.
    replace (Z.of_nat (S fuel)) with (Z.succ (Z.of_nat fuel)) in Hx by lia.
    rewrite Z.pow_succ_r in Hx by lia.
    rewrite <-Z.div2_spec, Z.div2_div. rewrite IH by (split; [apply Z.div_pos|apply Z.div_lt_upper_bound]; lia).
    pose proof (Z.div_mod x 2 ltac:(lia)). pose proof (Z.mod_pos_bound x 2 ltac:(lia)).
    destruct (decide (x / 2 = 0)) as [E0|E0].
    + assert (x = 1) as -> by lia. simpl. lia.
    + replace (Z.log2 x) with (Z.log2 (x / 2) + 1); [lia|].
      rewrite <-Z.div2_div, Z.div2_spec, Z.log2_shiftr by lia.
      assert (1 <= Z.log2 x) by (apply (Z.log2_le_mono 2); lia). lia.
Qed.

Lemma clz_pow2 b : 0 <= b < 32 -> C_bcm_count_leading_zeros (Z.shiftl 1 b) = 31 - b.
Proof.
  intros Hb. unfold C_bcm_count_leading_zeros. pose proof (shl1_word b Hb) as Hw.
  rewrite shift_count_spec by (apply Hw). rewrite Z.shiftl_1_l, decide_False by (apply Z.pow_nonzero; lia).
  rewrite Z.log2_pow2, u32_small by lia. lia.
Qed.
