(* ===== verification/Mwbmap.v ===== *)
(** * bcmutils.c: the multiword bitmap index allocator (model)

    DONGLEBUILD and BCM_MWBMAP_DEBUG are not defined: the allocator manages up
    to 64K indices, keeps a running count of free ids per word (wd_count), and
    the MWBMAP_ASSERT/MWBMAP_DBG/BCM_MWBMAP_AUDIT macros are empty.  The
    conditions of ASSERT and ASSERT_FP, which the board's build leaves out, are
    kept here.  [None] is an access outside one of the three arrays, or an
    assertion that fails. *)

From S2P Require Import Prelude Bits.

Definition BCM_MWBMAP_ITEMS_MAX : Z := 64 * 1024.
Definition BCM_MWBMAP_BITS_WORD : Z := 32.
Definition BCM_MWBMAP_WORDS_MAX : Z := BCM_MWBMAP_ITEMS_MAX / BCM_MWBMAP_BITS_WORD.
Definition BCM_MWBMAP_WDMAP_MAX : Z := BCM_MWBMAP_WORDS_MAX / BCM_MWBMAP_BITS_WORD.
Definition BCM_MWBMAP_MODOP (ix : Z) : Z := Z.land ix (BCM_MWBMAP_BITS_WORD - 1).
Definition BCM_MWBMAP_DIVOP (ix : Z) : Z := Z.shiftr ix 5.
Definition BCM_MWBMAP_MULOP (ix : Z) : Z := Z.shiftl ix 5.
Definition BCM_MWBMAP_INVALID_IDX : Z := 4294967295.

Record bcm_mwbmap := mk_mwbmap {
  wmaps : Z;               (* uint16 *)
  imaps : Z;               (* uint16 *)
  ifree : Z;               (* int32 *)
  total : Z;               (* uint16 *)
  wd_bitmap : list Z;      (* uint32 [BCM_MWBMAP_WDMAP_MAX] *)
  wd_count : list Z;       (* int8 [BCM_MWBMAP_WORDS_MAX] *)
  id_bitmap : list Z       (* uint32, as many as were allocated *)
}.

Definition set_ifree (x : Z) (m : bcm_mwbmap) : bcm_mwbmap :=
  mk_mwbmap (wmaps m) (imaps m) x (total m) (wd_bitmap m) (wd_count m) (id_bitmap m).
Definition set_wd_bitmap (x : list Z) (m : bcm_mwbmap) : bcm_mwbmap :=
  mk_mwbmap (wmaps m) (imaps m) (ifree m) (total m) x (wd_count m) (id_bitmap m).
Definition set_wd_count (x : list Z) (m : bcm_mwbmap) : bcm_mwbmap :=
  mk_mwbmap (wmaps m) (imaps m) (ifree m) (total m) (wd_bitmap m) x (id_bitmap m).
Definition set_id_bitmap (x : list Z) (m : bcm_mwbmap) : bcm_mwbmap :=
  mk_mwbmap (wmaps m) (imaps m) (ifree m) (total m) (wd_bitmap m) (wd_count m) x.

(** [a[i]] and [a[i] = x] with an unsigned index. *)
Definition rd (a : list Z) (i : Z) : option Z := a !! Z.to_nat i.
Definition wr (a : list Z) (i x : Z) : option (list Z) :=
  _ ← a !! Z.to_nat i; Some (<[Z.to_nat i := x]> a).

(** [ASSERT(b)] *)
Definition ASSERT (b : bool) : option unit := if b then Some tt else None.

(** [for (i = 0; i < n; i++) a[i] = x;] *)
Fixpoint fill (n : nat) (a : list Z) (x : Z) : option (list Z) :=
  match n with
  | O => Some a
  | S n => a ← fill n a x; wr a (Z.of_nat n) x
  end.

(** [~0U << extra] *)
Definition ones_from (extra : Z) : Z := u32 (Z.shiftl 4294967295 extra).

(** [alloc] says whether MALLOCZ returns memory, which is zeroed. *)
Definition bcm_mwbmap_init (alloc : bool) (items_max : Z) : option (option bcm_mwbmap) :=
  _ ← ASSERT (bool_decide (items_max <= BCM_MWBMAP_ITEMS_MAX));
  let extra := BCM_MWBMAP_MODOP items_max in
  let words := BCM_MWBMAP_DIVOP items_max + (if bool_decide (extra ≠ 0) then 1 else 0) in
  if negb alloc then Some None
  else
    let im := u16 words in
    id ← fill (Z.to_nat im) (replicate (Z.to_nat words) 0) 4294967295;
    wc ← fill (Z.to_nat im) (replicate (Z.to_nat BCM_MWBMAP_WORDS_MAX) 0) BCM_MWBMAP_BITS_WORD;
    '(id, wc) ← (if bool_decide (extra ≠ 0) then
                   w ← rd id (im - 1);
                   id ← wr id (im - 1) (Z.lxor w (ones_from extra));
                   wc ← wr wc (im - 1) (s8 extra);
                   Some (id, wc)
                 else Some (id, wc));
    let extra := BCM_MWBMAP_MODOP im in
    let words := BCM_MWBMAP_DIVOP im + (if bool_decide (extra ≠ 0) then 1 else 0) in
    let wm := u16 words in
    wd ← fill (Z.to_nat wm) (replicate (Z.to_nat BCM_MWBMAP_WDMAP_MAX) 0) 4294967295;
    wd ← (if bool_decide (extra ≠ 0) then
            w ← rd wd (wm - 1); wr wd (wm - 1) (Z.lxor w (ones_from extra))
          else Some wd);
    Some (Some (mk_mwbmap wm im (s32 items_max) (u16 items_max) wd wc id)).

(** [if (bitmap != (1u << 31u)) bitmap = (uint32)((int)bitmap & (-((int)bitmap)))] *)
Definition trailing_one (bitmap : Z) : Z :=
  if bool_decide (bitmap ≠ Z.shiftl 1 31) then u32 (Z.land (s32 bitmap) (- s32 bitmap)) else bitmap.

(** The body of the loop once a non-zero word is found at [wordix]. *)
Definition alloc_at (m : bcm_mwbmap) (wordix bitmap : Z) : option (Z * bcm_mwbmap) :=
  let lvl1 := wordix in
  let bitix := C_bcm_count_leading_zeros (trailing_one bitmap) in
  let bitix := if bool_decide (bitix <= BCM_MWBMAP_BITS_WORD - 1)
               then (BCM_MWBMAP_BITS_WORD - 1) - bitix else 0 in
  let wordix := BCM_MWBMAP_MULOP wordix + bitix in
  c ← rd (wd_count m) wordix;
  let count := s8 (c - 1) in
  wc ← wr (wd_count m) wordix count;
  let m := set_wd_count wc m in
  w1 ← rd (wd_bitmap m) lvl1;
  wd ← wr (wd_bitmap m) lvl1 (Z.lxor w1 (Z.shiftl (if bool_decide (count = 0) then 1 else 0) bitix));
  let m := set_wd_bitmap wd m in
  w2 ← rd (id_bitmap m) wordix;
  let bitmap := trailing_one w2 in
  let bitix := u32 (BCM_MWBMAP_MULOP wordix + (BCM_MWBMAP_BITS_WORD - 1)
                    - C_bcm_count_leading_zeros bitmap) in
  let m := set_ifree (s32 (ifree m - 1)) m in
  id ← wr (id_bitmap m) wordix (Z.lxor w2 bitmap);
  Some (bitix, set_id_bitmap id m).

(** [for (wordix = 0; wordix < mwbmap_p->wmaps; ++wordix)] with [n] words left. *)
Fixpoint alloc_loop (n : nat) (m : bcm_mwbmap) (wordix : Z) : option (Z * bcm_mwbmap) :=
  match n with
  | O => _ ← ASSERT (bool_decide (ifree m = 0)); Some (BCM_MWBMAP_INVALID_IDX, m)
  | S n =>
      bitmap ← rd (wd_bitmap m) wordix;
      if bool_decide (bitmap ≠ 0) then alloc_at m wordix bitmap
      else alloc_loop n m (wordix + 1)
  end.

Definition bcm_mwbmap_alloc (m : bcm_mwbmap) : option (Z * bcm_mwbmap) :=
  alloc_loop (Z.to_nat (wmaps m)) m 0.

Definition bcm_mwbmap_force (m : bcm_mwbmap) (bitix : Z) : option bcm_mwbmap :=
  _ ← ASSERT (bool_decide (bitix < total m));
  let wordix := BCM_MWBMAP_DIVOP bitix in
  let bitmap := Z.shiftl 1 (BCM_MWBMAP_MODOP bitix) in
  w ← rd (id_bitmap m) wordix;
  _ ← ASSERT (bool_decide (Z.land w bitmap = bitmap));
  let m := set_ifree (s32 (ifree m - 1)) m in
  _ ← ASSERT (bool_decide (0 <= ifree m));
  id ← wr (id_bitmap m) wordix (Z.lxor w bitmap);
  let m := set_id_bitmap id m in
  let bitix := wordix in
  let wordix := BCM_MWBMAP_DIVOP bitix in
  c ← rd (wd_count m) bitix;
  let count := s8 (c - 1) in
  wc ← wr (wd_count m) bitix count;
  let m := set_wd_count wc m in
  let bitmap := Z.shiftl (if bool_decide (count = 0) then 1 else 0) (BCM_MWBMAP_MODOP bitix) in
  w ← rd (wd_bitmap m) wordix;
  wd ← wr (wd_bitmap m) wordix (Z.lxor w bitmap);
  Some (set_wd_bitmap wd m).

Definition bcm_mwbmap_free (m : bcm_mwbmap) (bitix : Z) : option bcm_mwbmap :=
  _ ← ASSERT (bool_decide (bitix < total m));
  let wordix := BCM_MWBMAP_DIVOP bitix in
  let bitmap := Z.shiftl 1 (BCM_MWBMAP_MODOP bitix) in
  w ← rd (id_bitmap m) wordix;
  _ ← ASSERT (bool_decide (Z.land w bitmap = 0));
  let m := set_ifree (s32 (ifree m + 1)) m in
  _ ← ASSERT (bool_decide (ifree m <= total m));
  id ← wr (id_bitmap m) wordix (Z.lor w bitmap);
  let m := set_id_bitmap id m in
  let bitix := wordix in
  let wordix := BCM_MWBMAP_DIVOP bitix in
  let bitmap := Z.shiftl 1 (BCM_MWBMAP_MODOP bitix) in
  c ← rd (wd_count m) bitix;
  wc ← wr (wd_count m) bitix (s8 (c + 1));
  let m := set_wd_count wc m in
  w ← rd (wd_bitmap m) wordix;
  wd ← wr (wd_bitmap m) wordix (Z.lor w bitmap);
  Some (set_wd_bitmap wd m).

Definition bcm_mwbmap_free_cnt (m : bcm_mwbmap) : option Z :=
  _ ← ASSERT (bool_decide (0 <= ifree m)); Some (u32 (ifree m)).

Definition bcm_mwbmap_isfree (m : bcm_mwbmap) (bitix : Z) : option bool :=
  _ ← ASSERT (bool_decide (bitix < total m));
  let wordix := BCM_MWBMAP_DIVOP bitix in
  let bitmap := Z.shiftl 1 (BCM_MWBMAP_MODOP bitix) in
  w ← rd (id_bitmap m) wordix;
  Some (bool_decide (Z.land w bitmap ≠ 0)).

(** The inner loop of the audit: bits [bitix .. 31] of one word, [n] left. *)
Fixpoint audit_word (n : nat) (m : bcm_mwbmap) (wordix word free_cnt : Z) : option Z :=
  match n with
  | O => Some free_cnt
  | S k =>
      let bitix := BCM_MWBMAP_BITS_WORD - Z.of_nat n in
      free_cnt ← (if bool_decide (Z.land word (Z.shiftl 1 bitix) ≠ 0) then
                    count ← rd (wd_count m) (BCM_MWBMAP_MULOP wordix + bitix);
                    ids ← rd (id_bitmap m) (BCM_MWBMAP_MULOP wordix + bitix);
                    _ ← ASSERT (bool_decide (u32 count = bcm_cntsetbits ids));
                    _ ← ASSERT (bool_decide (u32 count ≠ 0));
                    Some (u32 (free_cnt + count))
                  else Some free_cnt);
      audit_word k m wordix word free_cnt
  end.

Fixpoint audit_loop (n : nat) (m : bcm_mwbmap) (wordix free_cnt : Z) : option Z :=
  match n with
  | O => Some free_cnt
  | S n =>
      w ← rd (wd_bitmap m) wordix;
      free_cnt ← audit_word 32 m wordix w free_cnt;
      audit_loop n m (wordix + 1) free_cnt
  end.

(** The result is whether the audit prints its error line. *)
Definition bcm_mwbmap_audit (m : bcm_mwbmap) : option bool :=
  free_cnt ← audit_loop (Z.to_nat (wmaps m)) m 0 0;
  _ ← ASSERT (bool_decide (s32 free_cnt = ifree m));
  Some (bool_decide (free_cnt ≠ u32 (ifree m))).
