(* ===== verification/MwbmapSpec.v ===== *)
(** * bcmutils.c: the multiword bitmap allocator against a set of free ids *)

From S2P Require Import Prelude Bits Mwbmap.

(** ** Index arithmetic *)

Lemma divop_spec i : BCM_MWBMAP_DIVOP i = i / 32.
Proof. unfold BCM_MWBMAP_DIVOP. by rewrite Z.shiftr_div_pow2. Qed.
Lemma modop_spec i : BCM_MWBMAP_MODOP i = i mod 32.
Proof. unfold BCM_MWBMAP_MODOP. apply (Z.land_ones i 5). lia. Qed.
Lemma mulop_spec i : BCM_MWBMAP_MULOP i = 32 * i.
Proof. unfold BCM_MWBMAP_MULOP. rewrite Z.shiftl_mul_pow2 by done. change (2 ^ 5) with 32. lia. Qed.

Create Rewrite HintDb mwbmap.
#[export] Hint Rewrite divop_spec modop_spec mulop_spec : mwbmap.

(** [i] is bit [i mod 32] of word [i / 32]. *)
Lemma split_index i : 0 <= i -> i = 32 * (i / 32) + i mod 32 ∧ 0 <= i / 32 ∧ 0 <= i mod 32 < 32.
Proof.
  intros Hi. pose proof (Z.div_mod i 32 ltac:(lia)). pose proof (Z.mod_pos_bound i 32 ltac:(lia)).
  pose proof (Z.div_pos i 32 Hi ltac:(lia)). lia.
Qed.

Lemma join_index w b : 0 <= b < 32 -> (32 * w + b) / 32 = w ∧ (32 * w + b) mod 32 = b.
Proof.
  intros Hb. split.
  - rewrite Z.mul_comm, Z.div_add_l, Z.div_small by lia. lia.
  - rewrite Z.add_comm, Z.mul_comm, Z.mod_add, Z.mod_small by lia. done.
Qed.

(** ** Arrays *)

Lemma rd_wr a i x y : rd a i = Some y -> wr a i x = Some (<[Z.to_nat i := x]> a).
Proof. unfold rd, wr. by intros ->. Qed.

Lemma rd_insert_eq a i x y : rd a i = Some y -> rd (<[Z.to_nat i := x]> a) i = Some x.
Proof. unfold rd. intros H. apply list_lookup_insert_eq. by eapply lookup_lt_Some. Qed.

Lemma rd_insert_ne a i j x : 0 <= i -> 0 <= j -> i ≠ j -> rd (<[Z.to_nat i := x]> a) j = rd a j.
Proof. unfold rd. intros Hi Hj Hne. apply list_lookup_insert_ne. lia. Qed.

(** ** The representation *)

(** Word [w] holds a free id. *)
Definition holds (F : gset Z) (w : Z) : Prop := ∃ i, i ∈ F ∧ i / 32 = w.

Record mwrep (m : bcm_mwbmap) (N : Z) (F : gset Z) : Prop := {
  mw_N : 0 <= N <= 65536;
  mw_imaps : N <= 32 * imaps m < N + 32;
  mw_wmaps : imaps m <= 32 * wmaps m < imaps m + 32;
  mw_sub : ∀ i, i ∈ F -> 0 <= i < N;
  mw_id : ∀ w, 0 <= w < imaps m -> ∃ v, rd (id_bitmap m) w = Some v ∧ word v
            ∧ rd (wd_count m) w = Some (popcount 32 v)
            ∧ ∀ b, 0 <= b < 32 -> Z.testbit v b = bool_decide (32 * w + b ∈ F);
  mw_wd : ∀ k, 0 <= k < wmaps m -> ∃ v, rd (wd_bitmap m) k = Some v ∧ word v
            ∧ ∀ b, 0 <= b < 32 -> (Z.testbit v b = true <-> holds F (32 * k + b));
  mw_total : total m = N mod 65536;
  mw_ifree : ifree m = Z.of_nat (size F)
}.

Lemma mw_word_zero m N F w v :
  mwrep m N F -> 0 <= w < imaps m -> rd (id_bitmap m) w = Some v -> (v = 0 <-> ¬ holds F w).
Proof.
  intros H Hw Hv. destruct (mw_id _ _ _ H w Hw) as (v' & Hv' & Hword & _ & Hb). simplify_eq. split.
  - intros -> (i & Hi & <-). pose proof (split_index i) as Hs.
    destruct (mw_sub _ _ _ H i Hi) as [Hi0 _]. specialize (Hs Hi0) as (E & _ & Hm).
    specialize (Hb (i mod 32) Hm). rewrite <-E, Z.bits_0, bool_decide_true in Hb by done. done.
  - intros Hn. apply word_zero; [done|]. intros b Hb0. rewrite Hb by done.
    apply bool_decide_eq_false. intros Hi. apply Hn. exists (32 * w + b). split; [done|].
    by apply join_index.
Qed.

Lemma size_bound (F : gset Z) N : 0 <= N -> (∀ i, i ∈ F -> 0 <= i < N) -> Z.of_nat (size F) <= N.
Proof.
  intros HN H. assert (F ⊆ list_to_set (seqZ 0 N)) as Hs.
  { intros i Hi. apply elem_of_list_to_set, elem_of_seqZ. specialize (H i Hi). lia. }
  apply subseteq_size in Hs.
  rewrite size_list_to_set in Hs by apply NoDup_seqZ. rewrite length_seqZ in Hs. lia.
Qed.

Lemma mw_size m N F : mwrep m N F -> 0 <= Z.of_nat (size F) <= 65536.
Proof.
  intros H. pose proof (mw_N _ _ _ H). pose proof (size_bound F N ltac:(lia) (mw_sub _ _ _ H)). lia.
Qed.

(** One id changes hands: its word, the word's count and the first-level bit
    are rewritten. *)
Lemma mw_update m N F F' i v V v' V' n :
  mwrep m N F -> 0 <= i < N -> (∀ j, j ≠ i -> j ∈ F' <-> j ∈ F) ->
  rd (id_bitmap m) (i / 32) = Some v -> rd (wd_bitmap m) (i / 32 / 32) = Some V ->
  word v' -> (∀ b, b ≠ i mod 32 -> Z.testbit v' b = Z.testbit v b) ->
  Z.testbit v' (i mod 32) = bool_decide (i ∈ F') ->
  word V' -> (∀ b, b ≠ (i / 32) mod 32 -> Z.testbit V' b = Z.testbit V b) ->
  (Z.testbit V' ((i / 32) mod 32) = true <-> v' ≠ 0) ->
  n = Z.of_nat (size F') ->
  mwrep (mk_mwbmap (wmaps m) (imaps m) n (total m) (<[Z.to_nat (i / 32 / 32) := V']> (wd_bitmap m))
           (<[Z.to_nat (i / 32) := popcount 32 v']> (wd_count m))
           (<[Z.to_nat (i / 32) := v']> (id_bitmap m))) N F'.
Proof.
  intros H Hi HF Hv HV Hv' Hbit Hbi HV' HBit HBi ->.
  destruct (split_index i) as (Ei & Hq & Hr); [lia|].
  destruct (split_index (i / 32)) as (Ew & HQ & HR); [done|].
  pose proof (mw_imaps _ _ _ H) as Him. pose proof (mw_wmaps _ _ _ H) as Hwm.
  assert (0 <= i / 32 < imaps m) as Hw by lia.
  assert (∀ w, w ≠ i / 32 -> holds F' w <-> holds F w) as Hholds.
  { intros w Hne. split; intros (j & Hj & <-); exists j; (split; [|done]); apply HF; try done; by intros ->. }
  assert (∀ w b, 0 <= b < 32 -> w ≠ i / 32 -> bool_decide (32 * w + b ∈ F') = bool_decide (32 * w + b ∈ F)) as HwF.
  { intros w b Hb Hne. apply bool_decide_ext, HF. intros E. apply Hne. rewrite <-E. by destruct (join_index w b Hb). }
  assert (∀ b, 0 <= b < 32 -> Z.testbit v' b = bool_decide (32 * (i / 32) + b ∈ F')) as Hbits.
  { intros b Hb. destruct (decide (b = i mod 32)) as [->|Hne]; [by rewrite Hbi, <-Ei|].
    rewrite Hbit by done. destruct (mw_id _ _ _ H _ Hw) as (v0 & Hv0 & _ & _ & Hb0). simplify_eq.
    rewrite Hb0 by done. apply bool_decide_ext. symmetry. apply HF. lia. }
  split; cbn [wmaps imaps ifree total wd_bitmap wd_count id_bitmap]; try done; [apply H| | | |apply H].
  - intros j Hj. destruct (decide (j = i)) as [->|Hne]; [done|]. apply (mw_sub _ _ _ H). by apply HF.
  - intros w Hw'. destruct (mw_id _ _ _ H w Hw') as (v0 & Hv0 & Hword & Hc0 & Hb0).
    destruct (decide (w = i / 32)) as [->|Hne].
    + exists v'. rewrite !(rd_insert_eq _ _ _ _ Hv0), !(rd_insert_eq _ _ _ _ Hc0). by split_and!.
    + exists v0. rewrite !rd_insert_ne by lia. split_and!; [done..|].
      intros b Hb. by rewrite HwF, Hb0.
  - intros k Hk. destruct (mw_wd _ _ _ H k Hk) as (V0 & HV0 & Hword & Hb0).
    destruct (decide (k = i / 32 / 32)) as [->|Hne].
    + exists V'. rewrite !(rd_insert_eq _ _ _ _ HV0). split_and!; [done..|].
      simplify_eq. intros b Hb. destruct (decide (b = (i / 32) mod 32)) as [->|Hnb].
      * rewrite HBi, <-Ew. split.
        -- intros Hnz. destruct (lowest_exists v' Hv' Hnz) as (b & (Hb0' & Htb & _) & Hlt).
           rewrite Hbits in Htb by lia. apply bool_decide_eq_true in Htb. eexists. split; [exact Htb|].
           apply join_index. lia.
        -- intros (j & Hj & Ej) ->. destruct (split_index j) as (Ej' & _ & Hrj).
           { destruct (decide (j = i)) as [->|]; [lia|]. apply (mw_sub _ _ _ H), HF; done. }
           specialize (Hbits (j mod 32) Hrj). rewrite <-Ej, <-Ej', Z.bits_0, bool_decide_true in Hbits; done.
      * rewrite HBit, Hb0, Hholds by (done || lia). done.
    + exists V0. rewrite !rd_insert_ne by lia. split_and!; [done..|].
      intros b Hb. rewrite Hb0, Hholds; [done| |done].
      intros E. apply Hne. rewrite <-E. by destruct (join_index k b Hb).
Qed.

(** ** The operations *)

Lemma trailing_one_spec v b : word v -> lowest v b -> trailing_one v = Z.shiftl 1 b.
Proof.
  intros Hv Hl. unfold trailing_one. case_bool_decide as E; [by apply isolate_lowest|].
  assert (v = Z.shiftl 1 31) as -> by (destruct (decide (v = Z.shiftl 1 31)); [done|by destruct E]).
  destruct Hl as (Hb & Ht & _). rewrite shl1_testbit in Ht by lia.
  by apply bool_decide_eq_true in Ht as ->.
Qed.

(** The first-level bit is cleared exactly when the word's count reaches zero. *)
Lemma clear_lvl1 V v' b0 b :
  0 <= b0 -> Z.testbit V b0 = true ->
  let x := Z.shiftl (if bool_decide (popcount 32 v' = 0) then 1 else 0) b0 in
  Z.testbit (Z.lxor V x) b = (if decide (b = b0) then negb (bool_decide (popcount 32 v' = 0)) else Z.testbit V b).
Proof.
  intros Hb0 HV x. subst x. rewrite Z.lxor_spec. case_bool_decide.
  - rewrite shl1_testbit by done. destruct (decide (b = b0)) as [->|].
    + by rewrite HV, bool_decide_true.
    + rewrite bool_decide_false by done. by destruct (Z.testbit V b).
  - rewrite Z.shiftl_0_l, Z.bits_0, xorb_false_r. by destruct (decide (b = b0)) as [->|].
Qed.

Lemma clear_lvl1_word V v' b0 :
  word V -> 0 <= b0 < 32 ->
  word (Z.lxor V (Z.shiftl (if bool_decide (popcount 32 v' = 0) then 1 else 0) b0)).
Proof.
  intros HV Hb. apply word_lxor; [done|]. case_bool_decide; [by apply shl1_word|].
  rewrite Z.shiftl_0_l. split; lia.
Qed.

Lemma popcount_word_0 v : word v -> popcount 32 v = 0 <-> v = 0.
Proof.
  intros Hv. rewrite popcount_0. split; [by apply word_zero|]. intros -> i Hi. apply Z.bits_0.
Qed.

(** Taking a free id out of its word: what alloc and force store. *)
Lemma mw_take m N F i v V :
  mwrep m N F -> i ∈ F -> rd (id_bitmap m) (i / 32) = Some v -> rd (wd_bitmap m) (i / 32 / 32) = Some V ->
  let v' := Z.lxor v (Z.shiftl 1 (i mod 32)) in
  popcount 32 v' = popcount 32 v - 1 ∧
  mwrep (mk_mwbmap (wmaps m) (imaps m) (s32 (ifree m - 1)) (total m)
           (<[Z.to_nat (i / 32 / 32) :=
              Z.lxor V (Z.shiftl (if bool_decide (popcount 32 v' = 0) then 1 else 0) ((i / 32) mod 32))]>
              (wd_bitmap m))
           (<[Z.to_nat (i / 32) := popcount 32 v']> (wd_count m))
           (<[Z.to_nat (i / 32) := v']> (id_bitmap m))) N (F ∖ {[i]}).
Proof.
  intros H HiF Hv HV v'. pose proof (mw_sub _ _ _ H i HiF) as Hi.
  destruct (split_index i) as (Ei & Hq & Hr); [lia|].
  destruct (split_index (i / 32)) as (Ew & HQ & HR); [done|].
  pose proof (mw_imaps _ _ _ H). pose proof (mw_wmaps _ _ _ H).
  destruct (mw_id _ _ _ H (i / 32)) as (v0 & Hv0 & Hword & Hc & Hb); [lia|]. simplify_eq.
  destruct (mw_wd _ _ _ H (i / 32 / 32)) as (V0 & HV0 & HWord & HB); [lia|]. simplify_eq.
  assert (∀ b, Z.testbit v' b = if decide (b = i mod 32) then false else Z.testbit v b) as Hbits.
  { intros b. subst v'. rewrite Z.lxor_spec, shl1_testbit by lia. case_decide as E.
    - rewrite E, Hb, <-Ei, !bool_decide_true by done. done.
    - rewrite bool_decide_false by done. apply xorb_false_r. }
  assert (word v') as Hw' by (apply word_lxor; [done|by apply shl1_word]).
  assert (Z.testbit V ((i / 32) mod 32) = true) as HVb.
  { apply HB; [done|]. rewrite <-Ew. by exists i. }
  pose proof (mw_size _ _ _ H). split.
  - rewrite (popcount_flip 32 v v' (i mod 32)); [|lia|intros b Hne; by rewrite Hbits, decide_False].
    rewrite Hbits, decide_True, Hb, <-Ei, bool_decide_true by done. simpl. lia.
  - eapply mw_update; try done.
    + set_solver.
    + intros b Hne. by rewrite Hbits, decide_False.
    + rewrite Hbits, decide_True by done. rewrite bool_decide_false; [done|set_solver].
    + by apply clear_lvl1_word.
    + intros b Hne. rewrite clear_lvl1 by (done || lia). by rewrite decide_False.
    + rewrite clear_lvl1, decide_True by (done || lia).
      rewrite <-(popcount_word_0 v') by done. by case_bool_decide.
    + rewrite (mw_ifree _ _ _ H), size_difference, size_singleton by set_solver.
      assert (size F ≠ 0%nat) by (intros Hs%size_empty_inv; set_solver).
      rewrite s32_small by lia. lia.
Qed.

Lemma alloc_at_spec m N F k V :
  mwrep m N F -> 0 <= k < wmaps m -> rd (wd_bitmap m) k = Some V -> V ≠ 0 ->
  (∀ j, j ∈ F -> k <= j / 32 / 32) ->
  ∃ i m', alloc_at m k V = Some (i, m') ∧ i ∈ F ∧ (∀ j, j ∈ F -> i <= j)
    ∧ mwrep m' N (F ∖ {[i]}) ∧ total m' = total m.
Proof.
  intros H Hk HV HVne Hmin.
  destruct (mw_wd _ _ _ H k Hk) as (V0 & HV0 & HWord & HB). simplify_eq.
  destruct (lowest_exists V HWord HVne) as (B & HlB & HB32). pose proof HlB as (HB0 & HBt & HBl).
  assert (holds F (32 * k + B)) as (i0 & Hi0 & Ei0) by (apply HB; [lia|done]).
  pose proof (mw_sub _ _ _ H i0 Hi0) as Hi0N. destruct (split_index i0) as (Es0 & Hq0 & Hr0); [lia|].
  pose proof (mw_imaps _ _ _ H) as Him. set (w := 32 * k + B) in *.
  destruct (mw_id _ _ _ H w) as (v & Hv & Hword & Hc & Hb); [lia|].
  assert (v ≠ 0) as Hvne. { intros Hv0. apply (mw_word_zero m N F w v H) in Hv0; [|lia|done]. apply Hv0. by exists i0. }
  destruct (lowest_exists v Hword Hvne) as (b & Hlb & Hb32). pose proof Hlb as (Hb0 & Hbt & Hbl).
  set (i := 32 * w + b). rewrite Hb in Hbt by lia. apply bool_decide_eq_true in Hbt. fold i in Hbt.
  destruct (join_index w b) as [Ew Eb]; [lia|]. fold i in Ew, Eb.
  destruct (join_index k B) as [EW EB]; [lia|]. fold w in EW, EB.
  destruct (mw_take m N F i v V H Hbt) as [Hpc Hrep]; [by rewrite Ew|by rewrite Ew, EW|].
  rewrite Eb in Hpc. rewrite Eb, Ew, EW, EB in Hrep. pose proof (popcount_range 32 v) as Hpr.
  exists i. unfold alloc_at. rewrite (trailing_one_spec V B), clz_pow2 by (done || lia).
  unfold BCM_MWBMAP_BITS_WORD. rewrite bool_decide_true by lia. rewrite !mulop_spec.
  replace (32 * k + (32 - 1 - (31 - B))) with w by lia. replace (32 - 1 - (31 - B)) with B by lia.
  rewrite Hc. cbn [mbind option_bind]. rewrite (s8_small (_ - 1)) by lia.
  rewrite (rd_wr _ _ _ _ Hc). cbn [mbind option_bind wd_bitmap set_wd_count]. rewrite HV.
  cbn [mbind option_bind]. rewrite (rd_wr _ _ _ _ HV). cbn [mbind option_bind id_bitmap set_wd_bitmap set_wd_count].
  rewrite Hv. cbn [mbind option_bind]. rewrite (trailing_one_spec v b), clz_pow2 by (done || lia).
  cbn [id_bitmap set_ifree set_wd_bitmap set_wd_count ifree]. rewrite (rd_wr _ _ _ _ Hv). cbn [mbind option_bind].
  rewrite <-Hpc. pose proof (mw_N _ _ _ H). pose proof (mw_sub _ _ _ H i Hbt).
  replace (u32 (32 * w + (32 - 1) - (31 - b))) with i by (rewrite u32_small; lia).
  eexists. split; [reflexivity|]. split; [done|]. split; [|split; [exact Hrep|done]].
  intros j Hj. pose proof (mw_sub _ _ _ H j Hj). destruct (split_index j) as (Ej & Hqj & Hrj); [lia|].
  destruct (split_index (j / 32)) as (Ejw & HQj & HRj); [done|]. pose proof (Hmin j Hj) as Hkj.
  destruct (decide (j / 32 / 32 = k)) as [Ejk|]; [|lia].
  destruct (decide ((j / 32) mod 32 < B)) as [Hlt|].
  { pose proof (HBl _ (conj (proj1 HRj) Hlt)) as Hf. apply not_true_iff_false in Hf. destruct Hf.
    apply HB; [done|]. exists j. split; [done|]. lia. }
  destruct (decide ((j / 32) mod 32 = B)) as [EjB|]; [|lia].
  destruct (decide (j mod 32 < b)) as [Hlt|]; [|lia].
  pose proof (Hbl _ (conj (proj1 Hrj) Hlt)) as Hf. rewrite Hb in Hf by done.
  apply bool_decide_eq_false in Hf. destruct Hf. replace (32 * w + j mod 32) with j by lia. done.
Qed.

Lemma ASSERT_true (P : Prop) {dec : Decision P} {A} (f : unit -> option A) : P -> (ASSERT (bool_decide P) ≫= f) = f tt.
Proof. intros HP. by rewrite bool_decide_true. Qed.

Lemma ASSERT_false (P : Prop) {dec : Decision P} {A} (f : unit -> option A) : ¬ P -> (ASSERT (bool_decide P) ≫= f) = None.
Proof. intros HP. by rewrite bool_decide_false. Qed.

(** Runs through the assertions whose condition is at hand. *)
Ltac asserts := rewrite ASSERT_true by (done || lia).

Lemma alloc_loop_spec n : ∀ m N F k,
  mwrep m N F -> 0 <= k -> k + Z.of_nat n = wmaps m -> (∀ j, j ∈ F -> k <= j / 32 / 32) ->
  (F = ∅ ∧ alloc_loop n m k = Some (BCM_MWBMAP_INVALID_IDX, m))
  ∨ ∃ i m', alloc_loop n m k = Some (i, m') ∧ i ∈ F ∧ (∀ j, j ∈ F -> i <= j)
      ∧ mwrep m' N (F ∖ {[i]}) ∧ total m' = total m.
Proof.
  induction n as [|n IH]; intros m N F k H Hk Hn Hmin.
  - left. assert (F = ∅) as HF; [|split; [done|]; cbn [alloc_loop]; rewrite ASSERT_true;
      [done|by rewrite (mw_ifree _ _ _ H), HF]].
    apply set_eq. intros j. split; [|set_solver]. intros Hj.
    pose proof (mw_sub _ _ _ H j Hj). specialize (Hmin j Hj).
    destruct (split_index j) as (Ej & Hqj & Hrj); [lia|].
    destruct (split_index (j / 32)) as (Ejw & HQj & HRj); [done|].
    pose proof (mw_imaps _ _ _ H). pose proof (mw_wmaps _ _ _ H). lia.
  - cbn [alloc_loop]. destruct (mw_wd _ _ _ H k) as (V & HV & HWord & HB); [lia|].
    rewrite HV. cbn [mbind option_bind]. case_bool_decide as E.
    + right. apply (alloc_at_spec m N F k V); [done|lia|done..].
    + apply IH; [done|lia|lia|]. intros j Hj. specialize (Hmin j Hj).
      destruct (decide (j / 32 / 32 = k)) as [Ejk|]; [|lia]. exfalso. subst V.
      pose proof (mw_sub _ _ _ H j Hj). destruct (split_index j) as (Ej & Hqj & Hrj); [lia|].
      destruct (split_index (j / 32)) as (Ejw & HQj & HRj); [done|].
      assert (holds F (32 * k + (j / 32) mod 32)) as Hh by (exists j; split; [done|lia]).
      apply HB in Hh; [|done]. by rewrite Z.bits_0 in Hh.
Qed.

Lemma bcm_mwbmap_alloc_spec m N F :
  mwrep m N F ->
  (F = ∅ ∧ bcm_mwbmap_alloc m = Some (BCM_MWBMAP_INVALID_IDX, m))
  ∨ ∃ i m', bcm_mwbmap_alloc m = Some (i, m') ∧ i ∈ F ∧ (∀ j, j ∈ F -> i <= j)
      ∧ mwrep m' N (F ∖ {[i]}) ∧ total m' = total m.
Proof.
  intros H. pose proof (mw_imaps _ _ _ H). pose proof (mw_wmaps _ _ _ H). pose proof (mw_N _ _ _ H).
  apply alloc_loop_spec; [done|lia|lia|]. intros j Hj. pose proof (mw_sub _ _ _ H j Hj).
  apply Z.div_pos; [apply Z.div_pos|]; lia.
Qed.

(** Every id of the map is in range of the arrays. *)
Lemma mw_words m N F i :
  mwrep m N F -> 0 <= i < N ->
  ∃ v V, rd (id_bitmap m) (i / 32) = Some v ∧ word v ∧ rd (wd_count m) (i / 32) = Some (popcount 32 v)
    ∧ Z.testbit v (i mod 32) = bool_decide (i ∈ F)
    ∧ rd (wd_bitmap m) (i / 32 / 32) = Some V ∧ word V
    ∧ (Z.testbit V ((i / 32) mod 32) = true <-> holds F (i / 32))
    ∧ 0 <= i mod 32 < 32 ∧ 0 <= (i / 32) mod 32 < 32.
Proof.
  intros H Hi. destruct (split_index i) as (Ei & Hq & Hr); [lia|].
  destruct (split_index (i / 32)) as (Ew & HQ & HR); [done|].
  pose proof (mw_imaps _ _ _ H). pose proof (mw_wmaps _ _ _ H).
  destruct (mw_id _ _ _ H (i / 32)) as (v & Hv & Hword & Hc & Hb); [lia|].
  destruct (mw_wd _ _ _ H (i / 32 / 32)) as (V & HV & HWord & HB); [lia|].
  exists v, V. rewrite Hb, HB, <-Ei, <-Ew by done.
  split_and!; (done || lia).
Qed.

Lemma land_bit v b : 0 <= b -> bool_decide (Z.land v (Z.shiftl 1 b) ≠ 0) = Z.testbit v b.
Proof.
  intros Hb. assert (∀ i, 0 <= i -> Z.testbit (Z.land v (Z.shiftl 1 b)) i
    = (if decide (i = b) then Z.testbit v b else false)) as H.
  { intros i Hi. rewrite Z.land_spec, shl1_testbit by done. case_decide as E.
    - by rewrite bool_decide_true, andb_true_r, E.
    - by rewrite bool_decide_false, andb_false_r. }
  destruct (Z.testbit v b) eqn:E.
  - apply bool_decide_eq_true. intros E0. specialize (H b Hb). rewrite E0, Z.bits_0, decide_True in H; done.
  - apply bool_decide_eq_false. intros Hn. apply Hn, Z.bits_inj'. intros i Hi. rewrite H, Z.bits_0 by done.
    by case_decide.
Qed.

Lemma land_bit_clear v b : 0 <= b -> Z.testbit v b = false -> Z.land v (Z.shiftl 1 b) = 0.
Proof. intros Hb Hv. rewrite <-(land_bit v b Hb), bool_decide_eq_false in Hv. by apply dec_stable. Qed.

Lemma land_bit_set v b : 0 <= b -> Z.testbit v b = true -> Z.land v (Z.shiftl 1 b) = Z.shiftl 1 b.
Proof.
  intros Hb Hv. apply Z.bits_inj'. intros i Hi. rewrite Z.land_spec, shl1_testbit by done.
  case_bool_decide; [subst; by rewrite Hv|apply andb_false_r].
Qed.

Lemma mw_total_small m N F : mwrep m N F -> N < 65536 -> total m = N.
Proof. intros H HN. pose proof (mw_N _ _ _ H). rewrite (mw_total _ _ _ H), Z.mod_small; lia. Qed.

Lemma bcm_mwbmap_force_spec m N F i :
  mwrep m N F -> N < 65536 -> i ∈ F ->
  ∃ m', bcm_mwbmap_force m i = Some m' ∧ mwrep m' N (F ∖ {[i]}) ∧ total m' = total m.
Proof.
  intros H HN Hi. pose proof (mw_sub _ _ _ H i Hi) as HiN. pose proof (mw_total_small _ _ _ H HN) as Htot.
  destruct (mw_words m N F i H HiN) as (v & V & Hv & Hword & Hc & Hb & HV & HWord & HB & Hr & HR).
  destruct (mw_take m N F i v V H Hi Hv HV) as [Hpc Hrep]. pose proof (popcount_range 32 v).
  assert (0 < Z.of_nat (size F)). { assert (size F ≠ 0%nat); [|lia]. intros Hs%size_empty_inv. set_solver. }
  pose proof (mw_size _ _ _ H). pose proof (mw_ifree _ _ _ H) as Hif.
  unfold bcm_mwbmap_force. autorewrite with mwbmap. asserts.
  rewrite Hv. cbn [mbind option_bind]. rewrite ASSERT_true by (apply land_bit_set; [lia|by rewrite Hb, bool_decide_true]).
  cbn [id_bitmap set_ifree ifree]. rewrite ASSERT_true by (rewrite s32_small; lia).
  rewrite (rd_wr _ _ _ _ Hv).
  cbn [mbind option_bind wd_count set_ifree set_id_bitmap]. rewrite Hc. cbn [mbind option_bind].
  rewrite (s8_small (_ - 1)), (rd_wr _ _ _ _ Hc) by lia.
  cbn [mbind option_bind wd_bitmap set_wd_count set_ifree set_id_bitmap]. rewrite HV. cbn [mbind option_bind].
  rewrite (rd_wr _ _ _ _ HV). cbn [mbind option_bind]. rewrite <-Hpc.
  eexists. split; [reflexivity|]. split; [exact Hrep|done].
Qed.

Lemma bcm_mwbmap_free_spec m N F i :
  mwrep m N F -> N < 65536 -> 0 <= i < N -> i ∉ F ->
  ∃ m', bcm_mwbmap_free m i = Some m' ∧ mwrep m' N ({[i]} ∪ F) ∧ total m' = total m.
Proof.
  intros H HN HiN Hi. pose proof (mw_total_small _ _ _ H HN) as Htot.
  destruct (mw_words m N F i H HiN) as (v & V & Hv & Hword & Hc & Hb & HV & HWord & HB & Hr & HR).
  set (v' := Z.lor v (Z.shiftl 1 (i mod 32))). set (V' := Z.lor V (Z.shiftl 1 ((i / 32) mod 32))).
  rewrite bool_decide_false in Hb by done.
  assert (∀ b, Z.testbit v' b = if decide (b = i mod 32) then true else Z.testbit v b) as Hbits.
  { intros b. subst v'. rewrite Z.lor_spec, shl1_testbit by lia. case_decide as E.
    - rewrite bool_decide_true by done. apply orb_true_r.
    - rewrite bool_decide_false by done. apply orb_false_r. }
  assert (∀ b, Z.testbit V' b = if decide (b = (i / 32) mod 32) then true else Z.testbit V b) as HBits.
  { intros b. subst V'. rewrite Z.lor_spec, shl1_testbit by lia. case_decide as E.
    - rewrite bool_decide_true by done. apply orb_true_r.
    - rewrite bool_decide_false by done. apply orb_false_r. }
  assert (popcount 32 v' = popcount 32 v + 1) as Hpc.
  { rewrite (popcount_flip 32 v v' (i mod 32)); [|lia|intros b Hne; by rewrite Hbits, decide_False].
    rewrite Hbits, decide_True, Hb by done. simpl. lia. }
  pose proof (popcount_range 32 v'). pose proof (popcount_range 32 v).
  pose proof (mw_ifree _ _ _ H) as Hif. assert (Z.of_nat (size F) < N) as Hlt.
  { pose proof (size_bound ({[i]} ∪ F) N) as Hsz. rewrite size_union, size_singleton in Hsz by set_solver.
    specialize (Hsz ltac:(lia)). enough (Z.of_nat (1 + size F) <= N) by lia. apply Hsz.
    intros j [->%elem_of_singleton|Hj]%elem_of_union; [done|by apply (mw_sub _ _ _ H)]. }
  unfold bcm_mwbmap_free. autorewrite with mwbmap. asserts.
  rewrite Hv. cbn [mbind option_bind]. rewrite ASSERT_true by (apply land_bit_clear; [lia|done]).
  cbn [id_bitmap set_ifree ifree total]. rewrite ASSERT_true by (rewrite s32_small; lia).
  rewrite (rd_wr _ _ _ _ Hv).
  cbn [mbind option_bind wd_count set_ifree set_id_bitmap]. rewrite Hc. cbn [mbind option_bind].
  rewrite (s8_small (_ + 1)), (rd_wr _ _ _ _ Hc) by lia.
  cbn [mbind option_bind wd_bitmap set_wd_count set_ifree set_id_bitmap]. rewrite HV. cbn [mbind option_bind].
  rewrite (rd_wr _ _ _ _ HV). cbn [mbind option_bind]. rewrite <-Hpc. fold v' V'.
  eexists. split; [reflexivity|]. split; [|done].
  eapply (mw_update m N F ({[i]} ∪ F) i v V v' V'); try done.
  - set_solver.
  - apply word_lor; [done|by apply shl1_word].
  - intros b Hne. by rewrite Hbits, decide_False.
  - rewrite Hbits, decide_True by done. rewrite bool_decide_true; [done|set_solver].
  - apply word_lor; [done|by apply shl1_word].
  - intros b Hne. by rewrite HBits, decide_False.
  - rewrite HBits, decide_True by done. split; [|done]. intros _ E.
    pose proof (Hbits (i mod 32)) as Ht. by rewrite E, Z.bits_0, decide_True in Ht.
  - pose proof (mw_size _ _ _ H). cbn [ifree set_ifree set_wd_count set_id_bitmap].
    rewrite (mw_ifree _ _ _ H), size_union, size_singleton by set_solver.
    rewrite s32_small by lia. lia.
Qed.

Lemma bcm_mwbmap_isfree_spec m N F i :
  mwrep m N F -> N < 65536 -> 0 <= i < N -> bcm_mwbmap_isfree m i = Some (bool_decide (i ∈ F)).
Proof.
  intros H HN Hi. pose proof (mw_total_small _ _ _ H HN). destruct (mw_words m N F i H Hi) as (v & V & Hv & _ & _ & Hb & _ & _ & _ & Hr & _).
  unfold bcm_mwbmap_isfree. asserts. autorewrite with mwbmap. rewrite Hv. cbn [mbind option_bind].
  by rewrite land_bit, Hb by lia.
Qed.

Lemma bcm_mwbmap_free_cnt_spec m N F : mwrep m N F -> bcm_mwbmap_free_cnt m = Some (Z.of_nat (size F)).
Proof.
  intros H. unfold bcm_mwbmap_free_cnt. pose proof (mw_size _ _ _ H).
  rewrite (mw_ifree _ _ _ H). asserts. by rewrite u32_small by lia.
Qed.

(** ** Initialisation *)

Definition ids (N : Z) : gset Z := list_to_set (seqZ 0 N).

Lemma elem_of_ids N i : i ∈ ids N <-> 0 <= i < N.
Proof. unfold ids. rewrite elem_of_list_to_set, elem_of_seqZ. lia. Qed.

Lemma size_ids N : 0 <= N -> Z.of_nat (size (ids N)) = N.
Proof. intros HN. unfold ids. rewrite size_list_to_set, length_seqZ by apply NoDup_seqZ. lia. Qed.

Lemma fill_spec n a x : (n <= length a)%nat -> fill n a x = Some (replicate n x ++ drop n a).
Proof.
  revert a. induction n as [|n IH]; intros a Hn; [by rewrite drop_0|]. simpl fill.
  rewrite IH by lia. cbn [mbind option_bind]. destruct (lookup_lt_is_Some_2 a n) as [y Hy]; [lia|].
  rewrite (drop_S a y n Hy).
  assert (rd (replicate n x ++ y :: drop (S n) a) (Z.of_nat n) = Some y) as Hrd.
  { unfold rd. rewrite Nat2Z.id, lookup_app_r; rewrite length_replicate; [|lia].
    by rewrite Nat.sub_diag. }
  rewrite (rd_wr _ _ _ _ Hrd), Nat2Z.id. rewrite insert_app_r_alt; rewrite length_replicate; [|lia].
  rewrite Nat.sub_diag. cbn [insert list_insert]. by rewrite replicate_S_end, <-app_assoc.
Qed.

Lemma rd_replicate n x i : 0 <= i < Z.of_nat n -> rd (replicate n x) i = Some x.
Proof. intros Hi. apply lookup_replicate. split; [done|lia]. Qed.

(** The last word of a bitmap of which only the first [e] bits exist; with
    [e = 0] the word is whole. *)
Definition last_word (e : Z) : Z :=
  if bool_decide (e ≠ 0) then Z.lxor 4294967295 (ones_from e) else 4294967295.
Definition last_bits (e : Z) : Z := if bool_decide (e ≠ 0) then e else 32.

Lemma last_word_table :
  forallb (fun e => bool_decide (popcount 32 (last_word e) = last_bits e)
             && bool_decide (0 <= last_word e < 4294967296)
             && forallb (fun b => eqb (Z.testbit (last_word e) b) (bool_decide (b < last_bits e))) (seqZ 0 32))
    (seqZ 0 32) = true.
Proof. vm_compute. reflexivity. Qed.

Lemma last_word_spec e :
  0 <= e < 32 -> popcount 32 (last_word e) = last_bits e ∧ word (last_word e)
    ∧ ∀ b, 0 <= b < 32 -> Z.testbit (last_word e) b = bool_decide (b < last_bits e).
Proof.
  intros He. pose proof last_word_table as H. rewrite forallb_forall in H.
  specialize (H e). rewrite <-list_elem_of_In, elem_of_seqZ in H. specialize (H ltac:(lia)).
  apply andb_true_iff in H as [[H1%bool_decide_eq_true H2%bool_decide_eq_true]%andb_true_iff H3].
  split_and!; [done..|]. intros b Hb. rewrite forallb_forall in H3. apply eqb_prop, H3.
  rewrite <-list_elem_of_In, elem_of_seqZ. lia.
Qed.

(** The value of every entry, and of the last one once it is rewritten. *)
Lemma filled_rd k n x w : 0 <= w < Z.of_nat n -> (n <= k)%nat ->
  rd (replicate n x ++ drop n (replicate k 0)) w = Some x.
Proof.
  intros Hw Hn. unfold rd. rewrite lookup_app_l by (rewrite length_replicate; lia).
  by apply rd_replicate.
Qed.

Lemma filled_wr a n x y :
  0 < n -> (∀ w, 0 <= w < n -> rd a w = Some x) ->
  ∃ a', wr a (n - 1) y = Some a'
    ∧ ∀ w, 0 <= w < n -> rd a' w = Some (if bool_decide (w = n - 1) then y else x).
Proof.
  intros Hn Ha. rewrite (rd_wr _ _ _ _ (Ha (n - 1) ltac:(lia))). eexists. split; [done|].
  intros w Hw. case_bool_decide as Ew; [subst w; by erewrite rd_insert_eq by (apply Ha; lia)|].
  rewrite rd_insert_ne by lia. by apply Ha.
Qed.

Lemma rd_const_replace a n x w :
  (∀ w, 0 <= w < n -> rd a w = Some x) -> 0 <= w < n ->
  rd a w = Some (if bool_decide (w = n - 1) then x else x).
Proof. intros Ha Hw. rewrite Ha by done. by case_bool_decide. Qed.

(** How many words [n] bits take, and the bits of the last one. *)
Definition words_for (n : Z) : Z := n / 32 + (if bool_decide (n mod 32 ≠ 0) then 1 else 0).

Lemma words_for_spec n : 0 <= n -> n <= 32 * words_for n < n + 32 ∧ 0 <= words_for n
  ∧ ∀ w b, 0 <= w < words_for n -> 0 <= b < 32 ->
      (32 * w + b < n <-> b < (if bool_decide (w = words_for n - 1) then last_bits (n mod 32) else 32)).
Proof.
  intros Hn. unfold words_for, last_bits. destruct (split_index n Hn) as (E & Hq & Hr).
  repeat case_bool_decide; split_and!; try lia; intros w b Hw Hb; repeat case_bool_decide; lia.
Qed.

Lemma bcm_mwbmap_init_fail N : N <= 65536 -> bcm_mwbmap_init false N = Some None.
Proof. intros HN. unfold bcm_mwbmap_init. by rewrite ASSERT_true by (unfold BCM_MWBMAP_ITEMS_MAX; lia). Qed.

(** Word [w] of a level of [n] words whose last one has [e] bits, and its
    number of bits. *)
Definition level_word (n e w : Z) : Z :=
  if bool_decide (w = n - 1) then last_word e else 4294967295.
Definition level_bits (n e w : Z) : Z := if bool_decide (w = n - 1) then last_bits e else 32.

Lemma level_word_spec n e w : 0 <= e < 32 ->
  word (level_word n e w) ∧ popcount 32 (level_word n e w) = level_bits n e w
  ∧ ∀ b, 0 <= b < 32 -> Z.testbit (level_word n e w) b = bool_decide (b < level_bits n e w).
Proof.
  intros He. unfold level_word, level_bits. case_bool_decide.
  - by destruct (last_word_spec e He) as (? & ? & ?).
  - destruct (last_word_spec 0) as (H1 & H2 & H3); [lia|]. by split_and!.
Qed.

Lemma init_level a n e :
  (e ≠ 0 -> 0 < n) -> (∀ w, 0 <= w < n -> rd a w = Some 4294967295) ->
  ∃ a', (if bool_decide (e ≠ 0)
         then w ← rd a (n - 1); wr a (n - 1) (Z.lxor w (ones_from e)) else Some a) = Some a'
    ∧ ∀ w, 0 <= w < n -> rd a' w = Some (level_word n e w).
Proof.
  intros Hn Ha. unfold level_word, last_word. case_bool_decide as He.
  - specialize (Hn He). rewrite (Ha (n - 1)) by lia. cbn [mbind option_bind]. by apply filled_wr.
  - exists a. split; [done|]. intros w Hw. by apply rd_const_replace.
Qed.

Lemma init_pair a c n e :
  (e ≠ 0 -> 0 < n) -> 0 <= e < 32 -> (∀ w, 0 <= w < n -> rd a w = Some 4294967295) ->
  (∀ w, 0 <= w < n -> rd c w = Some 32) ->
  ∃ a' c', (if bool_decide (e ≠ 0) then
              w ← rd a (n - 1); a' ← wr a (n - 1) (Z.lxor w (ones_from e));
              c' ← wr c (n - 1) (s8 e); Some (a', c')
            else Some (a, c)) = Some (a', c')
    ∧ (∀ w, 0 <= w < n -> rd a' w = Some (level_word n e w))
    ∧ (∀ w, 0 <= w < n -> rd c' w = Some (level_bits n e w)).
Proof.
  intros Hn He Ha Hc. destruct (init_level a n e Hn Ha) as (a' & E & Ha').
  unfold level_bits, last_bits. case_bool_decide as Hne.
  - specialize (Hn Hne). rewrite (Ha (n - 1)) in * by lia. cbn [mbind option_bind] in *. rewrite E.
    destruct (filled_wr c n 32 (s8 e) Hn Hc) as (c' & E' & Hc'). cbn [mbind option_bind]. rewrite E'.
    rewrite s8_small in Hc' by lia. by exists a', c'.
  - injection E as <-. exists a, c. split_and!; [done..|]. intros w Hw. by apply rd_const_replace.
Qed.

(** The two levels as arrays describe the set of all ids. *)
Lemma mwrep_ids m N :
  0 <= N <= 65536 -> imaps m = words_for N -> wmaps m = words_for (words_for N) -> ifree m = N -> total m = N mod 65536 ->
  (∀ w, 0 <= w < imaps m -> rd (id_bitmap m) w = Some (level_word (imaps m) (N mod 32) w)) ->
  (∀ w, 0 <= w < imaps m -> rd (wd_count m) w = Some (level_bits (imaps m) (N mod 32) w)) ->
  (∀ k, 0 <= k < wmaps m -> rd (wd_bitmap m) k = Some (level_word (wmaps m) (imaps m mod 32) k)) ->
  mwrep m N (ids N).
Proof.
  intros HN Ei Ew Ef Et Hid Hwc Hwd.
  destruct (words_for_spec N) as (Him & Hn0 & Hbits); [lia|]. rewrite <-Ei in *.
  destruct (words_for_spec (imaps m)) as (Hwm & Hk0 & HBits); [lia|]. rewrite <-Ew in *.
  split; [done|lia|lia|intros i; by rewrite elem_of_ids| | |done|by rewrite size_ids by lia].
  - intros w Hw. destruct (level_word_spec (imaps m) (N mod 32) w) as (Hv & Hp & Hb);
      [apply Z.mod_pos_bound; lia|].
    eexists. split; [by apply Hid|]. split; [done|]. rewrite Hp. split; [by apply Hwc|].
    intros b Hb0. rewrite Hb by done. apply bool_decide_ext.
    rewrite elem_of_ids. unfold level_bits. rewrite <-Hbits by done. lia.
  - intros K HK. destruct (level_word_spec (wmaps m) (imaps m mod 32) K) as (Hv & _ & Hb);
      [apply Z.mod_pos_bound; lia|].
    eexists. split; [by apply Hwd|]. split; [done|]. intros b Hb0.
    rewrite Hb, bool_decide_eq_true by done. unfold level_bits. rewrite <-HBits by done. split.
    + intros Hlt. exists (32 * (32 * K + b)). rewrite elem_of_ids. split; [lia|].
      rewrite Z.mul_comm, Z.div_mul by lia. done.
    + intros (i & Hi%elem_of_ids & <-). destruct (split_index i); lia.
Qed.

Lemma bcm_mwbmap_init_spec N :
  0 <= N <= 65536 ->
  ∃ m, bcm_mwbmap_init true N = Some (Some m) ∧ mwrep m N (ids N) ∧ total m = N mod 65536.
Proof.
  intros HN. unfold bcm_mwbmap_init. rewrite ASSERT_true by (unfold BCM_MWBMAP_ITEMS_MAX; lia). cbn [negb]. autorewrite with mwbmap. fold (words_for N).
  destruct (words_for_spec N) as (Him & Hn0 & _); [lia|]. set (n := words_for N) in *.
  destruct (words_for_spec n) as (Hwm & Hk0 & _); [lia|].
  rewrite (u16_small n) by lia. fold (words_for n). set (k := words_for n) in *.
  rewrite (u16_small k) by lia.
  change BCM_MWBMAP_WORDS_MAX with 2048. change BCM_MWBMAP_WDMAP_MAX with 64.
  change BCM_MWBMAP_BITS_WORD with 32.
  rewrite !fill_spec by (rewrite length_replicate; lia). cbn [mbind option_bind].
  pose proof (split_index N ltac:(lia)) as (EN & _ & HrN).
  pose proof (split_index n ltac:(lia)) as (En & _ & Hrn).
  edestruct (init_pair) as (id & wc & -> & Hid & Hwc);
    [| |intros; apply filled_rd; lia|intros; apply filled_rd; lia|]; [lia|done|].
  cbn [mbind option_bind].
  edestruct (init_level) as (wd & -> & Hwd); [|intros; apply filled_rd; lia|]; [lia|].
  cbn [mbind option_bind]. eexists. split; [reflexivity|]. split; [|done].
  apply mwrep_ids; try done. cbn. rewrite s32_small; lia.
Qed.

(** ** The audit *)

(** The free ids below [t]. *)
Definition upto (F : gset Z) (t : Z) : Z := Z.of_nat (size (filter (fun i => i < t) F)).

Lemma upto_ext F t t' : (∀ i, i ∈ F -> i < t <-> i < t') -> upto F t = upto F t'.
Proof.
  intros H. unfold upto. do 2 f_equal. apply set_eq. intros i. rewrite !elem_of_filter.
  split; intros [? ?]; (split; [|done]); by apply H.
Qed.

Lemma upto_succ F t : upto F (t + 1) = upto F t + Z.b2z (bool_decide (t ∈ F)).
Proof.
  case_bool_decide as Ht; simpl Z.b2z.
  - unfold upto. assert (filter (fun i => i < t + 1) F = {[t]} ∪ filter (fun i => i < t) F) as ->.
    { apply set_eq. intros i. rewrite elem_of_union, elem_of_singleton, !elem_of_filter. split.
      - intros [Hi ?]. destruct (decide (i = t)); [by left|right; split; [lia|done]].
      - intros [->|[? ?]]; split; (done || lia). }
    rewrite size_union, size_singleton; [lia|]. intros i. rewrite elem_of_singleton, elem_of_filter. lia.
  - rewrite Z.add_0_r. apply upto_ext. intros i Hi. assert (i ≠ t) by (by intros ->). lia.
Qed.

Lemma upto_all F t : (∀ i, i ∈ F -> i < t) -> upto F t = Z.of_nat (size F).
Proof.
  intros H. unfold upto. do 2 f_equal. apply set_eq. intros i. rewrite elem_of_filter.
  split; [by intros []|]. intros Hi. split; [by apply H|done].
Qed.

Lemma upto_popcount F w v n :
  (n <= 32)%nat -> (∀ b, 0 <= b < 32 -> Z.testbit v b = bool_decide (32 * w + b ∈ F)) ->
  popcount n v = upto F (32 * w + Z.of_nat n) - upto F (32 * w).
Proof.
  intros Hn Hb. induction n as [|n IH].
  - rewrite Z.add_0_r. cbn [popcount]. lia.
  - cbn [popcount]. rewrite IH, Hb by lia.
    replace (32 * w + Z.of_nat (S n)) with (32 * w + Z.of_nat n + 1) by lia. rewrite upto_succ. lia.
Qed.

Lemma upto_gap F w : 0 <= w -> (∀ i, i ∈ F -> 0 <= i) -> ¬ holds F w -> upto F (32 * w + 32) = upto F (32 * w).
Proof.
  intros Hw Hp Hn. apply upto_ext. intros i Hi. destruct (split_index i (Hp i Hi)) as (E & ? & ?).
  assert (i / 32 ≠ w) by (intros Ei; apply Hn; by exists i). lia.
Qed.

Lemma upto_le F t : (∀ i, i ∈ F -> 0 <= i) -> 0 <= upto F t <= Z.of_nat (size F).
Proof. intros H. unfold upto. split; [lia|]. apply inj_le, subseteq_size. set_solver. Qed.

Lemma audit_word_spec m N F k V n :
  mwrep m N F -> 0 <= k < wmaps m -> rd (wd_bitmap m) k = Some V -> (n <= 32)%nat ->
  audit_word n m k V (upto F (32 * (32 * k + (32 - Z.of_nat n)))) = Some (upto F (32 * (32 * k + 32))).
Proof.
  intros H Hk HV. destruct (mw_wd _ _ _ H k Hk) as (V0 & HV0 & HWord & HB). simplify_eq.
  assert (∀ i, i ∈ F -> 0 <= i) as Hpos by (intros i Hi; by apply (mw_sub _ _ _ H)).
  induction n as [|n IH]; intros Hn; cbn [audit_word].
  - replace (32 - Z.of_nat 0) with 32 by lia. done.
  - set (b := BCM_MWBMAP_BITS_WORD - Z.of_nat (S n)). change (32 - Z.of_nat (S n)) with b.
    assert (0 <= b < 32) as Hb by (subst b; unfold BCM_MWBMAP_BITS_WORD; lia).
    rewrite land_bit, mulop_spec by lia. set (w := 32 * k + b).
    replace (32 - Z.of_nat n) with (b + 1) in IH by (subst b; unfold BCM_MWBMAP_BITS_WORD; lia).
    replace (32 * (32 * k + (b + 1))) with (32 * w + 32) in IH by (subst w; lia).
    pose proof (upto_le F (32 * w + 32) Hpos). pose proof (mw_size _ _ _ H).
    destruct (Z.testbit V b) eqn:E.
    + apply HB in E as Hh; [|done]. destruct Hh as (i & Hi & Ei). fold w in Ei.
      pose proof (mw_sub _ _ _ H i Hi). pose proof (mw_imaps _ _ _ H).
      destruct (split_index i) as (Es & ? & ?); [lia|].
      destruct (mw_id _ _ _ H w) as (v & Hv & Hwv & Hc & Hbits); [lia|].
      assert (popcount 32 v ≠ 0) as Hnz.
      { rewrite popcount_word_0 by done. rewrite (mw_word_zero m N F w v H) by (done || lia).
        intros Hno. apply Hno. by exists i. }
      pose proof (popcount_range 32 v). rewrite Hc, Hv. cbn [mbind option_bind].
      rewrite ASSERT_true by (rewrite bcm_cntsetbits_spec, u32_small; lia).
      rewrite ASSERT_true by (rewrite u32_small; lia).
      rewrite (upto_popcount F w v 32) by done. change (Z.of_nat 32) with 32. rewrite Zplus_minus, u32_small by lia. apply IH. lia.
    + cbn [mbind option_bind]. rewrite <-upto_gap; [apply IH; lia|subst w; lia|done|].
      intros Hh. apply not_true_iff_false in E. apply E. by apply HB.
Qed.

Lemma audit_loop_spec m N F n k :
  mwrep m N F -> 0 <= k -> k + Z.of_nat n = wmaps m ->
  audit_loop n m k (upto F (32 * (32 * k))) = Some (Z.of_nat (size F)).
Proof.
  intros H. revert k. induction n as [|n IH]; intros k Hk Hn; cbn [audit_loop].
  - f_equal. apply upto_all. intros i Hi. pose proof (mw_sub _ _ _ H i Hi).
    pose proof (mw_imaps _ _ _ H). pose proof (mw_wmaps _ _ _ H). lia.
  - destruct (mw_wd _ _ _ H k) as (V & HV & _ & _); [lia|]. rewrite HV. cbn [mbind option_bind].
    replace (32 * k) with (32 * k + (32 - Z.of_nat 32)) by lia.
    rewrite (audit_word_spec m N F k V 32) by (done || lia). cbn [mbind option_bind].
    replace (32 * k + 32) with (32 * (k + 1)) by lia. apply IH; lia.
Qed.

Lemma bcm_mwbmap_audit_spec m N F : mwrep m N F -> bcm_mwbmap_audit m = Some false.
Proof.
  intros H. unfold bcm_mwbmap_audit. pose proof (mw_wmaps _ _ _ H). pose proof (mw_imaps _ _ _ H).
  pose proof (mw_N _ _ _ H). pose proof (mw_size _ _ _ H).
  assert (upto F (32 * (32 * 0)) = 0) as E.
  { unfold upto. assert (filter (fun i => i < 32 * (32 * 0)) F = ∅) as Ef; [|by rewrite Ef].
    apply set_eq. intros i. rewrite elem_of_filter. split; [|set_solver].
    intros [Hi1 Hi2]. pose proof (mw_sub _ _ _ H i Hi2). lia. }
  rewrite <-E at 2. rewrite (audit_loop_spec m N F) by (done || lia). cbn [mbind option_bind].
  rewrite (mw_ifree _ _ _ H), ASSERT_true by (rewrite s32_small; lia).
  rewrite u32_small, bool_decide_false by (done || lia || intros []; done). done.
Qed.
