(* ===== verification/MwbmapTheorems.v ===== *)
(** * bcmutils.c: the multiword bitmap allocator, its properties *)

From S2P Require Import Prelude Bits Mwbmap MwbmapSpec.

(** ** The allocator as a set of free ids *)

Inductive mwop :=
  | MwAlloc
  | MwForce (i : Z)
  | MwFree (i : Z)
  | MwIsFree (i : Z)
  | MwFreeCnt
  | MwAudit.

Inductive mwres :=
  | MwId (i : Z)
  | MwDone
  | MwBool (b : bool)
  | MwCount (n : Z).

Definition mw_exec (o : mwop) (m : bcm_mwbmap) : option (mwres * bcm_mwbmap) :=
  match o with
  | MwAlloc => '(i, m) ← bcm_mwbmap_alloc m; Some (MwId i, m)
  | MwForce i => m ← bcm_mwbmap_force m i; Some (MwDone, m)
  | MwFree i => m ← bcm_mwbmap_free m i; Some (MwDone, m)
  | MwIsFree i => b ← bcm_mwbmap_isfree m i; Some (MwBool b, m)
  | MwFreeCnt => n ← bcm_mwbmap_free_cnt m; Some (MwCount n, m)
  | MwAudit => b ← bcm_mwbmap_audit m; Some (MwBool b, m)
  end.

(** The smallest free id below [N]. *)
Definition least (N : Z) (F : gset Z) : option Z :=
  list.head (filter (fun i => i ∈ F) (seqZ 0 N)).

Definition mw_spec (N : Z) (o : mwop) (F : gset Z) : mwres * gset Z :=
  match o with
  | MwAlloc => match least N F with
               | Some i => (MwId i, F ∖ {[i]})
               | None => (MwId BCM_MWBMAP_INVALID_IDX, F)
               end
  | MwForce i => (MwDone, F ∖ {[i]})
  | MwFree i => (MwDone, {[i]} ∪ F)
  | MwIsFree i => (MwBool (bool_decide (i ∈ F)), F)
  | MwFreeCnt => (MwCount (Z.of_nat (size F)), F)
  | MwAudit => (MwBool false, F)
  end.

(** What the callers owe: a forced id is free, a freed one is in use (no double
    free), and ids are in range. *)
Definition mw_enabled (N : Z) (o : mwop) (F : gset Z) : bool :=
  match o with
  | MwForce i => bool_decide (i ∈ F)
  | MwFree i => bool_decide (0 <= i < N) && negb (bool_decide (i ∈ F))
  | MwIsFree i => bool_decide (0 <= i < N)
  | MwAlloc | MwFreeCnt | MwAudit => true
  end.

Fixpoint mw_exec_all (os : list mwop) (m : bcm_mwbmap) : option (list mwres * bcm_mwbmap) :=
  match os with
  | [] => Some ([], m)
  | o :: os => '(r, m) ← mw_exec o m; '(rs, m) ← mw_exec_all os m; Some (r :: rs, m)
  end.

Fixpoint mw_spec_all (N : Z) (os : list mwop) (F : gset Z) : list mwres * gset Z :=
  match os with
  | [] => ([], F)
  | o :: os => let '(r, F) := mw_spec N o F in let '(rs, F) := mw_spec_all N os F in (r :: rs, F)
  end.

Fixpoint mw_enabled_all (N : Z) (os : list mwop) (F : gset Z) : bool :=
  match os with
  | [] => true
  | o :: os => mw_enabled N o F && mw_enabled_all N os (snd (mw_spec N o F))
  end.

(** ** Refinement *)

Lemma least_Some N F i :
  i ∈ F -> 0 <= i < N -> (∀ j, j ∈ F -> i <= j) -> least N F = Some i.
Proof.
  intros Hi HiN Hmin. unfold least.
  replace (seqZ 0 N) with (seqZ 0 i ++ i :: seqZ (i + 1) (N - i - 1)).
  - rewrite filter_app. assert (filter (fun j => j ∈ F) (seqZ 0 i) = []) as ->.
    + assert (∀ j, j ∉ filter (fun j => j ∈ F) (seqZ 0 i)) as Hn.
      { intros j [Hj1 Hj2%elem_of_seqZ]%list_elem_of_filter. specialize (Hmin j Hj1). lia. }
      destruct (filter _ _) as [|j l]; [done|]. destruct (Hn j). left.
    + simpl. by rewrite filter_cons_True.
  - replace N with (i + (N - i)) at 2 by lia. rewrite seqZ_app, (seqZ_cons (0 + i) (N - i)) by lia.
    rewrite Z.add_0_l. do 2 f_equal.
Qed.

Lemma least_empty N : least N ∅ = None.
Proof.
  unfold least. destruct (filter _ (seqZ 0 N)) as [|j l] eqn:E; [done|].
  assert (j ∈ j :: l) as Hj by left. rewrite <-E in Hj. apply list_elem_of_filter in Hj as [Hj _].
  set_solver.
Qed.

Lemma mw_exec_step N o m F :
  mwrep m N F -> N < 65536 -> mw_enabled N o F = true ->
  ∃ m', mw_exec o m = Some (fst (mw_spec N o F), m') ∧ mwrep m' N (snd (mw_spec N o F)).
Proof.
  intros H HN He. destruct o as [|i|i|i| |]; cbn [mw_exec mw_spec mw_enabled] in *.
  - destruct (bcm_mwbmap_alloc_spec m N F H) as [[-> ->]|(i & m' & -> & Hi & Hmin & Hrep & _)].
    + rewrite least_empty. by exists m.
    + rewrite (least_Some N F i) by (done || by apply (mw_sub _ _ _ H)). by exists m'.
  - apply bool_decide_eq_true in He.
    destruct (bcm_mwbmap_force_spec m N F i H HN He) as (m' & -> & Hrep & _). by exists m'.
  - apply andb_true_iff in He as [Hi%bool_decide_eq_true Hn%negb_true_iff%bool_decide_eq_false].
    destruct (bcm_mwbmap_free_spec m N F i H HN Hi Hn) as (m' & -> & Hrep & _). by exists m'.
  - apply bool_decide_eq_true in He. rewrite (bcm_mwbmap_isfree_spec m N F i) by done. by exists m.
  - rewrite (bcm_mwbmap_free_cnt_spec m N F) by done. by exists m.
  - rewrite (bcm_mwbmap_audit_spec m N F) by done. by exists m.
Qed.

Lemma mw_exec_all_step N os : N < 65536 -> ∀ m F,
  mwrep m N F -> mw_enabled_all N os F = true ->
  ∃ m', mw_exec_all os m = Some (fst (mw_spec_all N os F), m') ∧ mwrep m' N (snd (mw_spec_all N os F)).
Proof.
  intros HN. induction os as [|o os IH]; intros m F H He; simpl in *; [by exists m|].
  apply andb_true_iff in He as [Ho He]. destruct (mw_exec_step N o m F H HN Ho) as (m1 & -> & H1).
  destruct (mw_spec N o F) as [r F1]. simpl in *. destruct (IH _ _ H1 He) as (m2 & -> & H2).
  destruct (mw_spec_all N os F1) as [rs F2]. simpl in *. by exists m2.
Qed.

(** C26.  From bcm_mwbmap_init for less than 64K ids (at 64K the 16-bit total is 0
    and the range assertions fail), every sequence of allocations, frees, forced
    allocations, queries and audits that frees only ids in use, forces only free
    ones and asks about ids in range stays inside the three arrays, makes no
    assertion of the source fail (those on the range, on the bitmaps, on the free
    count and those of the audit), returns what a set of free ids returns (an
    allocation takes the smallest free id, or BCM_MWBMAP_INVALID_IDX when there
    is none), never makes the audit complain, and keeps the two bitmap levels,
    the 8-bit counts per word and the free count consistent. *)
Theorem mwbmap_run_refines (N : Z) (os : list mwop) :
  0 <= N < 65536 -> mw_enabled_all N os (ids N) = true ->
  ∃ m m', bcm_mwbmap_init true N = Some (Some m)
    ∧ mw_exec_all os m = Some (fst (mw_spec_all N os (ids N)), m')
    ∧ mwrep m' N (snd (mw_spec_all N os (ids N))).
Proof.
  intros HN He. destruct (bcm_mwbmap_init_spec N ltac:(lia)) as (m & Hm & Hrep & _).
  destruct (mw_exec_all_step N os ltac:(lia) m _ Hrep He) as (m' & E & Hrep'). by exists m, m'.
Qed.

Definition demo_mwops : list mwop :=
  [MwAlloc; MwAlloc; MwForce 33; MwFree 0; MwFreeCnt; MwAlloc; MwIsFree 33; MwFree 33; MwIsFree 33;
   MwAudit] ++ replicate 38 MwAlloc.

Lemma mwbmap_run_refines_witness :
  ∃ m m', bcm_mwbmap_init true 40 = Some (Some m)
    ∧ take 11 (fst (mw_spec_all 40 demo_mwops (ids 40)))
      = [MwId 0; MwId 1; MwDone; MwDone; MwCount 38; MwId 0; MwBool false; MwDone; MwBool true;
         MwBool false; MwId 2]
    ∧ mw_exec_all (demo_mwops ++ [MwAlloc]) m
      = Some (fst (mw_spec_all 40 (demo_mwops ++ [MwAlloc]) (ids 40)), m')
    ∧ last (fst (mw_spec_all 40 (demo_mwops ++ [MwAlloc]) (ids 40))) = Some (MwId BCM_MWBMAP_INVALID_IDX).
Proof.
  destruct (mwbmap_run_refines 40 (demo_mwops ++ [MwAlloc])) as (m & m' & Hm & He & _);
    [lia|vm_compute; reflexivity|].
  exists m, m'. split; [exact Hm|]. split; [vm_compute; reflexivity|]. split; [exact He|].
  vm_compute. reflexivity.
Defined.

(** bcm_mwbmap_alloc returns the smallest free id and takes just that one,
    so two allocations without a free in between never return the same id; it
    returns BCM_MWBMAP_INVALID_IDX exactly when no id is free, and then changes
    nothing. *)
Lemma bcm_mwbmap_alloc_least (m : bcm_mwbmap) (N : Z) (F : gset Z) :
  mwrep m N F ->
  ∃ i m', bcm_mwbmap_alloc m = Some (i, m')
    ∧ (i = BCM_MWBMAP_INVALID_IDX <-> F = ∅)
    ∧ (F = ∅ -> m' = m)
    ∧ (F ≠ ∅ -> i ∈ F ∧ 0 <= i < N ∧ (∀ j, j ∈ F -> i <= j) ∧ mwrep m' N (F ∖ {[i]})
         ∧ ∃ j m'', bcm_mwbmap_alloc m' = Some (j, m'') ∧ i < j).
Proof.
  intros H. destruct (bcm_mwbmap_alloc_spec m N F H) as [[HF E]|(i & m' & E & Hi & Hmin & Hrep & _)].
  - exists BCM_MWBMAP_INVALID_IDX, m. by split_and!.
  - exists i, m'. pose proof (mw_sub _ _ _ H i Hi) as HiN. pose proof (mw_N _ _ _ H).
    split; [done|]. split; [|split; [set_solver|]].
    { split; [|set_solver]. unfold BCM_MWBMAP_INVALID_IDX. lia. }
    intros _. split_and!; [done|lia|lia|done|done|].
    destruct (bcm_mwbmap_alloc_spec m' N _ Hrep) as [[_ E']|(j & m'' & E' & Hj & _)].
    + exists BCM_MWBMAP_INVALID_IDX, m'. split; [done|]. unfold BCM_MWBMAP_INVALID_IDX. lia.
    + exists j, m''. split; [done|]. apply elem_of_difference in Hj as [Hj Hne].
      specialize (Hmin j Hj). assert (j ≠ i) by set_solver. lia.
Qed.

Lemma bcm_mwbmap_alloc_least_witness :
  ∃ m i m', bcm_mwbmap_init true 70 = Some (Some m) ∧ bcm_mwbmap_alloc m = Some (i, m') ∧ i = 0.
Proof.
  destruct (bcm_mwbmap_init_spec 70 ltac:(lia)) as (m & Hm & Hrep & _).
  destruct (bcm_mwbmap_alloc_least m 70 (ids 70) Hrep) as (i & m' & E & _ & _ & Hi).
  assert (0 ∈ ids 70) as H0 by (by apply elem_of_ids).
  destruct (Hi ltac:(set_solver)) as (_ & HiN & Hmin & _). specialize (Hmin 0 H0).
  exists m, i, m'. split; [exact Hm|]. split; [exact E|lia].
Defined.

(** bcm_mwbmap_init makes exactly the ids below [items_max] free, up to the
    full 64K; its 16-bit total is [items_max] except at 64K, where it is 0 and the
    assertion [bitix < total] fails for every id. *)
Theorem bcm_mwbmap_init_bounds (N : Z) :
  0 <= N <= BCM_MWBMAP_ITEMS_MAX ->
  bcm_mwbmap_init false N = Some None
  ∧ ∃ m, bcm_mwbmap_init true N = Some (Some m) ∧ bcm_mwbmap_free_cnt m = Some N
      ∧ (∀ i, 0 <= i < N -> bcm_mwbmap_isfree m i = if bool_decide (N = BCM_MWBMAP_ITEMS_MAX) then None else Some true)
      ∧ bcm_mwbmap_audit m = Some false
      ∧ total m = (if bool_decide (N = BCM_MWBMAP_ITEMS_MAX) then 0 else N).
Proof.
  change BCM_MWBMAP_ITEMS_MAX with 65536. intros HN. split; [apply bcm_mwbmap_init_fail; lia|].
  destruct (bcm_mwbmap_init_spec N HN) as (m & Hm & Hrep & Ht). exists m. split; [done|].
  rewrite (bcm_mwbmap_free_cnt_spec m N _ Hrep), size_ids by lia. split; [done|]. split.
  - intros i Hi. case_bool_decide.
    + unfold bcm_mwbmap_isfree. rewrite ASSERT_false; [done|]. rewrite Ht. subst N. change (65536 mod 65536) with 0. lia.
    + rewrite (bcm_mwbmap_isfree_spec m N _ i Hrep) by lia. f_equal. by apply bool_decide_eq_true, elem_of_ids.
  - split; [by eapply bcm_mwbmap_audit_spec|]. rewrite Ht. case_bool_decide; [by subst|].
    rewrite Z.mod_small; lia.
Qed.

Lemma bcm_mwbmap_init_bounds_witness :
  ∃ m, bcm_mwbmap_init true 65536 = Some (Some m) ∧ bcm_mwbmap_free_cnt m = Some 65536
    ∧ bcm_mwbmap_isfree m 65535 = None ∧ total m = 0.
Proof.
  destruct (bcm_mwbmap_init_bounds 65536) as (_ & m & Hm & Hc & Hf & _ & Ht).
  - unfold BCM_MWBMAP_ITEMS_MAX. lia.
  - exists m. split; [exact Hm|]. split; [exact Hc|]. split; [apply Hf; lia|exact Ht].
Defined.
