(* ===== verification/Id16.v ===== *)
(** * bcmutils.c: the 16-bit id allocator (model)

    A stack of available ids.  BCM_DBG is not defined, so the avail[] map of
    BCM_DBG_ID16 and its checks do not exist, and the audit checks by ASSERT
    only.  [None] is an access outside the stack. *)

From S2P Require Import Prelude.

Definition ID16_INVALID : Z := 65535.
Definition ID16_UNDEFINED : Z := ID16_INVALID.

Record id16_map := mk_id16 {
  failures : Z;      (* uint32 *)
  total : Z;         (* uint16 *)
  start : Z;         (* uint16 *)
  stack_idx : Z;     (* int *)
  stack : list Z     (* uint16, as many as were allocated *)
}.

Definition rd16 (a : list Z) (i : Z) : option Z :=
  if bool_decide (0 <= i) then a !! Z.to_nat i else None.
Definition wr16 (a : list Z) (i x : Z) : option (list Z) :=
  _ ← rd16 a i; Some (<[Z.to_nat i := x]> a).

(** [for (idx = 0; idx < total_ids; idx++, val16++) { stack_idx = idx;
     stack[stack_idx] = val16; }] with [n] iterations left. *)
Fixpoint populate (n : nat) (stack_idx idx val16 : Z) (stack : list Z) : option (Z * list Z) :=
  match n with
  | O => Some (stack_idx, stack)
  | S n => stack ← wr16 stack idx val16;
           populate n idx (u16 (idx + 1)) (u16 (val16 + 1)) stack
  end.

(** The assignments that id16_map_init and id16_map_clear share. *)
Definition id16_fill (stack : list Z) (total_ids start_val16 : Z) : option id16_map :=
  '(stack_idx, stack) ← (if bool_decide (start_val16 ≠ ID16_UNDEFINED)
                         then populate (Z.to_nat total_ids) (-1) 0 start_val16 stack
                         else Some (-1, stack));
  Some (mk_id16 0 total_ids start_val16 stack_idx stack).

(** [alloc]: whether MALLOCZ, which zeroes the memory, succeeds. *)
Definition id16_map_init (alloc : bool) (total_ids start_val16 : Z) : option (option id16_map) :=
  if alloc then
    m ← id16_fill (replicate (Z.to_nat total_ids) 0) total_ids start_val16; Some (Some m)
  else Some None.

(** Returns NULL; the memory is gone. *)
Definition id16_map_fini (hndl : option id16_map) : option id16_map := None.

Definition id16_map_clear (hndl : option id16_map) (total_ids start_val16 : Z)
    : option (option id16_map) :=
  match hndl with
  | None => Some None
  | Some m => m ← id16_fill (stack m) total_ids start_val16; Some (Some m)
  end.

Definition id16_map_alloc (m : id16_map) : option (Z * id16_map) :=
  if bool_decide (stack_idx m < 0) then
    Some (ID16_INVALID, mk_id16 (u32 (failures m + 1)) (total m) (start m) (stack_idx m) (stack m))
  else
    val16 ← rd16 (stack m) (stack_idx m);
    Some (val16, mk_id16 (failures m) (total m) (start m) (s32 (stack_idx m - 1)) (stack m)).

Definition id16_map_free (m : id16_map) (val16 : Z) : option id16_map :=
  let idx := s32 (stack_idx m + 1) in
  st ← wr16 (stack m) idx val16;
  Some (mk_id16 (failures m) (total m) (start m) idx st).

Definition id16_map_failures (m : id16_map) : Z := failures m.

(** [insane] is never set in this build. *)
Definition id16_map_audit (m : id16_map) : bool := false.
