(* ===== verification/Id16Theorems.v ===== *)
(** * bcmutils.c: the 16-bit id allocator, its properties *)

From S2P Require Import Prelude Id16.

(** ** The allocator as a stack of available ids *)

(** [avail] is the stack, top first; [out] the ids handed out. *)
Record idst := mk_idst { avail : list Z; out : gset Z; fails : Z }.

Inductive idop := IdAlloc | IdFree (v : Z) | IdFailures.

Definition id_exec (o : idop) (m : id16_map) : option (Z * id16_map) :=
  match o with
  | IdAlloc => id16_map_alloc m
  | IdFree v => m ← id16_map_free m v; Some (0, m)
  | IdFailures => Some (id16_map_failures m, m)
  end.

Definition id_spec (o : idop) (s : idst) : Z * idst :=
  match o with
  | IdAlloc => match avail s with
               | v :: l => (v, mk_idst l ({[v]} ∪ out s) (fails s))
               | [] => (ID16_INVALID, mk_idst [] (out s) (u32 (fails s + 1)))
               end
  | IdFree v => (0, mk_idst (v :: avail s) (out s ∖ {[v]}) (fails s))
  | IdFailures => (fails s, s)
  end.

(** Only ids that are handed out are given back. *)
Definition id_enabled (o : idop) (s : idst) : bool :=
  match o with IdFree v => bool_decide (v ∈ out s) | _ => true end.

Fixpoint id_exec_all (os : list idop) (m : id16_map) : option (list Z * id16_map) :=
  match os with
  | [] => Some ([], m)
  | o :: os => '(r, m) ← id_exec o m; '(rs, m) ← id_exec_all os m; Some (r :: rs, m)
  end.
Fixpoint id_spec_all (os : list idop) (s : idst) : list Z * idst :=
  match os with
  | [] => ([], s)
  | o :: os => let '(r, s) := id_spec o s in let '(rs, s) := id_spec_all os s in (r :: rs, s)
  end.
Fixpoint id_enabled_all (os : list idop) (s : idst) : bool :=
  match os with
  | [] => true
  | o :: os => id_enabled o s && id_enabled_all os (snd (id_spec o s))
  end.

(** Every id of the map is either on the stack or handed out, and is there
    once. *)
Record idrep (m : id16_map) (s : idst) : Prop := {
  id_idx : stack_idx m = Z.of_nat (length (avail s)) - 1;
  id_total : 0 <= total m < 65535 ∧ start m + total m < ID16_INVALID;
  id_len : Z.of_nat (length (stack m)) = total m;
  id_stack : take (length (avail s)) (stack m) = reverse (avail s);
  id_part : ∀ v, v ∈ avail s ∨ v ∈ out s <-> start m <= v < start m + total m;
  id_disj : ∀ v, v ∈ avail s -> v ∉ out s;
  id_nodup : NoDup (avail s);
  id_fails : failures m = fails s
}.

Lemma rd16_lookup a i : rd16 a (Z.of_nat i) = a !! i.
Proof. unfold rd16. rewrite bool_decide_true by lia. by rewrite Nat2Z.id. Qed.

Lemma wr16_insert a i x : (i < length a)%nat -> wr16 a (Z.of_nat i) x = Some (<[i := x]> a).
Proof.
  intros Hi. unfold wr16. rewrite rd16_lookup, Nat2Z.id.
  by destruct (lookup_lt_is_Some_2 a i Hi) as [y ->].
Qed.

(** The ids on the stack and those handed out fit in the stack. *)
Lemma id_room m s v : idrep m s -> v ∈ out s -> (length (avail s) < length (stack m))%nat.
Proof.
  intros [Hi Ht Hl Hs Hp Hd Hn _] Hv. apply Nat2Z.inj_lt. rewrite Hl.
  apply (NoDup_seqZ_room (avail s) v (start m)); [done| |apply Hp; by right|intros x Hx; apply Hp; by left].
  intros Ha. by apply (Hd v).
Qed.

Ltac idcbn := cbn [fst snd failures total start stack_idx stack avail out fails length].

Lemma id_exec_step o m s :
  idrep m s -> id_enabled o s = true ->
  ∃ m', id_exec o m = Some (fst (id_spec o s), m') ∧ idrep m' (snd (id_spec o s)).
Proof.
  intros H He. pose proof H as [Hi Ht Hl Hs Hp Hd Hn Hf].
  destruct o as [|v|]; cbn [id_exec id_spec id_enabled] in *.
  - unfold id16_map_alloc. destruct (avail s) as [|v l] eqn:E.
    + simpl in Hi. rewrite bool_decide_true by lia. eexists. split; [done|].
      split; simpl; try done. by rewrite Hf.
    + rewrite bool_decide_false by (simpl in Hi; lia).
      assert (stack_idx m = Z.of_nat (length l)) as Ei by (simpl in Hi; lia).
      apply take_stack_pop in Hs as [Hy Hs].
      rewrite Ei, rd16_lookup, Hy. cbn [mbind option_bind]. eexists. split; [done|].
      apply NoDup_cons in Hn as [Hv Hn]. split; idcbn; try done.
      * rewrite s32_small by (pose proof (lookup_lt_Some _ _ _ Hy); lia). lia.
      * intros x. rewrite elem_of_union, elem_of_singleton, <-Hp, elem_of_cons. tauto.
      * intros x Hx. rewrite elem_of_union, elem_of_singleton. intros [->|Ho]; [done|].
        apply (Hd x); [by right|done].
  - apply bool_decide_eq_true in He. pose proof (id_room m s v H He) as Hlt.
    unfold id16_map_free. rewrite Hi, s32_small by lia.
    replace (Z.of_nat (length (avail s)) - 1 + 1) with (Z.of_nat (length (avail s))) by lia.
    rewrite wr16_insert by done. cbn [mbind option_bind]. eexists. split; [done|]. split; idcbn; try done.
    + lia.
    + by rewrite length_insert.
    + by apply take_stack_push.
    + intros x. rewrite <-Hp, elem_of_cons, elem_of_difference, elem_of_singleton.
      destruct (decide (x = v)); naive_solver.
    + intros x [->|Hx]%elem_of_cons; [set_solver|]. intros [Ho _]%elem_of_difference. by apply (Hd x).
    + apply NoDup_cons. split; [|done]. intros Ha. by apply (Hd v).
  - exists m. split; [|done]. unfold id16_map_failures. by rewrite Hf.
Qed.

Lemma id_exec_all_step os : ∀ m s,
  idrep m s -> id_enabled_all os s = true ->
  ∃ m', id_exec_all os m = Some (fst (id_spec_all os s), m') ∧ idrep m' (snd (id_spec_all os s)).
Proof.
  induction os as [|o os IH]; intros m s H He; simpl in *; [by exists m|].
  apply andb_true_iff in He as [Ho He]. destruct (id_exec_step o m s H Ho) as (m1 & -> & H1).
  destruct (id_spec o s) as [r s1]. simpl in *. destruct (IH _ _ H1 He) as (m2 & -> & H2).
  destruct (id_spec_all os s1) as [rs s2]. simpl in *. by exists m2.
Qed.

(** The operations write into the stack and never change its size. *)
Lemma id_exec_all_length os : ∀ m m' rs,
  id_exec_all os m = Some (rs, m') -> length (stack m) = length (stack m').
Proof.
  assert (∀ o m r m', id_exec o m = Some (r, m') -> length (stack m) = length (stack m')) as Hstep.
  { intros [|v|] m r m'; cbn [id_exec].
    - unfold id16_map_alloc. case_bool_decide; [by intros [= _ <-]|].
      destruct (rd16 _ _); [|done]. by intros [= _ <-].
    - unfold id16_map_free, wr16. destruct (rd16 _ _); [|done]. intros [= _ <-].
      cbn. by rewrite length_insert.
    - by intros [= _ <-]. }
  induction os as [|o os IH]; intros m m' rs; simpl; [by intros [= _ <-]|].
  destruct (id_exec o m) as [[r m1]|] eqn:E; [|done]. simpl.
  destruct (id_exec_all os m1) as [[rs' m2]|] eqn:E2; [|done]. simpl. intros [= _ <-].
  rewrite (Hstep _ _ _ _ E). by eapply IH.
Qed.

(** ** Initialisation *)

Lemma populate_spec n : ∀ sidx idx val st,
  0 <= idx -> 0 <= val -> idx + Z.of_nat n < 65536 -> val + Z.of_nat n < 65536 ->
  (Z.to_nat idx + n <= length st)%nat ->
  populate n sidx idx val st
  = Some (if bool_decide (n = O) then sidx else idx + Z.of_nat n - 1,
          take (Z.to_nat idx) st ++ seqZ val (Z.of_nat n) ++ drop (Z.to_nat idx + n) st).
Proof.
  induction n as [|n IH]; intros sidx idx val st Hi Hv Hin Hvn Hl; cbn [populate].
  - rewrite bool_decide_true by done. simpl. rewrite Nat.add_0_r. by rewrite take_drop.
  - rewrite <-(Z2Nat.id idx) at 1 by done. rewrite wr16_insert by lia. cbn [mbind option_bind].
    rewrite !u16_small by lia. rewrite IH by (rewrite ?length_insert; lia).
    rewrite (bool_decide_false (S n = O)) by done. f_equal. f_equal; [case_bool_decide; lia|].
    replace (Z.to_nat (idx + 1)) with (S (Z.to_nat idx)) by lia. by apply seqZ_fill_step; lia.
Qed.

Lemma id16_fill_spec st n v :
  0 <= v -> 0 <= n < 65535 -> v + n < ID16_INVALID -> Z.of_nat (length st) = n ->
  ∃ m, id16_fill st n v = Some m ∧ idrep m (mk_idst (reverse (seqZ v n)) ∅ 0).
Proof.
  intros Hv Hn Hvn Hl. unfold id16_fill, ID16_UNDEFINED, ID16_INVALID in *.
  rewrite bool_decide_true by lia. rewrite populate_spec by lia. cbn [mbind option_bind].
  eexists. split; [done|]. rewrite take_0, Z2Nat.id by lia.
  rewrite drop_ge by lia. cbn [app]. rewrite app_nil_r.
  split; idcbn; rewrite ?length_reverse, ?length_seqZ, ?reverse_involutive; try done.
  - case_bool_decide; lia.
  - lia.
  - rewrite take_ge; [done|]. rewrite length_seqZ. lia.
  - intros x. rewrite elem_of_reverse, elem_of_seqZ. split; [|by left].
    intros [Hx|Hx]; [done|]. by apply elem_of_empty in Hx.
  - rewrite reverse_Permutation. apply NoDup_seqZ.
Qed.

(** C27.  From id16_map_init (and again after id16_map_clear with the same
    size), every sequence of allocations and frees of handed-out ids stays
    inside the stack and returns what a LIFO stack of ids returns; an id is never
    handed out twice, ids stay in [start, start + total), and an allocation on
    the empty stack returns ID16_INVALID and is counted. *)
Theorem id16_run_refines (n v : Z) (os : list idop) :
  0 <= v -> 0 <= n < 65535 -> v + n < ID16_INVALID ->
  let s := mk_idst (reverse (seqZ v n)) ∅ 0 in
  id_enabled_all os s = true ->
  ∃ m m', id16_map_init true n v = Some (Some m)
    ∧ id_exec_all os m = Some (fst (id_spec_all os s), m')
    ∧ idrep m' (snd (id_spec_all os s))
    ∧ ∃ mc, id16_map_clear (Some m') n v = Some (Some mc) ∧ idrep mc s.
Proof.
  intros Hv Hn Hvn s He.
  destruct (id16_fill_spec (replicate (Z.to_nat n) 0) n v) as (m & Hm & Hrep);
    [done..|rewrite length_replicate; lia|].
  destruct (id_exec_all_step os m s Hrep He) as (m' & E & Hrep').
  exists m, m'. unfold id16_map_init, id16_map_clear. rewrite Hm. cbn [mbind option_bind].
  split_and!; [done..|].
  assert (total m = n ∧ length (stack m) = length (stack m')) as [Ht Hlen].
  { split.
    - unfold id16_fill in Hm. destruct (if bool_decide _ then _ else _) as [[i st]|]; [|done].
      simpl in Hm. by injection Hm as <-.
    - pose proof (id_exec_all_length os m m' _ E). done. }
  destruct (id16_fill_spec (stack m') n v) as (mc & -> & Hc); [done..| |by exists mc].
  rewrite <-Hlen, (id_len _ _ Hrep). done.
Qed.

Lemma id16_run_refines_witness :
  ∃ m m', id16_map_init true 3 100 = Some (Some m)
    ∧ id_exec_all [IdAlloc; IdAlloc; IdFree 102; IdAlloc; IdAlloc; IdAlloc; IdFailures] m
      = Some ([102; 101; 0; 102; 100; ID16_INVALID; 1], m').
Proof.
  destruct (id16_run_refines 3 100 [IdAlloc; IdAlloc; IdFree 102; IdAlloc; IdAlloc; IdAlloc; IdFailures])
    as (m & m' & Hm & E & _); [lia|lia|unfold ID16_INVALID; lia|vm_compute; reflexivity|].
  exists m, m'. split; [exact Hm|]. rewrite E. vm_compute. reflexivity.
Defined.

(** * The interface of an id allocator

    What the tables that name their entries by ids rely on; the 16-bit allocator
    of bcmutils.c provides it. *)

(** [allocates t lo n out]: [t] hands out the [n] ids from [lo] on, and those of
    [out] are handed out. *)
Class IdAllocator {T : Type} (alloc : T -> option (Z * T)) (free : T -> Z -> option T)
    (allocates : T -> Z -> Z -> gset Z -> Prop) := {
  allocates_range t lo n out v : allocates t lo n out -> v ∈ out -> lo <= v < lo + n;
  allocates_valid t lo n out : allocates t lo n out -> lo + n < ID16_INVALID;
  alloc_law t lo n out :
    allocates t lo n out ->
    ∃ v t', alloc t = Some (v, t')
      ∧ (v = ID16_INVALID ∧ (∀ x, lo <= x < lo + n -> x ∈ out) ∧ allocates t' lo n out
         ∨ lo <= v < lo + n ∧ v ∉ out ∧ allocates t' lo n ({[v]} ∪ out));
  free_law t lo n out v :
    allocates t lo n out -> v ∈ out -> ∃ t', free t v = Some t' ∧ allocates t' lo n (out ∖ {[v]})
}.

Definition id16_allocates (m : id16_map) (lo n : Z) (o : gset Z) : Prop :=
  ∃ s, idrep m s ∧ start m = lo ∧ total m = n ∧ out s = o.

Lemma id_exec_limits o m r m' : id_exec o m = Some (r, m') -> start m' = start m ∧ total m' = total m.
Proof.
  destruct o as [|v|]; cbn [id_exec].
  - unfold id16_map_alloc. case_bool_decide; [by intros [= _ <-]|].
    destruct (rd16 _ _); [|done]. by intros [= _ <-].
  - unfold id16_map_free. destruct (wr16 _ _ _); [|done]. by intros [= _ <-].
  - by intros [= _ <-].
Qed.

#[export] Instance id16_allocator : IdAllocator id16_map_alloc id16_map_free id16_allocates.
Proof.
  split.
  - intros t lo n o v (s & H & <- & <- & <-) Hv. apply (id_part _ _ H). by right.
  - intros t lo n o (s & H & <- & <- & <-). apply (id_total _ _ H).
  - intros t lo n o (s & H & <- & <- & <-).
    destruct (id_exec_step IdAlloc t s H eq_refl) as (t' & He & H'). pose proof (id_exec_limits _ _ _ _ He) as [E1 E2].
    cbn [id_exec id_spec] in *. destruct (avail s) as [|v l] eqn:E; cbn [fst snd] in *.
    + exists ID16_INVALID, t'. split; [done|]. left. split; [done|]. split.
      * intros x Hx. apply (id_part _ _ H) in Hx as [Hx|Hx]; [|done]. rewrite E in Hx. by apply elem_of_nil in Hx.
      * by exists (mk_idst [] (out s) (u32 (fails s + 1))).
    + exists v, t'. split; [done|]. right. split; [|split].
      * apply (id_part _ _ H). left. rewrite E. left.
      * apply (id_disj _ _ H). rewrite E. left.
      * by exists (mk_idst l ({[v]} ∪ out s) (fails s)).
  - intros t lo n o v (s & H & <- & <- & <-) Hv.
    destruct (id_exec_step (IdFree v) t s H) as (t' & He & H'); [by apply bool_decide_eq_true_2|].
    pose proof (id_exec_limits _ _ _ _ He) as [E1 E2]. cbn [id_exec id_spec] in *.
    destruct (id16_map_free t v) as [t1|]; [|done]. cbn in He. injection He as <-.
    exists t1. split; [done|]. by exists (mk_idst (v :: avail s) (out s ∖ {[v]}) (fails s)).
Qed.

(** A map that was just initialised has handed out nothing. *)
Lemma id16_map_init_allocates n lo :
  0 <= lo -> 0 <= n < 65535 -> lo + n < ID16_INVALID ->
  ∃ m, id16_map_init true n lo = Some (Some m) ∧ id16_allocates m lo n ∅.
Proof.
  intros Hlo Hn Hs. unfold id16_map_init.
  destruct (id16_fill_spec (replicate (Z.to_nat n) 0) n lo) as (m & Hm & H);
    [done..|rewrite length_replicate; lia|].
  rewrite Hm. cbn [mbind option_bind]. exists m. split; [done|].
  exists (mk_idst (reverse (seqZ lo n)) ∅ 0). split; [done|].
  unfold id16_fill in Hm. destruct (if bool_decide _ then _ else _) as [[i st]|]; [|done].
  cbn in Hm. by injection Hm as <-.
Qed.
