(* ===== verification/PktidMap.v ===== *)
(** * dhd_msgbuf.c: the packet id map (model)

    A map from 32-bit packet ids to native packets and their DMA data, in the
    DHD_PCIE_PKTID branch the file compiles.  DHD_PKTID_AUDIT_ENABLED,
    DHD_MAP_PKTID_LOGGING, IOCTLRESP_USE_CONSTMEM and DMAMAP_STATS are not
    defined; OEM_ANDROID is.  The error branches are those of a build with
    DHD_FW_COREDUMP, which the Makefile only defines in some configurations;
    without it they do nothing else, as here with [memdump_enabled] 0.  The lock
    macros protect the map and are not modelled.  [None] is an access outside an array or a read of
    uninitialised memory. *)

From S2P Require Import Prelude.

Inductive dhd_pkttype :=
  | PKTTYPE_DATA_TX | PKTTYPE_DATA_RX | PKTTYPE_IOCTL_RX | PKTTYPE_EVENT_RX
  | PKTTYPE_INFO_RX | PKTTYPE_NO_CHECK | PKTTYPE_TSBUF_RX.

Inductive dhd_locker_state := LOCKER_IS_FREE | LOCKER_IS_BUSY | LOCKER_IS_RSVD.

#[export] Instance dhd_pkttype_eq_dec : EqDecision dhd_pkttype.
Proof. solve_decision. Defined.
#[export] Instance dhd_locker_state_eq_dec : EqDecision dhd_locker_state.
Proof. solve_decision. Defined.

Definition DHD_PKTID_INVALID : Z := 0.
Definition DHD_PKTID_FREE_LOCKER : bool := false.
Definition DHD_PKTID_RSV_LOCKER : bool := true.
Definition DHD_INDUCE_PKTID_INVALID_SAVE : Z := 10.
Definition DHD_INDUCE_PKTID_INVALID_FREE : Z := 11.
Definition DUMP_TYPE_PKTID_INVALID : Z := 6.
Definition HANG_REASON_PCIE_PKTID_ERROR : Z := 32778.
Definition DMA_RX : Z := 2.

(** Native packets are opaque pointers, [None] is NULL; bus addresses and DMA
    handles are opaque values. *)
Abbreviation pkt_ptr := (option positive).

Record dhd_pktid_item := mk_item {
  state : dhd_locker_state;
  dir : Z;                (* uint8 *)
  pkttype : dhd_pkttype;
  len : Z;                (* uint16 *)
  pkt : pkt_ptr;
  pa : Z;
  dmah : Z;
  secdma : Z
}.

Record dhd_pktid_map := mk_map {
  items : Z;              (* uint32 *)
  avail : Z;              (* uint32 *)
  failures : Z;           (* int *)
  keys : list Z;          (* uint32 [items + 1] *)
  lockers : list dhd_pktid_item (* [items + 1] *)
}.

(** ** What the map does to the rest of the driver

    The calls that leave the map, in order: buffers unmapped, packets freed,
    core dumps and hang messages requested. *)
Inductive dhd_call :=
  | DMA_UNMAP (pa len dir dmah : Z)
  | PKTFREE (p : positive) (send : bool)
  | PKTFREE_CTRLBUF (p : positive) (send : bool)
  | DHD_BUS_MEM_DUMP
  | DHD_OS_SEND_HANG_MESSAGE.

Record dhd_pub := mk_pub {
  dhd_induce_error : Z;   (* uint16 *)
  memdump_enabled : Z;
  pktid_invalid_occured : bool;
  memdump_type : Z;
  hang_reason : Z;
  active_tx_count : Z;    (* prot->active_tx_count, an atomic int *)
  calls : list dhd_call
}.

Definition call (c : dhd_call) (d : dhd_pub) : dhd_pub :=
  mk_pub (dhd_induce_error d) (memdump_enabled d) (pktid_invalid_occured d) (memdump_type d)
    (hang_reason d) (active_tx_count d) (calls d ++ [c]).

Definition active_tx_dec (d : dhd_pub) : dhd_pub :=
  mk_pub (dhd_induce_error d) (memdump_enabled d) (pktid_invalid_occured d) (memdump_type d)
    (hang_reason d) (s32 (active_tx_count d - 1)) (calls d).

(** The error branches: collect a core dump and report a hang. *)
Definition pktid_error (d : dhd_pub) : dhd_pub :=
  if bool_decide (memdump_enabled d ≠ 0) then
    let d := mk_pub (dhd_induce_error d) (memdump_enabled d) true DUMP_TYPE_PKTID_INVALID
               (hang_reason d) (active_tx_count d) (calls d) in
    let d := call DHD_BUS_MEM_DUMP d in
    let d := mk_pub (dhd_induce_error d) (memdump_enabled d) (pktid_invalid_occured d)
               (memdump_type d) HANG_REASON_PCIE_PKTID_ERROR (active_tx_count d) (calls d) in
    call DHD_OS_SEND_HANG_MESSAGE d
  else d.

Definition dhd_prot_packet_free (d : dhd_pub) (p : pkt_ptr) (ty : dhd_pkttype) (send : bool) : dhd_pub :=
  match p with
  | Some p =>
      match ty with
      | PKTTYPE_IOCTL_RX | PKTTYPE_EVENT_RX | PKTTYPE_INFO_RX | PKTTYPE_TSBUF_RX =>
          call (PKTFREE_CTRLBUF p send) d
      | _ => call (PKTFREE p send) d
      end
  | None => d
  end.

(** ** Arrays *)

Definition rd {A} (a : list A) (i : Z) : option A :=
  if bool_decide (0 <= i) then a !! Z.to_nat i else None.
Definition wr {A} (a : list A) (i : Z) (x : A) : option (list A) :=
  _ ← rd a i; Some (<[Z.to_nat i := x]> a).

(** ** Construction *)

Definition clear_item (st : dhd_locker_state) (l : dhd_pktid_item) : dhd_pktid_item :=
  mk_item st (dir l) (pkttype l) 0 None (pa l) (dmah l) (secdma l).

(** [for (nkey = 1; nkey <= map_items; nkey++)], with [n] iterations left. *)
Fixpoint init_loop (n : nat) (nkey : Z) (ks : list Z) (ls : list dhd_pktid_item)
    : option (list Z * list dhd_pktid_item) :=
  match n with
  | O => Some (ks, ls)
  | S n =>
      ks ← wr ks nkey nkey;
      l ← rd ls nkey;
      ls ← wr ls nkey (clear_item LOCKER_IS_FREE l);
      init_loop n (u32 (nkey + 1)) ks ls
  end.

(** The memory VMALLOC returns is not zeroed: [vm] is the counter and the
    lockers found there, [vk] the keys, [None] when the allocation fails;
    [lock] tells whether the lock is created.  When it is not, the error path
    reads [map->keys], which nobody has written. *)
Definition dhd_pktid_map_init (vm : option (Z * list dhd_pktid_item)) (lock : bool)
    (vk : option (list Z)) (num_items : Z) : option (option dhd_pktid_map) :=
  match vm with
  | None => Some None
  | Some (failures0, ls) =>
      if negb lock then None
      else match vk with
           | None => Some None
           | Some ks =>
               '(ks, ls) ← init_loop (Z.to_nat num_items) 1 ks ls;
               l ← rd ls DHD_PKTID_INVALID;
               ls ← wr ls DHD_PKTID_INVALID (clear_item LOCKER_IS_BUSY l);
               Some (Some (mk_map num_items num_items failures0 ks ls))
           end
  end.

(** ** Reset and destruction *)

(** The all-zero locker of memset. *)
Definition zero_item : dhd_pktid_item := mk_item LOCKER_IS_FREE 0 PKTTYPE_DATA_TX 0 None 0 0 0.

(** The body for a busy locker, whose state is set to LOCKER_IS_FREE first. *)
Definition reset_locker (l : dhd_pktid_item) (d : dhd_pub) : dhd_pub :=
  let data_tx := bool_decide (pkttype l = PKTTYPE_DATA_TX) in
  let d := if data_tx then active_tx_dec d else d in
  let d := call (DMA_UNMAP (pa l) (len l) (dir l) (dmah l)) d in
  dhd_prot_packet_free d (pkt l) (pkttype l) data_tx.

Fixpoint reset_loop (n : nat) (nkey : Z) (d : dhd_pub) (ks : list Z) (ls : list dhd_pktid_item)
    : option (dhd_pub * list Z) :=
  match n with
  | O => Some (d, ks)
  | S n =>
      l ← rd ls nkey;
      let d := if bool_decide (state l = LOCKER_IS_BUSY) then reset_locker l d else d in
      ks ← wr ks nkey nkey;
      reset_loop n (u32 (nkey + 1)) d ks ls
  end.

(** [memset(&map->lockers[1], 0, sizeof(dhd_pktid_item_t) * map_items)] *)
Definition zero_lockers (n : nat) (ls : list dhd_pktid_item) : option (list dhd_pktid_item) :=
  if bool_decide (S n <= length ls)%nat then
    Some (take 1 ls ++ replicate n zero_item ++ drop (S n) ls)
  else None.

Definition dhd_pktid_map_reset (d : dhd_pub) (handle : option dhd_pktid_map)
    : option (dhd_pub * option dhd_pktid_map) :=
  match handle with
  | None => Some (d, None)
  | Some map =>
      let n := Z.to_nat (items map) in
      '(d, ks) ← reset_loop n 1 d (keys map) (lockers map);
      ls ← zero_lockers n (lockers map);
      Some (d, Some (mk_map (items map) (items map) (failures map) ks ls))
  end.

(** The map itself is freed. *)
Definition dhd_pktid_map_fini (d : dhd_pub) (handle : option dhd_pktid_map) : option dhd_pub :=
  match handle with
  | None => Some d
  | Some map => '(d, _) ← dhd_pktid_map_reset d (Some map); Some d
  end.

(** ** Operations *)

Definition dhd_pktid_map_avail_cnt (map : dhd_pktid_map) : Z := avail map.

Definition reserve_fails (map : dhd_pktid_map) : dhd_pktid_map :=
  mk_map (items map) (avail map) (s32 (failures map + 1)) (keys map) (lockers map).

Definition dhd_pktid_map_reserve (map : dhd_pktid_map) (p : pkt_ptr) : option (Z * dhd_pktid_map) :=
  if bool_decide (s32 (avail map) <= 0) then Some (DHD_PKTID_INVALID, reserve_fails map)
  else
    nkey ← rd (keys map) (avail map);
    if bool_decide (avail map > items map) || bool_decide (nkey > items map) then
      Some (DHD_PKTID_INVALID, reserve_fails map)
    else
      l ← rd (lockers map) nkey;
      ls ← wr (lockers map) nkey
             (mk_item LOCKER_IS_BUSY (dir l) (pkttype l) 0 p (pa l) (dmah l) (secdma l));
      Some (nkey, mk_map (items map) (u32 (avail map - 1)) (failures map) (keys map) ls).

Definition dhd_pktid_map_save (d : dhd_pub) (map : dhd_pktid_map) (p : pkt_ptr) (nkey pa' len' dir' dmah' secdma' : Z)
    (ty : dhd_pkttype) : option (dhd_pub * dhd_pktid_map) :=
  if bool_decide (nkey = DHD_PKTID_INVALID) || bool_decide (nkey > items map)
     || bool_decide (dhd_induce_error d = DHD_INDUCE_PKTID_INVALID_SAVE)
  then Some (pktid_error d, map)
  else
    ls ← wr (lockers map) nkey (mk_item LOCKER_IS_BUSY dir' ty (u16 len') p pa' dmah' secdma');
    Some (d, mk_map (items map) (avail map) (failures map) (keys map) ls).

Definition dhd_pktid_map_alloc (d : dhd_pub) (map : dhd_pktid_map) (p : pkt_ptr) (pa' len' dir' dmah' secdma' : Z)
    (ty : dhd_pkttype) : option (Z * dhd_pub * dhd_pktid_map) :=
  '(nkey, map) ← dhd_pktid_map_reserve map p;
  if bool_decide (nkey ≠ DHD_PKTID_INVALID) then
    '(d, map) ← dhd_pktid_map_save d map p nkey pa' len' dir' dmah' secdma' ty;
    Some (nkey, d, map)
  else Some (nkey, d, map).

(** What [*pa], [*len], [*dmah] and [*secdma] are set to, if they are. *)
Abbreviation dma_out := (option (Z * Z * Z * Z)).

Definition dhd_pktid_map_free (d : dhd_pub) (map : dhd_pktid_map) (nkey : Z) (ty : dhd_pkttype) (rsv_locker : bool)
    : option (pkt_ptr * dma_out * dhd_pub * dhd_pktid_map) :=
  if bool_decide (nkey = DHD_PKTID_INVALID) || bool_decide (nkey > items map)
     || bool_decide (dhd_induce_error d = DHD_INDUCE_PKTID_INVALID_FREE)
  then Some (None, None, pktid_error d, map)
  else
    l ← rd (lockers map) nkey;
    if bool_decide (state l = LOCKER_IS_FREE) then Some (None, None, pktid_error d, map)
    else if bool_decide (ty ≠ PKTTYPE_NO_CHECK) && bool_decide (pkttype l ≠ ty) then
      Some (None, None, pktid_error d, map)
    else
      '(av, ks, st) ← (if bool_decide (rsv_locker = DHD_PKTID_FREE_LOCKER) then
                         let av := u32 (avail map + 1) in
                         ks ← wr (keys map) av nkey; Some (av, ks, LOCKER_IS_FREE)
                       else Some (avail map, keys map, LOCKER_IS_RSVD));
      ls ← wr (lockers map) nkey (clear_item st l);
      Some (pkt l, Some (pa l, len l, dmah l, secdma l), d,
            mk_map (items map) av (failures map) ks ls).

(** [map] is [prot->pktid_ctrl_map]. *)
Definition dhd_prot_packet_get (d : dhd_pub) (map : dhd_pktid_map) (pktid : Z) (ty : dhd_pkttype) (free_pktid : bool)
    : option (pkt_ptr * dhd_pub * dhd_pktid_map) :=
  '(p, out, d, map) ← dhd_pktid_map_free d map pktid ty
       (if free_pktid then DHD_PKTID_FREE_LOCKER else DHD_PKTID_RSV_LOCKER);
  match p, out with
  | Some _, Some (pa', len', dmah', _) => Some (p, call (DMA_UNMAP pa' len' DMA_RX dmah') d, map)
  | Some _, None => None
  | None, _ => Some (p, d, map)
  end.
