(* ===== verification/PktidSpec.v ===== *)
(** * The packet id map: its abstract specification and simulation

    Abstractly the map is a stack of free ids and a finite map from the ids in
    use to what their lockers hold. *)

From S2P Require Import Prelude PktidMap.

Record pmap := mk_pmap { pfree : list Z; used : gmap Z dhd_pktid_item; pfails : Z }.

Inductive pop :=
  | PReserve (p : pkt_ptr)
  | PSave (nkey : Z) (p : pkt_ptr) (pa len dir dmah secdma : Z) (ty : dhd_pkttype)
  | PAlloc (p : pkt_ptr) (pa len dir dmah secdma : Z) (ty : dhd_pkttype)
  | PFree (nkey : Z) (ty : dhd_pkttype) (rsv : bool)
  | PGet (nkey : Z) (ty : dhd_pkttype) (free_pktid : bool)
  | PAvail
  | PReset.

Inductive pret := RUnit | RId (k : Z) | RPkt (p : pkt_ptr) (out : dma_out) | RCount (n : Z).

(** One call, on the driver state and the map. *)
Definition pexec (o : pop) (d : dhd_pub) (m : dhd_pktid_map) : option (pret * dhd_pub * dhd_pktid_map) :=
  match o with
  | PReserve p => '(k, m) ← dhd_pktid_map_reserve m p; Some (RId k, d, m)
  | PSave k p pa len dir dmah secdma ty =>
      '(d, m) ← dhd_pktid_map_save d m p k pa len dir dmah secdma ty; Some (RUnit, d, m)
  | PAlloc p pa len dir dmah secdma ty =>
      '(k, d, m) ← dhd_pktid_map_alloc d m p pa len dir dmah secdma ty; Some (RId k, d, m)
  | PFree k ty rsv => '(p, out, d, m) ← dhd_pktid_map_free d m k ty rsv; Some (RPkt p out, d, m)
  | PGet k ty f => '(p, d, m) ← dhd_prot_packet_get d m k ty f; Some (RPkt p None, d, m)
  | PAvail => Some (RCount (dhd_pktid_map_avail_cnt m), d, m)
  | PReset => '(d, h) ← dhd_pktid_map_reset d (Some m); m ← h; Some (RUnit, d, m)
  end.

Fixpoint pexec_all (os : list pop) (d : dhd_pub) (m : dhd_pktid_map)
    : option (list pret * dhd_pub * dhd_pktid_map) :=
  match os with
  | [] => Some ([], d, m)
  | o :: os => '(r, d, m) ← pexec o d m; '(rs, d, m) ← pexec_all os d m; Some (r :: rs, d, m)
  end.

(** ** The specification *)

Definition bad_id (n k : Z) : Prop := k = DHD_PKTID_INVALID ∨ n < k.

Definition saved (p : pkt_ptr) (pa len dir dmah secdma : Z) (ty : dhd_pkttype) : dhd_pktid_item :=
  mk_item LOCKER_IS_BUSY dir ty (len mod 65536) p pa dmah secdma.

(** A locker that is reserved holds the packet; its DMA data are not set. *)
Definition reserved (p : pkt_ptr) (it : dhd_pktid_item) : Prop :=
  state it = LOCKER_IS_BUSY ∧ pkt it = p ∧ len it = 0.

(** The buffer of a busy locker is unmapped and its packet freed; a reserved
    locker without a packet is left alone. *)
Definition release (u : gmap Z dhd_pktid_item) (d : dhd_pub) (k : Z) : dhd_pub :=
  match u !! k with
  | Some it => if bool_decide (state it = LOCKER_IS_BUSY) then reset_locker it d else d
  | None => d
  end.

Definition unmapped (p : pkt_ptr) (out : dma_out) (d : dhd_pub) : dhd_pub :=
  match p, out with
  | Some _, Some (pa, len, dmah, _) => call (DMA_UNMAP pa len DMA_RX dmah) d
  | _, _ => d
  end.

Definition type_ok (ty : dhd_pkttype) (it : dhd_pktid_item) : Prop :=
  ty = PKTTYPE_NO_CHECK ∨ pkttype it = ty.

Inductive pstep (n : Z) : pop -> dhd_pub -> pmap -> pret -> dhd_pub -> pmap -> Prop :=
  | reserve_step d k l u f p it : reserved p it ->
      pstep n (PReserve p) d (mk_pmap (k :: l) u f) (RId k) d (mk_pmap l (<[k := it]> u) f)
  | reserve_empty d u f p :
      pstep n (PReserve p) d (mk_pmap [] u f) (RId DHD_PKTID_INVALID) d (mk_pmap [] u (s32 (f + 1)))
  | save_step d k l u f p pa len dir dmah secdma ty :
      is_Some (u !! k) -> dhd_induce_error d ≠ DHD_INDUCE_PKTID_INVALID_SAVE ->
      pstep n (PSave k p pa len dir dmah secdma ty) d (mk_pmap l u f)
        RUnit d (mk_pmap l (<[k := saved p pa len dir dmah secdma ty]> u) f)
  | save_error d k s p pa len dir dmah secdma ty :
      bad_id n k ∨ dhd_induce_error d = DHD_INDUCE_PKTID_INVALID_SAVE ->
      pstep n (PSave k p pa len dir dmah secdma ty) d s RUnit (pktid_error d) s
  | alloc_step d k l u f p pa len dir dmah secdma ty :
      dhd_induce_error d ≠ DHD_INDUCE_PKTID_INVALID_SAVE ->
      pstep n (PAlloc p pa len dir dmah secdma ty) d (mk_pmap (k :: l) u f)
        (RId k) d (mk_pmap l (<[k := saved p pa len dir dmah secdma ty]> u) f)
  | alloc_induced d k l u f p pa len dir dmah secdma ty it :
      dhd_induce_error d = DHD_INDUCE_PKTID_INVALID_SAVE -> reserved p it ->
      pstep n (PAlloc p pa len dir dmah secdma ty) d (mk_pmap (k :: l) u f)
        (RId k) (pktid_error d) (mk_pmap l (<[k := it]> u) f)
  | alloc_empty d u f p pa len dir dmah secdma ty :
      pstep n (PAlloc p pa len dir dmah secdma ty) d (mk_pmap [] u f)
        (RId DHD_PKTID_INVALID) d (mk_pmap [] u (s32 (f + 1)))
  | free_step d k l u f it ty :
      u !! k = Some it -> type_ok ty it -> dhd_induce_error d ≠ DHD_INDUCE_PKTID_INVALID_FREE ->
      pstep n (PFree k ty DHD_PKTID_FREE_LOCKER) d (mk_pmap l u f)
        (RPkt (pkt it) (Some (pa it, len it, dmah it, secdma it))) d
        (mk_pmap (k :: l) (delete k u) f)
  | free_reserve d k l u f it ty :
      u !! k = Some it -> type_ok ty it -> dhd_induce_error d ≠ DHD_INDUCE_PKTID_INVALID_FREE ->
      pstep n (PFree k ty DHD_PKTID_RSV_LOCKER) d (mk_pmap l u f)
        (RPkt (pkt it) (Some (pa it, len it, dmah it, secdma it))) d
        (mk_pmap l (<[k := clear_item LOCKER_IS_RSVD it]> u) f)
  | free_error d k s ty rsv :
      bad_id n k ∨ dhd_induce_error d = DHD_INDUCE_PKTID_INVALID_FREE
      ∨ used s !! k = None ∨ (∃ it, used s !! k = Some it ∧ ¬ type_ok ty it) ->
      pstep n (PFree k ty rsv) d s (RPkt None None) (pktid_error d) s
  | get_step d s k ty f p out d' s' :
      pstep n (PFree k ty (negb f)) d s (RPkt p out) d' s' ->
      pstep n (PGet k ty f) d s (RPkt p None) (unmapped p out d') s'
  | avail_step d s :
      pstep n PAvail d s (RCount (Z.of_nat (length (pfree s)))) d s
  | reset_step d s :
      pstep n PReset d s RUnit (foldl (release (used s)) d (seqZ 1 n))
        (mk_pmap (reverse (seqZ 1 n)) ∅ (pfails s)).

Inductive prun (n : Z) : list pop -> dhd_pub -> pmap -> list pret -> dhd_pub -> pmap -> Prop :=
  | prun_nil d s : prun n [] d s [] d s
  | prun_cons o os d s r d1 s1 rs d2 s2 :
      pstep n o d s r d1 s1 -> prun n os d1 s1 rs d2 s2 -> prun n (o :: os) d s (r :: rs) d2 s2.

(** Saving into a valid id that is not in use: the misuse the ASSERT of
    dhd_pktid_map_save names. *)
Definition misuse (n : Z) (o : pop) (s : pmap) : Prop :=
  match o with
  | PSave k _ _ _ _ _ _ _ => ¬ bad_id n k ∧ used s !! k = None
  | _ => False
  end.

(** Some call of the run misuses the map in the state it is made in. *)
Definition misused (n : Z) (os : list pop) (d : dhd_pub) (s : pmap) : Prop :=
  ∃ os1 o os2 rs d1 s1, os = os1 ++ o :: os2 ∧ prun n os1 d s rs d1 s1 ∧ misuse n o s1.

(** ** The representation

    Every id of [1, items] is either on the stack, once, with a free locker, or
    in use, with the locker it is mapped to. *)
Record prep (m : dhd_pktid_map) (s : pmap) : Prop := {
  pr_items : 0 <= items m < 2147483648;
  pr_avail : avail m = Z.of_nat (length (pfree s));
  pr_keys : ∃ k0 ks, keys m = k0 :: ks ∧ Z.of_nat (length ks) = items m
              ∧ take (length (pfree s)) ks = reverse (pfree s);
  pr_lockers : Z.of_nat (length (lockers m)) = items m + 1;
  pr_ids : ∀ k, k ∈ pfree s ∨ is_Some (used s !! k) <-> 1 <= k <= items m;
  pr_disj : ∀ k, k ∈ pfree s -> used s !! k = None;
  pr_nodup : NoDup (pfree s);
  pr_used : ∀ k it, used s !! k = Some it -> lockers m !! Z.to_nat k = Some it ∧ state it ≠ LOCKER_IS_FREE;
  pr_free : ∀ k, k ∈ pfree s -> ∃ it, lockers m !! Z.to_nat k = Some it ∧ state it = LOCKER_IS_FREE;
  pr_fails : failures m = pfails s
}.

Lemma rd_to_nat {A} (a : list A) k : 0 <= k -> rd a k = a !! Z.to_nat k.
Proof. intros H. unfold rd. by rewrite bool_decide_true. Qed.

Lemma wr_to_nat {A} (a : list A) k x : 0 <= k < Z.of_nat (length a) -> wr a k x = Some (<[Z.to_nat k := x]> a).
Proof.
  intros H. unfold wr. rewrite rd_to_nat by lia.
  by destruct (lookup_lt_is_Some_2 a (Z.to_nat k)) as [y ->]; [lia|].
Qed.

Lemma bad_id_false n k : ¬ bad_id n k ->
  bool_decide (k = DHD_PKTID_INVALID) || bool_decide (k > n) = false.
Proof. intros H. unfold bad_id in H. rewrite !bool_decide_false by lia. done. Qed.

Lemma bad_id_true n k : bad_id n k ->
  bool_decide (k = DHD_PKTID_INVALID) || bool_decide (k > n) = true.
Proof.
  intros [->|H]; [by rewrite bool_decide_true|].
  rewrite (bool_decide_true (k > n)) by lia. apply orb_true_r.
Qed.

#[export] Instance bad_id_dec n k : Decision (bad_id n k).
Proof. unfold bad_id. apply _. Defined.
#[export] Instance type_ok_dec ty it : Decision (type_ok ty it).
Proof. unfold type_ok. apply _. Defined.

Lemma type_ok_bool ty it :
  bool_decide (ty ≠ PKTTYPE_NO_CHECK) && bool_decide (pkttype it ≠ ty) = negb (bool_decide (type_ok ty it)).
Proof.
  apply eq_bool_prop_intro. rewrite andb_True, negb_True, !bool_decide_spec. unfold type_ok.
  destruct (decide (ty = PKTTYPE_NO_CHECK)), (decide (pkttype it = ty)); tauto.
Qed.

Section rep.
Context (m : dhd_pktid_map) (s : pmap) (H : prep m s).

Lemma prep_not_bad k : 1 <= k <= items m -> ¬ bad_id (items m) k.
Proof. unfold bad_id, DHD_PKTID_INVALID. lia. Qed.

Lemma prep_bad k : 0 <= k -> used s !! k = None -> k ∉ pfree s -> bad_id (items m) k.
Proof.
  intros Hk Hu Hf. unfold bad_id, DHD_PKTID_INVALID. destruct (decide (1 <= k <= items m)) as [Hr|]; [|lia].
  apply (pr_ids _ _ H) in Hr as [Hr|[it Hr]]; congruence.
Qed.

(** The keys at the top of the stack. *)
Lemma prep_top k l : pfree s = k :: l ->
  rd (keys m) (avail m) = Some k
  ∧ ∃ k0 ks, keys m = k0 :: ks ∧ Z.of_nat (length ks) = items m ∧ take (length l) ks = reverse l.
Proof.
  intros E. destruct (pr_keys _ _ H) as (k0 & ks & -> & Hl & Ht). rewrite E in Ht.
  apply take_stack_pop in Ht as [Hk Ht]. split; [|by exists k0, ks].
  rewrite (pr_avail _ _ H), E, rd_to_nat by lia. cbn [length].
  by rewrite Nat2Z.id.
Qed.

Lemma prep_locker k : 1 <= k <= items m -> ∃ it, lockers m !! Z.to_nat k = Some it.
Proof.
  intros Hk. apply lookup_lt_is_Some. pose proof (pr_lockers _ _ H). lia.
Qed.

Lemma prep_used_range k it : used s !! k = Some it -> 1 <= k <= items m.
Proof. intros E. apply (pr_ids _ _ H). right. by eexists. Qed.

Lemma prep_room k : is_Some (used s !! k) -> Z.of_nat (length (pfree s)) < items m.
Proof.
  intros [it E]. apply (NoDup_seqZ_room (pfree s) k 1).
  - apply (pr_nodup _ _ H).
  - intros Hin. apply (pr_disj _ _ H) in Hin. congruence.
  - pose proof (prep_used_range k it E). lia.
  - intros x Hx. pose proof (proj1 (pr_ids _ _ H x) (or_introl Hx)). lia.
Qed.

Lemma prep_avail_range : 0 <= avail m <= items m.
Proof.
  rewrite (pr_avail _ _ H). destruct (pfree s) as [|k l] eqn:E; simpl; [pose proof (pr_items _ _ H); lia|].
  destruct (prep_top k l E) as [_ (k0 & ks & Hk & Hl & Ht)].
  destruct (pr_keys _ _ H) as (k0' & ks' & Hk' & Hl' & Ht'). rewrite E in Ht'.
  pose proof (f_equal length Ht') as HL. rewrite length_take, length_reverse in HL. cbn [length] in HL. lia.
Qed.
End rep.

(** ** Preservation by the three ways a locker changes *)

Ltac pmcbn := cbn [items avail failures keys lockers pfree used pfails length].

Lemma prep_update m s k it :
  prep m s -> is_Some (used s !! k) -> state it ≠ LOCKER_IS_FREE ->
  prep (mk_map (items m) (avail m) (failures m) (keys m) (<[Z.to_nat k := it]> (lockers m)))
       (mk_pmap (pfree s) (<[k := it]> (used s)) (pfails s)).
Proof.
  intros H [it0 Hk] Hst. pose proof (prep_used_range _ _ H _ _ Hk) as Hr. pose proof H as [].
  split; pmcbn; try done.
  - by rewrite length_insert.
  - intros k'. rewrite <-pr_ids0. destruct (decide (k' = k)) as [->|]; [|by rewrite lookup_insert_ne].
    rewrite lookup_insert_eq, Hk. split; intros [|]; eauto.
  - intros k' Hk'. rewrite lookup_insert_ne; [by apply pr_disj0|].
    intros <-. apply pr_disj0 in Hk'. congruence.
  - intros k' it' E. destruct (decide (k' = k)) as [->|].
    + rewrite lookup_insert_eq in E. injection E as <-. split; [|done].
      apply list_lookup_insert_eq. lia.
    + rewrite lookup_insert_ne in E by done. pose proof (prep_used_range _ _ H _ _ E).
      rewrite list_lookup_insert_ne by lia. by apply pr_used0.
  - intros k' Hk'. rewrite list_lookup_insert_ne; [by apply pr_free0|]. intros E.
    pose proof (proj1 (pr_ids0 k') (or_introl Hk')). replace k' with k in Hk' by lia.
    apply pr_disj0 in Hk'. congruence.
Qed.

Lemma prep_take m s k l it :
  prep m s -> pfree s = k :: l -> state it ≠ LOCKER_IS_FREE ->
  prep (mk_map (items m) (avail m - 1) (failures m) (keys m) (<[Z.to_nat k := it]> (lockers m)))
       (mk_pmap l (<[k := it]> (used s)) (pfails s)).
Proof.
  intros H E Hst. destruct (prep_top _ _ H _ _ E) as [_ Hks]. pose proof H as [].
  assert (1 <= k <= items m) as Hr by (apply pr_ids0; left; rewrite E; left).
  rewrite E in pr_nodup0. apply NoDup_cons in pr_nodup0 as [Hkl Hnd].
  split; pmcbn; try done.
  - rewrite pr_avail0, E. cbn [length]. lia.
  - by rewrite length_insert.
  - intros k'. rewrite <-pr_ids0, E, elem_of_cons. destruct (decide (k' = k)) as [->|].
    + rewrite lookup_insert_eq. naive_solver.
    + rewrite lookup_insert_ne by done. naive_solver.
  - intros k' Hk'. rewrite lookup_insert_ne by (by intros ->). apply pr_disj0. rewrite E. by right.
  - intros k' it' E'. destruct (decide (k' = k)) as [->|].
    + rewrite lookup_insert_eq in E'. injection E' as <-. split; [|done].
      apply list_lookup_insert_eq. lia.
    + rewrite lookup_insert_ne in E' by done. pose proof (prep_used_range _ _ H _ _ E').
      rewrite list_lookup_insert_ne by lia. by apply pr_used0.
  - intros k' Hk'. assert (k' ∈ pfree s) as Hin by (rewrite E; by right).
    pose proof (proj1 (pr_ids0 k') (or_introl Hin)).
    rewrite list_lookup_insert_ne; [by apply pr_free0|]. intros En. replace k' with k in Hk' by lia. done.
Qed.

Lemma prep_give m s k it it' :
  prep m s -> used s !! k = Some it -> state it' = LOCKER_IS_FREE ->
  prep (mk_map (items m) (avail m + 1) (failures m) (<[Z.to_nat (avail m + 1) := k]> (keys m))
          (<[Z.to_nat k := it']> (lockers m)))
       (mk_pmap (k :: pfree s) (delete k (used s)) (pfails s)).
Proof.
  intros H Hk Hst. pose proof (prep_used_range _ _ H _ _ Hk) as Hr.
  pose proof (prep_room _ _ H k ltac:(by eexists)) as Hroom. pose proof H as [].
  assert (k ∉ pfree s) as Hnf by (intros Hin; apply pr_disj0 in Hin; congruence).
  split; pmcbn; try done.
  - rewrite pr_avail0. lia.
  - destruct pr_keys0 as (k0 & ks & E & Hl & Ht). rewrite E.
    exists k0, (<[length (pfree s) := k]> ks). rewrite length_insert. split_and!; [|done|].
    + replace (Z.to_nat (avail m + 1)) with (S (length (pfree s))) by lia. done.
    + by apply take_stack_push; [lia|].
  - by rewrite length_insert.
  - intros k'. rewrite <-pr_ids0, elem_of_cons. destruct (decide (k' = k)) as [->|].
    + rewrite Hk. split; intros; eauto.
    + rewrite lookup_delete_ne by done. naive_solver.
  - intros k' [->|Hk']%elem_of_cons; [by rewrite lookup_delete_eq|].
    rewrite lookup_delete_ne by (by intros ->). by apply pr_disj0.
  - by apply NoDup_cons.
  - intros k' it2 E. destruct (decide (k' = k)) as [->|]; [by rewrite lookup_delete_eq in E|].
    rewrite lookup_delete_ne in E by done. pose proof (prep_used_range _ _ H _ _ E).
    rewrite list_lookup_insert_ne by lia. by apply pr_used0.
  - intros k' [->|Hk']%elem_of_cons.
    + exists it'. split; [|done]. apply list_lookup_insert_eq. lia.
    + pose proof (proj1 (pr_ids0 k') (or_introl Hk')).
      rewrite list_lookup_insert_ne; [by apply pr_free0|]. intros En. replace k' with k in Hk' by lia. done.
Qed.

Lemma prep_fails m s : prep m s ->
  prep (reserve_fails m) (mk_pmap (pfree s) (used s) (s32 (pfails s + 1))).
Proof. intros []. unfold reserve_fails. split; pmcbn; try done. by rewrite pr_fails0. Qed.
