(* ===== verification/PktidTheorems.v ===== *)
(** * The packet id map: its properties *)

From S2P Require Import Prelude PktidMap PktidSpec.

(** ** One lemma per operation *)

Lemma reserve_empty_sim m s p :
  prep m s -> pfree s = [] -> dhd_pktid_map_reserve m p = Some (DHD_PKTID_INVALID, reserve_fails m).
Proof.
  intros H E. unfold dhd_pktid_map_reserve. rewrite (pr_avail _ _ H), E. by rewrite bool_decide_true.
Qed.

Lemma reserve_sim m s p k l :
  prep m s -> pfree s = k :: l ->
  ∃ it m', dhd_pktid_map_reserve m p = Some (k, m') ∧ reserved p it ∧ items m' = items m
    ∧ prep m' (mk_pmap l (<[k := it]> (used s)) (pfails s)).
Proof.
  intros H E. pose proof H as Hp. destruct Hp as [Hi Ha _ _ Hids _ _ _ _ _].
  pose proof (prep_avail_range _ _ H) as Har. destruct (prep_top _ _ H _ _ E) as [Hrd _].
  assert (1 <= k <= items m) as Hk by (apply Hids; left; rewrite E; left).
  unfold dhd_pktid_map_reserve. rewrite Hrd. cbn [mbind option_bind].
  assert (1 <= avail m) by (rewrite Ha, E; cbn [length]; lia).
  rewrite s32_small, !bool_decide_false by lia. cbn [orb].
  destruct (prep_locker _ _ H k Hk) as [it0 Hit]. rewrite rd_to_nat, Hit by lia. cbn [mbind option_bind].
  rewrite wr_to_nat by (rewrite (pr_lockers _ _ H); lia). cbn [mbind option_bind].
  rewrite u32_small by lia.
  exists (mk_item LOCKER_IS_BUSY (dir it0) (pkttype it0) 0 p (pa it0) (dmah it0) (secdma it0)).
  eexists. do 3 (split; [done|]).
  by apply prep_take.
Qed.

Lemma save_error_sim d m s p k a b c e f ty :
  prep m s -> bad_id (items m) k ∨ dhd_induce_error d = DHD_INDUCE_PKTID_INVALID_SAVE ->
  dhd_pktid_map_save d m p k a b c e f ty = Some (pktid_error d, m).
Proof.
  intros H [Hb|Hb]; unfold dhd_pktid_map_save; [by rewrite bad_id_true|].
  by rewrite Hb, (bool_decide_true (_ = DHD_INDUCE_PKTID_INVALID_SAVE)), orb_true_r by done.
Qed.

Lemma save_sim d m s p k pa len dir dmah secdma ty :
  prep m s -> is_Some (used s !! k) -> dhd_induce_error d ≠ DHD_INDUCE_PKTID_INVALID_SAVE ->
  ∃ m', dhd_pktid_map_save d m p k pa len dir dmah secdma ty = Some (d, m') ∧ items m' = items m
    ∧ prep m' (mk_pmap (pfree s) (<[k := saved p pa len dir dmah secdma ty]> (used s)) (pfails s)).
Proof.
  intros H Hu Hd. pose proof Hu as [it0 Hit]. pose proof (prep_used_range _ _ H _ _ Hit) as Hk.
  unfold dhd_pktid_map_save.
  rewrite bad_id_false, bool_decide_false by (try apply prep_not_bad; done). cbn [orb].
  rewrite wr_to_nat by (rewrite (pr_lockers _ _ H); lia). cbn [mbind option_bind].
  eexists. split; [done|]. split; [done|]. by apply prep_update.
Qed.

Lemma free_error_sim d m s k ty rsv :
  prep m s -> 0 <= k ->
  bad_id (items m) k ∨ dhd_induce_error d = DHD_INDUCE_PKTID_INVALID_FREE
  ∨ used s !! k = None ∨ (∃ it, used s !! k = Some it ∧ ¬ type_ok ty it) ->
  dhd_pktid_map_free d m k ty rsv = Some (None, None, pktid_error d, m).
Proof.
  intros H Hk0 He. unfold dhd_pktid_map_free.
  destruct (decide (bad_id (items m) k)) as [Hb|Hb]; [by rewrite bad_id_true|].
  rewrite bad_id_false by done. destruct He as [He|He]; [done|].
  case_bool_decide; [done|]. destruct He as [He|He]; [done|]. cbn [orb].
  destruct (used s !! k) as [it|] eqn:E.
  - destruct (pr_used _ _ H _ _ E) as [Hl Hst]. rewrite rd_to_nat, Hl by done. cbn [mbind option_bind].
    rewrite bool_decide_false, type_ok_bool by done.
    destruct He as [He|(it' & [= <-] & He)]; [done|]. by rewrite bool_decide_false.
  - destruct (decide (k ∈ pfree s)) as [Hin|Hin]; [|by destruct (Hb (prep_bad _ _ H k Hk0 E Hin))].
    destruct (pr_free _ _ H _ Hin) as (it & Hl & Hst). rewrite rd_to_nat, Hl by done. cbn [mbind option_bind].
    by rewrite bool_decide_true.
Qed.

Lemma free_sim d m s k it ty rsv :
  prep m s -> used s !! k = Some it -> type_ok ty it ->
  dhd_induce_error d ≠ DHD_INDUCE_PKTID_INVALID_FREE ->
  ∃ m', dhd_pktid_map_free d m k ty rsv
        = Some (pkt it, Some (pa it, len it, dmah it, secdma it), d, m') ∧ items m' = items m
    ∧ prep m' (if rsv then mk_pmap (pfree s) (<[k := clear_item LOCKER_IS_RSVD it]> (used s)) (pfails s)
               else mk_pmap (k :: pfree s) (delete k (used s)) (pfails s)).
Proof.
  intros H E Hty Hd. pose proof (prep_used_range _ _ H _ _ E) as Hk.
  pose proof (prep_room _ _ H k ltac:(by eexists)) as Hroom.
  destruct (pr_used _ _ H _ _ E) as [Hl Hst]. pose proof (pr_items _ _ H). pose proof (pr_avail _ _ H).
  unfold dhd_pktid_map_free.
  rewrite bad_id_false, bool_decide_false by (try apply prep_not_bad; done). cbn [orb].
  rewrite rd_to_nat, Hl by lia. cbn [mbind option_bind].
  rewrite bool_decide_false, type_ok_bool, bool_decide_true by done. cbn [negb].
  assert (Z.of_nat (length (keys m)) = items m + 1) as Hkl
    by (destruct (pr_keys _ _ H) as (k0 & ks & -> & Hks & _); cbn [length]; lia).
  destruct rsv.
  - rewrite bool_decide_false by done. cbn [mbind option_bind].
    rewrite wr_to_nat by (rewrite (pr_lockers _ _ H); lia). cbn [mbind option_bind].
    eexists. split; [done|]. split; [done|]. by apply prep_update.
  - rewrite bool_decide_true, u32_small, wr_to_nat by (try done; lia). cbn [mbind option_bind].
    rewrite wr_to_nat by (rewrite (pr_lockers _ _ H); lia). cbn [mbind option_bind].
    eexists. split; [done|]. split; [done|]. by eapply prep_give.
Qed.

(** ** Initialisation and reset *)

Lemma prep_fresh n f k0 ls :
  0 <= n < 2147483648 -> Z.of_nat (length ls) = n + 1 ->
  (∀ k, 1 <= k <= n -> ∃ it, ls !! Z.to_nat k = Some it ∧ state it = LOCKER_IS_FREE) ->
  prep (mk_map n n f (k0 :: seqZ 1 n) ls) (mk_pmap (reverse (seqZ 1 n)) ∅ f).
Proof.
  intros Hn Hl Hls. split; pmcbn; rewrite ?length_reverse, ?length_seqZ; try done.
  - lia.
  - exists k0, (seqZ 1 n). rewrite length_seqZ, reverse_involutive, take_ge by (rewrite length_seqZ; lia).
    split_and!; [done|lia|done].
  - intros k. rewrite elem_of_reverse, elem_of_seqZ, lookup_empty. split; [intros [|[? [=]]]; lia|left; lia].
  - rewrite reverse_Permutation. apply NoDup_seqZ.
  - intros k. rewrite elem_of_reverse, elem_of_seqZ. intros Hk. apply Hls. lia.
Qed.

Lemma init_loop_spec n : ∀ nkey ks ls,
  1 <= nkey -> nkey + Z.of_nat n <= Z.of_nat (length ks) -> nkey + Z.of_nat n <= Z.of_nat (length ls) ->
  nkey + Z.of_nat n < 4294967296 ->
  ∃ ls', init_loop n nkey ks ls
    = Some (take (Z.to_nat nkey) ks ++ seqZ nkey (Z.of_nat n) ++ drop (Z.to_nat nkey + n) ks, ls')
    ∧ length ls' = length ls
    ∧ (∀ k, 0 <= k < nkey -> ls' !! Z.to_nat k = ls !! Z.to_nat k)
    ∧ ∀ k, nkey <= k < nkey + Z.of_nat n -> ∃ it, ls' !! Z.to_nat k = Some it ∧ state it = LOCKER_IS_FREE.
Proof.
  induction n as [|n IH]; intros nkey ks ls Hk Hks Hls Hb; cbn [init_loop].
  - exists ls. simpl. rewrite Nat.add_0_r, take_drop. split_and!; [done..|lia].
  - rewrite wr_to_nat by lia. cbn [mbind option_bind]. rewrite rd_to_nat by lia.
    destruct (lookup_lt_is_Some_2 ls (Z.to_nat nkey)) as [it Hit]; [lia|]. rewrite Hit. cbn [mbind option_bind].
    rewrite wr_to_nat by lia. cbn [mbind option_bind]. rewrite u32_small by lia.
    edestruct (IH (nkey + 1)) as (ls' & -> & Hlen & Hlo & Hhi); [| | |lia|]; rewrite ?length_insert; try lia.
    exists ls'. rewrite length_insert in Hlen. split_and!; [|done| |].
    + replace (Z.to_nat (nkey + 1)) with (S (Z.to_nat nkey)) by lia. by rewrite seqZ_fill_step by lia.
    + intros k Hk'. rewrite Hlo, list_lookup_insert_ne by lia. done.
    + intros k Hk'. destruct (decide (k = nkey)) as [->|]; [|apply Hhi; lia].
      rewrite Hlo by lia. eexists. rewrite list_lookup_insert_eq by lia. done.
Qed.

Lemma take1_app {A} (k0 : A) ks l r : take 1 (k0 :: ks) ++ l ++ r = k0 :: l ++ r.
Proof. done. Qed.

Lemma pktid_init_spec n f0 ls ks :
  0 <= n < 2147483648 -> Z.of_nat (length ls) = n + 1 -> Z.of_nat (length ks) = n + 1 ->
  ∃ m, dhd_pktid_map_init (Some (f0, ls)) true (Some ks) n = Some (Some m) ∧ items m = n
    ∧ prep m (mk_pmap (reverse (seqZ 1 n)) ∅ f0).
Proof.
  intros Hn Hls Hks. unfold dhd_pktid_map_init. cbn [negb].
  destruct (init_loop_spec (Z.to_nat n) 1 ks ls) as (ls' & -> & Hlen & _ & Hfree); [lia..|].
  cbn [mbind option_bind]. unfold DHD_PKTID_INVALID. rewrite rd_to_nat by lia.
  destruct (lookup_lt_is_Some_2 ls' (Z.to_nat 0)) as [it Hit]; [lia|]. rewrite Hit. cbn [mbind option_bind].
  rewrite wr_to_nat by lia. cbn [mbind option_bind]. eexists. split; [done|]. split; [done|].
  destruct ks as [|k0 ks]; [simpl in Hks; lia|]. cbn [length] in Hks.
  rewrite take1_app, drop_ge, app_nil_r, Z2Nat.id by (cbn [length]; lia).
  apply prep_fresh; [done|rewrite length_insert; lia|].
  intros k Hk. rewrite list_lookup_insert_ne by lia. apply Hfree. lia.
Qed.

Lemma reset_loop_spec m s n : ∀ nkey d ks,
  prep m s -> 1 <= nkey -> nkey + Z.of_nat n = items m + 1 -> Z.of_nat (length ks) = items m + 1 ->
  reset_loop n nkey d ks (lockers m)
  = Some (foldl (release (used s)) d (seqZ nkey (Z.of_nat n)),
          take (Z.to_nat nkey) ks ++ seqZ nkey (Z.of_nat n) ++ drop (Z.to_nat nkey + n) ks).
Proof.
  induction n as [|n IH]; intros nkey d ks H Hk Hn Hks; cbn [reset_loop].
  - simpl. by rewrite Nat.add_0_r, take_drop.
  - pose proof (pr_items _ _ H). destruct (prep_locker _ _ H nkey ltac:(lia)) as [it Hit].
    rewrite rd_to_nat, Hit by lia. cbn [mbind option_bind].
    rewrite wr_to_nat by lia. cbn [mbind option_bind]. rewrite u32_small by lia.
    rewrite IH by (rewrite ?length_insert; done || lia).
    replace (Z.to_nat (nkey + 1)) with (S (Z.to_nat nkey)) by lia. rewrite seqZ_fill_step by lia.
    do 2 f_equal. rewrite (seqZ_cons nkey) by lia. cbn [foldl]. f_equal; [|f_equal; lia].
    unfold release. destruct (used s !! nkey) as [it'|] eqn:E.
    + destruct (pr_used _ _ H _ _ E) as [E' _]. rewrite E' in Hit. by injection Hit as <-.
    + destruct (decide (nkey ∈ pfree s)) as [Hin|Hin].
      * destruct (pr_free _ _ H _ Hin) as (it' & E' & Hst). rewrite bool_decide_false; [done|].
        rewrite E' in Hit. injection Hit as <-. by rewrite Hst.
      * exfalso. apply (prep_not_bad m nkey); [lia|]. by apply (prep_bad _ _ H); [lia|..].
Qed.

Lemma reset_sim d m s :
  prep m s ->
  ∃ m', dhd_pktid_map_reset d (Some m) = Some (foldl (release (used s)) d (seqZ 1 (items m)), Some m')
    ∧ items m' = items m ∧ prep m' (mk_pmap (reverse (seqZ 1 (items m))) ∅ (pfails s)).
Proof.
  intros H. unfold dhd_pktid_map_reset. pose proof (pr_items _ _ H). pose proof (pr_lockers _ _ H) as Hll.
  destruct (pr_keys _ _ H) as (k0 & ks & Ek & Hks & _). rewrite Ek.
  rewrite (reset_loop_spec m s) by (cbn [length]; done || lia). cbn [mbind option_bind].
  unfold zero_lockers. rewrite bool_decide_true by lia. cbn [mbind option_bind].
  rewrite Z2Nat.id by lia. eexists. split; [done|]. split; [done|].
  rewrite take1_app, drop_ge, app_nil_r, <-(pr_fails _ _ H) by (cbn [length]; lia).
  apply prep_fresh; [done| |].
  - rewrite !length_app, length_take, length_replicate, length_drop. lia.
  - intros k Hk. exists zero_item. split; [|done].
    rewrite lookup_app_r by (rewrite length_take; lia). rewrite length_take.
    rewrite lookup_app_l by (rewrite length_replicate; lia). apply lookup_replicate_2. lia.
Qed.

(** ** Simulation of a call and of a run *)

Definition op_id (o : pop) : Z :=
  match o with PSave k _ _ _ _ _ _ _ | PFree k _ _ | PGet k _ _ => k | _ => 0 end.

Lemma free_call_sim d m s k ty rsv :
  prep m s -> 0 <= k ->
  ∃ p out d' m' s', dhd_pktid_map_free d m k ty rsv = Some (p, out, d', m')
    ∧ pstep (items m) (PFree k ty rsv) d s (RPkt p out) d' s' ∧ items m' = items m ∧ prep m' s'
    ∧ (is_Some p -> is_Some out).
Proof.
  intros H Hk. destruct (decide (dhd_induce_error d = DHD_INDUCE_PKTID_INVALID_FREE)) as [Hd|Hd].
  { eexists _, _, _, _, _. split; [apply (free_error_sim d m s); auto|]. split; [apply free_error; auto|].
    split_and!; [done..|by intros [? [=]]]. }
  destruct (used s !! k) as [it|] eqn:E.
  2:{ eexists _, _, _, _, _. split; [apply (free_error_sim d m s); auto|]. split; [apply free_error; auto|].
      split_and!; [done..|by intros [? [=]]]. }
  destruct (decide (type_ok ty it)) as [Ht|Ht].
  2:{ eexists _, _, _, _, _. split; [apply (free_error_sim d m s); eauto 6|].
      split; [apply free_error; eauto 6|]. split_and!; [done..|by intros [? [=]]]. }
  destruct (free_sim d m s k it ty rsv H E Ht Hd) as (m' & Em & Hi & Hp).
  eexists _, _, _, m', _. split; [exact Em|]. split; [|split_and!; [done|exact Hp|eauto]].
  destruct s as [l u f]. destruct rsv; by econstructor.
Qed.

Lemma pexec_sim o d m s :
  prep m s -> ¬ misuse (items m) o s -> 0 <= op_id o ->
  ∃ r d' m' s', pexec o d m = Some (r, d', m') ∧ pstep (items m) o d s r d' s'
    ∧ items m' = items m ∧ prep m' s'.
Proof.
  intros H Hmis Hid. destruct o as [p|k p a b c e f ty|p a b c e f ty|k ty rsv|k ty fr| |]; cbn [pexec op_id] in *.
  - destruct s as [[|k l] u f].
    + rewrite (reserve_empty_sim m _ p H) by done. eexists _, _, _, _. split; [done|].
      split; [constructor|]. split; [done|]. by apply (prep_fails m _ H).
    + destruct (reserve_sim m _ p k l H) as (it & m' & -> & Hr & Hi & Hp); [done|].
      eexists _, _, _, _. split; [done|]. split; [by econstructor|]. split; [exact Hi|exact Hp].
  - destruct (decide (bad_id (items m) k ∨ dhd_induce_error d = DHD_INDUCE_PKTID_INVALID_SAVE)) as [Hb|Hb].
    + rewrite (save_error_sim d m s) by done. eexists _, _, _, _. split; [done|]. split; [by constructor|done].
    + assert (is_Some (used s !! k)) as Hu.
      { apply not_eq_None_Some. intros Hn. apply Hmis. split; [tauto|done]. }
      destruct (save_sim d m s p k a b c e f ty H Hu) as (m' & -> & Hi & Hp); [tauto|].
      destruct s. eexists _, _, _, _. split; [done|]. split; [constructor; [done|tauto]|]. by split.
  - unfold dhd_pktid_map_alloc. destruct s as [[|k l] u f'].
    + rewrite (reserve_empty_sim m _ p H) by done. cbn [mbind option_bind]. rewrite bool_decide_false by tauto.
      eexists _, _, _, _. split; [done|]. split; [constructor|]. split; [done|]. by apply (prep_fails m _ H).
    + destruct (reserve_sim m _ p k l H) as (it & m1 & -> & Hr & Hi & Hp); [done|]. cbn [mbind option_bind].
      assert (1 <= k <= items m1) as Hk by (apply (prep_used_range _ _ Hp k it); apply lookup_insert_eq).
      rewrite bool_decide_true by (unfold DHD_PKTID_INVALID; lia).
      destruct (decide (dhd_induce_error d = DHD_INDUCE_PKTID_INVALID_SAVE)) as [Hd|Hd].
      * rewrite (save_error_sim d m1 _ p k a b c e f ty Hp) by auto. cbn [mbind option_bind].
        eexists _, _, _, _. split; [done|]. split; [by econstructor|]. by split.
      * edestruct (save_sim d m1 _ p k a b c e f ty Hp) as (m2 & -> & Hi2 & Hp2);
          [cbn [used]; rewrite lookup_insert_eq; eauto|done|].
        cbn [mbind option_bind]. eexists _, _, _, _. split; [done|]. split; [by constructor|].
        split; [congruence|]. cbn [used pfree pfails] in Hp2. by rewrite insert_insert_eq in Hp2.
  - destruct (free_call_sim d m s k ty rsv H Hid) as (p & out & d' & m' & s' & -> & Hs & Hi & Hp & _).
    eexists _, _, _, _. split; [done|]. eauto.
  - unfold dhd_prot_packet_get.
    replace (if fr then DHD_PKTID_FREE_LOCKER else DHD_PKTID_RSV_LOCKER) with (negb fr) by by destruct fr.
    destruct (free_call_sim d m s k ty (negb fr) H Hid) as (p & out & d' & m' & s' & -> & Hs & Hi & Hp & Hout).
    cbn [mbind option_bind]. pose proof (get_step _ _ _ _ _ _ _ _ _ _ Hs) as Hg.
    destruct p as [p|]; [destruct (Hout ltac:(by eexists)) as [[[[a b] c] e] ->]|];
      eexists _, _, _, _; (split; [done|]); eauto.
  - eexists _, _, _, _. split; [unfold dhd_pktid_map_avail_cnt; by rewrite (pr_avail _ _ H)|].
    split; [constructor|done].
  - destruct (reset_sim d m s H) as (m' & -> & Hi & Hp). cbn [mbind option_bind].
    eexists _, _, _, _. split; [done|]. split; [constructor|done].
Qed.

#[export] Instance misuse_dec n o s : Decision (misuse n o s).
Proof. destruct o; apply _. Defined.

Lemma pexec_all_sim os : ∀ d m s,
  prep m s -> Forall (λ o, 0 <= op_id o) os ->
  misused (items m) os d s
  ∨ ∃ rs d' m' s', pexec_all os d m = Some (rs, d', m') ∧ prun (items m) os d s rs d' s'
      ∧ items m' = items m ∧ prep m' s'.
Proof.
  induction os as [|o os IH]; intros d m s H Hos.
  - right. eexists _, _, _, _. split; [done|]. split; [constructor|done].
  - apply Forall_cons in Hos as [Ho Hos]. destruct (decide (misuse (items m) o s)) as [Hb|Hb].
    { left. exists [], o, os, [], d, s. split; [done|]. split; [constructor|done]. }
    destruct (pexec_sim o d m s H Hb Ho) as (r & d1 & m1 & s1 & E & Hs & Hi & Hp).
    cbn [pexec_all]. rewrite E. cbn [mbind option_bind].
    destruct (IH d1 m1 s1 Hp Hos) as [(os1 & o2 & os2 & rs & d2 & s2 & -> & Hr & Hm)|(rs & d2 & m2 & s2 & E2 & Hr & Hi2 & Hp2)].
    + left. rewrite Hi in Hr, Hm. eexists (o :: os1), o2, os2, _, _, _. split; [done|].
      split; [by econstructor|done].
    + right. rewrite E2. cbn [mbind option_bind]. eexists _, _, _, _. split; [done|].
      rewrite Hi in Hr. split; [by econstructor|]. split; [congruence|done].
Qed.

(** ** What a run leaves alone *)

Definition leaves_id (k : Z) (o : pop) : Prop := 0 <= op_id o ∧ op_id o ≠ k ∧ o ≠ PReset.

Lemma pktid_error_induce d : dhd_induce_error (pktid_error d) = dhd_induce_error d.
Proof. unfold pktid_error. by case_bool_decide. Qed.

Lemma unmapped_induce p out d : dhd_induce_error (unmapped p out d) = dhd_induce_error d.
Proof. by destruct p, out as [[[[] ] ]|]. Qed.

Lemma pstep_leaves n o d s r d' s' k it :
  pstep n o d s r d' s' -> leaves_id k o -> k ≠ 0 -> used s !! k = Some it -> k ∉ pfree s ->
  used s' !! k = Some it ∧ k ∉ pfree s' ∧ r ≠ RId k ∧ dhd_induce_error d' = dhd_induce_error d.
Proof.
  induction 1; intros (Hid0 & Hidk & Hreset) Hk0 Hu Hf; cbn [op_id used pfree] in *;
    rewrite ?pktid_error_induce, ?unmapped_induce; try done.
  all: try (apply not_elem_of_cons in Hf as [Hkk Hf]).
  all: rewrite ?lookup_insert_ne, ?lookup_delete_ne by congruence.
  all: try (split_and!; [done|by rewrite ?not_elem_of_cons|unfold DHD_PKTID_INVALID; congruence|done]).
  match goal with IH : leaves_id k _ -> _ |- _ => destruct IH as (? & ? & ? & ?) end; by split_and?.
Qed.

Lemma prun_leaves n os d s rs d' s' k it :
  prun n os d s rs d' s' -> Forall (leaves_id k) os -> k ≠ 0 -> used s !! k = Some it -> k ∉ pfree s ->
  used s' !! k = Some it ∧ RId k ∉ rs ∧ dhd_induce_error d' = dhd_induce_error d.
Proof.
  induction 1 as [|o os d s r d1 s1 rs d2 s2 Hs Hr IH]; intros Hos Hk0 Hu Hf.
  - split_and!; [done|apply not_elem_of_nil|done].
  - apply Forall_cons in Hos as [Ho Hos].
    destruct (pstep_leaves _ _ _ _ _ _ _ _ _ Hs Ho Hk0 Hu Hf) as (Hu1 & Hf1 & Hr1 & Hi1).
    destruct (IH Hos Hk0 Hu1 Hf1) as (Hu2 & Hr2 & Hi2). split_and!; [done| |congruence].
    rewrite not_elem_of_cons. by split.
Qed.

Lemma alloc_step_inv n p pa len dir dmah secdma ty d k l u f r d' s' :
  pstep n (PAlloc p pa len dir dmah secdma ty) d (mk_pmap (k :: l) u f) r d' s' ->
  dhd_induce_error d ≠ DHD_INDUCE_PKTID_INVALID_SAVE ->
  r = RId k ∧ d' = d ∧ s' = mk_pmap l (<[k := saved p pa len dir dmah secdma ty]> u) f.
Proof. intros Hs Hd. by inversion Hs. Qed.

Definition is_save (o : pop) : bool := match o with PSave _ _ _ _ _ _ _ _ => true | _ => false end.

Lemma no_save_not_misused n os d s : Forall (λ o, is_save o = false) os -> ¬ misused n os d s.
Proof.
  intros Hos (os1 & o & os2 & rs & d1 & s1 & -> & _ & Hm).
  apply Forall_app in Hos as [_ [Ho _]%Forall_cons]. by destruct o.
Qed.

(** C3.  From dhd_pktid_map_init, every sequence of calls on the packet id map
    stays inside its arrays and does what the stack of free ids and the map of
    ids in use do, including the error branches and the buffers and packets that
    reset releases, up to the first call that saves into an id that is not in
    use, which only an ASSERT forbids. *)
Theorem pktid_run_refines (n f0 : Z) (ls : list dhd_pktid_item) (ks : list Z) (d : dhd_pub) (os : list pop) :
  0 <= n < 2147483648 -> Z.of_nat (length ls) = n + 1 -> Z.of_nat (length ks) = n + 1 ->
  Forall (λ o, 0 <= op_id o) os ->
  let s := mk_pmap (reverse (seqZ 1 n)) ∅ f0 in
  ∃ m, dhd_pktid_map_init (Some (f0, ls)) true (Some ks) n = Some (Some m)
  ∧ (misused n os d s
     ∨ ∃ rs d' m' s', pexec_all os d m = Some (rs, d', m') ∧ prun n os d s rs d' s' ∧ prep m' s').
Proof.
  intros Hn Hls Hks Hos s. destruct (pktid_init_spec n f0 ls ks Hn Hls Hks) as (m & Em & Hi & Hp).
  exists m. split; [done|].
  destruct (pexec_all_sim os d m s Hp Hos) as [Hm|(rs & d' & m' & s' & E & Hr & _ & Hp')];
    rewrite Hi in *; [by left|right; eauto 8].
Qed.

(** A map of three ids whose memory VMALLOC left dirty. *)
Definition dirty : list dhd_pktid_item := replicate 4 (mk_item LOCKER_IS_RSVD 9 PKTTYPE_NO_CHECK 9 (Some 9%positive) 9 9 9).
Definition demo_dhd : dhd_pub := mk_pub 0 1 false 0 0 5 [].
Definition demo_ops : list pop :=
  [PAlloc (Some 7%positive) 100 70000 1 0 0 PKTTYPE_DATA_TX; PFree 3 PKTTYPE_IOCTL_RX false;
   PGet 3 PKTTYPE_DATA_TX true; PFree 3 PKTTYPE_DATA_TX false;
   PAlloc (Some 8%positive) 200 60 1 0 0 PKTTYPE_DATA_TX; PReset; PAvail].

Lemma pktid_run_refines_witness :
  ∃ m rs d' m', dhd_pktid_map_init (Some (0, dirty)) true (Some [9; 9; 9; 9]) 3 = Some (Some m)
  ∧ pexec_all demo_ops demo_dhd m = Some (rs, d', m')
  ∧ rs = [RId 3; RPkt None None; RPkt (Some 7%positive) None; RPkt None None; RId 3; RUnit; RCount 3].
Proof.
  destruct (pktid_run_refines 3 0 dirty [9; 9; 9; 9] demo_dhd demo_ops) as (m & Em & [Hm|Hr]).
  - lia.
  - reflexivity.
  - reflexivity.
  - repeat (apply Forall_cons_2; [vm_compute; discriminate|]). apply Forall_nil_2.
  - exfalso. revert Hm. apply no_save_not_misused. repeat (apply Forall_cons_2; [reflexivity|]). apply Forall_nil_2.
  - destruct Hr as (rs & d' & m' & s' & E & _). exists m, rs, d', m'. split; [exact Em|]. split; [exact E|].
    vm_compute in Em. injection Em as <-. vm_compute in E. by injection E as <-.
Defined.

(** C4.  The id dhd_pktid_map_alloc returns was not in use, no call returns it
    again while it is, and whatever the other calls do, freeing it with the type
    of the packet (or no type check) gives back the packet and its DMA data, the
    length cut to 16 bits; freeing it a second time, or with another type, is
    reported and gives nothing. *)
Theorem pktid_roundtrip (d : dhd_pub) (m : dhd_pktid_map) (k : Z) (l : list Z) (u : gmap Z dhd_pktid_item)
    (f : Z) (p : pkt_ptr) (pa len dir dmah secdma : Z) (ty : dhd_pkttype) (os : list pop) :
  prep m (mk_pmap (k :: l) u f) ->
  dhd_induce_error d ≠ DHD_INDUCE_PKTID_INVALID_SAVE -> dhd_induce_error d ≠ DHD_INDUCE_PKTID_INVALID_FREE ->
  Forall (leaves_id k) os ->
  ¬ misused (items m) os d (mk_pmap l (<[k := saved p pa len dir dmah secdma ty]> u) f) ->
  u !! k = None ∧ ∃ m1 rs d2 m2,
    dhd_pktid_map_alloc d m p pa len dir dmah secdma ty = Some (k, d, m1)
    ∧ pexec_all os d m1 = Some (rs, d2, m2) ∧ RId k ∉ rs
    ∧ (∀ ty', ty' = PKTTYPE_NO_CHECK ∨ ty = ty' ->
        ∃ m3, dhd_pktid_map_free d2 m2 k ty' DHD_PKTID_FREE_LOCKER
              = Some (p, Some (pa, len mod 65536, dmah, secdma), d2, m3)
        ∧ ∀ ty2 rsv, dhd_pktid_map_free d2 m3 k ty2 rsv = Some (None, None, pktid_error d2, m3))
    ∧ ∀ ty' rsv, ty' ≠ PKTTYPE_NO_CHECK -> ty ≠ ty' ->
        dhd_pktid_map_free d2 m2 k ty' rsv = Some (None, None, pktid_error d2, m2).
Proof.
  intros H Hds Hdf Hos Hmis. pose proof (proj1 (pr_ids _ _ H k) (or_introl (list_elem_of_here k l))) as Hk.
  split; [apply (pr_disj _ _ H); left|].
  destruct (pexec_sim (PAlloc p pa len dir dmah secdma ty) d m _ H) as (r & d1 & m1 & s1 & E & Hs & Hi & Hp);
    [by intros []|done|].
  cbn [pexec] in E. destruct (dhd_pktid_map_alloc _ _ _ _ _ _ _ _ _) as [[[k1 d1'] m1']|] eqn:Ea; [|done].
  cbn [mbind option_bind] in E. injection E as <- <- <-.
  apply alloc_step_inv in Hs as ([= ->] & -> & ->); [|done].
  destruct (pexec_all_sim os d m1' _ Hp) as [Hb|(rs & d2 & m2 & s2 & E2 & Hr & Hi2 & Hp2)].
  { eapply Forall_impl; [exact Hos|]. by intros o (? & _). }
  { by rewrite Hi in Hb. }
  set (it := saved p pa len dir dmah secdma ty) in *.
  destruct (prun_leaves _ _ _ _ _ _ _ k it Hr Hos) as (Hu & Hrs & Hind);
    [lia|apply lookup_insert_eq|by apply (NoDup_cons_1_1 k l), (pr_nodup _ _ H)|].
  exists m1', rs, d2, m2. split_and!; [done..| |].
  - intros ty' Hty. destruct (free_sim d2 m2 s2 k it ty' DHD_PKTID_FREE_LOCKER Hp2 Hu) as (m3 & -> & Hi3 & Hp3);
      [done|congruence|].
    exists m3. split; [done|]. intros ty2 rsv. eapply free_error_sim; [exact Hp3|lia|].
    do 2 right. left. apply lookup_delete_eq.
  - intros ty' rsv Hn Hty. eapply free_error_sim; [exact Hp2|lia|]. do 3 right. exists it.
    split; [done|]. by intros [|].
Qed.

Lemma pktid_roundtrip_witness :
  ∃ m m1 rs d2 m2 m3, dhd_pktid_map_init (Some (0, dirty)) true (Some [9; 9; 9; 9]) 3 = Some (Some m)
  ∧ dhd_pktid_map_alloc demo_dhd m (Some 7%positive) 100 70000 1 5 6 PKTTYPE_DATA_RX = Some (3, demo_dhd, m1)
  ∧ pexec_all [PReserve None; PFree 2 PKTTYPE_NO_CHECK false; PFree 2 PKTTYPE_NO_CHECK false] demo_dhd m1 = Some (rs, d2, m2)
  ∧ dhd_pktid_map_free d2 m2 3 PKTTYPE_DATA_RX DHD_PKTID_FREE_LOCKER
    = Some (Some 7%positive, Some (100, 4464, 5, 6), d2, m3).
Proof.
  destruct (pktid_init_spec 3 0 dirty [9; 9; 9; 9]) as (m & Em & Hi & Hp); [lia|reflexivity|reflexivity|].
  destruct (pktid_roundtrip demo_dhd m 3 [2; 1] ∅ 0 (Some 7%positive) 100 70000 1 5 6 PKTTYPE_DATA_RX
    [PReserve None; PFree 2 PKTTYPE_NO_CHECK false; PFree 2 PKTTYPE_NO_CHECK false])
    as (_ & m1 & rs & d2 & m2 & Ea & Ee & _ & Hf & _).
  - exact Hp.
  - discriminate.
  - discriminate.
  - repeat (apply Forall_cons_2; [split_and!; [vm_compute; discriminate|vm_compute; discriminate|discriminate]|]).
    apply Forall_nil_2.
  - apply no_save_not_misused. repeat (apply Forall_cons_2; [reflexivity|]). apply Forall_nil_2.
  - destruct (Hf PKTTYPE_DATA_RX (or_intror eq_refl)) as (m3 & E3 & _).
    exists m, m1, rs, d2, m2, m3. split_and!; [exact Em|exact Ea|exact Ee|exact E3].
Defined.
