(* ===== verification/Dll.v ===== *)
(** * bcmutils.h, bcmutils.c: circular doubly linked lists and their pools (model)

    The store maps the address of a node to its two links; [None] is an access
    to an address that holds no node. *)

From S2P Require Import Prelude.

Record dll := mk_dll { next_p : Z; prev_p : Z }.
Abbreviation nodes := (gmap Z dll).

(** [node_p->next_p], [node_p->prev_p] and the assignments to them. *)
Definition get_next (h : nodes) (node_p : Z) : option Z := next_p <$> h !! node_p.
Definition get_prev (h : nodes) (node_p : Z) : option Z := prev_p <$> h !! node_p.
Definition set_next (h : nodes) (node_p x : Z) : option nodes :=
  n ← h !! node_p; Some (<[node_p := mk_dll x (prev_p n)]> h).
Definition set_prev (h : nodes) (node_p x : Z) : option nodes :=
  n ← h !! node_p; Some (<[node_p := mk_dll (next_p n) x]> h).

Definition dll_init (h : nodes) (node_p : Z) : option nodes :=
  h ← set_next h node_p node_p; set_prev h node_p node_p.

Definition dll_head_p (h : nodes) (list_p : Z) : option Z := get_next h list_p.
Definition dll_tail_p (h : nodes) (list_p : Z) : option Z := get_prev h list_p.
Definition dll_next_p (h : nodes) (node_p : Z) : option Z := get_next h node_p.
Definition dll_prev_p (h : nodes) (node_p : Z) : option Z := get_prev h node_p.

Definition dll_empty (h : nodes) (list_p : Z) : option bool :=
  n ← get_next h list_p; Some (bool_decide (n = list_p)).
Definition dll_end (list_p node_p : Z) : bool := bool_decide (list_p = node_p).

Definition dll_insert (h : nodes) (new_p at_p : Z) : option nodes :=
  n ← get_next h at_p;
  h ← set_next h new_p n;
  h ← set_prev h new_p at_p;
  h ← set_next h at_p new_p;
  n ← get_next h new_p;
  set_prev h n new_p.

Definition dll_append (h : nodes) (list_p node_p : Z) : option nodes :=
  t ← dll_tail_p h list_p; dll_insert h node_p t.

Definition dll_prepend (h : nodes) (list_p node_p : Z) : option nodes :=
  dll_insert h node_p list_p.

Definition dll_delete (h : nodes) (node_p : Z) : option nodes :=
  p ← get_prev h node_p;
  n ← get_next h node_p;
  h ← set_next h p n;
  n ← get_next h node_p;
  p ← get_prev h node_p;
  set_prev h n p.

(** ** Pools of elements *)

(** [free_list] is the address of the list head, which is the first field of
    the pool. *)
Record dll_pool := mk_pool {
  free_list : Z;
  free_count : Z;   (* uint16 *)
  elems_max : Z;    (* uint16 *)
  elem_size : Z     (* uint16 *)
}.

(** The offset of [elements] in the structure: the list head and three uint16,
    padded to the alignment of a pointer. *)
Definition ELEMENTS_OFF : Z := 24.

(** [sizeof(dll_t)]: two pointers.  dll_pool_init asserts that an element is
    larger, so the elements do not overlap. *)
Definition SIZEOF_DLL : Z := 16.

(** The addresses of the elements of a pool at [p]. *)
Definition element (p elem_size : Z) (i : nat) : Z := p + ELEMENTS_OFF + Z.of_nat i * elem_size.
Definition elements_of (p elems_max elem_size : Z) : list Z :=
  element p elem_size <$> seq 0 (Z.to_nat elems_max).

(** What MALLOCZ leaves: the list head and the elements, zeroed. *)
Definition zero_nodes (h : nodes) (l : list Z) : nodes :=
  foldr (fun a h => <[a := mk_dll 0 0]> h) h l.

(** [for (i = 0; i < elems_max; i++) { dll_append(&free_list, elem_p);
     elem_p += elem_size; }] with [n] iterations left. *)
Fixpoint pool_loop (n : nat) (h : nodes) (list_p elem_p elem_size : Z) : option nodes :=
  match n with
  | O => Some h
  | S n => h ← dll_append h list_p elem_p;
           pool_loop n h list_p (elem_p + elem_size) elem_size
  end.

(** [mem] is what MALLOCZ returns: NULL or an address. *)
Definition dll_pool_init (mem : option Z) (h : nodes) (elems_max elem_size : Z)
    : option (option dll_pool * nodes) :=
  match mem with
  | None => Some (None, h)
  | Some p =>
      let h := zero_nodes h (p :: elements_of p elems_max elem_size) in
      h ← dll_init h p;
      h ← pool_loop (Z.to_nat elems_max) h p (p + ELEMENTS_OFF) elem_size;
      Some (Some (mk_pool p elems_max elems_max elem_size), h)
  end.

Definition set_free_count (n : Z) (d : dll_pool) : dll_pool :=
  mk_pool (free_list d) n (elems_max d) (elem_size d).

Definition dll_pool_alloc (h : nodes) (d : dll_pool) : option (option Z * nodes * dll_pool) :=
  if bool_decide (free_count d = 0) then Some (None, h, d)
  else
    elem_p ← dll_head_p h (free_list d);
    h ← dll_delete h elem_p;
    Some (Some elem_p, h, set_free_count (u16 (free_count d - 1)) d).

Definition dll_pool_free (h : nodes) (d : dll_pool) (elem_p : Z) : option (nodes * dll_pool) :=
  h ← dll_prepend h (free_list d) elem_p;
  Some (h, set_free_count (u16 (free_count d + 1)) d).

Definition dll_pool_free_tail (h : nodes) (d : dll_pool) (elem_p : Z) : option (nodes * dll_pool) :=
  h ← dll_append h (free_list d) elem_p;
  Some (h, set_free_count (u16 (free_count d + 1)) d).
