(* ===== verification/DllTheorems.v ===== *)
(** * Circular lists and element pools: the properties *)

From S2P Require Import Prelude Dll.

(** ** Linked paths *)

(** Consecutive nodes of [p] point at each other. *)
Fixpoint linked (h : nodes) (p : list Z) : Prop :=
  match p with
  | a :: ((b :: _) as r) => get_next h a = Some b ∧ get_prev h b = Some a ∧ linked h r
  | _ => True
  end.

(** [l] in order around the list head [s]. *)
Definition dllrep (h : nodes) (s : Z) (l : list Z) : Prop :=
  linked h (s :: l ++ [s]) ∧ NoDup (s :: l).

Lemma linked_app h p a q : linked h (p ++ a :: q) <-> linked h (p ++ [a]) ∧ linked h (a :: q).
Proof.
  induction p as [|x p IH]; simpl; [tauto|].
  destruct p as [|y p]; simpl in *; tauto.
Qed.

Lemma linked_frame h h' p :
  (∀ p1 x y p2, p = p1 ++ x :: y :: p2 ->
     get_next h' x = get_next h x ∧ get_prev h' y = get_prev h y) ->
  linked h p -> linked h' p.
Proof.
  induction p as [|x p IH]; intros Hf; [done|]. destruct p as [|y p]; [done|].
  intros (Hn & Hp & Hl). destruct (Hf [] x y p eq_refl) as [E1 E2].
  split; [by rewrite E1|]. split; [by rewrite E2|]. apply IH; [|done].
  intros p1 x' y' p2 E. apply (Hf (x :: p1) x' y' p2). by rewrite E.
Qed.

(** In [p ++ [a]] no pair starts at [a], in [b :: q] none ends at [b]. *)
Lemma pair_init {A} (p : list A) a p1 x y p2 : p ++ [a] = p1 ++ x :: y :: p2 -> x ∈ p.
Proof.
  revert p1. induction p as [|z p IH]; intros p1 E; destruct p1 as [|w p1]; simpl in E; try done.
  - injection E as -> E. by destruct p1.
  - injection E as -> _. left.
  - injection E as -> E. right. by eapply IH.
Qed.

Lemma pair_tail {A} (b : A) q p1 x y p2 : b :: q = p1 ++ x :: y :: p2 -> y ∈ q.
Proof.
  destruct p1 as [|w p1]; simpl; intros [= -> ->]; [left|].
  apply elem_of_app. right. right. left.
Qed.

Ltac dll_run :=
  unfold get_next, get_prev, set_next, set_prev in *;
  repeat (simplify_map_eq; cbn [mbind option_bind fmap option_fmap option_map next_p prev_p]).

(** ** Insertion and deletion between neighbours *)

(** [h'] differs from [h] at most in the next links of [ns] and the previous
    links of [ps]. *)
Definition changes (ns ps : list Z) (h h' : nodes) : Prop :=
  dom h' = dom h ∧ (∀ x, x ∉ ns -> get_next h' x = get_next h x)
  ∧ (∀ x, x ∉ ps -> get_prev h' x = get_prev h x).

Lemma changes_refl h : changes [] [] h h.
Proof. done. Qed.

Lemma set_next_spec h x v : is_Some (h !! x) ->
  ∃ h', set_next h x v = Some h' ∧ changes [x] [] h h' ∧ get_next h' x = Some v.
Proof.
  intros [n Hn]. unfold set_next, changes, get_next, get_prev. rewrite Hn. eexists. split; [done|].
  split_and!.
  - apply dom_insert_lookup_L. eauto.
  - intros y Hy. rewrite lookup_insert_ne; [done|]. set_solver.
  - intros y _. destruct (decide (y = x)) as [->|]; simplify_map_eq; by rewrite ?Hn.
  - by simplify_map_eq.
Qed.

Lemma set_prev_spec h x v : is_Some (h !! x) ->
  ∃ h', set_prev h x v = Some h' ∧ changes [] [x] h h' ∧ get_prev h' x = Some v.
Proof.
  intros [n Hn]. unfold set_prev, changes, get_next, get_prev. rewrite Hn. eexists. split; [done|].
  split_and!.
  - apply dom_insert_lookup_L. eauto.
  - intros y _. destruct (decide (y = x)) as [->|]; simplify_map_eq; by rewrite ?Hn.
  - intros y Hy. rewrite lookup_insert_ne; [done|]. set_solver.
  - by simplify_map_eq.
Qed.

Lemma changes_is_Some ns ps h h' x : changes ns ps h h' -> is_Some (h !! x) -> is_Some (h' !! x).
Proof. intros [Hd _]. by rewrite <-!elem_of_dom, Hd. Qed.

Lemma get_next_is_Some h x y : get_next h x = Some y -> is_Some (h !! x).
Proof. unfold get_next. destruct (h !! x); [eauto|done]. Qed.
Lemma get_prev_is_Some h x y : get_prev h x = Some y -> is_Some (h !! x).
Proof. unfold get_prev. destruct (h !! x); [eauto|done]. Qed.

(** Between neighbours [a] and [b] ([a = b] is the empty list). *)
Lemma dll_insert_between h new a b :
  get_next h a = Some b -> is_Some (h !! b) -> is_Some (h !! new) -> new ≠ a -> new ≠ b ->
  ∃ h', dll_insert h new a = Some h' ∧ changes [new; a] [new; b] h h'
    ∧ get_next h' a = Some new ∧ get_prev h' new = Some a
    ∧ get_next h' new = Some b ∧ get_prev h' b = Some new.
Proof.
  intros Ha Hb Hnew Hna Hnb. unfold dll_insert. rewrite Ha. cbn [mbind option_bind].
  destruct (set_next_spec h new b Hnew) as (h1 & -> & (D1 & N1 & P1) & E1). cbn [mbind option_bind].
  destruct (set_prev_spec h1 new a) as (h2 & -> & (D2 & N2 & P2) & E2).
  { by apply elem_of_dom; rewrite D1; apply elem_of_dom. }
  cbn [mbind option_bind].
  destruct (set_next_spec h2 a new) as (h3 & -> & (D3 & N3 & P3) & E3).
  { apply elem_of_dom. rewrite D2, D1. apply elem_of_dom. by eapply get_next_is_Some. }
  cbn [mbind option_bind]. rewrite (N3 new), (N2 new), E1 by set_solver. cbn [mbind option_bind].
  destruct (set_prev_spec h3 b new) as (h4 & -> & (D4 & N4 & P4) & E4).
  { apply elem_of_dom. rewrite D3, D2, D1. by apply elem_of_dom. }
  exists h4. split; [done|]. split; [split_and!|].
  - congruence.
  - intros x Hx. rewrite N4, N3, N2, N1; [done|set_solver..].
  - intros x Hx. rewrite P4, P3, P2, P1; [done|set_solver..].
  - split_and!; [by rewrite N4 by set_solver| | |done].
    + by rewrite P4, P3, E2 by set_solver.
    + by rewrite N4, N3, N2, E1 by set_solver.
Qed.

Lemma dll_delete_between h x a b :
  get_next h x = Some b -> get_prev h x = Some a -> is_Some (h !! a) -> is_Some (h !! b) ->
  x ≠ a -> x ≠ b ->
  ∃ h', dll_delete h x = Some h' ∧ changes [a] [b] h h'
    ∧ get_next h' a = Some b ∧ get_prev h' b = Some a.
Proof.
  intros Hn Hp Ha Hb Hxa Hxb. unfold dll_delete. rewrite Hp, Hn. cbn [mbind option_bind].
  destruct (set_next_spec h a b Ha) as (h1 & -> & (D1 & N1 & P1) & E1). cbn [mbind option_bind].
  rewrite (N1 x), Hn by set_solver. cbn [mbind option_bind]. rewrite (P1 x), Hp by set_solver.
  cbn [mbind option_bind].
  destruct (set_prev_spec h1 b a) as (h2 & -> & (D2 & N2 & P2) & E2).
  { apply elem_of_dom. rewrite D1. by apply elem_of_dom. }
  exists h2. split; [done|]. split; [split_and!|split].
  - congruence.
  - intros y Hy. by rewrite N2, N1 by set_solver.
  - intros y Hy. by rewrite P2, P1 by set_solver.
  - by rewrite N2 by set_solver.
  - done.
Qed.

(** ** Insertion and deletion in a circular list *)

(** The neighbours of the gap between [l1] and [l2]. *)
Definition before (s : Z) (l1 : list Z) : Z := default s (last l1).
Definition after (s : Z) (l2 : list Z) : Z := default s (list.head l2).

Lemma before_split s l1 : ∃ p, s :: l1 = p ++ [before s l1].
Proof.
  destruct l1 as [|x l1 _] using rev_ind; [by exists []|]. exists (s :: l1).
  unfold before. by rewrite last_snoc.
Qed.
Lemma after_split s l2 : ∃ q, l2 ++ [s] = after s l2 :: q.
Proof. destruct l2 as [|x l2]; [by exists []|]. by exists (l2 ++ [s]). Qed.

Lemma before_in s l1 : before s l1 = s ∨ before s l1 ∈ l1.
Proof.
  unfold before. destruct (last l1) as [x|] eqn:E; [|by left]. right. by apply last_Some_elem_of.
Qed.
Lemma after_in s l2 : after s l2 = s ∨ after s l2 ∈ l2.
Proof. destruct l2; [by left|]. right. left. Qed.

Section Gap.
Context (h : nodes) (s : Z) (l1 l2 mid : list Z).
Context (Hrep : dllrep h s (l1 ++ mid ++ l2)).

Let a := before s l1.
Let b := after s l2.

Lemma gap_links :
  linked h (s :: l1) ∧ linked h (a :: mid ++ [b]) ∧ linked h (l2 ++ [s]).
Proof.
  destruct Hrep as [Hl _]. destruct (before_split s l1) as [p Ep]. destruct (after_split s l2) as [q Eq].
  fold a in Ep. fold b in Eq.
  replace (s :: (l1 ++ mid ++ l2) ++ [s]) with (p ++ a :: mid ++ b :: q) in Hl.
  - apply linked_app in Hl as [H1 H2]. rewrite app_comm_cons in H2. apply linked_app in H2 as [H2 H3].
    rewrite Ep, Eq. done.
  - rewrite <-!app_assoc, Eq, (app_comm_cons l1), Ep, <-app_assoc. done.
Qed.

Lemma gap_relink h' mid' :
  linked h' (s :: l1) -> linked h' (a :: mid' ++ [b]) -> linked h' (l2 ++ [s]) ->
  linked h' (s :: (l1 ++ mid' ++ l2) ++ [s]).
Proof.
  destruct (before_split s l1) as [p Ep]. destruct (after_split s l2) as [q Eq].
  fold a in Ep. fold b in Eq. intros H1 H2 H3. rewrite Ep in H1. rewrite Eq in H3.
  replace (s :: (l1 ++ mid' ++ l2) ++ [s]) with (p ++ a :: mid' ++ b :: q).
  - apply linked_app. split; [done|]. rewrite app_comm_cons. apply linked_app. done.
  - rewrite <-!app_assoc, Eq, (app_comm_cons l1), Ep, <-app_assoc. done.
Qed.

Lemma gap_nodup : NoDup (s :: l1) ∧ NoDup (l2 ++ [s]) ∧ (∀ x, x ∈ l1 -> x ∉ l2) ∧ s ∉ l1 ∧ s ∉ l2
  ∧ (∀ x, x ∈ mid -> x ≠ s ∧ x ∉ l1 ∧ x ∉ l2).
Proof.
  destruct Hrep as [_ [Hs Hnd]%NoDup_cons].
  apply NoDup_app in Hnd as (H1 & Hd1 & (H2 & Hd2 & H3)%NoDup_app).
  assert (s ∉ l1 ∧ s ∉ mid ∧ s ∉ l2) as (S1 & S2 & S3) by set_solver.
  split_and!; [by apply NoDup_cons| |set_solver|done|done|].
  - apply NoDup_app. split_and!; [done| |apply NoDup_singleton]. set_solver.
  - intros x Hx. split_and!; [set_solver| |by apply Hd2]. intros Hx'. apply (Hd1 x Hx'). set_solver.
Qed.

(** What lies outside the gap does not see changes at its two ends. *)
Lemma gap_frame h' ns ps :
  changes (ns ++ [a]) (ps ++ [b]) h h' -> (∀ x, x ∈ ns ++ ps -> x ≠ s ∧ x ∉ l1 ∧ x ∉ l2) ->
  linked h' (s :: l1) ∧ linked h' (l2 ++ [s]).
Proof.
  intros (_ & HN & HP) Hout. destruct gap_links as (H1 & _ & H3).
  destruct gap_nodup as (N1 & N2 & Hd & S1 & S2 & _).
  pose proof (before_in s l1) as Ha. pose proof (after_in s l2) as Hb. fold a in Ha. fold b in Hb.
  split; (eapply linked_frame; [|done]); intros p1 x y p2 E.
  - destruct (before_split s l1) as [p Ep]. fold a in Ep. rewrite Ep in E, N1.
    pose proof (pair_init _ _ _ _ _ _ E) as Hx. rewrite <-Ep in E. pose proof (pair_tail _ _ _ _ _ _ E) as Hy.
    assert (x ∈ s :: l1) as Hx' by (rewrite Ep; set_solver).
    apply NoDup_app in N1 as (_ & Hpa & _).
    split; [apply HN|apply HP]; intros [Hin|Hin]%elem_of_app.
    + destruct (Hout x) as (? & ? & ?); set_solver.
    + apply (Hpa x Hx). done.
    + destruct (Hout y) as (? & ? & ?); set_solver.
    + apply list_elem_of_singleton in Hin as ->. destruct Hb as [Hb|Hb]; [by rewrite Hb in Hy|].
      by apply (Hd b).
  - pose proof (pair_init _ _ _ _ _ _ E) as Hx. destruct (after_split s l2) as [q Eq]. fold b in Eq.
    assert (y ∈ l2 ++ [s]) as Hy' by (rewrite E; set_solver).
    rewrite Eq in E, N2. pose proof (pair_tail _ _ _ _ _ _ E) as Hy. apply NoDup_cons in N2 as [Hbq _].
    split; [apply HN|apply HP]; intros [Hin|Hin]%elem_of_app.
    + destruct (Hout x) as (? & ? & ?); set_solver.
    + apply list_elem_of_singleton in Hin as ->. destruct Ha as [Ha|Ha]; [by rewrite Ha in Hx|].
      by apply (Hd a).
    + destruct (Hout y) as (? & ? & ?); set_solver.
    + apply list_elem_of_singleton in Hin as ->. done.
Qed.
End Gap.

Lemma dllrep_insert h s l1 l2 new :
  dllrep h s (l1 ++ l2) -> new ∉ s :: l1 ++ l2 -> is_Some (h !! new) ->
  ∃ h', dll_insert h new (before s l1) = Some h' ∧ dllrep h' s (l1 ++ new :: l2)
    ∧ changes [new; before s l1] [new; after s l2] h h'.
Proof.
  intros H Hnew Hd. destruct (gap_links h s l1 l2 [] H) as (_ & (Hn & Hp & _) & _).
  pose proof (before_in s l1). pose proof (after_in s l2).
  destruct (dll_insert_between h new (before s l1) (after s l2) Hn) as (h' & E & Hch & E1 & E2 & E3 & E4);
    [by eapply get_prev_is_Some|done|set_solver|set_solver|].
  exists h'. split; [done|]. split; [|done]. destruct (gap_frame h s l1 l2 [] H h' [new] [new]) as [F1 F2].
  - done.
  - set_solver.
  - split.
    + apply (gap_relink s l1 l2 h' [new]); done.
    + destruct H as [_ H]. replace (s :: l1 ++ new :: l2) with ((s :: l1) ++ new :: l2) by done.
      rewrite <-Permutation_middle. apply NoDup_cons. split; [done|]. done.
Qed.

Lemma dllrep_delete h s l1 l2 x :
  dllrep h s (l1 ++ x :: l2) ->
  ∃ h', dll_delete h x = Some h' ∧ dllrep h' s (l1 ++ l2)
    ∧ changes [before s l1] [after s l2] h h'.
Proof.
  intros H. destruct (gap_links h s l1 l2 [x] H) as (_ & (Hn & Hp & Hn2 & Hp2 & _) & _).
  destruct (gap_nodup h s l1 l2 [x] H) as (_ & _ & _ & _ & _ & Hx).
  specialize (Hx x ltac:(left)) as (Hxs & Hx1 & Hx2).
  pose proof (before_in s l1). pose proof (after_in s l2).
  destruct (dll_delete_between h x (before s l1) (after s l2) Hn2 Hp) as (h' & E & Hch & E1 & E2);
    [by eapply get_next_is_Some|by eapply get_prev_is_Some|set_solver|set_solver|].
  exists h'. split; [done|]. split; [|done]. destruct (gap_frame h s l1 l2 [x] H h' [] []) as [F1 F2].
  - done.
  - set_solver.
  - split.
    + apply (gap_relink s l1 l2 h' []); done.
    + destruct H as [_ H]. replace (s :: l1 ++ x :: l2) with ((s :: l1) ++ x :: l2) in H by done.
      rewrite <-Permutation_middle in H. apply NoDup_cons in H as [_ H]. done.
Qed.

(** ** Pools *)

Record poolst := mk_poolst { p_free : list Z; p_out : gset Z }.

(** [PoolUse] is the owner of an element writing over it, links included. *)
Inductive poolop :=
  | PoolAlloc
  | PoolFree (e : Z)
  | PoolFreeTail (e : Z)
  | PoolUse (e n p : Z).

Definition pool_exec (o : poolop) (h : nodes) (d : dll_pool) : option (option Z * nodes * dll_pool) :=
  match o with
  | PoolAlloc => dll_pool_alloc h d
  | PoolFree e => '(h, d) ← dll_pool_free h d e; Some (None, h, d)
  | PoolFreeTail e => '(h, d) ← dll_pool_free_tail h d e; Some (None, h, d)
  | PoolUse e n p => Some (None, <[e := mk_dll n p]> h, d)
  end.

Definition pool_spec (o : poolop) (s : poolst) : option Z * poolst :=
  match o with
  | PoolAlloc => match p_free s with
                 | e :: l => (Some e, mk_poolst l ({[e]} ∪ p_out s))
                 | [] => (None, s)
                 end
  | PoolFree e => (None, mk_poolst (e :: p_free s) (p_out s ∖ {[e]}))
  | PoolFreeTail e => (None, mk_poolst (p_free s ++ [e]) (p_out s ∖ {[e]}))
  | PoolUse _ _ _ => (None, s)
  end.

(** Only allocated elements are freed or written. *)
Definition pool_enabled (o : poolop) (s : poolst) : bool :=
  match o with
  | PoolAlloc => true
  | PoolFree e | PoolFreeTail e | PoolUse e _ _ => bool_decide (e ∈ p_out s)
  end.

Fixpoint pool_exec_all (os : list poolop) (h : nodes) (d : dll_pool)
    : option (list (option Z) * nodes * dll_pool) :=
  match os with
  | [] => Some ([], h, d)
  | o :: os => '(r, h, d) ← pool_exec o h d; '(rs, h, d) ← pool_exec_all os h d; Some (r :: rs, h, d)
  end.
Fixpoint pool_spec_all (os : list poolop) (s : poolst) : list (option Z) * poolst :=
  match os with
  | [] => ([], s)
  | o :: os => let '(r, s) := pool_spec o s in let '(rs, s) := pool_spec_all os s in (r :: rs, s)
  end.
Fixpoint pool_enabled_all (os : list poolop) (s : poolst) : bool :=
  match os with
  | [] => true
  | o :: os => pool_enabled o s && pool_enabled_all os (snd (pool_spec o s))
  end.

Record poolrep (h : nodes) (d : dll_pool) (elems : list Z) (s : poolst) : Prop := {
  pl_list : dllrep h (free_list d) (p_free s);
  pl_count : free_count d = Z.of_nat (length (p_free s));
  pl_part : ∀ x, x ∈ p_free s ∨ x ∈ p_out s <-> x ∈ elems;
  pl_disj : ∀ x, x ∈ p_free s -> x ∉ p_out s;
  pl_dom : ∀ x, x ∈ elems -> is_Some (h !! x);
  pl_head : free_list d ∉ elems;
  pl_max : Z.of_nat (length elems) < 65536
}.

Lemma pl_bound h d elems s : poolrep h d elems s -> Z.of_nat (length (p_free s)) < 65536.
Proof.
  intros H. pose proof (pl_list _ _ _ _ H) as [_ [_ Hnd]%NoDup_cons].
  assert (p_free s ⊆+ elems) as Hs%submseteq_length.
  { apply NoDup_submseteq; [done|]. intros x Hx. apply (pl_part _ _ _ _ H). by left. }
  pose proof (pl_max _ _ _ _ H). lia.
Qed.

(** There is always room to give an allocated element back. *)
Lemma pl_room h d elems s e :
  poolrep h d elems s -> e ∈ p_out s -> Z.of_nat (length (p_free s)) + 1 < 65536.
Proof.
  intros H He. pose proof (pl_list _ _ _ _ H) as [_ [_ Hnd]%NoDup_cons].
  assert (e :: p_free s ⊆+ elems) as Hs%submseteq_length.
  { apply NoDup_submseteq.
    - apply NoDup_cons. split; [|done]. intros Hf. by apply (pl_disj _ _ _ _ H e).
    - intros x [->|Hx]%elem_of_cons; apply (pl_part _ _ _ _ H); auto. }
  simpl in Hs. pose proof (pl_max _ _ _ _ H). lia.
Qed.

Lemma dllrep_agree h h' s l : (∀ x, x ∈ s :: l -> h' !! x = h !! x) -> dllrep h s l -> dllrep h' s l.
Proof.
  intros Hf [Hl Hnd]. split; [|done]. eapply linked_frame; [|done]. intros p1 x y p2 E.
  assert (∀ z, z ∈ s :: l ++ [s] -> h' !! z = h !! z) as Hf' by (intros z Hz; apply Hf; set_solver).
  unfold get_next, get_prev. rewrite !Hf'; [done|rewrite E; set_solver..].
Qed.

Lemma pool_put h d elems s e l1 l2 :
  poolrep h d elems s -> e ∈ p_out s -> p_free s = l1 ++ l2 ->
  ∃ h', dll_insert h e (before (free_list d) l1) = Some h'
    ∧ poolrep h' (set_free_count (u16 (free_count d + 1)) d) elems
        (mk_poolst (l1 ++ e :: l2) (p_out s ∖ {[e]})).
Proof.
  intros H He Hl. pose proof (pl_room _ _ _ _ e H He) as Hroom. pose proof H as [Hrep Hc Hp Hd Hdom Hh Hm].
  assert (e ∈ elems) as Hee by (apply Hp; by right).
  rewrite Hl in Hrep. destruct (dllrep_insert h (free_list d) l1 l2 e Hrep) as (h' & E & Hrep' & Hdom' & _).
  - rewrite <-Hl. intros [->|Hf]%elem_of_cons; [done|]. by apply (Hd e).
  - by apply Hdom.
  - exists h'. split; [done|]. split; cbn [free_list free_count set_free_count p_free p_out]; try done.
    + rewrite Hc, u16_small by lia. rewrite Hl, !length_app. simpl. lia.
    + intros x. rewrite <-Hp, Hl, elem_of_difference, elem_of_singleton, !elem_of_app, elem_of_cons.
      destruct (decide (x = e)) as [->|]; naive_solver.
    + intros x Hx [Ho Hne]%elem_of_difference. apply (Hd x); [|done]. rewrite Hl. set_solver.
    + intros x Hx. apply elem_of_dom. rewrite Hdom'. by apply elem_of_dom, Hdom.
Qed.

Lemma pool_exec_step o h d elems s :
  poolrep h d elems s -> pool_enabled o s = true ->
  ∃ h' d', pool_exec o h d = Some (fst (pool_spec o s), h', d')
    ∧ poolrep h' d' elems (snd (pool_spec o s)) ∧ free_list d' = free_list d.
Proof.
  intros H He. pose proof H as [Hrep Hc Hp Hd Hdom Hh Hm].
  destruct o as [|e|e|e n p]; cbn [pool_exec pool_spec pool_enabled] in *;
    try apply bool_decide_eq_true in He.
  - unfold dll_pool_alloc. destruct (p_free s) as [|e l] eqn:E.
    + rewrite bool_decide_true by done. exists h, d. by split_and!.
    + pose proof (pl_bound _ _ _ _ H) as Hb. rewrite E in Hb. simpl in Hb, Hc.
      rewrite bool_decide_false by lia. pose proof Hrep as [(Hn & _) _].
      unfold dll_head_p. rewrite Hn. cbn [mbind option_bind].
      destruct (dllrep_delete h (free_list d) [] l e Hrep) as (h' & -> & Hrep' & Hdom' & _).
      cbn [mbind option_bind]. eexists _, _. split; [done|]. split; [|done].
      destruct Hrep as [_ [_ [Hel _]%NoDup_cons]%NoDup_cons].
      split; cbn [free_list free_count set_free_count p_free p_out fst snd]; try done.
      * rewrite Hc, u16_small by lia. lia.
      * intros x. rewrite <-Hp. set_solver.
      * intros x Hx. rewrite elem_of_union, elem_of_singleton. intros [->|Ho]; [done|].
        apply (Hd x); [by right|done].
      * intros x Hx. apply elem_of_dom. rewrite Hdom'. by apply elem_of_dom, Hdom.
  - destruct (pool_put h d elems s e [] (p_free s) H He eq_refl) as (h' & E & Hrep').
    unfold dll_pool_free, dll_prepend. unfold before in E. simpl in E. rewrite E.
    cbn [mbind option_bind]. eexists _, _. by split_and!.
  - destruct (pool_put h d elems s e (p_free s) [] H He ltac:(by rewrite app_nil_r)) as (h' & E & Hrep').
    unfold dll_pool_free_tail, dll_append, dll_tail_p.
    rewrite <-(app_nil_r (p_free s)) in Hrep.
    destruct (gap_links h (free_list d) (p_free s) [] [] Hrep) as (_ & (_ & Hpv & _) & _).
    unfold after in Hpv. simpl in Hpv. rewrite Hpv. cbn [mbind option_bind]. rewrite E.
    cbn [mbind option_bind]. eexists _, _. by split_and!.
  - eexists _, _. split; [done|]. split; [|done]. split; cbn [fst snd]; try done.
    + eapply dllrep_agree; [|done]. intros x Hx. rewrite lookup_insert_ne; [done|]. intros <-.
      apply elem_of_cons in Hx as [->|Hx]; [|by apply (Hd e)]. apply Hh, Hp. by right.
    + intros x Hx. destruct (decide (x = e)) as [->|]; simplify_map_eq; [eauto|by apply Hdom].
Qed.

Lemma pool_exec_all_step elems os : ∀ h d s,
  poolrep h d elems s -> pool_enabled_all os s = true ->
  ∃ h' d', pool_exec_all os h d = Some (fst (pool_spec_all os s), h', d')
    ∧ poolrep h' d' elems (snd (pool_spec_all os s)).
Proof.
  induction os as [|o os IH]; intros h d s H He; simpl in *; [by exists h, d|].
  apply andb_true_iff in He as [Ho He].
  destruct (pool_exec_step o h d elems s H Ho) as (h1 & d1 & -> & H1 & _).
  destruct (pool_spec o s) as [r s1]. simpl in *. destruct (IH _ _ _ H1 He) as (h2 & d2 & -> & H2).
  destruct (pool_spec_all os s1) as [rs s2]. simpl in *. by exists h2, d2.
Qed.

(** ** Initialisation of a pool *)

Lemma zero_nodes_dom h l x : x ∈ l -> is_Some (zero_nodes h l !! x).
Proof.
  induction l as [|y l IH]; simpl; [by intros ?%elem_of_nil|]. intros [->|Hx]%elem_of_cons.
  - by simplify_map_eq.
  - destruct (decide (x = y)) as [->|]; simplify_map_eq; [done|by apply IH].
Qed.

Lemma element_lt p sz i j : 0 < sz -> (i < j)%nat -> element p sz i < element p sz j.
Proof. intros Hs Hij. unfold element. nia. Qed.

Lemma elements_nodup p n sz : 0 < sz -> NoDup (elements_of p n sz).
Proof.
  intros Hs. unfold elements_of. apply NoDup_fmap_2_strong; [|apply NoDup_seq].
  intros i j _ _ E. destruct (Nat.lt_trichotomy i j) as [Hlt|[->|Hlt]]; [|done|].
  - pose proof (element_lt p sz i j Hs Hlt). lia.
  - pose proof (element_lt p sz j i Hs Hlt). lia.
Qed.

Lemma pool_loop_spec s p sz n : ∀ k h,
  0 < sz -> dllrep h s (element p sz <$> seq 0 k) ->
  (∀ i, s ≠ element p sz i) -> (∀ i, (i < k + n)%nat -> is_Some (h !! element p sz i)) ->
  ∃ h', pool_loop n h s (element p sz k) sz = Some h' ∧ dllrep h' s (element p sz <$> seq 0 (k + n))
    ∧ dom h' = dom h.
Proof.
  induction n as [|n IH]; intros k h Hs H Hne Hd; cbn [pool_loop].
  - exists h. by rewrite Nat.add_0_r.
  - unfold dll_append, dll_tail_p. rewrite <-(app_nil_r (_ <$> _)) in H.
    destruct (gap_links h s (element p sz <$> seq 0 k) [] [] H) as (_ & (_ & Hpv & _) & _).
    unfold after in Hpv. simpl in Hpv. rewrite Hpv. cbn [mbind option_bind].
    destruct (dllrep_insert h s _ [] (element p sz k) H) as (h1 & -> & H1 & D1 & _).
    + rewrite app_nil_r. intros [E|(i & E & Hi%elem_of_seq)%list_elem_of_fmap]%elem_of_cons.
      * by apply (Hne k).
      * pose proof (element_lt p sz i k Hs ltac:(lia)). lia.
    + apply Hd. lia.
    + cbn [mbind option_bind].
      replace (element p sz k + sz) with (element p sz (S k)) by (unfold element; lia).
      destruct (IH (S k) h1 Hs) as (h2 & -> & H2 & D2).
      * rewrite seq_S, fmap_app. done.
      * done.
      * intros i Hi. apply elem_of_dom. rewrite D1. apply elem_of_dom, Hd. lia.
      * exists h2. rewrite Nat.add_succ_r. split_and!; [done..|congruence].
Qed.

Lemma dll_pool_init_spec p h n sz :
  0 <= n < 65536 -> 0 < sz ->
  ∃ h' d, dll_pool_init (Some p) h n sz = Some (Some d, h') ∧ free_list d = p
    ∧ poolrep h' d (elements_of p n sz) (mk_poolst (elements_of p n sz) ∅).
Proof.
  intros Hn Hs. unfold dll_pool_init. set (es := elements_of p n sz).
  assert (∀ i, p ≠ element p sz i) as Hne by (intros i; unfold element, ELEMENTS_OFF; nia).
  assert (p ∉ es) as Hpes.
  { intros (i & E & _)%list_elem_of_fmap. by apply (Hne i). }
  set (h0 := zero_nodes h (p :: es)).
  assert (∀ x, x ∈ p :: es -> is_Some (h0 !! x)) as Hd0 by apply zero_nodes_dom.
  unfold dll_init.
  destruct (set_next_spec h0 p p) as (h1 & -> & (D1 & N1 & P1) & E1); [apply Hd0; left|].
  cbn [mbind option_bind].
  destruct (set_prev_spec h1 p p) as (h2 & -> & (D2 & N2 & P2) & E2).
  { apply elem_of_dom. rewrite D1. apply elem_of_dom, Hd0. left. }
  cbn [mbind option_bind].
  destruct (pool_loop_spec p p sz (Z.to_nat n) 0 h2) as (h3 & E3 & H3 & D3).
  - done.
  - split; [|apply NoDup_singleton]. simpl. rewrite N2, E1, E2 by set_solver. done.
  - done.
  - intros i Hi. apply elem_of_dom. rewrite D2, D1. apply elem_of_dom, Hd0. right.
    apply list_elem_of_fmap. exists i. split; [done|]. apply elem_of_seq. lia.
  - replace (element p sz 0) with (p + ELEMENTS_OFF) in E3 by (unfold element; lia). rewrite E3.
    cbn [mbind option_bind]. eexists _, _. split; [done|]. split; [done|].
    split; cbn [free_list free_count p_free p_out]; try done.
    + unfold es, elements_of. rewrite length_fmap, length_seq. lia.
    + intros x. split; [intros [?|Hx]; [done|by apply elem_of_empty in Hx]|by left].
    + intros x Hx. apply elem_of_dom. rewrite D3, D2, D1. apply elem_of_dom, Hd0. by right.
    + unfold es, elements_of. rewrite length_fmap, length_seq. lia.
Qed.

(** C28.  From dll_pool_init, every sequence of dll_pool_alloc, dll_pool_free
    and dll_pool_free_tail on allocated elements, with the owners writing what
    they like into allocated elements, follows the links safely and behaves as a
    free list of the elements: allocation takes the first or returns NULL when
    the list is empty, free puts at the front, free_tail at the end; an element
    is never handed out twice and the 16-bit count is the length of the list. *)
Theorem dll_pool_run_refines (p : Z) (h : nodes) (n sz : Z) (os : list poolop) :
  0 <= n < 65536 -> SIZEOF_DLL < sz ->
  let s := mk_poolst (elements_of p n sz) ∅ in
  pool_enabled_all os s = true ->
  ∃ d h1 h' d', dll_pool_init (Some p) h n sz = Some (Some d, h1)
    ∧ pool_exec_all os h1 d = Some (fst (pool_spec_all os s), h', d')
    ∧ poolrep h' d' (elements_of p n sz) (snd (pool_spec_all os s)).
Proof.
  intros Hn Hs s He. unfold SIZEOF_DLL in Hs.
  destruct (dll_pool_init_spec p h n sz Hn ltac:(lia)) as (h1 & d & E & _ & Hrep).
  destruct (pool_exec_all_step _ os h1 d s Hrep He) as (h' & d' & E' & Hrep').
  by exists d, h1, h', d'.
Qed.

Lemma dll_pool_run_refines_witness :
  ∃ d h1 h' d', dll_pool_init (Some 1000) ∅ 3 32 = Some (Some d, h1)
    ∧ pool_exec_all [PoolAlloc; PoolAlloc; PoolUse 1024 7 8; PoolFreeTail 1024; PoolAlloc; PoolAlloc;
                     PoolAlloc; PoolFree 1056; PoolAlloc] h1 d
      = Some ([Some 1024; Some 1056; None; None; Some 1088; Some 1024; None; None; Some 1056], h', d').
Proof.
  destruct (dll_pool_run_refines 1000 ∅ 3 32 [PoolAlloc; PoolAlloc; PoolUse 1024 7 8; PoolFreeTail 1024;
    PoolAlloc; PoolAlloc; PoolAlloc; PoolFree 1056; PoolAlloc]) as (d & h1 & h' & d' & E & E' & _);
    [lia|unfold SIZEOF_DLL; lia|vm_compute; reflexivity|].
  exists d, h1, h', d'. split; [exact E|]. rewrite E'. vm_compute. reflexivity.
Defined.
