(* ===== verification/CrcTheorems.v ===== *)
(** * The cyclic redundancy checks: the properties *)

From S2P Require Import Prelude Crc.

(** ** The bitwise reference *)

(** One bit of polynomial division, least significant bit first; [poly] is the
    reflected polynomial. *)
Definition crc_bit (poly c : Z) : Z :=
  if Z.testbit c 0 then Z.lxor (Z.shiftr c 1) poly else Z.shiftr c 1.

Fixpoint crc_bits (k : nat) (poly c : Z) : Z :=
  match k with O => c | S k => crc_bits k poly (crc_bit poly c) end.

Definition crc_byte (poly c x : Z) : Z := crc_bits 8 poly (Z.lxor c x).

Definition crc_ref (poly : Z) (data : list Z) (c : Z) : Z := fold_left (crc_byte poly) data c.

(** x^8 + x^7 + x^6 + x^4 + x^2 + 1, x^16 + x^12 + x^5 + 1, and the polynomial
    of IEEE 802.3, reflected and without the leading term. *)
Definition poly8 : Z := 0xAB.
Definition poly16 : Z := 0x8408.
Definition poly32 : Z := 0xEDB88320.

(** [reflect n p] has the bits of [p] in the opposite order. *)
Fixpoint reflect (n : nat) (p : Z) : Z :=
  match n with
  | O => 0
  | S n => Z.lor (Z.shiftl (Z.b2z (Z.testbit p 0)) (Z.of_nat n)) (reflect n (Z.shiftr p 1))
  end.

(** ** Linearity *)

Lemma crc_bit_lxor poly a b : crc_bit poly (Z.lxor a b) = Z.lxor (crc_bit poly a) (crc_bit poly b).
Proof.
  unfold crc_bit. rewrite Z.lxor_spec, Z.shiftr_lxor.
  destruct (Z.testbit a 0), (Z.testbit b 0); simpl;
    apply Z.bits_inj'; intros i Hi; rewrite ?Z.lxor_spec;
    by destruct (Z.testbit (Z.shiftr a 1) i), (Z.testbit (Z.shiftr b 1) i), (Z.testbit poly i).
Qed.

Lemma crc_bits_lxor k poly a b : crc_bits k poly (Z.lxor a b) = Z.lxor (crc_bits k poly a) (crc_bits k poly b).
Proof. revert a b. induction k as [|k IH]; intros a b; simpl; [done|]. by rewrite crc_bit_lxor, IH. Qed.

Lemma crc_bits_add j k poly c : crc_bits (j + k) poly c = crc_bits k poly (crc_bits j poly c).
Proof. revert c. induction j as [|j IH]; intros c; simpl; [done|]. apply IH. Qed.

(** Shifting zeros in at the bottom is undone without feedback. *)
Lemma crc_bits_shiftl k poly d : crc_bits k poly (Z.shiftl d (Z.of_nat k)) = d.
Proof.
  induction k as [|k IH]; [apply Z.shiftl_0_r|]. cbn [crc_bits]. unfold crc_bit.
  rewrite Z.shiftl_spec, Z.testbit_neg_r by lia.
  rewrite Z.shiftr_shiftl_l by lia. replace (Z.of_nat (S k) - 1) with (Z.of_nat k) by lia. done.
Qed.

Lemma crc_bits_shiftl8 poly d : crc_bits 8 poly (Z.shiftl d 8) = d.
Proof. apply (crc_bits_shiftl 8). Qed.

Lemma split_byte c : c = Z.lxor (Z.land c 255) (Z.shiftl (Z.shiftr c 8) 8).
Proof.
  apply Z.bits_inj'. intros i Hi. rewrite Z.lxor_spec, Z.land_spec, Z.shiftl_spec by done.
  change 255 with (Z.ones 8). destruct (decide (i < 8)).
  - rewrite Z.ones_spec_low, (Z.testbit_neg_r (Z.shiftr c 8)) by lia. by rewrite andb_true_r, xorb_false_r.
  - rewrite Z.ones_spec_high, Z.shiftr_spec by lia. rewrite andb_false_r, xorb_false_l. f_equal. lia.
Qed.

(** Eight bits at once, from a table of the 256 remainders. *)
Lemma crc_bits_table poly table c :
  forallb (fun i => nth (Z.to_nat i) table 0 =? crc_bits 8 poly i) (seqZ 0 256) = true ->
  crc_bits 8 poly c = Z.lxor (Z.shiftr c 8) (nth (Z.to_nat (Z.land c 255)) table 0).
Proof.
  intros Ht. rewrite (split_byte c) at 1. rewrite crc_bits_lxor.
  rewrite crc_bits_shiftl8, Z.lxor_comm. f_equal.
  rewrite forallb_forall in Ht. symmetry. apply Z.eqb_eq, Ht.
  rewrite <-list_elem_of_In, elem_of_seqZ. change 255 with (Z.ones 8). rewrite Z.land_ones by lia.
  pose proof (Z.mod_pos_bound c (2 ^ 8) ltac:(lia)). lia.
Qed.

Definition bytes (l : list Z) : Prop := Forall (fun x => 0 <= x < 256) l.

Lemma shiftr_byte x : 0 <= x < 256 -> Z.shiftr x 8 = 0.
Proof. intros Hx. rewrite Z.shiftr_div_pow2 by done. by apply Z.div_small. Qed.

(** The word loop of the code is the reference step. *)
Lemma inner_loop_spec poly table c x :
  forallb (fun i => nth (Z.to_nat i) table 0 =? crc_bits 8 poly i) (seqZ 0 256) = true ->
  0 <= x < 256 -> CRC_INNER_LOOP table c x = crc_byte poly c x.
Proof.
  intros Ht Hx. unfold CRC_INNER_LOOP, table_at, crc_byte.
  rewrite (crc_bits_table poly table) by done.
  by rewrite Z.shiftr_lxor, (shiftr_byte x), Z.lxor_0_r.
Qed.

Lemma table8 : forallb (fun i => nth (Z.to_nat i) crc8_table 0 =? crc_bits 8 poly8 i) (seqZ 0 256) = true.
Proof. vm_compute. reflexivity. Qed.
Lemma table16 : forallb (fun i => nth (Z.to_nat i) crc16_table 0 =? crc_bits 8 poly16 i) (seqZ 0 256) = true.
Proof. vm_compute. reflexivity. Qed.
Lemma table32 : forallb (fun i => nth (Z.to_nat i) crc32_table 0 =? crc_bits 8 poly32 i) (seqZ 0 256) = true.
Proof. vm_compute. reflexivity. Qed.

Lemma table_at8 c x : 0 <= c < 256 -> 0 <= x < 256 -> table_at crc8_table c x = crc_byte poly8 c x.
Proof.
  intros Hc Hx. rewrite <-(inner_loop_spec poly8 crc8_table) by (done || apply table8).
  unfold CRC_INNER_LOOP. by rewrite (shiftr_byte c), Z.lxor_0_l.
Qed.

(** ** Width and injectivity *)

Section Width.
Context (n : Z) (poly : Z).
Context (Hn : 8 <= n) (Hpoly : 0 <= poly < 2 ^ n) (Htop : Z.testbit poly (n - 1) = true).

Definition fits (c : Z) : Prop := 0 <= c < 2 ^ n.

Lemma fits_bits c : 0 <= c -> (∀ i, n <= i -> Z.testbit c i = false) -> fits c.
Proof.
  intros Hc H. split; [done|]. destruct (decide (c = 0)) as [->|]; [apply Z.pow_pos_nonneg; lia|].
  apply Z.log2_lt_pow2; [lia|]. destruct (decide (Z.log2 c < n)); [done|].
  pose proof (Z.bit_log2 c ltac:(lia)) as Hb. rewrite H in Hb; [done|lia].
Qed.

Lemma fits_high c i : fits c -> n <= i -> Z.testbit c i = false.
Proof.
  intros [Hc Hlt] Hi. destruct (decide (c = 0)) as [->|]; [apply Z.bits_0|].
  apply Z.bits_above_log2; [done|]. assert (Z.log2 c < n) by (apply Z.log2_lt_pow2; lia). lia.
Qed.

Lemma fits_lxor a b : fits a -> fits b -> fits (Z.lxor a b).
Proof.
  intros Ha Hb. apply fits_bits; [apply Z.lxor_nonneg; split; intros; [apply Hb|apply Ha]|].
  intros i Hi. by rewrite Z.lxor_spec, !fits_high.
Qed.

Lemma fits_shiftr a : fits a -> fits (Z.shiftr a 1).
Proof.
  intros Ha. apply fits_bits; [apply Z.shiftr_nonneg, Ha|]. intros i Hi.
  rewrite Z.shiftr_spec by lia. apply fits_high; [done|lia].
Qed.

Lemma fits_byte x : 0 <= x < 256 -> fits x.
Proof.
  intros Hx. split; [lia|]. apply Z.lt_le_trans with (2 ^ 8); [lia|]. apply Z.pow_le_mono_r; lia.
Qed.

Lemma crc_bit_fits c : fits c -> fits (crc_bit poly c).
Proof.
  intros Hc. unfold crc_bit. destruct (Z.testbit c 0); [apply fits_lxor; [|done]|]; by apply fits_shiftr.
Qed.

Lemma crc_bits_fits k c : fits c -> fits (crc_bits k poly c).
Proof. revert c. induction k as [|k IH]; intros c Hc; simpl; [done|]. by apply IH, crc_bit_fits. Qed.

Lemma crc_byte_fits c x : fits c -> 0 <= x < 256 -> fits (crc_byte poly c x).
Proof. intros Hc Hx. by apply crc_bits_fits, fits_lxor, fits_byte. Qed.

Lemma crc_ref_fits l : ∀ c, fits c -> bytes l -> fits (crc_ref poly l c).
Proof.
  induction l as [|x l IH]; intros c Hc Hl; simpl; [done|]. apply Forall_cons in Hl as [Hx Hl].
  apply IH; [|done]. by apply crc_byte_fits.
Qed.

(** The bit fed back is the top bit of the result, so no state is lost. *)
Lemma crc_bit_zero c : fits c -> crc_bit poly c = 0 -> c = 0.
Proof.
  intros Hc H0. assert (Z.testbit c 0 = false) as Hb.
  { destruct (Z.testbit c 0) eqn:E; [|done]. exfalso.
    assert (Z.testbit (crc_bit poly c) (n - 1) = true) as Ht; [|by rewrite H0, Z.bits_0 in Ht].
    unfold crc_bit. rewrite E, Z.lxor_spec, Htop, Z.shiftr_spec, fits_high by (done || lia). done. }
  unfold crc_bit in H0. rewrite Hb in H0. apply Z.bits_inj'. intros i Hi. rewrite Z.bits_0.
  destruct (decide (i = 0)) as [->|]; [done|].
  replace i with (i - 1 + 1) by lia. rewrite <-Z.shiftr_spec by lia. by rewrite H0, Z.bits_0.
Qed.

Lemma crc_bits_zero k c : fits c -> crc_bits k poly c = 0 -> c = 0.
Proof.
  revert c. induction k as [|k IH]; intros c Hc H; simpl in H; [done|].
  apply crc_bit_zero; [done|]. apply IH; [by apply crc_bit_fits|done].
Qed.

Lemma lxor_zero_eq a b : Z.lxor a b = 0 -> a = b.
Proof. apply Z.lxor_eq. Qed.

Lemma crc_bits_inj k a b : fits a -> fits b -> crc_bits k poly a = crc_bits k poly b -> a = b.
Proof.
  intros Ha Hb E. apply lxor_zero_eq, (crc_bits_zero k); [by apply fits_lxor|].
  by rewrite crc_bits_lxor, E, Z.lxor_nilpotent.
Qed.

Lemma lxor_cancel c a b : Z.lxor c a = Z.lxor c b -> a = b.
Proof.
  intros E. rewrite <-(Z.lxor_0_l a), <-(Z.lxor_0_l b), <-(Z.lxor_nilpotent c), !Z.lxor_assoc. by rewrite E.
Qed.

(** Different states stay different over the same bytes. *)
Lemma crc_ref_inj l : ∀ a b, fits a -> fits b -> bytes l -> crc_ref poly l a = crc_ref poly l b -> a = b.
Proof.
  induction l as [|x l IH]; intros a b Ha Hb Hl E; simpl in E; [done|].
  apply Forall_cons in Hl as [Hx Hl].
  apply IH in E; [|by apply crc_byte_fits..|done].
  apply crc_bits_inj in E; [|by apply fits_lxor, fits_byte..].
  rewrite !(Z.lxor_comm _ x) in E. by apply lxor_cancel in E.
Qed.

Lemma crc_ref_detects l1 x y l2 c :
  fits c -> bytes (l1 ++ l2) -> 0 <= x < 256 -> 0 <= y < 256 -> x ≠ y ->
  crc_ref poly (l1 ++ x :: l2) c ≠ crc_ref poly (l1 ++ y :: l2) c.
Proof.
  intros Hc Hl Hx Hy Hne E. apply Forall_app in Hl as [Hl1 Hl2].
  unfold crc_ref in E. rewrite !fold_left_app in E. simpl in E. fold (crc_ref poly l1 c) in E.
  pose proof (crc_ref_fits l1 c Hc Hl1) as Hf.
  apply crc_ref_inj in E; [|by apply crc_byte_fits..|done].
  apply crc_bits_inj in E; [|by apply fits_lxor, fits_byte..]. by apply lxor_cancel in E.
Qed.
End Width.

(** Feeding the bytes of a word, least significant first, divides [8 * k] bits
    at once. *)
Fixpoint le_bytes (k : nat) (w : Z) : list Z :=
  match k with O => [] | S k => Z.land w 255 :: le_bytes k (Z.shiftr w 8) end.

Lemma crc_ref_word poly k : ∀ c w,
  0 <= w < 2 ^ (8 * Z.of_nat k) -> crc_ref poly (le_bytes k w) c = crc_bits (8 * k) poly (Z.lxor c w).
Proof.
  induction k as [|k IH]; intros c w Hw.
  - assert (w = 0) as -> by (change (2 ^ (8 * Z.of_nat 0)) with 1 in Hw; lia). simpl. by rewrite Z.lxor_0_r.
  - cbn [le_bytes]. unfold crc_ref. cbn [fold_left]. fold (crc_ref poly (le_bytes k (Z.shiftr w 8)) (crc_byte poly c (Z.land w 255))).
    rewrite IH.
    2:{ rewrite Z.shiftr_div_pow2 by done. split; [apply Z.div_pos; lia|].
        apply Z.div_lt_upper_bound; [lia|]. rewrite <-Z.pow_add_r by lia.
        replace (8 + 8 * Z.of_nat k) with (8 * Z.of_nat (S k)) by lia. lia. }
    replace (8 * S k)%nat with (8 + 8 * k)%nat by lia. rewrite crc_bits_add. f_equal.
    rewrite (split_byte w) at 3. unfold crc_byte.
    rewrite <-Z.lxor_assoc, (crc_bits_lxor 8 poly _ (Z.shiftl _ 8)).
    by rewrite crc_bits_shiftl8.
Qed.

(** ** The code is the reference *)

Lemma hndcrc8_ref l : ∀ c, bytes l -> 0 <= c < 256 -> hndcrc8 l c = crc_ref poly8 l c.
Proof.
  induction l as [|x l IH]; intros c Hl Hc; cbn [hndcrc8]; [done|]. apply Forall_cons in Hl as [Hx Hl].
  rewrite table_at8 by done. apply IH; [done|].
  apply (crc_byte_fits 8 poly8); [done|split; reflexivity || done|exact Hc|done].
Qed.
Lemma hndcrc16_ref l : ∀ c, bytes l -> hndcrc16 l c = crc_ref poly16 l c.
Proof.
  induction l as [|x l IH]; intros c Hl; cbn [hndcrc16]; [done|]. apply Forall_cons in Hl as [Hx Hl].
  rewrite (inner_loop_spec poly16) by (done || apply table16). by apply IH.
Qed.
Lemma hndcrc32_ref l : ∀ c, bytes l -> hndcrc32 l c = crc_ref poly32 l c.
Proof.
  induction l as [|x l IH]; intros c Hl; cbn [hndcrc32]; [done|]. apply Forall_cons in Hl as [Hx Hl].
  rewrite (inner_loop_spec poly32) by (done || apply table32). by apply IH.
Qed.

(** C29.  The three table-driven routines compute the remainder of the bitwise
    polynomial division, least significant bit first, by the polynomials that
    the comments of the source name; they can be run over a message in pieces. *)
Theorem crc_table_driven (l l' : list Z) (c : Z) :
  bytes l -> bytes l' ->
  (0 <= c < 256 -> hndcrc8 l c = crc_ref (reflect 8 0xD5) l c)
  ∧ hndcrc16 l c = crc_ref (reflect 16 0x1021) l c
  ∧ hndcrc32 l c = crc_ref (reflect 32 0x04C11DB7) l c
  ∧ (0 <= c < 256 -> hndcrc8 (l ++ l') c = hndcrc8 l' (hndcrc8 l c))
  ∧ hndcrc16 (l ++ l') c = hndcrc16 l' (hndcrc16 l c)
  ∧ hndcrc32 (l ++ l') c = hndcrc32 l' (hndcrc32 l c).
Proof.
  intros Hl Hl'. change (reflect 8 0xD5) with poly8. change (reflect 16 0x1021) with poly16.
  change (reflect 32 0x04C11DB7) with poly32.
  assert (bytes (l ++ l')) as Hll by (by apply Forall_app).
  split; [by apply hndcrc8_ref|]. split; [by apply hndcrc16_ref|]. split; [by apply hndcrc32_ref|].
  split; [|split].
  - intros Hc. assert (0 <= crc_ref poly8 l c < 256) as Hc'
      by (apply (crc_ref_fits 8 poly8); try done; apply Hc).
    rewrite !hndcrc8_ref by done || (rewrite hndcrc8_ref; done). unfold crc_ref. apply fold_left_app.
  - rewrite !hndcrc16_ref by done. unfold crc_ref. apply fold_left_app.
  - rewrite !hndcrc32_ref by done. unfold crc_ref. apply fold_left_app.
Qed.

(** Concrete lists of bytes. *)
Ltac prove_bytes :=
  unfold bytes; cbn [app]; repeat (apply Forall_cons; split; [lia|]); apply Forall_nil; exact I.

(** "123456789" *)
Definition check_string : list Z := [49; 50; 51; 52; 53; 54; 55; 56; 57].

Lemma crc_table_driven_witness :
  hndcrc32 check_string CRC32_INIT_VALUE = crc_ref (reflect 32 0x04C11DB7) check_string CRC32_INIT_VALUE
  ∧ Z.lxor (hndcrc32 check_string CRC32_INIT_VALUE) 0xffffffff = 0xCBF43926.
Proof.
  split; [|vm_compute; reflexivity].
  apply (crc_table_driven check_string [] CRC32_INIT_VALUE);
    prove_bytes.
Defined.

(** A message followed by its complemented checksum, least significant
    byte first, checks to the GOOD value, whatever the message. *)
Theorem crc_good_value (l : list Z) :
  bytes l ->
  hndcrc8 (l ++ le_bytes 1 (Z.lxor (hndcrc8 l CRC8_INIT_VALUE) 0xff)) CRC8_INIT_VALUE = CRC8_GOOD_VALUE
  ∧ hndcrc16 (l ++ le_bytes 2 (Z.lxor (hndcrc16 l CRC16_INIT_VALUE) 0xffff)) CRC16_INIT_VALUE = CRC16_GOOD_VALUE
  ∧ hndcrc32 (l ++ le_bytes 4 (Z.lxor (hndcrc32 l CRC32_INIT_VALUE) 0xffffffff)) CRC32_INIT_VALUE
    = CRC32_GOOD_VALUE.
Proof.
  intros Hl.
  assert (∀ k w, bytes (le_bytes k w)) as Hle.
  { induction k as [|k IH]; intros w; simpl; [constructor|]. constructor; [|apply IH].
    change 255 with (Z.ones 8). rewrite Z.land_ones by lia. apply Z.mod_pos_bound. lia. }
  assert (∀ n poly k c ones, 8 <= n -> 0 <= poly < 2 ^ n -> fits n c -> fits n ones -> n = 8 * Z.of_nat k ->
    crc_ref poly (l ++ le_bytes k (Z.lxor (crc_ref poly l c) ones)) c = crc_bits (8 * k) poly ones) as Hgood.
  { intros n poly k c ones Hn Hp Hc Ho ->. unfold crc_ref at 1. rewrite fold_left_app.
    fold (crc_ref poly l c). set (r := crc_ref poly l c).
    change (fold_left (crc_byte poly) ?x ?y) with (crc_ref poly x y). rewrite crc_ref_word.
    - by rewrite <-Z.lxor_assoc, Z.lxor_nilpotent, Z.lxor_0_l.
    - apply (fits_lxor (8 * Z.of_nat k)); [done| |done]. by apply (crc_ref_fits (8 * Z.of_nat k)). }
  split; [|split].
  - rewrite !hndcrc8_ref by (done || (split; done) || (apply Forall_app; split; [done|apply Hle])).
    rewrite (Hgood 8) by (done || split; done). vm_compute. reflexivity.
  - rewrite !hndcrc16_ref by (done || (split; done) || (apply Forall_app; split; [done|apply Hle])).
    rewrite (Hgood 16) by (done || split; done). vm_compute. reflexivity.
  - rewrite !hndcrc32_ref by (done || (split; done) || (apply Forall_app; split; [done|apply Hle])).
    rewrite (Hgood 32) by (done || split; done). vm_compute. reflexivity.
Qed.

Lemma crc_good_value_witness :
  hndcrc32 (check_string ++ [0x26; 0x39; 0xF4; 0xCB]) CRC32_INIT_VALUE = CRC32_GOOD_VALUE.
Proof. apply (crc_good_value check_string). prove_bytes. Defined.

(** Every corruption of a single byte of a message changes each of the
    three checksums. *)
Theorem crc_detects_byte (l1 l2 : list Z) (x y c : Z) :
  bytes (l1 ++ l2) -> 0 <= x < 256 -> 0 <= y < 256 -> x ≠ y ->
  (0 <= c < 256 -> hndcrc8 (l1 ++ x :: l2) c ≠ hndcrc8 (l1 ++ y :: l2) c)
  ∧ (0 <= c < 65536 -> hndcrc16 (l1 ++ x :: l2) c ≠ hndcrc16 (l1 ++ y :: l2) c)
  ∧ (0 <= c < 4294967296 -> hndcrc32 (l1 ++ x :: l2) c ≠ hndcrc32 (l1 ++ y :: l2) c).
Proof.
  intros Hl Hx Hy Hne. assert (∀ z, 0 <= z < 256 -> bytes (l1 ++ z :: l2)) as Hb.
  { intros z Hz. apply Forall_app in Hl as [H1 H2]. apply Forall_app. split; [done|by constructor]. }
  split; [|split]; intros Hc.
  - rewrite !hndcrc8_ref by auto. by apply (crc_ref_detects 8).
  - rewrite !hndcrc16_ref by auto. by apply (crc_ref_detects 16).
  - rewrite !hndcrc32_ref by auto. by apply (crc_ref_detects 32).
Qed.

Lemma crc_detects_byte_witness :
  hndcrc32 ([1; 2] ++ 3 :: [4]) CRC32_INIT_VALUE ≠ hndcrc32 ([1; 2] ++ 7 :: [4]) CRC32_INIT_VALUE.
Proof.
  apply (crc_detects_byte [1; 2] [4] 3 7 CRC32_INIT_VALUE); try lia.
  - prove_bytes.
  - unfold CRC32_INIT_VALUE. lia.
Defined.
