(* ===== verification/Mem.v ===== *)
(** * Byte memory

    One address space of bytes for the routines that parse and build buffers: a
    pointer is an address, NULL is [None].  [None] as a result is an access
    outside the allocated bytes, or a memcpy between overlapping regions. *)

From S2P Require Import Prelude.

Abbreviation mem := (list Z).

Definition rd8 (m : mem) (p : Z) : option Z :=
  if bool_decide (0 <= p) then m !! Z.to_nat p else None.

Definition wr8 (m : mem) (p v : Z) : option mem :=
  _ ← rd8 m p; Some (<[Z.to_nat p := u8 v]> m).

(** The [n] bytes at [p]. *)
Definition slice (m : mem) (p : Z) (n : nat) : list Z := take n (drop (Z.to_nat p) m).

(** [p, p + n) lies in the memory. *)
Definition readable (m : mem) (p n : Z) : bool :=
  bool_decide (0 <= p) && bool_decide (0 <= n) && bool_decide (p + n <= Z.of_nat (length m)).

(** The bytes of [m] with those at [p] replaced by [l]. *)
Definition splice (m : mem) (p : Z) (l : list Z) : mem :=
  take (Z.to_nat p) m ++ l ++ drop (Z.to_nat p + length l) m.

Definition memcpy (m : mem) (dst src n : Z) : option mem :=
  if bool_decide (n = 0) then Some m
  else if readable m dst n && readable m src n
          && (bool_decide (dst + n <= src) || bool_decide (src + n <= dst))
       then Some (splice m dst (slice m src (Z.to_nat n))) else None.

(** [bcmp(a, b, n) == 0], reading up to the first difference. *)
Fixpoint bcmp0 (m : mem) (a b : Z) (n : nat) : option bool :=
  match n with
  | O => Some true
  | S n => x ← rd8 m a; y ← rd8 m b;
           if bool_decide (x = y) then bcmp0 m (a + 1) (b + 1) n else Some false
  end.

(** Every cell holds a byte. *)
Definition bytes_ok (m : mem) : Prop := Forall (fun x => 0 <= x < 256) m.

(** ** Reading *)

Lemma readable_spec m p n :
  readable m p n = true <-> 0 <= p ∧ 0 <= n ∧ p + n <= Z.of_nat (length m).
Proof. unfold readable. rewrite !andb_true_iff, !bool_decide_eq_true. tauto. Qed.

Lemma length_slice m p n : readable m p (Z.of_nat n) = true -> length (slice m p n) = n.
Proof. intros H%readable_spec. unfold slice. rewrite length_take, length_drop. lia. Qed.

Lemma slice_lookup m p n i : (i < n)%nat -> slice m p n !! i = m !! (Z.to_nat p + i)%nat.
Proof. intros Hi. unfold slice. by rewrite lookup_take_lt, lookup_drop. Qed.

(** What is read at [p + i] is byte [i] of the slice. *)
Lemma rd8_slice m p n i x :
  readable m p (Z.of_nat n) = true -> slice m p n !! i = Some x -> rd8 m (p + Z.of_nat i) = Some x.
Proof.
  intros H%readable_spec Hx. assert (i < n)%nat as Hi.
  { apply lookup_lt_Some in Hx. unfold slice in Hx. rewrite length_take in Hx. lia. }
  rewrite slice_lookup in Hx by done. unfold rd8. rewrite bool_decide_true by lia.
  by replace (Z.to_nat (p + Z.of_nat i)) with (Z.to_nat p + i)%nat by lia.
Qed.

Lemma slice_app m p n k :
  0 <= p -> slice m p (n + k) = slice m p n ++ slice m (p + Z.of_nat n) k.
Proof.
  intros Hp. unfold slice. rewrite <-take_take_drop, drop_drop.
  by replace (Z.to_nat (p + Z.of_nat n)) with (Z.to_nat p + n)%nat by lia.
Qed.

Lemma slice_shift m p (l1 l2 : list Z) n :
  0 <= p -> slice m p n = l1 ++ l2 -> slice m (p + Z.of_nat (length l1)) (n - length l1) = l2.
Proof.
  intros Hp H. unfold slice in *.
  replace (Z.to_nat (p + Z.of_nat (length l1))) with (Z.to_nat p + length l1)%nat by lia.
  rewrite <-drop_drop, <-skipn_firstn_comm, H. by rewrite drop_app_length.
Qed.

(** The bytes of a readable area, one at a time. *)
Lemma rd8_area m b n l i x :
  readable m b n = true -> slice m b (Z.to_nat n) = l -> l !! i = Some x -> rd8 m (b + Z.of_nat i) = Some x.
Proof.
  intros H <- Hx. apply (rd8_slice m b (Z.to_nat n) i); [|done].
  apply readable_spec in H. apply readable_spec. lia.
Qed.

(** [bcmp] compares the two areas. *)
Lemma bcmp0_slices m a b n :
  readable m a (Z.of_nat n) = true -> readable m b (Z.of_nat n) = true ->
  bcmp0 m a b n = Some (bool_decide (slice m a n = slice m b n)).
Proof.
  revert a b. induction n as [|n IH]; intros a b Ha Hb; [done|].
  pose proof (length_slice _ _ _ Ha) as Hla. pose proof (length_slice _ _ _ Hb) as Hlb.
  destruct (slice m a (S n)) as [|x la] eqn:Ea in *; [done|].
  destruct (slice m b (S n)) as [|y lb] eqn:Eb in *; [done|].
  assert (∀ p z l, readable m p (Z.of_nat (S n)) = true -> slice m p (S n) = z :: l ->
            rd8 m p = Some z ∧ readable m (p + 1) (Z.of_nat n) = true ∧ slice m (p + 1) n = l) as Hstep.
  { intros p z l Hp Hz. pose proof (proj1 (readable_spec _ _ _) Hp). split; [|split].
    - replace p with (p + Z.of_nat 0) by lia. apply (rd8_slice m p (S n)); [done|by rewrite Hz].
    - apply readable_spec. lia.
    - replace n with (S n - length [z])%nat at 1 by (simpl; lia). by apply (slice_shift m p [z]); [lia|]. }
  destruct (Hstep _ _ _ Ha Ea) as (Hxa & Hra & Hsa). destruct (Hstep _ _ _ Hb Eb) as (Hxb & Hrb & Hsb).
  simpl. rewrite Hxa, Hxb. cbn [mbind option_bind]. rewrite IH by done. rewrite Hsa, Hsb.
  case_bool_decide as Hxy.
  - subst. f_equal. apply bool_decide_ext. split; congruence.
  - f_equal. symmetry. apply bool_decide_false. congruence.
Qed.

(** A readable area without its first bytes. *)
Lemma area_tail m b n l1 l2 :
  readable m b n = true -> slice m b (Z.to_nat n) = l1 ++ l2 ->
  let k := Z.of_nat (length l1) in
  k <= n ∧ readable m (b + k) (n - k) = true ∧ slice m (b + k) (Z.to_nat (n - k)) = l2.
Proof.
  intros H Hs k. pose proof H as H'. apply readable_spec in H'.
  assert (k <= n) as Hk.
  { assert (length (slice m b (Z.to_nat n)) = Z.to_nat n) as Hl.
    { apply length_slice, readable_spec. lia. }
    rewrite Hs, length_app in Hl. subst k. lia. }
  split; [done|]. split; [apply readable_spec; subst k; lia|].
  replace (Z.to_nat (n - k)) with (Z.to_nat n - length l1)%nat by (subst k; lia).
  subst k. apply slice_shift; [lia|done].
Qed.

(** A readable area without its last bytes. *)
Lemma area_head m b n l1 l2 :
  readable m b n = true -> slice m b (Z.to_nat n) = l1 ++ l2 ->
  slice m b (length l1) = l1.
Proof.
  intros H Hs. unfold slice in *. apply readable_spec in H.
  assert (length (take (Z.to_nat n) (drop (Z.to_nat b) m)) = Z.to_nat n) as Hl
    by (rewrite length_take, length_drop; lia).
  rewrite Hs, length_app in Hl.
  replace (take (length l1) (drop (Z.to_nat b) m))
    with (take (length l1) (take (Z.to_nat n) (drop (Z.to_nat b) m))).
  - rewrite Hs. apply take_app_length.
  - rewrite take_take. f_equal. lia.
Qed.

(** ** Writing *)

(** The regions [p, p + n) and [q, q + k) share no byte. *)
Definition disjoint_areas (p n q k : Z) : Prop := p + n <= q ∨ q + k <= p.

Lemma length_splice m p l :
  readable m p (Z.of_nat (length l)) = true -> length (splice m p l) = length m.
Proof.
  intros H%readable_spec. unfold splice. rewrite !length_app, length_take, length_drop. lia.
Qed.

Lemma readable_splice m p l q n :
  readable m p (Z.of_nat (length l)) = true -> readable (splice m p l) q n = readable m q n.
Proof. intros H. unfold readable. by rewrite length_splice. Qed.

Lemma splice_nil m p : 0 <= p -> splice m p [] = m.
Proof. intros Hp. unfold splice. simpl. by rewrite Nat.add_0_r, take_drop. Qed.

Lemma lookup_splice_in m p l i :
  readable m p (Z.of_nat (length l)) = true -> (i < length l)%nat ->
  splice m p l !! (Z.to_nat p + i)%nat = l !! i.
Proof.
  intros H%readable_spec Hi. unfold splice. rewrite lookup_app_r; rewrite length_take; [|lia].
  replace (Z.to_nat p + i - Z.to_nat p `min` length m)%nat with i by lia. by rewrite lookup_app_l.
Qed.

Lemma lookup_splice_out m p l i :
  readable m p (Z.of_nat (length l)) = true -> (i < Z.to_nat p ∨ Z.to_nat p + length l <= i)%nat ->
  splice m p l !! i = m !! i.
Proof.
  intros H%readable_spec Hi. unfold splice. destruct Hi as [Hi|Hi].
  - rewrite lookup_app_l by (rewrite length_take; lia). by rewrite lookup_take_lt.
  - rewrite lookup_app_r; rewrite length_take; [|lia]. rewrite lookup_app_r by lia.
    rewrite lookup_drop. f_equal. lia.
Qed.

Lemma slice_splice_same m p l :
  readable m p (Z.of_nat (length l)) = true -> slice (splice m p l) p (length l) = l.
Proof.
  intros H. apply list_eq. intros i. destruct (decide (i < length l)%nat).
  - by rewrite slice_lookup, lookup_splice_in.
  - rewrite !lookup_ge_None_2; [done|lia|]. unfold slice. rewrite length_take. lia.
Qed.

Lemma slice_splice_other m p l q n :
  readable m p (Z.of_nat (length l)) = true -> 0 <= q ->
  disjoint_areas q (Z.of_nat n) p (Z.of_nat (length l)) -> slice (splice m p l) q n = slice m q n.
Proof.
  intros H Hq Hd. pose proof (proj1 (readable_spec _ _ _) H). apply list_eq. intros i.
  destruct (decide (i < n)%nat).
  - rewrite !slice_lookup by done. apply lookup_splice_out; [done|]. unfold disjoint_areas in Hd. lia.
  - unfold slice. rewrite !lookup_ge_None_2; [done|rewrite length_take; lia..].
Qed.

Lemma splice_app m p l1 l2 :
  readable m p (Z.of_nat (length (l1 ++ l2))) = true ->
  splice (splice m p l1) (p + Z.of_nat (length l1)) l2 = splice m p (l1 ++ l2).
Proof.
  intros H. pose proof (proj1 (readable_spec _ _ _) H) as Hb. rewrite length_app in Hb.
  assert (readable m p (Z.of_nat (length l1)) = true) as H1 by (apply readable_spec; lia).
  assert (readable (splice m p l1) (p + Z.of_nat (length l1)) (Z.of_nat (length l2)) = true) as H2
    by (rewrite readable_splice by done; apply readable_spec; lia).
  apply list_eq. intros i.
  destruct (decide (i < Z.to_nat p ∨ Z.to_nat p + (length l1 + length l2) <= i)%nat) as [Ho|Hi].
  - rewrite (lookup_splice_out _ _ (l1 ++ l2)) by (done || (rewrite length_app; lia)).
    rewrite lookup_splice_out by (done || lia). rewrite lookup_splice_out by (done || lia). done.
  - replace i with (Z.to_nat p + (i - Z.to_nat p))%nat by lia.
    rewrite (lookup_splice_in _ _ (l1 ++ l2)) by (done || (rewrite length_app; lia)).
    destruct (decide (i < Z.to_nat p + length l1)%nat).
    + rewrite lookup_splice_out by (done || lia). rewrite lookup_splice_in by (done || lia).
      by rewrite lookup_app_l by lia.
    + replace (Z.to_nat p + (i - Z.to_nat p))%nat
        with (Z.to_nat (p + Z.of_nat (length l1)) + (i - Z.to_nat p - length l1))%nat by lia.
      rewrite lookup_splice_in by (done || lia). rewrite lookup_app_r by lia. done.
Qed.

Lemma wr8_splice m p v :
  readable m p 1 = true -> wr8 m p v = Some (splice m p [u8 v]).
Proof.
  intros H%readable_spec. unfold wr8, rd8. rewrite bool_decide_true by lia.
  destruct (lookup_lt_is_Some_2 m (Z.to_nat p)) as [x Hx]; [lia|]. rewrite Hx.
  cbn [mbind option_bind]. f_equal. unfold splice. simpl.
  rewrite insert_take_drop by lia. do 3 f_equal. lia.
Qed.

Lemma memcpy_splice m dst src n :
  readable m dst (Z.of_nat n) = true -> readable m src (Z.of_nat n) = true ->
  disjoint_areas dst (Z.of_nat n) src (Z.of_nat n) ->
  memcpy m dst src (Z.of_nat n) = Some (splice m dst (slice m src n)).
Proof.
  intros Hd Hs Hdis. unfold memcpy. pose proof (proj1 (readable_spec _ _ _) Hd).
  case_bool_decide as Hn.
  - destruct n; [|lia]. unfold slice. by rewrite take_0, splice_nil by lia.
  - rewrite Hd, Hs, Nat2Z.id. unfold disjoint_areas in Hdis.
    destruct Hdis; [rewrite (bool_decide_true (dst + _ <= _)) by lia
      |rewrite (bool_decide_true (src + _ <= _)) by lia; rewrite orb_true_r]; done.
Qed.

Lemma bytes_ok_splice m p l : bytes_ok m -> bytes_ok l -> bytes_ok (splice m p l).
Proof.
  intros Hm Hl. unfold splice, bytes_ok. rewrite !Forall_app. split; [by apply Forall_take|].
  split; [done|by apply Forall_drop].
Qed.

Lemma bytes_ok_slice m p n : bytes_ok m -> bytes_ok (slice m p n).
Proof. intros H. by apply Forall_take, Forall_drop. Qed.

(** Writes to different bytes commute. *)
Lemma splice_comm m p q x y :
  readable m p 1 = true -> readable m q 1 = true -> p ≠ q ->
  splice (splice m p [x]) q [y] = splice (splice m q [y]) p [x].
Proof.
  intros Hp%readable_spec Hq%readable_spec Hne.
  assert (∀ l r v, 0 <= r -> r + 1 <= Z.of_nat (length l) -> splice l r [v] = <[Z.to_nat r := v]> l) as Hins.
  { intros l r v Hr Hl. unfold splice. simpl. rewrite insert_take_drop by lia. do 3 f_equal. lia. }
  rewrite !Hins by (rewrite ?Hins, ?length_insert by lia; lia). apply list_insert_insert_ne. lia.
Qed.

(** One more byte after those written. *)
Lemma wr8_more m p l q v :
  q = p + Z.of_nat (length l) -> readable m p (Z.of_nat (S (length l))) = true ->
  wr8 (splice m p l) q v = Some (splice m p (l ++ [u8 v])).
Proof.
  intros -> H. pose proof (proj1 (readable_spec _ _ _) H).
  rewrite wr8_splice, splice_app; [done|rewrite length_app; apply readable_spec; simpl; lia|].
  rewrite readable_splice; apply readable_spec; lia.
Qed.

(** ** Bytes at an address *)

Definition at_mem (m : mem) (p : Z) (l : list Z) : Prop :=
  readable m p (Z.of_nat (length l)) = true ∧ slice m p (length l) = l.

Lemma at_mem_app m p l1 l2 :
  at_mem m p (l1 ++ l2) <-> at_mem m p l1 ∧ at_mem m (p + Z.of_nat (length l1)) l2.
Proof.
  unfold at_mem. rewrite !readable_spec, !length_app, !Nat2Z.inj_add. split.
  - intros [H Hs]. rewrite slice_app in Hs by lia. apply app_inj_1 in Hs as [H1 H2].
    + split_and!; (lia || done).
    + apply length_slice, readable_spec. lia.
  - intros [[H1 Hs1] [H2 Hs2]]. split; [lia|]. rewrite slice_app by lia. by rewrite Hs1, Hs2.
Qed.

Lemma at_mem_nil m p : 0 <= p <= Z.of_nat (length m) -> at_mem m p [].
Proof. intros H. split; [apply readable_spec; simpl; lia|]. unfold slice. simpl. done. Qed.

Lemma at_mem_splice m p l q l' :
  at_mem m p l -> readable m q (Z.of_nat (length l')) = true ->
  disjoint_areas p (Z.of_nat (length l)) q (Z.of_nat (length l')) -> at_mem (splice m q l') p l.
Proof.
  intros [Hr Hs] Hq Hd. split; [by rewrite readable_splice|].
  rewrite slice_splice_other; [done|done|apply readable_spec in Hr; lia|done].
Qed.

Lemma at_mem_splice_same m p l : readable m p (Z.of_nat (length l)) = true -> at_mem (splice m p l) p l.
Proof. intros H. split; [by rewrite readable_splice|by apply slice_splice_same]. Qed.

(** Writing what is there. *)
Lemma splice_at m p l : at_mem m p l -> splice m p l = m.
Proof.
  intros [Hr Hs]. unfold splice. rewrite <-Hs at 1. unfold slice.
  rewrite <-drop_drop. by rewrite !take_drop.
Qed.

(** Only [b, b + d) has changed. *)
Definition only_in (b d : Z) (m m' : mem) : Prop :=
  length m' = length m ∧ ∀ q n, 0 <= q -> disjoint_areas q (Z.of_nat n) b d -> slice m' q n = slice m q n.

Lemma only_in_refl b d m : only_in b d m m.
Proof. by split. Qed.

Lemma only_in_trans b d m1 m2 m3 : only_in b d m1 m2 -> only_in b d m2 m3 -> only_in b d m1 m3.
Proof. intros [L1 H1] [L2 H2]. split; [congruence|]. intros q n Hq Hd. by rewrite H2, H1. Qed.

Lemma only_in_weaken b d b' d' m m' : only_in b' d' m m' -> b <= b' -> b' + d' <= b + d -> only_in b d m m'.
Proof. intros [L H] H1 H2. split; [done|]. intros q n Hq Hd. apply H; [done|]. unfold disjoint_areas in *. lia. Qed.

Lemma only_in_splice b d m p l :
  readable m p (Z.of_nat (length l)) = true -> b <= p -> p + Z.of_nat (length l) <= b + d ->
  only_in b d m (splice m p l).
Proof.
  intros Hr H1 H2. split; [by apply length_splice|]. intros q n Hq Hd.
  apply slice_splice_other; [done..|]. unfold disjoint_areas in *. lia.
Qed.

Lemma only_in_readable b d m m' q n : only_in b d m m' -> readable m' q n = readable m q n.
Proof. intros [L _]. unfold readable. by rewrite L. Qed.

Lemma only_in_at b d m m' q l :
  only_in b d m m' -> at_mem m q l -> disjoint_areas q (Z.of_nat (length l)) b d -> at_mem m' q l.
Proof.
  intros H [Hr Hs] Hd. split; [by rewrite (only_in_readable _ _ _ _ _ _ H)|].
  destruct H as [_ H]. rewrite H; [done|apply readable_spec in Hr; lia|done].
Qed.

Lemma at_mem_rd8 m p l i x : at_mem m p l -> l !! i = Some x -> rd8 m (p + Z.of_nat i) = Some x.
Proof. intros [Hr Hs] Hx. rewrite <-Hs in Hx. by eapply rd8_slice. Qed.

(** Bytes written over bytes just written, and perhaps beyond them. *)
Lemma splice_twice m p l1 l2 :
  readable m p (Z.of_nat (length l2)) = true -> (length l1 <= length l2)%nat ->
  splice (splice m p l1) p l2 = splice m p l2.
Proof.
  intros Hr2 Hl. pose proof (proj1 (readable_spec _ _ _) Hr2).
  assert (readable m p (Z.of_nat (length l1)) = true) as Hr by (apply readable_spec; lia).
  assert (readable (splice m p l1) p (Z.of_nat (length l2)) = true) as Hr3 by by rewrite readable_splice.
  apply list_eq. intros i.
  destruct (decide (i < Z.to_nat p ∨ Z.to_nat p + length l2 <= i)%nat) as [Ho|Hi].
  - rewrite !lookup_splice_out by (done || lia). done.
  - replace i with (Z.to_nat p + (i - Z.to_nat p))%nat by lia. by rewrite !lookup_splice_in by (done || lia).
Qed.

(** The same behind a part that stays. *)
Lemma splice_over m p l l1 l2 :
  readable m p (Z.of_nat (length (l ++ l2))) = true -> (length l1 <= length l2)%nat ->
  splice (splice m p (l ++ l1)) (p + Z.of_nat (length l)) l2 = splice m p (l ++ l2).
Proof.
  intros Hr Hl. pose proof (proj1 (readable_spec _ _ _) Hr) as H. rewrite length_app in H.
  rewrite <-(splice_app m p l l1) by (apply readable_spec; rewrite length_app; lia). rewrite splice_twice.
  - by apply splice_app.
  - rewrite readable_splice by (apply readable_spec; lia). apply readable_spec. lia.
  - done.
Qed.

(** The last of the bytes written, changed. *)
Lemma splice_last m p l x y :
  readable m p (Z.of_nat (length (l ++ [x]))) = true ->
  splice (splice m p (l ++ [x])) (p + Z.of_nat (length l)) [y] = splice m p (l ++ [y]).
Proof. intros Hr. apply splice_over; [|done]. rewrite length_app in *. exact Hr. Qed.
