(* ===== verification/BcmStdlib.v ===== *)
(** * bcmstdlib_s.c: bounded memory and string functions (model)

    size_t is 64 bits wide; a NULL pointer is [None].  The result is the memory
    and the value returned; [None] is an access outside the memory or a memcpy
    between overlapping areas.  strlcpy is compiled unless
    BCM_USE_PLATFORM_STRLCPY is defined, as the Makefile does for the Rockchip
    platform, where the kernel's own takes its place. *)

From S2P Require Import Prelude Mem.

Definition BCME_OK : Z := 0.
Definition BCME_BADARG : Z := -2.
Definition BCME_BADLEN : Z := -24.
Definition SIZE_MAX : Z := 18446744073709551615.
Definition RSIZE_MAX : Z := Z.shiftr SIZE_MAX 1.

(** The library's memmove, and memset (bzero with [c = 0]). *)
Definition memmove (m : mem) (dst src n : Z) : option mem :=
  if bool_decide (n = 0) then Some m
  else if readable m dst n && readable m src n then Some (splice m dst (slice m src (Z.to_nat n)))
  else None.

Definition memset (m : mem) (dst c n : Z) : option mem :=
  if bool_decide (n = 0) then Some m
  else if readable m dst n then Some (splice m dst (replicate (Z.to_nat n) (u8 c))) else None.

Definition bzero (m : mem) (dst n : Z) : option mem := memset m dst 0 n.

Definition memmove_s (m : mem) (dest : option Z) (destsz : Z) (src : option Z) (n : Z) : option (mem * Z) :=
  match dest with
  | None => Some (m, BCME_BADARG)
  | Some d =>
      if bool_decide (u64 (d + destsz) < d) then Some (m, BCME_BADARG)
      else if bool_decide (destsz > RSIZE_MAX) then Some (m, BCME_BADLEN)
      else if bool_decide (destsz < n) then m ← bzero m d destsz; Some (m, BCME_BADLEN)
      else match src with
           | None => m ← bzero m d destsz; Some (m, BCME_BADARG)
           | Some s =>
               if bool_decide (u64 (s + n) < s) then m ← bzero m d destsz; Some (m, BCME_BADARG)
               else m ← memmove m d s n; Some (m, BCME_OK)
           end
  end.

Definition memcpy_s (m : mem) (dest : option Z) (destsz : Z) (src : option Z) (n : Z) : option (mem * Z) :=
  match dest with
  | None => Some (m, BCME_BADARG)
  | Some d =>
      if bool_decide (u64 (d + destsz) < d) then Some (m, BCME_BADARG)
      else if bool_decide (destsz > RSIZE_MAX) then Some (m, BCME_BADLEN)
      else if bool_decide (destsz < n) then m ← bzero m d destsz; Some (m, BCME_BADLEN)
      else match src with
           | None => m ← bzero m d destsz; Some (m, BCME_BADARG)
           | Some s =>
               if bool_decide (u64 (s + n) < s) then m ← bzero m d destsz; Some (m, BCME_BADARG)
               else if negb (bool_decide (u64 (d + destsz) <= s) || bool_decide (d >= u64 (s + n)))
               then m ← bzero m d destsz; Some (m, BCME_BADARG)
               else m ← memcpy m d s n; Some (m, BCME_OK)
           end
  end.

Definition memset_s (m : mem) (dest : option Z) (destsz c n : Z) : option (mem * Z) :=
  match dest with
  | None => Some (m, BCME_BADARG)
  | Some d =>
      if bool_decide (u64 (d + destsz) < d) then Some (m, BCME_BADARG)
      else if bool_decide (destsz > RSIZE_MAX) then Some (m, BCME_BADLEN)
      else if bool_decide (destsz < n) then m ← memset m d c destsz; Some (m, BCME_BADLEN)
      else m ← memset m d c n; Some (m, BCME_OK)
  end.

(** strlcpy, where the file has its own:
    [for (i = 0; i < size; i++)] with [n] iterations left, then the truncation. *)
Fixpoint strlcpy_loop (n : nat) (m : mem) (dest src size i : Z) : option (mem * Z) :=
  match n with
  | O => m ← wr8 m (dest + (size - 1)) 0; Some (m, size)
  | S n =>
      c ← rd8 m (src + i);
      m ← wr8 m (dest + i) c;
      c ← rd8 m (dest + i);
      if bool_decide (c = 0) then Some (m, i) else strlcpy_loop n m dest src size (i + 1)
  end.

Definition strlcpy (m : mem) (dest src : option Z) (size : Z) : option (mem * Z) :=
  match dest with
  | None => Some (m, 0)
  | Some d =>
      if bool_decide (size = 0) then Some (m, 0)
      else match src with
           | None => m ← wr8 m d 0; Some (m, 0)
           | Some s => strlcpy_loop (Z.to_nat size) m d s size 0
           end
  end.

(** [while (n != 0 && *d != '\0') { d++; n--; }] *)
Fixpoint end_loop (m : mem) (d : Z) (n : nat) : option (Z * nat) :=
  match n with
  | O => Some (d, O)
  | S n' => c ← rd8 m d; if bool_decide (c = 0) then Some (d, n) else end_loop m (d + 1) n'
  end.

(** [while (n-- != 0 && s[slen] != '\0') ++slen;] *)
Fixpoint slen_loop (m : mem) (s slen : Z) (n : nat) : option Z :=
  match n with
  | O => Some slen
  | S n => c ← rd8 m (s + slen); if bool_decide (c = 0) then Some slen else slen_loop m s (slen + 1) n
  end.

Definition strlcat_s (m : mem) (dest src : option Z) (size : Z) : option (mem * Z) :=
  match dest with
  | None => Some (m, 0)
  | Some dest =>
      '(d, n) ← end_loop m dest (Z.to_nat size);
      let dlen := d - dest in
      '(m, d, n, bytes_to_copy) ←
        (match src with
         | None => Some (m, d, Z.of_nat n, 0)
         | Some s =>
             slen ← slen_loop m s 0 (Z.to_nat size);
             let n := size - dlen in
             if bool_decide (n ≠ 0) then
               let b := Z.min slen (n - 1) in
               m ← memcpy m d s b; Some (m, d + b, n, b)
             else Some (m, d, n, 0)
         end);
      let d := if bool_decide (n = 0) && bool_decide (dlen ≠ 0) then d - 1 else d in
      m ← wr8 m d 0;
      Some (m, dlen + bytes_to_copy)
  end.
