(* ===== verification/BcmStdlibTheorems.v ===== *)
(** * bcmstdlib_s.c: properties of the bounded functions *)

From S2P Require Import Prelude Mem BcmStdlib.

(** A copy that fits its destination, in a valid address range. *)
Lemma memcpy_s_ok m d destsz s n :
  0 <= d -> d + destsz < 9223372036854775808 -> s + Z.of_nat n < 9223372036854775808 ->
  Z.of_nat n <= destsz -> readable m d (Z.of_nat n) = true -> readable m s (Z.of_nat n) = true ->
  disjoint_areas d destsz s (Z.of_nat n) ->
  memcpy_s m (Some d) destsz (Some s) (Z.of_nat n) = Some (splice m d (slice m s n), BCME_OK).
Proof.
  intros Hd Hde Hse Hn Hrd Hrs Hdis. pose proof (proj1 (readable_spec _ _ _) Hrs).
  unfold memcpy_s, u64. rewrite !Z.mod_small by lia.
  change RSIZE_MAX with 9223372036854775807. rewrite !(bool_decide_false (_ < _)), bool_decide_false by lia.
  unfold disjoint_areas in Hdis.
  assert (bool_decide (d + destsz <= s) || bool_decide (d >= s + Z.of_nat n) = true) as ->.
  { apply orb_true_iff. rewrite !bool_decide_eq_true. lia. }
  cbn [negb]. rewrite memcpy_splice; [done..|]. unfold disjoint_areas. lia.
Qed.

(** ** Strings *)

(** The bytes before the NUL. *)
Definition nonzero (s : list Z) : Prop := Forall (λ c, 0 < c < 256) s.

(** [s] is what a reader of at most [n] bytes at [p] takes as the string: it
    ends with a NUL, or fills the [n] bytes. *)
Definition string_at (m : mem) (p n : Z) (s : list Z) : Prop :=
  nonzero s ∧ (Z.of_nat (length s) < n ∧ at_mem m p (s ++ [0]) ∨ Z.of_nat (length s) = n ∧ at_mem m p s).

Lemma string_lookup m p n s i x : string_at m p n s -> s !! i = Some x -> rd8 m (p + Z.of_nat i) = Some x ∧ 0 < x < 256.
Proof.
  intros [Hnz [[_ H]|[_ H]]] Hx; (split; [|by eapply (Forall_lookup_1 _ _ _ _ Hnz)]).
  - eapply at_mem_rd8; [exact H|]. by apply lookup_app_l_Some.
  - by eapply at_mem_rd8.
Qed.

Lemma string_end m p n s : string_at m p n s -> Z.of_nat (length s) < n -> rd8 m (p + Z.of_nat (length s)) = Some 0.
Proof.
  intros [_ [[_ H]|[? _]]] Hl; [|lia]. eapply at_mem_rd8; [exact H|]. by apply list_lookup_middle.
Qed.

Lemma end_loop_spec m p n s : string_at m p n s -> ∀ k i, (k + i = Z.to_nat n)%nat -> (i <= length s)%nat ->
  end_loop m (p + Z.of_nat i) k = Some (p + Z.of_nat (length s), (Z.to_nat n - length s)%nat).
Proof.
  intros H. assert (Z.of_nat (length s) <= n) as Hle by (destruct H as [_ [[? _]|[? _]]]; lia).
  induction k as [|k IH]; intros i Hk Hi; cbn [end_loop]; [f_equal; f_equal; lia|].
  destruct (decide (i = length s)) as [->|Hne].
  - rewrite (string_end m p n s H) by lia. cbn [mbind option_bind]. rewrite bool_decide_true by done. f_equal. f_equal. lia.
  - destruct (lookup_lt_is_Some_2 s i) as [x Hx]; [lia|]. destruct (string_lookup _ _ _ _ _ _ H Hx) as [-> Hxr].
    cbn [mbind option_bind]. rewrite bool_decide_false by lia.
    replace (p + Z.of_nat i + 1) with (p + Z.of_nat (S i)) by lia. apply IH; lia.
Qed.

Lemma slen_loop_spec m p n s : string_at m p n s -> ∀ k i, (k + i = Z.to_nat n)%nat -> (i <= length s)%nat ->
  slen_loop m p (Z.of_nat i) k = Some (Z.of_nat (length s)).
Proof.
  intros H. assert (Z.of_nat (length s) <= n) as Hle by (destruct H as [_ [[? _]|[? _]]]; lia).
  induction k as [|k IH]; intros i Hk Hi; cbn [slen_loop]; [f_equal; lia|].
  destruct (decide (i = length s)) as [->|Hne].
  - rewrite (string_end m p n s H) by lia. cbn [mbind option_bind]. by rewrite bool_decide_true.
  - destruct (lookup_lt_is_Some_2 s i) as [x Hx]; [lia|]. destruct (string_lookup _ _ _ _ _ _ H Hx) as [-> Hxr].
    cbn [mbind option_bind]. rewrite bool_decide_false by lia.
    replace (Z.of_nat i + 1) with (Z.of_nat (S i)) by lia. apply IH; lia.
Qed.

(** The string's bytes, with the NUL if there is room. *)
Lemma string_readable m p n s : string_at m p n s -> readable m p (Z.of_nat (length s)) = true.
Proof.
  intros [_ [[_ [H _]]|[_ [H _]]]]; [|done]. apply readable_spec in H. apply readable_spec.
  rewrite length_app in H. simpl in H. lia.
Qed.

Lemma string_slice m p n s k : string_at m p n s -> (k <= length s)%nat -> slice m p k = take k s.
Proof.
  intros H Hk. apply list_eq. intros i. destruct (decide (i < k)%nat).
  - rewrite slice_lookup, lookup_take_lt by done.
    destruct (lookup_lt_is_Some_2 s i) as [x Hx]; [lia|]. rewrite Hx.
    destruct (string_lookup _ _ _ _ _ _ H Hx) as [Hrd _]. apply string_readable, readable_spec in H.
    unfold rd8 in Hrd. rewrite bool_decide_true in Hrd by lia.
    by replace (Z.to_nat p + i)%nat with (Z.to_nat (p + Z.of_nat i)) by lia.
  - rewrite !lookup_ge_None_2; [done|rewrite length_take; lia|]. unfold slice. rewrite length_take. lia.
Qed.

(** Copying the byte behind those already copied. *)
Lemma strlcpy_loop_spec m d src n s : string_at m src n s -> readable m d n = true -> 0 < n ->
  disjoint_areas d n src (Z.of_nat (length s) + 1) ->
  ∀ k i, (k + i = Z.to_nat n)%nat -> (i <= length s)%nat ->
  strlcpy_loop k (splice m d (take i s)) d src n (Z.of_nat i)
  = Some (splice m d (take (Z.to_nat (n - 1)) s ++ [0]), Z.of_nat (length s)).
Proof.
  intros H Hd Hn Hdis. assert (Z.of_nat (length s) <= n) as Hle by (destruct H as [_ [[? _]|[? _]]]; lia).
  pose proof (proj1 (readable_spec _ _ _) Hd) as Hdr. unfold disjoint_areas in Hdis.
  assert (∀ j, (j <= length s)%nat -> readable m d (Z.of_nat (length (take j s))) = true) as Hrt.
  { intros j Hj. apply readable_spec. rewrite length_take. lia. }
  assert (∀ j q v, (j <= length s)%nat -> src <= q < src + Z.of_nat (length s) + 1 -> rd8 m q = Some v ->
            rd8 (splice m d (take j s)) q = Some v) as Hsrc.
  { intros j q v Hj Hq. pose proof (string_readable _ _ _ _ H) as Hr. apply readable_spec in Hr.
    unfold rd8. rewrite bool_decide_true by lia. rewrite lookup_splice_out; [done|by apply Hrt|].
    rewrite length_take. lia. }
  induction k as [|k IH]; intros i Hk Hi; cbn [strlcpy_loop].
  - assert (i = length s ∧ Z.of_nat (length s) = n) as [-> Hfull] by lia. rewrite take_ge by lia.
    assert (readable m d (Z.of_nat (length s)) = true) as Hrs by (apply readable_spec; lia).
    rewrite wr8_splice by (rewrite readable_splice by done; apply readable_spec; lia).
    cbn [mbind option_bind]. change (u8 0) with 0. do 2 f_equal; [|done].
    destruct (exists_last (l := s)) as (s' & x & ->); [intros ->; simpl in *; lia|].
    rewrite length_app in Hfull. cbn [length] in Hfull.
    replace (n - 1) with (Z.of_nat (length s')) by lia. rewrite Nat2Z.id, take_app_length. by apply splice_last.
  - destruct (decide (i = length s)) as [->|Hne].
    + rewrite (Hsrc _ _ 0) by (try (eapply string_end; [done|]); lia). cbn [mbind option_bind].
      rewrite wr8_more by (rewrite length_take; first [lia | apply readable_spec; lia]). cbn [mbind option_bind].
      change (u8 0) with 0. rewrite !take_ge by lia.
      rewrite (at_mem_rd8 (splice m d (s ++ [0])) d (s ++ [0]) (length s) 0);
        [|apply at_mem_splice_same; rewrite length_app; apply readable_spec; simpl; lia|by apply list_lookup_middle].
      cbn [mbind option_bind]. by rewrite bool_decide_true.
    + destruct (lookup_lt_is_Some_2 s i) as [x Hx]; [lia|]. destruct (string_lookup _ _ _ _ _ _ H Hx) as [Hrd Hxr].
      rewrite (Hsrc _ _ x) by (done || lia). cbn [mbind option_bind].
      rewrite wr8_more by (rewrite length_take; first [lia | apply readable_spec; lia]). cbn [mbind option_bind].
      rewrite u8_small, <-(take_S_r _ _ _ Hx) by lia.
      rewrite (at_mem_rd8 _ d (take (S i) s) i x); [|apply at_mem_splice_same, Hrt; lia|by rewrite lookup_take_lt by lia].
      cbn [mbind option_bind]. rewrite bool_decide_false by lia.
      replace (Z.of_nat i + 1) with (Z.of_nat (S i)) by lia. apply IH; lia.
Qed.

Lemma strlcat_spec m d src n sd ss :
  string_at m d n sd -> string_at m src n ss -> readable m d n = true -> 0 < n ->
  disjoint_areas d n src (Z.of_nat (length ss) + 1) ->
  strlcat_s m (Some d) (Some src) n
  = Some (splice m d (take (Z.to_nat (n - 1)) (sd ++ ss) ++ [0]),
          if bool_decide (Z.of_nat (length sd) < n) then Z.min (Z.of_nat (length sd) + Z.of_nat (length ss)) (n - 1) else n).
Proof.
  intros Hsd Hss Hd Hn Hdis. pose proof (proj1 (readable_spec _ _ _) Hd) as Hdr. unfold disjoint_areas in Hdis.
  assert (Z.of_nat (length sd) <= n) as Hle by (destruct Hsd as [_ [[? _]|[? _]]]; lia).
  unfold strlcat_s. pose proof (end_loop_spec m d n sd Hsd (Z.to_nat n) 0 ltac:(lia) ltac:(lia)) as E.
  rewrite Z.add_0_r in E. rewrite E. cbn [mbind option_bind].
  pose proof (slen_loop_spec m src n ss Hss (Z.to_nat n) 0 ltac:(lia) ltac:(lia)) as E2. change (Z.of_nat 0) with 0 in E2.
  rewrite E2. cbn [mbind option_bind]. replace (d + Z.of_nat (length sd) - d) with (Z.of_nat (length sd)) by lia.
  destruct (decide (Z.of_nat (length sd) < n)) as [Hlt|Hfull].
  - rewrite (bool_decide_true (n - _ ≠ 0)), (bool_decide_true (_ < n)) by lia.
    set (b := Z.min (Z.of_nat (length ss)) (n - Z.of_nat (length sd) - 1)).
    assert (memcpy m (d + Z.of_nat (length sd)) src b
            = Some (splice m (d + Z.of_nat (length sd)) (take (Z.to_nat b) ss))) as ->.
    { rewrite <-(string_slice m src n ss) by (done || lia). replace b with (Z.of_nat (Z.to_nat b)) at 1 by lia.
      pose proof (string_readable _ _ _ _ Hss) as Hr%readable_spec.
      apply memcpy_splice; [apply readable_spec; lia..|]. unfold disjoint_areas. lia. }
    cbn [mbind option_bind]. rewrite (bool_decide_false (n - _ = 0)) by lia. cbn [andb].
    assert (length (take (Z.to_nat b) ss) = Z.to_nat b) as Hlb by (rewrite length_take; lia).
    rewrite wr8_more by (rewrite Hlb; first [lia | apply readable_spec; lia]). cbn [mbind option_bind].
    change (u8 0) with 0. f_equal. f_equal; [|lia].
    replace (take (Z.to_nat (n - 1)) (sd ++ ss)) with (sd ++ take (Z.to_nat b) ss).
    + rewrite <-app_assoc, <-(splice_app m d sd) by (rewrite !length_app, Hlb; apply readable_spec; simpl; lia).
      f_equal. symmetry. apply splice_at. destruct Hsd as [_ [[_ Hat]|[? _]]]; [|lia]. by apply at_mem_app in Hat as [Hat _].
    + rewrite take_app_ge by lia. f_equal. destruct (decide (Z.of_nat (length ss) <= n - Z.of_nat (length sd) - 1)).
      * by rewrite !take_ge by lia.
      * f_equal. lia.
  - assert (Z.of_nat (length sd) = n) as Hl by lia.
    rewrite (bool_decide_false (n - _ ≠ 0)), (bool_decide_false (_ < n)) by lia. cbn [mbind option_bind].
    rewrite (bool_decide_true (n - _ = 0)), (bool_decide_true (_ ≠ 0)) by lia. cbn [andb].
    rewrite wr8_splice by (apply readable_spec; lia). cbn [mbind option_bind]. change (u8 0) with 0.
    f_equal. f_equal; [|lia]. destruct Hsd as [_ [[? _]|[_ Hat]]]; [lia|].
    destruct (exists_last (l := sd)) as (s' & x & ->); [intros ->; simpl in *; lia|].
    rewrite length_app in *. cbn [length] in *. rewrite <-app_assoc. replace (Z.to_nat (n - 1)) with (length s') by lia.
    rewrite take_app_length. rewrite <-(splice_last m d s' x 0), (splice_at m d (s' ++ [x]) Hat); [f_equal; lia|apply Hat].
Qed.

(** C33.  With a destination of [n > 0] bytes, strlcpy leaves there the source
    string, and strlcat_s the destination's string followed by it, cut to
    [n - 1] bytes and ended by a NUL, whether or not the strings they are given
    end in time; nothing else is written.  strlcpy returns the length of the
    source, or [n] when it does not end; strlcat_s the length of the result, or
    [n] when the destination held no NUL.  With a size of zero strlcat_s still
    writes a byte. *)
Theorem bcm_strings_bounded (m : mem) (d src n : Z) (ss : list Z) :
  string_at m src n ss -> readable m d n = true -> 0 < n ->
  disjoint_areas d n src (Z.of_nat (length ss) + 1) ->
  strlcpy m (Some d) (Some src) n
    = Some (splice m d (take (Z.to_nat (n - 1)) ss ++ [0]), Z.of_nat (length ss))
  ∧ (∀ sd, string_at m d n sd ->
      strlcat_s m (Some d) (Some src) n
      = Some (splice m d (take (Z.to_nat (n - 1)) (sd ++ ss) ++ [0]),
              if bool_decide (Z.of_nat (length sd) < n) then Z.min (Z.of_nat (length sd) + Z.of_nat (length ss)) (n - 1) else n))
  ∧ strlcat_s m (Some d) (Some src) 0 = Some (splice m d [0], 0).
Proof.
  intros Hss Hd Hn Hdis. split_and!.
  - unfold strlcpy. rewrite bool_decide_false by lia.
    pose proof (strlcpy_loop_spec m d src n ss Hss Hd Hn Hdis (Z.to_nat n) 0 ltac:(lia) ltac:(lia)) as E.
    rewrite take_0, splice_nil in E; [exact E|]. apply readable_spec in Hd. lia.
  - intros sd Hsd. by apply strlcat_spec.
  - unfold strlcat_s. change (Z.to_nat 0) with 0%nat. cbn [end_loop slen_loop mbind option_bind].
    rewrite Z.sub_diag. cbn [mbind option_bind]. change (0 - 0) with 0.
    rewrite (bool_decide_false (0 ≠ 0)) by lia. cbn [mbind option_bind]. rewrite andb_false_r.
    rewrite wr8_splice by (apply readable_spec in Hd; apply readable_spec; lia). done.
Qed.

(** "abc" is appended to "xy" in a buffer of 4 bytes. *)
Lemma bcm_strings_bounded_witness :
  strlcpy ([120; 121; 0; 9] ++ [97; 98; 99; 0]) (Some 0) (Some 4) 4 = Some ([97; 98; 99; 0; 97; 98; 99; 0], 3)
  ∧ strlcat_s ([120; 121; 0; 9] ++ [97; 98; 99; 0]) (Some 0) (Some 4) 4 = Some ([120; 121; 97; 0; 97; 98; 99; 0], 3).
Proof.
  destruct (bcm_strings_bounded ([120; 121; 0; 9] ++ [97; 98; 99; 0]) 0 4 4 [97; 98; 99]) as (H1 & H2 & _).
  - split; [repeat (apply Forall_cons_2; [lia|]); apply Forall_nil_2|]. left. split; [cbn; lia|split; reflexivity].
  - reflexivity.
  - lia.
  - unfold disjoint_areas. cbn. lia.
  - split; [exact H1|]. apply (H2 [120; 121]).
    split; [repeat (apply Forall_cons_2; [lia|]); apply Forall_nil_2|]. left. split; [cbn; lia|split; reflexivity].
Defined.
