(* ===== verification/BcmStr.v ===== *)
(** * bcmutils.c: numbers, addresses and strings as text (model)

    The character classes, the number parsers, the text forms of hardware and
    IPv4 addresses and of hexadecimal data, and the string routines.  A string is
    an address in the byte memory of Mem; a plain char is unsigned, as on the
    board's architecture, and a ulong has 64 bits.  [None] is an access outside
    the memory, or a loop that has not ended when the fuel has: a loop that reads
    a new byte in each round ends or leaves the memory within [S (length m)]
    rounds. *)

From Stdlib Require Import Ascii String.
From S2P Require Import Prelude Mem.

(** The character codes of a literal. *)
Definition chars (s : string) : list Z := map (λ a, Z.of_N (N_of_ascii a)) (list_ascii_of_string s).

Definition fuel_of (m : mem) : nat := S (length m).

(** ** Character classes *)

Definition _BCM_U : Z := 0x01.
Definition _BCM_L : Z := 0x02.
Definition _BCM_D : Z := 0x04.
Definition _BCM_C : Z := 0x08.
Definition _BCM_P : Z := 0x10.
Definition _BCM_S : Z := 0x20.
Definition _BCM_X : Z := 0x40.
Definition _BCM_SP : Z := 0x80.

Definition bcm_ctype : list Z :=
  replicate 9 _BCM_C ++ replicate 5 (Z.lor _BCM_C _BCM_S) ++ replicate 18 _BCM_C          (* 0-31 *)
  ++ [Z.lor _BCM_S _BCM_SP] ++ replicate 15 _BCM_P                                        (* 32-47 *)
  ++ replicate 10 _BCM_D ++ replicate 6 _BCM_P                                            (* 48-63 *)
  ++ [_BCM_P] ++ replicate 6 (Z.lor _BCM_U _BCM_X) ++ replicate 20 _BCM_U ++ replicate 5 _BCM_P (* 64-95 *)
  ++ [_BCM_P] ++ replicate 6 (Z.lor _BCM_L _BCM_X) ++ replicate 20 _BCM_L ++ replicate 4 _BCM_P (* 96-126 *)
  ++ [_BCM_C]                                                                             (* 127 *)
  ++ replicate 32 0                                                                       (* 128-159 *)
  ++ [Z.lor _BCM_S _BCM_SP] ++ replicate 31 _BCM_P                                        (* 160-191 *)
  ++ replicate 23 _BCM_U ++ [_BCM_P] ++ replicate 7 _BCM_U ++ [_BCM_L]                    (* 192-223 *)
  ++ replicate 23 _BCM_L ++ [_BCM_P] ++ replicate 8 _BCM_L.                               (* 224-255 *)

Definition bcm_ismask (x : Z) : Z := nth (Z.to_nat (u8 x)) bcm_ctype 0.
Definition bcm_isdigit (c : Z) : bool := negb (Z.land (bcm_ismask c) _BCM_D =? 0).
Definition bcm_islower (c : Z) : bool := negb (Z.land (bcm_ismask c) _BCM_L =? 0).
Definition bcm_isupper (c : Z) : bool := negb (Z.land (bcm_ismask c) _BCM_U =? 0).
Definition bcm_isspace (c : Z) : bool := negb (Z.land (bcm_ismask c) _BCM_S =? 0).
Definition bcm_isxdigit (c : Z) : bool := negb (Z.land (bcm_ismask c) (Z.lor _BCM_D _BCM_X) =? 0).
Definition bcm_tolower (c : Z) : Z := if bcm_isupper c then c + 97 - 65 else c.
Definition bcm_toupper (c : Z) : Z := if bcm_islower c then c + 65 - 97 else c.

(** ** Number parsing *)

(** [while (bcm_isspace( *cp)) cp++], and the same for hexadecimal digits. *)
Fixpoint skip_while (p : Z -> bool) (fuel : nat) (m : mem) (cp : Z) : option Z :=
  match fuel with
  | O => None
  | S fuel => c ← rd8 m cp; if p c then skip_while p fuel m (cp + 1) else Some cp
  end.

(** An uint64: characters of the table beyond 'z' pass for letters. *)
Definition digit_value (c : Z) : Z := u64 (if bcm_isdigit c then c - 48 else bcm_toupper c - 65 + 10).

(** The result and the end of the number; [true]: overflow was detected. *)
Fixpoint digits_loop (fuel : nat) (m : mem) (cp base : Z) (minus : bool) (result last_result : Z)
    : option (Z * Z * bool) :=
  match fuel with
  | O => None
  | S fuel =>
      c ← rd8 m cp;
      if bcm_isxdigit c && (digit_value c <? base) then
        let result := u64 (result * base + digit_value c) in
        if (result <? last_result) && negb minus then
          e ← skip_while bcm_isxdigit (fuel_of m) m cp;
          Some (u64 (-1), e, true)
        else digits_loop fuel m (cp + 1) base minus result result
      else Some (result, cp, false)
  end.

(** The base 0 and 16 prefixes: the base and where the digits start. *)
Definition base_prefix (m : mem) (cp base : Z) : option (Z * Z) :=
  if base =? 0 then
    c0 ← rd8 m cp;
    if c0 =? 48 then
      c1 ← rd8 m (cp + 1);
      if (c1 =? 120) || (c1 =? 88) then Some (16, cp + 2) else Some (8, cp + 1)
    else Some (10, cp)
  else if base =? 16 then
    c0 ← rd8 m cp;
    if c0 =? 48 then
      c1 ← rd8 m (cp + 1);
      if (c1 =? 120) || (c1 =? 88) then Some (16, cp + 2) else Some (16, cp)
    else Some (16, cp)
  else Some (base, cp).

(** The result and [*endp]. *)
Definition bcm_strtoull (m : mem) (cp base : Z) : option (Z * Z) :=
  cp ← skip_while bcm_isspace (fuel_of m) m cp;
  c ← rd8 m cp;
  let '(minus, cp) := if c =? 43 then (false, cp + 1) else if c =? 45 then (true, cp + 1) else (false, cp) in
  '(base, cp) ← base_prefix m cp base;
  '(result, e, overflow) ← digits_loop (fuel_of m) m cp base minus 0 0;
  if (overflow : bool) then Some (result, e)
  else Some (if (minus : bool) then u64 (- result) else result, e).

Definition bcm_strtoul (m : mem) (cp base : Z) : option (Z * Z) := bcm_strtoull m cp base.

Definition bcm_atoi (m : mem) (s : Z) : option Z := '(v, _) ← bcm_strtoul m s 10; Some (s32 (u32 v)).

(** ** The library's snprintf

    [out] is the formatted text; at most [size - 1] of its characters are
    written, and a NUL. *)
Definition snprintf (m : mem) (buf size : Z) (out : list Z) : option mem :=
  if size =? 0 then Some m
  else
    let l := take (Z.to_nat (size - 1)) out ++ [0] in
    if readable m buf (Z.of_nat (length l)) then Some (splice m buf l) else None.

(** The text of a conversion: decimal digits of [n >= 0], [k] at most. *)
Fixpoint dec_digits (k : nat) (n : Z) : list Z :=
  match k with
  | O => []
  | S k => (if n <? 10 then [] else dec_digits k (n / 10)) ++ [48 + n mod 10]
  end.
Definition decimal (n : Z) : list Z := dec_digits 20 n.

Definition hex_digit (a : Z) (d : Z) : Z := if d <? 10 then 48 + d else a + (d - 10).

(** ** Hardware and IPv4 addresses *)

(** The six octets, as far as they were set: the loop stops at the end of the
    string. *)
Fixpoint atoe_loop (n : nat) (m : mem) (p : Z) (ea : list Z) : option (list Z) :=
  match n with
  | O => Some ea
  | S n =>
      '(v, ep) ← bcm_strtoul m p 16;
      let ea := ea ++ [u8 v] in
      c ← rd8 m ep;
      if (c =? 0) || (n =? 0)%nat then Some ea else atoe_loop n m (ep + 1) ea
  end.

(** Success and the octets written. *)
Definition bcm_ether_atoe (m : mem) (p : Z) : option (bool * list Z) :=
  ea ← atoe_loop 6 m p []; Some ((length ea =? 6)%nat, ea).

(** The 18 bytes written at [buf]. *)
Fixpoint ntoa_octets (octet : list Z) : list Z :=
  match octet with
  | [] => []
  | o :: octet => hex_digit 97 (Z.land (Z.shiftr o 4) 0xf) :: hex_digit 97 (Z.land o 0xf) :: 58 :: ntoa_octets octet
  end.

(** The loop has written a ':' behind the last octet, replaced by the NUL. *)
Definition bcm_ether_ntoa (m : mem) (octet : list Z) (buf : Z) : option mem :=
  let l := ntoa_octets octet in
  if readable m buf (Z.of_nat (length l)) then wr8 (splice m buf l) (buf + Z.of_nat (length l) - 1) 0 else None.

Fixpoint atoipv4_loop (n : nat) (m : mem) (p : Z) (ip : list Z) : option (list Z) :=
  match n with
  | O => Some ip
  | S n =>
      '(v, c) ← bcm_strtoul m p 0;
      let ip := ip ++ [u8 v] in
      x ← rd8 m c;
      if negb (x =? 46) || (n =? 0)%nat then Some ip else atoipv4_loop n m (c + 1) ip
  end.

Definition IPV4_ADDR_LEN : Z := 4.

Definition bcm_atoipv4 (m : mem) (p : Z) : option (bool * list Z) :=
  ip ← atoipv4_loop (Z.to_nat IPV4_ADDR_LEN) m p []; Some (Z.of_nat (length ip) =? IPV4_ADDR_LEN, ip).

(** "%d.%d.%d.%d" *)
Definition dotted (a : list Z) : list Z :=
  decimal (nth 0 a 0) ++ [46] ++ decimal (nth 1 a 0) ++ [46] ++ decimal (nth 2 a 0) ++ [46] ++ decimal (nth 3 a 0).

Definition bcm_ip_ntoa (m : mem) (a : list Z) (buf : Z) : option mem := snprintf m buf 16 (dotted a).

(** ** Hexadecimal data *)

(** One round of the do-while loop: [tmp] is a string of its own. *)
Fixpoint hex2bin_loop (n : nat) (m : mem) (hex buf i out_len : Z) : option (mem * Z) :=
  match n with
  | O => None
  | S n =>
      t0 ← rd8 m hex;
      t1 ← rd8 m (hex + 1);
      if negb (bcm_isxdigit t0) || negb (bcm_isxdigit t1) then Some (m, 0)
      else
        '(v, _) ← bcm_strtoul [t0; t1; 0] 0 16;
        m ← wr8 m (buf + i) (u8 v);
        if i + 1 <? out_len then hex2bin_loop n m (hex + 2) buf (i + 1) out_len else Some (m, out_len)
  end.

(** The memory and the length copied, 0 on error. *)
Definition bcmhex2bin (m : mem) (hex hex_len buf buf_len : Z) : option (mem * Z) :=
  if negb (hex_len mod 2 =? 0) then Some (m, 0)
  else
    h0 ← rd8 m hex;
    radix ← (if h0 =? 48 then h1 ← rd8 m (hex + 1); Some ((h1 =? 120) || (h1 =? 88)) else Some false);
    let '(hex, hex_len) := if (radix : bool) then (hex + 2, u32 (hex_len - 2)) else (hex, hex_len) in
    if 0xFFFF <? hex_len / 2 then Some (m, 0)
    else
      let out_len := u16 (hex_len / 2) in
      if buf_len <? out_len then Some (m, 0)
      else hex2bin_loop (S (Z.to_nat out_len)) m hex buf 0 out_len.

(** "%02X", with room for the NUL: each NUL but the last is overwritten. *)
Fixpoint format_hex_loop (n : nat) (m : mem) (p src : Z) : option (mem * Z) :=
  match n with
  | O => Some (m, p)
  | S n =>
      b ← rd8 m src;
      m ← snprintf m p 3 [hex_digit 65 (Z.shiftr b 4); hex_digit 65 (Z.land b 0xf)];
      format_hex_loop n m (p + 2) (src + 1)
  end.

Definition bcm_format_hex (m : mem) (str bytes len : Z) : option (mem * Z) :=
  '(m, p) ← format_hex_loop (Z.to_nat len) m str bytes; Some (m, s32 (p - str)).

(** ** Searching, joining and comparing strings *)

Definition strlen (m : mem) (s : Z) : option Z :=
  e ← skip_while (λ c, negb (c =? 0)) (fuel_of m) m s; Some (e - s).

(** From [i] on, [n] places are tried. *)
Fixpoint strstr_loop (n : nat) (m : mem) (haystack needle : Z) (nlen i : Z) : option (option Z) :=
  match n with
  | O => Some None
  | S n =>
      eq ← bcmp0 m needle (haystack + i) (Z.to_nat nlen);
      if (eq : bool) then Some (Some (haystack + i)) else strstr_loop n m haystack needle nlen (i + 1)
  end.

(** A NULL argument: [haystack] is returned. *)
Definition bcmstrstr (m : mem) (haystack needle : option Z) : option (option Z) :=
  match haystack, needle with
  | Some haystack, Some needle =>
      n ← strlen m needle; h ← strlen m haystack;
      if h <? u32 n then Some None
      else strstr_loop (Z.to_nat (u32 (u32 h - u32 n + 1))) m haystack needle (u32 n) 0
  | _, _ => Some haystack
  end.

(** [strncmp(a, b, n) == 0]. *)
Fixpoint strncmp0 (m : mem) (a b : Z) (n : nat) : option bool :=
  match n with
  | O => Some true
  | S n => x ← rd8 m a; y ← rd8 m b;
           if negb (x =? y) then Some false else if x =? 0 then Some true else strncmp0 m (a + 1) (b + 1) n
  end.

Fixpoint strnstr_loop (fuel : nat) (m : mem) (s s_len substr substr_len : Z) : option (option Z) :=
  match fuel with
  | O => None
  | S fuel =>
      if substr_len <=? s_len then
        eq ← strncmp0 m s substr (Z.to_nat substr_len);
        if (eq : bool) then Some (Some s) else strnstr_loop fuel m (s + 1) (u32 (s_len - 1)) substr substr_len
      else Some None
  end.

(** Each failed round has read a byte of [s]. *)
Definition bcmstrnstr (m : mem) (s s_len substr substr_len : Z) : option (option Z) :=
  strnstr_loop (S (fuel_of m)) m s s_len substr substr_len.

Fixpoint strcat_loop (fuel : nat) (m : mem) (p src : Z) : option mem :=
  match fuel with
  | O => None
  | S fuel => c ← rd8 m src; m ← wr8 m p c; if c =? 0 then Some m else strcat_loop fuel m (p + 1) (src + 1)
  end.

(** The memory; the result is [dest]. *)
Definition bcmstrcat (m : mem) (dest src : Z) : option mem :=
  n ← strlen m dest; strcat_loop (fuel_of m) m (dest + n) src.

(** [size] characters are copied at most, with no NUL behind the last. *)
Fixpoint strncat_loop (n : nat) (m : mem) (p src : Z) : option mem :=
  match n with
  | O => Some m
  | S n => c ← rd8 m src; m ← wr8 m p c; if c =? 0 then Some m else strncat_loop n m (p + 1) (src + 1)
  end.

Definition bcmstrncat (m : mem) (dest src size : Z) : option mem :=
  n ← strlen m dest; strncat_loop (Z.to_nat size) m (dest + n) src.

Definition xToLower (c : Z) : Z := if (65 <=? c) && (c <=? 90) then u8 (c - 65 + 97) else c.

(** The loop ends at the end of a string, at a difference, or after [cnt]
    characters; bcmstricmp is the loop with no [cnt]. *)
Fixpoint stricmp_loop (fuel : nat) (m : mem) (s1 s2 : Z) (cnt : option Z) : option Z :=
  match fuel with
  | O => None
  | S fuel =>
      y ← rd8 m s2;
      x ← (if y =? 0 then Some 0 else rd8 m s1);
      if negb (y =? 0) && negb (x =? 0) && (match cnt with Some c => negb (c =? 0) | None => true end) then
        let dc := xToLower x in
        let sc := xToLower y in
        if dc <? sc then Some (-1)
        else if sc <? dc then Some 1
        else stricmp_loop fuel m (s1 + 1) (s2 + 1) (option_map (λ c, s32 (c - 1)) cnt)
      else
        if (match cnt with Some c => c =? 0 | None => false end) then Some 0
        else
          x ← rd8 m s1;
          Some (if negb (x =? 0) && (y =? 0) then 1 else if (x =? 0) && negb (y =? 0) then -1 else 0)
  end.

Definition bcmstricmp (m : mem) (s1 s2 : Z) : option Z := stricmp_loop (fuel_of m) m s1 s2 None.
Definition bcmstrnicmp (m : mem) (s1 s2 cnt : Z) : option Z := stricmp_loop (fuel_of m) m s1 s2 (Some cnt).

(** ** Tokens *)

(** The set of delimiters: bit [c & 31] of word [c >> 5] of eight. *)
Definition map_bit (mp : list Z) (c : Z) : bool :=
  negb (Z.land (nth (Z.to_nat (Z.shiftr c 5)) mp 0) (Z.shiftl 1 (Z.land c 31)) =? 0).
Definition map_set (mp : list Z) (c : Z) : list Z :=
  let i := Z.to_nat (Z.shiftr c 5) in <[i := Z.lor (nth i mp 0) (Z.shiftl 1 (Z.land c 31))]> mp.

(** The NUL is set too. *)
Fixpoint delim_loop (fuel : nat) (m : mem) (d : Z) (mp : list Z) : option (list Z) :=
  match fuel with
  | O => None
  | S fuel => c ← rd8 m d; let mp := map_set mp c in if c =? 0 then Some mp else delim_loop fuel m (d + 1) mp
  end.

Definition tok_skip (mp : list Z) (c : Z) : bool := map_bit mp c && negb (c =? 0) || (c =? 32).
Definition tok_char (mp : list Z) (c : Z) : bool := negb (c =? 0) && negb (map_bit mp c).

Record tok_result := mk_tok {
  tok_mem : mem;
  tok_string : Z;          (* *string after the call *)
  tok_delim : Z;           (* *tokdelim, where it is asked for *)
  tok_token : option Z     (* the result *)
}.

Definition bcmstrtok (m : mem) (string delimiters : Z) : option tok_result :=
  mp ← delim_loop (fuel_of m) m delimiters (replicate 8 0);
  nextoken ← skip_while (tok_skip mp) (fuel_of m) m string;
  str ← skip_while (tok_char mp) (fuel_of m) m nextoken;
  c ← rd8 m str;
  '(m, delim, str) ← (if c =? 0 then Some (m, 0, str) else m ← wr8 m str 0; Some (m, c, str + 1));
  Some (mk_tok m str delim (if nextoken =? str then None else Some nextoken)).
