(* ===== verification/BcmStrTheorems.v ===== *)
(** * bcmutils.c: numbers, addresses and strings as text (properties)

    What the number parser returns for a number in a text, and that the text
    forms of hardware addresses, IPv4 addresses and binary data read back as
    what was printed. *)

From Stdlib Require Import Ascii String.
From S2P Require Import Prelude Mem BcmStr.

(** ** Reading a string *)

Lemma at_mem_cons m p x l : at_mem m p (x :: l) -> rd8 m p = Some x ∧ at_mem m (p + 1) l.
Proof.
  intros H. split.
  - replace p with (p + Z.of_nat 0) by lia. by eapply at_mem_rd8.
  - change (x :: l) with ([x] ++ l) in H. by apply at_mem_app in H as [_ H].
Qed.

Lemma at_mem_fuel m p l : at_mem m p l -> (length l < fuel_of m)%nat.
Proof. intros [H _]. apply readable_spec in H. unfold fuel_of. lia. Qed.

Lemma at_mem_pos m p l : at_mem m p l -> 0 <= p.
Proof. intros [H _]. apply readable_spec in H. lia. Qed.

Lemma skip_while_spec f l c r fuel m p :
  at_mem m p (l ++ c :: r) -> forallb f l = true -> f c = false -> (length l < fuel)%nat ->
  skip_while f fuel m p = Some (p + Z.of_nat (length l)).
Proof.
  revert fuel p. induction l as [|x l IH]; intros [|fuel] p H Hl Hc Hf; cbn [length] in Hf; try lia;
    cbn [skip_while app] in *; apply at_mem_cons in H as [-> H]; cbn [mbind option_bind].
  - rewrite Hc. f_equal. cbn. lia.
  - cbn [forallb] in Hl. apply andb_true_iff in Hl as [-> Hl]. rewrite (IH fuel (p + 1)) by (done || lia).
    f_equal. cbn [length]. lia.
Qed.

(** The loop stops at the NUL at the latest. *)
Lemma skip_while_ends f l fuel m p :
  at_mem m p (l ++ [0]) -> f 0 = false -> (length l < fuel)%nat ->
  ∃ q, skip_while f fuel m p = Some q ∧ p <= q <= p + Z.of_nat (length l).
Proof.
  intros H H0. revert fuel p H. induction l as [|x l IH]; intros [|fuel] p H Hf; cbn [length] in Hf; try lia;
    cbn [skip_while app] in *; apply at_mem_cons in H as [-> H]; cbn [mbind option_bind].
  - rewrite H0. exists p. cbn. split; [done|lia].
  - destruct (f x); [|exists p; cbn [length]; split; [done|lia]].
    destruct (IH fuel (p + 1) H) as (q & -> & Hq); [lia|]. exists q. cbn [length]. split; [done|lia].
Qed.

(** ** The digits of a number *)

Definition is_digit (base c : Z) : bool := bcm_isxdigit c && (digit_value c <? base).

(** The number the digits [ds] denote after [r]. *)
Definition number (base r : Z) (ds : list Z) : Z := fold_left (λ r c, r * base + digit_value c) ds r.

Lemma digit_value_range c : 0 <= digit_value c < 18446744073709551616.
Proof. unfold digit_value, u64. apply Z.mod_pos_bound. lia. Qed.

Lemma number_ge base r ds : 1 <= base -> 0 <= r -> r <= number base r ds.
Proof.
  intros Hb. revert r. induction ds as [|c ds IH]; intros r Hr; [cbn; lia|]. cbn [number fold_left].
  pose proof (digit_value_range c). specialize (IH (r * base + digit_value c) ltac:(nia)). unfold number in IH. nia.
Qed.

Lemma u64_small x : 0 <= x < 18446744073709551616 -> u64 x = x.
Proof. apply Z.mod_small. Qed.

Lemma number_u64 base r r' ds :
  u64 r = u64 r' -> u64 (number base r ds) = u64 (number base r' ds).
Proof.
  revert r r'. induction ds as [|c ds IH]; intros r r' H; [done|]. cbn [number fold_left]. apply IH.
  unfold u64 in *. rewrite Zplus_mod, Zmult_mod, H, <-Zmult_mod, <-Zplus_mod. done.
Qed.

(** What the loop returns for digits [ds] followed by something else: the number
    modulo 2^64, or the overflow result; the former when the number fits or is
    negative. *)
Lemma digits_loop_spec base minus ds rest fuel m p r last :
  1 <= base -> at_mem m p (ds ++ rest ++ [0]) ->
  forallb (is_digit base) ds = true -> is_digit base (hd 0 rest) = false ->
  (length ds < fuel)%nat -> 0 <= r ->
  (digits_loop fuel m p base minus (u64 r) last
     = Some (u64 (number base r ds), p + Z.of_nat (length ds), false)
   ∨ (∃ e, digits_loop fuel m p base minus (u64 r) last = Some (u64 (-1), e, true)) ∧ minus = false
     ∧ ¬ (number base r ds < 18446744073709551616 ∧ last <= u64 r)).
Proof.
  intros Hb. revert fuel p r last. induction ds as [|x ds IH]; intros [|fuel] p r last H Hds Hc Hf Hr;
    cbn [length] in Hf; try lia; cbn [digits_loop app] in *; pose proof H as Hat.
  - replace (rest ++ [0]) with (hd 0 rest :: tl (rest ++ [0])) in H by by destruct rest.
    apply at_mem_cons in H as [-> H]; cbn [mbind option_bind]. left. unfold is_digit in Hc. rewrite Hc. cbn [number fold_left length]. do 3 f_equal. lia.
  - apply at_mem_cons in H as [-> H]; cbn [mbind option_bind].
    cbn [forallb] in Hds. apply andb_true_iff in Hds as [Hx Hds]. unfold is_digit in Hx. rewrite Hx.
    cbn [number fold_left]. pose proof (digit_value_range x) as Hd.
    assert (u64 (u64 r * base + digit_value x) = u64 (r * base + digit_value x)) as Eu.
    { unfold u64. by rewrite Zplus_mod, Zmult_mod_idemp_l, <-Zplus_mod. }
    rewrite Eu. set (r' := r * base + digit_value x). assert (0 <= r') as Hr' by (subst r'; nia).
    destruct ((u64 r' <? last) && negb minus) eqn:Eo.
    + right. apply andb_true_iff in Eo as [Eo Em]. apply Z.ltb_lt in Eo. apply negb_true_iff in Em.
      split; [|split; [done|]].
      * destruct (skip_while_ends bcm_isxdigit (x :: ds ++ rest) (fuel_of m) m p) as (q & -> & _).
        -- cbn [app]. rewrite <-app_assoc. exact Hat.
        -- reflexivity.
        -- apply at_mem_fuel in Hat. cbn [length] in Hat |- *. rewrite length_app in Hat |- *.
           rewrite length_app in Hat. cbn [length] in Hat. lia.
        -- cbn [mbind option_bind]. by eexists.
      * intros [Hn Hl]. pose proof (number_ge base r' ds Hb Hr') as Hge. unfold number in Hge, Hn. cbn [fold_left] in Hn.
        fold r' in Hn. assert (r <= r') by (subst r'; nia). rewrite !u64_small in * by lia. lia.
    + destruct (IH fuel (p + 1) r' (u64 r') H Hds Hc ltac:(lia) Hr') as [->|[Hov [Hm Hn]]].
      * left. cbn [number fold_left length]. fold r'. do 3 f_equal. lia.
      * right. split; [done|]. split; [done|]. intros [Hn' Hl]. apply Hn. split; [done|lia].
Qed.

(** ** Numbers in a text *)

(** The base and the length of the prefix of the digits [l]. *)
Definition prefix (base : Z) (l : list Z) : Z * nat :=
  match l with
  | 48 :: x :: _ =>
      if ((base =? 0) || (base =? 16)) && ((x =? 120) || (x =? 88)) then (16, 2%nat)
      else if base =? 0 then (8, 1%nat) else (base, 0%nat)
  | 48 :: [] => if base =? 0 then (8, 1%nat) else (base, 0%nat)
  | _ => if base =? 0 then (10, 0%nat) else (base, 0%nat)
  end.

Lemma base_prefix_spec m p base l :
  at_mem m p (l ++ [0]) ->
  base_prefix m p base = Some (fst (prefix base l), p + Z.of_nat (snd (prefix base l))).
Proof.
  intros H. unfold base_prefix. destruct l as [|a l]; cbn [app] in H; apply at_mem_cons in H as [E0 H]; rewrite E0.
  { unfold prefix. destruct (Z.eqb_spec base 0), (Z.eqb_spec base 16); cbn; f_equal; f_equal; lia. }
  assert (∃ x r, l ++ [0] = x :: r) as (x & r & El) by (destruct l; cbn; eauto).
  rewrite El in H. apply at_mem_cons in H as [E1 _]. rewrite E1. cbn [mbind option_bind].
  destruct (Z.eqb_spec a 48) as [->|Ha].
  - destruct l as [|y l]; cbn [app] in El; injection El as <- _; cbn [prefix].
    + destruct (Z.eqb_spec base 0), (Z.eqb_spec base 16); cbn; f_equal; f_equal; lia.
    + destruct (Z.eqb_spec base 0), (Z.eqb_spec base 16), (y =? 120), (y =? 88); cbn; f_equal; f_equal; lia.
  - assert (prefix base (a :: l) = if base =? 0 then (10, 0%nat) else (base, 0%nat)) as ->.
    { unfold prefix. destruct a as [|a|a]; try done. repeat (destruct a as [a|a|]; try done). }
    destruct (Z.eqb_spec base 0), (Z.eqb_spec base 16); cbn; f_equal; f_equal; lia.
Qed.

(** Characters that start a number are neither spaces nor signs. *)
Lemma xdigit_start c : bcm_isxdigit c = true -> 0 <= c < 256 -> bcm_isspace c = false ∧ c ≠ 43 ∧ c ≠ 45.
Proof.
  intros H Hc.
  assert (negb (bcm_isxdigit c) || (negb (bcm_isspace c) && negb (c =? 43) && negb (c =? 45)) = true) as E
    by (apply (forall_seqZ (λ c, negb (bcm_isxdigit c) || (negb (bcm_isspace c) && negb (c =? 43) && negb (c =? 45))) 0 256);
        [vm_compute; reflexivity|lia]).
  rewrite H in E. cbn [negb orb] in E. apply andb_true_iff in E as [[E1 E2]%andb_true_iff E3].
  apply negb_true_iff in E1, E2, E3. apply Z.eqb_neq in E2, E3. done.
Qed.

Inductive sign := NoSign | Plus | Minus.
Definition sign_text (s : sign) : list Z := match s with NoSign => [] | Plus => [43] | Minus => [45] end.
Definition is_minus (s : sign) : bool := match s with Minus => true | _ => false end.

(** A number as the parser accepts it: spaces, a sign, the prefix of a base and
    its digits, and the text behind it. *)
Record num_text (base : Z) (ws : list Z) (sg : sign) (pf ds rest : list Z) : Prop := {
  nt_spaces : forallb bcm_isspace ws = true;
  nt_prefix : snd (prefix base (pf ++ ds ++ rest)) = length pf;
  nt_digits : forallb (is_digit (fst (prefix base (pf ++ ds ++ rest)))) ds = true;
  nt_end : is_digit (fst (prefix base (pf ++ ds ++ rest))) (hd 0 rest) = false;
  nt_start : ∃ c, head (pf ++ ds) = Some c ∧ bcm_isxdigit c = true ∧ 0 <= c < 256;
  nt_base : 1 <= fst (prefix base (pf ++ ds ++ rest))
}.

Lemma strtoull_eq m p base ws sg pf ds rest :
  num_text base ws sg pf ds rest ->
  at_mem m p (ws ++ sign_text sg ++ pf ++ ds ++ rest ++ [0]) ->
  let q := p + Z.of_nat (length (ws ++ sign_text sg ++ pf)) in
  bcm_strtoull m p base
  = ('(result, e, overflow) ← digits_loop (fuel_of m) m q (fst (prefix base (pf ++ ds ++ rest))) (is_minus sg) 0 0;
     if (overflow : bool) then Some (result, e)
     else Some (if is_minus sg then u64 (- result) else result, e)) ∧ at_mem m q (ds ++ rest ++ [0]).
Proof.
  intros [Hsp Hpf _ _ (c & Hc & Hx & Hcr) _] H q. destruct (xdigit_start c Hx Hcr) as (Hns & Hn43 & Hn45).
  assert (∃ t, pf ++ ds ++ rest ++ [0] = c :: t) as (t & Et).
  { destruct pf as [|a pf]; cbn in *; [destruct ds as [|a ds]; [done|]|]; injection Hc as <-; cbn; eauto. }
  unfold bcm_strtoull.
  rewrite (skip_while_spec bcm_isspace ws (hd c (sign_text sg)) (tl (sign_text sg ++ c :: t)));
    [|rewrite Et in H; by destruct sg|done|by destruct sg|apply at_mem_fuel in H; rewrite length_app in H; lia].
  cbn [mbind option_bind]. apply at_mem_app in H as [_ H].
  assert (at_mem m (p + Z.of_nat (length (ws ++ sign_text sg))) (pf ++ ds ++ rest ++ [0])) as Hb.
  { rewrite length_app, Nat2Z.inj_add, Z.add_assoc. by apply at_mem_app in H as [_ H]. }
  assert (rd8 m (p + Z.of_nat (length ws)) = Some (hd c (sign_text sg))) as ->.
  { rewrite Et in H. destruct sg; cbn [sign_text app] in H; by apply at_mem_cons in H as [-> _]. }
  cbn [mbind option_bind].
  assert ((if hd c (sign_text sg) =? 43 then (false, p + Z.of_nat (length ws) + 1)
           else if hd c (sign_text sg) =? 45 then (true, p + Z.of_nat (length ws) + 1) else (false, p + Z.of_nat (length ws)))
          = (is_minus sg, p + Z.of_nat (length (ws ++ sign_text sg)))) as ->.
  { destruct sg; cbn [sign_text hd is_minus]; rewrite length_app; cbn [length];
      rewrite ?(proj2 (Z.eqb_neq _ _) Hn43), ?(proj2 (Z.eqb_neq _ _) Hn45); cbn; f_equal; lia. }
  rewrite (base_prefix_spec m _ base (pf ++ ds ++ rest)) by (by rewrite <-!app_assoc).
  cbn [mbind option_bind]. rewrite Hpf.
  replace (p + Z.of_nat (length (ws ++ sign_text sg)) + Z.of_nat (length pf)) with q
    by (unfold q; rewrite !length_app; lia).
  split; [done|]. apply at_mem_app in Hb as [_ Hb]. unfold q. rewrite app_assoc, length_app, Nat2Z.inj_add, Z.add_assoc.
  exact Hb.
Qed.

(** For a number in a text, whatever stands behind it, the parser returns its
    value and where it ends, when the value has 64 bits; a minus sign negates
    modulo 2^64.  A larger number without a minus sign gives 2^64 - 1, or, as
    the test only compares with the previous partial result, its value modulo
    2^64. *)
Theorem bcm_strtoul_number (m : mem) (p base : Z) (ws : list Z) (sg : sign) (pf ds rest : list Z) :
  num_text base ws sg pf ds rest ->
  at_mem m p (ws ++ sign_text sg ++ pf ++ ds ++ rest ++ [0]) ->
  let V := number (fst (prefix base (pf ++ ds ++ rest))) 0 ds in
  let q := p + Z.of_nat (length (ws ++ sign_text sg ++ pf ++ ds)) in
  (V < 18446744073709551616 -> sg ≠ Minus -> bcm_strtoul m p base = Some (V, q))
  ∧ (sg = Minus -> bcm_strtoul m p base = Some (u64 (- V), q))
  ∧ (18446744073709551616 <= V -> sg ≠ Minus ->
     bcm_strtoul m p base = Some (u64 V, q) ∨ ∃ e, bcm_strtoul m p base = Some (u64 (-1), e)).
Proof.
  intros Ht H V q. destruct (strtoull_eq m p base ws sg pf ds rest Ht H) as [Eq Hd].
  destruct Ht as [_ _ Hds Hend _ Hb].
  assert (0 <= V) as HV by (apply number_ge; [done|lia]).
  set (q0 := p + Z.of_nat (length (ws ++ sign_text sg ++ pf))) in *.
  assert (q = q0 + Z.of_nat (length ds)) as -> by (unfold q, q0; rewrite !length_app; lia).
  unfold bcm_strtoul. rewrite Eq.
  destruct (digits_loop_spec (fst (prefix base (pf ++ ds ++ rest))) (is_minus sg) ds rest (fuel_of m) m q0 0 0 Hb Hd Hds Hend)
    as [E|[[e E] [Hm Hn]]]; [apply at_mem_fuel in Hd; rewrite length_app in Hd; lia|lia| |];
    change (u64 0) with 0 in E; rewrite E; cbn [mbind option_bind]; fold V.
  - split; [|split].
    + intros HV2 Hs. destruct sg; [| |done]; cbn [is_minus]; by rewrite u64_small by lia.
    + intros ->. cbn [is_minus]. do 2 f_equal. unfold u64.
      rewrite <-(Z.sub_0_l (V mod _)), Zminus_mod_idemp_r. by rewrite Z.sub_0_l.
    + intros _ Hs. left. by destruct sg.
  - split; [|split].
    + intros HV2 _. destruct Hn. split; [exact HV2|]. change (u64 0) with 0. lia.
    + intros ->. done.
    + intros _ _. right. by exists e.
Qed.

(** 3 * 10^19 passes the overflow test; 2^64 does not. *)
Lemma bcm_strtoul_number_witness :
  bcm_strtoul (chars " -12/" ++ [0]) 0 10 = Some (18446744073709551604, 4)
  ∧ bcm_strtoul (chars "0x1fg" ++ [0]) 0 0 = Some (31, 4)
  ∧ (bcm_strtoul (chars "30000000000000000000" ++ [0]) 0 10 = Some (u64 30000000000000000000, 20)
     ∨ ∃ e, bcm_strtoul (chars "30000000000000000000" ++ [0]) 0 10 = Some (u64 (-1), e)).
Proof.
  split; [|split].
  - destruct (bcm_strtoul_number (chars " -12/" ++ [0]) 0 10 [32] Minus [] [49; 50] [47]) as (_ & H & _).
    + split; try reflexivity; [|vm_compute; discriminate]. exists 49. split; [reflexivity|]. split; [reflexivity|lia].
    + split; reflexivity.
    + exact (H eq_refl).
  - destruct (bcm_strtoul_number (chars "0x1fg" ++ [0]) 0 0 [] NoSign [48; 120] [49; 102] [103]) as (H & _).
    + split; try reflexivity; [|vm_compute; discriminate]. exists 48. split; [reflexivity|]. split; [reflexivity|lia].
    + split; reflexivity.
    + apply H; [vm_compute; reflexivity|discriminate].
  - destruct (bcm_strtoul_number (chars "30000000000000000000" ++ [0]) 0 10 [] NoSign []
                (chars "30000000000000000000") []) as (_ & _ & H).
    + split; try reflexivity; [|vm_compute; discriminate]. exists 51. split; [reflexivity|]. split; [reflexivity|lia].
    + split; reflexivity.
    + apply H; [vm_compute; discriminate|discriminate].
Defined.

Example strtoul_overflow_missed :
  bcm_strtoul (chars "30000000000000000000" ++ [0]) 0 10 = Some (11553255926290448384, 20).
Proof. vm_compute. reflexivity. Qed.

(** ** Text forms that read back *)

(** The texts of [os] with [s] between them. *)
Fixpoint sep_text (f : Z -> list Z) (s : Z) (os : list Z) : list Z :=
  match os with
  | [] => []
  | o :: os => f o ++ match os with [] => [] | _ => s :: sep_text f s os end
  end.

Definition hex2 (a o : Z) : list Z := [hex_digit a (Z.shiftr o 4); hex_digit a (Z.land o 0xf)].

(** A number of two hexadecimal digits, read in base 16. *)
Lemma hex2_check a : a = 97 ∨ a = 65 -> ∀ o, 0 <= o < 256 ->
  forallb (is_digit 16) (hex2 a o) && bcm_isxdigit (hd 0 (hex2 a o)) && (0 <=? hd 0 (hex2 a o)) && (hd 0 (hex2 a o) <? 256)
  && (number 16 0 (hex2 a o) =? o) && negb (nth 1 (hex2 a o) 0 =? 120) && negb (nth 1 (hex2 a o) 0 =? 88) = true.
Proof.
  intros Ha o Ho. apply (forall_seqZ (λ o, forallb (is_digit 16) (hex2 a o) && bcm_isxdigit (hd 0 (hex2 a o))
    && (0 <=? hd 0 (hex2 a o)) && (hd 0 (hex2 a o) <? 256)
    && (number 16 0 (hex2 a o) =? o) && negb (nth 1 (hex2 a o) 0 =? 120) && negb (nth 1 (hex2 a o) 0 =? 88)) 0 256);
    [|lia]. destruct Ha as [-> | ->]; vm_compute; reflexivity.
Qed.

Lemma prefix_hex2 a o rest : a = 97 ∨ a = 65 -> 0 <= o < 256 -> prefix 16 (hex2 a o ++ rest) = (16, 0%nat).
Proof.
  intros Ha Ho. pose proof (hex2_check a Ha o Ho) as H. rewrite !andb_true_iff, !negb_true_iff in H.
  destruct H as [[_ H1] H2]. unfold hex2 in *. cbn [app nth prefix] in *. rewrite H1, H2.
  cbn [orb andb]. destruct (hex_digit a (Z.shiftr o 4)) as [|x|x]; try done. repeat (destruct x as [x|x|]; try done).
Qed.

Lemma strtoul_hex2 m p a o rest :
  a = 97 ∨ a = 65 -> 0 <= o < 256 -> at_mem m p (hex2 a o ++ rest ++ [0]) -> is_digit 16 (hd 0 rest) = false ->
  bcm_strtoul m p 16 = Some (o, p + 2).
Proof.
  intros Ha Ho H He. pose proof (hex2_check a Ha o Ho) as Hc. rewrite !andb_true_iff in Hc.
  destruct Hc as [[[[[[Hd Hx] H0] H2] Hv] _] _]. apply Z.leb_le in H0. apply Z.ltb_lt in H2. apply Z.eqb_eq in Hv.
  destruct (strtoull_eq m p 16 [] NoSign [] (hex2 a o) rest) as [E Hat].
  - split; cbn [app]; rewrite ?(prefix_hex2 a o rest Ha Ho); cbn [fst snd]; try done.
    exists (hd 0 (hex2 a o)). done.
  - exact H.
  - cbn [app sign_text length] in E, Hat. rewrite Z.add_0_r in E, Hat. unfold bcm_strtoul. rewrite E.
    rewrite (prefix_hex2 a o rest Ha Ho). cbn [fst is_minus].
    destruct (digits_loop_spec 16 false (hex2 a o) rest (fuel_of m) m p 0 0) as [El|[_ [_ Hn]]]; try done; try lia.
    + apply at_mem_fuel in H. rewrite length_app in H. lia.
    + change (u64 0) with 0 in El. rewrite El, Hv. cbn [mbind option_bind]. rewrite u64_small by lia. done.
    + destruct Hn. rewrite Hv. change (u64 0) with 0. lia.
Qed.

(** ** Hardware addresses *)

Lemma ntoa_octets_text os : os ≠ [] -> Forall (λ o, 0 <= o < 256) os ->
  ntoa_octets os = sep_text (hex2 97) 58 os ++ [58].
Proof.
  induction os as [|o os IH]; intros Hne Ho; [done|]. apply Forall_cons in Ho as [Ho Hos]. cbn [ntoa_octets sep_text].
  assert (Z.land (Z.shiftr o 4) 0xf = Z.shiftr o 4) as ->.
  { change 0xf with (Z.ones 4). rewrite Z.land_ones, Z.shiftr_div_pow2 by lia. apply Z.mod_small. change (2 ^ 4) with 16. split; [apply Z.div_pos; lia|apply Z.div_lt_upper_bound; lia]. }
  destruct os as [|o2 os]; [done|]. rewrite IH by done. by rewrite <-app_assoc.
Qed.

Lemma atoe_loop_text os m p ea :
  os ≠ [] -> Forall (λ o, 0 <= o < 256) os -> at_mem m p (sep_text (hex2 97) 58 os ++ [0]) ->
  atoe_loop (length os) m p ea = Some (ea ++ os).
Proof.
  revert p ea. induction os as [|o os IH]; intros p ea Hne Ho H; [done|]. apply Forall_cons in Ho as [Ho Hos].
  cbn [length atoe_loop sep_text] in *. destruct os as [|o2 os].
  - rewrite app_nil_r in H. rewrite (strtoul_hex2 m p 97 o []) by (done || tauto || by left). cbn [mbind option_bind].
    apply at_mem_app in H as [_ H]. change (Z.of_nat (length (hex2 97 o))) with 2 in H.
    apply at_mem_cons in H as [-> _]. cbn [mbind option_bind Z.eqb orb]. by rewrite u8_small.
  - pose proof H as H'. rewrite <-app_assoc in H'. apply at_mem_app in H' as [_ H'].
    change (Z.of_nat (length (hex2 97 o))) with 2 in H'. cbn [app] in H'. apply at_mem_cons in H' as [Er H'].
    rewrite (strtoul_hex2 m p 97 o (58 :: sep_text (hex2 97) 58 (o2 :: os))); [|by left|done|by rewrite app_assoc|reflexivity].
    cbn [mbind option_bind]. rewrite Er. cbn [mbind option_bind].
    change (58 =? 0) with false. change (length (o2 :: os) =? 0)%nat with false. cbn [orb].
    rewrite IH; [|done|done|exact H']. by rewrite u8_small, <-app_assoc.
Qed.

(** The text [l] and a NUL, written at [buf]; nothing else changes. *)
Definition wrote_text (m m' : mem) (buf size : Z) (l : list Z) : Prop :=
  only_in buf size m m' ∧ at_mem m' buf (l ++ [0]).

Lemma snprintf_spec m buf size l :
  readable m buf size = true -> Z.of_nat (length l) < size ->
  ∃ m', snprintf m buf size l = Some m' ∧ wrote_text m m' buf size l.
Proof.
  intros Hr Hl. pose proof (proj1 (readable_spec _ _ _) Hr). unfold snprintf.
  destruct (Z.eqb_spec size 0); [lia|]. rewrite take_ge by lia.
  assert (readable m buf (Z.of_nat (length (l ++ [0]))) = true) as Hb
    by (rewrite length_app; apply readable_spec; cbn [length]; lia).
  rewrite Hb. eexists. split; [done|]. split; [|by apply at_mem_splice_same].
  apply only_in_splice; [done|lia|]. rewrite length_app. cbn [length]. lia.
Qed.

Lemma length_ntoa_octets os : length (ntoa_octets os) = (3 * length os)%nat.
Proof. induction os as [|o os IH]; [done|]. cbn [ntoa_octets length]. rewrite IH. lia. Qed.

Lemma bcm_ether_ntoa_spec m os buf :
  length os = 6%nat -> Forall (λ o, 0 <= o < 256) os -> readable m buf 18 = true ->
  ∃ m', bcm_ether_ntoa m os buf = Some m' ∧ wrote_text m m' buf 18 (sep_text (hex2 97) 58 os).
Proof.
  intros Hl Ho Hr. unfold bcm_ether_ntoa.
  assert (length (sep_text (hex2 97) 58 os ++ [58]) = 18%nat) as Hlt.
  { rewrite <-ntoa_octets_text, length_ntoa_octets by (done || by destruct os). by rewrite Hl. }
  rewrite ntoa_octets_text by (done || by destruct os).
  rewrite Hlt. change (Z.of_nat 18) with 18. rewrite Hr.
  assert (readable m buf (Z.of_nat (length (sep_text (hex2 97) 58 os ++ [58]))) = true) as Hr' by by rewrite Hlt.
  pose proof (proj1 (readable_spec _ _ _) Hr) as Hb. rewrite length_app in Hlt. cbn [length] in Hlt.
  rewrite wr8_splice by (rewrite readable_splice by done; apply readable_spec; lia).
  replace (buf + 18 - 1) with (buf + Z.of_nat (length (sep_text (hex2 97) 58 os))) by lia.
  rewrite splice_last by done. change (u8 0) with 0. eexists. split; [done|].
  assert (readable m buf (Z.of_nat (length (sep_text (hex2 97) 58 os ++ [0]))) = true) as Hr2.
  { by rewrite length_app in Hr' |- *. }
  split; [|by apply at_mem_splice_same]. apply only_in_splice; [done|lia|]. rewrite length_app. cbn [length]. lia.
Qed.

(** ** IPv4 addresses *)

(** The decimal text of an octet, read in base 0: "0" is taken for the prefix of
    an octal number. *)
Definition octet_text_ok (o : Z) : bool :=
  let pf := if o =? 0 then [48] else [] in
  let ds := if o =? 0 then [] else decimal o in
  forallb (λ x, let l := decimal o ++ x in
    (snd (prefix 0 l) =? length pf)%nat && forallb (is_digit (fst (prefix 0 l))) ds
    && (1 <=? fst (prefix 0 l)) && (number (fst (prefix 0 l)) 0 ds =? o)
    && bcm_isxdigit (hd 0 (decimal o)) && (0 <=? hd 0 (decimal o)) && (hd 0 (decimal o) <? 256)
    && negb (is_digit (fst (prefix 0 l)) (hd 0 x)) && bool_decide (pf ++ ds = decimal o)
    && (length (decimal o) <=? 3)%nat && (1 <=? length (decimal o))%nat) [[]; [46]].

Lemma octet_text_check o : 0 <= o < 256 -> octet_text_ok o = true.
Proof. intros Ho. apply (forall_seqZ octet_text_ok 0 256); [vm_compute; reflexivity|lia]. Qed.

Lemma length_decimal_octet o : 0 <= o < 256 -> (length (decimal o) <= 3)%nat.
Proof.
  intros Ho. pose proof (octet_text_check o Ho) as H. unfold octet_text_ok in H. cbn [forallb] in H.
  rewrite !andb_true_iff in H. destruct H as [[[_ H] _] _]. by apply Nat.leb_le in H.
Qed.

Lemma prefix_two b a x l l' : prefix b (a :: x :: l) = prefix b (a :: x :: l').
Proof. done. Qed.

Lemma strtoul_octet m p o rest :
  0 <= o < 256 -> (rest = [] ∨ ∃ r, rest = 46 :: r) -> at_mem m p (decimal o ++ rest ++ [0]) ->
  bcm_strtoul m p 0 = Some (o, p + Z.of_nat (length (decimal o))).
Proof.
  intros Ho Hrest H. pose proof (octet_text_check o Ho) as Hc. unfold octet_text_ok in Hc.
  set (pf := if o =? 0 then [48] else []) in *. set (ds := if o =? 0 then [] else decimal o) in *.
  set (x := match rest with [] => [] | _ => [46] end).
  assert (fst (prefix 0 (decimal o ++ x)) = fst (prefix 0 (decimal o ++ rest))
          ∧ snd (prefix 0 (decimal o ++ x)) = snd (prefix 0 (decimal o ++ rest)) ∧ hd 0 x = hd 0 rest) as (E1 & E2 & E3).
  { destruct Hrest as [->|[r ->]]; [done|]. subst x. cbn [hd].
    destruct (decimal o) as [|a [|b l]]; cbn [app]; by rewrite ?(prefix_two 0 _ _ _ []). }
  rewrite forallb_forall in Hc. specialize (Hc x). rewrite E1, E2, E3 in Hc.
  rewrite !andb_true_iff, negb_true_iff, bool_decide_eq_true in Hc.
  destruct Hc as [[[[[[[[[[Hsnd Hds] Hb] Hv] Hx] H0] H256] Hend] Happ] _] Hlen].
  { destruct Hrest as [->|[r ->]]; cbn; tauto. }
  apply Nat.eqb_eq in Hsnd. apply Z.leb_le in Hb, H0. apply Z.ltb_lt in H256. apply Z.eqb_eq in Hv. apply Nat.leb_le in Hlen.
  assert (num_text 0 [] NoSign pf ds rest) as Ht.
  { split; rewrite ?app_assoc, ?Happ; try done. exists (hd 0 (decimal o)). by destruct (decimal o). }
  destruct (strtoull_eq m p 0 [] NoSign pf ds rest Ht) as [E Hat].
  { cbn [sign_text app]. by rewrite app_assoc, Happ. }
  cbn [app sign_text is_minus] in E, Hat. unfold bcm_strtoul. rewrite E. rewrite app_assoc, Happ.
  destruct (digits_loop_spec (fst (prefix 0 (decimal o ++ rest))) false ds rest (fuel_of m) m (p + Z.of_nat (length pf)) 0 0)
    as [El|[_ [_ Hn]]]; try done.
  - apply at_mem_fuel in Hat. rewrite length_app in Hat. lia.
  - change (u64 0) with 0 in El. rewrite El, Hv. cbn [mbind option_bind]. rewrite u64_small by lia.
    rewrite <-Happ, length_app. do 2 f_equal. lia.
  - destruct Hn. rewrite Hv. change (u64 0) with 0. lia.
Qed.

Lemma atoipv4_loop_text os m p ip :
  os ≠ [] -> Forall (λ o, 0 <= o < 256) os -> at_mem m p (sep_text decimal 46 os ++ [0]) ->
  atoipv4_loop (length os) m p ip = Some (ip ++ os).
Proof.
  revert p ip. induction os as [|o os IH]; intros p ip Hne Ho H; [done|]. apply Forall_cons in Ho as [Ho Hos].
  cbn [length atoipv4_loop sep_text] in *. rewrite <-app_assoc in H.
  rewrite (strtoul_octet m p o (match os with [] => [] | _ :: _ => 46 :: sep_text decimal 46 os end));
    [|done|destruct os; eauto|done].
  cbn [mbind option_bind]. apply at_mem_app in H as [_ H]. destruct os as [|o2 os].
  - apply at_mem_cons in H as [-> _]. cbn [mbind option_bind]. change (negb (0 =? 46) || _) with true. cbv iota.
    by rewrite u8_small.
  - cbn [app] in H. apply at_mem_cons in H as [-> H]. cbn [mbind option_bind].
    change (negb (46 =? 46) || (length (o2 :: os) =? 0)%nat) with false. cbv iota.
    rewrite IH; [|done..]. by rewrite u8_small, <-app_assoc.
Qed.

Lemma dotted_text a b c d : dotted [a; b; c; d] = sep_text decimal 46 [a; b; c; d].
Proof. cbn [dotted nth sep_text app]. by rewrite app_nil_r. Qed.

(** The text of a hardware address and the text of an IPv4 address, which
    fit in 18 and 16 bytes, read back as the address. *)
Theorem bcm_address_text_roundtrip (m : mem) (buf : Z) (os : list Z) :
  Forall (λ o, 0 <= o < 256) os ->
  (length os = 6%nat -> readable m buf 18 = true ->
   ∃ m', bcm_ether_ntoa m os buf = Some m' ∧ only_in buf 18 m m' ∧ bcm_ether_atoe m' buf = Some (true, os))
  ∧ (length os = 4%nat -> readable m buf 16 = true ->
     ∃ m', bcm_ip_ntoa m os buf = Some m' ∧ only_in buf 16 m m' ∧ bcm_atoipv4 m' buf = Some (true, os)).
Proof.
  intros Ho. split; intros Hl Hr.
  - destruct (bcm_ether_ntoa_spec m os buf Hl Ho Hr) as (m' & E & Hon & Hat). exists m'. split; [done|]. split; [done|].
    unfold bcm_ether_atoe. rewrite <-Hl, atoe_loop_text by (done || by destruct os). cbn. by rewrite Hl.
  - assert (∃ a b c d, os = [a; b; c; d]) as (a & b & c & d & ->)
      by (destruct os as [|a [|b [|c [|d [|]]]]]; try done; by exists a, b, c, d).
    unfold bcm_ip_ntoa. rewrite dotted_text.
    destruct (snprintf_spec m buf 16 (sep_text decimal 46 [a; b; c; d]) Hr) as (m' & -> & Hon & Hat).
    { rewrite <-dotted_text. unfold dotted. cbn [nth]. repeat rewrite length_app. cbn [length].
      rewrite !Forall_cons in Ho. destruct Ho as (Ha & Hb & Hc & Hd & _).
      pose proof (length_decimal_octet a Ha). pose proof (length_decimal_octet b Hb).
      pose proof (length_decimal_octet c Hc). pose proof (length_decimal_octet d Hd). lia. }
    exists m'. split; [done|]. split; [done|]. unfold bcm_atoipv4.
    change (Z.to_nat IPV4_ADDR_LEN) with (length [a; b; c; d]). by rewrite atoipv4_loop_text.
Qed.

Lemma bcm_address_text_roundtrip_witness :
  (∃ m', bcm_ether_ntoa (replicate 20 7) [0; 1; 0xab; 0xcd; 255; 16] 1 = Some m'
         ∧ only_in 1 18 (replicate 20 7) m' ∧ bcm_ether_atoe m' 1 = Some (true, [0; 1; 0xab; 0xcd; 255; 16]))
  ∧ (∃ m', bcm_ip_ntoa (replicate 20 7) [192; 168; 0; 7] 2 = Some m'
           ∧ only_in 2 16 (replicate 20 7) m' ∧ bcm_atoipv4 m' 2 = Some (true, [192; 168; 0; 7])).
Proof.
  split.
  - apply (bcm_address_text_roundtrip (replicate 20 7) 1 [0; 1; 0xab; 0xcd; 255; 16]);
      [repeat constructor; lia|reflexivity|reflexivity].
  - apply (bcm_address_text_roundtrip (replicate 20 7) 2 [192; 168; 0; 7]);
      [repeat constructor; lia|reflexivity|reflexivity].
Defined.

(** ** Hexadecimal data *)

(** Two characters for each byte. *)
Definition hex_text (bs : list Z) : list Z := flat_map (hex2 65) bs.

Lemma length_hex_text bs : length (hex_text bs) = (2 * length bs)%nat.
Proof. induction bs as [|b bs IH]; [done|]. cbn [hex_text flat_map]. rewrite length_app. unfold hex_text in IH. rewrite IH. cbn. lia. Qed.

Lemma format_hex_loop_spec bs m p src :
  Forall (λ o, 0 <= o < 256) bs -> at_mem m src bs -> readable m p (2 * Z.of_nat (length bs) + 1) = true ->
  disjoint_areas src (Z.of_nat (length bs)) p (2 * Z.of_nat (length bs) + 1) ->
  ∃ m', format_hex_loop (length bs) m p src = Some (m', p + 2 * Z.of_nat (length bs))
    ∧ only_in p (2 * Z.of_nat (length bs) + 1) m m' ∧ (bs = [] ∧ m' = m ∨ at_mem m' p (hex_text bs ++ [0])).
Proof.
  revert m p src. induction bs as [|b bs IH]; intros m p src Ho Hs Hr Hd.
  { exists m. cbn. split; [do 2 f_equal; lia|]. split; [apply only_in_refl|by left]. }
  apply Forall_cons in Ho as [Ho Hos]. cbn [length format_hex_loop] in *.
  apply at_mem_cons in Hs as [-> Hs]. cbn [mbind option_bind]. pose proof (proj1 (readable_spec _ _ _) Hr) as Hb.
  destruct (snprintf_spec m p 3 [hex_digit 65 (Z.shiftr b 4); hex_digit 65 (Z.land b 0xf)]) as (m1 & -> & Hon & Hat);
    [apply readable_spec; lia|cbn; lia|]. cbn [mbind option_bind].
  unfold disjoint_areas in Hd.
  destruct (IH m1 (p + 2) (src + 1)) as (m2 & -> & Hon2 & Hat2);
    [done|eapply only_in_at; [done..|unfold disjoint_areas; lia]|rewrite (only_in_readable _ _ _ _ _ _ Hon); apply readable_spec; lia
    |unfold disjoint_areas; lia|].
  exists m2. split; [do 2 f_equal; lia|]. split.
  - eapply only_in_trans; eapply only_in_weaken; (exact Hon || exact Hon2 || lia).
  - right. destruct Hat2 as [[-> ->]|Hat2]; [exact Hat|].
    cbn [hex_text flat_map]. rewrite <-app_assoc. apply at_mem_app. split; [|exact Hat2].
    apply at_mem_app in Hat as [Hat _]. eapply only_in_at; [exact Hon2|exact Hat|].
    unfold disjoint_areas. change (Z.of_nat (length (hex2 65 b))) with 2. lia.
Qed.

Lemma hex2bin_loop_S n m hex buf i out_len :
  hex2bin_loop (S n) m hex buf i out_len
  = (t0 ← rd8 m hex; t1 ← rd8 m (hex + 1);
     if negb (bcm_isxdigit t0) || negb (bcm_isxdigit t1) then Some (m, 0)
     else '(v, _) ← bcm_strtoul [t0; t1; 0] 0 16; m ← wr8 m (buf + i) (u8 v);
          if i + 1 <? out_len then hex2bin_loop n m (hex + 2) buf (i + 1) out_len else Some (m, out_len)).
Proof. done. Qed.

(** Each byte of the binary area is written once its two characters are read. *)
Lemma hex2bin_loop_spec bs m hex buf i out_len :
  Forall (λ o, 0 <= o < 256) bs -> bs ≠ [] -> out_len = i + Z.of_nat (length bs) ->
  at_mem m hex (hex_text bs) -> readable m (buf + i) (Z.of_nat (length bs)) = true ->
  disjoint_areas hex (2 * Z.of_nat (length bs)) (buf + i) (Z.of_nat (length bs)) ->
  ∃ m', hex2bin_loop (S (length bs)) m hex buf i out_len = Some (m', out_len)
    ∧ only_in (buf + i) (Z.of_nat (length bs)) m m' ∧ at_mem m' (buf + i) bs.
Proof.
  revert m hex i. induction bs as [|b bs IH]; intros m hex i Ho Hne Hol Hat Hr Hd; [done|].
  apply Forall_cons in Ho as [Ho Hos]. cbn [hex_text flat_map] in Hat. apply at_mem_app in Hat as [Hat Hrest].
  change (Z.of_nat (length (hex2 65 b))) with 2 in Hrest.
  pose proof (proj1 (readable_spec _ _ _) Hr) as Hb. cbn [length] in *. rewrite hex2bin_loop_S.
  pose proof (hex2_check 65 (or_intror eq_refl) b Ho) as Hc. rewrite !andb_true_iff in Hc.
  destruct Hc as [[[[[[Hdg _] _] _] _] _] _]. cbn [hex2 forallb] in Hdg. unfold is_digit in Hdg.
  rewrite !andb_true_iff in Hdg. destruct Hdg as [[Hx1 _] [[Hx2 _] _]].
  unfold hex2 in Hat. apply at_mem_cons in Hat as [-> Hat]. apply at_mem_cons in Hat as [-> _]. cbn [mbind option_bind].
  rewrite Hx1, Hx2. cbn [negb orb].
  rewrite (strtoul_hex2 [hex_digit 65 (Z.shiftr b 4); hex_digit 65 (Z.land b 15); 0] 0 65 b []);
    [|by right|done|split; reflexivity|reflexivity].
  cbn [mbind option_bind]. rewrite (u8_small b) by done.
  rewrite wr8_splice by (apply readable_spec; lia). rewrite (u8_small b) by done. cbn [mbind option_bind].
  set (m1 := splice m (buf + i) [b]).
  assert (readable m (buf + i) (Z.of_nat (length [b])) = true) as Hr1 by (apply readable_spec; cbn; lia).
  assert (only_in (buf + i) 1 m m1) as Hon1 by (apply only_in_splice; [done|lia|cbn; lia]).
  assert (at_mem m1 (buf + i) [b]) as Hat1 by by apply at_mem_splice_same.
  destruct (Z.ltb_spec (i + 1) out_len) as [Hlt|Hge].
  - assert (bs ≠ []) as Hne2 by (destruct bs; [cbn in *; lia|done]).
    unfold disjoint_areas in Hd. destruct (IH m1 (hex + 2) (i + 1) Hos Hne2) as (m2 & -> & Hon2 & Hat2); [lia|..].
    + eapply only_in_at; [exact Hon1|exact Hrest|]. fold (hex_text bs). rewrite length_hex_text. unfold disjoint_areas. lia.
    + rewrite (only_in_readable _ _ _ _ _ _ Hon1). apply readable_spec. lia.
    + unfold disjoint_areas. lia.
    + exists m2. rewrite Z.add_assoc in Hon2, Hat2. split; [done|]. split.
      * eapply only_in_trans; eapply only_in_weaken; (exact Hon1 || exact Hon2 || lia).
      * change (b :: bs) with ([b] ++ bs). apply at_mem_app. split; [|exact Hat2].
        eapply only_in_at; [exact Hon2|exact Hat1|]. unfold disjoint_areas. cbn [length]. lia.
  - assert (bs = []) as -> by (destruct bs; [done|cbn [length] in *; lia]). exists m1. by split.
Qed.

(** Hexadecimal text is not taken for the "0x" of a radix. *)
Lemma hex_text_no_radix bs : Forall (λ o, 0 <= o < 256) bs -> nth 1 (hex_text bs) 0 ≠ 120 ∧ nth 1 (hex_text bs) 0 ≠ 88.
Proof.
  intros H. destruct bs as [|b bs]; [done|]. apply Forall_cons in H as [Ho _].
  pose proof (hex2_check 65 (or_intror eq_refl) b Ho) as Hc. rewrite !andb_true_iff, !negb_true_iff, !Z.eqb_neq in Hc.
  destruct Hc as [[_ H1] H2]. done.
Qed.

(** Between 1 and 65535 bytes printed as hexadecimal text read back as
    themselves: the text takes two characters per byte and a NUL, and each of the
    two calls changes its output area only. *)
Theorem bcm_hex_text_roundtrip (m : mem) (str src buf buf_len : Z) (bs : list Z) :
  Forall (λ o, 0 <= o < 256) bs ->
  let n := Z.of_nat (length bs) in
  1 <= n <= 0xFFFF -> n <= buf_len ->
  at_mem m src bs -> readable m str (2 * n + 1) = true -> readable m buf n = true ->
  disjoint_areas src n str (2 * n + 1) -> disjoint_areas str (2 * n + 1) buf n ->
  ∃ m1 m2, bcm_format_hex m str src n = Some (m1, 2 * n) ∧ only_in str (2 * n + 1) m m1
    ∧ bcmhex2bin m1 str (2 * n) buf buf_len = Some (m2, n) ∧ only_in buf n m1 m2 ∧ at_mem m2 buf bs.
Proof.
  intros Ho n Hn Hbl Hs Hr Hrb Hd1 Hd2. assert (bs ≠ []) as Hne by (intros ->; cbn in *; lia).
  destruct (format_hex_loop_spec bs m str src Ho Hs Hr Hd1) as (m1 & E & Hon & [[? _]|Hat]); [done|]. fold n in E, Hon.
  exists m1. unfold bcm_format_hex. unfold n at 1. rewrite Nat2Z.id, E. cbn [mbind option_bind].
  apply at_mem_app in Hat as [Hat _].
  assert (length (hex_text bs) = (2 * length bs)%nat) as Hlt by apply length_hex_text.
  assert (Z.of_nat (length (hex_text bs)) = 2 * n) as Hln by (rewrite Hlt; lia).
  destruct (hex2bin_loop_spec bs m1 str buf 0 n Ho Hne) as (m2 & E2 & Hon2 & Hat2); [lia|exact Hat|..].
  { rewrite Z.add_0_r. by rewrite (only_in_readable _ _ _ _ _ _ Hon). }
  { fold n. unfold disjoint_areas in *. lia. }
  rewrite Z.add_0_r in *. exists m2. split; [|split; [exact Hon|split; [|done]]].
  - do 2 f_equal. unfold s32. replace (str + 2 * n - str) with (2 * n) by lia. rewrite Z.mod_small by lia. lia.
  - unfold bcmhex2bin. replace (2 * n) with (n * 2) by lia. rewrite Z_mod_mult. cbn [negb Z.eqb].
    destruct (hex_text_no_radix bs Ho) as [H1 H2].
    destruct (hex_text bs) as [|h0 [|h1 l]] eqn:El; [cbn in Hlt; lia|cbn in Hlt; lia|]. cbn [nth] in H1, H2.
    apply at_mem_cons in Hat as [-> Hat]. apply at_mem_cons in Hat as [-> _]. cbn [mbind option_bind].
    apply Z.eqb_neq in H1, H2. rewrite H1, H2. cbn [orb].
    assert ((if h0 =? 48 then Some false else Some false) = Some false) as -> by by destruct (h0 =? 48).
    cbn [mbind option_bind]. rewrite Z_div_mult by lia. destruct (Z.ltb_spec 0xFFFF n); [lia|].
    unfold u16. rewrite Z.mod_small by lia. destruct (Z.ltb_spec buf_len n); [lia|].
    unfold n at 1. by rewrite Nat2Z.id.
Qed.

Lemma bcm_hex_text_roundtrip_witness :
  ∃ m1 m2, bcm_format_hex ([0; 0x1f; 255] ++ replicate 10 7) 3 0 3 = Some (m1, 6)
    ∧ only_in 3 7 ([0; 0x1f; 255] ++ replicate 10 7) m1
    ∧ bcmhex2bin m1 3 6 10 3 = Some (m2, 3) ∧ only_in 10 3 m1 m2 ∧ at_mem m2 10 [0; 0x1f; 255].
Proof.
  apply (bcm_hex_text_roundtrip ([0; 0x1f; 255] ++ replicate 10 7) 3 0 10 3 [0; 0x1f; 255]);
    try reflexivity; try (unfold disjoint_areas; cbn; lia); try (cbn; lia).
  - repeat constructor; lia.
  - split; reflexivity.
Defined.

(** With no digits, the loop body still runs once: it reads two bytes behind the
    string and writes [buf[0]], although the buffer is empty; the result is 0. *)
Example hex2bin_no_digits :
  bcmhex2bin ([48; 120] ++ [97; 98] ++ [7]) 0 2 4 0 = Some ([48; 120; 97; 98; 171], 0)
  ∧ bcmhex2bin [48; 120] 0 2 2 0 = None.
Proof. split; reflexivity. Qed.

(** ** Tokens *)

Lemma map_bit_testbit mp c : 0 <= c -> map_bit mp c = Z.testbit (nth (Z.to_nat (Z.shiftr c 5)) mp 0) (Z.land c 31).
Proof.
  intros Hc. unfold map_bit. pose proof (Z.land_nonneg c 31) as [_ Hk]. specialize (Hk (or_introl Hc)).
  set (w := nth _ mp 0). set (k := Z.land c 31) in *. rewrite <-(Z.mul_1_l (Z.shiftl 1 k)), Z.mul_1_l.
  destruct (Z.testbit w k) eqn:E.
  - apply negb_true_iff, Z.eqb_neq. intros H. apply (f_equal (λ x, Z.testbit x k)) in H.
    rewrite Z.land_spec, E, Z.shiftl_spec, Z.sub_diag, Z.bits_0 in H by lia. done.
  - apply negb_false_iff, Z.eqb_eq. apply Z.bits_inj'. intros n Hn.
    rewrite Z.land_spec, Z.shiftl_spec, Z.bits_0 by lia. destruct (decide (n = k)) as [->|Hne]; [by rewrite E|].
    apply andb_false_iff. right. destruct (decide (n < k)); [by rewrite Z.testbit_neg_r by lia|].
    change 1 with (2 ^ 0). apply Z.pow2_bits_false. lia.
Qed.

Lemma word_bit c c' : Z.shiftr c 5 = Z.shiftr c' 5 -> Z.land c 31 = Z.land c' 31 -> c = c'.
Proof.
  change 31 with (Z.ones 5). rewrite !Z.shiftr_div_pow2, !Z.land_ones by lia. intros H1 H2.
  rewrite (Z.div_mod c (2 ^ 5)), (Z.div_mod c' (2 ^ 5)) by lia. by rewrite H1, H2.
Qed.

Lemma map_bit_set mp c c' : length mp = 8%nat -> 0 <= c < 256 -> 0 <= c' < 256 ->
  map_bit (map_set mp c) c' = map_bit mp c' || (c =? c').
Proof.
  intros Hl Hc Hc'. rewrite !map_bit_testbit by lia. unfold map_set.
  assert (∀ x, 0 <= x < 256 -> (Z.to_nat (Z.shiftr x 5) < 8)%nat ∧ 0 <= Z.shiftr x 5) as Hi.
  { intros x Hx. rewrite Z.shiftr_div_pow2 by lia. change (2 ^ 5) with 32.
    pose proof (Z.div_pos x 32). pose proof (Z.div_lt_upper_bound x 32 8). lia. }
  destruct (Hi c Hc) as [Hc1 Hc2], (Hi c' Hc') as [Hc1' Hc2'].
  assert (0 <= Z.land c 31 ∧ 0 <= Z.land c' 31) as [Hk Hk'] by (split; apply Z.land_nonneg; lia).
  destruct (decide (Z.shiftr c 5 = Z.shiftr c' 5)) as [E|E].
  - rewrite E. rewrite !nth_lookup, list_lookup_insert_eq by lia. cbn [from_option]. unfold id. rewrite Z.lor_spec, Z.shiftl_spec by lia. f_equal.
    destruct (Z.eqb_spec c c') as [->|Hne]; [by rewrite Z.sub_diag|].
    assert (Z.land c 31 ≠ Z.land c' 31) by (intros E2; by apply Hne, word_bit).
    destruct (decide (Z.land c' 31 < Z.land c 31)); [by rewrite Z.testbit_neg_r by lia|].
    change 1 with (2 ^ 0). apply Z.pow2_bits_false. lia.
  - rewrite !nth_lookup, list_lookup_insert_ne by lia. destruct (Z.eqb_spec c c') as [->|]; [done|]. by rewrite orb_false_r.
Qed.

Lemma length_map_set mp c : length (map_set mp c) = length mp.
Proof. apply length_insert. Qed.

Lemma delim_loop_spec ds fuel m d mp :
  at_mem m d (ds ++ [0]) -> Forall (λ c, 0 < c < 256) ds -> (length ds < fuel)%nat -> length mp = 8%nat ->
  ∃ mp', delim_loop fuel m d mp = Some mp'
    ∧ ∀ c, 0 <= c < 256 -> map_bit mp' c = map_bit mp c || existsb (Z.eqb c) (ds ++ [0]).
Proof.
  revert fuel d mp. induction ds as [|x ds IH]; intros [|fuel] d mp H Hds Hf Hl; cbn [length] in Hf; try lia;
    cbn [delim_loop app] in *; apply at_mem_cons in H as [-> H]; cbn [mbind option_bind].
  - change (0 =? 0) with true. cbv iota. eexists. split; [done|]. intros c Hc. rewrite map_bit_set by (done || lia).
    cbn [existsb]. by rewrite orb_false_r, Z.eqb_sym.
  - apply Forall_cons in Hds as [Hx Hds]. destruct (Z.eqb_spec x 0); [lia|].
    destruct (IH fuel (d + 1) (map_set mp x)) as (mp' & E & Hm); [done|done|lia|by rewrite length_map_set|].
    exists mp'. split; [done|]. intros c Hc. rewrite Hm, map_bit_set by (done || lia). cbn [existsb].
    by rewrite <-orb_assoc, (Z.eqb_sym c).
Qed.

(** The longest prefix of characters that satisfy [f], and the rest. *)
Fixpoint span (f : Z -> bool) (l : list Z) : list Z * list Z :=
  match l with
  | [] => ([], [])
  | x :: l' => if f x then (x :: (span f l').1, (span f l').2) else ([], l)
  end.

Lemma span_spec f l : l = (span f l).1 ++ (span f l).2 ∧ forallb f (span f l).1 = true
  ∧ ((span f l).2 = [] ∨ ∃ c r, (span f l).2 = c :: r ∧ f c = false).
Proof.
  induction l as [|x l (IH1 & IH2 & IH3)]; cbn; [by split_and!; [| |left]|].
  destruct (f x) eqn:E; cbn; [by rewrite E, <-IH1|]. split_and!; [done|done|]. right. eauto.
Qed.

Lemma skip_while_span f g l m p :
  at_mem m p (l ++ [0]) -> (∀ c, c ∈ l -> f c = g c) -> f 0 = false ->
  skip_while f (fuel_of m) m p = Some (p + Z.of_nat (length (span g l).1)).
Proof.
  intros H Hfg H0. destruct (span_spec g l) as (El & Ha & Hb). set (a := (span g l).1) in *. set (b := (span g l).2) in *.
  assert (forallb f a = true) as Ha'.
  { apply forallb_forall. intros x Hx. rewrite Hfg by (rewrite El; apply list_elem_of_In, in_or_app; by left).
    by apply (proj1 (forallb_forall g a) Ha). }
  apply at_mem_fuel in H as Hlen. rewrite El, !length_app in Hlen. destruct Hb as [Eb|(c & r & Eb & Hc)].
  - apply (skip_while_spec f a 0 []); [by rewrite El, Eb, app_nil_r in H|done|done|lia].
  - apply (skip_while_spec f a c (r ++ [0])); [by rewrite El, Eb, <-app_assoc in H|done| |lia].
    rewrite Hfg; [done|]. rewrite El, Eb. apply list_elem_of_In, in_or_app. right. by left.
Qed.

(** For a string [l] and the delimiters [ds], a call skips the delimiters and
    spaces in front, returns the characters up to the next delimiter as the token,
    replaces that delimiter by a NUL, reports it, and moves the string pointer
    behind it; at the end of the string nothing is written, and without a token
    the result is NULL.  Afterwards the token and the remaining string are strings
    of their own. *)
Theorem bcmstrtok_spec (m : mem) (s d : Z) (ds l : list Z) :
  Forall (λ c, 0 < c < 256) ds -> Forall (λ c, 0 < c < 256) l -> at_mem m d (ds ++ [0]) -> at_mem m s (l ++ [0]) ->
  let delim c := existsb (Z.eqb c) ds in
  let r := (span (λ c, delim c || (c =? 32)) l).2 in
  let (tok, rest) := span (λ c, negb (delim c)) r in
  let t := s + Z.of_nat (length (span (λ c, delim c || (c =? 32)) l).1) in
  let e := t + Z.of_nat (length tok) in
  match rest with
  | [] => bcmstrtok m s d = Some (mk_tok m e 0 (match tok with [] => None | _ => Some t end))
  | c :: rest => bcmstrtok m s d = Some (mk_tok (splice m e [0]) (e + 1) c (Some t))
      ∧ delim c = true ∧ at_mem (splice m e [0]) t (tok ++ [0]) ∧ at_mem (splice m e [0]) (e + 1) (rest ++ [0])
  end.
Proof.
  intros Hds Hl Hd Hs delim r. set (skip := λ c, delim c || (c =? 32)) in *.
  destruct (delim_loop_spec ds (fuel_of m) m d (replicate 8 0)) as (mp & Emp & Hmp);
    [done|done|apply at_mem_fuel in Hd; rewrite length_app in Hd; lia|done|].
  assert (∀ c, 0 < c < 256 -> map_bit mp c = delim c) as Hmap.
  { intros c Hc. rewrite Hmp by lia. rewrite existsb_app. cbn [existsb]. destruct (Z.eqb_spec c 0); [lia|].
    rewrite !orb_false_r. rewrite map_bit_testbit, nth_lookup by lia. destruct (replicate 8 0 !! _) eqn:E; cbn.
    - apply lookup_replicate in E as [-> _]. by rewrite Z.bits_0.
    - by rewrite Z.bits_0. }
  assert (∀ x, x ∈ l -> 0 < x < 256) as Hlr by (by apply Forall_forall).
  unfold bcmstrtok. rewrite Emp. cbn [mbind option_bind].
  rewrite (skip_while_span (tok_skip mp) skip l m s Hs);
    [|intros c Hc; apply Hlr in Hc; unfold tok_skip, skip; rewrite Hmap by done; destruct (Z.eqb_spec c 0); [lia|]; by rewrite andb_true_r
     |unfold tok_skip; by rewrite andb_false_r].
  destruct (span_spec skip l) as (El & _ & _). fold r in El. set (lead := (span skip l).1) in *.
  assert (at_mem m (s + Z.of_nat (length lead)) (r ++ [0])) as Hr.
  { rewrite El, <-app_assoc in Hs. by apply at_mem_app in Hs as [_ Hs]. }
  set (t := s + Z.of_nat (length lead)) in *. cbn [mbind option_bind].
  assert (∀ c, c ∈ r -> 0 < c < 256) as Hrr.
  { intros c Hc. apply Hlr. rewrite El. apply elem_of_app. by right. }
  rewrite (skip_while_span (tok_char mp) (λ c, negb (delim c)) r m t Hr);
    [|intros c Hc; apply Hrr in Hc; unfold tok_char; rewrite Hmap by done; destruct (Z.eqb_spec c 0); [lia|done]|done].
  destruct (span_spec (λ c, negb (delim c)) r) as (Er & _ & Hrest). destruct (span (λ c, negb (delim c)) r) as [tok rest].
  cbn [fst snd] in *. set (e := t + Z.of_nat (length tok)) in *. cbn [mbind option_bind].
  rewrite Er, <-app_assoc in Hr. apply at_mem_app in Hr as [Ht He]. fold e in He.
  destruct rest as [|c rest].
  - cbn [app] in He. apply at_mem_cons in He as [-> _]. cbn. f_equal. f_equal.
    destruct tok; [by rewrite (proj2 (Z.eqb_eq t e)) by (unfold e; cbn; lia)|].
    by rewrite (proj2 (Z.eqb_neq t e)) by (unfold e; cbn [length]; lia).
  - cbn [app] in He. pose proof He as [Hrd _]. apply at_mem_cons in He as [-> He]. cbn [mbind option_bind].
    assert (0 < c < 256) as Hc. { apply Hrr. rewrite Er. apply elem_of_app. right. left. }
    destruct (Z.eqb_spec c 0); [lia|]. apply readable_spec in Hrd. cbn [length] in Hrd.
    assert (readable m e (Z.of_nat (length [0])) = true) as Hre by (apply readable_spec; cbn; lia).
    rewrite wr8_splice by done. cbn [mbind option_bind]. change (u8 0) with 0.
    rewrite (proj2 (Z.eqb_neq t (e + 1))) by (unfold e; lia).
    destruct Hrest as [|(c' & r' & [= <- <-] & Hdc)]; [done|]. apply negb_false_iff in Hdc.
    split_and!; [done|done| |].
    + apply at_mem_app. fold e. split; [|by apply at_mem_splice_same].
      apply at_mem_splice; [done|done|]. unfold disjoint_areas, e. cbn [length]. lia.
    + apply at_mem_splice; [done|done|]. unfold disjoint_areas. cbn [length]. lia.
Qed.

(** ** Comparison and search *)

(** The order of texts by their characters, a prefix first. *)
Fixpoint text_cmp (a b : list Z) : Z :=
  match a, b with
  | [], [] => 0
  | _ :: _, [] => 1
  | [], _ :: _ => -1
  | x :: a, y :: b => if x <? y then -1 else if y <? x then 1 else text_cmp a b
  end.

(** The first [n] characters, if [n] is given. *)
Definition cut (n : option nat) (l : list Z) : list Z := match n with Some n => take n l | None => l end.

Lemma stricmp_loop_spec l1 l2 fuel m s1 s2 n :
  Forall (λ c, c ≠ 0) l1 -> Forall (λ c, c ≠ 0) l2 -> at_mem m s1 (l1 ++ [0]) -> at_mem m s2 (l2 ++ [0]) ->
  (length l2 < fuel)%nat -> (match n with Some n => Z.of_nat n < 2147483648 | None => True end) ->
  stricmp_loop fuel m s1 s2 (option_map Z.of_nat n)
  = Some (text_cmp (map xToLower (cut n l1)) (map xToLower (cut n l2))).
Proof.
  revert l1 fuel s1 s2 n. induction l2 as [|y l2 IH]; intros l1 [|fuel] s1 s2 n H1 H2 Hs1 Hs2 Hf Hn; cbn [length] in Hf; try lia;
    cbn [stricmp_loop app] in *; apply at_mem_cons in Hs2 as [-> Hs2]; cbn [mbind option_bind].
  - change (0 =? 0) with true. cbn [negb andb mbind option_bind]. destruct n as [n|]; cbn [option_map cut].
    + destruct (Z.eqb_spec (Z.of_nat n) 0) as [E|E]; [by replace n with 0%nat by lia|]. destruct n as [|n]; [done|].
      destruct l1 as [|x l1]; cbn [app] in Hs1; apply at_mem_cons in Hs1 as [-> _]; [done|].
      apply Forall_cons in H1 as [Hx _]. cbn. by destruct (Z.eqb_spec x 0).
    + destruct l1 as [|x l1]; cbn [app] in Hs1; apply at_mem_cons in Hs1 as [-> _]; [done|].
      apply Forall_cons in H1 as [Hx _]. cbn. by destruct (Z.eqb_spec x 0).
  - apply Forall_cons in H2 as [Hy H2]. destruct (Z.eqb_spec y 0); [done|]. cbn [negb andb].
    destruct l1 as [|x l1]; cbn [app] in Hs1; apply at_mem_cons in Hs1 as [-> Hs1]; cbn [mbind option_bind].
    + change (0 =? 0) with true. cbn [negb andb]. destruct n as [[|n]|]; done.
    + apply Forall_cons in H1 as [Hx H1]. destruct (Z.eqb_spec x 0); [done|]. cbn [negb andb].
      destruct n as [[|n]|]; cbn [option_map cut take map text_cmp].
      * done.
      * destruct (Z.eqb_spec (Z.of_nat (S n)) 0); [lia|]. cbn [negb].
        replace (s32 (Z.of_nat (S n) - 1)) with (Z.of_nat n) by (unfold s32; rewrite Z.mod_small by lia; lia).
        change (Some (Z.of_nat n)) with (option_map Z.of_nat (Some n)). rewrite (IH l1) by (done || lia).
        cbn [cut]. by repeat case_match.
      * change (@None Z) with (option_map Z.of_nat None). rewrite (IH l1) by (done || lia). cbn [cut]. by repeat case_match.
Qed.

(** The comparisons order two strings by their characters without regard to
    the case of letters, a prefix before what it is a prefix of; with a count,
    by the first characters. *)
Theorem bcm_string_compare (m : mem) (s1 s2 : Z) (l1 l2 : list Z) (n : nat) :
  Forall (λ c, c ≠ 0) l1 -> Forall (λ c, c ≠ 0) l2 -> at_mem m s1 (l1 ++ [0]) -> at_mem m s2 (l2 ++ [0]) ->
  Z.of_nat n < 2147483648 ->
  bcmstricmp m s1 s2 = Some (text_cmp (map xToLower l1) (map xToLower l2))
  ∧ bcmstrnicmp m s1 s2 (Z.of_nat n) = Some (text_cmp (map xToLower (take n l1)) (map xToLower (take n l2))).
Proof.
  intros H1 H2 Hs1 Hs2 Hn. pose proof (at_mem_fuel _ _ _ Hs2) as Hf. rewrite length_app in Hf. split.
  - apply (stricmp_loop_spec l1 l2 (fuel_of m) m s1 s2 None); (done || lia).
  - apply (stricmp_loop_spec l1 l2 (fuel_of m) m s1 s2 (Some n)); (done || lia).
Qed.

Lemma bcm_string_compare_witness :
  bcmstricmp (chars "Wlan0" ++ [0] ++ chars "wLAN" ++ [0]) 0 6 = Some 1
  ∧ bcmstrnicmp (chars "Wlan0" ++ [0] ++ chars "wLAN" ++ [0]) 0 6 4 = Some 0.
Proof.
  apply (bcm_string_compare (chars "Wlan0" ++ [0] ++ chars "wLAN" ++ [0]) 0 6 (chars "Wlan0") (chars "wLAN") 4);
    [repeat constructor; discriminate|repeat constructor; discriminate|split; reflexivity|split; reflexivity|lia].
Defined.

Lemma bcmstrtok_spec_witness :
  bcmstrtok (chars " a b,c" ++ [0] ++ chars ",;" ++ [0]) 0 7
  = Some (mk_tok (splice (chars " a b,c" ++ [0] ++ chars ",;" ++ [0]) 4 [0]) 5 44 (Some 1)).
Proof.
  destruct (bcmstrtok_spec (chars " a b,c" ++ [0] ++ chars ",;" ++ [0]) 0 7 (chars ",;") (chars " a b,c")) as [H _];
    [repeat constructor; lia|repeat constructor; lia|split; reflexivity|split; reflexivity|exact H].
Defined.

(** Where [needle] first occurs in a text. *)
Fixpoint first_match (needle l : list Z) : option nat :=
  if decide (needle `prefix_of` l) then Some 0%nat
  else match l with [] => None | _ :: l => option_map S (first_match needle l) end.

Lemma first_match_short needle l : (length l < length needle)%nat -> first_match needle l = None.
Proof.
  induction l as [|x l IH]; intros Hl; cbn; (destruct (decide _) as [Hp|_]; [apply prefix_length in Hp; cbn in *; lia|]); [done|].
  cbn in Hl. by rewrite IH by lia.
Qed.

Lemma first_match_nil l : first_match [] l = Some 0%nat.
Proof. destruct l; cbn [first_match]; destruct (decide _) as [_|Hp]; try done; destruct Hp; apply prefix_nil. Qed.

(** The comparison at one place of the text. *)
Lemma bcmp0_prefix m a b l1 l2 : at_mem m a l1 -> at_mem m b l2 -> (length l1 <= length l2)%nat ->
  bcmp0 m a b (length l1) = Some (bool_decide (l1 `prefix_of` l2)).
Proof.
  intros [Ha1 Ha2] [Hb1 Hb2] Hl. apply readable_spec in Hb1 as Hb. rewrite bcmp0_slices; [|done|apply readable_spec; lia].
  f_equal. apply bool_decide_ext. rewrite Ha2.
  replace (slice m b (length l1)) with (take (length l1) l2) by (rewrite <-Hb2; unfold slice; rewrite take_take; f_equal; lia).
  split.
  - intros E. exists (drop (length l1) l2). by rewrite E, take_drop at 1.
  - intros [k ->]. by rewrite take_app_length.
Qed.

Lemma strstr_loop_spec nl hl m h n k i :
  nl ≠ [] -> at_mem m h hl -> at_mem m n nl -> (length nl <= length hl)%nat -> (i + k = length hl - length nl + 1)%nat ->
  strstr_loop k m h n (Z.of_nat (length nl)) (Z.of_nat i)
  = Some (option_map (λ j, h + Z.of_nat (i + j)) (first_match nl (drop i hl))).
Proof.
  intros Hne Hh Hn Hle. revert i. induction k as [|k IH]; intros i Hk; cbn [strstr_loop].
  - assert (length nl ≠ 0%nat) by by destruct nl. rewrite first_match_short by (rewrite length_drop; lia). done.
  - assert (at_mem m (h + Z.of_nat i) (drop i hl)) as Hd.
    { rewrite <-(take_drop i hl) in Hh. apply at_mem_app in Hh as [_ Hh]. rewrite length_take in Hh.
      by replace (i `min` length hl)%nat with i in Hh by lia. }
    rewrite Nat2Z.id, (bcmp0_prefix m n (h + Z.of_nat i) nl (drop i hl)) by (done || (rewrite length_drop; lia)).
    cbn [mbind option_bind]. destruct (drop i hl) as [|x l] eqn:E.
    + apply (f_equal length) in E. rewrite length_drop in E. destruct nl; [done|]. cbn in *. lia.
    + cbn [first_match]. case_bool_decide as Hp; destruct (decide _); try done; cbn [option_map]; [do 2 f_equal; lia|].
      replace (Z.of_nat i + 1) with (Z.of_nat (S i)) by lia. rewrite IH by lia.
      assert (drop (S i) hl = l) as -> by (by rewrite <-Nat.add_1_r, <-drop_drop, E).
      destruct (first_match nl l); cbn [option_map]; [|done]. do 2 f_equal. lia.
Qed.

Lemma strncmp0_bcmp0 m a b n : (∀ i, (i < n)%nat -> rd8 m (a + Z.of_nat i) ≠ Some 0) -> strncmp0 m a b n = bcmp0 m a b n.
Proof.
  revert a b. induction n as [|n IH]; intros a b H; [done|]. cbn [strncmp0 bcmp0].
  pose proof (H 0%nat ltac:(lia)) as H0. rewrite Z.add_0_r in H0. destruct (rd8 m a) as [x|]; [|done]. cbn [mbind option_bind].
  destruct (rd8 m b) as [y|]; [|done]. cbn [mbind option_bind]. destruct (Z.eqb_spec x y) as [->|Hne].
  - rewrite bool_decide_true by done. destruct (Z.eqb_spec y 0) as [->|]; [done|]. apply IH. intros i Hi.
    replace (a + 1 + Z.of_nat i) with (a + Z.of_nat (S i)) by lia. apply H. lia.
  - by rewrite bool_decide_false.
Qed.

Lemma bcmp0_sym m a b n : readable m a (Z.of_nat n) = true -> readable m b (Z.of_nat n) = true ->
  bcmp0 m a b n = bcmp0 m b a n.
Proof. intros Ha Hb. rewrite !bcmp0_slices by done. f_equal. by apply bool_decide_ext. Qed.

Lemma strnstr_loop_spec nl l fuel m s n :
  Forall (λ c, c ≠ 0) l -> at_mem m s l -> at_mem m n nl -> Z.of_nat (length l) < 4294967295 -> (length l < fuel)%nat ->
  strnstr_loop fuel m s (Z.of_nat (length l)) n (Z.of_nat (length nl))
  = Some (option_map (λ i, s + Z.of_nat i) (first_match nl l)).
Proof.
  revert fuel s. induction l as [|x l IH]; intros [|fuel] s Hz Hs Hn Hl Hf; cbn [length] in Hf; try lia; cbn [strnstr_loop];
    (destruct (Z.leb_spec (Z.of_nat (length nl)) (Z.of_nat (length (x :: l)))) as [Hle|Hgt]
     || destruct (Z.leb_spec (Z.of_nat (length nl)) (Z.of_nat (length (@nil Z)))) as [Hle|Hgt]).
  1: destruct nl; [|cbn in Hle; lia]. 1: rewrite first_match_nil; change (Some (Some s) = Some (Some (s + 0))); by rewrite Z.add_0_r.
  1,3: rewrite first_match_short by (cbn in *; lia); done.
  rewrite Nat2Z.id. destruct Hs as [Hr Hsl]. apply readable_spec in Hr as Hr'.
  rewrite strncmp0_bcmp0.
  - rewrite bcmp0_sym by (try (destruct Hn; done); apply readable_spec; lia).
    rewrite (bcmp0_prefix m n s nl (x :: l)) by (done || lia). cbn [mbind option_bind first_match].
    case_bool_decide; destruct (decide _); try done; cbn [option_map]; [by rewrite Z.add_0_r|].
    unfold u32. rewrite Z.mod_small by (cbn [length] in *; lia).
    replace (Z.of_nat (length (x :: l)) - 1) with (Z.of_nat (length l)) by (cbn [length]; lia).
    apply Forall_cons in Hz as [_ Hz]. rewrite IH; [|done|by eapply at_mem_cons|done|cbn [length] in *; lia|lia].
    destruct (first_match nl l); cbn; [|done]. do 2 f_equal. lia.
  - intros i Hi. destruct (lookup_lt_is_Some_2 (x :: l) i) as [c Hc]; [cbn [length] in *; lia|].
    rewrite (at_mem_rd8 m s (x :: l) i c) by done. intros [= ->]. by eapply (Forall_lookup_1 _ _ _ _ Hz).
Qed.

(** The substring searches return the first place of the text where the
    needle stands, and NULL when there is none. *)
Theorem bcm_string_search (m : mem) (h n : Z) (hl nl : list Z) :
  Forall (λ c, c ≠ 0) hl -> Forall (λ c, c ≠ 0) nl -> at_mem m h (hl ++ [0]) -> at_mem m n (nl ++ [0]) ->
  Z.of_nat (length hl) < 4294967295 -> Z.of_nat (length nl) < 4294967295 ->
  let found := option_map (λ i, h + Z.of_nat i) (first_match nl hl) in
  bcmstrstr m (Some h) (Some n) = Some found
  ∧ bcmstrnstr m h (Z.of_nat (length hl)) n (Z.of_nat (length nl)) = Some found.
Proof.
  intros Hh Hn Hs Hd Hl Hnl found. pose proof (at_mem_fuel _ _ _ Hs) as Hf. pose proof (at_mem_fuel _ _ _ Hd) as Hfd.
  rewrite length_app in Hf, Hfd. cbn [length] in Hf, Hfd.
  assert (∀ p l, at_mem m p (l ++ [0]) -> Forall (λ c, c ≠ 0) l -> strlen m p = Some (Z.of_nat (length l))) as Hsl.
  { intros p l Hp Hz. unfold strlen. rewrite (skip_while_spec _ l 0 [] _ m p Hp); [cbn; f_equal; lia| |done|].
    - apply forallb_forall. intros c Hc. apply negb_true_iff, Z.eqb_neq. apply list_elem_of_In in Hc. by apply (proj1 (Forall_forall _ _) Hz).
    - apply at_mem_fuel in Hp. rewrite length_app in Hp. lia. }
  apply at_mem_app in Hs as Hs'. apply at_mem_app in Hd as Hd'. destruct Hs' as [Hh' _], Hd' as [Hn' _]. split.
  - unfold bcmstrstr. rewrite (Hsl n nl), (Hsl h hl) by done. cbn [mbind option_bind].
    unfold u32.
    rewrite !(Z.mod_small (Z.of_nat _)) by lia. destruct (Z.ltb_spec (Z.of_nat (length hl)) (Z.of_nat (length nl))) as [Hlt|Hge].
    + unfold found. by rewrite first_match_short by lia.
    + rewrite Z.mod_small by lia. unfold found. destruct nl as [|c nl].
      * replace (Z.to_nat _) with (S (length hl)) by (cbn [length]; lia).
        rewrite first_match_nil. change (Some (Some (h + 0)) = Some (Some (h + 0))). done.
      * change 0 with (Z.of_nat 0). rewrite (strstr_loop_spec (c :: nl) hl) by (done || lia). by rewrite drop_0.
  - apply strnstr_loop_spec; (done || lia).
Qed.

Lemma bcm_string_search_witness :
  bcmstrstr (chars "ababc" ++ [0] ++ chars "abc" ++ [0]) (Some 0) (Some 6) = Some (Some 2)
  ∧ bcmstrnstr (chars "ababc" ++ [0] ++ chars "abc" ++ [0]) 0 5 6 3 = Some (Some 2).
Proof.
  apply (bcm_string_search (chars "ababc" ++ [0] ++ chars "abc" ++ [0]) 0 6 (chars "ababc") (chars "abc"));
    [repeat constructor; discriminate|repeat constructor; discriminate|split; reflexivity|split; reflexivity|cbn; lia|cbn; lia].
Defined.
