(* ===== verification/ChanSpec.v ===== *)
(** * bcmwifi_channels.c: channel specifications (model)

    A chanspec is a 16-bit word: band (bits 15, 14), bandwidth (13 to 11), the
    position of the primary 20 MHz channel in the channel (10 to 8) and the
    number of the center channel (7 to 0).  All the routines of the file are
    defined, over 32-bit [uint] arguments with their wrap-around, for each
    setting of its three preprocessor switches. *)

From Stdlib Require Import Ascii String.
From S2P Require Import Prelude Mem BcmStr.

(** ** Constants and fields *)

(** The preprocessor switches. *)
Class Build := { WL11BE : bool; WFC_NON_CONT_CHAN : bool; CHANSPEC_NEW_40MHZ_FORMAT : bool }.

(** The driver's makefile sets none of them. *)
#[export] Instance board_build : Build :=
  {| WL11BE := false; WFC_NON_CONT_CHAN := false; CHANSPEC_NEW_40MHZ_FORMAT := false |}.

Definition CH_160MHZ_APART : Z := 32.
Definition CH_80MHZ_APART : Z := 16.
Definition CH_40MHZ_APART : Z := 8.
Definition CH_20MHZ_APART : Z := 4.
Definition CH_10MHZ_APART : Z := 2.
Definition CH_MIN_2G_CHANNEL : Z := 1.
Definition CH_MAX_2G_CHANNEL : Z := 14.
Definition CH_MIN_2G_40M_CHANNEL : Z := 3.
Definition CH_MAX_2G_40M_CHANNEL : Z := 11.
Definition CH_MIN_6G_CHANNEL : Z := 1.
Definition CH_MAX_6G_CHANNEL : Z := 253.
Definition CH_MIN_6G_40M_CHANNEL : Z := 3.
Definition CH_MAX_6G_40M_CHANNEL : Z := 227.
Definition CH_MIN_6G_80M_CHANNEL : Z := 7.
Definition CH_MAX_6G_80M_CHANNEL : Z := 215.
Definition CH_MIN_6G_160M_CHANNEL : Z := 15.
Definition CH_MAX_6G_160M_CHANNEL : Z := 207.
Definition CH_MIN_6G_240M_CHANNEL : Z := 23.
Definition CH_MAX_6G_240M_CHANNEL : Z := 167.
Definition CH_MIN_6G_320M_CHANNEL : Z := 31.
Definition CH_MAX_6G_320M_CHANNEL : Z := 199.
Definition MAXCHANNEL : Z := 254.
Definition INVCHANNEL : Z := 255.
Definition INVCHANSPEC : Z := 255.

Definition WL_CHANSPEC_CHAN_MASK : Z := 0x00ff.
Definition WL_CHANSPEC_GE240_CHAN_MASK : Z := 0x0003.
Definition WL_CHANSPEC_CHAN0_MASK : Z := 0x000f.
Definition WL_CHANSPEC_CHAN1_MASK : Z := 0x00f0.
Definition WL_CHANSPEC_CHAN1_SHIFT : Z := 4.
Definition WL_CHANSPEC_CTL_SB_MASK : Z := 0x0700.
Definition WL_CHANSPEC_CTL_SB_SHIFT : Z := 8.
Definition WL_CHANSPEC_CTL_SB_LLL : Z := 0x0000.
Definition WL_CHANSPEC_CTL_SB_LLU : Z := 0x0100.
Definition WL_CHANSPEC_CTL_SB_LUL : Z := 0x0200.
Definition WL_CHANSPEC_CTL_SB_LUU : Z := 0x0300.
Definition WL_CHANSPEC_CTL_SB_ULL : Z := 0x0400.
Definition WL_CHANSPEC_CTL_SB_ULU : Z := 0x0500.
Definition WL_CHANSPEC_CTL_SB_UUL : Z := 0x0600.
Definition WL_CHANSPEC_CTL_SB_UUU : Z := 0x0700.
Definition WL_CHANSPEC_GE240_SB_MASK : Z := 0x0780.
Definition WL_CHANSPEC_GE240_SB_SHIFT : Z := 7.
Definition WL_CHANSPEC_BW_MASK : Z := 0x3800.
Definition WL_CHANSPEC_BW_SHIFT : Z := 11.
Definition WL_CHANSPEC_BW_320 : Z := 0x0000.
Definition WL_CHANSPEC_BW_160160 : Z := 0x0800.
Definition WL_CHANSPEC_BW_20 : Z := 0x1000.
Definition WL_CHANSPEC_BW_40 : Z := 0x1800.
Definition WL_CHANSPEC_BW_80 : Z := 0x2000.
Definition WL_CHANSPEC_BW_160 : Z := 0x2800.
Definition WL_CHANSPEC_BW_8080 : Z := 0x3000.
Definition WL_CHANSPEC_BW_240 : Z := 0x3800.
Definition WL_CHANSPEC_BAND_MASK : Z := 0xc000.
Definition WL_CHANSPEC_BAND_2G : Z := 0x0000.
Definition WL_CHANSPEC_BAND_6G : Z := 0x4000.
Definition WL_CHANSPEC_BAND_5G : Z := 0xc000.

(** Sideband names for the narrower channels. *)
Definition WL_CHANSPEC_CTL_SB_L : Z := WL_CHANSPEC_CTL_SB_LLL.
Definition WL_CHANSPEC_CTL_SB_U : Z := WL_CHANSPEC_CTL_SB_LLU.
Definition WL_CHANSPEC_CTL_SB_LL : Z := WL_CHANSPEC_CTL_SB_LLL.
Definition WL_CHANSPEC_CTL_SB_UL : Z := WL_CHANSPEC_CTL_SB_LUL.

Definition CHSPEC_CHANNEL (c : Z) : Z := u8 (Z.land c WL_CHANSPEC_CHAN_MASK).
Definition CHSPEC_CHAN0 (c : Z) : Z := Z.land c WL_CHANSPEC_CHAN0_MASK.
Definition CHSPEC_CHAN1 (c : Z) : Z := Z.shiftr (Z.land c WL_CHANSPEC_CHAN1_MASK) WL_CHANSPEC_CHAN1_SHIFT.
Definition CHSPEC_BAND (c : Z) : Z := Z.land c WL_CHANSPEC_BAND_MASK.
Definition CHSPEC_CTL_SB (c : Z) : Z := Z.land c WL_CHANSPEC_CTL_SB_MASK.
Definition CHSPEC_BW (c : Z) : Z := Z.land c WL_CHANSPEC_BW_MASK.
Definition CHSPEC_GE240_CHAN (c : Z) : Z := Z.land c WL_CHANSPEC_GE240_CHAN_MASK.
Definition CHSPEC_GE240_SB (c : Z) : Z := Z.land c WL_CHANSPEC_GE240_SB_MASK.

Definition CHSPEC_IS6G (c : Z) : bool := CHSPEC_BAND c =? WL_CHANSPEC_BAND_6G.
Definition CHSPEC_IS5G (c : Z) : bool := CHSPEC_BAND c =? WL_CHANSPEC_BAND_5G.
Definition CHSPEC_IS2G (c : Z) : bool := CHSPEC_BAND c =? WL_CHANSPEC_BAND_2G.
Definition CHSPEC_IS20 (c : Z) : bool := CHSPEC_BW c =? WL_CHANSPEC_BW_20.
Definition CHSPEC_IS40 (c : Z) : bool := CHSPEC_BW c =? WL_CHANSPEC_BW_40.
Definition CHSPEC_IS80 (c : Z) : bool := CHSPEC_BW c =? WL_CHANSPEC_BW_80.
Definition CHSPEC_IS160 (c : Z) : bool := CHSPEC_BW c =? WL_CHANSPEC_BW_160.
Definition CHSPEC_IS8080 `{Build} (c : Z) : bool := WFC_NON_CONT_CHAN && (CHSPEC_BW c =? WL_CHANSPEC_BW_8080).
Definition CHSPEC_IS320 `{Build} (c : Z) : bool := WL11BE && (CHSPEC_BW c =? WL_CHANSPEC_BW_320).
Definition CHSPEC_IS240 `{Build} (c : Z) : bool := WL11BE && (CHSPEC_BW c =? WL_CHANSPEC_BW_240).
Definition CHSPEC_IS160160 `{Build} (c : Z) : bool := WFC_NON_CONT_CHAN && (CHSPEC_BW c =? WL_CHANSPEC_BW_160160).
Definition CHSPEC_SB_UPPER (c : Z) : bool :=
  (CHSPEC_CTL_SB c =? WL_CHANSPEC_CTL_SB_U) && (CHSPEC_BW c =? WL_CHANSPEC_BW_40).
Definition CHSPEC_SB_LOWER (c : Z) : bool :=
  (CHSPEC_CTL_SB c =? WL_CHANSPEC_CTL_SB_L) && (CHSPEC_BW c =? WL_CHANSPEC_BW_40).
Definition BW_LE40 (bw : Z) : bool := (bw =? WL_CHANSPEC_BW_20) || (bw =? WL_CHANSPEC_BW_40).
Definition WFC_BW_EQ `{Build} (bw val : Z) : bool := WL11BE && (bw =? val).
Definition WFC_NCBW_EQ `{Build} (bw val : Z) : bool := WFC_NON_CONT_CHAN && (bw =? val).

(** ** Channel numbers *)

Definition wf_chspec_bw_str : list string := ["320"; "160+160"; "20"; "40"; "80"; "160"; "80+80"; "240"]%string.
Definition wf_chspec_bw_mhz : list Z := [320; 320; 20; 40; 80; 160; 160; 240].
Definition WF_NUM_BW : Z := 8.
Definition wf_2g_40m_chans : list Z := [3; 4; 5; 6; 7; 8; 9; 10; 11].
Definition wf_5g_40m_chans : list Z := [38; 46; 54; 62; 102; 110; 118; 126; 134; 142; 151; 159; 167; 175].
Definition wf_5g_80m_chans : list Z := [42; 58; 106; 122; 138; 155; 171].
Definition wf_5g_160m_chans : list Z := [50; 114; 163].
Definition WF_NUM_5G_80M_CHANS : Z := Z.of_nat (length wf_5g_80m_chans).
Definition WF_NUM_5G_160M_CHANS : Z := Z.of_nat (length wf_5g_160m_chans).
Definition WF_NUM_6G_80M_CHANS : Z := 14.
Definition WF_NUM_6G_160M_CHANS : Z := 7.
Definition WF_NUM_6G_240M_CHANS : Z := 4.
Definition WF_NUM_6G_320M_CHANS : Z := 3.

Definition wf_bw_chspec_to_mhz (c : Z) : Z :=
  let bw := Z.shiftr (Z.land c WL_CHANSPEC_BW_MASK) WL_CHANSPEC_BW_SHIFT in
  if WF_NUM_BW <=? bw then 0 else nth (Z.to_nat bw) wf_chspec_bw_mhz 0.

Definition center_chan_to_edge `{Build} (bw : Z) : Z :=
  if bw =? WL_CHANSPEC_BW_40 then 2
  else if bw =? WL_CHANSPEC_BW_80 then 6
  else if bw =? WL_CHANSPEC_BW_160 then 14
  else if WFC_BW_EQ bw WL_CHANSPEC_BW_240 then 22
  else if WFC_BW_EQ bw WL_CHANSPEC_BW_320 then 30
  else 0.

Definition channel_low_edge `{Build} (center_ch bw : Z) : Z := u32 (center_ch - center_chan_to_edge bw).

(** -1 on error. *)
Definition channel_to_sb `{Build} (center_ch primary_ch bw : Z) : Z :=
  let lowest := channel_low_edge center_ch bw in
  if (primary_ch <? lowest) || negb (u32 (primary_ch - lowest) mod 4 =? 0) then -1
  else
    let sb := u32 (primary_ch - lowest) / 4 in
    if ((bw =? WL_CHANSPEC_BW_20) && (1 <=? sb))
       || ((bw =? WL_CHANSPEC_BW_40) && (2 <=? sb))
       || ((bw =? WL_CHANSPEC_BW_80) && (4 <=? sb))
       || ((bw =? WL_CHANSPEC_BW_160) && (8 <=? sb))
       || (WFC_BW_EQ bw WL_CHANSPEC_BW_240 && (12 <=? sb))
       || (WFC_BW_EQ bw WL_CHANSPEC_BW_320 && (16 <=? sb))
    then -1 else sb.

Definition channel_to_primary20_chan `{Build} (center_ch bw sb : Z) : Z := u32 (channel_low_edge center_ch bw + sb * 4).

(** The index of [ch] in a table of channels. *)
Fixpoint table_id (ch : Z) (table : list Z) (i : Z) : Z :=
  match table with [] => -1 | x :: table => if ch =? x then i else table_id ch table (i + 1) end.

(** The index of [ch] among the channels [lo], [lo + step], ... up to [hi]. *)
Definition spaced_id (lo hi step ch : Z) : Z :=
  if (lo <=? ch) && (ch <=? hi) && ((ch - lo) mod step =? 0) then (ch - lo) / step else -1.

Definition channel_80mhz_to_id (ch : Z) : Z := table_id ch wf_5g_80m_chans 0.
Definition channel_6g_80mhz_to_id (ch : Z) : Z := spaced_id CH_MIN_6G_80M_CHANNEL CH_MAX_6G_80M_CHANNEL 16 ch.
Definition channel_5g_160mhz_to_id (ch : Z) : Z := table_id ch wf_5g_160m_chans 0.
Definition channel_6g_160mhz_to_id (ch : Z) : Z := spaced_id CH_MIN_6G_160M_CHANNEL CH_MAX_6G_160M_CHANNEL 32 ch.
Definition channel_6g_240mhz_to_id (ch : Z) : Z := spaced_id CH_MIN_6G_240M_CHANNEL CH_MAX_6G_240M_CHANNEL 48 ch.
Definition channel_6g_320mhz_to_id (ch : Z) : Z := spaced_id CH_MIN_6G_320M_CHANNEL CH_MAX_6G_320M_CHANNEL 64 ch.

Definition wf_chspec_5G_id80_to_ch (id : Z) : Z :=
  if id <? WF_NUM_5G_80M_CHANS then nth (Z.to_nat id) wf_5g_80m_chans 0 else 0.
Definition wf_chspec_6G_id80_to_ch (id : Z) : Z :=
  if id <? WF_NUM_6G_80M_CHANS then u8 (CH_MIN_6G_80M_CHANNEL + id * 16) else 0.
Definition wf_chspec_5G_id160_to_ch (id : Z) : Z :=
  if id <? WF_NUM_5G_160M_CHANS then nth (Z.to_nat id) wf_5g_160m_chans 0 else 0.
Definition wf_chspec_6G_id160_to_ch (id : Z) : Z :=
  if id <? WF_NUM_6G_160M_CHANS then u8 (CH_MIN_6G_160M_CHANNEL + id * 32) else 0.
Definition wf_chspec_6G_id240_to_ch (id : Z) : Z :=
  if id <? WF_NUM_6G_240M_CHANS then u8 (CH_MIN_6G_240M_CHANNEL + id * 48) else 0.
Definition wf_chspec_6G_id320_to_ch (id : Z) : Z :=
  if id <? WF_NUM_6G_320M_CHANS then u8 (CH_MIN_6G_320M_CHANNEL + id * 64) else 0.

Definition wf_chspec_240_id2cch (c : Z) : Z :=
  if (CHSPEC_BAND c =? WL_CHANSPEC_BAND_6G) && (CHSPEC_BW c =? WL_CHANSPEC_BW_240)
  then wf_chspec_6G_id240_to_ch (CHSPEC_GE240_CHAN c) else 0.
Definition wf_chspec_320_id2cch (c : Z) : Z :=
  if (CHSPEC_BAND c =? WL_CHANSPEC_BAND_6G) && (CHSPEC_BW c =? WL_CHANSPEC_BW_320)
  then wf_chspec_6G_id320_to_ch (CHSPEC_GE240_CHAN c) else 0.

Definition LOWER_20_SB (ch : Z) : Z := if CH_10MHZ_APART <? ch then ch - CH_10MHZ_APART else 0.
Definition UPPER_20_SB (ch : Z) : Z := if ch <? MAXCHANNEL - CH_10MHZ_APART then ch + CH_10MHZ_APART else 0.
Definition LL_20_SB (ch : Z) : Z := if 3 * CH_10MHZ_APART <? ch then ch - 3 * CH_10MHZ_APART else 0.
Definition UU_20_SB (ch : Z) : Z := if ch <? MAXCHANNEL - 3 * CH_10MHZ_APART then ch + 3 * CH_10MHZ_APART else 0.

(** ** Validity *)

Definition wf_valid_20MHz_chan (channel band : Z) : bool :=
  if band =? WL_CHANSPEC_BAND_2G then (CH_MIN_2G_CHANNEL <=? channel) && (channel <=? CH_MAX_2G_CHANNEL)
  else if band =? WL_CHANSPEC_BAND_5G then
    existsb (λ c, (channel =? LOWER_20_SB c) || (channel =? UPPER_20_SB c)) wf_5g_40m_chans
    || (channel =? 165)
    || ((channel =? 34) || (channel =? 38) || (channel =? 42) || (channel =? 46))
  else if band =? WL_CHANSPEC_BAND_6G then
    (CH_MIN_6G_CHANNEL <=? channel) && (channel <=? CH_MAX_6G_CHANNEL)
    && (((channel - CH_MIN_6G_CHANNEL) mod 4 =? 0) || (channel =? 2))
  else false.

(** A table of channels, or the channels [lo], [lo + step], ... up to [hi]. *)
Definition spaced (lo hi step ch : Z) : bool := (lo <=? ch) && (ch <=? hi) && ((ch - lo) mod step =? 0).

Definition wf_valid_40MHz_center_chan (ch band : Z) : bool :=
  if band =? WL_CHANSPEC_BAND_2G then (CH_MIN_2G_40M_CHANNEL <=? ch) && (ch <=? CH_MAX_2G_40M_CHANNEL)
  else if band =? WL_CHANSPEC_BAND_5G then existsb (Z.eqb ch) wf_5g_40m_chans
  else if band =? WL_CHANSPEC_BAND_6G then spaced CH_MIN_6G_40M_CHANNEL CH_MAX_6G_40M_CHANNEL 8 ch
  else false.

Definition wf_valid_80MHz_center_chan (ch band : Z) : bool :=
  if band =? WL_CHANSPEC_BAND_5G then 0 <=? channel_80mhz_to_id ch
  else if band =? WL_CHANSPEC_BAND_6G then 0 <=? channel_6g_80mhz_to_id ch
  else false.

Definition wf_valid_160MHz_center_chan (ch band : Z) : bool :=
  if band =? WL_CHANSPEC_BAND_5G then existsb (Z.eqb ch) wf_5g_160m_chans
  else if band =? WL_CHANSPEC_BAND_6G then spaced CH_MIN_6G_160M_CHANNEL CH_MAX_6G_160M_CHANNEL 32 ch
  else false.

Definition wf_valid_240MHz_center_chan (ch band : Z) : bool :=
  (band =? WL_CHANSPEC_BAND_6G) && spaced CH_MIN_6G_240M_CHANNEL CH_MAX_6G_240M_CHANNEL 48 ch.

Definition wf_valid_320MHz_center_chan (ch band : Z) : bool :=
  (band =? WL_CHANSPEC_BAND_6G) && spaced CH_MIN_6G_320M_CHANNEL CH_MAX_6G_320M_CHANNEL 64 ch.

(** The band, the bandwidth and the channel fields. *)
Definition malformed_channel `{Build} (c : Z) : bool :=
  let bw := CHSPEC_BW c in
  if CHSPEC_IS2G c then negb (BW_LE40 bw) || (CHSPEC_CHANNEL c =? INVCHANNEL)
  else if CHSPEC_IS5G c || CHSPEC_IS6G c then
    if WFC_BW_EQ bw WL_CHANSPEC_BW_240 then
      if CHSPEC_IS6G c then WF_NUM_6G_240M_CHANS <=? CHSPEC_GE240_CHAN c else true
    else if WFC_BW_EQ bw WL_CHANSPEC_BW_320 then
      if CHSPEC_IS6G c then WF_NUM_6G_320M_CHANS <=? CHSPEC_GE240_CHAN c else true
    else if WFC_NCBW_EQ bw WL_CHANSPEC_BW_160160 then
      CHSPEC_IS5G c && ((WF_NUM_5G_160M_CHANS <=? CHSPEC_CHAN0 c) || (WF_NUM_5G_160M_CHANS <=? CHSPEC_CHAN1 c))
      || CHSPEC_IS6G c && ((WF_NUM_6G_160M_CHANS <=? CHSPEC_CHAN0 c) || (WF_NUM_6G_160M_CHANS <=? CHSPEC_CHAN1 c))
    else if WFC_NCBW_EQ bw WL_CHANSPEC_BW_8080 then
      CHSPEC_IS5G c && ((WF_NUM_5G_80M_CHANS <=? CHSPEC_CHAN0 c) || (WF_NUM_5G_80M_CHANS <=? CHSPEC_CHAN1 c))
      || CHSPEC_IS6G c && ((WF_NUM_6G_80M_CHANS <=? CHSPEC_CHAN0 c) || (WF_NUM_6G_80M_CHANS <=? CHSPEC_CHAN1 c))
    else if (bw =? WL_CHANSPEC_BW_20) || (bw =? WL_CHANSPEC_BW_40) || (bw =? WL_CHANSPEC_BW_80) || (bw =? WL_CHANSPEC_BW_160)
    then CHSPEC_CHANNEL c =? INVCHANNEL
    else true
  else true.

(** The sideband has to fit the bandwidth; any fits 160 MHz and wider. *)
Definition malformed_sb `{Build} (c : Z) : bool :=
  let bw := CHSPEC_BW c in
  let sb := if WFC_BW_EQ bw WL_CHANSPEC_BW_240 || WFC_BW_EQ bw WL_CHANSPEC_BW_320 then CHSPEC_GE240_SB c else CHSPEC_CTL_SB c in
  if bw =? WL_CHANSPEC_BW_20 then negb (sb =? WL_CHANSPEC_CTL_SB_LLL)
  else if bw =? WL_CHANSPEC_BW_40 then WL_CHANSPEC_CTL_SB_LLU <? sb
  else if (bw =? WL_CHANSPEC_BW_80) || WFC_NCBW_EQ bw WL_CHANSPEC_BW_8080 then WL_CHANSPEC_CTL_SB_LUU <? sb
  else false.

Definition wf_chspec_malformed `{Build} (c : Z) : bool := malformed_channel c || malformed_sb c.

(** The center channels of the two segments are more than [apart] apart. *)
Definition segments_apart (ch0 ch1 apart : Z) : bool := (ch0 + apart <? ch1) || (ch1 + apart <? ch0).

Definition wf_chspec_valid `{Build} (c : Z) : bool :=
  let band := CHSPEC_BAND c in
  let bw := CHSPEC_BW c in
  if wf_chspec_malformed c then false
  else if WFC_BW_EQ bw WL_CHANSPEC_BW_240 && negb (CHSPEC_IS6G c) then false
  else if WFC_BW_EQ bw WL_CHANSPEC_BW_320 && negb (CHSPEC_IS6G c) then false
  else
    let ch := if WFC_BW_EQ bw WL_CHANSPEC_BW_240 then wf_chspec_6G_id240_to_ch (CHSPEC_GE240_CHAN c)
              else if WFC_BW_EQ bw WL_CHANSPEC_BW_320 then wf_chspec_6G_id320_to_ch (CHSPEC_GE240_CHAN c)
              else CHSPEC_CHANNEL c in
    if bw =? WL_CHANSPEC_BW_20 then wf_valid_20MHz_chan ch band
    else if bw =? WL_CHANSPEC_BW_40 then wf_valid_40MHz_center_chan ch band
    else if bw =? WL_CHANSPEC_BW_80 then wf_valid_80MHz_center_chan ch band
    else if bw =? WL_CHANSPEC_BW_160 then wf_valid_160MHz_center_chan ch band
    else if WFC_BW_EQ bw WL_CHANSPEC_BW_240 then wf_valid_240MHz_center_chan ch band
    else if WFC_BW_EQ bw WL_CHANSPEC_BW_320 then wf_valid_320MHz_center_chan ch band
    else if WFC_NCBW_EQ bw WL_CHANSPEC_BW_8080 then
      if CHSPEC_IS5G c then
        segments_apart (wf_chspec_5G_id80_to_ch (CHSPEC_CHAN0 c)) (wf_chspec_5G_id80_to_ch (CHSPEC_CHAN1 c)) CH_80MHZ_APART
      else if CHSPEC_IS6G c then
        segments_apart (wf_chspec_6G_id80_to_ch (CHSPEC_CHAN0 c)) (wf_chspec_6G_id80_to_ch (CHSPEC_CHAN1 c)) CH_80MHZ_APART
      else false
    else if WFC_NCBW_EQ bw WL_CHANSPEC_BW_160160 then
      if CHSPEC_IS5G c then
        segments_apart (wf_chspec_5G_id160_to_ch (CHSPEC_CHAN0 c)) (wf_chspec_5G_id160_to_ch (CHSPEC_CHAN1 c)) CH_160MHZ_APART
      else if CHSPEC_IS6G c then
        segments_apart (wf_chspec_6G_id160_to_ch (CHSPEC_CHAN0 c)) (wf_chspec_6G_id160_to_ch (CHSPEC_CHAN1 c)) CH_160MHZ_APART
      else false
    else false.

(** ** Construction *)

Definition known_band (band : Z) : bool :=
  (band =? WL_CHANSPEC_BAND_2G) || (band =? WL_CHANSPEC_BAND_5G) || (band =? WL_CHANSPEC_BAND_6G).

Definition wf_create_20MHz_chspec `{Build} (channel band : Z) : Z :=
  if (channel <=? WL_CHANSPEC_CHAN_MASK) && known_band band then
    let c := u16 (Z.lor (Z.lor (Z.lor band WL_CHANSPEC_BW_20) WL_CHANSPEC_CTL_SB_LLL) channel) in
    if wf_chspec_valid c then c else INVCHANSPEC
  else INVCHANSPEC.

(** A contiguous channel from its parts. *)
Definition contiguous `{Build} (valid : Z -> Z -> bool) (bw primary center band : Z) : Z :=
  let sb := channel_to_sb center primary bw in
  if (sb <? 0) || negb (valid center band) then INVCHANSPEC
  else u16 (Z.lor (Z.lor (Z.lor center bw) band) (Z.shiftl sb WL_CHANSPEC_CTL_SB_SHIFT)).

Definition wf_create_40MHz_chspec `{Build} (primary center band : Z) : Z :=
  contiguous wf_valid_40MHz_center_chan WL_CHANSPEC_BW_40 primary center band.
Definition wf_create_80MHz_chspec `{Build} (primary center band : Z) : Z :=
  contiguous wf_valid_80MHz_center_chan WL_CHANSPEC_BW_80 primary center band.
Definition wf_create_160MHz_chspec `{Build} (primary center band : Z) : Z :=
  contiguous wf_valid_160MHz_center_chan WL_CHANSPEC_BW_160 primary center band.

Definition wf_create_40MHz_chspec_primary_sb `{Build} (primary subband band : Z) : Z :=
  if subband =? WL_CHANSPEC_CTL_SB_L then wf_create_40MHz_chspec primary (u32 (primary + CH_10MHZ_APART)) band
  else if subband =? WL_CHANSPEC_CTL_SB_U then wf_create_40MHz_chspec primary (u32 (primary - CH_10MHZ_APART)) band
  else INVCHANSPEC.

(** Two segments: the primary channel is in the first. *)
Definition two_segments `{Build} (id : Z -> Z) (seg_bw bw primary chan0 chan1 band : Z) : Z :=
  if (id chan0 =? -1) || (id chan1 =? -1) then INVCHANSPEC
  else
    let word seg0 seg1 sb :=
      u16 (Z.lor (Z.lor (Z.lor (Z.lor seg0 (Z.shiftl seg1 WL_CHANSPEC_CHAN1_SHIFT)) (Z.shiftl sb WL_CHANSPEC_CTL_SB_SHIFT)) bw) band) in
    let sb := channel_to_sb chan0 primary seg_bw in
    if 0 <=? sb then word (id chan0) (id chan1) sb
    else
      let sb := channel_to_sb chan1 primary seg_bw in
      if sb <? 0 then INVCHANSPEC else word (id chan1) (id chan0) sb.

Definition id_none (ch : Z) : Z := -1.

(** [(uint)ABS((int)(chan0 - chan1))]. *)
Definition chan_distance (chan0 chan1 : Z) : Z := u32 (Z.abs (s32 (u32 (chan0 - chan1)))).

Definition id80 (band : Z) : Z -> Z :=
  if band =? WL_CHANSPEC_BAND_5G then channel_80mhz_to_id
  else if band =? WL_CHANSPEC_BAND_6G then channel_6g_80mhz_to_id else id_none.
Definition id160 (band : Z) : Z -> Z :=
  if band =? WL_CHANSPEC_BAND_5G then channel_5g_160mhz_to_id
  else if band =? WL_CHANSPEC_BAND_6G then channel_6g_160mhz_to_id else id_none.

Definition wf_create_8080MHz_chspec `{Build} (primary chan0 chan1 band : Z) : Z :=
  if chan_distance chan0 chan1 <=? CH_80MHZ_APART then INVCHANSPEC
  else two_segments (id80 band) WL_CHANSPEC_BW_80 WL_CHANSPEC_BW_8080 primary chan0 chan1 band.
Definition wf_create_160160MHz_chspec `{Build} (primary chan0 chan1 band : Z) : Z :=
  if chan_distance chan0 chan1 <=? CH_160MHZ_APART then INVCHANSPEC
  else two_segments (id160 band) WL_CHANSPEC_BW_160 WL_CHANSPEC_BW_160160 primary chan0 chan1 band.

(** Wider channels are named by an index. *)
Definition ge240 `{Build} (id : Z -> Z) (valid : Z -> Z -> bool) (bw primary center band : Z) : Z :=
  let chan_id := if band =? WL_CHANSPEC_BAND_6G then id center else -1 in
  if chan_id =? -1 then INVCHANSPEC
  else
    let sb := channel_to_sb center primary bw in
    if (sb <? 0) || negb (valid center band) then INVCHANSPEC
    else u16 (Z.lor (Z.lor (Z.lor chan_id (Z.shiftl sb WL_CHANSPEC_GE240_SB_SHIFT)) bw) band).

Definition wf_create_240MHz_chspec `{Build} (primary center band : Z) : Z :=
  ge240 channel_6g_240mhz_to_id wf_valid_240MHz_center_chan WL_CHANSPEC_BW_240 primary center band.
Definition wf_create_320MHz_chspec `{Build} (primary center band : Z) : Z :=
  ge240 channel_6g_320mhz_to_id wf_valid_320MHz_center_chan WL_CHANSPEC_BW_320 primary center band.

Definition wf_create_chspec `{Build} (primary center bw band : Z) : Z :=
  let sb :=
    if (bw =? WL_CHANSPEC_BW_20) && (primary =? center) then 0
    else if (bw =? WL_CHANSPEC_BW_40) || (bw =? WL_CHANSPEC_BW_80) || (bw =? WL_CHANSPEC_BW_160)
            || WFC_BW_EQ bw WL_CHANSPEC_BW_240 || WFC_BW_EQ bw WL_CHANSPEC_BW_320
    then channel_to_sb center primary bw
    else -1 in
  let assemble center sb_shift :=
    let c := u16 (Z.lor (Z.lor (Z.lor center band) bw) (Z.shiftl sb sb_shift)) in
    if wf_chspec_valid c then c else INVCHANSPEC in
  if 0 <=? sb then
    if WFC_BW_EQ bw WL_CHANSPEC_BW_240 then
      if band =? WL_CHANSPEC_BAND_6G then assemble (u32 (channel_6g_240mhz_to_id center)) WL_CHANSPEC_GE240_SB_SHIFT else INVCHANSPEC
    else if WFC_BW_EQ bw WL_CHANSPEC_BW_320 then
      if band =? WL_CHANSPEC_BAND_6G then assemble (u32 (channel_6g_320mhz_to_id center)) WL_CHANSPEC_GE240_SB_SHIFT else INVCHANSPEC
    else assemble center WL_CHANSPEC_CTL_SB_SHIFT
  else INVCHANSPEC.

(** The first center channel of the table that gives a channel. *)
Fixpoint search_center `{Build} (centers : list Z) (primary bw band : Z) : Z :=
  match centers with
  | [] => INVCHANSPEC
  | ch :: centers =>
      let c := wf_create_chspec primary ch bw band in
      if negb (c =? INVCHANSPEC) then c else search_center centers primary bw band
  end.

Definition wf_create_chspec_from_primary `{Build} (primary bw band : Z) : Z :=
  if bw =? WL_CHANSPEC_BW_20 then wf_create_20MHz_chspec primary band
  else if (band =? WL_CHANSPEC_BAND_2G) || (band =? WL_CHANSPEC_BAND_5G) then
    let centers :=
      if (band =? WL_CHANSPEC_BAND_2G) && (bw =? WL_CHANSPEC_BW_40) then wf_2g_40m_chans
      else if bw =? WL_CHANSPEC_BW_40 then wf_5g_40m_chans
      else if bw =? WL_CHANSPEC_BW_80 then wf_5g_80m_chans
      else if bw =? WL_CHANSPEC_BW_160 then wf_5g_160m_chans
      else [] in
    search_center centers primary bw band
  else if band =? WL_CHANSPEC_BAND_6G then
    let ch_per_block :=
      if bw =? WL_CHANSPEC_BW_40 then 8
      else if bw =? WL_CHANSPEC_BW_80 then 16
      else if bw =? WL_CHANSPEC_BW_160 then 32
      else if WFC_BW_EQ bw WL_CHANSPEC_BW_240 then 48
      else if WFC_BW_EQ bw WL_CHANSPEC_BW_320 then 64
      else 0 in
    if negb (ch_per_block =? 0) then
      let mask := u32 (Z.lnot (ch_per_block - 1)) in
      let base := u32 (1 + Z.land (u32 (primary - 1)) mask) in
      let center := u32 (base + center_chan_to_edge bw) in
      wf_create_chspec primary center bw band
    else INVCHANSPEC
  else INVCHANSPEC.

Definition wf_create_chspec_sb `{Build} (sb center bw band : Z) : Z :=
  if Z.shiftr WL_CHANSPEC_CTL_SB_MASK WL_CHANSPEC_CTL_SB_SHIFT <? sb then INVCHANSPEC
  else
    let c := u16 (Z.lor (Z.lor (Z.lor center band) bw) (Z.shiftl sb WL_CHANSPEC_CTL_SB_SHIFT)) in
    if wf_chspec_valid c then c else INVCHANSPEC.

(** The sideband picks the segment with the primary channel. *)
Definition two_segments_sb `{Build} (id : Z -> Z) (bw apart sb chan0 chan1 band : Z) : Z :=
  if Z.shiftr WL_CHANSPEC_CTL_SB_UUU WL_CHANSPEC_CTL_SB_SHIFT <? sb then INVCHANSPEC
  else
    let sb := Z.shiftl sb WL_CHANSPEC_CTL_SB_SHIFT in
    if chan_distance chan0 chan1 <=? apart then INVCHANSPEC
    else if (id chan0 =? -1) || (id chan1 =? -1) then INVCHANSPEC
    else
      let '(seg0, seg1, sb) := if sb <? WL_CHANSPEC_CTL_SB_ULL then (id chan0, id chan1, sb)
                               else (id chan1, id chan0, sb - WL_CHANSPEC_CTL_SB_ULL) in
      let c := u16 (Z.lor (Z.lor (Z.lor (Z.lor seg0 (Z.shiftl seg1 WL_CHANSPEC_CHAN1_SHIFT)) sb) bw) band) in
      if wf_chspec_valid c then c else INVCHANSPEC.

Definition wf_create_8080MHz_chspec_sb `{Build} (sb chan0 chan1 band : Z) : Z :=
  two_segments_sb (id80 band) WL_CHANSPEC_BW_8080 CH_80MHZ_APART sb chan0 chan1 band.
Definition wf_create_160160MHz_chspec_sb `{Build} (sb chan0 chan1 band : Z) : Z :=
  two_segments_sb (id160 band) WL_CHANSPEC_BW_160160 CH_160MHZ_APART sb chan0 chan1 band.

(** The older 5 GHz form, with no check that the segments are apart. *)
Definition wf_chspec_get8080_chspec `{Build} (primary chan0 chan1 : Z) : Z :=
  two_segments channel_80mhz_to_id WL_CHANSPEC_BW_80 WL_CHANSPEC_BW_8080 primary chan0 chan1 WL_CHANSPEC_BAND_5G.

(** The first center channel whose sideband fits: the center channel and the
    sideband, or the -1 of the last attempt. *)
Fixpoint center_loop `{Build} (centers : list Z) (primary bw : Z) : Z * Z :=
  match centers with
  | [] => (0, -1)
  | ch :: centers =>
      let sb := channel_to_sb ch primary bw in
      if 0 <=? sb then (ch, sb) else center_loop centers primary bw
  end.

(** 0 on error. *)
Definition wf_channel2chspec `{Build} (primary bw : Z) : Z :=
  let c := u16 (Z.lor (if primary <=? CH_MAX_2G_CHANNEL then WL_CHANSPEC_BAND_2G else WL_CHANSPEC_BAND_5G) bw) in
  let search centers :=
    let '(ch, sb) := center_loop centers primary (u16 bw) in
    if sb <? 0 then 0 else u16 (Z.lor (Z.lor c ch) (Z.shiftl sb WL_CHANSPEC_CTL_SB_SHIFT)) in
  if bw =? WL_CHANSPEC_BW_40 then search (if primary <=? CH_MAX_2G_CHANNEL then wf_2g_40m_chans else wf_5g_40m_chans)
  else if bw =? WL_CHANSPEC_BW_80 then search wf_5g_80m_chans
  else if bw =? WL_CHANSPEC_BW_160 then search wf_5g_160m_chans
  else if bw =? WL_CHANSPEC_BW_20 then u16 (Z.lor c primary)
  else 0.

(** ** Parts of a channel *)

(** 255 where the band has no such channels. *)
Definition segment_center (id5 id6 : Z -> Z) (c seg : Z) : Z :=
  if CHSPEC_IS5G c then id5 seg else if CHSPEC_IS6G c then id6 seg else INVCHANNEL.

Definition wf_chspec_primary20_chan `{Build} (c : Z) : Z :=
  if CHSPEC_IS20 c then CHSPEC_CHANNEL c
  else
    let sb := if CHSPEC_IS240 c || CHSPEC_IS320 c then Z.shiftr (CHSPEC_GE240_SB c) WL_CHANSPEC_GE240_SB_SHIFT
              else Z.shiftr (CHSPEC_CTL_SB c) WL_CHANSPEC_CTL_SB_SHIFT in
    let '(bw, center) :=
      if CHSPEC_IS8080 c then
        (WL_CHANSPEC_BW_80, segment_center wf_chspec_5G_id80_to_ch wf_chspec_6G_id80_to_ch c (CHSPEC_CHAN0 c))
      else if CHSPEC_IS160160 c then
        (WL_CHANSPEC_BW_160, segment_center wf_chspec_5G_id160_to_ch wf_chspec_6G_id160_to_ch c (CHSPEC_CHAN0 c))
      else if CHSPEC_IS240 c then
        (WL_CHANSPEC_BW_240, if CHSPEC_IS6G c then wf_chspec_6G_id240_to_ch (CHSPEC_GE240_CHAN c) else INVCHANNEL)
      else if CHSPEC_IS320 c then
        (WL_CHANSPEC_BW_320, if CHSPEC_IS6G c then wf_chspec_6G_id320_to_ch (CHSPEC_GE240_CHAN c) else INVCHANNEL)
      else (CHSPEC_BW c, CHSPEC_CHANNEL c) in
    u8 (channel_to_primary20_chan (u8 center) bw sb).

Definition wf_chspec_to_bw_str (c : Z) : string := nth (Z.to_nat (Z.shiftr (CHSPEC_BW c) WL_CHANSPEC_BW_SHIFT)) wf_chspec_bw_str ""%string.

Definition wf_chspec_primary20_chspec `{Build} (c : Z) : Z :=
  if negb (CHSPEC_IS20 c) then u16 (Z.lor (Z.lor (wf_chspec_primary20_chan c) WL_CHANSPEC_BW_20) (CHSPEC_BAND c))
  else c.

(** A channel of width [bw] with the band of [c]. *)
Definition part_of (c bw sb center : Z) : Z := u16 (Z.lor (Z.lor (Z.lor (CHSPEC_BAND c) bw) sb) center).

Definition wf_chspec_primary80_chspec `{Build} (c : Z) : Z :=
  if CHSPEC_IS80 c then c
  else if CHSPEC_IS8080 c then
    part_of c WL_CHANSPEC_BW_80 (CHSPEC_CTL_SB c)
      (segment_center wf_chspec_5G_id80_to_ch wf_chspec_6G_id80_to_ch c (CHSPEC_CHAN0 c))
  else if CHSPEC_IS160 c then
    let center := CHSPEC_CHANNEL c in
    let sb := CHSPEC_CTL_SB c in
    if sb <? WL_CHANSPEC_CTL_SB_ULL then part_of c WL_CHANSPEC_BW_80 sb (u32 (center - CH_40MHZ_APART))
    else part_of c WL_CHANSPEC_BW_80 (sb - WL_CHANSPEC_CTL_SB_ULL) (u32 (center + CH_40MHZ_APART))
  else INVCHANSPEC.

Definition wf_chspec_secondary80_chspec `{Build} (c : Z) : Z :=
  if CHSPEC_IS8080 c then
    part_of c WL_CHANSPEC_BW_80 WL_CHANSPEC_CTL_SB_LL
      (segment_center wf_chspec_5G_id80_to_ch wf_chspec_6G_id80_to_ch c (CHSPEC_CHAN1 c))
  else if CHSPEC_IS160 c then
    let center := CHSPEC_CHANNEL c in
    part_of c WL_CHANSPEC_BW_80 WL_CHANSPEC_CTL_SB_LL
      (if CHSPEC_CTL_SB c <? WL_CHANSPEC_CTL_SB_ULL then u32 (center + CH_40MHZ_APART) else u32 (center - CH_40MHZ_APART))
  else INVCHANSPEC.

Definition channel_of (c : Z) : Z := if c =? INVCHANSPEC then INVCHANNEL else CHSPEC_CHANNEL c.
Definition wf_chspec_primary80_channel `{Build} (c : Z) : Z := channel_of (wf_chspec_primary80_chspec c).
Definition wf_chspec_secondary80_channel `{Build} (c : Z) : Z := channel_of (wf_chspec_secondary80_chspec c).

(** The chanspec itself where it is not 80 MHz or wider. *)
Definition wf_chspec_primary40_chspec `{Build} (c : Z) : Z :=
  let c80 := if CHSPEC_IS8080 c || CHSPEC_IS160 c then wf_chspec_primary80_chspec c else c in
  if CHSPEC_IS80 c80 then
    let center := CHSPEC_CHANNEL c80 in
    let sb := CHSPEC_CTL_SB c80 in
    if sb <? WL_CHANSPEC_CTL_SB_UL then part_of c80 WL_CHANSPEC_BW_40 sb (u32 (center - CH_20MHZ_APART))
    else part_of c80 WL_CHANSPEC_BW_40 (sb - WL_CHANSPEC_CTL_SB_UL) (u32 (center + CH_20MHZ_APART))
  else c.

Definition wf_chspec_primary160_chspec `{Build} (c : Z) : Z :=
  let part sb center := part_of c WL_CHANSPEC_BW_160 (Z.shiftl sb WL_CHANSPEC_CTL_SB_SHIFT) center in
  let sb := Z.shiftr (CHSPEC_GE240_SB c) WL_CHANSPEC_GE240_SB_SHIFT in
  if CHSPEC_IS160 c then c
  else if CHSPEC_IS240 c then
    let ch_id := CHSPEC_GE240_CHAN c in
    let center := wf_chspec_240_id2cch c in
    if (Z.land ch_id 1 =? 0) && (sb <? 8) then part sb (u32 (center - CH_40MHZ_APART))
    else if negb (Z.land ch_id 1 =? 0) && (4 <=? sb) then part (sb - 4) (u32 (center + CH_40MHZ_APART))
    else INVCHANSPEC
  else if CHSPEC_IS320 c then
    let center := wf_chspec_320_id2cch c in
    if sb <? 8 then part sb (u32 (center - CH_80MHZ_APART)) else part (sb - 8) (u32 (center + CH_80MHZ_APART))
  else INVCHANSPEC.

Definition wf_chspec_primary160_channel `{Build} (c : Z) : Z := channel_of (wf_chspec_primary160_chspec c).

(** [ch[0]] and [ch[1]]. *)
Definition wf_chspec_get_80p80_channels (c : Z) : Z * Z :=
  if CHSPEC_IS160 c then
    (u8 (CHSPEC_CHANNEL c - CH_40MHZ_APART), u8 (CHSPEC_CHANNEL c + CH_40MHZ_APART))
  else (CHSPEC_CHANNEL c, u8 (-1)).

Definition CH80MHZ_CHSPEC (channel ctlsb : Z) : Z :=
  u16 (Z.lor (Z.lor (Z.lor channel ctlsb) WL_CHANSPEC_BW_80) WL_CHANSPEC_BAND_5G).

Definition WF_NUM_SIDEBANDS_80MHZ : nat := 4.
Definition sidebands : list Z :=
  [WL_CHANSPEC_CTL_SB_LLL; WL_CHANSPEC_CTL_SB_LLU; WL_CHANSPEC_CTL_SB_LUL; WL_CHANSPEC_CTL_SB_LUU;
   WL_CHANSPEC_CTL_SB_ULL; WL_CHANSPEC_CTL_SB_ULU; WL_CHANSPEC_CTL_SB_UUL; WL_CHANSPEC_CTL_SB_UUU].

(** The first sideband that puts the primary channel there. *)
Definition wf_chspec_80 `{Build} (center primary : Z) : Z :=
  match find (λ sb, primary =? wf_chspec_primary20_chan (CH80MHZ_CHSPEC center sb)) (take WF_NUM_SIDEBANDS_80MHZ sidebands) with
  | Some sb => CH80MHZ_CHSPEC center sb
  | None => INVCHANSPEC
  end.

Definition wf_chspec_coexist `{Build} (c1 c2 : Z) : bool :=
  let same_primary := wf_chspec_primary20_chan c1 =? wf_chspec_primary20_chan c2 in
  if same_primary && CHSPEC_IS2G c1 && (CHSPEC_IS40 c1 && CHSPEC_IS40 c2)
  then CHSPEC_CTL_SB c1 =? CHSPEC_CTL_SB c2 else same_primary.

Definition VHT_OP_CHAN_WIDTH_20_40 : Z := 0.
Definition VHT_OP_CHAN_WIDTH_80 : Z := 1.
Definition VHT_OP_CHAN_WIDTH_160 : Z := 2.
Definition VHT_OP_CHAN_WIDTH_80_80 : Z := 3.
Definition channel_bw_to_width `{Build} (c : Z) : Z :=
  if CHSPEC_IS80 c then VHT_OP_CHAN_WIDTH_80
  else if CHSPEC_IS160 c then VHT_OP_CHAN_WIDTH_160
  else if CHSPEC_IS8080 c then VHT_OP_CHAN_WIDTH_80_80
  else VHT_OP_CHAN_WIDTH_20_40.

(** ** The 20 MHz sidebands *)

Definition wf_chspec_first_20_sb (c : Z) : Z :=
  if CHSPEC_IS80 c then LL_20_SB (CHSPEC_CHANNEL c)
  else if CHSPEC_IS40 c then LOWER_20_SB (CHSPEC_CHANNEL c)
  else CHSPEC_CHANNEL c.

Definition CH_LAST_20_SB (c : Z) : Z :=
  u8 (if CHSPEC_IS80 c then UU_20_SB (CHSPEC_CHANNEL c)
      else if CHSPEC_IS40 c then UPPER_20_SB (CHSPEC_CHANNEL c)
      else CHSPEC_CHANNEL c).

Definition CH_NEXT_20_SB (c channel : Z) : Z :=
  u8 (if CH_LAST_20_SB c <? u8 (channel + CH_20MHZ_APART) then 0 else channel + CH_20MHZ_APART).

(** A loop over bytes with a step of 4 that has not ended after 64 rounds has
    been at one of them twice: it does not end. *)
Definition sb_fuel : nat := 65.

(** [FOREACH_20_SB(chspec, channel)] from [channel] on, collecting. *)
Fixpoint foreach_20_sb (fuel : nat) (c channel : Z) : option (list Z) :=
  match fuel with
  | O => None
  | S fuel =>
      if channel =? 0 then Some []
      else l ← foreach_20_sb fuel c (CH_NEXT_20_SB c channel); Some (channel :: l)
  end.

Definition GET_ALL_SB (c : Z) : option (list Z) := foreach_20_sb sb_fuel c (u8 (wf_chspec_first_20_sb c)).

Definition put_bytes (m : mem) (p : Z) (l : list Z) : option mem :=
  if readable m p (Z.of_nat (length l)) then Some (splice m p l) else None.

(** The chanspec with the primary 80 MHz, and what is stored for each part. *)
Definition ext_base `{Build} (c : Z) : Z := if CHSPEC_IS160 c then wf_chspec_primary80_chspec c else c.
Definition ext_pri_ch `{Build} (c : Z) : Z := wf_chspec_primary20_chan (ext_base c).
Definition ext_20 `{Build} (c : Z) : Z :=
  u8 (if Z.land (ext_base c) WL_CHANSPEC_CTL_SB_U =? 0 then ext_pri_ch c + CH_20MHZ_APART else ext_pri_ch c - CH_20MHZ_APART).
Definition ext_40 `{Build} (c : Z) : option (list Z) :=
  GET_ALL_SB (wf_channel2chspec
    (u32 (if Z.land c WL_CHANSPEC_CTL_SB_UL =? 0 then ext_pri_ch c + CH_40MHZ_APART else ext_pri_ch c - CH_40MHZ_APART))
    WL_CHANSPEC_BW_40).
Definition ext_80 `{Build} (c : Z) : option (list Z) :=
  GET_ALL_SB (CH80MHZ_CHSPEC (wf_chspec_secondary80_channel c) WL_CHANSPEC_CTL_SB_LLL).

(** The memory with the array [pext]; [None] also stands for a loop that does
    not end. *)
Definition wf_get_all_ext `{Build} (m : mem) (c pext : Z) : option mem :=
  m ← put_bytes m pext [ext_pri_ch c];
  if CHSPEC_IS20 c then Some m
  else
    m ← put_bytes m (pext + 1) [ext_20 c];
    if CHSPEC_IS40 c then Some m
    else
      ext40 ← ext_40 c;
      m ← put_bytes m (pext + 2) ext40;
      if CHSPEC_IS80 c then Some m else ext80 ← ext_80 c; put_bytes m (pext + 4) ext80.

(** [None]: a loop does not end. *)
Fixpoint overlap_inner (fuel : nat) (c1 ch0 ch1 : Z) : option bool :=
  match fuel with
  | O => None
  | S fuel =>
      if ch1 =? 0 then Some false
      else if Z.abs (ch0 - ch1) <? CH_20MHZ_APART then Some true
      else overlap_inner fuel c1 ch0 (CH_NEXT_20_SB c1 ch1)
  end.

Fixpoint overlap_outer (fuel : nat) (c0 c1 ch0 : Z) : option bool :=
  match fuel with
  | O => None
  | S fuel =>
      if ch0 =? 0 then Some false
      else
        found ← overlap_inner sb_fuel c1 ch0 (u8 (wf_chspec_first_20_sb c1));
        if (found : bool) then Some true else overlap_outer fuel c0 c1 (CH_NEXT_20_SB c0 ch0)
  end.

Definition wf_chspec_overlap (c0 c1 : Z) : option bool :=
  if negb (CHSPEC_BAND c0 =? CHSPEC_BAND c1) then Some false
  else overlap_outer sb_fuel c0 c1 (u8 (wf_chspec_first_20_sb c0)).

(** ** Frequencies *)

Definition WF_CHAN_FACTOR_2_4_G : Z := 4814.
Definition WF_CHAN_FACTOR_5_G : Z := 10000.
Definition WF_CHAN_FACTOR_6_G : Z := 11900.

Definition wf_mhz2chanspec_band (freq : Z) : Z :=
  if (2400 <=? freq) && (freq <=? 2500) then WL_CHANSPEC_BAND_2G
  else if (5000 <=? freq) && (freq <? 5935) then WL_CHANSPEC_BAND_5G
  else if (5935 <=? freq) && (freq <=? 7205) then WL_CHANSPEC_BAND_6G
  else INVCHANSPEC.

(** -1 on error; C division of the int [offset] rounds to zero. *)
Definition wf_mhz2channel (freq start_factor : Z) : Z :=
  let start_factor :=
    if start_factor =? 0 then
      if (2400 <=? freq) && (freq <=? 2500) then WF_CHAN_FACTOR_2_4_G
      else if (5000 <=? freq) && (freq <? 5935) then WF_CHAN_FACTOR_5_G
      else if (5935 <=? freq) && (freq <=? 7205) then WF_CHAN_FACTOR_6_G
      else 0
    else start_factor in
  if (freq =? 2484) && (start_factor =? WF_CHAN_FACTOR_2_4_G) then 14
  else if (freq =? 5935) && (start_factor =? WF_CHAN_FACTOR_6_G) then 2
  else if (freq =? 5960) && (start_factor =? WF_CHAN_FACTOR_6_G) then -1
  else
    let base := start_factor / 2 in
    if freq <? base then -1
    else
      let offset := s32 (freq - base) in
      let ch := Z.quot offset 5 in
      if negb (offset =? ch * 5) then -1
      else if start_factor =? WF_CHAN_FACTOR_2_4_G then if 13 <? ch then -1 else ch
      else if start_factor =? WF_CHAN_FACTOR_6_G then if CH_MAX_6G_CHANNEL <? u32 ch then -1 else ch
      else if 200 <? ch then -1 else ch.

(** -1 on error. *)
Definition wf_channel2mhz (ch start_factor : Z) : Z :=
  if (start_factor =? WF_CHAN_FACTOR_2_4_G) && ((ch <? 1) || (14 <? ch))
     || (start_factor =? WF_CHAN_FACTOR_6_G) && ((ch <? 1) || (253 <? ch))
     || negb (start_factor =? WF_CHAN_FACTOR_6_G) && ((ch <? 1) || (200 <? ch)) then -1
  else if (start_factor =? WF_CHAN_FACTOR_2_4_G) && (ch =? 14) then 2484
  else if (start_factor =? WF_CHAN_FACTOR_6_G) && (ch =? 2) then 5935
  else s32 (u32 (ch * 5 + start_factor / 2)).
