(* ===== verification/ChanText.v ===== *)
(** * bcmwifi_channels.c: channel specifications as text (model)

    Printing and parsing, over strings in the byte memory of Mem. *)

From Stdlib Require Import Ascii String.
From S2P Require Import Prelude Mem BcmStr ChanSpec.

Definition CHANSPEC_STR_LEN `{Build} : Z := if WL11BE then 22 else 20.

(** The band, where it is not the default one of the channel number. *)
Definition band_prefix (c : Z) : list Z :=
  if CHSPEC_IS2G c && (CH_MAX_2G_CHANNEL <? CHSPEC_CHANNEL c) then chars "2g"
  else if CHSPEC_IS5G c && (CHSPEC_CHANNEL c <=? CH_MAX_2G_CHANNEL) then chars "5g"
  else if CHSPEC_IS6G c then chars "6g"
  else [].

(** The text of a two-segment channel. *)
Definition segments_text (band : list Z) (pri_chan : Z) (bw : string) (ch0 ch1 : Z) : list Z :=
  band ++ decimal pri_chan ++ chars bw ++ decimal ch0 ++ chars "-" ++ decimal ch1.

(** The text that wf_chspec_ntoa formats; [None]: it returns NULL. *)
Definition chspec_text `{Build} (c : Z) : option (list Z) :=
  if wf_chspec_malformed c then None
  else
    let band := band_prefix c in
    let pri_chan := wf_chspec_primary20_chan c in
    if CHSPEC_IS20 c then Some (band ++ decimal pri_chan)
    else if CHSPEC_IS8080 c then
      if CHSPEC_IS5G c then
        Some (segments_text band pri_chan "/80+80/" (wf_chspec_5G_id80_to_ch (CHSPEC_CHAN0 c)) (wf_chspec_5G_id80_to_ch (CHSPEC_CHAN1 c)))
      else if CHSPEC_IS6G c then
        Some (segments_text band pri_chan "/80+80/" (wf_chspec_6G_id80_to_ch (CHSPEC_CHAN0 c)) (wf_chspec_6G_id80_to_ch (CHSPEC_CHAN1 c)))
      else None
    else if CHSPEC_IS240 c || CHSPEC_IS320 c then
      Some (band ++ decimal pri_chan ++ chars "/" ++ chars (wf_chspec_to_bw_str c))
    else if CHSPEC_IS160160 c then
      if CHSPEC_IS5G c then
        Some (segments_text band pri_chan "/160+160/" (wf_chspec_5G_id160_to_ch (CHSPEC_CHAN0 c)) (wf_chspec_5G_id160_to_ch (CHSPEC_CHAN1 c)))
      else if CHSPEC_IS6G c then
        Some (segments_text band pri_chan "/160+160/" (wf_chspec_6G_id160_to_ch (CHSPEC_CHAN0 c)) (wf_chspec_6G_id160_to_ch (CHSPEC_CHAN1 c)))
      else None
    else
      let sb := if CHSPEC_SB_UPPER c then chars "u" else chars "l" in
      if CHANSPEC_NEW_40MHZ_FORMAT then
        Some (band ++ decimal pri_chan ++ chars "/" ++ chars (wf_chspec_to_bw_str c)
              ++ (if CHSPEC_IS40 c && CHSPEC_IS2G c then sb else []))
      else if CHSPEC_IS40 c && negb (CHSPEC_IS6G c) then Some (band ++ decimal pri_chan ++ sb)
      else Some (band ++ decimal pri_chan ++ chars "/" ++ chars (wf_chspec_to_bw_str c)).

(** The memory, and whether the result is not NULL. *)
Definition wf_chspec_ntoa `{Build} (m : mem) (c buf : Z) : option (mem * bool) :=
  match chspec_text c with
  | None => Some (m, false)
  | Some text => m ← snprintf m buf CHANSPEC_STR_LEN text; Some (m, true)
  end.

(** "%04x" *)
Definition hex4 (x : Z) : list Z :=
  map (λ s, hex_digit 97 (Z.land (Z.shiftr x s) 0xf)) [12; 8; 4; 0].

Definition wf_chspec_ntoa_ex `{Build} (m : mem) (c buf : Z) : option mem :=
  '(m, ok) ← wf_chspec_ntoa m c buf;
  if (ok : bool) then Some m else snprintf m buf CHANSPEC_STR_LEN (chars "invalid 0x" ++ hex4 c).

(** The number read and where it ends; [Some None]: no number was read. *)
Definition read_uint (m : mem) (p : Z) : option (option (Z * Z)) :=
  '(val, endp) ← bcm_strtoul m p 10;
  Some (if endp =? p then None else Some (u32 val, endp)).

Definition tolower (c : Z) : Z := if bcm_isupper c then c + 97 - 65 else c.

(** What the text says: band, primary channel, bandwidth, 'u', 'l' or 0. *)
Record chan_parts := mk_parts { ca_band : Z; ca_pri : Z; ca_bw : Z; ca_sb : Z }.

(** The parse behind the band and the channel number, up to [done_read]: the parts
    and the rest of the text; [Some None]: the function returns 0. *)
Definition aton_tail `{Build} (m : mem) (band pri_ch a : Z) : option (option (chan_parts * Z)) :=
  c ← rd8 m a;
  let c := tolower c in
  if c =? 0 then Some (Some (mk_parts band pri_ch WL_CHANSPEC_BW_20 0, a))
  else if (c =? 117) || (c =? 108) then Some (Some (mk_parts band pri_ch WL_CHANSPEC_BW_40 c, a + 1))
  else if negb (c =? 47) then Some None
  else
    r ← read_uint m (a + 1);
    match r with
    | None => Some None
    | Some (bw, a) =>
        match (if bw =? 20 then Some WL_CHANSPEC_BW_20 else if bw =? 40 then Some WL_CHANSPEC_BW_40
               else if bw =? 80 then Some WL_CHANSPEC_BW_80 else if bw =? 160 then Some WL_CHANSPEC_BW_160
               else if WFC_BW_EQ bw 240 then Some WL_CHANSPEC_BW_240
               else if WFC_BW_EQ bw 320 then Some WL_CHANSPEC_BW_320 else None) with
        | None => Some None
        | Some chspec_bw =>
            c ← rd8 m a;
            let c := tolower c in
            if (band =? WL_CHANSPEC_BAND_2G) && (bw =? 40) && ((c =? 117) || (c =? 108))
            then Some (Some (mk_parts band pri_ch chspec_bw c, a + 1))
            else if c =? 43 then Some None
            else Some (Some (mk_parts band pri_ch chspec_bw 0, a))
        end
    end.

(** The whole parse up to [done_read]. *)
Definition aton_read `{Build} (m : mem) (a : Z) : option (option (chan_parts * Z)) :=
  r ← read_uint m a;
  match r with
  | None => Some None
  | Some (num, a) =>
      c ← rd8 m a;
      if tolower c =? 103 then
        match (if num =? 2 then Some WL_CHANSPEC_BAND_2G else if num =? 5 then Some WL_CHANSPEC_BAND_5G
               else if num =? 6 then Some WL_CHANSPEC_BAND_6G else None) with
        | None => Some None
        | Some band =>
            r ← read_uint m (a + 1);
            match r with None => Some None | Some (pri_ch, a) => aton_tail m band pri_ch a end
        end
      else aton_tail m (if num <=? CH_MAX_2G_CHANNEL then WL_CHANSPEC_BAND_2G else WL_CHANSPEC_BAND_5G) num a
  end.

(** The chanspec of the parts; 0 when it is malformed. *)
Definition aton_make `{Build} (h : chan_parts) : Z :=
  let c :=
    if negb (ca_sb h =? 0) then
      wf_create_40MHz_chspec_primary_sb (ca_pri h)
        (if ca_sb h =? 108 then WL_CHANSPEC_CTL_SB_LLL else if ca_sb h =? 117 then WL_CHANSPEC_CTL_SB_LLU else 0) (ca_band h)
    else if ca_bw h =? WL_CHANSPEC_BW_20 then wf_create_20MHz_chspec (ca_pri h) (ca_band h)
    else wf_create_chspec_from_primary (ca_pri h) (ca_bw h) (ca_band h) in
  if wf_chspec_malformed c then 0 else c.

Definition wf_chspec_aton `{Build} (m : mem) (a : Z) : option Z :=
  r ← aton_read m a;
  match r with
  | None => Some 0
  | Some (h, a) =>
      a ← skip_while (λ c, c =? 32) (fuel_of m) m a;
      c ← rd8 m a;
      if negb (c =? 0) then Some 0 else Some (aton_make h)
  end.
