(* ===== verification/ChanTheorems.v ===== *)
(** * bcmwifi_channels.c: channel specifications (properties)

    The chanspecs of the board's build: which words are valid, what the
    constructors return, and what the routines that take a channel apart return.
    The finite facts are checked by computation over the valid chanspecs. *)

From S2P Require Import Prelude Mem BcmStr ChanSpec.

(** ** The valid chanspecs *)

(** The channels of a band and width, by the number of the center. *)
Definition std_channels (band bw : Z) : list Z :=
  if band =? WL_CHANSPEC_BAND_2G then
    if bw =? WL_CHANSPEC_BW_20 then seqZ 1 14 else if bw =? WL_CHANSPEC_BW_40 then seqZ 3 9 else []
  else if band =? WL_CHANSPEC_BAND_5G then
    if bw =? WL_CHANSPEC_BW_20 then
      [34; 38; 42; 46] ++ [36; 40; 44; 48; 52; 56; 60; 64]
      ++ [100; 104; 108; 112; 116; 120; 124; 128; 132; 136; 140; 144] ++ [149; 153; 157; 161; 165; 169; 173; 177]
    else if bw =? WL_CHANSPEC_BW_40 then [38; 46; 54; 62; 102; 110; 118; 126; 134; 142; 151; 159; 167; 175]
    else if bw =? WL_CHANSPEC_BW_80 then [42; 58; 106; 122; 138; 155; 171]
    else if bw =? WL_CHANSPEC_BW_160 then [50; 114; 163]
    else []
  else if band =? WL_CHANSPEC_BAND_6G then
    if bw =? WL_CHANSPEC_BW_20 then 2 :: map (λ i, 1 + 4 * i) (seqZ 0 64)
    else if bw =? WL_CHANSPEC_BW_40 then map (λ i, 3 + 8 * i) (seqZ 0 29)
    else if bw =? WL_CHANSPEC_BW_80 then map (λ i, 7 + 16 * i) (seqZ 0 14)
    else if bw =? WL_CHANSPEC_BW_160 then map (λ i, 15 + 32 * i) (seqZ 0 7)
    else []
  else [].

(** The number of 20 MHz channels in a channel of a width. *)
Definition num_sb (bw : Z) : Z :=
  if bw =? WL_CHANSPEC_BW_20 then 1 else if bw =? WL_CHANSPEC_BW_40 then 2
  else if bw =? WL_CHANSPEC_BW_80 then 4 else if bw =? WL_CHANSPEC_BW_160 then 8 else 0.

Definition bands : list Z := [WL_CHANSPEC_BAND_2G; WL_CHANSPEC_BAND_5G; WL_CHANSPEC_BAND_6G].
Definition widths : list Z := [WL_CHANSPEC_BW_20; WL_CHANSPEC_BW_40; WL_CHANSPEC_BW_80; WL_CHANSPEC_BW_160].

(** The chanspec with the given parts. *)
Definition word (band bw sb ch : Z) : Z := band + bw + sb * 256 + ch.

Definition chspecs_of (band bw : Z) : list Z :=
  flat_map (λ sb, map (word band bw sb) (std_channels band bw)) (seqZ 0 (num_sb bw)).
Definition valid_chspecs : list Z := flat_map (λ band, flat_map (chspecs_of band) widths) bands.

Lemma forall_words (f : Z -> Z -> bool) :
  forallb (λ hi, forallb (f hi) (seqZ 0 256)) (seqZ 0 256) = true ->
  ∀ c, 0 <= c < 65536 -> f (c / 256) (c mod 256) = true.
Proof.
  intros H c Hc. pose proof (Z.div_pos c 256). pose proof (Z.div_lt_upper_bound c 256 256). pose proof (Z.mod_pos_bound c 256).
  assert (forallb (f (c / 256)) (seqZ 0 256) = true) as Hf
    by (apply (forall_seqZ (λ hi, forallb (f hi) (seqZ 0 256)) 0 256); [exact H|lia]).
  apply (forall_seqZ (f (c / 256)) 0 256); [exact Hf|lia].
Qed.

Lemma valid_chspecs_forall (P : Z -> bool) : forallb P valid_chspecs = true -> ∀ c, c ∈ valid_chspecs -> P c = true.
Proof. intros H c Hc. apply (proj1 (forallb_forall _ _) H), list_elem_of_In, Hc. Qed.

(** The channels that can stand below a high byte. *)
Definition low_bytes (hi : Z) : list Z :=
  if Z.land hi 7 <? num_sb (CHSPEC_BW (hi * 256)) then std_channels (CHSPEC_BAND (hi * 256)) (CHSPEC_BW (hi * 256)) else [].

Lemma wf_chspec_valid_low c : 0 <= c < 65536 -> wf_chspec_valid c = existsb (Z.eqb (c mod 256)) (low_bytes (c / 256)).
Proof.
  intros Hc. replace c with (c / 256 * 256 + c mod 256) at 1 by (pose proof (Z.div_mod c 256); lia). apply eqb_prop.
  apply (forall_words (λ hi lo, Bool.eqb (wf_chspec_valid (hi * 256 + lo)) (existsb (Z.eqb lo) (low_bytes hi)))); [|done].
  vm_compute. reflexivity.
Qed.

Lemma wf_chspec_valid_iff c : 0 <= c < 65536 -> wf_chspec_valid c = true <-> c ∈ valid_chspecs.
Proof.
  intros Hc. split.
  - rewrite wf_chspec_valid_low by done. intros (lo & Hlo & E)%existsb_exists. apply Z.eqb_eq in E.
    pose proof (Z.div_mod c 256). rewrite E in *. pose proof (Z.div_pos c 256). pose proof (Z.div_lt_upper_bound c 256 256).
    assert (forallb (λ lo, existsb (Z.eqb (c / 256 * 256 + lo)) valid_chspecs) (low_bytes (c / 256)) = true) as H3.
    { apply (forall_seqZ (λ hi, forallb (λ lo, existsb (Z.eqb (hi * 256 + lo)) valid_chspecs) (low_bytes hi)) 0 256); [|lia].
      vm_compute. reflexivity. }
    apply (proj1 (forallb_forall _ _) H3), existsb_exists in Hlo as (c' & Hin & <-%Z.eqb_eq).
    apply list_elem_of_In. by replace c with (c / 256 * 256 + lo) by lia.
  - apply (valid_chspecs_forall (λ c, wf_chspec_valid c)). vm_compute. reflexivity.
Qed.

(** ** The constructors *)

(** A valid chanspec with these parts. *)
Definition has_parts (c band bw primary center : Z) : Prop :=
  c ∈ valid_chspecs ∧ CHSPEC_BAND c = band ∧ CHSPEC_BW c = bw ∧ CHSPEC_CHANNEL c = center ∧ wf_chspec_primary20_chan c = primary.

(** The constructor of each width. *)
Definition create (bw primary center band : Z) : Z :=
  if bw =? WL_CHANSPEC_BW_20 then (if primary =? center then wf_create_20MHz_chspec center band else INVCHANSPEC)
  else if bw =? WL_CHANSPEC_BW_40 then wf_create_40MHz_chspec primary center band
  else if bw =? WL_CHANSPEC_BW_80 then wf_create_80MHz_chspec primary center band
  else if bw =? WL_CHANSPEC_BW_160 then wf_create_160MHz_chspec primary center band else INVCHANSPEC.

(** Each valid chanspec is the one its parts give. *)
Lemma created_back c : c ∈ valid_chspecs ->
  (let bw := CHSPEC_BW c in let band := CHSPEC_BAND c in
   let ch := CHSPEC_CHANNEL c in let p := wf_chspec_primary20_chan c in
   (create bw p ch band =? c) && (wf_create_chspec p ch bw band =? c)
   && (wf_create_chspec_sb (Z.shiftr (CHSPEC_CTL_SB c) 8) ch bw band =? c)
   && (let f := wf_create_chspec_from_primary p bw band in
       (f =? c) || ((band =? WL_CHANSPEC_BAND_2G) && (bw =? WL_CHANSPEC_BW_40) && negb (f =? INVCHANSPEC) && (CHSPEC_CHANNEL f <? ch)))) = true.
Proof. revert c. apply valid_chspecs_forall. vm_compute. reflexivity. Qed.

(** What the words assembled from a channel and a sideband are. *)
Definition assembled (center band bw sb : Z) : Z := u16 (Z.lor (Z.lor (Z.lor center band) bw) (Z.shiftl sb WL_CHANSPEC_CTL_SB_SHIFT)).

Definition assembled_ok (center band bw sb : Z) : bool :=
  let c := assembled center band bw sb in
  negb (wf_chspec_valid c)
  || (CHSPEC_BAND c =? band) && (CHSPEC_BW c =? bw) && (CHSPEC_CHANNEL c =? center)
     && (center_chan_to_edge bw <=? center) && (wf_chspec_primary20_chan c =? center - center_chan_to_edge bw + 4 * sb).

Lemma assembled_check center band bw sb :
  0 <= center < 256 -> band ∈ bands -> bw ∈ widths -> 0 <= sb < num_sb bw -> assembled_ok center band bw sb = true.
Proof.
  intros Hc Hb Hw Hs.
  assert (forallb (λ band, forallb (λ bw, forallb (λ sb, forallb (λ center, assembled_ok center band bw sb)
            (seqZ 0 256)) (seqZ 0 (num_sb bw))) widths) bands = true) as H by (vm_compute; reflexivity).
  rewrite forallb_forall in H. specialize (H band (proj1 (list_elem_of_In _ _) Hb)).
  rewrite forallb_forall in H. specialize (H bw (proj1 (list_elem_of_In _ _) Hw)).
  apply (forall_seqZ _ _ _ H sb) in Hs. by apply (forall_seqZ _ _ _ Hs).
Qed.

(** A sideband that was found is in the channel. *)
Lemma channel_to_sb_spec center primary bw :
  bw ∈ widths -> 0 <= center < 256 -> 0 <= primary < 4294967296 -> 0 <= channel_to_sb center primary bw ->
  channel_to_sb center primary bw < num_sb bw
  ∧ (center_chan_to_edge bw <= center -> primary = center - center_chan_to_edge bw + 4 * channel_to_sb center primary bw).
Proof.
  intros Hw Hc Hp. unfold channel_to_sb, channel_low_edge.
  assert (0 <= center_chan_to_edge bw <= 14) as He.
  { unfold widths in Hw. rewrite !elem_of_cons, elem_of_nil in Hw. destruct Hw as [-> |[-> |[-> |[-> | []]]]]; vm_compute; split; discriminate. }
  set (e := center_chan_to_edge bw) in *. set (low := u32 (center - e)).
  assert (0 <= low < 4294967296) as Hlow by (apply Z.mod_pos_bound; lia).
  destruct (Z.ltb_spec primary low); cbn [orb]; [lia|]. unfold u32. rewrite (Z.mod_small (primary - low)) by lia.
  destruct (Z.eqb_spec ((primary - low) mod 4) 0) as [E|]; cbn [negb orb]; [|lia].
  pose proof (Z.div_mod (primary - low) 4 ltac:(lia)) as Hdm. set (sb := (primary - low) / 4) in *.
  destruct (_ || _) eqn:Eb; [lia|]. intros Hsb. split.
  - unfold widths in Hw. rewrite !elem_of_cons, elem_of_nil in Hw. unfold num_sb.
    destruct Hw as [-> |[-> |[-> |[-> | []]]]]; cbn -[Z.leb] in Eb |- *; rewrite ?orb_false_r in Eb; apply Z.leb_gt in Eb; lia.
  - intros Hce. unfold low, u32 in *. rewrite (Z.mod_small (center - e)) in * by lia. lia.
Qed.

Lemma assembled_parts center band bw sb primary :
  0 <= center < 256 -> band ∈ bands -> bw ∈ widths -> 0 <= sb < num_sb bw ->
  (center_chan_to_edge bw <= center -> primary = center - center_chan_to_edge bw + 4 * sb) ->
  wf_chspec_valid (assembled center band bw sb) = true -> has_parts (assembled center band bw sb) band bw primary center.
Proof.
  intros Hc Hb Hw Hs Hp Hv. pose proof (assembled_check center band bw sb Hc Hb Hw Hs) as H. unfold assembled_ok in H.
  rewrite Hv in H. cbn [negb orb] in H. rewrite !andb_true_iff, !Z.eqb_eq, Z.leb_le in H. destruct H as [[[[H1 H2] H3] H4] H5].
  split; [|by rewrite Hp, H5]. apply wf_chspec_valid_iff; [apply Z.mod_pos_bound; lia|done].
Qed.

(** The center channels that the validity tests accept. *)
Lemma valid_center_small (valid : Z -> Z -> bool) bw center band :
  (bw, valid) ∈ [(WL_CHANSPEC_BW_40, wf_valid_40MHz_center_chan); (WL_CHANSPEC_BW_80, wf_valid_80MHz_center_chan);
                 (WL_CHANSPEC_BW_160, wf_valid_160MHz_center_chan)] ->
  valid center band = true -> 0 <= center < 256 ∧ band ∈ bands ∧ bw ∈ widths.
Proof.
  intros Hin Hv.
  assert (∀ table i, 0 <= table_id center table i -> center ∈ table) as Htab.
  { induction table as [|x t IH]; intros i Hi; cbn [table_id] in Hi; [lia|].
    destruct (Z.eqb_spec center x) as [-> |]; [left|right; by eapply IH]. }
  assert (∀ table, existsb (Z.eqb center) table = true -> center ∈ table) as Hex.
  { intros t (x & Hx & <-%Z.eqb_eq)%existsb_exists. by apply list_elem_of_In. }
  assert (∀ table, center ∈ table -> forallb (λ c, (0 <=? c) && (c <? 256)) table = true -> 0 <= center < 256) as Hsm.
  { intros t Hc Ht. apply list_elem_of_In in Hc.
    apply (proj1 (forallb_forall _ _) Ht), andb_true_iff in Hc as [?%Z.leb_le ?%Z.ltb_lt]. lia. }
  assert (∀ lo hi step, 0 <= lo -> hi < 256 -> spaced lo hi step center = true -> 0 <= center < 256) as Hsp.
  { intros lo hi step Hlo Hhi H. unfold spaced in H. rewrite !andb_true_iff, !Z.leb_le in H. lia. }
  unfold bands, widths. rewrite !elem_of_cons, !elem_of_nil in *.
  destruct Hin as [[= -> ->]|[[= -> ->]|[[= -> ->]|[]]]]; revert Hv;
    unfold wf_valid_40MHz_center_chan, wf_valid_80MHz_center_chan, wf_valid_160MHz_center_chan;
    try (destruct (Z.eqb_spec band WL_CHANSPEC_BAND_2G) as [-> |?]);
    try (destruct (Z.eqb_spec band WL_CHANSPEC_BAND_5G) as [-> |?]);
    try (destruct (Z.eqb_spec band WL_CHANSPEC_BAND_6G) as [-> |?]);
    try done; intros Hv; (split; [|tauto]).
  - apply andb_true_iff in Hv as [?%Z.leb_le ?%Z.leb_le]. unfold CH_MIN_2G_40M_CHANNEL, CH_MAX_2G_40M_CHANNEL in *. lia.
  - by eapply Hsm; [apply Hex|].
  - by eapply Hsp; [| |exact Hv].
  - by eapply Hsm; [eapply Htab, Z.leb_le|].
  - apply Z.leb_le in Hv. unfold channel_6g_80mhz_to_id, spaced_id in Hv. destruct (_ && _) eqn:E; [|lia].
    by eapply Hsp; [| |exact E].
  - by eapply Hsm; [apply Hex|].
  - by eapply Hsp; [| |exact Hv].
Qed.

Definition creators : list (Z * (Z -> Z -> bool)) :=
  [(WL_CHANSPEC_BW_40, wf_valid_40MHz_center_chan); (WL_CHANSPEC_BW_80, wf_valid_80MHz_center_chan);
   (WL_CHANSPEC_BW_160, wf_valid_160MHz_center_chan)].

Lemma creators_valid bw valid center band sb :
  (bw, valid) ∈ creators -> valid center band = true -> 0 <= sb < num_sb bw -> wf_chspec_valid (assembled center band bw sb) = true.
Proof.
  intros Hin Hv Hs. destruct (valid_center_small valid bw center band Hin Hv) as (Hc & Hb & _).
  assert (forallb (λ '(bw, valid), forallb (λ band, forallb (λ center, negb (valid center band)
            || forallb (λ sb, wf_chspec_valid (assembled center band bw sb)) (seqZ 0 (num_sb bw))) (seqZ 0 256)) bands) creators = true)
    as H by (vm_compute; reflexivity).
  rewrite forallb_forall in H. specialize (H (bw, valid) (proj1 (list_elem_of_In _ _) Hin)). cbn beta iota in H.
  rewrite forallb_forall in H. specialize (H band (proj1 (list_elem_of_In _ _) Hb)).
  apply (forall_seqZ _ _ _ H center) in Hc. rewrite Hv in Hc. by apply (forall_seqZ _ _ _ Hc sb).
Qed.

Lemma contiguous_parts bw valid primary center band :
  (bw, valid) ∈ creators -> 0 <= primary < 4294967296 ->
  contiguous valid bw primary center band = INVCHANSPEC
  ∨ has_parts (contiguous valid bw primary center band) band bw primary center.
Proof.
  intros Hin Hp. unfold contiguous. set (sb := channel_to_sb center primary bw).
  destruct (Z.ltb_spec sb 0) as [|Hsb]; [by left|]. destruct (valid center band) eqn:Hv; [|by left]. cbn [orb negb]. right.
  destruct (valid_center_small valid bw center band Hin Hv) as (Hc & Hb & Hw).
  destruct (channel_to_sb_spec center primary bw Hw Hc Hp Hsb) as [Hlt Heq].
  rewrite <-(Z.lor_assoc center bw band), (Z.lor_comm bw band), Z.lor_assoc.
  apply assembled_parts; (done || lia || by eapply creators_valid).
Qed.

Lemma create_20_parts center band : band ∈ bands -> 0 <= center ->
  wf_create_20MHz_chspec center band = INVCHANSPEC
  ∨ has_parts (wf_create_20MHz_chspec center band) band WL_CHANSPEC_BW_20 center center.
Proof.
  intros Hb H0. unfold wf_create_20MHz_chspec. destruct (Z.leb_spec center WL_CHANSPEC_CHAN_MASK) as [Hc|]; [|by left].
  unfold WL_CHANSPEC_CHAN_MASK in Hc. cbn [andb]. destruct (known_band band); [|by left].
  replace (Z.lor (Z.lor (Z.lor band WL_CHANSPEC_BW_20) WL_CHANSPEC_CTL_SB_LLL) center)
    with (Z.lor (Z.lor (Z.lor center band) WL_CHANSPEC_BW_20) (Z.shiftl 0 WL_CHANSPEC_CTL_SB_SHIFT)).
  - fold (assembled center band WL_CHANSPEC_BW_20 0). destruct (wf_chspec_valid _) eqn:Hv; [|by left]. right.
    apply assembled_parts; try done; [lia|left|cbn; lia].
  - change (Z.shiftl 0 WL_CHANSPEC_CTL_SB_SHIFT) with 0. unfold WL_CHANSPEC_CTL_SB_LLL. rewrite !Z.lor_0_r.
    by rewrite (Z.lor_comm center), <-!Z.lor_assoc, (Z.lor_comm center).
Qed.

Lemma create_parts bw primary center band :
  bw ∈ widths -> band ∈ bands -> 0 <= primary < 4294967296 -> 0 <= center ->
  create bw primary center band = INVCHANSPEC ∨ has_parts (create bw primary center band) band bw primary center.
Proof.
  intros Hw Hb Hp Hc. unfold widths in Hw. rewrite !elem_of_cons, !elem_of_nil in Hw. unfold create.
  destruct Hw as [-> |[-> |[-> |[-> | []]]]]; cbn -[contiguous].
  - destruct (Z.eqb_spec primary center) as [-> |]; [by apply create_20_parts|by left].
  - apply contiguous_parts; [left|done].
  - apply contiguous_parts; [right; left|done].
  - apply contiguous_parts; [right; right; left|done].
Qed.

Lemma create_chspec_parts bw primary center band :
  bw ∈ widths -> band ∈ bands -> 0 <= primary < 4294967296 -> 0 <= center < 256 ->
  wf_create_chspec primary center bw band = INVCHANSPEC ∨ has_parts (wf_create_chspec primary center bw band) band bw primary center.
Proof.
  intros Hw Hb Hp Hc. unfold wf_create_chspec.
  set (sb := if (bw =? WL_CHANSPEC_BW_20) && (primary =? center) then 0 else _).
  destruct (Z.leb_spec 0 sb) as [Hsb|]; [|by left]. cbn [WFC_BW_EQ WL11BE board_build andb].
  fold (assembled center band bw sb). destruct (wf_chspec_valid _) eqn:Hv; [|by left]. right.
  assert (sb < num_sb bw ∧ (center_chan_to_edge bw <= center -> primary = center - center_chan_to_edge bw + 4 * sb)) as [H1 H2].
  { revert Hsb. subst sb. destruct (Z.eqb_spec bw WL_CHANSPEC_BW_20) as [-> |Hn].
    - destruct (Z.eqb_spec primary center) as [-> |]; cbn; lia.
    - cbn [andb]. destruct (_ || _); [|lia]. intros Hsb. by apply channel_to_sb_spec. }
  by apply assembled_parts.
Qed.

Lemma valid_not_inv c : c ∈ valid_chspecs -> c ≠ INVCHANSPEC.
Proof. intros H. apply Z.eqb_neq, negb_true_iff. revert c H. apply valid_chspecs_forall. vm_compute. reflexivity. Qed.

(** What a constructor that only knows the primary channel returns. *)
Lemma from_primary_parts primary bw band :
  bw ∈ widths -> band ∈ bands -> 0 <= primary < 256 ->
  let c := wf_create_chspec_from_primary primary bw band in
  c = INVCHANSPEC ∨ has_parts c band bw primary (CHSPEC_CHANNEL c).
Proof.
  intros Hw Hb Hp c.
  assert (forallb (λ band, forallb (λ bw, forallb (λ primary, let c := wf_create_chspec_from_primary primary bw band in
            (c =? INVCHANSPEC) || (0 <=? c) && (c <? 65536) && wf_chspec_valid c && (CHSPEC_BAND c =? band) && (CHSPEC_BW c =? bw)
              && (wf_chspec_primary20_chan c =? primary)) (seqZ 0 256)) widths) bands = true) as H by (vm_compute; reflexivity).
  rewrite forallb_forall in H. specialize (H band (proj1 (list_elem_of_In _ _) Hb)).
  rewrite forallb_forall in H. specialize (H bw (proj1 (list_elem_of_In _ _) Hw)).
  apply (forall_seqZ _ _ _ H primary) in Hp. cbv zeta in Hp. fold c in Hp.
  apply orb_true_iff in Hp as [?%Z.eqb_eq|Hp]; [by left|right].
  rewrite !andb_true_iff, !Z.eqb_eq, Z.leb_le, Z.ltb_lt in Hp. destruct Hp as [[[[[Hp1 Hp2] Hp3] Hp4] Hp5] Hp6].
  split_and!; try done. by apply wf_chspec_valid_iff.
Qed.

(** C34.  For each band and width, the constructor of the width returns the valid
    chanspec with the given primary and center channels if there is one, and
    INVCHANSPEC if there is none.  wf_create_chspec returns the same as the
    constructor of the width for center channel numbers below 256.  For a primary
    channel below 256, wf_create_chspec_from_primary returns INVCHANSPEC or a valid
    chanspec of the band, the width and the primary channel; when there is one it
    returns it, and of the two that a primary channel of the 2.4 GHz band can have
    at 40 MHz, where the channels overlap, it returns the one with the lower
    center.  (Its comment says that it returns INVCHANSPEC for 40 MHz in the
    2.4 GHz band; the code does not: [from_primary_2g40].) *)
Theorem chspec_constructors (band bw primary center : Z) :
  band ∈ bands -> bw ∈ widths -> 0 <= primary < 4294967296 -> 0 <= center < 4294967296 ->
  let c := create bw primary center band in
  let f := wf_create_chspec_from_primary primary bw band in
  (c = INVCHANSPEC ∨ has_parts c band bw primary center)
  ∧ (∀ d, has_parts d band bw primary center -> c = d)
  ∧ (center < 256 -> wf_create_chspec primary center bw band = c)
  ∧ (primary < 256 -> f = INVCHANSPEC ∨ has_parts f band bw primary (CHSPEC_CHANNEL f))
  ∧ (∀ d ch, has_parts d band bw primary ch ->
       f = d ∨ band = WL_CHANSPEC_BAND_2G ∧ bw = WL_CHANSPEC_BW_40 ∧ f ≠ INVCHANSPEC ∧ CHSPEC_CHANNEL f < ch).
Proof.
  intros Hb Hw Hp Hc c f.
  assert (∀ d ch, has_parts d band bw primary ch -> create bw primary ch band = d ∧ wf_create_chspec primary ch bw band = d
            ∧ (f = d ∨ band = WL_CHANSPEC_BAND_2G ∧ bw = WL_CHANSPEC_BW_40 ∧ f ≠ INVCHANSPEC ∧ CHSPEC_CHANNEL f < ch)) as Hback.
  { intros d ch (Hd & <- & <- & <- & <-). pose proof (created_back d Hd) as H. cbv zeta in H.
    rewrite !andb_true_iff, orb_true_iff, !andb_true_iff, negb_true_iff, !Z.eqb_eq, Z.eqb_neq, Z.ltb_lt in H. unfold f. tauto. }
  split_and!.
  - apply create_parts; (done || lia).
  - intros d Hd. by destruct (Hback d center Hd) as (E & _).
  - intros Hlt. destruct (create_parts bw primary center band Hw Hb Hp ltac:(lia)) as [E|E];
      [|by apply Hback in E as (_ & -> & _)].
    destruct (create_chspec_parts bw primary center band Hw Hb Hp ltac:(lia)) as [->|E2]; [by unfold c|].
    by apply Hback in E2 as (<- & _).
  - intros Hlt. apply from_primary_parts; (done || lia).
  - intros d ch Hd. by destruct (Hback d ch Hd) as (_ & _ & E).
Qed.

Lemma chspec_constructors_witness :
  create WL_CHANSPEC_BW_80 36 42 WL_CHANSPEC_BAND_5G = 0xe02a
  ∧ wf_create_chspec_from_primary 36 WL_CHANSPEC_BW_80 WL_CHANSPEC_BAND_5G = 0xe02a.
Proof.
  assert (has_parts 0xe02a WL_CHANSPEC_BAND_5G WL_CHANSPEC_BW_80 36 42) as H.
  { split; [|vm_compute; done]. apply wf_chspec_valid_iff; [lia|vm_compute; reflexivity]. }
  destruct (chspec_constructors WL_CHANSPEC_BAND_5G WL_CHANSPEC_BW_80 36 42) as (_ & H1 & _ & _ & H2).
  - right; left.
  - right; right; left.
  - lia.
  - lia.
  - split; [exact (H1 _ H)|]. destruct (H2 _ _ H) as [E|[E _]]; [exact E|discriminate].
Defined.

(** Larger numbers are truncated into another channel: center 294 of primary 292
    gives channel 40 of the channel 36/40, and the primary channel 257 of the
    6 GHz band is taken for channel 5. *)
Example create_chspec_truncates :
  wf_create_chspec 292 294 WL_CHANSPEC_BW_40 WL_CHANSPEC_BAND_5G = wf_create_40MHz_chspec 40 38 WL_CHANSPEC_BAND_5G
  ∧ wf_create_chspec_from_primary 257 WL_CHANSPEC_BW_40 WL_CHANSPEC_BAND_6G = wf_create_40MHz_chspec 5 3 WL_CHANSPEC_BAND_6G
  ∧ wf_create_40MHz_chspec 5 3 WL_CHANSPEC_BAND_6G ≠ INVCHANSPEC.
Proof. vm_compute. split; [done|]. split; [done|discriminate]. Qed.

(** The documentation says INVCHANSPEC: for the 2.4 GHz band and 40 MHz the first
    channel with the primary channel is returned. *)
Example from_primary_2g40 : wf_create_chspec_from_primary 6 WL_CHANSPEC_BW_40 WL_CHANSPEC_BAND_2G = 0x1904.
Proof. vm_compute. reflexivity. Qed.

(** * bcmwifi_channels.c: the parts of a channel (properties)

    The narrower channels inside a valid chanspec, the list of its 20 MHz
    channels, overlap, and frequencies. *)

(** The 20 MHz channels of a chanspec, from the lowest, and the index of the
    primary one. *)
Definition covered (c : Z) : list Z :=
  map (λ i, CHSPEC_CHANNEL c - center_chan_to_edge (CHSPEC_BW c) + 4 * i) (seqZ 0 (num_sb (CHSPEC_BW c))).
Definition sb_index (c : Z) : nat := Z.to_nat (Z.shiftr (CHSPEC_CTL_SB c) 8).

(** The aligned block of [n] of them that holds index [i]. *)
Definition aligned (n i : nat) (l : list Z) : list Z := take n (drop (n * (i / n)) l).

(** A chanspec of width [bw] that covers [l] and has the primary channel of [c]. *)
Definition is_part (p c bw : Z) (l : list Z) : Prop :=
  p ∈ valid_chspecs ∧ CHSPEC_BAND p = CHSPEC_BAND c ∧ CHSPEC_BW p = bw ∧ covered p = l
  ∧ wf_chspec_primary20_chan p = wf_chspec_primary20_chan c.

Definition is_part_b (p c bw : Z) (l : list Z) : bool :=
  (0 <=? p) && (p <? 65536) && wf_chspec_valid p && (CHSPEC_BAND p =? CHSPEC_BAND c) && (CHSPEC_BW p =? bw)
  && bool_decide (covered p = l) && (wf_chspec_primary20_chan p =? wf_chspec_primary20_chan c).

Lemma is_part_b_true p c bw l : is_part_b p c bw l = true -> is_part p c bw l.
Proof.
  unfold is_part_b. rewrite !andb_true_iff, bool_decide_eq_true, !Z.eqb_eq, Z.leb_le, Z.ltb_lt.
  intros [[[[[[H1 H2] H3] H4] H5] H6] H7]. split_and!; try done. by apply wf_chspec_valid_iff.
Qed.

Lemma parts_check c : c ∈ valid_chspecs ->
  (let l := covered c in let i := sb_index c in let n := length l in
   bool_decide (l !! i = Some (wf_chspec_primary20_chan c))
   && is_part_b (wf_chspec_primary20_chspec c) c WL_CHANSPEC_BW_20 (aligned 1 i l)
   && (if (2 <=? n)%nat then is_part_b (wf_chspec_primary40_chspec c) c WL_CHANSPEC_BW_40 (aligned 2 i l)
       else wf_chspec_primary40_chspec c =? c)
   && (if (4 <=? n)%nat then is_part_b (wf_chspec_primary80_chspec c) c WL_CHANSPEC_BW_80 (aligned 4 i l)
       else wf_chspec_primary80_chspec c =? INVCHANSPEC)
   && (if (8 <=? n)%nat then let s := wf_chspec_secondary80_chspec c in is_part_b s s WL_CHANSPEC_BW_80 (aligned 4 (Nat.lxor i 4) l)
         && (CHSPEC_BAND s =? CHSPEC_BAND c)
       else wf_chspec_secondary80_chspec c =? INVCHANSPEC)) = true.
Proof. revert c. apply valid_chspecs_forall. vm_compute. reflexivity. Qed.

(** Inside a valid chanspec of [n] 20 MHz channels, the primary 20, 40 and
    80 MHz chanspecs are valid, cover the aligned block of that width with the
    primary channel and keep the primary channel; the secondary 80 MHz chanspec
    covers the other half of a 160 MHz channel.  Where the channel is too narrow,
    the results are the channel itself (40) and INVCHANSPEC (80). *)
Theorem chspec_parts (c : Z) : c ∈ valid_chspecs ->
  let l := covered c in
  let i := sb_index c in
  l !! i = Some (wf_chspec_primary20_chan c)
  ∧ is_part (wf_chspec_primary20_chspec c) c WL_CHANSPEC_BW_20 (aligned 1 i l)
  ∧ ((2 <= length l)%nat -> is_part (wf_chspec_primary40_chspec c) c WL_CHANSPEC_BW_40 (aligned 2 i l))
  ∧ ((length l < 2)%nat -> wf_chspec_primary40_chspec c = c)
  ∧ ((4 <= length l)%nat -> is_part (wf_chspec_primary80_chspec c) c WL_CHANSPEC_BW_80 (aligned 4 i l))
  ∧ ((length l < 4)%nat -> wf_chspec_primary80_chspec c = INVCHANSPEC)
  ∧ ((8 <= length l)%nat -> let s := wf_chspec_secondary80_chspec c in
       s ∈ valid_chspecs ∧ CHSPEC_BAND s = CHSPEC_BAND c ∧ CHSPEC_BW s = WL_CHANSPEC_BW_80 ∧ covered s = aligned 4 (Nat.lxor i 4) l)
  ∧ ((length l < 8)%nat -> wf_chspec_secondary80_chspec c = INVCHANSPEC).
Proof.
  intros Hc l i. pose proof (parts_check c Hc) as H. cbv zeta in H. fold l i in H. rewrite !andb_true_iff, bool_decide_eq_true in H.
  destruct H as [[[[H1 H2] H3] H4] H5].
  destruct (Nat.leb_spec 2 (length l)), (Nat.leb_spec 4 (length l)), (Nat.leb_spec 8 (length l)); try lia;
    rewrite ?Z.eqb_eq, ?andb_true_iff in *; split_and!; intros; try lia; try done; try (by apply is_part_b_true); cbv zeta;
    destruct H5 as [(? & _ & ? & ? & _)%is_part_b_true ?%Z.eqb_eq]; by split_and!.
Qed.

Lemma chspec_parts_witness :
  is_part (wf_chspec_primary40_chspec 0xe932) 0xe932 WL_CHANSPEC_BW_40 [36; 40]
  ∧ covered (wf_chspec_secondary80_chspec 0xe932) = [52; 56; 60; 64].
Proof.
  destruct (chspec_parts 0xe932) as (_ & _ & H40 & _ & _ & _ & H80 & _).
  - apply wf_chspec_valid_iff; [lia|vm_compute; reflexivity].
  - split; [apply H40; vm_compute; lia|]. apply H80. vm_compute. lia.
Defined.

(** ** The extension channels *)

(** The primary channel, the other one of its 40 MHz, the other 40 MHz of its
    80 MHz, the other 80 MHz. *)
Definition ext_order (i : nat) (l : list Z) : list Z :=
  take (length l) (aligned 1 i l ++ aligned 1 (Nat.lxor i 1) l ++ aligned 2 (Nat.lxor i 2) l ++ aligned 4 (Nat.lxor i 4) l).

Definition ext_ok (c : Z) : bool :=
  let l := covered c in
  let n := length l in
  let e := ext_order (sb_index c) l in
  (length e =? n)%nat && bool_decide (take 1 e = [ext_pri_ch c])
  && (if CHSPEC_IS20 c then (n =? 1)%nat
      else bool_decide (take 1 (drop 1 e) = [ext_20 c])
        && (if CHSPEC_IS40 c then (n =? 2)%nat
            else bool_decide (ext_40 c = Some (take 2 (drop 2 e)))
              && (if CHSPEC_IS80 c then (n =? 4)%nat else bool_decide (ext_80 c = Some (drop 4 e)) && (n =? 8)%nat))).

Lemma ext_check c : c ∈ valid_chspecs -> (CHSPEC_BAND c =? WL_CHANSPEC_BAND_6G) || ext_ok c = true.
Proof. revert c. apply valid_chspecs_forall. vm_compute. reflexivity. Qed.

Lemma put_bytes_more m p l1 l2 q : q = p + Z.of_nat (length l1) -> readable m p (Z.of_nat (length (l1 ++ l2))) = true ->
  put_bytes (splice m p l1) q l2 = Some (splice m p (l1 ++ l2)).
Proof.
  intros -> H. pose proof (proj1 (readable_spec _ _ _) H) as Hb. rewrite length_app in Hb. unfold put_bytes.
  rewrite readable_splice by (apply readable_spec; lia).
  rewrite (proj2 (readable_spec m (p + _) _)) by lia. by rewrite splice_app.
Qed.

(** C2.  For a valid chanspec of the 2.4 and 5 GHz bands the array gets the primary
    20 MHz channel, the other one of its 40 MHz, the other 40 MHz of its 80 MHz
    and the other 80 MHz, as far as the channel is that wide. *)
Theorem wf_get_all_ext_spec (m : mem) (c pext : Z) :
  c ∈ valid_chspecs -> CHSPEC_BAND c ≠ WL_CHANSPEC_BAND_6G -> readable m pext (num_sb (CHSPEC_BW c)) = true ->
  wf_get_all_ext m c pext = Some (splice m pext (ext_order (sb_index c) (covered c)))
  ∧ length (ext_order (sb_index c) (covered c)) = length (covered c).
Proof.
  intros Hc Hb Hr. pose proof (ext_check c Hc) as H. apply Z.eqb_neq in Hb. rewrite Hb in H. cbn [orb] in H.
  assert (Z.of_nat (length (covered c)) = num_sb (CHSPEC_BW c)) as Hn.
  { unfold covered. rewrite length_map, length_seqZ. unfold num_sb. repeat case_match; lia. }
  rewrite <-Hn in Hr. unfold ext_ok in H. set (e := ext_order (sb_index c) (covered c)) in *.
  rewrite !andb_true_iff, bool_decide_eq_true in H. destruct H as [[Hl%Nat.eqb_eq H1] H].
  split; [|done]. rewrite <-Hl in Hr. unfold wf_get_all_ext.
  assert (∀ k, readable m pext (Z.of_nat (length (take k e))) = true) as Hrk.
  { intros k. rewrite length_take. apply readable_spec in Hr. apply readable_spec. lia. }
  rewrite <-H1.
  assert (put_bytes m pext (take 1 e) = Some (splice m pext (take 1 e))) as -> by (unfold put_bytes; by rewrite Hrk). cbn [mbind option_bind].
  assert (∀ k j q l, (k + j <= length e)%nat -> q = pext + Z.of_nat k -> take j (drop k e) = l ->
            put_bytes (splice m pext (take k e)) q l = Some (splice m pext (take (k + j) e))) as Hst.
  { intros k j q l Hkj -> <-. rewrite <-take_take_drop. apply put_bytes_more; [rewrite length_take; lia|].
    rewrite take_take_drop. apply Hrk. }
  destruct (CHSPEC_IS20 c). { apply Nat.eqb_eq in H. by rewrite take_ge by lia. }
  rewrite andb_true_iff, bool_decide_eq_true in H. destruct H as [H2 H].
  destruct (CHSPEC_IS40 c).
  { apply Nat.eqb_eq in H. rewrite (Hst 1%nat 1%nat) by (done || lia). cbn [mbind option_bind]. by rewrite take_ge by lia. }
  rewrite andb_true_iff, bool_decide_eq_true in H. destruct H as [-> H]. cbn [mbind option_bind].
  destruct (CHSPEC_IS80 c).
  { apply Nat.eqb_eq in H. rewrite (Hst 1%nat 1%nat) by (done || lia). cbn [mbind option_bind].
    rewrite (Hst (1 + 1)%nat 2%nat) by (done || lia). cbn [mbind option_bind]. by rewrite take_ge by lia. }
  rewrite andb_true_iff, bool_decide_eq_true in H. destruct H as [-> H%Nat.eqb_eq].
  rewrite (Hst 1%nat 1%nat) by (done || lia). cbn [mbind option_bind].
  rewrite (Hst (1 + 1)%nat 2%nat) by (done || lia). cbn [mbind option_bind].
  rewrite (Hst (1 + 1 + 2)%nat 4%nat) by (try done; try lia; by rewrite take_ge by (rewrite length_drop; lia)).
  by rewrite take_ge by lia.
Qed.

Lemma wf_get_all_ext_spec_witness :
  wf_get_all_ext (replicate 9 7) 0xe932 1 = Some (splice (replicate 9 7) 1 [40; 36; 44; 48; 52; 56; 60; 64]).
Proof.
  apply (wf_get_all_ext_spec (replicate 9 7) 0xe932 1); [|vm_compute; discriminate|reflexivity].
  apply wf_chspec_valid_iff; [lia|vm_compute; reflexivity].
Defined.

(** In the 6 GHz band the 40 MHz part is looked up among the 2.4 and 5 GHz
    channels: nothing is stored for 6 GHz channel 33/80. *)
Example get_all_ext_6g : wf_get_all_ext (replicate 4 7) (wf_create_80MHz_chspec 33 39 WL_CHANSPEC_BAND_6G) 0 = Some [33; 37; 7; 7].
Proof. vm_compute. reflexivity. Qed.

(** ** Overlap *)

Definition near (a b : Z) : bool := Z.abs (a - b) <? CH_20MHZ_APART.

Lemma overlap_inner_spec fuel c a b l : foreach_20_sb fuel c b = Some l -> overlap_inner fuel c a b = Some (existsb (near a) l).
Proof.
  revert b l. induction fuel as [|fuel IH]; intros b l H; cbn [foreach_20_sb overlap_inner] in *; [done|].
  destruct (b =? 0); [by injection H as <-|]. destruct (foreach_20_sb fuel c _) as [l'|] eqn:E; cbn [mbind option_bind] in H; [|done].
  injection H as <-. cbn [existsb]. rewrite (IH _ _ E). fold (near a b). by destruct (near a b).
Qed.

Lemma overlap_outer_spec fuel c0 c1 a l0 l1 :
  foreach_20_sb fuel c0 a = Some l0 -> GET_ALL_SB c1 = Some l1 ->
  overlap_outer fuel c0 c1 a = Some (existsb (λ a, existsb (near a) l1) l0).
Proof.
  intros H0 H1. revert a l0 H0. induction fuel as [|fuel IH]; intros a l0 H; cbn [foreach_20_sb overlap_outer] in *; [done|].
  destruct (a =? 0); [by injection H as <-|]. destruct (foreach_20_sb fuel c0 _) as [l'|] eqn:E; cbn [mbind option_bind] in H; [|done].
  injection H as <-. unfold GET_ALL_SB in H1. rewrite (overlap_inner_spec _ _ a _ _ H1). cbn [mbind option_bind existsb].
  rewrite (IH _ _ E). by destruct (existsb (near a) l1).
Qed.

(** The walk over the sidebands: complete up to 80 MHz, the center channel alone
    at 160 MHz, and without end at channel 253 of the 6 GHz band. *)
Definition walked (c : Z) : list Z := if CHSPEC_IS160 c then [CHSPEC_CHANNEL c] else covered c.
Definition last_6g : Z := word WL_CHANSPEC_BAND_6G WL_CHANSPEC_BW_20 0 CH_MAX_6G_CHANNEL.

Lemma walk_check c : c ∈ valid_chspecs ->
  (if c =? last_6g then bool_decide (GET_ALL_SB c = None)
   else bool_decide (GET_ALL_SB c = Some (walked c))
     && ((negb (CHSPEC_IS6G c)) || bool_decide (wf_chspec_overlap c last_6g = Some true ∧ wf_chspec_overlap last_6g c = Some true))) = true.
Proof. revert c. apply valid_chspecs_forall. vm_compute. reflexivity. Qed.

(** The overlap test ends on all valid chspecs.  Up to 80 MHz it finds whether
    two channels of a band share spectrum (two of their 20 MHz channels are less
    than 20 MHz apart); of a 160 MHz channel only the 20 MHz at the center are
    looked at; and channel 253 of the 6 GHz band overlaps every channel. *)
Theorem wf_chspec_overlap_spec (c0 c1 : Z) :
  c0 ∈ valid_chspecs -> c1 ∈ valid_chspecs ->
  wf_chspec_overlap c0 c1
  = Some ((CHSPEC_BAND c0 =? CHSPEC_BAND c1)
          && ((c0 =? last_6g) || (c1 =? last_6g) || existsb (λ a, existsb (near a) (walked c1)) (walked c0))).
Proof.
  intros Hv0 Hv1. pose proof (walk_check c0 Hv0) as H0. pose proof (walk_check c1 Hv1) as H1.
  destruct (Z.eqb_spec (CHSPEC_BAND c0) (CHSPEC_BAND c1)) as [Eb|Hne].
  2: { unfold wf_chspec_overlap. by apply Z.eqb_neq in Hne as ->. }
  assert (CHSPEC_IS6G last_6g = true) as Hl by (vm_compute; reflexivity).
  assert (∀ c, c ∈ valid_chspecs -> CHSPEC_BAND c = CHSPEC_BAND last_6g -> c ≠ last_6g ->
            wf_chspec_overlap c last_6g = Some true ∧ wf_chspec_overlap last_6g c = Some true) as H253.
  { intros c Hc E Hn. pose proof (walk_check c Hc) as H. apply Z.eqb_neq in Hn. rewrite Hn in H.
    unfold CHSPEC_IS6G in H at 1. rewrite E in H. apply andb_true_iff in H as [_ H]. by apply bool_decide_eq_true in H. }
  destruct (Z.eqb_spec c0 last_6g) as [-> |Hn0].
  { destruct (Z.eqb_spec c1 last_6g) as [-> |Hn1]; [vm_compute; reflexivity|]. by apply H253. }
  destruct (Z.eqb_spec c1 last_6g) as [-> |Hn1]; [by apply H253|].
  apply andb_true_iff in H0 as [H0%bool_decide_eq_true _], H1 as [H1%bool_decide_eq_true _].
  unfold wf_chspec_overlap. rewrite Eb, Z.eqb_refl. cbn [negb andb orb]. by apply overlap_outer_spec.
Qed.

Lemma wf_chspec_overlap_spec_witness :
  wf_chspec_overlap 0xe02a 0xd826 = Some true ∧ wf_chspec_overlap 0xe832 0xd024 = Some false.
Proof.
  assert (∀ c, 0 <= c < 65536 -> wf_chspec_valid c = true -> c ∈ valid_chspecs) as Hv by (intros c Hc; by apply wf_chspec_valid_iff).
  split; rewrite wf_chspec_overlap_spec by (apply Hv; [lia|vm_compute; reflexivity]); vm_compute; reflexivity.
Defined.

(** The second answer is wrong: the channel 36/160 contains the channel 36. *)
Example overlap_160_missed : 0xe832 ∈ valid_chspecs ∧ 36 ∈ covered 0xe832 ∧ covered 0xd024 = [36]
  ∧ wf_chspec_overlap 0xe832 0xd024 = Some false.
Proof.
  split; [apply wf_chspec_valid_iff; [lia|vm_compute; reflexivity]|]. split; [|by vm_compute].
  apply list_elem_of_In. vm_compute. by left.
Qed.

(** ** Frequencies *)

(** All the tests on the frequency and the channel. *)
Ltac finish_freq Ht r q :=
  repeat match goal with |- context [if ?x =? ?y then _ else _] => destruct (Z.eqb_spec x y) end;
  repeat match goal with |- context [if ?x <? ?y then _ else _] => destruct (Z.ltb_spec x y) end;
  try lia;
  (destruct Ht as [Ht1 Ht2]; [lia|]); (destruct (decide (r = 0)) as [Er|Er]; [specialize (Ht2 Er)|specialize (Ht1 Er)]);
  repeat match goal with _ : context [if ?x <? q then _ else _] |- _ => destruct (Z.ltb_spec x q) end; lia.

(** Between a channel number of 1 and more and its frequency over a base
    frequency, the two conversions are inverse to each other; a frequency that
    does not belong to a channel gives -1, and the base frequency itself 0. *)
Theorem wf_freq_channel_inverse (freq start_factor ch : Z) :
  0 <= freq < 2147483648 -> 0 < start_factor < 2147483648 ->
  (1 <= ch -> wf_mhz2channel freq start_factor = ch <-> wf_channel2mhz ch start_factor = freq)
  ∧ (wf_mhz2channel freq start_factor <= 0 ->
     wf_mhz2channel freq start_factor = -1 ∨ freq = start_factor / 2 ∧ wf_mhz2channel freq start_factor = 0).
Proof.
  intros Hf Hs. pose proof (Z.div_mod start_factor 2 ltac:(lia)) as Hd. pose proof (Z.mod_pos_bound start_factor 2 ltac:(lia)) as Hm.
  unfold wf_mhz2channel, wf_channel2mhz. rewrite (proj2 (Z.eqb_neq start_factor 0)) by lia.
  set (b := start_factor / 2) in *. unfold WF_CHAN_FACTOR_2_4_G, WF_CHAN_FACTOR_6_G, CH_MAX_6G_CHANNEL.
  assert (∀ x, 0 <= x < 2147483648 -> s32 x = x) as Hs32 by (intros x Hx; unfold s32; rewrite Z.mod_small by lia; lia).
  assert (∀ x, 0 <= x < 2147483648 -> u32 x = x) as Hu32 by (intros x Hx; unfold u32; apply Z.mod_small; lia).
  set (t := if negb (s32 (freq - b) =? _) then -1 else _).
  (* the general case *)
  assert (b <= freq -> ((freq - b) mod 5 <> 0 -> t = -1) ∧ ((freq - b) mod 5 = 0 ->
            t = let q := (freq - b) / 5 in
                if start_factor =? 4814 then if 13 <? q then -1 else q
                else if start_factor =? 11900 then if 253 <? q then -1 else q else if 200 <? q then -1 else q)) as Ht.
  { intros Hb. subst t. rewrite Hs32 by lia. rewrite Z.quot_div_nonneg by lia.
    pose proof (Z.div_mod (freq - b) 5 ltac:(lia)). pose proof (Z.div_pos (freq - b) 5 ltac:(lia) ltac:(lia)).
    split; intros E; destruct (Z.eqb_spec (freq - b) ((freq - b) / 5 * 5)); try lia; cbn [negb]; [done|].
    by rewrite Hu32 by lia. }
  clearbody t. pose proof (Z.div_mod (freq - b) 5 ltac:(lia)). set (q := (freq - b) / 5) in *.
  pose proof (Z.mod_pos_bound (freq - b) 5 ltac:(lia)). set (r := (freq - b) mod 5) in *. cbv zeta in Ht.
  assert (0 <= ch <= 253 -> s32 (u32 (ch * 5 + b)) = ch * 5 + b) as Hsum by (intros; rewrite Hu32, Hs32; lia).
  split.
  - intros Hch. destruct (Z.eqb_spec start_factor 4814), (Z.eqb_spec start_factor 11900); try lia; cbn [andb orb negb];
      rewrite ?andb_false_r, ?andb_true_r, ?orb_false_r; (destruct (Z.ltb_spec ch 1); [lia|]); cbn [orb].
    + destruct (Z.ltb_spec 14 ch), (Z.ltb_spec 200 ch); cbn [orb]; try lia; rewrite ?Hsum by lia; finish_freq Ht r q.
    + destruct (Z.ltb_spec 253 ch); rewrite ?Hsum by lia; finish_freq Ht r q.
    + destruct (Z.ltb_spec 200 ch); rewrite ?Hsum by lia; finish_freq Ht r q.
  - destruct (Z.eqb_spec start_factor 4814), (Z.eqb_spec start_factor 11900); try lia; cbn [andb orb negb];
      rewrite ?andb_false_r, ?andb_true_r; finish_freq Ht r q.
Qed.

Lemma wf_freq_channel_inverse_witness :
  wf_channel2mhz 36 WF_CHAN_FACTOR_5_G = 5180
  ∧ (wf_mhz2channel 5003 WF_CHAN_FACTOR_5_G = -1 ∨ 5003 = WF_CHAN_FACTOR_5_G / 2 ∧ wf_mhz2channel 5003 WF_CHAN_FACTOR_5_G = 0).
Proof.
  split.
  - apply (wf_freq_channel_inverse 5180 WF_CHAN_FACTOR_5_G 36); [lia|vm_compute; done|lia|vm_compute; reflexivity].
  - apply (wf_freq_channel_inverse 5003 WF_CHAN_FACTOR_5_G 36); [lia|vm_compute; done|vm_compute; discriminate].
Defined.

(** The documentation says that the result is a channel above 0 or -1, and that a
    frequency outside the bands is an error when no base is given. *)
Example mhz2channel_base : wf_mhz2channel 5000 0 = 0 ∧ wf_mhz2channel 500 0 = 100.
Proof. split; reflexivity. Qed.
