(* ===== verification/ChanTextTheorems.v ===== *)
(** * bcmwifi_channels.c: channel specifications as text (properties)

    Parsing reads the string only, so it does not matter where it stands; the
    text of each valid chanspec parses back to it. *)

From Stdlib Require Import Ascii String.
From S2P Require Import Prelude Mem BcmStr BcmStrTheorems ChanSpec ChanTheorems ChanText.

Section two_places.
Context (m m' : mem).

(** The same string in two places. *)
Definition same_text (a a' : Z) : Prop := ∃ l, at_mem m a (l ++ [0]) ∧ at_mem m' a' (l ++ [0]).

Lemma same_rd8 a a' : same_text a a' ->
  ∃ c, rd8 m a = Some c ∧ rd8 m' a' = Some c ∧ (c ≠ 0 -> same_text (a + 1) (a' + 1)).
Proof.
  intros ([|x l] & H & H'); cbn [app] in *; apply at_mem_cons in H as [E H]; apply at_mem_cons in H' as [E' H'].
  - by exists 0.
  - exists x. split_and!; [done..|]. intros _. by exists l.
Qed.

Lemma same_skip f a a' : same_text a a' -> f 0 = false ->
  ∃ k, skip_while f (fuel_of m) m a = Some (a + k) ∧ skip_while f (fuel_of m') m' a' = Some (a' + k) ∧ same_text (a + k) (a' + k).
Proof.
  intros (l & H & H') H0. exists (Z.of_nat (length (span f l).1)).
  rewrite !(skip_while_span f f l) by done. split_and!; [done..|]. exists ((span f l).2).
  destruct (span_spec f l) as [El _]. rewrite El, <-app_assoc in H, H'. apply at_mem_app in H as [_ H], H' as [_ H']. done.
Qed.

Lemma same_digits a a' fuel fuel' base minus r last : same_text a a' ->
  (∀ l, at_mem m a (l ++ [0]) -> (length l < fuel)%nat) -> (∀ l, at_mem m' a' (l ++ [0]) -> (length l < fuel')%nat) ->
  ∃ v k o, digits_loop fuel m a base minus r last = Some (v, a + k, o)
    ∧ digits_loop fuel' m' a' base minus r last = Some (v, a' + k, o) ∧ same_text (a + k) (a' + k).
Proof.
  intros (l & H & H') Hf Hf'. pose proof (Hf l H) as Hl. pose proof (Hf' l H') as Hl'. clear Hf Hf'.
  revert fuel fuel' a a' r last H H' Hl Hl'.
  induction l as [|x l IH]; intros [|fuel] [|fuel'] a a' r last H H' Hl Hl'; cbn [length] in *; try lia;
    assert (same_text a a') as Hs by (eexists; split; [exact H|exact H']);
    cbn [app] in *; apply at_mem_cons in H as [E H]; apply at_mem_cons in H' as [E' H']; cbn [digits_loop]; rewrite E, E';
    cbn [mbind option_bind].
  - exists r, 0, false. rewrite !Z.add_0_r. done.
  - destruct (bcm_isxdigit x && (digit_value x <? base)).
    + destruct ((_ <? last) && _).
      * destruct (same_skip bcm_isxdigit a a' Hs eq_refl) as (k & -> & -> & Hk). cbn [mbind option_bind]. by exists (u64 (-1)), k, true.
      * destruct (IH fuel fuel' (a + 1) (a' + 1) (u64 (r * base + digit_value x)) (u64 (r * base + digit_value x)) H H')
          as (v & k & o & E1 & E2 & Hk); [lia|lia|].
        exists v, (1 + k), o. rewrite !Z.add_assoc. done.
    + exists r, 0, false. rewrite !Z.add_0_r. done.
Qed.

Lemma same_strtoul a a' : same_text a a' ->
  ∃ v k, bcm_strtoul m a 10 = Some (v, a + k) ∧ bcm_strtoul m' a' 10 = Some (v, a' + k) ∧ same_text (a + k) (a' + k).
Proof.
  intros H. unfold bcm_strtoul, bcm_strtoull.
  destruct (same_skip bcm_isspace a a' H eq_refl) as (k & -> & -> & Hk). cbn [mbind option_bind].
  destruct (same_rd8 _ _ Hk) as (c & -> & -> & Hc). cbn [mbind option_bind].
  assert (∃ (mi : bool) j, (if c =? 43 then (false, a + k + 1) else if c =? 45 then (true, a + k + 1) else (false, a + k)) = (mi, a + j)
            ∧ (if c =? 43 then (false, a' + k + 1) else if c =? 45 then (true, a' + k + 1) else (false, a' + k)) = (mi, a' + j)
            ∧ same_text (a + j) (a' + j)) as (mi & j & -> & -> & Hj).
  { destruct (Z.eqb_spec c 43) as [-> |]; [|destruct (Z.eqb_spec c 45) as [-> |]].
    - exists false, (k + 1). rewrite !Z.add_assoc. split_and!; [done..|]. by apply Hc.
    - exists true, (k + 1). rewrite !Z.add_assoc. split_and!; [done..|]. by apply Hc.
    - by exists false, k. }
  change (base_prefix m (a + j) 10) with (Some (10, a + j)). change (base_prefix m' (a' + j) 10) with (Some (10, a' + j)).
  cbn [mbind option_bind].
  destruct (same_digits (a + j) (a' + j) (fuel_of m) (fuel_of m') 10 mi 0 0 Hj) as (v & i & o & -> & -> & Hi).
  - intros l Hl. apply at_mem_fuel in Hl. rewrite length_app in Hl. lia.
  - intros l Hl. apply at_mem_fuel in Hl. rewrite length_app in Hl. lia.
  - cbn [mbind option_bind]. rewrite <-!Z.add_assoc in *.
    destruct o; [by exists v, (j + i)|]. by eexists _, (j + i).
Qed.

Lemma same_read_uint a a' : same_text a a' ->
  (read_uint m a = Some None ∧ read_uint m' a' = Some None)
  ∨ ∃ v k, read_uint m a = Some (Some (v, a + k)) ∧ read_uint m' a' = Some (Some (v, a' + k))
      ∧ same_text (a + k) (a' + k) ∧ 0 <= v < 4294967296.
Proof.
  intros H. unfold read_uint. destruct (same_strtoul a a' H) as (v & k & -> & -> & Hk). cbn [mbind option_bind].
  destruct (Z.eqb_spec (a + k) a), (Z.eqb_spec (a' + k) a'); try lia; [by left|right].
  exists (u32 v), k. split_and!; try done; apply Z.mod_pos_bound; lia.
Qed.

(** What the parse can find. *)
Definition parts_ok (h : chan_parts) : Prop :=
  ca_band h ∈ bands ∧ ca_bw h ∈ widths ∧ 0 <= ca_pri h < 4294967296.

Lemma parts_ok_intro band p w sb : band ∈ bands -> w ∈ widths -> 0 <= p < 4294967296 -> parts_ok (mk_parts band p w sb).
Proof. done. Qed.

Definition same_read (a a' : Z) : Prop :=
  (aton_read m a = Some None ∧ aton_read m' a' = Some None)
  ∨ ∃ h k, aton_read m a = Some (Some (h, a + k)) ∧ aton_read m' a' = Some (Some (h, a' + k))
      ∧ same_text (a + k) (a' + k) ∧ parts_ok h.

Ltac in_list := unfold bands, widths; rewrite !elem_of_cons; tauto.

(** The parse behind the band and the channel number. *)
Lemma same_tail band pri_ch a a' : same_text a a' -> band ∈ bands -> 0 <= pri_ch < 4294967296 ->
  let tail m a := aton_tail m band pri_ch a in
  (tail m a = Some None ∧ tail m' a' = Some None)
  ∨ ∃ h k, tail m a = Some (Some (h, a + k)) ∧ tail m' a' = Some (Some (h, a' + k)) ∧ same_text (a + k) (a' + k) ∧ parts_ok h.
Proof.
  intros H Hb Hp tail. unfold tail, aton_tail. destruct (same_rd8 a a' H) as (c & -> & -> & Hc). cbn [mbind option_bind].
  destruct (Z.eqb_spec (tolower c) 0) as [E|E].
  { right. eexists _, 0. rewrite !Z.add_0_r. split_and!; [done..|]. apply parts_ok_intro; [done|in_list|done]. }
  assert (c ≠ 0) as Hc0 by (intros ->; by apply E). specialize (Hc Hc0).
  destruct (_ || _).
  { right. eexists _, 1. split_and!; [done..|]. apply parts_ok_intro; [done|in_list|done]. }
  destruct (negb _); [by left|]. destruct (same_read_uint (a + 1) (a' + 1) Hc) as [[-> ->]|(bw & k & -> & -> & Hk & Hbw)];
    cbn [mbind option_bind]; [by left|].
  assert (∃ r, (if bw =? 20 then Some WL_CHANSPEC_BW_20 else if bw =? 40 then Some WL_CHANSPEC_BW_40
          else if bw =? 80 then Some WL_CHANSPEC_BW_80 else if bw =? 160 then Some WL_CHANSPEC_BW_160
          else if WFC_BW_EQ bw 240 then Some WL_CHANSPEC_BW_240
          else if WFC_BW_EQ bw 320 then Some WL_CHANSPEC_BW_320 else None) = r ∧ ∀ w, r = Some w -> w ∈ widths) as (r & -> & Hr).
  { eexists. split; [done|]. intros w. cbn [WFC_BW_EQ WL11BE board_build andb]. repeat case_match; intros [= <-]; in_list. }
  destruct r as [w|]; [|by left]. specialize (Hr w eq_refl).
  destruct (same_rd8 _ _ Hk) as (d & -> & -> & Hd). cbn [mbind option_bind].
  destruct ((band =? _) && _ && _) eqn:Eb.
  { right. eexists _, (1 + k + 1). rewrite !Z.add_assoc. split_and!; [done..| |done]. apply Hd. intros ->.
    by rewrite andb_false_r in Eb. }
  destruct (tolower d =? 43); [by left|]. right. eexists _, (1 + k). rewrite !Z.add_assoc. by split_and!.
Qed.

Lemma same_aton_read a a' : same_text a a' -> same_read a a'.
Proof.
  intros H. unfold same_read, aton_read. destruct (same_read_uint a a' H) as [[-> ->]|(num & k & -> & -> & Hk & Hnum)];
    cbn [mbind option_bind]; [by left|].
  destruct (same_rd8 _ _ Hk) as (c & -> & -> & Hc). cbn [mbind option_bind].
  destruct (Z.eqb_spec (tolower c) 103) as [E|E]; cbn [mbind option_bind].
  - assert (c ≠ 0) as Hc0 by (intros ->; done). specialize (Hc Hc0).
    assert (∃ r, (if num =? 2 then Some WL_CHANSPEC_BAND_2G else if num =? 5 then Some WL_CHANSPEC_BAND_5G
            else if num =? 6 then Some WL_CHANSPEC_BAND_6G else None) = r ∧ ∀ b, r = Some b -> b ∈ bands) as (r & -> & Hr).
    { eexists. split; [done|]. intros b. repeat case_match; intros [= <-]; in_list. }
    destruct r as [b|]; cbn [mbind option_bind]; [|by left]. specialize (Hr b eq_refl).
    destruct (same_read_uint _ _ Hc) as [[-> ->]|(pri & j & -> & -> & Hj & Hpri)]; cbn [mbind option_bind option_map]; [by left|].
    destruct (same_tail b pri _ _ Hj Hr Hpri) as [[-> ->]|(h & i & -> & -> & Hi)]; [by left|right].
    exists h, (k + 1 + j + i). rewrite !Z.add_assoc. done.
  - assert ((if num <=? CH_MAX_2G_CHANNEL then WL_CHANSPEC_BAND_2G else WL_CHANSPEC_BAND_5G) ∈ bands) as Hb
      by (case_match; in_list).
    destruct (same_tail _ num _ _ Hk Hb Hnum) as [[-> ->]|(h & i & -> & -> & Hi)]; [by left|right].
    exists h, (k + i). rewrite !Z.add_assoc. done.
Qed.

End two_places.

(** The parse ends on every string, whatever surrounds it. *)
Lemma same_aton m m' a a' : same_text m m' a a' ->
  ∃ r, wf_chspec_aton m a = Some r ∧ wf_chspec_aton m' a' = Some r
    ∧ (r = 0 ∨ ∃ h, parts_ok h ∧ r = aton_make h).
Proof.
  intros H. unfold wf_chspec_aton.
  destruct (same_aton_read m m' a a' H) as [[-> ->]|(h & k & -> & -> & Hk & Hh)]; cbn [mbind option_bind].
  { exists 0. split_and!; [done..|by left]. }
  destruct (same_skip m m' (λ c, c =? 32) _ _ Hk eq_refl) as (j & -> & -> & Hj). cbn [mbind option_bind].
  destruct (same_rd8 m m' _ _ Hj) as (c & -> & -> & _). cbn [mbind option_bind].
  destruct (negb (c =? 0)); [exists 0; split_and!; [done..|by left]|].
  exists (aton_make h). split_and!; [done..|right]. by exists h.
Qed.

(** Any chanspec made from parts is valid. *)
Lemma create_chspec_valid primary center bw band :
  wf_create_chspec primary center bw band = INVCHANSPEC ∨ wf_create_chspec primary center bw band ∈ valid_chspecs.
Proof.
  unfold wf_create_chspec. set (sb := if _ && (primary =? center) then 0 else _).
  destruct (0 <=? sb); [|by left]. cbn [WFC_BW_EQ WL11BE board_build andb]. set (c := u16 _).
  destruct (wf_chspec_valid c) eqn:E; [right|by left]. apply wf_chspec_valid_iff; [apply Z.mod_pos_bound; lia|done].
Qed.

Lemma search_center_valid centers primary bw band :
  search_center centers primary bw band = INVCHANSPEC ∨ search_center centers primary bw band ∈ valid_chspecs.
Proof.
  induction centers as [|ch centers IH]; [by left|]. cbn [search_center].
  destruct (create_chspec_valid primary ch bw band) as [-> |E]; [done|]. destruct (negb _); [by right|done].
Qed.

Lemma from_primary_valid primary bw band : band ∈ bands -> 0 <= primary ->
  wf_create_chspec_from_primary primary bw band = INVCHANSPEC ∨ wf_create_chspec_from_primary primary bw band ∈ valid_chspecs.
Proof.
  intros Hb Hp. unfold wf_create_chspec_from_primary. destruct (bw =? WL_CHANSPEC_BW_20).
  { destruct (create_20_parts primary band Hb Hp) as [E|[E _]]; [by left|by right]. }
  destruct (_ || _); [apply search_center_valid|]. destruct (band =? WL_CHANSPEC_BAND_6G); [|by left].
  destruct (negb _); [apply create_chspec_valid|by left].
Qed.

Lemma aton_make_valid h : parts_ok h -> aton_make h = 0 ∨ aton_make h ∈ valid_chspecs.
Proof.
  intros (Hb & Hw & Hp). unfold aton_make.
  assert (∀ c, c = INVCHANSPEC ∨ c ∈ valid_chspecs -> (if wf_chspec_malformed c then 0 else c) = 0
                 ∨ (if wf_chspec_malformed c then 0 else c) ∈ valid_chspecs) as Hc.
  { intros c [-> |H]; [by left|]. destruct (wf_chspec_malformed c); [by left|by right]. }
  apply Hc. clear Hc. destruct (negb (ca_sb h =? 0)).
  - assert (∀ center, wf_create_40MHz_chspec (ca_pri h) center (ca_band h) = INVCHANSPEC
              ∨ wf_create_40MHz_chspec (ca_pri h) center (ca_band h) ∈ valid_chspecs) as H40.
    { intros center. destruct (contiguous_parts WL_CHANSPEC_BW_40 wf_valid_40MHz_center_chan (ca_pri h) center (ca_band h))
        as [E|[E _]]; [left|done|by left|by right]. }
    unfold wf_create_40MHz_chspec_primary_sb. repeat case_match; first [apply H40|by left].
  - destruct (ca_bw h =? WL_CHANSPEC_BW_20); [|apply from_primary_valid; [done|lia]].
    destruct (create_20_parts (ca_pri h) (ca_band h) Hb ltac:(lia)) as [E|[E _]]; [by left|by right].
Qed.

(** The text of a chanspec by itself. *)
Lemma chspec_text_parses c : c ∈ valid_chspecs ->
  match chspec_text c with
  | Some t => (Z.of_nat (length t) <? CHANSPEC_STR_LEN) && bool_decide (wf_chspec_aton (t ++ [0]) 0 = Some c)
  | None => false
  end = true.
Proof. revert c. apply valid_chspecs_forall. vm_compute. reflexivity. Qed.

(** C35.  The text of a valid chanspec fits in CHANSPEC_STR_LEN bytes and parses to
    the chanspec again.  On any string the parse ends, reads the string only, and
    returns 0 or a valid chanspec. *)
Theorem wf_chspec_text_roundtrip (m : mem) (p c : Z) (l : list Z) :
  (c ∈ valid_chspecs -> readable m p CHANSPEC_STR_LEN = true ->
   ∃ m', wf_chspec_ntoa m c p = Some (m', true) ∧ only_in p CHANSPEC_STR_LEN m m' ∧ wf_chspec_aton m' p = Some c)
  ∧ (at_mem m p (l ++ [0]) -> ∃ r, wf_chspec_aton m p = Some r ∧ wf_chspec_aton (l ++ [0]) 0 = Some r ∧ (r = 0 ∨ r ∈ valid_chspecs)).
Proof.
  assert (∀ t, at_mem (t ++ [0]) 0 (t ++ [0])) as Hself.
  { intros t. split; [apply readable_spec; lia|]. unfold slice. cbn [Z.to_nat drop]. by rewrite firstn_all. }
  split.
  - intros Hc Hr. pose proof (chspec_text_parses c Hc) as H. unfold wf_chspec_ntoa. destruct (chspec_text c) as [t|]; [|done].
    apply andb_true_iff in H as [Hl%Z.ltb_lt Ht%bool_decide_eq_true].
    destruct (snprintf_spec m p CHANSPEC_STR_LEN t Hr Hl) as (m' & -> & Hon & Hat). cbn [mbind option_bind].
    exists m'. split; [done|]. split; [done|].
    destruct (same_aton m' (t ++ [0]) p 0) as (r & -> & E & _); [by exists t|]. congruence.
  - intros Hat. destruct (same_aton m (l ++ [0]) p 0) as (r & -> & -> & Hr); [by exists l|]. exists r. split_and!; [done..|].
    destruct Hr as [-> |(h & Hh & ->)]; [by left|by apply aton_make_valid].
Qed.

Lemma wf_chspec_text_roundtrip_witness :
  (∃ m', wf_chspec_ntoa (replicate 25 7) 0xe02a 3 = Some (m', true) ∧ only_in 3 CHANSPEC_STR_LEN (replicate 25 7) m'
         ∧ wf_chspec_aton m' 3 = Some 0xe02a)
  ∧ (∃ r, wf_chspec_aton (chars "36/80" ++ [0]) 0 = Some r ∧ wf_chspec_aton (chars "36/80" ++ [0]) 0 = Some r
          ∧ (r = 0 ∨ r ∈ valid_chspecs)).
Proof.
  split.
  - apply (wf_chspec_text_roundtrip (replicate 25 7) 3 0xe02a []); [|reflexivity].
    apply wf_chspec_valid_iff; [lia|vm_compute; reflexivity].
  - apply (wf_chspec_text_roundtrip (chars "36/80" ++ [0]) 0 0xe02a (chars "36/80")). split; reflexivity.
Defined.

(** A primary channel that does not exist is parsed as another one. *)
Example aton_257 : wf_chspec_aton (chars "6g257/40" ++ [0]) 0 = wf_chspec_aton (chars "6g5/40" ++ [0]) 0
  ∧ wf_chspec_aton (chars "6g5/40" ++ [0]) 0 = Some (wf_create_40MHz_chspec 5 3 WL_CHANSPEC_BAND_6G).
Proof. vm_compute. done. Qed.
