(* ===== verification/ChanIter.v ===== *)
(** * bcmwifi_channels.c: the iterator over channel specifications (model)

    The structure of wf_chanspec_iter_init and the step of
    wf_chanspec_iter_next. *)

From S2P Require Import Prelude Mem BcmStr ChanSpec ChanTheorems.

Definition RANGE_ID_INVAL : Z := 0xFF.
Inductive wf_iter_state := WF_ITER_INIT | WF_ITER_RUN | WF_ITER_DONE.

Record wf_chanspec_iter_t := mk_iter {
  state : wf_iter_state;
  chanspec : Z;
  band : Z;
  bw : Z;
  range : Z * Z;      (* start and end *)
  range_id : Z
}.

Definition set_state s it := mk_iter s (chanspec it) (band it) (bw it) (range it) (range_id it).
Definition set_chanspec c it := mk_iter (state it) c (band it) (bw it) (range it) (range_id it).
Definition set_range r id it := mk_iter (state it) (chanspec it) (band it) (bw it) r id.

Definition wf_5g_iter_ranges : list (Z * Z) := [(36, 64); (100, 144); (149, 165)].

(** For an iterator that is not NULL: its value after the call, and success. *)
Definition wf_chanspec_iter_init `{Build} (band' bw' : Z) : wf_chanspec_iter_t * bool :=
  let it := mk_iter WF_ITER_DONE INVCHANSPEC 0 0 (0, 0) 0 in
  if negb ((band' =? WL_CHANSPEC_BAND_2G) || (band' =? WL_CHANSPEC_BAND_5G) || (band' =? WL_CHANSPEC_BAND_6G)) then (it, false)
  else if negb ((bw' =? INVCHANSPEC) || (bw' =? WL_CHANSPEC_BW_20) || (bw' =? WL_CHANSPEC_BW_40)
                || (negb (band' =? WL_CHANSPEC_BAND_2G)
                    && ((bw' =? WL_CHANSPEC_BW_80) || (bw' =? WL_CHANSPEC_BW_160)
                        || WFC_BW_EQ bw' WL_CHANSPEC_BW_240 || WFC_BW_EQ bw' WL_CHANSPEC_BW_320))) then (it, false)
  else (mk_iter WF_ITER_INIT INVCHANSPEC band' bw' (0, 0) RANGE_ID_INVAL, true).

(** Whether there is another range in the bandwidth. *)
Definition wf_chanspec_iter_next_5g_range `{Build} (bw' : Z) (it : wf_chanspec_iter_t) : wf_chanspec_iter_t * bool :=
  let id := if range_id it =? RANGE_ID_INVAL then 0 else u8 (range_id it + 1) in
  if bw' =? WL_CHANSPEC_BW_20 then
    match wf_5g_iter_ranges !! Z.to_nat id with Some r => (set_range r id it, true) | None => (it, false) end
  else
    let channels := if bw' =? WL_CHANSPEC_BW_40 then wf_5g_40m_chans
                    else if bw' =? WL_CHANSPEC_BW_80 then wf_5g_80m_chans
                    else if bw' =? WL_CHANSPEC_BW_160 then wf_5g_160m_chans else [] in
    match channels !! Z.to_nat id with
    | Some ch =>
        let offset := center_chan_to_edge bw' in
        (set_range (u8 (ch - offset), u8 (ch + offset)) id it, true)
    | None => (it, false)
    end.

Definition wf_chanspec_iter_6g_range_init `{Build} (bw' : Z) (it : wf_chanspec_iter_t) : wf_chanspec_iter_t :=
  if (bw' =? WL_CHANSPEC_BW_20) || (bw' =? WL_CHANSPEC_BW_40) || (bw' =? WL_CHANSPEC_BW_80) || (bw' =? WL_CHANSPEC_BW_160)
     || WFC_BW_EQ bw' WL_CHANSPEC_BW_240 || WFC_BW_EQ bw' WL_CHANSPEC_BW_320
  then set_range (CH_MIN_6G_CHANNEL, CH_MAX_6G_CHANNEL) (range_id it) it else it.

Definition wf_chanspec_iter_firstchan `{Build} (it : wf_chanspec_iter_t) : wf_chanspec_iter_t :=
  let bw' := if bw it =? INVCHANSPEC then WL_CHANSPEC_BW_20 else bw it in
  if band it =? WL_CHANSPEC_BAND_2G then
    set_chanspec (if bw' =? WL_CHANSPEC_BW_20 then wf_create_20MHz_chspec CH_MIN_2G_CHANNEL (band it)
                  else u16 (Z.lor (Z.lor (Z.lor WL_CHANSPEC_BAND_2G bw') WL_CHANSPEC_CTL_SB_L) CH_MIN_2G_40M_CHANNEL)) it
  else
    let it := if band it =? WL_CHANSPEC_BAND_5G then fst (wf_chanspec_iter_next_5g_range bw' it)
              else wf_chanspec_iter_6g_range_init bw' it in
    set_chanspec (wf_create_chspec_from_primary (fst (range it)) bw' (band it)) it.

Definition wf_chanspec_iter_current (it : wf_chanspec_iter_t) : Z := chanspec it.

Definition wf_iter_next_bw `{Build} (bw' : Z) : Z :=
  if bw' =? WL_CHANSPEC_BW_20 then WL_CHANSPEC_BW_40
  else if bw' =? WL_CHANSPEC_BW_40 then WL_CHANSPEC_BW_80
  else if bw' =? WL_CHANSPEC_BW_80 then WL_CHANSPEC_BW_160
  else if WFC_BW_EQ bw' WL_CHANSPEC_BW_160 then WL_CHANSPEC_BW_240
  else if WFC_BW_EQ bw' WL_CHANSPEC_BW_240 then WL_CHANSPEC_BW_320
  else INVCHANSPEC.

Definition wf_chanspec_iter_next_2g `{Build} (it : wf_chanspec_iter_t) : wf_chanspec_iter_t * bool :=
  let ch := CHSPEC_CHANNEL (chanspec it) in
  let done := (set_chanspec INVCHANSPEC (set_state WF_ITER_DONE it), false) in
  let go c := (set_chanspec c it, negb (c =? INVCHANSPEC)) in
  if CHSPEC_IS20 (chanspec it) then
    if ch <? CH_MAX_2G_CHANNEL then go (wf_create_20MHz_chspec (u8 (ch + 1)) WL_CHANSPEC_BAND_2G)
    else if bw it =? INVCHANSPEC then
      let ch := CH_MIN_2G_40M_CHANNEL in go (wf_create_40MHz_chspec (LOWER_20_SB ch) ch WL_CHANSPEC_BAND_2G)
    else done
  else if CHSPEC_SB_LOWER (chanspec it) then go (wf_create_40MHz_chspec (UPPER_20_SB ch) ch WL_CHANSPEC_BAND_2G)
  else if ch <? CH_MAX_2G_40M_CHANNEL then
    let ch := u8 (ch + 1) in go (wf_create_40MHz_chspec (LOWER_20_SB ch) ch WL_CHANSPEC_BAND_2G)
  else done.

(** The end of the 5g and 6g steps. *)
Definition iter_store (c : Z) (it : wf_chanspec_iter_t) : wf_chanspec_iter_t * bool :=
  let it := set_chanspec c it in
  if negb (c =? INVCHANSPEC) then (it, true) else (set_state WF_ITER_DONE it, false).

Definition wf_chanspec_iter_next_5g `{Build} (it : wf_chanspec_iter_t) : wf_chanspec_iter_t * bool :=
  let bw' := CHSPEC_BW (chanspec it) in
  let ch := wf_chspec_primary20_chan (chanspec it) in
  let create it ch bw' :=
    iter_store (if negb (chanspec it =? INVCHANSPEC) then wf_create_chspec_from_primary ch bw' WL_CHANSPEC_BAND_5G else chanspec it) it in
  if ch <? snd (range it) then create it (u8 (ch + CH_20MHZ_APART)) bw'
  else
    let '(it, more) := wf_chanspec_iter_next_5g_range bw' it in
    if (more : bool) then create it (fst (range it)) bw'
    else if bw it =? INVCHANSPEC then
      let bw' := wf_iter_next_bw bw' in
      if negb (bw' =? INVCHANSPEC) then
        let it := fst (wf_chanspec_iter_next_5g_range bw' (set_range (range it) RANGE_ID_INVAL it)) in
        create it (fst (range it)) bw'
      else iter_store INVCHANSPEC it
    else iter_store INVCHANSPEC it.

Definition wf_chanspec_iter_next_6g `{Build} (it : wf_chanspec_iter_t) : wf_chanspec_iter_t * bool :=
  let bw' := CHSPEC_BW (chanspec it) in
  let ch := wf_chspec_primary20_chan (chanspec it) in
  let c := if ch <? snd (range it) then wf_create_chspec_from_primary (u8 (ch + CH_20MHZ_APART)) bw' WL_CHANSPEC_BAND_6G
           else INVCHANSPEC in
  let next := wf_iter_next_bw bw' in
  iter_store
    (if (c =? INVCHANSPEC) && (bw it =? INVCHANSPEC) && negb (next =? INVCHANSPEC)
     then wf_create_chspec_from_primary (fst (range it)) next WL_CHANSPEC_BAND_6G else c) it.

(** The iterator after the call, and whether there was another chanspec, which
    [*chspec] then is (it is [chanspec] of the iterator in any case). *)
Definition wf_chanspec_iter_next `{Build} (it : wf_chanspec_iter_t) : wf_chanspec_iter_t * bool :=
  match state it with
  | WF_ITER_INIT => (wf_chanspec_iter_firstchan (set_state WF_ITER_RUN it), true)
  | WF_ITER_DONE => (it, false)
  | WF_ITER_RUN =>
      if band it =? WL_CHANSPEC_BAND_2G then wf_chanspec_iter_next_2g it
      else if band it =? WL_CHANSPEC_BAND_5G then wf_chanspec_iter_next_5g it
      else if band it =? WL_CHANSPEC_BAND_6G then wf_chanspec_iter_next_6g it
      else (it, false)
  end.

(** * bcmwifi_channels.c: the iterator over channel specifications (properties)

    The loop of the header's example, and what it visits. *)

(** [while (wf_chanspec_iter_next(&iter, &chanspec)) ...]: the chanspecs visited,
    and the iterator after the loop. *)
Fixpoint iter_loop (fuel : nat) (it : wf_chanspec_iter_t) : option (list Z * wf_chanspec_iter_t) :=
  match fuel with
  | O => None
  | S fuel =>
      let '(it, ok) := wf_chanspec_iter_next it in
      if (ok : bool) then '(l, e) ← iter_loop fuel it; Some (chanspec it :: l, e) else Some ([], it)
  end.

(** Valid channels the iterator does not visit: channel 2 of the 6 GHz band, and
    34, 38, 42, 46, 169, 173 and 177 of the 5 GHz band. *)
Definition skipped : list Z :=
  word WL_CHANSPEC_BAND_6G WL_CHANSPEC_BW_20 0 2 :: map (word WL_CHANSPEC_BAND_5G WL_CHANSPEC_BW_20 0) [34; 38; 42; 46; 169; 173; 177].

(** The chanspecs of a band, of one width or of all. *)
Definition wanted (band bw c : Z) : bool :=
  (CHSPEC_BAND c =? band) && ((bw =? INVCHANSPEC) || (CHSPEC_BW c =? bw)) && negb (existsb (Z.eqb c) skipped).

Definition visits (band bw : Z) : bool :=
  match iter_loop 300 (wf_chanspec_iter_init band bw).1 with
  | Some (l, it) =>
      bool_decide (NoDup l) && forallb (λ c, existsb (Z.eqb c) valid_chspecs && wanted band bw c) l
      && forallb (λ c, negb (wanted band bw c) || existsb (Z.eqb c) l) valid_chspecs
      && (chanspec it =? INVCHANSPEC) && match state it with WF_ITER_DONE => true | _ => false end
  | None => false
  end.

Definition accepted (band bw : Z) : bool := (wf_chanspec_iter_init band bw).2.

Lemma accepted_params band bw : accepted band bw = true -> band ∈ bands ∧ bw ∈ INVCHANSPEC :: widths.
Proof.
  unfold accepted, wf_chanspec_iter_init, bands, widths.
  destruct (Z.eqb_spec band WL_CHANSPEC_BAND_2G), (Z.eqb_spec band WL_CHANSPEC_BAND_5G), (Z.eqb_spec band WL_CHANSPEC_BAND_6G);
    cbn [orb negb andb WFC_BW_EQ WL11BE board_build]; try done;
    rewrite !elem_of_cons; destruct (Z.eqb_spec bw INVCHANSPEC), (Z.eqb_spec bw WL_CHANSPEC_BW_20), (Z.eqb_spec bw WL_CHANSPEC_BW_40),
      (Z.eqb_spec bw WL_CHANSPEC_BW_80), (Z.eqb_spec bw WL_CHANSPEC_BW_160); cbn [orb negb andb snd]; try done; tauto.
Qed.

Lemma visits_check band bw : accepted band bw = true -> visits band bw = true.
Proof.
  intros H. destruct (accepted_params band bw H) as [Hb Hw].
  assert (forallb (λ band, forallb (λ bw, negb (accepted band bw) || visits band bw) (INVCHANSPEC :: widths)) bands = true) as Hall
    by (vm_compute; reflexivity).
  rewrite forallb_forall in Hall. specialize (Hall band (proj1 (list_elem_of_In _ _) Hb)).
  rewrite forallb_forall in Hall. specialize (Hall bw (proj1 (list_elem_of_In _ _) Hw)). by rewrite H in Hall.
Qed.

(** For the bands and widths that wf_chanspec_iter_init accepts, the loop ends
    after visiting, once each, the valid chanspecs of the band and width (of the
    band, when no width is given) but eight that the tables of the iterator
    leave out; the iterator then stays at its end.  Without acceptance the loop
    visits nothing. *)
Theorem wf_chanspec_iter_visits (band bw : Z) :
  let (it, ok) := wf_chanspec_iter_init band bw in
  ∃ l e, iter_loop 300 it = Some (l, e) ∧ wf_chanspec_iter_next e = (e, false) ∧ chanspec e = INVCHANSPEC
    ∧ NoDup l
    ∧ ∀ c, c ∈ l <-> ok = true ∧ c ∈ valid_chspecs ∧ CHSPEC_BAND c = band ∧ (bw = INVCHANSPEC ∨ CHSPEC_BW c = bw) ∧ c ∉ skipped.
Proof.
  destruct (accepted band bw) eqn:Ha.
  - pose proof (visits_check band bw Ha) as H. unfold visits in H. unfold accepted in Ha.
    destruct (wf_chanspec_iter_init band bw) as [it ok]. cbn [fst snd] in *. subst ok.
    destruct (iter_loop 300 it) as [[l e]|]; [|done]. exists l, e.
    rewrite !andb_true_iff, bool_decide_eq_true, Z.eqb_eq in H. destruct H as [[[[Hnd Hin] Hall] Hc] Hst].
    split; [done|]. split; [|split; [done|split; [done|]]].
    { unfold wf_chanspec_iter_next. by destruct (state e). }
    assert (∀ l c, existsb (Z.eqb c) l = true <-> c ∈ l) as Hex.
    { intros k c. rewrite existsb_exists, list_elem_of_In. split; [intros (x & Hx & <-%Z.eqb_eq); done|].
      intros Hx. exists c. by rewrite Z.eqb_refl. }
    assert (∀ c, wanted band bw c = true <-> CHSPEC_BAND c = band ∧ (bw = INVCHANSPEC ∨ CHSPEC_BW c = bw) ∧ c ∉ skipped) as Hw.
    { intros c. unfold wanted. rewrite !andb_true_iff, orb_true_iff, !Z.eqb_eq, negb_true_iff, <-not_true_iff_false, Hex. tauto. }
    intros c. rewrite <-Hw. split.
    + intros Hcl. apply list_elem_of_In in Hcl. apply (proj1 (forallb_forall _ _) Hin) in Hcl.
      apply andb_true_iff in Hcl as [?%Hex ?]. done.
    + intros (_ & Hv & Hwc). apply list_elem_of_In in Hv. apply (proj1 (forallb_forall _ _) Hall) in Hv.
      rewrite Hwc in Hv. by apply Hex in Hv.
  - unfold accepted in Ha. destruct (wf_chanspec_iter_init band bw) as [it ok] eqn:E. cbn [snd] in Ha. subst ok.
    exists [], it. unfold wf_chanspec_iter_init in E.
    destruct (negb _); [|destruct (negb _)]; injection E as <-; try done;
      (split; [done|]); (split; [done|]); (split; [done|]); (split; [apply NoDup_nil_2|]);
      intros c; (split; [intros H; by apply elem_of_nil in H|by intros []]).
Qed.

(** The header says that after the initialization the current chanspec is the
    first of the set. *)
Example iter_init_current : wf_chanspec_iter_current (wf_chanspec_iter_init WL_CHANSPEC_BAND_2G INVCHANSPEC).1 = INVCHANSPEC.
Proof. reflexivity. Qed.
