(* ===== verification/Tlv.v ===== *)
(** * bcmutils.c: type/length/value buffers (model)

    An element is its address: [elt->id] is the byte there, [elt->len] the next
    one, [elt->data] the address plus 2.  A buffer that the routine updates
    through pointers ([const uint8 **buffer, uint *buflen]) is returned.  The
    __COVERITY__ blocks are not compiled and the COV_ macros are empty. *)

From S2P Require Import Prelude Mem.

Definition BCM_TLV_HDR_SIZE : Z := 2.
Definition TLV_HDR_LEN : Z := 2.
Definition BCM_TLV_MAX_DATA_SIZE : Z := 255.
Definition BCM_TLV_EXT_HDR_SIZE : Z := 3.
Definition BCM_TLV_EXT_MAX_DATA_SIZE : Z := 254.
Definition DOT11_MNG_ID_EXT_ID : Z := 255.
Definition DOT11_MNG_VS_ID : Z := 221.
Definition DOT11_OUI_LEN : Z := 3.

Definition tlv_id (m : mem) (elt : Z) : option Z := rd8 m elt.
Definition tlv_len (m : mem) (elt : Z) : option Z := rd8 m (elt + 1).
Definition tlv_data (elt : Z) : Z := elt + 2.

(** [BCM_TLV_SIZE(_tlv)] *)
Definition BCM_TLV_SIZE (m : mem) (tlv : option Z) : option Z :=
  match tlv with
  | Some e => l ← tlv_len m e; Some (BCM_TLV_HDR_SIZE + l)
  | None => Some 0
  end.

(** [bcm_valid_tlv(elt, buflen)], evaluated left to right. *)
Definition bcm_valid_tlv (m : mem) (elt : option Z) (buflen : Z) : option bool :=
  match elt with
  | None => Some false
  | Some e =>
      if bool_decide (BCM_TLV_HDR_SIZE <= buflen)
      then l ← tlv_len m e; Some (bool_decide (BCM_TLV_HDR_SIZE + l <= buflen))
      else Some false
  end.

(** ** Writing *)

Definition bcm_write_tlv (m : mem) (type : Z) (data : option Z) (datalen : Z) (dst : option Z)
    : option (option Z * mem) :=
  match dst with
  | Some d =>
      if bool_decide (datalen <= BCM_TLV_MAX_DATA_SIZE)
         && (negb (bool_decide (data = None)) || bool_decide (datalen = 0)) then
        m ← wr8 m d type;
        m ← wr8 m (d + 1) datalen;
        m ← (if bool_decide (0 < datalen)
             then s ← data; memcpy m (tlv_data d) s datalen else Some m);
        Some (Some (d + BCM_TLV_HDR_SIZE + datalen), m)
      else Some (dst, m)
  | None => Some (None, m)
  end.

Definition bcm_write_tlv_ext (m : mem) (type ext : Z) (data : option Z) (datalen : Z) (dst : option Z)
    : option (option Z * mem) :=
  match dst with
  | Some d =>
      if bool_decide (datalen <= BCM_TLV_EXT_MAX_DATA_SIZE)
         && (negb (bool_decide (data = None)) || bool_decide (datalen = 0)) then
        m ← wr8 m d type;
        m ← wr8 m (d + 2) ext;
        m ← wr8 m (d + 1) (1 + u8 datalen);
        m ← (if bool_decide (0 < datalen)
             then s ← data; memcpy m (d + BCM_TLV_EXT_HDR_SIZE) s datalen else Some m);
        Some (Some (d + BCM_TLV_EXT_HDR_SIZE + datalen), m)
      else Some (dst, m)
  | None => Some (None, m)
  end.

Definition bcm_write_tlv_safe (m : mem) (type : Z) (data : option Z) (datalen : Z) (dst : option Z)
    (dst_maxlen : Z) : option (option Z * mem) :=
  if bool_decide (datalen <= BCM_TLV_MAX_DATA_SIZE) && bool_decide (datalen + BCM_TLV_HDR_SIZE <= dst_maxlen)
  then bcm_write_tlv m type data datalen dst
  else Some (dst, m).

Definition bcm_copy_tlv (m : mem) (src dst : option Z) : option (option Z * mem) :=
  match dst, src with
  | Some d, Some s =>
      l ← tlv_len m s;
      let totlen := BCM_TLV_HDR_SIZE + l in
      m ← memcpy m d s totlen;
      Some (Some (d + totlen), m)
  | _, _ => Some (dst, m)
  end.

Definition bcm_copy_tlv_safe (m : mem) (src dst : option Z) (dst_maxlen : Z) : option (option Z * mem) :=
  v ← bcm_valid_tlv m src dst_maxlen;
  if (v : bool) then bcm_copy_tlv m src dst else Some (dst, m).

(** ** Walking *)

(** Returns the next element and the new [*buflen]. *)
Definition bcm_next_tlv (m : mem) (elt : option Z) (buflen : Z) : option (option Z * Z) :=
  v ← bcm_valid_tlv m elt buflen;
  match elt with
  | Some e =>
      if (v : bool) then
        l ← tlv_len m e;
        let len := TLV_HDR_LEN + l in
        let e := e + len in
        let buflen := buflen - len in
        v ← bcm_valid_tlv m (Some e) buflen;
        Some (if (v : bool) then Some e else None, buflen)
      else Some (None, buflen)
  | None => Some (None, buflen)
  end.

(** [(uintptr)*buffer < ((uintptr)*buffer + *buflen)]: the 64-bit sum does not
    wrap, and the buffer is not empty. *)
Definition bcm_tlv_buffer_advance_to (m : mem) (elt : option Z) (buffer : option Z) (buflen : Z)
    : option (option Z * Z) :=
  match buffer, elt with
  | Some b, Some e =>
      if bool_decide (b < u64 (b + buflen)) && bool_decide (b <= e) && bool_decide (e < b + buflen) then
        let new_buflen := buflen - (e - b) in
        v ← bcm_valid_tlv m elt new_buflen;
        Some (if (v : bool) then (elt, new_buflen) else (None, 0))
      else Some (None, 0)
  | _, _ => Some (None, 0)
  end.

Definition bcm_tlv_buffer_advance_past (m : mem) (elt : option Z) (buffer : option Z) (buflen : Z)
    : option (option Z * Z) :=
  '(buffer, buflen) ← bcm_tlv_buffer_advance_to m elt buffer buflen;
  if bool_decide (buflen = 0) then Some (buffer, buflen)
  else
    e ← elt;
    l ← tlv_len m e;
    bcm_tlv_buffer_advance_to m (Some (tlv_data e + l)) buffer buflen.

(** ** Searching

    Each pass of a search loop takes at least TLV_HDR_LEN bytes off [totlen],
    so [totlen] steps are enough. *)

Fixpoint parse_loop (fuel : nat) (m : mem) (elt totlen key : Z) : option (option Z) :=
  match fuel with
  | O => None
  | S fuel =>
      if bool_decide (TLV_HDR_LEN <= totlen) then
        len ← tlv_len m elt;
        if bool_decide (totlen < len + TLV_HDR_LEN) then Some None
        else
          id ← tlv_id m elt;
          hit ← (if bool_decide (id = key) then Some true
                 else if bool_decide (id = DOT11_MNG_ID_EXT_ID) && bool_decide (0 < len)
                 then x ← rd8 m (tlv_data elt); Some (bool_decide (x + DOT11_MNG_ID_EXT_ID = key))
                 else Some false);
          if (hit : bool) then Some (Some elt)
          else parse_loop fuel m (elt + (len + TLV_HDR_LEN)) (totlen - (len + TLV_HDR_LEN)) key
      else Some None
  end.

Definition bcm_parse_tlvs (m : mem) (buf : option Z) (buflen key : Z) : option (option Z) :=
  match buf with
  | None => Some None
  | Some b => parse_loop (S (Z.to_nat buflen)) m b buflen key
  end.

Inductive bcm_tlv_advance_mode :=
  | BCM_TLV_ADVANCE_NONE
  | BCM_TLV_ADVANCE_TO
  | BCM_TLV_ADVANCE_PAST.

(** Returns the element and the new [*buf], [*buflen]. *)
Definition bcm_parse_tlvs_advance (m : mem) (buf : option Z) (buflen key : Z)
    (advance : bcm_tlv_advance_mode) : option (option Z * option Z * Z) :=
  elt ← bcm_parse_tlvs m buf buflen key;
  match elt with
  | None => Some (None, buf, buflen)
  | Some e =>
      '(buf, buflen) ← (match advance with
                        | BCM_TLV_ADVANCE_TO => bcm_tlv_buffer_advance_to m elt buf buflen
                        | BCM_TLV_ADVANCE_PAST => bcm_tlv_buffer_advance_past m elt buf buflen
                        | BCM_TLV_ADVANCE_NONE => Some (buf, buflen)
                        end);
      Some (elt, buf, buflen)
  end.

(** [DOT11_MNG_IE_ID_EXT_MATCH(elt, key)] *)
Definition DOT11_MNG_IE_ID_EXT_MATCH (m : mem) (elt key : Z) : option bool :=
  id ← tlv_id m elt;
  if bool_decide (id = DOT11_MNG_ID_EXT_ID) then
    len ← tlv_len m elt;
    if bool_decide (0 < len) then x ← rd8 m (elt + TLV_HDR_LEN); Some (bool_decide (key = x))
    else Some false
  else Some false.

Fixpoint parse_dot11_loop (fuel : nat) (m : mem) (elt totlen key : Z) (id_ext : bool) : option (option Z) :=
  match fuel with
  | O => None
  | S fuel =>
      if bool_decide (TLV_HDR_LEN <= totlen) then
        len ← tlv_len m elt;
        if bool_decide (totlen < len + TLV_HDR_LEN) then Some None
        else
          hit ← (if id_ext then DOT11_MNG_IE_ID_EXT_MATCH m elt key
                 else id ← tlv_id m elt; Some (bool_decide (id = key)));
          if (hit : bool) then Some (Some elt)
          else parse_dot11_loop fuel m (elt + (len + TLV_HDR_LEN)) (totlen - (len + TLV_HDR_LEN)) key id_ext
      else Some None
  end.

(** A NULL [buf] is dereferenced as soon as [buflen] allows an element. *)
Definition bcm_parse_tlvs_dot11 (m : mem) (buf : option Z) (buflen key : Z) (id_ext : bool)
    : option (option Z) :=
  match buf with
  | None => if bool_decide (TLV_HDR_LEN <= buflen) then None else Some None
  | Some b => parse_dot11_loop (S (Z.to_nat buflen)) m b buflen key id_ext
  end.

Definition bcm_parse_tlvs_min_bodylen (m : mem) (buf : option Z) (buflen key min_bodylen : Z)
    : option (option Z) :=
  ret ← bcm_parse_tlvs m buf buflen key;
  match ret with
  | None => Some None
  | Some e => l ← tlv_len m e; Some (if bool_decide (l < min_bodylen) then None else ret)
  end.

Definition bcm_parse_tlvs_minmax_len (m : mem) (buf : option Z) (buflen key min_len max_len : Z)
    : option (option Z) :=
  ret ← bcm_parse_tlvs m buf buflen key;
  match ret with
  | None => Some None
  | Some e =>
      sz ← BCM_TLV_SIZE m ret;
      Some (if bool_decide (max_len < sz) || bool_decide (sz < min_len) then None else ret)
  end.

Fixpoint parse_ordered_loop (fuel : nat) (m : mem) (elt totlen key : Z) : option (option Z) :=
  match fuel with
  | O => None
  | S fuel =>
      if bool_decide (TLV_HDR_LEN <= totlen) then
        id ← tlv_id m elt;
        len ← tlv_len m elt;
        if bool_decide (key < id) then Some None
        else if bool_decide (totlen < len + TLV_HDR_LEN) then Some None
        else if bool_decide (id = key) then Some (Some elt)
        else parse_ordered_loop fuel m (elt + (len + TLV_HDR_LEN)) (totlen - (len + TLV_HDR_LEN)) key
      else Some None
  end.

Definition bcm_parse_ordered_tlvs (m : mem) (buf : option Z) (buflen key : Z) : option (option Z) :=
  match buf with
  | None => if bool_decide (TLV_HDR_LEN <= buflen) then None else Some None
  | Some b => parse_ordered_loop (S (Z.to_nat buflen)) m b buflen key
  end.

(** Returns [*buffer] and the 8-bit [*buflen]. *)
Definition bcm_tlv_sub_buffer (m : mem) (elt body_offset : Z) : option (option Z * Z) :=
  len ← tlv_len m elt;
  Some (if bool_decide (body_offset < len)
        then (Some (tlv_data elt + body_offset), u8 (len - body_offset))
        else (None, 0)).

(** [while ((ie = bcm_parse_tlvs_advance(&tlvs, &tlvs_len, tag, ADVANCE_TO)))]:
    each pass moves [tlvs] past an element or sets [tlvs_len] to 0. *)
Fixpoint find_ie_loop (fuel : nat) (m : mem) (tlvs : option Z) (tlvs_len tag oui_len oui type : Z)
    : option (option Z) :=
  match fuel with
  | O => None
  | S fuel =>
      '(ie, tlvs, tlvs_len) ← bcm_parse_tlvs_advance m tlvs tlvs_len tag BCM_TLV_ADVANCE_TO;
      match ie with
      | None => Some None
      | Some e =>
          len ← tlv_len m e;
          hit ← (if bool_decide (oui_len < len) then
                   same ← bcmp0 m (tlv_data e) oui (Z.to_nat oui_len);
                   if (same : bool)
                   then x ← rd8 m (tlv_data e + oui_len); Some (bool_decide (x = type))
                   else Some false
                 else Some false);
          if (hit : bool) then Some ie
          else
            '(tlvs, tlvs_len) ← bcm_tlv_buffer_advance_past m ie tlvs tlvs_len;
            find_ie_loop fuel m tlvs tlvs_len tag oui_len oui type
      end
  end.

Definition bcm_find_ie (m : mem) (tlvs : option Z) (tlvs_len tag oui_len oui type : Z) : option (option Z) :=
  find_ie_loop (S (Z.to_nat tlvs_len)) m tlvs tlvs_len tag oui_len oui type.

(** [do { ... } while ((ie = bcm_next_tlv(ie, &tlvs_len)) != NULL);] *)
Fixpoint find_vendor_loop (fuel : nat) (m : mem) (ie tlvs_len voui type type_len : Z) : option (option Z) :=
  match fuel with
  | O => None
  | S fuel =>
      ie_len ← tlv_len m ie;
      id ← tlv_id m ie;
      hit ← (if bool_decide (id = DOT11_MNG_VS_ID) && bool_decide (DOT11_OUI_LEN + type_len <= ie_len) then
               same ← bcmp0 m (tlv_data ie) voui (Z.to_nat DOT11_OUI_LEN);
               if (same : bool) then
                 if bool_decide (type_len = 0) then Some true
                 else bcmp0 m (tlv_data ie + DOT11_OUI_LEN) type (Z.to_nat type_len)
               else Some false
             else Some false);
      if (hit : bool) then Some (Some ie)
      else
        '(nx, tlvs_len) ← bcm_next_tlv m (Some ie) tlvs_len;
        match nx with
        | None => Some None
        | Some ie => find_vendor_loop fuel m ie tlvs_len voui type type_len
        end
  end.

Definition bcm_find_vendor_ie (m : mem) (tlvs : option Z) (tlvs_len voui type type_len : Z)
    : option (option Z) :=
  v ← bcm_valid_tlv m tlvs tlvs_len;
  match tlvs with
  | Some ie => if (v : bool) then find_vendor_loop (S (Z.to_nat tlvs_len)) m ie tlvs_len voui type type_len
               else Some None
  | None => Some None
  end.
