(* ===== verification/TlvTheorems.v ===== *)
(** * bcmutils.c: type/length/value buffers (properties)

    [layout m b n ts rest]: the [n] bytes at [b] are the encodings of the
    elements [ts] followed by [rest], a tail too short for the element it
    starts.  Every buffer has such a layout ([layout_exists]); the search,
    walk and write routines are specified against it. *)

From Stdlib Require Import Sorting.Sorted.
From S2P Require Import Prelude Mem Tlv.

Record tlv := { t_id : Z; t_data : list Z }.

Definition t_len (t : tlv) : Z := Z.of_nat (length (t_data t)).
Definition t_size (t : tlv) : Z := 2 + t_len t.
Definition enc (t : tlv) : list Z := t_id t :: t_len t :: t_data t.
Definition encs (ts : list tlv) : list Z := concat (enc <$> ts).

(** [rest] does not hold a whole element. *)
Definition incomplete (rest : list Z) : Prop :=
  match rest with
  | _ :: l :: r => Z.of_nat (length r) < l
  | _ => True
  end.

Definition layout (m : mem) (b n : Z) (ts : list tlv) (rest : list Z) : Prop :=
  readable m b n = true ∧ slice m b (Z.to_nat n) = encs ts ++ rest ∧ incomplete rest.

(** The address of the first element of [ts], laid out at [b], that [P] takes. *)
Fixpoint first_at (b : Z) (ts : list tlv) (P : tlv -> bool) : option Z :=
  match ts with
  | [] => None
  | t :: ts => if P t then Some b else first_at (b + t_size t) ts P
  end.

(** [key] is an id, or 255 plus an extended id. *)
Definition has_key (key : Z) (t : tlv) : bool :=
  bool_decide (t_id t = key)
  || bool_decide (t_id t = 255) && match t_data t with x :: _ => bool_decide (x + 255 = key) | [] => false end.

Definition has_id (key : Z) (t : tlv) : bool := bool_decide (t_id t = key).

Definition has_ext (key : Z) (t : tlv) : bool :=
  bool_decide (t_id t = 255) && match t_data t with x :: _ => bool_decide (key = x) | [] => false end.

(** ** Layouts *)

Lemma length_enc t : length (enc t) = Z.to_nat (t_size t).
Proof. unfold t_size, t_len, enc. simpl. lia. Qed.

Lemma encs_cons t ts : encs (t :: ts) = enc t ++ encs ts.
Proof. done. Qed.

Lemma encs_app ts1 ts2 : encs (ts1 ++ ts2) = encs ts1 ++ encs ts2.
Proof. unfold encs. by rewrite fmap_app, concat_app. Qed.

Lemma t_len_nonneg t : 0 <= t_len t.
Proof. unfold t_len. lia. Qed.

Lemma layout_nonneg m b n ts rest : layout m b n ts rest -> 0 <= b ∧ 0 <= n ∧ b + n <= Z.of_nat (length m).
Proof. intros (H & _). by apply readable_spec. Qed.

Lemma layout_cons m b n t ts rest :
  layout m b n (t :: ts) rest ->
  tlv_id m b = Some (t_id t) ∧ tlv_len m b = Some (t_len t) ∧ t_size t <= n
  ∧ readable m (b + 2) (t_len t) = true ∧ slice m (b + 2) (Z.to_nat (t_len t)) = t_data t
  ∧ layout m (b + t_size t) (n - t_size t) ts rest.
Proof.
  intros (Hr & Hs & Hi). rewrite encs_cons, <-app_assoc in Hs.
  split. { replace b with (b + Z.of_nat 0) by lia. by apply (rd8_area m b n _ 0 _ Hr Hs). }
  split. { by apply (rd8_area m b n _ 1 _ Hr Hs). }
  pose proof (area_tail _ _ _ _ _ Hr Hs) as (Hk & Hr' & Hs').
  rewrite length_enc, Z2Nat.id in Hk, Hr', Hs' by (unfold t_size, t_len; lia).
  pose proof (proj1 (readable_spec _ _ _) Hr) as Hb.
  pose proof (t_len_nonneg t).
  split; [done|].
  pose proof (area_tail _ _ _ [t_id t; t_len t] _ Hr Hs) as (Hk2 & Hr2 & Hs2). simpl in Hk2, Hr2, Hs2.
  split. { apply readable_spec in Hr2. apply readable_spec. unfold t_size in Hk. lia. }
  split. { unfold t_len at 1. rewrite Nat2Z.id. by apply (area_head _ _ _ _ _ Hr2 Hs2). }
  done.
Qed.

Lemma layout_nil m b n rest :
  layout m b n [] rest ->
  n < 2 ∨ 2 <= n ∧ ∃ id l, tlv_id m b = Some id ∧ tlv_len m b = Some l ∧ n < l + 2.
Proof.
  intros (Hr & Hs & Hi). destruct (decide (n < 2)); [by left|right]. split; [lia|].
  pose proof (proj1 (readable_spec _ _ _) Hr) as Hb.
  assert (length (slice m b (Z.to_nat n)) = Z.to_nat n) as Hl by (apply length_slice, readable_spec; lia).
  rewrite Hs in Hl. simpl in Hs, Hl. destruct rest as [|x [|l r]]; simpl in Hl; [lia|lia|].
  exists x, l. split. { replace b with (b + Z.of_nat 0) by lia. by apply (rd8_area m b n _ 0 _ Hr Hs). }
  split. { by apply (rd8_area m b n _ 1 _ Hr Hs). }
  simpl in Hi. lia.
Qed.

(** A list of bytes splits into whole elements and an incomplete tail. *)
Lemma split_exists k (l : list Z) :
  (length l <= k)%nat -> bytes_ok l -> ∃ ts rest, l = encs ts ++ rest ∧ incomplete rest.
Proof.
  revert l. induction k as [|k IH]; intros l Hk Hl.
  { exists [], []. destruct l; [done|simpl in Hk; lia]. }
  destruct l as [|x [|n r]]; [by exists [], []|by exists [], [x]|].
  destruct (decide (Z.of_nat (length r) < n)) as [Hn|Hn]; [by exists [], (x :: n :: r)|].
  apply Forall_cons in Hl as [Hx Hl]. apply Forall_cons in Hl as [Hn' Hr]. simpl in Hk.
  destruct (IH (drop (Z.to_nat n) r)) as (ts & rest & Hd & Hi).
  { rewrite length_drop. lia. } { by apply Forall_drop. }
  exists ({| t_id := x; t_data := take (Z.to_nat n) r |} :: ts), rest. split; [|done].
  rewrite encs_cons, <-app_assoc, <-Hd. unfold enc, t_len. simpl.
  rewrite length_take, Nat.min_l, Z2Nat.id, take_drop by lia. done.
Qed.

Lemma layout_exists m b n :
  bytes_ok m -> readable m b n = true -> ∃ ts rest, layout m b n ts rest.
Proof.
  intros Hm Hr. destruct (split_exists _ (slice m b (Z.to_nat n)) (le_n _)) as (ts & rest & Hs & Hi).
  - apply Forall_take, Forall_drop, Hm.
  - by exists ts, rest.
Qed.

(** ** Searching *)

(** A layout gives enough fuel for a loop that takes two bytes at least. *)
Lemma layout_fuel m b n t ts rest fuel :
  layout m b n (t :: ts) rest -> (Z.to_nat n < S fuel)%nat -> (Z.to_nat (n - t_size t) < fuel)%nat.
Proof.
  intros Hl Hf. apply layout_cons in Hl as (_ & _ & Hs & _). pose proof (t_len_nonneg t).
  unfold t_size in *. lia.
Qed.

(** The first byte of an element's data. *)
Lemma first_data m b n t ts rest x l :
  layout m b n (t :: ts) rest -> t_data t = x :: l -> rd8 m (b + 2) = Some x.
Proof.
  intros Hl Hd. apply layout_cons in Hl as (_ & _ & _ & Hr & Hs & _). rewrite Hd in Hs.
  replace (b + 2) with (b + 2 + Z.of_nat 0) by lia. by apply (rd8_area _ _ _ _ 0 _ Hr Hs).
Qed.

(** The loops stop on a layout without elements. *)
Ltac stop_at_end Hl :=
  apply layout_nil in Hl as [Hn | (Hn & id & l & Hid & Hlen & Hsh)];
  [ by rewrite bool_decide_false by (unfold TLV_HDR_LEN; lia)
  | rewrite bool_decide_true by (unfold TLV_HDR_LEN; lia); rewrite ?Hid, ?Hlen; cbn [mbind option_bind] ].

Lemma parse_loop_first m key ts fuel b n rest :
  layout m b n ts rest -> (Z.to_nat n < fuel)%nat ->
  parse_loop fuel m b n key = Some (first_at b ts (has_key key)).
Proof.
  revert fuel b n. induction ts as [|t ts IH]; intros [|fuel] b n Hl Hf; try lia; simpl.
  - stop_at_end Hl. by rewrite bool_decide_true by (unfold TLV_HDR_LEN; lia).
  - pose proof (layout_cons _ _ _ _ _ _ Hl) as (Hid & Hlen & Hsz & Hr & Hs & Ht).
    pose proof (t_len_nonneg t). unfold t_size in *.
    rewrite bool_decide_true by (unfold TLV_HDR_LEN; lia). rewrite Hlen, Hid. cbn [mbind option_bind].
    rewrite bool_decide_false by (unfold TLV_HDR_LEN; lia).
    assert ((if bool_decide (t_id t = key) then Some true
             else if bool_decide (t_id t = DOT11_MNG_ID_EXT_ID) && bool_decide (0 < t_len t)
             then x ← rd8 m (tlv_data b); Some (bool_decide (x + DOT11_MNG_ID_EXT_ID = key))
             else Some false) = Some (has_key key t)) as ->.
    { unfold has_key. case_bool_decide; [done|]. simpl. unfold DOT11_MNG_ID_EXT_ID, t_len.
      case_bool_decide; simpl; [|done].
      destruct (t_data t) as [|x l] eqn:Hd; [done|].
      rewrite bool_decide_true by (simpl; lia).
      unfold tlv_data. by rewrite (first_data _ _ _ _ _ _ _ _ Hl Hd). }
    cbn [mbind option_bind]. destruct (has_key key t); [done|].
    rewrite (Z.add_comm (t_len t)). apply IH; [done|]. by apply (layout_fuel _ _ _ _ _ _ _ Hl).
Qed.

Lemma parse_dot11_loop_first m key id_ext ts fuel b n rest :
  layout m b n ts rest -> (Z.to_nat n < fuel)%nat ->
  parse_dot11_loop fuel m b n key id_ext
  = Some (first_at b ts (if id_ext then has_ext key else has_id key)).
Proof.
  revert fuel b n. induction ts as [|t ts IH]; intros [|fuel] b n Hl Hf; try lia; simpl.
  - stop_at_end Hl. by rewrite bool_decide_true by (unfold TLV_HDR_LEN; lia).
  - pose proof (layout_cons _ _ _ _ _ _ Hl) as (Hid & Hlen & Hsz & Hr & Hs & Ht).
    pose proof (t_len_nonneg t). unfold t_size in *.
    rewrite bool_decide_true by (unfold TLV_HDR_LEN; lia). rewrite Hlen, Hid. cbn [mbind option_bind].
    rewrite bool_decide_false by (unfold TLV_HDR_LEN; lia).
    assert ((if id_ext then DOT11_MNG_IE_ID_EXT_MATCH m b key else Some (bool_decide (t_id t = key)))
            = Some ((if id_ext then has_ext key else has_id key) t)) as ->.
    { destruct id_ext; [|done]. unfold DOT11_MNG_IE_ID_EXT_MATCH, has_ext. rewrite Hid, Hlen.
      cbn [mbind option_bind]. unfold DOT11_MNG_ID_EXT_ID, t_len. case_bool_decide; simpl; [|done].
      destruct (t_data t) as [|x l] eqn:Hd; [done|].
      rewrite bool_decide_true by (simpl; lia).
      unfold TLV_HDR_LEN. by rewrite (first_data _ _ _ _ _ _ _ _ Hl Hd). }
    cbn [mbind option_bind]. destruct ((if id_ext then _ else _) t); [done|].
    rewrite (Z.add_comm (t_len t)). apply IH; [done|]. by apply (layout_fuel _ _ _ _ _ _ _ Hl).
Qed.

(** The ordered search gives up at the first larger id. *)
Fixpoint up_to (key : Z) (ts : list tlv) : list tlv :=
  match ts with
  | [] => []
  | t :: ts => if bool_decide (key < t_id t) then [] else t :: up_to key ts
  end.

Lemma parse_ordered_loop_first m key ts fuel b n rest :
  layout m b n ts rest -> (Z.to_nat n < fuel)%nat ->
  parse_ordered_loop fuel m b n key = Some (first_at b (up_to key ts) (has_id key)).
Proof.
  revert fuel b n. induction ts as [|t ts IH]; intros [|fuel] b n Hl Hf; try lia; simpl.
  - stop_at_end Hl. case_bool_decide; [done|]. by rewrite bool_decide_true by (unfold TLV_HDR_LEN; lia).
  - pose proof (layout_cons _ _ _ _ _ _ Hl) as (Hid & Hlen & Hsz & Hr & Hs & Ht).
    pose proof (t_len_nonneg t). unfold t_size in *.
    rewrite bool_decide_true by (unfold TLV_HDR_LEN; lia). rewrite Hlen, Hid. cbn [mbind option_bind].
    case_bool_decide; [done|]. simpl. rewrite bool_decide_false by (unfold TLV_HDR_LEN; lia).
    unfold has_id at 1. case_bool_decide; [done|].
    rewrite (Z.add_comm (t_len t)). apply IH; [done|]. by apply (layout_fuel _ _ _ _ _ _ _ Hl).
Qed.

Lemma up_to_sorted key ts b :
  StronglySorted Z.le (t_id <$> ts) -> first_at b (up_to key ts) (has_id key) = first_at b ts (has_id key).
Proof.
  revert b. induction ts as [|t ts IH]; intros b Hs; [done|].
  simpl in Hs. apply StronglySorted_inv in Hs as [Hs Ht]. simpl. unfold has_id at 2.
  case_bool_decide as Hlt; simpl.
  - rewrite bool_decide_false by lia. clear IH Hs. generalize (b + t_size t). intros b'. symmetry. revert b'.
    induction ts as [|u ts IH]; intros b'; [done|]. simpl in Ht. apply Forall_cons in Ht as [Hu Ht]. simpl.
    unfold has_id at 1. rewrite bool_decide_false by lia. by apply IH.
  - unfold has_id at 1. case_bool_decide; [done|]. by apply IH.
Qed.

(** ** Advancing a buffer *)

Definition sizes (ts : list tlv) : Z := Z.of_nat (length (encs ts)).

Lemma sizes_cons t ts : sizes (t :: ts) = t_size t + sizes ts.
Proof. unfold sizes. rewrite encs_cons, length_app, length_enc. pose proof (t_len_nonneg t). unfold t_size. lia. Qed.

Lemma layout_skip m b n ts1 ts2 rest :
  layout m b n (ts1 ++ ts2) rest ->
  sizes ts1 <= n ∧ layout m (b + sizes ts1) (n - sizes ts1) ts2 rest.
Proof.
  intros (Hr & Hs & Hi). rewrite encs_app, <-app_assoc in Hs.
  destruct (area_tail _ _ _ _ _ Hr Hs) as (Hk & Hr' & Hs'). done.
Qed.

Lemma layout_valid m b n ts rest :
  layout m b n ts rest -> bcm_valid_tlv m (Some b) n = Some (match ts with [] => false | _ => true end).
Proof.
  intros Hl. unfold bcm_valid_tlv, BCM_TLV_HDR_SIZE. destruct ts as [|t ts].
  - apply layout_nil in Hl as [Hn|(Hn & id & l & _ & -> & Hsh)]; [by rewrite bool_decide_false by lia|].
    rewrite bool_decide_true by lia. cbn [mbind option_bind]. by rewrite bool_decide_false by lia.
  - apply layout_cons in Hl as (_ & Hlen & Hsz & _). pose proof (t_len_nonneg t). unfold t_size in Hsz.
    rewrite bool_decide_true by lia. rewrite Hlen. cbn [mbind option_bind]. by rewrite bool_decide_true by lia.
Qed.

(** Where [advance_to] leaves a buffer whose elements from [e] on are [ts]. *)
Definition advanced (e n : Z) (ts : list tlv) : option Z * Z :=
  match ts with [] => (None, 0) | _ => (Some e, n) end.

Lemma advance_to_layout m b n ts1 ts2 rest :
  layout m b n (ts1 ++ ts2) rest -> b + n < 18446744073709551616 ->
  bcm_tlv_buffer_advance_to m (Some (b + sizes ts1)) (Some b) n
  = Some (advanced (b + sizes ts1) (n - sizes ts1) ts2).
Proof.
  intros Hl Hn. pose proof (layout_nonneg _ _ _ _ _ Hl). destruct (layout_skip _ _ _ _ _ _ Hl) as [Hs Hl'].
  assert (0 <= sizes ts1) by (unfold sizes; lia).
  unfold bcm_tlv_buffer_advance_to, u64. rewrite Z.mod_small by lia.
  replace (n - (b + sizes ts1 - b)) with (n - sizes ts1) by lia.
  rewrite (layout_valid _ _ _ _ _ Hl'). cbn [mbind option_bind].
  destruct ts2 as [|t ts2]; [by destruct (_ && _)|].
  apply layout_cons in Hl' as (_ & _ & Hsz & _). pose proof (t_len_nonneg t). unfold t_size in Hsz.
  by rewrite !bool_decide_true by lia.
Qed.

Lemma advance_past_layout m b n ts1 t ts2 rest :
  layout m b n (ts1 ++ t :: ts2) rest -> b + n < 18446744073709551616 ->
  bcm_tlv_buffer_advance_past m (Some (b + sizes ts1)) (Some b) n
  = Some (advanced (b + sizes (ts1 ++ [t])) (n - sizes (ts1 ++ [t])) ts2).
Proof.
  intros Hl Hn. unfold bcm_tlv_buffer_advance_past.
  rewrite (advance_to_layout _ _ _ _ _ _ Hl Hn). cbn [advanced mbind option_bind].
  pose proof (layout_nonneg _ _ _ _ _ Hl). destruct (layout_skip _ _ _ _ _ _ Hl) as [Hs Hl'].
  pose proof (layout_cons _ _ _ _ _ _ Hl') as (_ & Hlen & Hsz & _). pose proof (t_len_nonneg t).
  assert (0 <= sizes ts1) by (unfold sizes; lia).
  rewrite bool_decide_false by (unfold t_size in Hsz; lia). rewrite Hlen. cbn [mbind option_bind].
  assert (sizes (ts1 ++ [t]) = sizes ts1 + t_size t) as ->.
  { unfold sizes. rewrite encs_app, length_app, encs_cons, app_nil_r, length_enc. unfold t_size. lia. }
  replace (tlv_data (b + sizes ts1) + t_len t) with (b + sizes ts1 + sizes [t])
    by (rewrite sizes_cons; unfold tlv_data, t_size, sizes; simpl; lia).
  change (t :: ts2) with ([t] ++ ts2) in Hl'. rewrite (advance_to_layout _ _ _ _ _ _ Hl') by lia.
  assert (sizes [t] = t_size t) as -> by (rewrite sizes_cons; unfold sizes; simpl; lia).
  by rewrite !Z.add_assoc, Z.sub_add_distr.
Qed.

Lemma next_tlv_layout m b n t ts rest :
  layout m b n (t :: ts) rest ->
  bcm_next_tlv m (Some b) n = Some (match ts with [] => None | _ => Some (b + t_size t) end, n - t_size t).
Proof.
  intros Hl. unfold bcm_next_tlv. rewrite (layout_valid _ _ _ _ _ Hl). cbn [mbind option_bind].
  apply layout_cons in Hl as (_ & -> & _ & _ & _ & Hl). cbn [mbind option_bind]. unfold TLV_HDR_LEN, t_size in *.
  rewrite (layout_valid _ _ _ _ _ Hl). cbn [mbind option_bind]. by destruct ts.
Qed.

(** ** Searching by vendor *)

Lemma first_at_split b ts P e :
  first_at b ts P = Some e ->
  ∃ ts1 t ts2, ts = ts1 ++ t :: ts2 ∧ P t = true ∧ Forall (fun t => P t = false) ts1 ∧ e = b + sizes ts1.
Proof.
  revert b. induction ts as [|t ts IH]; intros b; simpl; [done|]. destruct (P t) eqn:HP; intros H.
  - exists [], t, ts. simplify_eq. repeat split; [done..|]. unfold sizes. simpl. lia.
  - destruct (IH _ H) as (ts1 & u & ts2 & -> & Hu & HF & ->). exists (t :: ts1), u, ts2.
    repeat split; [done|by constructor|]. rewrite sizes_cons. lia.
Qed.

Lemma first_at_none b ts P : first_at b ts P = None -> Forall (fun t => P t = false) ts.
Proof.
  revert b. induction ts as [|t ts IH]; intros b; simpl; [constructor|].
  destruct (P t) eqn:HP; [done|]. constructor; [done|by eapply IH].
Qed.

Lemma first_at_app_false b ts1 ts2 P :
  Forall (fun t => P t = false) ts1 -> first_at b (ts1 ++ ts2) P = first_at (b + sizes ts1) ts2 P.
Proof.
  intros H. revert b. induction H as [|t ts1 Ht _ IH]; intros b.
  - unfold sizes. simpl. by rewrite Z.add_0_r.
  - simpl. rewrite Ht, IH, sizes_cons. f_equal. lia.
Qed.

(** [bcm_find_ie]'s match: the key, then [oui] and [type] in the data. *)
Definition ie_match (tag : Z) (oui : list Z) (type : Z) (t : tlv) : bool :=
  has_key tag t && bool_decide (take (length oui) (t_data t) = oui)
  && bool_decide (t_data t !! length oui = Some type).

(** [bcm_find_vendor_ie]'s match: a vendor element whose data starts with
    [voui] and then [type]. *)
Definition vendor_match (voui type : list Z) (t : tlv) : bool :=
  has_id 221 t && bool_decide (take (length voui + length type) (t_data t) = voui ++ type).

(** An element's data in memory. *)
Lemma data_at m b n t ts rest k :
  layout m b n (t :: ts) rest -> Z.of_nat k <= t_len t ->
  readable m (b + 2) (Z.of_nat k) = true ∧ slice m (b + 2) k = take k (t_data t).
Proof.
  intros Hl Hk. apply layout_cons in Hl as (_ & _ & _ & Hr & <- & _).
  apply readable_spec in Hr. split; [apply readable_spec; lia|].
  unfold slice. rewrite take_take. f_equal. lia.
Qed.

(** The test of one element in [bcm_find_ie]. *)
Lemma ie_hit m b n t ts rest oui k type :
  layout m b n (t :: ts) rest -> readable m oui (Z.of_nat k) = true ->
  (if bool_decide (Z.of_nat k < t_len t) then
     same ← bcmp0 m (tlv_data b) oui k;
     if (same : bool) then x ← rd8 m (tlv_data b + Z.of_nat k); Some (bool_decide (x = type)) else Some false
   else Some false)
  = Some (bool_decide (take k (t_data t) = slice m oui k) && bool_decide (t_data t !! k = Some type)).
Proof.
  intros Hl Ho. unfold tlv_data, t_len. case_bool_decide as Hk.
  - destruct (data_at _ _ _ _ _ _ k Hl) as [Hr Hs]; [unfold t_len; lia|].
    rewrite bcmp0_slices by done. rewrite Hs. cbn [mbind option_bind]. case_bool_decide; [|done].
    destruct (lookup_lt_is_Some_2 (t_data t) k) as [x Hx]; [lia|].
    pose proof Hl as Hl'. apply layout_cons in Hl' as (_ & _ & _ & Hr' & Hs' & _).
    rewrite (rd8_area _ _ _ _ k x Hr' Hs' Hx). cbn [mbind option_bind]. rewrite Hx. simpl.
    f_equal. apply bool_decide_ext. split; congruence.
  - f_equal. symmetry. apply andb_false_intro2, bool_decide_false. rewrite lookup_ge_None_2 by lia. done.
Qed.

Lemma find_ie_loop_first m tag oui k type fuel b n ts rest :
  layout m b n ts rest -> (Z.to_nat n < fuel)%nat -> b + n < 18446744073709551616 ->
  readable m oui (Z.of_nat k) = true ->
  find_ie_loop fuel m (Some b) n tag (Z.of_nat k) oui type
  = Some (first_at b ts (ie_match tag (slice m oui k) type)).
Proof.
  intros Hl Hf Hn Ho. pose proof (length_slice _ _ _ Ho) as Hko.
  revert b n ts Hl Hf Hn. induction fuel as [|fuel IH]; intros b n ts Hl Hf Hn; [lia|].
  cbn [find_ie_loop]. unfold bcm_parse_tlvs_advance, bcm_parse_tlvs.
  rewrite (parse_loop_first _ _ _ _ _ _ _ Hl) by lia. cbn [mbind option_bind].
  assert (∀ t, has_key tag t = false -> ie_match tag (slice m oui k) type t = false) as Hno
    by (intros t Ht; unfold ie_match; by rewrite Ht).
  destruct (first_at b ts (has_key tag)) as [e|] eqn:Hfst; cbn [mbind option_bind].
  - apply first_at_split in Hfst as (ts1 & t & ts2 & -> & Ht & Hts1 & ->).
    pose proof (layout_nonneg _ _ _ _ _ Hl) as Hb. destruct (layout_skip _ _ _ _ _ _ Hl) as [Hs Hl'].
    assert (0 <= sizes ts1) by (unfold sizes; lia).
    rewrite (advance_to_layout _ _ _ _ _ _ Hl Hn). cbn [advanced mbind option_bind].
    pose proof (layout_cons _ _ _ _ _ _ Hl') as (_ & Hlen & Hsz & _). rewrite Hlen. cbn [mbind option_bind].
    rewrite Nat2Z.id, (ie_hit _ _ _ _ _ _ _ _ type Hl' Ho). cbn [mbind option_bind].
    rewrite first_at_app_false by (eapply Forall_impl; [done|exact Hno]). simpl.
    assert (ie_match tag (slice m oui k) type t
            = bool_decide (take k (t_data t) = slice m oui k) && bool_decide (t_data t !! k = Some type)) as ->
      by (unfold ie_match; rewrite Ht, Hko; done).
    destruct (_ && _) eqn:Hhit; [done|].
    pose proof (advance_past_layout m (b + sizes ts1) (n - sizes ts1) [] t ts2 rest Hl') as Hpast.
    assert (sizes [] = 0) as Hz by done. rewrite Hz, Z.add_0_r in Hpast. rewrite Hpast by lia.
    cbn [app mbind option_bind]. assert (sizes [t] = t_size t) as -> by (rewrite sizes_cons, Hz; lia).
    apply layout_cons in Hl' as (_ & _ & _ & _ & _ & Hl'). pose proof (t_len_nonneg t).
    destruct ts2 as [|u ts2]; cbn [advanced mbind option_bind].
    + unfold t_size in *. destruct fuel; [lia|done].
    + apply IH; [done|unfold t_size in *; lia..].
  - f_equal. apply first_at_none in Hfst. rewrite <-(app_nil_r ts), first_at_app_false; [done|].
    eapply Forall_impl; [done|exact Hno].
Qed.

(** The test of one element in [bcm_find_vendor_ie]. *)
Lemma vendor_hit m b n t ts rest voui type k :
  layout m b n (t :: ts) rest -> readable m voui 3 = true -> readable m type (Z.of_nat k) = true ->
  (if bool_decide (t_id t = DOT11_MNG_VS_ID) && bool_decide (DOT11_OUI_LEN + Z.of_nat k <= t_len t) then
     same ← bcmp0 m (tlv_data b) voui (Z.to_nat DOT11_OUI_LEN);
     if (same : bool) then
       if bool_decide (Z.of_nat k = 0) then Some true else bcmp0 m (tlv_data b + DOT11_OUI_LEN) type k
     else Some false
   else Some false) = Some (vendor_match (slice m voui 3) (slice m type k) t).
Proof.
  intros Hl Hv Ht. pose proof (length_slice m voui 3 Hv) as Hlv. pose proof (length_slice _ _ _ Ht) as Hlt.
  unfold vendor_match, has_id, DOT11_MNG_VS_ID, DOT11_OUI_LEN. rewrite Hlv, Hlt.
  case_bool_decide; cbn [andb]; [|done]. case_bool_decide as Hk.
  - destruct (data_at _ _ _ _ _ _ (3 + k) Hl) as [Hr Hs]; [lia|].
    rewrite <-Hs, slice_app by (apply readable_spec in Hr; lia). change (Z.of_nat 3) with 3.
    apply readable_spec in Hr. unfold tlv_data. change (Z.to_nat 3) with 3%nat.
    rewrite (bcmp0_slices m (b + 2) voui) by (done || (apply readable_spec; lia)). cbn [mbind option_bind].
    rewrite bcmp0_slices by (done || (apply readable_spec; lia)).
    assert (length (slice m (b + 2) 3) = 3%nat) as Hl3 by (apply length_slice, readable_spec; lia).
    case_bool_decide as Hvo.
    + rewrite Hvo. case_bool_decide as Hk0.
      * destruct k; [|lia]. symmetry. f_equal. by apply bool_decide_true.
      * f_equal. apply bool_decide_ext. split; [congruence|]. intros Heq. by apply app_inv_head in Heq.
    + symmetry. f_equal. apply bool_decide_false. intros Heq. apply app_inj_1 in Heq as [? _]; [done|congruence].
  - symmetry. f_equal. apply bool_decide_false. intros Heq. apply (f_equal length) in Heq.
    rewrite length_take, length_app, Hlv, Hlt in Heq. unfold t_len in Hk. lia.
Qed.

Lemma find_vendor_loop_first m voui type k ts t fuel b n rest :
  layout m b n (t :: ts) rest -> (Z.to_nat n < fuel)%nat ->
  readable m voui 3 = true -> readable m type (Z.of_nat k) = true ->
  find_vendor_loop fuel m b n voui type (Z.of_nat k)
  = Some (first_at b (t :: ts) (vendor_match (slice m voui 3) (slice m type k))).
Proof.
  intros Hl Hf Hv Ht. revert t fuel b n Hl Hf. induction ts as [|u ts IH]; intros t [|fuel] b n Hl Hf; try lia.
  all: cbn [find_vendor_loop first_at];
    pose proof (layout_cons _ _ _ _ _ _ Hl) as (Hid & Hlen & Hsz & _ & _ & Hl');
    rewrite Hid, Hlen; cbn [mbind option_bind];
    rewrite Nat2Z.id, (vendor_hit _ _ _ _ _ _ _ _ _ Hl Hv Ht); cbn [mbind option_bind];
    destruct (vendor_match _ _ t); [done|]; rewrite (next_tlv_layout _ _ _ _ _ _ Hl); cbn [mbind option_bind].
  - done.
  - pose proof (t_len_nonneg t). apply IH; [done|unfold t_size in *; lia].
Qed.

(** The first match, if it also passes [Q]: a later match is not looked at. *)
Definition first_if (b : Z) (ts : list tlv) (P Q : tlv -> bool) : option Z :=
  match List.find P ts with
  | Some t => if Q t then first_at b ts P else None
  | None => None
  end.

(** A search that filters its result on the element's length. *)
Lemma first_if_spec m b n ts rest P Q (f : Z -> bool) :
  layout m b n ts rest -> (∀ t, f (t_len t) = Q t) ->
  match first_at b ts P with
  | None => Some None
  | Some e => l ← tlv_len m e; Some (if f l then Some e else None)
  end = Some (first_if b ts P Q).
Proof.
  intros Hl Hf. unfold first_if. revert b n Hl. induction ts as [|t ts IH]; intros b n Hl; simpl; [done|].
  apply layout_cons in Hl as (_ & Hlen & _ & _ & _ & Hl). destruct (P t).
  - by rewrite Hlen, <-Hf.
  - by apply IH with (n - t_size t).
Qed.

(** ** Writing *)

Definition data_bytes (m : mem) (data : option Z) (k : nat) : list Z :=
  match data with Some s => slice m s k | None => [] end.

(** The source of a write: readable bytes apart from the destination, or no
    bytes at all. *)
Definition source_ok (m : mem) (data : option Z) (k : nat) (d n : Z) : Prop :=
  match data with
  | Some s => readable m s (Z.of_nat k) = true ∧ disjoint_areas s (Z.of_nat k) d n
  | None => k = 0%nat
  end.

Lemma length_data_bytes m data k d n : source_ok m data k d n -> length (data_bytes m data k) = k.
Proof. destruct data as [s|]; simpl; [|done]. intros [H _]. by apply length_slice. Qed.

(** The copy that ends a write, after a header [h] at [d]. *)
Lemma write_body m data k d h a : a = d + Z.of_nat (length h) ->
  source_ok m data k d (Z.of_nat (length h + k)) -> readable m d (Z.of_nat (length h + k)) = true ->
  (if bool_decide (0 < Z.of_nat k)
   then s ← data; memcpy (splice m d h) a s (Z.of_nat k) else Some (splice m d h))
  = Some (splice m d (h ++ data_bytes m data k)).
Proof.
  intros -> Hs Hd. pose proof (length_data_bytes _ _ _ _ _ Hs) as Hlen. pose proof (proj1 (readable_spec _ _ _) Hd).
  assert (readable m d (Z.of_nat (length h)) = true) as Hh by (apply readable_spec; lia).
  case_bool_decide as Hk.
  - destruct data as [s|]; simpl in Hs; [|lia]. destruct Hs as [Hs Hdis]. cbn [mbind option_bind].
    pose proof (proj1 (readable_spec _ _ _) Hs). unfold disjoint_areas in Hdis.
    rewrite memcpy_splice; [|rewrite readable_splice by done; apply readable_spec; lia
      |by rewrite readable_splice|unfold disjoint_areas; lia].
    rewrite slice_splice_other by (done || lia || (unfold disjoint_areas; lia)).
    rewrite splice_app; [done|]. rewrite length_app. simpl in Hlen. by rewrite Hlen.
  - assert (data_bytes m data k = []) as ->; [|by rewrite app_nil_r].
    apply nil_length_inv. rewrite Hlen. lia.
Qed.

(** The checks of the two writers pass. *)
Lemma source_not_null m data k d n : source_ok m data k d n ->
  negb (bool_decide (data = None)) || bool_decide (Z.of_nat k = 0) = true.
Proof. destruct data; simpl; [done|]. by intros ->. Qed.

Lemma bcm_write_tlv_spec m type data k d :
  0 <= type < 256 -> (k <= 255)%nat ->
  source_ok m data k d (Z.of_nat (2 + k)) -> readable m d (Z.of_nat (2 + k)) = true ->
  bcm_write_tlv m type data (Z.of_nat k) (Some d)
  = Some (Some (d + 2 + Z.of_nat k), splice m d (enc {| t_id := type; t_data := data_bytes m data k |})).
Proof.
  intros Ht Hk Hs Hd. unfold bcm_write_tlv. pose proof (proj1 (readable_spec _ _ _) Hd).
  unfold BCM_TLV_MAX_DATA_SIZE, BCM_TLV_HDR_SIZE, tlv_data.
  rewrite (source_not_null _ _ _ _ _ Hs), bool_decide_true by lia. cbn [andb].
  rewrite wr8_splice by (apply readable_spec; lia). cbn [mbind option_bind].
  rewrite wr8_splice by (rewrite readable_splice by (apply readable_spec; simpl; lia); apply readable_spec; lia).
  cbn [mbind option_bind]. rewrite (splice_app m d [_] [_]) by (apply readable_spec; simpl; lia).
  rewrite !u8_small by lia. cbn [app].
  rewrite (write_body m data k d [type; Z.of_nat k] (d + 2) eq_refl Hs Hd). cbn [mbind option_bind app].
  unfold enc, t_len. simpl. by rewrite (length_data_bytes _ _ _ _ _ Hs).
Qed.

Lemma bcm_write_tlv_ext_spec m type ext data k d :
  0 <= type < 256 -> 0 <= ext < 256 -> (k <= 254)%nat ->
  source_ok m data k d (Z.of_nat (3 + k)) -> readable m d (Z.of_nat (3 + k)) = true ->
  bcm_write_tlv_ext m type ext data (Z.of_nat k) (Some d)
  = Some (Some (d + 3 + Z.of_nat k), splice m d (enc {| t_id := type; t_data := ext :: data_bytes m data k |})).
Proof.
  intros Ht He Hk Hs Hd. unfold bcm_write_tlv_ext. pose proof (proj1 (readable_spec _ _ _) Hd).
  unfold BCM_TLV_EXT_MAX_DATA_SIZE, BCM_TLV_EXT_HDR_SIZE.
  rewrite (source_not_null _ _ _ _ _ Hs), bool_decide_true by lia. cbn [andb].
  rewrite wr8_splice by (apply readable_spec; lia). cbn [mbind option_bind].
  assert (readable (splice m d [u8 type]) d 3 = true) as Hr1
    by (rewrite readable_splice by (apply readable_spec; simpl; lia); apply readable_spec; lia).
  rewrite wr8_splice by (apply readable_spec in Hr1; apply readable_spec; lia). cbn [mbind option_bind].
  rewrite wr8_splice by (rewrite readable_splice by (apply readable_spec in Hr1; apply readable_spec; simpl; lia);
    apply readable_spec in Hr1; apply readable_spec; lia). cbn [mbind option_bind].
  assert (splice (splice (splice m d [u8 type]) (d + 2) [u8 ext]) (d + 1) [u8 (1 + u8 (Z.of_nat k))]
          = splice m d [type; 1 + Z.of_nat k; ext]) as ->.
  { rewrite !u8_small by (rewrite ?u8_small; lia). rewrite splice_comm.
    - rewrite (splice_app m d [_] [_]) by (apply readable_spec; simpl; lia). cbn [app].
      by rewrite (splice_app m d [_; _] [_]) by (apply readable_spec; simpl; lia).
    - rewrite readable_splice; apply readable_spec; simpl; lia.
    - rewrite readable_splice; apply readable_spec; simpl; lia.
    - lia. }
  rewrite (write_body m data k d [type; 1 + Z.of_nat k; ext] (d + 3) eq_refl Hs Hd). cbn [mbind option_bind app].
  unfold enc, t_len. cbn [t_id t_data length app].
  rewrite (length_data_bytes _ _ _ _ _ Hs), Nat2Z.inj_succ, <-Z.add_1_l. done.
Qed.

(** Copying an element copies its encoding. *)
Lemma bcm_copy_tlv_spec m s n t ts rest d :
  layout m s n (t :: ts) rest -> readable m d (t_size t) = true ->
  disjoint_areas d (t_size t) s (t_size t) ->
  bcm_copy_tlv m (Some s) (Some d) = Some (Some (d + t_size t), splice m d (enc t)).
Proof.
  intros Hl Hd Hdis. pose proof (layout_nonneg _ _ _ _ _ Hl) as Hb. unfold bcm_copy_tlv.
  pose proof (layout_cons _ _ _ _ _ _ Hl) as (_ & -> & Hsz & _). cbn [mbind option_bind].
  pose proof (t_len_nonneg t). unfold BCM_TLV_HDR_SIZE. fold (t_size t).
  assert (t_size t = Z.of_nat (Z.to_nat (t_size t))) as Heq by (unfold t_size in *; lia).
  rewrite Heq in Hd, Hdis. rewrite Heq, memcpy_splice; [|done|apply readable_spec; lia|done].
  cbn [mbind option_bind]. rewrite <-Heq. do 3 f_equal. rewrite <-length_enc.
  destruct Hl as (Hr & Hs & _). rewrite encs_cons, <-app_assoc in Hs. by apply (area_head _ _ _ _ _ Hr Hs).
Qed.

(** Writing an element after the elements of a full buffer extends it. *)
Lemma layout_append m b n ts t :
  layout m b n ts [] -> readable m (b + n) (t_size t) = true ->
  layout (splice m (b + n) (enc t)) b (n + t_size t) (ts ++ [t]) [].
Proof.
  intros Hl Hd. pose proof (layout_nonneg _ _ _ _ _ Hl) as Hb. destruct Hl as (Hr & Hs & _).
  pose proof (t_len_nonneg t). assert (0 <= t_size t) by (unfold t_size; lia).
  assert (readable m (b + n) (Z.of_nat (length (enc t))) = true) as Hd'
    by (rewrite length_enc, Z2Nat.id by done; done).
  apply readable_spec in Hd. split; [rewrite readable_splice by done; apply readable_spec; lia|].
  split; [|done]. rewrite app_nil_r in *. rewrite encs_app, encs_cons, app_nil_r.
  replace (Z.to_nat (n + t_size t)) with (Z.to_nat n + length (enc t))%nat by (rewrite length_enc; lia).
  rewrite slice_app, Z2Nat.id by lia. rewrite slice_splice_same by done.
  rewrite slice_splice_other; [by rewrite Hs|done|lia|]. unfold disjoint_areas. lia.
Qed.

(** An element's length is a byte. *)
Lemma t_len_byte m b n t ts rest : bytes_ok m -> layout m b n (t :: ts) rest -> t_len t < 256.
Proof.
  intros Hm Hl. apply layout_cons in Hl as (_ & Hlen & _). unfold tlv_len, rd8 in Hlen.
  case_bool_decide; [|done].
  apply (Forall_lookup_1 _ _ _ _ Hm) in Hlen. lia.
Qed.

Lemma bcm_tlv_sub_buffer_spec m b n t ts rest off :
  bytes_ok m -> layout m b n (t :: ts) rest -> 0 <= off ->
  bcm_tlv_sub_buffer m b off
  = Some (if bool_decide (off < t_len t) then (Some (b + 2 + off), t_len t - off) else (None, 0))
  ∧ (off < t_len t -> slice m (b + 2 + off) (Z.to_nat (t_len t - off)) = drop (Z.to_nat off) (t_data t)).
Proof.
  intros Hm Hl Ho. pose proof (t_len_byte _ _ _ _ _ _ Hm Hl).
  pose proof (layout_cons _ _ _ _ _ _ Hl) as (_ & Hlen & _ & Hr & Hs & _). split.
  - unfold bcm_tlv_sub_buffer. rewrite Hlen. cbn [mbind option_bind]. case_bool_decide; [|done].
    by rewrite u8_small by lia.
  - intros Hlt. rewrite <-Hs. unfold slice. apply readable_spec in Hr.
    rewrite skipn_firstn_comm, drop_drop. f_equal; [lia|f_equal; lia].
Qed.

(** ** Properties *)

(** Concrete buffers. *)
Ltac prove_layout := split; [reflexivity|]; split; [reflexivity|vm_compute; try reflexivity; try exact I].
Ltac prove_bytes_ok := unfold bytes_ok; repeat (apply Forall_cons; split; [lia|]); apply Forall_nil; exact I.

(** Every buffer is a sequence of elements and an incomplete tail, and
    each search, reading only the buffer, returns its first element that has
    the key: an id (or 255 plus an extended id), an id or an extended id, or an
    id in the ascending prefix.  The length-filtered searches test only that
    first element.  The ordered search equals the plain one on a buffer sorted
    by id. *)
Theorem bcm_parse_tlvs_first (m : mem) (b n : Z) :
  bytes_ok m -> readable m b n = true ->
  ∃ ts rest, layout m b n ts rest ∧
  ∀ key,
  bcm_parse_tlvs m (Some b) n key = Some (first_at b ts (has_key key))
  ∧ (∀ id_ext, bcm_parse_tlvs_dot11 m (Some b) n key id_ext
               = Some (first_at b ts (if id_ext : bool then has_ext key else has_id key)))
  ∧ (∀ lo, bcm_parse_tlvs_min_bodylen m (Some b) n key lo
           = Some (first_if b ts (has_key key) (fun t => negb (bool_decide (t_len t < lo)))))
  ∧ (∀ lo hi, bcm_parse_tlvs_minmax_len m (Some b) n key lo hi
              = Some (first_if b ts (has_key key)
                        (fun t => negb (bool_decide (hi < t_size t) || bool_decide (t_size t < lo)))))
  ∧ bcm_parse_ordered_tlvs m (Some b) n key = Some (first_at b (up_to key ts) (has_id key))
  ∧ (StronglySorted Z.le (t_id <$> ts) ->
     bcm_parse_ordered_tlvs m (Some b) n key = Some (first_at b ts (has_id key))).
Proof.
  intros Hm Hr. destruct (layout_exists _ _ _ Hm Hr) as (ts & rest & Hl). exists ts, rest. split; [done|].
  intros key. pose proof (parse_loop_first m key ts (S (Z.to_nat n)) b n rest Hl (le_n _)) as Hparse.
  pose proof (parse_ordered_loop_first m key ts (S (Z.to_nat n)) b n rest Hl (le_n _)) as Hord.
  split; [done|]. split; [intros id_ext; by apply (parse_dot11_loop_first _ _ _ _ _ _ _ _ Hl), le_n|].
  split; [|split; [|split; [done|]]].
  - intros lo. unfold bcm_parse_tlvs_min_bodylen, bcm_parse_tlvs. rewrite Hparse. cbn [mbind option_bind].
    rewrite <-(first_if_spec m b n ts rest _ _ (fun l => negb (bool_decide (l < lo)))) by done.
    destruct (first_at _ _ _) as [e|]; [|done]. destruct (tlv_len m e); [|done]. simpl. by destruct (bool_decide _).
  - intros lo hi. unfold bcm_parse_tlvs_minmax_len, bcm_parse_tlvs. rewrite Hparse. cbn [mbind option_bind].
    rewrite <-(first_if_spec m b n ts rest _ _
      (fun l => negb (bool_decide (hi < 2 + l) || bool_decide (2 + l < lo)))) by done.
    destruct (first_at _ _ _) as [e|]; [|done]. unfold BCM_TLV_SIZE, BCM_TLV_HDR_SIZE.
    destruct (tlv_len m e); [|done]. simpl. by destruct (_ || _).
  - intros Hsort. unfold bcm_parse_ordered_tlvs. by rewrite Hord, up_to_sorted.
Qed.

(** Two elements, an extended one, and a tail cut short. *)
Definition sample : mem := [0; 1; 2; 10; 11; 221; 5; 0; 80; 242; 1; 7; 255; 2; 3; 9; 61; 4; 1].

Lemma bcm_parse_tlvs_first_witness :
  ∃ ts rest, layout sample 1 18 ts rest ∧
  bcm_parse_tlvs sample (Some 1) 18 (255 + 3) = Some (first_at 1 ts (has_key 258)).
Proof.
  destruct (bcm_parse_tlvs_first sample 1 18) as (ts & rest & Hl & Hk); [prove_bytes_ok|reflexivity|].
  exists ts, rest. split; [exact Hl|]. destruct (Hk 258) as [H _]. exact H.
Defined.

Example parse_sample : bcm_parse_tlvs sample (Some 1) 18 258 = Some (Some 12)
  ∧ bcm_parse_tlvs sample (Some 1) 18 61 = Some None.
Proof. split; reflexivity. Qed.

(** The vendor searches return the first element whose data starts with
    the given OUI and type, and null when there is none: a matching key with
    the wrong OUI is skipped, never the end of the search. *)
Theorem bcm_find_ie_first (m : mem) (b n : Z) (ts : list tlv) (rest : list Z) :
  layout m b n ts rest -> b + n < 18446744073709551616 ->
  (∀ tag oui k type, readable m oui (Z.of_nat k) = true ->
     bcm_find_ie m (Some b) n tag (Z.of_nat k) oui type
     = Some (first_at b ts (ie_match tag (slice m oui k) type)))
  ∧ (∀ voui type k, readable m voui 3 = true -> readable m type (Z.of_nat k) = true ->
     bcm_find_vendor_ie m (Some b) n voui type (Z.of_nat k)
     = Some (first_at b ts (vendor_match (slice m voui 3) (slice m type k)))).
Proof.
  intros Hl Hn. split.
  - intros tag oui k type Ho. by apply (find_ie_loop_first _ _ _ _ _ _ _ _ _ _ Hl); [lia|..].
  - intros voui type k Hv Ht. unfold bcm_find_vendor_ie. rewrite (layout_valid _ _ _ _ _ Hl).
    cbn [mbind option_bind]. destruct ts as [|t ts]; [done|].
    by apply (find_vendor_loop_first _ _ _ _ _ _ _ _ _ _ Hl); [lia|..].
Qed.

(** Two vendor elements with the same OUI and different types, then the OUI. *)
Definition vendors : mem :=
  [221; 4; 0; 80; 242; 1; 221; 5; 0; 80; 242; 2; 9; 221; 4; 80; 111; 154; 9; 0; 80; 242; 2].

Definition vendors_layout : list tlv :=
  [{| t_id := 221; t_data := [0; 80; 242; 1] |}; {| t_id := 221; t_data := [0; 80; 242; 2; 9] |};
   {| t_id := 221; t_data := [80; 111; 154; 9] |}].

Lemma bcm_find_ie_first_witness :
  bcm_find_ie vendors (Some 0) 19 221 3 19 2 = Some (Some 6)
  ∧ bcm_find_vendor_ie vendors (Some 0) 19 19 22 1 = Some (Some 6).
Proof.
  assert (layout vendors 0 19 vendors_layout []) as Hl by prove_layout.
  destruct (bcm_find_ie_first vendors 0 19 vendors_layout [] Hl) as [H1 H2]; [lia|]. split.
  - exact (H1 221 19 3%nat 2 eq_refl).
  - exact (H2 19 22 1%nat eq_refl eq_refl).
Defined.

(** Writing an element after a full buffer extends the buffer by exactly
    that element, which the searches then find, and changes no other byte; a
    write or a copy that does not fit changes nothing. *)
Theorem bcm_write_tlv_parse (m : mem) (b n : Z) (ts : list tlv) (type : Z) (data : option Z) (k : nat) (room : Z) :
  layout m b n ts [] -> 0 <= type < 256 -> source_ok m data k (b + n) room -> readable m (b + n) room = true ->
  let t := {| t_id := type; t_data := data_bytes m data k |} in
  let m' := splice m (b + n) (enc t) in
  let room_for k := (k <= 255)%nat ∧ Z.of_nat k + 2 <= room in
  (room_for k ->
     bcm_write_tlv_safe m type data (Z.of_nat k) (Some (b + n)) room = Some (Some (b + n + 2 + Z.of_nat k), m')
     ∧ bcm_write_tlv m type data (Z.of_nat k) (Some (b + n)) = Some (Some (b + n + 2 + Z.of_nat k), m')
     ∧ layout m' b (n + t_size t) (ts ++ [t]) []
     ∧ ∀ key, bcm_parse_tlvs m' (Some b) (n + t_size t) key = Some (first_at b (ts ++ [t]) (has_key key)))
  ∧ (¬ room_for k -> bcm_write_tlv_safe m type data (Z.of_nat k) (Some (b + n)) room = Some (Some (b + n), m))
  ∧ (∀ ext, 0 <= ext < 256 -> (k <= 254)%nat -> Z.of_nat k + 3 <= room ->
     let t := {| t_id := type; t_data := ext :: data_bytes m data k |} in
     ∃ m', bcm_write_tlv_ext m type ext data (Z.of_nat k) (Some (b + n)) = Some (Some (b + n + 3 + Z.of_nat k), m')
     ∧ m' = splice m (b + n) (enc t) ∧ layout m' b (n + t_size t) (ts ++ [t]) [])
  ∧ (∀ s l u us rest, layout m s l (u :: us) rest -> disjoint_areas (b + n) room s (t_size u) ->
     bcm_copy_tlv_safe m (Some s) (Some (b + n)) room
     = Some (if bool_decide (t_size u <= room) then (Some (b + n + t_size u), splice m (b + n) (enc u))
             else (Some (b + n), m))
     ∧ (t_size u <= room -> layout (splice m (b + n) (enc u)) b (n + t_size u) (ts ++ [u]) [])).
Proof.
  intros Hl Ht Hs Hd t m' room_for. pose proof (proj1 (readable_spec _ _ _) Hd) as Hroom.
  assert (∀ j, Z.of_nat j <= room -> source_ok m data k (b + n) (Z.of_nat j)) as Hsrc.
  { intros j Hj. destruct data as [s|]; simpl in *; [|done]. destruct Hs as [Hs1 Hs2]. split; [done|].
    unfold disjoint_areas in *. lia. }
  assert (∀ j, Z.of_nat j <= room -> readable m (b + n) (Z.of_nat j) = true) as Hdst
    by (intros j Hj; apply readable_spec; lia).
  pose proof (length_data_bytes _ _ _ _ _ Hs) as Hlen.
  assert (t_size t = Z.of_nat (2 + k)) as Hsz by (unfold t_size, t_len, t; simpl; lia).
  split; [|split; [|split]].
  - intros [Hk Hfit].
    assert (bcm_write_tlv m type data (Z.of_nat k) (Some (b + n)) = Some (Some (b + n + 2 + Z.of_nat k), m')) as Hw
      by (apply bcm_write_tlv_spec; [done|done|apply Hsrc; lia|apply Hdst; lia]).
    assert (layout m' b (n + t_size t) (ts ++ [t]) []) as Hl'
      by (apply layout_append; [done|rewrite Hsz; apply Hdst; lia]).
    split; [|split; [done|split; [done|]]].
    + unfold bcm_write_tlv_safe, BCM_TLV_MAX_DATA_SIZE, BCM_TLV_HDR_SIZE. by rewrite !bool_decide_true by lia.
    + intros key. apply (parse_loop_first _ _ _ _ _ _ _ Hl'). lia.
  - intros Hno. unfold bcm_write_tlv_safe, BCM_TLV_MAX_DATA_SIZE, BCM_TLV_HDR_SIZE, room_for in *.
    case_bool_decide; [|done]. rewrite bool_decide_false; [done|lia].
  - intros ext He Hk Hfit t'. eexists. split; [apply bcm_write_tlv_ext_spec; try done; [apply Hsrc|apply Hdst]; lia|].
    split; [done|]. apply layout_append; [done|].
    replace (t_size t') with (Z.of_nat (3 + k)) by (unfold t_size, t_len, t'; simpl; lia). apply Hdst. lia.
  - intros s l u us rest Hu Hdis. pose proof (t_len_nonneg u). unfold bcm_copy_tlv_safe, bcm_valid_tlv.
    pose proof (layout_cons _ _ _ _ _ _ Hu) as (_ & Hlenu & _).
    assert (∀ P : Prop, (t_size u <= room -> readable m (b + n) (t_size u) = true -> P) -> t_size u <= room -> P)
      as Hfits by (intros P HP Hle; apply HP; [done|apply readable_spec; unfold t_size in *; lia]).
    split; [|apply Hfits; intros; by apply layout_append].
    unfold BCM_TLV_HDR_SIZE. case_bool_decide as H2.
    + rewrite Hlenu. cbn [mbind option_bind]. fold (t_size u). case_bool_decide; [|done].
      revert H0. apply Hfits. intros Hle Hr. apply (bcm_copy_tlv_spec _ _ _ _ _ _ _ Hu Hr).
      unfold disjoint_areas in *. lia.
    + cbn [mbind option_bind]. rewrite bool_decide_false; [done|unfold t_size; lia].
Qed.

(** One element, four free bytes, and two bytes of data. *)
Definition partial_buf : mem := [1; 1; 9; 0; 0; 0; 0; 40; 41].

Lemma bcm_write_tlv_parse_witness :
  bcm_write_tlv_safe partial_buf 5 (Some 7) 2 (Some 3) 4 = Some (Some 7, [1; 1; 9; 5; 2; 40; 41; 40; 41]).
Proof.
  destruct (bcm_write_tlv_parse partial_buf 0 3 [{| t_id := 1; t_data := [9] |}] 5 (Some 7) 2 4) as [H _].
  - prove_layout.
  - lia.
  - split; [reflexivity|]. right. simpl. lia.
  - reflexivity.
  - destruct H as [H _]; [split; [lia|simpl; lia]|]. exact H.
Defined.

(** From any element of a buffer, [advance_to], [advance_past] and
    [bcm_next_tlv] leave exactly the elements from it on, or after it; past
    the last one the buffer becomes null and empty, and a pointer outside the
    buffer is refused.  A search in an advance mode finds what the plain one
    finds.  [bcm_tlv_sub_buffer] is the element's data from an offset. *)
Theorem bcm_tlv_advance_spec (m : mem) (b n : Z) (ts1 : list tlv) (t : tlv) (ts2 : list tlv) (rest : list Z) :
  layout m b n (ts1 ++ t :: ts2) rest -> b + n < 18446744073709551616 ->
  let e := b + sizes ts1 in
  let k := n - sizes ts1 in
  let past := match ts2 with [] => (None, 0) | _ => (Some (e + t_size t), k - t_size t) end in
  layout m e k (t :: ts2) rest
  ∧ layout m (e + t_size t) (k - t_size t) ts2 rest
  ∧ bcm_tlv_buffer_advance_to m (Some e) (Some b) n = Some (Some e, k)
  ∧ bcm_tlv_buffer_advance_past m (Some e) (Some b) n = Some past
  ∧ bcm_next_tlv m (Some e) k = Some (fst past, k - t_size t)
  ∧ (∀ e', e' < b ∨ b + n <= e' -> bcm_tlv_buffer_advance_to m (Some e') (Some b) n = Some (None, 0))
  ∧ (∀ key, Forall (fun u => has_key key u = false) ts1 -> has_key key t = true ->
     bcm_parse_tlvs_advance m (Some b) n key BCM_TLV_ADVANCE_NONE = Some (Some e, Some b, n)
     ∧ bcm_parse_tlvs_advance m (Some b) n key BCM_TLV_ADVANCE_TO = Some (Some e, Some e, k)
     ∧ bcm_parse_tlvs_advance m (Some b) n key BCM_TLV_ADVANCE_PAST = Some (Some e, fst past, snd past))
  ∧ (bytes_ok m -> ∀ off, 0 <= off ->
     bcm_tlv_sub_buffer m e off
     = Some (if bool_decide (off < t_len t) then (Some (e + 2 + off), t_len t - off) else (None, 0))
     ∧ (off < t_len t -> slice m (e + 2 + off) (Z.to_nat (t_len t - off)) = drop (Z.to_nat off) (t_data t))).
Proof.
  intros Hl Hn e k past. destruct (layout_skip _ _ _ _ _ _ Hl) as [Hs Hl'].
  pose proof (layout_cons _ _ _ _ _ _ Hl') as (_ & _ & _ & _ & _ & Hl2).
  pose proof (advance_to_layout _ _ _ _ _ _ Hl Hn) as Hto. cbn [advanced] in Hto.
  assert (bcm_tlv_buffer_advance_past m (Some e) (Some b) n = Some past) as Hpast.
  { unfold e. rewrite (advance_past_layout _ _ _ _ _ _ _ Hl Hn).
    assert (sizes (ts1 ++ [t]) = sizes ts1 + t_size t) as ->.
    { unfold sizes. rewrite encs_app, length_app, encs_cons, app_nil_r, length_enc.
      pose proof (t_len_nonneg t). unfold t_size. lia. }
    rewrite Z.add_assoc, Z.sub_add_distr. by destruct ts2. }
  split; [done|]. split; [done|]. split; [done|]. split; [done|]. split; [|split; [|split]].
  - fold e k in Hl'. rewrite (next_tlv_layout _ _ _ _ _ _ Hl'). unfold past. by destruct ts2.
  - intros e' He'. unfold bcm_tlv_buffer_advance_to.
    rewrite <-andb_assoc. assert (bool_decide (b <= e') && bool_decide (e' < b + n) = false) as ->.
    { apply andb_false_iff. destruct He'; [left|right]; apply bool_decide_false; lia. }
    by rewrite andb_false_r.
  - intros key Hts1 Ht. unfold bcm_parse_tlvs_advance, bcm_parse_tlvs.
    rewrite (parse_loop_first _ _ _ _ _ _ _ Hl) by lia. rewrite first_at_app_false by done. simpl first_at.
    rewrite Ht. cbn [mbind option_bind]. fold e k in Hto |- *. rewrite Hpast, Hto.
    cbn [mbind option_bind]. split; [done|]. split; [done|]. by destruct past.
  - intros Hm off Ho. by apply (bcm_tlv_sub_buffer_spec _ _ _ _ _ _ _ Hm Hl').
Qed.

Lemma bcm_tlv_advance_spec_witness :
  bcm_parse_tlvs_advance vendors (Some 0) 19 221 BCM_TLV_ADVANCE_PAST = Some (Some 0, Some 6, 13).
Proof.
  destruct (bcm_tlv_advance_spec vendors 0 19 [] {| t_id := 221; t_data := [0; 80; 242; 1] |}
    [{| t_id := 221; t_data := [0; 80; 242; 2; 9] |}; {| t_id := 221; t_data := [80; 111; 154; 9] |}] [])
    as (_ & _ & _ & _ & _ & _ & H & _).
  - prove_layout.
  - lia.
  - destruct (H 221) as (_ & _ & H3); [constructor|reflexivity|]. exact H3.
Defined.
