(* ===== verification/Endian.v ===== *)
(** * bcmendian.h: unaligned loads and stores (model and lemmas)

    The host is little-endian (IL_BIGENDIAN is not defined): the [load] macros
    are the little-endian ones.  [le_bytes k v] is the specification: the [k]
    low bytes of [v], least significant first. *)

From S2P Require Import Prelude Mem.

Definition BCMSWAP16 (val : Z) : Z :=
  u16 (Z.lor (Z.shiftl (Z.land val 0x00ff) 8) (Z.shiftr (Z.land val 0xff00) 8)).

Definition ltoh16_ua (m : mem) (p : Z) : option Z :=
  b0 ← rd8 m p; b1 ← rd8 m (p + 1);
  Some (Z.lor b0 (Z.shiftl b1 8)).

Definition ltoh32_ua (m : mem) (p : Z) : option Z :=
  b0 ← rd8 m p; b1 ← rd8 m (p + 1); b2 ← rd8 m (p + 2); b3 ← rd8 m (p + 3);
  Some (Z.lor (Z.lor (Z.lor b0 (Z.shiftl b1 8)) (Z.shiftl b2 16)) (Z.shiftl b3 24)).

Definition ltoh64_ua (m : mem) (p : Z) : option Z :=
  b0 ← rd8 m p; b1 ← rd8 m (p + 1); b2 ← rd8 m (p + 2); b3 ← rd8 m (p + 3);
  b4 ← rd8 m (p + 4); b5 ← rd8 m (p + 5); b6 ← rd8 m (p + 6); b7 ← rd8 m (p + 7);
  Some (Z.lor (Z.lor (Z.lor (Z.lor (Z.lor (Z.lor (Z.lor b0 (Z.shiftl b1 8)) (Z.shiftl b2 16)) (Z.shiftl b3 24))
    (Z.shiftl b4 32)) (Z.shiftl b5 40)) (Z.shiftl b6 48)) (Z.shiftl b7 56)).

Definition htol16_ua_store (m : mem) (val p : Z) : option mem :=
  let _val := u16 val in
  m ← wr8 m p (Z.land _val 0xff);
  wr8 m (p + 1) (Z.shiftr _val 8).

Definition htol32_ua_store (m : mem) (val p : Z) : option mem :=
  let _val := u32 val in
  m ← wr8 m p (Z.land _val 0xff);
  m ← wr8 m (p + 1) (Z.land (Z.shiftr _val 8) 0xff);
  m ← wr8 m (p + 2) (Z.land (Z.shiftr _val 16) 0xff);
  wr8 m (p + 3) (Z.shiftr _val 24).

(** [for (_ii = 0; _ii < (int)sizeof(_val); ++_ii)] *)
Fixpoint store_loop (n : nat) (m : mem) (_val p : Z) : option mem :=
  match n with
  | O => Some m
  | S n => m ← wr8 m p (Z.land _val 0xff); store_loop n m (Z.shiftr _val 8) (p + 1)
  end.

Definition htol64_ua_store (m : mem) (val p : Z) : option mem := store_loop 8 m (u64 val) p.

(** ** Specification *)

Fixpoint le_bytes (k : nat) (v : Z) : list Z :=
  match k with O => [] | S k => u8 v :: le_bytes k (v / 256) end.

Fixpoint le_val (l : list Z) : Z :=
  match l with [] => 0 | x :: l => x + 256 * le_val l end.

Lemma length_le_bytes k v : length (le_bytes k v) = k.
Proof. revert v. induction k as [|k IH]; intros v; simpl; [done|]. by rewrite IH. Qed.

Lemma bytes_ok_le_bytes k v : bytes_ok (le_bytes k v).
Proof.
  revert v. induction k as [|k IH]; intros v; simpl; [constructor|].
  constructor; [apply u8_range|apply IH].
Qed.

Lemma le_val_bytes k v : le_val (le_bytes k v) = v mod 256 ^ Z.of_nat k.
Proof.
  revert v. induction k as [|k IH]; intros v; [by rewrite Z.mod_1_r|].
  cbn [le_bytes le_val]. rewrite IH, Nat2Z.inj_succ, Z.pow_succ_r, Z.rem_mul_r by lia. done.
Qed.

Lemma le_bytes_val l : bytes_ok l -> le_bytes (length l) (le_val l) = l.
Proof.
  induction 1 as [|x l Hx Hl IH]; simpl; [done|]. f_equal.
  - unfold u8. rewrite Z.mul_comm, Z.mod_add by lia. apply Z.mod_small. lia.
  - rewrite Z.mul_comm, Z.div_add, Z.div_small, Z.add_0_l by lia. apply IH.
Qed.

Lemma le_val_range l : bytes_ok l -> 0 <= le_val l < 256 ^ Z.of_nat (length l).
Proof.
  induction 1 as [|x l Hx Hl IH]; [done|]. cbn [le_val length]. rewrite Nat2Z.inj_succ, Z.pow_succ_r by lia. lia.
Qed.

(** A byte above lower bits: [|] is addition. *)
Lemma lor_shift a b k : 0 <= k -> 0 <= a < 2 ^ k -> Z.lor a (Z.shiftl b k) = a + b * 2 ^ k.
Proof.
  intros Hk Ha. rewrite <-Z.shiftl_mul_pow2 by done. symmetry. apply Z.add_nocarry_lor.
  apply Z.bits_inj'. intros i Hi. rewrite Z.land_spec, Z.bits_0, Z.shiftl_spec by done.
  destruct (decide (i < k)); [rewrite (Z.testbit_neg_r b) by lia; by rewrite andb_false_r|].
  rewrite <-(Z.mod_small a (2 ^ k)) by done. by rewrite Z.mod_pow2_bits_high by lia.
Qed.

(** ** Loads *)

(** Byte [i] of a list read at [p]. *)
Lemma rd8_nth m p n l i x q :
  readable m p n = true -> slice m p (Z.to_nat n) = l -> l !! i = Some x -> q = p + Z.of_nat i -> rd8 m q = Some x.
Proof. intros Hr Hs Hx ->. by apply (rd8_area m p n l). Qed.

Ltac load_at Hr Hs i :=
  lazymatch goal with
  | |- rd8 _ ?q ≫= _ = _ => rewrite (rd8_nth _ _ _ _ i _ q Hr Hs eq_refl) by lia
  end; cbn [mbind option_bind].

Lemma ltoh16_ua_slice m p x y :
  readable m p 2 = true -> slice m p (Z.to_nat 2) = [x; y] -> 0 <= x < 256 -> ltoh16_ua m p = Some (x + 256 * y).
Proof.
  intros Hr Hs Hx. unfold ltoh16_ua. load_at Hr Hs 0%nat. load_at Hr Hs 1%nat.
  rewrite lor_shift by lia. f_equal. lia.
Qed.

(** The next byte of a load. *)
Lemma le_val_snoc l x : le_val (l ++ [x]) = le_val l + x * 256 ^ Z.of_nat (length l).
Proof.
  induction l as [|y l IH]; [cbn; lia|]. cbn [app le_val length].
  rewrite IH, Nat2Z.inj_succ, Z.pow_succ_r by lia. lia.
Qed.

Lemma lor_next l x k :
  bytes_ok l -> k = 8 * Z.of_nat (length l) -> Z.lor (le_val l) (Z.shiftl x k) = le_val (l ++ [x]).
Proof.
  intros Hl ->. rewrite le_val_snoc, lor_shift by (first [lia | rewrite Z.pow_mul_r by lia; by apply le_val_range]).
  by rewrite Z.pow_mul_r by lia.
Qed.

Lemma ltoh32_ua_slice m p l :
  readable m p 4 = true -> slice m p (Z.to_nat 4) = l -> bytes_ok l -> ltoh32_ua m p = Some (le_val l).
Proof.
  intros Hr Hs Hl. pose proof (length_slice m p 4 Hr) as Hlen. change (Z.to_nat 4) with 4%nat in Hs.
  rewrite Hs in Hlen. destruct l as [|a [|b [|c [|d [|]]]]]; try discriminate. unfold ltoh32_ua.
  load_at Hr Hs 0%nat. load_at Hr Hs 1%nat. load_at Hr Hs 2%nat. load_at Hr Hs 3%nat. f_equal.
  unfold bytes_ok in Hl. rewrite !Forall_cons in Hl.
  replace a with (le_val [a]) at 1 by (cbn; lia).
  by rewrite !lor_next by (first [done | unfold bytes_ok; cbn [app]; rewrite ?Forall_cons; naive_solver]).
Qed.

Lemma ltoh64_ua_slice m p l :
  readable m p 8 = true -> slice m p (Z.to_nat 8) = l -> bytes_ok l -> ltoh64_ua m p = Some (le_val l).
Proof.
  intros Hr Hs Hl. pose proof (length_slice m p 8 Hr) as Hlen. change (Z.to_nat 8) with 8%nat in Hs.
  rewrite Hs in Hlen. destruct l as [|a [|b [|c [|d [|e [|f [|g [|h [|]]]]]]]]]; try discriminate. unfold ltoh64_ua.
  load_at Hr Hs 0%nat. load_at Hr Hs 1%nat. load_at Hr Hs 2%nat. load_at Hr Hs 3%nat.
  load_at Hr Hs 4%nat. load_at Hr Hs 5%nat. load_at Hr Hs 6%nat. load_at Hr Hs 7%nat. f_equal.
  unfold bytes_ok in Hl. rewrite !Forall_cons in Hl.
  replace a with (le_val [a]) at 1 by (cbn; lia).
  by rewrite !lor_next by (first [done | unfold bytes_ok; cbn [app]; rewrite ?Forall_cons; naive_solver]).
Qed.

(** ** Stores *)

Lemma u8_mod v k : 0 <= k -> u8 (v mod 2 ^ (8 + k)) = u8 v.
Proof.
  intros Hk. unfold u8. rewrite Z.pow_add_r by lia. change (2 ^ 8) with 256.
  rewrite Z.rem_mul_r by lia. rewrite Z.mul_comm, Z.mod_add, Z.mod_mod by lia. done.
Qed.

Lemma u8_land v : u8 (Z.land v 0xff) = u8 v.
Proof. unfold u8. change 0xff with (Z.ones 8). rewrite Z.land_ones by lia. by rewrite Z.mod_mod by lia. Qed.

Lemma store_loop_splice n m v p :
  readable m p (Z.of_nat n) = true -> store_loop n m v p = Some (splice m p (le_bytes n v)).
Proof.
  intros Hr. assert (∀ l, readable m p (Z.of_nat (length l + n)) = true ->
    store_loop n (splice m p l) v (p + Z.of_nat (length l)) = Some (splice m p (l ++ le_bytes n v))) as Hgen.
  { clear Hr. revert v. induction n as [|n IH]; intros v l Hr; simpl; [by rewrite app_nil_r|].
    pose proof (proj1 (readable_spec _ _ _) Hr).
    rewrite (wr8_more m p l) by (done || (apply readable_spec; lia)). cbn [mbind option_bind].
    replace (p + Z.of_nat (length l) + 1) with (p + Z.of_nat (length (l ++ [u8 (Z.land v 255)])))
      by (rewrite length_app; simpl; lia).
    rewrite IH.
    - rewrite u8_land, <-app_assoc. by rewrite Z.shiftr_div_pow2 by lia.
    - rewrite length_app. apply readable_spec. simpl. lia. }
  specialize (Hgen [] Hr). simpl in Hgen. rewrite splice_nil, Z.add_0_r in Hgen; [done|].
  apply readable_spec in Hr. lia.
Qed.

(** Byte [i] of a wrapped value. *)
Lemma u8_shiftr_mod v w i :
  0 <= i -> i + 8 <= w -> u8 (Z.shiftr (v mod 2 ^ w) i) = u8 (Z.shiftr v i).
Proof.
  intros Hi Hw. unfold u8. change 256 with (2 ^ 8). apply Z.bits_inj'. intros j Hj.
  destruct (decide (j < 8)).
  - rewrite !Z.mod_pow2_bits_low, !Z.shiftr_spec, Z.mod_pow2_bits_low by lia. done.
  - by rewrite !Z.mod_pow2_bits_high by lia.
Qed.

Lemma htol16_ua_store_splice m v p :
  readable m p 2 = true -> htol16_ua_store m v p = Some (splice m p (le_bytes 2 v)).
Proof.
  intros Hr. unfold htol16_ua_store. pose proof (proj1 (readable_spec _ _ _) Hr).
  rewrite wr8_splice by (apply readable_spec; lia). cbn [mbind option_bind].
  rewrite wr8_more by (done || (apply readable_spec; simpl; lia)). rewrite u8_land. cbn [app le_bytes].
  unfold u16. change 65536 with (2 ^ 16). rewrite u8_shiftr_mod by lia.
  rewrite (u8_mod v 8 ltac:(lia) : u8 (v mod 2 ^ 16) = u8 v). by rewrite Z.shiftr_div_pow2 by lia.
Qed.

Lemma htol32_ua_store_splice m v p :
  readable m p 4 = true -> htol32_ua_store m v p = Some (splice m p (le_bytes 4 v)).
Proof.
  intros Hr. unfold htol32_ua_store. pose proof (proj1 (readable_spec _ _ _) Hr).
  rewrite wr8_splice by (apply readable_spec; lia). cbn [mbind option_bind].
  do 3 (rewrite wr8_more by (done || (apply readable_spec; simpl; lia)); cbn [mbind option_bind app]).
  rewrite !u8_land. cbn [le_bytes]. unfold u32.
  pose proof (u8_shiftr_mod v 32 0) as H0. rewrite !Z.shiftr_0_r in H0.
  change 4294967296 with (2 ^ 32). rewrite H0, !u8_shiftr_mod by lia.
  rewrite !Z.div_div by lia. by rewrite !Z.shiftr_div_pow2 by lia.
Qed.

Lemma le_bytes_mod k v w : 8 * Z.of_nat k <= w -> le_bytes k (v mod 2 ^ w) = le_bytes k v.
Proof.
  revert v w. induction k as [|k IH]; intros v w Hw; [done|]. cbn [le_bytes]. f_equal.
  - replace w with (8 + (w - 8)) by lia. apply u8_mod. lia.
  - rewrite <-(IH (v / 256) (w - 8)) by lia. f_equal.
    replace (2 ^ w) with (256 * 2 ^ (w - 8)) by (change 256 with (2 ^ 8); rewrite <-Z.pow_add_r by lia; f_equal; lia).
    rewrite Z.rem_mul_r by lia. rewrite (Z.mul_comm 256), Z.div_add by lia.
    rewrite Z.div_small by (apply Z.mod_pos_bound; lia). done.
Qed.

Lemma htol64_ua_store_splice m v p :
  readable m p 8 = true -> htol64_ua_store m v p = Some (splice m p (le_bytes 8 v)).
Proof.
  intros Hr. unfold htol64_ua_store, u64. rewrite store_loop_splice by done.
  change 18446744073709551616 with (2 ^ 64). by rewrite le_bytes_mod.
Qed.
