(* ===== verification/MsgRing.v ===== *)
(** * dhd_msgbuf.c: the circular message rings (model)

    A message ring is an array of [max_items] work items in DMA memory with a
    read and a write index, one of them advanced by the host and the other by the
    dongle.  The dongle is not part of the repository: the index it has published,
    which dhd_prot_dma_indx_get or dhd_bus_cmn_readshared reads, is an argument.
    Cache maintenance and doorbells have no effect on the indices and are not
    modelled; there is no linked metadata ring.  An index is a uint16, pointer
    arithmetic is in bytes. *)

From S2P Require Import Prelude.

Definition BCMPCIE_COMMON_MSGRINGS : Z := 5.
Definition BCMPCIE_CMNHDR_PHASE_BIT_INIT : Z := 0x80.
Definition BCMPCIE_FLOWRING_PHASE_NIBBLE_INIT : Z := 0xA0.
Definition BCMPCIE_FLOWRING_PHASE_NIBBLE_WRAP : Z := 0x50.

Record msgbuf_ring := mk_ring {
  idx : Z;            (* uint16 *)
  rd : Z;             (* uint16 *)
  curr_rd : Z;        (* uint16 *)
  wr : Z;             (* uint16 *)
  max_items : Z;      (* uint16 *)
  item_len : Z;       (* uint16 *)
  dma_buf_va : Z;
  current_phase : Z   (* uint8 *)
}.

Definition set_rd (x : Z) (r : msgbuf_ring) : msgbuf_ring :=
  mk_ring (idx r) x (curr_rd r) (wr r) (max_items r) (item_len r) (dma_buf_va r) (current_phase r).
Definition set_curr_rd (x : Z) (r : msgbuf_ring) : msgbuf_ring :=
  mk_ring (idx r) (rd r) x (wr r) (max_items r) (item_len r) (dma_buf_va r) (current_phase r).
Definition set_wr (x : Z) (r : msgbuf_ring) : msgbuf_ring :=
  mk_ring (idx r) (rd r) (curr_rd r) x (max_items r) (item_len r) (dma_buf_va r) (current_phase r).
Definition set_phase (x : Z) (r : msgbuf_ring) : msgbuf_ring :=
  mk_ring (idx r) (rd r) (curr_rd r) (wr r) (max_items r) (item_len r) (dma_buf_va r) x.

(** ** The macros of include/bcmpcie.h *)

Definition READ_AVAIL_SPACE (w r d : Z) : Z := if bool_decide (w >= r) then u32 (w - r) else u32 (d - r).

Definition CHECK_WRITE_SPACE (r w d : Z) : Z :=
  if bool_decide (r > w) then u32 (r - w - 1)
  else if bool_decide (r = 0) || bool_decide (w = 0) then u32 (d - w - 1)
  else u32 (d - w).

Definition DHD_RING_BGN_VA (r : msgbuf_ring) : Z := dma_buf_va r.

Definition DHD_IS_FLOWRING (ringid max_flow_rings : Z) : bool :=
  bool_decide (ringid >= BCMPCIE_COMMON_MSGRINGS)
  && bool_decide (ringid < max_flow_rings + BCMPCIE_COMMON_MSGRINGS).

(** ** Producing *)

(** The address returned (NULL is [None]), [*alloced] as it is left, and the
    ring. *)
Definition dhd_prot_get_ring_space (r : msgbuf_ring) (nitems alloced : Z) (exactly_nitems : bool)
    : option Z * Z * msgbuf_ring :=
  let ring_avail_cnt := u16 (CHECK_WRITE_SPACE (rd r) (wr r) (max_items r)) in
  if bool_decide (ring_avail_cnt = 0)
     || exactly_nitems && bool_decide (ring_avail_cnt < nitems) && bool_decide (max_items r - wr r >= nitems)
  then (None, alloced, r)
  else
    let alloced := u16 (Z.min nitems ring_avail_cnt) in
    let ret_ptr := DHD_RING_BGN_VA r + wr r * item_len r in
    if bool_decide (wr r + alloced = max_items r) then (Some ret_ptr, alloced, set_wr 0 r)
    else if bool_decide (wr r + alloced < max_items r) then (Some ret_ptr, alloced, set_wr (u16 (wr r + alloced)) r)
    else (None, alloced, r).

(** The phase that marks the items of the next pass over the ring. *)
Definition next_phase (is_flowring_nibble : bool) (phase : Z) : Z :=
  if is_flowring_nibble then
    if bool_decide (phase = BCMPCIE_FLOWRING_PHASE_NIBBLE_INIT) then BCMPCIE_FLOWRING_PHASE_NIBBLE_WRAP
    else BCMPCIE_FLOWRING_PHASE_NIBBLE_INIT
  else if bool_decide (phase ≠ 0) then 0 else BCMPCIE_CMNHDR_PHASE_BIT_INIT.

(** The read index [dongle_rd] is fetched only when the cached one leaves no
    space. *)
Definition dhd_prot_alloc_ring_space (max_tx_flowrings : Z) (fr_phase_nibble : bool) (dongle_rd : Z)
    (r : msgbuf_ring) (nitems alloced : Z) (exactly_nitems : bool) : option Z * Z * msgbuf_ring :=
  if bool_decide (nitems = 0) then (None, alloced, r)
  else
    let '(ret_buf, alloced, r) := dhd_prot_get_ring_space r nitems alloced exactly_nitems in
    let '(ret_buf, alloced, r) :=
      match ret_buf with
      | Some _ => (ret_buf, alloced, r)
      | None => dhd_prot_get_ring_space (set_rd dongle_rd r) nitems alloced exactly_nitems
      end in
    match ret_buf with
    | None => (None, alloced, r)
    | Some p =>
        if bool_decide (p = DHD_RING_BGN_VA r) then
          (Some p, alloced,
           set_phase (next_phase (DHD_IS_FLOWRING (idx r) max_tx_flowrings && fr_phase_nibble) (current_phase r)) r)
        else (Some p, alloced, r)
    end.

(** ** Consuming *)

Definition DUMP_TYPE_RESUMED_ON_INVALID_RING_RDWR : Z := 16.

(** What an impossible item count makes the driver do: a core dump, with
    [memdump_type] set, if dumps are enabled, and a reset. *)
Inductive ring_alarm := BUS_MEM_DUMP (memdump_type : Z) | SCHEDULE_RESET.

(** What a read gives: the address, [*available_len] if it is set, the alarms
    in order, and the ring.  [dongle_wr] is the write index the dongle has
    published, any uint16. *)
Definition dhd_prot_get_read_addr (memdump_enabled : bool) (dongle_wr : Z) (r : msgbuf_ring) (bound : Z)
    : option Z * option Z * list ring_alarm * msgbuf_ring :=
  let r := set_curr_rd (rd r) r in
  let r := set_wr dongle_wr r in
  let w := wr r in
  let rd' := rd r in
  let depth := max_items r in
  let items := u16 (READ_AVAIL_SPACE w rd' depth) in
  if bool_decide (items = 0) then (None, None, [], r)
  else if bool_decide (items > max_items r) then
    (None, Some 0,
     (if memdump_enabled then [BUS_MEM_DUMP DUMP_TYPE_RESUMED_ON_INVALID_RING_RDWR] else []) ++ [SCHEDULE_RESET], r)
  else
    let read_addr := dma_buf_va r + rd' * item_len r in
    let items := if bool_decide (bound ≠ 0) then u16 (Z.min items bound) else items in
    let r := if bool_decide (rd r + items >= max_items r) then set_rd 0 r else set_rd (u16 (rd r + items)) r in
    (Some read_addr, Some (u32 (items * item_len r)), [], r).

(** dhd_prot_ring_reset, on the indices: the flags [inited] and
    [create_pending], which no routine here reads, and the DMA buffer's contents
    are left out. *)
Definition dhd_prot_ring_reset (r : msgbuf_ring) : msgbuf_ring := set_curr_rd 0 (set_wr 0 (set_rd 0 r)).
