(* ===== verification/MsgRingTheorems.v ===== *)
(** * The message rings: properties *)

From S2P Require Import Prelude MsgRing.

Ltac mrcbn := cbn [idx rd curr_rd wr max_items item_len dma_buf_va current_phase set_rd set_wr set_phase set_curr_rd] in *.

(** ** Producing, seen from outside

    [prod] items have been produced since the ring was created, [cons] of them
    consumed by the dongle, and [seen] of them known to be consumed by the host.
    Item number [i] lies in slot [i mod max]. *)
Record counters := mk_cnt { prod : Z; cons : Z; seen : Z }.

(** The slots that can be handed out in one piece when [k] items are known to
    be consumed: one slot always stays free, and a piece ends at the end of the
    ring. *)
Definition room (max p k : Z) : Z := Z.min (max - 1 - (p - k)) (max - p mod max).

Definition refused (max p k n : Z) (exactly : bool) : bool :=
  bool_decide (room max p k = 0)
  || exactly && bool_decide (room max p k < n) && bool_decide (max - p mod max >= n).

(** Items of one pass over the ring carry the same phase, those of the next
    pass the other one. *)
Definition item_phase (nibble : bool) (max i : Z) : Z :=
  if Z.even (i / max) then (if nibble then BCMPCIE_FLOWRING_PHASE_NIBBLE_INIT else BCMPCIE_CMNHDR_PHASE_BIT_INIT)
  else (if nibble then BCMPCIE_FLOWRING_PHASE_NIBBLE_WRAP else 0).

(** How many items a request for [n] gets, and the items then known to be
    consumed. *)
Definition granted (max n : Z) (exactly : bool) (c : counters) : option Z * Z :=
  if refused max (prod c) (seen c) n exactly then
    if refused max (prod c) (cons c) n exactly then (None, cons c)
    else (Some (Z.min n (room max (prod c) (cons c))), cons c)
  else (Some (Z.min n (room max (prod c) (seen c))), seen c).

Inductive rop := RAlloc (n : Z) (exactly : bool) | RConsume (j : Z).

(** The slot address, the number of items and their phase. *)
Abbreviation rres := (option (Z * Z * Z)).

Definition rspec (max len va : Z) (nibble : bool) (o : rop) (c : counters) : rres * counters :=
  match o with
  | RAlloc n ex =>
      match granted max n ex c with
      | (Some k, s) => (Some (va + prod c mod max * len, k, item_phase nibble max (prod c)),
                        mk_cnt (prod c + k) (cons c) s)
      | (None, s) => (None, mk_cnt (prod c) (cons c) s)
      end
  | RConsume j => (None, mk_cnt (prod c) (cons c + j) (seen c))
  end.

(** A request for one item at least; the dongle consumes what there is. *)
Definition renabled (o : rop) (c : counters) : Prop :=
  match o with RAlloc n _ => 1 <= n < 65536 | RConsume j => 0 <= j <= prod c - cons c end.

(** The code; the dongle publishes its read index [drd]. *)
Definition rexec (flows : Z) (frn : bool) (o : rop) (r : msgbuf_ring) (drd : Z) : rres * msgbuf_ring * Z :=
  match o with
  | RAlloc n ex =>
      let '(p, k, r) := dhd_prot_alloc_ring_space flows frn drd r n 0 ex in
      (p ← p; Some (p, k, current_phase r), r, drd)
  | RConsume j => (None, r, (drd + j) mod max_items r)
  end.

Fixpoint rexec_all (flows : Z) (frn : bool) (os : list rop) (r : msgbuf_ring) (drd : Z) : list rres * msgbuf_ring * Z :=
  match os with
  | [] => ([], r, drd)
  | o :: os => let '(x, r, drd) := rexec flows frn o r drd in
               let '(xs, r, drd) := rexec_all flows frn os r drd in (x :: xs, r, drd)
  end.
Fixpoint rspec_all (max len va : Z) (nibble : bool) (os : list rop) (c : counters) : list rres * counters :=
  match os with
  | [] => ([], c)
  | o :: os => let '(x, c) := rspec max len va nibble o c in
               let '(xs, c) := rspec_all max len va nibble os c in (x :: xs, c)
  end.
Fixpoint renabled_all (max len va : Z) (nibble : bool) (os : list rop) (c : counters) : Prop :=
  match os with
  | [] => True
  | o :: os => renabled o c ∧ renabled_all max len va nibble os (snd (rspec max len va nibble o c))
  end.

(** ** The representation *)

Record rrep (nibble : bool) (r : msgbuf_ring) (drd : Z) (c : counters) : Prop := {
  rr_max : 1 < max_items r < 65536;
  rr_len : 0 < item_len r;
  rr_order : 0 <= seen c <= cons c ∧ cons c <= prod c;
  rr_full : prod c - seen c <= max_items r - 1;
  rr_wr : wr r = prod c mod max_items r;
  rr_rd : rd r = seen c mod max_items r;
  rr_drd : drd = cons c mod max_items r;
  rr_phase : current_phase r = if bool_decide (prod c = 0) then 0 else item_phase nibble (max_items r) (prod c - 1)
}.

(** The difference of two counters, from their slots. *)
Lemma mod_diff max p k : 0 < max -> 0 <= p - k < max ->
  (k mod max <= p mod max -> p - k = p mod max - k mod max)
  ∧ (p mod max < k mod max -> p - k = p mod max - k mod max + max).
Proof.
  intros Hm Hd. pose proof (Z.div_mod p max ltac:(lia)). pose proof (Z.div_mod k max ltac:(lia)).
  pose proof (Z.mod_pos_bound p max Hm). pose proof (Z.mod_pos_bound k max Hm).
  assert (p / max = k / max ∨ p / max = k / max + 1) as [E|E] by nia; split; nia.
Qed.

Lemma room_check max p k : 1 < max < 65536 -> 0 <= k -> 0 <= p - k <= max - 1 ->
  u16 (CHECK_WRITE_SPACE (k mod max) (p mod max) max) = room max p k ∧ 0 <= room max p k < max.
Proof.
  intros Hm Hk Hd. destruct (mod_diff max p k ltac:(lia) ltac:(lia)) as [H1 H2].
  pose proof (Z.mod_pos_bound p max ltac:(lia)). pose proof (Z.mod_pos_bound k max ltac:(lia)).
  unfold CHECK_WRITE_SPACE, room. destruct (decide (k mod max > p mod max)).
  - rewrite bool_decide_true, u32_small, u16_small by lia. lia.
  - rewrite bool_decide_false by lia.
    destruct (decide (k mod max = 0)) as [Ek|Ek].
    + rewrite (bool_decide_true (k mod max = 0)) by done. cbn [orb]. rewrite u32_small, u16_small by lia. lia.
    + rewrite (bool_decide_false (k mod max = 0)), (bool_decide_false (p mod max = 0)) by lia. cbn [orb].
      rewrite u32_small, u16_small by lia. lia.
Qed.

Lemma mod_add_small max p k : 0 < max -> 0 <= k -> p mod max + k < max -> (p + k) mod max = p mod max + k.
Proof.
  intros Hm Hk Hl. pose proof (Z.mod_pos_bound p max Hm). rewrite <-Zplus_mod_idemp_l. apply Z.mod_small. lia.
Qed.

Lemma mod_add_wrap max p k : 0 < max -> p mod max + k = max -> (p + k) mod max = 0.
Proof. intros Hm Hl. rewrite <-Zplus_mod_idemp_l, Hl. apply Z.mod_same. lia. Qed.

(** One attempt, with [k] items known to be consumed. *)
Lemma get_ring_space_spec r p k n ex :
  1 < max_items r < 65536 -> 0 <= k -> 0 <= p - k <= max_items r - 1 -> 1 <= n < 65536 ->
  rd r = k mod max_items r -> wr r = p mod max_items r ->
  dhd_prot_get_ring_space r n 0 ex
  = if refused (max_items r) p k n ex then (None, 0, r)
    else (Some (dma_buf_va r + p mod max_items r * item_len r), Z.min n (room (max_items r) p k),
          set_wr ((p + Z.min n (room (max_items r) p k)) mod max_items r) r).
Proof.
  intros Hm Hk Hd Hn Hrd Hwr. unfold dhd_prot_get_ring_space. rewrite Hrd, Hwr.
  destruct (room_check (max_items r) p k Hm Hk Hd) as [-> Hr]. unfold refused.
  destruct (_ || _) eqn:E; [done|]. apply orb_false_iff in E as [E _]. apply bool_decide_eq_false in E.
  pose proof (Z.mod_pos_bound p (max_items r) ltac:(lia)).
  assert (Z.min n (room (max_items r) p k) <= max_items r - p mod max_items r) as Hle by (unfold room in *; lia).
  rewrite u16_small by lia. set (j := Z.min n (room (max_items r) p k)) in *. unfold DHD_RING_BGN_VA.
  destruct (decide (p mod max_items r + j = max_items r)) as [Ej|Ej].
  - rewrite bool_decide_true by done. by rewrite mod_add_wrap by lia.
  - rewrite bool_decide_false, bool_decide_true, u16_small by lia. by rewrite mod_add_small by lia.
Qed.

(** ** Phases *)

Lemma phase_same nibble max p : 0 < max -> 0 < p -> p mod max ≠ 0 ->
  item_phase nibble max (p - 1) = item_phase nibble max p.
Proof.
  intros Hm Hp H. unfold item_phase. replace ((p - 1) / max) with (p / max); [done|].
  pose proof (Z.div_mod p max ltac:(lia)). pose proof (Z.mod_pos_bound p max Hm).
  apply (Z.div_unique _ _ _ (p mod max - 1)); lia.
Qed.

Lemma phase_turn nibble max p : 0 < max -> 0 < p -> p mod max = 0 ->
  next_phase nibble (item_phase nibble max (p - 1)) = item_phase nibble max p.
Proof.
  intros Hm Hp H. pose proof (Z.div_mod p max ltac:(lia)).
  assert ((p - 1) / max = p / max - 1) as E by (symmetry; apply (Z.div_unique _ _ _ (max - 1)); lia).
  unfold item_phase. rewrite E, Z.even_sub. change (Z.even 1) with false.
  destruct (Z.even (p / max)), nibble; reflexivity.
Qed.

Lemma phase_pass nibble max p k : 0 < max -> 0 <= p -> 0 < k -> p mod max + k <= max ->
  item_phase nibble max (p + k - 1) = item_phase nibble max p.
Proof.
  intros Hm Hp Hk Hle. unfold item_phase. replace ((p + k - 1) / max) with (p / max); [done|].
  pose proof (Z.div_mod p max ltac:(lia)). pose proof (Z.mod_pos_bound p max Hm).
  apply (Z.div_unique _ _ _ (p mod max + k - 1)); lia.
Qed.

(** ** Simulation *)

(** What never changes. *)
Definition same_ring (r r' : msgbuf_ring) : Prop :=
  idx r' = idx r ∧ max_items r' = max_items r ∧ item_len r' = item_len r ∧ dma_buf_va r' = dma_buf_va r.

Lemma base_test va x len : 0 <= x -> 0 < len -> (va + x * len = va <-> x = 0).
Proof. intros. nia. Qed.

(** The indices and the phase after a successful attempt. *)
Lemma grant_rep nibble r drd c s k :
  rrep nibble r drd c -> seen c <= s <= cons c -> 0 < k <= room (max_items r) (prod c) s ->
  let r1 := set_wr ((prod c + k) mod max_items r) (set_rd (s mod max_items r) r) in
  let r2 := if bool_decide (dma_buf_va r + prod c mod max_items r * item_len r = dma_buf_va r)
            then set_phase (next_phase nibble (current_phase r)) r1 else r1 in
  rrep nibble r2 drd (mk_cnt (prod c + k) (cons c) s) ∧ current_phase r2 = item_phase nibble (max_items r) (prod c)
  ∧ same_ring r r2.
Proof.
  intros [] Hs Hk r1 r2. pose proof (Z.mod_pos_bound (prod c) (max_items r) ltac:(lia)).
  assert (prod c mod max_items r + k <= max_items r ∧ k <= max_items r - 1 - (prod c - s)) as [Hle Hfree]
    by (unfold room in Hk; lia).
  assert (current_phase r2 = item_phase nibble (max_items r) (prod c)) as Hph.
  { unfold r2.
    assert (bool_decide (dma_buf_va r + prod c mod max_items r * item_len r = dma_buf_va r)
            = bool_decide (prod c mod max_items r = 0)) as -> by (apply bool_decide_ext, base_test; lia).
    destruct (decide (prod c mod max_items r = 0)) as [E|E].
    - rewrite bool_decide_true by done. unfold r1. mrcbn. rewrite rr_phase0. case_bool_decide as E0.
      + rewrite E0. unfold item_phase. rewrite Z.div_0_l by lia. by destruct nibble.
      + apply phase_turn; lia.
    - rewrite bool_decide_false by done. unfold r1. mrcbn. rewrite rr_phase0.
      rewrite bool_decide_false by (intros E0; rewrite E0, Z.mod_0_l in E; lia).
      apply phase_same; [lia| |done]. destruct (decide (prod c = 0)) as [E0|]; [|lia]. rewrite E0, Z.mod_0_l in E; lia. }
  assert (same_ring r r2 ∧ wr r2 = (prod c + k) mod max_items r ∧ rd r2 = s mod max_items r) as (Hsame & Hw & Hr).
  { unfold r2, r1, same_ring. by destruct (bool_decide (_ + _ = _)). }
  split; [|done]. pose proof Hsame as (_ & Hmx & Hil & Hva).
  split; cbn [prod cons seen]; rewrite ?Hmx, ?Hil; try (done || lia).
  rewrite Hph, bool_decide_false by lia. symmetry. apply phase_pass; lia.
Qed.

Lemma alloc_sim flows frn r drd c n ex :
  let nibble := DHD_IS_FLOWRING (idx r) flows && frn in
  rrep nibble r drd c -> 1 <= n < 65536 ->
  ∃ r', rexec flows frn (RAlloc n ex) r drd = (fst (rspec (max_items r) (item_len r) (dma_buf_va r) nibble (RAlloc n ex) c), r', drd)
  ∧ rrep nibble r' drd (snd (rspec (max_items r) (item_len r) (dma_buf_va r) nibble (RAlloc n ex) c)) ∧ same_ring r r'.
Proof.
  intros nibble H Hn. pose proof H as []. unfold rexec, rspec, granted, dhd_prot_alloc_ring_space.
  rewrite bool_decide_false by lia.
  rewrite (get_ring_space_spec r (prod c) (seen c) n ex) by (done || lia).
  pose proof (room_check (max_items r) (prod c) (seen c) rr_max0 ltac:(lia) ltac:(lia)) as [_ Hrs].
  pose proof (room_check (max_items r) (prod c) (cons c) rr_max0 ltac:(lia) ltac:(lia)) as [_ Hrc].
  assert (∀ s, refused (max_items r) (prod c) s n ex = false -> room (max_items r) (prod c) s ≠ 0) as Href.
  { intros s E. apply orb_false_iff in E as [E _]. by apply bool_decide_eq_false in E. }
  destruct (refused (max_items r) (prod c) (seen c) n ex) eqn:E1.
  - rewrite (get_ring_space_spec (set_rd drd r) (prod c) (cons c) n ex) by (mrcbn; done || lia). mrcbn.
    destruct (refused (max_items r) (prod c) (cons c) n ex) eqn:E2; cbn [mbind option_bind fst snd].
    + exists (set_rd drd r). split; [done|]. split; [|done]. split; mrcbn; cbn [prod cons seen]; try (done || lia).
    + apply Href in E2.
      destruct (grant_rep nibble r drd c (cons c) (Z.min n (room (max_items r) (prod c) (cons c))) H) as (Hrep & Hph & Hsame); [lia..|].
      rewrite <-rr_drd0 in *. fold nibble. eexists. split; [|split; [exact Hrep|exact Hsame]].
      rewrite <-Hph. unfold DHD_RING_BGN_VA. by destruct (bool_decide (_ + _ = _)).
  - apply Href in E1. cbn [mbind option_bind fst snd]. mrcbn.
    destruct (grant_rep nibble r drd c (seen c) (Z.min n (room (max_items r) (prod c) (seen c))) H) as (Hrep & Hph & Hsame); [lia..|].
    assert (set_rd (seen c mod max_items r) r = r) as Er by (rewrite <-rr_rd0; by destruct r).
    rewrite Er in *. fold nibble. eexists. split; [|split; [exact Hrep|exact Hsame]].
    rewrite <-Hph. unfold DHD_RING_BGN_VA. by destruct (bool_decide (_ + _ = _)).
Qed.

Lemma consume_sim nibble r drd c j :
  rrep nibble r drd c -> 0 <= j <= prod c - cons c ->
  rrep nibble r ((drd + j) mod max_items r) (mk_cnt (prod c) (cons c + j) (seen c)).
Proof.
  intros [] Hj. split; cbn [prod cons seen]; try (done || lia). by rewrite rr_drd0, Zplus_mod_idemp_l.
Qed.

Lemma rexec_all_sim flows frn nibble os : ∀ r drd c,
  nibble = DHD_IS_FLOWRING (idx r) flows && frn ->
  rrep nibble r drd c -> renabled_all (max_items r) (item_len r) (dma_buf_va r) nibble os c ->
  ∃ r' drd', rexec_all flows frn os r drd
             = (fst (rspec_all (max_items r) (item_len r) (dma_buf_va r) nibble os c), r', drd')
  ∧ rrep nibble r' drd' (snd (rspec_all (max_items r) (item_len r) (dma_buf_va r) nibble os c)) ∧ same_ring r r'.
Proof.
  induction os as [|o os IH]; intros r drd c Hnib H He; cbn [rexec_all rspec_all]; [by exists r, drd|].
  destruct He as [Ho He].
  assert (∃ r1 drd1, rexec flows frn o r drd = (fst (rspec (max_items r) (item_len r) (dma_buf_va r) nibble o c), r1, drd1)
    ∧ rrep nibble r1 drd1 (snd (rspec (max_items r) (item_len r) (dma_buf_va r) nibble o c)) ∧ same_ring r r1)
    as (r1 & drd1 & -> & H1 & Hs1).
  { destruct o as [n ex|j].
    - rewrite Hnib in *. destruct (alloc_sim flows frn r drd c n ex H Ho) as (r1 & E & H1 & Hs1). eauto.
    - eexists r, _. split; [done|]. split; [by apply consume_sim|done]. }
  destruct (rspec _ _ _ _ o c) as [x c1]. cbn [fst snd] in *. destruct Hs1 as (Hi1 & Hm1 & Hl1 & Hv1).
  specialize (IH r1 drd1 c1). rewrite Hi1, Hm1, Hl1, Hv1 in IH.
  destruct (IH Hnib H1 He) as (r2 & drd2 & -> & H2 & Hs2).
  destruct (rspec_all _ _ _ _ os c1) as [xs c2]. cbn [fst snd] in *.
  exists r2, drd2. split; [done|]. split; [done|]. unfold same_ring in *. intuition congruence.
Qed.

(** C5.  Every sequence of allocations on a new submission ring, with the
    dongle consuming items in between, hands out the work items one after the
    other, item [i] in slot [i mod max_items] and with the phase of its pass; at
    any time fewer than [max_items] items are unconsumed, so that no slot is
    handed out before the dongle has consumed what it held. *)
Theorem msgring_run_refines (flows : Z) (frn : bool) (r : msgbuf_ring) (os : list rop) :
  let nibble := DHD_IS_FLOWRING (idx r) flows && frn in
  1 < max_items r < 65536 -> 0 < item_len r -> rd r = 0 -> wr r = 0 -> current_phase r = 0 ->
  renabled_all (max_items r) (item_len r) (dma_buf_va r) nibble os (mk_cnt 0 0 0) ->
  let '(xs, c) := rspec_all (max_items r) (item_len r) (dma_buf_va r) nibble os (mk_cnt 0 0 0) in
  ∃ r' drd', rexec_all flows frn os r 0 = (xs, r', drd') ∧ rrep nibble r' drd' c.
Proof.
  intros nibble Hm Hl Hrd Hwr Hph He.
  assert (rrep nibble r 0 (mk_cnt 0 0 0)) as H
    by (split; cbn [prod cons seen]; rewrite ?Z.mod_0_l by lia; done || lia).
  destruct (rexec_all_sim flows frn nibble os r 0 (mk_cnt 0 0 0) eq_refl H He) as (r' & drd' & E & Hrep & _).
  destruct (rspec_all _ _ _ _ os _) as [xs c]. by exists r', drd'.
Qed.

Lemma msgring_run_refines_witness :
  ∃ r' drd', rexec_all 4 true [RAlloc 3 false; RAlloc 2 true; RConsume 2; RAlloc 2 false; RAlloc 5 false]
               (mk_ring 6 0 0 0 4 8 1000 0) 0
    = ([Some (1000, 3, 0xA0); None; None; Some (1024, 1, 0xA0); Some (1000, 1, 0x50)], r', drd').
Proof.
  pose proof (msgring_run_refines 4 true (mk_ring 6 0 0 0 4 8 1000 0)
    [RAlloc 3 false; RAlloc 2 true; RConsume 2; RAlloc 2 false; RAlloc 5 false]) as H.
  cbn zeta in H. specialize (H ltac:(cbn; lia) ltac:(cbn; lia) eq_refl eq_refl eq_refl
    ltac:(vm_compute; repeat split; first [reflexivity | discriminate])).
  destruct H as (r' & drd' & E & _). exists r', drd'. exact E.
Defined.

(** ** No hang *)

Lemma granted_some max n ex p s :
  refused max p s n ex = false -> 0 <= room max p s -> 1 <= n ->
  1 <= Z.min n (room max p s) <= n ∧ (ex = true -> Z.min n (room max p s) < n -> max - p mod max < n).
Proof.
  intros Er H0 Hn. unfold refused in Er. apply orb_false_iff in Er as [Ez Ee]. apply bool_decide_eq_false in Ez.
  split; [lia|]. intros -> Hlt. cbn [andb] in Ee.
  apply andb_false_iff in Ee as [Ee|Ee]; apply bool_decide_eq_false in Ee; lia.
Qed.

(** C6.  A request that may get fewer items than it asks for fails only when
    the dongle has left all but one slot unconsumed; once the dongle has consumed
    everything, every request for less than the whole ring gets an item at least.
    A request for exactly [n] items gets fewer only where fewer than [n] slots
    are left before the end of the ring. *)
Theorem msgring_progress (flows : Z) (frn : bool) (r : msgbuf_ring) (drd n : Z) (exactly : bool) (c : counters) :
  rrep (DHD_IS_FLOWRING (idx r) flows && frn) r drd c -> 1 <= n < max_items r ->
  (exactly = false ∧ prod c - cons c < max_items r - 1 ∨ prod c = cons c) ->
  ∃ k r', rexec flows frn (RAlloc n exactly) r drd
          = (Some (dma_buf_va r + prod c mod max_items r * item_len r, k,
                   item_phase (DHD_IS_FLOWRING (idx r) flows && frn) (max_items r) (prod c)), r', drd)
  ∧ 1 <= k <= n ∧ (exactly = true -> k < n -> max_items r - prod c mod max_items r < n)
  ∧ ∃ s, rrep (DHD_IS_FLOWRING (idx r) flows && frn) r' drd (mk_cnt (prod c + k) (cons c) s).
Proof.
  intros H Hn Hfree. pose proof H as [].
  pose proof (Z.mod_pos_bound (prod c) (max_items r) ltac:(lia)) as Hmod.
  assert (refused (max_items r) (prod c) (cons c) n exactly = false) as Hnr.
  { unfold refused, room. rewrite bool_decide_false by lia. cbn [orb]. destruct exactly; [|done]. cbn [andb].
    destruct Hfree as [[? _]|Hfree]; [done|]. rewrite Hfree in *. rewrite Z.sub_diag, Z.sub_0_r.
    apply andb_false_iff. destruct (decide (max_items r - cons c mod max_items r >= n)).
    - left. apply bool_decide_false. lia.
    - right. by apply bool_decide_false. }
  pose proof (room_check (max_items r) (prod c) (seen c) rr_max0 ltac:(lia) ltac:(lia)) as [_ Hrs].
  pose proof (room_check (max_items r) (prod c) (cons c) rr_max0 ltac:(lia) ltac:(lia)) as [_ Hrc].
  destruct (alloc_sim flows frn r drd c n exactly H ltac:(lia)) as (r' & E & Hrep & _).
  unfold rspec, granted in E, Hrep. rewrite Hnr in E, Hrep.
  destruct (refused (max_items r) (prod c) (seen c) n exactly) eqn:Es; cbn [fst snd] in E, Hrep;
    (eexists _, r'; split; [exact E|]);
    [destruct (granted_some _ n _ _ _ Hnr ltac:(lia) ltac:(lia))|destruct (granted_some _ n _ _ _ Es ltac:(lia) ltac:(lia))];
    eauto.
Qed.

Lemma msgring_progress_witness :
  ∃ k r', rexec 4 false (RAlloc 3 true) (mk_ring 6 1 0 3 4 8 1000 0x80) 3 = (Some (1024, k, 0x80), r', 3) ∧ 1 <= k <= 3.
Proof.
  destruct (msgring_progress 4 false (mk_ring 6 1 0 3 4 8 1000 0x80) 3 3 true (mk_cnt 3 3 1)) as (k & r' & E & Hk & _).
  - split; vm_compute; repeat split; first [reflexivity | discriminate].
  - vm_compute. repeat split; discriminate.
  - right. reflexivity.
  - exists k, r'. split; [exact E|exact Hk].
Defined.

(** ** Consuming *)

(** The slots between the read and the write index, in the order of reading. *)
Definition pending (r : msgbuf_ring) : list Z :=
  if bool_decide (rd r <= wr r) then seqZ (rd r) (wr r - rd r)
  else seqZ (rd r) (max_items r - rd r) ++ seqZ 0 (wr r).

Definition limit (bound n : Z) : Z := if bool_decide (bound ≠ 0) then Z.min n bound else n.

(** The slots up to the write index or the end of the ring. *)
Definition run_length (r : msgbuf_ring) : Z :=
  if bool_decide (rd r <= wr r) then wr r - rd r else max_items r - rd r.

Lemma take_seqZ k a n : 0 <= k <= n -> take (Z.to_nat k) (seqZ a n) = seqZ a k ∧ drop (Z.to_nat k) (seqZ a n) = seqZ (a + k) (n - k).
Proof.
  intros Hk. replace n with (k + (n - k)) at 1 2 by lia. rewrite seqZ_app by lia.
  assert (length (seqZ a k) = Z.to_nat k) as Hl by apply length_seqZ.
  split; [by apply take_app_length'|by apply drop_app_length'].
Qed.

Lemma read_items r : 0 <= rd r < max_items r -> 0 <= wr r < max_items r -> max_items r < 65536 ->
  u16 (READ_AVAIL_SPACE (wr r) (rd r) (max_items r)) = run_length r ∧ 0 <= run_length r
  ∧ rd r + run_length r <= max_items r.
Proof.
  intros Hr Hw Hm. unfold READ_AVAIL_SPACE, run_length. case_bool_decide as E.
  - rewrite (bool_decide_true (rd r <= wr r)), u32_small, u16_small by lia. lia.
  - rewrite (bool_decide_false (rd r <= wr r)), u32_small, u16_small by lia. lia.
Qed.

(** Taking [k] slots of a run off the front. *)
Lemma pending_advance r k :
  0 <= rd r < max_items r -> 0 <= wr r < max_items r -> 0 < k <= run_length r ->
  let r' := if bool_decide (rd r + k >= max_items r) then set_rd 0 r else set_rd (rd r + k) r in
  take (Z.to_nat k) (pending r) = seqZ (rd r) k ∧ pending r' = drop (Z.to_nat k) (pending r)
  ∧ rd r' = (rd r + k) mod max_items r ∧ wr r' = wr r ∧ same_ring r r'.
Proof.
  intros Hr Hw Hk r'. unfold run_length in Hk.
  assert (rd r' = (rd r + k) mod max_items r ∧ wr r' = wr r ∧ same_ring r r') as (E1 & E2 & E3).
  { unfold r', same_ring. destruct (decide (rd r + k >= max_items r)); mrcbn.
    - rewrite bool_decide_true by done. split; [|done]. mrcbn.
      replace (rd r + k) with (max_items r) by (case_bool_decide; lia). by rewrite Z.mod_same by lia.
    - rewrite bool_decide_false by done. split; [|done]. mrcbn. by rewrite Z.mod_small by lia. }
  pose proof E3 as (_ & Hmx & _). unfold pending. rewrite E2, Hmx.
  destruct (decide (rd r <= wr r)) as [Hle|Hgt].
  - rewrite (bool_decide_true (rd r <= wr r)) in * by done. destruct (take_seqZ k (rd r) (wr r - rd r)) as [Ht Hd]; [lia|].
    assert (rd r' = rd r + k) as Erd by (rewrite E1; apply Z.mod_small; lia).
    rewrite Ht, Hd, Erd, bool_decide_true by lia. split; [done|]. split; [f_equal; lia|].
    split; [symmetry; apply Z.mod_small; lia|done].
  - rewrite (bool_decide_false (rd r <= wr r)) in * by done.
    destruct (take_seqZ k (rd r) (max_items r - rd r)) as [Ht Hd]; [lia|].
    assert (length (seqZ (rd r) (max_items r - rd r)) = Z.to_nat (max_items r - rd r)) as Hl by apply length_seqZ.
    rewrite take_app_le, drop_app_le, Ht, Hd by lia. split; [done|]. split; [|by split].
    destruct (decide (rd r + k = max_items r)) as [Ek|Ek].
    + assert (rd r' = 0) as Erd by (rewrite E1, Ek; apply Z.mod_same; lia).
      rewrite Erd, bool_decide_true by lia. replace (max_items r - rd r - k) with 0 by lia. cbn [app].
      by rewrite Z.sub_0_r.
    + assert (rd r' = rd r + k) as Erd by (rewrite E1; apply Z.mod_small; lia).
      rewrite Erd, bool_decide_false by lia. f_equal. f_equal. lia.
Qed.

(** C7.  With a write index of the dongle inside the ring, a read returns the
    oldest pending slots, in one piece and at most [bound] of them if that is not
    zero, and leaves the others pending; NULL means that none is.  The write
    index is not checked against the ring: one past the end by up to the read
    index passes the test on the item count, and the reader gets a piece that
    ends outside the buffer. *)
Theorem msgring_read_spec (dump : bool) (dongle_wr bound : Z) (r0 : msgbuf_ring) :
  0 <= rd r0 < max_items r0 -> max_items r0 < 65536 -> 0 < item_len r0 ->
  max_items r0 * item_len r0 < 4294967296 -> 0 <= dongle_wr < 65536 -> 0 <= bound ->
  let r := set_wr dongle_wr (set_curr_rd (rd r0) r0) in
  (dongle_wr < max_items r0 ->
    (pending r = [] -> dhd_prot_get_read_addr dump dongle_wr r0 bound = (None, None, [], r))
    ∧ (pending r ≠ [] -> ∃ k r', dhd_prot_get_read_addr dump dongle_wr r0 bound
          = (Some (dma_buf_va r0 + rd r0 * item_len r0), Some (k * item_len r0), [], r')
        ∧ k = limit bound (run_length r) ∧ 0 < k
        ∧ take (Z.to_nat k) (pending r) = seqZ (rd r0) k ∧ pending r' = drop (Z.to_nat k) (pending r)
        ∧ rd r' = (rd r0 + k) mod max_items r0))
  ∧ (max_items r0 < dongle_wr <= rd r0 + max_items r0 -> (dongle_wr - rd r0) * item_len r0 < 4294967296 ->
     ∃ r', dhd_prot_get_read_addr dump dongle_wr r0 0
           = (Some (dma_buf_va r0 + rd r0 * item_len r0), Some ((dongle_wr - rd r0) * item_len r0), [], r')
     ∧ dma_buf_va r0 + max_items r0 * item_len r0
       < dma_buf_va r0 + rd r0 * item_len r0 + (dongle_wr - rd r0) * item_len r0).
Proof.
  intros Hrd Hmx Hil Hsz Hdw Hbd r. split.
  - intros Hin. assert (0 <= rd r < max_items r ∧ 0 <= wr r < max_items r) as [Hr Hw] by (unfold r; mrcbn; lia).
    destruct (read_items r Hr Hw ltac:(done)) as (Hitems & Hge & Hend).
    unfold dhd_prot_get_read_addr. fold r. rewrite Hitems.
    assert (pending r = [] <-> run_length r = 0) as Hnil.
    { unfold pending, run_length. case_bool_decide.
      - split; [intros E; apply (f_equal length) in E; rewrite length_seqZ in E; cbn [length] in E; lia|intros ->; done].
      - split; [intros E; apply (f_equal length) in E; rewrite length_app, !length_seqZ in E; cbn [length] in E; lia|lia]. }
    split.
    + intros E. rewrite bool_decide_true by (by apply Hnil). done.
    + intros E. assert (run_length r ≠ 0) by (rewrite <-Hnil; done).
      rewrite !bool_decide_false by (unfold r in *; mrcbn; lia).
      assert ((if bool_decide (bound ≠ 0) then u16 (Z.min (run_length r) bound) else run_length r)
              = limit bound (run_length r)) as ->.
      { unfold limit. case_bool_decide; [|done]. apply u16_small. unfold r in *. mrcbn. lia. }
      assert (0 < limit bound (run_length r) <= run_length r) as Hk by (unfold limit; case_bool_decide; lia).
      set (k := limit bound (run_length r)) in *.
      destruct (pending_advance r k Hr Hw Hk) as (Ht & Hd & Hrd' & _ & _).
      change (max_items r) with (max_items r0) in *. rewrite (u16_small (rd r + k)) by lia.
      eexists k, _. split; [|split_and!; [done|lia|exact Ht|exact Hd|exact Hrd']].
      do 2 f_equal. f_equal. f_equal.
      replace (item_len (if bool_decide (rd r + k >= max_items r0) then set_rd 0 r else set_rd (rd r + k) r))
        with (item_len r0) by by destruct (bool_decide _).
      apply u32_small. nia.
  - intros Hout Hb. unfold dhd_prot_get_read_addr. fold r. unfold READ_AVAIL_SPACE, r. mrcbn.
    rewrite (bool_decide_true (dongle_wr >= rd r0)), u32_small, u16_small by lia. rewrite 2!bool_decide_false by lia.
    rewrite (bool_decide_false (0 ≠ 0)), bool_decide_true by lia. mrcbn. eexists. split; [rewrite u32_small by nia; reflexivity|]. nia.
Qed.

Lemma msgring_read_spec_witness :
  (∃ r', dhd_prot_get_read_addr true 2 (mk_ring 3 6 0 6 8 16 4096 0) 0 = (Some 4192, Some 32, [], r') ∧ rd r' = 0)
  ∧ ∃ r', dhd_prot_get_read_addr true 14 (mk_ring 3 6 0 6 8 16 4096 0) 0 = (Some 4192, Some 128, [], r').
Proof.
  destruct (msgring_read_spec true 2 0 (mk_ring 3 6 0 6 8 16 4096 0)) as [H _]; [cbn; lia..|].
  destruct (msgring_read_spec true 14 0 (mk_ring 3 6 0 6 8 16 4096 0)) as [_ H2]; [cbn; lia..|]. split.
  - destruct (H ltac:(cbn; lia)) as [_ H1]. destruct (H1 ltac:(discriminate)) as (k & r' & E & Hk & _ & _ & _ & Hr).
    exists r'. subst k. split; [exact E|exact Hr].
  - destruct (H2 ltac:(cbn; lia) ltac:(cbn; lia)) as (r' & E & _). exists r'. exact E.
Defined.
