(* ===== verification/FlowQueue.v ===== *)
(** * dhd_flowring.c: the queue in front of a flow ring (model)

    A packet of the network stack waits in the queue of its flow until the
    flow's ring has room.  The queue links the packets through the link field
    that hnd_pktq.c uses, so it lives in the packet store of [Pktq].

    BCM_ROUTER_DHD is not defined: the throttle looks at the queue's own length,
    and the macros DHD_CUMM_CTR_INCR and DHD_CUMM_CTR_DECR do nothing.  The field
    [list] of the structure is initialised and never used.  [None] is a
    dereference of NULL or of a packet that is not allocated. *)

From S2P Require Import Prelude Pktq.

Definition BCME_OK : Z := 0.
Definition BCME_NORESOURCE : Z := -22.

(** The counters a queue may point to: the two of dhd_pub, or others given to
    dhd_flow_ring_config_thresholds. *)
Inductive cumm_ctr_ptr := CUMM_CTR | L2CUMM_CTR | OTHER_CTR (p : positive).

(** The callback for a queue that is full: dhd_flow_queue_overflow, or another
    function given to dhd_flow_queue_register. *)
Inductive flow_queue_cb := CB_OVERFLOW | CB_OTHER (f : positive).

Record flow_queue := mk_fq {
  fq_head : ptr;
  fq_tail : ptr;
  fq_len : Z;              (* uint16 *)
  fq_max : Z;              (* uint16 *)
  fq_threshold : Z;        (* uint32 *)
  fq_clen_ptr : option cumm_ctr_ptr;
  fq_failures : Z;         (* uint32 *)
  fq_cb : flow_queue_cb;
  fq_l2threshold : Z;      (* uint32 *)
  fq_l2clen_ptr : option cumm_ctr_ptr
}.

(** Assignments. *)
Definition fq_set_head (x : ptr) (q : flow_queue) : flow_queue :=
  mk_fq x (fq_tail q) (fq_len q) (fq_max q) (fq_threshold q) (fq_clen_ptr q) (fq_failures q) (fq_cb q)
    (fq_l2threshold q) (fq_l2clen_ptr q).
Definition fq_set_tail (x : ptr) (q : flow_queue) : flow_queue :=
  mk_fq (fq_head q) x (fq_len q) (fq_max q) (fq_threshold q) (fq_clen_ptr q) (fq_failures q) (fq_cb q)
    (fq_l2threshold q) (fq_l2clen_ptr q).
Definition fq_set_len (x : Z) (q : flow_queue) : flow_queue :=
  mk_fq (fq_head q) (fq_tail q) x (fq_max q) (fq_threshold q) (fq_clen_ptr q) (fq_failures q) (fq_cb q)
    (fq_l2threshold q) (fq_l2clen_ptr q).
Definition DHD_FLOW_QUEUE_SET_MAX (budget : Z) (q : flow_queue) : flow_queue :=
  mk_fq (fq_head q) (fq_tail q) (fq_len q) (u16 (budget - 1)) (fq_threshold q) (fq_clen_ptr q) (fq_failures q)
    (fq_cb q) (fq_l2threshold q) (fq_l2clen_ptr q).
Definition DHD_FLOW_QUEUE_SET_THRESHOLD (cumm_threshold : Z) (q : flow_queue) : flow_queue :=
  mk_fq (fq_head q) (fq_tail q) (fq_len q) (fq_max q) (u32 (cumm_threshold - 1)) (fq_clen_ptr q) (fq_failures q)
    (fq_cb q) (fq_l2threshold q) (fq_l2clen_ptr q).
Definition DHD_FLOW_QUEUE_SET_CLEN (p : option cumm_ctr_ptr) (q : flow_queue) : flow_queue :=
  mk_fq (fq_head q) (fq_tail q) (fq_len q) (fq_max q) (fq_threshold q) p (fq_failures q) (fq_cb q)
    (fq_l2threshold q) (fq_l2clen_ptr q).
Definition DHD_FLOW_QUEUE_SET_L2THRESHOLD (l2cumm_threshold : Z) (q : flow_queue) : flow_queue :=
  mk_fq (fq_head q) (fq_tail q) (fq_len q) (fq_max q) (fq_threshold q) (fq_clen_ptr q) (fq_failures q) (fq_cb q)
    (u32 (l2cumm_threshold - 1)) (fq_l2clen_ptr q).
Definition DHD_FLOW_QUEUE_SET_L2CLEN (p : option cumm_ctr_ptr) (q : flow_queue) : flow_queue :=
  mk_fq (fq_head q) (fq_tail q) (fq_len q) (fq_max q) (fq_threshold q) (fq_clen_ptr q) (fq_failures q) (fq_cb q)
    (fq_l2threshold q) p.
Definition fq_set_failures (x : Z) (q : flow_queue) : flow_queue :=
  mk_fq (fq_head q) (fq_tail q) (fq_len q) (fq_max q) (fq_threshold q) (fq_clen_ptr q) x (fq_cb q)
    (fq_l2threshold q) (fq_l2clen_ptr q).

Definition dhd_flow_queue_register (q : flow_queue) (cb : flow_queue_cb) : flow_queue :=
  mk_fq (fq_head q) (fq_tail q) (fq_len q) (fq_max q) (fq_threshold q) (fq_clen_ptr q) (fq_failures q) cb
    (fq_l2threshold q) (fq_l2clen_ptr q).

Definition DHD_FLOW_QUEUE_EMPTY (q : flow_queue) : bool := bool_decide (fq_len q = 0).
Definition DHD_FLOW_QUEUE_FULL (q : flow_queue) : bool := bool_decide (fq_len q >= fq_max q).
Definition dhd_flow_queue_throttle (q : flow_queue) : bool := DHD_FLOW_QUEUE_FULL q.

Definition dhd_flow_queue_overflow : Z := BCME_NORESOURCE.

Definition dhd_flow_queue_reinit (max : Z) (q : flow_queue) : flow_queue :=
  let q := fq_set_len 0 (fq_set_tail None (fq_set_head None q)) in
  let q := DHD_FLOW_QUEUE_SET_THRESHOLD max (DHD_FLOW_QUEUE_SET_MAX max q) in
  let q := DHD_FLOW_QUEUE_SET_L2CLEN (Some L2CUMM_CTR) (DHD_FLOW_QUEUE_SET_CLEN (Some CUMM_CTR) q) in
  dhd_flow_queue_register (fq_set_failures 0 q) CB_OVERFLOW.

Definition dhd_flow_queue_init (max : Z) (q : flow_queue) : flow_queue := dhd_flow_queue_reinit max q.

(** The assignments of dhd_flow_ring_config_thresholds to the queue of the
    flow. *)
Definition config_thresholds (queue_budget cumm_threshold : Z) (cumm_ctr : option cumm_ctr_ptr)
    (l2cumm_threshold : Z) (l2cumm_ctr : option cumm_ctr_ptr) (q : flow_queue) : flow_queue :=
  let q := DHD_FLOW_QUEUE_SET_MAX queue_budget q in
  let q := DHD_FLOW_QUEUE_SET_CLEN cumm_ctr (DHD_FLOW_QUEUE_SET_THRESHOLD cumm_threshold q) in
  DHD_FLOW_QUEUE_SET_L2CLEN l2cumm_ctr (DHD_FLOW_QUEUE_SET_L2THRESHOLD l2cumm_threshold q).

Section Callback.
(** What a registered callback answers for a packet that is turned away; it does
    not change the queue. *)
Context (other_cb : positive -> flow_queue -> pkt -> Z).

Definition call_cb (q : flow_queue) (p : pkt) : Z :=
  match fq_cb q with CB_OVERFLOW => dhd_flow_queue_overflow | CB_OTHER f => other_cb f q p end.

(** [queue->failures++; ret = ( *queue->cb)(queue, pkt);] *)
Definition turn_away (h : heap) (q : flow_queue) (p : pkt) : Z * heap * flow_queue :=
  let q := fq_set_failures (u32 (fq_failures q + 1)) q in
  (call_cb q p, h, q).

Definition dhd_flow_queue_enqueue (h : heap) (q : flow_queue) (p : pkt) : option (Z * heap * flow_queue) :=
  if dhd_flow_queue_throttle q then Some (turn_away h q p)
  else
    '(h, q) ← (if isNULL (fq_head q) then Some (h, fq_set_head (Some p) q)
               else t ← fq_tail q; h ← PKTSETLINK h t (Some p); Some (h, q));
    h ← PKTSETLINK h p None;
    let q := fq_set_tail (Some p) q in
    Some (BCME_OK, h, fq_set_len (u16 (fq_len q + 1)) q).

Definition dhd_flow_queue_enqueue_head (h : heap) (q : flow_queue) (p : pkt) : option (Z * heap * flow_queue) :=
  if dhd_flow_queue_throttle q then Some (turn_away h q p)
  else
    '(h, q) ← (if isNULL (fq_head q) then
                 let q := fq_set_head (Some p) q in
                 h ← PKTSETLINK h p None; Some (h, fq_set_tail (Some p) q)
               else h ← PKTSETLINK h p (fq_head q); Some (h, fq_set_head (Some p) q));
    Some (BCME_OK, h, fq_set_len (u16 (fq_len q + 1)) q).
End Callback.

Definition dhd_flow_queue_dequeue (h : heap) (q : flow_queue) : option (ptr * heap * flow_queue) :=
  match fq_head q with
  | None => Some (None, h, q)
  | Some p =>
      nx ← PKTLINK h p;
      let q := fq_set_head nx q in
      let q := if isNULL nx then fq_set_tail None q else q in
      let q := fq_set_len (u16 (fq_len q - 1)) q in
      h ← PKTSETLINK h p None;
      Some (Some p, h, q)
  end.

Definition dhd_flow_queue_reinsert (h : heap) (q : flow_queue) (p : pkt) : option (heap * flow_queue) :=
  let q := if isNULL (fq_head q) then fq_set_tail (Some p) q else q in
  h ← PKTSETLINK h p (fq_head q);
  let q := fq_set_head (Some p) q in
  Some (h, fq_set_len (u16 (fq_len q + 1)) q).

(** [while ((pkt = dhd_flow_queue_dequeue(dhdp, queue)) != NULL)
       PKTFREE(osh, pkt, TRUE);]
    A packet that is freed is no longer in the store.  A run that ends dequeues
    a packet once, so the packets of the store and one step more are fuel
    enough. *)
Fixpoint flush_loop (fuel : nat) (h : heap) (q : flow_queue) : option (heap * flow_queue) :=
  match fuel with
  | O => None
  | S fuel =>
      '(p, h, q) ← dhd_flow_queue_dequeue h q;
      match p with
      | None => Some (h, q)
      | Some p => flush_loop fuel (delete p h) q
      end
  end.

Definition flow_queue_flush (h : heap) (q : flow_queue) : option (heap * flow_queue) :=
  flush_loop (S (size h)) h q.
