(* ===== verification/FlowQueueTheorems.v ===== *)
(** * dhd_flowring.c: the queue in front of a flow ring, its properties

    The pointers of a queue are those of a [pktq_prec], so the lemmas of
    [PktqSpec] about linked packets carry over. *)

From S2P Require Import Prelude Pktq PktqSpec FlowQueue.

(** The queue seen as a queue of hnd_pktq.c, and such a queue put back. *)
Definition fq_view (q : flow_queue) : pktq_prec := mk_prec (fq_head q) (fq_tail q) (fq_len q) (fq_max q) 0 0.
Definition fq_put (c : pktq_prec) (q : flow_queue) : flow_queue :=
  fq_set_len (n_pkts c) (fq_set_tail (tail c) (fq_set_head (head c) q)).

(** [q] holds the packets [l], first to last. *)
Definition fqrep (h : heap) (q : flow_queue) (l : list pkt) : Prop := qrep h (fq_view q) l.

(** What the operations on the packets leave alone. *)
Definition fq_same (q1 q2 : flow_queue) : Prop :=
  fq_max q1 = fq_max q2 ∧ fq_cb q1 = fq_cb q2 ∧ fq_threshold q1 = fq_threshold q2
  ∧ fq_l2threshold q1 = fq_l2threshold q2 ∧ fq_clen_ptr q1 = fq_clen_ptr q2
  ∧ fq_l2clen_ptr q1 = fq_l2clen_ptr q2.

Lemma fqrep_put h c q l :
  qrep h c l -> max_pkts c = fq_max q -> fqrep h (fq_put c q) l.
Proof. intros [H1 H2 H3 H4] Hm. by split. Qed.

Lemma fq_same_put c q : fq_same (fq_put c q) q.
Proof. by repeat split. Qed.

Lemma fqrep_len h q l : fqrep h q l -> fq_len q = Z.of_nat (length l) ∧ Z.of_nat (length l) < 65536.
Proof. intros [_ _ H3 H4]. simpl in *. lia. Qed.

Lemma fqrep_frame h h' q l : (∀ x, x ∈ l -> h' !! x = h !! x) -> fqrep h q l -> fqrep h' q l.
Proof. apply qrep_frame. Qed.

Lemma dhd_flow_queue_dequeue_view h q :
  dhd_flow_queue_dequeue h q = '(p, h', c) ← deq_head h (fq_view q); Some (p, h', fq_put c q).
Proof.
  unfold dhd_flow_queue_dequeue, deq_head. cbn [head fq_view]. destruct q as [hd ? ? ? ? ? ? ? ? ?]. cbn.
  destruct hd as [p|]; [|done]. unfold PKTLINK. destruct (h !! p) as [nx|] eqn:E; [|done]. cbn.
  rewrite PKTSETLINK_Some by (rewrite E; eauto). cbn. by destruct nx.
Qed.

Lemma dhd_flow_queue_reinsert_view h q p :
  dhd_flow_queue_reinsert h q p = '(h', c) ← enq_head h (fq_view q) p; Some (h', fq_put c q).
Proof.
  unfold dhd_flow_queue_reinsert, enq_head. destruct q as [hd ? ? ? ? ? ? ? ? ?]. cbn.
  destruct hd; cbn; unfold PKTSETLINK; by destruct (h !! p).
Qed.

Lemma dhd_flow_queue_enqueue_head_view cb h q p :
  dhd_flow_queue_throttle q = false ->
  dhd_flow_queue_enqueue_head cb h q p
  = '(h', c) ← enq_head h (fq_view q) p; Some (BCME_OK, h', fq_put c q).
Proof.
  intros Ht. unfold dhd_flow_queue_enqueue_head, enq_head. rewrite Ht. destruct q as [hd ? ? ? ? ? ? ? ? ?]. cbn.
  destruct hd; cbn; unfold PKTSETLINK; by destruct (h !! p).
Qed.

(** Setting the link of the new packet last or first makes no difference. *)
Lemma dhd_flow_queue_enqueue_view cb h q l p :
  dhd_flow_queue_throttle q = false -> fqrep h q l -> p ∉ l -> is_Some (h !! p) ->
  dhd_flow_queue_enqueue cb h q p
  = '(h', c) ← enq_tail (<[p := None]> h) (fq_view q) p; Some (BCME_OK, h', fq_put c q).
Proof.
  intros Ht Hq Hp Hh. unfold dhd_flow_queue_enqueue, enq_tail. rewrite Ht.
  pose proof (qrep_nil_iff _ _ _ Hq) as Hn. destruct q as [hd tl ? ? ? ? ? ? ? ?]. cbn in *.
  destruct hd as [x|]; cbn.
  - destruct l as [|y l _] using rev_ind; [naive_solver|].
    destruct (qrep_snoc_inv _ _ _ _ Hq) as (Htl & _ & _ & Hy). cbn in Htl. subst tl. cbn.
    assert (y ≠ p) as Hne by set_solver.
    rewrite (PKTSETLINK_Some h y) by (rewrite Hy; eauto). cbn.
    rewrite PKTSETLINK_Some by (rewrite lookup_insert_ne by done; done). cbn.
    rewrite PKTSETLINK_Some by (rewrite lookup_insert_ne by done; rewrite Hy; eauto). cbn.
    by rewrite insert_insert_ne by done.
  - by rewrite PKTSETLINK_Some by done.
Qed.

Section OneOp.
Context (cb : positive -> flow_queue -> pkt -> Z) (h : heap) (q : flow_queue) (l : list pkt) (Hq : fqrep h q l).

Lemma fq_throttle : dhd_flow_queue_throttle q = bool_decide (Z.of_nat (length l) >= fq_max q).
Proof. unfold dhd_flow_queue_throttle, DHD_FLOW_QUEUE_FULL. by destruct (fqrep_len _ _ _ Hq) as [-> _]. Qed.

Lemma fq_room p : dhd_flow_queue_throttle q = false -> 0 <= fq_max q < 65536 -> Z.of_nat (length (p :: l)) < 65536.
Proof. rewrite fq_throttle, bool_decide_eq_false. cbn [length]. lia. Qed.

Lemma fq_enqueue_spec p :
  p ∉ l -> is_Some (h !! p) -> dhd_flow_queue_throttle q = false -> 0 <= fq_max q < 65536 ->
  ∃ h' q', dhd_flow_queue_enqueue cb h q p = Some (BCME_OK, h', q') ∧ fqrep h' q' (l ++ [p])
           ∧ frame (p :: l) h h' ∧ fq_same q' q ∧ fq_failures q' = fq_failures q.
Proof.
  intros Hp Hh Ht Hm. pose proof (fq_room p Ht Hm) as Hroom. cbn [length] in Hroom.
  rewrite (dhd_flow_queue_enqueue_view cb h q l p) by done.
  destruct (enq_tail_spec (<[p := None]> h) (fq_view q) l p) as (h' & c & -> & Hc & Hf & Hl).
  - eapply fqrep_frame; [|done]. intros x Hx. rewrite lookup_insert_ne; [done|]. by intros ->.
  - done.
  - by rewrite lookup_insert_eq.
  - lia.
  - cbn. exists h', (fq_put c q). split; [done|]. split; [apply fqrep_put; [done|apply Hl]|].
    split; [|by split; [apply fq_same_put|]].
    eapply frame_trans; [apply (frame_insert (p :: l) h p None); [left|done]|].
    eapply frame_mono; [|done]. set_solver.
Qed.

Lemma fq_push_head p :
  p ∉ l -> is_Some (h !! p) -> Z.of_nat (length l) + 1 < 65536 ->
  ∃ h' c, enq_head h (fq_view q) p = Some (h', c) ∧ fqrep h' (fq_put c q) (p :: l) ∧ frame [p] h h'.
Proof.
  intros Hp Hh Hr. destruct (enq_head_spec h (fq_view q) l p) as (h' & c & He & Hc & Hf & Hl); [done..|].
  exists h', c. split; [done|]. split; [|done]. apply fqrep_put; [done|apply Hl].
Qed.

Lemma fq_dequeue_nil : l = [] -> dhd_flow_queue_dequeue h q = Some (None, h, q).
Proof.
  intros ->. unfold dhd_flow_queue_dequeue. destruct Hq as [Hs _ _ _]. cbn in Hs. by rewrite Hs.
Qed.

Lemma fq_dequeue_cons p l' :
  l = p :: l' ->
  ∃ h' q', dhd_flow_queue_dequeue h q = Some (Some p, h', q') ∧ fqrep h' q' l' ∧ frame [p] h h'
           ∧ fq_same q' q ∧ fq_failures q' = fq_failures q.
Proof.
  intros ->. rewrite dhd_flow_queue_dequeue_view.
  destruct (deq_head_cons _ _ _ _ Hq) as (h' & c & -> & Hc & Hf & Hl & _). cbn.
  exists h', (fq_put c q). split; [done|]. split; [apply fqrep_put; [done|apply Hl]|].
  by split; [|split; [apply fq_same_put|]].
Qed.
End OneOp.

(** ** Flushing *)

Lemma fq_flush_loop_spec fuel : ∀ h q l,
  fqrep h q l -> (length l < fuel)%nat ->
  ∃ h' q', flush_loop fuel h q = Some (h', q') ∧ fqrep h' q' [] ∧ fq_same q' q
           ∧ fq_failures q' = fq_failures q
           ∧ (∀ x, x ∈ l -> h' !! x = None) ∧ (∀ x, x ∉ l -> h' !! x = h !! x).
Proof.
  induction fuel as [|fuel IH]; intros h q l Hq Hl; [lia|]. cbn [flush_loop].
  destruct l as [|p l].
  - rewrite (fq_dequeue_nil h q [] Hq) by done. cbn. exists h, q. split; [done|].
    repeat (split; [done|]). split; [set_solver|done].
  - assert (NoDup (p :: l)) as Hnd by (destruct Hq as [Hs _ _ _]; by eapply lseg_NoDup).
    apply NoDup_cons in Hnd as [Hp _].
    destruct (fq_dequeue_cons h q _ Hq p l) as (h1 & q1 & -> & Hq1 & Hf & Hs & Hfl); [done|]. cbn.
    destruct (IH (delete p h1) q1 l) as (h2 & q2 & -> & Hq2 & Hs2 & Hfl2 & Hin & Hout).
    + eapply fqrep_frame; [|done]. intros x Hx. rewrite lookup_delete_ne; [done|]. by intros ->.
    + cbn [length] in Hl. lia.
    + exists h2, q2. split; [done|]. split; [done|]. split.
      { destruct Hs as (?&?&?&?&?&?), Hs2 as (?&?&?&?&?&?). repeat split; congruence. }
      split; [congruence|]. destruct Hf as [_ Hf]. split; intros x Hx.
      * apply elem_of_cons in Hx as [->|Hx]; [|by apply Hin].
        rewrite Hout by done. by apply lookup_delete_eq.
      * rewrite Hout by set_solver. rewrite lookup_delete_ne by set_solver. apply Hf. set_solver.
Qed.

Lemma flow_queue_flush_spec h q l :
  fqrep h q l ->
  ∃ h' q', flow_queue_flush h q = Some (h', q') ∧ fqrep h' q' [] ∧ fq_same q' q
           ∧ fq_failures q' = fq_failures q
           ∧ (∀ x, x ∈ l -> h' !! x = None) ∧ (∀ x, x ∉ l -> h' !! x = h !! x).
Proof.
  intros Hq. apply fq_flush_loop_spec; [done|]. pose proof (lseg_length _ _ _ (qrep_seg _ _ _ Hq)). lia.
Qed.

(** ** A bounded queue *)

Inductive fqop :=
  | FqEnqueue (p : pkt) | FqEnqueueHead (p : pkt) | FqDequeue | FqReinsert (p : pkt) | FqFlush.

(** What an operation gives back. *)
Inductive fqout := FqRet (r : Z) | FqPkt (p : ptr) | FqNone.

Definition fq_exec (cb : positive -> flow_queue -> pkt -> Z) (o : fqop) (h : heap) (q : flow_queue)
    : option (fqout * heap * flow_queue) :=
  match o with
  | FqEnqueue p => '(r, h, q) ← dhd_flow_queue_enqueue cb h q p; Some (FqRet r, h, q)
  | FqEnqueueHead p => '(r, h, q) ← dhd_flow_queue_enqueue_head cb h q p; Some (FqRet r, h, q)
  | FqDequeue => '(p, h, q) ← dhd_flow_queue_dequeue h q; Some (FqPkt p, h, q)
  | FqReinsert p => '(h, q) ← dhd_flow_queue_reinsert h q p; Some (FqNone, h, q)
  | FqFlush => '(h, q) ← flow_queue_flush h q; Some (FqNone, h, q)
  end.

(** The packets, first to last, the number turned away, the most packets an
    enqueue leaves, and the packets that are not freed, queued or not. *)
Record fqst := mk_fqst { fq_pkts : list pkt; fq_fails : Z; fq_limit : Z; fq_store : gset pkt }.

Definition fq_queue (l : list pkt) (s : fqst) : fqst := mk_fqst l (fq_fails s) (fq_limit s) (fq_store s).
Definition fq_turn_away (s : fqst) : fqst := mk_fqst (fq_pkts s) (u32 (fq_fails s + 1)) (fq_limit s) (fq_store s).
Definition fq_drop_all (s : fqst) : fqst := mk_fqst [] (fq_fails s) (fq_limit s) (fq_store s ∖ list_to_set (fq_pkts s)).

Definition fq_spec (o : fqop) (s : fqst) : fqout * fqst :=
  let full := bool_decide (Z.of_nat (length (fq_pkts s)) >= fq_limit s) in
  match o with
  | FqEnqueue p => if full then (FqRet BCME_NORESOURCE, fq_turn_away s) else (FqRet BCME_OK, fq_queue (fq_pkts s ++ [p]) s)
  | FqEnqueueHead p => if full then (FqRet BCME_NORESOURCE, fq_turn_away s) else (FqRet BCME_OK, fq_queue (p :: fq_pkts s) s)
  | FqDequeue =>
      match fq_pkts s with
      | [] => (FqPkt None, s)
      | p :: l => (FqPkt (Some p), fq_queue l s)
      end
  | FqReinsert p => (FqNone, fq_queue (p :: fq_pkts s) s)
  | FqFlush => (FqNone, fq_drop_all s)
  end.

(** A packet comes in that is not freed and not in the queue; one that is put
    back does not make the length wrap. *)
Definition fq_enabled (o : fqop) (s : fqst) : bool :=
  match o with
  | FqEnqueue p | FqEnqueueHead p => bool_decide (p ∈ fq_store s) && bool_decide (p ∉ fq_pkts s)
  | FqReinsert p =>
      bool_decide (p ∈ fq_store s) && bool_decide (p ∉ fq_pkts s) && bool_decide (Z.of_nat (length (fq_pkts s)) < 65535)
  | FqDequeue | FqFlush => true
  end.

Fixpoint fq_exec_all (cb : positive -> flow_queue -> pkt -> Z) (os : list fqop) (h : heap) (q : flow_queue)
    : option (list fqout * heap * flow_queue) :=
  match os with
  | [] => Some ([], h, q)
  | o :: os => '(r, h, q) ← fq_exec cb o h q; '(rs, h, q) ← fq_exec_all cb os h q; Some (r :: rs, h, q)
  end.

Fixpoint fq_spec_all (os : list fqop) (s : fqst) : list fqout * fqst :=
  match os with
  | [] => ([], s)
  | o :: os => let '(r, s) := fq_spec o s in let '(rs, s) := fq_spec_all os s in (r :: rs, s)
  end.

Fixpoint fq_enabled_all (os : list fqop) (s : fqst) : bool :=
  match os with
  | [] => true
  | o :: os => fq_enabled o s && fq_enabled_all os (snd (fq_spec o s))
  end.

Record fqst_rep (h : heap) (q : flow_queue) (s : fqst) : Prop := {
  fqr_pkts : fqrep h q (fq_pkts s);
  fqr_dom : dom h = fq_store s;
  fqr_fails : fq_failures q = fq_fails s;
  fqr_max : fq_max q = fq_limit s ∧ 0 <= fq_limit s < 65536;
  fqr_cb : fq_cb q = CB_OVERFLOW
}.

Lemma fqst_rep_step h h' q q' s l k :
  fqst_rep h q s -> fqrep h' q' l -> frame k h h' -> fq_same q' q -> fq_failures q' = fq_failures q ->
  fqst_rep h' q' (fq_queue l s).
Proof.
  intros [H1 H2 H3 H4 H5] Hq [Hd _] (Hm & Hc & _) Hf. split; cbn; [done|congruence|congruence| |congruence].
  by rewrite Hm.
Qed.

Lemma fqst_rep_turned h q s : fqst_rep h q s -> fqst_rep h (fq_set_failures (u32 (fq_failures q + 1)) q) (fq_turn_away s).
Proof. intros [H1 H2 H3 H4 H5]. split; cbn; [done|done|by rewrite H3|done|done]. Qed.

Lemma fqst_rep_flush h q s : fqst_rep h q s -> ∃ h' q', flow_queue_flush h q = Some (h', q') ∧ fqst_rep h' q' (fq_drop_all s).
Proof.
  intros [H1 H2 H3 H4 H5]. destruct (flow_queue_flush_spec h q _ H1) as (h' & q' & -> & Hq & (Hm & Hc & _) & Hf & Hin & Hout).
  exists h', q'. split; [done|]. split; cbn; [done| |congruence|by rewrite Hm|congruence].
  apply set_eq. intros x. rewrite elem_of_difference, elem_of_list_to_set, <-H2, !elem_of_dom.
  destruct (decide (x ∈ fq_pkts s)) as [Hx|Hx]; [rewrite (Hin x Hx)|rewrite (Hout x Hx); tauto].
  split; [by intros [? ?]|tauto].
Qed.

Lemma fq_exec_step cb o h q s :
  fqst_rep h q s -> fq_enabled o s = true ->
  ∃ h' q', fq_exec cb o h q = Some (fst (fq_spec o s), h', q') ∧ fqst_rep h' q' (snd (fq_spec o s)).
Proof.
  intros Hr He. pose proof Hr as [Hq Hd Hf [Hm Hml] Hcb].
  assert (∀ p, p ∈ fq_store s -> is_Some (h !! p)) as Hal by (intros p Hp; apply elem_of_dom; by rewrite Hd).
  pose proof (fq_throttle h q _ Hq) as Ht. rewrite Hm in Ht.
  destruct o as [p|p| |p|]; cbn [fq_enabled fq_exec fq_spec] in *.
  - apply andb_prop in He as [Hp%bool_decide_eq_true_1 Hn%bool_decide_eq_true_1].
    destruct (bool_decide _) eqn:E in Ht |- *.
    + unfold dhd_flow_queue_enqueue. rewrite Ht. cbn. unfold call_cb. cbn. rewrite Hcb.
      eexists _, _. split; [done|]. by apply fqst_rep_turned.
    + destruct (fq_enqueue_spec cb h q _ Hq p) as (h' & q' & -> & Hq' & Hfr & Hs & Hfl); [auto|auto|done|lia|].
      cbn. exists h', q'. split; [done|]. by eapply fqst_rep_step.
  - apply andb_prop in He as [Hp%bool_decide_eq_true_1 Hn%bool_decide_eq_true_1].
    destruct (bool_decide _) eqn:E in Ht |- *.
    + unfold dhd_flow_queue_enqueue_head. rewrite Ht. cbn. unfold call_cb. cbn. rewrite Hcb.
      eexists _, _. split; [done|]. by apply fqst_rep_turned.
    + rewrite dhd_flow_queue_enqueue_head_view by done. apply bool_decide_eq_false_1 in E.
      destruct (fq_push_head h q _ Hq p) as (h' & c & -> & Hq' & Hfr); [auto|auto|lia|].
      cbn. exists h', (fq_put c q). split; [done|]. eapply fqst_rep_step; [done..|by apply fq_same_put|done].
  - destruct (fq_pkts s) as [|p l] eqn:El.
    + rewrite (fq_dequeue_nil h q [] Hq) by done. cbn. eexists _, _. by split.
    + destruct (fq_dequeue_cons h q _ Hq p l) as (h' & q' & -> & Hq' & Hfr & Hs & Hfl); [done|].
      cbn. exists h', q'. split; [done|]. by eapply fqst_rep_step.
  - apply andb_prop in He as [[Hp%bool_decide_eq_true_1 Hn%bool_decide_eq_true_1]%andb_prop Hl%bool_decide_eq_true_1].
    rewrite dhd_flow_queue_reinsert_view.
    destruct (fq_push_head h q _ Hq p) as (h' & c & -> & Hq' & Hfr); [auto|auto|lia|].
    cbn. exists h', (fq_put c q). split; [done|]. eapply fqst_rep_step; [done..|by apply fq_same_put|done].
  - destruct (fqst_rep_flush h q s Hr) as (h' & q' & -> & Hr'). by exists h', q'.
Qed.

Lemma fq_exec_all_step cb os : ∀ h q s,
  fqst_rep h q s -> fq_enabled_all os s = true ->
  ∃ h' q', fq_exec_all cb os h q = Some (fst (fq_spec_all os s), h', q')
           ∧ fqst_rep h' q' (snd (fq_spec_all os s)).
Proof.
  induction os as [|o os IH]; intros h q s Hr He; cbn [fq_exec_all fq_spec_all fq_enabled_all] in *.
  - by exists h, q.
  - apply andb_prop in He as [He1 He2].
    destruct (fq_exec_step cb o h q s Hr He1) as (h1 & q1 & -> & Hr1). cbn.
    destruct (fq_spec o s) as [r s1]. cbn in *.
    destruct (IH h1 q1 s1 Hr1 He2) as (h2 & q2 & -> & Hr2). cbn.
    destruct (fq_spec_all os s1) as [rs s2]. cbn in *. by exists h2, q2.
Qed.

(** As long as nothing is put back, at most the limit is queued. *)
Definition fq_no_reinsert (o : fqop) : bool := match o with FqReinsert _ => false | _ => true end.

Lemma fq_spec_all_bound os : ∀ s,
  forallb fq_no_reinsert os = true -> Z.of_nat (length (fq_pkts s)) <= fq_limit s ->
  Z.of_nat (length (fq_pkts (snd (fq_spec_all os s)))) <= fq_limit s.
Proof.
  induction os as [|o os IH]; intros s Hn Hl; cbn [fq_spec_all forallb] in *; [done|].
  apply andb_prop in Hn as [Ho Hos].
  assert (fq_limit (snd (fq_spec o s)) = fq_limit s
          ∧ Z.of_nat (length (fq_pkts (snd (fq_spec o s)))) <= fq_limit s) as [Hlim Hl'].
  { destruct o as [p|p| |p|]; cbn [fq_spec fq_no_reinsert] in *; try done; try (case_bool_decide; cbn).
    - done.
    - split; [done|]. rewrite length_app. cbn. lia.
    - done.
    - split; [done|]. lia.
    - destruct (fq_pkts s) eqn:E; cbn; split; try done; [rewrite E; done|cbn in Hl; lia].
    - split; [done|]. cbn. lia. }
  destruct (fq_spec o s) as [r s1]. cbn in *. rewrite <-Hlim in Hl'.
  specialize (IH s1 Hos Hl'). destruct (fq_spec_all os s1) as [rs s2]. cbn in *. congruence.
Qed.

(** C8.  A queue made for a budget behaves, over any sequence of operations, as
    a list of packets: enqueue adds at the back (or, enqueue_head, at the front)
    and answers BCME_OK while fewer than budget - 1 packets wait, and otherwise
    counts a failure, leaves the packets and answers BCME_NORESOURCE; dequeue
    takes the first packet; reinsert puts a packet back in front whatever the
    length; a flush frees the packets in the queue, and no others, and leaves it
    empty.  Every run ends without a bad access, and unless packets are put back
    the queue never holds budget packets.  In the runs a packet that comes in is
    not freed and not in the queue. *)
Theorem flow_queue_run_refines (cb : positive -> flow_queue -> pkt -> Z) (h : heap) (q0 : flow_queue) (budget : Z)
    (os : list fqop) :
  let s0 := mk_fqst [] 0 (budget - 1) (dom h) in
  1 <= budget <= 65536 -> fq_enabled_all os s0 = true ->
  ∃ rs h' q' s, fq_exec_all cb os h (dhd_flow_queue_init budget q0) = Some (rs, h', q')
    ∧ fq_spec_all os s0 = (rs, s)
    ∧ fqrep h' q' (fq_pkts s) ∧ fq_failures q' = fq_fails s ∧ dom h' = fq_store s
    ∧ (forallb fq_no_reinsert os = true -> fq_len q' < budget).
Proof.
  intros s0 Hb He. assert (fqst_rep h (dhd_flow_queue_init budget q0) s0) as Hr.
  { split; cbn; [split; cbn; done|done|done| |done]. rewrite u16_small by lia. lia. }
  destruct (fq_exec_all_step cb os _ _ _ Hr He) as (h' & q' & Hx & [H1 H2 H3 H4 H5]).
  destruct (fq_spec_all os _) as [rs s] eqn:Es. exists rs, h', q', s. cbn [fst snd] in *.
  do 5 (split; [done|]). intros Hn.
  pose proof (fq_spec_all_bound os s0 Hn) as Hbd. rewrite Es in Hbd. cbn in Hbd.
  destruct (fqrep_len _ _ _ H1) as [-> _]. lia.
Qed.

Definition fq_demo_heap : heap := list_to_map [(1%positive, None); (2%positive, Some 9%positive); (3%positive, None); (4%positive, None)].
Definition fq_demo_ops : list fqop :=
  [FqEnqueue 1; FqEnqueue 2; FqEnqueue 3; FqDequeue; FqReinsert 1; FqEnqueueHead 3; FqDequeue; FqEnqueue 3; FqFlush; FqEnqueue 1; FqDequeue;
   FqDequeue].

(** The flush frees the packets 2 and 3. *)
Lemma flow_queue_run_refines_witness :
  ∃ rs h' q' s, fq_exec_all (λ _ _ _, 0) fq_demo_ops fq_demo_heap (dhd_flow_queue_init 3 (mk_fq None None 7 7 7 None 7 (CB_OTHER 1) 7 None)) = Some (rs, h', q')
    ∧ fq_spec_all fq_demo_ops (mk_fqst [] 0 (3 - 1) (dom fq_demo_heap)) = (rs, s)
    ∧ fqrep h' q' (fq_pkts s) ∧ fq_failures q' = fq_fails s ∧ dom h' = fq_store s
    ∧ (forallb fq_no_reinsert fq_demo_ops = true -> fq_len q' < 3).
Proof. apply flow_queue_run_refines; [lia|by vm_compute]. Defined.
