(* ===== verification/FlowData.v ===== *)
(** * The flow rings: data (dhd_flowring.h, dhd.h, dhd_linux.h)

    A flow is an interface, a priority and a peer.  Each flow has an id, which is
    the index of its ring in the flow ring table, and is found through a hash
    table of its interface.  The chains of that table, the peers of TDLS and the
    stations of an interface are linked lists that only their table refers to;
    they are lists here.  The [list] links of the ring nodes, which join the
    active list of the bus, are the nodes of [Dll]: ring [i] has address
    [Z.of_nat i], the head of the list has address -1.

    An octet is a Z in [0, 256); an array is a list that is accessed with its
    bounds, [None] being an access outside. *)

From S2P Require Import Prelude Pktq Dll Id16 MsgRing FlowQueue.

Definition BCME_ERROR : Z := -1.
Definition BCME_BADARG : Z := -2.
Definition BCME_BADOPTION : Z := -3.
Definition BCME_NOTREADY : Z := -25.
Definition BCME_NOMEM : Z := -27.
Definition BCME_EPERM : Z := -26.

Definition DHD_MAX_IFS : Z := 16.
Definition DHD_BAD_IF : Z := -15.
Definition NUMPRIO : nat := 8.
(** -1, kept in a uint8. *)
Definition ALLPRIO : Z := 255.
Definition PRIO_8021D_BE : Z := 0.

(** ** Addresses *)

Record ether_addr := mk_ea { ea0 : Z; ea1 : Z; ea2 : Z; ea3 : Z; ea4 : Z; ea5 : Z }.
#[export] Instance ether_addr_eq_dec : EqDecision ether_addr.
Proof. solve_decision. Defined.

Definition ETHER_ISMULTI (ea : ether_addr) : bool := bool_decide (Z.land (ea0 ea) 1 ≠ 0).

(** ** dhd_flowring.h *)

Definition FLOWID_INVALID : Z := ID16_INVALID.
Definition BCMPCIE_H2D_COMMON_MSGRINGS : Z := 2.
Definition FLOWID_RESERVED : Z := BCMPCIE_H2D_COMMON_MSGRINGS.

Definition HTPUT_FLOW_RING_PRIO : Z := PRIO_8021D_BE.
Definition HTPUT_NUM_CLIENT_FLOW_RINGS : Z := 3.
Definition HTPUT_TOTAL_FLOW_RINGS : Z := 1 + HTPUT_NUM_CLIENT_FLOW_RINGS.

(** IDLE_TX_FLOW_MGMT is not defined, so no ring is suspended. *)
Inductive flow_ring_status :=
  | FLOW_RING_STATUS_OPEN
  | FLOW_RING_STATUS_CREATE_PENDING
  | FLOW_RING_STATUS_CLOSED
  | FLOW_RING_STATUS_DELETE_PENDING
  | FLOW_RING_STATUS_FLUSH_PENDING
  | FLOW_RING_STATUS_STA_FREEING.
#[export] Instance flow_ring_status_eq_dec : EqDecision flow_ring_status.
Proof. solve_decision. Defined.

Record flow_info := mk_fi { fi_tid : Z; fi_ifindex : Z; fi_sa : ether_addr; fi_da : ether_addr }.
#[export] Instance flow_info_eq_dec : EqDecision flow_info.
Proof. solve_decision. Defined.

(** [fn_prot_info]: whether the pointer to the ring of the pool is set; the pool
    has one ring for each flow id. *)
Record flow_ring_node := mk_node {
  fn_queue : flow_queue;
  fn_active : bool;
  fn_status : flow_ring_status;
  fn_flowid : Z;          (* uint16 *)
  fn_info : flow_info;
  fn_prot_info : bool
}.

Record flow_hash_info := mk_fh { fh_flowid : Z; fh_info : flow_info }.

Definition DHD_FLOWRING_HASH_SIZE : nat := 256.
Definition DHD_FLOWRING_HASHINDEX (ea : ether_addr) (prio : Z) : Z :=
  Z.lxor (Z.lxor (Z.lxor (ea3 ea) (ea4 ea)) (ea5 ea)) (u8 prio) mod 256.

Record if_flow_lkup := mk_lkup {
  if_status : bool;
  if_role : Z;            (* uint8 *)
  fl_hash : list (list flow_hash_info)
}.

(** ** Stations of dhd_linux.h, TDLS peers of dhd.h *)

(** [sta_ifp] is the index of the interface, [None] the address of dhd_if_null. *)
Record dhd_sta := mk_sta {
  sta_flowid : list Z;    (* uint16, NUMPRIO of them *)
  sta_ifp : option Z;
  sta_ea : ether_addr;
  sta_idx : Z;            (* int *)
  sta_ifidx : Z;          (* int *)
  sta_chanspec : Z        (* uint16 *)
}.

(** [sta_list]: the indices of the stations in the pool, in the order of the
    list. *)
Record dhd_if := mk_if { dev_addr : ether_addr; sta_list : list Z }.

Record tdls_peer_tbl := mk_peers { tdls_peer_count : Z (* uint8 *); peer_list : list ether_addr }.

(** ** The fields of struct dhd_pub, struct dhd_bus and struct dhd_prot that the
    flow rings use *)

Record flow_ids := mk_ids {
  flowid_allocator : option id16_map;
  htput_flowid_allocator : option id16_map;
  htput_client_flow_rings : Z;  (* uint16 *)
  htput_flow_ring_start : Z;    (* uint16 *)
  htput_support : bool
}.

Record flow_limits := mk_limits {
  flow_rings_inited : bool;
  num_h2d_rings : Z;                (* uint32 *)
  max_tx_flowid : Z;                (* uint32 *)
  flow_prio_map : list Z;           (* uint8, NUMPRIO of them *)
  flow_prio_map_type : Z;           (* uint8 *)
  max_multi_client_flow_rings : Z;  (* uint8 *)
  multi_client_flow_rings : Z       (* an atomic int *)
}.

Record sta_state := mk_stas {
  iflist : list (option dhd_if);
  sta_pool : option (list dhd_sta);
  staid_allocator : option id16_map
}.

(** A message to the dongle: the fields that the host fills in. *)
Inductive flow_msg :=
  | MSG_FLOW_RING_CREATE (if_id flags epoch tid flow_ring_id : Z) (sa da : ether_addr) (base_addr max_items : Z)
  | MSG_FLOW_RING_DELETE (if_id flags epoch flow_ring_id : Z)
  | MSG_FLOW_RING_FLUSH (if_id flags epoch flow_ring_id : Z).

(** A ring with the fields that [msgbuf_ring] leaves out. *)
Record prot_ring := mk_pring {
  pr_ring : msgbuf_ring;
  pr_base_addr : Z;
  pr_inited : bool;
  pr_seqnum : Z           (* uint32 *)
}.

(** [dongle_rd]: the read indices of the control ring that the dongle will have
    published each time the host looks; [sent]: the messages written so far,
    with their addresses. *)
Record flow_prot := mk_prot {
  h2dring_ctrl_subn : prot_ring;
  h2d_flowrings_pool : list prot_ring;
  dongle_rd : list Z;
  sent : list (Z * flow_msg)
}.

Record flow_bus := mk_bus {
  fw_rev : Z;
  bus_max_tx_flowrings : Z;       (* uint16 *)
  bus_max_submission_rings : Z;   (* uint16 *)
  flow_ring_queue_threshold : Z;  (* conf->flow_ring_queue_threshold, int *)
  dequeue_prec_map : Z            (* uint8 *)
}.

Record dhd_pub := mk_pub {
  p_ids : flow_ids;
  p_lkup : option (list if_flow_lkup);
  p_peers : tdls_peer_tbl;
  p_table : option (list flow_ring_node);
  p_limits : flow_limits;
  p_stas : sta_state;
  p_bus : flow_bus;
  p_prot : flow_prot;
  p_heap : heap;
  p_active : nodes
}.

Definition set_ids (x : flow_ids) (d : dhd_pub) : dhd_pub :=
  mk_pub x (p_lkup d) (p_peers d) (p_table d) (p_limits d) (p_stas d) (p_bus d) (p_prot d) (p_heap d) (p_active d).
Definition set_lkup (x : option (list if_flow_lkup)) (d : dhd_pub) : dhd_pub :=
  mk_pub (p_ids d) x (p_peers d) (p_table d) (p_limits d) (p_stas d) (p_bus d) (p_prot d) (p_heap d) (p_active d).
Definition set_peers (x : tdls_peer_tbl) (d : dhd_pub) : dhd_pub :=
  mk_pub (p_ids d) (p_lkup d) x (p_table d) (p_limits d) (p_stas d) (p_bus d) (p_prot d) (p_heap d) (p_active d).
Definition set_table (x : option (list flow_ring_node)) (d : dhd_pub) : dhd_pub :=
  mk_pub (p_ids d) (p_lkup d) (p_peers d) x (p_limits d) (p_stas d) (p_bus d) (p_prot d) (p_heap d) (p_active d).
Definition set_limits (x : flow_limits) (d : dhd_pub) : dhd_pub :=
  mk_pub (p_ids d) (p_lkup d) (p_peers d) (p_table d) x (p_stas d) (p_bus d) (p_prot d) (p_heap d) (p_active d).
Definition set_stas (x : sta_state) (d : dhd_pub) : dhd_pub :=
  mk_pub (p_ids d) (p_lkup d) (p_peers d) (p_table d) (p_limits d) x (p_bus d) (p_prot d) (p_heap d) (p_active d).
Definition set_bus (x : flow_bus) (d : dhd_pub) : dhd_pub :=
  mk_pub (p_ids d) (p_lkup d) (p_peers d) (p_table d) (p_limits d) (p_stas d) x (p_prot d) (p_heap d) (p_active d).
Definition set_prot (x : flow_prot) (d : dhd_pub) : dhd_pub :=
  mk_pub (p_ids d) (p_lkup d) (p_peers d) (p_table d) (p_limits d) (p_stas d) (p_bus d) x (p_heap d) (p_active d).
Definition set_heap (x : heap) (d : dhd_pub) : dhd_pub :=
  mk_pub (p_ids d) (p_lkup d) (p_peers d) (p_table d) (p_limits d) (p_stas d) (p_bus d) (p_prot d) x (p_active d).
Definition set_active (x : nodes) (d : dhd_pub) : dhd_pub :=
  mk_pub (p_ids d) (p_lkup d) (p_peers d) (p_table d) (p_limits d) (p_stas d) (p_bus d) (p_prot d) (p_heap d) x.

(** Array accesses and assignments. *)
Definition at_ {A} (l : list A) (i : Z) : option A := if bool_decide (0 <= i) then l !! Z.to_nat i else None.
Definition put_ {A} (l : list A) (i : Z) (x : A) : option (list A) :=
  _ ← at_ l i; Some (<[Z.to_nat i := x]> l).

(** [&flow_ring_table[flowid]], and an assignment to it. *)
Definition DHD_FLOW_RING (d : dhd_pub) (flowid : Z) : option flow_ring_node := t ← p_table d; at_ t flowid.
Definition put_ring (d : dhd_pub) (flowid : Z) (n : flow_ring_node) : option dhd_pub :=
  t ← p_table d; t ← put_ t flowid n; Some (set_table (Some t) d).

Definition set_queue (q : flow_queue) (n : flow_ring_node) : flow_ring_node :=
  mk_node q (fn_active n) (fn_status n) (fn_flowid n) (fn_info n) (fn_prot_info n).
Definition set_state (active : bool) (st : flow_ring_status) (n : flow_ring_node) : flow_ring_node :=
  mk_node (fn_queue n) active st (fn_flowid n) (fn_info n) (fn_prot_info n).
Definition set_status (st : flow_ring_status) (n : flow_ring_node) : flow_ring_node := set_state (fn_active n) st n.
Definition set_info (i : flow_info) (n : flow_ring_node) : flow_ring_node :=
  mk_node (fn_queue n) (fn_active n) (fn_status n) (fn_flowid n) i (fn_prot_info n).
Definition set_prot_info (b : bool) (n : flow_ring_node) : flow_ring_node :=
  mk_node (fn_queue n) (fn_active n) (fn_status n) (fn_flowid n) (fn_info n) b.

(** Frees the packets of the queue of a ring. *)
Definition flush_ring (d : dhd_pub) (n : flow_ring_node) : option (dhd_pub * flow_ring_node) :=
  '(h, q) ← flow_queue_flush (p_heap d) (fn_queue n);
  Some (set_heap h d, set_queue q n).

(** ** Accesses to arrays *)

Lemma at_lookup {A} (l : list A) (i : nat) : at_ l (Z.of_nat i) = l !! i.
Proof. unfold at_. rewrite bool_decide_true by lia. by rewrite Nat2Z.id. Qed.

Lemma at_Some {A} (l : list A) i x : at_ l i = Some x <-> 0 <= i ∧ l !! Z.to_nat i = Some x.
Proof. unfold at_. case_bool_decide; naive_solver. Qed.

Lemma at_range {A} (l : list A) i x : at_ l i = Some x -> 0 <= i < Z.of_nat (length l).
Proof. intros [H1 H2%lookup_lt_Some]%at_Some. lia. Qed.

Lemma at_is_Some {A} (l : list A) i : 0 <= i < Z.of_nat (length l) -> ∃ x, at_ l i = Some x.
Proof.
  intros H. destruct (lookup_lt_is_Some_2 l (Z.to_nat i)) as [x Hx]; [lia|]. exists x. apply at_Some. by split; [lia|].
Qed.

Lemma put_Some {A} (l : list A) i y x : at_ l i = Some y -> put_ l i x = Some (<[Z.to_nat i := x]> l).
Proof. intros H. unfold put_. by rewrite H. Qed.

Lemma at_insert_eq {A} (l : list A) i y x : at_ l i = Some y -> at_ (<[Z.to_nat i := x]> l) i = Some x.
Proof.
  intros H. pose proof (at_range _ _ _ H). apply at_Some in H as [? H]. apply at_Some. split; [done|].
  apply list_lookup_insert_eq. by eapply lookup_lt_Some.
Qed.

Lemma at_insert_ne {A} (l : list A) i j x : 0 <= i -> i ≠ j -> at_ (<[Z.to_nat i := x]> l) j = at_ l j.
Proof.
  intros Hi Hne. unfold at_. case_bool_decide; [|done]. apply list_lookup_insert_ne. lia.
Qed.

(** Replacing one of the lists that are concatenated. *)
Lemma concat_insert_perm {A} (ls : list (list A)) i y :
  ls !! i = Some y -> ∃ r, concat ls ≡ₚ y ++ r ∧ ∀ x, concat (<[i := x]> ls) ≡ₚ x ++ r.
Proof.
  revert i. induction ls as [|z ls IH]; intros [|i] H; [done..| |]; simpl in *.
  - injection H as <-. by exists (concat ls).
  - destruct (IH i H) as (r & H1 & H2). exists (z ++ r).
    assert (∀ a b, a ≡ₚ b ++ r -> z ++ a ≡ₚ b ++ z ++ r) as Hz.
    { intros a b ->. rewrite !app_assoc. apply Permutation_app_tail, Permutation_app_comm. }
    split; [by apply Hz|]. intros x. by apply Hz.
Qed.

Lemma concat_map_insert_perm {A B} (f : A -> list B) (l : list A) i y :
  at_ l i = Some y ->
  ∃ r, concat (f <$> l) ≡ₚ f y ++ r ∧ ∀ x, concat (f <$> <[Z.to_nat i := x]> l) ≡ₚ f x ++ r.
Proof.
  intros [_ H]%at_Some. destruct (concat_insert_perm (f <$> l) (Z.to_nat i) (f y)) as (r & H1 & H2).
  - by rewrite list_lookup_fmap, H.
  - exists r. split; [done|]. intros x. by rewrite list_fmap_insert.
Qed.
