(* ===== verification/FlowTable.v ===== *)
(** * dhd_flowring.c: flow ids and the table of flows (model)

    Flow ids come from one or two id allocators of [Id16].  A flow is found
    through the hash table of its interface, with a key that depends on the role
    of the interface.  WLTDLS is defined. *)

From S2P Require Import Prelude Id16 FlowQueue FlowData.

(** ** The role of an interface *)

Definition WLC_E_IF_ROLE_STA : Z := 0.
Definition WLC_E_IF_ROLE_AP : Z := 1.
Definition WLC_E_IF_ROLE_WDS : Z := 2.
Definition WLC_E_IF_ROLE_P2P_GO : Z := 3.
Definition WLC_E_IF_ROLE_P2P_CLIENT : Z := 4.
Definition WLC_E_IF_ROLE_NAN : Z := 9.

Definition DHD_IF_ROLE (t : list if_flow_lkup) (idx : Z) : option Z := if_role <$> at_ t idx.

Definition DHD_IF_ROLE_GENERIC_STA (r : Z) : bool :=
  bool_decide (r = WLC_E_IF_ROLE_STA) || bool_decide (r = WLC_E_IF_ROLE_P2P_CLIENT)
  || bool_decide (r = WLC_E_IF_ROLE_WDS).
Definition DHD_IF_ROLE_MULTI_CLIENT (r : Z) : bool :=
  bool_decide (r = WLC_E_IF_ROLE_AP) || bool_decide (r = WLC_E_IF_ROLE_P2P_GO)
  || bool_decide (r = WLC_E_IF_ROLE_NAN).

Definition dhd_flow_rings_ifindex2role (t : list if_flow_lkup) (ifindex : Z) : option Z := DHD_IF_ROLE t ifindex.

(** ** TDLS peers *)

Definition is_tdls_destination (peers : tdls_peer_tbl) (da : ether_addr) : bool :=
  bool_decide (tdls_peer_count peers ≠ 0) && negb (ETHER_ISMULTI da) && bool_decide (da ∈ peer_list peers).

Definition dhd_free_tdls_peer_list (peers : tdls_peer_tbl) : Z * tdls_peer_tbl :=
  if bool_decide (peer_list peers = []) && bool_decide (tdls_peer_count peers = 0) then (BCME_ERROR, peers)
  else (BCME_OK, mk_peers 0 []).

(** ** The allocators *)

(** [alloc1], [alloc2]: whether the two allocations succeed. *)
Definition dhd_flowid_map_init (alloc1 alloc2 : bool) (ids : flow_ids) (max_tx_flow_rings : Z)
    : option (Z * flow_ids) :=
  let max_normal := if htput_support ids then u16 (max_tx_flow_rings - HTPUT_TOTAL_FLOW_RINGS)
                    else max_tx_flow_rings in
  m ← id16_map_init alloc1 max_normal FLOWID_RESERVED;
  let ids := mk_ids m (htput_flowid_allocator ids) (htput_client_flow_rings ids) (htput_flow_ring_start ids)
               (htput_support ids) in
  if bool_decide (m = None) then Some (BCME_NOMEM, ids)
  else if htput_support ids then
    let start := u16 (max_normal + FLOWID_RESERVED) in
    hm ← id16_map_init alloc2 HTPUT_TOTAL_FLOW_RINGS start;
    if bool_decide (hm = None) then
      Some (BCME_NOMEM, mk_ids m None (htput_client_flow_rings ids) start (htput_support ids))
    else Some (BCME_OK, mk_ids m hm 0 start (htput_support ids))
  else
    Some (BCME_OK, mk_ids m None (htput_client_flow_rings ids) (htput_flow_ring_start ids)
                               (htput_support ids)).

Definition dhd_flowid_map_deinit (ids : flow_ids) : flow_ids :=
  mk_ids (id16_map_fini (flowid_allocator ids)) (id16_map_fini (htput_flowid_allocator ids)) 0
    (htput_flow_ring_start ids) (htput_support ids).

(** [flowid = id16_map_alloc(allocator)] for each allocator; the pointer is
    dereferenced. *)
Definition alloc_normal (ids : flow_ids) : option (Z * flow_ids) :=
  m ← flowid_allocator ids;
  '(v, m) ← id16_map_alloc m;
  Some (v, mk_ids (Some m) (htput_flowid_allocator ids) (htput_client_flow_rings ids)
             (htput_flow_ring_start ids) (htput_support ids)).
Definition alloc_htput (ids : flow_ids) : option (Z * flow_ids) :=
  m ← htput_flowid_allocator ids;
  '(v, m) ← id16_map_alloc m;
  Some (v, mk_ids (flowid_allocator ids) (Some m) (htput_client_flow_rings ids)
             (htput_flow_ring_start ids) (htput_support ids)).
Definition set_htput_clients (n : Z) (ids : flow_ids) : flow_ids :=
  mk_ids (flowid_allocator ids) (htput_flowid_allocator ids) n (htput_flow_ring_start ids) (htput_support ids).

(** The part of dhd_flowid_map_alloc that may take a high throughput ring.
    [sta_htput] is what dhd_is_sta_htput answers for the destination. *)
Definition alloc_htput_for (role prio : Z) (da : ether_addr) (sta_htput : bool) (ids : flow_ids)
    : option (Z * flow_ids) :=
  if bool_decide (htput_flowid_allocator ids ≠ None) && bool_decide (prio = HTPUT_FLOW_RING_PRIO) then
    if DHD_IF_ROLE_GENERIC_STA role then alloc_htput ids
    else if DHD_IF_ROLE_MULTI_CLIENT role && negb (ETHER_ISMULTI da) && sta_htput
            && bool_decide (htput_client_flow_rings ids < HTPUT_NUM_CLIENT_FLOW_RINGS) then
      '(flowid, ids) ← alloc_htput ids;
      Some (flowid, if bool_decide (flowid ≠ FLOWID_INVALID)
                    then set_htput_clients (u16 (htput_client_flow_rings ids + 1)) ids else ids)
    else Some (FLOWID_INVALID, ids)
  else Some (FLOWID_INVALID, ids).

Definition dhd_flowid_map_alloc (role prio : Z) (da : ether_addr) (sta_htput : bool) (ids : flow_ids)
    : option (Z * flow_ids) :=
  if bool_decide (role = WLC_E_IF_ROLE_P2P_CLIENT) || bool_decide (role = WLC_E_IF_ROLE_P2P_GO) then alloc_normal ids
  else
    '(flowid, ids) ← alloc_htput_for role prio da sta_htput ids;
    if bool_decide (flowid = FLOWID_INVALID) then alloc_normal ids else Some (flowid, ids).

Definition DHD_IS_FLOWID_HTPUT (ids : flow_ids) (flowid : Z) : bool :=
  htput_support ids && bool_decide (flowid >= htput_flow_ring_start ids)
  && bool_decide (flowid < htput_flow_ring_start ids + HTPUT_TOTAL_FLOW_RINGS).

Definition dhd_flowid_map_free (role flowid : Z) (ids : flow_ids) : option flow_ids :=
  if bool_decide (htput_flowid_allocator ids ≠ None) && DHD_IS_FLOWID_HTPUT ids flowid then
    m ← htput_flowid_allocator ids;
    m ← id16_map_free m flowid;
    let ids := mk_ids (flowid_allocator ids) (Some m) (htput_client_flow_rings ids)
                 (htput_flow_ring_start ids) (htput_support ids) in
    Some (if DHD_IF_ROLE_MULTI_CLIENT role
          then set_htput_clients (u16 (htput_client_flow_rings ids - 1)) ids else ids)
  else
    m ← flowid_allocator ids;
    m ← id16_map_free m flowid;
    Some (mk_ids (Some m) (htput_flowid_allocator ids) (htput_client_flow_rings ids)
            (htput_flow_ring_start ids) (htput_support ids)).

(** ** Finding a flow *)

(** The first node of a chain that satisfies a test: its flow id, or
    FLOWID_INVALID. *)
Definition chain_find (f : flow_hash_info -> bool) (l : list flow_hash_info) : Z :=
  match list_find (λ n, f n = true) l with Some (_, n) => fh_flowid n | None => FLOWID_INVALID end.

Definition same_da (da : ether_addr) (n : flow_hash_info) : bool := bool_decide (fi_da (fh_info n) = da).

(** The test of the multi client roles. *)
Definition flow_matches (da : ether_addr) (prio : Z) (n : flow_hash_info) : bool :=
  ETHER_ISMULTI da && ETHER_ISMULTI (fi_da (fh_info n))
  || same_da da n && bool_decide (fi_tid (fh_info n) = prio).

(** The slot of a flow: of a TDLS peer, of the priority, of all multicast, or of
    the address and priority. *)
Definition flow_slot (role prio : Z) (tdls : bool) (da : ether_addr) : Z :=
  if DHD_IF_ROLE_GENERIC_STA role then if tdls then DHD_FLOWRING_HASHINDEX da prio else prio
  else if ETHER_ISMULTI da then 0 else DHD_FLOWRING_HASHINDEX da prio.

Definition dhd_flowid_find (peers : tdls_peer_tbl) (t : list if_flow_lkup) (ifindex prio : Z) (da : ether_addr)
    : option Z :=
  if bool_decide (ifindex >= DHD_MAX_IFS) then Some FLOWID_INVALID
  else
    e ← at_ t ifindex;
    let tdls := is_tdls_destination peers da in
    l ← at_ (fl_hash e) (flow_slot (if_role e) prio tdls da);
    Some (if DHD_IF_ROLE_GENERIC_STA (if_role e) then
            if tdls then chain_find (same_da da) l
            else match l with n :: _ => fh_flowid n | [] => FLOWID_INVALID end
          else chain_find (flow_matches da prio) l).

(** Is [flowid] in one of the chains from [hashidx] on; the first test of the
    code's loop body is the first iteration of its [while]. *)
Definition in_chain (flowid : Z) (l : list flow_hash_info) : bool :=
  existsb (λ n, bool_decide (fh_flowid n = flowid)) l.

Definition dhd_flowid_find_by_ifidx (table_null : bool) (t : list if_flow_lkup) (ifindex flowid : Z) : option Z :=
  if table_null then Some BCME_ERROR
  else
    e ← at_ t ifindex;
    Some (if existsb (in_chain flowid) (fl_hash e) then BCME_OK else BCME_ERROR).

(** ** Adding and removing a flow *)

Definition set_fl_hash (x : list (list flow_hash_info)) (e : if_flow_lkup) : if_flow_lkup :=
  mk_lkup (if_status e) (if_role e) x.

(** What the node of a new flow becomes part of: without TDLS, a station's slot
    is overwritten, and otherwise the node goes to the end of the chain. *)
Definition chain_add (role : Z) (tdls : bool) (n : flow_hash_info) (l : list flow_hash_info)
    : list flow_hash_info :=
  if DHD_IF_ROLE_GENERIC_STA role && negb tdls then [n] else l ++ [n].

(** [malloc]: whether the node can be allocated.  [sta_htput] as above. *)
Definition dhd_flowid_alloc (malloc : bool) (sta_htput : bool) (peers : tdls_peer_tbl) (max_tx_flowid : Z)
    (ids : flow_ids) (t : list if_flow_lkup) (ifindex prio : Z) (da : ether_addr)
    : option (Z * flow_ids * list if_flow_lkup) :=
  if negb malloc then Some (FLOWID_INVALID, ids, t)
  else
    e ← at_ t ifindex;
    '(flowid, ids) ← dhd_flowid_map_alloc (if_role e) prio da sta_htput ids;
    if bool_decide (flowid = FLOWID_INVALID) then Some (FLOWID_INVALID, ids, t)
    else
      let n := mk_fh flowid (mk_fi prio ifindex (mk_ea 0 0 0 0 0 0) da) in
      let tdls := is_tdls_destination peers da in
      let hash := flow_slot (if_role e) prio tdls da in
      l ← at_ (fl_hash e) hash;
      fh ← put_ (fl_hash e) hash (chain_add (if_role e) tdls n l);
      t ← put_ t ifindex (set_fl_hash fh e);
      if bool_decide (flowid > max_tx_flowid) then Some (FLOWID_INVALID, ids, t)
      else Some (flowid, ids, t).

(** The chain without its first node of the id. *)
Fixpoint chain_remove (flowid : Z) (l : list flow_hash_info) : list flow_hash_info :=
  match l with
  | [] => []
  | n :: l => if bool_decide (fh_flowid n = flowid) then l else n :: chain_remove flowid l
  end.

(** The chains without the first node of the id, [None] when there is none. *)
Fixpoint slots_remove (flowid : Z) (hs : list (list flow_hash_info)) : option (list (list flow_hash_info)) :=
  match hs with
  | [] => None
  | l :: hs => if in_chain flowid l then Some (chain_remove flowid l :: hs)
               else hs ← slots_remove flowid hs; Some (l :: hs)
  end.

(** dhd_del_flowid is empty in this build. *)
Definition dhd_flowid_free (ids : flow_ids) (t : list if_flow_lkup) (multi_client_flow_rings ifindex flowid : Z)
    : option (flow_ids * list if_flow_lkup * Z) :=
  if bool_decide (ifindex >= DHD_MAX_IFS) then Some (ids, t, multi_client_flow_rings)
  else
    e ← at_ t ifindex;
    match slots_remove flowid (fl_hash e) with
    | None => Some (ids, t, multi_client_flow_rings)
    | Some hs =>
        t ← put_ t ifindex (set_fl_hash hs e);
        let multi := if DHD_IF_ROLE_MULTI_CLIENT (if_role e) && bool_decide (multi_client_flow_rings ≠ 0)
                     then s32 (multi_client_flow_rings - 1) else multi_client_flow_rings in
        ids ← dhd_flowid_map_free (if_role e) flowid ids;
        Some (ids, t, multi)
    end.

(** ** Priorities *)

Definition prio2ac : list Z := [0; 1; 1; 0; 2; 2; 3; 3].
Definition prio2tid : list Z := [0; 1; 2; 3; 4; 5; 6; 7].

(** [for (j = 0; j < i; j++) if (map[i] == map[j]) break;] from [j] on, [n]
    iterations left: the index at which it ends. *)
Fixpoint count_inner (map : list Z) (i : nat) (n j : nat) : nat :=
  match n with
  | O => j
  | S n => if bool_decide (map !! i = map !! j) then j else count_inner map i n (S j)
  end.

Fixpoint count_prio (map : list Z) (n i : nat) (prio_count : Z) : Z :=
  match n with
  | O => prio_count
  | S n => count_prio map n (S i) (if bool_decide (count_inner map i i 0 = i) then u8 (prio_count + 1) else prio_count)
  end.

Definition dhd_num_prio_supported_per_flow_ring (map : list Z) : Z := count_prio map NUMPRIO 0 0.

(** The rings that a multi client interface may take: all but one for each
    priority of a station. *)
Definition dhd_get_max_multi_client_flow_rings (map : list Z) (max_flow_rings : Z) : Z :=
  u8 (u8 max_flow_rings - dhd_num_prio_supported_per_flow_ring map).

(** dhd_msgbuf.c *)
Definition PCIE_SHARED_VERSION_6 : Z := 6.
Definition dhd_get_max_flow_rings (bus : flow_bus) : Z :=
  if bool_decide (fw_rev bus >= PCIE_SHARED_VERSION_6) then bus_max_tx_flowrings bus
  else u16 (bus_max_tx_flowrings bus - BCMPCIE_H2D_COMMON_MSGRINGS).
