(* ===== verification/FlowTableSpec.v ===== *)
(** * Flow ids and the table of flows: invariants

    [ids_rep] says which flow ids are handed out, [tbl_rep] which flows the
    table of the interfaces holds. *)

From S2P Require Import Prelude Id16 Id16Theorems FlowQueue FlowData FlowTable.

(** ** The allocators *)

Definition has_htput (ids : flow_ids) : bool := bool_decide (htput_flowid_allocator ids ≠ None).

(** The ids of one map are those from FLOWID_RESERVED on, [n] of them, and four
    more for the high throughput rings. *)
Definition ids_top (n : Z) (ids : flow_ids) : Z :=
  FLOWID_RESERVED + n + (if has_htput ids then HTPUT_TOTAL_FLOW_RINGS else 0).

Definition valid_id (n : Z) (ids : flow_ids) (v : Z) : Prop := FLOWID_RESERVED <= v < ids_top n ids.

(** Arithmetic on the bounds of the ids. *)
Ltac idlia :=
  unfold valid_id, ids_top, HTPUT_TOTAL_FLOW_RINGS, HTPUT_NUM_CLIENT_FLOW_RINGS, FLOWID_RESERVED,
    BCMPCIE_H2D_COMMON_MSGRINGS, FLOWID_INVALID, ID16_INVALID in *; lia.

Definition htput_rep (n : Z) (ids : flow_ids) (o : gset Z) : Prop :=
  match htput_flowid_allocator ids with
  | None => o = ∅
  | Some m => htput_support ids = true ∧ htput_flow_ring_start ids = FLOWID_RESERVED + n
              ∧ id16_allocates m (FLOWID_RESERVED + n) HTPUT_TOTAL_FLOW_RINGS o
  end.

Definition normal_rep (n : Z) (ids : flow_ids) (o : gset Z) : Prop :=
  ∃ m, flowid_allocator ids = Some m ∧ id16_allocates m FLOWID_RESERVED n o.

Definition ids_rep (n : Z) (ids : flow_ids) (o : gset Z) : Prop :=
  ∃ o1 o2, normal_rep n ids o1 ∧ htput_rep n ids o2 ∧ o = o1 ∪ o2.

(** What no allocation changes. *)
Definition ids_same (ids1 ids2 : flow_ids) : Prop :=
  has_htput ids1 = has_htput ids2 ∧ htput_support ids1 = htput_support ids2
  ∧ htput_flow_ring_start ids1 = htput_flow_ring_start ids2.

Lemma ids_same_refl ids : ids_same ids ids.
Proof. by repeat split. Qed.

Lemma ids_same_trans a b c : ids_same a b -> ids_same b c -> ids_same a c.
Proof. intros (?&?&?) (?&?&?). repeat split; congruence. Qed.

Lemma ids_same_top n a b : ids_same a b -> ids_top n a = ids_top n b.
Proof. intros (H&_&_). unfold ids_top. by rewrite H. Qed.

Lemma normal_rep_range n ids o v : normal_rep n ids o -> v ∈ o -> FLOWID_RESERVED <= v < FLOWID_RESERVED + n.
Proof. intros (m & _ & H) Hv. by apply (allocates_range _ _ _ _ _ H). Qed.

Lemma htput_rep_range n ids o v :
  htput_rep n ids o -> v ∈ o ->
  FLOWID_RESERVED + n <= v < FLOWID_RESERVED + n + HTPUT_TOTAL_FLOW_RINGS ∧ has_htput ids = true.
Proof.
  unfold htput_rep, has_htput. destruct (htput_flowid_allocator ids) as [m|].
  - intros (_ & _ & H) Hv. split; [by apply (allocates_range _ _ _ _ _ H)|]. by apply bool_decide_eq_true_2.
  - intros -> Hv. by apply elem_of_empty in Hv.
Qed.

Lemma ids_rep_valid n ids o v : ids_rep n ids o -> v ∈ o -> valid_id n ids v.
Proof.
  intros (o1 & o2 & H1 & H2 & ->) [Hv|Hv]%elem_of_union; unfold valid_id, ids_top.
  - apply (normal_rep_range _ _ _ _ H1) in Hv. destruct (has_htput ids); idlia.
  - apply (htput_rep_range _ _ _ _ H2) in Hv as [Hv ->].
    destruct H1 as (m & _ & H1). unfold FLOWID_RESERVED, BCMPCIE_H2D_COMMON_MSGRINGS in *.
    destruct H1 as (s & Hs & _ & <- & _). pose proof (Id16Theorems.id_total _ _ Hs). lia.
Qed.

(** No id of a map is FLOWID_INVALID. *)
Lemma valid_not_invalid n ids o v : ids_rep n ids o -> valid_id n ids v -> v ≠ FLOWID_INVALID.
Proof.
  intros (o1 & o2 & (m & _ & H1) & H2 & _) Hv ->. pose proof (allocates_valid _ _ _ _ H1).
  unfold valid_id, ids_top, htput_rep, has_htput in *. destruct (htput_flowid_allocator ids) as [hm|].
  - destruct H2 as (_ & _ & H2). pose proof (allocates_valid _ _ _ _ H2). rewrite bool_decide_true in Hv by done. idlia.
  - rewrite bool_decide_false in Hv by naive_solver. idlia.
Qed.

Lemma normal_rep_put n ids o m :
  id16_allocates m FLOWID_RESERVED n o ->
  normal_rep n (mk_ids (Some m) (htput_flowid_allocator ids) (htput_client_flow_rings ids)
                  (htput_flow_ring_start ids) (htput_support ids)) o.
Proof. intros H. by exists m. Qed.

(** ** Allocating and freeing *)

Lemma alloc_normal_spec n ids o :
  ids_rep n ids o ->
  ∃ v ids', alloc_normal ids = Some (v, ids') ∧ ids_same ids' ids
    ∧ (v = FLOWID_INVALID ∧ (∀ x, FLOWID_RESERVED <= x < FLOWID_RESERVED + n -> x ∈ o) ∧ ids_rep n ids' o
       ∨ FLOWID_RESERVED <= v < FLOWID_RESERVED + n ∧ v ∉ o ∧ ids_rep n ids' ({[v]} ∪ o)).
Proof.
  intros (o1 & o2 & (m & Hm & H1) & H2 & ->). unfold alloc_normal. rewrite Hm. cbn [mbind option_bind].
  destruct (alloc_law _ _ _ _ H1) as (v & m' & -> & Hr). cbn [mbind option_bind].
  eexists v, _. split; [done|]. split; [by repeat split|].
  destruct Hr as [(-> & Hfull & H1')|(Hv & Ho & H1')]; [left|right]; (split; [done|]).
  - split; [intros x Hx; apply elem_of_union_l; auto|]. exists o1, o2. by split; [apply normal_rep_put|].
  - split.
    + intros [?|Hv2]%elem_of_union; [done|]. apply (htput_rep_range _ _ _ _ H2) in Hv2 as [? _]. lia.
    + exists ({[v]} ∪ o1), o2. split; [by apply normal_rep_put|]. split; [done|set_solver].
Qed.

Lemma alloc_htput_spec n ids o :
  ids_rep n ids o -> has_htput ids = true ->
  ∃ v ids', alloc_htput ids = Some (v, ids') ∧ ids_same ids' ids
    ∧ htput_client_flow_rings ids' = htput_client_flow_rings ids
    ∧ (v = FLOWID_INVALID ∧ ids_rep n ids' o
       ∨ FLOWID_RESERVED + n <= v < ids_top n ids ∧ v ∉ o ∧ ids_rep n ids' ({[v]} ∪ o)).
Proof.
  intros (o1 & o2 & H1 & H2 & ->) Hh. unfold alloc_htput, htput_rep, has_htput in *.
  destruct (htput_flowid_allocator ids) as [m|] eqn:Em; [|by rewrite bool_decide_eq_true in Hh].
  cbn [mbind option_bind]. destruct H2 as (Hs & Hst & H2).
  destruct (alloc_law _ _ _ _ H2) as (v & m' & -> & Hr). cbn [mbind option_bind].
  eexists v, _. split; [done|]. split; [by repeat split; unfold has_htput; rewrite Em|]. split; [done|].
  unfold ids_top, has_htput. rewrite Em, bool_decide_true by done.
  destruct Hr as [(-> & Hfull & H2')|(Hv & Ho & H2')]; [left|right]; (split; [done|]).
  - exists o1, o2. by split; [|split].
  - split.
    + intros [Hv2|?]%elem_of_union; [|done]. apply (normal_rep_range _ _ _ _ H1) in Hv2. lia.
    + exists o1, ({[v]} ∪ o2). split; [done|]. split; [done|set_solver].
Qed.

Lemma set_htput_clients_rep n c ids o : ids_rep n ids o -> ids_rep n (set_htput_clients c ids) o.
Proof. done. Qed.

Lemma alloc_htput_for_spec n role prio da sh ids o :
  ids_rep n ids o ->
  ∃ v ids', alloc_htput_for role prio da sh ids = Some (v, ids') ∧ ids_same ids' ids
    ∧ (v = FLOWID_INVALID ∧ ids_rep n ids' o
       ∨ FLOWID_RESERVED + n <= v < ids_top n ids ∧ v ∉ o ∧ ids_rep n ids' ({[v]} ∪ o)).
Proof.
  intros H. unfold alloc_htput_for. fold (has_htput ids).
  destruct (has_htput ids) eqn:Eh; cbn [andb]; [|exists FLOWID_INVALID, ids; auto using ids_same_refl].
  destruct (bool_decide (prio = _)); [|exists FLOWID_INVALID, ids; auto using ids_same_refl].
  destruct (alloc_htput_spec n ids o H Eh) as (v & ids' & E & Hs & _ & Hr).
  destruct (DHD_IF_ROLE_GENERIC_STA role); [by exists v, ids'|].
  destruct (_ && bool_decide (_ < _)); [|exists FLOWID_INVALID, ids; auto using ids_same_refl].
  rewrite E. cbn [mbind option_bind]. eexists v, _. split; [done|].
  by destruct (bool_decide (v ≠ FLOWID_INVALID)).
Qed.

Lemma dhd_flowid_map_alloc_spec n role prio da sh ids o :
  0 <= n -> ids_rep n ids o ->
  ∃ v ids', dhd_flowid_map_alloc role prio da sh ids = Some (v, ids') ∧ ids_same ids' ids
    ∧ (v = FLOWID_INVALID ∧ (∀ x, FLOWID_RESERVED <= x < FLOWID_RESERVED + n -> x ∈ o) ∧ ids_rep n ids' o
       ∨ valid_id n ids v ∧ v ∉ o ∧ ids_rep n ids' ({[v]} ∪ o)).
Proof.
  intros Hn H. unfold dhd_flowid_map_alloc.
  assert (∀ ids1, ids_rep n ids1 o -> ids_same ids1 ids -> ∃ v ids', alloc_normal ids1 = Some (v, ids') ∧ ids_same ids' ids
    ∧ (v = FLOWID_INVALID ∧ (∀ x, FLOWID_RESERVED <= x < FLOWID_RESERVED + n -> x ∈ o) ∧ ids_rep n ids' o
       ∨ valid_id n ids v ∧ v ∉ o ∧ ids_rep n ids' ({[v]} ∪ o))) as Hnorm.
  { intros ids1 H1 Hs1. destruct (alloc_normal_spec n ids1 o H1) as (v & ids' & E & Hs & Hr).
    exists v, ids'. split; [done|]. split; [by eapply ids_same_trans|].
    destruct Hr as [?|(Hv & ? & ?)]; [by left|right]. split; [|done]. unfold valid_id, ids_top.
    destruct (has_htput ids); idlia. }
  destruct (_ || _); [by apply Hnorm; [|apply ids_same_refl]|].
  destruct (alloc_htput_for_spec n role prio da sh ids o H) as (v & ids1 & -> & Hs & Hr).
  cbn [mbind option_bind]. case_bool_decide as Ev.
  - destruct Hr as [(_ & H1)|(Hv & _)]; [by apply Hnorm|]. exfalso.
    eapply (valid_not_invalid n ids o v); [done|unfold valid_id; lia|done].
  - destruct Hr as [(? & _)|(Hv & Ho & H1)]; [done|]. exists v, ids1. split; [done|]. split; [done|].
    right. split; [|done]. unfold valid_id. lia.
Qed.

Lemma dhd_flowid_map_free_spec n role v ids o :
  0 <= n -> ids_rep n ids o -> v ∈ o ->
  ∃ ids', dhd_flowid_map_free role v ids = Some ids' ∧ ids_same ids' ids ∧ ids_rep n ids' (o ∖ {[v]}).
Proof.
  intros Hn (o1 & o2 & H1 & H2 & ->) Hv. unfold dhd_flowid_map_free, DHD_IS_FLOWID_HTPUT.
  assert (v ∈ o2 -> v ∉ o1) as Hd.
  { intros Hv2 Hv1. apply (normal_rep_range _ _ _ _ H1) in Hv1. apply (htput_rep_range _ _ _ _ H2) in Hv2 as [? _]. lia. }
  destruct (decide (v ∈ o2)) as [Hv2|Hv2].
  - pose proof (htput_rep_range _ _ _ _ H2 Hv2) as [Hr Hh]. unfold htput_rep, has_htput in *.
    destruct (htput_flowid_allocator ids) as [m|] eqn:Em; [|by rewrite bool_decide_eq_true in Hh].
    destruct H2 as (Hs & Hst & H2). rewrite Hs, Hst, !bool_decide_true by (done || lia). cbn [andb mbind option_bind].
    destruct (free_law _ _ _ _ _ H2 Hv2) as (m' & -> & H2'). cbn [mbind option_bind].
    eexists. split; [done|]. split; [by destruct (DHD_IF_ROLE_MULTI_CLIENT role); repeat split; unfold has_htput; rewrite ?Em, ?Hst|].
    exists o1, (o2 ∖ {[v]}). destruct (DHD_IF_ROLE_MULTI_CLIENT role); (split; [done|]); (split; [done|set_solver]).
  - apply elem_of_union in Hv as [Hv|?]; [|done]. pose proof (normal_rep_range _ _ _ _ H1 Hv) as Hr.
    replace (_ && (_ && _ && _)) with false.
    2: { symmetry. unfold htput_rep in H2. destruct (htput_flowid_allocator ids) as [m|]; [|done].
         destruct H2 as (-> & -> & _). rewrite (bool_decide_false (v >= _)) by lia. by rewrite !andb_false_r. }
    destruct H1 as (m & Hm & H1). rewrite Hm. cbn [mbind option_bind].
    destruct (free_law _ _ _ _ _ H1 Hv) as (m' & -> & H1'). cbn [mbind option_bind].
    eexists. split; [done|]. split; [by repeat split|].
    exists (o1 ∖ {[v]}), o2. split; [by apply normal_rep_put|]. split; [done|set_solver].
Qed.

Lemma dhd_flowid_map_init_spec ids max_tx n :
  n = (if htput_support ids then max_tx - HTPUT_TOTAL_FLOW_RINGS else max_tx) ->
  0 <= n -> max_tx + FLOWID_RESERVED < ID16_INVALID ->
  ∃ ids', dhd_flowid_map_init true true ids max_tx = Some (BCME_OK, ids') ∧ ids_rep n ids' ∅
          ∧ ids_top n ids' = max_tx + FLOWID_RESERVED.
Proof.
  intros Hn H0 Hm. unfold dhd_flowid_map_init. unfold ID16_INVALID, FLOWID_RESERVED, BCMPCIE_H2D_COMMON_MSGRINGS in Hm.
  assert ((if htput_support ids then u16 (max_tx - HTPUT_TOTAL_FLOW_RINGS) else max_tx) = n) as ->.
  { subst n. destruct (htput_support ids); [|done]. apply u16_small. idlia. }
  destruct (id16_map_init_allocates n FLOWID_RESERVED) as (m & -> & H1);
    [done|destruct (htput_support ids); idlia..|].
  cbn [mbind option_bind]. rewrite bool_decide_false by done. cbn [htput_support].
  destruct (htput_support ids) eqn:Es.
  - rewrite (u16_small (n + _)) by idlia.
    destruct (id16_map_init_allocates HTPUT_TOTAL_FLOW_RINGS (n + FLOWID_RESERVED)) as (hm & -> & H2);
      [idlia..|].
    cbn [mbind option_bind]. rewrite bool_decide_false by done. eexists. split; [done|]. split.
    + exists ∅, ∅. split; [by exists m|]. split; [|set_solver]. unfold htput_rep. cbn [htput_flowid_allocator htput_support htput_flow_ring_start]. by rewrite (Z.add_comm FLOWID_RESERVED n).
    + unfold ids_top, has_htput. cbn. idlia.
  - eexists. split; [done|]. split.
    + exists ∅, ∅. split; [by exists m|]. by split; [|set_solver].
    + unfold ids_top, has_htput. cbn. idlia.
Qed.

(** ** The table *)

Definition chain_ids (l : list flow_hash_info) : list Z := fh_flowid <$> l.
Definition if_ids (e : if_flow_lkup) : list Z := concat (chain_ids <$> fl_hash e).
Definition all_ids (t : list if_flow_lkup) : list Z := concat (if_ids <$> t).

Definition node_at (t : list if_flow_lkup) (i s : Z) (n : flow_hash_info) : Prop :=
  ∃ e l, at_ t i = Some e ∧ at_ (fl_hash e) s = Some l ∧ n ∈ l.

(** The table has its 16 interfaces and their 256 slots, the ids in it are those
    of [o], each once, and a node is in the table of its interface. *)
Record tbl_wf (t : list if_flow_lkup) (o : gset Z) : Prop := {
  tbl_ifs : length t = Z.to_nat DHD_MAX_IFS;
  tbl_slots : Forall (λ e, length (fl_hash e) = DHD_FLOWRING_HASH_SIZE) t;
  tbl_nodup : NoDup (all_ids t);
  tbl_out : list_to_set (all_ids t) = o;
  tbl_if : ∀ i s n, node_at t i s n -> fi_ifindex (fh_info n) = i
}.

(** The ids of a table after a change of one slot, and after a change of one
    interface. *)
Lemma if_ids_slot e s l l' :
  at_ (fl_hash e) s = Some l ->
  ∃ r, if_ids e ≡ₚ chain_ids l ++ r ∧ if_ids (set_fl_hash (<[Z.to_nat s := l']> (fl_hash e)) e) ≡ₚ chain_ids l' ++ r.
Proof.
  intros H. destruct (concat_map_insert_perm chain_ids (fl_hash e) s l H) as (r & H1 & H2).
  exists r. split; [done|]. apply H2.
Qed.

Lemma all_ids_if t i e :
  at_ t i = Some e ->
  ∃ r, all_ids t ≡ₚ if_ids e ++ r ∧ ∀ e', all_ids (<[Z.to_nat i := e']> t) ≡ₚ if_ids e' ++ r.
Proof. apply concat_map_insert_perm. Qed.

Lemma if_ids_node e s l n : at_ (fl_hash e) s = Some l -> n ∈ l -> fh_flowid n ∈ if_ids e.
Proof.
  intros H Hn. destruct (if_ids_slot e s l l H) as (r & -> & _).
  apply elem_of_app. left. apply list_elem_of_fmap. by exists n.
Qed.

Lemma if_ids_inv e v : v ∈ if_ids e -> ∃ s l n, at_ (fl_hash e) s = Some l ∧ n ∈ l ∧ fh_flowid n = v.
Proof.
  unfold if_ids. rewrite list_elem_of_In, in_concat. intros (ys & Hys & Hv).
  apply list_elem_of_In, list_elem_of_fmap in Hys as (l & -> & [k Hk]%list_elem_of_lookup).
  apply list_elem_of_In, list_elem_of_fmap in Hv as (n & -> & Hn).
  exists (Z.of_nat k), l, n. by rewrite at_lookup.
Qed.

Lemma all_ids_node t i s n : node_at t i s n -> fh_flowid n ∈ all_ids t.
Proof.
  intros (e & l & Hi & Hs & Hn). destruct (all_ids_if t i e Hi) as (r & -> & _).
  apply elem_of_app. left. by eapply if_ids_node.
Qed.

Lemma tbl_at t o i : tbl_wf t o -> 0 <= i < DHD_MAX_IFS -> ∃ e, at_ t i = Some e.
Proof. intros H Hi. apply at_is_Some. rewrite (tbl_ifs _ _ H). unfold DHD_MAX_IFS in *. lia. Qed.

Lemma tbl_at_slots t o i e : tbl_wf t o -> at_ t i = Some e -> length (fl_hash e) = DHD_FLOWRING_HASH_SIZE.
Proof. intros H [_ He]%at_Some. exact (Forall_lookup_1 _ _ _ _ (tbl_slots _ _ H) He). Qed.

Lemma tbl_slot t o i e s : tbl_wf t o -> at_ t i = Some e -> 0 <= s < 256 -> ∃ l, at_ (fl_hash e) s = Some l.
Proof.
  intros H He Hs. apply at_is_Some. rewrite (tbl_at_slots _ _ _ _ H He).
  unfold DHD_FLOWRING_HASH_SIZE. lia.
Qed.

Lemma tbl_node_out t o i s n : tbl_wf t o -> node_at t i s n -> fh_flowid n ∈ o.
Proof. intros H Hn. rewrite <-(tbl_out _ _ H). apply elem_of_list_to_set. by eapply all_ids_node. Qed.

(** A flow id is the id of one node. *)
Lemma tbl_node_unique t o i s nd i' s' nd' :
  tbl_wf t o -> node_at t i s nd -> node_at t i' s' nd' -> fh_flowid nd = fh_flowid nd' -> nd = nd' ∧ i = i'.
Proof.
  intros H Hn Hn' E. assert (nd = nd') as ->; [|by rewrite <-(tbl_if _ _ H _ _ _ Hn), <-(tbl_if _ _ H _ _ _ Hn')].
  assert (all_ids t = fh_flowid <$> concat ((λ e, concat (fl_hash e)) <$> t)) as Ha.
  { unfold all_ids. clear. induction t as [|e t IH]; [done|]. cbn. rewrite fmap_app, <-IH. f_equal.
    unfold if_ids, chain_ids. induction (fl_hash e) as [|l hs IHl]; [done|]. cbn. by rewrite fmap_app, IHl. }
  assert (∀ i s nd, node_at t i s nd -> nd ∈ concat ((λ e, concat (fl_hash e)) <$> t)) as Hin.
  { intros j r x (e & l & [_ He]%at_Some & [_ Hl]%at_Some & Hx). apply list_elem_of_In, in_concat.
    exists (concat (fl_hash e)). rewrite <-!list_elem_of_In. split.
    - apply list_elem_of_fmap. exists e. split; [done|]. by eapply list_elem_of_lookup_2.
    - apply list_elem_of_In, in_concat. exists l. rewrite <-!list_elem_of_In. split; [by eapply list_elem_of_lookup_2|done]. }
  pose proof (tbl_nodup _ _ H) as Hnd. rewrite Ha in Hnd.
  apply Hin, list_elem_of_lookup in Hn as [a Hla]. apply Hin, list_elem_of_lookup in Hn' as [b Hlb].
  assert (a = b) as ->; [|congruence]. eapply (NoDup_lookup _ a b (fh_flowid nd) Hnd); rewrite list_lookup_fmap.
  - by rewrite Hla.
  - by rewrite Hlb, E.
Qed.

(** The nodes after the slot [s] of interface [i] has become [l']. *)
Lemma node_at_slot t i e s l l' j s' n :
  at_ t i = Some e -> at_ (fl_hash e) s = Some l ->
  node_at (<[Z.to_nat i := set_fl_hash (<[Z.to_nat s := l']> (fl_hash e)) e]> t) j s' n
  <-> (j = i ∧ s' = s ∧ n ∈ l') ∨ (¬ (j = i ∧ s' = s) ∧ node_at t j s' n).
Proof.
  intros Hi Hs. pose proof (at_range _ _ _ Hi). pose proof (at_range _ _ _ Hs). unfold node_at.
  destruct (decide (j = i)) as [->|Hj].
  - rewrite (at_insert_eq _ _ _ _ Hi). setoid_rewrite Hi. destruct (decide (s' = s)) as [->|Hs'].
    + split.
      * intros (e1 & l1 & [= <-] & Hl & Hn). cbn in Hl. rewrite (at_insert_eq _ _ _ _ Hs) in Hl. naive_solver.
      * intros [(_ & _ & Hn)|[? _]]; [|naive_solver]. eexists _, l'. split; [done|]. cbn.
        by rewrite (at_insert_eq _ _ _ _ Hs).
    + split.
      * intros (e1 & l1 & [= <-] & Hl & Hn). cbn in Hl. rewrite at_insert_ne in Hl by (done || lia).
        right. split; [naive_solver|]. by exists e, l1.
      * intros [(? & ? & _)|[_ (e1 & l1 & [= <-] & Hl & Hn)]]; [done|]. eexists _, l1. split; [done|]. cbn.
        by rewrite at_insert_ne by (done || lia).
  - rewrite at_insert_ne by (done || lia). naive_solver.
Qed.

(** ** Adding a node *)

Lemma hashindex_range ea prio : 0 <= DHD_FLOWRING_HASHINDEX ea prio < 256.
Proof. apply Z.mod_pos_bound. lia. Qed.

Lemma flow_slot_range role prio tdls da : 0 <= prio < 256 -> 0 <= flow_slot role prio tdls da < 256.
Proof.
  intros H. unfold flow_slot. pose proof (hashindex_range da prio).
  destruct (DHD_IF_ROLE_GENERIC_STA role), tdls, (ETHER_ISMULTI da); lia.
Qed.

Lemma tbl_put t o i e s l l' :
  tbl_wf t o -> at_ t i = Some e -> at_ (fl_hash e) s = Some l ->
  let t' := <[Z.to_nat i := set_fl_hash (<[Z.to_nat s := l']> (fl_hash e)) e]> t in
  length t' = Z.to_nat DHD_MAX_IFS ∧ Forall (λ e, length (fl_hash e) = DHD_FLOWRING_HASH_SIZE) t'
  ∧ ∃ r, all_ids t ≡ₚ chain_ids l ++ r ∧ all_ids t' ≡ₚ chain_ids l' ++ r.
Proof.
  intros H Hi Hs. cbv zeta. split; [by rewrite length_insert, (tbl_ifs _ _ H)|]. split.
  - apply (Forall_insert _ _ _ _ (tbl_slots _ _ H)). cbn [set_fl_hash fl_hash]. rewrite length_insert. by eapply tbl_at_slots.
  - destruct (all_ids_if t i e Hi) as (r & H1 & H2). destruct (if_ids_slot e s l l' Hs) as (r2 & H3 & H4).
    exists (r2 ++ r). split; [by rewrite H1, H3, app_assoc|]. by rewrite H2, H4, app_assoc.
Qed.

Lemma tbl_add t o i e s l v info :
  tbl_wf t o -> at_ t i = Some e -> at_ (fl_hash e) s = Some l -> v ∉ o -> fi_ifindex info = i ->
  tbl_wf (<[Z.to_nat i := set_fl_hash (<[Z.to_nat s := l ++ [mk_fh v info]]> (fl_hash e)) e]> t) ({[v]} ∪ o).
Proof.
  intros H Hi Hs Hv Hinfo. destruct (tbl_put t o i e s l (l ++ [mk_fh v info]) H Hi Hs) as (H1 & H2 & r & H3 & H4).
  assert (∀ x : list Z, chain_ids (l ++ [mk_fh v info]) ++ x ≡ₚ v :: chain_ids l ++ x) as Hp.
  { intros x. unfold chain_ids. rewrite fmap_app. cbn. rewrite <-app_assoc. cbn. by rewrite Permutation_middle. }
  assert (all_ids (<[Z.to_nat i := set_fl_hash (<[Z.to_nat s := l ++ [mk_fh v info]]> (fl_hash e)) e]> t) ≡ₚ v :: all_ids t) as Ha.
  { by rewrite H4, Hp, H3. }
  split; [done|done| | |].
  - rewrite Ha. apply NoDup_cons. split; [|apply (tbl_nodup _ _ H)].
    intros Hin. apply Hv. rewrite <-(tbl_out _ _ H). by apply elem_of_list_to_set.
  - apply leibniz_equiv. rewrite Ha. cbn. by rewrite (tbl_out _ _ H).
  - intros j s' n Hn. apply (node_at_slot t i e s l _ j s' n Hi Hs) in Hn as [(-> & -> & Hn)|[_ Hn]].
    + apply elem_of_app in Hn as [Hn|Hn]; [|by apply list_elem_of_singleton in Hn as ->].
      apply (tbl_if _ _ H i s). by exists e, l.
    + by eapply (tbl_if _ _ H).
Qed.

(** What dhd_flowid_alloc does to the table when it finds an id. *)
Definition flow_added (t : list if_flow_lkup) (i prio : Z) (tdls : bool) (da : ether_addr) (v : Z)
    (t' : list if_flow_lkup) : Prop :=
  ∃ e l, at_ t i = Some e ∧ at_ (fl_hash e) (flow_slot (if_role e) prio tdls da) = Some l
    ∧ t' = <[Z.to_nat i := set_fl_hash (<[Z.to_nat (flow_slot (if_role e) prio tdls da) :=
                 l ++ [mk_fh v (mk_fi prio i (mk_ea 0 0 0 0 0 0) da)]]> (fl_hash e)) e]> t.

(** No station flow is overwritten: the slot of a priority is empty. *)
Definition sta_slot_free (t : list if_flow_lkup) (i prio : Z) (tdls : bool) : Prop :=
  ∀ e l, at_ t i = Some e -> DHD_IF_ROLE_GENERIC_STA (if_role e) = true -> tdls = false ->
         at_ (fl_hash e) prio = Some l -> l = [].

Lemma dhd_flowid_alloc_spec malloc sh peers n ids t o i prio da max :
  0 <= n -> ids_rep n ids o -> tbl_wf t o -> 0 <= i < DHD_MAX_IFS -> 0 <= prio < 256 ->
  ids_top n ids = max + 1 -> sta_slot_free t i prio (is_tdls_destination peers da) ->
  ∃ v ids' t', dhd_flowid_alloc malloc sh peers max ids t i prio da = Some (v, ids', t') ∧ ids_same ids' ids
    ∧ (v = FLOWID_INVALID ∧ t' = t ∧ ids_rep n ids' o
         ∧ (malloc = true -> ∀ x, FLOWID_RESERVED <= x < FLOWID_RESERVED + n -> x ∈ o)
       ∨ valid_id n ids v ∧ v ∉ o ∧ malloc = true ∧ ids_rep n ids' ({[v]} ∪ o) ∧ tbl_wf t' ({[v]} ∪ o)
         ∧ flow_added t i prio (is_tdls_destination peers da) da v t').
Proof.
  intros Hn Hids Ht Hi Hp Hmax Hfree. unfold dhd_flowid_alloc.
  destruct malloc; cbn [negb].
  2: { exists FLOWID_INVALID, ids, t. split; [done|]. split; [apply ids_same_refl|]. by left. }
  destruct (tbl_at t o i Ht Hi) as (e & He). rewrite He. cbn [mbind option_bind].
  destruct (dhd_flowid_map_alloc_spec n (if_role e) prio da sh ids o Hn Hids) as (v & ids' & -> & Hs & Hr).
  cbn [mbind option_bind]. case_bool_decide as Ev.
  - destruct Hr as [(_ & Hfull & Hr)|(Hv & _)].
    + exists FLOWID_INVALID, ids', t. split; [done|]. split; [done|]. by left.
    + exfalso. by eapply valid_not_invalid.
  - destruct Hr as [(? & _)|(Hv & Ho & Hr)]; [done|].
    set (tdls := is_tdls_destination peers da) in *. set (s := flow_slot (if_role e) prio tdls da).
    pose proof (flow_slot_range (if_role e) prio tdls da Hp) as Hsr. fold s in Hsr.
    destruct (tbl_slot t o i e s Ht He Hsr) as (l & Hl). rewrite Hl. cbn [mbind option_bind].
    set (nd := mk_fh v _).
    assert (chain_add (if_role e) tdls nd l = l ++ [nd]) as ->.
    { unfold chain_add. destruct (DHD_IF_ROLE_GENERIC_STA (if_role e)) eqn:Er, tdls eqn:Et; try done. cbn.
      assert (s = prio) as Es by (unfold s, flow_slot; by rewrite Er). rewrite Es in Hl.
      by rewrite (Hfree e l He Er eq_refl Hl). }
    rewrite (put_Some _ _ _ _ Hl). cbn [mbind option_bind]. rewrite (put_Some _ _ _ _ He). cbn [mbind option_bind].
    rewrite bool_decide_false by (unfold valid_id in Hv; lia).
    eexists v, ids', _. split; [done|]. split; [done|]. right. do 4 (split; [done|]). split.
    + by apply tbl_add.
    + by exists e, l.
Qed.

(** ** Removing a node *)

Lemma in_chain_true v l : in_chain v l = true <-> v ∈ chain_ids l.
Proof.
  unfold in_chain, chain_ids. rewrite existsb_exists, list_elem_of_fmap. split.
  - intros (n & Hn & Hv%bool_decide_eq_true_1). exists n. by rewrite list_elem_of_In.
  - intros (n & -> & Hn). exists n. rewrite <-list_elem_of_In. split; [done|by apply bool_decide_eq_true_2].
Qed.

Lemma chain_remove_spec v l :
  v ∈ chain_ids l ->
  chain_ids l ≡ₚ v :: chain_ids (chain_remove v l)
  ∧ (∀ n, n ∈ chain_remove v l -> n ∈ l) ∧ (∀ n, n ∈ l -> fh_flowid n ≠ v -> n ∈ chain_remove v l).
Proof.
  induction l as [|n l IH]; cbn; [by intros ?%elem_of_nil|]. intros H. case_bool_decide as E.
  - split; [by rewrite E|]. split; [by right|]. intros n' [->|?]%elem_of_cons; [done|by intros].
  - apply elem_of_cons in H as [->|H]; [done|]. destruct (IH H) as (H1 & H2 & H3). split; [|split].
    + rewrite H1. cbn. apply perm_swap.
    + intros n' [->|?]%elem_of_cons; [left|right; auto].
    + intros n' [->|?]%elem_of_cons ?; [left|right; auto].
Qed.

Lemma slots_remove_spec v hs :
  match slots_remove v hs with
  | Some hs' => ∃ s l, at_ hs s = Some l ∧ v ∈ chain_ids l ∧ hs' = <[Z.to_nat s := chain_remove v l]> hs
  | None => ∀ s l, at_ hs s = Some l -> v ∉ chain_ids l
  end.
Proof.
  induction hs as [|l hs IH]; cbn [slots_remove].
  - intros s l [_ H]%at_Some. by destruct (Z.to_nat s).
  - destruct (in_chain v l) eqn:E.
    + exists 0, l. split; [done|]. by rewrite <-in_chain_true.
    + destruct (slots_remove v hs) as [hs'|]; cbn [mbind option_bind].
      * destruct IH as (s & l' & Hl & Hv & ->). pose proof (at_range _ _ _ Hl).
        exists (s + 1), l'. replace (Z.to_nat (s + 1)) with (S (Z.to_nat s)) by lia. split; [|done].
        apply at_Some in Hl as [? Hl]. apply at_Some. split; [lia|].
        by replace (Z.to_nat (s + 1)) with (S (Z.to_nat s)) by lia.
      * intros s l' [Hs Hl]%at_Some. destruct (Z.to_nat s) as [|k] eqn:Ek; cbn in Hl.
        -- injection Hl as <-. rewrite <-in_chain_true. by rewrite E.
        -- apply (IH (Z.of_nat k)). by rewrite at_lookup.
Qed.

(** What dhd_flowid_free does to the table: no node of the interface has the id
    any more, the others stay. *)
Definition flow_removed (t : list if_flow_lkup) (i v : Z) (t' : list if_flow_lkup) : Prop :=
  (∀ j s n, node_at t' j s n <-> node_at t j s n ∧ ¬ (j = i ∧ fh_flowid n = v))
  ∧ (∀ j e', at_ t' j = Some e' -> ∃ e, at_ t j = Some e ∧ if_role e' = if_role e ∧ if_status e' = if_status e).

Lemma tbl_remove t o i e s l v :
  tbl_wf t o -> at_ t i = Some e -> at_ (fl_hash e) s = Some l -> v ∈ chain_ids l ->
  let t' := <[Z.to_nat i := set_fl_hash (<[Z.to_nat s := chain_remove v l]> (fl_hash e)) e]> t in
  v ∈ o ∧ tbl_wf t' (o ∖ {[v]}) ∧ flow_removed t i v t'.
Proof.
  intros H Hi Hs Hv t'. destruct (chain_remove_spec v l Hv) as (Hp & Hsub & Hkeep).
  destruct (tbl_put t o i e s l (chain_remove v l) H Hi Hs) as (H1 & H2 & r & H3 & H4). fold t' in H1, H2, H4.
  assert (all_ids t ≡ₚ v :: all_ids t') as Ha by (by rewrite H3, H4, Hp).
  pose proof (tbl_nodup _ _ H) as Hnd. rewrite Ha in Hnd. apply NoDup_cons in Hnd as [Hvn Hnd'].
  assert (o = {[v]} ∪ list_to_set (all_ids t')) as Ho.
  { rewrite <-(tbl_out _ _ H). apply leibniz_equiv. by rewrite Ha. }
  assert (∀ j s' n, node_at t' j s' n -> node_at t j s' n) as Hsubn.
  { intros j s' n Hn. apply (node_at_slot t i e s l _ j s' n Hi Hs) in Hn as [(-> & -> & Hn)|[_ Hn]]; [|done].
    exists e, l. auto. }
  split; [set_solver|]. split.
  - split; [done|done|done| |].
    + rewrite Ho. apply leibniz_equiv.
      assert (v ∉ (list_to_set (all_ids t') : gset Z)) by (by rewrite elem_of_list_to_set). set_solver.
    + intros j s' n Hn. by eapply (tbl_if _ _ H), Hsubn.
  - split.
    + intros j s' n. split.
      * intros Hn. split; [by apply Hsubn|]. intros [_ Hid]. apply Hvn. rewrite <-Hid. by eapply all_ids_node.
      * intros [Hn Hne]. apply (node_at_slot t i e s l _ j s' n Hi Hs).
        destruct (decide (j = i)) as [->|]; [destruct (decide (s' = s)) as [->|]|]; [left|right..]; try naive_solver.
        destruct Hn as (e1 & l1 & He1 & Hl1 & Hn). rewrite Hi in He1. injection He1 as <-.
        rewrite Hs in Hl1. injection Hl1 as <-. naive_solver.
    + intros j e'. unfold t'. pose proof (at_range _ _ _ Hi). destruct (decide (j = i)) as [->|Hj].
      * rewrite (at_insert_eq _ _ _ _ Hi). intros [= <-]. by exists e.
      * rewrite at_insert_ne by (done || lia). intros He. by exists e'.
Qed.

Lemma flow_removed_refl t i v :
  (∀ s n, node_at t i s n -> fh_flowid n ≠ v) -> flow_removed t i v t.
Proof.
  intros H. split; [|intros j e He; by exists e].
  intros j s n. split; [|naive_solver]. intros Hn. split; [done|]. intros [-> ?]. by eapply H.
Qed.

Lemma dhd_flowid_free_spec n ids t o multi i v :
  0 <= n -> ids_rep n ids o -> tbl_wf t o -> 0 <= i ->
  ∃ ids' t' multi', dhd_flowid_free ids t multi i v = Some (ids', t', multi') ∧ ids_same ids' ids
    ∧ flow_removed t i v t'
    ∧ ((∃ s nd, node_at t i s nd ∧ fh_flowid nd = v) ∧ v ∈ o ∧ ids_rep n ids' (o ∖ {[v]}) ∧ tbl_wf t' (o ∖ {[v]})
       ∨ (∀ s nd, node_at t i s nd -> fh_flowid nd ≠ v) ∧ ids' = ids ∧ t' = t ∧ multi' = multi).
Proof.
  intros Hn Hids Ht Hi. unfold dhd_flowid_free. case_bool_decide as Hr.
  - exists ids, t, multi. split; [done|]. split; [apply ids_same_refl|].
    assert (∀ s nd, node_at t i s nd -> fh_flowid nd ≠ v) as Hnone.
    { intros s nd (e & l & He & _). apply at_range in He. rewrite (tbl_ifs _ _ Ht) in He. unfold DHD_MAX_IFS in *. lia. }
    split; [by apply flow_removed_refl|]. by right.
  - destruct (tbl_at t o i Ht) as (e & He); [lia|]. rewrite He. cbn [mbind option_bind].
    pose proof (slots_remove_spec v (fl_hash e)) as Hsp. destruct (slots_remove v (fl_hash e)) as [hs|].
    + destruct Hsp as (s & l & Hl & Hv & ->). rewrite (put_Some _ _ _ _ He). cbn [mbind option_bind].
      destruct (tbl_remove t o i e s l v Ht He Hl Hv) as (Hvo & Ht' & Hrem).
      destruct (dhd_flowid_map_free_spec n (if_role e) v ids o Hn Hids Hvo) as (ids' & -> & Hs & Hids').
      cbn [mbind option_bind]. eexists ids', _, _. split; [done|]. split; [done|]. split; [done|]. left.
      split; [|done]. apply list_elem_of_fmap in Hv as (nd & -> & Hnd). exists s, nd. split; [|done]. by exists e, l.
    + exists ids, t, multi. split; [done|]. split; [apply ids_same_refl|].
      assert (∀ s nd, node_at t i s nd -> fh_flowid nd ≠ v) as Hnone.
      { intros s nd (e1 & l & He1 & Hl & Hnd) <-. rewrite He in He1. injection He1 as <-.
        apply (Hsp s l Hl). apply list_elem_of_fmap. by exists nd. }
      split; [by apply flow_removed_refl|]. by right.
Qed.

(** ** Looking a flow up *)

Lemma chain_find_spec f l :
  (∃ n, n ∈ l ∧ f n = true ∧ chain_find f l = fh_flowid n)
  ∨ (∀ n, n ∈ l -> f n = false) ∧ chain_find f l = FLOWID_INVALID.
Proof.
  unfold chain_find. destruct (list_find _ l) as [[k n]|] eqn:E.
  - apply list_find_Some in E as (Hk & Hf & _). left. exists n. split; [by eapply list_elem_of_lookup_2|done].
  - right. split; [|done]. intros n Hn. apply list_find_None in E. rewrite Forall_forall in E.
    specialize (E n Hn). by destruct (f n).
Qed.

Lemma dhd_flowid_find_total peers t o i prio da :
  tbl_wf t o -> 0 <= i -> 0 <= prio < 256 ->
  ∃ v, dhd_flowid_find peers t i prio da = Some v
    ∧ (v = FLOWID_INVALID ∨ ∃ e n, at_ t i = Some e
         ∧ node_at t i (flow_slot (if_role e) prio (is_tdls_destination peers da) da) n ∧ fh_flowid n = v
         ∧ (DHD_IF_ROLE_GENERIC_STA (if_role e) = false -> flow_matches da prio n = true)).
Proof.
  intros Ht Hi Hp. unfold dhd_flowid_find. case_bool_decide; [eauto|].
  destruct (tbl_at t o i Ht) as (e & He); [lia|]. rewrite He. cbn [mbind option_bind].
  set (s := flow_slot _ _ _ _). pose proof (flow_slot_range (if_role e) prio (is_tdls_destination peers da) da Hp) as Hsr.
  destruct (tbl_slot t o i e s Ht He Hsr) as (l & Hl). rewrite Hl. cbn [mbind option_bind].
  eexists. split; [done|].
  destruct (DHD_IF_ROLE_GENERIC_STA (if_role e)) eqn:Er.
  - destruct (is_tdls_destination peers da) eqn:Et.
    + destruct (chain_find_spec (same_da da) l) as [(n & Hn & _ & Hf)|[_ Hf]]; [|by left].
      right. exists e, n. rewrite Hf. split; [done|]. split; [by exists e, l|]. by rewrite Er.
    + destruct l as [|n l]; [by left|]. right. exists e, n. split; [done|]. split; [|by rewrite Er].
      exists e, (n :: l). split; [done|]. split; [done|left].
  - destruct (chain_find_spec (flow_matches da prio) l) as [(n & Hn & Hm & Hf)|[_ Hf]]; [|by left].
    right. exists e, n. split; [done|]. rewrite Hf. split; [by exists e, l|done].
Qed.

(** When nothing is found for a station without TDLS, its slot is empty. *)
Lemma find_sta_slot_free peers t o i prio da :
  tbl_wf t o -> (∀ v, v ∈ o -> v ≠ FLOWID_INVALID) -> i < DHD_MAX_IFS ->
  dhd_flowid_find peers t i prio da = Some FLOWID_INVALID ->
  sta_slot_free t i prio (is_tdls_destination peers da).
Proof.
  intros Ht Ho Hi Hf e l He Hr Hd Hl. unfold dhd_flowid_find in Hf. rewrite bool_decide_false in Hf by lia.
  rewrite He in Hf. cbn [mbind option_bind] in Hf. unfold flow_slot in Hf. rewrite Hr, Hd, Hl in Hf.
  cbn in Hf. destruct l as [|n l]; [done|]. exfalso. injection Hf as Hf.
  apply (Ho (fh_flowid n)); [|done]. apply (tbl_node_out t o i prio n Ht). exists e, (n :: l).
  split; [done|]. split; [done|left].
Qed.
