(* ===== verification/FlowTableTheorems.v ===== *)
(** * Flow ids and the table of flows: properties *)

From S2P Require Import Prelude Id16 Id16Theorems FlowQueue FlowData FlowTable FlowTableSpec.

(** ** The key of a flow

    A station has a flow for each priority; the other roles have one for all
    multicast, and one for each peer and priority. *)
Inductive flow_key := KPrio (prio : Z) | KMcast | KUcast (da : ether_addr) (prio : Z).
#[export] Instance flow_key_eq_dec : EqDecision flow_key.
Proof. solve_decision. Defined.

#[export] Instance ether_addr_countable : Countable ether_addr.
Proof.
  apply (inj_countable' (λ a, (ea0 a, ea1 a, ea2 a, ea3 a, ea4 a, ea5 a))
           (λ '(a, b, c, d, e, f), mk_ea a b c d e f)).
  by intros [].
Defined.
#[export] Instance flow_key_countable : Countable flow_key.
Proof.
  apply (inj_countable'
    (λ k, match k with KPrio p => inl p | KMcast => inr (inl tt) | KUcast a p => inr (inr (a, p)) end)
    (λ k, match k with inl p => KPrio p | inr (inl _) => KMcast | inr (inr (a, p)) => KUcast a p end)).
  by intros [].
Defined.

Definition flow_key_of (role prio : Z) (da : ether_addr) : flow_key :=
  if DHD_IF_ROLE_GENERIC_STA role then KPrio prio
  else if ETHER_ISMULTI da then KMcast else KUcast da prio.

Definition node_key (role : Z) (n : flow_hash_info) : flow_key :=
  flow_key_of role (fi_tid (fh_info n)) (fi_da (fh_info n)).

Definition key_slot (k : flow_key) : Z :=
  match k with KPrio p => p | KMcast => 0 | KUcast da p => DHD_FLOWRING_HASHINDEX da p end.

Lemma flow_slot_key role prio da : flow_slot role prio false da = key_slot (flow_key_of role prio da).
Proof.
  unfold flow_slot, flow_key_of. destruct (DHD_IF_ROLE_GENERIC_STA role); [done|]. by destruct (ETHER_ISMULTI da).
Qed.

Lemma flow_matches_key role da prio n :
  DHD_IF_ROLE_GENERIC_STA role = false ->
  flow_matches da prio n = true <-> node_key role n = flow_key_of role prio da.
Proof.
  intros Hr. unfold flow_matches, node_key, flow_key_of, same_da. rewrite Hr.
  rewrite orb_true_iff, !andb_true_iff, !bool_decide_eq_true.
  destruct (ETHER_ISMULTI da) eqn:E1, (ETHER_ISMULTI (fi_da (fh_info n))) eqn:E2; naive_solver congruence.
Qed.

(** ** The table as a map from an interface and a key to a flow id *)

Abbreviation flows := (gmap (Z * flow_key) Z).

Definition flow_ids_of (M : flows) (v : Z) : Prop := ∃ x, M !! x = Some v.

(** [r] gives the role of each interface. *)
Record flows_rep (n : Z) (r : Z -> Z) (ids : flow_ids) (t : list if_flow_lkup) (M : flows) (o : gset Z) : Prop := {
  fr_n : 0 <= n;
  fr_ids : ids_rep n ids o;
  fr_tbl : tbl_wf t o;
  fr_role : ∀ i e, at_ t i = Some e -> if_role e = r i;
  fr_node : ∀ i s nd, node_at t i s nd ->
              s = key_slot (node_key (r i) nd) ∧ M !! (i, node_key (r i) nd) = Some (fh_flowid nd);
  fr_map : ∀ i k v, M !! (i, k) = Some v -> ∃ s nd, node_at t i s nd ∧ node_key (r i) nd = k ∧ fh_flowid nd = v
}.

(** The operations; an id is asked for as dhd_flowid_lookup does it, after
    looking for it. *)
Inductive flow_op :=
  | FlFind (i prio : Z) (da : ether_addr)
  | FlGet (malloc sta_htput : bool) (i prio : Z) (da : ether_addr)
  | FlFree (i v : Z).

Definition no_peers : tdls_peer_tbl := mk_peers 0 [].

Definition flow_exec (max : Z) (op : flow_op) (s : flow_ids * list if_flow_lkup * Z)
    : option (Z * (flow_ids * list if_flow_lkup * Z)) :=
  let '(ids, t, multi) := s in
  match op with
  | FlFind i prio da => v ← dhd_flowid_find no_peers t i prio da; Some (v, s)
  | FlGet malloc sh i prio da =>
      v ← dhd_flowid_find no_peers t i prio da;
      if bool_decide (v = FLOWID_INVALID) then
        '(v, ids, t) ← dhd_flowid_alloc malloc sh no_peers max ids t i prio da;
        Some (v, (ids, t, multi))
      else Some (v, s)
  | FlFree i v => '(ids, t, multi) ← dhd_flowid_free ids t multi i v; Some (0, (ids, t, multi))
  end.

Definition flow_enabled (op : flow_op) : Prop :=
  match op with
  | FlFind i prio _ | FlGet _ _ i prio _ => 0 <= i < DHD_MAX_IFS ∧ 0 <= prio < 256
  | FlFree i _ => 0 <= i
  end.

(** The map an operation may leave, and its answer.  An id that is new is any
    of the [FLOWID_RESERVED .. max] that no flow has. *)
Inductive flow_spec (n max : Z) (r : Z -> Z) (M : flows) : flow_op -> Z -> flows -> Prop :=
  | SpecFind i prio da :
      flow_spec n max r M (FlFind i prio da) (default FLOWID_INVALID (M !! (i, flow_key_of (r i) prio da))) M
  | SpecGetOld malloc sh i prio da v :
      M !! (i, flow_key_of (r i) prio da) = Some v -> flow_spec n max r M (FlGet malloc sh i prio da) v M
  | SpecGetNew sh i prio da v :
      M !! (i, flow_key_of (r i) prio da) = None -> FLOWID_RESERVED <= v <= max -> ¬ flow_ids_of M v ->
      flow_spec n max r M (FlGet true sh i prio da) v (<[(i, flow_key_of (r i) prio da) := v]> M)
  | SpecGetNone malloc sh i prio da :
      M !! (i, flow_key_of (r i) prio da) = None ->
      (malloc = true -> ∀ x, FLOWID_RESERVED <= x < FLOWID_RESERVED + n -> flow_ids_of M x) ->
      flow_spec n max r M (FlGet malloc sh i prio da) FLOWID_INVALID M
  | SpecFree i v :
      flow_spec n max r M (FlFree i v) 0 (filter (λ x, ¬ (x.1.1 = i ∧ x.2 = v)) M).

Fixpoint flow_exec_all (max : Z) (ops : list flow_op) (s : flow_ids * list if_flow_lkup * Z)
    : option (list Z * (flow_ids * list if_flow_lkup * Z)) :=
  match ops with
  | [] => Some ([], s)
  | op :: ops => '(x, s) ← flow_exec max op s; '(xs, s) ← flow_exec_all max ops s; Some (x :: xs, s)
  end.

Inductive flow_run (n max : Z) (r : Z -> Z) : flows -> list flow_op -> list Z -> flows -> Prop :=
  | RunNil M : flow_run n max r M [] [] M
  | RunCons M1 M2 M3 op ops x xs :
      flow_spec n max r M1 op x M2 -> flow_run n max r M2 ops xs M3 ->
      flow_run n max r M1 (op :: ops) (x :: xs) M3.

Section Rep.
Context (n : Z) (r : Z -> Z) (ids : flow_ids) (t : list if_flow_lkup) (M : flows) (o : gset Z)
  (H : flows_rep n r ids t M o).

Lemma flows_ids v : flow_ids_of M v <-> v ∈ o.
Proof.
  split.
  - intros ([i k] & Hx). destruct (fr_map _ _ _ _ _ _ H _ _ _ Hx) as (s & nd & Hn & _ & <-).
    eapply tbl_node_out; [|done]. apply (fr_tbl _ _ _ _ _ _ H).
  - intros Hv. rewrite <-(tbl_out _ _ (fr_tbl _ _ _ _ _ _ H)), elem_of_list_to_set in Hv.
    unfold all_ids in Hv. rewrite list_elem_of_In, in_concat in Hv. destruct Hv as (ys & Hys & Hv).
    apply list_elem_of_In, list_elem_of_fmap in Hys as (e & -> & [k Hk]%list_elem_of_lookup).
    apply list_elem_of_In, if_ids_inv in Hv as (s & l & nd & Hl & Hnd & <-).
    destruct (fr_node _ _ _ _ _ _ H (Z.of_nat k) s nd) as [_ Hm].
    { exists e, l. by rewrite at_lookup. }
    by eexists.
Qed.

Lemma find_spec i prio da :
  0 <= i < DHD_MAX_IFS -> 0 <= prio < 256 ->
  dhd_flowid_find no_peers t i prio da
  = Some (default FLOWID_INVALID (M !! (i, flow_key_of (r i) prio da))).
Proof.
  intros Hi Hp. unfold dhd_flowid_find. rewrite bool_decide_false by lia.
  destruct (tbl_at t o i (fr_tbl _ _ _ _ _ _ H) Hi) as (e & He). rewrite He. cbn [mbind option_bind].
  change (is_tdls_destination no_peers da) with false. rewrite flow_slot_key, (fr_role _ _ _ _ _ _ H _ _ He).
  set (k := flow_key_of (r i) prio da).
  pose proof (flow_slot_range (r i) prio false da Hp) as Hs. rewrite flow_slot_key in Hs. fold k in Hs.
  destruct (tbl_slot t o i e (key_slot k) (fr_tbl _ _ _ _ _ _ H) He Hs) as (l & Hl). rewrite Hl.
  cbn [mbind option_bind].
  assert (∀ nd, nd ∈ l -> node_at t i (key_slot k) nd) as Hnode by (intros nd Hnd; by exists e, l).
  assert (∀ nd, nd ∈ l -> node_key (r i) nd = k -> M !! (i, k) = Some (fh_flowid nd)) as Hkey.
  { intros nd Hnd Hk. destruct (fr_node _ _ _ _ _ _ H _ _ _ (Hnode nd Hnd)) as [_ Hm]. by rewrite Hk in Hm. }
  assert ((∀ nd, nd ∈ l -> node_key (r i) nd ≠ k) -> M !! (i, k) = None) as Hnone.
  { intros Hn. destruct (M !! (i, k)) as [v|] eqn:E; [|done].
    destruct (fr_map _ _ _ _ _ _ H _ _ _ E) as (s & nd & Hnd & Hk & _).
    destruct (fr_node _ _ _ _ _ _ H _ _ _ Hnd) as [Hsl _]. rewrite Hk in Hsl. subst s.
    destruct Hnd as (e1 & l1 & He1 & Hl1 & Hnd). rewrite He in He1. injection He1 as <-.
    rewrite Hl in Hl1. injection Hl1 as <-. by destruct (Hn nd). }
  f_equal. destruct (DHD_IF_ROLE_GENERIC_STA (r i)) eqn:Er.
  - destruct l as [|nd l]; [by rewrite Hnone by (by intros ? ?%elem_of_nil)|].
    erewrite Hkey; [done|left|]. destruct (fr_node _ _ _ _ _ _ H i (key_slot k) nd) as [Hsl _].
    { apply Hnode. left. }
    unfold k, node_key, flow_key_of in *. rewrite Er in *. cbn in Hsl. by rewrite Hsl.
  - destruct (chain_find_spec (flow_matches da prio) l) as [(nd & Hnd & Hm & ->)|[Hf ->]].
    + apply (flow_matches_key (r i)) in Hm; [|done]. by rewrite (Hkey nd).
    + rewrite Hnone; [done|]. intros nd Hnd Hk. apply (flow_matches_key (r i)) in Hk; [|done].
      by rewrite (Hf nd Hnd) in Hk.
Qed.

Lemma flows_rep_add i prio da v ids' t' :
  0 <= i < DHD_MAX_IFS -> M !! (i, flow_key_of (r i) prio da) = None ->
  v ∉ o -> ids_rep n ids' ({[v]} ∪ o) -> tbl_wf t' ({[v]} ∪ o) -> flow_added t i prio false da v t' ->
  flows_rep n r ids' t' (<[(i, flow_key_of (r i) prio da) := v]> M) ({[v]} ∪ o).
Proof.
  intros Hi Hm Hv Hids Ht (e & l & He & Hl & ->).
  rewrite (fr_role _ _ _ _ _ _ H _ _ He), flow_slot_key in Hl, Ht |- *. set (k := flow_key_of (r i) prio da) in *.
  set (nd0 := mk_fh v (mk_fi prio i (mk_ea 0 0 0 0 0 0) da)).
  assert (node_key (r i) nd0 = k) as Hk0 by done.
  pose proof (λ j s nd, node_at_slot t i e (key_slot k) l (l ++ [nd0]) j s nd He Hl) as Hat.
  split; [apply (fr_n _ _ _ _ _ _ H)|done|done| | |].
  - intros j e'. pose proof (at_range _ _ _ He). destruct (decide (j = i)) as [->|Hj].
    + rewrite (at_insert_eq _ _ _ _ He). intros [= <-]. cbn. by apply (fr_role _ _ _ _ _ _ H).
    + rewrite at_insert_ne by (done || lia). apply (fr_role _ _ _ _ _ _ H).
  - assert (∀ j s nd, node_at t j s nd -> s = key_slot (node_key (r j) nd)
       ∧ <[(i, k) := v]> M !! (j, node_key (r j) nd) = Some (fh_flowid nd)) as Hold.
    { intros j s nd Hn. destruct (fr_node _ _ _ _ _ _ H j s nd Hn) as [-> Hn2]. split; [done|].
      rewrite lookup_insert_ne; [done|]. intros [= <- Ek]. by rewrite <-Ek, Hm in Hn2. }
    intros j s nd [(-> & -> & Hn)|[_ Hn]]%Hat; [|by apply Hold].
    apply elem_of_app in Hn as [Hn|Hn%list_elem_of_singleton]; [|subst nd].
    + apply Hold. by exists e, l.
    + rewrite Hk0. by rewrite lookup_insert_eq.
  - intros j k' v'. rewrite lookup_insert_Some. intros [[[= <- <-] <-]|[Hne Hmv]].
    + exists (key_slot k), nd0. split; [|done]. apply Hat. left. split; [done|]. split; [done|].
      apply elem_of_app. right. by apply list_elem_of_singleton.
    + destruct (fr_map _ _ _ _ _ _ H _ _ _ Hmv) as (s & nd & Hn & Hk & Hf). exists s, nd. split; [|done].
      apply Hat. destruct (decide (j = i ∧ s = key_slot k)) as [[-> ->]|]; [left|by right].
      split; [done|]. split; [done|]. apply elem_of_app. left.
      destruct Hn as (e1 & l1 & He1 & Hl1 & Hn). rewrite He in He1. injection He1 as <-.
      rewrite Hl in Hl1. by injection Hl1 as <-.
Qed.

Lemma flows_rep_remove i v ids' t' o' :
  ids_rep n ids' o' -> tbl_wf t' o' -> flow_removed t i v t' ->
  flows_rep n r ids' t' (filter (λ x, ¬ (x.1.1 = i ∧ x.2 = v)) M) o'.
Proof.
  intros Hids Ht [Hn He]. split; [apply (fr_n _ _ _ _ _ _ H)|done|done| | |].
  - intros j e' (e & He1 & -> & _)%He. by apply (fr_role _ _ _ _ _ _ H).
  - intros j s nd [Hnd Hne]%Hn. destruct (fr_node _ _ _ _ _ _ H _ _ _ Hnd) as [-> Hm].
    split; [done|]. by apply map_lookup_filter_Some.
  - intros j k w [Hm Hne]%map_lookup_filter_Some. destruct (fr_map _ _ _ _ _ _ H _ _ _ Hm) as (s & nd & Hnd & Hk & Hf).
    exists s, nd. split; [|done]. apply Hn. split; [done|]. by rewrite Hf.
Qed.
End Rep.

Lemma flow_exec_step n max r op ids t multi M o :
  flows_rep n r ids t M o -> ids_top n ids = max + 1 -> flow_enabled op ->
  ∃ x ids' t' multi' M' o', flow_exec max op (ids, t, multi) = Some (x, (ids', t', multi'))
    ∧ flow_spec n max r M op x M' ∧ flows_rep n r ids' t' M' o' ∧ ids_top n ids' = max + 1.
Proof.
  intros H Hmax He. destruct op as [i prio da|malloc sh i prio da|i v]; cbn [flow_exec flow_enabled] in *.
  - destruct He as [Hi Hp]. rewrite (find_spec _ _ _ _ _ _ H i prio da Hi Hp). cbn [mbind option_bind].
    eexists _, ids, t, multi, M, o. by split; [|split; [constructor|]].
  - destruct He as [Hi Hp]. pose proof (find_spec _ _ _ _ _ _ H i prio da Hi Hp) as Hf. rewrite Hf.
    cbn [mbind option_bind].
    assert (∀ v, v ∈ o -> v ≠ FLOWID_INVALID) as Hval.
    { intros v Hv%(ids_rep_valid n ids); [|apply H]. eapply valid_not_invalid; [apply H|done]. }
    destruct (M !! (i, flow_key_of (r i) prio da)) as [v|] eqn:E; cbn [default from_option id] in *.
    + rewrite bool_decide_false.
      2: { apply Hval. apply (flows_ids _ _ _ _ _ _ H). by eexists. }
      eexists v, ids, t, multi, M, o. by split; [|split; [by constructor|]].
    + rewrite bool_decide_true by done. pose proof (fr_tbl _ _ _ _ _ _ H) as Ht.
      destruct (dhd_flowid_alloc_spec malloc sh no_peers n ids t o i prio da max) as (v & ids' & t' & -> & Hs & Hr);
        [apply H..|done|done|done| |].
      { eapply find_sta_slot_free; [done|done|lia|done]. }
      cbn [mbind option_bind]. rewrite <-(ids_same_top n _ _ Hs) in Hmax.
      destruct Hr as [(-> & -> & Hids & Hfull)|(Hv & Hvo & -> & Hids & Ht' & Hadd)].
      * eexists _, ids', t, multi, M, o. split; [done|]. split; [|split; [|done]].
        -- constructor; [done|]. intros Hm x Hx. apply (flows_ids _ _ _ _ _ _ H). by apply Hfull.
        -- destruct H. by split.
      * eexists v, ids', t', multi, _, _. split; [done|]. split; [|split; [|done]].
        -- constructor; [done| |by rewrite (flows_ids _ _ _ _ _ _ H)].
           unfold valid_id in Hv. rewrite <-(ids_same_top n _ _ Hs) in Hv. lia.
        -- by eapply flows_rep_add.
  - destruct (dhd_flowid_free_spec n ids t o multi i v) as (ids' & t' & multi' & -> & Hs & Hrem & Hr);
      [apply H..|done|]. cbn [mbind option_bind]. rewrite <-(ids_same_top n _ _ Hs) in Hmax.
    destruct Hr as [(_ & _ & Hids & Ht)|(_ & -> & -> & _)].
    + eexists _, _, _, _, _, (o ∖ {[v]}). split; [done|]. split; [constructor|]. split; [|done].
      by eapply flows_rep_remove.
    + eexists _, _, _, _, _, o. split; [done|]. split; [constructor|]. split; [|done].
      eapply flows_rep_remove; [done|apply H..|done].
Qed.

Lemma flow_exec_all_step n max r ops : ∀ ids t multi M o,
  flows_rep n r ids t M o -> ids_top n ids = max + 1 -> Forall flow_enabled ops ->
  ∃ xs ids' t' multi' M' o', flow_exec_all max ops (ids, t, multi) = Some (xs, (ids', t', multi'))
    ∧ flow_run n max r M ops xs M' ∧ flows_rep n r ids' t' M' o'.
Proof.
  induction ops as [|op ops IH]; intros ids t multi M o H Hmax He; cbn [flow_exec_all].
  - exists [], ids, t, multi, M, o. by split; [|split; [constructor|]].
  - apply Forall_cons in He as [He1 He2].
    destruct (flow_exec_step n max r op ids t multi M o H Hmax He1)
      as (x & ids1 & t1 & multi1 & M1 & o1 & -> & Hs & H1 & Hmax1). cbn [mbind option_bind].
    destruct (IH ids1 t1 multi1 M1 o1 H1 Hmax1 He2) as (xs & ids2 & t2 & multi2 & M2 & o2 & -> & Hr & H2).
    cbn [mbind option_bind]. exists (x :: xs), ids2, t2, multi2, M2, o2.
    split; [done|]. split; [by econstructor|done].
Qed.

(** The table that dhd_flow_rings_init makes, once the interfaces have the roles
    [r]. *)
Definition empty_table (r : Z -> Z) : list if_flow_lkup :=
  (λ i, mk_lkup false (r (Z.of_nat i)) (replicate DHD_FLOWRING_HASH_SIZE [])) <$> seq 0 (Z.to_nat DHD_MAX_IFS).

Lemma at_empty_table r i e :
  at_ (empty_table r) i = Some e ->
  e = mk_lkup false (r i) (replicate DHD_FLOWRING_HASH_SIZE []) ∧ 0 <= i < DHD_MAX_IFS.
Proof.
  intros H. pose proof (at_range _ _ _ H) as Hr. unfold empty_table in *. rewrite length_fmap, length_seq in Hr.
  apply at_Some in H as [Hi H]. rewrite list_lookup_fmap in H.
  rewrite lookup_seq_lt in H by (unfold DHD_MAX_IFS in *; lia). cbn in H. injection H as <-.
  rewrite Z2Nat.id by lia. unfold DHD_MAX_IFS in *. split; [done|lia].
Qed.

Lemma empty_table_node r i s nd : ¬ node_at (empty_table r) i s nd.
Proof.
  intros (e & l & [-> _]%at_empty_table & [_ Hl]%at_Some & Hn). cbn [fl_hash] in Hl.
  apply lookup_replicate in Hl as [-> _]. by apply elem_of_nil in Hn.
Qed.

Lemma empty_table_wf r : tbl_wf (empty_table r) ∅.
Proof.
  assert (all_ids (empty_table r) = []) as Ha.
  { destruct (all_ids (empty_table r)) as [|v l] eqn:E; [done|]. exfalso.
    assert (v ∈ all_ids (empty_table r)) as Hv by (rewrite E; left).
    unfold all_ids in Hv. rewrite list_elem_of_In, in_concat in Hv. destruct Hv as (ys & Hys & Hv).
    apply list_elem_of_In, list_elem_of_fmap in Hys as (e & -> & [k Hk]%list_elem_of_lookup).
    apply list_elem_of_In, if_ids_inv in Hv as (s & l' & nd & Hl & Hnd & _).
    apply (empty_table_node r (Z.of_nat k) s nd). exists e, l'. by rewrite at_lookup. }
  split.
  - unfold empty_table. by rewrite length_fmap, length_seq.
  - apply Forall_forall. intros e (k & -> & _)%list_elem_of_fmap. cbn [fl_hash]. apply length_replicate.
  - rewrite Ha. constructor.
  - by rewrite Ha.
  - intros i s nd Hn. by apply empty_table_node in Hn.
Qed.

(** C9.  In every run in which the roles of the interfaces stay what they are and
    no TDLS peer is known, the flow ids and the hash tables behave as one map from
    an interface and a key to a flow id, the key being the priority for a station,
    and otherwise all multicast or the peer with the priority: a search answers
    what the map holds, asking for an id answers that of the flow or makes one that
    no other flow has and that is at most max_tx_flowid, it fails only without
    memory or when all the normal ids are in use, and freeing removes exactly the
    flows of that id and interface.  No such run has a bad access.  With a TDLS
    peer this is false ([flow_tdls_crosstalk]): its flow and that of a priority of
    the station can be one. *)
Theorem flow_table_run_refines (ids : flow_ids) (max_tx n : Z) (r : Z -> Z) (ops : list flow_op) :
  n = (if htput_support ids then max_tx - HTPUT_TOTAL_FLOW_RINGS else max_tx) -> 0 <= n ->
  max_tx + FLOWID_RESERVED < ID16_INVALID -> Forall flow_enabled ops ->
  let max := max_tx + FLOWID_RESERVED - 1 in
  ∃ ids0 xs ids' t' multi' M o,
    dhd_flowid_map_init true true ids max_tx = Some (BCME_OK, ids0)
    ∧ flow_exec_all max ops (ids0, empty_table r, 0) = Some (xs, (ids', t', multi'))
    ∧ flow_run n max r ∅ ops xs M ∧ flows_rep n r ids' t' M o.
Proof.
  intros Hn H0 Hm Hops max. destruct (dhd_flowid_map_init_spec ids max_tx n Hn H0 Hm) as (ids0 & Hi & Hrep & Htop).
  destruct (flow_exec_all_step n max r ops ids0 (empty_table r) 0 ∅ ∅) as (xs & ids' & t' & multi' & M & o & E & Hr & H).
  - split; [done|done|apply empty_table_wf| | |done].
    + intros i e [-> _]%at_empty_table. done.
    + intros i s nd Hnd. by apply empty_table_node in Hnd.
  - unfold max. lia.
  - done.
  - by exists ids0, xs, ids', t', multi', M, o.
Qed.

Definition demo_mac (x : Z) : ether_addr := mk_ea 2 0 0 0 0 x.
Definition demo_roles (i : Z) : Z := if bool_decide (i = 0) then WLC_E_IF_ROLE_STA else WLC_E_IF_ROLE_AP.
Definition demo_flow_ids : flow_ids := mk_ids None None 0 0 false.
Definition demo_flow_ops : list flow_op :=
  [FlGet true false 0 5 (demo_mac 1); FlGet true false 0 5 (demo_mac 2); FlGet true false 1 5 (demo_mac 1);
   FlGet true false 1 5 (demo_mac 2); FlFind 1 5 (demo_mac 1); FlFree 1 3; FlFind 1 5 (demo_mac 1);
   FlGet true false 1 0 (mk_ea 1 0 94 0 0 1); FlFind 1 3 (mk_ea 1 0 94 0 0 2); FlGet true false 1 6 (demo_mac 3)].

Lemma flow_table_run_refines_witness :
  (∃ ids0 xs ids' t' multi' M o,
    dhd_flowid_map_init true true demo_flow_ids 3 = Some (BCME_OK, ids0)
    ∧ flow_exec_all (3 + FLOWID_RESERVED - 1) demo_flow_ops (ids0, empty_table demo_roles, 0) = Some (xs, (ids', t', multi'))
    ∧ flow_run 3 (3 + FLOWID_RESERVED - 1) demo_roles ∅ demo_flow_ops xs M ∧ flows_rep 3 demo_roles ids' t' M o)
  ∧ fst <$> ('(_, ids0) ← dhd_flowid_map_init true true demo_flow_ids 3;
             flow_exec_all 4 demo_flow_ops (ids0, empty_table demo_roles, 0))
    = Some [4; 4; 3; 2; 3; 0; FLOWID_INVALID; 3; 3; FLOWID_INVALID].
Proof.
  split; [|by vm_compute].
  apply (flow_table_run_refines demo_flow_ids 3 3 demo_roles demo_flow_ops); [done|done|by vm_compute|].
  repeat (apply Forall_cons; split; [vm_compute; intuition congruence|]). by apply Forall_nil.
Defined.

(** ** TDLS peers share the slots of a station's priorities *)

(** A station makes a flow for the TDLS peer [da] at priority [prio], and the
    hash of the two is a priority [p] for which the station has no flow.  Then
    a frame of priority [p] to any address that is not a TDLS peer gets the ring
    of the peer. *)
Lemma flow_tdls_crosstalk n ids t o i e prio da da' p peers sh max v ids' t' :
  0 <= n -> ids_rep n ids o -> tbl_wf t o -> 0 <= i < DHD_MAX_IFS -> 0 <= prio < 256 -> ids_top n ids = max + 1 ->
  at_ t i = Some e -> DHD_IF_ROLE_GENERIC_STA (if_role e) = true ->
  is_tdls_destination peers da = true -> is_tdls_destination peers da' = false ->
  DHD_FLOWRING_HASHINDEX da prio = p -> at_ (fl_hash e) p = Some [] ->
  dhd_flowid_alloc true sh peers max ids t i prio da = Some (v, ids', t') -> v ≠ FLOWID_INVALID ->
  dhd_flowid_find peers t' i p da' = Some v.
Proof.
  intros Hn Hids Ht Hi Hp Hmax He Hr Hda Hda' Hh Hslot Ha Hv.
  destruct (dhd_flowid_alloc_spec true sh peers n ids t o i prio da max) as (v1 & ids1 & t1 & E & _ & Hres); [done..| |].
  { intros e1 l He1 _ Hd. congruence. }
  rewrite Ha in E. injection E as <- <- <-. destruct Hres as [(? & _)|(_ & _ & _ & _ & _ & (e1 & l & He1 & Hl & ->))]; [done|].
  rewrite He in He1. injection He1 as <-. unfold flow_slot in *. rewrite Hr, Hda, Hh in Hl |- *.
  rewrite Hslot in Hl. injection Hl as <-. unfold dhd_flowid_find.
  rewrite bool_decide_false by lia. rewrite (at_insert_eq _ _ _ _ He). cbn [mbind option_bind set_fl_hash if_role fl_hash].
  unfold flow_slot. rewrite Hr, Hda'. by rewrite (at_insert_eq _ _ _ _ Hslot).
Qed.

(** ** Priorities *)

Lemma size_list_to_set_le (l : list Z) : (size (list_to_set l : gset Z) <= length l)%nat.
Proof.
  induction l as [|x l IH]; [done|]. rewrite list_to_set_cons, size_union_alt, size_singleton. cbn [length].
  pose proof (subseteq_size (list_to_set l ∖ {[x]} : gset Z) (list_to_set l)) as H. specialize (H ltac:(set_solver)). lia.
Qed.

Lemma count_inner_spec map i n : ∀ j,
  (j + n = i)%nat ->
  (count_inner map i n j = i <-> ∀ k, (j <= k < i)%nat -> map !! k ≠ map !! i).
Proof.
  induction n as [|n IH]; intros j Hj; cbn [count_inner].
  - split; [intros _ k Hk; lia|lia].
  - case_bool_decide as E.
    + split; [lia|]. intros H. exfalso. apply (H j); [lia|done].
    + rewrite IH by lia. split; intros H k Hk; [|apply H; lia].
      destruct (decide (k = j)) as [->|]; [done|apply H; lia].
Qed.

Lemma count_prio_spec map n : ∀ i,
  (i + n <= length map)%nat -> (length map < 256)%nat ->
  count_prio map n i (Z.of_nat (size (list_to_set (take i map) : gset Z)))
  = Z.of_nat (size (list_to_set (take (i + n) map) : gset Z)).
Proof.
  induction n as [|n IH]; intros i Hi Hl; cbn [count_prio]; [by rewrite Nat.add_0_r|].
  destruct (lookup_lt_is_Some_2 map i) as [x Hx]; [lia|].
  replace (i + S n)%nat with (S i + n)%nat by lia. rewrite <-IH by lia. f_equal.
  rewrite (take_S_r _ _ _ Hx), list_to_set_app_L, list_to_set_singleton.
  assert (bool_decide (count_inner map i i 0 = i) = bool_decide (x ∉ take i map)) as ->.
  { apply bool_decide_ext. rewrite count_inner_spec by done. rewrite list_elem_of_lookup. split.
    - intros H [k Hk]. apply lookup_take_Some in Hk as [Hk Hlt]. apply (H k); [lia|]. by rewrite Hk.
    - intros H k [_ Hk] E. apply H. exists k. rewrite lookup_take_lt by done. by rewrite E. }
  assert (size (list_to_set (take i map) : gset Z) <= i)%nat as Hsz.
  { etransitivity; [apply size_list_to_set_le|]. rewrite length_take. lia. }
  case_bool_decide as E.
  - rewrite size_union; [rewrite size_singleton|]; [rewrite u8_small; lia|].
    intros y Hy%elem_of_list_to_set ->%elem_of_singleton. done.
  - f_equal. f_equal. apply leibniz_equiv.
    apply (elem_of_list_to_set (C := gset Z)) in E. set_solver.
Qed.

(** The number of flows of a station is the number of different values of
    the priority map. *)
Theorem num_prio_distinct (map : list Z) :
  length map = NUMPRIO ->
  dhd_num_prio_supported_per_flow_ring map = Z.of_nat (size (list_to_set map : gset Z)).
Proof.
  intros Hl. unfold dhd_num_prio_supported_per_flow_ring.
  pose proof (count_prio_spec map NUMPRIO 0) as H. cbn [take] in H.
  rewrite (take_ge map (0 + NUMPRIO)) in H by (rewrite Hl; cbn; lia). apply H; rewrite Hl; unfold NUMPRIO; lia.
Qed.

Lemma num_prio_distinct_witness :
  dhd_num_prio_supported_per_flow_ring prio2ac = Z.of_nat (size (list_to_set prio2ac : gset Z))
  ∧ dhd_num_prio_supported_per_flow_ring prio2ac = 4 ∧ dhd_num_prio_supported_per_flow_ring prio2tid = 8.
Proof. split; [by apply (num_prio_distinct prio2ac)|by vm_compute]. Defined.
