(* ===== verification/FlowSta.v ===== *)
(** * dhd_linux.c: the stations of the interfaces (model)

    The stations of all interfaces are objects of one pool, whose free ids are in
    an id allocator; an interface links its stations in a list, which is the list
    of their indices in the pool.  WL_CFG80211 is defined; BCM_ROUTER_DHD,
    DHD_WMF and DHD_L2_FILTER are not.  [ifidx] is an int that is compared as an
    unsigned number. *)

From S2P Require Import Prelude ChanSpec Pktq Id16 FlowQueue FlowData FlowTable.

Definition dhd_get_ifp (s : sta_state) (ifidx : Z) : option (option dhd_if) :=
  if bool_decide (u32 ifidx >= DHD_MAX_IFS) then Some None else at_ (iflist s) ifidx.

(** [&sta_pool[idx]], and assignments to it and to an interface. *)
Definition get_sta (s : sta_state) (idx : Z) : option dhd_sta := pool ← sta_pool s; at_ pool idx.
Definition put_sta (s : sta_state) (idx : Z) (x : dhd_sta) : option sta_state :=
  pool ← sta_pool s; pool ← put_ pool idx x; Some (mk_stas (iflist s) (Some pool) (staid_allocator s)).
Definition put_if (s : sta_state) (ifidx : Z) (x : dhd_if) : option sta_state :=
  l ← put_ (iflist s) ifidx (Some x); Some (mk_stas l (sta_pool s) (staid_allocator s)).

(** ** Finding a station *)

(** [list_for_each_entry] over the list [l]. *)
Fixpoint find_in_list (s : sta_state) (l : list Z) (ea : ether_addr) : option (option Z) :=
  match l with
  | [] => Some None
  | i :: l => x ← get_sta s i;
              if bool_decide (sta_ea x = ea) then Some (Some i) else find_in_list s l ea
  end.

Definition __dhd_find_sta (s : sta_state) (ifp : dhd_if) (ea : ether_addr) : option (option Z) :=
  find_in_list s (sta_list ifp) ea.

Definition dhd_find_sta (s : sta_state) (ifidx : Z) (ea : ether_addr) : option (option Z) :=
  ifp ← dhd_get_ifp s ifidx;
  match ifp with None => Some None | Some ifp => __dhd_find_sta s ifp ea end.

Definition dhd_sta_associated (s : sta_state) (bssidx : Z) (mac : ether_addr) : option bool :=
  r ← dhd_find_sta s bssidx mac; Some (bool_decide (r ≠ None)).

Definition dhd_is_sta_htput (t : list if_flow_lkup) (s : sta_state) (ifidx : Z) (ea : ether_addr) : option bool :=
  role ← DHD_IF_ROLE t ifidx;
  if bool_decide (role ≠ WLC_E_IF_ROLE_AP) then Some true
  else
    ifp ← dhd_get_ifp s ifidx;
    match ifp with
    | None => Some false
    | Some ifp =>
        i ← __dhd_find_sta s ifp ea;
        match i with
        | None => Some false
        | Some i => x ← get_sta s i; Some (CHSPEC_IS160 (sta_chanspec x))
        end
    end.

Definition dhd_update_sta_chanspec_info (s : sta_state) (ifidx : Z) (ea : ether_addr) (chanspec : Z)
    : option sta_state :=
  ifp ← dhd_get_ifp s ifidx;
  match ifp with
  | None => Some s
  | Some ifp =>
      i ← __dhd_find_sta s ifp ea;
      match i with
      | None => Some s
      | Some i =>
          x ← get_sta s i;
          put_sta s i (mk_sta (sta_flowid x) (sta_ifp x) (sta_ea x) (sta_idx x) (sta_ifidx x) chanspec)
      end
  end.

(** ** Allocating and adding *)

Definition dhd_sta_alloc (s : sta_state) : option (option Z * sta_state) :=
  m ← staid_allocator s;
  '(idx, m) ← id16_map_alloc m;
  let s := mk_stas (iflist s) (sta_pool s) (Some m) in
  if bool_decide (idx = ID16_INVALID) then Some (None, s)
  else
    x ← get_sta s idx;
    s ← put_sta s idx (mk_sta (sta_flowid x) (sta_ifp x) (sta_ea x) idx (sta_ifidx x) (sta_chanspec x));
    Some (Some idx, s).

Definition __dhd_add_sta (s : sta_state) (ifp : dhd_if) (ifidx : Z) (ea : ether_addr)
    : option (option Z * sta_state) :=
  if bool_decide (dev_addr ifp = ea) then Some (None, s)
  else
    '(i, s) ← dhd_sta_alloc s;
    match i with
    | None => Some (None, s)
    | Some i =>
        x ← get_sta s i;
        s ← put_sta s i (mk_sta (sta_flowid x) (Some ifidx) ea (sta_idx x) ifidx (sta_chanspec x));
        s ← put_if s ifidx (mk_if (dev_addr ifp) (sta_list ifp ++ [i]));
        Some (Some i, s)
    end.

Definition dhd_add_sta (s : sta_state) (ifidx : Z) (ea : ether_addr) : option (option Z * sta_state) :=
  ifp ← dhd_get_ifp s ifidx;
  match ifp with None => Some (None, s) | Some ifp => __dhd_add_sta s ifp ifidx ea end.

Definition dhd_findadd_sta (s : sta_state) (ifidx : Z) (ea : ether_addr) : option (option Z * sta_state) :=
  ifp ← dhd_get_ifp s ifidx;
  match ifp with
  | None => Some (None, s)
  | Some ifp =>
      i ← __dhd_find_sta s ifp ea;
      match i with Some i => Some (Some i, s) | None => __dhd_add_sta s ifp ifidx ea end
  end.

(** ** Freeing *)

Definition dhd_flow_ring_node (d : dhd_pub) (flowid : Z) : option (option flow_ring_node) :=
  if bool_decide (flowid > max_tx_flowid (p_limits d)) then Some None
  else n ← DHD_FLOW_RING d flowid; Some (Some n).

(** The loop over the priorities: the queue of each ring of the station is
    flushed. *)
Fixpoint free_sta_flows (l : list Z) (d : dhd_pub) : option dhd_pub :=
  match l with
  | [] => Some d
  | flowid :: l =>
      d ← (if bool_decide (flowid ≠ FLOWID_INVALID) then
             n ← dhd_flow_ring_node d flowid;
             match n with
             | None => Some d
             | Some n =>
                 let n := set_status FLOW_RING_STATUS_STA_FREEING n in
                 '(d, n) ← (if DHD_FLOW_QUEUE_EMPTY (fn_queue n) then Some (d, n) else flush_ring d n);
                 put_ring d flowid n
             end
           else Some d);
      free_sta_flows l d
  end.

Definition dhd_sta_free (d : dhd_pub) (i : Z) : option dhd_pub :=
  x ← get_sta (p_stas d) i;
  d ← free_sta_flows (sta_flowid x) d;
  let s := p_stas d in
  m ← staid_allocator s;
  m ← id16_map_free m (u16 (sta_idx x));
  s ← put_sta (mk_stas (iflist s) (sta_pool s) (Some m)) i
        (mk_sta (replicate NUMPRIO FLOWID_INVALID) None (mk_ea 0 0 0 0 0 0) ID16_INVALID DHD_BAD_IF 0);
  Some (set_stas s d).

(** [list_del(&sta->list)] *)
Definition list_del (d : dhd_pub) (ifidx i : Z) : option dhd_pub :=
  ifp ← at_ (iflist (p_stas d)) ifidx;
  ifp ← ifp;
  s ← put_if (p_stas d) ifidx (mk_if (dev_addr ifp) (filter (λ j, j ≠ i) (sta_list ifp)));
  Some (set_stas s d).

(** [list_for_each_entry_safe]: the stations of the list that satisfy the test
    are unlinked and freed. *)
Fixpoint del_in_list (test : dhd_sta -> bool) (d : dhd_pub) (ifidx : Z) (l : list Z) : option dhd_pub :=
  match l with
  | [] => Some d
  | i :: l =>
      x ← get_sta (p_stas d) i;
      d ← (if test x then d ← list_del d ifidx i; dhd_sta_free d i else Some d);
      del_in_list test d ifidx l
  end.

Definition dhd_if_del_sta_list (d : dhd_pub) (ifidx : Z) : option dhd_pub :=
  ifp ← at_ (iflist (p_stas d)) ifidx;
  ifp ← ifp;
  del_in_list (λ _, true) d ifidx (sta_list ifp).

Definition dhd_del_all_sta (d : dhd_pub) (ifidx : Z) : option dhd_pub :=
  ifp ← dhd_get_ifp (p_stas d) ifidx;
  match ifp with None => Some d | Some ifp => del_in_list (λ _, true) d ifidx (sta_list ifp) end.

Definition dhd_del_sta (d : dhd_pub) (ifidx : Z) (ea : ether_addr) : option dhd_pub :=
  ifp ← dhd_get_ifp (p_stas d) ifidx;
  match ifp with
  | None => Some d
  | Some ifp => del_in_list (λ x, bool_decide (sta_ea x = ea)) d ifidx (sta_list ifp)
  end.

(** ** The pool *)

Definition zero_sta : dhd_sta := mk_sta (replicate NUMPRIO 0) None (mk_ea 0 0 0 0 0 0) 0 0 0.

(** [for (idx = max_sta; idx >= 1; idx--) sta_pool[idx].idx = id16_map_alloc();]
    with [n] iterations left. *)
Fixpoint take_ids (n : nat) (s : sta_state) : option sta_state :=
  match n with
  | O => Some s
  | S k =>
      m ← staid_allocator s;
      '(v, m) ← id16_map_alloc m;
      x ← get_sta s (Z.of_nat n);
      s ← put_sta (mk_stas (iflist s) (sta_pool s) (Some m)) (Z.of_nat n)
            (mk_sta (sta_flowid x) (sta_ifp x) (sta_ea x) v (sta_ifidx x) (sta_chanspec x));
      take_ids k s
  end.

(** [for (idx = 1; idx <= max_sta; idx++) { flowid[] = FLOWID_INVALID;
     dhd_sta_free(dhdp, sta); }] from [idx] on. *)
Fixpoint free_ids (n : nat) (idx : Z) (d : dhd_pub) : option dhd_pub :=
  match n with
  | O => Some d
  | S n =>
      x ← get_sta (p_stas d) idx;
      s ← put_sta (p_stas d) idx
            (mk_sta (replicate NUMPRIO FLOWID_INVALID) (sta_ifp x) (sta_ea x) (sta_idx x) (sta_ifidx x) (sta_chanspec x));
      d ← dhd_sta_free (set_stas s d) idx;
      free_ids n (idx + 1) d
  end.

(** The two loops over the zeroed pool. *)
Definition fill_pool (d : dhd_pub) (m : option id16_map) (max_sta : Z) : option dhd_pub :=
  let pool := replicate (Z.to_nat (max_sta + 1)) zero_sta in
  s ← take_ids (Z.to_nat max_sta) (mk_stas (iflist (p_stas d)) (Some pool) m);
  free_ids (Z.to_nat max_sta) 1 (set_stas s d).

(** [alloc1], [alloc2]: whether the two allocations succeed. *)
Definition dhd_sta_pool_init (alloc1 alloc2 : bool) (d : dhd_pub) (max_sta : Z) : option (Z * dhd_pub) :=
  m ← id16_map_init alloc1 max_sta 1;
  if bool_decide (m = None) || negb alloc2 then Some (BCME_ERROR, d)
  else d ← fill_pool d m max_sta; Some (BCME_OK, d).

Definition dhd_sta_pool_fini (d : dhd_pub) : dhd_pub :=
  set_stas (mk_stas (iflist (p_stas d)) None (id16_map_fini (staid_allocator (p_stas d)))) d.

Definition dhd_sta_pool_clear (d : dhd_pub) (max_sta : Z) : option dhd_pub :=
  match sta_pool (p_stas d), staid_allocator (p_stas d) with
  | Some _, Some m =>
      m ← id16_map_clear (Some m) max_sta 1;
      fill_pool d m max_sta
  | _, _ => Some d
  end.
