(* ===== verification/FlowStaTheorems.v ===== *)
(** * dhd_linux.c: the stations of the interfaces, their properties

    The stations of an interface are a list of addresses with their channel
    specifications; the ids of the pool do not matter. *)

From S2P Require Import Prelude ChanSpec Pktq Id16 Id16Theorems MsgRing FlowQueue FlowData FlowTable FlowSta.

(** ** Reading and writing the pool *)

Lemma get_sta_is_Some s i x : get_sta s i = Some x -> ∃ pool, sta_pool s = Some pool ∧ at_ pool i = Some x.
Proof. unfold get_sta. destruct (sta_pool s) as [pool|]; [|done]. by exists pool. Qed.

Lemma put_sta_spec s i y x :
  get_sta s i = Some y ->
  ∃ s', put_sta s i x = Some s' ∧ iflist s' = iflist s ∧ staid_allocator s' = staid_allocator s
    ∧ get_sta s' i = Some x ∧ ∀ k, k ≠ i -> get_sta s' k = get_sta s k.
Proof.
  intros (pool & Hp & Hy)%get_sta_is_Some. unfold put_sta. rewrite Hp. cbn [mbind option_bind].
  rewrite (put_Some _ _ _ _ Hy). cbn [mbind option_bind]. eexists. split; [done|]. split; [done|]. split; [done|].
  unfold get_sta. cbn [sta_pool]. rewrite Hp. cbn [mbind option_bind]. split; [by eapply at_insert_eq|].
  intros k Hk. apply at_insert_ne; [|done]. by apply at_range in Hy as [? _].
Qed.

Lemma get_sta_alloc s m i : get_sta (mk_stas (iflist s) (sta_pool s) m) i = get_sta s i.
Proof. done. Qed.

Lemma put_if_spec s j o f :
  at_ (iflist s) j = Some o ->
  put_if s j f = Some (mk_stas (<[Z.to_nat j := Some f]> (iflist s)) (sta_pool s) (staid_allocator s)).
Proof. intros H. unfold put_if. by rewrite (put_Some _ _ _ _ H). Qed.

Lemma dhd_get_ifp_spec s j o :
  -2147483648 <= j < 2147483648 -> length (iflist s) = Z.to_nat DHD_MAX_IFS ->
  dhd_get_ifp s j = Some o ->
  match o with Some f => at_ (iflist s) j = Some (Some f) | None => at_ (iflist s) j = None ∨ at_ (iflist s) j = Some None end.
Proof.
  intros Hj Hl. unfold dhd_get_ifp, u32, DHD_MAX_IFS in *. case_bool_decide as Hb.
  - intros [= <-]. left. destruct (at_ (iflist s) j) eqn:E; [|done]. apply at_range in E. rewrite Hl in E.
    rewrite Z.mod_small in Hb by lia. lia.
  - intros ->. destruct o; [done|by right].
Qed.

Lemma dhd_get_ifp_total s j :
  -2147483648 <= j < 2147483648 -> length (iflist s) = Z.to_nat DHD_MAX_IFS -> ∃ o, dhd_get_ifp s j = Some o.
Proof.
  intros Hj Hl. unfold dhd_get_ifp, u32, DHD_MAX_IFS in *. case_bool_decide as Hb; [by eexists|].
  apply at_is_Some. rewrite Hl. destruct (decide (0 <= j)); [rewrite Z.mod_small in Hb by lia; lia|].
  exfalso. rewrite <-(Z_mod_plus_full j 1) in Hb. rewrite Z.mod_small in Hb by lia. lia.
Qed.

(** ** What the state stands for *)

(** The stations of an interface, in order: address and chanspec. *)
Abbreviation entry := (ether_addr * Z)%type.
Record absif := mk_absif { own : ether_addr; members : list entry }.
Definition set_members (l : list entry) (a : absif) : absif := mk_absif (own a) l.

(** Station [i] of the pool is that entry of interface [j]. *)
Definition sta_at (s : sta_state) (j i : Z) (e : entry) : Prop :=
  ∃ x, get_sta s i = Some x ∧ sta_idx x = i ∧ sta_ifp x = Some j ∧ sta_ifidx x = j
    ∧ (sta_ea x, sta_chanspec x) = e.

Definition if_stas (o : option dhd_if) : list Z := match o with Some f => sta_list f | None => [] end.
Definition all_stas (s : sta_state) : list Z := concat (if_stas <$> iflist s).

Definition if_rep (s : sta_state) (j : Z) (o : option dhd_if) (a : option absif) : Prop :=
  match o, a with
  | None, None => True
  | Some f, Some a => dev_addr f = own a ∧ Forall2 (sta_at s j) (sta_list f) (members a)
  | _, _ => False
  end.

(** The ids of the allocator are those of the stations in the lists, each in one
    of them; no station has a flow id, and a free one no chanspec. *)
Record stas_rep (max : Z) (s : sta_state) (A : list (option absif)) : Prop := {
  sr_len : length (iflist s) = Z.to_nat DHD_MAX_IFS;
  sr_abs : length A = Z.to_nat DHD_MAX_IFS;
  sr_if : ∀ j o a, at_ (iflist s) j = Some o -> at_ A j = Some a -> if_rep s j o a;
  sr_nodup : NoDup (all_stas s);
  sr_alloc : ∃ m, staid_allocator s = Some m ∧ id16_allocates m 1 max (list_to_set (all_stas s));
  sr_pool : ∀ i, 1 <= i <= max -> ∃ x, get_sta s i = Some x ∧ sta_flowid x = replicate NUMPRIO FLOWID_INVALID
    ∧ (i ∉ all_stas s -> sta_chanspec x = 0)
}.

Definition int (j : Z) : Prop := -2147483648 <= j < 2147483648.

(** The interface [j] of both sides. *)
Lemma sr_get max s A j :
  stas_rep max s A -> int j ->
  (∃ f a, dhd_get_ifp s j = Some (Some f) ∧ at_ (iflist s) j = Some (Some f) ∧ at_ A j = Some (Some a)
     ∧ dev_addr f = own a ∧ Forall2 (sta_at s j) (sta_list f) (members a))
  ∨ dhd_get_ifp s j = Some None ∧ (at_ A j = None ∨ at_ A j = Some None).
Proof.
  intros H Hj. destruct (dhd_get_ifp_total s j Hj (sr_len _ _ _ H)) as [o Ho]. rewrite Ho.
  pose proof (dhd_get_ifp_spec s j o Hj (sr_len _ _ _ H) Ho) as Hs.
  assert (∀ x : option dhd_if, at_ (iflist s) j = Some x -> ∃ a, at_ A j = Some a) as Ha.
  { intros x Hx%at_range. apply at_is_Some. rewrite (sr_abs _ _ _ H), <-(sr_len _ _ _ H). lia. }
  destruct o as [f|].
  - left. destruct (Ha _ Hs) as [a E]. pose proof (sr_if _ _ _ H _ _ _ Hs E) as Hr. destruct a as [a|]; [|done].
    exists f, a. by destruct Hr.
  - right. split; [done|]. destruct Hs as [Hs|Hs].
    + left. destruct (at_ A j) eqn:E; [|done]. apply at_range in E. rewrite (sr_abs _ _ _ H), <-(sr_len _ _ _ H) in E.
      destruct (at_is_Some _ _ E) as [x Hx]. congruence.
    + right. destruct (Ha _ Hs) as [[a|] E]; [|done]. by pose proof (sr_if _ _ _ H _ _ _ Hs E).
Qed.

(** ** Finding *)

Definition abs_find (ea : ether_addr) (l : list entry) : option nat := fst <$> list_find (λ e, e.1 = ea) l.

Lemma find_in_list_spec s j ea l m :
  Forall2 (sta_at s j) l m -> find_in_list s l ea = Some (k ← abs_find ea m; l !! k).
Proof.
  induction 1 as [|i [a c] l m (x & Hx & _ & _ & _ & E) _ IH]; [done|]. cbn [find_in_list].
  rewrite Hx. cbn [mbind option_bind]. injection E as Ea Ec. rewrite Ea.
  unfold abs_find in *. cbn. destruct (decide (a = ea)) as [->|Hne].
  - by rewrite bool_decide_true by done.
  - rewrite bool_decide_false, IH by done. by destruct (list_find _ m) as [[k e]|].
Qed.

Lemma abs_find_lookup ea m k : abs_find ea m = Some k -> ∃ c, m !! k = Some (ea, c).
Proof.
  unfold abs_find. intros H. apply fmap_Some in H as ([k' [a c]] & Hf & ->).
  apply list_find_Some in Hf as (Hl & Ha & _). cbn in *. subst a. by exists c.
Qed.

Lemma abs_find_None ea m : abs_find ea m = None <-> ea ∉ m.*1.
Proof.
  unfold abs_find. rewrite fmap_None, list_find_None, Forall_forall, list_elem_of_fmap. split.
  - intros H ([a c] & -> & Hin). by apply (H _ Hin).
  - intros H [a c] Hin <-. apply H. by exists (a, c).
Qed.

(** ** The lists of the interfaces *)

Lemma elem_of_all_stas s k : k ∈ all_stas s <-> ∃ j o, at_ (iflist s) j = Some o ∧ k ∈ if_stas o.
Proof.
  unfold all_stas. rewrite list_elem_of_In, in_concat. split.
  - intros (ys & Hys & Hk). apply list_elem_of_In, list_elem_of_fmap in Hys as (o & -> & [j Hj]%list_elem_of_lookup).
    exists (Z.of_nat j), o. rewrite at_lookup. by rewrite list_elem_of_In.
  - intros (j & o & [_ Hj]%at_Some & Hk). exists (if_stas o). rewrite <-!list_elem_of_In. split; [|done].
    apply list_elem_of_fmap. exists o. split; [done|]. by eapply list_elem_of_lookup_2.
Qed.

Lemma all_stas_if s j o :
  at_ (iflist s) j = Some o ->
  ∃ r, all_stas s ≡ₚ if_stas o ++ r
    ∧ ∀ s' o', iflist s' = <[Z.to_nat j := o']> (iflist s) -> all_stas s' ≡ₚ if_stas o' ++ r.
Proof.
  intros H. destruct (concat_map_insert_perm if_stas (iflist s) j o H) as (r & H1 & H2). exists r. split; [done|].
  intros s' o' E. unfold all_stas. by rewrite E.
Qed.

Lemma all_stas_disjoint s j j' o o' k :
  NoDup (all_stas s) -> at_ (iflist s) j = Some o -> at_ (iflist s) j' = Some o' -> j' ≠ j ->
  k ∈ if_stas o' -> k ∉ if_stas o.
Proof.
  intros Hnd Hj Hj' Hne Hk. destruct (all_stas_if s j o Hj) as (r & H1 & H2).
  rewrite H1 in Hnd. apply NoDup_app in Hnd as (_ & Hd & _). intros Hk2. apply (Hd k Hk2).
  set (s' := mk_stas (<[Z.to_nat j := None]> (iflist s)) None None).
  assert (k ∈ all_stas s') as Hin.
  { apply elem_of_all_stas. exists j', o'. split; [|done]. cbn. pose proof (at_range _ _ _ Hj).
    by rewrite at_insert_ne by (done || lia). }
  by rewrite (H2 s' None eq_refl) in Hin.
Qed.

Lemma sta_at_agree s s' j i e : get_sta s' i = get_sta s i -> sta_at s j i e -> sta_at s' j i e.
Proof. intros E (x & Hx & H). exists x. by rewrite E. Qed.

Lemma sta_at_Forall2_agree s s' j l m :
  (∀ i, i ∈ l -> get_sta s' i = get_sta s i) -> Forall2 (sta_at s j) l m -> Forall2 (sta_at s' j) l m.
Proof.
  intros E H. apply Forall2_same_length_lookup. split; [by eapply Forall2_length|].
  intros k i e Hi He. eapply sta_at_agree; [apply E; by eapply list_elem_of_lookup_2|].
  by eapply Forall2_lookup_lr.
Qed.

(** A state in which the interface [j] has changed. *)
Lemma stas_rep_put max s s' A j f f' a a' :
  stas_rep max s A -> at_ (iflist s) j = Some (Some f) -> at_ A j = Some (Some a) ->
  iflist s' = <[Z.to_nat j := Some f']> (iflist s) ->
  dev_addr f' = own a' -> Forall2 (sta_at s' j) (sta_list f') (members a') ->
  (∀ k, k ∈ all_stas s -> k ∉ sta_list f -> get_sta s' k = get_sta s k) ->
  NoDup (all_stas s') ->
  (∃ m, staid_allocator s' = Some m ∧ id16_allocates m 1 max (list_to_set (all_stas s'))) ->
  (∀ i, 1 <= i <= max -> ∃ x, get_sta s' i = Some x ∧ sta_flowid x = replicate NUMPRIO FLOWID_INVALID
    ∧ (i ∉ all_stas s' -> sta_chanspec x = 0)) ->
  stas_rep max s' (<[Z.to_nat j := Some a']> A).
Proof.
  intros H Hj Ha Hl Hd Hf Hk Hnd Hal Hp. pose proof (at_range _ _ _ Hj). split; [| | |done..].
  - by rewrite Hl, length_insert, (sr_len _ _ _ H).
  - by rewrite length_insert, (sr_abs _ _ _ H).
  - intros j' o b. rewrite Hl. destruct (decide (j' = j)) as [->|Hne].
    + rewrite (at_insert_eq _ _ _ _ Hj), (at_insert_eq _ _ _ _ Ha). by intros [= <-] [= <-].
    + rewrite !at_insert_ne by (done || lia). intros Ho Hb. pose proof (sr_if _ _ _ H _ _ _ Ho Hb) as Hr.
      destruct o as [g|], b as [b|]; try done. destruct Hr as [Hr1 Hr2]. split; [done|].
      eapply sta_at_Forall2_agree; [|done]. intros k Hin. apply Hk.
      * apply elem_of_all_stas. by exists j', (Some g).
      * by apply (all_stas_disjoint s j j' (Some f) (Some g) k (sr_nodup _ _ _ H) Hj Ho Hne Hin).
Qed.

(** ** How many stations there are *)

Definition mem_of (a : option absif) : list entry := match a with Some a => members a | None => [] end.
Definition abs_total (A : list (option absif)) : Z := Z.of_nat (length (concat (mem_of <$> A))).

Lemma all_stas_length max s A : stas_rep max s A -> Z.of_nat (length (all_stas s)) = abs_total A.
Proof.
  intros H. unfold all_stas, abs_total. f_equal.
  assert (Forall2 (λ o a, length (if_stas o) = length (mem_of a)) (iflist s) A) as Hf.
  { apply Forall2_same_length_lookup. split; [by rewrite (sr_len _ _ _ H), (sr_abs _ _ _ H)|].
    intros j o a Ho Ha. rewrite <-at_lookup in Ho. rewrite <-at_lookup in Ha. pose proof (sr_if _ _ _ H _ _ _ Ho Ha) as Hr.
    destruct o as [f|], a as [a|]; try done. destruct Hr as [_ Hr]. by eapply Forall2_length. }
  clear H. induction Hf as [|o a l m Hl _ IH]; [done|]. cbn. by rewrite !length_app, Hl, IH.
Qed.

(** An allocation finds an id exactly when there is a free station. *)
Lemma ids_full (o : gset Z) (l : list Z) max v :
  0 <= max -> NoDup l -> o = list_to_set l -> (∀ x, x ∈ o -> 1 <= x < 1 + max) ->
  (v = ID16_INVALID ∧ (∀ x, 1 <= x < 1 + max -> x ∈ o) -> Z.of_nat (length l) = max)
  ∧ (1 <= v < 1 + max ∧ v ∉ o -> Z.of_nat (length l) < max).
Proof.
  intros Hm Hnd -> Ho.
  assert (size (list_to_set (seqZ 1 max) : gset Z) = Z.to_nat max) as Hs.
  { rewrite size_list_to_set by apply NoDup_seqZ. by rewrite length_seqZ. }
  assert (list_to_set l ⊆ (list_to_set (seqZ 1 max) : gset Z)) as Hsub.
  { intros x Hx%Ho. apply elem_of_list_to_set, elem_of_seqZ. lia. }
  rewrite <-(size_list_to_set (C := gset Z) l) by done. split.
  - intros [_ Hall]. assert (list_to_set l = (list_to_set (seqZ 1 max) : gset Z)) as ->; [|lia].
    apply leibniz_equiv. apply set_subseteq_antisymm; [done|]. intros x Hx%elem_of_list_to_set%elem_of_seqZ. apply Hall. lia.
  - intros [Hv Hn]. assert (list_to_set l ⊂ (list_to_set (seqZ 1 max) : gset Z)) as Hlt.
    { split; [done|]. intros Hc. apply Hn, Hc, elem_of_list_to_set, elem_of_seqZ. lia. }
    apply subset_size in Hlt. lia.
Qed.

(** ** Adding *)

(** Changing only the allocator and the pool outside of the lists. *)
Lemma stas_rep_same max s s' A :
  stas_rep max s A -> iflist s' = iflist s -> (∀ k, get_sta s' k = get_sta s k) ->
  (∃ m, staid_allocator s' = Some m ∧ id16_allocates m 1 max (list_to_set (all_stas s))) -> stas_rep max s' A.
Proof.
  intros H Hl Hg Ha. assert (all_stas s' = all_stas s) as E by (unfold all_stas; by rewrite Hl).
  split; [by rewrite Hl; apply H|apply H| |rewrite E; apply H|by rewrite E|].
  - intros j o a. rewrite Hl. intros Ho Hb. pose proof (sr_if _ _ _ H _ _ _ Ho Hb) as Hr.
    destruct o, a; try done. destruct Hr as [Hr1 Hr2]. split; [done|]. by eapply sta_at_Forall2_agree; [|done].
  - intros i Hi. rewrite E, Hg. by apply (sr_pool _ _ _ H).
Qed.

Lemma dhd_sta_alloc_spec max s A :
  0 <= max -> stas_rep max s A ->
  (∃ s', dhd_sta_alloc s = Some (None, s') ∧ stas_rep max s' A ∧ abs_total A = max)
  ∨ ∃ v x s' m, dhd_sta_alloc s = Some (Some v, s') ∧ abs_total A < max ∧ 1 <= v <= max ∧ v ∉ all_stas s
      ∧ iflist s' = iflist s ∧ staid_allocator s' = Some m
      ∧ id16_allocates m 1 max ({[v]} ∪ list_to_set (all_stas s))
      ∧ get_sta s' v = Some x ∧ sta_idx x = v ∧ sta_flowid x = replicate NUMPRIO FLOWID_INVALID ∧ sta_chanspec x = 0
      ∧ ∀ k, k ≠ v -> get_sta s' k = get_sta s k.
Proof.
  intros Hm H. unfold dhd_sta_alloc. destruct (sr_alloc _ _ _ H) as (m & Em & Hal). rewrite Em. cbn [mbind option_bind].
  destruct (alloc_law _ _ _ _ Hal) as (v & m' & -> & Hr). cbn [mbind option_bind].
  assert (∀ x, x ∈ list_to_set (C := gset Z) (all_stas s) -> 1 <= x < 1 + max) as Hrg.
  { intros x Hx. by apply (allocates_range _ _ _ _ _ Hal). }
  destruct (ids_full _ _ max v Hm (sr_nodup _ _ _ H) eq_refl Hrg) as [Hfull Hroom].
  rewrite (all_stas_length _ _ _ H) in Hfull, Hroom.
  destruct Hr as [(-> & Hall & Hal')|(Hv & Hnew & Hal')]; [left|right].
  - rewrite bool_decide_true by done. eexists. split; [done|]. split; [|by apply Hfull].
    by apply (stas_rep_same max s); [done..|exists m'].
  - pose proof (allocates_valid _ _ _ _ Hal). rewrite bool_decide_false by (unfold ID16_INVALID in *; lia).
    destruct (sr_pool _ _ _ H v) as (x & Hx & Hfl & Hc); [lia|]. rewrite get_sta_alloc, Hx. cbn [mbind option_bind].
    destruct (put_sta_spec (mk_stas (iflist s) (sta_pool s) (Some m')) v x
                (mk_sta (sta_flowid x) (sta_ifp x) (sta_ea x) v (sta_ifidx x) (sta_chanspec x)))
      as (s' & -> & Hl & Ha & Hg & Ho); [done|]. cbn [mbind option_bind].
    assert (v ∉ all_stas s) as Hnew' by (by rewrite elem_of_list_to_set in Hnew).
    eexists v, _, s', m'. split; [done|]. split; [by apply Hroom|]. split; [lia|]. do 3 (split; [done|]).
    split; [done|]. split; [exact Hg|]. cbn. auto.
Qed.

(** A station of address [ea] joins interface [j]. *)
Definition abs_add (max : Z) (A : list (option absif)) (j : Z) (a : absif) (ea : ether_addr)
    : bool * list (option absif) :=
  if bool_decide (own a = ea) || bool_decide (abs_total A = max) then (false, A)
  else (true, <[Z.to_nat j := Some (set_members (members a ++ [(ea, 0)]) a)]> A).

Lemma __dhd_add_sta_spec max s A j f a ea :
  0 <= max -> stas_rep max s A -> at_ (iflist s) j = Some (Some f) -> at_ A j = Some (Some a) ->
  ∃ r s', __dhd_add_sta s f j ea = Some (r, s') ∧ stas_rep max s' (abs_add max A j a ea).2
    ∧ match r with Some i => (abs_add max A j a ea).1 = true ∧ sta_at s' j i (ea, 0) | None => (abs_add max A j a ea).1 = false end.
Proof.
  intros Hm H Hj Ha. pose proof (sr_if _ _ _ H _ _ _ Hj Ha) as [Hdev Hmem]. unfold __dhd_add_sta, abs_add. rewrite Hdev.
  case_bool_decide; cbn [orb]; [by exists None, s|].
  destruct (dhd_sta_alloc_spec max s A Hm H)
    as [(s' & -> & H' & Ht)|(v & x & s1 & m & -> & Ht & Hv & Hnew & Hl1 & Hm1 & Hal & Hx & Hidx & Hfl & Hc & Ho)];
    cbn [mbind option_bind].
  - rewrite bool_decide_true by done. by exists None, s'.
  - rewrite bool_decide_false by lia. rewrite Hx. cbn [mbind option_bind].
    destruct (put_sta_spec s1 v x (mk_sta (sta_flowid x) (Some j) ea (sta_idx x) j (sta_chanspec x)))
      as (s2 & -> & Hl2 & Ha2 & Hg2 & Ho2); [done|]. cbn [mbind option_bind].
    rewrite (put_if_spec s2 j (Some f)) by (by rewrite Hl2, Hl1). cbn [mbind option_bind].
    eexists (Some v), _. split; [done|]. rewrite Hl2, Hl1, Ha2, Hm1.
    set (s3 := mk_stas _ _ _).
    assert (∀ k, get_sta s3 k = get_sta s2 k) as Hg3 by done.
    assert (sta_at s3 j v (ea, 0)) as Hat. { eexists. rewrite Hg3. split; [exact Hg2|]. cbn. by rewrite Hc. }
    assert (all_stas s3 ≡ₚ v :: all_stas s) as Hall.
    { destruct (all_stas_if s j (Some f) Hj) as (r & H1 & H2). rewrite (H2 s3 _ eq_refl), H1. cbn.
      rewrite <-app_assoc. cbn. by rewrite Permutation_middle. }
    assert (∀ k, k ≠ v -> get_sta s3 k = get_sta s k) as Hsame by (intros k Hk; by rewrite Hg3, Ho2, Ho).
    split; [|done]. eapply (stas_rep_put max s); [done..| | | | |].
    + cbn. apply Forall2_app; [|by apply Forall2_cons].
      eapply sta_at_Forall2_agree; [|done]. intros i Hi. apply Hsame. intros ->. apply Hnew.
      apply elem_of_all_stas. by exists j, (Some f).
    + intros k Hk _. apply Hsame. by intros ->.
    + rewrite Hall. apply NoDup_cons. split; [done|apply H].
    + exists m. split; [done|]. replace (list_to_set (all_stas s3)) with ({[v]} ∪ list_to_set (C := gset Z) (all_stas s)); [done|].
      apply leibniz_equiv. by rewrite Hall.
    + intros i Hi. destruct (decide (i = v)) as [->|Hne].
      * eexists. rewrite Hg3. split; [exact Hg2|]. cbn [sta_flowid sta_chanspec]. split; [done|]. intros Hn. exfalso. apply Hn. rewrite Hall. left.
      * rewrite Hsame by done. destruct (sr_pool _ _ _ H i Hi) as (y & Hy & Hyf & Hyc). exists y. split; [done|].
        split; [done|]. intros Hn. apply Hyc. intros Hin. apply Hn. rewrite Hall. by right.
Qed.

(** ** Removing *)

Lemma free_sta_flows_none n d : free_sta_flows (replicate n FLOWID_INVALID) d = Some d.
Proof. induction n as [|n IH]; [done|]. cbn [replicate free_sta_flows]. by rewrite bool_decide_false by naive_solver. Qed.

Definition freed_sta : dhd_sta :=
  mk_sta (replicate NUMPRIO FLOWID_INVALID) None (mk_ea 0 0 0 0 0 0) ID16_INVALID DHD_BAD_IF 0.

Lemma dhd_sta_free_spec d i x m m' :
  get_sta (p_stas d) i = Some x -> sta_flowid x = replicate NUMPRIO FLOWID_INVALID ->
  staid_allocator (p_stas d) = Some m -> id16_map_free m (u16 (sta_idx x)) = Some m' ->
  ∃ s', dhd_sta_free d i = Some (set_stas s' d) ∧ iflist s' = iflist (p_stas d) ∧ staid_allocator s' = Some m'
    ∧ get_sta s' i = Some freed_sta ∧ ∀ k, k ≠ i -> get_sta s' k = get_sta (p_stas d) k.
Proof.
  intros Hx Hf Hm Hm'. unfold dhd_sta_free. rewrite Hx. cbn [mbind option_bind].
  rewrite Hf, free_sta_flows_none. cbn [mbind option_bind]. rewrite Hm. cbn [mbind option_bind]. rewrite Hm'.
  cbn [mbind option_bind]. fold freed_sta.
  destruct (put_sta_spec (mk_stas (iflist (p_stas d)) (sta_pool (p_stas d)) (Some m')) i x freed_sta)
    as (s' & -> & ? & ? & ? & ?); [done|]. cbn [mbind option_bind]. by exists s'.
Qed.

(** One station leaves the list of its interface and goes back to the pool. *)
Lemma unlink_and_free max d A j f a i e l1 l2 m1 m2 :
  max < 65536 -> stas_rep max (p_stas d) A ->
  at_ (iflist (p_stas d)) j = Some (Some f) -> at_ A j = Some (Some a) ->
  sta_list f = l1 ++ i :: l2 -> members a = m1 ++ e :: m2 -> length l1 = length m1 ->
  ∃ s', (d ← list_del d j i; dhd_sta_free d i) = Some (set_stas s' d)
    ∧ stas_rep max s' (<[Z.to_nat j := Some (set_members (m1 ++ m2) a)]> A)
    ∧ at_ (iflist s') j = Some (Some (mk_if (dev_addr f) (l1 ++ l2))).
Proof.
  intros Hmax H Hj Ha Hl Hm Hlen. set (s := p_stas d) in *.
  pose proof (sr_if _ _ _ H _ _ _ Hj Ha) as [Hdev Hmem]. rewrite Hl, Hm in Hmem.
  apply Forall2_app_inv in Hmem as [Hm1 Hm2]; [|done]. apply Forall2_cons_1 in Hm2 as [He Hm2].
  destruct He as (x & Hx & Hidx & _).
  destruct (all_stas_if s j (Some f) Hj) as (r & Hr1 & Hr2). cbn [if_stas] in Hr1.
  pose proof (sr_nodup _ _ _ H) as Hnd. rewrite Hr1, Hl in Hnd.
  assert (NoDup (l1 ++ i :: l2)) as Hnd1 by (by apply NoDup_app in Hnd as [? _]).
  assert (i ∈ all_stas s) as Hin by (rewrite Hr1, Hl; set_solver).
  destruct (sr_alloc _ _ _ H) as (m & Em & Hal).
  assert (i ∈ list_to_set (C := gset Z) (all_stas s)) as Hini by (by apply elem_of_list_to_set).
  pose proof (allocates_range _ _ _ _ _ Hal Hini) as Hir.
  destruct (free_law _ _ _ _ _ Hal Hini) as (m' & Em' & Hal').
  destruct (sr_pool _ _ _ H i) as (x' & Hx' & Hfl & _); [lia|]. rewrite Hx in Hx'. injection Hx' as <-.
  unfold list_del. fold s. rewrite Hj. cbn [mbind option_bind]. rewrite (put_if_spec s j _ _ Hj). cbn [mbind option_bind].
  rewrite Hl, filter_ne_middle by done.
  set (s1 := mk_stas _ _ _). change (get_sta s i) with (get_sta (p_stas (set_stas s1 d)) i) in Hx.
  destruct (dhd_sta_free_spec (set_stas s1 d) i x m m' Hx Hfl Em) as (s' & -> & Hl' & Ea' & Hg & Ho).
  { by rewrite Hidx, u16_small by lia. }
  cbn [p_stas set_stas] in *. exists s'. split; [done|].
  assert (all_stas s' ≡ₚ (l1 ++ l2) ++ r) as Hall by (apply (Hr2 s' (Some (mk_if (dev_addr f) (l1 ++ l2)))); by rewrite Hl').
  assert (all_stas s ≡ₚ i :: all_stas s') as Hall2.
  { rewrite Hall, Hr1, Hl, <-!app_assoc. cbn [app]. symmetry. rewrite Permutation_middle. done. }
  pose proof (sr_nodup _ _ _ H) as Hnd2. rewrite Hall2 in Hnd2. apply NoDup_cons in Hnd2 as [Hni Hnd2].
  split; [|by rewrite Hl'; apply (at_insert_eq _ _ _ _ Hj)].
  eapply (stas_rep_put max s); [done..| | | | | | |].
  - by rewrite Hl'.
  - done.
  - cbn. apply (sta_at_Forall2_agree s); [|by apply Forall2_app].
    intros k Hk. apply Ho. intros ->. apply Hni. rewrite Hall. apply elem_of_app. by left.
  - intros k _ Hk. apply Ho. intros ->. apply Hk. rewrite Hl. set_solver.
  - done.
  - exists m'. split; [done|]. replace (list_to_set (all_stas s')) with (list_to_set (C := gset Z) (all_stas s) ∖ {[i]}); [done|].
    apply leibniz_equiv. rewrite Hall2, list_to_set_cons. set_solver.
  - intros k Hk. destruct (decide (k = i)) as [->|Hne]; [by exists freed_sta|].
    rewrite Ho by done. destruct (sr_pool _ _ _ H k Hk) as (y & Hy & Hyf & Hyc). exists y. split; [done|].
    split; [done|]. intros Hn. apply Hyc. rewrite Hall2. set_solver.
Qed.

(** The loop over the list: [l1] has been looked at and stays, [l2] is left. *)
Lemma del_in_list_spec max (test : dhd_sta -> bool) (t : ether_addr -> bool) j l2 : ∀ d A f a l1 m1 m2,
  max < 65536 -> (∀ x, test x = t (sta_ea x)) -> stas_rep max (p_stas d) A ->
  at_ (iflist (p_stas d)) j = Some (Some f) -> at_ A j = Some (Some a) ->
  sta_list f = l1 ++ l2 -> members a = m1 ++ m2 -> length l1 = length m1 ->
  ∃ s', del_in_list test d j l2 = Some (set_stas s' d)
    ∧ stas_rep max s' (<[Z.to_nat j := Some (set_members (m1 ++ filter (λ e, t e.1 = false) m2) a)]> A).
Proof.
  induction l2 as [|i l2 IH]; intros d A f a l1 m1 m2 Hmax Ht H Hj Ha Hl Hm Hlen;
    pose proof (sr_if _ _ _ H _ _ _ Hj Ha) as [_ Hmem]; rewrite Hl, Hm in Hmem;
    apply Forall2_app_inv in Hmem as [_ Hm2]; try done; cbn [del_in_list].
  - apply Forall2_nil_inv_l in Hm2 as ->. exists (p_stas d). split; [by destruct d|].
    rewrite app_nil_r in Hm. cbn [filter]. rewrite filter_nil, app_nil_r.
    replace (<[Z.to_nat j := Some (set_members m1 a)]> A) with A; [done|]. symmetry. apply list_insert_id.
    apply at_Some in Ha as [_ ->]. destruct a. cbn in *. by subst.
  - apply Forall2_cons_inv_l in Hm2 as (e & m2' & He & Hm2 & ->). destruct He as (x & Hx & _ & _ & _ & Exe).
    rewrite Hx. cbn [mbind option_bind]. rewrite Ht. destruct e as [ea c]. injection Exe as Ee _.
    destruct (t (sta_ea x)) eqn:Et; rewrite Ee in Et.
    + destruct (unlink_and_free max d A j f a i (ea, c) l1 l2 m1 m2') as (s1 & -> & H1 & Hj1); [done..|].
      cbn [mbind option_bind].
      destruct (IH (set_stas s1 d) _ _ (set_members (m1 ++ m2') a) l1 m1 m2' Hmax Ht H1 Hj1) as (s2 & -> & H2);
        [by rewrite (at_insert_eq _ _ _ _ Ha)|done..|].
      exists s2. split; [done|]. rewrite list_insert_insert_eq in H2. rewrite filter_cons_False by (cbn; by rewrite Et). done.
    + cbn [mbind option_bind]. rewrite filter_cons_True by done.
      destruct (IH d A f a (l1 ++ [i]) (m1 ++ [(ea, c)]) m2') as (s2 & -> & H2);
        [done..|by rewrite <-app_assoc|by rewrite <-app_assoc|by rewrite !length_app, Hlen|].
      exists s2. split; [done|]. by rewrite <-app_assoc in H2.
Qed.

(** ** The pool *)

(** A zeroed station that has been given an id. *)
Definition numbered_sta (v : Z) : dhd_sta := mk_sta (replicate NUMPRIO 0) None (mk_ea 0 0 0 0 0 0) v 0 0.

Definition given_out (max : Z) (s : sta_state) (o : gset Z) : Prop :=
  ∃ m, staid_allocator s = Some m ∧ id16_allocates m 1 max o.

Lemma alloc_room (m : id16_map) max o n :
  id16_allocates m 1 max o -> Z.of_nat (size o) + Z.of_nat (S n) <= max ->
  ∃ v m', id16_map_alloc m = Some (v, m') ∧ 1 <= v <= max ∧ v ∉ o ∧ id16_allocates m' 1 max ({[v]} ∪ o).
Proof.
  intros Hal Hn. destruct (alloc_law _ _ _ _ Hal) as (v & m' & -> & [(_ & Hall & _)|(Hv & Ho & Hal')]).
  - exfalso. assert (list_to_set (seqZ 1 max) ⊆ o) as Hs%subseteq_size.
    { intros x Hx%elem_of_list_to_set%elem_of_seqZ. apply Hall. lia. }
    rewrite size_list_to_set, length_seqZ in Hs by apply NoDup_seqZ. lia.
  - exists v, m'. split; [done|]. split; [lia|done].
Qed.

Lemma take_ids_spec max n : ∀ s o,
  given_out max s o -> Z.of_nat (size o) + Z.of_nat n <= max ->
  (∀ k, (k < n)%nat -> get_sta s (Z.of_nat k + 1) = Some zero_sta) ->
  ∃ s' vs, take_ids n s = Some s' ∧ iflist s' = iflist s ∧ length vs = n
    ∧ NoDup vs ∧ (∀ v, v ∈ vs -> 1 <= v <= max ∧ v ∉ o) ∧ given_out max s' (list_to_set vs ∪ o)
    ∧ (∀ k v, vs !! k = Some v -> get_sta s' (Z.of_nat k + 1) = Some (numbered_sta v))
    ∧ (∀ k, Z.of_nat n < k -> get_sta s' k = get_sta s k).
Proof.
  induction n as [|n IH]; intros s o (m & Em & Hal) Hn Hz; cbn [take_ids].
  - exists s, []. repeat (split; [done|]). split; [constructor|]. split; [set_solver|].
    split; [|by split; [intros k v Hv; rewrite lookup_nil in Hv|]]. exists m. cbn. by rewrite (left_id_L ∅ (∪) o).
  - rewrite Em. cbn [mbind option_bind]. destruct (alloc_room m max o n Hal Hn) as (v & m' & -> & Hv & Ho & Hal').
    cbn [mbind option_bind]. replace (Z.of_nat (S n)) with (Z.of_nat n + 1) by lia. rewrite (Hz n) by lia.
    cbn [mbind option_bind].
    destruct (put_sta_spec (mk_stas (iflist s) (sta_pool s) (Some m')) (Z.of_nat n + 1) zero_sta (numbered_sta v))
      as (s1 & E1 & Hl1 & Ha1 & Hg1 & Ho1); [by apply Hz; lia|].
    change (mk_sta _ _ _ v _ _) with (numbered_sta v). rewrite E1. cbn [mbind option_bind].
    destruct (IH s1 ({[v]} ∪ o)) as (s2 & vs & -> & Hl2 & Hlen & Hnd & Hvs & Hal2 & Hg2 & Ho2).
    + by exists m'.
    + rewrite size_union, size_singleton by set_solver. lia.
    + intros k Hk. rewrite Ho1 by lia. by apply Hz; lia.
    + exists s2, (vs ++ [v]). split; [done|]. split; [by rewrite Hl2, Hl1|].
      split; [rewrite length_app; cbn; lia|]. split.
      { apply NoDup_app. split; [done|]. split; [|apply NoDup_singleton].
        intros x Hx ->%list_elem_of_singleton. apply Hvs in Hx. set_solver. }
      split; [intros x [Hx| ->%list_elem_of_singleton]%elem_of_app; [apply Hvs in Hx; set_solver|done]|].
      replace (list_to_set (vs ++ [v]) ∪ o) with (list_to_set (C := gset Z) vs ∪ ({[v]} ∪ o)) by set_solver.
      split; [done|].
      split; [|intros k Hk; rewrite Ho2, Ho1 by lia; done].
      intros k w Hk. apply lookup_app_Some in Hk as [Hk|[Hk1 Hk]]; [by apply Hg2|].
      apply list_lookup_singleton_Some in Hk as [Hk <-].
      rewrite <-Hg1, Ho2 by lia. f_equal. lia.
Qed.

Lemma free_ids_spec max n : ∀ d vs idx o,
  max < 65536 -> length vs = n -> given_out max (p_stas d) o -> o = list_to_set vs -> NoDup vs ->
  (∀ v, v ∈ vs -> 1 <= v <= max) ->
  (∀ k v, vs !! k = Some v -> get_sta (p_stas d) (idx + Z.of_nat k) = Some (numbered_sta v)) ->
  ∃ s', free_ids n idx d = Some (set_stas s' d) ∧ iflist s' = iflist (p_stas d) ∧ given_out max s' ∅
    ∧ (∀ k, idx <= k < idx + Z.of_nat n -> get_sta s' k = Some freed_sta)
    ∧ (∀ k, k < idx -> get_sta s' k = get_sta (p_stas d) k).
Proof.
  induction n as [|n IH]; intros d vs idx o Hmax Hlen (m & Em & Hal) -> Hnd Hvs Hg; destruct vs as [|v vs]; try done;
    cbn [free_ids].
  - exists (p_stas d). split; [by destruct d|]. split; [done|]. split; [by exists m|]. split; [intros k Hk; lia|done].
  - pose proof (Hg 0%nat v eq_refl) as Hx. rewrite Z.add_0_r in Hx. rewrite Hx. cbn [mbind option_bind].
    destruct (put_sta_spec (p_stas d) idx (numbered_sta v)
                (mk_sta (replicate NUMPRIO FLOWID_INVALID) None (mk_ea 0 0 0 0 0 0) v 0 0))
      as (s1 & E1 & Hl1 & Ha1 & Hg1 & Ho1); [done|]. cbn [numbered_sta sta_ifp sta_ea sta_idx sta_ifidx sta_chanspec].
    rewrite E1. cbn [mbind option_bind]. apply NoDup_cons in Hnd as [Hv Hnd].
    destruct (free_law m 1 max (list_to_set (v :: vs)) v Hal) as (m' & Em' & Hal'); [set_solver|].
    assert (1 <= v <= max) as Hvr by (apply Hvs; left).
    destruct (dhd_sta_free_spec (set_stas s1 d) idx _ m m' Hg1) as (s2 & -> & Hl2 & Ha2 & Hg2 & Ho2);
      [done|cbn; by rewrite Ha1|cbn; by rewrite u16_small by lia|]. cbn [mbind option_bind].
    cbn [p_stas set_stas] in *.
    replace (list_to_set (v :: vs) ∖ {[v]}) with (list_to_set (C := gset Z) vs) in Hal' by
      (rewrite list_to_set_cons; assert (v ∉ (list_to_set vs : gset Z)) by (by rewrite elem_of_list_to_set); set_solver).
    destruct (IH (set_stas s2 d) vs (idx + 1) (list_to_set vs)) as (s3 & E3 & Hl3 & Ha3 & Hg3 & Ho3); [done| | |done|done| | |].
    + cbn in Hlen. lia.
    + by exists m'.
    + intros y Hy. apply Hvs. by right.
    + intros k w Hk. cbn [p_stas set_stas]. rewrite Ho2, Ho1 by lia. rewrite <-(Hg (S k) w Hk). f_equal. lia.
    + cbn [p_stas set_stas] in *. exists s3. split; [exact E3|]. split; [by rewrite Hl3, Hl2, Hl1|]. split; [done|]. split.
      * intros k Hk. destruct (decide (k = idx)) as [->|Hne]; [by rewrite Ho3 by lia|]. apply Hg3. lia.
      * intros k Hk. by rewrite Ho3, Ho2, Ho1 by lia.
Qed.

(** The interfaces that have no stations. *)
Definition no_stas (l : list (option dhd_if)) : Prop :=
  length l = Z.to_nat DHD_MAX_IFS ∧ Forall (λ o, if_stas o = []) l.
Definition abs_empty (l : list (option dhd_if)) : list (option absif) :=
  option_map (λ f, mk_absif (dev_addr f) []) <$> l.

Lemma dhd_sta_pool_init_spec max d :
  0 <= max -> max + 1 < ID16_INVALID -> no_stas (iflist (p_stas d)) ->
  ∃ s', dhd_sta_pool_init true true d max = Some (BCME_OK, set_stas s' d)
    ∧ stas_rep max s' (abs_empty (iflist (p_stas d))).
Proof.
  intros H0 Hm [Hlen Hnone]. unfold ID16_INVALID in Hm. unfold dhd_sta_pool_init.
  destruct (id16_map_init_allocates max 1) as (m & -> & Hal); [lia|lia|unfold ID16_INVALID; lia|].
  cbn [mbind option_bind]. rewrite bool_decide_false by done. cbn [orb negb]. unfold fill_pool.
  set (s0 := mk_stas _ _ _).
  assert (∀ k, 0 <= k < max + 1 -> get_sta s0 k = Some zero_sta) as Hz.
  { intros k Hk. unfold get_sta, s0. cbn [sta_pool mbind option_bind]. apply at_Some. split; [lia|].
    apply lookup_replicate. split; [done|lia]. }
  destruct (take_ids_spec max (Z.to_nat max) s0 ∅) as (s1 & vs & -> & Hl1 & Hvl & Hnd & Hvs & Hal1 & Hg1 & _).
  - by exists m.
  - rewrite size_empty. lia.
  - intros k Hk. apply Hz. lia.
  - cbn [mbind option_bind].
    destruct (free_ids_spec max (Z.to_nat max) (set_stas s1 d) vs 1 (list_to_set vs)) as (s2 & -> & Hl2 & (m2 & Em2 & Hal2) & Hg2 & _);
      [lia|done| |done|done| | |].
    + replace (list_to_set vs) with (list_to_set (C := gset Z) vs ∪ ∅) by set_solver. done.
    + intros v Hv. by apply Hvs.
    + intros k v Hk. rewrite Z.add_comm. by apply Hg1.
    + exists s2. cbn [mbind option_bind p_stas set_stas] in *. split; [done|].
      assert (iflist s2 = iflist (p_stas d)) as Hl by (by rewrite Hl2, Hl1).
      assert (all_stas s2 = []) as Hall.
      { unfold all_stas. rewrite Hl. clear -Hnone. induction Hnone as [|o l Ho _ IH]; [done|]. cbn. by rewrite Ho, IH. }
      split.
      * by rewrite Hl.
      * unfold abs_empty. by rewrite length_fmap.
      * intros j o a. rewrite Hl. unfold abs_empty. intros [_ Ho]%at_Some [_ Ha]%at_Some.
        rewrite list_lookup_fmap, Ho in Ha. injection Ha as <-. rewrite Forall_lookup in Hnone. specialize (Hnone _ _ Ho).
        destruct o as [f|]; [|done]. cbn in *. by rewrite Hnone.
      * rewrite Hall. constructor.
      * exists m2. by rewrite Hall.
      * intros i Hi. exists freed_sta. split; [apply Hg2; lia|]. done.
Qed.

(** ** One operation *)

Inductive staop :=
  | StaFind (ifidx : Z) (ea : ether_addr) | StaFindAdd (ifidx : Z) (ea : ether_addr)
  | StaAdd (ifidx : Z) (ea : ether_addr)
  | StaChanspec (ifidx : Z) (ea : ether_addr) (chanspec : Z)
  | StaDel (ifidx : Z) (ea : ether_addr) | StaDelAll (ifidx : Z).

(** What the caller sees of the station it is given. *)
Definition read_sta (s : sta_state) (r : option Z) : option (option entry) :=
  match r with None => Some None | Some i => x ← get_sta s i; Some (Some (sta_ea x, sta_chanspec x)) end.

Definition sta_exec (o : staop) (d : dhd_pub) : option (option entry * dhd_pub) :=
  match o with
  | StaFind j ea => r ← dhd_find_sta (p_stas d) j ea; e ← read_sta (p_stas d) r; Some (e, d)
  | StaFindAdd j ea => '(r, s) ← dhd_findadd_sta (p_stas d) j ea; e ← read_sta s r; Some (e, set_stas s d)
  | StaAdd j ea => '(r, s) ← dhd_add_sta (p_stas d) j ea; e ← read_sta s r; Some (e, set_stas s d)
  | StaChanspec j ea c => s ← dhd_update_sta_chanspec_info (p_stas d) j ea c; Some (None, set_stas s d)
  | StaDel j ea => d ← dhd_del_sta d j ea; Some (None, d)
  | StaDelAll j => d ← dhd_del_all_sta d j; Some (None, d)
  end.

Definition abs_if (A : list (option absif)) (j : Z) : option absif := a ← at_ A j; a.
Definition put_members (A : list (option absif)) (j : Z) (a : absif) (l : list entry) : list (option absif) :=
  <[Z.to_nat j := Some (set_members l a)]> A.

Definition abs_get (a : absif) (ea : ether_addr) : option entry := k ← abs_find ea (members a); members a !! k.

Definition spec_add (max : Z) (A : list (option absif)) (j : Z) (a : absif) (ea : ether_addr) : option entry * list (option absif) :=
  let '(ok, A) := abs_add max A j a ea in (if (ok : bool) then Some (ea, 0) else None, A).

Definition sta_spec (max : Z) (o : staop) (A : list (option absif)) : option entry * list (option absif) :=
  match o with
  | StaFind j ea => (a ← abs_if A j; abs_get a ea, A)
  | StaFindAdd j ea =>
      match abs_if A j with
      | None => (None, A)
      | Some a => match abs_get a ea with
                  | Some e => (Some e, A)
                  | None => spec_add max A j a ea
                  end
      end
  | StaAdd j ea => match abs_if A j with None => (None, A) | Some a => spec_add max A j a ea end
  | StaChanspec j ea c =>
      (None, match abs_if A j with
             | None => A
             | Some a => match abs_find ea (members a) with
                         | None => A
                         | Some k => put_members A j a (<[k := (ea, c)]> (members a))
                         end
             end)
  | StaDel j ea =>
      (None, match abs_if A j with
             | None => A | Some a => put_members A j a (filter (λ e, bool_decide (e.1 = ea) = false) (members a))
             end)
  | StaDelAll j => (None, match abs_if A j with None => A | Some a => put_members A j a [] end)
  end.

Definition sta_if (o : staop) : Z :=
  match o with StaFind j _ | StaFindAdd j _ | StaAdd j _ | StaChanspec j _ _ | StaDel j _ | StaDelAll j => j end.

Lemma sr_get_abs max s A j :
  stas_rep max s A -> int j ->
  (∃ f a, dhd_get_ifp s j = Some (Some f) ∧ at_ (iflist s) j = Some (Some f) ∧ at_ A j = Some (Some a) ∧ abs_if A j = Some a
     ∧ Forall2 (sta_at s j) (sta_list f) (members a))
  ∨ dhd_get_ifp s j = Some None ∧ abs_if A j = None.
Proof.
  intros H Hj. unfold abs_if.
  destruct (sr_get max s A j H Hj) as [(f & a & -> & -> & -> & _ & Hf)|[-> [-> | ->]]]; [left; by exists f, a|by right..].
Qed.

Lemma __dhd_find_sta_spec s j f a ea :
  Forall2 (sta_at s j) (sta_list f) (members a) ->
  ∃ r, __dhd_find_sta s f ea = Some r ∧ read_sta s r = Some (abs_get a ea)
    ∧ match r with
      | None => abs_find ea (members a) = None
      | Some i => ∃ k c, abs_find ea (members a) = Some k ∧ sta_list f !! k = Some i ∧ members a !! k = Some (ea, c)
      end.
Proof.
  intros H. unfold __dhd_find_sta, abs_get. rewrite (find_in_list_spec s j ea _ _ H). eexists. split; [done|].
  destruct (abs_find ea (members a)) as [k|] eqn:E; cbn [mbind option_bind]; [|done].
  destruct (abs_find_lookup _ _ _ E) as [c Hk]. rewrite Hk.
  destruct (Forall2_lookup_r _ _ _ _ _ H Hk) as (i & Hi & (x & Hx & _ & _ & _ & Ex)). rewrite Hi. split.
  - cbn. rewrite Hx. cbn. by rewrite Ex.
  - by exists k, c.
Qed.

Lemma add_sta_reads max s A j f a ea :
  0 <= max -> stas_rep max s A -> at_ (iflist s) j = Some (Some f) -> at_ A j = Some (Some a) ->
  ∃ r s', __dhd_add_sta s f j ea = Some (r, s')
    ∧ read_sta s' r = Some (spec_add max A j a ea).1 ∧ stas_rep max s' (spec_add max A j a ea).2.
Proof.
  intros Hm H Hl Ha. destruct (__dhd_add_sta_spec max s A j f a ea Hm H Hl Ha) as (r & s' & -> & H' & Hok).
  unfold spec_add. destruct (abs_add max A j a ea) as [ok A']. cbn [fst snd] in *. exists r, s'. split; [done|]. split; [|done].
  destruct r as [i|]; [|by rewrite Hok]. destruct Hok as [-> (x & Hx & _ & _ & _ & Ex)]. cbn. rewrite Hx. cbn. by rewrite Ex.
Qed.

Lemma dhd_add_sta_spec max s A j ea :
  0 <= max -> stas_rep max s A -> int j ->
  ∃ r s', dhd_add_sta s j ea = Some (r, s')
    ∧ read_sta s' r = Some (sta_spec max (StaAdd j ea) A).1 ∧ stas_rep max s' (sta_spec max (StaAdd j ea) A).2.
Proof.
  intros Hm H Hj. unfold dhd_add_sta. cbn [sta_spec].
  destruct (sr_get_abs max s A j H Hj) as [(f & a & -> & Hl & Ha & -> & Hf)|[-> ->]]; cbn [mbind option_bind]; [|by exists None, s].
  by apply add_sta_reads.
Qed.

Lemma dhd_findadd_sta_spec max s A j ea :
  0 <= max -> stas_rep max s A -> int j ->
  ∃ r s', dhd_findadd_sta s j ea = Some (r, s')
    ∧ read_sta s' r = Some (sta_spec max (StaFindAdd j ea) A).1 ∧ stas_rep max s' (sta_spec max (StaFindAdd j ea) A).2.
Proof.
  intros Hm H Hj. unfold dhd_findadd_sta. cbn [sta_spec].
  destruct (sr_get_abs max s A j H Hj) as [(f & a & -> & Hl & Ha & -> & Hf)|[-> ->]]; cbn [mbind option_bind];
    [|by exists None, s].
  destruct (__dhd_find_sta_spec s j f a ea Hf) as (r & -> & Hr & Hs). cbn [mbind option_bind].
  destruct r as [i|].
  - destruct Hs as (k & c & Hk & _ & Hc). unfold abs_get in *. rewrite Hk in *. cbn [mbind option_bind] in *.
    rewrite Hc in *. by exists (Some i), s.
  - unfold abs_get. rewrite Hs. cbn [mbind option_bind]. by apply add_sta_reads.
Qed.

Lemma dhd_update_sta_chanspec_info_spec max s A j ea c :
  stas_rep max s A -> int j ->
  ∃ s', dhd_update_sta_chanspec_info s j ea c = Some s' ∧ stas_rep max s' (sta_spec max (StaChanspec j ea c) A).2.
Proof.
  intros H Hj. unfold dhd_update_sta_chanspec_info. cbn [sta_spec snd].
  destruct (sr_get_abs max s A j H Hj) as [(f & a & -> & Hl & Ha & -> & Hf)|[-> ->]]; cbn [mbind option_bind];
    [|by exists s].
  destruct (__dhd_find_sta_spec s j f a ea Hf) as (r & -> & _ & Hs). cbn [mbind option_bind].
  destruct r as [i|]; [|rewrite Hs; by exists s]. destruct Hs as (k & c0 & -> & Hi & Hc).
  destruct (Forall2_lookup_lr _ _ _ _ _ _ Hf Hi Hc) as (x & Hx & Hidx & Hifp & Hifx & Ex). rewrite Hx. cbn [mbind option_bind].
  destruct (put_sta_spec s i x (mk_sta (sta_flowid x) (sta_ifp x) (sta_ea x) (sta_idx x) (sta_ifidx x) c))
    as (s' & -> & Hl' & Ha' & Hg & Ho); [done|]. exists s'. split; [done|].
  assert (all_stas s' = all_stas s) as Hall by (unfold all_stas; by rewrite Hl').
  assert (i ∈ sta_list f) as Hin by (by eapply list_elem_of_lookup_2).
  assert (NoDup (sta_list f)) as Hndf.
  { destruct (all_stas_if s j (Some f) Hl) as (r & Hr & _). pose proof (sr_nodup _ _ _ H) as Hnd. rewrite Hr in Hnd.
    by apply NoDup_app in Hnd as [? _]. }
  eapply (stas_rep_put max s _ A j f f); [done..| | | | | | |].
  - rewrite Hl'. symmetry. apply list_insert_id. by apply at_Some in Hl as [_ ->].
  - by destruct (sr_if _ _ _ H _ _ _ Hl Ha).
  - cbn [set_members members]. apply Forall2_same_length_lookup. split; [rewrite length_insert; by eapply Forall2_length|].
    intros k' i' e Hi' He. destruct (decide (k' = k)) as [->|Hne].
    + rewrite Hi in Hi'. injection Hi' as <-. rewrite list_lookup_insert_eq in He by (by eapply lookup_lt_Some).
      injection He as <-. eexists. split; [exact Hg|]. injection Ex as Ex _. cbn. by rewrite Ex.
    + rewrite list_lookup_insert_ne in He by done. eapply (sta_at_agree s).
      * apply Ho. intros ->. apply Hne. by eapply NoDup_lookup.
      * by eapply Forall2_lookup_lr.
  - intros k' _ Hk'. apply Ho. by intros ->.
  - rewrite Hall. apply H.
  - rewrite Hall, Ha'. apply H.
  - intros k' Hk'. rewrite Hall. destruct (decide (k' = i)) as [->|Hne]; [|rewrite Ho by done; by apply (sr_pool _ _ _ H)].
    destruct (sr_pool _ _ _ H i Hk') as (y & Hy & Hyf & _). rewrite Hx in Hy. injection Hy as <-.
    eexists. split; [exact Hg|]. split; [done|]. intros Hn. exfalso. apply Hn, elem_of_all_stas. by exists j, (Some f).
Qed.

Lemma del_stas_spec max d A j (test : dhd_sta -> bool) (t : ether_addr -> bool) :
  max < 65536 -> (∀ x, test x = t (sta_ea x)) -> stas_rep max (p_stas d) A -> int j ->
  ∃ s', (ifp ← dhd_get_ifp (p_stas d) j;
         match ifp with None => Some d | Some ifp => del_in_list test d j (sta_list ifp) end) = Some (set_stas s' d)
    ∧ stas_rep max s' (match abs_if A j with
                       | None => A | Some a => put_members A j a (filter (λ e, t e.1 = false) (members a)) end).
Proof.
  intros Hm Ht H Hj.
  destruct (sr_get_abs max (p_stas d) A j H Hj) as [(f & a & -> & Hl & Ha & -> & Hf)|[-> ->]]; cbn [mbind option_bind].
  - by destruct (del_in_list_spec max test t j (sta_list f) d A f a [] [] (members a)) as (s' & E & H');
      [done..|exists s'].
  - exists (p_stas d). split; [by destruct d|done].
Qed.

Lemma sta_exec_step max o d A :
  0 <= max < 65536 -> stas_rep max (p_stas d) A -> int (sta_if o) ->
  ∃ s', sta_exec o d = Some ((sta_spec max o A).1, set_stas s' d) ∧ stas_rep max s' (sta_spec max o A).2.
Proof.
  intros Hm H Hj. destruct o as [j ea|j ea|j ea|j ea c|j ea|j]; cbn [sta_exec sta_if] in *.
  - exists (p_stas d). cbn [sta_spec fst snd]. split; [|done]. unfold dhd_find_sta.
    destruct (sr_get_abs max (p_stas d) A j H Hj) as [(f & a & -> & Hl & Ha & -> & Hf)|[-> ->]]; cbn [mbind option_bind];
      [|by destruct d].
    destruct (__dhd_find_sta_spec (p_stas d) j f a ea Hf) as (r & -> & Er & _). cbn [mbind option_bind].
    rewrite Er. cbn [mbind option_bind]. by destruct d.
  - destruct (dhd_findadd_sta_spec max (p_stas d) A j ea) as (r & s' & -> & E & H'); [lia|done..|].
    cbn [mbind option_bind]. rewrite E. cbn [mbind option_bind]. by exists s'.
  - destruct (dhd_add_sta_spec max (p_stas d) A j ea) as (r & s' & -> & E & H'); [lia|done..|].
    cbn [mbind option_bind]. rewrite E. cbn [mbind option_bind]. by exists s'.
  - destruct (dhd_update_sta_chanspec_info_spec max (p_stas d) A j ea c) as (s' & -> & H'); [done..|]. by exists s'.
  - unfold dhd_del_sta.
    destruct (del_stas_spec max d A j (λ x, bool_decide (sta_ea x = ea)) (λ a, bool_decide (a = ea))) as (s' & -> & H');
      [lia|done..|]. by exists s'.
  - unfold dhd_del_all_sta. destruct (del_stas_spec max d A j (λ _, true) (λ _, true)) as (s' & -> & H'); [lia|done..|].
    exists s'. split; [done|]. cbn [sta_spec snd]. destruct (abs_if A j) as [a|]; [|done].
    replace (filter _ (members a)) with ([] : list entry) in H'; [done|].
    clear. induction (members a) as [|e l IH]; [done|]. by rewrite filter_cons_False.
Qed.

(** ** Addresses are distinct *)

Definition distinct (A : list (option absif)) : Prop :=
  ∀ j a, abs_if A j = Some a -> NoDup (own a :: (members a).*1).

Lemma abs_if_put A j a l k b :
  abs_if A j = Some a -> abs_if (put_members A j a l) k = Some b ->
  k = j ∧ b = set_members l a ∨ k ≠ j ∧ abs_if A k = Some b.
Proof.
  unfold abs_if, put_members. intros H. destruct (at_ A j) as [o|] eqn:E; [|done]. pose proof (at_range _ _ _ E).
  destruct (decide (k = j)) as [->|Hne].
  - rewrite (at_insert_eq _ _ _ _ E). intros [= <-]. by left.
  - rewrite at_insert_ne by (done || lia). by right.
Qed.

Lemma distinct_put A j a l :
  distinct A -> abs_if A j = Some a -> NoDup (own a :: l.*1) -> distinct (put_members A j a l).
Proof. intros H Ha Hl k b Hb. destruct (abs_if_put _ _ _ _ _ _ Ha Hb) as [[-> ->]|[_ Hk]]; [done|by eapply H]. Qed.

Lemma distinct_sublist A j a l :
  distinct A -> abs_if A j = Some a -> l `sublist_of` members a -> distinct (put_members A j a l).
Proof.
  intros H Ha Hl. apply distinct_put; [done..|]. eapply sublist_NoDup; [by eapply H|].
  apply sublist_skip. by apply fmap_sublist.
Qed.

(** [dhd_add_sta] does not look for the address. *)
Definition adds_new (o : staop) (A : list (option absif)) : bool :=
  match o with StaAdd j ea => match abs_if A j with Some a => bool_decide (abs_get a ea = None) | None => true end | _ => true end.

Lemma spec_add_distinct max A j a ea :
  distinct A -> abs_if A j = Some a -> abs_get a ea = None -> distinct (spec_add max A j a ea).2.
Proof.
  intros H Ea Eg. unfold spec_add, abs_add. case_bool_decide as Eo; [done|]. cbn [orb].
  case_bool_decide; [done|]. cbn [snd]. fold (put_members A j a (members a ++ [(ea, 0)])).
  apply distinct_put; [done..|]. rewrite fmap_app. cbn. apply (NoDup_app (own a :: (members a).*1) [ea]).
  split; [by eapply H|]. split; [|apply NoDup_singleton]. intros x Hx ->%list_elem_of_singleton.
  apply elem_of_cons in Hx as [->|Hx]; [done|]. unfold abs_get in Eg.
  destruct (abs_find ea (members a)) as [k|] eqn:Ek; [|by apply abs_find_None in Ek].
  destruct (abs_find_lookup _ _ _ Ek) as [c Hc]. cbn in Eg. by rewrite Hc in Eg.
Qed.

Lemma sta_spec_distinct max o A : adds_new o A = true -> distinct A -> distinct (sta_spec max o A).2.
Proof.
  intros Hn H. destruct o as [j ea|j ea|j ea|j ea c|j ea|j]; cbn [sta_spec snd adds_new] in *; try done;
    (destruct (abs_if A j) as [a|] eqn:Ea; [|done]).
  - destruct (abs_get a ea) eqn:Eg; [done|]. by apply spec_add_distinct.
  - apply bool_decide_eq_true in Hn. by apply spec_add_distinct.
  - destruct (abs_find ea (members a)) as [k|] eqn:Ek; [|done]. apply distinct_put; [done..|].
    destruct (abs_find_lookup _ _ _ Ek) as [c0 Hc].
    replace ((<[k := (ea, c)]> (members a)).*1) with ((members a).*1); [by eapply H|].
    rewrite list_fmap_insert. symmetry. apply list_insert_id. by rewrite list_lookup_fmap, Hc.
  - apply distinct_sublist; [done..|]. apply sublist_filter.
  - apply distinct_sublist; [done..|]. apply sublist_nil_l.
Qed.

(** ** Runs *)

Fixpoint sta_exec_all (os : list staop) (d : dhd_pub) : option (list (option entry) * dhd_pub) :=
  match os with
  | [] => Some ([], d)
  | o :: os => '(r, d) ← sta_exec o d; '(rs, d) ← sta_exec_all os d; Some (r :: rs, d)
  end.

Fixpoint sta_spec_all (max : Z) (os : list staop) (A : list (option absif))
    : list (option entry) * list (option absif) :=
  match os with
  | [] => ([], A)
  | o :: os => let '(r, A) := sta_spec max o A in let '(rs, A) := sta_spec_all max os A in (r :: rs, A)
  end.

Fixpoint adds_new_all (max : Z) (os : list staop) (A : list (option absif)) : bool :=
  match os with [] => true | o :: os => adds_new o A && adds_new_all max os (sta_spec max o A).2 end.

Lemma sta_exec_all_step max os : ∀ d A,
  0 <= max < 65536 -> stas_rep max (p_stas d) A -> Forall (λ o, int (sta_if o)) os ->
  ∃ s', sta_exec_all os d = Some ((sta_spec_all max os A).1, set_stas s' d)
    ∧ stas_rep max s' (sta_spec_all max os A).2
    ∧ (distinct A -> adds_new_all max os A = true -> distinct (sta_spec_all max os A).2).
Proof.
  induction os as [|o os IH]; intros d A Hm H Ho; cbn [sta_exec_all sta_spec_all adds_new_all].
  - exists (p_stas d). split; [by destruct d|done].
  - apply Forall_cons in Ho as [Ho Hos]. destruct (sta_exec_step max o d A Hm H Ho) as (s1 & -> & H1).
    pose proof (sta_spec_distinct max o A) as Hd1. destruct (sta_spec max o A) as [r A1]. cbn [mbind option_bind fst snd] in *.
    destruct (IH (set_stas s1 d) A1 Hm H1 Hos) as (s2 & -> & H2 & Hd2). cbn [mbind option_bind].
    destruct (sta_spec_all max os A1) as [rs A2]. exists s2. split; [done|]. split; [done|].
    intros Hd [Hn1 Hn2]%andb_true_iff. cbn [snd] in *. auto.
Qed.

Lemma stas_rep_total max s A : 0 <= max -> stas_rep max s A -> abs_total A <= max.
Proof.
  intros Hm H. rewrite <-(all_stas_length _ _ _ H). destruct (sr_alloc _ _ _ H) as (m & _ & Hal).
  rewrite <-(size_list_to_set (C := gset Z)) by apply H.
  assert (list_to_set (all_stas s) ⊆ (list_to_set (seqZ 1 max) : gset Z)) as Hs%subseteq_size.
  { intros x Hx%(allocates_range _ _ _ _ _ Hal). apply elem_of_list_to_set, elem_of_seqZ. lia. }
  rewrite (size_list_to_set (seqZ 1 max)), length_seqZ in Hs by apply NoDup_seqZ. lia.
Qed.

(** C10.  Once the pool is set up, the stations behave as a list of addresses with
    their channel specifications for each interface: a search answers the first
    station with the address; adding (dhd_add_sta) puts a new station last unless
    the address is the interface's own or all [max] stations are in use, and
    dhd_findadd_sta does so only if no station has the address, and otherwise
    answers that one; deleting removes the stations with the address and gives
    their objects back.  At most [max] stations exist, nothing else of the driver
    changes, and no run has a bad access.  An address is at most once in an
    interface when dhd_add_sta, which does not search, is only called for an
    address that is not there. *)
Theorem sta_run_refines (max : Z) (d : dhd_pub) (ops : list staop) :
  0 <= max -> max + 1 < ID16_INVALID -> no_stas (iflist (p_stas d)) -> Forall (λ o, int (sta_if o)) ops ->
  let A0 := abs_empty (iflist (p_stas d)) in
  ∃ s0 s', dhd_sta_pool_init true true d max = Some (BCME_OK, set_stas s0 d)
    ∧ let '(rs, A) := sta_spec_all max ops A0 in
      sta_exec_all ops (set_stas s0 d) = Some (rs, set_stas s' d)
      ∧ stas_rep max s' A ∧ abs_total A <= max ∧ (adds_new_all max ops A0 = true -> distinct A).
Proof.
  intros H0 Hm Hn Ho A0. destruct (dhd_sta_pool_init_spec max d H0 Hm Hn) as (s0 & Ei & H).
  assert (distinct A0) as Hd.
  { intros j a. unfold abs_if, A0, abs_empty. intros Ha. destruct (at_ _ j) as [o|] eqn:E; [|done]. cbn in Ha. subst o.
    apply at_Some in E as [_ E]. rewrite list_lookup_fmap in E. destruct (iflist (p_stas d) !! Z.to_nat j) as [[f|]|]; [|done..].
    injection E as <-. apply NoDup_singleton. }
  destruct (sta_exec_all_step max ops (set_stas s0 d) A0) as (s' & E & H' & Hd');
    [unfold ID16_INVALID in Hm; lia|done..|].
  exists s0, s'. split; [done|]. destruct (sta_spec_all _ _ _) as [rs A]. cbn [fst snd] in *.
  split; [done|]. split; [done|]. split; [by eapply stas_rep_total|auto].
Qed.

Definition sta_demo_ea (x : Z) : ether_addr := mk_ea 2 0 0 0 0 x.
Definition sta_demo_ifs : list (option dhd_if) :=
  Some (mk_if (sta_demo_ea 0) []) :: Some (mk_if (sta_demo_ea 9) []) :: replicate 14 None.
Definition sta_demo_dhd : dhd_pub :=
  mk_pub (mk_ids None None 0 0 false) None (mk_peers 0 []) None (mk_limits false 0 0 [] 0 0 0)
    (mk_stas sta_demo_ifs None None) (mk_bus 0 0 0 0 0)
    (mk_prot (mk_pring (mk_ring 0 0 0 0 0 0 0 0) 0 false 0) [] [] []) ∅ ∅.
Definition sta_demo_ops : list staop :=
  [StaFindAdd 0 (sta_demo_ea 1); StaFindAdd 1 (sta_demo_ea 1); StaFindAdd 0 (sta_demo_ea 2); StaFindAdd 0 (sta_demo_ea 0);
   StaChanspec 0 (sta_demo_ea 1) 7; StaFindAdd 0 (sta_demo_ea 1); StaDel 0 (sta_demo_ea 1); StaFind 0 (sta_demo_ea 1);
   StaAdd 1 (sta_demo_ea 2); StaDelAll 1; StaFind 1 (sta_demo_ea 2); StaFind 5 (sta_demo_ea 2)].

Lemma sta_run_refines_witness :
  (∃ s0 s', dhd_sta_pool_init true true sta_demo_dhd 3 = Some (BCME_OK, set_stas s0 sta_demo_dhd)
    ∧ let '(rs, A) := sta_spec_all 3 sta_demo_ops (abs_empty sta_demo_ifs) in
      sta_exec_all sta_demo_ops (set_stas s0 sta_demo_dhd) = Some (rs, set_stas s' sta_demo_dhd)
      ∧ stas_rep 3 s' A ∧ abs_total A <= 3 ∧ (adds_new_all 3 sta_demo_ops (abs_empty sta_demo_ifs) = true -> distinct A))
  ∧ adds_new_all 3 sta_demo_ops (abs_empty sta_demo_ifs) = true
  ∧ (sta_spec_all 3 sta_demo_ops (abs_empty sta_demo_ifs)).1
    = [Some (sta_demo_ea 1, 0); Some (sta_demo_ea 1, 0); Some (sta_demo_ea 2, 0); None; None; Some (sta_demo_ea 1, 7);
       None; None; Some (sta_demo_ea 2, 0); None; None; None].
Proof.
  split; [|split; [by vm_compute|by vm_compute]]. apply (sta_run_refines 3 sta_demo_dhd sta_demo_ops); [done|done| |].
  - split; [done|]. repeat (apply Forall_cons; split; [done|]). by apply Forall_nil.
  - unfold sta_demo_ops. repeat (apply Forall_cons; split; [vm_compute; intuition congruence|]). by apply Forall_nil.
Defined.

(** Two additions of one address make two stations. *)
Example sta_added_twice :
  (sta_spec_all 3 [StaAdd 0 (sta_demo_ea 1); StaAdd 0 (sta_demo_ea 1)] (abs_empty sta_demo_ifs)).2 !! 0%nat
  = Some (Some (mk_absif (sta_demo_ea 0) [(sta_demo_ea 1, 0); (sta_demo_ea 1, 0)])).
Proof. vm_compute. reflexivity. Qed.
