(* ===== verification/FlowRing.v ===== *)
(** * The flow rings (model)

    dhd_flowring.c, with the requests and responses of dhd_pcie.c and the control
    messages of dhd_msgbuf.c.  A flow gets a ring by a create request to the
    dongle, which answers with a create response; deleting and flushing work
    alike.  The spin locks are not modelled: a routine is one step.

    BCM_ROUTER_DHD, IDLE_TX_FLOW_MGMT, DHD_LIMIT_MULTI_CLIENT_FLOWRINGS and
    PCIE_INB_DW are not defined; WLTDLS, DHDTCPACK_SUPPRESS and
    DHD_LOSSLESS_ROAMING are.  The table of TCP acknowledgements that
    dhd_tcpack_info_tbl_clean empties holds nothing the flow rings read, and
    publishing an index or ringing a doorbell changes no state of the host. *)

From S2P Require Import Prelude ChanSpec Pktq Dll Id16 MsgRing FlowQueue FlowData FlowTable FlowSta.

(** ** dhd_msgbuf.c: control messages *)

Definition H2D_EPOCH_MODULO : Z := 253.

(** [&pool[flowid - BCMPCIE_H2D_COMMON_MSGRINGS]] *)
Definition DHD_FLOWRINGS_POOL_OFFSET (flowid : Z) : Z := flowid - BCMPCIE_H2D_COMMON_MSGRINGS.

Definition put_pool (p : flow_prot) (i : Z) (r : prot_ring) : option flow_prot :=
  l ← put_ (h2d_flowrings_pool p) i r; Some (mk_prot (h2dring_ctrl_subn p) l (dongle_rd p) (sent p)).

Definition dhd_prot_flowrings_pool_fetch (p : flow_prot) (flowid : Z) : option (prot_ring * flow_prot) :=
  r ← at_ (h2d_flowrings_pool p) (DHD_FLOWRINGS_POOL_OFFSET flowid);
  let ring := set_phase 0 (set_curr_rd 0 (set_rd 0 (set_wr 0 (pr_ring r)))) in
  let r := mk_pring ring (pr_base_addr r) true (pr_seqnum r) in
  p ← put_pool p (DHD_FLOWRINGS_POOL_OFFSET flowid) r;
  Some (r, p).

Definition dhd_prot_flowrings_pool_release (p : flow_prot) (flowid : Z) : option flow_prot :=
  r ← at_ (h2d_flowrings_pool p) (DHD_FLOWRINGS_POOL_OFFSET flowid);
  let ring := set_curr_rd 0 (set_rd 0 (set_wr 0 (pr_ring r))) in
  put_pool p (DHD_FLOWRINGS_POOL_OFFSET flowid) (mk_pring ring (pr_base_addr r) false (pr_seqnum r)).

(** The dongle's next read index of the control ring, when the host has to look;
    the last one known if it publishes nothing new. *)
Definition next_rd (p : flow_prot) : Z :=
  match dongle_rd p with x :: _ => x | [] => rd (pr_ring (h2dring_ctrl_subn p)) end.

(** dhd_prot_alloc_ring_space for one item of the control ring: its address,
    which is where [msg], made from the phase and the epoch, is written; the
    sequence number is counted when there is space. *)
Definition post_ctrl (p : flow_prot) (msg : Z -> Z -> flow_msg) : bool * flow_prot :=
  let c := h2dring_ctrl_subn p in
  let '(ret_buf, _, ring) := dhd_prot_alloc_ring_space 0 false (next_rd p) (pr_ring c) 1 0 false in
  match ret_buf with
  | None => (false, mk_prot (mk_pring ring (pr_base_addr c) (pr_inited c) (pr_seqnum c)) (h2d_flowrings_pool p)
                      (drop 1 (dongle_rd p)) (sent p))
  | Some a =>
      (true, mk_prot (mk_pring ring (pr_base_addr c) (pr_inited c) (u32 (pr_seqnum c + 1))) (h2d_flowrings_pool p)
               (drop 1 (dongle_rd p))
               (sent p ++ [(a, msg (current_phase ring) (pr_seqnum c mod H2D_EPOCH_MODULO))]))
  end.

(** The result, and the node, whose prot_info is set when the request is sent. *)
Definition dhd_prot_flow_ring_create (p : flow_prot) (n : flow_ring_node) : option (Z * flow_prot * flow_ring_node) :=
  '(r, p) ← dhd_prot_flowrings_pool_fetch p (fn_flowid n);
  let i := fn_info n in
  let '(ok, p) := post_ctrl p (λ phase epoch,
    MSG_FLOW_RING_CREATE (fi_ifindex i) phase epoch (fi_tid i) (fn_flowid n) (fi_sa i) (fi_da i)
      (pr_base_addr r) (max_items (pr_ring r))) in
  if ok then Some (BCME_OK, p, set_prot_info true n)
  else
    p ← dhd_prot_flowrings_pool_release p (fn_flowid n);
    Some (BCME_NOMEM, p, n).

Definition dhd_prot_flow_ring_delete (p : flow_prot) (n : flow_ring_node) : Z * flow_prot :=
  let '(ok, p) := post_ctrl p (λ phase epoch,
    MSG_FLOW_RING_DELETE (fi_ifindex (fn_info n)) phase epoch (fn_flowid n)) in
  (if ok then BCME_OK else BCME_NOMEM, p).

Definition dhd_prot_flow_ring_flush (p : flow_prot) (n : flow_ring_node) : Z * flow_prot :=
  let '(ok, p) := post_ctrl p (λ phase epoch,
    MSG_FLOW_RING_FLUSH (fi_ifindex (fn_info n)) phase epoch (fn_flowid n)) in
  (if ok then BCME_OK else BCME_NOMEM, p).

(** ** dhd_pcie.c: requests and responses

    A routine that C gives a pointer to the ring takes its index. *)

(** The address of the active list. *)
Definition ACTIVE_LIST : Z := -1.

Definition dhd_flow_queue (d : dhd_pub) (flowid : Z) : option (option flow_queue) :=
  n ← dhd_flow_ring_node d flowid; Some (option_map fn_queue n).

Definition dhd_flow_ring_config_thresholds (d : dhd_pub) (flowid queue_budget cumm_threshold : Z)
    (cumm_ctr : option cumm_ctr_ptr) (l2cumm_threshold : Z) (l2cumm_ctr : option cumm_ctr_ptr)
    : option dhd_pub :=
  n ← dhd_flow_ring_node d flowid;
  match n with
  | None => Some d
  | Some n => put_ring d flowid (set_queue (config_thresholds queue_budget cumm_threshold cumm_ctr
                                              l2cumm_threshold l2cumm_ctr (fn_queue n)) n)
  end.

Definition set_multi_client (x : Z) (l : flow_limits) : flow_limits :=
  mk_limits (flow_rings_inited l) (num_h2d_rings l) (max_tx_flowid l) (flow_prio_map l) (flow_prio_map_type l)
    (max_multi_client_flow_rings l) x.

(** dhd_flowid_free on the state. *)
Definition free_flowid (d : dhd_pub) (ifindex flowid : Z) : option dhd_pub :=
  if bool_decide (ifindex >= DHD_MAX_IFS) then Some d
  else
    t ← p_lkup d;
    '(ids, t, multi) ← dhd_flowid_free (p_ids d) t (multi_client_flow_rings (p_limits d)) ifindex flowid;
    Some (set_limits (set_multi_client multi (p_limits d)) (set_lkup (Some t) (set_ids ids d))).

Definition dhd_bus_clean_flow_ring (d : dhd_pub) (i : Z) : option dhd_pub :=
  n ← DHD_FLOW_RING d i;
  '(d, n) ← flush_ring d n;
  let q := dhd_flow_queue_reinit (flow_ring_queue_threshold (p_bus d)) (fn_queue n) in
  let n := set_state false FLOW_RING_STATUS_CLOSED (set_queue q n) in
  d ← put_ring d i n;
  l ← dll_delete (p_active d) i;
  l ← dll_init l i;
  p ← dhd_prot_flowrings_pool_release (p_prot d) (fn_flowid n);
  free_flowid (set_prot p (set_active l d)) (fi_ifindex (fn_info n)) (fn_flowid n).

Definition dhd_bus_flow_ring_create_request (d : dhd_pub) (i : Z) : option (Z * dhd_pub) :=
  n ← DHD_FLOW_RING d i;
  '(r, p, n) ← dhd_prot_flow_ring_create (p_prot d) n;
  d ← put_ring (set_prot p d) i n;
  Some (if bool_decide (r ≠ BCME_OK) then BCME_NOMEM else BCME_OK, d).

Definition dhd_bus_flow_ring_delete_request (d : dhd_pub) (i : Z) : option (Z * dhd_pub) :=
  n ← DHD_FLOW_RING d i;
  if bool_decide (fn_status n = FLOW_RING_STATUS_DELETE_PENDING) then Some (BCME_ERROR, d)
  else
    '(d, n) ← flush_ring d (set_status FLOW_RING_STATUS_DELETE_PENDING n);
    d ← put_ring d i n;
    let '(_, p) := dhd_prot_flow_ring_delete (p_prot d) n in
    Some (BCME_OK, set_prot p d).

Definition dhd_bus_flow_ring_flush_request (d : dhd_pub) (i : Z) : option (Z * dhd_pub) :=
  n ← DHD_FLOW_RING d i;
  '(d, n) ← flush_ring d (set_status FLOW_RING_STATUS_FLUSH_PENDING n);
  d ← put_ring d i n;
  let '(_, p) := dhd_prot_flow_ring_flush (p_prot d) n in
  Some (BCME_OK, set_prot p d).

(** The checks of a response: the ring, when its id is the one named. *)
Definition response_ring (d : dhd_pub) (flowid : Z) : option (option flow_ring_node) :=
  if bool_decide (flowid > max_tx_flowid (p_limits d)) then Some None
  else n ← DHD_FLOW_RING d flowid; Some (if bool_decide (fn_flowid n ≠ flowid) then None else Some n).

(** ** Moving packets from the queue to the ring *)

Section Transmit.
(** dhd_prot_txdata, or the drop of the throughput monitor in its place: whether
    the packet was put on the ring, and what else of the system it changes. *)
Context {W : Type} (dhd_prot_txdata : W -> pkt -> Z -> Z * W).

(** The [while] of dhd_bus_schedule_queue with [cnt] packets taken so far; the
    result says whether a packet was put back.  Each iteration but the last
    dequeues a packet, so the packets of the store and one step more are fuel
    enough. *)
Fixpoint schedule_loop (fuel : nat) (w : W) (h : heap) (q : flow_queue) (ifindex bound cnt ret : Z)
    : option (bool * Z * W * heap * flow_queue) :=
  match fuel with
  | O => None
  | S fuel =>
      '(txp, h, q) ← dhd_flow_queue_dequeue h q;
      match txp with
      | None => Some (false, ret, w, h, q)
      | Some txp =>
          let cnt := u32 (cnt + 1) in
          let '(ret, w) := dhd_prot_txdata w txp ifindex in
          if bool_decide (ret ≠ BCME_OK) then
            '(h, q) ← dhd_flow_queue_reinsert h q txp; Some (true, ret, w, h, q)
          else if bool_decide (bound ≠ 0) && bool_decide (cnt >= bound) then Some (false, ret, w, h, q)
          else schedule_loop fuel w h q ifindex bound cnt ret
      end
  end.

(** The result and [*is_qempty], when it is written. *)
(** [1 << tid] is a shift of an int: from 32 on it is undefined. *)
Definition dhd_bus_schedule_queue (w : W) (d : dhd_pub) (flow_id bound : Z) : option (Z * option bool * W * dhd_pub) :=
  if bool_decide (flow_id >= bus_max_submission_rings (p_bus d)) then Some (0, None, w, d)
  else
    n ← DHD_FLOW_RING d flow_id;
    if negb (fn_prot_info n) then Some (BCME_NOTREADY, None, w, d)
    else if bool_decide (fi_tid (fn_info n) >= 32) then None
    else if bool_decide (Z.land (dequeue_prec_map (p_bus d)) (Z.shiftl 1 (fi_tid (fn_info n))) = 0)
    then Some (BCME_OK, None, w, d)
    else if bool_decide (fn_status n ≠ FLOW_RING_STATUS_OPEN) then Some (BCME_NOTREADY, None, w, d)
    else if bool_decide (fq_len (fn_queue n) = 0) then Some (BCME_NOTREADY, None, w, d)
    else
      '(back, ret, w, h, q) ← schedule_loop (S (size (p_heap d))) w (p_heap d) (fn_queue n)
                                (fi_ifindex (fn_info n)) bound 0 BCME_OK;
      d ← put_ring (set_heap h d) flow_id (set_queue q n);
      if (back : bool) then Some (BCME_OK, Some false, w, d)
      else Some (ret, Some (negb (bool_decide (fq_len q > 0))), w, d).

Definition dhd_bus_flow_ring_create_response (w : W) (d : dhd_pub) (flowid status : Z) : option (W * dhd_pub) :=
  n ← response_ring d flowid;
  match n with
  | None => Some (w, d)
  | Some n =>
      if bool_decide (status ≠ BCME_OK) then d ← dhd_bus_clean_flow_ring d flowid; Some (w, d)
      else
        d ← put_ring d flowid (set_status FLOW_RING_STATUS_OPEN n);
        l ← dll_prepend (p_active d) ACTIVE_LIST flowid;
        '(_, _, w, d) ← dhd_bus_schedule_queue w (set_active l d) flowid 0;
        Some (w, d)
  end.
End Transmit.

Definition dhd_bus_flow_ring_delete_response (d : dhd_pub) (flowid status : Z) : option dhd_pub :=
  n ← response_ring d flowid;
  match n with
  | None => Some d
  | Some _ => if bool_decide (status ≠ BCME_OK) then Some d else dhd_bus_clean_flow_ring d flowid
  end.

Definition dhd_bus_flow_ring_flush_response (d : dhd_pub) (flowid status : Z) : option dhd_pub :=
  if bool_decide (status ≠ BCME_OK) then Some d
  else
    n ← response_ring d flowid;
    match n with
    | None => Some d
    | Some n => put_ring d flowid (set_status FLOW_RING_STATUS_OPEN n)
    end.

(** ** Sending a packet *)

Section Send.
Context {W : Type} (dhd_prot_txdata : W -> pkt -> Z -> Z * W) (other_cb : positive -> flow_queue -> pkt -> Z).

(** [PKTCFREE] *)
Definition toss (ret : Z) (w : W) (d : dhd_pub) (txp : pkt) : Z * W * dhd_pub :=
  (ret, w, set_heap (delete txp (p_heap d)) d).

Definition enqueue_at (to_head : bool) (d : dhd_pub) (i : Z) (txp : pkt) : option (Z * dhd_pub) :=
  n ← DHD_FLOW_RING d i;
  '(ret, h, q) ← (if to_head then dhd_flow_queue_enqueue_head other_cb (p_heap d) (fn_queue n) txp
                  else dhd_flow_queue_enqueue other_cb (p_heap d) (fn_queue n) txp);
  d ← put_ring (set_heap h d) i (set_queue q n);
  Some (ret, d).

(** [flowid] is the tag of the packet; [to_head] what dhd_match_pkt_type says of
    its data. *)
Definition dhd_bus_txdata (w : W) (d : dhd_pub) (flowid : Z) (to_head : bool) (txp : pkt)
    : option (Z * W * dhd_pub) :=
  if bool_decide (flowid_allocator (p_ids d) = None) then Some (toss BCME_OK w d txp)
  else
    n ← DHD_FLOW_RING d flowid;
    if bool_decide (flowid > max_tx_flowid (p_limits d)) || negb (fn_active n)
       || bool_decide (fn_status n = FLOW_RING_STATUS_DELETE_PENDING)
       || bool_decide (fn_status n = FLOW_RING_STATUS_STA_FREEING)
    then Some (toss BCME_ERROR w d txp)
    else
      '(ret, d) ← enqueue_at to_head d flowid txp;
      let pend := bool_decide (ret ≠ BCME_OK) in
      if bool_decide (fn_status n ≠ FLOW_RING_STATUS_OPEN) then
        Some (if pend then toss ret w d txp else (BCME_OK, w, d))
      else
        '(ret, _, w, d) ← dhd_bus_schedule_queue dhd_prot_txdata w d flowid 0;
        if pend then
          '(ret, d) ← enqueue_at to_head d flowid txp;
          Some (if bool_decide (ret ≠ BCME_OK) then toss ret w d txp else (ret, w, d))
        else Some (ret, w, d).
End Send.

(** ** Getting the ring of a flow *)

(** The part of dhd_flowid_lookup for a flow without ring, up to the id:
    [inl ret] is an early return.  [malloc]: whether the node of the hash table
    can be allocated. *)
Definition lookup_new_id (malloc : bool) (d : dhd_pub) (t : list if_flow_lkup) (ifindex prio : Z) (da : ether_addr)
    : option ((Z + Z) * dhd_pub) :=
  e ← at_ t ifindex;
  if negb (if_status e) then Some (inl BCME_ERROR, d)
  else
    let multi := DHD_IF_ROLE_MULTI_CLIENT (if_role e) in
    assoc ← (if multi && negb (ETHER_ISMULTI da) then dhd_sta_associated (p_stas d) ifindex da else Some true);
    if negb assoc then Some (inl BCME_ERROR, d)
    else
      htput ← (if multi && negb (ETHER_ISMULTI da) then dhd_is_sta_htput t (p_stas d) ifindex da else Some false);
      '(id, ids, t) ← dhd_flowid_alloc malloc htput (p_peers d) (max_tx_flowid (p_limits d)) (p_ids d) t ifindex prio da;
      let d := set_lkup (Some t) (set_ids ids d) in
      if bool_decide (id = FLOWID_INVALID) then Some (inl BCME_ERROR, d)
      else Some (inr id, if multi
                         then set_limits (set_multi_client (s32 (multi_client_flow_rings (p_limits d) + 1)) (p_limits d)) d
                         else d).

(** The ring of a new flow id is described and requested. *)
Definition lookup_create (d : dhd_pub) (id ifindex prio : Z) (sa da : ether_addr) : option (Z * option Z * dhd_pub) :=
  n ← DHD_FLOW_RING d id;
  let n := set_state true FLOW_RING_STATUS_CREATE_PENDING (set_info (mk_fi prio ifindex sa da) n) in
  d ← put_ring d id n;
  '(ret, d) ← dhd_bus_flow_ring_create_request d id;
  if bool_decide (ret ≠ BCME_OK) then
    n ← DHD_FLOW_RING d id;
    d ← put_ring d id (set_state false FLOW_RING_STATUS_CLOSED n);
    Some (BCME_ERROR, None, d)
  else Some (BCME_OK, Some id, d).

(** The result, [*flowid] when it is written, and the state. *)
Definition dhd_flowid_lookup (malloc : bool) (d : dhd_pub) (ifindex prio : Z) (sa da : ether_addr)
    : option (Z * option Z * dhd_pub) :=
  match p_table d with
  | None => Some (BCME_ERROR, None, d)
  | Some _ =>
      if bool_decide (ifindex >= DHD_MAX_IFS) then Some (BCME_BADARG, None, d)
      else
        t ← p_lkup d;
        id ← dhd_flowid_find (p_peers d) t ifindex prio da;
        if bool_decide (id = FLOWID_INVALID) || bool_decide (id > max_tx_flowid (p_limits d)) then
          '(r, d) ← lookup_new_id malloc d t ifindex prio da;
          match r with
          | inl ret => Some (ret, None, d)
          | inr id => lookup_create d id ifindex prio sa da
          end
        else
          n ← DHD_FLOW_RING d id;
          if bool_decide (fn_status n = FLOW_RING_STATUS_DELETE_PENDING)
             || bool_decide (fn_status n = FLOW_RING_STATUS_CLOSED)
          then Some (BCME_ERROR, Some FLOWID_INVALID, d)
          else Some (BCME_OK, Some id, d)
  end.

Definition dhd_flowid_debug_create (malloc : bool) (d : dhd_pub) (ifindex prio : Z) (sa da : ether_addr)
    : option (Z * option Z * dhd_pub) :=
  dhd_flowid_lookup malloc d ifindex prio sa da.

(** [sa] and [da] are read from the header of the packet; [Some] flow id is the
    tag it gets. *)
Definition dhd_flowid_update (malloc : bool) (d : dhd_pub) (ifindex prio : Z) (sa da : ether_addr)
    : option (Z * option Z * dhd_pub) :=
  if bool_decide (ifindex >= DHD_MAX_IFS) then Some (BCME_BADARG, None, d)
  else if bool_decide (flowid_allocator (p_ids d) = None) then Some (BCME_ERROR, None, d)
  else
    '(ret, flowid, d) ← dhd_flowid_lookup malloc d ifindex prio sa da;
    if bool_decide (ret ≠ BCME_OK) then Some (BCME_ERROR, None, d)
    else Some (BCME_OK, Some (default 0 flowid), d).

(** ** All the rings of an interface *)

(** [for (id = 0; id < num_h2d_rings; id++) if (test) f(id)] from [id] on, with
    [n] iterations left. *)
Fixpoint each_ring (test : flow_ring_node -> bool) (f : dhd_pub -> Z -> option dhd_pub) (n : nat) (id : Z)
    (d : dhd_pub) : option dhd_pub :=
  match n with
  | O => Some d
  | S n =>
      r ← DHD_FLOW_RING d id;
      d ← (if test r then f d id else Some d);
      each_ring test f n (id + 1) d
  end.

Definition open_on (ifindex : Z) (n : flow_ring_node) : bool :=
  fn_active n && bool_decide (fi_ifindex (fn_info n) = ifindex)
  && bool_decide (fn_status n = FLOW_RING_STATUS_OPEN).

(** The guards the loops have in common. *)
Definition for_rings (test : flow_ring_node -> bool) (f : dhd_pub -> Z -> option dhd_pub) (d : dhd_pub)
    (ifindex : Z) : option dhd_pub :=
  if bool_decide (ifindex >= DHD_MAX_IFS) then Some d
  else match p_table d with
       | None => Some d
       | Some _ => each_ring test f (Z.to_nat (num_h2d_rings (p_limits d))) 0 d
       end.

Definition dhd_flow_rings_delete (d : dhd_pub) (ifindex : Z) : option dhd_pub :=
  for_rings (open_on ifindex) (λ d id, '(_, d) ← dhd_bus_flow_ring_delete_request d id; Some d) d ifindex.

Definition dhd_flow_rings_flush (d : dhd_pub) (ifindex : Z) : option dhd_pub :=
  for_rings (open_on ifindex) (λ d id, '(_, d) ← dhd_bus_flow_ring_flush_request d id; Some d) d ifindex.

Definition of_peer (ifindex : Z) (addr : ether_addr) (n : flow_ring_node) : bool :=
  fn_active n && bool_decide (fi_ifindex (fn_info n) = ifindex) && bool_decide (fi_da (fn_info n) = addr)
  && (bool_decide (fn_status n = FLOW_RING_STATUS_OPEN) || bool_decide (fn_status n = FLOW_RING_STATUS_CREATE_PENDING)).

Definition dhd_flow_rings_delete_for_peer (d : dhd_pub) (ifindex : Z) (addr : ether_addr) : option dhd_pub :=
  for_rings (of_peer ifindex addr) (λ d id, '(_, d) ← dhd_bus_flow_ring_delete_request d id; Some d) d ifindex.

Definition count_multi (increment : bool) (l : flow_limits) : flow_limits :=
  let m := multi_client_flow_rings l in
  if increment then if bool_decide (m < max_multi_client_flow_rings l) then set_multi_client (s32 (m + 1)) l else l
  else if bool_decide (m ≠ 0) then set_multi_client (s32 (m - 1)) l else l.

Definition dhd_update_multicilent_flow_rings (d : dhd_pub) (ifindex : Z) (increment : bool) : option dhd_pub :=
  for_rings (open_on ifindex) (λ d _, Some (set_limits (count_multi increment (p_limits d)) d)) d ifindex.

(** ** Events of an interface *)

Definition WLC_E_IF_ADD : Z := 1.
Definition WLC_E_IF_DEL : Z := 2.
Definition WLC_E_IF_CHANGE : Z := 3.

Definition set_entry (d : dhd_pub) (t : list if_flow_lkup) (ifindex : Z) (e : if_flow_lkup) : option dhd_pub :=
  t ← put_ t ifindex e; Some (set_lkup (Some t) d).

Definition dhd_update_interface_flow_info (d : dhd_pub) (ifindex op role : Z) : option dhd_pub :=
  if bool_decide (ifindex >= DHD_MAX_IFS) then Some d
  else if bool_decide (flowid_allocator (p_ids d) = None) then Some d
  else
    t ← p_lkup d;
    e ← at_ t ifindex;
    if bool_decide (op = WLC_E_IF_ADD) || bool_decide (op = WLC_E_IF_CHANGE) then
      d ← set_entry d t ifindex (mk_lkup (if_status e) role (fl_hash e));
      d ← (if bool_decide (op = WLC_E_IF_CHANGE)
           then dhd_update_multicilent_flow_rings d ifindex (DHD_IF_ROLE_MULTI_CLIENT role) else Some d);
      if bool_decide (role = WLC_E_IF_ROLE_WDS) then
        t ← p_lkup d; e ← at_ t ifindex;
        set_entry d t ifindex (mk_lkup true (if_role e) (fl_hash e))
      else Some d
    else if bool_decide (op = WLC_E_IF_DEL) && bool_decide (role = WLC_E_IF_ROLE_WDS)
    then set_entry d t ifindex (mk_lkup false (if_role e) (fl_hash e))
    else Some d.

Definition dhd_update_interface_link_status (d : dhd_pub) (ifindex status : Z) : option (Z * dhd_pub) :=
  if bool_decide (ifindex >= DHD_MAX_IFS) then Some (BCME_BADARG, d)
  else
    t ← p_lkup d;
    e ← at_ t ifindex;
    d ← set_entry d t ifindex (mk_lkup (bool_decide (status ≠ 0)) (if_role e) (fl_hash e));
    Some (BCME_OK, d).
