(* ===== verification/FlowSched.v ===== *)
(** * Moving packets from the queue of a flow to its ring: properties

    [schedule_loop] of [FlowRing] against the same loop over the list of the
    packets that wait. *)

From S2P Require Import Prelude Pktq PktqSpec Dll Id16 MsgRing FlowQueue FlowQueueTheorems FlowData FlowTable FlowSta FlowRing.

Section Schedule.
Context {W : Type} (dhd_prot_txdata : W -> pkt -> Z -> Z * W).

(** The packets taken, those left, whether one was refused, and the last answer. *)
Fixpoint push_all (w : W) (l : list pkt) (ifindex bound cnt ret : Z) : bool * Z * W * list pkt * list pkt :=
  match l with
  | [] => (false, ret, w, [], [])
  | p :: l' =>
      let '(ret, w) := dhd_prot_txdata w p ifindex in
      if bool_decide (ret ≠ BCME_OK) then (true, ret, w, [], p :: l')
      else if bool_decide (bound ≠ 0) && bool_decide (cnt + 1 >= bound) then (false, ret, w, [p], l')
      else let '(back, ret, w, l1, l2) := push_all w l' ifindex bound (cnt + 1) ret in (back, ret, w, p :: l1, l2)
  end.

Lemma push_all_split w l ifindex bound cnt ret back ret' w' l1 l2 :
  push_all w l ifindex bound cnt ret = (back, ret', w', l1, l2) -> l = l1 ++ l2.
Proof.
  revert w cnt ret back ret' w' l1 l2. induction l as [|p l IH]; intros w cnt ret back ret' w' l1 l2; cbn [push_all].
  - by intros [= _ _ _ <- <-].
  - destruct (dhd_prot_txdata w p ifindex) as [r w1]. case_bool_decide; [by intros [= _ _ _ <- <-]|].
    destruct (_ && _); [by intros [= _ _ _ <- <-]|].
    destruct (push_all w1 l ifindex bound (cnt + 1) r) as [[[[b r2] w2] m1] m2] eqn:E. intros [= _ _ _ <- <-].
    cbn. f_equal. by eapply IH.
Qed.

(** What ends the loop. *)
Lemma push_all_end w l ifindex bound cnt ret back ret' w' l1 l2 :
  0 <= cnt -> push_all w l ifindex bound cnt ret = (back, ret', w', l1, l2) ->
  (back = true -> ret' ≠ BCME_OK ∧ l2 ≠ [])
  ∧ (back = false -> (ret = BCME_OK -> ret' = BCME_OK) ∧ (l2 = [] ∨ bound ≠ 0 ∧ cnt + Z.of_nat (length l1) >= bound))
  ∧ (bound ≠ 0 -> cnt < bound -> cnt + Z.of_nat (length l1) <= bound).
Proof.
  revert w cnt ret back ret' w' l1 l2. induction l as [|p l IH]; intros w cnt ret back ret' w' l1 l2 Hc; cbn [push_all].
  - intros [= <- <- _ <- <-]. cbn. split; [done|]. split; [auto|lia].
  - destruct (dhd_prot_txdata w p ifindex) as [r w1].
    case_bool_decide as Hr; [intros [= <- <- _ <- <-]; cbn; split; [by split|]; split; [done|lia]|].
    destruct (bool_decide (bound ≠ 0) && bool_decide (cnt + 1 >= bound)) eqn:Eb.
    + intros [= <- <- _ <- <-]. rewrite andb_true_iff, !bool_decide_eq_true in Eb. cbn [length].
      subst r. split; [done|]. split; [|lia]. split; [done|]. right. lia.
    + destruct (push_all w1 l ifindex bound (cnt + 1) r) as [[[[b r2] w2] m1] m2] eqn:E. intros [= <- <- _ <- <-].
      destruct (IH w1 (cnt + 1) r b r2 w2 m1 m2 ltac:(lia) E) as (H1 & H2 & H3). cbn [length].
      split; [done|]. split.
      * intros ->. destruct (H2 eq_refl) as [H4 H5]. split; [auto|].
        destruct H5 as [?|?]; [by left|right; lia].
      * intros Hb Hlt. rewrite andb_false_iff, !bool_decide_eq_false in Eb. lia.
Qed.

Lemma schedule_loop_spec ifindex bound fuel : ∀ w h q l cnt ret,
  fqrep h q l -> (length l < fuel)%nat -> 0 <= cnt -> cnt + Z.of_nat (length l) < 65536 ->
  ∃ back ret' w' l1 l2 h' q',
    push_all w l ifindex bound cnt ret = (back, ret', w', l1, l2)
    ∧ schedule_loop dhd_prot_txdata fuel w h q ifindex bound cnt ret = Some (back, ret', w', h', q')
    ∧ fqrep h' q' l2 ∧ frame l h h' ∧ fq_same q' q.
Proof.
  induction fuel as [|fuel IH]; intros w h q l cnt ret Hq Hf Hc Hl; [lia|]. cbn [schedule_loop].
  destruct l as [|p l]; cbn [push_all].
  - rewrite (fq_dequeue_nil h q [] Hq) by done. cbn [mbind option_bind].
    exists false, ret, w, [], [], h, q. split; [done|]. split; [done|]. split; [done|]. split; [apply frame_refl|by repeat split].
  - destruct (fq_dequeue_cons h q _ Hq p l) as (h1 & q1 & -> & Hq1 & Hf1 & Hs1 & _); [done|]. cbn [mbind option_bind].
    cbn [length] in *. rewrite (u32_small (cnt + 1)) by lia.
    assert (NoDup (p :: l)) as Hnd by (destruct Hq as [Hs _ _ _]; by eapply lseg_NoDup).
    apply NoDup_cons in Hnd as [Hp _].
    assert (is_Some (h !! p)) as Hph by (destruct Hq as [Hs _ _ _]; eapply lseg_dom; [exact Hs|left]).
    destruct (dhd_prot_txdata w p ifindex) as [r w1]. case_bool_decide as Hr.
    + rewrite dhd_flow_queue_reinsert_view.
      destruct (fq_push_head h1 q1 l Hq1 p Hp) as (h2 & c & -> & Hq2 & Hf2); [by eapply frame_Some|lia|].
      cbn [mbind option_bind].
      exists true, r, w1, [], (p :: l), h2, (fq_put c q1). split; [done|]. split; [done|]. split; [done|]. split.
      * eapply frame_trans; [eapply frame_mono; [|exact Hf1]|eapply frame_mono; [|exact Hf2]]; set_solver.
      * destruct (fq_same_put c q1) as (?&?&?&?&?&?), Hs1 as (?&?&?&?&?&?). repeat split; congruence.
    + destruct (_ && _).
      * exists false, r, w1, [p], l, h1, q1. split; [done|]. split; [done|]. split; [done|]. split; [|done].
        eapply frame_mono; [|exact Hf1]. set_solver.
      * destruct (IH w1 h1 q1 l (cnt + 1) r Hq1) as (b & r2 & w2 & l1 & l2 & h2 & q2 & -> & -> & Hq2 & Hf2 & Hs2); [lia..|].
        exists b, r2, w2, (p :: l1), l2, h2, q2. split; [done|]. split; [done|]. split; [done|]. split.
        -- eapply frame_trans; [eapply frame_mono; [|exact Hf1]|eapply frame_mono; [|exact Hf2]]; set_solver.
        -- destruct Hs1 as (?&?&?&?&?&?), Hs2 as (?&?&?&?&?&?). repeat split; congruence.
Qed.
End Schedule.

(** ** dhd_bus_schedule_queue *)

(** The mask of the priority is a shift by 32 or more. *)
Definition undefined_mask (n : flow_ring_node) : bool := fn_prot_info n && bool_decide (fi_tid (fn_info n) >= 32).

(** Why nothing is moved, and the answer then. *)
Definition held_back (d : dhd_pub) (n : flow_ring_node) (l : list pkt) : option Z :=
  if negb (fn_prot_info n) then Some BCME_NOTREADY
  else if bool_decide (Z.land (dequeue_prec_map (p_bus d)) (Z.shiftl 1 (fi_tid (fn_info n))) = 0) then Some BCME_OK
  else if bool_decide (fn_status n ≠ FLOW_RING_STATUS_OPEN) then Some BCME_NOTREADY
  else if bool_decide (l = []) then Some BCME_NOTREADY else None.

Lemma schedule_queue_run {W : Type} (dhd_prot_txdata : W -> pkt -> Z -> Z * W) w d flow_id bound n l :
  DHD_FLOW_RING d flow_id = Some n -> flow_id < bus_max_submission_rings (p_bus d) ->
  fqrep (p_heap d) (fn_queue n) l ->
  if undefined_mask n then dhd_bus_schedule_queue dhd_prot_txdata w d flow_id bound = None else
  match held_back d n l with
  | Some ret => dhd_bus_schedule_queue dhd_prot_txdata w d flow_id bound = Some (ret, None, w, d)
  | None =>
      ∃ back ret w' l1 l2 h' q' d',
        push_all dhd_prot_txdata w l (fi_ifindex (fn_info n)) bound 0 BCME_OK = (back, ret, w', l1, l2)
        ∧ dhd_bus_schedule_queue dhd_prot_txdata w d flow_id bound
          = Some (if (back : bool) then BCME_OK else ret, Some (bool_decide (l2 = [])), w', d')
        ∧ put_ring (set_heap h' d) flow_id (set_queue q' n) = Some d'
        ∧ fqrep h' q' l2 ∧ frame l (p_heap d) h' ∧ fq_same q' (fn_queue n)
  end.
Proof.
  intros Hn Hf Hq. unfold undefined_mask, held_back, dhd_bus_schedule_queue.
  rewrite (bool_decide_false (flow_id >= _)) by lia. rewrite Hn.
  cbn [mbind option_bind]. destruct (fn_prot_info n); [|done]. cbn [andb negb]. case_bool_decide; [done|]. case_bool_decide; [done|]. case_bool_decide; [done|].
  destruct (fqrep_len _ _ _ Hq) as [Hlen Hl16]. rewrite Hlen. case_bool_decide as He; [by rewrite He, bool_decide_true|].
  rewrite bool_decide_false by (destruct l; [done|cbn [length]; lia]).
  assert (length l <= size (p_heap d))%nat as Hsz by (destruct Hq as [Hs _ _ _]; by eapply lseg_length).
  destruct (schedule_loop_spec dhd_prot_txdata (fi_ifindex (fn_info n)) bound (S (size (p_heap d))) w (p_heap d) (fn_queue n)
              l 0 BCME_OK Hq) as (back & ret & w' & l1 & l2 & h' & q' & Ep & -> & Hq' & Hfr & Hsame); [lia..|].
  cbn [mbind option_bind].
  destruct (push_all_end dhd_prot_txdata w l _ bound 0 BCME_OK back ret w' l1 l2 ltac:(lia) Ep) as (Hb1 & _).
  assert (∃ d', put_ring (set_heap h' d) flow_id (set_queue q' n) = Some d') as [d' Hd'].
  { unfold put_ring, DHD_FLOW_RING in *. cbn [set_heap p_table]. destruct (p_table d) as [t|]; [|done].
    cbn [mbind option_bind] in *. rewrite (put_Some _ _ _ _ Hn). by eexists. }
  rewrite Hd'. cbn [mbind option_bind]. exists back, ret, w', l1, l2, h', q', d'. split; [done|]. split; [|done].
  destruct (fqrep_len _ _ _ Hq') as [-> _]. destruct back.
  - destruct Hb1 as [_ Hb1]; [done|]. by rewrite bool_decide_false.
  - assert (negb (bool_decide (Z.of_nat (length l2) > 0)) = bool_decide (l2 = [])) as ->; [|done].
    destruct l2 as [|x l2]; [done|]. rewrite bool_decide_true by (cbn [length]; lia). by rewrite bool_decide_false.
Qed.

(** C11.  When the ring of a flow exists, is open, its priority is not blocked by
    roaming and packets wait, dhd_bus_schedule_queue gives them to the transmit
    routine in the order of the queue until one is refused, the bound is reached
    or none is left: the packets that are taken are a prefix of the queue, a
    refused one is at the head again, the others keep their order, packets
    outside the queue are not touched and the rest of the driver is as before;
    the answer is the error of the last packet except that a refused packet
    answers BCME_OK, and is_qempty tells whether a packet is left.  In all other
    cases the state is unchanged and is_qempty is not written, except that the
    mask of a priority from 32 on, which flow_prio_map does not have, is
    undefined. *)
Theorem schedule_queue_spec {W : Type} (dhd_prot_txdata : W -> pkt -> Z -> Z * W) (w : W) (d : dhd_pub)
    (flow_id bound : Z) (n : flow_ring_node) (l : list pkt) :
  DHD_FLOW_RING d flow_id = Some n -> flow_id < bus_max_submission_rings (p_bus d) -> 0 <= bound ->
  fqrep (p_heap d) (fn_queue n) l ->
  if undefined_mask n then dhd_bus_schedule_queue dhd_prot_txdata w d flow_id bound = None else
  match held_back d n l with
  | Some ret => dhd_bus_schedule_queue dhd_prot_txdata w d flow_id bound = Some (ret, None, w, d)
  | None =>
      ∃ back ret w' l1 l2 h' q' d',
        push_all dhd_prot_txdata w l (fi_ifindex (fn_info n)) bound 0 BCME_OK = (back, ret, w', l1, l2)
        ∧ dhd_bus_schedule_queue dhd_prot_txdata w d flow_id bound
          = Some (if (back : bool) then BCME_OK else ret, Some (bool_decide (l2 = [])), w', d')
        ∧ put_ring (set_heap h' d) flow_id (set_queue q' n) = Some d'
        ∧ fqrep h' q' l2 ∧ frame l (p_heap d) h' ∧ fq_same q' (fn_queue n)
        ∧ l = l1 ++ l2 ∧ ret = (if back then ret else BCME_OK)
        ∧ (back = false -> l2 = [] ∨ bound ≠ 0 ∧ Z.of_nat (length l1) = bound)
        ∧ (bound > 0 -> Z.of_nat (length l1) <= bound)
  end.
Proof.
  intros Hn Hf Hbd Hq. pose proof (schedule_queue_run dhd_prot_txdata w d flow_id bound n l Hn Hf Hq) as Hr.
  destruct (undefined_mask n); [done|]. destruct (held_back d n l); [done|]. destruct Hr as (back & ret & w' & l1 & l2 & h' & q' & d' & Ep & E & Hput & Hq' & Hfr & Hs).
  destruct (push_all_end dhd_prot_txdata w l _ bound 0 BCME_OK back ret w' l1 l2 ltac:(lia) Ep) as (_ & Hb2 & Hb3).
  exists back, ret, w', l1, l2, h', q', d'. do 6 (split; [done|]). split; [by eapply push_all_split|].
  split; [destruct back; [done|by destruct Hb2 as [-> _]]|].
  split; [|intros; apply Hb3; lia]. intros Hb. destruct (Hb2 Hb) as [_ [?|[? ?]]]; [by left|right].
  split; [done|]. specialize (Hb3 ltac:(done)). lia.
Qed.

(** A ring with three packets whose transmit routine takes two. *)
Definition sched_heap : heap := list_to_map [(1%positive, Some 2%positive); (2%positive, Some 3%positive); (3%positive, None)].
Definition sched_queue : flow_queue :=
  mk_fq (Some 1%positive) (Some 3%positive) 3 15 15 None 0 CB_OVERFLOW 15 None.
Definition sched_node : flow_ring_node :=
  mk_node sched_queue true FLOW_RING_STATUS_OPEN 0 (mk_fi 5 1 (mk_ea 0 0 0 0 0 0) (mk_ea 2 0 0 0 0 1)) true.
Definition sched_dhd : dhd_pub :=
  mk_pub (mk_ids None None 0 0 false) None (mk_peers 0 []) (Some [sched_node]) (mk_limits true 1 0 [] 0 0 0)
    (mk_stas [] None None) (mk_bus 6 0 1 15 255)
    (mk_prot (mk_pring (mk_ring 0 0 0 0 0 0 0 0) 0 false 0) [] [] []) sched_heap ∅.
Definition sched_tx (sent : list (pkt * Z)) (p : pkt) (ifindex : Z) : Z * list (pkt * Z) :=
  if bool_decide (length sent < 2)%nat then (BCME_OK, sent ++ [(p, ifindex)]) else (BCME_NORESOURCE, sent).

Lemma sched_queue_rep : fqrep sched_heap sched_queue [1%positive; 2%positive; 3%positive].
Proof. split; [|done|done|done]. cbn [lseg]. do 3 (split; [done|]; eexists; split; [by vm_compute|]). done. Qed.

Lemma schedule_queue_spec_witness :
  (∃ back ret w' l1 l2 h' q' d',
    push_all sched_tx [] [1%positive; 2%positive; 3%positive] 1 0 0 BCME_OK = (back, ret, w', l1, l2)
    ∧ dhd_bus_schedule_queue sched_tx [] sched_dhd 0 0
      = Some (if (back : bool) then BCME_OK else ret, Some (bool_decide (l2 = [])), w', d')
    ∧ put_ring (set_heap h' sched_dhd) 0 (set_queue q' sched_node) = Some d'
    ∧ fqrep h' q' l2 ∧ frame [1%positive; 2%positive; 3%positive] sched_heap h' ∧ fq_same q' sched_queue
    ∧ [1%positive; 2%positive; 3%positive] = l1 ++ l2 ∧ ret = (if back then ret else BCME_OK)
    ∧ (back = false -> l2 = [] ∨ 0 ≠ 0 ∧ Z.of_nat (length l1) = 0)
    ∧ (0 > 0 -> Z.of_nat (length l1) <= 0))
  ∧ push_all sched_tx [] [1%positive; 2%positive; 3%positive] 1 0 0 BCME_OK
    = (true, BCME_NORESOURCE, [(1%positive, 1); (2%positive, 1)], [1%positive; 2%positive], [3%positive]).
Proof.
  split; [|by vm_compute].
  apply (schedule_queue_spec sched_tx [] sched_dhd 0 0 sched_node [1%positive; 2%positive; 3%positive]);
    [done|done|done|apply sched_queue_rep].
Defined.
