(* ===== verification/FlowSystem.v ===== *)
(** * The flow rings: what holds between the parts of the driver, and the invariant

    [list_ok]: the active list of the bus; [ring_ok]: one ring against the
    flow table and the requests under way; [rings_ok]: all rings and their
    packets. *)

From S2P Require Import Prelude Pktq PktqSpec Dll DllTheorems Id16 Id16Theorems MsgRing FlowQueue FlowQueueTheorems FlowData.
From S2P Require Import FlowTable FlowTableSpec FlowSta FlowStaTheorems FlowRing FlowSched.

(** ** The active list *)

(** The rings of [L] are linked in that order; the others are linked to
    themselves. *)
Definition list_ok (N : Z) (act : nodes) (L : list Z) : Prop :=
  dllrep act ACTIVE_LIST L ∧ (∀ i, i ∈ L -> 0 <= i < N)
  ∧ ∀ i, 0 <= i < N -> i ∉ L -> get_next act i = Some i ∧ get_prev act i = Some i.

Lemma changes_self ns ps h h' i :
  changes ns ps h h' -> i ∉ ns -> i ∉ ps ->
  get_next h i = Some i ∧ get_prev h i = Some i -> get_next h' i = Some i ∧ get_prev h' i = Some i.
Proof. intros (_ & HN & HP) Hn Hp [H1 H2]. by rewrite HN, HP. Qed.

Lemma list_ok_prepend N act L i :
  list_ok N act L -> 0 <= i < N -> i ∉ L ->
  ∃ act', dll_prepend act ACTIVE_LIST i = Some act' ∧ list_ok N act' (i :: L).
Proof.
  intros (Hr & HL & Hs) Hi Hn. destruct (Hs i Hi Hn) as [Hi1 _].
  destruct (dllrep_insert act ACTIVE_LIST [] L i Hr) as (act' & E & Hr' & Hch).
  - apply not_elem_of_cons. split; [unfold ACTIVE_LIST; lia|done].
  - by eapply get_next_is_Some.
  - exists act'. split; [exact E|]. split; [done|]. split.
    + intros j [->|Hj]%elem_of_cons; [done|by apply HL].
    + intros j Hj [Hne Hjn]%not_elem_of_cons. eapply changes_self; [exact Hch| | |by apply Hs].
      * cbn. rewrite !not_elem_of_cons. unfold ACTIVE_LIST. split; [done|split; [lia|apply not_elem_of_nil]].
      * rewrite !not_elem_of_cons. split; [done|]. split; [|apply not_elem_of_nil].
        destruct (after_in ACTIVE_LIST L) as [->|Ha]; [unfold ACTIVE_LIST; lia|by intros ->].
Qed.

(** The ring is taken off the list, if it is on it, and linked to itself. *)
Lemma list_ok_remove N act L i :
  list_ok N act L -> 0 <= i < N ->
  ∃ act', (l ← dll_delete act i; dll_init l i) = Some act' ∧ list_ok N act' (filter (λ j, j ≠ i) L).
Proof.
  intros (Hr & HL & Hs) Hi.
  assert (∀ h1 L1, dllrep h1 ACTIVE_LIST L1 -> i ∉ L1 -> is_Some (h1 !! i) ->
    (∀ j, j ∈ L1 -> 0 <= j < N) -> (∀ j, 0 <= j < N -> j ≠ i -> j ∉ L1 -> get_next h1 j = Some j ∧ get_prev h1 j = Some j) ->
    ∃ act', dll_init h1 i = Some act' ∧ list_ok N act' L1) as Hinit.
  { intros h1 L1 H1 Hi1 Hd HL1 Hs1. unfold dll_init.
    destruct (set_next_spec h1 i i Hd) as (h2 & -> & Hc2 & E2). cbn [mbind option_bind].
    destruct (set_prev_spec h2 i i) as (h3 & -> & Hc3 & E3); [by eapply changes_is_Some|].
    exists h3. split; [done|]. destruct Hc2 as (_ & N2 & P2), Hc3 as (_ & N3 & P3).
    assert (i ∉ ACTIVE_LIST :: L1) as Hi2 by (apply not_elem_of_cons; unfold ACTIVE_LIST; split; [lia|done]).
    assert (∀ j, j ≠ i -> get_next h3 j = get_next h1 j ∧ get_prev h3 j = get_prev h1 j) as Hf.
    { intros j Hj. rewrite N3, N2, P3, P2 by set_solver. done. }
    split; [|split; [done|]].
    - destruct H1 as [H1 Hnd]. split; [|done]. eapply linked_frame; [|done]. intros p1 x y p2 E.
      assert (∀ z, z ∈ ACTIVE_LIST :: L1 ++ [ACTIVE_LIST] -> z ≠ i) as Hz by (intros z Hz ->; set_solver).
      destruct (Hf x) as [-> _]; [apply Hz; rewrite E; set_solver|].
      by destruct (Hf y) as [_ ->]; [apply Hz; rewrite E; set_solver|].
    - intros j Hj Hjn. destruct (decide (j = i)) as [->|Hne].
      + split; [|done]. by rewrite N3, E2 by set_solver.
      + destruct (Hf j Hne) as [-> ->]. by apply Hs1. }
  destruct (decide (i ∈ L)) as [Hin|Hin].
  - apply list_elem_of_split in Hin as (l1 & l2 & ->).
    destruct (dllrep_delete act ACTIVE_LIST l1 l2 i Hr) as (h1 & -> & Hr1 & Hch). cbn [mbind option_bind].
    pose proof Hr as [_ [_ Hnd]%NoDup_cons].
    assert (i ∉ l1 ++ l2) as Hni by (rewrite <-Permutation_middle in Hnd; by apply NoDup_cons in Hnd as [? _]).
    rewrite filter_ne_middle by done.
    apply Hinit; [done|done| |intros j Hj; apply HL; set_solver|].
    + apply (changes_is_Some _ _ _ _ _ Hch).
      destruct (gap_links act ACTIVE_LIST l1 l2 [i] Hr) as (_ & (_ & Hp & _) & _). by eapply get_prev_is_Some.
    + intros j Hj Hne Hjn. eapply changes_self; [exact Hch| | |apply Hs; set_solver].
      * intros Hx%list_elem_of_singleton. destruct (before_in ACTIVE_LIST l1) as [Hb|Hb]; rewrite <-Hx in Hb;
          [unfold ACTIVE_LIST in Hb; lia|set_solver].
      * intros Hx%list_elem_of_singleton. destruct (after_in ACTIVE_LIST l2) as [Hb|Hb]; rewrite <-Hx in Hb;
          [unfold ACTIVE_LIST in Hb; lia|set_solver].
  - destruct (Hs i Hi Hin) as [Hn Hp].
    rewrite filter_ne_id by done.
    assert (dll_delete act i = Some act) as ->.
    { unfold dll_delete, set_next, set_prev. rewrite Hp, Hn. cbn [mbind option_bind]. unfold get_next, get_prev in *.
      destruct (act !! i) as [[x y]|] eqn:E; [|done]. cbn in Hn, Hp. injection Hn as ->. injection Hp as ->. cbn.
      rewrite lookup_insert_eq. cbn. rewrite lookup_insert_eq. cbn. by rewrite insert_insert_eq, insert_id by done. }
    cbn [mbind option_bind]. apply Hinit; [done|done|by eapply get_next_is_Some|done|intros; by apply Hs].
Qed.

(** ** One ring, and all of them *)

(** The flow table has a node of interface [fi_ifindex] for the ring, of the same
    priority and peer. *)
Definition served (lk : list if_flow_lkup) (i : Z) (info : flow_info) : Prop :=
  ∃ s nd, node_at lk (fi_ifindex info) s nd ∧ fh_flowid nd = i
    ∧ fi_tid (fh_info nd) = fi_tid info ∧ fi_da (fh_info nd) = fi_da info.

(** [L]: the rings the dongle has; [C]: those whose creation is requested and not
    answered; [S i info]: the flow table knows the flow of the ring.  [l]: the
    packets that wait. *)
Record ring_ok (S : Z -> flow_info -> Prop) (L C : gset Z) (i : Z) (n : flow_ring_node) (l : list pkt) : Prop := {
  ro_id : fn_flowid n = i;
  ro_max : 0 <= fq_max (fn_queue n) < 65536;
  ro_status : match fn_status n with
              | FLOW_RING_STATUS_CLOSED => i ∉ C ∧ i ∉ L
              | FLOW_RING_STATUS_CREATE_PENDING => i ∈ C
              | FLOW_RING_STATUS_OPEN | FLOW_RING_STATUS_FLUSH_PENDING => i ∈ L
              | FLOW_RING_STATUS_DELETE_PENDING => i ∈ C ∪ L
              | FLOW_RING_STATUS_STA_FREEING => False
              end;
  ro_active : fn_active n = negb (bool_decide (fn_status n = FLOW_RING_STATUS_CLOSED));
  ro_empty : fn_status n = FLOW_RING_STATUS_CLOSED ∨ fn_status n = FLOW_RING_STATUS_DELETE_PENDING -> l = [];
  ro_served : fn_active n = true -> S i (fn_info n)
}.

Record rings_ok (h : heap) (S : Z -> flow_info -> Prop) (L C : gset Z) (t : list flow_ring_node)
    (qs : list (list pkt)) : Prop := {
  rs_len : length qs = length t;
  rs_ring : ∀ i n l, at_ t i = Some n -> at_ qs i = Some l -> ring_ok S L C i n l ∧ fqrep h (fn_queue n) l;
  rs_nodup : NoDup (concat qs)
}.

Lemma fqrep_NoDup h q l : fqrep h q l -> NoDup l.
Proof. intros [H _ _ _]. by eapply lseg_NoDup. Qed.

Lemma rings_at h S L C t qs i n :
  rings_ok h S L C t qs -> at_ t i = Some n ->
  ∃ l, at_ qs i = Some l ∧ ring_ok S L C i n l ∧ fqrep h (fn_queue n) l.
Proof.
  intros H Hn. destruct (at_is_Some qs i) as [l Hl].
  { apply at_range in Hn. by rewrite (rs_len _ _ _ _ _ _ H). }
  exists l. split; [done|]. by apply (rs_ring _ _ _ _ _ _ H).
Qed.

Lemma at_concat {A} (qs : list (list A)) i l x : at_ qs i = Some l -> x ∈ l -> x ∈ concat qs.
Proof.
  intros [_ H]%at_Some Hx. apply list_elem_of_In, in_concat. exists l.
  split; apply list_elem_of_In; [by eapply list_elem_of_lookup_2|done].
Qed.

Lemma concat_disjoint {A} (qs : list (list A)) i j l l' x :
  NoDup (concat qs) -> at_ qs i = Some l -> at_ qs j = Some l' -> j ≠ i -> x ∈ l' -> x ∉ l.
Proof.
  intros Hnd Hi Hj Hne Hx Hx'. destruct (concat_map_insert_perm id qs i l Hi) as (r & H1 & H2).
  rewrite list_fmap_id in H1. rewrite H1 in Hnd. apply NoDup_app in Hnd as (_ & Hd & _). apply (Hd x Hx').
  assert (x ∈ concat (id <$> <[Z.to_nat i := []]> qs)) as Hin; [|by rewrite (H2 []) in Hin].
  rewrite list_fmap_id. pose proof (at_range _ _ _ Hi).
  apply (at_concat _ j l'); [by rewrite at_insert_ne by (done || lia)|done].
Qed.

Section Update.
Context (h : heap) (S : Z -> flow_info -> Prop) (L C : gset Z) (t : list flow_ring_node) (qs : list (list pkt)).
Context (H : rings_ok h S L C t qs).

(** A change of ring [i]: its packets [l] become [l'], the packets of the other
    rings stay linked, and what the other rings rely on is kept. *)
Lemma rings_upd h' (S' : Z -> flow_info -> Prop) (L' C' : gset Z) i n n' l l' :
  at_ t i = Some n -> at_ qs i = Some l ->
  ring_ok S' L' C' i n' l' -> fqrep h' (fn_queue n') l' ->
  (∀ x, x ∉ l -> x ∈ concat qs -> h' !! x = h !! x) -> (∀ x, x ∈ l' -> x ∈ l ∨ x ∉ concat qs) ->
  (∀ j info, j ≠ i -> S j info -> S' j info) -> (∀ j, j ≠ i -> (j ∈ L' <-> j ∈ L) ∧ (j ∈ C' <-> j ∈ C)) ->
  rings_ok h' S' L' C' (<[Z.to_nat i := n']> t) (<[Z.to_nat i := l']> qs).
Proof.
  intros Hn Hl Hro Hq Hh Hl' HS HLC. pose proof (at_range _ _ _ Hn). split.
  - by rewrite !length_insert, (rs_len _ _ _ _ _ _ H).
  - intros j m k. destruct (decide (j = i)) as [->|Hne].
    + rewrite (at_insert_eq _ _ _ _ Hn), (at_insert_eq _ _ _ _ Hl). by intros [= <-] [= <-].
    + rewrite !at_insert_ne by (done || lia). intros Hm Hk. destruct (rs_ring _ _ _ _ _ _ H j m k Hm Hk) as [R Q].
      destruct (HLC j Hne) as [HL HC]. split.
      * destruct R as [R1 R2 R3 R4 R5 R6]. split; [done|done| |done|done|by auto].
        destruct (fn_status m); set_solver.
      * eapply fqrep_frame; [|done]. intros x Hx. apply Hh; [|by eapply at_concat].
        by eapply (concat_disjoint qs i j); [apply H|..].
  - destruct (concat_map_insert_perm id qs i l Hl) as (r & H1 & H2). rewrite list_fmap_id in H1.
    specialize (H2 l'). rewrite list_fmap_id in H2. rewrite H2.
    pose proof (rs_nodup _ _ _ _ _ _ H) as Hnd. rewrite H1 in Hnd. apply NoDup_app in Hnd as (_ & Hd & Hr).
    apply NoDup_app. split; [by eapply fqrep_NoDup|]. split; [|done]. intros x Hx Hxr.
    destruct (Hl' x Hx) as [Hin|Hnin]; [by apply (Hd x)|]. apply Hnin. rewrite H1. set_solver.
Qed.

(** The flow table learns more flows. *)
Lemma rings_more_served (S' : Z -> flow_info -> Prop) :
  (∀ j info, S j info -> S' j info) -> rings_ok h S' L C t qs.
Proof.
  intros HS. split; [apply H| |apply H]. intros i n l Hn Hl. destruct (rs_ring _ _ _ _ _ _ H i n l Hn Hl) as [R Q].
  split; [|done]. destruct R. split; auto.
Qed.

(** Only the node changes: neither its packets nor anything of the others. *)
Lemma rings_upd_node i n n' l :
  at_ t i = Some n -> at_ qs i = Some l -> fn_queue n' = fn_queue n -> ring_ok S L C i n' l ->
  rings_ok h S L C (<[Z.to_nat i := n']> t) qs.
Proof.
  intros Hn Hl Hq Hro. destruct (rs_ring _ _ _ _ _ _ H i n l Hn Hl) as [_ Q].
  replace qs with (<[Z.to_nat i := l]> qs) at 1 by (apply list_insert_id; by apply at_Some in Hl as [_ ->]).
  eapply rings_upd; [done|done|done|by rewrite Hq|done|by left|by auto|by auto].
Qed.
End Update.

(** * The flow rings as a system: the invariant of the driver's state

    [flow_inv] relates the id allocators, the flow table, the ring table with its
    queues, the active list, the requests to the dongle and the stations.  [k] is
    the number of requests the dongle has answered, [L] the rings it has. *)

(** ** Requests under way *)

Definition msg_ring (m : flow_msg) : Z :=
  match m with
  | MSG_FLOW_RING_CREATE _ _ _ _ id _ _ _ _ | MSG_FLOW_RING_DELETE _ _ _ id | MSG_FLOW_RING_FLUSH _ _ _ id => id
  end.
Definition is_create (m : flow_msg) : bool := match m with MSG_FLOW_RING_CREATE _ _ _ _ _ _ _ _ _ => true | _ => false end.

Definition creates (ms : list flow_msg) : list Z := msg_ring <$> filter (λ m, is_create m = true) ms.
Definition pend (p : flow_prot) (k : nat) : list flow_msg := drop k (snd <$> sent p).

Lemma creates_app a b : creates (a ++ b) = creates a ++ creates b.
Proof. unfold creates. by rewrite filter_app, fmap_app. Qed.

Lemma creates_cons m ms : creates (m :: ms) = (if is_create m then [msg_ring m] else []) ++ creates ms.
Proof.
  unfold creates. destruct (is_create m) eqn:E; [by rewrite filter_cons_True|rewrite filter_cons_False]; [done|].
  by rewrite E.
Qed.

Lemma post_ctrl_spec p msg :
  ∃ ok p', post_ctrl p msg = (ok, p') ∧ h2d_flowrings_pool p' = h2d_flowrings_pool p
    ∧ if (ok : bool) then ∃ a phase epoch, sent p' = sent p ++ [(a, msg phase epoch)] else sent p' = sent p.
Proof.
  unfold post_ctrl. destruct (dhd_prot_alloc_ring_space _ _ _ _ _ _ _) as [[r al] ring].
  destruct r as [a|]; [exists true|exists false]; eexists; (split; [done|]); (split; [done|]); [|done].
  by eexists _, _, _.
Qed.

Lemma pend_sent p p' k a m :
  (k <= length (sent p))%nat -> sent p' = sent p ++ [(a, m)] -> pend p' k = pend p k ++ [m].
Proof. intros Hk E. unfold pend. rewrite E, fmap_app. apply drop_app_le. by rewrite length_fmap. Qed.

Lemma pend_same p p' k : sent p' = sent p -> pend p' k = pend p k.
Proof. intros E. unfold pend. by rewrite E. Qed.

(** ** The invariant *)

Section Inv.
(** The size of the ring table, the number of normal flow ids, the number of
    stations. *)
Context (N n maxs : Z).

Definition good_id (d : dhd_pub) (v : Z) : Prop := FLOWID_RESERVED <= v <= max_tx_flowid (p_limits d).

Record flow_inv (d : dhd_pub) (k : nat) (L : list Z) (o : gset Z) (lk : list if_flow_lkup) (t : list flow_ring_node)
    (qs : list (list pkt)) (A : list (option absif)) : Prop := {
  iv_t : p_table d = Some t;
  iv_len : length t = Z.to_nat N;
  iv_num : num_h2d_rings (p_limits d) = N;
  iv_n : 0 <= n;
  iv_top : ids_top n (p_ids d) = max_tx_flowid (p_limits d) + 1;
  iv_max : max_tx_flowid (p_limits d) < N;
  iv_rings : rings_ok (p_heap d) (served lk) (list_to_set L) (list_to_set (creates (pend (p_prot d) k))) t qs;
  iv_lk : p_lkup d = Some lk;
  iv_ids : ids_rep n (p_ids d) o;
  iv_tbl : tbl_wf lk o;
  iv_list : list_ok N (p_active d) L;
  iv_sent : (k <= length (sent (p_prot d)))%nat;
  iv_pend : Forall (λ m, good_id d (msg_ring m)) (pend (p_prot d) k);
  iv_cr : NoDup (creates (pend (p_prot d) k));
  iv_crL : ∀ i, i ∈ creates (pend (p_prot d) k) -> i ∉ L;
  iv_pool : ∀ v, good_id d v -> is_Some (at_ (h2d_flowrings_pool (p_prot d)) (DHD_FLOWRINGS_POOL_OFFSET v));
  iv_maxs : 0 <= maxs < 65536;
  iv_stas : stas_rep maxs (p_stas d) A
}.

Definition finv (d : dhd_pub) (k : nat) (L : list Z) : Prop := ∃ o lk t qs A, flow_inv d k L o lk t qs A.

Lemma good_top d v : good_id d v -> ids_top n (p_ids d) = max_tx_flowid (p_limits d) + 1 -> valid_id n (p_ids d) v.
Proof. intros [H1 H2] H. unfold valid_id. lia. Qed.

Section One.
Context (d : dhd_pub) (k : nat) (L : list Z) (o : gset Z) (lk : list if_flow_lkup) (t : list flow_ring_node)
  (qs : list (list pkt)) (A : list (option absif)) (H : flow_inv d k L o lk t qs A).

Lemma inv_ring i : 0 <= i < N -> ∃ x, DHD_FLOW_RING d i = Some x ∧ at_ t i = Some x.
Proof.
  intros Hi. destruct (at_is_Some t i) as [x Hx]; [rewrite (iv_len _ _ _ _ _ _ _ _ H); lia|]. exists x.
  unfold DHD_FLOW_RING. by rewrite (iv_t _ _ _ _ _ _ _ _ H).
Qed.

Lemma inv_at i x : DHD_FLOW_RING d i = Some x -> at_ t i = Some x ∧ 0 <= i < N.
Proof.
  unfold DHD_FLOW_RING. rewrite (iv_t _ _ _ _ _ _ _ _ H). intros Hx. split; [done|]. apply at_range in Hx.
  rewrite (iv_len _ _ _ _ _ _ _ _ H) in Hx. lia.
Qed.

Lemma out_good v : v ∈ o -> good_id d v.
Proof.
  intros Hv. pose proof (ids_rep_valid _ _ _ _ (iv_ids _ _ _ _ _ _ _ _ H) Hv) as [H1 H2].
  rewrite (iv_top _ _ _ _ _ _ _ _ H) in H2. unfold good_id. lia.
Qed.

Lemma good_N v : good_id d v -> 0 <= v < N.
Proof. intros [H1 H2]. pose proof (iv_max _ _ _ _ _ _ _ _ H). idlia. Qed.

Lemma served_out i info : served lk i info -> i ∈ o.
Proof. intros (s & nd & Hn & <- & _). by apply (tbl_node_out _ _ _ _ _ (iv_tbl _ _ _ _ _ _ _ _ H) Hn). Qed.

(** A ring that is not closed has a good id. *)
Lemma active_good i x : at_ t i = Some x -> fn_active x = true -> good_id d i ∧ i ∈ o.
Proof.
  intros Hx Ha. destruct (rings_at _ _ _ _ _ _ _ _ (iv_rings _ _ _ _ _ _ _ _ H) Hx) as (l & _ & R & _).
  pose proof (served_out _ _ (ro_served _ _ _ _ _ _ R Ha)) as Ho. split; [by apply out_good|done].
Qed.

(** The requests the dongle may answer after one more request. *)
Lemma inv_post_quiet (msg : Z -> Z -> flow_msg) i :
  good_id d i -> (∀ a b, msg_ring (msg a b) = i ∧ is_create (msg a b) = false) ->
  ∃ ok p, post_ctrl (p_prot d) msg = (ok, p) ∧ flow_inv (set_prot p d) k L o lk t qs A.
Proof.
  intros Hi Hm. destruct (post_ctrl_spec (p_prot d) msg) as (ok & p & E & Hpool & Hs). exists ok, p. split; [done|].
  destruct H. destruct ok.
  - destruct Hs as (a & b & c & Hs). destruct (Hm b c) as [Hm1 Hm2].
    assert (creates (pend p k) = creates (pend (p_prot d) k)) as Ec.
    { rewrite (pend_sent _ _ _ _ _ iv_sent0 Hs), creates_app, creates_cons, Hm2. cbn. by rewrite app_nil_r. }
    split; cbn; rewrite ?Ec; try done.
    + rewrite Hs, length_app. lia.
    + rewrite (pend_sent _ _ _ _ _ iv_sent0 Hs). apply Forall_app. split; [done|]. apply Forall_singleton. by rewrite Hm1.
    + by rewrite Hpool.
  - pose proof (pend_same _ _ k Hs) as Ep. split; cbn; rewrite ?Ep; try done; [by rewrite Hs|by rewrite Hpool].
Qed.
End One.

(** ** Storing a ring *)

Lemma set_heap_id (d : dhd_pub) : set_heap (p_heap d) d = d.
Proof. by destruct d. Qed.

Lemma inv_put d k L o lk t qs A i x x' h' qs' :
  flow_inv d k L o lk t qs A -> at_ t i = Some x ->
  rings_ok h' (served lk) (list_to_set L) (list_to_set (creates (pend (p_prot d) k))) (<[Z.to_nat i := x']> t) qs' ->
  put_ring (set_heap h' d) i x' = Some (set_table (Some (<[Z.to_nat i := x']> t)) (set_heap h' d))
  ∧ flow_inv (set_table (Some (<[Z.to_nat i := x']> t)) (set_heap h' d)) k L o lk (<[Z.to_nat i := x']> t) qs' A.
Proof.
  intros H Hx Hr. unfold put_ring. cbn [p_table set_heap]. rewrite (iv_t _ _ _ _ _ _ _ _ H). cbn [mbind option_bind].
  rewrite (put_Some _ _ _ _ Hx). split; [done|]. destruct H. split; cbn; try done. by rewrite length_insert.
Qed.

Lemma flush_ring_spec d x l :
  fqrep (p_heap d) (fn_queue x) l ->
  ∃ h' q', flush_ring d x = Some (set_heap h' d, set_queue q' x) ∧ fqrep h' q' [] ∧ fq_same q' (fn_queue x)
    ∧ ∀ y, y ∉ l -> h' !! y = p_heap d !! y.
Proof.
  intros Hq. unfold flush_ring. destruct (flow_queue_flush_spec _ _ _ Hq) as (h' & q' & -> & Hq' & Hs & _ & _ & Ho).
  by exists h', q'.
Qed.

(** A ring that is in use and whose packets are dropped. *)
Lemma inv_drop d k L o lk t qs A i x st :
  flow_inv d k L o lk t qs A -> at_ t i = Some x -> fn_active x = true ->
  st = FLOW_RING_STATUS_DELETE_PENDING ∨ st = FLOW_RING_STATUS_FLUSH_PENDING ∧ i ∈ L ->
  ∃ h' q', flush_ring d (set_status st x) = Some (set_heap h' d, set_queue q' (set_status st x))
    ∧ let x' := set_queue q' (set_status st x) in
      let d' := set_table (Some (<[Z.to_nat i := x']> t)) (set_heap h' d) in
      put_ring (set_heap h' d) i x' = Some d' ∧ fn_flowid x' = i
      ∧ flow_inv d' k L o lk (<[Z.to_nat i := x']> t) (<[Z.to_nat i := []]> qs) A.
Proof.
  intros H Hx Ha Hst. destruct (rings_at _ _ _ _ _ _ _ _ (iv_rings _ _ _ _ _ _ _ _ H) Hx) as (l & Hl & R & Q).
  destruct (flush_ring_spec d (set_status st x) l Q) as (h' & q' & E & Hq' & Hs & Ho). exists h', q'. split; [done|].
  cbv zeta. destruct (inv_put d k L o lk t qs A i x (set_queue q' (set_status st x)) h' (<[Z.to_nat i := []]> qs) H Hx)
    as [E1 H1]; [|split; [done|]; split; [by destruct R|done]].
  assert (i ∈ list_to_set (creates (pend (p_prot d) k)) ∪ list_to_set (C := gset Z) L) as HCL.
  { pose proof (ro_status _ _ _ _ _ _ R) as Hro. pose proof (ro_active _ _ _ _ _ _ R) as Hact. rewrite Ha in Hact.
    destruct (fn_status x); try done; set_solver. }
  eapply (rings_upd _ _ _ _ _ _ (iv_rings _ _ _ _ _ _ _ _ H)); [done|done| |done| | |by auto|by auto].
  - destruct R as [R1 R2 R3 R4 R5 R6]. split; cbn.
    + done.
    + destruct Hs as [-> _]. exact R2.
    + destruct Hst as [->|[-> Hi]]; [done|by apply elem_of_list_to_set].
    + rewrite Ha. by destruct Hst as [->|[-> _]].
    + done.
    + done.
  - intros y Hy _. by apply Ho.
  - intros y Hy. by apply elem_of_nil in Hy.
Qed.

(** ** Deletion and flush requests *)

Lemma delete_request_inv d k L i x :
  finv d k L -> DHD_FLOW_RING d i = Some x -> fn_active x = true ->
  ∃ r d', dhd_bus_flow_ring_delete_request d i = Some (r, d') ∧ finv d' k L.
Proof.
  intros (o & lk & t & qs & A & H) Hx Ha. unfold dhd_bus_flow_ring_delete_request. rewrite Hx. cbn [mbind option_bind].
  destruct (inv_at _ _ _ _ _ _ _ _ H _ _ Hx) as [Ht Hi]. case_bool_decide; [by exists BCME_ERROR, d; split; [|exists o, lk, t, qs, A]|].
  destruct (inv_drop d k L o lk t qs A i x FLOW_RING_STATUS_DELETE_PENDING H Ht Ha) as (h' & q' & -> & E & Hf & H1);
    [by left|]. cbn [mbind option_bind]. rewrite E. cbn [mbind option_bind].
  set (x' := set_queue q' _) in *. set (d' := set_table _ _) in *. unfold dhd_prot_flow_ring_delete.
  destruct (inv_post_quiet d' k L o lk _ _ A H1
    (λ phase epoch, MSG_FLOW_RING_DELETE (fi_ifindex (fn_info x')) phase epoch (fn_flowid x')) i) as (ok & p & -> & H2).
  - destruct (active_good _ _ _ _ _ _ _ _ H i x Ht Ha) as [Hg _]. exact Hg.
  - done.
  - exists BCME_OK, (set_prot p d'). split; [by destruct ok|]. by exists o, lk, (<[Z.to_nat i := x']> t), (<[Z.to_nat i := []]> qs), A.
Qed.

Lemma flush_request_inv d k L i x :
  finv d k L -> DHD_FLOW_RING d i = Some x -> fn_status x = FLOW_RING_STATUS_OPEN ->
  ∃ r d', dhd_bus_flow_ring_flush_request d i = Some (r, d') ∧ finv d' k L.
Proof.
  intros (o & lk & t & qs & A & H) Hx Hst. unfold dhd_bus_flow_ring_flush_request. rewrite Hx. cbn [mbind option_bind].
  destruct (inv_at _ _ _ _ _ _ _ _ H _ _ Hx) as [Ht Hi].
  destruct (rings_at _ _ _ _ _ _ _ _ (iv_rings _ _ _ _ _ _ _ _ H) Ht) as (l & Hl & R & Q).
  assert (fn_active x = true) as Ha by (rewrite (ro_active _ _ _ _ _ _ R), Hst; done).
  assert (i ∈ L) as HL.
  { pose proof (ro_status _ _ _ _ _ _ R) as Hro. rewrite Hst in Hro. by apply elem_of_list_to_set in Hro. }
  destruct (inv_drop d k L o lk t qs A i x FLOW_RING_STATUS_FLUSH_PENDING H Ht Ha) as (h' & q' & -> & E & Hf & H1);
    [by right|]. cbn [mbind option_bind]. rewrite E. cbn [mbind option_bind].
  set (x' := set_queue q' _) in *. set (d' := set_table _ _) in *. unfold dhd_prot_flow_ring_flush.
  destruct (inv_post_quiet d' k L o lk _ _ A H1
    (λ phase epoch, MSG_FLOW_RING_FLUSH (fi_ifindex (fn_info x')) phase epoch (fn_flowid x')) i) as (ok & p & -> & H2).
  - destruct (active_good _ _ _ _ _ _ _ _ H i x Ht Ha) as [Hg _]. exact Hg.
  - done.
  - exists BCME_OK, (set_prot p d'). split; [by destruct ok|]. by exists o, lk, (<[Z.to_nat i := x']> t), (<[Z.to_nat i := []]> qs), A.
Qed.

(** ** Packets *)

Lemma concat_insert_elem (qs : list (list pkt)) i l l' y :
  at_ qs i = Some l -> y ∈ concat (<[Z.to_nat i := l']> qs) -> y ∈ l' ∨ y ∈ concat qs.
Proof.
  intros Hl Hy. destruct (concat_map_insert_perm id qs i l Hl) as (r & H1 & H2).
  specialize (H2 l'). rewrite list_fmap_id in H1, H2. rewrite H2 in Hy. rewrite H1. set_solver.
Qed.

(** A ring whose queue has changed in a state in which packets may wait. *)
Lemma inv_queue d k L o lk t qs A i x l l' h' q' :
  flow_inv d k L o lk t qs A -> at_ t i = Some x -> at_ qs i = Some l -> fn_active x = true ->
  fn_status x ≠ FLOW_RING_STATUS_DELETE_PENDING -> fqrep h' q' l' -> fq_max q' = fq_max (fn_queue x) ->
  (∀ y, y ∉ l -> y ∈ concat qs -> h' !! y = p_heap d !! y) -> (∀ y, y ∈ l' -> y ∈ l ∨ y ∉ concat qs) ->
  let d' := set_table (Some (<[Z.to_nat i := set_queue q' x]> t)) (set_heap h' d) in
  put_ring (set_heap h' d) i (set_queue q' x) = Some d'
  ∧ flow_inv d' k L o lk (<[Z.to_nat i := set_queue q' x]> t) (<[Z.to_nat i := l']> qs) A.
Proof.
  intros H Hx Hl Ha Hst Hq Hm Hh Hl'. apply (inv_put d k L o lk t qs A i x); [done|done|].
  destruct (rs_ring _ _ _ _ _ _ (iv_rings _ _ _ _ _ _ _ _ H) i x l Hx Hl) as [R _].
  eapply (rings_upd _ _ _ _ _ _ (iv_rings _ _ _ _ _ _ _ _ H)); [done|done| |done|done|done|by auto|by auto].
  destruct R as [R1 R2 R3 R4 R5 R6]. split; cbn; [done|by rewrite Hm|done|done| |done].
  intros [Hc|Hc]; [|done]. rewrite Ha, Hc in R4. done.
Qed.

Section Transmit.
Context {W : Type} (dhd_prot_txdata : W -> pkt -> Z -> Z * W).

Definition same_states (t t' : list flow_ring_node) : Prop :=
  ∀ j x', at_ t' j = Some x' -> ∃ x, at_ t j = Some x ∧ fn_status x' = fn_status x ∧ fn_active x' = fn_active x ∧ fn_info x' = fn_info x.

Lemma same_states_queue t i x q : at_ t i = Some x -> same_states t (<[Z.to_nat i := set_queue q x]> t).
Proof.
  intros Hx j y. pose proof (at_range _ _ _ Hx). destruct (decide (j = i)) as [->|Hne].
  - rewrite (at_insert_eq _ _ _ _ Hx). intros [= <-]. by exists x.
  - rewrite at_insert_ne by (done || lia). intros Hy. by exists y.
Qed.

(** The mask of the priority of ring [i] is defined. *)
Definition tid_ok (d : dhd_pub) (i : Z) : Prop := ∀ x, DHD_FLOW_RING d i = Some x -> fi_tid (fn_info x) < 32.

Lemma schedule_inv w d k L o lk t qs A i bound :
  flow_inv d k L o lk t qs A -> 0 <= i < N -> tid_ok d i ->
  ∃ r e w' d' t' qs', dhd_bus_schedule_queue dhd_prot_txdata w d i bound = Some (r, e, w', d')
    ∧ flow_inv d' k L o lk t' qs' A ∧ (∀ p, p ∈ concat qs' -> p ∈ concat qs) ∧ dom (p_heap d') = dom (p_heap d)
    ∧ same_states t t'.
Proof.
  intros H Hi Htid. destruct (decide (i < bus_max_submission_rings (p_bus d))) as [Hb|Hb].
  2: { exists 0, None, w, d, t, qs. unfold dhd_bus_schedule_queue. rewrite bool_decide_true by lia.
       split; [done|]. split; [done|]. split; [done|]. split; [done|]. intros j x Hx. by exists x. }
  destruct (inv_ring _ _ _ _ _ _ _ _ H i Hi) as (x & Hx & Ht).
  destruct (rings_at _ _ _ _ _ _ _ _ (iv_rings _ _ _ _ _ _ _ _ H) Ht) as (l & Hl & R & Q).
  pose proof (schedule_queue_run dhd_prot_txdata w d i bound x l Hx Hb Q) as Hr.
  assert (undefined_mask x = false) as Hmask.
  { unfold undefined_mask. specialize (Htid x Hx). rewrite (bool_decide_false (fi_tid _ >= 32)) by lia. apply andb_false_r. }
  rewrite Hmask in Hr. destruct (held_back d x l) as [r|] eqn:Eh.
  { exists r, None, w, d, t, qs. split; [done|]. split; [done|]. split; [done|]. split; [done|]. intros j y Hy. by exists y. }
  destruct Hr as (back & ret & w' & l1 & l2 & h' & q' & d' & Ep & E & Hput & Hq' & [Hdom Hfr] & Hs).
  assert (fn_status x = FLOW_RING_STATUS_OPEN) as Hst.
  { unfold held_back in Eh. destruct (negb (fn_prot_info x)); [done|].
    destruct (bool_decide (Z.land _ _ = 0)); [done|]. destruct (bool_decide (fn_status x ≠ _)) eqn:Eo; [done|].
    apply bool_decide_eq_false in Eo. by apply dec_stable. }
  assert (fn_active x = true) as Ha by (rewrite (ro_active _ _ _ _ _ _ R), Hst; done).
  apply push_all_split in Ep as ->.
  destruct (inv_queue d k L o lk t qs A i x (l1 ++ l2) l2 h' q' H Ht Hl Ha) as [E1 H1].
  - by rewrite Hst.
  - done.
  - by destruct Hs.
  - intros y Hy _. by apply Hfr.
  - intros y Hy. left. set_solver.
  - rewrite Hput in E1. injection E1 as ->.
    eexists _, _, w', _, _, _. split; [exact E|]. split; [exact H1|]. split; [|split; [done|by apply same_states_queue]].
    intros p Hp. destruct (concat_insert_elem _ _ _ _ _ Hl Hp) as [Hp'|?]; [|done].
    eapply at_concat; [exact Hl|set_solver].
Qed.

Context (other_cb : positive -> flow_queue -> pkt -> Z).

(** One attempt to put a packet that is in no queue into the queue of ring [i]. *)
Lemma enqueue_at_inv to_head d k L o lk t qs A i x p :
  flow_inv d k L o lk t qs A -> at_ t i = Some x -> fn_active x = true ->
  fn_status x ≠ FLOW_RING_STATUS_DELETE_PENDING -> p ∉ concat qs -> is_Some (p_heap d !! p) ->
  ∃ r d' t' qs', enqueue_at other_cb to_head d i p = Some (r, d') ∧ flow_inv d' k L o lk t' qs' A
    ∧ same_states t t' ∧ dom (p_heap d') = dom (p_heap d) ∧ (r ≠ BCME_OK -> p ∉ concat qs').
Proof.
  intros H Ht Ha Hst Hp Hh. destruct (rings_at _ _ _ _ _ _ _ _ (iv_rings _ _ _ _ _ _ _ _ H) Ht) as (l & Hl & R & Q).
  assert (p ∉ l) as Hpl by (intros Hin; apply Hp; by eapply at_concat).
  assert (DHD_FLOW_RING d i = Some x) as Hx.
  { unfold DHD_FLOW_RING. by rewrite (iv_t _ _ _ _ _ _ _ _ H). }
  pose proof (ro_max _ _ _ _ _ _ R) as Hmax. unfold enqueue_at. rewrite Hx. cbn [mbind option_bind].
  (* The state after the queue has become [l'], which has no packet but those of [l] and [p]. *)
  assert (∀ r h' q' l', fqrep h' q' l' -> fq_max q' = fq_max (fn_queue x) -> frame (p :: l) (p_heap d) h' ->
    (∀ y, y ∈ l' -> y ∈ l ∨ y = p) -> (r ≠ BCME_OK -> l' = l) ->
    ∃ r0 d' t' qs', (d0 ← put_ring (set_heap h' d) i (set_queue q' x); Some (r, d0)) = Some (r0, d')
      ∧ flow_inv d' k L o lk t' qs' A ∧ same_states t t' ∧ dom (p_heap d') = dom (p_heap d)
      ∧ (r0 ≠ BCME_OK -> p ∉ concat qs')) as Hdone.
  { intros r h' q' l' Hq Hm [Hd Hf] Hsub Hr.
    destruct (inv_queue d k L o lk t qs A i x l l' h' q' H Ht Hl Ha Hst Hq Hm) as [E1 H1].
    - intros y Hy Hyc. apply Hf. intros [->|?]%elem_of_cons; done.
    - intros y [?| ->]%Hsub; [by left|by right].
    - rewrite E1. cbn [mbind option_bind]. eexists r, _, _, _. split; [done|]. split; [exact H1|].
      split; [by apply same_states_queue|]. split; [done|]. intros Hne Hin. rewrite (Hr Hne) in Hin.
      destruct (concat_insert_elem _ _ _ _ _ Hl Hin); done. }
  destruct (dhd_flow_queue_throttle (fn_queue x)) eqn:Ethr.
  - unfold dhd_flow_queue_enqueue_head, dhd_flow_queue_enqueue. rewrite Ethr. unfold turn_away.
    destruct to_head; cbn [mbind option_bind];
      (apply (Hdone _ _ _ l); [destruct Q as [? ? ? ?]; by split|done|apply frame_refl|by left|done]).
  - destruct to_head.
    + rewrite dhd_flow_queue_enqueue_head_view by done. pose proof (fq_room _ _ _ Q p Ethr Hmax) as Hroom. cbn [length] in Hroom.
      destruct (fq_push_head _ _ _ Q p Hpl Hh) as (h' & c & -> & Hq' & Hf); [lia|]. cbn [mbind option_bind].
      apply (Hdone _ _ _ (p :: l)); [done|by destruct (fq_same_put c (fn_queue x))| | |done].
      * eapply frame_mono; [|exact Hf]. set_solver.
      * intros y [->|?]%elem_of_cons; [by right|by left].
    + destruct (fq_enqueue_spec other_cb _ _ _ Q p Hpl Hh Ethr Hmax) as (h' & q' & -> & Hq' & Hf & Hs & _).
      cbn [mbind option_bind]. apply (Hdone _ _ _ (l ++ [p])); [done|by destruct Hs|done| |done].
      intros y [?|?%list_elem_of_singleton]%elem_of_app; [by left|by right].
Qed.

(** A packet that is in no queue is freed. *)
Lemma inv_free d k L o lk t qs A p :
  flow_inv d k L o lk t qs A -> p ∉ concat qs -> flow_inv (set_heap (delete p (p_heap d)) d) k L o lk t qs A.
Proof.
  intros H Hp. pose proof (iv_rings _ _ _ _ _ _ _ _ H) as R. destruct H. split; cbn; try done.
  split; [apply R| |apply R]. intros i x l Hx Hl. destruct (rs_ring _ _ _ _ _ _ R i x l Hx Hl) as [R1 Q]. split; [done|].
  eapply fqrep_frame; [|exact Q]. intros y Hy. rewrite lookup_delete_ne; [done|]. intros ->. apply Hp. by eapply at_concat.
Qed.

Lemma txdata_inv w d k L o lk t qs A flowid to_head p :
  flow_inv d k L o lk t qs A -> 0 <= flowid < N -> p ∉ concat qs -> is_Some (p_heap d !! p) -> tid_ok d flowid ->
  ∃ r w' d' t' qs', dhd_bus_txdata dhd_prot_txdata other_cb w d flowid to_head p = Some (r, w', d')
    ∧ flow_inv d' k L o lk t' qs' A.
Proof.
  intros H Hi Hp Hh Htid. unfold dhd_bus_txdata.
  assert (∀ r (w : W) d t qs, flow_inv d k L o lk t qs A -> p ∉ concat qs ->
    ∃ r' w' d' t' qs', Some (toss r w d p) = Some (r', w', d') ∧ flow_inv d' k L o lk t' qs' A) as Htoss.
  { intros r w0 d0 t0 qs0 H0 Hp0. eexists r, w0, _, t0, qs0. split; [done|]. by apply inv_free. }
  destruct (bool_decide (flowid_allocator (p_ids d) = None)); [by eapply Htoss|].
  destruct (inv_ring _ _ _ _ _ _ _ _ H flowid Hi) as (x & Hx & Ht). rewrite Hx. cbn [mbind option_bind].
  destruct (_ || _ || _ || _) eqn:Eb; [by eapply Htoss|].
  rewrite !orb_false_iff, negb_false_iff, !bool_decide_eq_false in Eb. destruct Eb as [[[_ Ha] Hst] _].
  destruct (enqueue_at_inv to_head d k L o lk t qs A flowid x p H Ht Ha Hst Hp Hh)
    as (r & d1 & t1 & qs1 & -> & H1 & Hs1 & Hd1 & Hr). cbn [mbind option_bind]. cbv zeta.
  assert (∀ d2, dom (p_heap d2) = dom (p_heap d) -> is_Some (p_heap d2 !! p)) as Hin.
  { intros d2 E. apply elem_of_dom. rewrite E. by apply elem_of_dom. }
  case_bool_decide as Hop.
  - case_bool_decide as Hok; [by eapply Htoss; [exact H1|apply Hr]|]. by exists BCME_OK, w, d1, t1, qs1.
  - assert (tid_ok d1 flowid) as Htid1.
    { intros y Hy. unfold DHD_FLOW_RING in Hy. rewrite (iv_t _ _ _ _ _ _ _ _ H1) in Hy. destruct (Hs1 _ _ Hy) as (y0 & Hy0 & _ & _ & ->).
      apply Htid. unfold DHD_FLOW_RING. by rewrite (iv_t _ _ _ _ _ _ _ _ H). }
    destruct (schedule_inv w d1 k L o lk t1 qs1 A flowid 0 H1 Hi Htid1)
      as (r2 & e & w2 & d2 & t2 & qs2 & -> & H2 & Hsub & Hd2 & Hs2). cbn [mbind option_bind].
    case_bool_decide as Hok; [|by exists r2, w2, d2, t2, qs2].
    destruct (inv_ring _ _ _ _ _ _ _ _ H2 flowid Hi) as (x2 & _ & Ht2).
    destruct (Hs2 _ _ Ht2) as (x1 & Ht1 & Es1 & Ea1 & _). destruct (Hs1 _ _ Ht1) as (x0 & Ht0 & Es0 & Ea0 & _).
    rewrite Ht in Ht0. injection Ht0 as <-.
    destruct (enqueue_at_inv to_head d2 k L o lk t2 qs2 A flowid x2 p H2 Ht2)
      as (r3 & d3 & t3 & qs3 & -> & H3 & _ & _ & Hr3).
    + congruence.
    + congruence.
    + intros Hin2. by apply (Hr Hok), Hsub.
    + apply Hin. congruence.
    + cbn [mbind option_bind]. case_bool_decide; [eapply Htoss; [exact H3|by apply Hr3]|]. by exists r3, w2, d3, t3, qs3.
Qed.
End Transmit.
End Inv.
