(* ===== verification/FlowInit.v ===== *)
(** * The flow rings: start, end, and events that touch several parts (model)

    dhd_flowring.c with its calls from dhd_linux.c (TDLS peers), dhd_common.c
    (link events) and dhd_msgbuf.c. *)

From S2P Require Import Prelude ChanSpec Pktq Dll Id16 MsgRing FlowQueue FlowData FlowTable FlowSta FlowRing.

(** ** Initialisation *)

(** Which of the allocations of dhd_flow_rings_init succeed. *)
Record init_allocs := mk_allocs {
  al_ids : bool; al_htput_ids : bool; al_table : bool; al_node_locks : bool;
  al_lkup : bool; al_lock : bool; al_list_lock : bool
}.

Definition zero_queue : flow_queue := mk_fq None None 0 0 0 None 0 CB_OVERFLOW 0 None.
Definition zero_ea : ether_addr := mk_ea 0 0 0 0 0 0.

(** A ring of the table after the loop over the table. *)
Definition init_node (threshold : Z) (idx : nat) : flow_ring_node :=
  mk_node (dhd_flow_queue_init threshold zero_queue) false FLOW_RING_STATUS_CLOSED (u16 (Z.of_nat idx))
    (mk_fi 0 0 zero_ea zero_ea) false.

Definition init_table (threshold num_h2d_rings : Z) : list flow_ring_node :=
  init_node threshold <$> seq 0 (Z.to_nat num_h2d_rings).

(** [dll_init(&flow_ring_table[idx].list)] for the fresh table. *)
Fixpoint init_lists (l : nodes) (n : nat) (idx : Z) : option nodes :=
  match n with
  | O => Some l
  | S n => l ← dll_init (<[idx := mk_dll 0 0]> l) idx; init_lists l n (idx + 1)
  end.

Definition init_entry : if_flow_lkup := mk_lkup false 0 (replicate DHD_FLOWRING_HASH_SIZE []).

Definition set_max_tx_flowid (x : Z) (l : flow_limits) : flow_limits :=
  mk_limits (flow_rings_inited l) (num_h2d_rings l) x (flow_prio_map l) (flow_prio_map_type l)
    (max_multi_client_flow_rings l) (multi_client_flow_rings l).

Definition DHD_FLOW_PRIO_AC_MAP : Z := 0.
Definition DHD_FLOW_PRIO_TID_MAP : Z := 1.
Definition DHD_FLOW_PRIO_LLR_MAP : Z := 2.

Definition dhd_flow_rings_init (al : init_allocs) (d : dhd_pub) (num_h2d_rings : Z) : option (Z * dhd_pub) :=
  let max_tx_flow_rings := dhd_get_max_flow_rings (p_bus d) in
  '(r, ids) ← dhd_flowid_map_init (al_ids al) (al_htput_ids al) (p_ids d) max_tx_flow_rings;
  let fail d := (BCME_NOMEM, set_ids (dhd_flowid_map_deinit (p_ids d)) d) in
  let d := set_ids ids d in
  if bool_decide (r ≠ BCME_OK) then Some (fail d)
  else
    let d := set_limits (set_max_tx_flowid (u32 (max_tx_flow_rings + FLOWID_RESERVED - 1)) (p_limits d)) d in
    if al_table al && al_node_locks al && al_lkup al && al_lock al && al_list_lock al then
      l ← init_lists (p_active d) (Z.to_nat num_h2d_rings) 0;
      let lim := mk_limits true num_h2d_rings (max_tx_flowid (p_limits d)) prio2ac DHD_FLOW_PRIO_AC_MAP
                   (dhd_get_max_multi_client_flow_rings prio2ac max_tx_flow_rings) 0 in
      let b := p_bus d in
      let d := set_table (Some (init_table (flow_ring_queue_threshold b) num_h2d_rings)) (set_active l d) in
      let d := set_bus (mk_bus (fw_rev b) (bus_max_tx_flowrings b) (bus_max_submission_rings b)
                          (flow_ring_queue_threshold b) ALLPRIO) d in
      Some (BCME_OK, set_limits lim (set_lkup (Some (replicate (Z.to_nat DHD_MAX_IFS) init_entry)) d))
    else Some (fail d).

(** ** Deinitialisation *)

Fixpoint clean_active (n : nat) (idx : Z) (d : dhd_pub) : option dhd_pub :=
  match n with
  | O => Some d
  | S n =>
      r ← DHD_FLOW_RING d idx;
      d ← (if fn_active r then dhd_bus_clean_flow_ring d idx else Some d);
      clean_active n (idx + 1) d
  end.

(** The links of the rings, which are freed with the table. *)
Definition drop_lists (l : nodes) (n : nat) : nodes := foldr (λ i l, delete (Z.of_nat i) l) l (seq 0 n).

(** The code takes the table out of dhd_pub before the loop, which does not look
    for it there; here it stays until the loop is done. *)
Definition dhd_flow_rings_deinit (d : dhd_pub) : option dhd_pub :=
  if negb (flow_rings_inited (p_limits d)) then Some d
  else
    let n := Z.to_nat (num_h2d_rings (p_limits d)) in
    d ← (match p_table d with
         | None => Some d
         | Some _ => d ← clean_active n 0 d; Some (set_active (drop_lists (p_active d) n) (set_table None d))
         end);
    let d := set_ids (dhd_flowid_map_deinit (p_ids d)) (set_lkup None d) in
    let l := p_limits d in
    Some (set_limits (mk_limits false 0 (max_tx_flowid l) (replicate NUMPRIO 0) (flow_prio_map_type l) 0 0) d).

Definition dhd_prot_flowrings_pool_reset (p : flow_prot) : flow_prot :=
  mk_prot (h2dring_ctrl_subn p)
    ((λ r, mk_pring (dhd_prot_ring_reset (pr_ring r)) (pr_base_addr r) false (pr_seqnum r)) <$> h2d_flowrings_pool p)
    (dongle_rd p) (sent p).

(** ** The priority map *)

(** [inform]: whether dhd_flow_prio_map tells the firmware. *)
Definition dhd_update_flow_prio_map (inform : Z -> bool) (d : dhd_pub) (map : Z) : option (Z * dhd_pub) :=
  let l := p_limits d in
  if bool_decide (map > DHD_FLOW_PRIO_LLR_MAP) then Some (BCME_BADOPTION, d)
  else if bool_decide (map = flow_prio_map_type l) then Some (BCME_OK, d)
  else
    t ← (match p_table d with Some t => Some (take (Z.to_nat (num_h2d_rings l)) t)
                            | None => if bool_decide (num_h2d_rings l = 0) then Some [] else None end);
    if bool_decide (length t < Z.to_nat (num_h2d_rings l))%nat && negb (existsb fn_active t) then None
    else if existsb fn_active t then Some (BCME_EPERM, d)
    else if negb (inform map) then Some (BCME_ERROR, d)
    else
      let pm := if bool_decide (map = DHD_FLOW_PRIO_TID_MAP) then prio2tid else prio2ac in
      Some (BCME_OK, set_limits (mk_limits (flow_rings_inited l) (num_h2d_rings l) (max_tx_flowid l) pm map
              (dhd_get_max_multi_client_flow_rings pm (dhd_get_max_flow_rings (p_bus d)))
              (multi_client_flow_rings l)) d).

(** ** The packets that wait *)

(** From the tail of the active list: the lengths of the queues of active rings.
    A walk that ends meets a node once. *)
Fixpoint bkpq_loop (fuel : nat) (d : dhd_pub) (item qlen : Z) : option Z :=
  if dll_end ACTIVE_LIST item then Some qlen
  else match fuel with
       | O => None
       | S fuel =>
           prev ← dll_prev_p (p_active d) item;
           n ← DHD_FLOW_RING d item;
           bkpq_loop fuel d prev (if fn_active n then u32 (qlen + fq_len (fn_queue n)) else qlen)
       end.

Definition dhd_active_tx_flowring_bkpq_len (d : dhd_pub) : option Z :=
  item ← dll_tail_p (p_active d) ACTIVE_LIST;
  bkpq_loop (S (size (p_active d))) d item 0.

(** ** TDLS peers *)

Inductive tdls_reason := WLC_E_TDLS_PEER_DISCOVERED | WLC_E_TDLS_PEER_CONNECTED | WLC_E_TDLS_PEER_DISCONNECTED | TDLS_OTHER.

(** The peers without the first [da]. *)
Fixpoint remove_peer (da : ether_addr) (l : list ether_addr) : list ether_addr :=
  match l with
  | [] => []
  | a :: l => if bool_decide (da = a) then l else a :: remove_peer da l
  end.

(** [ifindex] is what dhd_ifname2idx answers for the event; [malloc] whether the
    node can be allocated. *)
Definition dhd_tdls_update_peer_info (malloc : bool) (d : dhd_pub) (reason : tdls_reason) (ifindex : Z)
    (da : ether_addr) : option (Z * dhd_pub) :=
  let p := p_peers d in
  match reason with
  | WLC_E_TDLS_PEER_DISCOVERED | TDLS_OTHER => Some (BCME_ERROR, d)
  | WLC_E_TDLS_PEER_CONNECTED =>
      if bool_decide (ifindex = DHD_BAD_IF) then Some (BCME_ERROR, d)
      else if bool_decide (da ∈ peer_list p) || negb malloc then Some (BCME_ERROR, d)
      else Some (BCME_OK, set_peers (mk_peers (u8 (tdls_peer_count p + 1)) (da :: peer_list p)) d)
  | WLC_E_TDLS_PEER_DISCONNECTED =>
      if bool_decide (ifindex = DHD_BAD_IF) then Some (BCME_ERROR, d)
      else if bool_decide (da ∈ peer_list p) then
        d ← dhd_flow_rings_delete_for_peer d (u8 ifindex) da;
        Some (BCME_OK, set_peers (mk_peers (u8 (tdls_peer_count p - 1)) (remove_peer da (peer_list p))) d)
      else Some (BCME_OK, d)
  end.

(** ** Link events: the statements of wl_process_host_event about stations and
    flow rings *)

(** WLC_E_ASSOC_IND, WLC_E_AUTH_IND and WLC_E_REASSOC_IND. *)
Definition assoc_event (d : dhd_pub) (ifindex : Z) (ea : ether_addr) : option dhd_pub :=
  '(_, s) ← dhd_findadd_sta (p_stas d) ifindex ea;
  Some (set_stas s d).

(** WLC_E_LINK with the low bits of the flags of the event. *)
Definition link_event (d : dhd_pub) (ifindex flags : Z) : option dhd_pub :=
  '(r, d) ← dhd_update_interface_link_status d (u8 ifindex) (u8 flags);
  if bool_decide (r ≠ BCME_OK) then Some d
  else if bool_decide (flags = 0) then
    d ← dhd_del_all_sta d ifindex;
    dhd_flow_rings_delete d (u8 ifindex)
  else Some d.

(** WLC_E_DEAUTH, WLC_E_DEAUTH_IND, WLC_E_DISASSOC and WLC_E_DISASSOC_IND;
    [keep]: the event of a station does not come from its access point and the
    firmware does not roam, as wl_cfg80211 says. *)
Definition disassoc_event (keep : bool) (d : dhd_pub) (ifindex : Z) (ea : ether_addr) : option dhd_pub :=
  t ← p_lkup d;
  role ← dhd_flow_rings_ifindex2role t (u8 ifindex);
  if bool_decide (role = WLC_E_IF_ROLE_STA) && keep then Some d
  else
    d ← dhd_del_sta d ifindex ea;
    if bool_decide (role = WLC_E_IF_ROLE_STA) || bool_decide (role = WLC_E_IF_ROLE_P2P_CLIENT)
    then dhd_flow_rings_delete d (u8 ifindex)
    else dhd_flow_rings_delete_for_peer d (u8 ifindex) ea.
