(* ===== verification/FlowLife.v ===== *)
(** * The life of a flow ring: the invariant of [FlowSystem] is kept by responses,
    lookups and the events of interfaces, peers and stations *)

From S2P Require Import Prelude ChanSpec Pktq PktqSpec Dll DllTheorems Id16 Id16Theorems MsgRing FlowQueue FlowQueueTheorems.
From S2P Require Import FlowData FlowTable FlowTableSpec FlowTableTheorems FlowSta FlowStaTheorems FlowRing FlowSched FlowSystem.
From S2P Require Import FlowInit.

Section Life.
Context (N n maxs : Z).
Abbreviation flow_inv := (flow_inv N n maxs).
Abbreviation finv := (finv N n maxs).

(** ** A ring is cleaned and its id given back *)

Lemma served_removed lk i v lk' j info :
  flow_removed lk i v lk' -> j ≠ v -> served lk j info -> served lk' j info.
Proof.
  intros [Hn _] Hj (s & nd & Hnd & Hid & Ht & Hd). exists s, nd. split; [|done]. apply Hn. split; [done|].
  rewrite Hid. naive_solver.
Qed.

Lemma pend_next p k m ms : pend p k = m :: ms -> pend p (S k) = ms ∧ (S k <= length (sent p))%nat.
Proof.
  unfold pend. intros H. pose proof (f_equal length H) as Hl. rewrite length_drop, length_fmap in Hl. cbn in Hl.
  split; [|lia]. replace (S k) with (k + 1)%nat by lia. by rewrite <-drop_drop, H.
Qed.

Lemma pool_release_spec p v :
  is_Some (at_ (h2d_flowrings_pool p) (DHD_FLOWRINGS_POOL_OFFSET v)) ->
  ∃ p', dhd_prot_flowrings_pool_release p v = Some p' ∧ sent p' = sent p
    ∧ length (h2d_flowrings_pool p') = length (h2d_flowrings_pool p).
Proof.
  intros [r Hr]. unfold dhd_prot_flowrings_pool_release, put_pool. rewrite Hr. cbn [mbind option_bind].
  rewrite (put_Some _ _ _ _ Hr). cbn [mbind option_bind]. eexists. split; [done|]. split; [done|]. cbn. by rewrite length_insert.
Qed.

Lemma pool_fetch_spec p v :
  is_Some (at_ (h2d_flowrings_pool p) (DHD_FLOWRINGS_POOL_OFFSET v)) ->
  ∃ r p', dhd_prot_flowrings_pool_fetch p v = Some (r, p') ∧ sent p' = sent p
    ∧ length (h2d_flowrings_pool p') = length (h2d_flowrings_pool p).
Proof.
  intros [r Hr]. unfold dhd_prot_flowrings_pool_fetch, put_pool. rewrite Hr. cbn [mbind option_bind].
  rewrite (put_Some _ _ _ _ Hr). cbn [mbind option_bind]. eexists _, _. split; [done|]. split; [done|]. cbn. by rewrite length_insert.
Qed.

Lemma pool_kept (l l' : list prot_ring) : length l' = length l -> ∀ i, is_Some (at_ l i) -> is_Some (at_ l' i).
Proof. intros E i [x Hx%at_range]. destruct (at_is_Some l' i) as [y Hy]; [by rewrite E|by exists y]. Qed.

(** A ring whose creation is not answered, or that the dongle has. *)
Lemma busy_active d k L o lk t qs A i :
  flow_inv d k L o lk t qs A -> i ∈ creates (pend (p_prot d) k) ∨ i ∈ L ->
  ∃ x l, DHD_FLOW_RING d i = Some x ∧ at_ t i = Some x ∧ at_ qs i = Some l ∧ fn_active x = true
    ∧ ring_ok (served lk) (list_to_set L) (list_to_set (creates (pend (p_prot d) k))) i x l
    ∧ fqrep (p_heap d) (fn_queue x) l ∧ good_id d i ∧ i ∈ o.
Proof.
  intros H Hi. assert (0 <= i < N) as Hr.
  { destruct Hi as [Hi|Hi]; [|by apply (iv_list _ _ _ _ _ _ _ _ _ _ _ H)].
    unfold creates in Hi. apply list_elem_of_fmap in Hi as (m & -> & Hm). apply list_elem_of_filter in Hm as [_ Hm].
    pose proof (iv_pend _ _ _ _ _ _ _ _ _ _ _ H) as Hp. rewrite Forall_forall in Hp. by eapply good_N, Hp. }
  destruct (inv_ring _ _ _ _ _ _ _ _ _ _ _ H i Hr) as (x & Hx & Ht).
  destruct (rings_at _ _ _ _ _ _ _ _ (iv_rings _ _ _ _ _ _ _ _ _ _ _ H) Ht) as (l & Hl & R & Q).
  assert (fn_active x = true) as Ha.
  { rewrite (ro_active _ _ _ _ _ _ R). pose proof (ro_status _ _ _ _ _ _ R) as Hs. case_bool_decide as Hc; [|done].
    rewrite Hc in Hs. rewrite !elem_of_list_to_set in Hs. naive_solver. }
  destruct (active_good _ _ _ _ _ _ _ _ _ _ _ H i x Ht Ha) as [Hg Ho]. by exists x, l.
Qed.

Lemma clean_inv d k L m ms :
  finv d k L -> pend (p_prot d) k = m :: ms -> is_create m = true ∨ msg_ring m ∈ L ->
  ∃ d', dhd_bus_clean_flow_ring d (msg_ring m) = Some d' ∧ finv d' (S k) (filter (λ j, j ≠ msg_ring m) L).
Proof.
  intros (o & lk & t & qs & A & H) Hpend Hm. set (i := msg_ring m) in *.
  destruct (busy_active d k L o lk t qs A i H) as (x & l & Hx & Ht & Hl & Ha & R & Q & Hg & Ho).
  { rewrite Hpend, creates_cons. destruct Hm as [Hc|?]; [left; rewrite Hc; left|by right]. }
  pose proof (pend_next _ _ _ _ Hpend) as [Hpn Hsent].
  assert (i ∉ creates ms) as Hic.
  { pose proof (iv_cr _ _ _ _ _ _ _ _ _ _ _ H) as Hnd. pose proof (iv_crL _ _ _ _ _ _ _ _ _ _ _ H i) as Hcl.
    rewrite Hpend, creates_cons in Hnd, Hcl. destruct Hm as [Hc|HL].
    - rewrite Hc in Hnd. by apply NoDup_cons in Hnd as [? _].
    - intros Hin. apply Hcl; [set_solver|done]. }
  assert (∀ j, j ≠ i -> j ∈ creates ms <-> j ∈ creates (pend (p_prot d) k)) as Hcj.
  { intros j Hj. rewrite Hpend, creates_cons. fold i. destruct (is_create m); set_solver. }
  unfold dhd_bus_clean_flow_ring. rewrite Hx. cbn [mbind option_bind].
  destruct (flush_ring_spec d x l Q) as (h' & q' & -> & Hq' & Hs & Hh). cbn [mbind option_bind].
  set (x' := set_state _ _ _). unfold put_ring. cbn [p_table set_heap]. rewrite (iv_t _ _ _ _ _ _ _ _ _ _ _ H).
  cbn [mbind option_bind]. rewrite (put_Some _ _ _ _ Ht). cbn [mbind option_bind p_active set_table].
  destruct (list_ok_remove N (p_active d) L i (iv_list _ _ _ _ _ _ _ _ _ _ _ H)) as (act & Eact & Hact);
    [by eapply good_N|].
  cbn [p_active set_heap]. destruct (dll_delete (p_active d) i) as [act1|]; [|done]. cbn [mbind option_bind] in *.
  rewrite Eact. cbn [mbind option_bind]. cbn [p_prot set_table set_heap].
  assert (fn_flowid x' = i) as -> by (by destruct R).
  destruct (pool_release_spec (p_prot d) i) as (p & -> & Hps & Hpl); [by apply (iv_pool _ _ _ _ _ _ _ _ _ _ _ H)|].
  cbn [mbind option_bind]. change (fi_ifindex (fn_info x')) with (fi_ifindex (fn_info x)).
  destruct (ro_served _ _ _ _ _ _ R Ha) as (s & nd & Hnd & Hid & _).
  assert (0 <= fi_ifindex (fn_info x) < DHD_MAX_IFS) as Hif.
  { destruct Hnd as (e & _ & He%at_range & _). rewrite (tbl_ifs _ _ (iv_tbl _ _ _ _ _ _ _ _ _ _ _ H)) in He.
    unfold DHD_MAX_IFS in *. lia. }
  unfold free_flowid. rewrite bool_decide_false by lia. cbn [p_lkup set_prot set_active set_table set_heap].
  rewrite (iv_lk _ _ _ _ _ _ _ _ _ _ _ H). cbn [mbind option_bind p_ids p_limits set_prot set_active set_table set_heap].
  destruct (dhd_flowid_free_spec n (p_ids d) lk o (multi_client_flow_rings (p_limits d)) (fi_ifindex (fn_info x)) i)
    as (ids' & lk' & multi' & -> & Hsame & Hrem & Hres); [apply H..|lia|]. cbn [mbind option_bind].
  destruct Hres as [(_ & _ & Hids & Htbl)|(Hnone & _)]; [|by destruct (Hnone s nd Hnd)].
  eexists. split; [done|].
  exists (o ∖ {[i]}), lk', (<[Z.to_nat i := x']> t), (<[Z.to_nat i := []]> qs), A.
  assert (pend p (S k) = ms) as Hpn' by (by rewrite (pend_same (p_prot d) p)).
  split; cbn; rewrite ?Hpn'; try (by apply H).
  - done.
  - rewrite length_insert. apply H.
  - rewrite (ids_same_top n _ _ Hsame). apply H.
  - eapply (rings_upd _ _ _ _ _ _ (iv_rings _ _ _ _ _ _ _ _ _ _ _ H)); [done|done| | | | | |].
    + destruct R as [R1 R2 R3 R4 R5 R6]. split; cbn; [done| | |done|done|done].
      * apply u16_range.
      * rewrite !elem_of_list_to_set, list_elem_of_filter. naive_solver.
    + cbn. destruct Hq' as [Q1 Q2 Q3 Q4]. by split.
    + intros y Hy _. by apply Hh.
    + intros y Hy. by apply elem_of_nil in Hy.
    + intros j info Hj. by apply (served_removed _ _ _ _ _ _ Hrem).
    + intros j Hj. rewrite !elem_of_list_to_set, list_elem_of_filter, Hcj by done. naive_solver.
  - done.
  - done.
  - done.
  - done.
  - by rewrite Hps.
  - pose proof (iv_pend _ _ _ _ _ _ _ _ _ _ _ H) as Hp. rewrite Hpend in Hp. by apply Forall_cons in Hp as [_ Hp].
  - pose proof (iv_cr _ _ _ _ _ _ _ _ _ _ _ H) as Hnd'. rewrite Hpend, creates_cons in Hnd'. by apply NoDup_app in Hnd' as (_ & _ & ?).
  - intros j Hj [_ HjL]%list_elem_of_filter. destruct (decide (j = i)) as [->|Hne]; [done|].
    apply (iv_crL _ _ _ _ _ _ _ _ _ _ _ H j); [by apply Hcj|done].
  - intros v Hv. apply (pool_kept _ _ Hpl). by apply (iv_pool _ _ _ _ _ _ _ _ _ _ _ H).
Qed.

(** ** Responses *)

Lemma response_ring_spec d k L o lk t qs A i x :
  flow_inv d k L o lk t qs A -> DHD_FLOW_RING d i = Some x -> good_id d i -> fn_flowid x = i ->
  response_ring d i = Some (Some x).
Proof.
  intros H Hx [_ Hg] Hid. unfold response_ring. rewrite bool_decide_false by lia. rewrite Hx. cbn [mbind option_bind].
  by rewrite Hid, bool_decide_false by naive_solver.
Qed.

(** The dongle has answered a request without effect. *)
Lemma inv_skip d k L o lk t qs A m ms :
  flow_inv d k L o lk t qs A -> pend (p_prot d) k = m :: ms -> is_create m = false -> flow_inv d (S k) L o lk t qs A.
Proof.
  intros H Hp Hm. destruct (pend_next _ _ _ _ Hp) as [Hn Hs].
  assert (creates ms = creates (pend (p_prot d) k)) as Ec by (by rewrite Hp, creates_cons, Hm).
  pose proof (iv_pend _ _ _ _ _ _ _ _ _ _ _ H) as Hf. rewrite Hp in Hf. apply Forall_cons in Hf as [_ Hf].
  destruct H. split; rewrite ?Hn, ?Ec; done.
Qed.

(** The request at the head, and the ring it names. *)
Lemma head_request d k L o lk t qs A m ms :
  flow_inv d k L o lk t qs A -> pend (p_prot d) k = m :: ms ->
  good_id d (msg_ring m) ∧ ∃ x, DHD_FLOW_RING d (msg_ring m) = Some x ∧ at_ t (msg_ring m) = Some x
    ∧ response_ring d (msg_ring m) = Some (Some x).
Proof.
  intros H Hp. pose proof (iv_pend _ _ _ _ _ _ _ _ _ _ _ H) as Hf. rewrite Hp in Hf. apply Forall_cons in Hf as [Hg _].
  split; [done|]. destruct (inv_ring _ _ _ _ _ _ _ _ _ _ _ H (msg_ring m)) as (x & Hx & Ht); [by eapply good_N|].
  exists x. split; [done|]. split; [done|]. eapply response_ring_spec; [done..|].
  destruct (rings_at _ _ _ _ _ _ _ _ (iv_rings _ _ _ _ _ _ _ _ _ _ _ H) Ht) as (l & _ & R & _). apply R.
Qed.

Lemma delete_response_inv d k L m ms status :
  finv d k L -> pend (p_prot d) k = m :: ms -> is_create m = false -> (status = BCME_OK -> msg_ring m ∈ L) ->
  ∃ d', dhd_bus_flow_ring_delete_response d (msg_ring m) status = Some d'
    ∧ finv d' (S k) (if bool_decide (status = BCME_OK) then filter (λ j, j ≠ msg_ring m) L else L).
Proof.
  intros Hf Hp Hm Hs. pose proof Hf as (o & lk & t & qs & A & H). unfold dhd_bus_flow_ring_delete_response.
  destruct (head_request _ _ _ _ _ _ _ _ _ _ H Hp) as (Hg & x & Hx & Ht & ->). cbn [mbind option_bind].
  case_bool_decide as Hst.
  - rewrite bool_decide_false by done. exists d. split; [done|]. exists o, lk, t, qs, A. by eapply inv_skip.
  - rewrite bool_decide_true by done. eapply clean_inv; [done|done|right; auto].
Qed.

Lemma flush_response_inv d k L m ms status :
  finv d k L -> pend (p_prot d) k = m :: ms -> is_create m = false -> (status = BCME_OK -> msg_ring m ∈ L) ->
  ∃ d', dhd_bus_flow_ring_flush_response d (msg_ring m) status = Some d' ∧ finv d' (S k) L.
Proof.
  intros Hf Hp Hm Hs. pose proof Hf as (o & lk & t & qs & A & H). unfold dhd_bus_flow_ring_flush_response.
  pose proof (inv_skip _ _ _ _ _ _ _ _ _ _ H Hp Hm) as H1.
  case_bool_decide as Hst; [exists d; split; [done|]; by exists o, lk, t, qs, A|].
  destruct (head_request _ _ _ _ _ _ _ _ _ _ H Hp) as (Hg & x & Hx & Ht & ->). cbn [mbind option_bind].
  specialize (Hs Hst). destruct (busy_active _ _ _ _ _ _ _ _ _ H1 (or_intror Hs))
    as (x0 & l & Hx0 & _ & Hl & Ha & R & Q & _ & _). rewrite Hx in Hx0. injection Hx0 as <-.
  replace (put_ring d) with (put_ring (set_heap (p_heap d) d)) by (by rewrite set_heap_id).
  destruct (inv_put N n maxs d (S k) L o lk t qs A (msg_ring m) x (set_status FLOW_RING_STATUS_OPEN x) (p_heap d) qs H1 Ht)
    as [E H2].
  - eapply (rings_upd_node _ _ _ _ _ _ (iv_rings _ _ _ _ _ _ _ _ _ _ _ H1)); [done|done|done|].
    destruct R as [R1 R2 R3 R4 R5 R6]. split; cbn; [done|done|by apply elem_of_list_to_set|by rewrite Ha|by intros [?|?]|done].
  - rewrite E. eexists. split; [done|]. by exists o, lk, (<[Z.to_nat (msg_ring m) := set_status FLOW_RING_STATUS_OPEN x]> t), qs, A.
Qed.

Section Transmit.
Context {W : Type} (dhd_prot_txdata : W -> pkt -> Z -> Z * W).

(** The dongle has made the ring. *)
Lemma opened_inv d k L o lk t qs A m ms x act :
  flow_inv d k L o lk t qs A -> pend (p_prot d) k = m :: ms -> is_create m = true -> at_ t (msg_ring m) = Some x ->
  list_ok N act (msg_ring m :: L) ->
  flow_inv (set_active act (set_table (Some (<[Z.to_nat (msg_ring m) := set_status FLOW_RING_STATUS_OPEN x]> t)) d))
    (S k) (msg_ring m :: L) o lk (<[Z.to_nat (msg_ring m) := set_status FLOW_RING_STATUS_OPEN x]> t) qs A.
Proof.
  intros H Hp Hm Ht Hact. set (i := msg_ring m) in *. destruct (pend_next _ _ _ _ Hp) as [Hn Hs].
  assert (creates (pend (p_prot d) k) = i :: creates ms) as Ec by (by rewrite Hp, creates_cons, Hm).
  pose proof (iv_cr _ _ _ _ _ _ _ _ _ _ _ H) as Hnd. rewrite Ec in Hnd. apply NoDup_cons in Hnd as [Hni Hnd].
  pose proof (iv_crL _ _ _ _ _ _ _ _ _ _ _ H) as HcL. rewrite Ec in HcL.
  destruct (busy_active d k L o lk t qs A i H) as (x0 & l & _ & Hx0 & Hl & Ha & R & Q & _ & _); [left; rewrite Ec; left|].
  rewrite Ht in Hx0. injection Hx0 as <-.
  pose proof (iv_pend _ _ _ _ _ _ _ _ _ _ _ H) as Hf. rewrite Hp in Hf. apply Forall_cons in Hf as [_ Hf].
  split; cbn; rewrite ?Hn; try (by apply H); try done.
  - rewrite length_insert. apply H.
  - replace qs with (<[Z.to_nat i := l]> qs) by (apply list_insert_id; by apply at_Some in Hl as [_ ->]).
    eapply (rings_upd _ _ _ _ _ _ (iv_rings _ _ _ _ _ _ _ _ _ _ _ H)); [done|done| |done|done|by left|by auto|].
    + destruct R as [R1 R2 R3 R4 R5 R6]. split; cbn; [done|done|set_solver|by rewrite Ha|by intros [?|?]|done].
    + intros j Hj. rewrite Ec. set_solver.
  - intros j Hj [->|HjL]%elem_of_cons; [done|]. apply (HcL j); [by right|done].
Qed.

Lemma create_response_inv w d k L m ms status :
  finv d k L -> pend (p_prot d) k = m :: ms -> is_create m = true -> tid_ok d (msg_ring m) ->
  ∃ w' d', dhd_bus_flow_ring_create_response dhd_prot_txdata w d (msg_ring m) status = Some (w', d')
    ∧ finv d' (S k) (if bool_decide (status = BCME_OK) then msg_ring m :: L else L).
Proof.
  intros Hf Hp Hm Htid. pose proof Hf as (o & lk & t & qs & A & H). unfold dhd_bus_flow_ring_create_response.
  destruct (head_request _ _ _ _ _ _ _ _ _ _ H Hp) as (Hg & x & Hx & Ht & ->). cbn [mbind option_bind].
  assert (msg_ring m ∉ L) as HiL.
  { apply (iv_crL _ _ _ _ _ _ _ _ _ _ _ H). rewrite Hp, creates_cons, Hm. left. }
  case_bool_decide as Hst.
  - rewrite bool_decide_false by done. destruct (clean_inv d k L m ms Hf Hp) as (d' & -> & H'); [by left|].
    cbn [mbind option_bind]. exists w, d'. split; [done|]. by rewrite filter_ne_id in H'.
  - rewrite bool_decide_true by done. unfold put_ring. rewrite (iv_t _ _ _ _ _ _ _ _ _ _ _ H). cbn [mbind option_bind].
    rewrite (put_Some _ _ _ _ Ht). cbn [mbind option_bind p_active set_table].
    destruct (list_ok_prepend N (p_active d) L (msg_ring m) (iv_list _ _ _ _ _ _ _ _ _ _ _ H)) as (act & -> & Hact);
      [by eapply good_N|done|]. cbn [mbind option_bind].
    pose proof (opened_inv _ _ _ _ _ _ _ _ _ _ x act H Hp Hm Ht Hact) as H1.
    destruct (schedule_inv N n maxs dhd_prot_txdata w _ _ _ _ _ _ _ _ (msg_ring m) 0 H1)
      as (r & e & w' & d' & t' & qs' & -> & H2 & _).
    { by eapply good_N. }
    { intros y Hy. unfold DHD_FLOW_RING in Hy. cbn [p_table set_table set_active mbind option_bind] in Hy.
      rewrite (at_insert_eq _ _ _ _ Ht) in Hy. injection Hy as <-. exact (Htid x Hx). }
    cbn [mbind option_bind]. exists w', d'. split; [done|]. by exists o, lk, t', qs', A.
Qed.
End Transmit.

(** ** Looking a flow up *)

Lemma assoc_total s A j ea :
  stas_rep maxs s A -> int j -> ∃ b, dhd_sta_associated s j ea = Some b.
Proof.
  intros H Hj. unfold dhd_sta_associated, dhd_find_sta.
  destruct (sr_get_abs maxs s A j H Hj) as [(f & a & -> & _ & _ & _ & Hf)|[-> _]]; cbn [mbind option_bind]; [|by eexists].
  destruct (__dhd_find_sta_spec s j f a ea Hf) as (r & -> & _). cbn [mbind option_bind]. by eexists.
Qed.

Lemma htput_total lk o s A j ea :
  tbl_wf lk o -> stas_rep maxs s A -> 0 <= j < DHD_MAX_IFS -> ∃ b, dhd_is_sta_htput lk s j ea = Some b.
Proof.
  intros Hw H Hj. unfold dhd_is_sta_htput, DHD_IF_ROLE. destruct (tbl_at lk o j Hw Hj) as [e ->]. cbn.
  case_bool_decide; [by eexists|]. assert (int j) as Hi by (unfold int, DHD_MAX_IFS in *; lia).
  destruct (sr_get_abs maxs s A j H Hi) as [(f & a & -> & _ & _ & _ & Hf)|[-> _]]; cbn [mbind option_bind]; [|by eexists].
  destruct (__dhd_find_sta_spec s j f a ea Hf) as (r & -> & _ & Hr). cbn [mbind option_bind].
  destruct r as [i|]; [|by eexists]. destruct Hr as (k & c & _ & Hi' & Hc).
  destruct (Forall2_lookup_lr _ _ _ _ _ _ Hf Hi' Hc) as (x & -> & _). cbn [mbind option_bind]. by eexists.
Qed.

(** Changing only the ids and the counters. *)
Lemma inv_ids d k L o lk t qs A ids :
  flow_inv d k L o lk t qs A -> ids_rep n ids o -> ids_same ids (p_ids d) ->
  flow_inv (set_lkup (Some lk) (set_ids ids d)) k L o lk t qs A.
Proof. intros H Hi Hs. destruct H. split; cbn; try done. by rewrite (ids_same_top n _ _ Hs). Qed.

(** The flow [id] has been added to the table, its ring is not in use yet. *)
Record added (d d' : dhd_pub) (k : nat) (L : list Z) (o : gset Z) (lk' : list if_flow_lkup) (t : list flow_ring_node)
    (qs : list (list pkt)) (A : list (option absif)) (id : Z) (info : flow_info) : Prop := {
  ad_old : ∃ lk, flow_inv d k L o lk t qs A ∧ ∀ j i, j ≠ id -> served lk j i -> served lk' j i;
  ad_t : p_table d' = p_table d;
  ad_lim : num_h2d_rings (p_limits d') = num_h2d_rings (p_limits d) ∧ max_tx_flowid (p_limits d') = max_tx_flowid (p_limits d);
  ad_heap : p_heap d' = p_heap d; ad_active : p_active d' = p_active d; ad_prot : p_prot d' = p_prot d;
  ad_stas : p_stas d' = p_stas d;
  ad_top : ids_top n (p_ids d') = ids_top n (p_ids d);
  ad_lk : p_lkup d' = Some lk'; ad_ids : ids_rep n (p_ids d') ({[id]} ∪ o); ad_tbl : tbl_wf lk' ({[id]} ∪ o);
  ad_new : id ∉ o; ad_good : good_id d id; ad_served : ∀ sa, served lk' id (mk_fi (fi_tid info) (fi_ifindex info) sa (fi_da info))
}.

Lemma lookup_new_id_inv malloc d k L o lk t qs A ifindex prio da :
  flow_inv d k L o lk t qs A -> 0 <= ifindex < DHD_MAX_IFS -> 0 <= prio < 256 ->
  dhd_flowid_find (p_peers d) lk ifindex prio da = Some FLOWID_INVALID ->
  ∃ r d', lookup_new_id malloc d lk ifindex prio da = Some (r, d')
    ∧ match r with
      | inl _ => finv d' k L
      | inr id => ∃ lk', added d d' k L o lk' t qs A id (mk_fi prio ifindex (mk_ea 0 0 0 0 0 0) da)
      end.
Proof.
  intros H Hi Hp Hnone. unfold lookup_new_id.
  pose proof (iv_tbl _ _ _ _ _ _ _ _ _ _ _ H) as Hw. destruct (tbl_at lk o ifindex Hw Hi) as [e He]. rewrite He.
  cbn [mbind option_bind]. destruct (if_status e); cbn [negb]; [|by exists (inl BCME_ERROR), d; split; [|exists o, lk, t, qs, A]].
  assert (int ifindex) as Hint by (unfold int, DHD_MAX_IFS in *; lia).
  pose proof (iv_stas _ _ _ _ _ _ _ _ _ _ _ H) as Hst. cbv zeta.
  destruct (assoc_total (p_stas d) A ifindex da Hst Hint) as [b1 Eb1].
  destruct (htput_total lk o (p_stas d) A ifindex da Hw Hst Hi) as [b2 Eb2].
  assert (∃ b, (if DHD_IF_ROLE_MULTI_CLIENT (if_role e) && negb (ETHER_ISMULTI da)
                then dhd_sta_associated (p_stas d) ifindex da else Some true) = Some b) as [c1 ->] by (destruct (_ && _); eauto).
  cbn [mbind option_bind]. destruct c1; cbn [negb]; [|by exists (inl BCME_ERROR), d; split; [|exists o, lk, t, qs, A]].
  assert (∃ b, (if DHD_IF_ROLE_MULTI_CLIENT (if_role e) && negb (ETHER_ISMULTI da)
                then dhd_is_sta_htput lk (p_stas d) ifindex da else Some false) = Some b) as [c2 ->] by (destruct (_ && _); eauto).
  cbn [mbind option_bind].
  destruct (dhd_flowid_alloc_spec malloc c2 (p_peers d) n (p_ids d) lk o ifindex prio da (max_tx_flowid (p_limits d)))
    as (v & ids' & lk' & -> & Hsame & Hr); [apply H..|done|done|apply H| |].
  { eapply find_sta_slot_free; [done| |lia|done]. intros v Hv%(ids_rep_valid n (p_ids d)); [|apply H].
    eapply valid_not_invalid; [apply H|done]. }
  cbn [mbind option_bind]. destruct Hr as [(-> & -> & Hids & _)|(Hv & Hvo & _ & Hids & Hw' & Hadd)].
  - rewrite bool_decide_true by done. eexists _, _. split; [done|]. exists o, lk, t, qs, A. by apply inv_ids.
  - rewrite bool_decide_false by (eapply valid_not_invalid; [apply H|done]).
    eexists _, _. split; [done|]. cbv beta iota. exists lk'.
    destruct Hadd as (e1 & l & He1 & Hl & Elk). set (s := flow_slot _ _ _ _) in *. rewrite He in He1. injection He1 as <-.
    assert (∀ j s' nd, node_at lk j s' nd -> node_at lk' j s' nd) as Hmono.
    { intros j s' nd Hnd. rewrite Elk. apply (node_at_slot lk ifindex e s l _ j s' nd He Hl).
      destruct (decide (j = ifindex ∧ s' = s)) as [[-> ->]|Hne]; [left|by right]. split; [done|]. split; [done|].
      destruct Hnd as (e2 & l2 & He2 & Hl2 & Hin). rewrite He in He2. injection He2 as <-. rewrite Hl in Hl2. injection Hl2 as <-.
      apply elem_of_app. by left. }
    assert (good_id d v) as Hg.
    { pose proof (iv_top _ _ _ _ _ _ _ _ _ _ _ H). destruct Hv as [Hv1 Hv2]. unfold good_id. lia. }
    assert (∀ sa, served lk' v (mk_fi prio ifindex sa da)) as Hsv.
    { intros sa. exists s, (mk_fh v (mk_fi prio ifindex (mk_ea 0 0 0 0 0 0) da)). cbn. split; [|done]. rewrite Elk.
      apply (node_at_slot lk ifindex e s l _ ifindex s _ He Hl). left. split; [done|]. split; [done|].
      apply elem_of_app. right. by apply list_elem_of_singleton. }
    pose proof (ids_same_top n _ _ Hsame) as Htop. clear -H Htop Hids Hw' Hvo Hg Hsv Hmono.
    destruct (DHD_IF_ROLE_MULTI_CLIENT (if_role e)); (split; cbn; try done);
      (exists lk; split; [done|]; intros j i _ (s' & nd & Hnd & Hrest); exists s', nd; split; [by apply Hmono|done]).
Qed.

(** The state once the ring of the new flow has been stored as [x'], with [p'] in
    place of the protocol's state. *)
Lemma added_inv d d' k L o lk' t qs A id info x' p' :
  added d d' k L o lk' t qs A id info ->
  (k <= length (sent p'))%nat -> Forall (λ m, good_id d (msg_ring m)) (pend p' k) ->
  length (h2d_flowrings_pool p') = length (h2d_flowrings_pool (p_prot d)) ->
  (creates (pend p' k) = creates (pend (p_prot d) k) ∧ fn_status x' = FLOW_RING_STATUS_CLOSED ∧ fn_active x' = false
   ∨ creates (pend p' k) = creates (pend (p_prot d) k) ++ [id] ∧ fn_status x' = FLOW_RING_STATUS_CREATE_PENDING
     ∧ fn_active x' = true ∧ fi_ifindex (fn_info x') = fi_ifindex info ∧ fi_tid (fn_info x') = fi_tid info
     ∧ fi_da (fn_info x') = fi_da info) ->
  (∀ x, at_ t id = Some x -> fn_flowid x' = fn_flowid x ∧ fn_queue x' = fn_queue x) ->
  flow_inv (set_table (Some (<[Z.to_nat id := x']> t)) (set_prot p' d')) k L ({[id]} ∪ o) lk' (<[Z.to_nat id := x']> t) qs A.
Proof.
  intros [Ho At Alim Ah Aa Ap As Atop Alk Aids Atbl Anew Ag Asrv] Hk Hp Hpl Hc Hx'. destruct Ho as (lk & H & Hs).
  destruct (inv_ring _ _ _ _ _ _ _ _ _ _ _ H id) as (x & Hx & Ht); [by eapply good_N|].
  destruct (rings_at _ _ _ _ _ _ _ _ (iv_rings _ _ _ _ _ _ _ _ _ _ _ H) Ht) as (l & Hl & R & Q).
  destruct (Hx' x Ht) as [Hid Hq]. destruct Alim as [Al1 Al2].
  assert (fn_status x = FLOW_RING_STATUS_CLOSED) as Hcl.
  { destruct (decide (fn_status x = FLOW_RING_STATUS_CLOSED)) as [?|Hne]; [done|]. exfalso. apply Anew.
    destruct (active_good _ _ _ _ _ _ _ _ _ _ _ H id x Ht) as [_ ?]; [|done].
    rewrite (ro_active _ _ _ _ _ _ R). by rewrite bool_decide_false. }
  pose proof (ro_status _ _ _ _ _ _ R) as Hst. rewrite Hcl in Hst. rewrite !elem_of_list_to_set in Hst. destruct Hst as [HnC HnL].
  assert (∀ j, j ≠ id -> j ∈ creates (pend p' k) <-> j ∈ creates (pend (p_prot d) k)) as HC.
  { intros j Hj. destruct Hc as [[-> _]|[-> _]]; [done|]. set_solver. }
  split; cbn; try done.
  - rewrite length_insert. apply H.
  - rewrite Al1. apply H.
  - apply H.
  - rewrite Atop, Al2. apply H.
  - rewrite Al2. apply H.
  - rewrite Ah. replace qs with (<[Z.to_nat id := l]> qs) at 1 by (apply list_insert_id; by apply at_Some in Hl as [_ ->]).
    eapply (rings_upd _ _ _ _ _ _ (iv_rings _ _ _ _ _ _ _ _ _ _ _ H)); [done|done| |by rewrite Hq|done|by left|done|].
    + destruct R as [R1 R2 R3 R4 R5 R6]. rewrite R5 by (by left). split; [congruence|by rewrite Hq| | |done|].
      * destruct Hc as [(Ec & -> & _)|(Ec & -> & _)]; rewrite Ec, ?elem_of_list_to_set; [done|set_solver].
      * by destruct Hc as [(_ & -> & ->)|(_ & -> & -> & _)].
      * intros Ha. destruct Hc as [(_ & _ & Hc)|(_ & _ & _ & E1 & E2 & E3)]; [congruence|].
        specialize (Asrv (fi_sa (fn_info x'))). destruct (fn_info x') as [? ? ? ?]. cbn in *. by subst.
    + intros j Hj. split; [done|]. rewrite !elem_of_list_to_set. by apply HC.
  - rewrite Aa. apply H.
  - unfold good_id. cbn. rewrite Al2. exact Hp.
  - pose proof (iv_cr _ _ _ _ _ _ _ _ _ _ _ H). destruct Hc as [[-> _]|[-> _]]; [done|].
    apply NoDup_app. split; [done|]. split; [|apply NoDup_singleton]. by intros j Hj ->%list_elem_of_singleton.
  - intros j Hj. destruct (decide (j = id)) as [->|Hne]; [done|].
    apply (iv_crL _ _ _ _ _ _ _ _ _ _ _ H). by apply HC.
  - intros v Hv. apply (pool_kept _ _ Hpl), (iv_pool _ _ _ _ _ _ _ _ _ _ _ H). unfold good_id in *. cbn in Hv. by rewrite Al2 in Hv.
  - apply H.
  - rewrite As. apply H.
Qed.

Lemma lookup_create_inv d d' k L o lk' t qs A id ifindex prio sa da :
  added d d' k L o lk' t qs A id (mk_fi prio ifindex (mk_ea 0 0 0 0 0 0) da) ->
  ∃ r f d'', lookup_create d' id ifindex prio sa da = Some (r, f, d'') ∧ finv d'' k L.
Proof.
  intros Had. pose proof Had as [(lk & H & _) At Alim Ah Aa Ap As Atop Alk Aids Atbl Anew Ag Asrv].
  destruct (inv_ring _ _ _ _ _ _ _ _ _ _ _ H id) as (x & Hx & Ht); [by eapply good_N|].
  destruct (rings_at _ _ _ _ _ _ _ _ (iv_rings _ _ _ _ _ _ _ _ _ _ _ H) Ht) as (l & _ & R & _).
  pose proof (iv_t _ _ _ _ _ _ _ _ _ _ _ H) as Et. pose proof (iv_sent _ _ _ _ _ _ _ _ _ _ _ H) as Hk.
  pose proof (iv_pend _ _ _ _ _ _ _ _ _ _ _ H) as Hpend.
  unfold lookup_create, DHD_FLOW_RING, put_ring. rewrite At, Et. cbn [mbind option_bind]. rewrite Ht. cbn [mbind option_bind].
  set (x1 := set_state _ _ _). rewrite (put_Some _ _ _ _ Ht). cbn [mbind option_bind].
  unfold dhd_bus_flow_ring_create_request, DHD_FLOW_RING. cbn [p_table set_table mbind option_bind].
  rewrite (at_insert_eq _ _ _ _ Ht). cbn [mbind option_bind p_prot set_table]. rewrite Ap.
  unfold dhd_prot_flow_ring_create. assert (fn_flowid x1 = id) as Hid by apply R. rewrite Hid.
  destruct (pool_fetch_spec (p_prot d) id) as (rg & p1 & -> & Hs1 & Hl1); [by apply (iv_pool _ _ _ _ _ _ _ _ _ _ _ H)|].
  cbn [mbind option_bind].
  match goal with |- context [post_ctrl p1 ?m] => set (msg := m) end.
  destruct (post_ctrl_spec p1 msg) as (ok & p2 & -> & Hl2 & Hs2). unfold put_ring. destruct ok.
  - cbn [mbind option_bind p_table set_prot set_table].
    rewrite (put_Some _ _ _ _ (at_insert_eq _ _ _ _ Ht)). cbn [mbind option_bind].
    rewrite bool_decide_false by (by intros []). cbn [mbind option_bind]. eexists _, _, _. split; [done|].
    rewrite list_insert_insert_eq. eexists _, _, _, qs, A. eapply (added_inv d d'); [exact Had| | | | |].
    + destruct Hs2 as (a & b & c & Hs2). rewrite Hs2, length_app, Hs1. lia.
    + destruct Hs2 as (a & b & c & Hs2). rewrite Hs1 in Hs2. rewrite (pend_sent _ _ _ _ _ Hk Hs2). apply Forall_app. split; [done|].
      by apply Forall_singleton.
    + by rewrite Hl2, Hl1.
    + right. destruct Hs2 as (a & b & c & Hs2). rewrite Hs1 in Hs2. rewrite (pend_sent _ _ _ _ _ Hk Hs2), creates_app. done.
    + intros y Hy. rewrite Ht in Hy. by injection Hy as <-.
  - destruct (pool_release_spec p2 id) as (p3 & -> & Hs3 & Hl3).
    { rewrite Hl2. apply (pool_kept _ _ Hl1). by apply (iv_pool _ _ _ _ _ _ _ _ _ _ _ H). }
    cbn [mbind option_bind p_table set_prot set_table].
    rewrite (put_Some _ _ _ _ (at_insert_eq _ _ _ _ Ht)). cbn [mbind option_bind].
    assert (bool_decide (BCME_NOMEM ≠ BCME_OK) = true) as Eb by done. rewrite !Eb. cbn [mbind option_bind].
    cbn [p_table set_prot set_table mbind option_bind]. rewrite list_insert_insert_eq.
    rewrite (at_insert_eq _ _ _ _ Ht). cbn [mbind option_bind].
    rewrite (put_Some _ _ _ _ (at_insert_eq _ _ _ _ Ht)). cbn [mbind option_bind]. eexists _, _, _. split; [done|].
    rewrite list_insert_insert_eq. eexists _, _, _, qs, A.
    assert (pend p3 k = pend (p_prot d) k) as Ep by (apply pend_same; congruence).
    eapply (added_inv d d' _ _ _ _ _ _ _ _ _ _ p3); [exact Had|congruence|by rewrite Ep|congruence|left; by rewrite Ep|].
    intros y Hy. rewrite Ht in Hy. by injection Hy as <-.
Qed.

Lemma lookup_inv malloc d k L ifindex prio sa da :
  finv d k L -> 0 <= ifindex -> 0 <= prio < 256 ->
  ∃ r f d', dhd_flowid_lookup malloc d ifindex prio sa da = Some (r, f, d') ∧ finv d' k L.
Proof.
  intros Hf Hi Hp. pose proof Hf as (o & lk & t & qs & A & H). unfold dhd_flowid_lookup.
  rewrite (iv_t _ _ _ _ _ _ _ _ _ _ _ H). case_bool_decide; [by eexists _, _, d|].
  rewrite (iv_lk _ _ _ _ _ _ _ _ _ _ _ H). cbn [mbind option_bind]. pose proof (iv_tbl _ _ _ _ _ _ _ _ _ _ _ H) as Hw.
  destruct (dhd_flowid_find_total (p_peers d) lk o ifindex prio da Hw Hi Hp) as (v & Ev & Hv). rewrite Ev. cbn [mbind option_bind].
  assert (v = FLOWID_INVALID ∨ good_id d v) as Hg.
  { destruct Hv as [?|(e & nd & _ & Hnd & <- & _)]; [by left|right]. eapply out_good; [exact H|]. by eapply tbl_node_out. }
  destruct (bool_decide (v = FLOWID_INVALID) || bool_decide (v > max_tx_flowid (p_limits d))) eqn:Eb.
  - assert (v = FLOWID_INVALID) as ->.
    { destruct Hg as [?|[_ Hg]]; [done|]. apply orb_true_iff in Eb as [Eb|Eb]; apply bool_decide_eq_true in Eb; [done|lia]. }
    destruct (lookup_new_id_inv malloc d k L o lk t qs A ifindex prio da H) as (r & d' & -> & Hr); [lia|done|done|].
    cbn [mbind option_bind]. destruct r as [ret|id]; [by eexists _, _, d'|]. destruct Hr as [lk' Had].
    by eapply lookup_create_inv.
  - rewrite orb_false_iff, !bool_decide_eq_false in Eb. destruct Eb as [Eb1 Eb2]. destruct Hg as [?|Hg]; [done|].
    destruct (inv_ring _ _ _ _ _ _ _ _ _ _ _ H v) as (x & -> & _); [by eapply good_N|]. cbn [mbind option_bind].
    destruct (_ || _); by eexists _, _, d.
Qed.
End Life.

(** * The flow rings as a system: events and initialisation keep the invariant *)

Section Events.
Context (N n maxs : Z).
Abbreviation flow_inv := (flow_inv N n maxs).
Abbreviation finv := (finv N n maxs).

(** ** The loops over the rings *)

Lemma each_ring_inv test (f : dhd_pub -> Z -> option dhd_pub) k L m : ∀ id d,
  (∀ d i x, finv d k L -> DHD_FLOW_RING d i = Some x -> test x = true -> ∃ d', f d i = Some d' ∧ finv d' k L) ->
  finv d k L -> 0 <= id -> id + Z.of_nat m <= N -> ∃ d', each_ring test f m id d = Some d' ∧ finv d' k L.
Proof.
  induction m as [|m IH]; intros id d Hf H Hid Hm; cbn [each_ring]; [by exists d|].
  pose proof H as (o & lk & t & qs & A & H0). destruct (inv_ring _ _ _ _ _ _ _ _ _ _ _ H0 id) as (x & Hx & _); [lia|].
  rewrite Hx. cbn [mbind option_bind]. destruct (test x) eqn:Et.
  - destruct (Hf d id x H Hx Et) as (d' & -> & H'). cbn [mbind option_bind]. apply IH; [done|done|lia|lia].
  - cbn [mbind option_bind]. apply IH; [done|done|lia|lia].
Qed.

Lemma for_rings_inv test f k L d ifindex :
  (∀ d i x, finv d k L -> DHD_FLOW_RING d i = Some x -> test x = true -> ∃ d', f d i = Some d' ∧ finv d' k L) ->
  finv d k L -> ∃ d', for_rings test f d ifindex = Some d' ∧ finv d' k L.
Proof.
  intros Hf H. unfold for_rings. case_bool_decide; [by exists d|]. pose proof H as (o & lk & t & qs & A & Hv).
  rewrite (iv_t _ _ _ _ _ _ _ _ _ _ _ Hv). apply each_ring_inv; [done|done|lia|].
  rewrite (iv_num _ _ _ _ _ _ _ _ _ _ _ Hv). pose proof (iv_max _ _ _ _ _ _ _ _ _ _ _ Hv) as Hm.
  pose proof (iv_top _ _ _ _ _ _ _ _ _ _ _ Hv) as Ht. pose proof (iv_n _ _ _ _ _ _ _ _ _ _ _ Hv) as Hn.
  unfold ids_top in Ht. destruct (has_htput _); idlia.
Qed.

Lemma open_on_true i x : open_on i x = true -> fn_active x = true ∧ fn_status x = FLOW_RING_STATUS_OPEN.
Proof. unfold open_on. rewrite !andb_true_iff, !bool_decide_eq_true. naive_solver. Qed.

Lemma rings_delete_inv d k L ifindex : finv d k L -> ∃ d', dhd_flow_rings_delete d ifindex = Some d' ∧ finv d' k L.
Proof.
  apply for_rings_inv. intros d0 i x H Hx [Ha _]%open_on_true.
  destruct (delete_request_inv N n maxs d0 k L i x H Hx Ha) as (r & d' & -> & H'). by exists d'.
Qed.

Lemma rings_flush_inv d k L ifindex : finv d k L -> ∃ d', dhd_flow_rings_flush d ifindex = Some d' ∧ finv d' k L.
Proof.
  apply for_rings_inv. intros d0 i x H Hx [_ Ho]%open_on_true.
  destruct (flush_request_inv N n maxs d0 k L i x H Hx Ho) as (r & d' & -> & H'). by exists d'.
Qed.

Lemma delete_for_peer_inv d k L ifindex addr :
  finv d k L -> ∃ d', dhd_flow_rings_delete_for_peer d ifindex addr = Some d' ∧ finv d' k L.
Proof.
  apply for_rings_inv. intros d0 i x H Hx Ht.
  assert (fn_active x = true) as Ha by (unfold of_peer in Ht; rewrite !andb_true_iff in Ht; naive_solver).
  destruct (delete_request_inv N n maxs d0 k L i x H Hx Ha) as (r & d' & -> & H'). by exists d'.
Qed.

(** ** Changes that the rings do not depend on *)

Lemma inv_multi d k L o lk t qs A m :
  flow_inv d k L o lk t qs A -> flow_inv (set_limits (set_multi_client m (p_limits d)) d) k L o lk t qs A.
Proof. intros H. destruct H. by split. Qed.

Lemma finv_peers d k L x : finv d k L -> finv (set_peers x d) k L.
Proof. intros (o & lk & t & qs & A & H). exists o, lk, t, qs, A. destruct H. by split. Qed.

Lemma finv_stas d k L s A' : finv d k L -> stas_rep maxs s A' -> finv (set_stas s d) k L.
Proof. intros (o & lk & t & qs & A & H) Hs. exists o, lk, t, qs, A'. destruct H. by split. Qed.

Lemma multi_inv d k L ifindex b : finv d k L -> ∃ d', dhd_update_multicilent_flow_rings d ifindex b = Some d' ∧ finv d' k L.
Proof.
  apply for_rings_inv. intros d0 i x (o & lk & t & qs & A & H) _ _. eexists. split; [done|]. exists o, lk, t, qs, A.
  unfold count_multi. destruct b; case_bool_decide; first [by apply inv_multi|by destruct d0].
Qed.

(** ** The entry of an interface *)

Lemma node_at_entry lk i e e' j s nd :
  at_ lk i = Some e -> fl_hash e' = fl_hash e -> node_at (<[Z.to_nat i := e']> lk) j s nd <-> node_at lk j s nd.
Proof.
  intros He Hh. pose proof (at_range _ _ _ He). unfold node_at. destruct (decide (j = i)) as [->|Hne].
  - rewrite (at_insert_eq _ _ _ _ He), He. split.
    + intros (e1 & l & [= <-] & Hl & Hn). exists e, l. by rewrite <-Hh.
    + intros (e1 & l & [= <-] & Hl & Hn). exists e', l. by rewrite Hh.
  - by rewrite at_insert_ne by (done || lia).
Qed.

Lemma inv_entry d k L i e e' lk :
  finv d k L -> p_lkup d = Some lk -> at_ lk i = Some e -> fl_hash e' = fl_hash e ->
  ∃ d', set_entry d lk i e' = Some d' ∧ finv d' k L ∧ p_lkup d' = Some (<[Z.to_nat i := e']> lk).
Proof.
  intros (o & lk0 & t & qs & A & H) Hlk He Hh. pose proof (iv_lk _ _ _ _ _ _ _ _ _ _ _ H) as E. rewrite Hlk in E.
  injection E as <-. unfold set_entry. rewrite (put_Some _ _ _ _ He). cbn [mbind option_bind]. eexists. split; [done|].
  split; [|done]. exists o, (<[Z.to_nat i := e']> lk), t, qs, A.
  pose proof (iv_rings _ _ _ _ _ _ _ _ _ _ _ H) as R. pose proof (iv_tbl _ _ _ _ _ _ _ _ _ _ _ H) as Hw.
  assert (all_ids (<[Z.to_nat i := e']> lk) ≡ₚ all_ids lk) as Hall.
  { destruct (all_ids_if lk i e He) as (r & H1 & H2). rewrite (H2 e'), H1. unfold if_ids. by rewrite Hh. }
  destruct H. split; cbn; try done.
  - apply (rings_more_served _ _ _ _ _ _ R). intros j info (s & nd & Hnd & Hr). exists s, nd.
    split; [|done]. by apply (node_at_entry lk i e e').
  - split.
    + rewrite length_insert. apply Hw.
    + apply (Forall_insert _ _ _ _ (tbl_slots _ _ Hw)). rewrite Hh. by eapply tbl_at_slots.
    + rewrite Hall. apply Hw.
    + rewrite <-(tbl_out _ _ Hw). apply leibniz_equiv. by rewrite Hall.
    + intros j s nd Hnd. apply (node_at_entry lk i e e' j s nd He Hh) in Hnd. by apply (tbl_if _ _ Hw j s).
Qed.

Lemma finv_entry d k L i :
  finv d k L -> 0 <= i < DHD_MAX_IFS -> ∃ lk e, p_lkup d = Some lk ∧ at_ lk i = Some e.
Proof.
  intros (o & lk & t & qs & A & H) Hi. destruct (tbl_at lk o i (iv_tbl _ _ _ _ _ _ _ _ _ _ _ H) Hi) as [e He].
  exists lk, e. by rewrite (iv_lk _ _ _ _ _ _ _ _ _ _ _ H).
Qed.

Lemma interface_info_inv d k L i op role :
  finv d k L -> 0 <= i -> ∃ d', dhd_update_interface_flow_info d i op role = Some d' ∧ finv d' k L.
Proof.
  intros H Hi. unfold dhd_update_interface_flow_info. case_bool_decide; [by exists d|].
  destruct (bool_decide (flowid_allocator (p_ids d) = None)); [by exists d|].
  destruct (finv_entry d k L i H) as (lk & e & Hlk & He); [lia|]. rewrite Hlk. cbn [mbind option_bind]. rewrite He.
  cbn [mbind option_bind]. destruct (bool_decide (op = WLC_E_IF_ADD) || bool_decide (op = WLC_E_IF_CHANGE)).
  - destruct (inv_entry d k L i e (mk_lkup (if_status e) role (fl_hash e)) lk H Hlk He eq_refl) as (d1 & -> & H1 & _).
    cbn [mbind option_bind].
    assert (∃ d2, (if bool_decide (op = WLC_E_IF_CHANGE)
      then dhd_update_multicilent_flow_rings d1 i (DHD_IF_ROLE_MULTI_CLIENT role) else Some d1) = Some d2 ∧ finv d2 k L)
      as (d2 & -> & H2) by (destruct (bool_decide _); [by apply multi_inv|by exists d1]).
    cbn [mbind option_bind]. destruct (bool_decide (role = WLC_E_IF_ROLE_WDS)); [|by exists d2].
    destruct (finv_entry d2 k L i H2) as (lk2 & e2 & Hlk2 & He2); [lia|]. rewrite Hlk2. cbn [mbind option_bind]. rewrite He2.
    cbn [mbind option_bind].
    destruct (inv_entry d2 k L i e2 (mk_lkup true (if_role e2) (fl_hash e2)) lk2 H2 Hlk2 He2 eq_refl) as (d3 & -> & H3 & _).
    by exists d3.
  - destruct (_ && _); [|by exists d].
    destruct (inv_entry d k L i e (mk_lkup false (if_role e) (fl_hash e)) lk H Hlk He eq_refl) as (d1 & -> & H1 & _).
    by exists d1.
Qed.

Lemma link_status_inv d k L i status :
  finv d k L -> 0 <= i -> ∃ r d', dhd_update_interface_link_status d i status = Some (r, d') ∧ finv d' k L.
Proof.
  intros H Hi. unfold dhd_update_interface_link_status. case_bool_decide; [by exists BCME_BADARG, d|].
  destruct (finv_entry d k L i H) as (lk & e & Hlk & He); [lia|]. rewrite Hlk. cbn [mbind option_bind]. rewrite He.
  cbn [mbind option_bind].
  destruct (inv_entry d k L i e (mk_lkup (bool_decide (status ≠ 0)) (if_role e) (fl_hash e)) lk H Hlk He eq_refl) as (d1 & -> & H1 & _).
  by exists BCME_OK, d1.
Qed.

(** ** Stations and peers *)

Lemma assoc_event_inv d k L i ea : finv d k L -> int i -> ∃ d', assoc_event d i ea = Some d' ∧ finv d' k L.
Proof.
  intros H Hi. pose proof H as (o & lk & t & qs & A & H0). pose proof (iv_maxs _ _ _ _ _ _ _ _ _ _ _ H0).
  unfold assoc_event. destruct (dhd_findadd_sta_spec maxs (p_stas d) A i ea) as (r & s' & -> & _ & Hs); [lia|apply H0|done|].
  cbn [mbind option_bind]. eexists. split; [done|]. by eapply finv_stas.
Qed.

Lemma chanspec_inv d k L i ea c :
  finv d k L -> int i -> ∃ s, dhd_update_sta_chanspec_info (p_stas d) i ea c = Some s ∧ finv (set_stas s d) k L.
Proof.
  intros H Hi. pose proof H as (o & lk & t & qs & A & H0).
  destruct (dhd_update_sta_chanspec_info_spec maxs (p_stas d) A i ea c) as (s' & -> & Hs); [apply H0|done|].
  exists s'. split; [done|]. by eapply finv_stas.
Qed.

Lemma del_all_sta_inv d k L i : finv d k L -> int i -> ∃ d', dhd_del_all_sta d i = Some d' ∧ finv d' k L.
Proof.
  intros H Hi. pose proof H as (o & lk & t & qs & A & H0). pose proof (iv_maxs _ _ _ _ _ _ _ _ _ _ _ H0).
  unfold dhd_del_all_sta. destruct (del_stas_spec maxs d A i (λ _, true) (λ _, true)) as (s' & -> & Hs); [lia|done|apply H0|done|].
  eexists. split; [done|]. by eapply finv_stas.
Qed.

Lemma del_sta_inv d k L i ea : finv d k L -> int i -> ∃ d', dhd_del_sta d i ea = Some d' ∧ finv d' k L.
Proof.
  intros H Hi. pose proof H as (o & lk & t & qs & A & H0). pose proof (iv_maxs _ _ _ _ _ _ _ _ _ _ _ H0).
  unfold dhd_del_sta.
  destruct (del_stas_spec maxs d A i (λ x, bool_decide (sta_ea x = ea)) (λ a, bool_decide (a = ea))) as (s' & -> & Hs);
    [lia|done|apply H0|done|].
  eexists. split; [done|]. by eapply finv_stas.
Qed.

Lemma tdls_inv malloc d k L reason i da :
  finv d k L -> ∃ r d', dhd_tdls_update_peer_info malloc d reason i da = Some (r, d') ∧ finv d' k L.
Proof.
  intros H. unfold dhd_tdls_update_peer_info. destruct reason; [by exists BCME_ERROR, d| | |by exists BCME_ERROR, d];
    (destruct (bool_decide (i = DHD_BAD_IF)); [by exists BCME_ERROR, d|]).
  - destruct (_ || _); [by exists BCME_ERROR, d|]. eexists _, _. split; [done|]. by apply finv_peers.
  - case_bool_decide; [|by exists BCME_OK, d].
    destruct (delete_for_peer_inv d k L (u8 i) da H) as (d' & -> & H'). cbn [mbind option_bind].
    eexists _, _. split; [done|]. by apply finv_peers.
Qed.

Lemma link_event_inv d k L i flags : finv d k L -> int i -> ∃ d', link_event d i flags = Some d' ∧ finv d' k L.
Proof.
  intros H Hi. unfold link_event. pose proof (u8_range i).
  destruct (link_status_inv d k L (u8 i) (u8 flags) H) as (r & d1 & -> & H1); [lia|]. cbn [mbind option_bind].
  destruct (bool_decide (r ≠ BCME_OK)); [by exists d1|]. destruct (bool_decide (flags = 0)); [|by exists d1].
  destruct (del_all_sta_inv d1 k L i H1 Hi) as (d2 & -> & H2). cbn [mbind option_bind]. by apply rings_delete_inv.
Qed.

Lemma disassoc_event_inv keep d k L i ea :
  finv d k L -> 0 <= i < DHD_MAX_IFS -> ∃ d', disassoc_event keep d i ea = Some d' ∧ finv d' k L.
Proof.
  intros H Hi. unfold disassoc_event, dhd_flow_rings_ifindex2role, DHD_IF_ROLE.
  rewrite u8_small by (unfold DHD_MAX_IFS in *; lia).
  destruct (finv_entry d k L i H Hi) as (lk & e & Hlk & He). rewrite Hlk. cbn [mbind option_bind]. rewrite He.
  cbn [mbind option_bind fmap option_fmap option_map]. destruct (_ && keep); [by exists d|].
  destruct (del_sta_inv d k L i ea H) as (d1 & -> & H1); [unfold int, DHD_MAX_IFS in *; lia|]. cbn [mbind option_bind].
  destruct (_ || _); [by apply rings_delete_inv|by apply delete_for_peer_inv].
Qed.
End Events.

(** ** Initialisation *)

Lemma init_lists_spec m : ∀ l idx,
  ∃ l', init_lists l m idx = Some l'
    ∧ (∀ j, idx <= j < idx + Z.of_nat m -> l' !! j = Some (mk_dll j j))
    ∧ (∀ j, j < idx -> l' !! j = l !! j).
Proof.
  induction m as [|m IH]; intros l idx; cbn [init_lists].
  - exists l. split; [done|]. split; [intros j Hj; lia|done].
  - unfold dll_init, set_next, set_prev. rewrite lookup_insert_eq. cbn [mbind option_bind]. rewrite lookup_insert_eq.
    cbn [mbind option_bind next_p prev_p]. rewrite !insert_insert_eq.
    destruct (IH (<[idx := mk_dll idx idx]> l) (idx + 1)) as (l' & -> & H1 & H2). exists l'. split; [done|]. split.
    + intros j Hj. destruct (decide (j = idx)) as [->|Hne]; [|apply H1; lia].
      rewrite H2 by lia. by rewrite lookup_insert_eq.
    + intros j Hj. rewrite H2 by lia. by rewrite lookup_insert_ne by lia.
Qed.

(** What dhd_flow_rings_init finds: a table for [N] ring numbers, a pool with a
    ring for each flow id, and an empty active list. *)
Record before_init (N n : Z) (d : dhd_pub) : Prop := {
  bi_n : n = dhd_get_max_flow_rings (p_bus d) - (if htput_support (p_ids d) then HTPUT_TOTAL_FLOW_RINGS else 0);
  bi_n0 : 0 <= n;
  bi_N : dhd_get_max_flow_rings (p_bus d) + FLOWID_RESERVED <= N;
  bi_16 : N < ID16_INVALID;
  bi_pool : dhd_get_max_flow_rings (p_bus d) <= Z.of_nat (length (h2d_flowrings_pool (p_prot d)));
  bi_list : p_active d !! ACTIVE_LIST = Some (mk_dll ACTIVE_LIST ACTIVE_LIST)
}.

Definition all_succeed : init_allocs := mk_allocs true true true true true true true.

Lemma at_replicate {A} (x y : A) m i : at_ (replicate m x) i = Some y -> y = x.
Proof. intros [_ H]%at_Some. by apply lookup_replicate in H as [-> _]. Qed.

Lemma replicate_entry : replicate (Z.to_nat DHD_MAX_IFS) init_entry = empty_table (λ _, 0).
Proof.
  unfold empty_table. fold init_entry. generalize (Z.to_nat DHD_MAX_IFS), 0%nat. intros m.
  induction m as [|m IH]; intros k; [done|]. cbn [seq fmap list_fmap replicate]. f_equal. apply IH.
Qed.

Lemma init_rings_ok h S threshold N :
  0 <= N < 65536 ->
  rings_ok h S ∅ ∅ (init_table threshold N) (replicate (Z.to_nat N) []).
Proof.
  intros HN. split.
  - unfold init_table. by rewrite length_replicate, length_fmap, length_seq.
  - intros i x l Hx Hl. apply at_replicate in Hl as ->. unfold init_table in Hx. pose proof (at_range _ _ _ Hx) as Hr.
    rewrite length_fmap, length_seq in Hr. apply at_Some in Hx as [Hi Hx].
    rewrite list_lookup_fmap, lookup_seq_lt in Hx by lia. injection Hx as <-. split.
    + split; cbn; [|apply u16_range|set_solver|done|done|done]. rewrite Z2Nat.id by lia. by rewrite u16_small by lia.
    + by split.
  - clear. induction (Z.to_nat N) as [|m IH]; [constructor|done].
Qed.

Lemma flow_rings_init_inv N n maxs d A :
  before_init N n d -> 0 <= maxs < 65536 -> stas_rep maxs (p_stas d) A ->
  ∃ d', dhd_flow_rings_init all_succeed d N = Some (BCME_OK, d')
    ∧ finv N n maxs d' (length (sent (p_prot d))) [] ∧ p_heap d' = p_heap d ∧ sent (p_prot d') = sent (p_prot d).
Proof.
  intros [Hn H0 HN H16 Hpool Hlist] Hmaxs Hst. unfold dhd_flow_rings_init. cbv zeta.
  set (mt := dhd_get_max_flow_rings (p_bus d)) in *. unfold ID16_INVALID in H16.
  assert (0 <= mt) as Hmt by (destruct (htput_support (p_ids d)); idlia).
  destruct (dhd_flowid_map_init_spec (p_ids d) mt n) as (ids & E & Hids & Htop).
  { destruct (htput_support (p_ids d)); lia. } { done. } { unfold ID16_INVALID. idlia. }
  cbn [al_ids al_htput_ids all_succeed]. rewrite E. cbn [mbind option_bind]. rewrite bool_decide_false by naive_solver.
  cbn [al_table al_node_locks al_lkup al_lock al_list_lock all_succeed andb].
  change (p_active (set_limits _ (set_ids ids d))) with (p_active d).
  destruct (init_lists_spec (Z.to_nat N) (p_active d) 0) as (l & -> & Hl1 & Hl2). cbn [mbind option_bind].
  eexists. split; [done|]. split; [|done].
  exists ∅, (replicate (Z.to_nat DHD_MAX_IFS) init_entry), (init_table (flow_ring_queue_threshold (p_bus d)) N),
    (replicate (Z.to_nat N) []), A.
  assert (u32 (mt + FLOWID_RESERVED - 1) = mt + FLOWID_RESERVED - 1) as Emax by (apply u32_small; idlia).
  assert (pend (p_prot d) (length (sent (p_prot d))) = []) as Ep.
  { unfold pend. rewrite <-(length_fmap snd). apply drop_all. }
  split; cbn -[replicate init_table]; rewrite ?Emax, ?Ep; try done.
  - unfold init_table. by rewrite length_fmap, length_seq.
  - lia.
  - lia.
  - apply init_rings_ok. unfold FLOWID_RESERVED, BCMPCIE_H2D_COMMON_MSGRINGS in *. lia.
  - rewrite replicate_entry. apply empty_table_wf.
  - split; [|split].
    + split; [|apply NoDup_cons; split; [apply not_elem_of_nil|constructor]]. cbn. unfold get_next, get_prev.
      rewrite Hl2 by (unfold ACTIVE_LIST; lia). by rewrite Hlist.
    + by intros i Hi%elem_of_nil.
    + intros i Hi _. unfold get_next, get_prev. rewrite Hl1 by lia. done.
  - constructor.
  - by intros i Hi%elem_of_nil.
  - intros v [Hv1 Hv2]. cbn in Hv2. rewrite ?Emax in Hv2. unfold DHD_FLOWRINGS_POOL_OFFSET.
    destruct (at_is_Some (h2d_flowrings_pool (p_prot d)) (v - BCMPCIE_H2D_COMMON_MSGRINGS)) as [r ->]; [idlia|done].
Qed.
