(* ===== verification/FlowRuns.v ===== *)
(** * The flow rings as a system: runs

    A run starts with dhd_sta_pool_init and dhd_flow_rings_init and interleaves
    the calls of the network stack, the events of the firmware and the answers of
    a dongle that handles its requests in order. *)

From S2P Require Import Prelude ChanSpec Pktq PktqSpec Dll DllTheorems Id16 Id16Theorems MsgRing FlowQueue.
From S2P Require Import FlowQueueTheorems FlowData FlowTable FlowTableSpec FlowTableTheorems FlowSta FlowStaTheorems.
From S2P Require Import FlowRing FlowSched FlowSystem FlowInit FlowLife.

(** ** Events *)

Inductive drv_event :=
  (* A packet gets its flow id; a packet is given to the bus; its transmission
     is over; the bus moves packets of a ring. *)
  | EvUpdate (malloc : bool) (ifindex prio : Z) (sa da : ether_addr)
  | EvTxdata (flowid : Z) (to_head : bool) (p : pkt)
  | EvDone (p : pkt)
  | EvSchedule (flowid bound : Z)
  (* The dongle answers the oldest request that it has not answered. *)
  | EvAnswer (status : Z)
  (* Calls of the interfaces. *)
  | EvDelete (ifindex : Z)
  | EvFlush (ifindex : Z)
  | EvDeletePeer (ifindex : Z) (ea : ether_addr)
  | EvInterface (ifindex op role : Z)
  (* Events of the firmware; [ifindex] is what dhd_ifname2idx answers. *)
  | EvTdls (malloc : bool) (reason : tdls_reason) (ifindex : Z) (da : ether_addr)
  | EvAssoc (ifindex : Z) (ea : ether_addr)
  | EvLink (ifindex flags : Z)
  | EvDisassoc (keep : bool) (ifindex : Z) (ea : ether_addr)
  | EvChanspec (ifindex : Z) (ea : ether_addr) (chanspec : Z).

Section Runs.
Context {W : Type} (dhd_prot_txdata : W -> pkt -> Z -> Z * W) (other_cb : positive -> flow_queue -> pkt -> Z).

(** The driver; the world that dhd_prot_txdata changes; how many requests the
    dongle has answered; the rings it has. *)
Record drv := mk_drv { dv_pub : dhd_pub; dv_world : W; dv_answered : nat; dv_rings : gset Z }.

Definition with_pub (d : dhd_pub) (s : drv) : drv := mk_drv d (dv_world s) (dv_answered s) (dv_rings s).

Definition request (s : drv) : option flow_msg := snd <$> sent (p_prot (dv_pub s)) !! dv_answered s.

(** The dongle carries out a request that it answers with success. *)
Definition dongle_does (m : flow_msg) (status : Z) (r : gset Z) : gset Z :=
  if bool_decide (status = BCME_OK) then
    match m with
    | MSG_FLOW_RING_CREATE _ _ _ _ i _ _ _ _ => {[i]} ∪ r
    | MSG_FLOW_RING_DELETE _ _ _ i => r ∖ {[i]}
    | MSG_FLOW_RING_FLUSH _ _ _ _ => r
    end
  else r.

Definition answer (s : drv) (m : flow_msg) (status : Z) : option drv :=
  '(w, d) ← match m with
            | MSG_FLOW_RING_CREATE _ _ _ _ i _ _ _ _ =>
                dhd_bus_flow_ring_create_response dhd_prot_txdata (dv_world s) (dv_pub s) i status
            | MSG_FLOW_RING_DELETE _ _ _ i => d ← dhd_bus_flow_ring_delete_response (dv_pub s) i status; Some (dv_world s, d)
            | MSG_FLOW_RING_FLUSH _ _ _ i => d ← dhd_bus_flow_ring_flush_response (dv_pub s) i status; Some (dv_world s, d)
            end;
  Some (mk_drv d w (S (dv_answered s)) (dongle_does m status (dv_rings s))).

(** One event; [None] is a bad access. *)
Definition drv_exec (e : drv_event) (s : drv) : option drv :=
  let d := dv_pub s in
  match e with
  | EvUpdate malloc i prio sa da => '(_, _, d) ← dhd_flowid_update malloc d i prio sa da; Some (with_pub d s)
  | EvTxdata i to_head p =>
      '(_, w, d) ← dhd_bus_txdata dhd_prot_txdata other_cb (dv_world s) (set_heap (<[p := None]> (p_heap d)) d) i to_head p;
      Some (mk_drv d w (dv_answered s) (dv_rings s))
  | EvDone p => Some (with_pub (set_heap (delete p (p_heap d)) d) s)
  | EvSchedule i bound =>
      '(_, _, w, d) ← dhd_bus_schedule_queue dhd_prot_txdata (dv_world s) d i bound;
      Some (mk_drv d w (dv_answered s) (dv_rings s))
  | EvAnswer status => m ← request s; answer s m status
  | EvDelete i => d ← dhd_flow_rings_delete d i; Some (with_pub d s)
  | EvFlush i => d ← dhd_flow_rings_flush d i; Some (with_pub d s)
  | EvDeletePeer i ea => d ← dhd_flow_rings_delete_for_peer d i ea; Some (with_pub d s)
  | EvInterface i op role => d ← dhd_update_interface_flow_info d i op role; Some (with_pub d s)
  | EvTdls malloc reason i da => '(_, d) ← dhd_tdls_update_peer_info malloc d reason i da; Some (with_pub d s)
  | EvAssoc i ea => d ← assoc_event d i ea; Some (with_pub d s)
  | EvLink i flags => d ← link_event d i flags; Some (with_pub d s)
  | EvDisassoc keep i ea => d ← disassoc_event keep d i ea; Some (with_pub d s)
  | EvChanspec i ea c => x ← dhd_update_sta_chanspec_info (p_stas d) i ea c; Some (with_pub (set_stas x d) s)
  end.

(** The packet waits in the queue of a ring. *)
Definition queued (d : dhd_pub) (p : pkt) : Prop :=
  ∃ i x l, DHD_FLOW_RING d i = Some x ∧ fqrep (p_heap d) (fn_queue x) l ∧ p ∈ l.

(** When an event can happen.  A packet that is handed in is not a packet of the
    store, and a packet whose transmission is over does not wait.  The ring that
    packets are handed in for or moved from, or whose creation is answered, has a
    priority below 32 (those of flow_prio_map are below 8).  The dongle answers the oldest request that it has
    not answered, with any status, but it succeeds in a deletion or a flush only
    for a ring that it has.  The numbers of interfaces are those of their types,
    and dhd_ifname2idx answers an interface. *)
Definition drv_enabled (s : drv) (e : drv_event) : Prop :=
  match e with
  | EvUpdate _ i prio _ _ => 0 <= i ∧ 0 <= prio < 256
  | EvTxdata i _ p => 0 <= i < num_h2d_rings (p_limits (dv_pub s)) ∧ p_heap (dv_pub s) !! p = None ∧ tid_ok (dv_pub s) i
  | EvDone p => ¬ queued (dv_pub s) p
  | EvSchedule i _ => 0 <= i < num_h2d_rings (p_limits (dv_pub s)) ∧ tid_ok (dv_pub s) i
  | EvAnswer status => ∃ m, request s = Some m ∧ (is_create m = false -> status = BCME_OK -> msg_ring m ∈ dv_rings s) ∧ tid_ok (dv_pub s) (msg_ring m)
  | EvDelete _ | EvFlush _ | EvDeletePeer _ _ | EvTdls _ _ _ _ => True
  | EvInterface i _ _ => 0 <= i
  | EvAssoc i _ | EvLink i _ | EvChanspec i _ _ => int i
  | EvDisassoc _ i _ => 0 <= i < DHD_MAX_IFS
  end.

(** The states of the runs of a driver with [maxs] stations and [N] rings that
    starts with [d0] and [w0]. *)
Inductive drv_reach (maxs N : Z) (d0 : dhd_pub) (w0 : W) : drv -> Prop :=
  | reach_start d1 d2 :
      dhd_sta_pool_init true true d0 maxs = Some (BCME_OK, d1) ->
      dhd_flow_rings_init all_succeed d1 N = Some (BCME_OK, d2) ->
      drv_reach maxs N d0 w0 (mk_drv d2 w0 (length (sent (p_prot d2))) ∅)
  | reach_step s e s' :
      drv_reach maxs N d0 w0 s -> drv_enabled s e -> drv_exec e s = Some s' -> drv_reach maxs N d0 w0 s'.

(** ** The invariant *)

Section Inv.
Context (N n maxs : Z).

Definition drv_inv (s : drv) : Prop :=
  ∃ L, finv N n maxs (dv_pub s) (dv_answered s) L ∧ dv_rings s = list_to_set L.

Lemma with_pub_inv s L o :
  (∃ d', o = Some d' ∧ finv N n maxs d' (dv_answered s) L) -> dv_rings s = list_to_set L ->
  ∃ s', (d ← o; Some (with_pub d s)) = Some s' ∧ drv_inv s'.
Proof. intros (d' & -> & H) HL. eexists. split; [done|]. by exists L. Qed.

(** The store has one packet more, which no queue has. *)
Lemma inv_new d k L o lk t qs A p :
  flow_inv N n maxs d k L o lk t qs A -> p_heap d !! p = None ->
  flow_inv N n maxs (set_heap (<[p := None]> (p_heap d)) d) k L o lk t qs A ∧ p ∉ concat qs.
Proof.
  intros H Hp. pose proof (iv_rings _ _ _ _ _ _ _ _ _ _ _ H) as R.
  assert (∀ i x l, at_ t i = Some x -> at_ qs i = Some l -> p ∉ l) as Hn.
  { intros i x l Hx Hl Hin. destruct (rs_ring _ _ _ _ _ _ R i x l Hx Hl) as [_ [Hs _ _ _]].
    destruct (lseg_dom _ _ _ _ _ Hs Hin) as [y Hy]. congruence. }
  split.
  - destruct H. split; cbn; try done. split; [apply R| |apply R]. intros i x l Hx Hl.
    destruct (rs_ring _ _ _ _ _ _ R i x l Hx Hl) as [R1 Q]. split; [done|].
    eapply fqrep_frame; [|exact Q]. intros y Hy. rewrite lookup_insert_ne; [done|]. intros ->. by eapply Hn.
  - intros (l & Hl & Hin)%list_elem_of_In%in_concat. apply list_elem_of_In, list_elem_of_lookup in Hl as [j Hj].
    rewrite <-at_lookup in Hj. destruct (at_is_Some t (Z.of_nat j)) as [x Hx].
    { apply at_range in Hj. by rewrite <-(rs_len _ _ _ _ _ _ R). }
    apply (Hn _ x l Hx Hj). by apply list_elem_of_In.
Qed.

Lemma not_queued d k L o lk t qs A p :
  flow_inv N n maxs d k L o lk t qs A -> ¬ queued d p -> p ∉ concat qs.
Proof.
  intros H Hq (l & Hl & Hin)%list_elem_of_In%in_concat. apply list_elem_of_In, list_elem_of_lookup in Hl as [j Hj].
  rewrite <-at_lookup in Hj. pose proof (iv_rings _ _ _ _ _ _ _ _ _ _ _ H) as R.
  destruct (at_is_Some t (Z.of_nat j)) as [x Hx]; [apply at_range in Hj; by rewrite <-(rs_len _ _ _ _ _ _ R)|].
  apply Hq. exists (Z.of_nat j), x, l. unfold DHD_FLOW_RING. rewrite (iv_t _ _ _ _ _ _ _ _ _ _ _ H).
  split; [done|]. split; [by apply (rs_ring _ _ _ _ _ _ R _ _ _ Hx Hj)|by apply list_elem_of_In].
Qed.

Lemma list_to_set_filter (L : list Z) i : list_to_set (filter (λ j, j ≠ i) L) = (list_to_set L : gset Z) ∖ {[i]}.
Proof.
  apply set_eq. intros x. rewrite elem_of_difference, !elem_of_list_to_set, list_elem_of_filter, elem_of_singleton. tauto.
Qed.

Lemma answer_step s status m :
  drv_inv s -> request s = Some m -> (is_create m = false -> status = BCME_OK -> msg_ring m ∈ dv_rings s) -> tid_ok (dv_pub s) (msg_ring m) ->
  ∃ s', answer s m status = Some s' ∧ drv_inv s'.
Proof.
  intros (L & H & HL) Hm Hen Htid. unfold answer. pose proof Hm as Hreq. unfold request in Hm.
  assert (∃ ms, pend (p_prot (dv_pub s)) (dv_answered s) = m :: ms) as [ms Hp].
  { unfold pend. rewrite <-list_lookup_fmap in Hm. eexists. by apply drop_S. }
  assert (is_create m = false -> status = BCME_OK -> msg_ring m ∈ L) as HenL.
  { intros Hc Hs. specialize (Hen Hc Hs). rewrite HL in Hen. by apply elem_of_list_to_set in Hen. }
  destruct m as [ifid fl ep tid i sa da ba mi|ifid fl ep i|ifid fl ep i].
  - destruct (create_response_inv N n maxs dhd_prot_txdata (dv_world s) _ _ _ _ _ status H Hp) as (w & d & E & H');
      [done..|]. cbn [msg_ring] in E. rewrite E. cbn [mbind option_bind]. eexists. split; [done|].
    eexists. split; [exact H'|]. cbn [dv_rings dongle_does msg_ring]. unfold dongle_does.
    case_bool_decide; [by rewrite HL, list_to_set_cons|done].
  - destruct (delete_response_inv N n maxs _ _ _ _ _ status H Hp) as (d & E & H'); [done|by apply HenL|].
    cbn [msg_ring] in E. rewrite E. cbn [mbind option_bind]. eexists. split; [done|]. eexists. split; [exact H'|].
    cbn [dv_rings msg_ring]. unfold dongle_does. case_bool_decide; [by rewrite HL, list_to_set_filter|done].
  - destruct (flush_response_inv N n maxs _ _ _ _ _ status H Hp) as (d & E & H'); [done|by apply HenL|].
    cbn [msg_ring] in E. rewrite E. cbn [mbind option_bind]. eexists. split; [done|]. eexists. split; [exact H'|].
    cbn [dv_rings]. unfold dongle_does. by case_bool_decide.
Qed.

Lemma update_inv malloc d k L ifindex prio sa da :
  finv N n maxs d k L -> 0 <= ifindex -> 0 <= prio < 256 ->
  ∃ r f d', dhd_flowid_update malloc d ifindex prio sa da = Some (r, f, d') ∧ finv N n maxs d' k L.
Proof.
  intros H Hi Hp. unfold dhd_flowid_update. case_bool_decide; [by eexists _, _, d|].
  destruct (bool_decide (flowid_allocator (p_ids d) = None)); [by eexists _, _, d|].
  destruct (lookup_inv N n maxs malloc d k L ifindex prio sa da H Hi Hp) as (r & f & d' & -> & H').
  cbn [mbind option_bind]. destruct (bool_decide (r ≠ BCME_OK)); by eexists _, _, d'.
Qed.

Lemma drv_step s e : drv_inv s -> drv_enabled s e -> ∃ s', drv_exec e s = Some s' ∧ drv_inv s'.
Proof.
  intros Hs He. pose proof Hs as (L & H & HL). pose proof H as (o & lk & t & qs & A & H0).
  destruct e as [malloc i prio sa da|i to_head p|p|i bound|status|i|i|i ea|i op role|malloc reason i da|i ea|i fl|keep i ea|i ea c];
    cbn [drv_exec drv_enabled] in *.
  - destruct He as [Hi Hp]. destruct (update_inv malloc _ _ L i prio sa da H Hi Hp) as (r & f & d' & -> & H').
    eexists. split; [done|]. by exists L.
  - destruct He as (Hi & Hp & Htid). destruct (inv_new _ _ _ _ _ _ _ _ p H0 Hp) as [H1 Hn].
    rewrite (iv_num _ _ _ _ _ _ _ _ _ _ _ H0) in Hi.
    destruct (txdata_inv N n maxs dhd_prot_txdata other_cb (dv_world s) _ _ _ _ _ _ _ _ i to_head p H1 Hi Hn)
      as (r & w & d' & t' & qs' & -> & H'); [cbn; by rewrite lookup_insert_eq|done|]. eexists. split; [done|].
    exists L. split; [|done]. by exists o, lk, t', qs', A.
  - eexists. split; [done|]. exists L. split; [|done]. exists o, lk, t, qs, A.
    apply inv_free; [done|]. by eapply not_queued.
  - destruct He as [He Htid]. rewrite (iv_num _ _ _ _ _ _ _ _ _ _ _ H0) in He.
    destruct (schedule_inv N n maxs dhd_prot_txdata (dv_world s) _ _ _ _ _ _ _ _ i bound H0 He Htid)
      as (r & e & w & d' & t' & qs' & -> & H' & _). eexists. split; [done|]. exists L. split; [|done]. by exists o, lk, t', qs', A.
  - destruct He as (m & Hm & Hd & Htid). rewrite Hm. by apply answer_step.
  - apply (with_pub_inv s L); [by apply rings_delete_inv|done].
  - apply (with_pub_inv s L); [by apply rings_flush_inv|done].
  - apply (with_pub_inv s L); [by apply delete_for_peer_inv|done].
  - apply (with_pub_inv s L); [by apply interface_info_inv|done].
  - destruct (tdls_inv N n maxs malloc _ _ L reason i da H) as (r & d' & -> & H'). eexists. split; [done|]. by exists L.
  - apply (with_pub_inv s L); [by apply assoc_event_inv|done].
  - apply (with_pub_inv s L); [by apply link_event_inv|done].
  - apply (with_pub_inv s L); [by apply disassoc_event_inv|done].
  - destruct (chanspec_inv N n maxs _ _ L i ea c H He) as (x & -> & H'). eexists. split; [done|]. by exists L.
Qed.
End Inv.
End Runs.

(** ** Safety *)

(** The ring [i] with the packets [l] that wait for it, against the flow table
    and the rings of the dongle. *)
Record ring_good (lk : list if_flow_lkup) (R : gset Z) (i : Z) (x : flow_ring_node) (l : list pkt) : Prop := {
  rg_open : fn_status x = FLOW_RING_STATUS_OPEN ∨ fn_status x = FLOW_RING_STATUS_FLUSH_PENDING -> i ∈ R;
  rg_closed : fn_status x = FLOW_RING_STATUS_CLOSED -> i ∉ R;
  rg_active : fn_active x = true <-> fn_status x ≠ FLOW_RING_STATUS_CLOSED;
  rg_idle : fn_status x = FLOW_RING_STATUS_CLOSED ∨ fn_status x = FLOW_RING_STATUS_DELETE_PENDING -> l = [];
  rg_flow : fn_active x = true -> served lk i (fn_info x)
}.

Definition drv_ok {W} (N : Z) (s : drv (W := W)) : Prop :=
  let d := dv_pub s in
  ∃ lk L qs, p_lkup d = Some lk ∧ NoDup (all_ids lk)
    ∧ dllrep (p_active d) ACTIVE_LIST L ∧ dv_rings s = list_to_set L
    ∧ NoDup (concat qs)
    ∧ ∀ i, 0 <= i < N -> ∃ x l, DHD_FLOW_RING d i = Some x ∧ at_ qs i = Some l
        ∧ fqrep (p_heap d) (fn_queue x) l ∧ ring_good lk (dv_rings s) i x l.

Section Safety.
Context {W : Type} (dhd_prot_txdata : W -> pkt -> Z -> Z * W) (other_cb : positive -> flow_queue -> pkt -> Z).
Context (N n maxs : Z).

Lemma drv_inv_ok (s : drv (W := W)) : drv_inv N n maxs s -> drv_ok N s.
Proof.
  intros (L & (o & lk & t & qs & A & H) & HL). exists lk, L, qs. destruct (iv_list _ _ _ _ _ _ _ _ _ _ _ H) as [Hlist _].
  pose proof (iv_rings _ _ _ _ _ _ _ _ _ _ _ H) as R.
  split; [apply H|]. split; [apply (iv_tbl _ _ _ _ _ _ _ _ _ _ _ H)|]. split; [done|]. split; [done|].
  split; [apply R|]. intros i Hi. destruct (inv_ring _ _ _ _ _ _ _ _ _ _ _ H i Hi) as (x & Hx & Ht).
  destruct (rings_at _ _ _ _ _ _ _ _ R Ht) as (l & Hl & Ro & Q). exists x, l. split; [done|]. split; [done|].
  split; [done|]. rewrite HL. pose proof (ro_status _ _ _ _ _ _ Ro) as Hs. split.
  - by intros [E|E]; rewrite E in Hs.
  - intros E. rewrite E in Hs. by destruct Hs.
  - rewrite (ro_active _ _ _ _ _ _ Ro), negb_true_iff, bool_decide_eq_false. done.
  - apply Ro.
  - apply Ro.
Qed.

Lemma drv_start_inv d0 (w0 : W) :
  before_init N n d0 -> 0 <= maxs -> maxs + 1 < ID16_INVALID -> no_stas (iflist (p_stas d0)) ->
  ∃ d1 d2, dhd_sta_pool_init true true d0 maxs = Some (BCME_OK, d1)
    ∧ dhd_flow_rings_init all_succeed d1 N = Some (BCME_OK, d2)
    ∧ drv_inv N n maxs (mk_drv d2 w0 (length (sent (p_prot d2))) ∅).
Proof.
  intros Hb H0 Hm Hn. destruct (dhd_sta_pool_init_spec maxs d0 H0 Hm Hn) as (s1 & E1 & Hs).
  destruct (flow_rings_init_inv N n maxs (set_stas s1 d0) (abs_empty (iflist (p_stas d0)))) as (d2 & E2 & H2 & _ & Es).
  - by destruct Hb.
  - unfold ID16_INVALID in Hm. lia.
  - done.
  - exists (set_stas s1 d0), d2. split; [done|]. split; [done|]. exists []. split; [|done]. cbn [dv_pub dv_answered]. by rewrite Es.
Qed.

Lemma drv_reach_inv d0 w0 s :
  before_init N n d0 -> 0 <= maxs -> maxs + 1 < ID16_INVALID -> no_stas (iflist (p_stas d0)) ->
  drv_reach dhd_prot_txdata other_cb maxs N d0 w0 s -> drv_inv N n maxs s.
Proof.
  intros Hb H0 Hm Hn. induction 1 as [d1 d2 E1 E2|s e s' _ IH He Hx].
  - destruct (drv_start_inv d0 w0 Hb H0 Hm Hn) as (d1' & d2' & E1' & E2' & H). rewrite E1 in E1'. injection E1' as <-.
    rewrite E2 in E2'. by injection E2' as <-.
  - destruct (drv_step dhd_prot_txdata other_cb N n maxs s e IH He) as (s1 & E & H). rewrite Hx in E. by injection E as <-.
Qed.

(** C12.  In every state that the driver reaches from an initialisation of which
    every allocation succeeds, however the transmit routine behaves, in whatever
    order the network stack, the interfaces and the firmware's events come and
    whether or not later allocations and posts succeed, no enabled step has a bad
    access ([drv_enabled]: in particular the dongle answers its requests in their
    order, each with any status, but deletes and flushes with success only rings
    that it has).  And: a ring that is open or being flushed exists in the dongle,
    a closed one does not, and the active list links exactly the dongle's rings; a
    ring in use has a flow id that the flow table gives to one flow, of the ring's
    interface, priority and peer; no packet waits in two queues, and none in the
    queue of a ring that is closed or being deleted. *)
Theorem flow_rings_safe (d0 : dhd_pub) (w0 : W) :
  before_init N n d0 -> 0 <= maxs -> maxs + 1 < ID16_INVALID -> no_stas (iflist (p_stas d0)) ->
  (∃ s, drv_reach dhd_prot_txdata other_cb maxs N d0 w0 s)
  ∧ ∀ s, drv_reach dhd_prot_txdata other_cb maxs N d0 w0 s ->
      drv_ok N s ∧ ∀ e, drv_enabled s e -> is_Some (drv_exec dhd_prot_txdata other_cb e s).
Proof.
  intros Hb H0 Hm Hn. split.
  - destruct (drv_start_inv d0 w0 Hb H0 Hm Hn) as (d1 & d2 & E1 & E2 & _). eexists. by eapply reach_start.
  - intros s Hr. pose proof (drv_reach_inv d0 w0 s Hb H0 Hm Hn Hr) as H. split; [by apply drv_inv_ok|].
    intros e He. destruct (drv_step dhd_prot_txdata other_cb N n maxs s e H He) as (s' & E & _). by exists s'.
Qed.
End Safety.

(** ** The ring of a flow *)

Lemma put_ring_get d i x d' : put_ring d i x = Some d' -> DHD_FLOW_RING d' i = Some x.
Proof.
  unfold put_ring, put_, DHD_FLOW_RING. destruct (p_table d) as [t|]; [|done]. cbn [mbind option_bind].
  destruct (at_ t i) as [y|] eqn:E; [|done]. cbn [mbind option_bind]. intros [= <-]. cbn [p_table set_table mbind option_bind].
  by apply (at_insert_eq _ _ _ _ E).
Qed.

(** A ring that is requested is described by the flow and active. *)
Lemma lookup_create_ring d id ifindex prio sa da f d' :
  lookup_create d id ifindex prio sa da = Some (BCME_OK, f, d') ->
  f = Some id ∧ ∃ x, DHD_FLOW_RING d' id = Some x ∧ fn_info x = mk_fi prio ifindex sa da ∧ fn_active x = true.
Proof.
  unfold lookup_create. destruct (DHD_FLOW_RING d id) as [x|]; [|done]. cbn [mbind option_bind].
  set (x1 := set_state _ _ _). destruct (put_ring d id x1) as [d1|] eqn:E1; [|done]. cbn [mbind option_bind].
  unfold dhd_bus_flow_ring_create_request. rewrite (put_ring_get _ _ _ _ E1). cbn [mbind option_bind].
  destruct (dhd_prot_flow_ring_create (p_prot d1) x1) as [[[r p] x2]|] eqn:Ec; [|done]. cbn [mbind option_bind].
  destruct (put_ring (set_prot p d1) id x2) as [d2|] eqn:E2; [|done]. cbn [mbind option_bind].
  assert (fn_info x2 = fn_info x1 ∧ fn_active x2 = fn_active x1) as [Hi Ha].
  { unfold dhd_prot_flow_ring_create in Ec. destruct (dhd_prot_flowrings_pool_fetch _ _) as [[r0 p0]|]; [|done].
    cbn [mbind option_bind] in Ec. destruct (post_ctrl _ _) as [[|] p1]; [by injection Ec as _ _ <-|].
    destruct (dhd_prot_flowrings_pool_release _ _); [|done]. by injection Ec as _ _ <-. }
  destruct (bool_decide (r ≠ BCME_OK)).
  - rewrite bool_decide_true by done. rewrite (put_ring_get _ _ _ _ E2). cbn [mbind option_bind].
    by destruct (put_ring d2 id _).
  - rewrite bool_decide_false by (intros H; by apply H). intros [= <- <-]. split; [done|].
    exists x2. by rewrite Hi, Ha, (put_ring_get _ _ _ _ E2).
Qed.

Section Lookup.
Context {W : Type} (dhd_prot_txdata : W -> pkt -> Z -> Z * W) (other_cb : positive -> flow_queue -> pkt -> Z).
Context (N n maxs : Z) (d0 : dhd_pub) (w0 : W).

(** C13.  In every reachable state, an interface whose role has many clients (or
    is an ad hoc or mesh one) gets for a packet only a ring that is in use, of
    that interface, and whose flow has the packet's destination and priority, or
    is multicast when the packet is. *)
Theorem flow_lookup_right_ring (s : drv) (malloc : bool) (ifindex prio id : Z) (sa da : ether_addr) (d' : dhd_pub)
    (lk : list if_flow_lkup) (e : if_flow_lkup) :
  before_init N n d0 -> 0 <= maxs -> maxs + 1 < ID16_INVALID -> no_stas (iflist (p_stas d0)) ->
  drv_reach dhd_prot_txdata other_cb maxs N d0 w0 s -> 0 <= ifindex -> 0 <= prio < 256 ->
  p_lkup (dv_pub s) = Some lk -> at_ lk ifindex = Some e -> DHD_IF_ROLE_GENERIC_STA (if_role e) = false ->
  dhd_flowid_lookup malloc (dv_pub s) ifindex prio sa da = Some (BCME_OK, Some id, d') ->
  ∃ x, DHD_FLOW_RING d' id = Some x ∧ fn_active x = true ∧ fi_ifindex (fn_info x) = ifindex
    ∧ (fi_da (fn_info x) = da ∧ fi_tid (fn_info x) = prio
       ∨ ETHER_ISMULTI (fi_da (fn_info x)) = true ∧ ETHER_ISMULTI da = true).
Proof.
  intros Hb H0 Hm Hn Hr Hi Hp Hlk He Hrole Hl.
  destruct (drv_reach_inv _ _ _ _ _ _ _ _ Hb H0 Hm Hn Hr) as (L & (o & lk' & t & qs & A & H) & _).
  pose proof (iv_lk _ _ _ _ _ _ _ _ _ _ _ H) as E. rewrite Hlk in E. injection E as <-.
  unfold dhd_flowid_lookup in Hl. rewrite (iv_t _ _ _ _ _ _ _ _ _ _ _ H) in Hl. case_bool_decide; [done|].
  rewrite Hlk in Hl. cbn [mbind option_bind] in Hl. pose proof (iv_tbl _ _ _ _ _ _ _ _ _ _ _ H) as Hw.
  destruct (dhd_flowid_find_total (p_peers (dv_pub s)) lk o ifindex prio da Hw Hi Hp) as (v & Ev & Hv).
  rewrite Ev in Hl. cbn [mbind option_bind] in Hl. destruct (_ || _) eqn:Eb.
  - destruct (lookup_new_id _ _ _ _ _ _) as [[[r|v'] d1]|]; [done| |done].
    cbn [mbind option_bind] in Hl. destruct (lookup_create_ring _ _ _ _ _ _ _ _ Hl) as ([= ->] & x & Hx & Hinfo & Ha).
    exists x. rewrite Hinfo. naive_solver.
  - rewrite orb_false_iff, !bool_decide_eq_false in Eb. destruct Eb as [Eb _].
    destruct Hv as [?|(e1 & nd & He1 & Hnd & Hid & Hmatch)]; [done|]. rewrite He in He1. injection He1 as <-.
    destruct (DHD_FLOW_RING (dv_pub s) v) as [x|] eqn:Ex; [|done]. cbn [mbind option_bind] in Hl.
    destruct (_ || _) eqn:Est in Hl; [done|]. injection Hl as <- <-. exists x. split; [done|].
    rewrite orb_false_iff, !bool_decide_eq_false in Est. destruct Est as [_ Est].
    destruct (inv_at _ _ _ _ _ _ _ _ _ _ _ H _ _ Ex) as [Ht _].
    destruct (rings_at _ _ _ _ _ _ _ _ (iv_rings _ _ _ _ _ _ _ _ _ _ _ H) Ht) as (l & _ & R & _).
    assert (fn_active x = true) as Ha by (rewrite (ro_active _ _ _ _ _ _ R), bool_decide_false; done).
    split; [done|]. destruct (ro_served _ _ _ _ _ _ R Ha) as (s1 & nd1 & Hnd1 & Hid1 & Ht1 & Hd1).
    destruct (tbl_node_unique lk o _ _ _ _ _ _ Hw Hnd1 Hnd) as [-> Hif]; [by rewrite Hid1, Hid|]. split; [done|].
    specialize (Hmatch Hrole). unfold flow_matches, same_da in Hmatch.
    rewrite orb_true_iff, !andb_true_iff, !bool_decide_eq_true in Hmatch. rewrite <-Ht1, <-Hd1. naive_solver.
Qed.
End Lookup.

(** ** A run *)

Definition tid_fits (d : dhd_pub) (i : Z) : bool :=
  match DHD_FLOW_RING d i with Some x => bool_decide (fi_tid (fn_info x) < 32) | None => true end.
Lemma tid_fits_ok d i : tid_fits d i = true -> tid_ok d i.
Proof. unfold tid_fits, tid_ok. intros H x Hx. rewrite Hx in H. by apply bool_decide_eq_true in H. Qed.

(** Events whose guard can be computed, all but the end of a transmission. *)
Definition drv_can {W} (s : drv (W := W)) (e : drv_event) : bool :=
  match e with
  | EvUpdate _ i prio _ _ => bool_decide (0 <= i ∧ 0 <= prio < 256)
  | EvTxdata i _ p => bool_decide (0 <= i < num_h2d_rings (p_limits (dv_pub s)) ∧ p_heap (dv_pub s) !! p = None) && tid_fits (dv_pub s) i
  | EvDone _ => false
  | EvSchedule i _ => bool_decide (0 <= i < num_h2d_rings (p_limits (dv_pub s))) && tid_fits (dv_pub s) i
  | EvAnswer status =>
      match request s with
      | Some m => (is_create m || negb (bool_decide (status = BCME_OK)) || bool_decide (msg_ring m ∈ dv_rings s)) && tid_fits (dv_pub s) (msg_ring m)
      | None => false
      end
  | EvDelete _ | EvFlush _ | EvDeletePeer _ _ | EvTdls _ _ _ _ => true
  | EvInterface i _ _ => bool_decide (0 <= i)
  | EvAssoc i _ | EvLink i _ | EvChanspec i _ _ => bool_decide (-2147483648 <= i < 2147483648)
  | EvDisassoc _ i _ => bool_decide (0 <= i < DHD_MAX_IFS)
  end.

Lemma drv_can_enabled {W} (s : drv (W := W)) e : drv_can s e = true -> drv_enabled s e.
Proof.
  destruct e; cbn [drv_can drv_enabled]; try done; try by intros ?%bool_decide_eq_true.
  1-2: intros [?%bool_decide_eq_true ?%tid_fits_ok]%andb_true_iff; tauto.
  destruct (request s) as [m|]; [|done]. intros [H Ht%tid_fits_ok]%andb_true_iff. exists m. split; [done|]. split; [|done]. intros Hc Hs.
  rewrite Hc, Hs, bool_decide_true in H by done. by apply bool_decide_eq_true in H.
Qed.

Section Play.
Context {W : Type} (dhd_prot_txdata : W -> pkt -> Z -> Z * W) (other_cb : positive -> flow_queue -> pkt -> Z).

Definition drv_start (maxs N : Z) (d0 : dhd_pub) (w0 : W) : option drv :=
  '(r1, d1) ← dhd_sta_pool_init true true d0 maxs;
  '(r2, d2) ← dhd_flow_rings_init all_succeed d1 N;
  if bool_decide (r1 = BCME_OK) && bool_decide (r2 = BCME_OK)
  then Some (mk_drv d2 w0 (length (sent (p_prot d2))) ∅) else None.

Fixpoint drv_play (es : list drv_event) (s : drv) : option drv :=
  match es with
  | [] => Some s
  | e :: es => if drv_can s e then s ← drv_exec dhd_prot_txdata other_cb e s; drv_play es s else None
  end.

Lemma drv_play_reach maxs N d0 w0 es : ∀ s s',
  drv_reach dhd_prot_txdata other_cb maxs N d0 w0 s -> drv_play es s = Some s' ->
  drv_reach dhd_prot_txdata other_cb maxs N d0 w0 s'.
Proof.
  induction es as [|e es IH]; intros s s' Hs; cbn [drv_play]; [by intros [= <-]|].
  destruct (drv_can s e) eqn:Ec; [|done]. destruct (drv_exec _ _ e s) as [s1|] eqn:Ex; [|done].
  apply IH. eapply reach_step; [done|by apply drv_can_enabled|done].
Qed.

Lemma drv_start_reach maxs N d0 w0 es s :
  (s ← drv_start maxs N d0 w0; drv_play es s) = Some s -> drv_reach dhd_prot_txdata other_cb maxs N d0 w0 s.
Proof.
  destruct (drv_start maxs N d0 w0) as [s0|] eqn:E; [|done]. intros H. eapply drv_play_reach; [|exact H].
  unfold drv_start in E. destruct (dhd_sta_pool_init _ _ _ _) as [[r1 d1]|] eqn:E1; [|done]. cbn [mbind option_bind] in E.
  destruct (dhd_flow_rings_init _ _ _) as [[r2 d2]|] eqn:E2; [|done]. cbn [mbind option_bind] in E.
  destruct (_ && _) eqn:Eb; [|done]. apply andb_true_iff in Eb as [->%bool_decide_eq_true ->%bool_decide_eq_true].
  injection E as <-. by eapply reach_start.
Qed.
End Play.

(** An access point with a client and a multicast flow; the client leaves. *)
Definition run_mac (x : Z) : ether_addr := mk_ea 2 0 0 0 0 x.
Definition run_dhd : dhd_pub :=
  mk_pub (mk_ids None None 0 0 false) None (mk_peers 0 []) None (mk_limits false 0 0 [] 0 0 0)
    (mk_stas (None :: Some (mk_if (run_mac 0) []) :: replicate 14 None) None None) (mk_bus 6 4 6 15 255)
    (mk_prot (mk_pring (mk_ring 0 0 0 0 8 16 0 0) 0 false 0)
       (replicate 4 (mk_pring (mk_ring 0 0 0 0 8 16 0 0) 0 false 0)) [] []) ∅ {[ACTIVE_LIST := mk_dll ACTIVE_LIST ACTIVE_LIST]}.
Definition run_events : list drv_event :=
  [EvInterface 1 WLC_E_IF_ADD WLC_E_IF_ROLE_AP; EvLink 1 1; EvAssoc 1 (run_mac 1);
   EvUpdate true 1 5 (run_mac 0) (run_mac 1); EvTxdata 5 false 1; EvTxdata 5 false 2; EvTxdata 5 true 3; EvAnswer BCME_OK;
   EvUpdate true 1 0 (run_mac 0) (mk_ea 1 0 94 0 0 1); EvAnswer BCME_OK; EvTxdata 5 false 4; EvTxdata 4 false 5;
   EvDisassoc false 1 (run_mac 1); EvUpdate true 1 5 (run_mac 0) (run_mac 1); EvAnswer BCME_OK].
Definition run_tx (w : list (pkt * Z)) (p : pkt) (ifindex : Z) : Z * list (pkt * Z) :=
  if bool_decide (length w < 3)%nat then (BCME_OK, w ++ [(p, ifindex)]) else (BCME_NORESOURCE, w).
Definition run_cb : positive -> flow_queue -> pkt -> Z := λ _ _ _, BCME_OK.
Definition run_end (es : list drv_event) : option (drv (W := list (pkt * Z))) :=
  s ← drv_start 2 6 run_dhd []; drv_play run_tx run_cb es s.

(** With a control ring that has room for one message: the client's ring is
    created; the multicast flow gets an id and no ring, and keeps both when there
    is room again. *)
Definition full_ctrl (rds : list Z) (d : dhd_pub) : dhd_pub :=
  set_prot (mk_prot (mk_pring (mk_ring 0 0 0 0 2 16 0 0) 0 false 0) (h2d_flowrings_pool (p_prot d)) rds []) d.
Definition lookup_results (r : option (Z * option Z * dhd_pub)) : option (Z * option Z) := '(r, f, _) ← r; Some (r, f).
Definition full_run (rds : list Z) : option (drv (W := list (pkt * Z))) :=
  s ← drv_start 2 6 (full_ctrl rds run_dhd) []; drv_play run_tx run_cb (take 4 run_events) s.

Example lookup_failed_keeps_id :
  (s ← full_run [0; 0; 1];
   '(_, _, d) ← dhd_flowid_lookup true (dv_pub s) 1 0 (run_mac 0) (mk_ea 1 0 94 0 0 1);
   Some (lookup_results (dhd_flowid_lookup true (dv_pub s) 1 0 (run_mac 0) (mk_ea 1 0 94 0 0 1)),
         fn_status <$> DHD_FLOW_RING d 4, (t ← p_lkup d; dhd_flowid_find (p_peers d) t 1 0 (mk_ea 1 0 94 0 0 1)),
         lookup_results (dhd_flowid_lookup true d 1 0 (run_mac 0) (mk_ea 1 0 94 0 0 1)),
         multi_client_flow_rings (p_limits d)))
  = Some (Some (BCME_ERROR, None), Some FLOW_RING_STATUS_CLOSED, Some 4, Some (BCME_ERROR, Some FLOWID_INVALID), 2).
Proof. by vm_compute. Qed.

(** The client leaves while the control ring is full: its ring waits for the
    answer to a request that was never sent. *)
Example delete_never_sent :
  (s ← full_run []; s ← drv_play run_tx run_cb [EvAnswer BCME_OK; EvDisassoc false 1 (run_mac 1); EvDelete 1] s;
   Some (fn_status <$> DHD_FLOW_RING (dv_pub s) 5, request s, elements (dv_rings s)))
  = Some (Some FLOW_RING_STATUS_DELETE_PENDING, None, [5]).
Proof. by vm_compute. Qed.

(** The client leaves while its ring is being flushed: the deletion is lost, and
    the ring opens again. *)
Example delete_lost_in_flush :
  (s ← run_end (take 8 run_events);
   s ← drv_play run_tx run_cb [EvFlush 1; EvDisassoc false 1 (run_mac 1); EvAnswer BCME_OK] s;
   Some (fn_status <$> DHD_FLOW_RING (dv_pub s) 5, request s))
  = Some (Some FLOW_RING_STATUS_OPEN, None).
Proof. by vm_compute. Qed.

Lemma run_end_reach es s : run_end es = Some s -> drv_reach run_tx run_cb 2 6 run_dhd [] s.
Proof. apply drv_start_reach. Qed.

Lemma run_before : before_init 6 4 run_dhd.
Proof. by split; vm_compute. Qed.

Lemma run_no_stas : no_stas (iflist (p_stas run_dhd)).
Proof. split; [done|]. repeat (apply Forall_cons; split; [done|]). by apply Forall_nil. Qed.

Lemma flow_rings_safe_witness :
  (∃ s, run_end run_events = Some s ∧ drv_ok 6 s ∧ is_Some (drv_exec run_tx run_cb (EvDelete 1) s))
  ∧ (s ← run_end run_events;
     Some (dv_world s, elements (dv_rings s), fn_status <$> default [] (p_table (dv_pub s)),
           (λ x, fq_len (fn_queue x)) <$> default [] (p_table (dv_pub s))))
    = Some ([(3%positive, 1); (1%positive, 1); (2%positive, 1)], [4],
            replicate 4 FLOW_RING_STATUS_CLOSED ++ [FLOW_RING_STATUS_OPEN; FLOW_RING_STATUS_CLOSED], [0; 0; 0; 0; 1; 0]).
Proof.
  split; [|by vm_compute]. assert (bool_decide (run_end run_events = None) = false) as Hs by (by vm_compute).
  destruct (run_end run_events) as [s|] eqn:E; [|discriminate Hs]. exists s. split; [reflexivity|].
  destruct (flow_rings_safe run_tx run_cb 6 4 2 run_dhd []) as [_ H]; [apply run_before|done|done|apply run_no_stas|].
  destruct (H s) as [H1 H2]; [exact (run_end_reach _ _ E)|]. split; [exact H1|]. apply H2. exact I.
Defined.

(** The multicast address 1:0:5e:0:0:2 gets the ring of 1:0:5e:0:0:1. *)
Lemma flow_lookup_right_ring_witness :
  ∃ s d' x, run_end (take 11 run_events) = Some s
    ∧ dhd_flowid_lookup true (dv_pub s) 1 3 (run_mac 0) (mk_ea 1 0 94 0 0 2) = Some (BCME_OK, Some 4, d')
    ∧ DHD_FLOW_RING d' 4 = Some x ∧ fn_active x = true ∧ fi_ifindex (fn_info x) = 1
    ∧ (fi_da (fn_info x) = mk_ea 1 0 94 0 0 2 ∧ fi_tid (fn_info x) = 3
       ∨ ETHER_ISMULTI (fi_da (fn_info x)) = true ∧ ETHER_ISMULTI (mk_ea 1 0 94 0 0 2) = true).
Proof.
  assert (match run_end (take 11 run_events) with
          | Some s => match p_lkup (dv_pub s), dhd_flowid_lookup true (dv_pub s) 1 3 (run_mac 0) (mk_ea 1 0 94 0 0 2) with
                      | Some lk, Some (r, f, _) =>
                          bool_decide (r = BCME_OK) && bool_decide (f = Some 4)
                          && match at_ lk 1 with Some e => negb (DHD_IF_ROLE_GENERIC_STA (if_role e)) | None => false end
                      | _, _ => false
                      end
          | None => false
          end = true) as H by (by vm_compute).
  destruct (run_end _) as [s|] eqn:E; [|done]. destruct (p_lkup (dv_pub s)) as [lk|] eqn:Elk; [|done].
  destruct (dhd_flowid_lookup _ _ _ _ _ _) as [[[r f] d']|] eqn:El; [|done].
  apply andb_true_iff in H as [[->%bool_decide_eq_true ->%bool_decide_eq_true]%andb_true_iff H].
  destruct (at_ lk 1) as [e|] eqn:Ee; [|done]. apply negb_true_iff in H.
  destruct (flow_lookup_right_ring run_tx run_cb 6 4 2 run_dhd [] s true 1 3 4 (run_mac 0) (mk_ea 1 0 94 0 0 2) d' lk e)
    as (x & Hx & Hrest); [apply run_before|lia|by vm_compute|apply run_no_stas|exact (run_end_reach _ _ E)|lia|lia|exact Elk|exact Ee|
     exact H|exact El|].
  exists s, d', x. split; [reflexivity|]. split; [exact El|]. split; [exact Hx|]. exact Hrest.
Defined.
