(* ===== verification/WlfcTag.v ===== *)
(** * Wireless flow control: words with fields (wlfc_proto.h, dhd_wlfc.h)

    The tag that goes to the dongle with a packet and comes back in its status,
    the sequence number, and the flags of the tag that the host keeps.  A setter
    changes a variable in C; here it returns the word. *)

From S2P Require Import Prelude.

(** ** Fields *)

(** [(x >> shift) & mask] *)
Definition get_field (shift mask x : Z) : Z := Z.land (Z.shiftr x shift) mask.

(** [(x & ~(mask << shift)) | ((val & mask) << shift)] for a word [x] that is not
    negative. *)
Definition set_field (shift mask x val : Z) : Z :=
  Z.lor (Z.land x (Z.lnot (Z.shiftl mask shift))) (Z.shiftl (Z.land val mask) shift).

Lemma testbit_get_field k w x i : 0 <= k -> 0 <= w -> 0 <= i -> Z.testbit (get_field k (Z.ones w) x) i = (i <? w) && Z.testbit x (i + k).
Proof.
  intros Hk Hw Hi. unfold get_field. rewrite Z.land_spec, Z.shiftr_spec, Z.testbit_ones_nonneg by lia. apply andb_comm.
Qed.

Lemma testbit_set_field k w x v i :
  0 <= k -> 0 <= w -> 0 <= i ->
  Z.testbit (set_field k (Z.ones w) x v) i = if (k <=? i) && (i <? k + w) then Z.testbit v (i - k) else Z.testbit x i.
Proof.
  intros Hk Hw Hi. unfold set_field. rewrite Z.lor_spec, Z.land_spec, Z.lnot_spec, !Z.shiftl_spec, Z.land_spec by lia.
  destruct (Z.leb_spec k i) as [H1|H1].
  - rewrite !Z.testbit_ones_nonneg by lia. destruct (Z.ltb_spec i (k + w)) as [H2|H2].
    + rewrite (proj2 (Z.ltb_lt _ _)) by lia. cbn. by rewrite andb_false_r, andb_true_r.
    + rewrite (proj2 (Z.ltb_ge _ _)) by lia. cbn. by rewrite andb_true_r, andb_false_r, orb_false_r.
  - rewrite (Z.testbit_neg_r (Z.ones w)), (Z.testbit_neg_r v) by lia. cbn. by rewrite andb_true_r, orb_false_r.
Qed.

(** What a field holds after it is written, and the other fields. *)
Lemma get_set_same k w x v : 0 <= k -> 0 <= w -> get_field k (Z.ones w) (set_field k (Z.ones w) x v) = v mod 2 ^ w.
Proof.
  intros Hk Hw. apply Z.bits_inj'. intros i Hi. rewrite testbit_get_field, testbit_set_field by lia.
  destruct (Z.ltb_spec i w) as [H|H].
  - rewrite (proj2 (Z.leb_le _ _)), (proj2 (Z.ltb_lt _ _)), Z.mod_pow2_bits_low by lia. cbn. f_equal. lia.
  - by rewrite Z.mod_pow2_bits_high by lia.
Qed.

Lemma get_set_other k w k' w' x v :
  0 <= k -> 0 <= w -> 0 <= k' -> 0 <= w' -> k + w <= k' ∨ k' + w' <= k ->
  get_field k (Z.ones w) (set_field k' (Z.ones w') x v) = get_field k (Z.ones w) x.
Proof.
  intros Hk Hw Hk' Hw' Hd. apply Z.bits_inj'. intros i Hi. rewrite !testbit_get_field, testbit_set_field by lia.
  destruct (Z.ltb_spec i w) as [H|H]; [|done]. cbn. destruct ((_ <=? _) && _) eqn:E; [|done].
  apply andb_true_iff in E as [E1%Z.leb_le E2%Z.ltb_lt]. lia.
Qed.

Lemma set_field_range k w x v n :
  0 <= k -> 0 <= w -> k + w <= n -> 0 <= x < 2 ^ n -> 0 <= set_field k (Z.ones w) x v < 2 ^ n.
Proof.
  intros Hk Hw Hn Hx. assert (set_field k (Z.ones w) x v = set_field k (Z.ones w) x v mod 2 ^ n) as ->.
  { apply Z.bits_inj'. intros i Hi. destruct (Z.ltb_spec i n) as [H|H].
    - by rewrite Z.mod_pow2_bits_low by lia.
    - rewrite Z.mod_pow2_bits_high, testbit_set_field by lia. rewrite (proj2 (Z.ltb_ge i (k + w))) by lia.
      rewrite andb_false_r, <-(Z.mod_small x (2 ^ n)) by lia. by apply Z.mod_pow2_bits_high; lia. }
  apply Z.mod_pos_bound. lia.
Qed.

Lemma get_field_range k w x : 0 <= k -> 0 <= w -> 0 <= get_field k (Z.ones w) x < 2 ^ w.
Proof. intros Hk Hw. unfold get_field. rewrite Z.land_ones by lia. apply Z.mod_pos_bound. lia. Qed.

(** ** The tag of a packet (WLFC_CTL_TYPE_PKTTAG, WLFC_CTL_TYPE_TXSTATUS) *)

Definition WL_TXSTATUS_GENERATION_MASK : Z := 1.
Definition WL_TXSTATUS_GENERATION_SHIFT : Z := 31.
Definition WL_TXSTATUS_SET_GENERATION := set_field WL_TXSTATUS_GENERATION_SHIFT WL_TXSTATUS_GENERATION_MASK.
Definition WL_TXSTATUS_GET_GENERATION := get_field WL_TXSTATUS_GENERATION_SHIFT WL_TXSTATUS_GENERATION_MASK.

Definition WL_TXSTATUS_FLAGS_MASK : Z := 15.
Definition WL_TXSTATUS_FLAGS_SHIFT : Z := 27.
Definition WL_TXSTATUS_SET_FLAGS := set_field WL_TXSTATUS_FLAGS_SHIFT WL_TXSTATUS_FLAGS_MASK.
Definition WL_TXSTATUS_GET_FLAGS := get_field WL_TXSTATUS_FLAGS_SHIFT WL_TXSTATUS_FLAGS_MASK.

Definition WL_TXSTATUS_FIFO_MASK : Z := 7.
Definition WL_TXSTATUS_FIFO_SHIFT : Z := 24.
Definition WL_TXSTATUS_SET_FIFO := set_field WL_TXSTATUS_FIFO_SHIFT WL_TXSTATUS_FIFO_MASK.
Definition WL_TXSTATUS_GET_FIFO := get_field WL_TXSTATUS_FIFO_SHIFT WL_TXSTATUS_FIFO_MASK.

Definition WL_TXSTATUS_HSLOT_MASK : Z := 65535.
Definition WL_TXSTATUS_HSLOT_SHIFT : Z := 8.
Definition WL_TXSTATUS_SET_HSLOT := set_field WL_TXSTATUS_HSLOT_SHIFT WL_TXSTATUS_HSLOT_MASK.
Definition WL_TXSTATUS_GET_HSLOT := get_field WL_TXSTATUS_HSLOT_SHIFT WL_TXSTATUS_HSLOT_MASK.

(** This field has no shift. *)
Definition WL_TXSTATUS_FREERUNCTR_MASK : Z := 255.
Definition WL_TXSTATUS_SET_FREERUNCTR := set_field 0 WL_TXSTATUS_FREERUNCTR_MASK.
Definition WL_TXSTATUS_GET_FREERUNCTR := get_field 0 WL_TXSTATUS_FREERUNCTR_MASK.

Definition WLFC_PKTFLAG_PKTFROMHOST : Z := 1.
Definition WLFC_PKTFLAG_PKT_REQUESTED : Z := 2.
Definition WLFC_PKTFLAG_SET_PKTREQUESTED (x : Z) : Z :=
  Z.lor x (Z.shiftl WLFC_PKTFLAG_PKT_REQUESTED WL_TXSTATUS_FLAGS_SHIFT).
Definition WLFC_PKTFLAG_CLR_PKTREQUESTED (x : Z) : Z :=
  Z.land x (Z.lnot (Z.shiftl WLFC_PKTFLAG_PKT_REQUESTED WL_TXSTATUS_FLAGS_SHIFT)).

(** The statuses of a packet. *)
Definition WLFC_CTL_PKTFLAG_DISCARD : Z := 0.
Definition WLFC_CTL_PKTFLAG_D11SUPPRESS : Z := 1.
Definition WLFC_CTL_PKTFLAG_WLSUPPRESS : Z := 2.
Definition WLFC_CTL_PKTFLAG_TOSSED_BYWLC : Z := 3.
Definition WLFC_CTL_PKTFLAG_DISCARD_NOACK : Z := 4.
Definition WLFC_CTL_PKTFLAG_SUPPRESS_ACKED : Z := 5.
Definition WLFC_CTL_PKTFLAG_EXPIRED : Z := 6.
Definition WLFC_CTL_PKTFLAG_DROPPED : Z := 7.

(** ** The sequence number of a packet, a uint16 *)

Definition WL_SEQ_FROMFW_MASK : Z := 1.
Definition WL_SEQ_FROMFW_SHIFT : Z := 13.
Definition WL_SEQ_SET_FROMFW := set_field WL_SEQ_FROMFW_SHIFT WL_SEQ_FROMFW_MASK.
Definition SET_WL_HAS_ASSIGNED_SEQ (x : Z) : Z := WL_SEQ_SET_FROMFW x 1.
Definition GET_WL_HAS_ASSIGNED_SEQ := get_field WL_SEQ_FROMFW_SHIFT WL_SEQ_FROMFW_MASK.

Definition WL_SEQ_FROMDRV_MASK : Z := 1.
Definition WL_SEQ_FROMDRV_SHIFT : Z := 12.
Definition WL_SEQ_SET_REUSE := set_field WL_SEQ_FROMDRV_SHIFT WL_SEQ_FROMDRV_MASK.
Definition RESET_WL_TO_REUSE_SEQ (x : Z) : Z := WL_SEQ_SET_REUSE x 0.
Definition IS_WL_TO_REUSE_SEQ := get_field WL_SEQ_FROMDRV_SHIFT WL_SEQ_FROMDRV_MASK.

Definition WL_SEQ_NUM_MASK : Z := 4095.
Definition WL_SEQ_NUM_SHIFT : Z := 0.
Definition WL_SEQ_SET_NUM := set_field WL_SEQ_NUM_SHIFT WL_SEQ_NUM_MASK.
Definition WL_SEQ_GET_NUM := get_field WL_SEQ_NUM_SHIFT WL_SEQ_NUM_MASK.

(** ** The flags of the host's tag, a uint16 *)

Definition DHD_PKTTAG_WLFCPKT_MASK : Z := 1.
Definition DHD_PKTTAG_WLFCPKT_SHIFT : Z := 15.
Definition DHD_PKTTAG_WLFCPKT_SET := set_field DHD_PKTTAG_WLFCPKT_SHIFT DHD_PKTTAG_WLFCPKT_MASK.
Definition DHD_PKTTAG_WLFCPKT := get_field DHD_PKTTAG_WLFCPKT_SHIFT DHD_PKTTAG_WLFCPKT_MASK.

Definition DHD_PKTTAG_ONETIMEPKTRQST_MASK : Z := 1.
Definition DHD_PKTTAG_ONETIMEPKTRQST_SHIFT : Z := 11.
Definition DHD_PKTTAG_SETONETIMEPKTRQST (x : Z) : Z :=
  set_field DHD_PKTTAG_ONETIMEPKTRQST_SHIFT DHD_PKTTAG_ONETIMEPKTRQST_MASK x 1.
Definition DHD_PKTTAG_ONETIMEPKTRQST := get_field DHD_PKTTAG_ONETIMEPKTRQST_SHIFT DHD_PKTTAG_ONETIMEPKTRQST_MASK.

Definition DHD_PKTTAG_SIGNALONLY_MASK : Z := 1.
Definition DHD_PKTTAG_SIGNALONLY_SHIFT : Z := 10.
Definition DHD_PKTTAG_SETSIGNALONLY := set_field DHD_PKTTAG_SIGNALONLY_SHIFT DHD_PKTTAG_SIGNALONLY_MASK.
Definition DHD_PKTTAG_SIGNALONLY := get_field DHD_PKTTAG_SIGNALONLY_SHIFT DHD_PKTTAG_SIGNALONLY_MASK.

Definition DHD_PKTTAG_PKTDIR_MASK : Z := 1.
Definition DHD_PKTTAG_PKTDIR_SHIFT : Z := 9.
Definition DHD_PKTTAG_SETPKTDIR := set_field DHD_PKTTAG_PKTDIR_SHIFT DHD_PKTTAG_PKTDIR_MASK.

Definition DHD_PKTTAG_CREDITCHECK_MASK : Z := 1.
Definition DHD_PKTTAG_CREDITCHECK_SHIFT : Z := 8.
Definition DHD_PKTTAG_SETCREDITCHECK := set_field DHD_PKTTAG_CREDITCHECK_SHIFT DHD_PKTTAG_CREDITCHECK_MASK.
Definition DHD_PKTTAG_CREDITCHECK := get_field DHD_PKTTAG_CREDITCHECK_SHIFT DHD_PKTTAG_CREDITCHECK_MASK.

Definition DHD_PKTTAG_FIFO_MASK : Z := 7.
Definition DHD_PKTTAG_FIFO_SHIFT : Z := 4.
Definition DHD_PKTTAG_SETFIFO := set_field DHD_PKTTAG_FIFO_SHIFT DHD_PKTTAG_FIFO_MASK.
Definition DHD_PKTTAG_FIFO := get_field DHD_PKTTAG_FIFO_SHIFT DHD_PKTTAG_FIFO_MASK.

Definition DHD_PKTTAG_IF_MASK : Z := 15.
Definition DHD_PKTTAG_IF_SHIFT : Z := 0.
Definition DHD_PKTTAG_SETIF := set_field DHD_PKTTAG_IF_SHIFT DHD_PKTTAG_IF_MASK.
Definition DHD_PKTTAG_IF := get_field DHD_PKTTAG_IF_SHIFT DHD_PKTTAG_IF_MASK.

(** ** The tag that a packet is sent with

    As _dhd_wlfc_pretx_pktprocess puts it together. *)
Definition pretx_tag (free_ctr hslot fifo gen : Z) (credit_check : bool) : Z :=
  let htod := WL_TXSTATUS_SET_FREERUNCTR 0 free_ctr in
  let htod := WL_TXSTATUS_SET_HSLOT htod hslot in
  let htod := WL_TXSTATUS_SET_FIFO htod fifo in
  let htod := WL_TXSTATUS_SET_FLAGS htod WLFC_PKTFLAG_PKTFROMHOST in
  let htod := WL_TXSTATUS_SET_GENERATION htod gen in
  if credit_check then WLFC_PKTFLAG_CLR_PKTREQUESTED htod else WLFC_PKTFLAG_SET_PKTREQUESTED htod.

(** The flag of a requested packet is one bit of the flags. *)
Lemma requested_bit x :
  WLFC_PKTFLAG_SET_PKTREQUESTED x = set_field 28 (Z.ones 1) x 1 ∧ WLFC_PKTFLAG_CLR_PKTREQUESTED x = set_field 28 (Z.ones 1) x 0.
Proof.
  unfold WLFC_PKTFLAG_SET_PKTREQUESTED, WLFC_PKTFLAG_CLR_PKTREQUESTED, WLFC_PKTFLAG_PKT_REQUESTED, WL_TXSTATUS_FLAGS_SHIFT.
  change (Z.shiftl 2 27) with (Z.shiftl 1 28).
  split; apply Z.bits_inj'; intros i Hi; rewrite testbit_set_field by lia; rewrite ?Z.lor_spec, ?Z.land_spec, ?Z.lnot_spec by lia;
    rewrite Z.shiftl_spec by lia; (destruct (Z.eq_dec i 28) as [->|Hne]; [by rewrite ?orb_true_r, ?andb_false_r|]);
    (assert (Z.testbit 1 (i - 28) = false) as -> by (apply (Z.pow2_bits_false 0); lia));
    rewrite ?orb_false_r, ?andb_true_r; destruct (Z.leb_spec 28 i), (Z.ltb_spec i (28 + 1)); by try lia.
Qed.

(** The fields come out of the tag as they went in, each at its width. *)
Lemma pretx_tag_fields free_ctr hslot fifo gen credit_check :
  let t := pretx_tag free_ctr hslot fifo gen credit_check in
  WL_TXSTATUS_GET_FREERUNCTR t = free_ctr mod 2 ^ 8 ∧ WL_TXSTATUS_GET_HSLOT t = hslot mod 2 ^ 16
  ∧ WL_TXSTATUS_GET_FIFO t = fifo mod 2 ^ 3 ∧ WL_TXSTATUS_GET_GENERATION t = gen mod 2 ^ 1
  ∧ get_field 28 1 t = if credit_check then 0 else 1.
Proof.
  cbv zeta. unfold pretx_tag. rewrite (proj1 (requested_bit _)), (proj2 (requested_bit _)).
  assert (∀ b : bool, ∀ x y z, (if b then set_field 28 (Z.ones 1) x y else set_field 28 (Z.ones 1) x z)
            = set_field 28 (Z.ones 1) x (if b then y else z)) as -> by (by intros []).
  unfold WL_TXSTATUS_SET_FREERUNCTR, WL_TXSTATUS_SET_HSLOT, WL_TXSTATUS_SET_FIFO, WL_TXSTATUS_SET_FLAGS, WL_TXSTATUS_SET_GENERATION,
    WL_TXSTATUS_GET_FREERUNCTR, WL_TXSTATUS_GET_HSLOT, WL_TXSTATUS_GET_FIFO, WL_TXSTATUS_GET_GENERATION.
  change WL_TXSTATUS_FREERUNCTR_MASK with (Z.ones 8). change WL_TXSTATUS_HSLOT_MASK with (Z.ones 16).
  change WL_TXSTATUS_FIFO_MASK with (Z.ones 3). change WL_TXSTATUS_FLAGS_MASK with (Z.ones 4).
  change WL_TXSTATUS_GENERATION_MASK with (Z.ones 1). change (get_field 28 1) with (get_field 28 (Z.ones 1)).
  unfold WL_TXSTATUS_HSLOT_SHIFT, WL_TXSTATUS_FIFO_SHIFT, WL_TXSTATUS_FLAGS_SHIFT, WL_TXSTATUS_GENERATION_SHIFT.
  split_and!; repeat (first [rewrite get_set_same by lia | rewrite get_set_other by lia]); try done. by destruct credit_check.
Qed.
