(* ===== verification/WlfcHanger.v ===== *)
(** * Wireless flow control: the hanger (model)

    dhd_wlfc.c: the packets that have been handed to the dongle, each in a slot
    whose number travels with the packet and comes back in its status.  A hanger
    that is a NULL pointer is [None] inside the [option] of each routine; an
    access outside the array of slots is [None] outside. *)

From S2P Require Import Prelude Pktq FlowQueue FlowData WlfcTag.

Definition BCME_NOTFOUND : Z := -30.

Definition WLFC_HANGER_MAXITEMS : Z := 3072.

Inductive hanger_item_state :=
  | WLFC_HANGER_ITEM_STATE_FREE
  | WLFC_HANGER_ITEM_STATE_INUSE
  | WLFC_HANGER_ITEM_STATE_INUSE_SUPPRESSED
  | WLFC_HANGER_ITEM_STATE_FLUSHED.
#[export] Instance hanger_item_state_eq_dec : EqDecision hanger_item_state.
Proof. solve_decision. Defined.

Definition WLFC_HANGER_PKT_STATE_TXSTATUS : Z := 1.
Definition WLFC_HANGER_PKT_STATE_BUSRETURNED : Z := 2.
Definition WLFC_HANGER_PKT_STATE_COMPLETE : Z :=
  Z.lor WLFC_HANGER_PKT_STATE_TXSTATUS WLFC_HANGER_PKT_STATE_BUSRETURNED.

Record wlfc_hanger_item := mk_hitem {
  hi_state : hanger_item_state;
  hi_gen : Z;          (* uint8 *)
  hi_pkt_state : Z;    (* uint8 *)
  hi_pkt_txstatus : Z; (* uint8 *)
  hi_identifier : Z;   (* uint32 *)
  hi_pkt : ptr
}.

Record wlfc_hanger := mk_hanger {
  hg_max_items : Z;        (* int *)
  hg_pushed : Z;           (* uint32, as the counters below *)
  hg_popped : Z;
  hg_failed_to_push : Z;
  hg_failed_to_pop : Z;
  hg_failed_slotfind : Z;
  hg_slot_pos : Z;         (* uint32 *)
  hg_items : list wlfc_hanger_item
}.

Definition set_hitems (x : list wlfc_hanger_item) (h : wlfc_hanger) : wlfc_hanger :=
  mk_hanger (hg_max_items h) (hg_pushed h) (hg_popped h) (hg_failed_to_push h) (hg_failed_to_pop h)
    (hg_failed_slotfind h) (hg_slot_pos h) x.
Definition set_slot_pos (x : Z) (h : wlfc_hanger) : wlfc_hanger :=
  mk_hanger (hg_max_items h) (hg_pushed h) (hg_popped h) (hg_failed_to_push h) (hg_failed_to_pop h)
    (hg_failed_slotfind h) x (hg_items h).
Definition count_pushed (h : wlfc_hanger) : wlfc_hanger :=
  mk_hanger (hg_max_items h) (u32 (hg_pushed h + 1)) (hg_popped h) (hg_failed_to_push h) (hg_failed_to_pop h)
    (hg_failed_slotfind h) (hg_slot_pos h) (hg_items h).
Definition count_popped (h : wlfc_hanger) : wlfc_hanger :=
  mk_hanger (hg_max_items h) (hg_pushed h) (u32 (hg_popped h + 1)) (hg_failed_to_push h) (hg_failed_to_pop h)
    (hg_failed_slotfind h) (hg_slot_pos h) (hg_items h).
Definition count_failed_to_push (h : wlfc_hanger) : wlfc_hanger :=
  mk_hanger (hg_max_items h) (hg_pushed h) (hg_popped h) (u32 (hg_failed_to_push h + 1)) (hg_failed_to_pop h)
    (hg_failed_slotfind h) (hg_slot_pos h) (hg_items h).
Definition count_failed_to_pop (h : wlfc_hanger) : wlfc_hanger :=
  mk_hanger (hg_max_items h) (hg_pushed h) (hg_popped h) (hg_failed_to_push h) (u32 (hg_failed_to_pop h + 1))
    (hg_failed_slotfind h) (hg_slot_pos h) (hg_items h).
Definition count_failed_slotfind (h : wlfc_hanger) : wlfc_hanger :=
  mk_hanger (hg_max_items h) (hg_pushed h) (hg_popped h) (hg_failed_to_push h) (hg_failed_to_pop h)
    (u32 (hg_failed_slotfind h + 1)) (hg_slot_pos h) (hg_items h).

Definition set_hitem (i : Z) (x : wlfc_hanger_item) (h : wlfc_hanger) : option wlfc_hanger :=
  l ← put_ (hg_items h) i x; Some (set_hitems l h).

(** ** Creation *)

Definition free_item : wlfc_hanger_item := mk_hitem WLFC_HANGER_ITEM_STATE_FREE 0 0 0 0 None.

(** [alloc]: whether the memory is there. *)
Definition _dhd_wlfc_hanger_create (alloc : bool) (max_items : Z) : option wlfc_hanger :=
  if negb alloc then None
  else Some (mk_hanger max_items 0 0 0 0 0 0 (replicate (Z.to_nat max_items) free_item)).

(** The hanger is freed: what is left of it, and the result. *)
Definition _dhd_wlfc_hanger_delete (h : option wlfc_hanger) : option wlfc_hanger * Z :=
  match h with Some _ => (None, BCME_OK) | None => (None, BCME_BADARG) end.

(** ** Slots *)

(** [i + 1] around the end of the array. *)
Definition next_slot (h : wlfc_hanger) (i : Z) : Z :=
  let i := u32 (i + 1) in if bool_decide (i = hg_max_items h) then 0 else i.

(** The [while]; it meets each slot at most once, so [max_items] rounds and one
    more are enough. *)
Fixpoint slot_loop (fuel : nat) (h : wlfc_hanger) (i : Z) : option (Z * wlfc_hanger) :=
  if bool_decide (i = hg_slot_pos h) then Some (WLFC_HANGER_MAXITEMS, count_failed_slotfind h)
  else
    match fuel with
    | O => None
    | S fuel =>
        x ← at_ (hg_items h) i;
        if bool_decide (hi_state x = WLFC_HANGER_ITEM_STATE_FREE) then Some (u16 i, set_slot_pos i h)
        else slot_loop fuel h (next_slot h i)
    end.

Definition _dhd_wlfc_hanger_get_free_slot (h : option wlfc_hanger) : option (Z * option wlfc_hanger) :=
  match h with
  | None => Some (WLFC_HANGER_MAXITEMS, None)
  | Some h =>
      '(i, h) ← slot_loop (S (Z.to_nat (hg_max_items h))) h (next_slot h (hg_slot_pos h));
      Some (i, Some h)
  end.

(** The result and [*gen]. *)
Definition _dhd_wlfc_hanger_get_genbit (h : option wlfc_hanger) (slot_id : Z) : option (Z * Z) :=
  if bool_decide (slot_id = WLFC_HANGER_MAXITEMS) then Some (BCME_NOTFOUND, 255)
  else match h with
       | None => Some (BCME_BADARG, 255)
       | Some h =>
           x ← at_ (hg_items h) slot_id;
           Some (if bool_decide (hi_state x ≠ WLFC_HANGER_ITEM_STATE_FREE) then (BCME_OK, hi_gen x)
                 else (BCME_NOTFOUND, 255))
       end.

Definition _dhd_wlfc_hanger_pushpkt (h : option wlfc_hanger) (p : ptr) (slot_id : Z) : option (Z * option wlfc_hanger) :=
  match h with
  | Some h0 =>
      if bool_decide (slot_id < WLFC_HANGER_MAXITEMS) then
        x ← at_ (hg_items h0) slot_id;
        if bool_decide (hi_state x = WLFC_HANGER_ITEM_STATE_FREE) then
          h1 ← set_hitem slot_id (mk_hitem WLFC_HANGER_ITEM_STATE_INUSE (hi_gen x) 0 0 (hi_identifier x) p) h0;
          Some (BCME_OK, Some (count_pushed h1))
        else Some (BCME_NOTFOUND, Some (count_failed_to_push h0))
      else Some (BCME_BADARG, h)
  | None => Some (BCME_BADARG, None)
  end.

(** A slot that is given back. *)
Definition freed_item (x : wlfc_hanger_item) : wlfc_hanger_item :=
  mk_hitem WLFC_HANGER_ITEM_STATE_FREE 255 (hi_pkt_state x) (hi_pkt_txstatus x) 0 None.

(** The result and [*pktout]. *)
Definition _dhd_wlfc_hanger_poppkt (h : option wlfc_hanger) (slot_id : Z) (remove_from_hanger : bool)
    : option (Z * ptr * option wlfc_hanger) :=
  if bool_decide (slot_id = WLFC_HANGER_MAXITEMS) then Some (BCME_NOTFOUND, None, h)
  else match h with
       | None => Some (BCME_BADARG, None, None)
       | Some h0 =>
           x ← at_ (hg_items h0) slot_id;
           if bool_decide (hi_state x ≠ WLFC_HANGER_ITEM_STATE_FREE) then
             if remove_from_hanger then
               h1 ← set_hitem slot_id (freed_item x) h0;
               Some (BCME_OK, hi_pkt x, Some (count_popped h1))
             else Some (BCME_OK, hi_pkt x, h)
           else Some (BCME_NOTFOUND, None, Some (count_failed_to_pop h0))
       end.

Definition set_hstate (st : hanger_item_state) (x : wlfc_hanger_item) : wlfc_hanger_item :=
  mk_hitem st (hi_gen x) (hi_pkt_state x) (hi_pkt_txstatus x) (hi_identifier x) (hi_pkt x).
Definition set_hgen (g : Z) (x : wlfc_hanger_item) : wlfc_hanger_item :=
  mk_hitem (hi_state x) g (hi_pkt_state x) (hi_pkt_txstatus x) (hi_identifier x) (hi_pkt x).

Definition _dhd_wlfc_hanger_mark_suppressed (h : option wlfc_hanger) (slot_id gen : Z) : option (Z * option wlfc_hanger) :=
  if bool_decide (slot_id = WLFC_HANGER_MAXITEMS) then Some (BCME_NOTFOUND, h)
  else match h with
       | None => Some (BCME_BADARG, None)
       | Some h0 =>
           x ← at_ (hg_items h0) slot_id;
           let x := set_hgen gen x in
           if bool_decide (hi_state x = WLFC_HANGER_ITEM_STATE_INUSE) then
             h1 ← set_hitem slot_id (set_hstate WLFC_HANGER_ITEM_STATE_INUSE_SUPPRESSED x) h0;
             Some (BCME_OK, Some h1)
           else h1 ← set_hitem slot_id x h0; Some (BCME_BADARG, Some h1)
       end.

(** [tag] is the tag that went to the dongle with [p]. *)
Definition _dhd_wlfc_hanger_remove_reference (h : option wlfc_hanger) (p : ptr) (tag : Z)
    : option (bool * option wlfc_hanger) :=
  match h, p with
  | Some h0, Some _ =>
      let i := WL_TXSTATUS_GET_HSLOT tag in
      if bool_decide (i < hg_max_items h0) then
        x ← at_ (hg_items h0) i;
        if bool_decide (p = hi_pkt x) && bool_decide (hi_state x = WLFC_HANGER_ITEM_STATE_INUSE_SUPPRESSED) then
          h1 ← set_hitem i (freed_item x) h0; Some (true, Some h1)
        else Some (false, h)
      else Some (false, h)
  | _, _ => Some (false, h)
  end.

(** ** Flushing

    The last loop of _dhd_wlfc_cleanup: the packets that the dongle has, of those
    that [fn] selects, are to be dropped when their status comes.  [None]: all. *)
Definition flush_item (fn : option (ptr -> bool)) (x : wlfc_hanger_item) : wlfc_hanger_item :=
  if (bool_decide (hi_state x = WLFC_HANGER_ITEM_STATE_INUSE)
      || bool_decide (hi_state x = WLFC_HANGER_ITEM_STATE_INUSE_SUPPRESSED))
     && match fn with Some f => f (hi_pkt x) | None => true end
  then set_hstate WLFC_HANGER_ITEM_STATE_FLUSHED x else x.

Definition flush_hanger (fn : option (ptr -> bool)) (h : wlfc_hanger) : wlfc_hanger :=
  set_hitems (flush_item fn <$> take (Z.to_nat (hg_max_items h)) (hg_items h)) h.
