(* ===== verification/WlfcHangerTheorems.v ===== *)
(** * Wireless flow control: the hanger is a map from slots to packets *)

From S2P Require Import Prelude Pktq FlowQueue FlowData WlfcTag WlfcHanger.

(** ** The map *)

Record aitem := mk_aitem { a_pkt : pkt; a_state : hanger_item_state; a_gen : option Z }.

Section Rep.
(** The number of slots. *)
Context (n : Z).

Definition item_rep (x : wlfc_hanger_item) (o : option aitem) : Prop :=
  match o with
  | None => hi_state x = WLFC_HANGER_ITEM_STATE_FREE ∧ hi_pkt x = None
  | Some a => hi_state x = a_state a ∧ a_state a ≠ WLFC_HANGER_ITEM_STATE_FREE ∧ hi_pkt x = Some (a_pkt a)
              ∧ ∀ g, a_gen a = Some g -> hi_gen x = g
  end.

Record hrep (h : wlfc_hanger) (M : gmap Z aitem) : Prop := {
  hr_n : 0 < n <= WLFC_HANGER_MAXITEMS;
  hr_max : hg_max_items h = n;
  hr_len : Z.of_nat (length (hg_items h)) = n;
  hr_pos : 0 <= hg_slot_pos h < n;
  hr_item : ∀ v x, at_ (hg_items h) v = Some x -> item_rep x (M !! v);
  hr_dom : ∀ v a, M !! v = Some a -> 0 <= v < n
}.

Lemma hrep_at h M v : hrep h M -> 0 <= v < n -> ∃ x, at_ (hg_items h) v = Some x ∧ item_rep x (M !! v).
Proof.
  intros H Hv. destruct (at_is_Some (hg_items h) v) as [x Hx]; [rewrite (hr_len _ _ H); lia|].
  exists x. split; [done|]. by apply (hr_item _ _ H).
Qed.

Lemma hrep_put h M v x o h' :
  hrep h M -> 0 <= v < n -> item_rep x o -> hg_max_items h' = hg_max_items h -> hg_slot_pos h' = hg_slot_pos h ->
  hg_items h' = <[Z.to_nat v := x]> (hg_items h) -> hrep h' (partial_alter (λ _, o) v M).
Proof.
  intros H Hv Hx Hm Hp Hi. destruct (hrep_at h M v H Hv) as (y & Hy & _). split.
  - apply H.
  - rewrite Hm. apply H.
  - rewrite Hi, length_insert. apply H.
  - rewrite Hp. apply H.
  - intros w z. rewrite Hi. destruct (decide (w = v)) as [->|Hne].
    + rewrite (at_insert_eq _ _ _ _ Hy), lookup_partial_alter_eq. by intros [= <-].
    + rewrite at_insert_ne, lookup_partial_alter_ne by (done || lia). apply (hr_item _ _ H).
  - intros w a. destruct (decide (w = v)) as [->|Hne]; [done|]. rewrite lookup_partial_alter_ne by done. apply (hr_dom _ _ H).
Qed.

Lemma set_hitem_spec h M v x :
  hrep h M -> 0 <= v < n -> set_hitem v x h = Some (set_hitems (<[Z.to_nat v := x]> (hg_items h)) h).
Proof.
  intros H Hv. destruct (hrep_at h M v H Hv) as (y & Hy & _). unfold set_hitem. by rewrite (put_Some _ _ _ _ Hy).
Qed.

(** Counting changes nothing of the map. *)
Lemma hrep_same h h' M :
  hrep h M -> hg_max_items h' = hg_max_items h -> hg_slot_pos h' = hg_slot_pos h -> hg_items h' = hg_items h -> hrep h' M.
Proof. intros [] H1 H2 H3. split; rewrite ?H1, ?H2, ?H3; done. Qed.

(** ** The search for a free slot *)

(** How far [j] is ahead of [i]. *)
Definition ahead (i j : Z) : Z := if bool_decide (i <= j) then j - i else j - i + n.

Lemma next_slot_spec h M i : hrep h M -> 0 <= i < n -> 0 <= next_slot h i < n ∧ next_slot h i = if bool_decide (i + 1 = n) then 0 else i + 1.
Proof.
  intros H Hi. pose proof (hr_n _ _ H) as Hn. unfold WLFC_HANGER_MAXITEMS in Hn. unfold next_slot.
  rewrite (hr_max _ _ H), u32_small by lia. case_bool_decide; lia.
Qed.

Lemma slot_loop_spec h M fuel : ∀ i,
  hrep h M -> 0 <= i < n -> (Z.to_nat (ahead i (hg_slot_pos h)) <= fuel)%nat ->
  ∃ v h', slot_loop fuel h i = Some (v, h')
    ∧ ((v = WLFC_HANGER_MAXITEMS ∧ h' = count_failed_slotfind h
        ∧ ∀ j, 0 <= j < n -> ahead i j < ahead i (hg_slot_pos h) -> is_Some (M !! j))
       ∨ 0 <= v < n ∧ M !! v = None ∧ h' = set_slot_pos v h).
Proof.
  induction fuel as [|fuel IH]; intros i H Hi Hf; cbn [slot_loop]; pose proof (hr_pos _ _ H) as Hp.
  - unfold ahead in Hf. rewrite (bool_decide_true (i = _)) by (case_bool_decide; lia).
    eexists _, _. split; [done|]. left. split; [done|]. split; [done|]. unfold ahead. intros j Hj. repeat case_bool_decide; lia.
  - case_bool_decide as Ep.
    + eexists _, _. split; [done|]. left. split; [done|]. split; [done|]. unfold ahead. intros j Hj. repeat case_bool_decide; lia.
    + destruct (hrep_at h M i H Hi) as (x & -> & Hx). cbn [mbind option_bind]. case_bool_decide as Es.
      * eexists _, _. split; [done|]. right. pose proof (hr_n _ _ H) as Hn. unfold WLFC_HANGER_MAXITEMS in Hn.
        rewrite u16_small by lia. split; [done|]. split; [|done]. destruct (M !! i) as [a|]; [|done].
        destruct Hx as (E & Hne & _). congruence.
      * destruct (next_slot_spec h M i H Hi) as [Hr Hnext].
        destruct (IH (next_slot h i) H Hr) as (v & h' & E & Hres).
        { unfold ahead in *. rewrite Hnext. repeat case_bool_decide; lia. }
        exists v, h'. split; [done|]. destruct Hres as [(-> & -> & Hall)|Hres]; [left|by right]. split; [done|]. split; [done|].
        intros j Hj Hlt. destruct (decide (j = i)) as [->|Hne].
        { destruct (M !! i) as [a|]; [by exists a|]. by destruct Hx. }
        apply Hall; [done|]. rewrite Hnext. unfold ahead in *. repeat case_bool_decide; lia.
Qed.

Lemma all_but_one (M : gmap Z aitem) p :
  0 < n -> 0 <= p < n -> (∀ j, 0 <= j < n -> j ≠ p -> is_Some (M !! j)) -> n - 1 <= Z.of_nat (size M).
Proof.
  intros H0 Hp H. assert (list_to_set (seqZ 0 n) ∖ {[p]} ⊆ (dom M : gset Z)) as Hs%subseteq_size.
  { intros j Hj. rewrite elem_of_difference, elem_of_list_to_set, elem_of_seqZ, elem_of_singleton in Hj.
    apply elem_of_dom. apply H; [lia|tauto]. }
  rewrite size_dom in Hs. rewrite size_difference in Hs.
  - rewrite size_singleton, size_list_to_set, length_seqZ in Hs by apply NoDup_seqZ. lia.
  - intros x ->%elem_of_singleton. apply elem_of_list_to_set, elem_of_seqZ. lia.
Qed.

Lemma get_free_slot_spec h M :
  hrep h M ->
  ∃ v h', _dhd_wlfc_hanger_get_free_slot (Some h) = Some (v, Some h') ∧ hrep h' M ∧ hg_items h' = hg_items h
    ∧ (v = WLFC_HANGER_MAXITEMS ∧ n - 1 <= Z.of_nat (size M) ∨ 0 <= v < n ∧ M !! v = None).
Proof.
  intros H. pose proof (hr_pos _ _ H) as Hp. pose proof (hr_n _ _ H) as Hn. unfold _dhd_wlfc_hanger_get_free_slot.
  destruct (next_slot_spec h M (hg_slot_pos h) H Hp) as [Hr Hnext].
  destruct (slot_loop_spec h M (S (Z.to_nat (hg_max_items h))) (next_slot h (hg_slot_pos h)) H Hr) as (v & h' & -> & Hres).
  { rewrite (hr_max _ _ H). clear Hnext. unfold ahead. case_bool_decide; lia. }
  cbn [mbind option_bind]. eexists _, _. split; [done|]. destruct Hres as [(-> & -> & Hall)|(Hv & Hm & ->)].
  - split; [by apply (hrep_same h)|]. split; [done|]. left. split; [done|]. apply (all_but_one M (hg_slot_pos h)); [lia|lia|].
    intros j Hj Hne. apply Hall; [done|]. rewrite Hnext. unfold ahead. repeat case_bool_decide; lia.
  - split; [|split; [done|by right]]. destruct H. by split.
Qed.

(** ** Operations *)

(** A packet goes to the dongle as in _dhd_wlfc_pretx_pktprocess: it gets a slot
    or fails. *)
Inductive hop :=
  | HPush (p : pkt)
  | HPop (slot : Z) (remove : bool)
  | HGen (slot : Z)
  | HMark (slot gen : Z)
  | HUnref (p : pkt) (tag : Z)
  | HFlush (fn : option (ptr -> bool)).

(** The result code, a number (the slot of a push, the generation), and a packet. *)
Definition hanswer : Type := Z * Z * ptr.

Definition hexec (o : hop) (h : option wlfc_hanger) : option (hanswer * option wlfc_hanger) :=
  match o with
  | HPush p =>
      '(v, h) ← _dhd_wlfc_hanger_get_free_slot h;
      if bool_decide (v >= WLFC_HANGER_MAXITEMS) then Some (BCME_ERROR, v, None, h)
      else '(rc, h) ← _dhd_wlfc_hanger_pushpkt h (Some p) v; Some (rc, v, None, h)
  | HPop v remove => '(rc, p, h) ← _dhd_wlfc_hanger_poppkt h v remove; Some (rc, 0, p, h)
  | HGen v => '(rc, g) ← _dhd_wlfc_hanger_get_genbit h v; Some (rc, g, None, h)
  | HMark v g => '(rc, h) ← _dhd_wlfc_hanger_mark_suppressed h v g; Some (rc, 0, None, h)
  | HUnref p tag => '(b, h) ← _dhd_wlfc_hanger_remove_reference h (Some p) tag; Some (if (b : bool) then 1 else 0, 0, None, h)
  | HFlush fn => Some (BCME_OK, 0, None, flush_hanger fn <$> h)
  end.

(** The status of the dongle names a slot of the hanger, or none.  The routines
    do not check this. *)
Definition henabled (o : hop) : Prop :=
  match o with
  | HPop v _ | HGen v | HMark v _ => 0 <= v < n ∨ v = WLFC_HANGER_MAXITEMS
  | HPush _ | HUnref _ _ | HFlush _ => True
  end.

#[export] Instance henabled_dec o : Decision (henabled o).
Proof. destruct o; simpl; apply _. Defined.

Definition flushed (fn : option (ptr -> bool)) (a : aitem) : aitem :=
  if match fn with Some f => f (Some (a_pkt a)) | None => true end
  then mk_aitem (a_pkt a) WLFC_HANGER_ITEM_STATE_FLUSHED (a_gen a) else a.

(** What the hanger may answer, and the map it leaves.  A packet that is pushed
    gets any free slot. *)
Inductive hspec (M : gmap Z aitem) : hop -> hanswer -> gmap Z aitem -> Prop :=
  | SPush p v :
      0 <= v < n -> M !! v = None ->
      hspec M (HPush p) (BCME_OK, v, None) (<[v := mk_aitem p WLFC_HANGER_ITEM_STATE_INUSE None]> M)
  | SPushFull p : n - 1 <= Z.of_nat (size M) -> hspec M (HPush p) (BCME_ERROR, WLFC_HANGER_MAXITEMS, None) M
  | SPop v (remove : bool) a :
      M !! v = Some a -> hspec M (HPop v remove) (BCME_OK, 0, Some (a_pkt a)) (if remove then delete v M else M)
  | SPopNone v remove : M !! v = None -> hspec M (HPop v remove) (BCME_NOTFOUND, 0, None) M
  | SGen v a g : M !! v = Some a -> (∀ g', a_gen a = Some g' -> g = g') -> hspec M (HGen v) (BCME_OK, g, None) M
  | SGenNone v : M !! v = None -> hspec M (HGen v) (BCME_NOTFOUND, 255, None) M
  | SMark v g a :
      M !! v = Some a -> a_state a = WLFC_HANGER_ITEM_STATE_INUSE ->
      hspec M (HMark v g) (BCME_OK, 0, None) (<[v := mk_aitem (a_pkt a) WLFC_HANGER_ITEM_STATE_INUSE_SUPPRESSED (Some g)]> M)
  | SMarkAgain v g a :
      M !! v = Some a -> a_state a ≠ WLFC_HANGER_ITEM_STATE_INUSE ->
      hspec M (HMark v g) (BCME_BADARG, 0, None) (<[v := mk_aitem (a_pkt a) (a_state a) (Some g)]> M)
  | SMarkNone v g :
      M !! v = None -> hspec M (HMark v g) (if bool_decide (v = WLFC_HANGER_MAXITEMS) then BCME_NOTFOUND else BCME_BADARG, 0, None) M
  | SUnref p tag g :
      M !! WL_TXSTATUS_GET_HSLOT tag = Some (mk_aitem p WLFC_HANGER_ITEM_STATE_INUSE_SUPPRESSED g) ->
      hspec M (HUnref p tag) (1, 0, None) (delete (WL_TXSTATUS_GET_HSLOT tag) M)
  | SUnrefNone p tag :
      (∀ g, M !! WL_TXSTATUS_GET_HSLOT tag ≠ Some (mk_aitem p WLFC_HANGER_ITEM_STATE_INUSE_SUPPRESSED g)) ->
      hspec M (HUnref p tag) (0, 0, None) M
  | SFlush fn : hspec M (HFlush fn) (BCME_OK, 0, None) (flushed fn <$> M).

Section Step.
Context (h : wlfc_hanger) (M : gmap Z aitem) (H : hrep h M).

Lemma max_not_slot : M !! WLFC_HANGER_MAXITEMS = None.
Proof. destruct (M !! _) as [a|] eqn:E; [|done]. apply (hr_dom _ _ H) in E. pose proof (hr_n _ _ H). lia. Qed.

Lemma push_step p : ∃ x h' M', hexec (HPush p) (Some h) = Some (x, Some h') ∧ hspec M (HPush p) x M' ∧ hrep h' M'.
Proof.
  cbn [hexec]. destruct (get_free_slot_spec h M H) as (v & h1 & -> & H1 & Hi & Hv). cbn [mbind option_bind].
  destruct Hv as [[-> Hfull]|[Hv Hm]].
  - rewrite bool_decide_true by lia. eexists _, h1, M. split; [done|]. split; [by constructor|done].
  - pose proof (hr_n _ _ H). rewrite bool_decide_false by lia. unfold _dhd_wlfc_hanger_pushpkt. rewrite bool_decide_true by lia.
    destruct (hrep_at h1 M v H1 Hv) as (x & Hx & Hr). rewrite Hm in Hr. destruct Hr as [Hs Hp].
    rewrite Hx. cbn [mbind option_bind]. rewrite bool_decide_true by done. rewrite (set_hitem_spec h1 M v _ H1 Hv).
    cbn [mbind option_bind]. eexists _, _, _. split; [done|]. split; [by apply SPush|].
    apply (hrep_put h1 M v (mk_hitem WLFC_HANGER_ITEM_STATE_INUSE (hi_gen x) 0 0 (hi_identifier x) (Some p))
             (Some (mk_aitem p WLFC_HANGER_ITEM_STATE_INUSE None))); done.
Qed.

Lemma pop_step v remove :
  henabled (HPop v remove) ->
  ∃ x h' M', hexec (HPop v remove) (Some h) = Some (x, Some h') ∧ hspec M (HPop v remove) x M' ∧ hrep h' M'.
Proof.
  cbn [hexec henabled]. unfold _dhd_wlfc_hanger_poppkt. intros Hv. case_bool_decide as E.
  - subst v. eexists _, h, M. split; [done|]. split; [apply SPopNone, max_not_slot|done].
  - destruct Hv as [Hv|?]; [|done]. destruct (hrep_at h M v H Hv) as (x & -> & Hr). cbn [mbind option_bind].
    destruct (M !! v) as [a|] eqn:Ea.
    + destruct Hr as (Hs & Hne & Hp & _). rewrite bool_decide_true by congruence. destruct remove.
      * rewrite (set_hitem_spec h M v _ H Hv). cbn [mbind option_bind]. eexists _, _, (delete v M). split; [done|].
        rewrite Hp. split; [by apply (SPop M v true)|]. by apply (hrep_put h M v (freed_item x) None).
      * eexists _, h, M. split; [done|]. rewrite Hp. split; [by apply (SPop M v false)|done].
    + destruct Hr as [Hs _]. rewrite bool_decide_false by (rewrite Hs; tauto). eexists _, _, M. split; [done|].
      split; [by apply SPopNone|]. by apply (hrep_same h).
Qed.

Lemma gen_step v :
  henabled (HGen v) -> ∃ x h' M', hexec (HGen v) (Some h) = Some (x, Some h') ∧ hspec M (HGen v) x M' ∧ hrep h' M'.
Proof.
  cbn [hexec henabled]. unfold _dhd_wlfc_hanger_get_genbit. intros Hv. case_bool_decide as E.
  - subst v. eexists _, h, M. split; [done|]. split; [apply SGenNone, max_not_slot|done].
  - destruct Hv as [Hv|?]; [|done]. destruct (hrep_at h M v H Hv) as (x & -> & Hr). cbn [mbind option_bind].
    destruct (M !! v) as [a|] eqn:Ea.
    + destruct Hr as (Hs & Hne & _ & Hg). rewrite bool_decide_true by congruence. eexists _, h, M. split; [done|].
      split; [|done]. apply (SGen M v a); [done|]. intros g' Hg'. by apply Hg.
    + destruct Hr as [Hs _]. rewrite bool_decide_false by (rewrite Hs; tauto). eexists _, h, M. split; [done|].
      split; [by apply SGenNone|done].
Qed.

Lemma mark_step v g :
  henabled (HMark v g) -> ∃ x h' M', hexec (HMark v g) (Some h) = Some (x, Some h') ∧ hspec M (HMark v g) x M' ∧ hrep h' M'.
Proof.
  cbn [hexec henabled]. unfold _dhd_wlfc_hanger_mark_suppressed. intros Hv. case_bool_decide as E.
  - subst v. eexists _, h, M. split; [done|]. split; [|done].
    pose proof (SMarkNone M WLFC_HANGER_MAXITEMS g max_not_slot) as Hs. by rewrite bool_decide_true in Hs by done.
  - destruct Hv as [Hv|?]; [|done]. destruct (hrep_at h M v H Hv) as (x & -> & Hr). cbn [mbind option_bind].
    change (hi_state (set_hgen g x)) with (hi_state x). rewrite !(set_hitem_spec h M v _ H Hv). cbn [mbind option_bind].
    destruct (M !! v) as [a|] eqn:Ea.
    + destruct Hr as (Hs & Hne & Hp & Hg). rewrite Hs. case_bool_decide as Ei.
      * eexists _, _, _. split; [done|]. split; [by apply (SMark M v g a)|].
        apply (hrep_put h M v (set_hstate WLFC_HANGER_ITEM_STATE_INUSE_SUPPRESSED (set_hgen g x))
                 (Some (mk_aitem (a_pkt a) WLFC_HANGER_ITEM_STATE_INUSE_SUPPRESSED (Some g)))); try done.
        split; [done|]. split; [done|]. split; [done|]. by intros g' [= <-].
      * eexists _, _, _. split; [done|]. split; [by apply (SMarkAgain M v g a)|].
        apply (hrep_put h M v (set_hgen g x) (Some (mk_aitem (a_pkt a) (a_state a) (Some g)))); try done.
        split; [done|]. split; [done|]. split; [done|]. by intros g' [= <-].
    + destruct Hr as [Hs Hp]. rewrite bool_decide_false by (rewrite Hs; done). eexists _, _, M. split; [done|]. split.
      * pose proof (SMarkNone M v g Ea) as Hsp. by rewrite bool_decide_false in Hsp by done.
      * rewrite <-(delete_id M v Ea). by apply (hrep_put h M v (set_hgen g x) None).
Qed.

Lemma unref_step p tag :
  ∃ x h' M', hexec (HUnref p tag) (Some h) = Some (x, Some h') ∧ hspec M (HUnref p tag) x M' ∧ hrep h' M'.
Proof.
  cbn [hexec]. unfold _dhd_wlfc_hanger_remove_reference. set (v := WL_TXSTATUS_GET_HSLOT tag).
  pose proof (get_field_range 8 16 tag) as Hr0. rewrite (hr_max _ _ H).
  assert (0 <= v) as Hv0 by (apply Hr0; lia). clear Hr0.
  assert (∀ h', hrep h' M -> (∀ g, M !! v ≠ Some (mk_aitem p WLFC_HANGER_ITEM_STATE_INUSE_SUPPRESSED g)) ->
    ∃ x h'' M', Some (0, 0, None : ptr, Some h') = Some (x, Some h'') ∧ hspec M (HUnref p tag) x M' ∧ hrep h'' M') as Hno.
  { intros h' Hr Hg. eexists _, h', M. split; [done|]. split; [by apply SUnrefNone|done]. }
  case_bool_decide as Hlt; [|cbn [mbind option_bind]; apply Hno; [done|]; intros g Hg%(hr_dom _ _ H); lia].
  destruct (hrep_at h M v H ltac:(lia)) as (x & -> & Hr). cbn [mbind option_bind].
  destruct (bool_decide (Some p = hi_pkt x) && _) eqn:Eb.
  - rewrite andb_true_iff, !bool_decide_eq_true in Eb. destruct Eb as [Ep Es]. rewrite (set_hitem_spec h M v _ H) by lia.
    cbn [mbind option_bind]. destruct (M !! v) as [a|] eqn:Ea; [|destruct Hr; congruence].
    destruct Hr as (Hs & Hne & Hp & _). eexists _, _, (delete v M). split; [done|]. split.
    + apply (SUnref M p tag (a_gen a)). fold v. rewrite Ea. destruct a as [ap ast ag]. cbn in *. congruence.
    + apply (hrep_put h M v (freed_item x) None); done || lia.
  - cbn [mbind option_bind]. apply Hno; [done|]. intros g Hg. rewrite Hg in Hr. destruct Hr as (Hs & _ & Hp & _). cbn in Hs, Hp.
    rewrite Hs, Hp, !bool_decide_true in Eb by done. done.
Qed.

Lemma flush_step fn :
  ∃ x h' M', hexec (HFlush fn) (Some h) = Some (x, Some h') ∧ hspec M (HFlush fn) x M' ∧ hrep h' M'.
Proof.
  eexists _, (flush_hanger fn h), (flushed fn <$> M). split; [done|]. split; [constructor|].
  unfold flush_hanger. rewrite (hr_max _ _ H), take_ge by (pose proof (hr_len _ _ H); lia).
  split; try apply H; cbn.
  - rewrite length_fmap. apply H.
  - intros v x [Hv Hx]%at_Some. rewrite list_lookup_fmap in Hx. destruct (hg_items h !! Z.to_nat v) as [y|] eqn:Ey; [|done].
    injection Hx as <-. pose proof (hr_item _ _ H v y) as Hy. unfold at_ in Hy. rewrite bool_decide_true in Hy by done.
    specialize (Hy Ey). rewrite lookup_fmap. destruct (M !! v) as [a|]; cbn.
    + destruct Hy as (Hs & Hne & Hp & Hg). unfold flush_item, flushed. rewrite Hs, Hp.
      destruct (match fn with Some f => f (Some (a_pkt a)) | None => true end) eqn:Ef.
      * destruct (a_state a) eqn:Est; try done; cbn; repeat split; try done.
      * rewrite andb_false_r. repeat split; done.
    + destruct Hy as [Hs Hp]. unfold flush_item. rewrite Hs. by repeat split.
  - intros v a. rewrite lookup_fmap. destruct (M !! v) as [b|] eqn:Eb; [|done]. intros _. by apply (hr_dom _ _ H v b).
Qed.

Lemma hexec_step o :
  henabled o -> ∃ x h' M', hexec o (Some h) = Some (x, Some h') ∧ hspec M o x M' ∧ hrep h' M'.
Proof.
  destruct o; intros He; [by apply push_step|by apply pop_step|by apply gen_step|by apply mark_step|
    by apply unref_step|by apply flush_step].
Qed.
End Step.

(** ** Runs *)

Fixpoint hexec_all (os : list hop) (h : option wlfc_hanger) : option (list hanswer * option wlfc_hanger) :=
  match os with
  | [] => Some ([], h)
  | o :: os => '(x, h) ← hexec o h; '(xs, h) ← hexec_all os h; Some (x :: xs, h)
  end.

Inductive hrun : gmap Z aitem -> list hop -> list hanswer -> gmap Z aitem -> Prop :=
  | hrun_nil M : hrun M [] [] M
  | hrun_cons M M' M'' o os x xs : hspec M o x M' -> hrun M' os xs M'' -> hrun M (o :: os) (x :: xs) M''.

Lemma hexec_all_step os : ∀ h M,
  hrep h M -> Forall henabled os ->
  ∃ xs h' M', hexec_all os (Some h) = Some (xs, Some h') ∧ hrun M os xs M' ∧ hrep h' M'.
Proof.
  induction os as [|o os IH]; intros h M H He; cbn [hexec_all].
  - eexists [], h, M. split; [done|]. split; [constructor|done].
  - apply Forall_cons in He as [He Hes]. destruct (hexec_step h M H o He) as (x & h1 & M1 & -> & Hs & H1).
    cbn [mbind option_bind]. destruct (IH h1 M1 H1 Hes) as (xs & h2 & M2 & -> & Hr & H2). cbn [mbind option_bind].
    eexists _, h2, M2. split; [done|]. split; [by econstructor|done].
Qed.

Lemma hexec_outside h M o : hrep h M -> ¬ henabled o -> hexec o (Some h) = None.
Proof.
  intros H Ho. assert (∀ v, ¬ (0 <= v < n ∨ v = WLFC_HANGER_MAXITEMS) -> v ≠ WLFC_HANGER_MAXITEMS ∧ at_ (hg_items h) v = None) as Hat.
  { intros v Hv. split; [tauto|].
    destruct (at_ (hg_items h) v) as [x|] eqn:Ex; [|done]. apply at_range in Ex. rewrite (hr_len _ _ H) in Ex. tauto. }
  destruct o as [p|v rm|v|v g|p tag|fn]; simpl in Ho; try tauto; destruct (Hat v Ho) as [Hne E]; cbn [hexec];
    unfold _dhd_wlfc_hanger_poppkt, _dhd_wlfc_hanger_get_genbit, _dhd_wlfc_hanger_mark_suppressed;
    by rewrite bool_decide_false, E by done.
Qed.

Lemma hexec_all_outside os : ∀ h M, hrep h M -> Exists (fun o => ¬ henabled o) os -> hexec_all os (Some h) = None.
Proof.
  induction os as [|o os IH]; intros h M H He; [by apply Exists_nil in He|]. cbn [hexec_all].
  destruct (decide (henabled o)) as [Ho|Ho]; [|by rewrite (hexec_outside h M)].
  destruct (hexec_step h M H o Ho) as (x & h1 & M1 & -> & _ & H1). cbn [mbind option_bind].
  apply Exists_cons in He as [?|He]; [done|]. by rewrite (IH h1 M1).
Qed.

Lemma create_rep : 0 < n <= WLFC_HANGER_MAXITEMS ->
  ∃ h, _dhd_wlfc_hanger_create true n = Some h ∧ hrep h ∅.
Proof.
  intros Hn. eexists. split; [done|]. split; cbn; [done|done|rewrite length_replicate; lia|lia| |done].
  intros v x [_ Hx]%at_Some. by apply lookup_replicate in Hx as [-> _].
Qed.

(** C18.  Every run of a hanger with [n] slots in which each status names a slot
    below [n], or the constant for "none" (WLFC_HANGER_MAXITEMS), behaves as a map
    from slots to packets: a packet is put into a slot that was free, or fails,
    and that only when at most one slot is free; a status finds the packet of its
    slot, with the generation of its suppression; and slots are freed once.  The
    search for a slot ends, and no access leaves the array.  A run with a status
    that names another slot does leave the array: the routines compare with
    WLFC_HANGER_MAXITEMS for equality only. *)
Theorem hanger_run_refines (ops : list hop) :
  0 < n <= WLFC_HANGER_MAXITEMS ->
  ∃ h, _dhd_wlfc_hanger_create true n = Some h ∧
  match hexec_all ops (Some h) with
  | Some (xs, Some h') => Forall henabled ops ∧ ∃ M, hrun ∅ ops xs M ∧ hrep h' M
  | Some (_, None) => False
  | None => Exists (fun o => ¬ henabled o) ops
  end.
Proof.
  intros Hn. destruct (create_rep Hn) as (h & E & H). exists h. split; [done|].
  destruct (decide (Forall henabled ops)) as [He|He].
  - destruct (hexec_all_step ops h ∅ H He) as (xs & h' & M & -> & Hr & H'). eauto.
  - apply not_Forall_Exists in He; [|apply _]. by rewrite (hexec_all_outside ops h ∅).
Qed.
End Rep.

Definition hanger_demo : list hop :=
  [HPush 1; HPush 2; HPush 3; HPush 4; HPop 1 false; HMark 1 1; HGen 1; HMark 1 0; HUnref 1 (WL_TXSTATUS_SET_HSLOT 0 1);
   HPush 4; HPop 2 true; HPop 2 true; HFlush None; HPop 0 true].

(** A run, and one with a slot past the end. *)
Lemma hanger_run_refines_witness :
  (∃ h xs h' M, _dhd_wlfc_hanger_create true 4 = Some h
    ∧ hexec_all hanger_demo (Some h) = Some (xs, Some h') ∧ hrun 4 ∅ hanger_demo xs M ∧ hrep 4 h' M)
  ∧ fst <$> hexec_all hanger_demo (_dhd_wlfc_hanger_create true 4)
    = Some [(0, 1, None); (0, 2, None); (0, 3, None); (0, 0, None); (0, 0, Some 1%positive); (0, 0, None); (0, 1, None);
            (-2, 0, None); (1, 0, None); (0, 1, None); (0, 0, Some 2%positive); (-30, 0, None); (0, 0, None);
            (0, 0, Some 4%positive)]
  ∧ hexec_all [HPush 1; HPop 4 true] (_dhd_wlfc_hanger_create true 4) = None.
Proof.
  split; [|by vm_compute].
  destruct (hanger_run_refines 4 hanger_demo) as (h & E & H); [by vm_compute|]. rewrite <-E in H.
  destruct (hexec_all hanger_demo (_dhd_wlfc_hanger_create true 4)) as [[xs [h'|]]|] eqn:Ex;
    [|destruct H|vm_compute in Ex; discriminate Ex].
  destruct H as (_ & M & Hr & H'). exists h, xs, h', M. rewrite <-E. auto.
Defined.

(** The search skips the slot of the last push, also when it is the one that is
    free. *)
Example hanger_misses_last_slot :
  fst <$> hexec_all [HPush 1; HPush 2; HPush 3; HPush 4; HPop 0 true; HPush 5] (_dhd_wlfc_hanger_create true 4)
  = Some [(0, 1, None); (0, 2, None); (0, 3, None); (0, 0, None); (0, 0, Some 4%positive); (-1, 3072, None)].
Proof. by vm_compute. Qed.
