(* ===== verification/WlfcCredit.v ===== *)
(** * Wireless flow control: credits (model)

    dhd_wlfc.c: the dongle gives the host a number of credits for each access
    category, and a packet that goes to the dongle takes one.  A category that
    has none left borrows from another.  The record holds the credit fields of
    athost_wl_status_info_t.  A pointer to that state that is NULL is [None]
    inside; an access outside an array is [None] outside.  The counters are C
    ints: the theorems bound them, so they are numbers here. *)

From S2P Require Import Prelude Pktq FlowQueue FlowData WlfcTag.

Definition AC_COUNT : Z := 4.

Definition WLFC_BORROW_LIMIT_RATIO : Z := 4.

Definition WLFC_CTL_VALUE_LEN_FIFO_CREDITBACK : Z := 6.

(** proptxstatus_mode *)
Definition WLFC_FCMODE_NONE : Z := 0.
Definition WLFC_FCMODE_IMPLIED_CREDIT : Z := 1.
Definition WLFC_FCMODE_EXPLICIT_CREDIT : Z := 2.

Record wlfc_credits := mk_credits {
  Init_FIFO_credit : list Z;       (* [AC_COUNT + 2] *)
  FIFO_credit : list Z;            (* [AC_COUNT + 2] *)
  credits_borrowed : list (list Z) (* [borrower][lender] *)
}.

Definition no_credits : wlfc_credits :=
  let n := Z.to_nat (AC_COUNT + 2) in mk_credits (replicate n 0) (replicate n 0) (replicate n (replicate n 0)).

Definition set_init (a x : Z) (c : wlfc_credits) : option wlfc_credits :=
  l ← put_ (Init_FIFO_credit c) a x; Some (mk_credits l (FIFO_credit c) (credits_borrowed c)).
Definition set_fifo (a x : Z) (c : wlfc_credits) : option wlfc_credits :=
  l ← put_ (FIFO_credit c) a x; Some (mk_credits (Init_FIFO_credit c) l (credits_borrowed c)).
Definition get_borrowed (b a : Z) (c : wlfc_credits) : option Z := r ← at_ (credits_borrowed c) b; at_ r a.
Definition set_borrowed (b a x : Z) (c : wlfc_credits) : option wlfc_credits :=
  r ← at_ (credits_borrowed c) b; r ← put_ r a x; l ← put_ (credits_borrowed c) b r;
  Some (mk_credits (Init_FIFO_credit c) (FIFO_credit c) l).

(** [FIFO_credit[a] += d], [credits_borrowed[b][a] += d] *)
Definition add_fifo (a d : Z) (c : wlfc_credits) : option wlfc_credits := x ← at_ (FIFO_credit c) a; set_fifo a (x + d) c.
Definition add_borrowed (b a d : Z) (c : wlfc_credits) : option wlfc_credits := x ← get_borrowed b a c; set_borrowed b a (x + d) c.

(** A packet that is sent on the category's own credit (dhd_wlfc_transfer_packets). *)
Definition spend_credit (ac : Z) (c : wlfc_credits) : option wlfc_credits := add_fifo ac (-1) c.

(** ** Borrowing *)

Definition borrow_limit (bBorrowAll : bool) (a : Z) (c : wlfc_credits) : option Z :=
  if bBorrowAll then Some 0 else x ← at_ (Init_FIFO_credit c) a; Some (Z.quot x WLFC_BORROW_LIMIT_RATIO).

Fixpoint borrow_loop (lenders : list Z) (borrower_ac : Z) (bBorrowAll : bool) (c : wlfc_credits)
    : option (Z * wlfc_credits) :=
  match lenders with
  | [] => Some (-1, c)
  | l :: lenders =>
      lim ← borrow_limit bBorrowAll l c;
      f ← at_ (FIFO_credit c) l;
      if bool_decide (f > lim) then
        c ← add_borrowed borrower_ac l 1 c; c ← add_fifo l (-1) c; Some (l, c)
      else borrow_loop lenders borrower_ac bBorrowAll c
  end.

(** The lender, or -1. *)
Definition _dhd_wlfc_borrow_credit (c : option wlfc_credits) (highest_lender_ac borrower_ac : Z) (bBorrowAll : bool)
    : option (Z * option wlfc_credits) :=
  match c with
  | None => Some (-1, None)
  | Some c => '(l, c) ← borrow_loop (seqZ 0 (highest_lender_ac + 1)) borrower_ac bBorrowAll c; Some (l, Some c)
  end.

Definition _dhd_wlfc_return_credit (c : option wlfc_credits) (lender_ac borrower_ac : Z) : option (Z * option wlfc_credits) :=
  match c with
  | Some c0 =>
      if bool_decide (lender_ac < 0) || bool_decide (lender_ac > AC_COUNT)
         || bool_decide (borrower_ac < 0) || bool_decide (borrower_ac > AC_COUNT)
      then Some (BCME_BADARG, c)
      else c1 ← add_borrowed borrower_ac lender_ac (-1) c0; c2 ← add_fifo lender_ac 1 c1; Some (BCME_OK, Some c2)
  | None => Some (BCME_BADARG, None)
  end.

(** ** Credits that come back *)

(** From the highest to the lowest priority. *)
Definition lenders_down : list Z := reverse (seqZ 0 (AC_COUNT + 1)).

(** Whether a lender was found. *)
Fixpoint implied_loop (lenders : list Z) (fifo_id : Z) (c : wlfc_credits) : option (bool * wlfc_credits) :=
  match lenders with
  | [] => Some (false, c)
  | l :: lenders =>
      x ← get_borrowed fifo_id l c;
      if bool_decide (x > 0) then c ← add_fifo l 1 c; c ← add_borrowed fifo_id l (-1) c; Some (true, c)
      else implied_loop lenders fifo_id c
  end.

(** [mode] is proptxstatus_mode, [flags] the flags in the packet's tag, [None]
    for no packet. *)
Definition _dhd_wlfc_return_implied_credit (mode : Z) (c : option wlfc_credits) (flags : option Z)
    : option (option wlfc_credits) :=
  match c, flags with
  | Some c0, Some t =>
      if bool_decide (mode = WLFC_FCMODE_IMPLIED_CREDIT) && bool_decide (DHD_PKTTAG_CREDITCHECK t ≠ 0) then
        let fifo_id := DHD_PKTTAG_FIFO t in
        '(returned, c1) ← implied_loop lenders_down fifo_id c0;
        c2 ← (if (returned : bool) then Some c1 else add_fifo fifo_id 1 c1);
        Some (Some c2)
      else Some c
  | _, _ => Some c
  end.

(** [k] is [credits[i]]. *)
Fixpoint back_loop (lenders : list Z) (i k : Z) (c : wlfc_credits) : option (Z * wlfc_credits) :=
  match lenders with
  | [] => Some (k, c)
  | l :: lenders =>
      if bool_decide (k > 0) then
        x ← get_borrowed i l c;
        '(k, c) ← (if bool_decide (x > 0) then
                     if bool_decide (k >= x) then
                       c ← add_fifo l x c; c ← set_borrowed i l 0 c; Some (u8 (k - u8 x), c)
                     else c ← add_borrowed i l (- k) c; c ← add_fifo l k c; Some (0, c)
                   else Some (k, c));
        back_loop lenders i k c
      else Some (k, c)
  end.

(** One round of the outer loop in explicit mode. *)
Definition back_ac (i k : Z) (c : wlfc_credits) : option (Z * wlfc_credits) :=
  '(k, c) ← back_loop lenders_down i k c;
  c ← (if bool_decide (k > 0) then add_fifo i k c else Some c);
  f ← at_ (FIFO_credit c) i;
  m ← at_ (Init_FIFO_credit c) i;
  c ← (if bool_decide (f > m) then set_fifo i m c else Some c);
  Some (k, c).

Fixpoint back_all (acs : list Z) (mode : Z) (credits : list Z) (c : wlfc_credits) : option (list Z * wlfc_credits) :=
  match acs with
  | [] => Some (credits, c)
  | i :: acs =>
      if bool_decide (mode = WLFC_FCMODE_EXPLICIT_CREDIT) then
        k ← at_ credits i;
        '(k, c) ← back_ac i k c;
        credits ← put_ credits i k;
        back_all acs mode credits c
      else back_all acs mode credits c
  end.

(** [credits] is the value in the packet from the dongle, which is written too. *)
Definition _dhd_wlfc_fifocreditback_indicate (mode : Z) (c : wlfc_credits) (credits : list Z)
    : option (Z * list Z * wlfc_credits) :=
  '(credits, c) ← back_all (seqZ 0 WLFC_CTL_VALUE_LEN_FIFO_CREDITBACK) mode credits c;
  Some (BCME_OK, credits, c).

(** ** The number of credits *)

Definition map_fifo (credits : list Z) (i : Z) (c : wlfc_credits) : option wlfc_credits :=
  k ← at_ credits i; m ← at_ (Init_FIFO_credit c) i; add_fifo i (k - m) c.
Definition map_init (credits : list Z) (i : Z) (c : wlfc_credits) : option wlfc_credits :=
  k ← at_ credits i; set_init i k c.

Definition for_each_ac (f : Z -> wlfc_credits -> option wlfc_credits) (acs : list Z) (c : wlfc_credits) : option wlfc_credits :=
  foldl (λ c i, c ≫= f i) (Some c) acs.

Definition _dhd_wlfc_FIFOcreditmap_update (c : wlfc_credits) (credits : list Z) : option (Z * wlfc_credits) :=
  c ← for_each_ac (map_fifo credits) [0; 1; 2; 3; 4] c;
  c ← for_each_ac (map_init credits) [0; 1; 2; 3; 4] c;
  c ← set_fifo 5 0 c;
  c ← set_init 5 0 c;
  Some (BCME_OK, c).
