(* ===== verification/WlfcCreditTheorems.v ===== *)
(** * Wireless flow control: no credit is lost *)

From S2P Require Import Prelude Pktq FlowQueue FlowData WlfcTag WlfcCredit.

(** ** The credits as functions *)

(** The categories, with the two for broadcast and ATIM. *)
Definition acs : Z := AC_COUNT + 2.

(** A sum over the categories. *)
Definition acsum (f : Z -> Z) : Z := f 0 + f 1 + f 2 + f 3 + f 4 + f 5.

(** [d] more at [a]. *)
Definition plus_at (a d : Z) (f : Z -> Z) (x : Z) : Z := f x + if bool_decide (x = a) then d else 0.

Lemma plus_at_eq a d f : plus_at a d f a = f a + d.
Proof. unfold plus_at. by rewrite bool_decide_true. Qed.

Lemma acsum_plus a d f : 0 <= a < acs -> acsum (plus_at a d f) = acsum f + d.
Proof.
  intros H. unfold acsum, plus_at. unfold acs, AC_COUNT in H. assert (a = 0 ∨ a = 1 ∨ a = 2 ∨ a = 3 ∨ a = 4 ∨ a = 5) as Ha by lia.
  destruct_or? Ha; subst a; repeat case_bool_decide; lia.
Qed.

Lemma acsum_ext f g : (∀ x, 0 <= x < acs -> f x = g x) -> acsum f = acsum g.
Proof. intros H. unfold acsum. by rewrite !H by (unfold acs, AC_COUNT; lia). Qed.

Lemma acsum_nonneg f : (∀ x, 0 <= x < acs -> 0 <= f x) -> 0 <= acsum f.
Proof.
  unfold acsum, acs, AC_COUNT. intros H. pose proof (H 0). pose proof (H 1). pose proof (H 2). pose proof (H 3). pose proof (H 4).
  pose proof (H 5). lia.
Qed.

Lemma acsum_zero f x : (∀ x, 0 <= x < acs -> 0 <= f x) -> acsum f = 0 -> 0 <= x < acs -> f x = 0.
Proof.
  unfold acsum, acs, AC_COUNT. intros H Hs Hx. pose proof (H 0). pose proof (H 1). pose proof (H 2). pose proof (H 3).
  pose proof (H 4). pose proof (H 5). assert (x = 0 ∨ x = 1 ∨ x = 2 ∨ x = 3 ∨ x = 4 ∨ x = 5) as Ha by lia.
  destruct_or? Ha; subst x; lia.
Qed.

(** The value of an array at an index, and of the table of loans. *)
Definition val (l : list Z) (a : Z) : Z := default 0 (at_ l a).
Definition owed (c : wlfc_credits) (b a : Z) : Z := default 0 (get_borrowed b a c).

(** The arrays have their sizes. *)
Record shape (c : wlfc_credits) : Prop := {
  sh_init : Z.of_nat (length (Init_FIFO_credit c)) = acs;
  sh_fifo : Z.of_nat (length (FIFO_credit c)) = acs;
  sh_rows : Z.of_nat (length (credits_borrowed c)) = acs;
  sh_row : Forall (λ r, Z.of_nat (length r) = acs) (credits_borrowed c)
}.

Lemma val_at l a : 0 <= a < Z.of_nat (length l) -> at_ l a = Some (val l a).
Proof. intros H. unfold val. by destruct (at_is_Some l a H) as [x ->]. Qed.

Lemma val_insert l a b x :
  0 <= a < Z.of_nat (length l) -> val (<[Z.to_nat a := x]> l) b = if bool_decide (b = a) then x else val l b.
Proof.
  intros H. unfold val. destruct (at_is_Some l a H) as [y Hy]. case_bool_decide as E.
  - subst b. by rewrite (at_insert_eq _ _ _ _ Hy).
  - by rewrite at_insert_ne by lia.
Qed.

Section Shape.
Context (c : wlfc_credits) (H : shape c).

Lemma init_at a : 0 <= a < acs -> at_ (Init_FIFO_credit c) a = Some (val (Init_FIFO_credit c) a).
Proof. intros Ha. apply val_at. by rewrite (sh_init _ H). Qed.
Lemma fifo_at a : 0 <= a < acs -> at_ (FIFO_credit c) a = Some (val (FIFO_credit c) a).
Proof. intros Ha. apply val_at. by rewrite (sh_fifo _ H). Qed.
Lemma row_at b : 0 <= b < acs -> ∃ r, at_ (credits_borrowed c) b = Some r ∧ Z.of_nat (length r) = acs.
Proof.
  intros Hb. destruct (at_is_Some (credits_borrowed c) b) as [r Hr]; [by rewrite (sh_rows _ H)|]. exists r. split; [done|].
  apply at_Some in Hr as [_ Hr]. by apply (Forall_lookup_1 _ _ _ _ (sh_row _ H) Hr).
Qed.
Lemma owed_at b a : 0 <= b < acs -> 0 <= a < acs -> get_borrowed b a c = Some (owed c b a).
Proof.
  intros Hb Ha. unfold owed, get_borrowed. destruct (row_at b Hb) as (r & -> & Hl). cbn [mbind option_bind].
  by rewrite val_at by lia.
Qed.

(** An assignment to one of the arrays changes that one only. *)
Lemma set_init_spec a x : 0 <= a < acs -> ∃ c', set_init a x c = Some c' ∧ shape c'
  ∧ (∀ b, val (Init_FIFO_credit c') b = if bool_decide (b = a) then x else val (Init_FIFO_credit c) b)
  ∧ FIFO_credit c' = FIFO_credit c ∧ owed c' = owed c.
Proof.
  intros Ha. unfold set_init. rewrite (put_Some _ _ _ _ (init_at a Ha)). cbn [mbind option_bind]. eexists. split; [done|].
  split; [destruct H; split; cbn; rewrite ?length_insert; done|]. split; [|done]. intros b. cbn. apply val_insert. by rewrite (sh_init _ H).
Qed.

Lemma set_fifo_spec a x : 0 <= a < acs -> ∃ c', set_fifo a x c = Some c' ∧ shape c'
  ∧ (∀ b, val (FIFO_credit c') b = if bool_decide (b = a) then x else val (FIFO_credit c) b)
  ∧ Init_FIFO_credit c' = Init_FIFO_credit c ∧ owed c' = owed c.
Proof.
  intros Ha. unfold set_fifo. rewrite (put_Some _ _ _ _ (fifo_at a Ha)). cbn [mbind option_bind]. eexists. split; [done|].
  split; [destruct H; split; cbn; rewrite ?length_insert; done|]. split; [|done]. intros b. cbn. apply val_insert. by rewrite (sh_fifo _ H).
Qed.

Lemma set_borrowed_spec b a x : 0 <= b < acs -> 0 <= a < acs -> ∃ c', set_borrowed b a x c = Some c' ∧ shape c'
  ∧ (∀ b' a', owed c' b' a' = if bool_decide (b' = b) && bool_decide (a' = a) then x else owed c b' a')
  ∧ Init_FIFO_credit c' = Init_FIFO_credit c ∧ FIFO_credit c' = FIFO_credit c.
Proof.
  intros Hb Ha. unfold set_borrowed. destruct (row_at b Hb) as (r & Hr & Hl). rewrite Hr. cbn [mbind option_bind].
  rewrite (put_Some r a (val r a) x) by (apply val_at; lia). cbn [mbind option_bind]. rewrite (put_Some _ _ _ _ Hr). cbn [mbind option_bind].
  eexists. split; [done|]. split; [|split; [|done]].
  - destruct H as [H1 H2 H3 H4]. split; cbn; rewrite ?length_insert; try done. apply Forall_insert; [done|]. by rewrite length_insert.
  - intros b' a'. unfold owed, get_borrowed. cbn. case_bool_decide as E; cbn.
    + subst b'. rewrite (at_insert_eq _ _ _ _ Hr), Hr. cbn. apply val_insert. lia.
    + by rewrite at_insert_ne by lia.
Qed.

Lemma add_fifo_spec a d : 0 <= a < acs -> ∃ c', add_fifo a d c = Some c' ∧ shape c'
  ∧ (∀ b, val (FIFO_credit c') b = plus_at a d (val (FIFO_credit c)) b)
  ∧ Init_FIFO_credit c' = Init_FIFO_credit c ∧ owed c' = owed c.
Proof.
  intros Ha. unfold add_fifo. rewrite fifo_at by done. cbn [mbind option_bind].
  destruct (set_fifo_spec a (val (FIFO_credit c) a + d) Ha) as (c' & -> & Hs & Hf & Hi & Ho). exists c'. split; [done|].
  split; [done|]. split; [|done]. intros b. rewrite Hf. unfold plus_at. case_bool_decide; subst; lia.
Qed.

Lemma add_borrowed_spec b a d : 0 <= b < acs -> 0 <= a < acs -> ∃ c', add_borrowed b a d c = Some c' ∧ shape c'
  ∧ (∀ b' a', owed c' b' a' = if bool_decide (b' = b) then plus_at a d (owed c b) a' else owed c b' a')
  ∧ Init_FIFO_credit c' = Init_FIFO_credit c ∧ FIFO_credit c' = FIFO_credit c.
Proof.
  intros Hb Ha. unfold add_borrowed. rewrite owed_at by done. cbn [mbind option_bind].
  destruct (set_borrowed_spec b a (owed c b a + d) Hb Ha) as (c' & -> & Hs & Ho & Hi & Hf). exists c'. split; [done|].
  split; [done|]. split; [|done]. intros b' a'. rewrite Ho. unfold plus_at.
  repeat (case_bool_decide; subst; cbn; try lia).
Qed.
End Shape.

(** ** The account

    [D a] is the number of the category's packets at the dongle that took a
    credit. *)

Record cinv (c : wlfc_credits) (D : Z -> Z) : Prop := {
  ci_shape : shape c;
  ci_owed : ∀ b a, 0 <= b < acs -> 0 <= a < acs -> 0 <= owed c b a;
  ci_own : ∀ b, 0 <= b < acs -> acsum (owed c b) <= D b;
  ci_cons : ∀ a, 0 <= a < acs ->
    val (FIFO_credit c) a + acsum (λ b, owed c b a) + (D a - acsum (owed c a)) = val (Init_FIFO_credit c) a;
  ci_fifo : ∀ a, 0 <= a < acs -> 0 <= val (FIFO_credit c) a;
  ci_atim : val (Init_FIFO_credit c) 5 = 0
}.

Lemma no_credits_inv : cinv no_credits (λ _, 0).
Proof.
  assert (∀ x, val (replicate 6 0) x = 0) as Hv.
  { intros x. unfold val. destruct (at_ _ x) eqn:E; [|done]. apply at_Some in E as [_ E]. by apply lookup_replicate in E as [-> _]. }
  assert (∀ b a, owed no_credits b a = 0) as Ho.
  { intros b a. unfold owed, get_borrowed. destruct (at_ _ b) as [r|] eqn:E; [|done]. apply at_Some in E as [_ E].
    apply lookup_replicate in E as [-> _]. apply Hv. }
  split; try (split; try done; by repeat constructor); unfold acsum; cbn [no_credits FIFO_credit Init_FIFO_credit]; intros;
    change (Z.to_nat (AC_COUNT + 2)) with 6%nat; rewrite ?Hv, ?Ho; lia.
Qed.

(** What the invariant says of the sums. *)
Lemma cinv_le c D a : cinv c D -> 0 <= a < acs -> val (FIFO_credit c) a <= val (Init_FIFO_credit c) a.
Proof.
  intros H Ha. pose proof (ci_cons _ _ H a Ha). pose proof (ci_own _ _ H a Ha).
  pose proof (acsum_nonneg (λ b, owed c b a) ltac:(intros x Hx; by apply (ci_owed _ _ H))). lia.
Qed.

Lemma cinv_total c D : cinv c D -> acsum (val (FIFO_credit c)) + acsum D = acsum (val (Init_FIFO_credit c)).
Proof.
  intros H. pose proof (ci_cons _ _ H) as Hc. unfold acs, AC_COUNT in Hc.
  pose proof (Hc 0). pose proof (Hc 1). pose proof (Hc 2). pose proof (Hc 3). pose proof (Hc 4). pose proof (Hc 5).
  unfold acsum in *. lia.
Qed.

(** The ATIM category lends nothing. *)
Lemma cinv_atim c D : cinv c D -> val (FIFO_credit c) 5 = 0 ∧ ∀ b, 0 <= b < acs -> owed c b 5 = 0.
Proof.
  intros H. assert (0 <= 5 < acs) as H5 by done. pose proof (ci_cons _ _ H 5 H5) as Hc. rewrite (ci_atim _ _ H) in Hc.
  pose proof (ci_own _ _ H 5 H5). pose proof (ci_fifo _ _ H 5 H5).
  assert (∀ x, 0 <= x < acs -> 0 <= owed c x 5) as Hn by (intros; by apply (ci_owed _ _ H)).
  pose proof (acsum_nonneg (λ b, owed c b 5) Hn). split; [lia|]. intros b Hb.
  apply (acsum_zero (λ b, owed c b 5)); [done|lia|done].
Qed.

Lemma cinv_home c D a b :
  cinv c D -> (∀ x, 0 <= x < acs -> D x = 0) -> 0 <= a < acs -> 0 <= b < acs ->
  val (FIFO_credit c) a = val (Init_FIFO_credit c) a ∧ owed c b a = 0.
Proof.
  intros H HO Ha Hb.
  assert (∀ x y, 0 <= x < acs -> 0 <= y < acs -> owed c x y = 0) as Hz.
  { intros x y Hx Hy. assert (∀ z, 0 <= z < acs -> 0 <= owed c x z) as Hn by (intros; by apply (ci_owed _ _ H)).
    apply acsum_zero; [done| |done]. pose proof (ci_own _ _ H x Hx). rewrite HO in * by done. pose proof (acsum_nonneg _ Hn). lia. }
  split; [|by apply Hz]. pose proof (ci_cons _ _ H a Ha) as Hc. rewrite HO in Hc by done.
  rewrite (acsum_ext (λ b, owed c b a) (λ _, 0)), (acsum_ext (owed c a) (λ _, 0)) in Hc by (intros; by apply Hz).
  unfold acsum in Hc. lia.
Qed.

(** A loan of [d] credits of [l] to packets of [b], or back. *)
Lemma cinv_loan c c' D b l d :
  cinv c D -> shape c' -> 0 <= b < acs -> 0 <= l < acs ->
  (∀ b' a', owed c' b' a' = if bool_decide (b' = b) then plus_at l d (owed c b) a' else owed c b' a') ->
  (∀ a, val (FIFO_credit c') a = plus_at l (- d) (val (FIFO_credit c)) a) ->
  Init_FIFO_credit c' = Init_FIFO_credit c -> 0 <= owed c b l + d -> d <= val (FIFO_credit c) l ->
  cinv c' (plus_at b d D).
Proof.
  intros H Hs Hb Hl Ho Hf Hi Hd1 Hd2.
  assert (∀ x, acsum (owed c' x) = plus_at b d (λ x, acsum (owed c x)) x) as Hrow.
  { intros x. unfold plus_at. rewrite (acsum_ext _ _ (λ y _, Ho x y)). case_bool_decide; [|by rewrite Z.add_0_r]. subst x. by apply acsum_plus. }
  assert (∀ a, 0 <= a < acs -> acsum (λ x, owed c' x a) = plus_at l d (λ a, acsum (λ x, owed c x a)) a) as Hcol.
  { intros a Ha. unfold plus_at at 1. case_bool_decide as E.
    - subst a. rewrite <-(acsum_plus b d) by done. apply acsum_ext. intros x _. rewrite Ho. unfold plus_at.
      rewrite (bool_decide_true (l = l)) by done. case_bool_decide; subst; lia.
    - rewrite Z.add_0_r. apply acsum_ext. intros x _. rewrite Ho. unfold plus_at. rewrite (bool_decide_false (a = l)) by done.
      case_bool_decide; subst; lia. }
  split.
  - done.
  - intros x a Hx Ha. rewrite Ho. unfold plus_at. pose proof (ci_owed _ _ H x a Hx Ha). repeat (case_bool_decide; subst); lia.
  - intros x Hx. rewrite Hrow. unfold plus_at. pose proof (ci_own _ _ H x Hx). case_bool_decide; lia.
  - intros a Ha. rewrite Hcol, Hrow, Hf, Hi by done. pose proof (ci_cons _ _ H a Ha). unfold plus_at. repeat case_bool_decide; lia.
  - intros a Ha. rewrite Hf. unfold plus_at. pose proof (ci_fifo _ _ H a Ha). case_bool_decide; subst; lia.
  - rewrite Hi. apply (ci_atim _ _ H).
Qed.

(** [d] packets on the category's own credit, or back. *)
Lemma cinv_own_credit c c' D a d :
  cinv c D -> shape c' -> 0 <= a < acs -> owed c' = owed c ->
  (∀ x, val (FIFO_credit c') x = plus_at a (- d) (val (FIFO_credit c)) x) ->
  Init_FIFO_credit c' = Init_FIFO_credit c -> d <= val (FIFO_credit c) a -> acsum (owed c a) <= D a + d ->
  cinv c' (plus_at a d D).
Proof.
  intros H Hs Ha Ho Hf Hi Hd1 Hd2. split; rewrite ?Ho, ?Hi; try by apply H.
  - done.
  - intros x Hx. unfold plus_at. pose proof (ci_own _ _ H x Hx). case_bool_decide; subst; lia.
  - intros x Hx. rewrite Hf. pose proof (ci_cons _ _ H x Hx). unfold plus_at. case_bool_decide; subst; lia.
  - intros x Hx. rewrite Hf. unfold plus_at. pose proof (ci_fifo _ _ H x Hx). case_bool_decide; subst; lia.
Qed.

Lemma cinv_ext c D D' : (∀ x, 0 <= x < acs -> D x = D' x) -> cinv c D -> cinv c D'.
Proof. intros He []. split; try done; intros; rewrite <-He; auto. Qed.

(** ** The routines keep the account *)

Ltac cred_step L :=
  let c' := fresh "c" in let E := fresh "E" in let Hs := fresh "Hs" in let Hx := fresh "Hx" in let Hy := fresh "Hy" in
  let Hz := fresh "Hz" in
  destruct L as (c' & E & Hs & Hx & Hy & Hz); rewrite E; cbn [mbind option_bind]; clear E.

(** The two assignments of a loan, in either order. *)
Lemma loan_spec c D b l d :
  cinv c D -> 0 <= b < acs -> 0 <= l < acs -> 0 <= owed c b l + d -> d <= val (FIFO_credit c) l ->
  ∃ c', (c ← add_borrowed b l d c; add_fifo l (- d) c) = Some c' ∧ cinv c' (plus_at b d D)
    ∧ ∀ b' a', owed c' b' a' = if bool_decide (b' = b) then plus_at l d (owed c b) a' else owed c b' a'.
Proof.
  intros H Hb Hl Hd1 Hd2. cred_step (add_borrowed_spec c (ci_shape _ _ H) b l d Hb Hl).
  destruct (add_fifo_spec _ Hs l (- d) Hl) as (c2 & -> & Hs2 & Hf2 & Hi2 & Ho2). exists c2. split; [done|].
  rewrite <-Ho2 in Hx. split; [|done]. apply (cinv_loan c c2 D b l d); try done; try congruence. Qed.

Lemma loan_back_spec c D b l d :
  cinv c D -> 0 <= b < acs -> 0 <= l < acs -> 0 <= d <= owed c b l ->
  ∃ c', (c ← add_fifo l d c; add_borrowed b l (- d) c) = Some c' ∧ cinv c' (plus_at b (- d) D)
    ∧ ∀ b' a', owed c' b' a' = if bool_decide (b' = b) then plus_at l (- d) (owed c b) a' else owed c b' a'.
Proof.
  intros H Hb Hl Hd. cred_step (add_fifo_spec c (ci_shape _ _ H) l d Hl).
  destruct (add_borrowed_spec _ Hs b l (- d) Hb Hl) as (c2 & -> & Hs2 & Ho2 & Hi2 & Hf2). exists c2. split; [done|].
  rewrite Hz in Ho2. split; [|done]. pose proof (ci_fifo _ _ H l Hl).
  apply (cinv_loan c c2 D b l (- d)); try done; try congruence; try lia. intros a. by rewrite Hf2, Hx, Z.opp_involutive.
Qed.

Lemma own_spec c D a d :
  cinv c D -> 0 <= a < acs -> d <= val (FIFO_credit c) a -> acsum (owed c a) <= D a + d ->
  ∃ c', add_fifo a (- d) c = Some c' ∧ cinv c' (plus_at a d D).
Proof.
  intros H Ha Hd1 Hd2. destruct (add_fifo_spec c (ci_shape _ _ H) a (- d) Ha) as (c2 & -> & Hs2 & Hf2 & Hi2 & Ho2).
  exists c2. split; [done|]. by apply (cinv_own_credit c c2 D a d).
Qed.

Lemma borrow_loop_spec ls : ∀ c D b all,
  cinv c D -> 0 <= b < acs -> Forall (λ l, 0 <= l < acs) ls ->
  ∃ l c', borrow_loop ls b all c = Some (l, c')
    ∧ (l = -1 ∧ c' = c ∨ l ∈ ls ∧ cinv c' (plus_at b 1 D) ∧ 0 < owed c' b l).
Proof.
  induction ls as [|l ls IH]; intros c D b all H Hb Hls; cbn [borrow_loop].
  - eexists _, c. split; [done|]. by left.
  - apply Forall_cons in Hls as [Hl Hls]. pose proof (ci_shape _ _ H) as Hsh.
    assert (∃ lim, borrow_limit all l c = Some lim ∧ 0 <= lim) as (lim & -> & Hlim).
    { unfold borrow_limit. destruct all; [by exists 0|]. rewrite (init_at c Hsh l Hl). cbn [mbind option_bind]. eexists. split; [done|].
      apply Z.quot_pos; [|done]. pose proof (cinv_le c D l H Hl). pose proof (ci_fifo _ _ H l Hl). lia. }
    cbn [mbind option_bind]. rewrite (fifo_at c Hsh l Hl). cbn [mbind option_bind]. case_bool_decide as Ef.
    + pose proof (ci_owed _ _ H b l Hb Hl). destruct (loan_spec c D b l 1 H Hb Hl) as (c' & E & Hc & Ho); [lia|lia|].
      destruct (add_borrowed b l 1 c) as [c1|] eqn:E1; [|done]. cbn [mbind option_bind] in E |- *. change (-1) with (- (1)). rewrite E.
      cbn [mbind option_bind]. exists l, c'. split; [done|]. right. split; [by left|]. split; [done|].
      rewrite Ho, bool_decide_true, plus_at_eq by done. lia.
    + destruct (IH c D b all H Hb Hls) as (l' & c' & -> & [Hr|(Hin & Hr)]); eexists _, c'; (split; [done|]); [by left|].
      right. split; [by right|done].
Qed.

Lemma lenders_valid n : n <= acs -> Forall (λ l, 0 <= l < acs) (seqZ 0 n).
Proof. intros Hn. apply Forall_forall. intros l Hl%elem_of_seqZ. lia. Qed.

Lemma borrow_spec c D b all :
  cinv c D -> 0 <= b < acs ->
  ∃ l c', _dhd_wlfc_borrow_credit (Some c) AC_COUNT b all = Some (l, Some c')
    ∧ (l = -1 ∧ c' = c ∨ 0 <= l <= AC_COUNT ∧ cinv c' (plus_at b 1 D) ∧ 0 < owed c' b l).
Proof.
  intros H Hb. unfold _dhd_wlfc_borrow_credit.
  destruct (borrow_loop_spec (seqZ 0 (AC_COUNT + 1)) c D b all H Hb) as (l & c' & -> & Hr); [by apply lenders_valid|].
  cbn [mbind option_bind]. exists l, c'. split; [done|]. destruct Hr as [Hr|(Hin%elem_of_seqZ & Hr)]; [by left|right]. split; [lia|done].
Qed.

Lemma return_spec c D l b :
  cinv c D -> 0 <= b <= AC_COUNT -> 0 <= l <= AC_COUNT -> 0 < owed c b l ->
  ∃ c', _dhd_wlfc_return_credit (Some c) l b = Some (BCME_OK, Some c') ∧ cinv c' (plus_at b (-1) D).
Proof.
  intros H Hb Hl Ho. unfold _dhd_wlfc_return_credit. rewrite !bool_decide_false by lia. cbn [orb].
  unfold AC_COUNT in Hb, Hl. pose proof (ci_fifo _ _ H l ltac:(unfold acs, AC_COUNT; lia)).
  destruct (loan_spec c D b l (-1) H) as (c' & E & Hc & _); [unfold acs, AC_COUNT; lia..|].
  destruct (add_borrowed b l (-1) c) as [c1|]; [|done]. cbn [mbind option_bind] in E |- *. change (- -1) with 1 in E. rewrite E.
  by exists c'.
Qed.

(** ** Credits that come back *)

Lemma implied_loop_spec ls : ∀ c D b,
  cinv c D -> 0 <= b < acs -> Forall (λ l, 0 <= l < acs) ls ->
  ∃ r c', implied_loop ls b c = Some (r, c')
    ∧ if (r : bool) then cinv c' (plus_at b (-1) D) else c' = c ∧ Forall (λ l, owed c b l = 0) ls.
Proof.
  induction ls as [|l ls IH]; intros c D b H Hb Hls; cbn [implied_loop].
  - by exists false, c.
  - apply Forall_cons in Hls as [Hl Hls]. rewrite (owed_at c (ci_shape _ _ H) b l Hb Hl). cbn [mbind option_bind].
    case_bool_decide as Ef.
    + destruct (loan_back_spec c D b l 1 H Hb Hl) as (c' & E & Hc & _); [lia|].
      destruct (add_fifo l 1 c) as [c1|]; [|done]. cbn [mbind option_bind] in E |- *. change (-1) with (- (1)). rewrite E.
      cbn [mbind option_bind]. by exists true, c'.
    + destruct (IH c D b H Hb Hls) as (r & c' & -> & Hr). exists r, c'. split; [done|]. destruct r; [done|].
      destruct Hr as [-> Hr]. split; [done|]. apply Forall_cons. split; [|done]. pose proof (ci_owed _ _ H b l Hb Hl). lia.
Qed.

(** A category that owes nothing to the lenders owes nothing. *)
Lemma owes_nothing c D b :
  cinv c D -> 0 <= b < acs -> Forall (λ l, owed c b l = 0) lenders_down -> acsum (owed c b) = 0.
Proof.
  intros H Hb Hz. destruct (cinv_atim c D H) as [_ H5]. unfold acsum. rewrite (H5 b Hb).
  assert (∀ l, l ∈ lenders_down -> owed c b l = 0) as Hl by (by apply Forall_forall).
  rewrite !Hl; [done|..]; vm_compute; repeat constructor.
Qed.

Lemma lenders_down_valid : Forall (λ l, 0 <= l < acs) lenders_down.
Proof. apply Forall_forall. intros l Hl. unfold lenders_down in Hl. apply elem_of_reverse, elem_of_seqZ in Hl. unfold acs. lia. Qed.

Lemma implied_spec c D t :
  cinv c D -> DHD_PKTTAG_CREDITCHECK t ≠ 0 -> 0 <= DHD_PKTTAG_FIFO t < acs -> 0 < D (DHD_PKTTAG_FIFO t) ->
  ∃ c', _dhd_wlfc_return_implied_credit WLFC_FCMODE_IMPLIED_CREDIT (Some c) (Some t) = Some (Some c')
    ∧ cinv c' (plus_at (DHD_PKTTAG_FIFO t) (-1) D).
Proof.
  intros H Ht Hf HO. unfold _dhd_wlfc_return_implied_credit. rewrite !bool_decide_true by done. cbn [andb].
  destruct (implied_loop_spec lenders_down c D (DHD_PKTTAG_FIFO t) H Hf lenders_down_valid) as ([] & c' & -> & Hr);
    cbn [mbind option_bind]; [by exists c'|]. destruct Hr as [-> Hz]. pose proof (owes_nothing c D _ H Hf Hz).
  pose proof (ci_fifo _ _ H _ Hf). destruct (own_spec c D (DHD_PKTTAG_FIFO t) (-1) H Hf) as (c2 & E & Hc); [lia..|].
  change (- -1) with 1 in E. rewrite E. by exists c2.
Qed.

Lemma set_borrowed_zero c b l x : get_borrowed b l c = Some x -> set_borrowed b l 0 c = add_borrowed b l (- x) c.
Proof. intros E. unfold add_borrowed. rewrite E. cbn [mbind option_bind]. f_equal. lia. Qed.

(** One lender gets what it is owed, or what there is. *)
Lemma back_lender c D i l k :
  cinv c D -> 0 <= i < acs -> 0 <= l < acs -> 0 < k <= 255 -> 0 < owed c i l ->
  ∃ k' c', (if bool_decide (k >= owed c i l) then
              c1 ← add_fifo l (owed c i l) c; c1 ← set_borrowed i l 0 c1; Some (u8 (k - u8 (owed c i l)), c1)
            else c1 ← add_borrowed i l (- k) c; c1 ← add_fifo l k c1; Some (0, c1)) = Some (k', c')
    ∧ 0 <= k' <= k ∧ cinv c' (plus_at i (k' - k) D) ∧ (0 < k' -> owed c' i l = 0) ∧ ∀ a, owed c' i a <= owed c i a.
Proof.
  intros H Hi Hl Hk Hx. pose proof (ci_fifo _ _ H l Hl). case_bool_decide as Ek.
  - destruct (loan_back_spec c D i l (owed c i l) H Hi Hl) as (c' & E & Hc & Ho); [lia|].
    destruct (add_fifo_spec c (ci_shape _ _ H) l (owed c i l) Hl) as (c1 & E1 & Hs1 & _ & _ & Ho1). rewrite E1 in E |- *.
    cbn [mbind option_bind] in E |- *. rewrite (set_borrowed_zero c1 i l (owed c i l)) by (rewrite owed_at by done; by rewrite Ho1).
    rewrite E. cbn [mbind option_bind]. rewrite !u8_small by (rewrite ?u8_small; lia). eexists _, c'. split; [done|]. split; [lia|].
    split; [by replace (k - owed c i l - k) with (- owed c i l) by lia|]. split.
    + intros _. rewrite Ho, bool_decide_true, plus_at_eq by done. lia.
    + intros a. rewrite Ho, bool_decide_true by done. unfold plus_at. case_bool_decide; lia.
  - destruct (loan_spec c D i l (- k) H Hi Hl) as (c' & E & Hc & Ho); [lia..|].
    destruct (add_borrowed i l (- k) c) as [c1|]; [|done]. cbn [mbind option_bind] in E |- *. rewrite Z.opp_involutive in E. rewrite E.
    cbn [mbind option_bind]. exists 0, c'. split; [done|]. split; [lia|]. split; [done|]. split; [lia|].
    intros a. rewrite Ho, bool_decide_true by done. unfold plus_at. case_bool_decide; lia.
Qed.

Lemma back_loop_spec ls : ∀ c D i k,
  cinv c D -> 0 <= i < acs -> 0 <= k <= 255 -> Forall (λ l, 0 <= l < acs) ls ->
  ∃ k' c', back_loop ls i k c = Some (k', c') ∧ 0 <= k' <= k ∧ cinv c' (plus_at i (k' - k) D)
    ∧ (0 < k' -> Forall (λ l, owed c' i l = 0) ls) ∧ ∀ a, owed c' i a <= owed c i a.
Proof.
  induction ls as [|l ls IH]; intros c D i k H Hi Hk Hls; cbn [back_loop].
  - exists k, c. split; [done|]. split; [lia|]. split; [|done]. apply (cinv_ext c D); [|done]. intros x _. unfold plus_at.
    case_bool_decide; lia.
  - apply Forall_cons in Hls as [Hl Hls]. case_bool_decide as Ek.
    2: { exists k, c. split; [done|]. split; [lia|]. split; [|split; [lia|done]]. apply (cinv_ext c D); [|done]. intros x _.
         unfold plus_at. case_bool_decide; lia. }
    rewrite (owed_at c (ci_shape _ _ H) i l Hi Hl). cbn [mbind option_bind].
    assert (∃ k1 c1, (if bool_decide (owed c i l > 0) then
              if bool_decide (k >= owed c i l) then
                c1 ← add_fifo l (owed c i l) c; c1 ← set_borrowed i l 0 c1; Some (u8 (k - u8 (owed c i l)), c1)
              else c1 ← add_borrowed i l (- k) c; c1 ← add_fifo l k c1; Some (0, c1)
            else Some (k, c)) = Some (k1, c1)
      ∧ 0 <= k1 <= k ∧ cinv c1 (plus_at i (k1 - k) D) ∧ (0 < k1 -> owed c1 i l = 0) ∧ ∀ a, owed c1 i a <= owed c i a)
      as (k1 & c1 & E & Hk1 & Hc1 & Hz1 & Hm1).
    { case_bool_decide as Ex; [apply back_lender; done || lia|]. exists k, c. split; [done|]. split; [lia|].
      pose proof (ci_owed _ _ H i l Hi Hl). split; [|split; [lia|done]]. apply (cinv_ext c D); [|done]. intros x _. unfold plus_at.
      case_bool_decide; lia. }
    rewrite E. cbn [mbind option_bind]. destruct (IH c1 _ i k1 Hc1 Hi ltac:(lia) Hls) as (k2 & c2 & -> & Hk2 & Hc2 & Hz2 & Hm2).
    exists k2, c2. split; [done|]. split; [lia|]. split; [|split].
    + eapply cinv_ext; [|exact Hc2]. intros x _. unfold plus_at. repeat case_bool_decide; lia.
    + intros H2. apply Forall_cons. split; [|by apply Hz2]. pose proof (Hm2 l). pose proof (ci_owed _ _ Hc2 i l Hi Hl).
      rewrite Hz1 in * by lia. lia.
    + intros a. specialize (Hm1 a). specialize (Hm2 a). lia.
Qed.

Lemma back_ac_spec c D i k :
  cinv c D -> 0 <= i < acs -> 0 <= k <= 255 -> k <= D i ->
  ∃ k' c', back_ac i k c = Some (k', c') ∧ cinv c' (plus_at i (- k) D).
Proof.
  intros H Hi Hk HO. unfold back_ac.
  destruct (back_loop_spec lenders_down c D i k H Hi Hk lenders_down_valid) as (k1 & c1 & -> & Hk1 & H1 & Hz & Hm).
  cbn [mbind option_bind].
  assert (∃ c2, (if bool_decide (k1 > 0) then add_fifo i k1 c1 else Some c1) = Some c2 ∧ cinv c2 (plus_at i (- k) D)) as (c2 & -> & H2).
  { case_bool_decide as Ek.
    - pose proof (owes_nothing c1 _ i H1 Hi (Hz ltac:(lia))) as Hn. pose proof (ci_fifo _ _ H1 i Hi).
      destruct (own_spec c1 _ i (- k1) H1 Hi) as (c2 & E & Hc); [lia|rewrite Hn, plus_at_eq; lia|]. rewrite Z.opp_involutive in E.
      exists c2. split; [done|]. eapply cinv_ext; [|exact Hc]. intros x _. unfold plus_at. repeat case_bool_decide; lia.
    - exists c1. split; [done|]. by replace (- k) with (k1 - k) by lia. }
  cbn [mbind option_bind]. rewrite (fifo_at c2 (ci_shape _ _ H2) i Hi). cbn [mbind option_bind].
  rewrite (init_at c2 (ci_shape _ _ H2) i Hi). cbn [mbind option_bind]. pose proof (cinv_le c2 _ i H2 Hi).
  rewrite bool_decide_false by lia. cbn [mbind option_bind]. by exists k1, c2.
Qed.

(** What is left at the dongle when [ks] credits come back. *)
Definition returned (acs : list Z) (ks : list Z) (D : Z -> Z) : Z -> Z := foldl (λ D i, plus_at i (- val ks i) D) D acs.

Lemma back_all_spec ls ks0 : ∀ c D ks,
  cinv c D -> NoDup ls -> Forall (λ i, 0 <= i < acs) ls -> acs <= Z.of_nat (length ks) ->
  Forall (λ i, val ks i = val ks0 i ∧ 0 <= val ks0 i <= 255 ∧ val ks0 i <= D i) ls ->
  ∃ ks' c', back_all ls WLFC_FCMODE_EXPLICIT_CREDIT ks c = Some (ks', c') ∧ cinv c' (returned ls ks0 D).
Proof.
  induction ls as [|i ls IH]; intros c D ks H Hnd Hv Hlen Hks; cbn [back_all]; [by exists ks, c|].
  apply NoDup_cons in Hnd as [Hi Hnd]. apply Forall_cons in Hv as [Hv Hvs]. apply Forall_cons in Hks as [(Hk & Hr & HO) Hks].
  rewrite bool_decide_true by done. rewrite (val_at ks i) by lia. cbn [mbind option_bind]. rewrite Hk.
  destruct (back_ac_spec c D i (val ks0 i) H Hv Hr HO) as (k' & c1 & -> & H1). cbn [mbind option_bind].
  rewrite (put_Some ks i (val ks i) k') by (apply val_at; lia). cbn [mbind option_bind].
  apply (IH c1 (plus_at i (- val ks0 i) D)); [done|done|done|by rewrite length_insert|].
  apply Forall_forall. intros j Hj. assert (j ≠ i) as Hne by congruence.
  destruct (proj1 (Forall_forall _ _) Hks j Hj) as (Ej & Hrj & HOj). rewrite val_insert, bool_decide_false by (done || lia).
  unfold plus_at. rewrite bool_decide_false by done. rewrite Z.add_0_r. done.
Qed.

Lemma returned_all ks D x : 0 <= x < acs -> returned (seqZ 0 acs) ks D x = D x - val ks x.
Proof.
  intros H. unfold acs, AC_COUNT in H. change (seqZ 0 acs) with [0; 1; 2; 3; 4; 5]. unfold returned, foldl, plus_at.
  assert (x = 0 ∨ x = 1 ∨ x = 2 ∨ x = 3 ∨ x = 4 ∨ x = 5) as Hx by lia.
  destruct_or? Hx; subst x; repeat case_bool_decide; lia.
Qed.

Lemma creditback_spec c D ks :
  cinv c D -> acs <= Z.of_nat (length ks) -> (∀ i, 0 <= i < acs -> 0 <= val ks i <= 255 ∧ val ks i <= D i) ->
  ∃ ks' c', _dhd_wlfc_fifocreditback_indicate WLFC_FCMODE_EXPLICIT_CREDIT c ks = Some (BCME_OK, ks', c')
    ∧ cinv c' (λ x, D x - val ks x).
Proof.
  intros H Hl Hk. unfold _dhd_wlfc_fifocreditback_indicate. change WLFC_CTL_VALUE_LEN_FIFO_CREDITBACK with acs.
  destruct (back_all_spec (seqZ 0 acs) ks c D ks H) as (ks' & c' & -> & Hc); [apply NoDup_seqZ|by apply lenders_valid|done| |].
  - apply Forall_forall. intros i Hi%elem_of_seqZ. split; [done|]. apply Hk. lia.
  - cbn [mbind option_bind]. exists ks', c'. split; [done|]. apply (cinv_ext _ _ _ (λ x Hx, returned_all ks D x Hx) Hc).
Qed.

(** ** The number of credits *)

Section Map.
Context (ks : list Z).

Lemma map_fifo_all ls : ∀ c,
  shape c -> NoDup ls -> Forall (λ i, 0 <= i < acs ∧ i < Z.of_nat (length ks)) ls ->
  ∃ c', for_each_ac (map_fifo ks) ls c = Some c' ∧ shape c' ∧ Init_FIFO_credit c' = Init_FIFO_credit c ∧ owed c' = owed c
    ∧ ∀ x, val (FIFO_credit c') x
           = val (FIFO_credit c) x + if bool_decide (x ∈ ls) then val ks x - val (Init_FIFO_credit c) x else 0.
Proof.
  induction ls as [|i ls IH]; intros c H Hnd Hv.
  - exists c. split; [done|]. repeat split; try apply H. intros x. rewrite bool_decide_false by apply not_elem_of_nil. lia.
  - apply NoDup_cons in Hnd as [Hi Hnd]. apply Forall_cons in Hv as [[Hr Hl] Hv]. unfold for_each_ac. cbn [foldl mbind option_bind].
    unfold map_fifo at 2. rewrite (val_at ks i) by lia. cbn [mbind option_bind]. rewrite (init_at c H i Hr). cbn [mbind option_bind].
    destruct (add_fifo_spec c H i (val ks i - val (Init_FIFO_credit c) i) Hr) as (c1 & -> & H1 & Hf1 & Hi1 & Ho1).
    destruct (IH c1 H1 Hnd Hv) as (c2 & E & H2 & Hi2 & Ho2 & Hf2). exists c2. split; [exact E|]. split; [done|].
    split; [congruence|]. split; [congruence|]. intros x. rewrite Hf2, Hf1, Hi1. unfold plus_at.
    destruct (decide (x = i)) as [->|Hne].
    + rewrite (bool_decide_true (i = i)), (bool_decide_false (i ∈ ls)), (bool_decide_true (i ∈ _)) by (done || by left). lia.
    + rewrite (bool_decide_false (x = i)), Z.add_0_r by done. f_equal.
      rewrite (bool_decide_ext (x ∈ i :: ls) (x ∈ ls)); [done|]. rewrite elem_of_cons. naive_solver.
Qed.

Lemma map_init_all ls : ∀ c,
  shape c -> Forall (λ i, 0 <= i < acs ∧ i < Z.of_nat (length ks)) ls ->
  ∃ c', for_each_ac (map_init ks) ls c = Some c' ∧ shape c' ∧ FIFO_credit c' = FIFO_credit c ∧ owed c' = owed c
    ∧ ∀ x, val (Init_FIFO_credit c') x = if bool_decide (x ∈ ls) then val ks x else val (Init_FIFO_credit c) x.
Proof.
  induction ls as [|i ls IH]; intros c H Hv.
  - exists c. split; [done|]. repeat split; try apply H.
  - apply Forall_cons in Hv as [[Hr Hl] Hv]. unfold for_each_ac. cbn [foldl mbind option_bind].
    unfold map_init at 2. rewrite (val_at ks i) by lia. cbn [mbind option_bind].
    destruct (set_init_spec c H i (val ks i) Hr) as (c1 & -> & H1 & Hi1 & Hf1 & Ho1).
    destruct (IH c1 H1 Hv) as (c2 & E & H2 & Hf2 & Ho2 & Hi2). exists c2. split; [exact E|]. split; [done|].
    split; [congruence|]. split; [congruence|]. intros x. rewrite Hi2, Hi1. destruct (decide (x = i)) as [->|Hne].
    + rewrite (bool_decide_true (i ∈ i :: _)), (bool_decide_true (i = i)) by (done || by left). by case_bool_decide.
    + rewrite (bool_decide_false (x = i)) by done.
      rewrite (bool_decide_ext (x ∈ i :: ls) (x ∈ ls)); [done|]. rewrite elem_of_cons. naive_solver.
Qed.

Lemma map_update_spec c D :
  cinv c D -> AC_COUNT < Z.of_nat (length ks) ->
  (∀ i, 0 <= i <= AC_COUNT -> val (Init_FIFO_credit c) i - val (FIFO_credit c) i <= val ks i) ->
  ∃ c', _dhd_wlfc_FIFOcreditmap_update c ks = Some (BCME_OK, c') ∧ cinv c' D
    ∧ ∀ i, 0 <= i <= AC_COUNT -> val (Init_FIFO_credit c') i = val ks i.
Proof.
  intros H Hl Hk. unfold _dhd_wlfc_FIFOcreditmap_update. change [0; 1; 2; 3; 4] with (seqZ 0 5). pose proof (ci_shape _ _ H) as Hs.
  assert (Forall (λ i, 0 <= i < acs ∧ i < Z.of_nat (length ks)) (seqZ 0 5)) as Hv.
  { apply Forall_forall. intros i Hi%elem_of_seqZ. unfold acs, AC_COUNT in *. lia. }
  destruct (map_fifo_all (seqZ 0 5) c Hs) as (c1 & -> & H1 & Hi1 & Ho1 & Hf1); [apply NoDup_seqZ|done|]. cbn [mbind option_bind].
  destruct (map_init_all (seqZ 0 5) c1 H1 Hv) as (c2 & -> & H2 & Hf2 & Ho2 & Hi2). cbn [mbind option_bind].
  destruct (set_fifo_spec c2 H2 5 0) as (c3 & -> & H3 & Hf3 & Hi3 & Ho3); [done|]. cbn [mbind option_bind].
  destruct (set_init_spec c3 H3 5 0) as (c4 & -> & H4 & Hi4 & Hf4 & Ho4); [done|]. cbn [mbind option_bind].
  destruct (cinv_atim c D H) as [H5 _]. pose proof (ci_atim _ _ H) as Hm5. exists c4. split; [done|].
  assert (owed c4 = owed c) as Ho by congruence.
  assert (∀ x, 0 <= x < acs -> val (Init_FIFO_credit c4) x = if bool_decide (x = 5) then 0 else val ks x) as Hi.
  { intros x Hx. rewrite Hi4, Hi3, Hi2. case_bool_decide as E; [done|]. rewrite bool_decide_true; [done|].
    apply elem_of_seqZ. unfold acs, AC_COUNT in Hx. lia. }
  assert (∀ x, 0 <= x < acs -> val (FIFO_credit c4) x
            = val (FIFO_credit c) x + val (Init_FIFO_credit c4) x - val (Init_FIFO_credit c) x) as Hf.
  { intros x Hx. rewrite (Hi x Hx), Hf4, Hf3, Hf2, Hf1. destruct (decide (x = 5)) as [->|E].
    { rewrite !(bool_decide_true (5 = 5)) by done. lia. }
    rewrite !(bool_decide_false (x = 5)), bool_decide_true; [lia| |done].
    apply elem_of_seqZ. unfold acs, AC_COUNT in Hx. lia. }
  split; [split|].
  - done.
  - rewrite Ho. apply H.
  - rewrite Ho. apply H.
  - intros x Hx. rewrite Ho, (Hf x Hx). pose proof (ci_cons _ _ H x Hx). lia.
  - intros x Hx. rewrite (Hf x Hx), (Hi x Hx). case_bool_decide as E; [subst x; lia|].
    pose proof (Hk x ltac:(unfold acs, AC_COUNT in *; lia)). lia.
  - by rewrite (Hi 5).
  - intros x Hx. rewrite Hi by (unfold acs, AC_COUNT in *; lia). unfold AC_COUNT in Hx. by rewrite bool_decide_false by lia.
Qed.
End Map.

(** ** Runs *)

(** What happens to the credits: a packet is sent on the category's own credit or
    on a borrowed one; a credit is borrowed and given back, since there was no
    packet or the bus took none; a status comes for a packet with these flags, or
    the bus fails to take such a packet (dhd_wlfc_txcomplete), and the same
    routine is called; the dongle gives credits back; and the dongle tells how
    many credits there are. *)
Inductive cop :=
  | CSend (ac : Z)
  | CBorrow (ac : Z) (all : bool)
  | CBorrowReturn (ac : Z) (all : bool)
  | CStatus (flags : Z)
  | CBusFailed (flags : Z)
  | CExplicit (credits : list Z)
  | CMap (credits : list Z).

(** The credits; for each category, the credits that packets took to the dongle
    and that are to come back; and those that packets took and that are lost. *)
Definition cstate : Type := wlfc_credits * (Z -> Z) * (Z -> Z).

Section Mode.
(** proptxstatus_mode *)
Context (mode : Z).

Definition implied : bool := bool_decide (mode = WLFC_FCMODE_IMPLIED_CREDIT).

(** What a packet with the flags [t] took: one credit of its category, or none. *)
Definition took (d t : Z) (f : Z -> Z) : Z -> Z :=
  if bool_decide (DHD_PKTTAG_CREDITCHECK t ≠ 0) then plus_at (DHD_PKTTAG_FIFO t) d f else f.

(** In explicit mode the dongle gives the credit of a packet back by itself, and
    only of one that it got. *)
Definition cexec (o : cop) (s : cstate) : option cstate :=
  let '(c, D, L) := s in
  match o with
  | CSend ac => c ← spend_credit ac c; Some (c, plus_at ac 1 D, L)
  | CBorrow ac all =>
      '(l, c) ← _dhd_wlfc_borrow_credit (Some c) AC_COUNT ac all; c ← c;
      Some (c, if bool_decide (l = -1) then D else plus_at ac 1 D, L)
  | CBorrowReturn ac all =>
      '(l, c) ← _dhd_wlfc_borrow_credit (Some c) AC_COUNT ac all;
      '(_, c) ← (if bool_decide (l ≠ -1) then _dhd_wlfc_return_credit c l ac else Some (BCME_OK, c)); c ← c;
      Some (c, D, L)
  | CStatus t =>
      c ← _dhd_wlfc_return_implied_credit mode (Some c) (Some t); c ← c;
      Some (c, if implied then took (-1) t D else D, L)
  | CBusFailed t =>
      c ← _dhd_wlfc_return_implied_credit mode (Some c) (Some t); c ← c;
      Some (c, took (-1) t D, if implied then L else took 1 t L)
  | CExplicit ks =>
      '(_, _, c) ← _dhd_wlfc_fifocreditback_indicate mode c ks;
      Some (c, if bool_decide (mode = WLFC_FCMODE_EXPLICIT_CREDIT) then λ x, D x - val ks x else D, L)
  | CMap ks => '(_, c) ← _dhd_wlfc_FIFOcreditmap_update c ks; Some (c, D, L)
  end.

(** A packet is sent on an own credit when there is one; a status and a failure
    are for a packet that was sent; the dongle gives back no credit that it was
    not given, and does not take away those in use. *)
Definition cenabled (o : cop) (s : cstate) : bool :=
  let '(c, D, L) := s in
  match o with
  | CSend ac => bool_decide (0 <= ac <= AC_COUNT) && bool_decide (1 <= val (FIFO_credit c) ac)
  | CBorrow ac _ | CBorrowReturn ac _ => bool_decide (0 <= ac <= AC_COUNT)
  | CStatus t | CBusFailed t =>
      bool_decide (DHD_PKTTAG_CREDITCHECK t = 0)
      || bool_decide (0 <= DHD_PKTTAG_FIFO t < acs) && bool_decide (1 <= D (DHD_PKTTAG_FIFO t))
  | CExplicit ks =>
      bool_decide (acs <= Z.of_nat (length ks))
      && forallb (λ i, bool_decide (0 <= val ks i <= 255) && bool_decide (val ks i <= D i)) (seqZ 0 acs)
  | CMap ks =>
      bool_decide (AC_COUNT < Z.of_nat (length ks))
      && forallb (λ i, bool_decide (val (Init_FIFO_credit c) i - val (FIFO_credit c) i <= val ks i)) (seqZ 0 (AC_COUNT + 1))
  end.

Lemma forallb_seqZ f n i : forallb f (seqZ 0 n) = true -> 0 <= i < n -> f i = true.
Proof. rewrite forallb_forall. intros H Hi. apply H, list_elem_of_In, elem_of_seqZ. lia. Qed.

(** The account with the lost credits. *)
Record minv (c : wlfc_credits) (D L : Z -> Z) : Prop := {
  mi_cinv : cinv c (λ x, D x + L x);
  mi_lost : ∀ x, 0 <= x < acs -> 0 <= L x;
  mi_implied : implied = true -> ∀ x, L x = 0
}.

Lemma minv_plus c D L a d : minv c D L -> ∀ c', cinv c' (plus_at a d (λ x, D x + L x)) -> minv c' (plus_at a d D) L.
Proof.
  intros H c' Hc. split; [|apply H..]. eapply cinv_ext; [|exact Hc]. intros x _. unfold plus_at. lia.
Qed.

Lemma minv_same c c' D L : minv c D L -> cinv c' (λ x, D x + L x) -> minv c' D L.
Proof. intros H Hc. split; [done|apply H..]. Qed.

(** A mode that is not the implied one gives nothing back. *)
Lemma not_implied c t : implied = false -> _dhd_wlfc_return_implied_credit mode (Some c) (Some t) = Some (Some c).
Proof. unfold implied, _dhd_wlfc_return_implied_credit. by intros ->. Qed.

Lemma implied_step c D L t :
  minv c D L -> implied = true ->
  DHD_PKTTAG_CREDITCHECK t = 0 ∨ 0 <= DHD_PKTTAG_FIFO t < acs ∧ 1 <= D (DHD_PKTTAG_FIFO t) ->
  ∃ c', _dhd_wlfc_return_implied_credit mode (Some c) (Some t) = Some (Some c') ∧ minv c' (took (-1) t D) L.
Proof.
  intros H Hi Ht. unfold took. unfold implied in Hi. apply bool_decide_eq_true in Hi. rewrite Hi.
  case_bool_decide as E.
  - destruct Ht as [?|[Hf Ho]]; [done|]. pose proof (mi_lost _ _ _ H _ Hf).
    destruct (implied_spec c _ t (mi_cinv _ _ _ H) E Hf) as (c' & -> & Hc); [cbv beta; lia|]. exists c'. split; [done|].
    by apply (minv_plus c).
  - unfold _dhd_wlfc_return_implied_credit. rewrite (bool_decide_false (DHD_PKTTAG_CREDITCHECK t ≠ 0)), andb_false_r by tauto.
    by exists c.
Qed.

Lemma back_other c ks : mode ≠ WLFC_FCMODE_EXPLICIT_CREDIT -> back_all (seqZ 0 WLFC_CTL_VALUE_LEN_FIFO_CREDITBACK) mode ks c = Some (ks, c).
Proof.
  intros Hm. generalize (seqZ 0 WLFC_CTL_VALUE_LEN_FIFO_CREDITBACK). intros l. induction l as [|i l IH]; [done|].
  cbn [back_all]. by rewrite bool_decide_false.
Qed.

Lemma cexec_step o c D L :
  minv c D L -> cenabled o (c, D, L) = true -> ∃ c' D' L', cexec o (c, D, L) = Some (c', D', L') ∧ minv c' D' L'.
Proof.
  intros H He. pose proof (mi_cinv _ _ _ H) as Hc0.
  assert (∀ t, cenabled (CStatus t) (c, D, L) = true -> DHD_PKTTAG_CREDITCHECK t = 0 ∨ 0 <= DHD_PKTTAG_FIFO t < acs ∧ 1 <= D (DHD_PKTTAG_FIFO t)) as Ht.
  { intros t Ht. cbn [cenabled] in Ht. by rewrite orb_true_iff, andb_true_iff, !bool_decide_eq_true in Ht. }
  destruct o as [ac|ac all|ac all|t|t|ks|ks]; cbn [cexec cenabled] in *.
  - apply andb_true_iff in He as [Ha%bool_decide_eq_true Hf%bool_decide_eq_true].
    assert (0 <= ac < acs) as Hac by (unfold acs; lia). pose proof (ci_own _ _ Hc0 ac Hac).
    destruct (own_spec c _ ac 1 Hc0 Hac) as (c' & E & Hc); [cbv beta in *; lia..|]. unfold spend_credit. change (-1) with (- (1)). rewrite E.
    eexists c', _, L. split; [done|]. by apply (minv_plus c).
  - apply bool_decide_eq_true in He. assert (0 <= ac < acs) as Hac by (unfold acs; lia).
    destruct (borrow_spec c _ ac all Hc0 Hac) as (l & c' & -> & [[-> ->]|(Hl & Hc & _)]); cbn [mbind option_bind].
    + by exists c, D, L.
    + eexists c', _, L. split; [done|]. rewrite bool_decide_false by lia. by apply (minv_plus c).
  - apply bool_decide_eq_true in He. assert (0 <= ac < acs) as Hac by (unfold acs; lia).
    destruct (borrow_spec c _ ac all Hc0 Hac) as (l & c' & -> & [[-> ->]|(Hl & Hc & Ho)]); cbn [mbind option_bind]; [by eexists c, D, L|].
    rewrite bool_decide_true by lia. destruct (return_spec c' _ l ac Hc He Hl Ho) as (c2 & -> & H2). cbn [mbind option_bind].
    eexists c2, D, L. split; [done|]. apply (minv_same c); [done|]. eapply cinv_ext; [|exact H2]. intros x _. unfold plus_at.
    repeat case_bool_decide; lia.
  - destruct implied eqn:Ei.
    + destruct (implied_step c D L t H Ei (Ht t He)) as (c' & -> & Hc). by eexists c', _, L.
    + rewrite not_implied by done. by exists c, D, L.
  - destruct implied eqn:Ei.
    + destruct (implied_step c D L t H Ei (Ht t He)) as (c' & -> & Hc). by eexists c', _, L.
    + rewrite not_implied by done. exists c, (took (-1) t D), (took 1 t L). split; [done|]. unfold took. destruct (bool_decide (DHD_PKTTAG_CREDITCHECK t ≠ 0)); [|exact H].
      destruct H as [H1 H2 H3]. split.
      * eapply cinv_ext; [|exact H1]. intros x _. cbv beta. unfold plus_at. repeat case_bool_decide; lia.
      * intros x Hx. specialize (H2 x Hx). unfold plus_at. repeat case_bool_decide; lia.
      * congruence.
  - unfold _dhd_wlfc_fifocreditback_indicate. apply andb_true_iff in He as [Hl%bool_decide_eq_true Hk].
    case_bool_decide as Em; [|rewrite back_other by done; by exists c, D, L].
    rewrite Em. destruct (creditback_spec c _ ks Hc0 Hl) as (ks' & c' & E & Hc).
    + intros i Hi. pose proof (forallb_seqZ _ _ i Hk Hi) as Hb. cbv beta in Hb |- *. rewrite andb_true_iff, !bool_decide_eq_true in Hb.
      pose proof (mi_lost _ _ _ H i Hi). lia.
    + unfold _dhd_wlfc_fifocreditback_indicate in E. rewrite E. eexists c', _, L. split; [done|]. split; [|apply H..].
      eapply cinv_ext; [|exact Hc]. intros x _. cbv beta. lia.
  - apply andb_true_iff in He as [Hl%bool_decide_eq_true Hk].
    destruct (map_update_spec ks c _ Hc0 Hl) as (c' & -> & Hc & _); [|eexists c', D, L; split; [done|by apply (minv_same c)]].
    intros i Hi. pose proof (forallb_seqZ _ _ i Hk ltac:(lia)) as Hb. cbv beta in Hb. by rewrite bool_decide_eq_true in Hb.
Qed.

Fixpoint cexec_all (os : list cop) (s : cstate) : option cstate :=
  match os with [] => Some s | o :: os => s ← cexec o s; cexec_all os s end.

(** Every operation of a run is enabled where it happens. *)
Fixpoint cruns (os : list cop) (s : cstate) : bool :=
  match os with
  | [] => true
  | o :: os => cenabled o s && match cexec o s with Some s => cruns os s | None => true end
  end.

Lemma cexec_all_step os : ∀ c D L,
  minv c D L -> cruns os (c, D, L) = true -> ∃ c' D' L', cexec_all os (c, D, L) = Some (c', D', L') ∧ minv c' D' L'.
Proof.
  induction os as [|o os IH]; intros c D L H Hr; cbn [cexec_all cruns] in *; [by exists c, D, L|].
  apply andb_true_iff in Hr as [He Hr]. destruct (cexec_step o c D L H He) as (c1 & D1 & L1 & E & H1). rewrite E in *.
  cbn [mbind option_bind]. by apply IH.
Qed.

Definition cstart : cstate := (no_credits, λ _, 0, λ _, 0).

(** The failures of the bus in a run, by category. *)
Definition failures (os : list cop) (x : Z) : Z :=
  foldr (λ o n, match o with CBusFailed t => took 1 t (λ _, n) x | _ => n end) 0 os.

Lemma cexec_lost o c D L c1 D1 L1 :
  cexec o (c, D, L) = Some (c1, D1, L1) ->
  L1 = match o with CBusFailed t => if implied then L else took 1 t L | _ => L end.
Proof.
  destruct o as [ac|ac all|ac all|t|t|ks|ks]; cbn [cexec].
  - destruct (spend_credit ac c); [|done]. by intros [= _ _ <-].
  - destruct (_dhd_wlfc_borrow_credit _ _ _ _) as [[l [c'|]]|]; [|done..]. by intros [= _ _ <-].
  - destruct (_dhd_wlfc_borrow_credit _ _ _ _) as [[l c0]|]; [|done]. cbn [mbind option_bind].
    destruct (if bool_decide (l ≠ -1) then _ else _) as [[? [c'|]]|]; [|done..]. by intros [= _ _ <-].
  - destruct (_dhd_wlfc_return_implied_credit _ _ _) as [[c'|]|]; [|done..]. by intros [= _ _ <-].
  - destruct (_dhd_wlfc_return_implied_credit _ _ _) as [[c'|]|]; [|done..]. by intros [= _ _ <-].
  - destruct (_dhd_wlfc_fifocreditback_indicate _ _ _) as [[[rc ks'] c']|]; [|done]. by intros [= _ _ <-].
  - destruct (_dhd_wlfc_FIFOcreditmap_update _ _) as [[rc c']|]; [|done]. by intros [= _ _ <-].
Qed.

Lemma lost_failures os : ∀ c D L c' D' L',
  implied = false -> cexec_all os (c, D, L) = Some (c', D', L') -> ∀ x, L' x = L x + failures os x.
Proof.
  induction os as [|o os IH]; intros c D L c' D' L' Hi E x; cbn [cexec_all] in E; [injection E as -> -> ->; simpl; lia|].
  destruct (cexec o (c, D, L)) as [[[c1 D1] L1]|] eqn:E1; [|done]. cbn [mbind option_bind] in E.
  rewrite (IH _ _ _ _ _ _ Hi E x). apply cexec_lost in E1. rewrite Hi in E1. subst L1. unfold failures. simpl.
  destruct o; try done. unfold took, plus_at. repeat case_bool_decide; lia.
Qed.
End Mode.


(** Four credits each and two for broadcast; best effort sends four, borrows two
    of background, and gets three back; then all come back. *)
Definition credit_demo : list cop :=
  [CMap [4; 4; 4; 4; 2]; CSend 1; CSend 1; CSend 1; CSend 1; CBorrow 1 false; CBorrow 1 false; CBorrowReturn 1 true; CSend 3;
   CExplicit [0; 3; 0; 0; 0; 0]; CBorrow 1 true; CStatus (DHD_PKTTAG_SETFIFO 0 1);
   CExplicit [0; 2; 0; 0; 0; 0]; CMap [5; 4; 4; 4; 2]; CExplicit [0; 2; 0; 1; 0; 0]].

(** A packet that takes a credit of best effort. *)
Definition credit_tag : Z := DHD_PKTTAG_SETFIFO (DHD_PKTTAG_SETCREDITCHECK 0 1) 1.


(** A failure of the bus in both modes: the credit is lost in the explicit one. *)
Example credit_lost :
  let run mode := FIFO_credit ∘ fst ∘ fst <$> cexec_all mode [CMap [4; 4; 4; 4; 2]; CSend 1; CBusFailed credit_tag] cstart in
  run WLFC_FCMODE_EXPLICIT_CREDIT = Some [4; 3; 4; 4; 2; 0] ∧ run WLFC_FCMODE_IMPLIED_CREDIT = Some [4; 4; 4; 4; 2; 0].
Proof. by split; vm_compute. Qed.
