(* ===== verification/WlfcQueue.v ===== *)
(** * Wireless flow control: queues (model)

    dhd_wlfc.c: the queue of packets that the dongle suppressed, which is kept in
    the order of the packets' sequence counters, and the queues of the packets
    that are at the dongle, from which a status takes the packet with its
    counter.  [tags] gives the tag that goes to the dongle with a packet.  The
    fuel of the loops is one more than there are packets. *)

From S2P Require Import Prelude Pktq FlowQueue FlowData WlfcTag.

Definition WLFC_MAC_DESC_TABLE_SIZE : Z := 32.
Definition WLFC_MAX_IFNUM : Z := 16.

Section Tags.
Context (tags : pkt -> Z).

(** [WL_TXSTATUS_GET_FREERUNCTR(DHD_PKTTAG_H2DTAG(PKTTAG(p)))] *)
Definition freerunctr (p : pkt) : Z := WL_TXSTATUS_GET_FREERUNCTR (tags p).

Definition _dhd_wlfc_adjusted_seq (p : ptr) (current_seq : Z) : Z :=
  match p with
  | None => 65535
  | Some p =>
      let seq := freerunctr p in if bool_decide (seq < current_seq) then seq + 256 else seq
  end.

(** ** Enqueueing in order *)

(** The [while]: the last packet that goes before [seq], and the one behind it. *)
Fixpoint reorder_loop (fuel : nat) (h : heap) (current_seq seq : Z) (p2_prev : ptr) (p2 : pkt) : option (ptr * ptr) :=
  if bool_decide (seq > _dhd_wlfc_adjusted_seq (Some p2) current_seq) then
    match fuel with
    | O => None
    | S fuel =>
        nx ← PKTLINK h p2;
        match nx with
        | None => Some (Some p2, None)
        | Some y => reorder_loop fuel h current_seq seq (Some p2) y
        end
    end
  else Some (p2_prev, Some p2).

Definition reorder_insert (h : heap) (qp : pktq_prec) (hd p : pkt) (current_seq seq : Z) : option (heap * pktq_prec) :=
  '(p2_prev, p2) ← reorder_loop (S (size h)) h current_seq seq None hd;
  match p2_prev, p2 with
  | None, _ => h ← PKTSETLINK h p (head qp); Some (h, set_head (Some p) qp)
  | Some pv, None => h ← PKTSETLINK h pv (Some p); Some (h, set_tail (Some p) qp)
  | Some pv, Some _ => nx ← PKTLINK h pv; h ← PKTSETLINK h p nx; h ← PKTSETLINK h pv (Some p); Some (h, qp)
  end.

(** [if (qHead) ... else ...] *)
Definition plain_insert (h : heap) (qp : pktq_prec) (p : pkt) (qHead : bool) : option (heap * pktq_prec) :=
  if qHead then h ← PKTSETLINK h p (head qp); Some (h, set_head (Some p) qp)
  else t ← tail qp; h ← PKTSETLINK h t (Some p); Some (h, set_tail (Some p) qp).

Definition _dhd_wlfc_prec_enque (h : heap) (pq : pktq) (prec : Z) (p : ptr) (qHead : bool) (current_seq : Z) (reOrder : bool)
    : option (heap * pktq) :=
  match p with
  | None => Some (h, pq)
  | Some p =>
      qp ← getq pq prec;
      '(h, qp) ← (match head qp with
                  | None => Some (h, set_tail (Some p) (set_head (Some p) qp))
                  | Some hd =>
                      if reOrder && Z.odd prec then
                        let seq := _dhd_wlfc_adjusted_seq (Some p) current_seq in
                        let p2 := if qHead then head qp else tail qp in
                        let seq2 := _dhd_wlfc_adjusted_seq p2 current_seq in
                        if (qHead && bool_decide (seq + 1 > seq2)) || (negb qHead && bool_decide (seq2 + 1 > seq))
                        then reorder_insert h qp hd p current_seq seq
                        else plain_insert h qp p qHead
                      else plain_insert h qp p qHead
                  end);
      let qp := set_n_pkts (u16 (n_pkts qp + 1)) qp in
      let pq := set_n_pkts_tot (u16 (n_pkts_tot pq + 1)) (putq prec qp pq) in
      Some (h, raise_hi_prec prec pq)
  end.

(** ** Taking the packet with a counter

    What _dhd_wlfc_deque_afq and dhd_wlfc_suppressed_acked_update do with a queue:
    the packet, or NULL, and whether there was one before it. *)
Definition deque_counter (h : heap) (pq : pktq) (prec hcnt : Z) : option (ptr * bool * heap * pktq) :=
  qp ← getq pq prec;
  '(b, p) ← find_match (S (size h)) h (λ p, bool_decide (hcnt = freerunctr p)) None (head qp);
  match p with
  | None => Some (None, false, h, pq)
  | Some x =>
      '(h, qp) ← (match b with
                  | None =>
                      nx ← PKTLINK h x;
                      let qp := set_head nx qp in
                      Some (h, if isNULL nx then set_tail None qp else qp)
                  | Some pv =>
                      nx ← PKTLINK h x; h ← PKTSETLINK h pv nx;
                      nx ← PKTLINK h x; Some (h, if isNULL nx then set_tail (Some pv) qp else qp)
                  end);
      let qp := set_n_pkts (u16 (n_pkts qp - 1)) qp in
      let pq := commit_deq prec p qp pq in
      h ← PKTSETLINK h x None;
      Some (p, negb (isNULL b), h, pq)
  end.

(** ** The queues of packets at the dongle *)

(** The [afq] of the descriptors in destination_entries, and stats.ooo_pkts. *)
Record wlfc_afqs := mk_afqs {
  af_nodes : list pktq;      (* [WLFC_MAC_DESC_TABLE_SIZE] *)
  af_interfaces : list pktq; (* [WLFC_MAX_IFNUM] *)
  af_other : pktq;
  ooo_pkts : list Z          (* uint32 [AC_COUNT + 1] *)
}.

Definition get_afq (x : wlfc_afqs) (hslot : Z) : option pktq :=
  if bool_decide (hslot < WLFC_MAC_DESC_TABLE_SIZE) then at_ (af_nodes x) hslot
  else if bool_decide (hslot < WLFC_MAC_DESC_TABLE_SIZE + WLFC_MAX_IFNUM)
       then at_ (af_interfaces x) (hslot - WLFC_MAC_DESC_TABLE_SIZE)
       else Some (af_other x).
Definition put_afq (x : wlfc_afqs) (hslot : Z) (pq : pktq) : option wlfc_afqs :=
  if bool_decide (hslot < WLFC_MAC_DESC_TABLE_SIZE) then
    l ← put_ (af_nodes x) hslot pq; Some (mk_afqs l (af_interfaces x) (af_other x) (ooo_pkts x))
  else if bool_decide (hslot < WLFC_MAC_DESC_TABLE_SIZE + WLFC_MAX_IFNUM) then
    l ← put_ (af_interfaces x) (hslot - WLFC_MAC_DESC_TABLE_SIZE) pq; Some (mk_afqs (af_nodes x) l (af_other x) (ooo_pkts x))
  else Some (mk_afqs (af_nodes x) (af_interfaces x) pq (ooo_pkts x)).

Definition count_ooo (x : wlfc_afqs) (prec : Z) : option wlfc_afqs :=
  n ← at_ (ooo_pkts x) prec; l ← put_ (ooo_pkts x) prec (u32 (n + 1));
  Some (mk_afqs (af_nodes x) (af_interfaces x) (af_other x) l).

(** [flags]: the flags of the packet's tag on the host. *)
Definition _dhd_wlfc_enque_afq (h : heap) (x : wlfc_afqs) (p : pkt) (flags : Z) : option (Z * heap * wlfc_afqs) :=
  let entry_idx := WL_TXSTATUS_GET_HSLOT (tags p) in
  pq ← get_afq x entry_idx;
  '(_, h, pq) ← pktq_penq h pq (DHD_PKTTAG_FIFO flags) p;
  x ← put_afq x entry_idx pq;
  Some (BCME_OK, h, x).

(** The result and [*pktout]. *)
Definition _dhd_wlfc_deque_afq (h : heap) (x : option wlfc_afqs) (hslot hcnt prec : Z)
    : option (Z * ptr * heap * option wlfc_afqs) :=
  match x with
  | None => Some (BCME_BADARG, None, h, None)
  | Some x =>
      pq ← get_afq x hslot;
      '(p, ooo, h, pq) ← deque_counter h pq prec hcnt;
      match p with
      | None => Some (BCME_ERROR, None, h, Some x)
      | Some _ =>
          x ← (if (ooo : bool) then count_ooo x prec else Some x);
          x ← put_afq x hslot pq;
          Some (BCME_OK, p, h, Some x)
      end
  end.
End Tags.
