(* ===== verification/WlfcQueueTheorems.v ===== *)
(** * Wireless flow control: suppressed packets keep their order *)

From Stdlib Require Import Sorting.Sorted.
From stdpp Require Import functions.
From S2P Require Import Prelude Pktq PktqSpec PktqRefine PktqSystem FlowQueue FlowData WlfcTag WlfcQueue.

Section Order.
Context (tags : pkt -> Z) (current_seq : Z).

(** How long after [current_seq] a packet's counter comes, around the end. *)
Definition seq_dist (p : pkt) : Z := (freerunctr tags p - current_seq) mod 256.

Definition in_order (l : list pkt) : Prop := StronglySorted (λ x y, seq_dist x <= seq_dist y) l.

(** A packet goes before the first one that does not come before it. *)
Fixpoint insert_in_order (p : pkt) (l : list pkt) : list pkt :=
  match l with
  | [] => [p]
  | x :: l => if bool_decide (seq_dist p > seq_dist x) then x :: insert_in_order p l else p :: x :: l
  end.

Lemma freerunctr_range p : 0 <= freerunctr tags p < 256.
Proof. apply (get_field_range 0 8); lia. Qed.

Lemma adjusted_dist p : 0 <= current_seq < 256 -> _dhd_wlfc_adjusted_seq tags (Some p) current_seq = current_seq + seq_dist p.
Proof.
  intros H. pose proof (freerunctr_range p) as Hr. unfold _dhd_wlfc_adjusted_seq, seq_dist. case_bool_decide.
  - rewrite (Z.mod_eq _ 256) by done. replace ((freerunctr tags p - current_seq) / 256) with (-1); [lia|].
    apply (Z.div_unique _ _ _ (freerunctr tags p - current_seq + 256)); lia.
  - rewrite Z.mod_small by lia. lia.
Qed.

(** ** The insertion of a list *)

Lemma insert_perm p l : insert_in_order p l ≡ₚ p :: l.
Proof.
  induction l as [|x l IH]; [done|]. cbn [insert_in_order]. case_bool_decide; [|done]. rewrite IH. constructor.
Qed.

Lemma insert_sorted p l : in_order l -> in_order (insert_in_order p l).
Proof.
  unfold in_order. induction 1 as [|x l Hs IH Hx]; cbn [insert_in_order]; [by repeat constructor|].
  case_bool_decide as E; constructor; try done.
  - rewrite insert_perm. constructor; [lia|done].
  - by constructor.
  - constructor; [lia|]. eapply Forall_impl; [done|]. cbn. intros y Hy. lia.
Qed.

Lemma insert_split p l : ∃ l1 l2, l = l1 ++ l2 ∧ insert_in_order p l = l1 ++ p :: l2
  ∧ Forall (λ x, seq_dist p > seq_dist x) l1 ∧ match l2 with [] => True | y :: _ => ¬ seq_dist p > seq_dist y end.
Proof.
  induction l as [|x l (l1 & l2 & -> & E & H1 & H2)]; cbn [insert_in_order]; [by exists [], []|].
  case_bool_decide as Hx; [|by exists [], (x :: l1 ++ l2)].
  exists (x :: l1), l2. rewrite E. split; [done|]. split; [done|]. split; [by constructor|done].
Qed.

Lemma insert_front p x l : ¬ seq_dist p > seq_dist x -> insert_in_order p (x :: l) = p :: x :: l.
Proof. intros H. cbn [insert_in_order]. by rewrite bool_decide_false. Qed.

Lemma insert_back p l x : in_order (l ++ [x]) -> seq_dist p > seq_dist x -> insert_in_order p (l ++ [x]) = l ++ [x; p].
Proof.
  intros Hs Hx. assert (Forall (λ y, seq_dist y <= seq_dist x) l) as Hl.
  { clear Hx. induction l as [|y l IH]; [done|]. apply StronglySorted_inv in Hs as [Hs Hy]. constructor; [|by apply IH].
    by apply Forall_app in Hy as [_ [Hy _]%Forall_cons]. }
  clear Hs. induction Hl as [|y l Hy Hl IH]; cbn [insert_in_order app].
  - by rewrite bool_decide_true.
  - by rewrite bool_decide_true, IH by lia.
Qed.

Context (Hcur : 0 <= current_seq < 256).

(** ** The search *)

Lemma reorder_loop_spec h p l2 l1 : ∀ fuel prev hd,
  lseg h (Some hd) (l1 ++ l2) None -> (length l1 <= fuel)%nat ->
  Forall (λ x, seq_dist p > seq_dist x) l1 -> match l2 with [] => True | y :: _ => ¬ seq_dist p > seq_dist y end ->
  reorder_loop tags fuel h current_seq (_dhd_wlfc_adjusted_seq tags (Some p) current_seq) prev hd
  = Some (last_or prev l1, hd_error l2).
Proof.
  induction l1 as [|x l1 IH]; intros fuel prev hd Hs Hf H1 H2.
  - destruct l2 as [|y l2]; [done|]. destruct Hs as ([= ->] & _). destruct fuel; cbn [reorder_loop];
      rewrite !adjusted_dist, bool_decide_false by lia; done.
  - destruct Hs as ([= ->] & nx & Hx & Hs). apply Forall_cons in H1 as [Hpx H1]. destruct fuel as [|fuel]; cbn in Hf; [lia|].
    cbn [reorder_loop]. rewrite !adjusted_dist, bool_decide_true by lia. unfold PKTLINK. rewrite Hx. cbn [mbind option_bind].
    rewrite last_or_cons. destruct nx as [y|].
    + rewrite <-(adjusted_dist p) by done. apply IH; [done|lia|done|done].
    + destruct l1 as [|z l1]; [|by destruct Hs]. destruct l2 as [|z l2]; [done|by destruct Hs].
Qed.

(** ** The insertion into a queue *)

(** Counting, as the enqueue ends. *)
Definition counted (r : option (heap * pktq_prec)) : option (heap * pktq_prec) :=
  '(h, qp) ← r; Some (h, set_n_pkts (u16 (n_pkts qp + 1)) qp).

Lemma counted_head h qp p hd :
  head qp = Some hd -> counted (h ← PKTSETLINK h p (head qp); Some (h, set_head (Some p) qp)) = enq_head h qp p.
Proof. intros E. unfold enq_head, counted. rewrite E. cbn. rewrite E. by destruct (PKTSETLINK h p (Some hd)). Qed.

Lemma counted_tail h qp p hd t :
  head qp = Some hd -> tail qp = Some t ->
  counted (h ← PKTSETLINK h t (Some p); Some (h, set_tail (Some p) qp)) = enq_tail h qp p.
Proof. intros E Et. unfold enq_tail, counted. rewrite E, Et. cbn. by destruct (PKTSETLINK h t (Some p)). Qed.

Lemma qrep_insert_middle h qp l1 pv y l2 p :
  qrep h qp (l1 ++ pv :: y :: l2) -> p ∉ l1 ++ pv :: y :: l2 -> is_Some (h !! p) ->
  Z.of_nat (length (l1 ++ pv :: y :: l2)) + 1 < 65536 ->
  h !! pv = Some (Some y)
  ∧ qrep (<[pv := Some p]> (<[p := Some y]> h)) (set_n_pkts (u16 (n_pkts qp + 1)) qp) (l1 ++ pv :: p :: y :: l2).
Proof.
  intros [Hs Ht Hn Hb] Hp Hd Hl. pose proof (lseg_NoDup _ _ _ Hs) as (_ & Hnd & [Hpv Hnd2]%NoDup_cons)%NoDup_app.
  apply lseg_app in Hs as (m & Hs1 & (-> & nx & Hx & Hs2)). pose proof Hs2 as (-> & _). split; [done|].
  assert (p ≠ pv) as Hne by set_solver. rewrite length_app in *. cbn in Hl, Hn. split; cbn.
  - apply lseg_app. exists (Some pv). split.
    + apply lseg_insert_notin; [set_solver|]. apply lseg_insert_notin; [set_solver|done].
    + split; [done|]. exists (Some p). split; [by simplify_map_eq|]. split; [done|]. exists (Some y).
      split; [by simplify_map_eq|]. apply lseg_insert_notin; [done|]. apply lseg_insert_notin; [set_solver|done].
  - rewrite Ht. by rewrite !last_app_cons, !last_cons_cons.
  - rewrite u16_small by lia. rewrite length_app. cbn. lia.
  - pose proof (u16_range (n_pkts qp + 1)). lia.
Qed.

(** What an insertion leaves. *)
Definition inserts (h : heap) (l : list pkt) (p : pkt) (r : option (heap * pktq_prec)) (l' : list pkt) : Prop :=
  ∃ h' qp', counted r = Some (h', qp') ∧ qrep h' qp' l' ∧ frame (p :: l) h h'.

Section Insert.
Context (h : heap) (qp : pktq_prec) (l : list pkt) (p : pkt).
Context (Hq : qrep h qp l) (Hp : p ∉ l) (Hh : h !! p = Some None) (Hlen : Z.of_nat (length l) + 1 < 65536).

Lemma inserts_head hd :
  head qp = Some hd -> inserts h l p (h ← PKTSETLINK h p (head qp); Some (h, set_head (Some p) qp)) (p :: l).
Proof.
  intros E. unfold inserts. rewrite (counted_head h qp p hd E).
  destruct (enq_head_spec h qp l p Hq Hp ltac:(eauto) Hlen) as (h' & qp' & -> & Hr & Hf & _).
  exists h', qp'. split; [done|]. split; [done|]. eapply frame_mono; [|done]. set_solver.
Qed.

Lemma inserts_tail hd t :
  head qp = Some hd -> tail qp = Some t -> inserts h l p (h ← PKTSETLINK h t (Some p); Some (h, set_tail (Some p) qp)) (l ++ [p]).
Proof.
  intros E Et. unfold inserts. rewrite (counted_tail h qp p hd t E Et).
  destruct (enq_tail_spec h qp l p Hq Hp Hh Hlen) as (h' & qp' & -> & Hr & Hf & _).
  exists h', qp'. split; [done|]. split; [done|]. eapply frame_mono; [|done]. set_solver.
Qed.

Lemma reorder_insert_spec hd :
  head qp = Some hd ->
  inserts h l p (reorder_insert tags h qp hd p current_seq (_dhd_wlfc_adjusted_seq tags (Some p) current_seq)) (insert_in_order p l).
Proof.
  intros E. destruct (insert_split p l) as (l1 & l2 & El & -> & H1 & H2). unfold reorder_insert.
  pose proof (qrep_fuel _ _ _ Hq) as Hfuel. pose proof (qrep_seg _ _ _ Hq) as Hs. rewrite E, El in Hs.
  rewrite El, length_app in Hfuel. rewrite (reorder_loop_spec h p l2 l1 (S (size h)) None hd Hs ltac:(lia) H1 H2). cbn [mbind option_bind].
  destruct l1 as [|pv l1 _] using rev_ind.
  - cbn [last_or app] in El |- *. rewrite <-El. by apply (inserts_head hd).
  - rewrite last_or_snoc. destruct l2 as [|y l2]; cbn [hd_error].
    + rewrite app_nil_r in El. rewrite <-El. apply (inserts_tail hd); [done|]. by rewrite (qrep_tail _ _ _ Hq), El, last_snoc.
    + rewrite <-app_assoc in El |- *. cbn [app] in El |- *. unfold inserts.
      destruct (qrep_insert_middle h qp l1 pv y l2 p) as [Hpv Hr]; rewrite <-?El; eauto.
      assert (p ≠ pv) as Hne by set_solver. unfold PKTLINK. rewrite Hpv. cbn [mbind option_bind]. rewrite (PKTSETLINK_Some h p) by eauto.
      cbn [mbind option_bind]. rewrite PKTSETLINK_Some by (rewrite lookup_insert_ne by done; eauto). cbn [counted mbind option_bind].
      eexists _, _. split; [done|]. split; [exact Hr|].
      eapply frame_trans; apply frame_insert; [set_solver|eauto|set_solver|]. rewrite lookup_insert_ne by done. eauto.
Qed.
End Insert.

(** What an enqueue leaves in the queue of [prec]. *)
Definition enqueued (prec : Z) (qHead reOrder : bool) (p : pkt) (l : list pkt) : list pkt :=
  if reOrder && Z.odd prec then insert_in_order p l else if qHead then p :: l else l ++ [p].

Lemma insert_step h qp l p hd prec (qHead reOrder : bool) :
  qrep h qp l -> p ∉ l -> h !! p = Some None -> Z.of_nat (length l) + 1 < 65536 -> head qp = Some hd ->
  (reOrder && Z.odd prec = true -> in_order l) ->
  inserts h l p
    (if reOrder && Z.odd prec then
       let seq := _dhd_wlfc_adjusted_seq tags (Some p) current_seq in
       let p2 := if qHead then head qp else tail qp in
       let seq2 := _dhd_wlfc_adjusted_seq tags p2 current_seq in
       if (qHead && bool_decide (seq + 1 > seq2)) || (negb qHead && bool_decide (seq2 + 1 > seq))
       then reorder_insert tags h qp hd p current_seq seq
       else plain_insert h qp p qHead
     else plain_insert h qp p qHead) (enqueued prec qHead reOrder p l).
Proof.
  intros Hq Hp Hh Hlen E Hord. unfold enqueued, plain_insert. pose proof (qrep_seg _ _ _ Hq) as Hs. pose proof (qrep_tail _ _ _ Hq) as Ht.
  assert (∃ t l0, l = l0 ++ [t] ∧ tail qp = Some t) as (t & l0 & El & Et).
  { destruct l as [|t l0 _] using rev_ind; [cbn in Hs; congruence|]. exists t, l0. by rewrite Ht, last_snoc. }
  destruct (reOrder && Z.odd prec); [|by destruct qHead; [eapply inserts_head|rewrite Et; eapply inserts_tail]].
  specialize (Hord eq_refl). cbv zeta. destruct qHead; cbn [andb orb negb].
  - rewrite E. destruct l as [|x l1]; [by destruct l0|]. destruct Hs as (E' & _). assert (x = hd) as -> by congruence.
    rewrite orb_false_r. case_bool_decide as Eb; [by eapply reorder_insert_spec|]. rewrite !adjusted_dist in Eb by done.
    rewrite insert_front by lia. rewrite <-E. by eapply inserts_head.
  - rewrite Et. case_bool_decide as Eb; [by eapply reorder_insert_spec|]. rewrite !adjusted_dist in Eb by done.
    rewrite El in Hord |- *. rewrite insert_back by (done || lia). change [t; p] with ([t] ++ [p]). rewrite app_assoc, <-El.
    cbn [mbind option_bind]. by eapply inserts_tail.
Qed.

(** C20.  A packet that comes back suppressed goes to its place: the suppressed
    queue of a priority holds the packets in the order of their counters from
    the entry's current one, around the end of the byte, and loses or doubles
    none, whichever end the caller names.  Elsewhere the packet goes to that end. *)
Theorem prec_enque_in_order (h : heap) (pq : pktq) (ls : lists) (prec : Z) (p : pkt) (qHead reOrder : bool) :
  pqrep h pq ls -> 0 <= prec < num_prec pq -> ¬ queued ls p -> h !! p = Some None -> total ls + 1 < 65536 ->
  (reOrder && Z.odd prec = true -> in_order (ls !!! Z.to_nat prec)) ->
  ∃ h' pq' l', _dhd_wlfc_prec_enque tags h pq prec (Some p) qHead current_seq reOrder = Some (h', pq')
    ∧ pqrep h' pq' (<[Z.to_nat prec := l']> ls) ∧ l' ≡ₚ p :: ls !!! Z.to_nat prec
    ∧ if reOrder && Z.odd prec then in_order l' else l' = if qHead then p :: ls !!! Z.to_nat prec else ls !!! Z.to_nat prec ++ [p].
Proof.
  intros H Hpr Hfresh Hh Htot Hord. destruct (pqrep_getq h pq ls prec H Hpr) as (qp & Hg & _ & Hq).
  remember (ls !!! Z.to_nat prec) as l eqn:El. symmetry in El. pose proof (total_ge ls (Z.to_nat prec)) as Hge. rewrite El in Hge.
  assert (p ∉ l) as Hp by (intros Hin; apply Hfresh; exists (Z.to_nat prec); by rewrite El).
  assert (inserts h l p
    (match head qp with
     | None => Some (h, set_tail (Some p) (set_head (Some p) qp))
     | Some hd =>
         if reOrder && Z.odd prec then
           let seq := _dhd_wlfc_adjusted_seq tags (Some p) current_seq in
           let p2 := if qHead then head qp else tail qp in
           let seq2 := _dhd_wlfc_adjusted_seq tags p2 current_seq in
           if (qHead && bool_decide (seq + 1 > seq2)) || (negb qHead && bool_decide (seq2 + 1 > seq))
           then reorder_insert tags h qp hd p current_seq seq
           else plain_insert h qp p qHead
         else plain_insert h qp p qHead
     end) (enqueued prec qHead reOrder p l)) as (h' & qp' & E & Hq' & Hf).
  { destruct (head qp) as [hd|] eqn:Ehd; [rewrite <-Ehd; by apply insert_step; (done || lia)|].
    assert (l = []) as -> by (by apply (qrep_nil_iff _ _ _ Hq); rewrite Ehd).
    destruct (enq_tail_spec h qp [] p Hq Hp Hh) as (h' & qp' & Ee & Hq' & Hf & _); [cbn; lia|]. exists h', qp'.
    unfold enq_tail in Ee. rewrite Ehd in Ee. cbn in Ee. split; [exact Ee|]. split.
    - unfold enqueued. by destruct (_ && _), qHead.
    - eapply frame_mono; [|exact Hf]. set_solver. }
  assert (enqueued prec qHead reOrder p l ≡ₚ p :: l) as Hperm.
  { unfold enqueued. destruct (_ && _); [apply insert_perm|]. destruct qHead; [done|]. by rewrite Permutation_app_comm. }
  destruct (pqrep_commit_enq (p :: l) h h' pq ls prec qp' l _ 1 H Hpr El Hq' Hf) as [Hpq _].
  - intros x i Hx Hi. rewrite Hperm in Hx. apply (pqrep_disj_in h pq ls (Z.to_nat prec) l [p] H) with x; [by rewrite El| | |done].
    + by intros y ->%list_elem_of_singleton.
    + set_solver.
  - rewrite Hperm. cbn. lia.
  - lia.
  - lia.
  - eexists h', _, _. split; [|split; [exact Hpq|split; [done|]]].
    + unfold _dhd_wlfc_prec_enque. rewrite Hg. cbn [mbind option_bind]. unfold counted in E. match type of E with (_ ← ?r; _) = _ => destruct r as [[h1 qp1]|]; [|done] end.
      cbn [mbind option_bind] in E |- *. by injection E as -> <-.
    + unfold enqueued. destruct (reOrder && Z.odd prec); [|done]. apply insert_sorted. by apply Hord.
Qed.
End Order.

(** Counters 250, 253, 2, 5 are in order from 248, and 255 goes in the middle. *)
Definition order_tags (p : pkt) : Z :=
  match p with 1%positive => 250 | 2%positive => 253 | 3%positive => 2 | 4%positive => 5 | _ => 255 end.
Definition order_ops (h : heap) (pq : pktq) : option (heap * pktq) :=
  '(h, pq) ← _dhd_wlfc_prec_enque order_tags h pq 1 (Some 3%positive) false 248 true;
  '(h, pq) ← _dhd_wlfc_prec_enque order_tags h pq 1 (Some 1%positive) true 248 true;
  '(h, pq) ← _dhd_wlfc_prec_enque order_tags h pq 1 (Some 4%positive) false 248 true;
  _dhd_wlfc_prec_enque order_tags h pq 1 (Some 2%positive) false 248 true.
Definition order_store : heap := {[1 := None; 2 := None; 3 := None; 4 := None; 5 := None]}%positive.
Definition order_pq : pktq := mk_pktq None 2 0 4096 0 (replicate 2 (mk_prec None None 0 4096 0 0)).

(** The store and the queue that these leave. *)
Definition order_result : option (heap * pktq) := Eval vm_compute in order_ops order_store order_pq.

Lemma order_result_rep : ∃ h pq, order_result = Some (h, pq) ∧ pqrep h pq [[]; [1; 2; 3; 4]%positive] ∧ h !! 5%positive = Some None.
Proof.
  eexists _, _. split; [reflexivity|]. split; [|done]. split; try done; cbn.
  - intros [|[|i]] qp Hi Hq; [| |lia]; injection Hq as <-; split; cbn; try done. do 4 (split; [done|]; eexists; split; [reflexivity|]); done.
  - intros [|[|i]] [|[|j]] x; cbn; set_solver.
  - intros [|[|i]]; cbn; try done.
Qed.

Lemma prec_enque_in_order_witness :
  ∃ h pq h' pq' l', order_result = Some (h, pq)
    ∧ _dhd_wlfc_prec_enque order_tags h pq 1 (Some 5%positive) true 248 true = Some (h', pq')
    ∧ pqrep h' pq' (<[1%nat := l']> [[]; [1; 2; 3; 4]%positive]) ∧ in_order order_tags 248 l'
    ∧ insert_in_order order_tags 248 5%positive [1; 2; 3; 4]%positive = [1; 2; 5; 3; 4]%positive.
Proof.
  destruct order_result_rep as (h & pq & E & H & H5).
  destruct (prec_enque_in_order order_tags 248 ltac:(done) h pq [[]; [1; 2; 3; 4]%positive] 1 5%positive true true H)
    as (h' & pq' & l' & E' & H' & _ & Hord).
  - by rewrite (pqrep_lens _ _ _ H).
  - intros ([|[|i]] & Hi); cbn in Hi; set_solver.
  - done.
  - by vm_compute.
  - intros _. repeat constructor; by vm_compute.
  - exists h, pq, h', pq', l'. split; [done|]. split; [done|]. split; [done|]. split; [done|]. by vm_compute.
Defined.

(** * Wireless flow control: the queues of the packets at the dongle *)

Section Afq.
(** The tag and the host's flags of a packet. *)
Context (tags flags : pkt -> Z).

(** ** Taking the packet with a counter *)

Definition has_counter (hcnt : Z) (p : pkt) : bool := bool_decide (hcnt = freerunctr tags p).

(** The tail after the packet behind [pv] is taken, as this code decides it. *)
Lemma unlink_tail h qp l1 x l2 nx :
  qrep h qp (l1 ++ x :: l2) -> h !! x = Some nx -> isNULL nx = bool_decide (tail qp = Some x).
Proof.
  intros Hq Hx. pose proof (qrep_seg _ _ _ Hq) as Hs. pose proof (lseg_NoDup _ _ _ Hs) as (_ & _ & [Hn _]%NoDup_cons)%NoDup_app.
  apply lseg_app in Hs as (m & _ & (-> & nx' & Hx' & Hs)). assert (nx' = nx) as -> by congruence.
  rewrite (qrep_tail _ _ _ Hq), last_app_cons. destruct l2 as [|y l2].
  - cbn in Hs. subst nx. cbn. by rewrite bool_decide_true.
  - destruct Hs as (-> & _). rewrite last_cons_cons, bool_decide_false; [done|]. intros [l3 E]%last_Some. apply Hn. rewrite E. set_solver.
Qed.

Lemma deque_counter_none h pq ls prec hcnt :
  pqrep h pq ls -> 0 <= prec < num_prec pq -> take_match (has_counter hcnt) (ls !!! Z.to_nat prec) = None ->
  deque_counter tags h pq prec hcnt = Some (None, false, h, pq).
Proof.
  intros H Hp Hm. destruct (pqrep_getq h pq ls prec H Hp) as (qp & Hg & _ & Hr). unfold deque_counter. rewrite Hg. cbn [mbind option_bind].
  by rewrite (find_match_spec h _ _ None (S (size h)) None (head qp) (qrep_seg _ _ _ Hr) (take_match_None _ _ Hm))
    by (done || by eapply qrep_fuel).
Qed.

Lemma deque_counter_some h pq ls prec hcnt x l' :
  pqrep h pq ls -> 0 <= prec < num_prec pq -> take_match (has_counter hcnt) (ls !!! Z.to_nat prec) = Some (x, l') ->
  ∃ h' pq', deque_counter tags h pq prec hcnt = Some (Some x, negb (bool_decide (hd_error (ls !!! Z.to_nat prec) = Some x)), h', pq')
    ∧ pqrep h' pq' (<[Z.to_nat prec := l']> ls) ∧ num_prec pq' = num_prec pq
    ∧ frame (ls !!! Z.to_nat prec) h h' ∧ h' !! x = Some None.
Proof.
  intros H Hp Hm. destruct (pqrep_getq h pq ls prec H Hp) as (qp & Hg & _ & Hr).
  destruct (take_match_Some _ _ _ _ Hm) as (l1 & l2 & Hl & -> & Hfx & Hf1). rewrite Hl in Hr |- *.
  pose proof (qrep_seg _ _ _ Hr) as Hs. pose proof (lseg_NoDup _ _ _ Hs) as (_ & Hnd & _)%NoDup_app.
  apply lseg_app in Hs as (m & Hs1 & (-> & nx & Hx & Hs2)). pose proof (qrep_fuel _ _ _ Hr) as Hfuel. rewrite length_app in Hfuel.
  unfold deque_counter. rewrite Hg. cbn [mbind option_bind].
  rewrite (find_match_spec h _ l1 (Some x) (S (size h)) None (head qp)) by (done || lia).
  pose proof (qrep_unlink h qp l1 x l2 nx Hr Hx) as Hu. pose proof (unlink_tail h qp l1 x l2 nx Hr Hx) as Ht. cbn [mbind option_bind].
  destruct l1 as [|y l1 _] using rev_ind.
  - change (last_or None []) with (@None pkt) in *. destruct Hu as [_ Hr']. cbn [mbind option_bind]. unfold PKTLINK. rewrite Hx. cbn [mbind option_bind]. rewrite PKTSETLINK_Some by eauto.
    cbn [mbind option_bind app hd_error isNULL negb]. rewrite bool_decide_true by done. eexists _, _. split; [done|].
    assert (frame (x :: l2) h (<[x:=None]> h)) as Hf by (apply frame_insert; [set_solver|eauto]).
    edestruct (pqrep_commit_deq (x :: l2) h _ pq ls prec x _ _ _ H Hp Hl Hr' Hf) as [H1 H2]; [set_solver|done|].
    split_and!; [exact H1|done|done|by simplify_map_eq].
  - rewrite last_or_snoc in Hu |- *. destruct Hu as (Hne & Hpv & Hd & Hr'). unfold PKTLINK. rewrite Hx. cbn [mbind option_bind].
    rewrite PKTSETLINK_Some by done. cbn [mbind option_bind]. rewrite lookup_insert_ne, Hx by done. cbn [mbind option_bind].
    rewrite PKTSETLINK_Some by (rewrite lookup_insert_ne by done; eauto). cbn [mbind option_bind isNULL negb].
    assert (hd_error ((l1 ++ [y]) ++ x :: l2) ≠ Some x) as Hhd.
    { destruct l1 as [|z l1]; cbn; intros [= ->]; [done|]. apply (Hnd x); set_solver. }
    rewrite (bool_decide_false (hd_error _ = _)) by done. eexists _, _. split; [done|].
    assert (frame ((l1 ++ [y]) ++ x :: l2) h (<[x:=None]> (<[y:=nx]> h))) as Hf.
    { eapply frame_trans; apply frame_insert; [set_solver|done|set_solver|]. rewrite lookup_insert_ne by done. eauto. }
    assert (set_n_pkts (u16 (n_pkts (if isNULL nx then set_tail (Some y) qp else qp) - 1))
              (if isNULL nx then set_tail (Some y) qp else qp) = unlink_after y x qp) as ->.
    { unfold unlink_after. rewrite Ht. by case_bool_decide; case_decide. }
    edestruct (pqrep_commit_deq ((l1 ++ [y]) ++ x :: l2) h _ pq ls prec x _ _ _ H Hp Hl Hr' Hf) as [H1 H2];
      [set_solver|rewrite !length_app; cbn; lia|].
    split_and!; [exact H1|done|done|by simplify_map_eq].
Qed.

(** ** The queues of all entries *)

(** An entry's number: the nodes, the interfaces, and the entry for the rest. *)
Definition n_entries : Z := WLFC_MAC_DESC_TABLE_SIZE + WLFC_MAX_IFNUM + 1.
Definition entry_of (hslot : Z) : Z := Z.min hslot (n_entries - 1).

Definition AFQ_PREC : Z := 5. (* WLFC_AFQ_PREC_COUNT *)

Record arep (P : gset pkt) (h : heap) (x : wlfc_afqs) (L : Z -> lists) : Prop := {
  ar_dom : dom h = P;
  ar_nodes : Z.of_nat (length (af_nodes x)) = WLFC_MAC_DESC_TABLE_SIZE;
  ar_ifs : Z.of_nat (length (af_interfaces x)) = WLFC_MAX_IFNUM;
  ar_ooo : Z.of_nat (length (ooo_pkts x)) = AFQ_PREC;
  ar_q : ∀ s, 0 <= s < n_entries -> ∃ pq, get_afq x s = Some pq ∧ pqrep h pq (L s) ∧ num_prec pq = AFQ_PREC;
  ar_disj : ∀ s s' p, 0 <= s < n_entries -> 0 <= s' < n_entries -> queued (L s) p -> queued (L s') p -> s = s';
  ar_free : ∀ p, p ∈ P -> (∀ s, 0 <= s < n_entries -> ¬ queued (L s) p) -> h !! p = Some None
}.

Lemma entry_of_range s : 0 <= s -> 0 <= entry_of s < n_entries.
Proof. unfold entry_of, n_entries, WLFC_MAC_DESC_TABLE_SIZE, WLFC_MAX_IFNUM. lia. Qed.

Lemma get_afq_entry x s : get_afq x s = get_afq x (entry_of s).
Proof.
  unfold get_afq, entry_of, n_entries, WLFC_MAC_DESC_TABLE_SIZE, WLFC_MAX_IFNUM.
  destruct (Z.le_gt_cases s 48); [by rewrite Z.min_l by lia|]. rewrite Z.min_r by lia.
  by rewrite !bool_decide_false by lia.
Qed.

Lemma put_afq_lens x s pq' :
  Z.of_nat (length (af_nodes x)) = WLFC_MAC_DESC_TABLE_SIZE -> Z.of_nat (length (af_interfaces x)) = WLFC_MAX_IFNUM -> 0 <= s ->
  ∃ x', put_afq x s pq' = Some x'
    ∧ (∀ s', 0 <= s' -> get_afq x' s' = if bool_decide (entry_of s' = entry_of s) then Some pq' else get_afq x s')
    ∧ length (af_nodes x') = length (af_nodes x) ∧ length (af_interfaces x') = length (af_interfaces x) ∧ ooo_pkts x' = ooo_pkts x.
Proof.
  intros Hn Hi Hs. unfold put_afq.
  unfold get_afq, entry_of, n_entries, WLFC_MAC_DESC_TABLE_SIZE, WLFC_MAX_IFNUM in *. case_bool_decide as E1; [|case_bool_decide as E2].
  - destruct (at_is_Some (af_nodes x) s) as [y Hy]; [lia|]. rewrite (put_Some _ _ _ _ Hy). cbn [mbind option_bind].
    eexists. split; [done|]. split; [|cbn; by rewrite length_insert]. intros s' Hs'. cbn. case_bool_decide as E.
    + destruct (decide (s' = s)) as [->|Hne]; [by rewrite (at_insert_eq _ _ _ _ Hy), bool_decide_true|].
      by rewrite at_insert_ne, (bool_decide_false (_ = _)) by lia.
    + by rewrite (bool_decide_false (_ = _)) by lia.
  - destruct (at_is_Some (af_interfaces x) (s - 32)) as [y Hy]; [lia|]. rewrite (put_Some _ _ _ _ Hy). cbn [mbind option_bind].
    eexists. split; [done|]. split; [|cbn; by rewrite length_insert]. intros s' Hs'. cbn. case_bool_decide as E; [|case_bool_decide as E'].
    + by rewrite (bool_decide_false (_ = _)) by lia.
    + destruct (decide (s' = s)) as [->|Hne]; [by rewrite (at_insert_eq _ _ _ _ Hy), bool_decide_true|].
      by rewrite at_insert_ne, (bool_decide_false (_ = _)) by lia.
    + by rewrite (bool_decide_false (_ = _)) by lia.
  - eexists. split; [done|]. split; [|done]. intros s' Hs'. cbn. case_bool_decide as E; [|case_bool_decide as E'].
    + by rewrite (bool_decide_false (_ = _)) by lia.
    + by rewrite (bool_decide_false (_ = _)) by lia.
    + by rewrite bool_decide_true by lia.
Qed.

Lemma put_afq_spec P h x L s pq' :
  arep P h x L -> 0 <= s -> ∃ x', put_afq x s pq' = Some x'
    ∧ (∀ s', 0 <= s' -> get_afq x' s' = if bool_decide (entry_of s' = entry_of s) then Some pq' else get_afq x s')
    ∧ length (af_nodes x') = length (af_nodes x) ∧ length (af_interfaces x') = length (af_interfaces x) ∧ ooo_pkts x' = ooo_pkts x.
Proof. intros H Hs. apply put_afq_lens; [apply H|apply H|done]. Qed.

(** One entry's queue changes, and with it the links of its packets. *)
Lemma arep_update P h h' x x' L s n l0 l' pq' :
  arep P h x L -> 0 <= s -> (n < length (L (entry_of s)))%nat ->
  (∀ s', 0 <= s' -> get_afq x' s' = if bool_decide (entry_of s' = entry_of s) then Some pq' else get_afq x s') ->
  length (af_nodes x') = length (af_nodes x) -> length (af_interfaces x') = length (af_interfaces x) ->
  length (ooo_pkts x') = length (ooo_pkts x) ->
  pqrep h' pq' (<[n := l']> (L (entry_of s))) -> num_prec pq' = AFQ_PREC -> frame l0 h h' ->
  l0 ⊆ L (entry_of s) !!! n ->
  (∀ p, p ∈ l' -> p ∈ L (entry_of s) !!! n ∨ p ∈ P ∧ ∀ s', 0 <= s' < n_entries -> ¬ queued (L s') p) ->
  (∀ p, p ∈ L (entry_of s) !!! n -> p ∉ l' -> h' !! p = Some None) ->
  arep P h' x' (<[entry_of s := <[n := l']> (L (entry_of s))]> L).
Proof.
  intros H Hs Hn Hg Hl1 Hl2 Hl3 Hpq Hnum Hf Hl0 Hnew Hgone. pose proof (entry_of_range s Hs) as He.
  assert (∀ p, queued (<[n := l']> (L (entry_of s))) p -> queued (L (entry_of s)) p ∨ p ∈ l') as Hq1.
  { intros p (i & Hi). destruct (decide (i = n)) as [->|Hne]; [rewrite lists_insert_eq in Hi by done; by right|].
    rewrite lists_insert_ne in Hi by done. left. by exists i. }
  assert (∀ s' p, 0 <= s' < n_entries -> s' ≠ entry_of s -> queued (L s') p -> p ∉ L (entry_of s) !!! n) as Hother.
  { intros s' p Hs' Hne Hq Hin. apply Hne. apply (ar_disj _ _ _ _ H s' (entry_of s) p); [done|done|done|by exists n]. }
  assert (∀ s' p, 0 <= s' < n_entries -> s' ≠ entry_of s -> queued (L s') p -> ¬ queued (<[n := l']> (L (entry_of s))) p) as Hsep.
  { intros s' p Hs' Hne Hq [Hq'|Hp]%Hq1; [apply Hne; by apply (ar_disj _ _ _ _ H s' (entry_of s) p)|].
    destruct (Hnew p Hp) as [Hin|[_ Hno]]; [by apply (Hother s' p)|by apply (Hno s')]. }
  destruct Hf as [Hfd Hf]. split; try congruence; rewrite ?Hl1, ?Hl2, ?Hl3; try apply H.
  - rewrite Hfd. apply H.
  - intros s' Hs'. rewrite Hg by lia. unfold insert at 1, fn_insert. destruct (decide (entry_of s = s')) as [<-|Hne].
    + rewrite bool_decide_true by (unfold entry_of; lia). by exists pq'.
    + rewrite bool_decide_false by (unfold entry_of in *; lia). destruct (ar_q _ _ _ _ H s' Hs') as (pq & E & Hr & Hp).
      exists pq. split; [done|]. split; [|done]. eapply pqrep_agree; [|done]. intros p Hp'. apply Hf. intros Hin%Hl0.
      by apply (Hother s' p).
  - intros s1 s2 p H1 H2. unfold insert at 1 3, fn_insert. destruct (decide _) as [<-|Hn1], (decide _) as [<-|Hn2]; try done; intros Q1 Q2.
    + by destruct (Hsep s2 p H2 ltac:(done) Q2).
    + by destruct (Hsep s1 p H1 ltac:(done) Q1).
    + by apply (ar_disj _ _ _ _ H s1 s2 p).
  - intros p Hp Hno. specialize (Hno (entry_of s) He) as Hnoe. unfold insert at 1, fn_insert in Hnoe.
    rewrite decide_True in Hnoe by done. destruct (decide (p ∈ L (entry_of s) !!! n)) as [Hin|Hin].
    + apply Hgone; [done|]. intros Hl. apply Hnoe. exists n. by rewrite lists_insert_eq.
    + rewrite Hf by (intros ?%Hl0; done). apply (ar_free _ _ _ _ H); [done|]. intros s' Hs' Hq.
      destruct (decide (entry_of s = s')) as [<-|Hne].
      * destruct Hq as (i & Hi). apply Hnoe. exists i. destruct (decide (i = n)) as [->|Hne]; [done|]. by rewrite lists_insert_ne.
      * apply (Hno s' Hs'). unfold insert, fn_insert. by rewrite decide_False.
Qed.

(** ** Runs *)

(** A packet goes to the dongle, and a status comes for the packet with this
    counter of an entry and a FIFO. *)
Inductive aop := AEnq (p : pkt) | AStatus (hslot hcnt prec : Z).

Definition aexec (o : aop) (h : heap) (x : wlfc_afqs) : option (Z * ptr * heap * wlfc_afqs) :=
  match o with
  | AEnq p => '(rc, h, x) ← _dhd_wlfc_enque_afq tags h x p (flags p); Some (rc, None, h, x)
  | AStatus hslot hcnt prec => '(rc, p, h, x) ← _dhd_wlfc_deque_afq tags h (Some x) hslot hcnt prec; x ← x; Some (rc, p, h, x)
  end.

(** The list of an entry and a FIFO is replaced. *)
Definition set_list (L : Z -> lists) (s prec : Z) (l : list pkt) : Z -> lists := <[s := <[Z.to_nat prec := l]> (L s)]> L.

(** The answer, and the lists: a status takes the first packet with the counter. *)
Definition aspec (o : aop) (L : Z -> lists) : Z * ptr * (Z -> lists) :=
  match o with
  | AEnq p =>
      let s := entry_of (WL_TXSTATUS_GET_HSLOT (tags p)) in
      let prec := DHD_PKTTAG_FIFO (flags p) in
      (BCME_OK, None, set_list L s prec (L s !!! Z.to_nat prec ++ [p]))
  | AStatus hslot hcnt prec =>
      let s := entry_of hslot in
      match take_match (has_counter hcnt) (L s !!! Z.to_nat prec) with
      | Some (p, l) => (BCME_OK, Some p, set_list L s prec l)
      | None => (BCME_ERROR, None, L)
      end
  end.

(** A packet of the store that is in no queue goes to the dongle; a status names
    one of the FIFOs. *)
Definition aenabled (P : gset pkt) (o : aop) (L : Z -> lists) : Prop :=
  match o with
  | AEnq p =>
      p ∈ P ∧ (∀ s, 0 <= s < n_entries -> ¬ queued (L s) p) ∧ 0 <= DHD_PKTTAG_FIFO (flags p) < AFQ_PREC
      ∧ total (L (entry_of (WL_TXSTATUS_GET_HSLOT (tags p)))) + 1 < 65536
  | AStatus hslot _ prec => 0 <= hslot ∧ 0 <= prec < AFQ_PREC
  end.

Lemma enq_step P h x L p :
  arep P h x L -> aenabled P (AEnq p) L ->
  ∃ h' x', aexec (AEnq p) h x = Some ((aspec (AEnq p) L).1, h', x') ∧ arep P h' x' (aspec (AEnq p) L).2.
Proof.
  intros H (Hp & Hno & Hf & Ht). cbn [aexec aspec fst snd]. unfold _dhd_wlfc_enque_afq. set (s := WL_TXSTATUS_GET_HSLOT (tags p)) in *.
  set (prec := DHD_PKTTAG_FIFO (flags p)) in *. assert (0 <= s) as Hs by (apply (get_field_range 8 16); lia).
  pose proof (entry_of_range s Hs) as He. destruct (ar_q _ _ _ _ H _ He) as (pq & Eg & Hr & Hn). rewrite get_afq_entry, Eg.
  cbn [mbind option_bind]. destruct (pktq_penq_spec h pq (L (entry_of s)) prec p _ Hr ltac:(lia) eq_refl (Hno _ He)) as
    (h' & pq' & -> & Hr' & Hn' & Hfr); [by apply (ar_free _ _ _ _ H)|done|]. cbn [mbind option_bind].
  destruct (put_afq_spec P h x L s pq' H Hs) as (x' & -> & Hg & Hl1 & Hl2 & Hl3). cbn [mbind option_bind]. exists h', x'. split; [done|].
  pose proof (pqrep_lens _ _ _ Hr) as Hlen. eapply (arep_update P h h' x x' L s (Z.to_nat prec)); try done; try congruence; [lia|..].
  - intros y [Hy|Hy]%elem_of_app; [by left|]. apply list_elem_of_singleton in Hy as ->. by right.
  - set_solver.
Qed.

Lemma status_step P h x L hslot hcnt prec :
  arep P h x L -> aenabled P (AStatus hslot hcnt prec) L ->
  ∃ h' x', aexec (AStatus hslot hcnt prec) h x = Some ((aspec (AStatus hslot hcnt prec) L).1, h', x')
    ∧ arep P h' x' (aspec (AStatus hslot hcnt prec) L).2.
Proof.
  intros H (Hs & Hp). cbn [aexec aspec]. unfold _dhd_wlfc_deque_afq.
  pose proof (entry_of_range hslot Hs) as He. destruct (ar_q _ _ _ _ H _ He) as (pq & Eg & Hr & Hn). rewrite get_afq_entry, Eg.
  cbn [mbind option_bind]. rewrite <-Hn in Hp. destruct (take_match _ _) as [[p l']|] eqn:Em.
  - destruct (deque_counter_some h pq _ prec hcnt p l' Hr Hp Em) as (h' & pq' & -> & Hr' & Hn' & Hfr & Hh). cbn [mbind option_bind].
    assert (∃ x1, (if negb (bool_decide (hd_error (L (entry_of hslot) !!! Z.to_nat prec) = Some p)) then count_ooo x prec else Some x) = Some x1
      ∧ af_nodes x1 = af_nodes x ∧ af_interfaces x1 = af_interfaces x ∧ af_other x1 = af_other x
      ∧ length (ooo_pkts x1) = length (ooo_pkts x)) as (x1 & -> & E1 & E2 & E3 & E4).
    { case_bool_decide; [by exists x|]. cbn [negb]. unfold count_ooo. destruct (at_is_Some (ooo_pkts x) prec) as [n Hc].
      - rewrite (ar_ooo _ _ _ _ H). lia.
      - rewrite Hc. cbn [mbind option_bind]. rewrite (put_Some _ _ _ _ Hc). cbn [mbind option_bind]. eexists. split; [done|].
        split; [done|]. split; [done|]. split; [done|]. cbn. by rewrite length_insert. }
    cbn [mbind option_bind]. assert (∀ s, get_afq x1 s = get_afq x s) as Eg1 by (intros s; unfold get_afq; by rewrite E1, E2, E3).
    assert (arep P h x1 L) as H1.
    { destruct H. split; rewrite ?E1, ?E2, ?E4; try done. intros s Hs'. rewrite Eg1. auto. }
    destruct (put_afq_spec P h x1 L hslot pq' H1 Hs) as (x' & -> & Hg & Hl1 & Hl2 & Hl3). cbn [mbind option_bind fst snd].
    exists h', x'. split; [done|]. destruct (take_match_Some _ _ _ _ Em) as (l1 & l2 & El & -> & _).
    pose proof (pqrep_lens _ _ _ Hr) as Hlen. eapply (arep_update P h h' x1 x' L hslot (Z.to_nat prec)); try done; try congruence; [lia|..].
    + intros y Hy. left. rewrite El. set_solver.
    + intros y Hy Hny. assert (y = p) as ->; [|done]. rewrite El in Hy. set_solver.
  - rewrite (deque_counter_none h pq _ prec hcnt Hr Hp Em). cbn [mbind option_bind fst snd]. by exists h, x.
Qed.

Fixpoint aexec_all (os : list aop) (h : heap) (x : wlfc_afqs) : option (list (Z * ptr) * heap * wlfc_afqs) :=
  match os with
  | [] => Some ([], h, x)
  | o :: os => '(rc, p, h, x) ← aexec o h x; '(rs, h, x) ← aexec_all os h x; Some ((rc, p) :: rs, h, x)
  end.

Fixpoint aspec_all (os : list aop) (L : Z -> lists) : list (Z * ptr) * (Z -> lists) :=
  match os with
  | [] => ([], L)
  | o :: os => let '(r, L) := aspec o L in let '(rs, L) := aspec_all os L in (r :: rs, L)
  end.

Fixpoint aenabled_all (P : gset pkt) (os : list aop) (L : Z -> lists) : Prop :=
  match os with [] => True | o :: os => aenabled P o L ∧ aenabled_all P os (aspec o L).2 end.

Lemma aexec_all_step P os : ∀ h x L,
  arep P h x L -> aenabled_all P os L ->
  ∃ h' x', aexec_all os h x = Some ((aspec_all os L).1, h', x') ∧ arep P h' x' (aspec_all os L).2.
Proof.
  induction os as [|o os IH]; intros h x L H He; cbn [aexec_all aspec_all aenabled_all] in *; [by exists h, x|].
  destruct He as [He Hes]. assert (∃ h1 x1, aexec o h x = Some ((aspec o L).1, h1, x1) ∧ arep P h1 x1 (aspec o L).2) as (h1 & x1 & E & H1).
  { destruct o; [by apply enq_step|by apply status_step]. }
  destruct (aspec o L) as [[rc p] L1]. cbn [fst snd] in *. rewrite E. cbn [mbind option_bind].
  destruct (IH h1 x1 L1 H1 Hes) as (h2 & x2 & -> & H2). cbn [mbind option_bind]. destruct (aspec_all os L1) as [rs L2].
  by exists h2, x2.
Qed.
End Afq.

(** ** The start *)

(** The queues of the entries, each initialised. *)
Definition afqs_init (pq : pktq) : wlfc_afqs :=
  mk_afqs (replicate (Z.to_nat WLFC_MAC_DESC_TABLE_SIZE) pq) (replicate (Z.to_nat WLFC_MAX_IFNUM) pq) pq (replicate (Z.to_nat AFQ_PREC) 0).

Lemma arep_init P h pq pq' m :
  dom h = P -> (∀ p, p ∈ P -> h !! p = Some None) -> pktq_init pq AFQ_PREC m = Some (true, pq') ->
  arep P h (afqs_init pq') (λ _, replicate (Z.to_nat AFQ_PREC) []).
Proof.
  intros Hd Hf Hi. pose proof (sr_pq _ _ (sysrep_init h P pq pq' AFQ_PREC m 0 Hd Hf Hi ltac:(done))) as Hr. cbn in Hr.
  assert (∀ p s, ¬ queued ((λ _ : Z, replicate (Z.to_nat AFQ_PREC) []) s) p) as Hq.
  { intros p s (i & Hx). rewrite lookup_total_replicate_nil in Hx. by apply elem_of_nil in Hx. }
  split; try done.
  - intros s Hs. exists pq'. split; [|split; [done|by rewrite (pqrep_lens _ _ _ Hr)]]. unfold get_afq. case_bool_decide; [|case_bool_decide].
    + apply at_Some. split; [lia|]. apply lookup_replicate. split; [done|]. unfold WLFC_MAC_DESC_TABLE_SIZE in *. lia.
    + apply at_Some. unfold WLFC_MAC_DESC_TABLE_SIZE, WLFC_MAX_IFNUM in *. split; [lia|]. apply lookup_replicate. split; [done|]. unfold WLFC_MAX_IFNUM. lia.
    + done.
  - intros s s' p _ _ Hq1. by destruct (Hq p s).
  - intros p Hp _. by apply Hf.
Qed.

(** C21.  Packets at the dongle are found by their counters: in every run from
    empty queues a packet goes to the end of the list of its entry and FIFO, and
    a status takes the first packet of that list with the status' counter, in
    order or not, leaves the others as they were, and fails only when there is
    none.  The packet that is taken has no link. *)
Theorem afq_run_refines (tags flags : pkt -> Z) (P : gset pkt) (h : heap) (pq pq' : pktq) (m : Z) (ops : list aop) :
  dom h = P -> (∀ p, p ∈ P -> h !! p = Some None) -> pktq_init pq AFQ_PREC m = Some (true, pq') ->
  let L := λ _, replicate (Z.to_nat AFQ_PREC) [] in
  aenabled_all tags flags P ops L ->
  ∃ h' x', aexec_all tags flags ops h (afqs_init pq') = Some ((aspec_all tags flags ops L).1, h', x')
    ∧ arep P h' x' (aspec_all tags flags ops L).2.
Proof. intros Hd Hf Hi L He. apply aexec_all_step; [|done]. by apply (arep_init P h pq pq' m). Qed.

(** A packet with a slot, a counter and a FIFO. *)
Definition demo_tag (p : pkt) : Z :=
  match p with
  | 1%positive => WL_TXSTATUS_SET_FREERUNCTR (WL_TXSTATUS_SET_HSLOT 0 33) 7
  | 2%positive => WL_TXSTATUS_SET_FREERUNCTR (WL_TXSTATUS_SET_HSLOT 0 33) 9
  | _ => WL_TXSTATUS_SET_FREERUNCTR (WL_TXSTATUS_SET_HSLOT 0 3) 9
  end.
Definition demo_flags (p : pkt) : Z := DHD_PKTTAG_SETFIFO 0 2.
Definition demo_pkts3 : gset pkt := {[1; 2; 3]}%positive.
Definition demo_store3 : heap := gset_to_gmap None demo_pkts3.
Definition demo_raw : pktq := mk_pktq None 0 0 0 0 (replicate 5 zero_prec).

(** The second packet's status comes first; a second one for it finds nothing. *)
Definition afq_demo : list aop :=
  [AEnq 1; AEnq 2; AEnq 3; AStatus 33 9 2; AStatus 33 9 2; AStatus 33 7 2; AStatus 3 9 2; AStatus 60 9 2]%positive.

Lemma queued_set_list L s prec l s' p : queued (set_list L s prec l s') p -> p ∈ l ∨ queued (L s') p.
Proof.
  unfold set_list, insert at 1, fn_insert. destruct (decide _) as [<-|Hne]; [|by right]. intros (i & Hi).
  destruct (decide (Z.to_nat prec < length (L s))%nat).
  - destruct (decide (i = Z.to_nat prec)) as [->|Hne]; [rewrite lists_insert_eq in Hi by done; by left|].
    rewrite lists_insert_ne in Hi by done. right. by exists i.
  - rewrite list_insert_ge in Hi by lia. right. by exists i.
Qed.

Lemma afq_run_refines_witness :
  (∃ pq', pktq_init demo_raw AFQ_PREC 4096 = Some (true, pq')
    ∧ ∃ h' x', aexec_all demo_tag demo_flags afq_demo demo_store3 (afqs_init pq')
               = Some ((aspec_all demo_tag demo_flags afq_demo (λ _, replicate (Z.to_nat AFQ_PREC) [])).1, h', x')
      ∧ arep demo_pkts3 h' x' (aspec_all demo_tag demo_flags afq_demo (λ _, replicate (Z.to_nat AFQ_PREC) [])).2)
  ∧ (aspec_all demo_tag demo_flags afq_demo (λ _, replicate (Z.to_nat AFQ_PREC) [])).1
    = [(0, None); (0, None); (0, None); (0, Some 2%positive); (-1, None); (0, Some 1%positive); (0, Some 3%positive); (-1, None)].
Proof.
  split; [|by vm_compute]. eexists. split; [reflexivity|].
  assert (∀ s p, ¬ queued ((λ _ : Z, replicate (Z.to_nat AFQ_PREC) []) s) p) as Hq.
  { intros s p (i & Hx). rewrite lookup_total_replicate_nil in Hx. by apply elem_of_nil in Hx. }
  apply (afq_run_refines demo_tag demo_flags demo_pkts3 demo_store3 demo_raw _ 4096 afq_demo).
  - apply dom_gset_to_gmap.
  - intros p Hp. by apply lookup_gset_to_gmap_Some.
  - reflexivity.
  - cbn [aenabled_all afq_demo aenabled]. split_and!; try (by vm_compute); try (unfold demo_pkts3; set_solver); intros s _; try apply Hq;
      intros Hin; repeat (apply queued_set_list in Hin as [Hin|Hin]; [vm_compute in Hin; set_solver|]); by apply Hq in Hin.
Defined.
