(* ===== verification/WlfcHeader.v ===== *)
(** * Wireless flow control: headers of packets (model)

    dhd_wlfc.c: what the host puts in front of a packet that goes to the dongle
    (the BDC header and a list of tagged elements behind it) and takes off again.
    A packet is its buffer with the place where its data begins, as the stale
    bytes in front of the data are there when a header is pushed. *)

From S2P Require Import Prelude Pktq FlowQueue FlowData WlfcTag.

(** ** Packets *)

(** The fields of a packet and of its tag (dhd_pkttag_t) that the flow control
    uses; the link of the packet is in the store of Pktq. *)
Record wpkt := mk_wpkt {
  if_flags : Z;          (* uint16 *)
  dstn_ether : list Z;   (* [ETHER_ADDR_LEN] *)
  htod_tag : Z;          (* uint32 *)
  htod_seq : Z;          (* uint16 *)
  tag_entry : option Z;  (* a descriptor, by its number *)
  pkt_prio : Z;
  pkt_sumneeded : bool;
  pkt_off : Z;           (* where the data begins *)
  pkt_buf : list Z
}.

Definition set_if_flags (x : Z) (p : wpkt) : wpkt :=
  mk_wpkt x (dstn_ether p) (htod_tag p) (htod_seq p) (tag_entry p) (pkt_prio p) (pkt_sumneeded p) (pkt_off p) (pkt_buf p).
Definition DHD_PKTTAG_SET_H2DTAG (x : Z) (p : wpkt) : wpkt :=
  mk_wpkt (if_flags p) (dstn_ether p) x (htod_seq p) (tag_entry p) (pkt_prio p) (pkt_sumneeded p) (pkt_off p) (pkt_buf p).
Definition DHD_PKTTAG_SET_ENTRY (x : Z) (p : wpkt) : wpkt :=
  mk_wpkt (if_flags p) (dstn_ether p) (htod_tag p) (htod_seq p) (Some x) (pkt_prio p) (pkt_sumneeded p) (pkt_off p) (pkt_buf p).
Definition set_off (x : Z) (p : wpkt) : wpkt :=
  mk_wpkt (if_flags p) (dstn_ether p) (htod_tag p) (htod_seq p) (tag_entry p) (pkt_prio p) (pkt_sumneeded p) x (pkt_buf p).
Definition set_buf (x : list Z) (p : wpkt) : wpkt :=
  mk_wpkt (if_flags p) (dstn_ether p) (htod_tag p) (htod_seq p) (tag_entry p) (pkt_prio p) (pkt_sumneeded p) (pkt_off p) x.

Definition PKTDATA (p : wpkt) : list Z := drop (Z.to_nat (pkt_off p)) (pkt_buf p).
Definition PKTLEN (p : wpkt) : Z := Z.of_nat (length (pkt_buf p)) - pkt_off p.

(** The kernel stops when there is no room in front of the data, or when more is
    pulled than there is. *)
Definition PKTPUSH (n : Z) (p : wpkt) : option wpkt :=
  if bool_decide (n <= pkt_off p) then Some (set_off (pkt_off p - n) p) else None.
Definition PKTPULL (n : Z) (p : wpkt) : option wpkt :=
  if bool_decide (n <= PKTLEN p) then Some (set_off (pkt_off p + n) p) else None.

(** Writing bytes to the data from place [i] on. *)
Fixpoint poke (i : Z) (l : list Z) (p : wpkt) : option wpkt :=
  match l with
  | [] => Some p
  | x :: l => b ← put_ (pkt_buf p) (pkt_off p + i) x; poke (i + 1) l (set_buf b p)
  end.

(** The bytes of a word, the low one first. *)
Definition htol32 (x : Z) : list Z := [x mod 256; x / 256 mod 256; x / 65536 mod 256; x / 16777216 mod 256].
Definition htol16 (x : Z) : list Z := [x mod 256; x / 256 mod 256].

(** ** Elements *)

Definition TLV_HDR_LEN : Z := 2.

Definition WLFC_CTL_TYPE_MAC_OPEN : Z := 1.
Definition WLFC_CTL_TYPE_MAC_CLOSE : Z := 2.
Definition WLFC_CTL_TYPE_MAC_REQUEST_CREDIT : Z := 3.
Definition WLFC_CTL_TYPE_TXSTATUS : Z := 4.
Definition WLFC_CTL_TYPE_PKTTAG : Z := 5.
Definition WLFC_CTL_TYPE_MACDESC_ADD : Z := 6.
Definition WLFC_CTL_TYPE_MACDESC_DEL : Z := 7.
Definition WLFC_CTL_TYPE_RSSI : Z := 8.
Definition WLFC_CTL_TYPE_INTERFACE_OPEN : Z := 9.
Definition WLFC_CTL_TYPE_INTERFACE_CLOSE : Z := 10.
Definition WLFC_CTL_TYPE_FIFO_CREDITBACK : Z := 11.
Definition WLFC_CTL_TYPE_PENDING_TRAFFIC_BMP : Z := 12.
Definition WLFC_CTL_TYPE_MAC_REQUEST_PACKET : Z := 13.
Definition WLFC_CTL_TYPE_HOST_REORDER_RXPKTS : Z := 14.
Definition WLFC_CTL_TYPE_TRANS_ID : Z := 18.
Definition WLFC_CTL_TYPE_COMP_TXSTATUS : Z := 19.
Definition WLFC_CTL_TYPE_FILLER : Z := 255.

Definition WLFC_CTL_VALUE_LEN_PENDING_TRAFFIC_BMP : Z := 2.
Definition WLFC_CTL_VALUE_LEN_TXSTATUS : Z := 4.
Definition WLFC_CTL_VALUE_LEN_PKTTAG : Z := 4.
Definition WLFC_CTL_VALUE_LEN_SEQ : Z := 2.

Definition WLFC_MAX_PENDING_DATALEN : Z := 120.

(** ** The BDC header *)

Definition BDC_HEADER_LEN : Z := 4.
Definition BDC_PROTO_VER : Z := 2.
Definition BDC_FLAG_VER_SHIFT : Z := 4.
Definition BDC_FLAG_SUM_NEEDED : Z := 8.
Definition BDC_PRIORITY_MASK : Z := 7.

Definition ROUNDUP (x y : Z) : Z := (x + (y - 1)) / y * y.

(** The header as it is written last, [dataOffset] in words. *)
Definition push_bdc_hdr (p : wpkt) (dataOffset : Z) : option wpkt :=
  p ← PKTPUSH BDC_HEADER_LEN p;
  let flags := Z.shiftl BDC_PROTO_VER BDC_FLAG_VER_SHIFT in
  let flags := if pkt_sumneeded p then Z.lor flags BDC_FLAG_SUM_NEEDED else flags in
  poke 0 [flags; Z.land (pkt_prio p) BDC_PRIORITY_MASK; DHD_PKTTAG_IF (if_flags p); Z.shiftr dataOffset 2] p.

(** [reuseseq]: whether the sequence numbers of the air are used again, which
    the host and the dongle agree upon. *)
Definition _dhd_wlfc_pushheader (reuseseq : bool) (p : wpkt) (tim_signal : bool) (tim_bmp mac_handle htodtag htodseq : Z)
    (skip_wlfc_hdr : bool) : option wpkt :=
  if skip_wlfc_hdr then push_bdc_hdr p 0
  else
    let tim_signal_len := if tim_signal then TLV_HDR_LEN + WLFC_CTL_VALUE_LEN_PENDING_TRAFFIC_BMP else 0 in
    let dataOffset := WLFC_CTL_VALUE_LEN_PKTTAG + TLV_HDR_LEN + tim_signal_len in
    let dataOffset := if reuseseq then dataOffset + WLFC_CTL_VALUE_LEN_SEQ else dataOffset in
    let fillers := ROUNDUP dataOffset 4 - dataOffset in
    let dataOffset := dataOffset + fillers in
    p ← PKTPUSH dataOffset p;
    p ← poke 0 [WLFC_CTL_TYPE_PKTTAG; WLFC_CTL_VALUE_LEN_PKTTAG] p;
    p ← poke TLV_HDR_LEN (htol32 htodtag) p;
    p ← (if reuseseq then
           p ← poke 1 [WLFC_CTL_VALUE_LEN_PKTTAG + WLFC_CTL_VALUE_LEN_SEQ] p;
           poke (TLV_HDR_LEN + WLFC_CTL_VALUE_LEN_PKTTAG) (htol16 htodseq) p
         else Some p);
    p ← (if tim_signal then
           poke (dataOffset - fillers - tim_signal_len)
             [WLFC_CTL_TYPE_PENDING_TRAFFIC_BMP; WLFC_CTL_VALUE_LEN_PENDING_TRAFFIC_BMP; mac_handle; tim_bmp] p
         else Some p);
    p ← poke (dataOffset - fillers) (replicate (Z.to_nat fillers) WLFC_CTL_TYPE_FILLER) p;
    push_bdc_hdr p dataOffset.

(** The first header is gone when the second is found too long. *)
Definition _dhd_wlfc_pullheader (p : wpkt) : option (Z * wpkt) :=
  if bool_decide (PKTLEN p < BDC_HEADER_LEN) then Some (BCME_ERROR, p)
  else
    dataOffset ← at_ (pkt_buf p) (pkt_off p + 3);
    p ← PKTPULL BDC_HEADER_LEN p;
    if bool_decide (PKTLEN p < Z.shiftl dataOffset 2) then Some (BCME_ERROR, p)
    else p ← PKTPULL (Z.shiftl dataOffset 2) p; Some (BCME_OK, p).

(** ** The elements that come from the dongle

    The loop of dhd_wlfc_parse_header_info: [handle] is what its body does with
    an element, of which it may change the bytes.  Every round but the last uses
    up a byte of [remainder], so there are no more than that and one. *)
Section Parse.
Context {S : Type} (handle : Z -> Z -> list Z -> S -> option (list Z * S)).

Fixpoint parse_loop (fuel : nat) (tmpbuf : list Z) (processed remainder : Z) (s : S) : option (Z * S) :=
  if bool_decide (processed < WLFC_MAX_PENDING_DATALEN * 2) && bool_decide (remainder > 0) then
    match fuel with
    | O => None
    | Datatypes.S fuel =>
        type ← at_ tmpbuf processed;
        if bool_decide (type = WLFC_CTL_TYPE_FILLER) then parse_loop fuel tmpbuf (u16 (processed + 1)) (u16 (remainder - 1)) s
        else
          len ← at_ tmpbuf (processed + 1);
          if bool_decide (remainder < 2 + len) then Some (remainder, s)
          else
            let i := Z.to_nat (processed + 2) in
            '(value, s) ← handle type len (drop i tmpbuf) s;
            parse_loop fuel (take i tmpbuf ++ value) (u16 (processed + (2 + len))) (u16 (remainder - (2 + len))) s
    end
  else Some (remainder, s).
End Parse.
