(* ===== verification/WlfcHeaderTheorems.v ===== *)
(** * Wireless flow control: a header that is pushed comes off again *)

From S2P Require Import Prelude Pktq FlowQueue FlowData WlfcTag WlfcHeader.

(** ** Data and room *)

(** The buffer and the place of the data fit, and all but these stays. *)
Definition wf_pkt (p : wpkt) : Prop := 0 <= pkt_off p <= Z.of_nat (length (pkt_buf p)).

Definition meta (p : wpkt) := (if_flags p, dstn_ether p, htod_tag p, htod_seq p, tag_entry p, pkt_prio p, pkt_sumneeded p).

Record moved (p p' : wpkt) (off : Z) (d : list Z) : Prop := {
  moved_wf : wf_pkt p';
  moved_meta : meta p' = meta p;
  moved_off : pkt_off p' = off;
  moved_data : PKTDATA p' = d
}.

Lemma PKTLEN_data p : wf_pkt p -> PKTLEN p = Z.of_nat (length (PKTDATA p)).
Proof. intros H. unfold PKTLEN, PKTDATA, wf_pkt in *. rewrite length_drop. lia. Qed.

Lemma moved_trans p p1 p2 o1 d1 o2 d2 : moved p p1 o1 d1 -> moved p1 p2 o2 d2 -> moved p p2 o2 d2.
Proof. intros [] []. split; congruence. Qed.

Lemma PKTPUSH_spec p n :
  wf_pkt p -> 0 <= n <= pkt_off p ->
  ∃ p' junk, PKTPUSH n p = Some p' ∧ Z.of_nat (length junk) = n ∧ moved p p' (pkt_off p - n) (junk ++ PKTDATA p).
Proof.
  intros H Hn. unfold PKTPUSH, wf_pkt in *. rewrite bool_decide_true by lia.
  exists (set_off (pkt_off p - n) p), (take (Z.to_nat n) (drop (Z.to_nat (pkt_off p - n)) (pkt_buf p))).
  split; [done|]. rewrite length_take, length_drop. split; [lia|]. split; [|done|done|]; unfold wf_pkt, PKTDATA; cbn; [lia|].
  rewrite <-(take_drop (Z.to_nat n) (drop _ _)) at 1. rewrite drop_drop. do 2 f_equal. lia.
Qed.

Lemma PKTPULL_spec p n a d :
  wf_pkt p -> PKTDATA p = a ++ d -> n = Z.of_nat (length a) ->
  ∃ p', PKTPULL n p = Some p' ∧ moved p p' (pkt_off p + n) d.
Proof.
  intros H Hd ->. assert (length (PKTDATA p) = (length a + length d)%nat) as Hl by (by rewrite Hd, length_app).
  unfold PKTPULL. rewrite PKTLEN_data, Hl, bool_decide_true by (done || lia). eexists. split; [done|].
  unfold PKTDATA in *. rewrite length_drop in Hl. unfold wf_pkt in H. split; [|done|done|]; unfold wf_pkt, PKTDATA; cbn; [lia|].
  rewrite <-(drop_app_length a d), <-Hd, drop_drop. f_equal. lia.
Qed.

Lemma poke_spec l : ∀ i p a b c,
  wf_pkt p -> PKTDATA p = a ++ b ++ c -> i = Z.of_nat (length a) -> length l = length b ->
  ∃ p', poke i l p = Some p' ∧ moved p p' (pkt_off p) (a ++ l ++ c).
Proof.
  induction l as [|x l IH]; intros i p a b c H Hd -> Hl.
  - destruct b; [|done]. exists p. split; [done|]. by split.
  - destruct b as [|y b]; [done|]. cbn [poke].
    assert (length (PKTDATA p) = (length a + S (length b) + length c)%nat) as Hlen.
    { rewrite Hd, !length_app. cbn. lia. }
    unfold PKTDATA in Hlen, Hd. rewrite length_drop in Hlen. unfold wf_pkt in H.
    destruct (at_is_Some (pkt_buf p) (pkt_off p + Z.of_nat (length a))) as [z Hz]; [lia|].
    rewrite (put_Some _ _ _ _ Hz). cbn [mbind option_bind].
    edestruct (IH (Z.of_nat (length a) + 1) (set_buf (<[Z.to_nat (pkt_off p + Z.of_nat (length a)) := x]> (pkt_buf p)) p)
                 (a ++ [x]) b c) as (p' & E & M).
    + unfold wf_pkt. cbn. rewrite length_insert. lia.
    + unfold PKTDATA. cbn. rewrite drop_insert_ge by lia. rewrite Hd.
      replace (Z.to_nat (pkt_off p + Z.of_nat (length a)) - Z.to_nat (pkt_off p))%nat with (length a + 0)%nat by lia.
      rewrite insert_app_r. cbn. by rewrite <-app_assoc.
    + rewrite length_app. cbn. lia.
    + cbn in Hl. lia.
    + exists p'. split; [exact E|]. destruct M as [M1 M2 M3 M4]. split; [done|done|done|]. rewrite M4, <-app_assoc. done.
Qed.

Lemma poke_take (i : nat) l p :
  wf_pkt p -> (i + length l <= length (PKTDATA p))%nat ->
  ∃ p', poke (Z.of_nat i) l p = Some p' ∧ moved p p' (pkt_off p) (take i (PKTDATA p) ++ l ++ drop (i + length l) (PKTDATA p)).
Proof.
  intros H Hl. eapply (poke_spec l (Z.of_nat i) p (take i (PKTDATA p)) (take (length l) (drop i (PKTDATA p)))).
  - done.
  - by rewrite <-drop_drop, !take_drop.
  - rewrite length_take. lia.
  - rewrite length_take, length_drop. lia.
Qed.

(** ** The headers *)

(** The BDC header with the number of words that follow it. *)
Definition bdc (p : wpkt) (words : Z) : list Z :=
  [if pkt_sumneeded p then 40 else 32; Z.land (pkt_prio p) 7; DHD_PKTTAG_IF (if_flags p); words].

(** The elements of a packet: its tag, with the sequence number or not, the
    traffic of its station, and bytes up to a multiple of four. *)
Definition elements (reuseseq tim_signal : bool) (tim_bmp mac_handle htodtag htodseq : Z) : list Z :=
  [WLFC_CTL_TYPE_PKTTAG; if reuseseq then 6 else 4] ++ htol32 htodtag ++ (if reuseseq then htol16 htodseq else [])
  ++ (if tim_signal then [WLFC_CTL_TYPE_PENDING_TRAFFIC_BMP; 2; mac_handle; tim_bmp] else [])
  ++ (if reuseseq then [] else [WLFC_CTL_TYPE_FILLER; WLFC_CTL_TYPE_FILLER]).

Lemma push_bdc_spec p words :
  wf_pkt p -> 4 <= pkt_off p ->
  ∃ p', push_bdc_hdr p (4 * words) = Some p' ∧ moved p p' (pkt_off p - 4) (bdc p words ++ PKTDATA p).
Proof.
  intros H Ho. unfold push_bdc_hdr. destruct (PKTPUSH_spec p BDC_HEADER_LEN H) as (p1 & junk & -> & Hj & M1);
    [unfold BDC_HEADER_LEN; lia|]. cbn [mbind option_bind]. destruct M1 as [W1 E1 O1 D1].
  assert (Z.shiftr (4 * words) 2 = words) as ->.
  { rewrite Z.shiftr_div_pow2 by lia. change (2 ^ 2) with 4. rewrite Z.mul_comm. by apply Z.div_mul. }
  edestruct (poke_spec [if pkt_sumneeded p1 then 40 else 32; Z.land (pkt_prio p1) BDC_PRIORITY_MASK; DHD_PKTTAG_IF (if_flags p1); words]
    0 p1 [] junk (PKTDATA p)) as (p2 & E2 & [W2 E2' O2 D2]); [done|done|done| |].
  { unfold BDC_HEADER_LEN in Hj. cbn. lia. }
  exists p2. split; [rewrite <-E2; by destruct (pkt_sumneeded p1)|]. split; [done|congruence| |].
  - rewrite O2, O1. done.
  - rewrite D2. cbn [app]. unfold bdc, meta in *. injection E1 as -> _ _ _ _ -> ->. done.
Qed.

(** Eight, twelve or no bytes of elements in front of the data. *)
Lemma length_elements reuseseq tim_signal tim_bmp mac_handle htodtag htodseq :
  length (elements reuseseq tim_signal tim_bmp mac_handle htodtag htodseq) = if tim_signal then 12%nat else 8%nat.
Proof. by destruct reuseseq, tim_signal. Qed.

(** Writing once more: the bytes that are known now. *)
Ltac poke_next :=
  match goal with
  | W : wf_pkt ?p, D : PKTDATA ?p = _ |- context [poke ?i ?l ?p] =>
      let k := eval vm_compute in (Z.to_nat i) in
      change (poke i l p) with (poke (Z.of_nat k) l p);
      let p' := fresh "p" in let E := fresh "E" in let M := fresh "M" in
      destruct (poke_take k l p W) as (p' & E & M); [rewrite D; cbn; lia|];
      rewrite E; cbn [mbind option_bind]; rewrite D in M; cbn [take drop length app Nat.add htol32 htol16] in M;
      clear E W D; destruct M as [? ? ? ?]
  end.

Lemma pushheader_spec reuseseq p tim_signal tim_bmp mac_handle htodtag htodseq :
  wf_pkt p -> 16 <= pkt_off p ->
  let e := elements reuseseq tim_signal tim_bmp mac_handle htodtag htodseq in
  let n := Z.of_nat (length e) in
  ∃ p', _dhd_wlfc_pushheader reuseseq p tim_signal tim_bmp mac_handle htodtag htodseq false = Some p'
    ∧ moved p p' (pkt_off p - n - 4) (bdc p (n / 4) ++ e ++ PKTDATA p).
Proof.
  intros H Ho e n. unfold n, e. rewrite length_elements. unfold _dhd_wlfc_pushheader.
  destruct (PKTPUSH_spec p (if tim_signal then 12 else 8) H) as (p1 & junk & E1 & Hj & [W1 M1 O1 D1]); [destruct tim_signal; lia|].
  remember (PKTDATA p) as d eqn:Ed. clear Ed.
  destruct reuseseq, tim_signal.
  all: match goal with |- context [PKTPUSH ?n _] => let v := eval vm_compute in n in change n with v end.
  all: rewrite E1; cbn [mbind option_bind]; clear E1; cbn in Hj.
  all: do 8 (destruct junk as [|? junk]; [cbn in Hj; lia|]); try (do 4 (destruct junk as [|? junk]; [cbn in Hj; lia|])).
  all: destruct junk; [|cbn in Hj; lia]; clear Hj; cbn [app] in D1.
  all: repeat match goal with |- context [Z.to_nat ?a] => let v := eval vm_compute in (Z.to_nat a) in change (Z.to_nat a) with v end.
  all: cbn [replicate]; repeat poke_next.
  all: rewrite ?take_0, ?drop_0 in *.
  all: match goal with |- context [push_bdc_hdr ?q ?n] =>
         let w := eval vm_compute in (n / 4) in change n with (4 * w); destruct (push_bdc_spec q w) as (p' & -> & [? ? ? D]); [done|lia|] end.
  all: exists p'; split; [done|]; split; [done|congruence|lia|rewrite D].
  all: match goal with H : PKTDATA ?q = _ |- context [PKTDATA ?q] => rewrite H end.
  all: assert (∀ q, meta q = meta p -> ∀ w, bdc q w = bdc p w) as Hb by (unfold meta, bdc; intros ? E ?; by injection E as -> _ _ _ _ -> ->).
  all: by rewrite Hb by congruence.
Qed.

(** ** What the dongle finds, and what the host takes off *)

(** The elements that the loop meets, with their bytes. *)
Definition collect (type len : Z) (value : list Z) (s : list (Z * list Z)) : option (list Z * list (Z * list Z)) :=
  Some (value, s ++ [(type, take (Z.to_nat len) value)]).

(** What is in the way of the data is a header: four bytes, the last of which
    counts the words that follow. *)
Definition header (h : list Z) : Prop :=
  ∃ a b c words e, h = [a; b; c; words] ++ e ∧ 0 <= words ∧ Z.of_nat (length e) = 4 * words.

Lemma pullheader_spec p h d :
  wf_pkt p -> PKTDATA p = h ++ d -> header h ->
  ∃ p', _dhd_wlfc_pullheader p = Some (BCME_OK, p') ∧ moved p p' (pkt_off p + Z.of_nat (length h)) d.
Proof.
  intros H Hd (a & b & c & w & e & -> & Hw & He). unfold _dhd_wlfc_pullheader.
  assert (length (PKTDATA p) = (4 + length e + length d)%nat) as Hl by (rewrite Hd, !length_app; cbn; lia).
  rewrite PKTLEN_data, Hl, bool_decide_false by (done || unfold BDC_HEADER_LEN; lia).
  assert (at_ (pkt_buf p) (pkt_off p + 3) = Some w) as ->.
  { apply at_Some. unfold wf_pkt in H. split; [lia|].
    replace (Z.to_nat (pkt_off p + 3)) with (Z.to_nat (pkt_off p) + 3)%nat by lia.
    rewrite <-lookup_drop. change (drop _ _) with (PKTDATA p). by rewrite Hd. }
  cbn [mbind option_bind]. rewrite <-app_assoc in Hd.
  destruct (PKTPULL_spec p BDC_HEADER_LEN [a; b; c; w] (e ++ d) H Hd eq_refl) as (p1 & -> & [W1 M1 O1 D1]). cbn [mbind option_bind].
  rewrite PKTLEN_data, D1, length_app by done. rewrite Z.shiftl_mul_pow2 by lia. change (2 ^ 2) with 4.
  rewrite bool_decide_false by lia.
  destruct (PKTPULL_spec p1 (w * 4) e d W1 D1) as (p2 & -> & [W2 M2 O2 D2]); [lia|]. cbn [mbind option_bind]. exists p2. split; [done|].
  unfold BDC_HEADER_LEN in O1. split; [done|congruence|rewrite O2, O1, length_app; cbn; lia|done].
Qed.

Lemma elements_header p reuseseq tim_signal tim_bmp mac_handle htodtag htodseq :
  let e := elements reuseseq tim_signal tim_bmp mac_handle htodtag htodseq in
  header (bdc p (Z.of_nat (length e) / 4) ++ e).
Proof.
  cbv zeta. unfold bdc. eexists _, _, _, _, _. split; [reflexivity|]. rewrite length_elements. by destruct tim_signal.
Qed.

(** C17.  A header that is pushed on a packet with sixteen bytes of room is in
    front of the data, which it does not change; the dongle, which reads the
    elements behind the BDC header as the host does, finds the tag, with the
    sequence number when it is in use, and the traffic of the station when it
    is to be signalled; pulling takes exactly the header off again. *)
Theorem header_roundtrip reuseseq p tim_signal tim_bmp mac_handle htodtag htodseq :
  wf_pkt p -> 16 <= pkt_off p ->
  ∃ p' e words,
    _dhd_wlfc_pushheader reuseseq p tim_signal tim_bmp mac_handle htodtag htodseq false = Some p'
    ∧ PKTDATA p' = bdc p words ++ e ++ PKTDATA p ∧ Z.of_nat (length e) = 4 * words
    ∧ parse_loop collect (S (length e)) e 0 (Z.of_nat (length e)) []
      = Some (0, [(WLFC_CTL_TYPE_PKTTAG, htol32 htodtag ++ if reuseseq then htol16 htodseq else [])]
                 ++ if tim_signal then [(WLFC_CTL_TYPE_PENDING_TRAFFIC_BMP, [mac_handle; tim_bmp])] else [])
    ∧ ∃ p'', _dhd_wlfc_pullheader p' = Some (BCME_OK, p'') ∧ moved p p'' (pkt_off p) (PKTDATA p).
Proof.
  intros H Ho. set (e := elements reuseseq tim_signal tim_bmp mac_handle htodtag htodseq).
  destruct (pushheader_spec reuseseq p tim_signal tim_bmp mac_handle htodtag htodseq H Ho) as (p' & E & [W M O D]).
  exists p', e, (Z.of_nat (length e) / 4). split; [exact E|]. split; [exact D|]. split.
  { unfold e. rewrite length_elements. by destruct tim_signal. }
  split; [by unfold e; destruct reuseseq, tim_signal|].
  rewrite app_assoc in D. destruct (pullheader_spec p' _ _ W D (elements_header _ _ _ _ _ _ _)) as (p'' & E'' & [W2 M2 O2 D2]).
  exists p''. split; [exact E''|]. split; [done|congruence| |done]. rewrite O2, O, length_app. unfold bdc. cbn [length]. lia.
Qed.

(** A packet of five bytes with room for twenty. *)
Definition small_packet : wpkt := mk_wpkt 0x8151 [2; 0; 0; 0; 0; 1] 0 0 None 5 false 20 (replicate 20 170 ++ [1; 2; 3; 4; 5]).

Lemma header_roundtrip_witness :
  wf_pkt small_packet ∧ 16 <= pkt_off small_packet
  ∧ ∃ p' e words,
    _dhd_wlfc_pushheader true small_packet true 3 7 0x8020115 0x3005 false = Some p'
    ∧ PKTDATA p' = bdc small_packet words ++ e ++ PKTDATA small_packet ∧ Z.of_nat (length e) = 4 * words
    ∧ parse_loop collect (S (length e)) e 0 (Z.of_nat (length e)) []
      = Some (0, [(WLFC_CTL_TYPE_PKTTAG, htol32 0x8020115 ++ htol16 0x3005)] ++ [(WLFC_CTL_TYPE_PENDING_TRAFFIC_BMP, [7; 3])])
    ∧ ∃ p'', _dhd_wlfc_pullheader p' = Some (BCME_OK, p'') ∧ moved small_packet p'' 20 [1; 2; 3; 4; 5].
Proof.
  split; [by unfold wf_pkt; cbn|]. split; [by cbn|].
  refine (header_roundtrip true small_packet true 3 7 0x8020115 0x3005 _ _); [by unfold wf_pkt; cbn|by cbn].
Defined.
