(* ===== verification/WlfcState.v ===== *)
(** * Wireless flow control: the state and the steps on it (model)

    dhd_wlfc.h, dhd_wlfc.c: the descriptors of the destinations, the rest of
    athost_wl_status_info_t, and what is around it: the links of the packets, the
    packets themselves, and the packets that the bus has.  The mode is the one
    that dhd_wlfc_init chooses for firmware with the old definition of it
    (WLFC_MODE_AFQ): packets at the dongle wait in the queues of WlfcQueue, no
    sequence numbers are used again, and suppressed packets go to the end of
    their queue.  Counters of statistics are left out.

    A descriptor is named by its number in destination_entries: the nodes, then
    the interfaces, then the entry for all others.  The routines are programs of
    a state monad; [None] is behaviour that C leaves open, among it the use of a
    packet that was freed. *)

From S2P Require Import Prelude Pktq FlowQueue FlowData WlfcTag WlfcCredit WlfcQueue WlfcHeader.

Definition WLFC_STATE_OPEN : Z := 1.
Definition WLFC_STATE_CLOSE : Z := 2.
Definition WLFC_PSQ_PREC_COUNT : Z := (AC_COUNT + 1) * 2.
Definition WLFC_AFQ_PREC_COUNT : Z := AC_COUNT + 1.
Definition WLFC_PSQ_LEN : Z := 4096 * 8.

(** Properties of a destination; its [afq] is in [wlfc_afqs]. *)
Record wlfc_mac_descriptor := mk_desc {
  d_occupied : bool; (* uint8 *)
  d_interface_id : Z; (* uint8 *)
  d_iftype : Z; (* uint8 *)
  d_state : Z; (* uint8 *)
  d_ac_bitmap : Z; (* uint8 *)
  d_requested_credit : Z; (* uint8 *)
  d_requested_packet : Z; (* uint8 *)
  d_ea : list Z; (* [ETHER_ADDR_LEN] *)
  d_seq : list Z; (* uint8 [AC_COUNT + 1] *)
  d_generation : Z; (* uint8 *)
  d_psq : pktq;
  d_traffic_lastreported_bmp : Z; (* uint8, as the next *)
  d_traffic_pending_bmp : Z;
  d_send_tim_signal : bool; (* uint8 *)
  d_mac_handle : Z; (* uint8 *)
  d_transit_count : Z; (* int, as the next two *)
  d_suppr_transit_count : Z;
  d_onbus_pkts_count : Z;
  d_suppressed : bool; (* uint8 *)
  d_transit_maxcount : Z; (* int *)
  d_prev : option Z; (* descriptors *)
  d_next : option Z;
  d_release_count : list Z (* uint16 [AC_COUNT + 1] *)
}.

(** The rest of the state. *)
Record wlfc := mk_wlfc {
  w_destination_entries : list wlfc_mac_descriptor; (* nodes, interfaces, other *)
  w_afqs : wlfc_afqs; (* the afq of the descriptors *)
  w_credits : wlfc_credits;
  w_active_entry_head : option Z; (* a descriptor *)
  w_active_entry_count : Z; (* int *)
  w_requested_entry : list (option Z); (* [WLFC_MAC_DESC_TABLE_SIZE] *)
  w_requested_entry_count : Z; (* int *)
  w_pkt_cnt_in_q : list (list Z); (* int [WLFC_MAX_IFNUM][AC_COUNT + 1] *)
  w_pkt_cnt_per_ac : list Z; (* int [AC_COUNT + 1] *)
  w_pkt_cnt_in_drv : list (list Z); (* int [WLFC_MAX_IFNUM][AC_COUNT + 1] *)
  w_pkt_cnt_in_psq : Z; (* int *)
  w_allow_fc : bool; (* uint8 *)
  w_fc_defer_timestamp : Z; (* uint32 *)
  w_rx_timestamp : list Z; (* uint32 [AC_COUNT + 1] *)
  w_hostif_flow_state : list bool; (* [WLFC_MAX_IFNUM], ON is true *)
  w_host_ifidx : Z; (* uint8 *)
  w_toggle_host_if : bool; (* uint8 *)
  w_allow_credit_borrow : bool; (* uint8 *)
  w_single_ac : Z; (* uint8 *)
  w_single_ac_timestamp : Z; (* uint32 *)
  w_bcmc_credit_supported : bool;
  w_max_release_count : Z (* uint8 *)
}.

(** Assignments to the fields. *)
Definition set_d_occupied (x : bool) (d : wlfc_mac_descriptor) : wlfc_mac_descriptor :=
  mk_desc x (d_interface_id d) (d_iftype d) (d_state d) (d_ac_bitmap d) (d_requested_credit d) (d_requested_packet d)
    (d_ea d) (d_seq d) (d_generation d) (d_psq d) (d_traffic_lastreported_bmp d) (d_traffic_pending_bmp d)
    (d_send_tim_signal d) (d_mac_handle d) (d_transit_count d) (d_suppr_transit_count d) (d_onbus_pkts_count d)
    (d_suppressed d) (d_transit_maxcount d) (d_prev d) (d_next d) (d_release_count d).
Definition set_d_interface_id (x : Z) (d : wlfc_mac_descriptor) : wlfc_mac_descriptor :=
  mk_desc (d_occupied d) x (d_iftype d) (d_state d) (d_ac_bitmap d) (d_requested_credit d) (d_requested_packet d)
    (d_ea d) (d_seq d) (d_generation d) (d_psq d) (d_traffic_lastreported_bmp d) (d_traffic_pending_bmp d)
    (d_send_tim_signal d) (d_mac_handle d) (d_transit_count d) (d_suppr_transit_count d) (d_onbus_pkts_count d)
    (d_suppressed d) (d_transit_maxcount d) (d_prev d) (d_next d) (d_release_count d).
Definition set_d_iftype (x : Z) (d : wlfc_mac_descriptor) : wlfc_mac_descriptor :=
  mk_desc (d_occupied d) (d_interface_id d) x (d_state d) (d_ac_bitmap d) (d_requested_credit d)
    (d_requested_packet d) (d_ea d) (d_seq d) (d_generation d) (d_psq d) (d_traffic_lastreported_bmp d)
    (d_traffic_pending_bmp d) (d_send_tim_signal d) (d_mac_handle d) (d_transit_count d) (d_suppr_transit_count d)
    (d_onbus_pkts_count d) (d_suppressed d) (d_transit_maxcount d) (d_prev d) (d_next d) (d_release_count d).
Definition set_d_state (x : Z) (d : wlfc_mac_descriptor) : wlfc_mac_descriptor :=
  mk_desc (d_occupied d) (d_interface_id d) (d_iftype d) x (d_ac_bitmap d) (d_requested_credit d)
    (d_requested_packet d) (d_ea d) (d_seq d) (d_generation d) (d_psq d) (d_traffic_lastreported_bmp d)
    (d_traffic_pending_bmp d) (d_send_tim_signal d) (d_mac_handle d) (d_transit_count d) (d_suppr_transit_count d)
    (d_onbus_pkts_count d) (d_suppressed d) (d_transit_maxcount d) (d_prev d) (d_next d) (d_release_count d).
Definition set_d_ac_bitmap (x : Z) (d : wlfc_mac_descriptor) : wlfc_mac_descriptor :=
  mk_desc (d_occupied d) (d_interface_id d) (d_iftype d) (d_state d) x (d_requested_credit d) (d_requested_packet d)
    (d_ea d) (d_seq d) (d_generation d) (d_psq d) (d_traffic_lastreported_bmp d) (d_traffic_pending_bmp d)
    (d_send_tim_signal d) (d_mac_handle d) (d_transit_count d) (d_suppr_transit_count d) (d_onbus_pkts_count d)
    (d_suppressed d) (d_transit_maxcount d) (d_prev d) (d_next d) (d_release_count d).
Definition set_d_requested_credit (x : Z) (d : wlfc_mac_descriptor) : wlfc_mac_descriptor :=
  mk_desc (d_occupied d) (d_interface_id d) (d_iftype d) (d_state d) (d_ac_bitmap d) x (d_requested_packet d) (d_ea d)
    (d_seq d) (d_generation d) (d_psq d) (d_traffic_lastreported_bmp d) (d_traffic_pending_bmp d)
    (d_send_tim_signal d) (d_mac_handle d) (d_transit_count d) (d_suppr_transit_count d) (d_onbus_pkts_count d)
    (d_suppressed d) (d_transit_maxcount d) (d_prev d) (d_next d) (d_release_count d).
Definition set_d_requested_packet (x : Z) (d : wlfc_mac_descriptor) : wlfc_mac_descriptor :=
  mk_desc (d_occupied d) (d_interface_id d) (d_iftype d) (d_state d) (d_ac_bitmap d) (d_requested_credit d) x (d_ea d)
    (d_seq d) (d_generation d) (d_psq d) (d_traffic_lastreported_bmp d) (d_traffic_pending_bmp d)
    (d_send_tim_signal d) (d_mac_handle d) (d_transit_count d) (d_suppr_transit_count d) (d_onbus_pkts_count d)
    (d_suppressed d) (d_transit_maxcount d) (d_prev d) (d_next d) (d_release_count d).
Definition set_d_ea (x : list Z) (d : wlfc_mac_descriptor) : wlfc_mac_descriptor :=
  mk_desc (d_occupied d) (d_interface_id d) (d_iftype d) (d_state d) (d_ac_bitmap d) (d_requested_credit d)
    (d_requested_packet d) x (d_seq d) (d_generation d) (d_psq d) (d_traffic_lastreported_bmp d)
    (d_traffic_pending_bmp d) (d_send_tim_signal d) (d_mac_handle d) (d_transit_count d) (d_suppr_transit_count d)
    (d_onbus_pkts_count d) (d_suppressed d) (d_transit_maxcount d) (d_prev d) (d_next d) (d_release_count d).
Definition set_d_seq (x : list Z) (d : wlfc_mac_descriptor) : wlfc_mac_descriptor :=
  mk_desc (d_occupied d) (d_interface_id d) (d_iftype d) (d_state d) (d_ac_bitmap d) (d_requested_credit d)
    (d_requested_packet d) (d_ea d) x (d_generation d) (d_psq d) (d_traffic_lastreported_bmp d)
    (d_traffic_pending_bmp d) (d_send_tim_signal d) (d_mac_handle d) (d_transit_count d) (d_suppr_transit_count d)
    (d_onbus_pkts_count d) (d_suppressed d) (d_transit_maxcount d) (d_prev d) (d_next d) (d_release_count d).
Definition set_d_generation (x : Z) (d : wlfc_mac_descriptor) : wlfc_mac_descriptor :=
  mk_desc (d_occupied d) (d_interface_id d) (d_iftype d) (d_state d) (d_ac_bitmap d) (d_requested_credit d)
    (d_requested_packet d) (d_ea d) (d_seq d) x (d_psq d) (d_traffic_lastreported_bmp d) (d_traffic_pending_bmp d)
    (d_send_tim_signal d) (d_mac_handle d) (d_transit_count d) (d_suppr_transit_count d) (d_onbus_pkts_count d)
    (d_suppressed d) (d_transit_maxcount d) (d_prev d) (d_next d) (d_release_count d).
Definition set_d_psq (x : pktq) (d : wlfc_mac_descriptor) : wlfc_mac_descriptor :=
  mk_desc (d_occupied d) (d_interface_id d) (d_iftype d) (d_state d) (d_ac_bitmap d) (d_requested_credit d)
    (d_requested_packet d) (d_ea d) (d_seq d) (d_generation d) x (d_traffic_lastreported_bmp d)
    (d_traffic_pending_bmp d) (d_send_tim_signal d) (d_mac_handle d) (d_transit_count d) (d_suppr_transit_count d)
    (d_onbus_pkts_count d) (d_suppressed d) (d_transit_maxcount d) (d_prev d) (d_next d) (d_release_count d).
Definition set_d_traffic_lastreported_bmp (x : Z) (d : wlfc_mac_descriptor) : wlfc_mac_descriptor :=
  mk_desc (d_occupied d) (d_interface_id d) (d_iftype d) (d_state d) (d_ac_bitmap d) (d_requested_credit d)
    (d_requested_packet d) (d_ea d) (d_seq d) (d_generation d) (d_psq d) x (d_traffic_pending_bmp d)
    (d_send_tim_signal d) (d_mac_handle d) (d_transit_count d) (d_suppr_transit_count d) (d_onbus_pkts_count d)
    (d_suppressed d) (d_transit_maxcount d) (d_prev d) (d_next d) (d_release_count d).
Definition set_d_traffic_pending_bmp (x : Z) (d : wlfc_mac_descriptor) : wlfc_mac_descriptor :=
  mk_desc (d_occupied d) (d_interface_id d) (d_iftype d) (d_state d) (d_ac_bitmap d) (d_requested_credit d)
    (d_requested_packet d) (d_ea d) (d_seq d) (d_generation d) (d_psq d) (d_traffic_lastreported_bmp d) x
    (d_send_tim_signal d) (d_mac_handle d) (d_transit_count d) (d_suppr_transit_count d) (d_onbus_pkts_count d)
    (d_suppressed d) (d_transit_maxcount d) (d_prev d) (d_next d) (d_release_count d).
Definition set_d_send_tim_signal (x : bool) (d : wlfc_mac_descriptor) : wlfc_mac_descriptor :=
  mk_desc (d_occupied d) (d_interface_id d) (d_iftype d) (d_state d) (d_ac_bitmap d) (d_requested_credit d)
    (d_requested_packet d) (d_ea d) (d_seq d) (d_generation d) (d_psq d) (d_traffic_lastreported_bmp d)
    (d_traffic_pending_bmp d) x (d_mac_handle d) (d_transit_count d) (d_suppr_transit_count d) (d_onbus_pkts_count d)
    (d_suppressed d) (d_transit_maxcount d) (d_prev d) (d_next d) (d_release_count d).
Definition set_d_mac_handle (x : Z) (d : wlfc_mac_descriptor) : wlfc_mac_descriptor :=
  mk_desc (d_occupied d) (d_interface_id d) (d_iftype d) (d_state d) (d_ac_bitmap d) (d_requested_credit d)
    (d_requested_packet d) (d_ea d) (d_seq d) (d_generation d) (d_psq d) (d_traffic_lastreported_bmp d)
    (d_traffic_pending_bmp d) (d_send_tim_signal d) x (d_transit_count d) (d_suppr_transit_count d)
    (d_onbus_pkts_count d) (d_suppressed d) (d_transit_maxcount d) (d_prev d) (d_next d) (d_release_count d).
Definition set_d_transit_count (x : Z) (d : wlfc_mac_descriptor) : wlfc_mac_descriptor :=
  mk_desc (d_occupied d) (d_interface_id d) (d_iftype d) (d_state d) (d_ac_bitmap d) (d_requested_credit d)
    (d_requested_packet d) (d_ea d) (d_seq d) (d_generation d) (d_psq d) (d_traffic_lastreported_bmp d)
    (d_traffic_pending_bmp d) (d_send_tim_signal d) (d_mac_handle d) x (d_suppr_transit_count d)
    (d_onbus_pkts_count d) (d_suppressed d) (d_transit_maxcount d) (d_prev d) (d_next d) (d_release_count d).
Definition set_d_suppr_transit_count (x : Z) (d : wlfc_mac_descriptor) : wlfc_mac_descriptor :=
  mk_desc (d_occupied d) (d_interface_id d) (d_iftype d) (d_state d) (d_ac_bitmap d) (d_requested_credit d)
    (d_requested_packet d) (d_ea d) (d_seq d) (d_generation d) (d_psq d) (d_traffic_lastreported_bmp d)
    (d_traffic_pending_bmp d) (d_send_tim_signal d) (d_mac_handle d) (d_transit_count d) x (d_onbus_pkts_count d)
    (d_suppressed d) (d_transit_maxcount d) (d_prev d) (d_next d) (d_release_count d).
Definition set_d_onbus_pkts_count (x : Z) (d : wlfc_mac_descriptor) : wlfc_mac_descriptor :=
  mk_desc (d_occupied d) (d_interface_id d) (d_iftype d) (d_state d) (d_ac_bitmap d) (d_requested_credit d)
    (d_requested_packet d) (d_ea d) (d_seq d) (d_generation d) (d_psq d) (d_traffic_lastreported_bmp d)
    (d_traffic_pending_bmp d) (d_send_tim_signal d) (d_mac_handle d) (d_transit_count d) (d_suppr_transit_count d) x
    (d_suppressed d) (d_transit_maxcount d) (d_prev d) (d_next d) (d_release_count d).
Definition set_d_suppressed (x : bool) (d : wlfc_mac_descriptor) : wlfc_mac_descriptor :=
  mk_desc (d_occupied d) (d_interface_id d) (d_iftype d) (d_state d) (d_ac_bitmap d) (d_requested_credit d)
    (d_requested_packet d) (d_ea d) (d_seq d) (d_generation d) (d_psq d) (d_traffic_lastreported_bmp d)
    (d_traffic_pending_bmp d) (d_send_tim_signal d) (d_mac_handle d) (d_transit_count d) (d_suppr_transit_count d)
    (d_onbus_pkts_count d) x (d_transit_maxcount d) (d_prev d) (d_next d) (d_release_count d).
Definition set_d_transit_maxcount (x : Z) (d : wlfc_mac_descriptor) : wlfc_mac_descriptor :=
  mk_desc (d_occupied d) (d_interface_id d) (d_iftype d) (d_state d) (d_ac_bitmap d) (d_requested_credit d)
    (d_requested_packet d) (d_ea d) (d_seq d) (d_generation d) (d_psq d) (d_traffic_lastreported_bmp d)
    (d_traffic_pending_bmp d) (d_send_tim_signal d) (d_mac_handle d) (d_transit_count d) (d_suppr_transit_count d)
    (d_onbus_pkts_count d) (d_suppressed d) x (d_prev d) (d_next d) (d_release_count d).
Definition set_d_prev (x : option Z) (d : wlfc_mac_descriptor) : wlfc_mac_descriptor :=
  mk_desc (d_occupied d) (d_interface_id d) (d_iftype d) (d_state d) (d_ac_bitmap d) (d_requested_credit d)
    (d_requested_packet d) (d_ea d) (d_seq d) (d_generation d) (d_psq d) (d_traffic_lastreported_bmp d)
    (d_traffic_pending_bmp d) (d_send_tim_signal d) (d_mac_handle d) (d_transit_count d) (d_suppr_transit_count d)
    (d_onbus_pkts_count d) (d_suppressed d) (d_transit_maxcount d) x (d_next d) (d_release_count d).
Definition set_d_next (x : option Z) (d : wlfc_mac_descriptor) : wlfc_mac_descriptor :=
  mk_desc (d_occupied d) (d_interface_id d) (d_iftype d) (d_state d) (d_ac_bitmap d) (d_requested_credit d)
    (d_requested_packet d) (d_ea d) (d_seq d) (d_generation d) (d_psq d) (d_traffic_lastreported_bmp d)
    (d_traffic_pending_bmp d) (d_send_tim_signal d) (d_mac_handle d) (d_transit_count d) (d_suppr_transit_count d)
    (d_onbus_pkts_count d) (d_suppressed d) (d_transit_maxcount d) (d_prev d) x (d_release_count d).
Definition set_d_release_count (x : list Z) (d : wlfc_mac_descriptor) : wlfc_mac_descriptor :=
  mk_desc (d_occupied d) (d_interface_id d) (d_iftype d) (d_state d) (d_ac_bitmap d) (d_requested_credit d)
    (d_requested_packet d) (d_ea d) (d_seq d) (d_generation d) (d_psq d) (d_traffic_lastreported_bmp d)
    (d_traffic_pending_bmp d) (d_send_tim_signal d) (d_mac_handle d) (d_transit_count d) (d_suppr_transit_count d)
    (d_onbus_pkts_count d) (d_suppressed d) (d_transit_maxcount d) (d_prev d) (d_next d) x.

Definition set_w_destination_entries (x : list wlfc_mac_descriptor) (w : wlfc) : wlfc :=
  mk_wlfc x (w_afqs w) (w_credits w) (w_active_entry_head w) (w_active_entry_count w) (w_requested_entry w)
    (w_requested_entry_count w) (w_pkt_cnt_in_q w) (w_pkt_cnt_per_ac w) (w_pkt_cnt_in_drv w) (w_pkt_cnt_in_psq w)
    (w_allow_fc w) (w_fc_defer_timestamp w) (w_rx_timestamp w) (w_hostif_flow_state w) (w_host_ifidx w)
    (w_toggle_host_if w) (w_allow_credit_borrow w) (w_single_ac w) (w_single_ac_timestamp w)
    (w_bcmc_credit_supported w) (w_max_release_count w).
Definition set_w_afqs (x : wlfc_afqs) (w : wlfc) : wlfc :=
  mk_wlfc (w_destination_entries w) x (w_credits w) (w_active_entry_head w) (w_active_entry_count w)
    (w_requested_entry w) (w_requested_entry_count w) (w_pkt_cnt_in_q w) (w_pkt_cnt_per_ac w) (w_pkt_cnt_in_drv w)
    (w_pkt_cnt_in_psq w) (w_allow_fc w) (w_fc_defer_timestamp w) (w_rx_timestamp w) (w_hostif_flow_state w)
    (w_host_ifidx w) (w_toggle_host_if w) (w_allow_credit_borrow w) (w_single_ac w) (w_single_ac_timestamp w)
    (w_bcmc_credit_supported w) (w_max_release_count w).
Definition set_w_credits (x : wlfc_credits) (w : wlfc) : wlfc :=
  mk_wlfc (w_destination_entries w) (w_afqs w) x (w_active_entry_head w) (w_active_entry_count w)
    (w_requested_entry w) (w_requested_entry_count w) (w_pkt_cnt_in_q w) (w_pkt_cnt_per_ac w) (w_pkt_cnt_in_drv w)
    (w_pkt_cnt_in_psq w) (w_allow_fc w) (w_fc_defer_timestamp w) (w_rx_timestamp w) (w_hostif_flow_state w)
    (w_host_ifidx w) (w_toggle_host_if w) (w_allow_credit_borrow w) (w_single_ac w) (w_single_ac_timestamp w)
    (w_bcmc_credit_supported w) (w_max_release_count w).
Definition set_w_active_entry_head (x : option Z) (w : wlfc) : wlfc :=
  mk_wlfc (w_destination_entries w) (w_afqs w) (w_credits w) x (w_active_entry_count w) (w_requested_entry w)
    (w_requested_entry_count w) (w_pkt_cnt_in_q w) (w_pkt_cnt_per_ac w) (w_pkt_cnt_in_drv w) (w_pkt_cnt_in_psq w)
    (w_allow_fc w) (w_fc_defer_timestamp w) (w_rx_timestamp w) (w_hostif_flow_state w) (w_host_ifidx w)
    (w_toggle_host_if w) (w_allow_credit_borrow w) (w_single_ac w) (w_single_ac_timestamp w)
    (w_bcmc_credit_supported w) (w_max_release_count w).
Definition set_w_active_entry_count (x : Z) (w : wlfc) : wlfc :=
  mk_wlfc (w_destination_entries w) (w_afqs w) (w_credits w) (w_active_entry_head w) x (w_requested_entry w)
    (w_requested_entry_count w) (w_pkt_cnt_in_q w) (w_pkt_cnt_per_ac w) (w_pkt_cnt_in_drv w) (w_pkt_cnt_in_psq w)
    (w_allow_fc w) (w_fc_defer_timestamp w) (w_rx_timestamp w) (w_hostif_flow_state w) (w_host_ifidx w)
    (w_toggle_host_if w) (w_allow_credit_borrow w) (w_single_ac w) (w_single_ac_timestamp w)
    (w_bcmc_credit_supported w) (w_max_release_count w).
Definition set_w_requested_entry (x : list (option Z)) (w : wlfc) : wlfc :=
  mk_wlfc (w_destination_entries w) (w_afqs w) (w_credits w) (w_active_entry_head w) (w_active_entry_count w) x
    (w_requested_entry_count w) (w_pkt_cnt_in_q w) (w_pkt_cnt_per_ac w) (w_pkt_cnt_in_drv w) (w_pkt_cnt_in_psq w)
    (w_allow_fc w) (w_fc_defer_timestamp w) (w_rx_timestamp w) (w_hostif_flow_state w) (w_host_ifidx w)
    (w_toggle_host_if w) (w_allow_credit_borrow w) (w_single_ac w) (w_single_ac_timestamp w)
    (w_bcmc_credit_supported w) (w_max_release_count w).
Definition set_w_requested_entry_count (x : Z) (w : wlfc) : wlfc :=
  mk_wlfc (w_destination_entries w) (w_afqs w) (w_credits w) (w_active_entry_head w) (w_active_entry_count w)
    (w_requested_entry w) x (w_pkt_cnt_in_q w) (w_pkt_cnt_per_ac w) (w_pkt_cnt_in_drv w) (w_pkt_cnt_in_psq w)
    (w_allow_fc w) (w_fc_defer_timestamp w) (w_rx_timestamp w) (w_hostif_flow_state w) (w_host_ifidx w)
    (w_toggle_host_if w) (w_allow_credit_borrow w) (w_single_ac w) (w_single_ac_timestamp w)
    (w_bcmc_credit_supported w) (w_max_release_count w).
Definition set_w_pkt_cnt_in_q (x : list (list Z)) (w : wlfc) : wlfc :=
  mk_wlfc (w_destination_entries w) (w_afqs w) (w_credits w) (w_active_entry_head w) (w_active_entry_count w)
    (w_requested_entry w) (w_requested_entry_count w) x (w_pkt_cnt_per_ac w) (w_pkt_cnt_in_drv w) (w_pkt_cnt_in_psq w)
    (w_allow_fc w) (w_fc_defer_timestamp w) (w_rx_timestamp w) (w_hostif_flow_state w) (w_host_ifidx w)
    (w_toggle_host_if w) (w_allow_credit_borrow w) (w_single_ac w) (w_single_ac_timestamp w)
    (w_bcmc_credit_supported w) (w_max_release_count w).
Definition set_w_pkt_cnt_per_ac (x : list Z) (w : wlfc) : wlfc :=
  mk_wlfc (w_destination_entries w) (w_afqs w) (w_credits w) (w_active_entry_head w) (w_active_entry_count w)
    (w_requested_entry w) (w_requested_entry_count w) (w_pkt_cnt_in_q w) x (w_pkt_cnt_in_drv w) (w_pkt_cnt_in_psq w)
    (w_allow_fc w) (w_fc_defer_timestamp w) (w_rx_timestamp w) (w_hostif_flow_state w) (w_host_ifidx w)
    (w_toggle_host_if w) (w_allow_credit_borrow w) (w_single_ac w) (w_single_ac_timestamp w)
    (w_bcmc_credit_supported w) (w_max_release_count w).
Definition set_w_pkt_cnt_in_drv (x : list (list Z)) (w : wlfc) : wlfc :=
  mk_wlfc (w_destination_entries w) (w_afqs w) (w_credits w) (w_active_entry_head w) (w_active_entry_count w)
    (w_requested_entry w) (w_requested_entry_count w) (w_pkt_cnt_in_q w) (w_pkt_cnt_per_ac w) x (w_pkt_cnt_in_psq w)
    (w_allow_fc w) (w_fc_defer_timestamp w) (w_rx_timestamp w) (w_hostif_flow_state w) (w_host_ifidx w)
    (w_toggle_host_if w) (w_allow_credit_borrow w) (w_single_ac w) (w_single_ac_timestamp w)
    (w_bcmc_credit_supported w) (w_max_release_count w).
Definition set_w_pkt_cnt_in_psq (x : Z) (w : wlfc) : wlfc :=
  mk_wlfc (w_destination_entries w) (w_afqs w) (w_credits w) (w_active_entry_head w) (w_active_entry_count w)
    (w_requested_entry w) (w_requested_entry_count w) (w_pkt_cnt_in_q w) (w_pkt_cnt_per_ac w) (w_pkt_cnt_in_drv w) x
    (w_allow_fc w) (w_fc_defer_timestamp w) (w_rx_timestamp w) (w_hostif_flow_state w) (w_host_ifidx w)
    (w_toggle_host_if w) (w_allow_credit_borrow w) (w_single_ac w) (w_single_ac_timestamp w)
    (w_bcmc_credit_supported w) (w_max_release_count w).
Definition set_w_allow_fc (x : bool) (w : wlfc) : wlfc :=
  mk_wlfc (w_destination_entries w) (w_afqs w) (w_credits w) (w_active_entry_head w) (w_active_entry_count w)
    (w_requested_entry w) (w_requested_entry_count w) (w_pkt_cnt_in_q w) (w_pkt_cnt_per_ac w) (w_pkt_cnt_in_drv w)
    (w_pkt_cnt_in_psq w) x (w_fc_defer_timestamp w) (w_rx_timestamp w) (w_hostif_flow_state w) (w_host_ifidx w)
    (w_toggle_host_if w) (w_allow_credit_borrow w) (w_single_ac w) (w_single_ac_timestamp w)
    (w_bcmc_credit_supported w) (w_max_release_count w).
Definition set_w_fc_defer_timestamp (x : Z) (w : wlfc) : wlfc :=
  mk_wlfc (w_destination_entries w) (w_afqs w) (w_credits w) (w_active_entry_head w) (w_active_entry_count w)
    (w_requested_entry w) (w_requested_entry_count w) (w_pkt_cnt_in_q w) (w_pkt_cnt_per_ac w) (w_pkt_cnt_in_drv w)
    (w_pkt_cnt_in_psq w) (w_allow_fc w) x (w_rx_timestamp w) (w_hostif_flow_state w) (w_host_ifidx w)
    (w_toggle_host_if w) (w_allow_credit_borrow w) (w_single_ac w) (w_single_ac_timestamp w)
    (w_bcmc_credit_supported w) (w_max_release_count w).
Definition set_w_rx_timestamp (x : list Z) (w : wlfc) : wlfc :=
  mk_wlfc (w_destination_entries w) (w_afqs w) (w_credits w) (w_active_entry_head w) (w_active_entry_count w)
    (w_requested_entry w) (w_requested_entry_count w) (w_pkt_cnt_in_q w) (w_pkt_cnt_per_ac w) (w_pkt_cnt_in_drv w)
    (w_pkt_cnt_in_psq w) (w_allow_fc w) (w_fc_defer_timestamp w) x (w_hostif_flow_state w) (w_host_ifidx w)
    (w_toggle_host_if w) (w_allow_credit_borrow w) (w_single_ac w) (w_single_ac_timestamp w)
    (w_bcmc_credit_supported w) (w_max_release_count w).
Definition set_w_hostif_flow_state (x : list bool) (w : wlfc) : wlfc :=
  mk_wlfc (w_destination_entries w) (w_afqs w) (w_credits w) (w_active_entry_head w) (w_active_entry_count w)
    (w_requested_entry w) (w_requested_entry_count w) (w_pkt_cnt_in_q w) (w_pkt_cnt_per_ac w) (w_pkt_cnt_in_drv w)
    (w_pkt_cnt_in_psq w) (w_allow_fc w) (w_fc_defer_timestamp w) (w_rx_timestamp w) x (w_host_ifidx w)
    (w_toggle_host_if w) (w_allow_credit_borrow w) (w_single_ac w) (w_single_ac_timestamp w)
    (w_bcmc_credit_supported w) (w_max_release_count w).
Definition set_w_host_ifidx (x : Z) (w : wlfc) : wlfc :=
  mk_wlfc (w_destination_entries w) (w_afqs w) (w_credits w) (w_active_entry_head w) (w_active_entry_count w)
    (w_requested_entry w) (w_requested_entry_count w) (w_pkt_cnt_in_q w) (w_pkt_cnt_per_ac w) (w_pkt_cnt_in_drv w)
    (w_pkt_cnt_in_psq w) (w_allow_fc w) (w_fc_defer_timestamp w) (w_rx_timestamp w) (w_hostif_flow_state w) x
    (w_toggle_host_if w) (w_allow_credit_borrow w) (w_single_ac w) (w_single_ac_timestamp w)
    (w_bcmc_credit_supported w) (w_max_release_count w).
Definition set_w_toggle_host_if (x : bool) (w : wlfc) : wlfc :=
  mk_wlfc (w_destination_entries w) (w_afqs w) (w_credits w) (w_active_entry_head w) (w_active_entry_count w)
    (w_requested_entry w) (w_requested_entry_count w) (w_pkt_cnt_in_q w) (w_pkt_cnt_per_ac w) (w_pkt_cnt_in_drv w)
    (w_pkt_cnt_in_psq w) (w_allow_fc w) (w_fc_defer_timestamp w) (w_rx_timestamp w) (w_hostif_flow_state w)
    (w_host_ifidx w) x (w_allow_credit_borrow w) (w_single_ac w) (w_single_ac_timestamp w) (w_bcmc_credit_supported w)
    (w_max_release_count w).
Definition set_w_allow_credit_borrow (x : bool) (w : wlfc) : wlfc :=
  mk_wlfc (w_destination_entries w) (w_afqs w) (w_credits w) (w_active_entry_head w) (w_active_entry_count w)
    (w_requested_entry w) (w_requested_entry_count w) (w_pkt_cnt_in_q w) (w_pkt_cnt_per_ac w) (w_pkt_cnt_in_drv w)
    (w_pkt_cnt_in_psq w) (w_allow_fc w) (w_fc_defer_timestamp w) (w_rx_timestamp w) (w_hostif_flow_state w)
    (w_host_ifidx w) (w_toggle_host_if w) x (w_single_ac w) (w_single_ac_timestamp w) (w_bcmc_credit_supported w)
    (w_max_release_count w).
Definition set_w_single_ac (x : Z) (w : wlfc) : wlfc :=
  mk_wlfc (w_destination_entries w) (w_afqs w) (w_credits w) (w_active_entry_head w) (w_active_entry_count w)
    (w_requested_entry w) (w_requested_entry_count w) (w_pkt_cnt_in_q w) (w_pkt_cnt_per_ac w) (w_pkt_cnt_in_drv w)
    (w_pkt_cnt_in_psq w) (w_allow_fc w) (w_fc_defer_timestamp w) (w_rx_timestamp w) (w_hostif_flow_state w)
    (w_host_ifidx w) (w_toggle_host_if w) (w_allow_credit_borrow w) x (w_single_ac_timestamp w)
    (w_bcmc_credit_supported w) (w_max_release_count w).
Definition set_w_single_ac_timestamp (x : Z) (w : wlfc) : wlfc :=
  mk_wlfc (w_destination_entries w) (w_afqs w) (w_credits w) (w_active_entry_head w) (w_active_entry_count w)
    (w_requested_entry w) (w_requested_entry_count w) (w_pkt_cnt_in_q w) (w_pkt_cnt_per_ac w) (w_pkt_cnt_in_drv w)
    (w_pkt_cnt_in_psq w) (w_allow_fc w) (w_fc_defer_timestamp w) (w_rx_timestamp w) (w_hostif_flow_state w)
    (w_host_ifidx w) (w_toggle_host_if w) (w_allow_credit_borrow w) (w_single_ac w) x (w_bcmc_credit_supported w)
    (w_max_release_count w).
Definition set_w_bcmc_credit_supported (x : bool) (w : wlfc) : wlfc :=
  mk_wlfc (w_destination_entries w) (w_afqs w) (w_credits w) (w_active_entry_head w) (w_active_entry_count w)
    (w_requested_entry w) (w_requested_entry_count w) (w_pkt_cnt_in_q w) (w_pkt_cnt_per_ac w) (w_pkt_cnt_in_drv w)
    (w_pkt_cnt_in_psq w) (w_allow_fc w) (w_fc_defer_timestamp w) (w_rx_timestamp w) (w_hostif_flow_state w)
    (w_host_ifidx w) (w_toggle_host_if w) (w_allow_credit_borrow w) (w_single_ac w) (w_single_ac_timestamp w) x
    (w_max_release_count w).
Definition set_w_max_release_count (x : Z) (w : wlfc) : wlfc :=
  mk_wlfc (w_destination_entries w) (w_afqs w) (w_credits w) (w_active_entry_head w) (w_active_entry_count w)
    (w_requested_entry w) (w_requested_entry_count w) (w_pkt_cnt_in_q w) (w_pkt_cnt_per_ac w) (w_pkt_cnt_in_drv w)
    (w_pkt_cnt_in_psq w) (w_allow_fc w) (w_fc_defer_timestamp w) (w_rx_timestamp w) (w_hostif_flow_state w)
    (w_host_ifidx w) (w_toggle_host_if w) (w_allow_credit_borrow w) (w_single_ac w) (w_single_ac_timestamp w)
    (w_bcmc_credit_supported w) x.

(** ** What is around the flow control *)

(** The state, the links of the packets, the packets, those that the bus has and
    has not completed, and the number of calls that went out. *)
Record sys := mk_sys {
  s_w : wlfc;
  s_h : heap;
  s_p : gmap pkt wpkt;
  s_bus : list pkt;
  s_tick : nat
}.

(** The settings of dhd_pub_t that the flow control reads. *)
Record dhd_cfg := mk_cfg {
  proptxstatus_mode : Z;
  proptxstatus_txoff : bool;
  proptxstatus_credit_ignore : bool;
  proptxstatus_txstatus_ignore : bool;
  proptxstatus_module_ignore : bool;
  wlfc_rxpkt_chk : bool;
  wlfc_borrow_allowed : bool;
  dhd_hdrlen : Z
}.

(** The answers of the others, by the number of the call: the result of the bus,
    whether there is memory for a packet, the time in milliseconds, whether an
    interface is exempt from flow control, which of its packets the bus has not
    begun to send; and the limit of packets at the dongle that is configured for
    an interface. *)
Record wenv := mk_env {
  env_txdata : nat -> Z;
  env_pktget : nat -> bool;
  env_uptime : nat -> Z;
  env_skip_fc : nat -> Z -> bool;
  env_txq : nat -> list pkt -> list pkt;
  env_maxcount : Z -> Z
}.

(** ** Programs *)

Definition M (A : Type) : Type := sys -> option (A * sys).
#[export] Instance M_ret : MRet M := λ A a s, Some (a, s).
#[export] Instance M_bind : MBind M := λ A B k m s, match m s with Some (a, s) => k a s | None => None end.

Definition lift {A} (o : option A) : M A := λ s, a ← o; Some (a, s).
Definition gets {A} (f : sys -> A) : M A := λ s, Some (f s, s).
Definition modify (f : sys -> sys) : M unit := λ s, Some (tt, f s).

Definition set_w (w : wlfc) (s : sys) : sys := mk_sys w (s_h s) (s_p s) (s_bus s) (s_tick s).
Definition set_h (h : heap) (s : sys) : sys := mk_sys (s_w s) h (s_p s) (s_bus s) (s_tick s).
Definition set_p (p : gmap pkt wpkt) (s : sys) : sys := mk_sys (s_w s) (s_h s) p (s_bus s) (s_tick s).
Definition set_sbus (b : list pkt) (s : sys) : sys := mk_sys (s_w s) (s_h s) (s_p s) b (s_tick s).

Definition getw {A} (f : wlfc -> A) : M A := gets (λ s, f (s_w s)).
Definition modw (f : wlfc -> wlfc) : M unit := modify (λ s, set_w (f (s_w s)) s).

(** The number of a call that goes out. *)
Definition tick : M nat := λ s, Some (s_tick s, mk_sys (s_w s) (s_h s) (s_p s) (s_bus s) (S (s_tick s))).

(** A descriptor, and a change of one. *)
Definition getd {A} (e : Z) (f : wlfc_mac_descriptor -> A) : M A :=
  l ← getw w_destination_entries; d ← lift (at_ l e); mret (f d).
Definition modd (e : Z) (f : wlfc_mac_descriptor -> wlfc_mac_descriptor) : M unit :=
  l ← getw w_destination_entries; d ← lift (at_ l e); l ← lift (put_ l e (f d)); modw (set_w_destination_entries l).

(** A packet, and a change of one. *)
Definition getp {A} (p : pkt) (f : wpkt -> A) : M A := m ← gets s_p; x ← lift (m !! p); mret (f x).
Definition setp (p : pkt) (x : wpkt) : M unit := m ← gets s_p; _ ← lift (m !! p); modify (set_p (<[p := x]> m)).
Definition modp (p : pkt) (f : wpkt -> wpkt) : M unit := x ← getp p id; setp p (f x).

(** [PKTFREE] *)
Definition PKTFREE (p : pkt) : M unit :=
  h ← gets s_h; _ ← lift (h !! p); m ← gets s_p; _ ← lift (m !! p);
  _ ← modify (set_h (delete p h)); modify (set_p (delete p m)).

(** An element of an array of the state, and [+=]. *)
Definition cnt {A} (f : wlfc -> list A) (i : Z) : M A := l ← getw f; lift (at_ l i).
Definition addc (f : wlfc -> list Z) (g : list Z -> wlfc -> wlfc) (i d : Z) : M unit :=
  l ← getw f; x ← lift (at_ l i); l ← lift (put_ l i (x + d)); modw (g l).
Definition addc2 (f : wlfc -> list (list Z)) (g : list (list Z) -> wlfc -> wlfc) (i j d : Z) : M unit :=
  l ← getw f; r ← lift (at_ l i); x ← lift (at_ r j); r ← lift (put_ r j (x + d)); l ← lift (put_ l i r); modw (g l).

Definition add_in_q (i a d : Z) : M unit := addc2 w_pkt_cnt_in_q set_w_pkt_cnt_in_q i a d.
Definition add_per_ac (a d : Z) : M unit := addc w_pkt_cnt_per_ac set_w_pkt_cnt_per_ac a d.
Definition add_in_drv (i a d : Z) : M unit := addc2 w_pkt_cnt_in_drv set_w_pkt_cnt_in_drv i a d.
Definition add_in_psq (d : Z) : M unit := modw (λ w, set_w_pkt_cnt_in_psq (w_pkt_cnt_in_psq w + d) w).

(** [DHD_PKTTAG_IF(PKTTAG(p))], [DHD_PKTTAG_FIFO(PKTTAG(p))] *)
Definition pkt_if (p : pkt) : M Z := getp p (λ x, DHD_PKTTAG_IF (if_flags x)).
Definition pkt_fifo (p : pkt) : M Z := getp p (λ x, DHD_PKTTAG_FIFO (if_flags x)).

(** The tags of all packets, as the queues look at them. *)
Definition h2dtags (m : gmap pkt wpkt) (p : pkt) : Z := default 0 (htod_tag <$> m !! p).

(** A routine of WlfcCredit on the credits of the state. *)
Definition on_credits {A} (f : wlfc_credits -> option (A * option wlfc_credits)) : M A :=
  c ← getw w_credits; '(a, c) ← lift (f c); c ← lift c; _ ← modw (set_w_credits c); mret a.
