(* ===== verification/WlfcSend.v ===== *)
(** * Wireless flow control: queues of destinations, and sending (model)

    dhd_wlfc.c: a packet from the network waits in the queue of its destination;
    it is taken out when the destination is open and there is a credit, gets its
    header and goes to the bus; when the bus does not take it, it goes back to the
    head of its queue. *)

From S2P Require Import Prelude Pktq FlowQueue FlowData WlfcTag WlfcCredit WlfcQueue WlfcHeader WlfcState.

Definition WLFC_UNSUPPORTED : Z := -9999.

Definition WLFC_NO_TRAFFIC : Z := -1.
Definition WLFC_MULTI_TRAFFIC : Z := 0.
Definition BUS_RETRIES : Z := 1.

(** The first values in the header are replaced, as the high one is not below
    [WLFC_PSQ_LEN - 256]. *)
Definition WLFC_FLOWCONTROL_HIWATER : Z := WLFC_PSQ_LEN - 256.
Definition WLFC_FLOWCONTROL_LOWATER : Z := WLFC_FLOWCONTROL_HIWATER / 4.
Definition WLFC_BORROW_DEFER_PERIOD_MS : Z := 100.
Definition WLFC_FC_DEFER_PERIOD_MS : Z := 200.
Definition WLFC_RX_DETECTION_THRESHOLD_MS : Z := 100.
Definition WLFC_MAX_RELEASE_CNT : Z := 16.

(** The roles of an interface (bcmevent.h). *)
Definition WLC_E_IF_ROLE_STA : Z := 0.
Definition WLC_E_IF_ROLE_P2P_GO : Z := 3.
Definition WLC_E_IF_ROLE_P2P_CLIENT : Z := 4.

(** The number of an interface's descriptor, and of the one for all others. *)
Definition interfaces (ifid : Z) : Z := WLFC_MAC_DESC_TABLE_SIZE + ifid.
Definition other : Z := WLFC_MAC_DESC_TABLE_SIZE + WLFC_MAX_IFNUM.

Definition ETHER_ISMULTI (ea : list Z) : bool := Z.odd (default 0 (ea !! O)).

Definition PSQ_SUP_IDX (x : Z) : Z := x * 2 + 1.
Definition PSQ_DLY_IDX (x : Z) : Z := x * 2.

(** The sequence counter of a descriptor. *)
Definition WLFC_SEQCOUNT (e prec : Z) : M Z := s ← getd e d_seq; lift (at_ s prec).
Definition put_seq (e prec x : Z) : M unit :=
  s ← getd e d_seq; s ← lift (put_ s prec x); modd e (set_d_seq s).
Definition WLFC_INCR_SEQCOUNT (e prec : Z) : M unit := x ← WLFC_SEQCOUNT e prec; put_seq e prec (u8 (x + 1)).
Definition WLFC_DECR_SEQCOUNT (e prec : Z) : M unit :=
  x ← WLFC_SEQCOUNT e prec; put_seq e prec (if bool_decide (x = 0) then 255 else x - 1).

(** ** Finding the descriptor of a packet *)

(** The [for] over the nodes. *)
Fixpoint find_node (l : list wlfc_mac_descriptor) (ifid : Z) (dstn : list Z) (i : Z) : option Z :=
  match l with
  | [] => None
  | d :: l =>
      if d_occupied d && bool_decide (d_interface_id d = ifid) && bool_decide (d_ea d = dstn) then Some i
      else find_node l ifid dstn (i + 1)
  end.

Definition _dhd_wlfc_find_table_entry (p : pkt) : M Z :=
  x ← getp p id;
  let ifid := DHD_PKTTAG_IF (if_flags x) in
  let dstn := dstn_ether x in
  iftype ← getd (interfaces ifid) d_iftype;
  match tag_entry x with
  | Some e => mret e
  | None =>
      occ ← getd (interfaces ifid) d_occupied;
      let entry := if (bool_decide (iftype = WLC_E_IF_ROLE_STA) || ETHER_ISMULTI dstn
                       || bool_decide (iftype = WLC_E_IF_ROLE_P2P_CLIENT)) && occ
                   then Some (interfaces ifid) else None in
      entry ← (if bool_decide (is_Some entry) && ETHER_ISMULTI dstn then mret entry
               else
                 table ← getw w_destination_entries;
                 match find_node (take (Z.to_nat WLFC_MAC_DESC_TABLE_SIZE) table) ifid dstn 0 with
                 | Some i => mret (Some i)
                 | None => mret entry
                 end);
      let entry := default other entry in
      _ ← modp p (DHD_PKTTAG_SET_ENTRY entry);
      mret entry
  end.

(** ** Dropping and queueing *)

(** The pushed header serves dhd_tcpack_check_xmit and dhd_txcomplete, which are
    told about the packet before it is freed. *)
Definition _dhd_wlfc_prec_drop (prec : Z) (p : pkt) (bPktInQ : bool) : M Z :=
  if bool_decide (prec < 0) || bool_decide (prec >= WLFC_PSQ_PREC_COUNT) then mret BCME_BADARG
  else
    _ ← (if negb (Z.odd prec) then
           x ← getp p id; x ← lift (_dhd_wlfc_pushheader false x false 0 0 0 0 true); setp p x
         else mret tt);
    i ← pkt_if p;
    _ ← (if bPktInQ then
           _ ← add_in_q i (Z.shiftr prec 1) (-1); _ ← add_per_ac (Z.shiftr prec 1) (-1); add_in_psq (-1)
         else mret tt);
    f ← pkt_fifo p;
    _ ← add_in_drv i f (-1);
    _ ← PKTFREE p;
    mret 0.

Section Env.
Context (cfg : dhd_cfg) (env : wenv).

Definition _dhd_wlfc_allow_fc (ifid : Z) : M bool :=
  r ← cnt w_pkt_cnt_in_drv ifid;
  ac_traffic ← lift ((fix scan (precs : list Z) (ac_traffic : Z) : option Z :=
    match precs with
    | [] => Some ac_traffic
    | prec :: precs =>
        n ← at_ r prec;
        scan precs
          (if bool_decide (n > 0) then
             if bool_decide (ac_traffic = WLFC_NO_TRAFFIC) then prec + 1
             else if bool_decide (ac_traffic ≠ prec + 1) then WLFC_MULTI_TRAFFIC else ac_traffic
           else ac_traffic)
    end) (seqZ 0 AC_COUNT) WLFC_NO_TRAFFIC);
  if bool_decide (ac_traffic >= 1) && bool_decide (ac_traffic <= AC_COUNT) then
    allow ← getw w_allow_fc;
    if (allow : bool) then mret true
    else
      n ← tick;
      let curr_t := u32 (env_uptime env n) in
      ts ← getw w_fc_defer_timestamp;
      if bool_decide (ts = 0) then _ ← modw (set_w_fc_defer_timestamp curr_t); mret false
      else
        let delta := u32 (curr_t - ts) in
        _ ← (if bool_decide (delta >= WLFC_FC_DEFER_PERIOD_MS) then modw (set_w_allow_fc true) else mret tt);
        getw w_allow_fc
  else
    _ ← modw (set_w_allow_fc false); _ ← modw (set_w_fc_defer_timestamp 0); getw w_allow_fc.

Definition set_flow_state (if_id : Z) (b : bool) : M unit :=
  l ← getw w_hostif_flow_state; l ← lift (put_ l if_id b); modw (set_w_hostif_flow_state l).

(** [dhd_txflowcontrol] tells the network; ON stops it. *)
Definition _dhd_wlfc_flow_control_check (pq : pktq) (if_id : Z) : M unit :=
  if bool_decide (if_id >= WLFC_MAX_IFNUM) then mret tt
  else
    n ← tick;
    if env_skip_fc env n if_id then mret tt
    else
      on ← cnt w_hostif_flow_state if_id;
      allowed ← (if (on : bool) then mret true else _dhd_wlfc_allow_fc if_id);
      if negb allowed then mret tt
      else
        _ ← (if bool_decide (n_pkts_tot pq <= WLFC_FLOWCONTROL_LOWATER) && on then
               _ ← set_flow_state if_id false; _ ← tick; modw (set_w_toggle_host_if false)
             else mret tt);
        on ← cnt w_hostif_flow_state if_id;
        if bool_decide (n_pkts_tot pq >= WLFC_FLOWCONTROL_HIWATER) && negb on then
          _ ← set_flow_state if_id true; _ ← tick;
          _ ← modw (set_w_host_ifidx if_id); modw (set_w_toggle_host_if true)
        else mret tt.

(** The bus takes the packet or not. *)
Definition dhd_bus_txdata (p : pkt) : M Z :=
  n ← tick;
  let rc := env_txdata env n in
  _ ← (if bool_decide (rc = BCME_OK) then modify (λ s, set_sbus (p :: s_bus s) s) else mret tt);
  mret rc.

(** A packet from the kernel: [len] bytes of data that nobody has written. *)
Definition PKTGET (len : Z) : M (option pkt) :=
  n ← tick;
  if env_pktget env n then
    h ← gets s_h; m ← gets s_p;
    let p := fresh (dom h ∪ dom m) in
    _ ← modify (set_h (<[p := None]> h));
    _ ← modify (set_p (<[p := mk_wpkt 0 (replicate 6 0) 0 0 None 0 false 0 (replicate (Z.to_nat len) 0)]> m));
    mret (Some p)
  else mret None.

Definition _dhd_wlfc_send_signalonly_packet (e ta_bmp : Z) : M Z :=
  let dummylen := dhd_hdrlen cfg + 16 in
  if proptxstatus_txoff cfg then mret BCME_NORESOURCE
  else
    p ← PKTGET dummylen;
    match p with
    | None => mret BCME_NOMEM
    | Some p =>
        handle ← getd e d_mac_handle;
        x ← getp p id;
        x ← lift (PKTPULL dummylen x);
        x ← lift (_dhd_wlfc_pushheader false (DHD_PKTTAG_SET_H2DTAG 0 x) true ta_bmp handle 0 0 false);
        _ ← setp p (set_if_flags (DHD_PKTTAG_WLFCPKT_SET (DHD_PKTTAG_SETSIGNALONLY (if_flags x) 1) 1) x);
        rc ← dhd_bus_txdata p;
        _ ← (if bool_decide (rc ≠ BCME_OK) then
               x ← getp p id; '(_, x) ← lift (_dhd_wlfc_pullheader x); _ ← setp p x; PKTFREE p
             else mret tt);
        mret rc
    end.

(** [pktqprec_n_pkts(&entry->psq, prec)] *)
Definition psq_len (e prec : Z) : M Z := pq ← getd e d_psq; qp ← lift (getq pq prec); mret (n_pkts qp).

Definition NBITVAL (n : Z) : Z := Z.shiftl 1 n.

Definition _dhd_wlfc_traffic_pending_check (e prec : Z) : M bool :=
  st ← getd e d_state;
  rc ← (if bool_decide (st = WLFC_STATE_CLOSE) then
          n0 ← psq_len e (Z.shiftl prec 1);
          n1 ← psq_len e (Z.shiftl prec 1 + 1);
          bmp ← getd e d_traffic_pending_bmp;
          if bool_decide (n0 = 0) && bool_decide (n1 = 0) then
            if Z.testbit bmp prec then
              _ ← modd e (set_d_traffic_pending_bmp (Z.land bmp (Z.lnot (NBITVAL prec)))); mret true
            else mret false
          else
            if negb (Z.testbit bmp prec) then
              _ ← modd e (set_d_traffic_pending_bmp (Z.lor bmp (NBITVAL prec))); mret true
            else mret false
        else mret false);
  if (rc : bool) then
    bmp ← getd e d_traffic_pending_bmp;
    last ← getd e d_traffic_lastreported_bmp;
    if bool_decide (last ≠ bmp) then
      _ ← modd e (set_d_send_tim_signal true);
      _ ← _dhd_wlfc_send_signalonly_packet e bmp;
      bmp ← getd e d_traffic_pending_bmp;
      _ ← modd e (set_d_traffic_lastreported_bmp bmp);
      _ ← modd e (set_d_send_tim_signal false);
      mret true
    else mret false
  else mret false.

(** Enqueueing on the queue of descriptor [e]. *)
Definition prec_enque (e prec : Z) (p : pkt) (qHead : bool) (current_seq : Z) : M unit :=
  h ← gets s_h; m ← gets s_p; pq ← getd e d_psq;
  '(h, pq) ← lift (WlfcQueue._dhd_wlfc_prec_enque (h2dtags m) h pq prec (Some p) qHead current_seq false);
  _ ← modify (set_h h); modd e (set_d_psq pq).

(** Which precedence to take packets from when there is no room: [None] to queue
    at once, [Some None] to refuse. *)
Definition evict_prec (pq : pktq) (qp : pktq_prec) (prec : Z) : option (option (option Z)) :=
  if negb (pktqprec_full qp) && negb (pktq_full pq) then Some None
  else if pktqprec_full qp then Some (Some (Some prec))
  else
    '(p, eprec) ← pktq_peek_tail pq;
    match p with
    | None => Some (Some None)
    | Some _ =>
        let eprec := default (-1) eprec in
        if bool_decide (eprec > prec) || bool_decide (eprec < 0) then
          Some (Some (if bool_decide (n_pkts qp = 0) then None else Some prec))
        else Some (Some (Some eprec))
    end.

(** ** Making room

    Which part of an IPv4 datagram a frame has (dhd_ip.c). *)
Inductive pkt_frag := DHD_PKT_FRAG_NONE | DHD_PKT_FRAG_FIRST | DHD_PKT_FRAG_CONT | DHD_PKT_FRAG_LAST.
#[export] Instance pkt_frag_eq_dec : EqDecision pkt_frag.
Proof. solve_decision. Defined.

Definition ntoh16_at (f : list Z) (i : Z) : option Z := a ← at_ f i; b ← at_ f (i + 1); Some (a * 256 + b).

Definition ip_frag (f : list Z) (pt : Z) : option pkt_frag :=
  let ip := pt + 2 in
  let ipl := Z.of_nat (length f) - ip in
  if bool_decide (ipl < 20) then Some DHD_PKT_FRAG_NONE
  else
    v ← at_ f ip;
    if bool_decide (Z.shiftr (Z.land v 240) 4 ≠ 4) then Some DHD_PKT_FRAG_NONE
    else
      iph_frag ← ntoh16_at f (ip + 6);
      Some (if Z.testbit iph_frag 14 then DHD_PKT_FRAG_NONE
            else if negb (Z.testbit iph_frag 13) then DHD_PKT_FRAG_LAST
            else if bool_decide (Z.land iph_frag 0x1fff ≠ 0) then DHD_PKT_FRAG_CONT else DHD_PKT_FRAG_FIRST).

(** [f]: the data of the packet. *)
Definition pkt_frag_info (f : list Z) : option pkt_frag :=
  let length := Z.of_nat (length f) in
  if bool_decide (length < 14) then Some DHD_PKT_FRAG_NONE
  else
    ty ← ntoh16_at f 12;
    let pt := if bool_decide (ty >= 0x600) then Some 12
              else if bool_decide (length >= 14 + 6 + 2) && bool_decide (take 6 (drop 14 f) = [0xaa; 0xaa; 3; 0; 0; 0])
                   then Some 20 else None in
    match pt with
    | None => Some DHD_PKT_FRAG_NONE
    | Some pt =>
        ethertype ← ntoh16_at f pt;
        let vlan := bool_decide (ethertype = 0x8100) in
        let pt := if vlan then pt + 4 else pt in
        if vlan && bool_decide (pt + 2 > length) then Some DHD_PKT_FRAG_NONE
        else
          ethertype ← ntoh16_at f pt;
          if bool_decide (ethertype ≠ 0x800) then Some DHD_PKT_FRAG_NONE else ip_frag f pt
    end.

(** The first loop of dhd_prec_drop_pkts: the packet it ends at with its part,
    and [first], [prev_first], [prev] and [last]. *)
Record frag_scan := mk_scan {
  fs_p : ptr; fs_info : pkt_frag; fs_first : ptr; fs_prev_first : ptr; fs_prev : ptr; fs_last : ptr
}.

Fixpoint frag_loop (fuel : nat) (frag : pkt -> option pkt_frag) (h : heap) (s : frag_scan) : option frag_scan :=
  match fs_p s with
  | None => Some s
  | Some p =>
      info ← frag p;
      let s := mk_scan (Some p) info (fs_first s) (fs_prev_first s) (fs_prev s) (fs_last s) in
      let next s :=
        match fuel with
        | O => None
        | S fuel =>
            nx ← PKTLINK h p;
            frag_loop fuel frag h (mk_scan nx info (fs_first s) (fs_prev_first s) (Some p) (fs_last s))
        end in
      match info with
      | DHD_PKT_FRAG_NONE => Some s
      | DHD_PKT_FRAG_FIRST =>
          if isNULL (fs_first s) then next (mk_scan (Some p) info (Some p) (fs_prev s) (fs_prev s) (fs_last s))
          else Some (mk_scan (Some p) info (fs_first s) (fs_prev_first s) (fs_prev s) (fs_prev s))
      | DHD_PKT_FRAG_LAST =>
          if isNULL (fs_first s) then next s
          else Some (mk_scan (Some p) info (fs_first s) (fs_prev_first s) (fs_prev s) (Some p))
      | DHD_PKT_FRAG_CONT => next s
      end
  end.

(** A change of the queue [prec] of descriptor [e]. *)
Definition mod_psq (e prec : Z) (f : pktq_prec -> pktq_prec) (g : pktq -> pktq) : M unit :=
  pq ← getd e d_psq; qp ← lift (getq pq prec); modd e (set_d_psq (g (putq prec (f qp) pq))).

(** The second loop drops the packets from [p] to [last] and leaves [next]. *)
Fixpoint drop_loop (fuel : nat) (e prec : Z) (p last next : ptr) : M ptr :=
  match p with
  | None => mret next
  | Some x =>
      match fuel with
      | O => lift None
      | S fuel =>
          h ← gets s_h; next ← lift (PKTLINK h x);
          _ ← mod_psq e prec (λ qp, set_n_pkts (u16 (n_pkts qp - 1)) qp) (λ pq, set_n_pkts_tot (u16 (n_pkts_tot pq - 1)) pq);
          h ← gets s_h; h ← lift (PKTSETLINK h x None); _ ← modify (set_h h);
          _ ← _dhd_wlfc_prec_drop prec x true;
          if decide (p = last) then mret next else drop_loop fuel e prec next last next
      end
  end.

Definition dhd_prec_drop_pkts (e prec : Z) : M bool :=
  pq ← getd e d_psq; qp ← lift (getq pq prec);
  match head qp with
  | None => mret false
  | Some _ =>
      h ← gets s_h; m ← gets s_p;
      s ← lift (frag_loop (S (size h)) (λ p, x ← m !! p; pkt_frag_info (PKTDATA x)) h
                  (mk_scan (head qp) DHD_PKT_FRAG_NONE None None None None));
      let s := if isNULL (fs_p s)
                  || (bool_decide (fs_info s ≠ DHD_PKT_FRAG_NONE) && (isNULL (fs_first s) || isNULL (fs_last s)))
               then mk_scan (head qp) DHD_PKT_FRAG_NONE (fs_first s) (fs_prev_first s) None (fs_last s) else s in
      let s := if decide (fs_info s = DHD_PKT_FRAG_NONE)
               then mk_scan (fs_p s) (fs_info s) (fs_p s) (fs_prev s) (fs_prev s) (fs_p s) else s in
      next ← drop_loop (S (size h)) e prec (fs_first s) (fs_last s) None;
      _ ← (match fs_prev_first s with
           | None => mod_psq e prec (λ qp, if isNULL next then set_tail None (set_head next qp) else set_head next qp) id
           | Some pv =>
               h ← gets s_h; h ← lift (PKTSETLINK h pv next); _ ← modify (set_h h);
               if isNULL next then mod_psq e prec (set_tail (Some pv)) id else mret tt
           end);
      mret true
  end.

Definition _dhd_wlfc_prec_enq_with_drop (e : Z) (p : pkt) (prec : Z) (qHead : bool) (current_seq : Z) : M bool :=
  pq ← getd e d_psq; qp ← lift (getq pq prec);
  r ← lift (evict_prec pq qp prec);
  match r with
  | Some None => mret false
  | _ =>
      _ ← (match r with Some (Some eprec) => dhd_prec_drop_pkts e eprec | _ => mret true end);
      _ ← prec_enque e prec p qHead current_seq;
      i ← pkt_if p;
      _ ← add_in_q i (Z.shiftr prec 1) 1;
      _ ← add_per_ac (Z.shiftr prec 1) 1;
      _ ← add_in_psq 1;
      mret true
  end.

(** ** Into the queues *)

Definition _dhd_wlfc_enque_suppressed (prec : Z) (p : pkt) : M Z :=
  e ← _dhd_wlfc_find_table_entry p;
  current_seq ← WLFC_SEQCOUNT e prec;
  ok ← _dhd_wlfc_prec_enq_with_drop e p (Z.shiftl prec 1 + 1) false current_seq;
  if negb ok then mret BCME_ERROR
  else
    _ ← _dhd_wlfc_traffic_pending_check e prec;
    pq ← getd e d_psq; i ← pkt_if p;
    _ ← _dhd_wlfc_flow_control_check pq i;
    mret BCME_OK.

Definition _dhd_wlfc_enque_delayq (pktbuf : option pkt) (prec : Z) : M Z :=
  match pktbuf with
  | None => mret BCME_OK
  | Some p =>
      e ← _dhd_wlfc_find_table_entry p;
      current_seq ← WLFC_SEQCOUNT e prec;
      ok ← _dhd_wlfc_prec_enq_with_drop e p (Z.shiftl prec 1) false current_seq;
      if negb ok then mret BCME_ERROR
      else _ ← _dhd_wlfc_traffic_pending_check e prec; mret BCME_OK
  end.

Inductive ewlfc_packet_state := eWLFC_PKTTYPE_NEW | eWLFC_PKTTYPE_DELAYED | eWLFC_PKTTYPE_SUPPRESSED.
#[export] Instance ewlfc_packet_state_eq_dec : EqDecision ewlfc_packet_state.
Proof. solve_decision. Defined.

Definition _dhd_wlfc_rollback_packet_toq (p : pkt) (pkt_type : ewlfc_packet_state) : M Z :=
  e ← _dhd_wlfc_find_table_entry p;
  prec ← pkt_fifo p;
  let fifo_id := if decide (pkt_type = eWLFC_PKTTYPE_SUPPRESSED) then Z.shiftl prec 1 + 1 else Z.shiftl prec 1 in
  fl ← getp p if_flags;
  _ ← (if bool_decide (prec ≠ AC_COUNT) && bool_decide (DHD_PKTTAG_CREDITCHECK fl = 0) then
         n ← getd e d_requested_credit; modd e (set_d_requested_credit (u8 (n + 1)))
       else mret tt);
  rc ← (if decide (pkt_type = eWLFC_PKTTYPE_DELAYED) then
          _ ← WLFC_DECR_SEQCOUNT e prec;
          x ← getp p id; '(rc, x) ← lift (_dhd_wlfc_pullheader x); _ ← setp p x; mret rc
        else mret BCME_OK);
  rc ← (if bool_decide (rc ≠ BCME_OK) then mret rc
        else
          current_seq ← WLFC_SEQCOUNT e (Z.shiftr fifo_id 1);
          ok ← _dhd_wlfc_prec_enq_with_drop e p fifo_id true current_seq;
          mret (if (ok : bool) then BCME_OK else BCME_ERROR));
  _ ← (if bool_decide (rc ≠ BCME_OK) then _dhd_wlfc_prec_drop fifo_id p false else mret 0);
  mret rc.

(** ** Out of the queues *)

Definition _dhd_wlfc_is_destination_open (e prec : Z) : M bool :=
  d ← getd e id;
  if bool_decide (d_interface_id d >= WLFC_MAX_IFNUM) then mret true
  else
    i ← getd (interfaces (d_interface_id d)) id;
    let closed := bool_decide (d_state d = WLFC_STATE_CLOSE) in
    let nothing := bool_decide (d_requested_credit d = 0) && bool_decide (d_requested_packet d = 0) in
    if bool_decide (d_iftype i = WLC_E_IF_ROLE_P2P_GO) && closed && nothing then mret false
    else if (closed || bool_decide (d_state i = WLFC_STATE_CLOSE)) && nothing || negb (Z.testbit (d_ac_bitmap d) prec)
    then mret false else mret true.

(** What the routine fills in. *)
Record dequeued := mk_deq { dq_p : ptr; dq_credit_spent : bool; dq_needs_hdr : bool; dq_entry : option Z }.

(** [active_entry_head = active_entry_head->next] *)
Definition move_head : M unit :=
  h ← getw w_active_entry_head; e ← lift h; n ← getd e d_next; modw (set_w_active_entry_head n).

(** [pktq_pdeq(&entry->psq, prec)] *)
Definition psq_deq (e prec : Z) : M ptr :=
  h ← gets s_h; pq ← getd e d_psq; '(p, h, pq) ← lift (pktq_pdeq h pq prec);
  _ ← modify (set_h h); _ ← modd e (set_d_psq pq); mret p.

(** A packet that was taken out: the request it answers, the counters, and
    whether the next destination has its turn. *)
Definition account_dequeued (e prec : Z) (p : pkt) : M unit :=
  rq ← getd e d_requested_credit; rp ← getd e d_requested_packet;
  _ ← (if bool_decide (rq > 0) then modd e (set_d_requested_credit (rq - 1))
       else if bool_decide (rp > 0) then
              _ ← modd e (set_d_requested_packet (rp - 1));
              modp p (λ x, set_if_flags (DHD_PKTTAG_SETONETIMEPKTRQST (if_flags x)) x)
            else mret tt);
  i ← pkt_if p;
  _ ← add_in_q i prec (-1); _ ← add_per_ac prec (-1); _ ← add_in_psq (-1);
  st ← getd e d_state;
  if bool_decide (st = WLFC_STATE_OPEN) then
    l ← getd e d_release_count; x ← lift (at_ l prec); let x := u16 (x + 1) in
    l ← lift (put_ l prec x); _ ← modd e (set_d_release_count l);
    pq ← getd e d_psq;
    qlen ← lift (pktq_mlen pq (Z.lor (Z.shiftl 1 (PSQ_SUP_IDX prec)) (Z.shiftl 1 (PSQ_DLY_IDX prec))));
    m ← getw w_max_release_count;
    if bool_decide (x = m) || bool_decide (u16 qlen = 0) then
      l ← lift (put_ l prec 0); _ ← modd e (set_d_release_count l); move_head
    else mret tt
  else mret tt.

Definition may_take (e prec : Z) : M bool :=
  d ← getd e id;
  open ← (if d_occupied d then _dhd_wlfc_is_destination_open e prec else mret false);
  mret (open && bool_decide (d_transit_count d < d_transit_maxcount d)
        && bool_decide (d_transit_count d < WL_TXSTATUS_FREERUNCTR_MASK) && negb (d_suppressed d)).

(** The [for]: [i] of [n + i] descriptors were looked at. *)
Fixpoint deque_loop (n : nat) (i : Z) (prec : Z) (credit_spent only_no_credit : bool) (ac_credit_spent needs_hdr : bool) : M dequeued :=
  match n with
  | O => mret (mk_deq None ac_credit_spent needs_hdr None)
  | S n =>
      e ← (if only_no_credit then e ← cnt w_requested_entry i; lift e else e ← getw w_active_entry_head; lift e);
      ok ← may_take e prec;
      if (ok : bool) then
        st ← getd e d_state;
        let ac_credit_spent := credit_spent && negb (bool_decide (st = WLFC_STATE_CLOSE)) in
        sup ← psq_deq e (PSQ_SUP_IDX prec);
        p ← (match sup with Some _ => mret sup | None => psq_deq e (PSQ_DLY_IDX prec) end);
        let needs_hdr := isNULL sup in
        match p with
        | Some x =>
            _ ← account_dequeued e prec x;
            pq ← getd e d_psq; ifid ← pkt_if x;
            _ ← _dhd_wlfc_flow_control_check pq ifid;
            _ ← _dhd_wlfc_traffic_pending_check e prec;
            mret (mk_deq p ac_credit_spent needs_hdr (Some e))
        | None =>
            _ ← (if only_no_credit then mret tt else move_head);
            deque_loop n (i + 1) prec credit_spent only_no_credit ac_credit_spent needs_hdr
        end
      else
        _ ← (if only_no_credit then mret tt else move_head);
        deque_loop n (i + 1) prec credit_spent only_no_credit ac_credit_spent needs_hdr
  end.

(** [needs_hdr]: the value of the caller's variable, which stays when no
    descriptor is open. *)
Definition _dhd_wlfc_deque_delayedq (prec : Z) (needs_hdr only_no_credit : bool) : M dequeued :=
  bcmc ← getw w_bcmc_credit_supported;
  let credit_spent := negb (bool_decide (prec = AC_COUNT) && negb bcmc) in
  n ← getw (if only_no_credit then w_requested_entry_count else w_active_entry_count);
  deque_loop (Z.to_nat n) 0 prec credit_spent only_no_credit credit_spent needs_hdr.
End Env.
