(* ===== verification/WlfcTransfer.v ===== *)
(** * Wireless flow control: to the bus (model)

    dhd_wlfc.c: a packet gets its tag and its header and is handed to the bus;
    the loop that does so for each access category while there are credits, its
    own or borrowed ones; and the calls of the network and of the bus. *)

From S2P Require Import Prelude Pktq FlowQueue FlowData WlfcTag WlfcCredit WlfcQueue WlfcHeader WlfcState WlfcSend.

Section Env.
Context (cfg : dhd_cfg) (env : wenv).

(** ** One packet *)

(** The result, and [*slot].  The descriptor's number is the slot. *)
Definition _dhd_wlfc_pretx_pktprocess (entry : option Z) (p : pkt) (header_needed : bool) : M Z :=
  e ← (match entry with Some e => mret e | None => _dhd_wlfc_find_table_entry p end);
  send_tim ← getd e d_send_tim_signal;
  _ ← (if (send_tim : bool) then
         _ ← modd e (set_d_send_tim_signal false);
         bmp ← getd e d_traffic_pending_bmp; modd e (set_d_traffic_lastreported_bmp bmp)
       else mret tt);
  fifo ← pkt_fifo p;
  '(hslot, gen, free_ctr) ←
    (if header_needed then
       gen ← getd e d_generation; free_ctr ← WLFC_SEQCOUNT e fifo; mret (e, gen, free_ctr)
     else
       t ← getp p htod_tag;
       x ← getp p id; '(_, x) ← lift (_dhd_wlfc_pullheader x); _ ← setp p x;
       mret (WL_TXSTATUS_GET_HSLOT t, WL_TXSTATUS_GET_GENERATION t, WL_TXSTATUS_GET_FREERUNCTR t));
  if bool_decide (hslot >= 3072) then mret BCME_ERROR
  else
    _ ← modp p (λ x, set_if_flags (DHD_PKTTAG_SETPKTDIR (if_flags x) 1) x);
    fl ← getp p if_flags;
    let htod := pretx_tag free_ctr hslot fifo gen (bool_decide (DHD_PKTTAG_CREDITCHECK fl ≠ 0)) in
    bmp ← getd e d_traffic_lastreported_bmp; handle ← getd e d_mac_handle;
    x ← getp p id;
    x ← lift (_dhd_wlfc_pushheader false x send_tim bmp handle htod 0 false);
    _ ← setp p (DHD_PKTTAG_SET_H2DTAG htod x);
    _ ← (if header_needed then WLFC_INCR_SEQCOUNT e fifo else mret tt);
    mret BCME_OK.

(** A packet that the bus took. *)
Definition count_sent (e : Z) (p : pkt) : M unit :=
  t ← getp p htod_tag; g ← getd e d_generation;
  _ ← (if bool_decide (WL_TXSTATUS_GET_GENERATION t ≠ g) then
         _ ← modd e (set_d_suppressed true);
         n ← getd e d_suppr_transit_count; modd e (set_d_suppr_transit_count (n + 1))
       else mret tt);
  n ← getd e d_transit_count; _ ← modd e (set_d_transit_count (n + 1));
  n ← getd e d_onbus_pkts_count; modd e (set_d_onbus_pkts_count (n + 1)).

(** The dequeued packet [p] of descriptor [e]. *)
Definition _dhd_wlfc_handle_packet_commit (e : Z) (p : pkt) (ac_fifo_credit_spent needs_hdr : bool) : M Z :=
  _ ← modp p (λ x, set_if_flags (DHD_PKTTAG_SETCREDITCHECK (if_flags x) (if ac_fifo_credit_spent then 1 else 0)) x);
  rc ← _dhd_wlfc_pretx_pktprocess (Some e) p needs_hdr;
  rc ← (if bool_decide (rc = BCME_OK) then
          rc ← dhd_bus_txdata env p;
          _ ← (if bool_decide (rc = BCME_OK) then count_sent e p else mret tt);
          mret rc
        else mret rc);
  _ ← (if bool_decide (rc ≠ BCME_OK) then
         _ ← _dhd_wlfc_rollback_packet_toq p (if needs_hdr then eWLFC_PKTTYPE_DELAYED else eWLFC_PKTTYPE_SUPPRESSED);
         modp p (λ x, set_if_flags (DHD_PKTTAG_SETCREDITCHECK (if_flags x) 0) x)
       else mret tt);
  mret rc.

(** ** The loops over the access categories *)

(** The variables of dhd_wlfc_transfer_packets that outlive a round. *)
Record tx := mk_tx {
  tx_rc : Z;
  tx_needs_hdr : bool;
  tx_bus_retry : Z;
  tx_map : Z;
  tx_rx_map : Z;
  tx_packets_map : Z;
  tx_single_ac : Z
}.
Definition set_rc (x : Z) (t : tx) : tx := mk_tx x (tx_needs_hdr t) (tx_bus_retry t) (tx_map t) (tx_rx_map t) (tx_packets_map t) (tx_single_ac t).
Definition set_hdr (x : bool) (t : tx) : tx := mk_tx (tx_rc t) x (tx_bus_retry t) (tx_map t) (tx_rx_map t) (tx_packets_map t) (tx_single_ac t).
Definition set_retry (x : Z) (t : tx) : tx := mk_tx (tx_rc t) (tx_needs_hdr t) x (tx_map t) (tx_rx_map t) (tx_packets_map t) (tx_single_ac t).
Definition set_maps (m r : Z) (t : tx) : tx := mk_tx (tx_rc t) (tx_needs_hdr t) (tx_bus_retry t) m r (tx_packets_map t) (tx_single_ac t).
Definition set_packets (x : Z) (t : tx) : tx := mk_tx (tx_rc t) (tx_needs_hdr t) (tx_bus_retry t) (tx_map t) (tx_rx_map t) x (tx_single_ac t).
Definition set_single (x : Z) (t : tx) : tx := mk_tx (tx_rc t) (tx_needs_hdr t) (tx_bus_retry t) (tx_map t) (tx_rx_map t) (tx_packets_map t) x.

(** How a round ends. *)
Inductive outcome := Again (t : tx) | Break (t : tx) | Exit (t : tx).

Definition borrow (ac : Z) (all : bool) : M Z := on_credits (λ c, _dhd_wlfc_borrow_credit (Some c) AC_COUNT ac all).
Definition give_back (lender ac : Z) : M Z := on_credits (λ c, _dhd_wlfc_return_credit (Some c) lender ac).
Definition spend (ac : Z) : M unit := c ← getw w_credits; c ← lift (spend_credit ac c); modw (set_w_credits c).

(** A round of the first loop over the packets of a category, and how many it
    sent. *)
Definition send_round (ac : Z) (t : tx) : M (outcome * Z) :=
  c ← getw w_credits; bcmc ← getw w_bcmc_credit_supported;
  f ← lift (at_ (FIFO_credit c) ac);
  let no_credit := bool_decide (f < 1)
                   && negb (proptxstatus_credit_ignore cfg || bool_decide (ac = AC_COUNT) && negb bcmc) in
  lender ← (if no_credit && bool_decide (ac < AC_COUNT) && bool_decide (tx_map t >= tx_rx_map t) && wlfc_borrow_allowed cfg
            then borrow ac false else mret (-1));
  let no_credit := no_credit && bool_decide (lender = -1) in
  let lent := bool_decide (lender ≠ -1) && wlfc_borrow_allowed cfg in
  d ← _dhd_wlfc_deque_delayedq cfg env ac true no_credit;
  let t := set_hdr (dq_needs_hdr d) t in
  match dq_p d with
  | None =>
      _ ← (if lent then give_back lender ac else mret 0);
      mret (Break t, 0)
  | Some p =>
      e ← lift (dq_entry d);
      rc ← _dhd_wlfc_handle_packet_commit e p (dq_credit_spent d) (dq_needs_hdr d);
      let t := set_rc rc t in
      if bool_decide (rc = BCME_OK) then
        _ ← (if dq_credit_spent d && bool_decide (lender = -1) then spend ac
             else if negb (dq_credit_spent d) && lent then _ ← give_back lender ac; mret tt else mret tt);
        mret (Again t, 1)
      else
        _ ← (if lent then give_back lender ac else mret 0);
        let t := set_retry (tx_bus_retry t + 1) t in
        mret (if bool_decide (tx_bus_retry t >= BUS_RETRIES) then Exit t else Again t, 0)
  end.

(** [while (!txoff && pkt_send_per_ac < pkt_bound)]: a round that sends nothing
    ends the loop, so [bound - sent] rounds are enough. *)
Fixpoint send_ac (fuel : nat) (ac : Z) (sent bound : Z) (t : tx) : M outcome :=
  if proptxstatus_txoff cfg || bool_decide (sent >= bound) then mret (Break t)
  else
    match fuel with
    | O => lift None
    | S fuel =>
        '(o, k) ← send_round ac t;
        match o with Again t => send_ac fuel ac (sent + k) bound t | _ => mret o end
    end.

(** [for (ac = AC_COUNT; ac >= 0; ac--)] *)
Fixpoint send_acs (acs : list Z) (t : tx) : M outcome :=
  match acs with
  | [] => mret (Break t)
  | ac :: acs =>
      t ← (if wlfc_rxpkt_chk cfg then
             n ← tick; ts ← cnt w_rx_timestamp ac;
             mret (if bool_decide (u32 (u32 (env_uptime env n) - ts) < WLFC_RX_DETECTION_THRESHOLD_MS)
                   then set_maps (tx_map t) (Z.lor (tx_rx_map t) (Z.shiftl 1 ac)) t else t)
           else mret t);
      n ← cnt w_pkt_cnt_per_ac ac;
      if bool_decide (n = 0) then send_acs acs t
      else
        let t := set_single (ac + 1) (set_maps (Z.lor (tx_map t) (Z.shiftl 1 ac)) (tx_rx_map t) t) in
        bound ← getw w_max_release_count;
        o ← send_ac (Z.to_nat bound) ac 0 bound t;
        match o with
        | Exit t => mret (Exit t)
        | Again t | Break t =>
            n ← cnt w_pkt_cnt_per_ac ac;
            send_acs acs (if bool_decide (n ≠ 0) then set_packets (Z.lor (tx_packets_map t) (Z.shiftl 1 ac)) t else t)
        end
  end.

(** A round of the last loop, which borrows whatever there is. *)
Definition borrow_round (ac : Z) (t : tx) : M outcome :=
  if negb (wlfc_borrow_allowed cfg) then mret (Break t)
  else
    lender ← borrow ac true;
    if bool_decide (lender = -1) then mret (Break t)
    else
      d ← _dhd_wlfc_deque_delayedq cfg env ac (tx_needs_hdr t) false;
      let t := set_hdr (dq_needs_hdr d) t in
      match dq_p d with
      | None => _ ← give_back lender ac; mret (Break t)
      | Some p =>
          e ← lift (dq_entry d);
          rc ← _dhd_wlfc_handle_packet_commit e p (dq_credit_spent d) (dq_needs_hdr d);
          let t := set_rc rc t in
          if bool_decide (rc = BCME_OK) then
            _ ← (if dq_credit_spent d then mret 0 else give_back lender ac); mret (Again t)
          else
            _ ← give_back lender ac;
            let t := set_retry (tx_bus_retry t + 1) t in
            mret (if bool_decide (tx_bus_retry t >= BUS_RETRIES) then Exit t else Again t)
      end.

(** Every round but the last takes a packet of the category out of the queues. *)
Fixpoint borrow_all (fuel : nat) (ac : Z) (t : tx) : M outcome :=
  if proptxstatus_txoff cfg then mret (Break t)
  else
    match fuel with
    | O => lift None
    | S fuel =>
        o ← borrow_round ac t;
        match o with Again t => borrow_all fuel ac t | _ => mret o end
    end.

(** The categories may borrow all credits when only one of them has had packets
    for a while: which one, if any. *)
Definition may_borrow (t : tx) : M (option Z) :=
  if bool_decide (Z.land (tx_map t) (tx_map t - 1) = 0) && bool_decide (tx_map t >= tx_rx_map t) then
    single ← getw w_single_ac; allow ← getw w_allow_credit_borrow;
    if bool_decide (tx_single_ac t = single) && allow then mret (Some (tx_single_ac t - 1))
    else
      n ← tick;
      let curr_t := u32 (env_uptime env n) in
      if bool_decide (tx_single_ac t ≠ single) then
        _ ← modw (set_w_allow_credit_borrow false); _ ← modw (set_w_single_ac_timestamp curr_t);
        _ ← modw (set_w_single_ac (u8 (tx_single_ac t))); mret None
      else
        ts ← getw w_single_ac_timestamp;
        if bool_decide (u32 (curr_t - ts) >= WLFC_BORROW_DEFER_PERIOD_MS) then
          _ ← modw (set_w_allow_credit_borrow true); mret (Some (tx_single_ac t - 1))
        else mret None
  else
    _ ← modw (set_w_allow_credit_borrow false); _ ← modw (set_w_single_ac_timestamp 0);
    _ ← modw (set_w_single_ac 0); mret None.

Definition dhd_wlfc_transfer_packets : M Z :=
  o ← send_acs (reverse (seqZ 0 (AC_COUNT + 1))) (mk_tx BCME_OK false 0 0 0 0 0);
  match o with
  | Exit t => mret (tx_rc t)
  | Again t | Break t =>
      if bool_decide (tx_map t = 0) || proptxstatus_credit_ignore cfg then mret BCME_OK
      else
        r ← may_borrow t;
        match r with
        | None => mret BCME_OK
        | Some ac =>
            if bool_decide (tx_packets_map t = 0) then mret BCME_OK
            else
              n ← cnt w_pkt_cnt_per_ac ac;
              o ← borrow_all (S (Z.to_nat n)) ac t;
              match o with Exit t | Again t | Break t => mret (tx_rc t) end
        end
  end.

(** ** Calls of the network and of the bus *)

(** [pktbuf] is a packet of the network, or none when there may be more to send;
    fcommit is the bus. *)
Definition dhd_wlfc_commit_packets (pktbuf : option pkt) : M Z :=
  if bool_decide (proptxstatus_mode cfg = WLFC_FCMODE_NONE) then
    _ ← (match pktbuf with
         | Some p => modp p (λ x, set_if_flags (DHD_PKTTAG_WLFCPKT_SET (if_flags x) 0) x)
         | None => mret tt
         end);
    mret WLFC_UNSUPPORTED
  else if proptxstatus_module_ignore cfg then
    _ ← (match pktbuf with
         | Some p =>
             x ← getp p id;
             x ← lift (_dhd_wlfc_pushheader false x false 0 0 (WL_TXSTATUS_SET_FLAGS 0 WLFC_PKTFLAG_PKTFROMHOST) 0 false);
             _ ← setp p x;
             rc ← dhd_bus_txdata env p;
             if bool_decide (rc ≠ 0) then PKTFREE p else mret tt
         | None => mret tt
         end);
    mret BCME_OK
  else
    rc ← (match pktbuf with
          | Some p =>
              ac ← pkt_fifo p;
              _ ← modp p (λ x, set_if_flags (DHD_PKTTAG_WLFCPKT_SET (if_flags x) 1) x);
              rc ← _dhd_wlfc_enque_delayq cfg env pktbuf ac;
              _ ← (if bool_decide (rc ≠ BCME_OK) then _ ← _dhd_wlfc_prec_drop (Z.shiftl ac 1) p false; mret tt
                   else i ← pkt_if p; add_in_drv i ac 1);
              mret rc
          | None => mret BCME_OK
          end);
    _ ← dhd_wlfc_transfer_packets;
    mret rc.

(** [suppressed] ends when nothing is on the bus or comes back. *)
Definition check_suppressed (e : Z) : M unit :=
  d ← getd e id;
  if d_suppressed d && bool_decide (d_onbus_pkts_count d = 0) && bool_decide (d_suppr_transit_count d = 0)
  then modd e (set_d_suppressed false) else mret tt.

Definition dec_transit (e : Z) : M unit :=
  n ← getd e d_transit_count; if bool_decide (n ≠ 0) then modd e (set_d_transit_count (n - 1)) else mret tt.

(** A routine of the queues of packets at the dongle. *)
Definition enque_afq (p : pkt) : M Z :=
  h ← gets s_h; m ← gets s_p; a ← getw w_afqs; fl ← getp p if_flags;
  '(rc, h, a) ← lift (_dhd_wlfc_enque_afq (h2dtags m) h a p fl);
  _ ← modify (set_h h); _ ← modw (set_w_afqs a); mret rc.

(** The bus gives the packet back. *)
Definition bus_returns (p : pkt) : M unit := modify (λ s, set_sbus (filter (λ x, x ≠ p) (s_bus s)) s).

Definition return_implied_credit (flags : Z) : M unit :=
  c ← getw w_credits; r ← lift (_dhd_wlfc_return_implied_credit (proptxstatus_mode cfg) (Some c) (Some flags));
  c ← lift r; modw (set_w_credits c).

Definition dhd_wlfc_txcomplete (txp : pkt) (success : bool) : M Z :=
  _ ← bus_returns txp;
  if bool_decide (proptxstatus_mode cfg = WLFC_FCMODE_NONE) then mret WLFC_UNSUPPORTED
  else
    fl ← getp txp if_flags;
    if bool_decide (DHD_PKTTAG_SIGNALONLY fl ≠ 0) then
      x ← getp txp id; '(_, x) ← lift (_dhd_wlfc_pullheader x); _ ← setp txp x; _ ← PKTFREE txp; mret BCME_OK
    else
      e ← _dhd_wlfc_find_table_entry txp;
      _ ← (if negb success || proptxstatus_txstatus_ignore cfg then
             _ ← return_implied_credit fl;
             _ ← dec_transit e;
             n ← getd e d_suppr_transit_count;
             _ ← (if bool_decide (n ≠ 0) then modd e (set_d_suppr_transit_count (n - 1)) else mret tt);
             i ← pkt_if txp; f ← pkt_fifo txp; _ ← add_in_drv i f (-1);
             PKTFREE txp
           else _ ← enque_afq txp; mret tt);
      n ← getd e d_onbus_pkts_count;
      _ ← (if bool_decide (n > 0) then modd e (set_d_onbus_pkts_count (n - 1)) else mret tt);
      _ ← check_suppressed e;
      mret BCME_OK.
End Env.

(** * Wireless flow control: freeing packets (model)

    dhd_wlfc.c: what happens to the packets of a destination that goes away, and
    to all packets at the end. *)

(** Which packets a cleanup concerns (f_processpkt_t): those of an interface,
    those of a descriptor; [None] is all. *)
Definition _dhd_wlfc_ifpkt_fn (ifid : Z) (p : wpkt) : bool :=
  bool_decide (DHD_PKTTAG_WLFCPKT (if_flags p) ≠ 0) && bool_decide (ifid = DHD_PKTTAG_IF (if_flags p)).
Definition _dhd_wlfc_entrypkt_fn (entry : Z) (p : wpkt) : bool :=
  bool_decide (DHD_PKTTAG_WLFCPKT (if_flags p) ≠ 0) && bool_decide (tag_entry p = Some entry).
Definition processpkt (fn : option (wpkt -> bool)) (p : wpkt) : bool := match fn with None => true | Some f => f p end.

Section Env.
Context (cfg : dhd_cfg) (env : wenv).

(** [if (entry->suppr_transit_count) ...] where a packet comes back. *)
Definition dec_suppr (e : Z) : M unit :=
  n ← getd e d_suppr_transit_count;
  if bool_decide (n ≠ 0) then _ ← modd e (set_d_suppr_transit_count (n - 1)); check_suppressed e else mret tt.

(** ** Freeing the packets of a queue *)

(** The psq or the afq of a descriptor. *)
Definition get_queue (afq : bool) (e : Z) : M pktq :=
  if afq then a ← getw w_afqs; lift (get_afq a e) else getd e d_psq.
Definition put_queue (afq : bool) (e : Z) (pq : pktq) : M unit :=
  if afq then a ← getw w_afqs; a ← lift (put_afq a e pq); modw (set_w_afqs a) else modd e (set_d_psq pq).
Definition mod_queue (afq : bool) (e prec : Z) (f : pktq_prec -> pktq_prec) (g : pktq -> pktq) : M unit :=
  pq ← get_queue afq e; qp ← lift (getq pq prec); put_queue afq e (g (putq prec (f qp) pq)).

(** [PKTSETLINK] on the state. *)
Definition set_link (p : pkt) (x : ptr) : M unit := h ← gets s_h; h ← lift (PKTSETLINK h p x); modify (set_h h).
Definition get_link (p : pkt) : M ptr := h ← gets s_h; lift (PKTLINK h p).

(** A packet that is not sent or whose status is not waited for. *)
Definition flush_account (afq : bool) (prec : Z) (p : pkt) : M unit :=
  if afq then
    e ← _dhd_wlfc_find_table_entry p;
    _ ← dec_transit e;
    _ ← dec_suppr e;
    fl ← getp p if_flags; return_implied_credit cfg fl
  else
    i ← pkt_if p;
    _ ← add_in_q i (Z.shiftr prec 1) (-1); _ ← add_per_ac (Z.shiftr prec 1) (-1); _ ← add_in_psq (-1);
    if negb (Z.odd prec) then
      x ← getp p id; x ← lift (_dhd_wlfc_pushheader false x false 0 0 0 0 true); setp p x
    else mret tt.

Fixpoint flush_loop (fuel : nat) (afq : bool) (e prec : Z) (fn : option (wpkt -> bool)) (prev p : ptr) : M unit :=
  match p with
  | None => mret tt
  | Some x =>
      match fuel with
      | O => lift None
      | S fuel =>
          f ← getp x (processpkt fn);
          if (f : bool) then
            pq ← get_queue afq e; qp ← lift (getq pq prec);
            let hd := bool_decide (head qp = Some x) in
            _ ← (if hd then nx ← get_link x; mod_queue afq e prec (set_head nx) id
                 else match prev with
                      | Some pv => nx ← get_link x; set_link pv nx
                      | None => mret tt
                      end);
            _ ← flush_account afq prec x;
            _ ← set_link x None;
            i ← pkt_if x; _ ← add_in_drv i (Z.shiftr prec 1) (-1);
            _ ← PKTFREE x;
            _ ← mod_queue afq e prec (λ qp, set_n_pkts (u16 (n_pkts qp - 1)) qp) (λ pq, set_n_pkts_tot (u16 (n_pkts_tot pq - 1)) pq);
            p ← (if hd then pq ← get_queue afq e; qp ← lift (getq pq prec); mret (head qp)
                 else pv ← lift prev; get_link pv);
            flush_loop fuel afq e prec fn prev p
          else nx ← get_link x; flush_loop fuel afq e prec fn p nx
      end
  end.

Fixpoint flush_precs (precs : list Z) (afq : bool) (e : Z) (fn : option (wpkt -> bool)) : M unit :=
  match precs with
  | [] => mret tt
  | prec :: precs =>
      pq ← get_queue afq e; qp ← lift (getq pq prec); h ← gets s_h;
      _ ← flush_loop (S (size h)) afq e prec fn None (head qp);
      pq ← get_queue afq e; qp ← lift (getq pq prec);
      _ ← (if isNULL (head qp) then mod_queue afq e prec (set_tail None) id else mret tt);
      flush_precs precs afq e fn
  end.

(** [dir] is TRUE; [afq] is the kind of the queue. *)
Definition _dhd_wlfc_pktq_flush (afq : bool) (e : Z) (fn : option (wpkt -> bool)) : M unit :=
  pq ← get_queue afq e;
  if bool_decide (n_pkts_tot pq = 0) then mret tt else flush_precs (seqZ 0 (num_prec pq)) afq e fn.

(** The packets that were taken out of the queue of the bus. *)
Fixpoint cleanup_pkts (pkts : list pkt) : M unit :=
  match pkts with
  | [] => mret tt
  | p :: pkts =>
      _ ← bus_returns p;
      _ ← set_link p None;
      e ← _dhd_wlfc_find_table_entry p;
      _ ← dec_transit e;
      _ ← dec_suppr e;
      fl ← getp p if_flags; _ ← return_implied_credit cfg fl;
      i ← pkt_if p; f ← pkt_fifo p; _ ← add_in_drv i f (-1);
      _ ← PKTFREE p;
      cleanup_pkts pkts
  end.

(** The bus says which of its packets it has not begun to send. *)
Definition _dhd_wlfc_cleanup_txq (fn : option (wpkt -> bool)) : M unit :=
  n ← tick; b ← gets s_bus; let txq := env_txq env n b in
  m ← gets s_p; l ← lift (mapM (λ p, x ← m !! p; Some (p, x)) txq);
  cleanup_pkts (filter (λ y, processpkt fn y.2 = true) l).*1.

Fixpoint cleanup_entries (es : list Z) (fn : option (wpkt -> bool)) : M unit :=
  match es with
  | [] => mret tt
  | e :: es =>
      occ ← getd e d_occupied;
      _ ← (if (occ : bool) then
             _ ← _dhd_wlfc_pktq_flush false e fn;
             _ ← _dhd_wlfc_pktq_flush true e fn;
             if bool_decide (fn = None) && bool_decide (e ≠ other) then modd e (set_d_occupied false) else mret tt
           else mret tt);
      cleanup_entries es fn
  end.

Definition _dhd_wlfc_cleanup (fn : option (wpkt -> bool)) : M unit :=
  _ ← _dhd_wlfc_cleanup_txq fn;
  cleanup_entries (seqZ 0 (other + 1)) fn.
End Env.
