(* ===== verification/WlfcEvents.v ===== *)
(** * Wireless flow control: the events (model)

    dhd_wlfc.c: destinations come and go, the dongle opens and closes them and
    asks for packets, and a status says what became of a packet; the elements of
    a header from the dongle are told apart; the start of the flow control. *)

From S2P Require Import Prelude Pktq FlowQueue FlowData WlfcTag WlfcCredit WlfcQueue WlfcHeader WlfcState WlfcSend WlfcTransfer.

Definition eWLFC_MAC_ENTRY_ACTION_ADD : Z := 0.
Definition eWLFC_MAC_ENTRY_ACTION_DEL : Z := 1.
Definition eWLFC_MAC_ENTRY_ACTION_UPDATE : Z := 2.

Definition WLFC_ONLY_AMPDU_HOSTREORDER : Z := 3.
Definition WLFC_MAC_DESC_ID_INVALID : Z := 255.
Definition WLFC_MAC_DESC_GET_LOOKUP_INDEX (x : Z) : Z := Z.land x 31.
Definition WLHOST_REORDERDATA_TOTLEN : Z := 12.

(** The category of a priority (dhd_linux.c). *)
Definition prio2fifo : list Z := [1; 0; 0; 1; 2; 2; 3; 3].

Definition ETHER_ADDR_LEN : nat := 6.
Definition no_release : list Z := replicate (Z.to_nat (AC_COUNT + 1)) 0.

Section Env.
Context (cfg : dhd_cfg) (env : wenv).

(** ** Destinations *)

(** The descriptor is linked before the head of the ring, at its end. *)
Definition link_active (e : Z) : M unit :=
  hd ← getw w_active_entry_head;
  _ ← (match hd with
       | Some hd =>
           pv ← getd hd d_prev; _ ← modd e (set_d_prev pv);
           pv ← lift pv; _ ← modd pv (set_d_next (Some e));
           _ ← modd hd (set_d_prev (Some e));
           modd e (set_d_next (Some hd))
       | None =>
           _ ← modd e (set_d_next (Some e)); _ ← modd e (set_d_prev (Some e));
           modw (set_w_active_entry_head (Some e))
       end);
  modw (λ w, set_w_active_entry_count (w_active_entry_count w + 1) w).

Definition unlink_active (e : Z) : M unit :=
  n ← getw w_active_entry_count;
  _ ← (if bool_decide (n <= 1) then
         _ ← modw (set_w_active_entry_head None); modw (set_w_active_entry_count 0)
       else
         pv ← getd e d_prev; nx ← getd e d_next;
         pv' ← lift pv; _ ← modd pv' (set_d_next nx);
         nx' ← lift nx; _ ← modd nx' (set_d_prev pv);
         hd ← getw w_active_entry_head;
         _ ← (if decide (hd = Some e) then nx ← getd e d_next; modw (set_w_active_entry_head nx) else mret tt);
         modw (λ w, set_w_active_entry_count (w_active_entry_count w - 1) w));
  _ ← modd e (set_d_next None); modd e (set_d_prev None).

(** [memset] before the first [pktq_init]. *)
Definition init_psq (e : Z) : M unit :=
  pq ← getd e d_psq; '(_, pq) ← lift (pktq_init pq WLFC_PSQ_PREC_COUNT WLFC_PSQ_LEN); modd e (set_d_psq pq).
Definition init_afq (e : Z) : M unit :=
  a ← getw w_afqs; pq ← lift (get_afq a e); '(_, pq) ← lift (pktq_init pq WLFC_AFQ_PREC_COUNT WLFC_PSQ_LEN);
  a ← lift (put_afq a e pq); modw (set_w_afqs a).

Definition _dhd_wlfc_mac_entry_update (e action ifid iftype : Z) (ea : option (list Z)) (fn : option (wpkt -> bool)) : M Z :=
  _ ← (if bool_decide (action = eWLFC_MAC_ENTRY_ACTION_ADD) || bool_decide (action = eWLFC_MAC_ENTRY_ACTION_UPDATE) then
         _ ← modd e (set_d_occupied true);
         _ ← modd e (set_d_state WLFC_STATE_OPEN);
         _ ← modd e (set_d_requested_credit 0);
         _ ← modd e (set_d_interface_id ifid);
         _ ← modd e (set_d_iftype iftype);
         _ ← modd e (set_d_ac_bitmap 255);
         _ ← modd e (set_d_release_count no_release);
         _ ← (match ea with Some ea => modd e (set_d_ea (take ETHER_ADDR_LEN ea)) | None => mret tt end);
         if bool_decide (action = eWLFC_MAC_ENTRY_ACTION_ADD) then
           _ ← modd e (set_d_suppressed false);
           _ ← modd e (set_d_transit_count 0);
           _ ← modd e (set_d_transit_maxcount (env_maxcount env ifid));
           _ ← modd e (set_d_suppr_transit_count 0);
           _ ← modd e (set_d_onbus_pkts_count 0);
           _ ← init_psq e;
           pq ← getd e d_psq;
           _ ← _dhd_wlfc_flow_control_check env pq ifid;
           _ ← init_afq e;
           nx ← getd e d_next;
           if bool_decide (nx = None) then link_active e else mret tt
         else mret tt
       else if bool_decide (action = eWLFC_MAC_ENTRY_ACTION_DEL) then
         _ ← _dhd_wlfc_cleanup cfg env fn;
         pq ← getd e d_psq;
         _ ← _dhd_wlfc_flow_control_check env pq ifid;
         _ ← modd e (set_d_occupied false);
         _ ← modd e (set_d_state WLFC_STATE_CLOSE);
         _ ← modd e (set_d_ea (replicate ETHER_ADDR_LEN 0));
         nx ← getd e d_next;
         if bool_decide (nx = None) then mret tt else unlink_active e
       else mret tt);
  mret BCME_OK.

(** *** The destinations that asked for packets *)

(** The [for]: the index of the entry, or the count. *)
Fixpoint find_requested (n : nat) (l : list (option Z)) (i e : Z) : option Z :=
  match n with
  | O => Some i
  | S n => x ← at_ l i; if decide (x = Some e) then Some i else find_requested n l (i + 1) e
  end.

Definition _dhd_wlfc_add_requested_entry (e : Z) : M unit :=
  n ← getw w_requested_entry_count; l ← getw w_requested_entry;
  i ← lift (find_requested (Z.to_nat n) l 0 e);
  if bool_decide (i = n) then
    l ← lift (put_ l n (Some e)); _ ← modw (set_w_requested_entry l); modw (set_w_requested_entry_count (n + 1))
  else mret tt.

Definition _dhd_wlfc_remove_requested_entry (e : Z) : M unit :=
  n ← getw w_requested_entry_count; l ← getw w_requested_entry;
  i ← lift (find_requested (Z.to_nat n) l 0 e);
  if bool_decide (i < n) then
    _ ← modw (set_w_requested_entry_count (n - 1));
    l ← (if bool_decide (i ≠ n - 1) then x ← lift (at_ l (n - 1)); lift (put_ l i x) else mret l);
    l ← lift (put_ l (n - 1) None); modw (set_w_requested_entry l)
  else mret tt.

(** *** The table of MAC addresses *)

Fixpoint find_mac (l : list wlfc_mac_descriptor) (ea : list Z) (i : Z) : Z :=
  match l with
  | [] => WLFC_MAC_DESC_ID_INVALID
  | d :: l => if bool_decide (ea = d_ea d) && d_occupied d then i else find_mac l ea (i + 1)
  end.

Definition _dhd_wlfc_find_mac_desc_id_from_mac (ea : option (list Z)) : M Z :=
  table ← getw w_destination_entries;
  mret (match ea with
        | Some ea => find_mac (take (Z.to_nat WLFC_MAC_DESC_TABLE_SIZE) table) (take ETHER_ADDR_LEN ea) 0
        | None => WLFC_MAC_DESC_ID_INVALID
        end).

(** [interfaces[ifid].iftype], of an index that nobody checks. *)
Definition iftype_of (ifid : Z) : M Z :=
  if bool_decide (ifid < WLFC_MAX_IFNUM) then getd (interfaces ifid) d_iftype else lift None.

Definition _dhd_wlfc_mac_table_update (value : list Z) (type : Z) : M Z :=
  handle ← lift (at_ value 0); ifid ← lift (at_ value 1); ea ← lift (_ ← at_ value 7; Some (drop 2 value));
  let table_index := WLFC_MAC_DESC_GET_LOOKUP_INDEX handle in
  _ ← _dhd_wlfc_remove_requested_entry table_index;
  _ ← (if bool_decide (type = WLFC_CTL_TYPE_MACDESC_ADD) then
         existing_index ← _dhd_wlfc_find_mac_desc_id_from_mac (Some ea);
         _ ← (if bool_decide (existing_index ≠ WLFC_MAC_DESC_ID_INVALID) && bool_decide (existing_index ≠ table_index) then
                d ← getd existing_index id;
                if d_occupied d then
                  _ ← _dhd_wlfc_mac_entry_update existing_index eWLFC_MAC_ENTRY_ACTION_DEL (d_interface_id d) (d_iftype d) None
                        (Some (_dhd_wlfc_entrypkt_fn existing_index)); mret tt
                else mret tt
              else mret tt);
         occ ← getd table_index d_occupied;
         if (occ : bool) then mret tt
         else
           _ ← modd table_index (set_d_mac_handle handle);
           iftype ← iftype_of ifid;
           _ ← _dhd_wlfc_mac_entry_update table_index eWLFC_MAC_ENTRY_ACTION_ADD ifid iftype (Some ea) None; mret tt
       else mret tt);
  _ ← (if bool_decide (type = WLFC_CTL_TYPE_MACDESC_DEL) then
         occ ← getd table_index d_occupied;
         if (occ : bool) then
           iftype ← iftype_of ifid;
           _ ← _dhd_wlfc_mac_entry_update table_index eWLFC_MAC_ENTRY_ACTION_DEL ifid iftype (Some ea)
                 (Some (_dhd_wlfc_entrypkt_fn table_index)); mret tt
         else mret tt
       else mret tt);
  mret BCME_OK.

(** ** Open and closed, and requests *)

(** [for (i = 0; i < AC_COUNT; i++)] *)
Fixpoint pending_checks (acs : list Z) (e : Z) : M unit :=
  match acs with
  | [] => mret tt
  | ac :: acs => _ ← _dhd_wlfc_traffic_pending_check cfg env e ac; pending_checks acs e
  end.

Definition _dhd_wlfc_psmode_update (value : list Z) (type : Z) : M Z :=
  handle ← lift (at_ value 0);
  let desc := WLFC_MAC_DESC_GET_LOOKUP_INDEX handle in
  occ ← getd desc d_occupied;
  _ ← (if (occ : bool) then
         _ ← modd desc (set_d_release_count no_release);
         if bool_decide (type = WLFC_CTL_TYPE_MAC_OPEN) then
           _ ← modd desc (set_d_state WLFC_STATE_OPEN);
           _ ← modd desc (set_d_ac_bitmap 255);
           _ ← modd desc (set_d_requested_credit 0);
           _ ← modd desc (set_d_requested_packet 0);
           _dhd_wlfc_remove_requested_entry desc
         else
           _ ← modd desc (set_d_state WLFC_STATE_CLOSE);
           pending_checks (seqZ 0 AC_COUNT) desc
       else mret tt);
  mret BCME_OK.

(** The counts that are cleared are those of interface 0. *)
Definition _dhd_wlfc_interface_update (value : list Z) (type : Z) : M Z :=
  if_id ← lift (at_ value 0);
  _ ← (if bool_decide (if_id < WLFC_MAX_IFNUM) then
         occ ← getd (interfaces if_id) d_occupied;
         if (occ : bool) then
           _ ← modd (interfaces 0) (set_d_release_count no_release);
           modd (interfaces if_id)
             (set_d_state (if bool_decide (type = WLFC_CTL_TYPE_INTERFACE_OPEN) then WLFC_STATE_OPEN else WLFC_STATE_CLOSE))
         else mret tt
       else mret tt);
  mret BCME_OK.

Definition request (set : Z -> wlfc_mac_descriptor -> wlfc_mac_descriptor) (value : list Z) : M Z :=
  handle ← lift (at_ value 1); n ← lift (at_ value 0);
  let desc := WLFC_MAC_DESC_GET_LOOKUP_INDEX handle in
  occ ← getd desc d_occupied;
  _ ← (if (occ : bool) then
         _ ← modd desc (set n);
         bmp ← lift (at_ value 2);
         _ ← modd desc (set_d_ac_bitmap (Z.land bmp (Z.lnot (Z.shiftl 1 AC_COUNT))));
         _dhd_wlfc_add_requested_entry desc
       else mret tt);
  mret BCME_OK.
Definition _dhd_wlfc_credit_request : list Z -> M Z := request set_d_requested_credit.
Definition _dhd_wlfc_packet_request : list Z -> M Z := request set_d_requested_packet.

(** ** What became of packets *)

(** A suppressed packet was acknowledged after all, so that its status finds it
    in the afq. *)
Definition dhd_wlfc_suppressed_acked_update (hslot prec hcnt : Z) : M Z :=
  let e := Z.min hslot other in
  h ← gets s_h; m ← gets s_p; pq ← getd e d_psq;
  '(p, _, h, pq) ← lift (deque_counter (h2dtags m) h pq (Z.shiftl prec 1 + 1) hcnt);
  match p with
  | None => mret BCME_ERROR
  | Some x =>
      _ ← modify (set_h h); _ ← modd e (set_d_psq pq);
      i ← pkt_if x; _ ← add_in_q i prec (-1); _ ← add_per_ac prec (-1);
      _ ← enque_afq x;
      n ← getd e d_transit_count; _ ← modd e (set_d_transit_count (n + 1));
      mret BCME_OK
  end.

(** The packet at the dongle that a status is about. *)
Definition deque_afq (hslot hcnt prec : Z) : M (Z * ptr) :=
  h ← gets s_h; m ← gets s_p; a ← getw w_afqs;
  '(rc, p, h, a) ← lift (_dhd_wlfc_deque_afq (h2dtags m) h (Some a) hslot hcnt prec);
  a ← lift a; _ ← modify (set_h h); _ ← modw (set_w_afqs a); mret (rc, p).

Definition mark_suppressed (e gen : Z) : M unit :=
  d ← getd e id;
  _ ← (if negb (d_suppressed d) || bool_decide (d_generation d ≠ gen) then
         _ ← (if negb (d_suppressed d) then modd e (set_d_suppr_transit_count (d_transit_count d)) else mret tt);
         modd e (set_d_suppressed true)
       else mret tt);
  modd e (set_d_generation gen).

(** [flags]: the status; [suppress]: the packet is to be sent again. *)
Definition status_of_packet (p : pkt) (gen : Z) (suppress : bool) : M Z :=
  fifo_id ← pkt_fifo p;
  e ← _dhd_wlfc_find_table_entry p;
  _ ← (if suppress then mark_suppressed e gen else mret tt);
  fl ← getp p if_flags;
  _ ← (if bool_decide (DHD_PKTTAG_CREDITCHECK fl ≠ 0) then return_implied_credit cfg fl
       else if bool_decide (DHD_PKTTAG_ONETIMEPKTRQST fl = 0) then
              n ← getd e d_requested_credit; modd e (set_d_requested_credit (u8 (n + 1)))
            else mret tt);
  _ ← (if suppress then
         _ ← modp p (λ x, DHD_PKTTAG_SET_H2DTAG (WL_TXSTATUS_SET_GENERATION (htod_tag x) gen) x);
         ret ← _dhd_wlfc_enque_suppressed cfg env fifo_id p;
         if bool_decide (ret ≠ BCME_OK) then _ ← _dhd_wlfc_prec_drop (Z.shiftl fifo_id 1 + 1) p false; mret tt else mret tt
       else
         i ← pkt_if p; f ← pkt_fifo p; _ ← add_in_drv i f (-1); PKTFREE p);
  _ ← dec_transit e;
  _ ← dec_suppr e;
  mret fifo_id.

(** [count] of [len] statuses, the counters in a row. *)
Fixpoint status_loop (n : nat) (hslot hcnt fifo_id gen status_flag : Z) : M unit :=
  match n with
  | O => mret tt
  | S n =>
      _ ← (if bool_decide (status_flag = WLFC_CTL_PKTFLAG_SUPPRESS_ACKED)
           then dhd_wlfc_suppressed_acked_update hslot fifo_id hcnt else mret 0);
      '(ret, pktbuf) ← deque_afq hslot hcnt fifo_id;
      fifo_id ← (match pktbuf with
                 | Some p =>
                     if bool_decide (ret ≠ BCME_OK) then mret fifo_id
                     else status_of_packet p gen (bool_decide (status_flag = WLFC_CTL_PKTFLAG_D11SUPPRESS)
                                                  || bool_decide (status_flag = WLFC_CTL_PKTFLAG_WLSUPPRESS))
                 | None => mret fifo_id
                 end);
      status_loop n hslot (Z.land (hcnt + 1) WL_TXSTATUS_FREERUNCTR_MASK) fifo_id gen status_flag
  end.

(** [memcpy] and [ltoh32] *)
Definition ltoh32_at (l : list Z) (i : Z) : option Z :=
  a ← at_ l i; b ← at_ l (i + 1); c ← at_ l (i + 2); d ← at_ l (i + 3); Some (a + b * 256 + c * 65536 + d * 16777216).

Definition _dhd_wlfc_compressed_txstatus_update (pkt_info : list Z) (len : Z) : M Z :=
  status ← lift (ltoh32_at pkt_info 0);
  _ ← (if proptxstatus_txstatus_ignore cfg then mret tt
       else status_loop (Z.to_nat len) (WL_TXSTATUS_GET_HSLOT status) (WL_TXSTATUS_GET_FREERUNCTR status)
              (WL_TXSTATUS_GET_FIFO status) (WL_TXSTATUS_GET_GENERATION status) (WL_TXSTATUS_GET_FLAGS status));
  mret BCME_OK.

(** ** The elements of a header *)

(** [reorder_info_buf] and [reorder_info_len]; [None] is NULL. *)
Record reorder := mk_reorder { reorder_info_buf : option (list Z); reorder_info_len : option Z }.

Definition _dhd_wlfc_reorderinfo_indicate (val : list Z) (len : Z) (r : reorder) : option reorder :=
  match reorder_info_len r with
  | None => Some r
  | Some _ =>
      match reorder_info_buf r with
      | Some b =>
          if bool_decide (len <= WLHOST_REORDERDATA_TOTLEN) then
            if bool_decide (len <= Z.of_nat (length val)) && bool_decide (len <= Z.of_nat (length b)) then
              Some (mk_reorder (Some (take (Z.to_nat len) val ++ drop (Z.to_nat len) b)) (Some len))
            else None
          else Some (mk_reorder (Some b) (Some 0))
      | None => Some (mk_reorder None (Some 0))
      end
  end.

(** The time stamp of a TRANS_ID is read, and only printed. *)
Definition _dhd_wlfc_dbg_senum_check (value : list Z) : option Z := _ ← ltoh32_at value 2; Some BCME_OK.

(** The element that gives credits back is written in the packet. *)
Definition handle_element (type len : Z) (value : list Z) : M (list Z) :=
  let ty t := bool_decide (type = t) in
  let same (m : M Z) := _ ← m; mret value in
  if ty WLFC_CTL_TYPE_TXSTATUS then same (_dhd_wlfc_compressed_txstatus_update value 1)
  else if ty WLFC_CTL_TYPE_COMP_TXSTATUS then
    n ← lift (at_ value WLFC_CTL_VALUE_LEN_TXSTATUS); same (_dhd_wlfc_compressed_txstatus_update value n)
  else if ty WLFC_CTL_TYPE_FIFO_CREDITBACK then
    c ← getw w_credits;
    '(_, value, c) ← lift (_dhd_wlfc_fifocreditback_indicate (proptxstatus_mode cfg) c value);
    _ ← modw (set_w_credits c); mret value
  else if ty WLFC_CTL_TYPE_MAC_REQUEST_CREDIT then same (_dhd_wlfc_credit_request value)
  else if ty WLFC_CTL_TYPE_MAC_REQUEST_PACKET then same (_dhd_wlfc_packet_request value)
  else if ty WLFC_CTL_TYPE_MAC_OPEN || ty WLFC_CTL_TYPE_MAC_CLOSE then same (_dhd_wlfc_psmode_update value type)
  else if ty WLFC_CTL_TYPE_MACDESC_ADD || ty WLFC_CTL_TYPE_MACDESC_DEL then same (_dhd_wlfc_mac_table_update value type)
  else if ty WLFC_CTL_TYPE_TRANS_ID then same (lift (_dhd_wlfc_dbg_senum_check value))
  else if ty WLFC_CTL_TYPE_INTERFACE_OPEN || ty WLFC_CTL_TYPE_INTERFACE_CLOSE then same (_dhd_wlfc_interface_update value type)
  else mret value.

(** Without the state of the flow control only the order of received packets is
    of interest. *)
Definition handle_tlv (type len : Z) (value : list Z) (s : sys * reorder) : option (list Z * (sys * reorder)) :=
  let '(s, r) := s in
  r ← (if bool_decide (type = WLFC_CTL_TYPE_HOST_REORDER_RXPKTS) then _dhd_wlfc_reorderinfo_indicate value len r else Some r);
  if bool_decide (proptxstatus_mode cfg = WLFC_ONLY_AMPDU_HOSTREORDER) then Some (value, (s, r))
  else '(value, s) ← handle_element type len value s; Some (value, (s, r)).

(** [tmpbuf]: the data of the packet. *)
Definition dhd_wlfc_parse_header_info (tmpbuf : list Z) (tlv_hdr_len : Z) (s : sys * reorder) : option (Z * (sys * reorder)) :=
  if bool_decide (proptxstatus_mode cfg = WLFC_FCMODE_NONE) then Some (WLFC_UNSUPPORTED, s)
  else
    let remainder := u16 tlv_hdr_len in
    '(_, s) ← parse_loop handle_tlv (S (Z.to_nat remainder)) tmpbuf 0 remainder s;
    Some (BCME_OK, s).

(** ** Start, and events from elsewhere *)

(** What the state is after [memset]. *)
Definition zero_pktq : pktq := mk_pktq None 0 0 0 0 (replicate PKTQ_MAX_PREC zero_prec).
Definition zero_counts : list Z := replicate (Z.to_nat (AC_COUNT + 1)) 0.
Definition zero_desc : wlfc_mac_descriptor :=
  mk_desc false 0 0 0 0 0 0 (replicate ETHER_ADDR_LEN 0) zero_counts 0 zero_pktq 0 0 false 0 0 0 0 false 0 None None zero_counts.
Definition zero_state : wlfc :=
  mk_wlfc (replicate (Z.to_nat (other + 1)) zero_desc)
    (mk_afqs (replicate (Z.to_nat WLFC_MAC_DESC_TABLE_SIZE) zero_pktq) (replicate (Z.to_nat WLFC_MAX_IFNUM) zero_pktq) zero_pktq zero_counts)
    no_credits None 0 (replicate (Z.to_nat WLFC_MAC_DESC_TABLE_SIZE) None) 0
    (replicate (Z.to_nat WLFC_MAX_IFNUM) zero_counts) zero_counts (replicate (Z.to_nat WLFC_MAX_IFNUM) zero_counts)
    0 false 0 zero_counts (replicate (Z.to_nat WLFC_MAX_IFNUM) false) 0 false false 0 0 false 0.

(** The state is allocated. *)
Definition dhd_wlfc_enable : M Z :=
  _ ← modify (set_w (set_w_max_release_count WLFC_MAX_RELEASE_CNT zero_state));
  _ ← modw (set_w_hostif_flow_state (replicate (Z.to_nat WLFC_MAX_IFNUM) false));
  _ ← _dhd_wlfc_mac_entry_update other eWLFC_MAC_ENTRY_ACTION_ADD 255 0 None None;
  _ ← modw (set_w_allow_credit_borrow false); _ ← modw (set_w_single_ac 0); _ ← modw (set_w_single_ac_timestamp 0);
  mret BCME_OK.

(** [proptxstatus_mode] and [wlfc_rxpkt_chk] as the routine leaves them. *)
Definition enabled_cfg (ibss : bool) : dhd_cfg :=
  mk_cfg WLFC_FCMODE_EXPLICIT_CREDIT (proptxstatus_txoff cfg) (proptxstatus_credit_ignore cfg) (proptxstatus_txstatus_ignore cfg)
    (proptxstatus_module_ignore cfg) (negb ibss) (wlfc_borrow_allowed cfg) (dhd_hdrlen cfg).

(** The guard of the entry points. *)
Definition supported (m : M Z) : M Z := if bool_decide (proptxstatus_mode cfg = WLFC_FCMODE_NONE) then mret WLFC_UNSUPPORTED else m.

Definition _dhd_wlfc_interface_entry_update (action ifid iftype : Z) (ea : option (list Z)) : M Z :=
  if bool_decide (ifid >= WLFC_MAX_IFNUM) then mret BCME_BADARG
  else _dhd_wlfc_mac_entry_update (interfaces ifid) action ifid iftype ea (Some (_dhd_wlfc_ifpkt_fn ifid)).

Definition dhd_wlfc_interface_event (action ifid iftype : Z) (ea : option (list Z)) : M Z :=
  supported (_dhd_wlfc_interface_entry_update action ifid iftype ea).

Definition dhd_wlfc_FIFOcreditmap_event (event_data : list Z) : M Z :=
  supported (c ← getw w_credits; '(rc, c) ← lift (_dhd_wlfc_FIFOcreditmap_update c event_data); _ ← modw (set_w_credits c); mret rc).

Definition _dhd_wlfc_BCMCCredit_support_update : M Z := _ ← modw (set_w_bcmc_credit_supported true); mret BCME_OK.
Definition dhd_wlfc_BCMCCredit_support_event : M Z := supported _dhd_wlfc_BCMCCredit_support_update.

Definition dhd_wlfc_cleanup (fn : option (wpkt -> bool)) : M Z :=
  supported (_ ← _dhd_wlfc_cleanup cfg env fn; mret BCME_OK).
Definition dhd_wlfc_cleanup_txq (fn : option (wpkt -> bool)) : M Z :=
  supported (_ ← _dhd_wlfc_cleanup_txq cfg env fn; mret BCME_OK).

Definition dhd_wlfc_update_maxcount (ifid maxcount : Z) : M Z :=
  supported (if bool_decide (ifid >= WLFC_MAX_IFNUM) then mret BCME_BADARG
             else _ ← modd (interfaces ifid) (set_d_transit_maxcount maxcount); mret 0).

Definition dhd_wlfc_save_rxpath_ac_time (prio : Z) : M Z :=
  if bool_decide (prio >= Z.of_nat NUMPRIO) then mret BCME_BADARG
  else if negb (wlfc_rxpkt_chk cfg) then mret BCME_OK
  else supported
         (ac ← lift (at_ prio2fifo prio);
          n ← tick; l ← getw w_rx_timestamp; l ← lift (put_ l ac (u32 (env_uptime env n)));
          _ ← modw (set_w_rx_timestamp l); mret BCME_OK).

(** The setting, and the settings after it. *)
Definition dhd_wlfc_flowcontrol (state : bool) : Z * dhd_cfg :=
  if bool_decide (proptxstatus_mode cfg = WLFC_FCMODE_NONE) || proptxstatus_module_ignore cfg then (WLFC_UNSUPPORTED, cfg)
  else (BCME_OK, mk_cfg (proptxstatus_mode cfg) state (proptxstatus_credit_ignore cfg) (proptxstatus_txstatus_ignore cfg)
                   (proptxstatus_module_ignore cfg) (wlfc_rxpkt_chk cfg) (wlfc_borrow_allowed cfg) (dhd_hdrlen cfg)).
Definition dhd_wlfc_disable_credit_borrow_event (event_data : Z) : dhd_cfg :=
  mk_cfg (proptxstatus_mode cfg) (proptxstatus_txoff cfg) (proptxstatus_credit_ignore cfg) (proptxstatus_txstatus_ignore cfg)
    (proptxstatus_module_ignore cfg) (wlfc_rxpkt_chk cfg) (bool_decide (event_data ≠ 0)) (dhd_hdrlen cfg).
End Env.
