(* ===== verification/WlfcInv.v ===== *)
(** * Wireless flow control: many queues over one store

    The queues of all descriptors hold their packets in one store of links.  Every
    packet of the store has a place: a list of one queue, or none, and then its
    link is NULL.  The queues of descriptors that were never added are all zero. *)

From stdpp Require Import functions.
From S2P Require Import Prelude Pktq PktqSpec PktqRefine FlowQueue FlowData WlfcTag WlfcCredit WlfcQueue WlfcHeader.
From S2P Require Import WlfcHeaderTheorems WlfcState WlfcSend WlfcTransfer WlfcEvents WlfcQueueTheorems.

(** ** What an operation leaves alone *)

Definition touched (prec : Z) (pq pq' : pktq) : Prop :=
  ∃ qp qp', getq pq prec = Some qp ∧ q pq' = q (putq prec qp' pq) ∧ max_pkts qp' = max_pkts qp ∧ pq_max_pkts pq' = pq_max_pkts pq.

Lemma raise_hi_prec_q prec pq : q (raise_hi_prec prec pq) = q pq ∧ pq_max_pkts (raise_hi_prec prec pq) = pq_max_pkts pq.
Proof. unfold raise_hi_prec. by case_bool_decide. Qed.

Lemma enq_tail_max h qp p h' qp' : enq_tail h qp p = Some (h', qp') -> max_pkts qp' = max_pkts qp.
Proof.
  unfold enq_tail. destruct (isNULL (head qp)); [by intros [= _ <-]|]. destruct (tail qp); [|done]. cbn.
  destruct (PKTSETLINK _ _ _); [|done]. by intros [= _ <-].
Qed.

Lemma enq_head_max h qp p h' qp' : enq_head h qp p = Some (h', qp') -> max_pkts qp' = max_pkts qp.
Proof. unfold enq_head. destruct (PKTSETLINK _ _ _); [|done]. intros [= _ <-]. by destruct (isNULL (head qp)). Qed.

Lemma deq_head_max h qp p h' qp' : deq_head h qp = Some (p, h', qp') -> max_pkts qp' = max_pkts qp.
Proof.
  unfold deq_head. destruct (head qp) as [x|]; [|by intros [= _ _ <-]]. unfold PKTLINK. destruct (h !! x) as [nx|]; [|done]. cbn.
  destruct (PKTSETLINK _ _ _); [|done]. intros [= _ _ <-]. by destruct (isNULL nx).
Qed.

Lemma pktq_penq_touched h pq prec p r h' pq' : pktq_penq h pq prec p = Some (r, h', pq') -> touched prec pq pq'.
Proof.
  unfold pktq_penq. destruct (getq pq prec) as [qp|] eqn:E; [|done]. cbn. destruct (enq_tail h qp p) as [[h1 qp1]|] eqn:E1; [|done]. cbn.
  intros [= _ _ <-]. exists qp, qp1. rewrite !(proj1 (raise_hi_prec_q _ _)), !(proj2 (raise_hi_prec_q _ _)). by eauto using enq_tail_max.
Qed.

Lemma pktq_penq_head_touched h pq prec p r h' pq' : pktq_penq_head h pq prec p = Some (r, h', pq') -> touched prec pq pq'.
Proof.
  unfold pktq_penq_head. destruct (getq pq prec) as [qp|] eqn:E; [|done]. cbn. destruct (enq_head h qp p) as [[h1 qp1]|] eqn:E1; [|done]. cbn.
  intros [= _ _ <-]. exists qp, qp1. rewrite !(proj1 (raise_hi_prec_q _ _)), !(proj2 (raise_hi_prec_q _ _)). by eauto using enq_head_max.
Qed.

Lemma commit_deq_touched prec p qp qp' pq : getq pq prec = Some qp -> max_pkts qp' = max_pkts qp -> touched prec pq (commit_deq prec p qp' pq).
Proof. intros E Em. exists qp, qp'. unfold commit_deq. by destruct (isNULL p). Qed.

Lemma pktq_pdeq_touched h pq prec r h' pq' : pktq_pdeq h pq prec = Some (r, h', pq') -> touched prec pq pq'.
Proof.
  unfold pktq_pdeq. destruct (getq pq prec) as [qp|] eqn:E; [|done]. cbn. destruct (deq_head h qp) as [[[p1 h1] qp1]|] eqn:E1; [|done]. cbn.
  intros [= _ _ <-]. eauto using commit_deq_touched, deq_head_max.
Qed.

Lemma deque_counter_touched tags h pq prec hcnt x o h' pq' : deque_counter tags h pq prec hcnt = Some (Some x, o, h', pq') -> touched prec pq pq'.
Proof.
  unfold deque_counter. destruct (getq pq prec) as [qp|] eqn:E; [|done]. cbn [mbind option_bind].
  destruct (find_match _ _ _ _ _) as [[b [y|]]|]; cbn [mbind option_bind]; try done. unfold PKTLINK.
  destruct (h !! y) as [nx|] eqn:Ey; cbn [mbind option_bind]; [|by destruct b]. destruct b as [pv|].
  - destruct (PKTSETLINK h pv nx) as [h1|]; cbn [mbind option_bind]; [|done]. destruct (h1 !! y) as [nx1|]; cbn [mbind option_bind]; [|done].
    destruct (PKTSETLINK h1 y None); cbn [mbind option_bind]; [|done]. intros [= _ _ _ <-]. apply (commit_deq_touched _ _ qp); [done|]. by destruct (isNULL nx1).
  - cbn [mbind option_bind]. destruct (PKTSETLINK h y None); cbn [mbind option_bind]; [|done]. intros [= _ _ _ <-]. apply (commit_deq_touched _ _ qp); [done|]. by destruct (isNULL nx).
Qed.

(** Without reordering the enqueue is that of hnd_pktq.c. *)
Lemma prec_enque_plain tags h pq prec p (qHead : bool) cs :
  h !! p = Some None ->
  _dhd_wlfc_prec_enque tags h pq prec (Some p) qHead cs false
  = '(_, h', pq') ← (if qHead then pktq_penq_head h pq prec p else pktq_penq h pq prec p); Some (h', pq').
Proof.
  intros Hp. unfold _dhd_wlfc_prec_enque, pktq_penq_head, pktq_penq, enq_head, enq_tail, plain_insert.
  destruct (getq pq prec) as [qp|]; [|by destruct qHead]. cbn [mbind option_bind]. destruct (head qp) as [hd|] eqn:Eh; cbn [isNULL andb].
  - destruct qHead.
    + rewrite Eh. destruct (PKTSETLINK h p (Some hd)); [|done]. reflexivity.
    + destruct (tail qp) as [t|]; [|done]. cbn [mbind option_bind]. destruct (PKTSETLINK h t (Some p)); [|done]. reflexivity.
  - destruct qHead; [|reflexivity]. cbn [head set_tail]. rewrite Eh. unfold PKTSETLINK. rewrite Hp. cbn. by rewrite insert_id.
Qed.

(** ** One queue *)

Definition N_QUEUES : Z := 2 * n_entries.

Record qok (h : heap) (pq : pktq) (ls : lists) : Prop := {
  qok_len : length (q pq) = PKTQ_MAX_PREC;
  qok_rep : ls = [] ∨ pqrep h pq ls ∧ pq_max_pkts pq = WLFC_PSQ_LEN;
  qok_slots : ∀ i qp, q pq !! i = Some qp -> if decide (i < length ls)%nat then max_pkts qp = WLFC_PSQ_LEN else head qp = None
}.

Lemma qok_touched h h' pq pq' ls (n : nat) l' :
  qok h pq ls -> (n < length ls)%nat -> touched (Z.of_nat n) pq pq' -> pqrep h' pq' (<[n := l']> ls) -> qok h' pq' (<[n := l']> ls).
Proof.
  intros [Hl Hr Hs] Hn (qp & qp' & Hg & Hq & Hm & Hmax) H. unfold putq, set_q in Hq. cbn in Hq. rewrite Nat2Z.id in Hq.
  unfold getq in Hg. rewrite bool_decide_true, Nat2Z.id in Hg by lia. split.
  - by rewrite Hq, length_insert.
  - right. split; [done|]. destruct Hr as [->|[_ ?]]; [cbn in Hn; lia|congruence].
  - intros i qi. rewrite Hq, length_insert. intros Hi. destruct (decide (i = n)) as [->|Hne].
    + rewrite list_lookup_insert_eq in Hi by (by eapply lookup_lt_Some). injection Hi as <-. rewrite decide_True by done. rewrite Hm.
      specialize (Hs n qp Hg). by rewrite decide_True in Hs.
    + rewrite list_lookup_insert_ne in Hi by done. by apply Hs.
Qed.

Lemma qok_agree h h' pq ls : (∀ x, queued ls x -> h' !! x = h !! x) -> qok h pq ls -> qok h' pq ls.
Proof. intros Hf [Hl [->|[Hr Hm]] Hs]; split; auto. right. split; [by eapply pqrep_agree|done]. Qed.

Lemma qok_pqrep h pq ls : qok h pq ls -> (0 < length ls)%nat -> pqrep h pq ls ∧ pq_max_pkts pq = WLFC_PSQ_LEN ∧ num_prec pq = Z.of_nat (length ls).
Proof. intros [_ [->|[Hr Hm]] _] Hn; [cbn in Hn; lia|]. split; [done|]. split; [done|]. apply (pqrep_lens _ _ _ Hr). Qed.

Lemma qok_getq h pq ls (n : nat) :
  qok h pq ls -> (n < length ls)%nat ->
  ∃ qp, getq pq (Z.of_nat n) = Some qp ∧ qrep h qp (ls !!! n) ∧ max_pkts qp = WLFC_PSQ_LEN.
Proof.
  intros H Hn. destruct (qok_pqrep _ _ _ H) as (Hr & _ & Hp); [lia|].
  destruct (pqrep_getq h pq ls (Z.of_nat n) Hr) as (qp & Hg & Hqp & Hq); [lia|]. rewrite Nat2Z.id in Hq. exists qp. split; [done|]. split; [done|].
  unfold getq in Hg. rewrite bool_decide_true, Nat2Z.id in Hg by lia. pose proof (qok_slots _ _ _ H n qp Hg) as Hs. by rewrite decide_True in Hs.
Qed.

(** A status may name a queue that no packet can be in. *)
Lemma deque_counter_outside tags h pq ls prec hcnt :
  qok h pq ls -> Z.of_nat (length ls) <= prec < 16 -> deque_counter tags h pq prec hcnt = Some (None, false, h, pq).
Proof.
  intros H Hp. unfold deque_counter, getq. rewrite bool_decide_true by lia. pose proof (qok_len _ _ _ H) as Hl. unfold PKTQ_MAX_PREC in Hl.
  destruct (lookup_lt_is_Some_2 (q pq) (Z.to_nat prec)) as [qp E]; [lia|]. rewrite E. cbn [mbind option_bind].
  pose proof (qok_slots _ _ _ H _ _ E) as Hs. rewrite decide_False in Hs by lia. rewrite Hs. done.
Qed.

(** ** All queues *)

Record placed (h : heap) (Q : Z -> pktq) (L : Z -> lists) (pos : gmap pkt (option (Z * nat))) : Prop := {
  pl_dom : dom h = dom pos;
  pl_q : ∀ k, 0 <= k < N_QUEUES -> qok h (Q k) (L k);
  pl_in : ∀ k n p, 0 <= k < N_QUEUES -> p ∈ L k !!! n <-> pos !! p = Some (Some (k, n));
  pl_range : ∀ p k n, pos !! p = Some (Some (k, n)) -> 0 <= k < N_QUEUES;
  pl_free : ∀ p, pos !! p = Some None -> h !! p = Some None
}.

Lemma placed_queued h Q L pos k p : placed h Q L pos -> 0 <= k < N_QUEUES -> queued (L k) p -> ∃ n, pos !! p = Some (Some (k, n)).
Proof. intros H Hk (n & Hn). exists n. by apply (pl_in _ _ _ _ H). Qed.

Lemma in_lists_lt (ls : lists) n (p : pkt) : p ∈ ls !!! n -> (n < length ls)%nat.
Proof.
  intros H. destruct (decide (n < length ls)%nat) as [|Hn]; [done|]. rewrite list_lookup_total_alt, lookup_ge_None_2 in H by lia. by apply elem_of_nil in H.
Qed.

(** No queue has more packets than are in queues. *)
Lemma placed_total h Q L pos k :
  placed h Q L pos -> 0 <= k < N_QUEUES -> total (L k) <= Z.of_nat (size (filter (λ x, is_Some x.2) pos)).
Proof.
  intros H Hk. destruct (pl_q _ _ _ _ H k Hk) as [_ [E|[Hr _]] _]; [rewrite E; unfold total; cbn; lia|].
  assert (∀ ls, (∀ i, NoDup (ls !!! i)) -> (∀ i j (x : pkt), x ∈ ls !!! i -> x ∈ ls !!! j -> i = j) -> NoDup (concat ls)) as Hnd.
  { clear. induction ls as [|l ls IH]; intros Hl Hd; [constructor|]. cbn. apply NoDup_app. split; [apply (Hl O)|]. split.
    - intros x Hx (l' & Hin & Hx'%list_elem_of_In)%list_elem_of_In%in_concat. apply list_elem_of_In, list_elem_of_lookup in Hin as [j Hj].
      assert (x ∈ (l :: ls) !!! S j) as Hj' by (by rewrite (lists_lookup (l :: ls) (S j) l')). by specialize (Hd O (S j) x Hx Hj').
    - apply IH; [intros i; apply (Hl (S i))|]. intros i j x Hi Hj. assert (S i = S j) by (by apply (Hd (S i) (S j) x)). lia. }
  assert (NoDup (concat (L k))) as Hc.
  { apply Hnd; [|apply (pqrep_disj _ _ _ Hr)]. intros i. destruct (decide (i < length (L k))%nat) as [Hi|Hi].
    - destruct (pqrep_lookup _ _ _ _ Hr Hi) as (qp & _ & Hq). eapply lseg_NoDup, (qrep_seg _ _ _ Hq).
    - rewrite list_lookup_total_alt, lookup_ge_None_2 by lia. constructor. }
  assert (total (L k) = Z.of_nat (length (concat (L k)))) as ->.
  { unfold total. f_equal. generalize (L k). clear. induction l as [|l ls IH]; [done|]. cbn. rewrite length_app. lia. }
  rewrite <-size_dom, <-(size_list_to_set (C := gset pkt)) by done. apply inj_le, subseteq_size. intros x Hx%elem_of_list_to_set.
  apply list_elem_of_In, in_concat in Hx as (l & Hin & Hx%list_elem_of_In). apply list_elem_of_In, list_elem_of_lookup in Hin as [i Hi].
  apply elem_of_dom. exists (Some (k, i)). apply map_lookup_filter_Some. split; [|by eexists].
  apply (pl_in _ _ _ _ H k i x Hk). by rewrite (lists_lookup _ _ _ Hi).
Qed.

Lemma upd_eq {A} (f : Z -> A) k x : <[k := x]> f k = x.
Proof. unfold insert, fn_insert. by rewrite decide_True. Qed.
Lemma upd_ne {A} (f : Z -> A) k k' x : k ≠ k' -> <[k := x]> f k' = f k'.
Proof. intros H. unfold insert, fn_insert. by rewrite decide_False. Qed.

Section Step.
Context (h h' : heap) (Q : Z -> pktq) (L : Z -> lists) (pos : gmap pkt (option (Z * nat))).
Context (k : Z) (n : nat) (p : pkt) (l' : list pkt) (pq' : pktq).
Context (H : placed h Q L pos) (Hk : 0 <= k < N_QUEUES) (Hn : (n < length (L k))%nat).
Context (Ht : touched (Z.of_nat n) (Q k) pq') (Hpq : pqrep h' pq' (<[n := l']> (L k))).

Lemma placed_other l0 k' x :
  frame l0 h h' -> (∀ y, y ∈ l0 -> y = p ∨ y ∈ L k !!! n) -> (∀ m, pos !! p ≠ Some (Some (k', m))) -> 0 <= k' < N_QUEUES -> k' ≠ k ->
  queued (L k') x -> h' !! x = h !! x.
Proof.
  intros [_ Hf] Hl0 Hp Hk' Hne Hx. apply Hf. intros [->|Hin]%Hl0.
  - destruct (placed_queued _ _ _ _ _ _ H Hk' Hx) as [m E]. by apply (Hp m).
  - apply (pl_in _ _ _ _ H) in Hin; [|done]. destruct (placed_queued _ _ _ _ _ _ H Hk' Hx) as [m E]. congruence.
Qed.

Lemma placed_enq :
  pos !! p = Some None -> (∀ x, x ∈ l' <-> x = p ∨ x ∈ L k !!! n) -> frame (p :: L k !!! n) h h' ->
  placed h' (<[k := pq']> Q) (<[k := <[n := l']> (L k)]> L) (<[p := Some (k, n)]> pos).
Proof.
  intros Hp Hl Hf. assert (∀ k0 m, 0 <= k0 < N_QUEUES -> p ∉ L k0 !!! m) as Hnot.
  { intros k0 m Hk0 Hin. apply (pl_in _ _ _ _ H) in Hin; congruence. }
  split.
  - rewrite (proj1 Hf), (pl_dom _ _ _ _ H), dom_insert_L. assert (p ∈ dom pos) by (apply elem_of_dom; eauto). set_solver.
  - intros k' Hk'. destruct (decide (k = k')) as [<-|Hne].
    + rewrite !upd_eq. eapply qok_touched; eauto. by apply (pl_q _ _ _ _ H).
    + rewrite !upd_ne by done. eapply qok_agree; [|by apply (pl_q _ _ _ _ H)]. intros x Hx. eapply placed_other; eauto; first [congruence|set_solver].
  - intros k' m x Hk'. destruct (decide (x = p)) as [->|Hx].
    + rewrite lookup_insert_eq. destruct (decide (k = k')) as [<-|Hne].
      * rewrite upd_eq. destruct (decide (m = n)) as [->|Hm]; [rewrite lists_insert_eq by done; naive_solver|].
        rewrite lists_insert_ne by done. split; [intros ?%Hnot; done|congruence].
      * rewrite upd_ne by done. split; [intros ?%Hnot; done|congruence].
    + rewrite lookup_insert_ne by done. rewrite <-(pl_in _ _ _ _ H) by done. destruct (decide (k = k')) as [<-|Hne]; [|by rewrite upd_ne].
      rewrite upd_eq. destruct (decide (m = n)) as [->|Hm]; [|by rewrite lists_insert_ne]. rewrite lists_insert_eq by done. naive_solver.
  - intros x k' m. rewrite lookup_insert_Some. intros [[_ [= <- _]]|[_ E]]; [done|by eapply (pl_range _ _ _ _ H)].
  - intros x. rewrite lookup_insert_Some. intros [[_ [=]]|[Hne E]]. rewrite (proj2 Hf); [by apply (pl_free _ _ _ _ H)|].
    intros [->|Hin]%elem_of_cons; [done|]. apply (pl_in _ _ _ _ H) in Hin; congruence.
Qed.

Lemma placed_deq :
  p ∈ L k !!! n -> (∀ x, x ∈ l' <-> x ≠ p ∧ x ∈ L k !!! n) -> frame (L k !!! n) h h' -> h' !! p = Some None ->
  placed h' (<[k := pq']> Q) (<[k := <[n := l']> (L k)]> L) (<[p := None]> pos).
Proof.
  intros Hp Hl Hf Hhp. pose proof (proj1 (pl_in _ _ _ _ H k n p Hk) Hp) as Epos. split.
  - rewrite (proj1 Hf), (pl_dom _ _ _ _ H), dom_insert_L. assert (p ∈ dom pos) by (apply elem_of_dom; eauto). set_solver.
  - intros k' Hk'. destruct (decide (k = k')) as [<-|Hne].
    + rewrite !upd_eq. eapply qok_touched; eauto. by apply (pl_q _ _ _ _ H).
    + rewrite !upd_ne by done. eapply qok_agree; [|by apply (pl_q _ _ _ _ H)]. intros x Hx. eapply placed_other; eauto; first [congruence|set_solver].
  - intros k' m x Hk'. destruct (decide (x = p)) as [->|Hx].
    + rewrite lookup_insert_eq. split; [|done]. intros Hin. exfalso. destruct (decide (k = k')) as [<-|Hne].
      * rewrite upd_eq in Hin. destruct (decide (m = n)) as [->|Hm]; [rewrite lists_insert_eq in Hin by done; naive_solver|].
        rewrite lists_insert_ne in Hin by done. apply (pl_in _ _ _ _ H) in Hin; [congruence|done].
      * rewrite upd_ne in Hin by done. apply (pl_in _ _ _ _ H) in Hin; [congruence|done].
    + rewrite lookup_insert_ne by done. rewrite <-(pl_in _ _ _ _ H) by done. destruct (decide (k = k')) as [<-|Hne]; [|by rewrite upd_ne].
      rewrite upd_eq. destruct (decide (m = n)) as [->|Hm]; [|by rewrite lists_insert_ne]. rewrite lists_insert_eq by done. naive_solver.
  - intros x k' m. rewrite lookup_insert_Some. intros [[_ [=]]|[_ E]]. by eapply (pl_range _ _ _ _ H).
  - intros x. rewrite lookup_insert_Some. intros [[<- _]|[Hne E]]; [done|]. rewrite (proj2 Hf); [by apply (pl_free _ _ _ _ H)|].
    intros Hin. apply (pl_in _ _ _ _ H) in Hin; congruence.
Qed.
End Step.

(** A packet that is in no queue comes or goes, and a descriptor gets its queue. *)
Lemma placed_new h Q L pos p : placed h Q L pos -> h !! p = None -> placed (<[p := None]> h) Q L (<[p := None]> pos).
Proof.
  intros H Hp. assert (pos !! p = None) as Hpos by (apply not_elem_of_dom; rewrite <-(pl_dom _ _ _ _ H); by apply not_elem_of_dom).
  split.
  - rewrite !dom_insert_L. by rewrite (pl_dom _ _ _ _ H).
  - intros k Hk. eapply qok_agree; [|by apply (pl_q _ _ _ _ H)]. intros x [n E]%(placed_queued _ _ _ _ _ _ H Hk). apply lookup_insert_ne. congruence.
  - intros k n x Hk. rewrite (pl_in _ _ _ _ H) by done. rewrite lookup_insert_Some. naive_solver.
  - intros x k n. rewrite lookup_insert_Some. intros [[_ [=]]|[_ E]]. by eapply (pl_range _ _ _ _ H).
  - intros x. rewrite !lookup_insert_Some. intros [[<- _]|[Hne E]]; [by left|right]. split; [done|by apply (pl_free _ _ _ _ H)].
Qed.

Lemma placed_free h Q L pos p : placed h Q L pos -> pos !! p = Some None -> placed (delete p h) Q L (delete p pos).
Proof.
  intros H Hp. split.
  - rewrite !dom_delete_L. by rewrite (pl_dom _ _ _ _ H).
  - intros k Hk. eapply qok_agree; [|by apply (pl_q _ _ _ _ H)]. intros x [n E]%(placed_queued _ _ _ _ _ _ H Hk). apply lookup_delete_ne. congruence.
  - intros k n x Hk. rewrite (pl_in _ _ _ _ H) by done. rewrite lookup_delete_Some. naive_solver.
  - intros x k n. rewrite lookup_delete_Some. intros [_ E]. by eapply (pl_range _ _ _ _ H).
  - intros x. rewrite !lookup_delete_Some. intros [Hne E]. split; [done|by apply (pl_free _ _ _ _ H)].
Qed.

Lemma placed_init h Q L pos k pq ls :
  placed h Q L pos -> 0 <= k < N_QUEUES -> (∀ n, L k !!! n = []) -> (∀ n, ls !!! n = []) -> qok h pq ls ->
  placed h (<[k := pq]> Q) (<[k := ls]> L) pos.
Proof.
  intros H Hk HL Hls Hq. split; try apply H.
  - intros k' Hk'. destruct (decide (k = k')) as [<-|Hne]; [by rewrite !upd_eq|]. rewrite !upd_ne by done. by apply (pl_q _ _ _ _ H).
  - intros k' n x Hk'. rewrite <-(pl_in _ _ _ _ H) by done. destruct (decide (k = k')) as [<-|Hne]; [|by rewrite upd_ne]. by rewrite upd_eq, HL, Hls.
Qed.

Lemma placed_ext h Q Q' L pos : placed h Q L pos -> (∀ k, 0 <= k < N_QUEUES -> Q' k = Q k) -> placed h Q' L pos.
Proof. intros H E. split; try apply H. intros k Hk. rewrite E by done. by apply (pl_q _ _ _ _ H). Qed.

(** * Wireless flow control: the invariant of the whole

    Every packet is in one place: it waits in a queue of its descriptor, the bus
    has it, it waits at the dongle for its status, or the host has it in hand.
    The state of the flow control fits the places: the queues hold the packets,
    the counters count them, and the header is on the packets that were sent. *)

(** ** Places *)

Inductive place :=
| Delayed (e : Z) | Suppressed (e : Z)      (* in the psq of a descriptor *)
| OnBus (e : Z) | AtDongle (e : Z)          (* the latter in its afq *)
| Hand (headed : bool) (e : option Z)       (* with a header, of a descriptor *)
| SignalHand | SignalOnBus.                 (* no data *)

(** A packet: its place, interface, category and data, and whether the counters of
    waiting packets and of packets of the driver count it. *)
Record pinfo := mk_info {
  i_place : place; i_if : Z; i_ac : Z; i_waiting : bool; i_counted : bool; i_payload : list Z
}.
Definition set_place (x : place) (i : pinfo) : pinfo := mk_info x (i_if i) (i_ac i) (i_waiting i) (i_counted i) (i_payload i).
Definition set_waiting (x : bool) (i : pinfo) : pinfo := mk_info (i_place i) (i_if i) (i_ac i) x (i_counted i) (i_payload i).
Definition set_counted (x : bool) (i : pinfo) : pinfo := mk_info (i_place i) (i_if i) (i_ac i) (i_waiting i) x (i_payload i).

Definition headed (x : place) : bool :=
  match x with Delayed _ => false | Hand b _ => b | _ => true end.
Definition entry_at (x : place) : option Z :=
  match x with Delayed e | Suppressed e | OnBus e | AtDongle e => Some e | Hand _ e => e | _ => None end.
Definition signal (x : place) : bool := match x with SignalHand | SignalOnBus => true | _ => false end.
Definition on_bus (x : place) : bool := match x with OnBus _ | SignalOnBus => true | _ => false end.

(** The queue and the precedence. *)
Definition pos_of (i : pinfo) : option (Z * nat) :=
  match i_place i with
  | Delayed e => Some (e, Z.to_nat (PSQ_DLY_IDX (i_ac i)))
  | Suppressed e => Some (e, Z.to_nat (PSQ_SUP_IDX (i_ac i)))
  | AtDongle e => Some (n_entries + e, Z.to_nat (i_ac i))
  | _ => None
  end.

(** ** Counting *)

Abbreviation packets := (gmap pkt pinfo).

Definition count (f : pinfo -> bool) (G : packets) : Z := Z.of_nat (size (filter (λ x, f x.2 = true) G)).

Lemma count_delete f G p i : G !! p = Some i -> count f (delete p G) = count f G - Z.b2z (f i).
Proof.
  intros Hp. unfold count. rewrite map_filter_delete. destruct (f i) eqn:E.
  - assert (is_Some (filter (λ x, f x.2 = true) G !! p)) as Hf by (exists i; by apply map_lookup_filter_Some).
    rewrite map_size_delete_Some by done. assert (size (filter (λ x : pkt * pinfo, f x.2 = true) G) ≠ 0%nat); [|cbn; lia].
    intros H0%map_size_empty_inv. rewrite H0 in Hf. by destruct Hf.
  - rewrite map_size_delete_None; [cbn; lia|]. apply map_lookup_filter_None. right. cbn. intros j Hj. congruence.
Qed.

Lemma count_new f G p i : G !! p = None -> count f (<[p := i]> G) = count f G + Z.b2z (f i).
Proof.
  intros Hp. assert (G = delete p (<[p := i]> G)) as E by (by rewrite delete_insert_id). rewrite E at 2.
  rewrite (count_delete f _ p i) by apply lookup_insert_eq. lia.
Qed.

Lemma count_update f G p i i' : G !! p = Some i -> count f (<[p := i']> G) = count f G - Z.b2z (f i) + Z.b2z (f i').
Proof. intros Hp. rewrite <-insert_delete_eq, count_new by apply lookup_delete_eq. by rewrite (count_delete f G p i). Qed.

Lemma count_pos f G : 0 <= count f G.
Proof. unfold count. lia. Qed.

Lemma count_le f g G : (∀ p i, G !! p = Some i -> f i = true -> g i = true) -> count f G <= count g G.
Proof.
  intros H. unfold count. rewrite <-!size_dom. apply inj_le, subseteq_size. intros p [i [Hi Hf]%map_lookup_filter_Some]%elem_of_dom.
  apply elem_of_dom. exists i. apply map_lookup_filter_Some. split; [done|]. by eapply H.
Qed.

Lemma count_one f G p i : G !! p = Some i -> f i = true -> 1 <= count f G.
Proof. intros Hp Hf. pose proof (count_delete f G p i Hp) as E. rewrite Hf in E. cbn in E. pose proof (count_pos f (delete p G)). lia. Qed.

Lemma count_none f G : (∀ p i, G !! p = Some i -> f i = false) -> count f G = 0.
Proof.
  intros H. unfold count. assert (filter (λ x : pkt * pinfo, f x.2 = true) G = ∅) as ->; [|done].
  apply map_empty_filter. intros p i Hi. cbn. by rewrite (H p i Hi).
Qed.

(** What the counters count. *)
Definition waits (ifid ac : Z) (i : pinfo) : bool := i_waiting i && bool_decide (i_if i = ifid) && bool_decide (i_ac i = ac).
Definition waits_ac (ac : Z) (i : pinfo) : bool := i_waiting i && bool_decide (i_ac i = ac).
Definition in_drv (ifid ac : Z) (i : pinfo) : bool := i_counted i && bool_decide (i_if i = ifid) && bool_decide (i_ac i = ac).
Definition in_transit (e : Z) (i : pinfo) : bool :=
  match i_place i with OnBus e' | AtDongle e' => bool_decide (e' = e) | _ => false end.
Definition data (i : pinfo) : bool := negb (signal (i_place i)).
Definition queued_at (i : pinfo) : bool := bool_decide (is_Some (pos_of i)).

(** ** The invariant *)

(** [O]: the descriptors in use. *)
Definition valid (O : Z -> bool) (e : Z) : Prop := 0 <= e < n_entries ∧ O e = true.

Record pkt_ok (O : Z -> bool) (i : pinfo) (x : wpkt) : Prop := {
  ok_if : DHD_PKTTAG_IF (if_flags x) = i_if i;
  ok_ac : DHD_PKTTAG_FIFO (if_flags x) = i_ac i;
  ok_signal : i_place i ≠ SignalHand -> bool_decide (DHD_PKTTAG_SIGNALONLY (if_flags x) ≠ 0) = signal (i_place i);
  ok_range : signal (i_place i) = false -> 0 <= i_ac i <= AC_COUNT;
  ok_wf : wf_pkt x;
  ok_data : i_place i ≠ SignalHand ->
            ∃ h, PKTDATA x = h ++ i_payload i ∧ (if headed (i_place i) then header h else h = [])
              ∧ 16 <= pkt_off x + Z.of_nat (length h);
  ok_entry : signal (i_place i) = false -> tag_entry x = entry_at (i_place i);
  ok_valid : ∀ e, entry_at (i_place i) = Some e ->
               valid O e ∧ (headed (i_place i) = true -> WL_TXSTATUS_GET_HSLOT (htod_tag x) = e)
}.

Record dok (O : Z -> bool) (e : Z) (d : wlfc_mac_descriptor) : Prop := {
  dok_occupied : d_occupied d = O e;
  dok_ifid : 0 <= d_interface_id d;
  dok_seq : length (d_seq d) = 5%nat;
  dok_release : length (d_release_count d) = 5%nat;
  dok_next : if O e then ∃ e', d_next d = Some e' ∧ valid O e' else d_next d = None;
  dok_prev : if O e then ∃ e', d_prev d = Some e' ∧ valid O e' else d_prev d = None
}.

Record cok (c : wlfc_credits) : Prop := {
  cok_init : length (Init_FIFO_credit c) = 6%nat;
  cok_fifo : length (FIFO_credit c) = 6%nat;
  cok_borrowed : length (credits_borrowed c) = 6%nat;
  cok_rows : Forall (λ r, length r = 6%nat) (credits_borrowed c)
}.

Record shape (O : Z -> bool) (w : wlfc) : Prop := {
  sh_entries : Z.of_nat (length (w_destination_entries w)) = n_entries;
  sh_desc : ∀ e d, at_ (w_destination_entries w) e = Some d -> dok O e d;
  sh_nodes : Z.of_nat (length (af_nodes (w_afqs w))) = WLFC_MAC_DESC_TABLE_SIZE;
  sh_ifs : Z.of_nat (length (af_interfaces (w_afqs w))) = WLFC_MAX_IFNUM;
  sh_ooo : length (ooo_pkts (w_afqs w)) = 5%nat;
  sh_credits : cok (w_credits w);
  sh_head : ∃ e, w_active_entry_head w = Some e ∧ valid O e;
  sh_requested : ∃ l, 0 <= w_requested_entry_count w ∧ take (Z.to_nat (w_requested_entry_count w)) (w_requested_entry w) = Some <$> l
                   ∧ w_requested_entry_count w = Z.of_nat (length l)
                   ∧ NoDup l ∧ ∀ e, e ∈ l -> valid O e ∧ e < WLFC_MAC_DESC_TABLE_SIZE;
  sh_requested_len : Z.of_nat (length (w_requested_entry w)) = WLFC_MAC_DESC_TABLE_SIZE;
  sh_rx : length (w_rx_timestamp w) = 5%nat;
  sh_flow : length (w_hostif_flow_state w) = 16%nat
}.

(** An array of counters. *)
Definition counts (n : nat) (l : list Z) (f : Z -> Z) : Prop := length l = n ∧ ∀ a x, at_ l a = Some x -> x = f a.

(** [dev]: how far the counts of packets in transit are ahead. *)
Record counted (dev : Z -> Z) (G : packets) (w : wlfc) : Prop := {
  ct_in_q : length (w_pkt_cnt_in_q w) = 16%nat ∧ ∀ i r, at_ (w_pkt_cnt_in_q w) i = Some r -> counts 5 r (λ a, count (waits i a) G);
  ct_per_ac : counts 5 (w_pkt_cnt_per_ac w) (λ a, count (waits_ac a) G);
  ct_in_drv : length (w_pkt_cnt_in_drv w) = 16%nat ∧ ∀ i r, at_ (w_pkt_cnt_in_drv w) i = Some r -> counts 5 r (λ a, count (in_drv i a) G);
  ct_transit : ∀ e d, at_ (w_destination_entries w) e = Some d -> d_transit_count d = count (in_transit e) G + dev e
}.

Definition queue_of (w : wlfc) (k : Z) : pktq :=
  default zero_pktq (if bool_decide (k < n_entries) then d_psq <$> at_ (w_destination_entries w) k else get_afq (w_afqs w) (k - n_entries)).

Record inv (O : Z -> bool) (dev : Z -> Z) (G : packets) (s : sys) : Prop := {
  inv_places : ∃ L, placed (s_h s) (queue_of (s_w s)) L (pos_of <$> G)
                 ∧ ∀ e, 0 <= e < n_entries -> length (L e) = (if O e then 10 else 0)%nat ∧ length (L (n_entries + e)) = (if O e then 5 else 0)%nat;
  inv_dom : dom (s_p s) = dom G;
  inv_pkt : ∀ p i, G !! p = Some i -> ∃ x, s_p s !! p = Some x ∧ pkt_ok O i x;
  inv_bus : ∀ p, p ∈ s_bus s <-> ∃ i, G !! p = Some i ∧ on_bus (i_place i) = true;
  inv_shape : shape O (s_w s);
  inv_counted : counted dev G (s_w s);
  inv_few : count data G < 32768
}.

(** ** Programs *)

(** The program has a result, and it is as said. *)
Definition wp {A} (m : M A) (s : sys) (Q : A -> sys -> Prop) : Prop := ∃ a s', m s = Some (a, s') ∧ Q a s'.

Section Rules.
Context {A B : Type}.
Implicit Types (m : M A) (s : sys).

Lemma wp_ret (a : A) s (Q : A -> sys -> Prop) : Q a s -> wp (mret a) s Q.
Proof. intros H. by exists a, s. Qed.

Lemma wp_bind m (k : A -> M B) s (Q : B -> sys -> Prop) : wp m s (λ a s', wp (k a) s' Q) -> wp (a ← m; k a) s Q.
Proof. intros (a & s' & E & b & s'' & E' & H). exists b, s''. split; [|done]. unfold mbind, M_bind. by rewrite E. Qed.

Lemma wp_mono m s (Q Q' : A -> sys -> Prop) : wp m s Q -> (∀ a s', Q a s' -> Q' a s') -> wp m s Q'.
Proof. intros (a & s' & E & H) HQ. exists a, s'. auto. Qed.

Lemma wp_gets (f : sys -> A) s (Q : A -> sys -> Prop) : Q (f s) s -> wp (gets f) s Q.
Proof. intros H. by exists (f s), s. Qed.

Lemma wp_getw (f : wlfc -> A) s (Q : A -> sys -> Prop) : Q (f (s_w s)) s -> wp (getw f) s Q.
Proof. apply (wp_gets (λ s, f (s_w s))). Qed.

Lemma wp_lift (o : option A) a s (Q : A -> sys -> Prop) : o = Some a -> Q a s -> wp (lift o) s Q.
Proof. intros -> H. by exists a, s. Qed.

Lemma wp_if (b : bool) m1 m2 s (Q : A -> sys -> Prop) : (b = true -> wp m1 s Q) -> (b = false -> wp m2 s Q) -> wp (if b then m1 else m2) s Q.
Proof. destruct b; auto. Qed.
End Rules.

Lemma wp_modify f s (Q : unit -> sys -> Prop) : Q tt (f s) -> wp (modify f) s Q.
Proof. intros H. by exists tt, (f s). Qed.

(** The next statement of a program, by its form. *)
Ltac wstep :=
  lazymatch goal with
  | |- wp (mbind _ _) _ _ => apply wp_bind
  | |- wp (mret _) _ _ => apply wp_ret
  | |- wp (gets _) _ _ => apply wp_gets
  | |- wp (getw _) _ _ => apply wp_getw
  | |- wp (modify _) _ _ => apply wp_modify
  | |- wp (modw _) _ _ => apply wp_modify
  | |- wp (lift _) _ _ => eapply wp_lift; [first [eassumption | by eapply put_Some]|]
  end; cbv beta.
