(* ===== verification/WlfcMoves.v ===== *)
(** * Wireless flow control: rules for the steps on the state *)

From stdpp Require Import functions.
From S2P Require Import Prelude Pktq PktqSpec PktqRefine FlowQueue FlowData WlfcTag WlfcCredit WlfcQueue WlfcHeader.
From S2P Require Import WlfcHeaderTheorems WlfcState WlfcSend WlfcTransfer WlfcEvents WlfcQueueTheorems WlfcInv.

Section Inv.
Context (O : Z -> bool).

(** ** Changes that the invariant does not see *)

Lemma inv_dev dev dev' G s : inv O dev G s -> (∀ e, 0 <= e < n_entries -> dev e = dev' e) -> inv O dev' G s.
Proof.
  intros H E. destruct H as [? ? ? ? Hs [? ? ? Ht] ?]. split; try done. split; try done. intros e d Hd. rewrite (Ht e d Hd), E; [done|].
  apply at_range in Hd as Hr. rewrite (sh_entries _ _ Hs) in Hr. done.
Qed.

(** The fields of the state that the invariant is about. *)
Definition relevant (w : wlfc) :=
  (w_destination_entries w, w_afqs w, w_credits w, w_active_entry_head w, w_requested_entry w, w_requested_entry_count w,
   w_pkt_cnt_in_q w, w_pkt_cnt_per_ac w, w_pkt_cnt_in_drv w, length (w_rx_timestamp w), length (w_hostif_flow_state w)).

Lemma inv_relevant dev G s w : inv O dev G s -> relevant w = relevant (s_w s) -> inv O dev G (set_w w s).
Proof.
  intros [Hp Hd Hk Hb Hs Hc Hf] E. unfold relevant in E. injection E as E1 E2 E3 E4 E5 E6 E7 E8 E9 E10 E11. split; try done; cbn.
  - destruct Hp as (L & HL & HO). exists L. split; [|done]. eapply placed_ext; [done|]. intros k _. unfold queue_of. by rewrite E1, E2.
  - destruct Hs. split; rewrite ?E1, ?E2, ?E3, ?E4, ?E5, ?E6, ?E10, ?E11; done.
  - destruct Hc. split; rewrite ?E1, ?E7, ?E8, ?E9; done.
Qed.

Lemma queue_of_desc w e d d' k :
  at_ (w_destination_entries w) e = Some d -> 0 <= e < n_entries -> 0 <= k < N_QUEUES ->
  queue_of (set_w_destination_entries (<[Z.to_nat e := d']> (w_destination_entries w)) w) k = <[e := d_psq d']> (queue_of w) k.
Proof.
  intros Hd He Hk. unfold queue_of. cbn. destruct (decide (e = k)) as [<-|Hne].
  - rewrite upd_eq, bool_decide_true by lia. by rewrite (at_insert_eq _ _ _ _ Hd).
  - rewrite upd_ne by done. rewrite at_insert_ne by lia. done.
Qed.

Lemma shape_desc w e d d' :
  shape O w -> at_ (w_destination_entries w) e = Some d -> dok O e d' ->
  shape O (set_w_destination_entries (<[Z.to_nat e := d']> (w_destination_entries w)) w).
Proof.
  intros [] Hd Hd'. split; try done; cbn; [by rewrite length_insert|]. intros e' x. pose proof (at_range _ _ _ Hd). destruct (decide (e' = e)) as [->|Hne].
  - rewrite (at_insert_eq _ _ _ _ Hd). by intros [= <-].
  - rewrite at_insert_ne by lia. auto.
Qed.

Lemma counted_desc dev G w e d d' :
  counted dev G w -> at_ (w_destination_entries w) e = Some d ->
  counted (<[e := dev e + (d_transit_count d' - d_transit_count d)]> dev) G
    (set_w_destination_entries (<[Z.to_nat e := d']> (w_destination_entries w)) w).
Proof.
  intros [] Hd. split; try done; cbn. intros e' x. pose proof (at_range _ _ _ Hd). destruct (decide (e' = e)) as [->|Hne].
  - rewrite (at_insert_eq _ _ _ _ Hd), upd_eq. intros [= <-]. rewrite (ct_transit _ _ Hd). lia.
  - rewrite at_insert_ne, upd_ne by lia. auto.
Qed.

Lemma inv_desc dev G s e d d' :
  inv O dev G s -> at_ (w_destination_entries (s_w s)) e = Some d -> dok O e d' -> d_psq d' = d_psq d ->
  inv O (<[e := dev e + (d_transit_count d' - d_transit_count d)]> dev) G
    (set_w (set_w_destination_entries (<[Z.to_nat e := d']> (w_destination_entries (s_w s))) (s_w s)) s).
Proof.
  intros [Hp Hdm Hk Hb Hs Hc Hf] Hd Hd' Hq. pose proof (at_range _ _ _ Hd) as Hr. rewrite (sh_entries _ _ Hs) in Hr.
  split; try done; cbn; eauto using shape_desc, counted_desc.
  destruct Hp as (L & HL & HO). exists L. split; [|done]. eapply placed_ext; [done|]. intros k Hk'. rewrite (queue_of_desc _ _ d) by done.
  destruct (decide (e = k)) as [<-|Hne]; [|by rewrite upd_ne]. rewrite upd_eq. unfold queue_of. by rewrite bool_decide_true, Hd by lia.
Qed.

(** ** Rules *)

Lemma desc_lookup dev G s e : inv O dev G s -> 0 <= e < n_entries -> ∃ d, at_ (w_destination_entries (s_w s)) e = Some d ∧ dok O e d.
Proof.
  intros H He. pose proof (inv_shape _ _ _ _ H) as Hs. destruct (at_is_Some (w_destination_entries (s_w s)) e) as [d Hd]; [by rewrite (sh_entries _ _ Hs)|].
  exists d. split; [done|]. by apply (sh_desc _ _ Hs).
Qed.

Lemma wp_getd {A} dev G s e (f : wlfc_mac_descriptor -> A) Q :
  inv O dev G s -> 0 <= e < n_entries ->
  (∀ d, at_ (w_destination_entries (s_w s)) e = Some d -> dok O e d -> Q (f d) s) -> wp (getd e f) s Q.
Proof.
  intros H He HQ. destruct (desc_lookup _ _ _ _ H He) as (d & Hd & Hok). unfold getd. apply wp_bind, wp_getw, wp_bind.
  eapply wp_lift; [done|]. apply wp_ret. auto.
Qed.

Lemma wp_modd_raw dev G s e f Q :
  inv O dev G s -> 0 <= e < n_entries ->
  (∀ d, at_ (w_destination_entries (s_w s)) e = Some d -> dok O e d ->
     Q tt (set_w (set_w_destination_entries (<[Z.to_nat e := f d]> (w_destination_entries (s_w s))) (s_w s)) s)) ->
  wp (modd e f) s Q.
Proof.
  intros H He HQ. destruct (desc_lookup _ _ _ _ H He) as (d & Hd & Hok). unfold modd. apply wp_bind, wp_getw, wp_bind.
  eapply wp_lift; [done|]. apply wp_bind. eapply wp_lift; [by eapply put_Some|]. apply wp_modify. auto.
Qed.

(** What the invariant sees of a descriptor. *)
Definition drelevant (d : wlfc_mac_descriptor) :=
  (d_occupied d, d_interface_id d, length (d_seq d), length (d_release_count d), d_psq d, d_transit_count d, d_prev d, d_next d).

Lemma inv_desc_same dev G s e d d' :
  inv O dev G s -> at_ (w_destination_entries (s_w s)) e = Some d -> drelevant d' = drelevant d ->
  inv O dev G (set_w (set_w_destination_entries (<[Z.to_nat e := d']> (w_destination_entries (s_w s))) (s_w s)) s).
Proof.
  intros H Hd E. injection E as E1 E2 E3 E4 E5 E6 E7 E8. pose proof (sh_desc _ _ (inv_shape _ _ _ _ H) e d Hd) as Hok.
  eapply inv_dev; [eapply inv_desc; [done|done| |done]|].
  - destruct Hok. split; rewrite ?E1, ?E2, ?E3, ?E4, ?E7, ?E8; done.
  - intros e' _. destruct (decide (e = e')) as [<-|Hne]; [rewrite upd_eq; lia|by rewrite upd_ne].
Qed.

Lemma wp_modd dev G s e f Q :
  inv O dev G s -> 0 <= e < n_entries -> (∀ d, dok O e d -> drelevant (f d) = drelevant d) -> (∀ s', inv O dev G s' -> Q tt s') ->
  wp (modd e f) s Q.
Proof. intros H He Hf HQ. eapply wp_modd_raw; [done|done|]. intros d Hd Hok. apply HQ. eapply inv_desc_same; eauto. Qed.

Lemma wp_set_transit dev G s e d k Q :
  inv O dev G s -> at_ (w_destination_entries (s_w s)) e = Some d ->
  (∀ s', inv O (<[e := dev e + k]> dev) G s' -> Q tt s') -> wp (modd e (set_d_transit_count (d_transit_count d + k))) s Q.
Proof.
  intros H Hd HQ. pose proof (at_range _ _ _ Hd) as He. rewrite (sh_entries _ _ (inv_shape _ _ _ _ H)) in He.
  eapply wp_modd_raw; [done|done|]. intros d2 Hd2 Hok2. assert (d2 = d) as -> by congruence. apply HQ.
  eapply inv_dev; [eapply (inv_desc _ _ _ e d); [done|done| |done]|].
  - by destruct Hok2.
  - intros e' _. cbn. destruct (decide (e = e')) as [<-|Hne]; [rewrite !upd_eq; lia|by rewrite !upd_ne].
Qed.

Lemma wp_modw dev G s f Q :
  inv O dev G s -> relevant (f (s_w s)) = relevant (s_w s) -> (∀ s', inv O dev G s' -> Q tt s') -> wp (modw f) s Q.
Proof. intros H Hf HQ. apply wp_modify, HQ. by apply inv_relevant. Qed.

Lemma wp_tick dev G s Q : inv O dev G s -> (∀ n s', inv O dev G s' -> Q n s') -> wp tick s Q.
Proof. intros [] HQ. eexists _, _. split; [done|]. by apply HQ. Qed.

Lemma wp_getp {A} dev G s p i (f : wpkt -> A) Q :
  inv O dev G s -> G !! p = Some i -> (∀ x, s_p s !! p = Some x -> pkt_ok O i x -> Q (f x) s) -> wp (getp p f) s Q.
Proof.
  intros H Hp HQ. destruct (inv_pkt _ _ _ _ H p i Hp) as (x & Hx & Hok). unfold getp. apply wp_bind, wp_gets, wp_bind. eapply wp_lift; [done|].
  apply wp_ret. auto.
Qed.

Lemma wp_cnt {A} (f : wlfc -> list A) s i Q :
  0 <= i < Z.of_nat (length (f (s_w s))) -> (∀ x, at_ (f (s_w s)) i = Some x -> Q x s) -> wp (cnt f i) s Q.
Proof. intros Hi HQ. destruct (at_is_Some _ _ Hi) as [x Hx]. apply wp_bind, wp_getw. eapply wp_lift; eauto. Qed.

(** ** A packet goes to another place *)

Definition same_counts (i i' : pinfo) : Prop :=
  i_if i' = i_if i ∧ i_ac i' = i_ac i ∧ i_waiting i' = i_waiting i ∧ i_counted i' = i_counted i.

Definition moved_dev (dev : Z -> Z) (i i' : pinfo) (e : Z) : Z := dev e + Z.b2z (in_transit e i) - Z.b2z (in_transit e i').

(** The arrays of counters. *)
Definition counters (w : wlfc) := (w_pkt_cnt_in_q w, w_pkt_cnt_per_ac w, w_pkt_cnt_in_drv w).

Lemma counted_place dev G w w' p i i' :
  counted dev G w -> G !! p = Some i -> same_counts i i' -> counters w' = counters w ->
  d_transit_count <$> w_destination_entries w' = d_transit_count <$> w_destination_entries w ->
  counted (moved_dev dev i i') (<[p := i']> G) w'.
Proof.
  intros [[H1 H2] [H3 H4] [H5 H6] H7] Hi (E1 & E2 & E3 & E4) E Et. unfold counters in E. injection E as F1 F2 F3.
  assert (∀ f, f i' = f i -> count f (<[p := i']> G) = count f G) as Hcnt by (intros f Ef; rewrite (count_update f G p i i' Hi), Ef; lia).
  split; rewrite ?F1, ?F2, ?F3.
  - split; [done|]. intros a r Hr. destruct (H2 a r Hr) as [Hl Ha]. split; [done|]. intros b y Hy. rewrite Hcnt; [by apply Ha|]. unfold waits. by rewrite E1, E2, E3.
  - split; [done|]. intros b y Hy. rewrite Hcnt; [by apply H4|]. unfold waits_ac. by rewrite E2, E3.
  - split; [done|]. intros a r Hr. destruct (H6 a r Hr) as [Hl Ha]. split; [done|]. intros b y Hy. rewrite Hcnt; [by apply Ha|]. unfold in_drv. by rewrite E1, E2, E4.
  - intros e d [He Hd]%at_Some. assert ((d_transit_count <$> w_destination_entries w) !! Z.to_nat e = Some (d_transit_count d)) as Hd'.
    { rewrite <-Et, list_lookup_fmap. by rewrite Hd. }
    rewrite list_lookup_fmap in Hd'. apply fmap_Some in Hd' as (d0 & Hd0 & ->). rewrite (H7 e d0) by (apply at_Some; done).
    rewrite (count_update _ G p i i' Hi). unfold moved_dev. lia.
Qed.

Lemma inv_place dev G s p i i' h' w' bus' sp' :
  inv O dev G s -> G !! p = Some i ->
  (∃ L, placed h' (queue_of w') L (<[p := pos_of i']> (pos_of <$> G))
     ∧ ∀ e, 0 <= e < n_entries -> length (L e) = (if O e then 10 else 0)%nat ∧ length (L (n_entries + e)) = (if O e then 5 else 0)%nat) ->
  (∃ x, sp' = <[p := x]> (s_p s) ∧ pkt_ok O i' x) ->
  (∀ y, y ∈ bus' <-> if decide (y = p) then on_bus (i_place i') = true else y ∈ s_bus s) ->
  shape O w' -> same_counts i i' -> counters w' = counters (s_w s) ->
  d_transit_count <$> w_destination_entries w' = d_transit_count <$> w_destination_entries (s_w s) -> data i' = data i ->
  inv O (moved_dev dev i i') (<[p := i']> G) (mk_sys w' h' sp' bus' (s_tick s)).
Proof.
  intros [Hp Hdm Hk Hb Hs Hc Hf] Hi HL (x & -> & Hok) Hbus Hs' Hsame Hcs Ht Hd. split; cbn; try done.
  - by rewrite fmap_insert.
  - rewrite !dom_insert_L. by rewrite Hdm.
  - intros y j. rewrite lookup_insert_Some. intros [[<- <-]|[Hne Hj]]; [exists x; by rewrite lookup_insert_eq|].
    rewrite lookup_insert_ne by done. by apply Hk.
  - intros y. rewrite Hbus. case_decide as E; [subst y|rewrite Hb]; split.
    + intros ?. exists i'. by rewrite lookup_insert_eq.
    + intros (j & Hj & ?). rewrite lookup_insert_eq in Hj. congruence.
    + intros (j & ?). exists j. by rewrite lookup_insert_ne.
    + intros (j & Hj). rewrite lookup_insert_ne in Hj by done. by exists j.
  - by eapply counted_place.
  - rewrite (count_update data G p i i' Hi), Hd. lia.
Qed.

(** The place stays, but the packet is in hand otherwise. *)
Lemma wp_setp dev G s p i i' x Q :
  inv O dev G s -> G !! p = Some i -> pkt_ok O i' x -> pos_of i' = pos_of i -> on_bus (i_place i') = on_bus (i_place i) ->
  data i' = data i -> same_counts i i' -> (∀ e, in_transit e i' = in_transit e i) ->
  (∀ s', inv O dev (<[p := i']> G) s' -> s_p s' !! p = Some x -> Q tt s') -> wp (setp p x) s Q.
Proof.
  intros H Hi Hok E1 E2 E3 E4 E5 HQ. destruct (inv_pkt _ _ _ _ H p i Hi) as (x0 & Hx0 & _).
  unfold setp. apply wp_bind, wp_gets, wp_bind. eapply wp_lift; [done|]. apply wp_modify, HQ; [|apply lookup_insert_eq]. eapply inv_dev.
  - eapply (inv_place _ _ _ p i i'); eauto; try apply H.
    + destruct (inv_places _ _ _ _ H) as (L & HL & HO). exists L. split; [|done]. rewrite E1, insert_id; [done|]. by rewrite lookup_fmap, Hi.
    + intros y. case_decide as Hy; [subst y|done]. rewrite (inv_bus _ _ _ _ H), E2. naive_solver.
  - intros e _. unfold moved_dev. rewrite E5. lia.
Qed.

(** The same place, and only the packet changes. *)
Lemma wp_modp dev G s p i f Q :
  inv O dev G s -> G !! p = Some i -> (∀ x, s_p s !! p = Some x -> pkt_ok O i x -> pkt_ok O i (f x)) ->
  (∀ s', inv O dev G s' -> Q tt s') -> wp (modp p f) s Q.
Proof.
  intros H Hi Hf HQ. unfold modp. apply wp_bind. eapply wp_getp; [done|done|]. intros x Hx Hok.
  eapply (wp_setp _ _ _ p i i); eauto. { done. } intros s' H' _. apply HQ. by rewrite insert_id in H'.
Qed.

Lemma pkt_ok_place i pl x :
  pkt_ok O i x -> headed pl = headed (i_place i) -> entry_at pl = entry_at (i_place i) -> signal pl = signal (i_place i) ->
  i_place i ≠ SignalHand -> pkt_ok O (set_place pl i) x.
Proof. intros [] E1 E2 E3 Hn. split; cbn; rewrite ?E1, ?E2, ?E3; auto. Qed.

(** ** Counters *)

Lemma counts_add n l f f' a x d :
  counts n l f -> at_ l a = Some x -> f' a = f a + d -> (∀ b, b ≠ a -> f' b = f b) -> counts n (<[Z.to_nat a := x + d]> l) f'.
Proof.
  intros [Hl Hf] Ha Hfa Hfb. split; [by rewrite length_insert|]. intros b y. destruct (decide (b = a)) as [->|Hne].
  - rewrite (at_insert_eq _ _ _ _ Ha). intros [= <-]. rewrite (Hf _ _ Ha). lia.
  - pose proof (at_range _ _ _ Ha). rewrite at_insert_ne by lia. rewrite Hfb by done. apply Hf.
Qed.

Lemma counts_ext n l f f' : counts n l f -> (∀ a, f' a = f a) -> counts n l f'.
Proof. intros [Hl Hf] E. split; [done|]. intros a x Ha. rewrite E. by apply Hf. Qed.

(** A row of an array of arrays. *)
Lemma counts2_add m n (ll : list (list Z)) (F F' : Z -> Z -> Z) a b r x d :
  length ll = m ∧ (∀ i r, at_ ll i = Some r -> counts n r (F i)) -> at_ ll a = Some r -> at_ r b = Some x ->
  F' a b = F a b + d -> (∀ a' b', a' ≠ a ∨ b' ≠ b -> F' a' b' = F a' b') ->
  length (<[Z.to_nat a := <[Z.to_nat b := x + d]> r]> ll) = m
  ∧ ∀ i r', at_ (<[Z.to_nat a := <[Z.to_nat b := x + d]> r]> ll) i = Some r' -> counts n r' (F' i).
Proof.
  intros [Hl HF] Ha Hb E1 E2. split; [by rewrite length_insert|]. intros i r'. destruct (decide (i = a)) as [->|Hne].
  - rewrite (at_insert_eq _ _ _ _ Ha). intros [= <-]. eapply counts_add; [by apply HF|done|done|]. intros b' Hb'. apply E2. by right.
  - pose proof (at_range _ _ _ Ha). rewrite at_insert_ne by lia. intros Hr. eapply counts_ext; [by apply HF|]. intros c. apply E2. by left.
Qed.

Lemma pkt_ok_if i x : pkt_ok O i x -> 0 <= i_if i < 16.
Proof. intros H. rewrite <-(ok_if _ _ _ H). apply (get_field_range _ 4); [done|lia]. Qed.

Lemma inv_if dev G s p i : inv O dev G s -> G !! p = Some i -> 0 <= i_if i < 16.
Proof. intros H Hi. destruct (inv_pkt _ _ _ _ H p i Hi) as (x & _ & Hok). by eapply pkt_ok_if. Qed.

(** All but the arrays of counters. *)
Definition uncounted (w : wlfc) :=
  (w_destination_entries w, w_afqs w, w_credits w, w_active_entry_head w, w_requested_entry w, w_requested_entry_count w,
   length (w_rx_timestamp w), length (w_hostif_flow_state w)).

Lemma inv_flags dev G s p i i' w :
  inv O dev G s -> G !! p = Some i -> i_place i' = i_place i -> i_if i' = i_if i -> i_ac i' = i_ac i -> i_payload i' = i_payload i ->
  uncounted w = uncounted (s_w s) -> counted dev (<[p := i']> G) w -> inv O dev (<[p := i']> G) (set_w w s).
Proof.
  intros [Hp Hdm Hk Hb Hs Hc Hf] Hi E1 E2 E3 E4 E Hc'. unfold uncounted in E. injection E as F1 F2 F3 F4 F5 F6 F7 F8. split; cbn; try done.
  - destruct Hp as (L & HL & HO). exists L. split; [|done]. rewrite fmap_insert. assert (pos_of i' = pos_of i) as -> by (unfold pos_of; by rewrite E1, E3).
    rewrite insert_id by (by rewrite lookup_fmap, Hi). eapply placed_ext; [done|]. intros k _. unfold queue_of. by rewrite F1, F2.
  - rewrite dom_insert_L, Hdm. assert (p ∈ dom G) by (apply elem_of_dom; eauto). set_solver.
  - intros y j. rewrite lookup_insert_Some. intros [[<- <-]|[Hne Hj]]; [|by apply Hk]. destruct (Hk p i Hi) as (x & Hx & Hok). exists x. split; [done|].
    destruct Hok. split; rewrite ?E1, ?E2, ?E3, ?E4; done.
  - intros y. rewrite Hb. split; intros (j & Hj & ?).
    + destruct (decide (y = p)) as [->|Hne]; [|exists j; by rewrite lookup_insert_ne]. exists i'. rewrite lookup_insert_eq. split; [done|congruence].
    + apply lookup_insert_Some in Hj as [[<- <-]|[Hne Hj]]; [exists i; split; [done|congruence]|by exists j].
  - destruct Hs. split; rewrite ?F1, ?F2, ?F3, ?F4, ?F5, ?F6, ?F7, ?F8; done.
  - rewrite (count_update data G p i i' Hi). assert (data i' = data i) as -> by (unfold data; by rewrite E1). lia.
Qed.

Lemma wp_wait {B} dev G s p i (b : bool) (m : M B) Q :
  let d := if b then 1 else -1 in
  inv O dev G s -> G !! p = Some i -> i_waiting i = negb b -> 0 <= i_ac i <= AC_COUNT ->
  (∀ s', inv O dev (<[p := set_waiting b i]> G) s' -> wp m s' Q) ->
  wp (_ ← add_in_q (i_if i) (i_ac i) d; _ ← add_per_ac (i_ac i) d; m) s Q.
Proof.
  intros d H Hi Hw Ha HQ. pose proof (inv_if _ _ _ _ _ H Hi) as Hif. pose proof (inv_counted _ _ _ _ H) as [Hq Hac Hdrv Ht]. unfold AC_COUNT in Ha.
  destruct (at_is_Some (w_pkt_cnt_in_q (s_w s)) (i_if i)) as [r Hr]; [rewrite (proj1 Hq); lia|].
  destruct (proj2 Hq _ _ Hr) as [Hrl _]. destruct (at_is_Some r (i_ac i)) as [x Hx]; [lia|].
  destruct (at_is_Some (w_pkt_cnt_per_ac (s_w s)) (i_ac i)) as [y Hy]; [rewrite (proj1 Hac); lia|].
  unfold add_in_q, add_per_ac, addc2, addc.
  repeat wstep. apply HQ.
  assert (∀ f, count f (<[p := set_waiting b i]> G) = count f G - Z.b2z (f i) + Z.b2z (f (set_waiting b i))) as Hcnt by (intros; by apply count_update).
  eapply (inv_flags dev G s p i); try done. split; cbn.
  - eapply counts2_add; [exact Hq|done|done| |]; intros; rewrite Hcnt; unfold waits; cbn; rewrite Hw.
    + rewrite !bool_decide_true by done. subst d. destruct b; cbn; lia.
    + assert (bool_decide (i_if i = a') && bool_decide (i_ac i = b') = false) as E.
      { apply andb_false_iff. rewrite !bool_decide_eq_false. naive_solver. }
      rewrite <-!andb_assoc, E, !andb_false_r. cbn. lia.
  - eapply counts_add; [exact Hac|done| |]; intros; rewrite Hcnt; unfold waits_ac; cbn; rewrite Hw.
    + rewrite !bool_decide_true by done. subst d. destruct b; cbn; lia.
    + rewrite (bool_decide_false (i_ac i = b0)), !andb_false_r by done. cbn. lia.
  - split; [apply Hdrv|]. intros a r' Hr'. eapply counts_ext; [by apply Hdrv|]. intros c. cbn. rewrite Hcnt. unfold in_drv. cbn. lia.
  - intros e d' Hd'. rewrite Hcnt. rewrite (Ht _ _ Hd'). unfold in_transit. cbn. lia.
Qed.

Lemma wp_count dev G s p i (b : bool) Q :
  let d := if b then 1 else -1 in
  inv O dev G s -> G !! p = Some i -> i_counted i = negb b -> 0 <= i_ac i <= AC_COUNT ->
  (∀ s', inv O dev (<[p := set_counted b i]> G) s' -> Q tt s') -> wp (add_in_drv (i_if i) (i_ac i) d) s Q.
Proof.
  intros d H Hi Hw Ha HQ. pose proof (inv_if _ _ _ _ _ H Hi) as Hif. pose proof (inv_counted _ _ _ _ H) as [Hq Hac Hdrv Ht]. unfold AC_COUNT in Ha.
  destruct (at_is_Some (w_pkt_cnt_in_drv (s_w s)) (i_if i)) as [r Hr]; [rewrite (proj1 Hdrv); lia|].
  destruct (proj2 Hdrv _ _ Hr) as [Hrl _]. destruct (at_is_Some r (i_ac i)) as [x Hx]; [lia|].
  unfold add_in_drv, addc2.
  repeat wstep. apply HQ.
  assert (∀ f, count f (<[p := set_counted b i]> G) = count f G - Z.b2z (f i) + Z.b2z (f (set_counted b i))) as Hcnt by (intros; by apply count_update).
  eapply (inv_flags dev G s p i); try done. split; cbn.
  - split; [apply Hq|]. intros a r' Hr'. eapply counts_ext; [by apply Hq|]. intros c. cbn. rewrite Hcnt. unfold waits. cbn. lia.
  - eapply counts_ext; [exact Hac|]. intros c. cbn. rewrite Hcnt. unfold waits_ac. cbn. lia.
  - eapply counts2_add; [exact Hdrv|done|done| |]; intros; rewrite Hcnt; unfold in_drv; cbn; rewrite Hw.
    + rewrite !bool_decide_true by done. subst d. destruct b; cbn; lia.
    + assert (bool_decide (i_if i = a') && bool_decide (i_ac i = b') = false) as E.
      { apply andb_false_iff. rewrite !bool_decide_eq_false. naive_solver. }
      rewrite <-!andb_assoc, E, !andb_false_r. cbn. lia.
  - intros e d' Hd'. rewrite Hcnt. rewrite (Ht _ _ Hd'). unfold in_transit. cbn. lia.
Qed.
End Inv.

(** * Wireless flow control: rules for the ways of the packets *)

Section Moves.
Context (O : Z -> bool) (cfg : dhd_cfg) (env : wenv).

(** ** Packets that come and go *)

Lemma wp_PKTFREE dev G s p i Q :
  inv O dev G s -> G !! p = Some i -> pos_of i = None -> on_bus (i_place i) = false -> i_waiting i = false -> i_counted i = false ->
  (∀ e, in_transit e i = false) -> (∀ s', inv O dev (delete p G) s' -> Q tt s') -> wp (PKTFREE p) s Q.
Proof.
  intros [Hp Hdm Hk Hb Hs Hc Hf] Hi Epos Ebus Ew Ec Et HQ. destruct (Hk p i Hi) as (x & Hx & _). destruct Hp as (L & HL & HO).
  assert (s_h s !! p = Some None) as Hh by (apply (pl_free _ _ _ _ HL); by rewrite lookup_fmap, Hi, <-Epos).
  unfold PKTFREE. repeat wstep. apply HQ.
  assert (∀ f, f i = false -> count f (delete p G) = count f G) as Hcnt by (intros f E; rewrite (count_delete f G p i Hi), E; cbn; lia).
  split; cbn; try done.
  - exists L. split; [|done]. rewrite fmap_delete. apply placed_free; [done|]. by rewrite lookup_fmap, Hi, <-Epos.
  - rewrite !dom_delete_L. by rewrite Hdm.
  - intros y j [Hne Hj]%lookup_delete_Some. rewrite lookup_delete_ne by done. by apply Hk.
  - intros y. rewrite Hb. split; intros (j & Hj & ?); exists j; (split; [|done]).
    + apply lookup_delete_Some. split; [|done]. intros <-. congruence.
    + by apply lookup_delete_Some in Hj as [_ ?].
  - destruct Hc as [[H1 H2] [H3 H4] [H5 H6] H7]. split.
    + split; [done|]. intros a r Hr. eapply counts_ext; [by apply H2|]. intros b. apply Hcnt. unfold waits. by rewrite Ew.
    + split; [done|]. intros b y Hy. rewrite Hcnt; [by apply H4|]. unfold waits_ac. by rewrite Ew.
    + split; [done|]. intros a r Hr. eapply counts_ext; [by apply H6|]. intros b. apply Hcnt. unfold in_drv. by rewrite Ec.
    + intros e d Hd. rewrite Hcnt by done. by apply H7.
  - rewrite (count_delete data G p i Hi). unfold Z.b2z. destruct (data i); lia.
Qed.

(** A packet of the network, or one of the driver's own. *)
Lemma new_inv dev G s p x i :
  inv O dev G s -> s_h s !! p = None -> pkt_ok O i x -> pos_of i = None -> on_bus (i_place i) = false -> i_waiting i = false -> i_counted i = false ->
  (∀ e, in_transit e i = false) -> (data i = true -> count data G < 32767) ->
  inv O dev (<[p := i]> G) (set_p (<[p := x]> (s_p s)) (set_h (<[p := None]> (s_h s)) s)).
Proof.
  intros [Hp Hdm Hk Hb Hs Hc Hf] Hh Hok Epos Ebus Ew Ec Et Hd. destruct Hp as (L & HL & HO).
  assert (G !! p = None) as Hi.
  { apply not_elem_of_dom. rewrite <-(dom_fmap_L pos_of), <-(pl_dom _ _ _ _ HL). by apply not_elem_of_dom. }
  assert (∀ f, f i = false -> count f (<[p := i]> G) = count f G) as Hcnt by (intros f E; rewrite (count_new f G p i Hi), E; cbn; lia).
  split; cbn; try done.
  - exists L. split; [|done]. rewrite fmap_insert, Epos. by apply placed_new.
  - rewrite !dom_insert_L. by rewrite Hdm.
  - intros y j. rewrite lookup_insert_Some. intros [[<- <-]|[Hne Hj]]; [exists x; by rewrite lookup_insert_eq|].
    rewrite lookup_insert_ne by done. by apply Hk.
  - intros y. rewrite Hb. split; intros (j & Hj & ?); exists j; (split; [|done]).
    + rewrite lookup_insert_ne; [done|]. intros <-. congruence.
    + apply lookup_insert_Some in Hj as [[<- <-]|[Hne Hj]]; [congruence|done].
  - destruct Hc as [[H1 H2] [H3 H4] [H5 H6] H7]. split.
    + split; [done|]. intros a r Hr. eapply counts_ext; [by apply H2|]. intros b. apply Hcnt. unfold waits. by rewrite Ew.
    + split; [done|]. intros b y Hy. rewrite Hcnt; [by apply H4|]. unfold waits_ac. by rewrite Ew.
    + split; [done|]. intros a r Hr. eapply counts_ext; [by apply H6|]. intros b. apply Hcnt. unfold in_drv. by rewrite Ec.
    + intros e d Hd'. rewrite Hcnt by done. by apply H7.
  - rewrite (count_new data G p i Hi). unfold Z.b2z. destruct (data i); [specialize (Hd eq_refl)|]; lia.
Qed.

Definition signal_info : pinfo := mk_info SignalHand 0 0 false false [].

Lemma wp_PKTGET dev G s len Q :
  inv O dev G s -> 0 <= len ->
  (∀ s', inv O dev G s' -> Q None s') ->
  (∀ p s', inv O dev (<[p := signal_info]> G) s' -> G !! p = None ->
     s_p s' !! p = Some (mk_wpkt 0 (replicate 6 0) 0 0 None 0 false 0 (replicate (Z.to_nat len) 0)) -> Q (Some p) s') ->
  wp (PKTGET env len) s Q.
Proof.
  intros H Hlen HN HS. unfold PKTGET. apply wp_bind. eapply wp_tick; [done|]. clear s H. intros n s H. apply wp_if; intros _; [|by apply wp_ret, HN].
  repeat wstep.
  match goal with |- Q (Some ?p) ?s' => pose proof (is_fresh (dom (s_h s) ∪ dom (s_p s))) as Hfresh; set (p' := p) in * end.
  apply not_elem_of_union in Hfresh as [Hf1%not_elem_of_dom Hf2%not_elem_of_dom].
  eapply (HS p').
  - eapply (new_inv dev G s p'); try done. split; cbn; try done. unfold wf_pkt. cbn. lia.
  - apply not_elem_of_dom. rewrite <-(inv_dom _ _ _ _ H). by apply not_elem_of_dom.
  - cbn. apply lookup_insert_eq.
Qed.

(** ** Packets in hand *)

Lemma inv_place_same dev G s p i i' h' w' bus' :
  inv O dev G s -> G !! p = Some i ->
  (∃ L, placed h' (queue_of w') L (<[p := pos_of i']> (pos_of <$> G))
     ∧ ∀ e, 0 <= e < n_entries -> length (L e) = (if O e then 10 else 0)%nat ∧ length (L (n_entries + e)) = (if O e then 5 else 0)%nat) ->
  (∀ x, s_p s !! p = Some x -> pkt_ok O i x -> pkt_ok O i' x) ->
  (∀ y, y ∈ bus' <-> if decide (y = p) then on_bus (i_place i') = true else y ∈ s_bus s) ->
  shape O w' -> same_counts i i' -> counters w' = counters (s_w s) ->
  d_transit_count <$> w_destination_entries w' = d_transit_count <$> w_destination_entries (s_w s) -> data i' = data i ->
  inv O (moved_dev dev i i') (<[p := i']> G) (mk_sys w' h' (s_p s) bus' (s_tick s)).
Proof.
  intros H Hi HL Hok Hb Hs' Hc1 Hc2 Ht Hd. destruct (inv_pkt _ _ _ _ H p i Hi) as (x & Hx & Hx').
  eapply inv_place; eauto. exists x. split; [by rewrite insert_id|auto].
Qed.

(** The bus takes a packet, or not; it gives one back. *)
Lemma inv_bus_change dev G s p i i' bus' :
  inv O dev G s -> G !! p = Some i -> pos_of i = None -> pos_of i' = None ->
  (∀ x, s_p s !! p = Some x -> pkt_ok O i x -> pkt_ok O i' x) ->
  (∀ y, y ∈ bus' <-> if decide (y = p) then on_bus (i_place i') = true else y ∈ s_bus s) ->
  same_counts i i' -> data i' = data i -> inv O (moved_dev dev i i') (<[p := i']> G) (set_sbus bus' s).
Proof.
  intros H Hi E1 E2 Hok Hb Hc Hd. eapply (inv_place_same dev G s p i i'); eauto; try apply H.
  destruct (inv_places _ _ _ _ H) as (L & HL & HO). exists L. split; [|done]. rewrite insert_id; [done|]. by rewrite lookup_fmap, Hi, E2, <-E1.
Qed.

Lemma wp_txdata dev G s p i i' Q :
  inv O dev G s -> G !! p = Some i -> pos_of i = None -> pos_of i' = None -> on_bus (i_place i') = true ->
  (∀ x, s_p s !! p = Some x -> pkt_ok O i x -> pkt_ok O i' x) -> same_counts i i' -> data i' = data i ->
  (∀ s', inv O (moved_dev dev i i') (<[p := i']> G) s' -> s_p s' = s_p s -> Q BCME_OK s') ->
  (∀ rc s', rc ≠ BCME_OK -> inv O dev G s' -> s_p s' = s_p s -> Q rc s') ->
  wp (dhd_bus_txdata env p) s Q.
Proof.
  intros H Hi E1 E2 E3 Hok Hc Hd HT HF. unfold dhd_bus_txdata. apply wp_bind. exists (s_tick s). eexists. split; [done|].
  assert (inv O dev G (mk_sys (s_w s) (s_h s) (s_p s) (s_bus s) (S (s_tick s)))) as H' by by destruct H.
  apply wp_bind, wp_if; intros E; [apply bool_decide_eq_true in E; rewrite E|apply bool_decide_eq_false in E].
  - apply wp_modify, wp_ret, HT; [|done]. eapply (inv_bus_change dev G _ p i i'); eauto. intros y. cbn. rewrite elem_of_cons. case_decide; naive_solver.
  - apply wp_ret, wp_ret. by apply HF.
Qed.

Lemma wp_bus_returns dev G s p i i' Q :
  inv O dev G s -> G !! p = Some i -> pos_of i = None -> pos_of i' = None -> on_bus (i_place i') = false ->
  (∀ x, s_p s !! p = Some x -> pkt_ok O i x -> pkt_ok O i' x) -> same_counts i i' -> data i' = data i ->
  (∀ s', inv O (moved_dev dev i i') (<[p := i']> G) s' -> s_p s' = s_p s -> Q tt s') -> wp (bus_returns p) s Q.
Proof.
  intros H Hi E1 E2 E3 Hok Hc Hd HQ. apply wp_modify, HQ; [|done]. eapply (inv_bus_change dev G _ p i i'); eauto. intros y. rewrite list_elem_of_filter. case_decide as Hy; [rewrite E3|]; split; try done; by intros [? ?].
Qed.

(** ** Into the queues and out of them *)

Definition lens_ok (L : Z -> lists) : Prop :=
  ∀ e, 0 <= e < n_entries -> length (L e) = (if O e then 10 else 0)%nat ∧ length (L (n_entries + e)) = (if O e then 5 else 0)%nat.

Lemma lens_update L k n l' : lens_ok L -> lens_ok (<[k := <[n := l']> (L k)]> L).
Proof.
  intros H e He. destruct (H e He) as [H1 H2]. split.
  - destruct (decide (k = e)) as [<-|Hne]; [by rewrite upd_eq, length_insert|by rewrite upd_ne].
  - destruct (decide (k = n_entries + e)) as [->|Hne]; [by rewrite upd_eq, length_insert|by rewrite upd_ne].
Qed.

(** A packet in hand leaves room for one in every queue. *)
Lemma inv_room dev G s L p i k :
  inv O dev G s -> placed (s_h s) (queue_of (s_w s)) L (pos_of <$> G) -> G !! p = Some i -> data i = true -> pos_of i = None ->
  0 <= k < N_QUEUES -> total (L k) < 32767.
Proof.
  intros H HL Hi Hd Hp Hk. pose proof (placed_total _ _ _ _ _ HL Hk) as Ht.
  assert (Z.of_nat (size (filter (λ x, is_Some x.2) (pos_of <$> G))) <= count queued_at G) as Hc.
  { unfold count. rewrite <-!size_dom. apply inj_le, subseteq_size. intros y [z [Hz Hs]%map_lookup_filter_Some]%elem_of_dom.
    apply lookup_fmap_Some in Hz as (j & <- & Hj). apply elem_of_dom. exists j. apply map_lookup_filter_Some. split; [done|].
    unfold queued_at. cbn in *. by rewrite bool_decide_true. }
  assert (count queued_at G = count queued_at (delete p G)) as E1.
  { rewrite (count_delete _ _ _ _ Hi). unfold queued_at. rewrite Hp, bool_decide_false; [cbn; lia|]. by intros [? ?]. }
  assert (count queued_at (delete p G) <= count data (delete p G)) as E2.
  { apply count_le. intros y j _. unfold queued_at, data, pos_of. rewrite bool_decide_eq_true. intros [z Hz]. by destruct (i_place j). }
  pose proof (count_delete data G p i Hi) as E3. rewrite Hd in E3. change (Z.b2z true) with 1 in E3. pose proof (inv_few _ _ _ _ H). lia.
Qed.

Lemma pkt_ok_hand i x b e : pkt_ok O i x -> i_place i = Hand b (Some e) -> 0 <= i_ac i <= AC_COUNT ∧ valid O e.
Proof. intros H E. split; [apply (ok_range _ _ _ H); by rewrite E|]. apply (ok_valid _ _ _ H). by rewrite E. Qed.

Lemma inv_hand dev G s p i b e : inv O dev G s -> G !! p = Some i -> i_place i = Hand b (Some e) -> 0 <= i_ac i <= AC_COUNT ∧ valid O e.
Proof. intros H Hi E. destruct (inv_pkt _ _ _ _ H p i Hi) as (x & _ & Hok). by eapply pkt_ok_hand. Qed.

Lemma queue_of_psq w e d : at_ (w_destination_entries w) e = Some d -> 0 <= e < n_entries -> queue_of w e = d_psq d.
Proof. intros Hd He. unfold queue_of. by rewrite bool_decide_true, Hd by lia. Qed.

Lemma dok_psq e d pq : dok O e d -> dok O e (set_d_psq pq d).
Proof. by intros []. Qed.

(** The psq of a descriptor and the links have changed, and the place of a packet. *)
Lemma inv_psq dev G s p i i' e d L h' pq' :
  inv O dev G s -> G !! p = Some i -> at_ (w_destination_entries (s_w s)) e = Some d -> valid O e ->
  placed h' (<[e := pq']> (queue_of (s_w s))) L (<[p := pos_of i']> (pos_of <$> G)) -> lens_ok L ->
  (∀ x, pkt_ok O i x -> pkt_ok O i' x) -> on_bus (i_place i) = false -> on_bus (i_place i') = false -> same_counts i i' -> data i' = data i ->
  inv O (moved_dev dev i i') (<[p := i']> G)
    (set_w (set_w_destination_entries (<[Z.to_nat e := set_d_psq pq' d]> (w_destination_entries (s_w s))) (s_w s)) (set_h h' s)).
Proof.
  intros H Hi Hd [He HO] HL Hlen Hok Hb Hb' Hc Hdat. eapply (inv_place_same dev G s p i i'); eauto; cbn.
  - exists L. split; [|done]. eapply placed_ext; [done|]. intros k Hk. by rewrite (queue_of_desc _ _ d).
  - intros y. rewrite Hb'. case_decide as Hy; [subst y|done]. rewrite (inv_bus _ _ _ _ H). split; [|done]. intros (j & Hj & ?). congruence.
  - eapply shape_desc; [apply H|done|]. eapply dok_psq, (sh_desc _ _ (inv_shape _ _ _ _ H)); done.
  - rewrite list_fmap_insert. cbn. apply list_insert_id. apply at_Some in Hd as [_ Hd]. by rewrite list_lookup_fmap, Hd.
Qed.

(** The queue of a place at a descriptor in use. *)
Lemma lens_psq L e ac b : lens_ok L -> valid O e -> 0 <= ac <= AC_COUNT -> (Z.to_nat (if (b : bool) then PSQ_SUP_IDX ac else PSQ_DLY_IDX ac) < length (L e))%nat.
Proof.
  intros HL [He HO] Ha. destruct (HL e He) as [-> _]. rewrite HO. unfold PSQ_SUP_IDX, PSQ_DLY_IDX, AC_COUNT in *. destruct b; lia.
Qed.

Definition waiting_at (b : bool) (e : Z) : place := if b then Suppressed e else Delayed e.

Lemma pos_waiting b e i : pos_of (set_place (waiting_at b e) i) = Some (e, Z.to_nat (if b then PSQ_SUP_IDX (i_ac i) else PSQ_DLY_IDX (i_ac i))).
Proof. by destruct b. Qed.

Lemma wp_prec_enque dev G s p i e b prec qHead cs Q :
  inv O dev G s -> G !! p = Some i -> i_place i = Hand b (Some e) -> prec = (if b then PSQ_SUP_IDX (i_ac i) else PSQ_DLY_IDX (i_ac i)) ->
  (∀ s', inv O dev (<[p := set_place (waiting_at b e) i]> G) s' -> Q tt s') ->
  wp (prec_enque e prec p qHead cs) s Q.
Proof.
  intros H Hi Ei Eprec HQ. destruct (inv_hand _ _ _ _ _ _ _ H Hi Ei) as [Ha Hv]. pose proof Hv as [He HO]. destruct (inv_places _ _ _ _ H) as (L & HL & Hlen).
  pose proof (lens_psq L e (i_ac i) b Hlen Hv Ha) as Hn. rewrite <-Eprec in Hn. assert (0 <= prec) as Hp0.
  { rewrite Eprec. unfold PSQ_SUP_IDX, PSQ_DLY_IDX. destruct b; lia. }
  assert (0 <= e < N_QUEUES) as Hk by (unfold N_QUEUES; lia). assert (pos_of i = None) as Epos by (unfold pos_of; by rewrite Ei).
  destruct (desc_lookup _ _ _ _ _ H He) as (d & Hd & Hdok).
  destruct (qok_pqrep _ _ _ (pl_q _ _ _ _ HL e Hk)) as (Hr & _ & Hnum); [lia|]. rewrite (queue_of_psq _ _ _ Hd He) in Hr, Hnum.
  assert ((pos_of <$> G) !! p = Some None) as HpG by (by rewrite lookup_fmap, Hi, <-Epos).
  assert (s_h s !! p = Some None) as Hh by by apply (pl_free _ _ _ _ HL).
  assert (¬ queued (L e) p) as Hnq by (intros [m Hm]%(placed_queued _ _ _ _ _ _ HL Hk); congruence).
  pose proof (inv_room _ _ _ _ _ _ e H HL Hi ltac:(unfold data; by rewrite Ei) Epos Hk) as Hroom.
  assert (∃ h' pq' l', (if qHead then pktq_penq_head (s_h s) (d_psq d) prec p else pktq_penq (s_h s) (d_psq d) prec p) = Some (Some p, h', pq')
    ∧ pqrep h' pq' (<[Z.to_nat prec := l']> (L e)) ∧ (∀ x, x ∈ l' <-> x = p ∨ x ∈ L e !!! Z.to_nat prec) ∧ frame (p :: L e !!! Z.to_nat prec) (s_h s) h'
    ∧ touched prec (d_psq d) pq') as (h' & pq' & l' & E & Hr' & Hl' & Hf & Ht).
  { destruct qHead.
    - destruct (pktq_penq_head_spec (s_h s) (d_psq d) (L e) prec p (L e !!! Z.to_nat prec) Hr) as (h' & pq' & E & Hr' & _ & Hf); eauto; try lia.
      exists h', pq', (p :: L e !!! Z.to_nat prec). split; [done|]. split; [done|]. split; [set_solver|]. split; [|by eapply pktq_penq_head_touched].
      eapply frame_mono; [|done]. set_solver.
    - destruct (pktq_penq_spec (s_h s) (d_psq d) (L e) prec p (L e !!! Z.to_nat prec) Hr) as (h' & pq' & E & Hr' & _ & Hf); eauto; try lia.
      exists h', pq', (L e !!! Z.to_nat prec ++ [p]). split; [done|]. split; [done|]. split; [set_solver|]. split; [|by eapply pktq_penq_touched].
      eapply frame_mono; [|done]. set_solver. }
  unfold prec_enque. do 2 (apply wp_bind, wp_gets). apply wp_bind. eapply wp_getd; [done|done|]. intros d' Hd' _. assert (d' = d) as -> by congruence.
  apply wp_bind. eapply wp_lift; [by rewrite prec_enque_plain, E|]. cbv beta iota. apply wp_bind, wp_modify.
  assert (at_ (w_destination_entries (s_w (set_h h' s))) e = Some d) as Hd2 by done.
  unfold modd. repeat wstep. apply HQ. eapply inv_dev.
  - apply (inv_psq dev G s p i _ e d (<[e := <[Z.to_nat prec := l']> (L e)]> L) h' pq'); try done.
    + rewrite pos_waiting, <-Eprec. apply (placed_enq _ _ _ _ _ _ _ _ _ _ HL Hk Hn); eauto.
      rewrite Z2Nat.id by lia. by rewrite (queue_of_psq _ _ _ Hd He).
    + by apply lens_update.
    + intros x Hx. apply pkt_ok_place; rewrite ?Ei; by destruct b.
    + by rewrite Ei.
    + by destruct b.
    + unfold data. rewrite Ei. by destruct b.
  - intros e' _. unfold moved_dev, in_transit. rewrite Ei. destruct b; cbn; lia.
Qed.

(** Which packets are in a queue of a psq. *)
Lemma pos_waiting_inv i x e ac (b : bool) :
  pkt_ok O i x -> e < n_entries -> 0 <= ac -> pos_of i = Some (e, Z.to_nat (if b then PSQ_SUP_IDX ac else PSQ_DLY_IDX ac)) ->
  i_place i = waiting_at b e ∧ i_ac i = ac.
Proof.
  intros H He Ha Hp. pose proof (ok_range _ _ _ H) as Hr. pose proof (ok_valid _ _ _ H) as Hv. unfold pos_of in Hp.
  unfold PSQ_SUP_IDX, PSQ_DLY_IDX in *. destruct (i_place i) as [e'|e'|e'|e'| | |]; try done; cbn in Hr, Hv.
  - injection Hp as -> Hp. specialize (Hr eq_refl). destruct b; [lia|]. split; [done|lia].
  - injection Hp as -> Hp. specialize (Hr eq_refl). destruct b; [|lia]. split; [done|lia].
  - injection Hp as <- _. destruct (Hv e' eq_refl) as [[[? ?] _] _]. lia.
Qed.

Lemma inv_pos dev G s L p k n :
  inv O dev G s -> placed (s_h s) (queue_of (s_w s)) L (pos_of <$> G) -> 0 <= k < N_QUEUES -> p ∈ L k !!! n ->
  ∃ i x, G !! p = Some i ∧ pos_of i = Some (k, n) ∧ s_p s !! p = Some x ∧ pkt_ok O i x.
Proof.
  intros H HL Hk Hp. apply (pl_in _ _ _ _ HL) in Hp; [|done]. apply lookup_fmap_Some in Hp as (j & Ej & Hj).
  destruct (inv_pkt _ _ _ _ H p j Hj) as (x & Hx & Hok). by exists j, x.
Qed.

(** The list of descriptors that asked for packets. *)
Definition requests (w : wlfc) := (w_requested_entry w, w_requested_entry_count w).

Lemma wp_psq_deq dev G s e ac (b : bool) prec Q :
  inv O dev G s -> valid O e -> 0 <= ac <= AC_COUNT -> prec = (if b then PSQ_SUP_IDX ac else PSQ_DLY_IDX ac) ->
  (∀ s', inv O dev G s' -> requests (s_w s') = requests (s_w s) -> Q None s') ->
  (∀ p i s', G !! p = Some i -> i_place i = waiting_at b e -> i_ac i = ac ->
     inv O dev (<[p := set_place (Hand b (Some e)) i]> G) s' -> Q (Some p) s') ->
  wp (psq_deq e prec) s Q.
Proof.
  intros H Hv Ha Eprec HN HS. pose proof Hv as [He HO]. destruct (inv_places _ _ _ _ H) as (L & HL & Hlen).
  pose proof (lens_psq L e ac b Hlen Hv Ha) as Hn. rewrite <-Eprec in Hn. assert (0 <= prec) as Hp0.
  { rewrite Eprec. unfold PSQ_SUP_IDX, PSQ_DLY_IDX. destruct b; lia. }
  assert (0 <= e < N_QUEUES) as Hk by (unfold N_QUEUES; lia). destruct (desc_lookup _ _ _ _ _ H He) as (d & Hd & Hdok).
  destruct (qok_pqrep _ _ _ (pl_q _ _ _ _ HL e Hk)) as (Hr & _ & Hnum); [lia|]. rewrite (queue_of_psq _ _ _ Hd He) in Hr, Hnum.
  unfold psq_deq. apply wp_bind, wp_gets, wp_bind. eapply wp_getd; [done|done|]. intros d' Hd' _. assert (d' = d) as -> by congruence. apply wp_bind.
  destruct (L e !!! Z.to_nat prec) as [|p l] eqn:El.
  - eapply wp_lift; [eapply pktq_pdeq_nil; [done|lia|done]|]. cbv beta iota. apply wp_bind, wp_modify, wp_bind.
    replace (set_h (s_h s) s) with s by by destruct s. unfold modd. repeat wstep. apply HN; [|done]. eapply inv_desc_same; [done|done|]. by destruct d.
  - destruct (pktq_pdeq_cons (s_h s) (d_psq d) (L e) prec p l Hr) as (h' & pq' & E & Hr' & _ & Hf & Hh'); [lia|done|].
    eapply wp_lift; [exact E|]. cbv beta iota. apply wp_bind, wp_modify, wp_bind.
    assert (p ∈ L e !!! Z.to_nat prec) as Hin by (rewrite El; set_solver). destruct (inv_pos _ _ _ _ p _ _ H HL Hk Hin) as (i & x & Hi & Epos & Hx & Hok).
    assert (i_place i = waiting_at b e ∧ i_ac i = ac) as [Ei Eac] by (eapply pos_waiting_inv; [done|lia|lia|by rewrite Epos, Eprec]).
    assert (at_ (w_destination_entries (s_w (set_h h' s))) e = Some d) as Hd2 by done. unfold modd. repeat wstep. apply (HS p i); [done..|]. eapply inv_dev.
    + assert (NoDup (p :: l)) as [Hpl _]%NoDup_cons.
      { rewrite <-El. destruct (pqrep_lookup _ _ _ (Z.to_nat prec) Hr) as (qp & _ & Hq); [lia|]. eapply lseg_NoDup, (qrep_seg _ _ _ Hq). }
      apply (inv_psq dev G s p i _ e d (<[e := <[Z.to_nat prec := l]> (L e)]> L) h' pq'); try done.
      * apply (placed_deq (s_h s) h' (queue_of (s_w s)) L (pos_of <$> G) e (Z.to_nat prec) p l pq'); try done.
        -- rewrite Z2Nat.id by lia. rewrite (queue_of_psq _ _ _ Hd He). by eapply pktq_pdeq_touched.
        -- intros y. rewrite El. set_solver.
        -- eapply frame_mono; [|done]. set_solver.
      * by apply lens_update.
      * intros y Hy. apply pkt_ok_place; rewrite ?Ei; by destruct b.
      * rewrite Ei. by destruct b.
      * unfold data. rewrite Ei. by destruct b.
    + intros e' _. unfold moved_dev, in_transit. rewrite Ei. destruct b; cbn; lia.
Qed.
End Moves.

(** * Wireless flow control: rules for the queues of packets at the dongle *)

Section Afq.
Context (O : Z -> bool) (cfg : dhd_cfg) (env : wenv).

Lemma queue_of_afq w e pq : get_afq (w_afqs w) e = Some pq -> 0 <= e -> queue_of w (n_entries + e) = pq.
Proof.
  intros Hg He. unfold queue_of. rewrite bool_decide_false by lia. replace (n_entries + e - n_entries) with e by lia. by rewrite Hg.
Qed.

Lemma afq_lookup w e : shape O w -> 0 <= e < n_entries -> ∃ pq, get_afq (w_afqs w) e = Some pq.
Proof.
  intros H He. pose proof (sh_nodes _ _ H) as Hn. pose proof (sh_ifs _ _ H) as Hi. unfold get_afq, n_entries, WLFC_MAC_DESC_TABLE_SIZE, WLFC_MAX_IFNUM in *.
  case_bool_decide; [apply at_is_Some; lia|]. case_bool_decide; [apply at_is_Some; lia|eauto].
Qed.

Lemma entry_of_id e : 0 <= e < n_entries -> entry_of e = e.
Proof. unfold entry_of. lia. Qed.

(** The afq of an entry and the links have changed, and the place of a packet. *)
Lemma inv_afq dev G s p i i' e L h' a' pq' :
  inv O dev G s -> G !! p = Some i -> 0 <= e < n_entries ->
  (∀ e', 0 <= e' -> get_afq a' e' = if bool_decide (entry_of e' = entry_of e) then Some pq' else get_afq (w_afqs (s_w s)) e') ->
  length (af_nodes a') = length (af_nodes (w_afqs (s_w s))) -> length (af_interfaces a') = length (af_interfaces (w_afqs (s_w s))) ->
  length (ooo_pkts a') = length (ooo_pkts (w_afqs (s_w s))) ->
  placed h' (<[n_entries + e := pq']> (queue_of (s_w s))) L (<[p := pos_of i']> (pos_of <$> G)) -> lens_ok O L ->
  (∀ x, pkt_ok O i x -> pkt_ok O i' x) -> on_bus (i_place i) = false -> on_bus (i_place i') = false -> same_counts i i' -> data i' = data i ->
  inv O (moved_dev dev i i') (<[p := i']> G) (set_w (set_w_afqs a' (s_w s)) (set_h h' s)).
Proof.
  intros H Hi He Ha L1 L2 L3 HL Hlen Hok Hb Hb' Hc Hdat. eapply (inv_place_same O dev G s p i i'); eauto; cbn.
  - exists L. split; [|done]. eapply placed_ext; [done|]. intros k [Hk0 Hk]. unfold queue_of. cbn. unfold N_QUEUES in Hk.
    destruct (decide (k = n_entries + e)) as [->|Hne].
    + rewrite upd_eq, bool_decide_false by lia. replace (n_entries + e - n_entries) with e by lia. by rewrite Ha, bool_decide_true by lia.
    + rewrite upd_ne by done. case_bool_decide; [done|]. rewrite Ha by lia. rewrite !entry_of_id by lia. by rewrite bool_decide_false by lia.
  - intros y. rewrite Hb'. case_decide as Hy; [subst y|done]. rewrite (inv_bus _ _ _ _ H). split; [|done]. intros (j & Hj & ?). congruence.
  - destruct (inv_shape _ _ _ _ H). split; try done; cbn; congruence.
Qed.

Lemma lens_afq L e ac : lens_ok O L -> valid O e -> 0 <= ac <= AC_COUNT -> (Z.to_nat ac < length (L (n_entries + e)%Z))%nat.
Proof. intros HL [He HO] Ha. destruct (HL e He) as [_ ->]. rewrite HO. unfold AC_COUNT in *. lia. Qed.

Lemma wp_enque_afq dev G s p i e Q :
  inv O dev G s -> G !! p = Some i -> i_place i = Hand true (Some e) ->
  (∀ s', inv O (moved_dev dev i (set_place (AtDongle e) i)) (<[p := set_place (AtDongle e) i]> G) s' -> Q BCME_OK s') ->
  wp (enque_afq p) s Q.
Proof.
  intros H Hi Ei HQ. destruct (inv_hand _ _ _ _ _ _ _ _ H Hi Ei) as [Ha Hv]. pose proof Hv as [He HO]. destruct (inv_places _ _ _ _ H) as (L & HL & Hlen).
  destruct (inv_pkt _ _ _ _ H p i Hi) as (x & Hx & Hok). assert (WL_TXSTATUS_GET_HSLOT (htod_tag x) = e) as Hslot.
  { apply (ok_valid _ _ _ Hok); by rewrite Ei. }
  pose proof (inv_shape _ _ _ _ H) as Hs. destruct (afq_lookup _ _ Hs He) as [pq Hpq]. assert (pos_of i = None) as Epos by (unfold pos_of; by rewrite Ei).
  assert (0 <= n_entries + e < N_QUEUES) as Hk by (unfold N_QUEUES; lia).
  pose proof (lens_afq L e (i_ac i) Hlen Hv Ha) as Hn. unfold AC_COUNT in Ha.
  destruct (qok_pqrep _ _ _ (pl_q _ _ _ _ HL _ Hk)) as (Hr & _ & Hnum); [lia|]. rewrite (queue_of_afq _ _ _ Hpq) in Hr, Hnum by lia.
  assert ((pos_of <$> G) !! p = Some None) as HpG by (by rewrite lookup_fmap, Hi, <-Epos).
  pose proof (inv_room _ _ _ _ _ _ _ _ H HL Hi ltac:(unfold data; by rewrite Ei) Epos Hk) as Hroom.
  destruct (pktq_penq_spec (s_h s) pq (L (n_entries + e)) (i_ac i) p (L (n_entries + e) !!! Z.to_nat (i_ac i)) Hr) as (h' & pq' & E & Hr' & _ & Hf);
    [lia|done| |by apply (pl_free _ _ _ _ HL)|lia|].
  { intros [m Hm]%(placed_queued _ _ _ _ _ _ HL Hk). congruence. }
  destruct (put_afq_lens (w_afqs (s_w s)) e pq' (sh_nodes _ _ Hs) (sh_ifs _ _ Hs)) as (a' & Ea & Hga & L1 & L2 & L3); [lia|].
  unfold enque_afq. do 2 (apply wp_bind, wp_gets). apply wp_bind, wp_getw, wp_bind. eapply wp_getp; [done|done|]. intros x' Hx' _.
  assert (x' = x) as -> by congruence. apply wp_bind. eapply wp_lift.
  { unfold _dhd_wlfc_enque_afq, h2dtags. rewrite Hx. cbn [fmap option_fmap option_map default]. unfold default, id. rewrite Hslot, Hpq. cbn [mbind option_bind].
    rewrite (ok_ac _ _ _ Hok), E. cbn [mbind option_bind]. rewrite Ea. done. }
  cbv beta iota. repeat wstep. apply HQ.
  apply (inv_afq dev G s p i _ e (<[n_entries + e := <[Z.to_nat (i_ac i) := L (n_entries + e) !!! Z.to_nat (i_ac i) ++ [p]]> (L (n_entries + e))]> L) h' a' pq');
    try done; rewrite ?L1, ?L2, ?L3; try done.
  - apply (placed_enq (s_h s) h' (queue_of (s_w s)) L (pos_of <$> G) (n_entries + e) (Z.to_nat (i_ac i)) p _ pq' HL Hk Hn); try done.
    + rewrite Z2Nat.id by lia. rewrite (queue_of_afq _ _ _ Hpq) by lia. by eapply pktq_penq_touched.
    + set_solver.
    + eapply frame_mono; [|done]. set_solver.
  - by apply lens_update.
  - intros y Hy. apply pkt_ok_place; rewrite ?Ei; done.
  - by rewrite Ei.
  - unfold data. by rewrite Ei.
Qed.

Lemma pos_dongle_inv i x e n : pkt_ok O i x -> 0 <= e -> pos_of i = Some (n_entries + e, n) -> i_place i = AtDongle e ∧ n = Z.to_nat (i_ac i) ∧ 0 <= i_ac i <= AC_COUNT.
Proof.
  intros H He Hp. pose proof (ok_range _ _ _ H) as Hr. pose proof (ok_valid _ _ _ H) as Hv. unfold pos_of in Hp.
  destruct (i_place i) as [e'|e'|e'|e'| | |]; try done; cbn in Hr, Hv.
  - injection Hp as -> _. destruct (Hv _ eq_refl) as [[[? ?] _] _]. lia.
  - injection Hp as -> _. destruct (Hv _ eq_refl) as [[[? ?] _] _]. lia.
  - injection Hp as Hp1 Hp2. split; [f_equal; lia|]. split; [done|auto].
Qed.

Lemma take_in (fn : pkt -> bool) (l : list pkt) x l' : take_match fn l = Some (x, l') -> NoDup l -> x ∈ l ∧ ∀ y, y ∈ l' <-> y ≠ x ∧ y ∈ l.
Proof.
  intros (l1 & l2 & -> & -> & _)%take_match_Some (H1 & H2 & [H3 H4]%NoDup_cons)%NoDup_app. split; [set_solver|]. intros y.
  rewrite !elem_of_app, elem_of_cons. split; [|naive_solver]. intros [Hy|Hy]; (split; [intros ->|]); try tauto.
  apply (H2 x Hy). set_solver.
Qed.

Lemma pqrep_NoDup h pq ls n : pqrep h pq ls -> (n < length ls)%nat -> NoDup (ls !!! n).
Proof. intros Hr Hn. destruct (pqrep_lookup _ _ _ n Hr Hn) as (qp & _ & Hq). eapply lseg_NoDup, (qrep_seg _ _ _ Hq). Qed.

(** A counter is looked for in any queue of the array. *)
Lemma counter_taken tags h Q L pos k pq prec hcnt :
  placed h Q L pos -> 0 <= k < N_QUEUES -> Q k = pq -> 0 <= prec < 16 ->
  deque_counter tags h pq prec hcnt = Some (None, false, h, pq)
  ∨ ∃ p o h' pq' l', deque_counter tags h pq prec hcnt = Some (Some p, o, h', pq') ∧ p ∈ L k !!! Z.to_nat prec ∧ (Z.to_nat prec < length (L k))%nat
      ∧ placed h' (<[k := pq']> Q) (<[k := <[Z.to_nat prec := l']> (L k)]> L) (<[p := None]> pos).
Proof.
  intros H Hk <- Hp. pose proof (pl_q _ _ _ _ H k Hk) as Hq. destruct (decide (prec < Z.of_nat (length (L k)))) as [Hlt|Hge];
    [|left; eapply deque_counter_outside; [done|lia]].
  destruct (qok_pqrep _ _ _ Hq) as (Hr & _ & Hnum); [lia|]. destruct (take_match (has_counter tags hcnt) (L k !!! Z.to_nat prec)) as [[p l']|] eqn:E.
  - right. destruct (deque_counter_some tags (λ _, 0) h (Q k) (L k) prec hcnt p l' Hr ltac:(lia) E) as (h' & pq' & Ed & Hr' & _ & Hf & Hh').
    destruct (take_in _ _ _ _ E) as [Hin Hl']; [apply (pqrep_NoDup _ _ _ _ Hr); lia|]. eexists p, _, h', pq', l'. split; [exact Ed|]. split; [done|].
    split; [lia|]. apply (placed_deq h h' Q L pos k (Z.to_nat prec) p l' pq' H Hk); try done; [lia|].
    rewrite Z2Nat.id by lia. by eapply deque_counter_touched.
  - left. eapply deque_counter_none; [done|lia|done].
Qed.

Lemma wp_deque_afq dev G s hslot hcnt prec Q :
  inv O dev G s -> 0 <= hslot -> 0 <= prec < 8 ->
  (∀ rc s', inv O dev G s' -> Q (rc, None) s') ->
  (∀ p i s', G !! p = Some i -> i_place i = AtDongle (entry_of hslot) -> 0 <= i_ac i <= AC_COUNT ->
     inv O (moved_dev dev i (set_place (Hand true (Some (entry_of hslot))) i)) (<[p := set_place (Hand true (Some (entry_of hslot))) i]> G) s' ->
     Q (BCME_OK, Some p) s') ->
  wp (deque_afq hslot hcnt prec) s Q.
Proof.
  intros H Hh Hp HN HS. set (e := entry_of hslot) in *. pose proof (entry_of_range hslot Hh) as He. fold e in He.
  destruct (inv_places _ _ _ _ H) as (L & HL & Hlen). pose proof (inv_shape _ _ _ _ H) as Hs. destruct (afq_lookup _ _ Hs He) as [pq Hpq].
  assert (0 <= n_entries + e < N_QUEUES) as Hk by (unfold N_QUEUES; lia).
  unfold deque_afq. do 2 (apply wp_bind, wp_gets). apply wp_bind, wp_getw, wp_bind. unfold _dhd_wlfc_deque_afq. rewrite get_afq_entry. fold e. rewrite Hpq.
  cbn [mbind option_bind].
  destruct (counter_taken (h2dtags (s_p s)) _ _ _ _ _ pq prec hcnt HL Hk) as [->|(p & o & h' & pq' & l' & -> & Hin & Hlt & HL')];
    [by apply queue_of_afq; [|lia]|lia| |]; cbn [mbind option_bind].
  - eapply wp_lift; [done|]. cbv beta iota. apply wp_bind. eapply wp_lift; [done|]. repeat wstep. apply HN.
    assert (set_w (set_w_afqs (w_afqs (s_w (set_h (s_h s) s))) (s_w (set_h (s_h s) s))) (set_h (s_h s) s) = s) as E by (destruct s as [[] ? ? ? ?]; done).
    cbn in E |- *. by rewrite E.
  - destruct (inv_pos _ _ _ _ _ p _ _ H HL Hk Hin) as (i & x & Hi & Epos & Hx & Hok). destruct (pos_dongle_inv i x e (Z.to_nat prec) Hok) as (Ei & Eac & Ha); [lia|done|].
    assert (∃ a1, (if o then count_ooo (w_afqs (s_w s)) prec else Some (w_afqs (s_w s))) = Some a1 ∧ af_nodes a1 = af_nodes (w_afqs (s_w s))
      ∧ af_interfaces a1 = af_interfaces (w_afqs (s_w s)) ∧ af_other a1 = af_other (w_afqs (s_w s)) ∧ length (ooo_pkts a1) = length (ooo_pkts (w_afqs (s_w s))))
      as (a1 & -> & F1 & F2 & F3 & F4).
    { destruct o; [|eauto 6]. unfold count_ooo. destruct (at_is_Some (ooo_pkts (w_afqs (s_w s))) prec) as [y Hy]; [rewrite (sh_ooo _ _ Hs); unfold AC_COUNT in Ha; lia|].
      rewrite Hy. cbn [mbind option_bind]. rewrite (put_Some _ _ _ _ Hy). eexists. split; [done|]. cbn. by rewrite length_insert. }
    cbn [mbind option_bind]. destruct (put_afq_lens a1 hslot pq') as (a' & Ea & Hga & L1 & L2 & L3); [rewrite F1; apply Hs|rewrite F2; apply Hs|done|].
    rewrite Ea. cbn [mbind option_bind]. eapply wp_lift; [done|]. cbv beta iota. apply wp_bind. eapply wp_lift; [done|]. repeat wstep. apply (HS p i); [done..|].
    apply (inv_afq dev G s p i _ e (<[n_entries + e := <[Z.to_nat prec := l']> (L (n_entries + e))]> L) h' a' pq'); rewrite ?L1, ?L2, ?L3; try congruence; try done.
    + intros e' He'. rewrite Hga by done. rewrite (entry_of_id e) by done. fold e. case_bool_decide; [done|]. unfold get_afq. by rewrite F1, F2, F3.
    + by apply lens_update.
    + intros y Hy. apply pkt_ok_place; rewrite ?Ei; done.
    + by rewrite Ei.
    + unfold data. by rewrite Ei.
Qed.

(** The suppressed packet with a counter. *)
Lemma suppressed_taken dev G s e d prec hcnt :
  inv O dev G s -> 0 <= e < n_entries -> at_ (w_destination_entries (s_w s)) e = Some d -> 0 <= prec < 8 ->
  deque_counter (h2dtags (s_p s)) (s_h s) (d_psq d) (PSQ_SUP_IDX prec) hcnt = Some (None, false, s_h s, d_psq d)
  ∨ ∃ p i o h' pq', deque_counter (h2dtags (s_p s)) (s_h s) (d_psq d) (PSQ_SUP_IDX prec) hcnt = Some (Some p, o, h', pq')
      ∧ G !! p = Some i ∧ i_place i = Suppressed e ∧ i_ac i = prec ∧ valid O e ∧ 0 <= prec <= AC_COUNT
      ∧ inv O dev (<[p := set_place (Hand true (Some e)) i]> G)
          (set_w (set_w_destination_entries (<[Z.to_nat e := set_d_psq pq' d]> (w_destination_entries (s_w s))) (s_w s)) (set_h h' s)).
Proof.
  intros H He Hd Hp. destruct (inv_places _ _ _ _ H) as (L & HL & Hlen). assert (0 <= e < N_QUEUES) as Hk by (unfold N_QUEUES; lia).
  unfold PSQ_SUP_IDX. destruct (counter_taken (h2dtags (s_p s)) _ _ _ _ _ (d_psq d) (prec * 2 + 1) hcnt HL Hk)
    as [->|(p & o & h' & pq' & l' & -> & Hin & Hlt & HL')]; [by apply queue_of_psq|lia|by left|right].
  destruct (inv_pos _ _ _ _ _ p _ _ H HL Hk Hin) as (i & x & Hi & Epos & Hx & Hok).
  destruct (pos_waiting_inv _ i x e prec true Hok) as [Ei Eac]; [lia|lia|done|]. pose proof (ok_valid _ _ _ Hok e) as Hv. rewrite Ei in Hv.
  destruct (Hv eq_refl) as [Hve _]. pose proof (ok_range _ _ _ Hok) as Hr. rewrite Ei in Hr. specialize (Hr eq_refl). rewrite Eac in Hr.
  exists p, i, o, h', pq'. split_and!; try done; [apply Hr..|]. eapply inv_dev.
  - apply (inv_psq O dev G s p i _ e d (<[e := <[Z.to_nat (prec * 2 + 1) := l']> (L e)]> L) h' pq'); try done.
    + by apply lens_update.
    + intros y Hy. apply pkt_ok_place; rewrite ?Ei; done.
    + by rewrite Ei.
    + unfold data. by rewrite Ei.
  - intros e' _. unfold moved_dev, in_transit. rewrite Ei. cbn. lia.
Qed.
End Afq.
