(* ===== verification/WlfcSendTheorems.v ===== *)
(** * Wireless flow control: the routines of sending keep the invariant *)

From stdpp Require Import functions.
From S2P Require Import Prelude Pktq PktqSpec PktqRefine FlowQueue FlowData WlfcTag WlfcCredit WlfcQueue WlfcHeader.
From S2P Require Import WlfcHeaderTheorems WlfcState WlfcSend WlfcTransfer WlfcEvents WlfcQueueTheorems WlfcInv WlfcMoves.

(** ** Packets of the driver's own come *)

Definition signal_sent : pinfo := set_place SignalOnBus signal_info.

Inductive grows (G : packets) : packets -> Prop :=
| grows_refl : grows G G
| grows_new G' p : grows G G' -> G' !! p = None -> grows G (<[p := signal_sent]> G').

Lemma grows_trans G1 G2 G3 : grows G1 G2 -> grows G2 G3 -> grows G1 G3.
Proof. intros H. induction 1; [done|]. by constructor. Qed.

Lemma grows_lookup G G' p i : grows G G' -> G !! p = Some i -> G' !! p = Some i.
Proof. induction 1 as [|G' q Hg IH Hq]; [done|]. intros Hp. rewrite lookup_insert_ne; [by apply IH|]. intros ->. specialize (IH Hp). congruence. Qed.

Lemma grows_inv G G' p i : grows G G' -> G' !! p = Some i -> G !! p = Some i ∨ i = signal_sent.
Proof.
  induction 1 as [|G' q Hg IH Hq]; [by left|]. rewrite lookup_insert_Some. intros [[_ <-]|[_ Hp]]; [by right|auto].
Qed.

Lemma grows_insert G G' p i j : grows G G' -> G !! p = Some i -> grows (<[p := j]> G) (<[p := j]> G').
Proof.
  intros H Hp. induction H as [|G' q Hg IH Hq]; [constructor|]. assert (p ≠ q) as Hne by (intros ->; pose proof (grows_lookup _ _ _ _ Hg Hp); congruence).
  rewrite insert_insert_ne by done. constructor; [done|]. by rewrite lookup_insert_ne.
Qed.

Lemma grows_count f G G' : grows G G' -> f signal_sent = false -> count f G' = count f G.
Proof. intros H Hf. induction H as [|G' q Hg IH Hq]; [done|]. rewrite count_new by done. rewrite Hf, IH. cbn. lia. Qed.

(** ** Steps that the invariant does not see *)

(** A part of a program that the invariant does not see. *)
Lemma wp_then {A B} O dev G (m : M A) (k : A -> M B) s (Q : B -> sys -> Prop) :
  wp m s (λ _ s', inv O dev G s') -> (∀ a s', inv O dev G s' -> wp (k a) s' Q) -> wp (x ← m; k x) s Q.
Proof. intros Hm Hk. apply wp_bind. eapply wp_mono; [exact Hm|]. auto. Qed.

Ltac wthen := lazymatch goal with H : inv ?O ?dev ?G ?s |- wp (mbind _ _) ?s _ => apply (wp_then O dev G) end.

(** A number of a descriptor is in range. *)
Ltac in_range :=
  lazymatch goal with
  | Hv : valid _ ?e |- 0 <= ?e < n_entries => exact (proj1 Hv)
  | |- _ => unfold interfaces, other, n_entries, WLFC_MAC_DESC_TABLE_SIZE, WLFC_MAX_IFNUM in *; lia
  end.

Ltac wauto1 :=
  lazymatch goal with
  | |- wp (mbind _ _) _ _ => apply wp_bind
  | |- wp (mret _) _ _ => apply wp_ret
  | |- wp (getw _) _ _ => apply wp_getw
  | |- wp (gets _) _ _ => apply wp_gets
  | H : inv _ _ _ ?s |- wp (getd _ _) ?s _ => eapply (wp_getd _ _ _ _ _ _ _ H); [in_range|let d := fresh "d" in let W1 := fresh "W" in let W2 := fresh "W" in intros d W1 W2]
  | H : inv _ _ _ ?s |- wp (modd _ _) ?s _ => eapply (wp_modd _ _ _ _ _ _ _ H); [in_range|by intros|let s' := fresh "s" in let W := fresh "W" in intros s' W]
  | H : inv _ _ _ ?s |- wp (modw _) ?s _ => eapply (wp_modw _ _ _ _ _ _ H); [done|let s' := fresh "s" in let W := fresh "W" in intros s' W]
  | H : inv _ _ _ ?s |- wp tick ?s _ => let n := fresh "n" in let s' := fresh "s" in let W := fresh "W" in eapply (wp_tick _ _ _ _ _ H); intros n s' W
  | |- wp (if _ then _ else _) _ _ => let W := fresh "W" in apply wp_if; intros W
  end; cbv beta.
Ltac wauto := repeat wauto1.

Section Send.
Context (O : Z -> bool) (cfg : dhd_cfg) (env : wenv).
Context (Hother : valid O other) (Hhdr : 0 <= dhd_hdrlen cfg).

Lemma wp_pkt_if dev G s p i Q : inv O dev G s -> G !! p = Some i -> Q (i_if i) s -> wp (pkt_if p) s Q.
Proof. intros H Hi HQ. eapply wp_getp; [done|done|]. intros x _ Hok. by rewrite (ok_if _ _ _ Hok). Qed.

Lemma wp_pkt_fifo dev G s p i Q : inv O dev G s -> G !! p = Some i -> Q (i_ac i) s -> wp (pkt_fifo p) s Q.
Proof. intros H Hi HQ. eapply wp_getp; [done|done|]. intros x _ Hok. by rewrite (ok_ac _ _ _ Hok). Qed.

Lemma inv_getq dev G s e d n : inv O dev G s -> 0 <= e < n_entries -> at_ (w_destination_entries (s_w s)) e = Some d -> 0 <= n < 16 -> ∃ qp, getq (d_psq d) n = Some qp.
Proof.
  intros H He Hd Hn. destruct (inv_places _ _ _ _ H) as (L & HL & _). pose proof (pl_q _ _ _ _ HL e ltac:(unfold N_QUEUES; lia)) as Hq.
  rewrite (queue_of_psq _ _ _ Hd He) in Hq. unfold getq. rewrite bool_decide_true by lia. apply lookup_lt_is_Some_2. rewrite (qok_len _ _ _ Hq).
  unfold PKTQ_MAX_PREC. lia.
Qed.

Lemma wp_psq_len dev G s e n Q : inv O dev G s -> 0 <= e < n_entries -> 0 <= n < 16 -> (∀ k, Q k s) -> wp (psq_len e n) s Q.
Proof.
  intros H He Hn HQ. unfold psq_len. apply wp_bind. eapply wp_getd; [done|done|]. intros d Hd _.
  destruct (inv_getq _ _ _ _ _ _ H He Hd Hn) as [qp Hqp]. apply wp_bind. eapply wp_lift; [done|]. by apply wp_ret.
Qed.

Lemma wp_SEQCOUNT dev G s e n Q : inv O dev G s -> 0 <= e < n_entries -> 0 <= n <= AC_COUNT -> (∀ x, Q x s) -> wp (WLFC_SEQCOUNT e n) s Q.
Proof.
  intros H He Hn HQ. unfold WLFC_SEQCOUNT. apply wp_bind. eapply wp_getd; [done|done|]. intros d _ Hok.
  destruct (at_is_Some (d_seq d) n) as [x Hx]; [rewrite (dok_seq _ _ _ Hok); unfold AC_COUNT in Hn; lia|]. by eapply wp_lift.
Qed.

Lemma wp_put_seq dev G s e n x Q : inv O dev G s -> 0 <= e < n_entries -> 0 <= n <= AC_COUNT -> (∀ s', inv O dev G s' -> Q tt s') -> wp (put_seq e n x) s Q.
Proof.
  intros H He Hn HQ. unfold put_seq. apply wp_bind. eapply wp_getd; [done|done|]. intros d Hd Hok.
  destruct (at_is_Some (d_seq d) n) as [y Hy]; [rewrite (dok_seq _ _ _ Hok); unfold AC_COUNT in Hn; lia|].
  apply wp_bind. eapply wp_lift; [by eapply put_Some|]. eapply wp_modd; [done|done| |done].
  intros d0 Hok0. unfold drelevant. cbn. by rewrite length_insert, (dok_seq _ _ _ Hok), (dok_seq _ _ _ Hok0).
Qed.

Lemma wp_INCR dev G s e n Q : inv O dev G s -> 0 <= e < n_entries -> 0 <= n <= AC_COUNT -> (∀ s', inv O dev G s' -> Q tt s') -> wp (WLFC_INCR_SEQCOUNT e n) s Q.
Proof. intros. unfold WLFC_INCR_SEQCOUNT. apply wp_bind. eapply wp_SEQCOUNT; [done..|]. intros. by eapply wp_put_seq. Qed.
Lemma wp_DECR dev G s e n Q : inv O dev G s -> 0 <= e < n_entries -> 0 <= n <= AC_COUNT -> (∀ s', inv O dev G s' -> Q tt s') -> wp (WLFC_DECR_SEQCOUNT e n) s Q.
Proof. intros. unfold WLFC_DECR_SEQCOUNT. apply wp_bind. eapply wp_SEQCOUNT; [done..|]. intros. by eapply wp_put_seq. Qed.

(** ** Finding the descriptor *)

Lemma find_node_spec l ifid dstn i e : find_node l ifid dstn i = Some e -> ∃ d, l !! Z.to_nat (e - i) = Some d ∧ i <= e ∧ d_occupied d = true.
Proof.
  revert i. induction l as [|d l IH]; intros i; [done|]. cbn [find_node]. destruct (d_occupied d && _ && _) eqn:E.
  - intros [= <-]. exists d. rewrite Z.sub_diag. split; [done|]. split; [lia|]. by apply andb_true_iff in E as [[? _]%andb_true_iff _].
  - intros (d' & Hd & Hi & Ho)%IH. exists d'. split; [|split; [lia|done]]. replace (Z.to_nat (e - i)) with (S (Z.to_nat (e - (i + 1)))) by lia. done.
Qed.

Lemma wp_find_known dev G s p i e Q :
  inv O dev G s -> G !! p = Some i -> entry_at (i_place i) = Some e -> Q e s -> wp (_dhd_wlfc_find_table_entry p) s Q.
Proof.
  intros H Hi Ei HQ. pose proof (inv_if _ _ _ _ _ _ H Hi) as Hif. unfold _dhd_wlfc_find_table_entry. apply wp_bind. eapply wp_getp; [done|done|].
  intros x Hx Hok. unfold id. rewrite (ok_if _ _ _ Hok). cbv zeta. wauto. rewrite (ok_entry _ _ _ Hok) by (by destruct (i_place i)). rewrite Ei. by apply wp_ret.
Qed.

Lemma find_node_valid dev G s ifid dstn e :
  inv O dev G s -> find_node (take (Z.to_nat WLFC_MAC_DESC_TABLE_SIZE) (w_destination_entries (s_w s))) ifid dstn 0 = Some e -> valid O e.
Proof.
  intros H (d & Hd & He & Ho)%find_node_spec. rewrite Z.sub_0_r in Hd. apply lookup_take_Some in Hd as [Hd Hlt].
  assert (at_ (w_destination_entries (s_w s)) e = Some d) as Hat by by apply at_Some. pose proof (sh_desc _ _ (inv_shape _ _ _ _ H) _ _ Hat) as Hok.
  split; [|by rewrite <-(dok_occupied _ _ _ Hok)]. pose proof (at_range _ _ _ Hat) as Hr. by rewrite (sh_entries _ _ (inv_shape _ _ _ _ H)) in Hr.
Qed.

Lemma wp_set_entry dev G s p i e Q :
  inv O dev G s -> G !! p = Some i -> i_place i = Hand false None -> valid O e ->
  (∀ s', inv O dev (<[p := set_place (Hand false (Some e)) i]> G) s' -> Q e s') -> wp (_ ← modp p (DHD_PKTTAG_SET_ENTRY e); mret e) s Q.
Proof.
  intros H Hi Ei Hv HQ. apply wp_bind. unfold modp. apply wp_bind. eapply wp_getp; [done|done|]. intros x Hx Hok. unfold id.
  eapply (wp_setp O dev G s p i (set_place (Hand false (Some e)) i)); try done.
  - destruct Hok as [? ? O3 O4 ? O6 ? ?]. rewrite Ei in *. split; cbn; try done; [intros _; by apply O3|intros _; by apply O6|by intros _ [= <-]].
  - unfold pos_of. by rewrite Ei.
  - by rewrite Ei.
  - unfold data. by rewrite Ei.
  - intros e'. unfold in_transit. by rewrite Ei.
  - intros s' H' _. by apply wp_ret, HQ.
Qed.

Lemma wp_find_new dev G s p i Q :
  inv O dev G s -> G !! p = Some i -> i_place i = Hand false None ->
  (∀ e s', valid O e -> inv O dev (<[p := set_place (Hand false (Some e)) i]> G) s' -> Q e s') -> wp (_dhd_wlfc_find_table_entry p) s Q.
Proof.
  intros H Hi Ei HQ. pose proof (inv_if _ _ _ _ _ _ H Hi) as Hif. unfold _dhd_wlfc_find_table_entry. apply wp_bind. eapply wp_getp; [done|done|].
  intros x Hx Hok. unfold id. rewrite (ok_if _ _ _ Hok). cbv zeta. wauto1; wauto1. rewrite (ok_entry _ _ _ Hok) by (by rewrite Ei). rewrite Ei.
  cbn [entry_at]. apply wp_bind. eapply wp_getd; [done|in_range|]. intros d1 _ Hd1. cbv beta.
  match goal with |- context [bool_decide (is_Some ?o)] => set (entry := o) in * end.
  assert (∀ e, entry = Some e -> valid O e) as Hentry.
  { subst entry. intros e. destruct (_ && d_occupied d1) eqn:Eo; [|done]. intros [= <-]. apply andb_true_iff in Eo as [_ Eo].
    split; [in_range|]. by rewrite <-(dok_occupied _ _ _ Hd1). }
  assert (∀ o, (∀ e, o = Some e -> valid O e) -> wp (_ ← modp p (DHD_PKTTAG_SET_ENTRY (default other o)); mret (default other o)) s Q) as Hend.
  { intros o Ho. eapply wp_set_entry; [done|done|done| |]; [|intros s' H'; apply HQ; [|done]]; destruct o; auto. }
  apply wp_bind, wp_if; intros _; [by apply wp_ret, Hend|]. wauto. destruct (find_node _ _ _ _) as [e|] eqn:En; apply wp_ret; [|by apply Hend].
  apply (Hend (Some e)). intros ? [= <-]. by eapply find_node_valid.
Qed.

(** ** Flow control of the network *)

Lemma wp_cnt2 {A B} dev G s (f : wlfc -> list (list A)) (g : list A -> M B) i Q n m :
  inv O dev G s -> 0 <= i < Z.of_nat n -> length (f (s_w s)) = n ->
  (∀ r, at_ (f (s_w s)) i = Some r -> length r = m -> wp (g r) s Q) -> (∀ i r, at_ (f (s_w s)) i = Some r -> length r = m) -> wp (r ← cnt f i; g r) s Q.
Proof. intros H Hi Hn HQ Hm. apply wp_bind. eapply wp_cnt; [lia|]. intros r Hr. apply HQ; [done|by eapply Hm]. Qed.

Lemma wp_allow_fc dev G s ifid Q :
  inv O dev G s -> 0 <= ifid < 16 -> (∀ b s', inv O dev G s' -> Q b s') -> wp (_dhd_wlfc_allow_fc env ifid) s Q.
Proof.
  intros H Hi HQ. pose proof (inv_counted _ _ _ _ H) as Hc. unfold _dhd_wlfc_allow_fc. apply wp_bind.
  eapply wp_cnt; [rewrite (proj1 (ct_in_drv _ _ _ Hc)); lia|]. intros r Hr. destruct (proj2 (ct_in_drv _ _ _ Hc) _ _ Hr) as [Hl _]. apply wp_bind.
  do 5 (destruct r as [|? r]; [done|]). destruct r; [|done]. match goal with |- wp (lift ?o) _ _ => destruct o as [t|] eqn:E end.
  - eapply wp_lift; [done|]. wauto; by apply HQ.
  - exfalso. revert E. unfold AC_COUNT. vm_compute (seqZ _ _). cbn. done.
Qed.

Lemma wp_set_flow dev G s i b Q : inv O dev G s -> 0 <= i < 16 -> (∀ s', inv O dev G s' -> Q tt s') -> wp (set_flow_state i b) s Q.
Proof.
  intros H Hi HQ. unfold set_flow_state. wauto. pose proof (sh_flow _ _ (inv_shape _ _ _ _ H)) as Hl.
  destruct (at_is_Some (w_hostif_flow_state (s_w s)) i) as [x Hx]; [lia|]. eapply wp_lift; [by eapply put_Some|].
  eapply wp_modw; [done| |done]. unfold relevant. cbn. by rewrite length_insert.
Qed.

Lemma wp_flow_check dev G s pq i Q :
  inv O dev G s -> 0 <= i -> (∀ s', inv O dev G s' -> Q tt s') -> wp (_dhd_wlfc_flow_control_check env pq i) s Q.
Proof.
  intros H Hi HQ. unfold _dhd_wlfc_flow_control_check. destruct (bool_decide (i >= WLFC_MAX_IFNUM)) eqn:Ei; [by apply wp_ret, HQ|].
  apply bool_decide_eq_false in Ei. unfold WLFC_MAX_IFNUM in Ei. wauto; [by apply HQ|].
  match goal with H : inv _ _ _ ?s |- wp (cnt _ _) ?s _ => pose proof (sh_flow _ _ (inv_shape _ _ _ _ H)) as Hl end.
  eapply wp_cnt; [lia|]. intros on _.
  wthen; [destruct on; [by apply wp_ret|by eapply wp_allow_fc; [done|lia|]]|]. intros b s2 H2. apply wp_if; intros _; [by apply wp_ret, HQ|].
  wthen.
  { apply wp_if; intros _; [|by apply wp_ret]. apply wp_bind. eapply wp_set_flow; [done|lia|]. intros. by wauto. }
  intros _ s3 H3. pose proof (sh_flow _ _ (inv_shape _ _ _ _ H3)) as Hl3. apply wp_bind. eapply wp_cnt; [lia|]. intros on3 _.
  apply wp_if; intros _; [|by apply wp_ret, HQ]. apply wp_bind. eapply wp_set_flow; [done|lia|]. intros. wauto. by apply HQ.
Qed.

(** ** Telling the dongle that there are packets *)

(** A packet without data goes to the bus with the header on it. *)
Lemma signal_pkt_ok n x1 x2 bmp handle :
  0 <= n -> moved (mk_wpkt 0 (replicate 6 0) 0 0 None 0 false 0 (replicate (Z.to_nat (n + 16)) 0)) x1 (n + 16) [] ->
  _dhd_wlfc_pushheader false (DHD_PKTTAG_SET_H2DTAG 0 x1) true bmp handle 0 0 false = Some x2 ->
  pkt_ok O signal_sent (set_if_flags (DHD_PKTTAG_WLFCPKT_SET (DHD_PKTTAG_SETSIGNALONLY (if_flags x2) 1) 1) x2).
Proof.
  intros Hn [W1 M1 O1 D1] E.
  destruct (pushheader_spec false (DHD_PKTTAG_SET_H2DTAG 0 x1) true bmp handle 0 0) as (x2' & E' & [W2 M2 O2 D2]); [done|cbn; lia|].
  assert (x2' = x2) as -> by congruence. unfold meta in M1, M2. cbn in M2. injection M1 as F1 _ _ _ _ _ _. injection M2 as F2 _ _ _ _ _ _. rewrite F1 in F2.
  split; cbn; rewrite ?F2; try done. intros _. rewrite length_elements in O2, D2. cbn in O2.
  change (PKTDATA (DHD_PKTTAG_SET_H2DTAG 0 x1)) with (PKTDATA x1) in D2. rewrite D1, app_nil_r in D2.
  eexists. split; [rewrite app_nil_r; exact D2|].
  split; [exact (elements_header (DHD_PKTTAG_SET_H2DTAG 0 x1) false true bmp handle 0 0)|]. rewrite length_app, length_elements. cbn. lia.
Qed.

Lemma wp_signalonly dev G s e bmp Q :
  inv O dev G s -> 0 <= e < n_entries -> (∀ rc G' s', grows G G' -> inv O dev G' s' -> Q rc s') -> wp (_dhd_wlfc_send_signalonly_packet cfg env e bmp) s Q.
Proof.
  intros H He HQ. unfold _dhd_wlfc_send_signalonly_packet. cbv zeta. apply wp_if; intros _; [apply wp_ret; eapply HQ; [constructor|done]|].
  apply wp_bind. eapply wp_PKTGET; [done|lia| |].
  { intros s1 H1. apply wp_ret. eapply HQ; [constructor|done]. }
  intros p s1 H1 Hp Hx. cbv beta iota. apply wp_bind. eapply wp_getd; [done|done|]. intros d _ _. apply wp_bind.
  assert ((<[p := signal_info]> G) !! p = Some signal_info) as Hi by apply lookup_insert_eq.
  eapply wp_getp; [done|done|]. intros x' Hx' _. rewrite Hx in Hx'. injection Hx' as <-. unfold id. apply wp_bind.
  match goal with |- context [PKTPULL _ ?y] => set (x := y) in * end. set (n := dhd_hdrlen cfg) in *.
  assert (wf_pkt x) as Hwf by (unfold wf_pkt, x; cbn; lia).
  destruct (PKTPULL_spec x (n + 16) (PKTDATA x) [] Hwf) as (x1 & -> & M1); [by rewrite app_nil_r|unfold PKTDATA, x; cbn; rewrite length_drop, length_replicate; lia|].
  eapply wp_lift; [done|]. apply wp_bind. pose proof M1 as [W1 _ O1 _]. cbn in O1.
  destruct (pushheader_spec false (DHD_PKTTAG_SET_H2DTAG 0 x1) true bmp (d_mac_handle d) 0 0) as (x2 & E2 & _); [done|cbn; lia|].
  eapply wp_lift; [exact E2|]. pose proof (signal_pkt_ok _ _ _ _ _ Hhdr M1 E2) as Hok. apply wp_bind.
  eapply (wp_setp O dev _ s1 p signal_info signal_info); try done; [by destruct Hok; split|]. intros s2 H2 Hx2. rewrite insert_insert_eq in H2.
  apply wp_bind. eapply (wp_txdata O env dev _ s2 p signal_info signal_sent); try done.
  - intros y Hy _. congruence.
  - intros s3 H3 _. apply wp_bind, wp_if; [by intros ?%bool_decide_eq_true|]. intros _. apply wp_ret, wp_ret. rewrite insert_insert_eq in H3.
    eapply HQ; [constructor; [constructor|exact Hp]|]. eapply inv_dev; [exact H3|]. intros e' _. unfold moved_dev. cbn. lia.
  - intros rc s3 Hrc H3 E3. apply wp_bind, wp_if; [|intros E%bool_decide_eq_false; naive_solver]. intros _. apply wp_bind. eapply wp_getp; [done|done|].
    intros y Hy _. rewrite E3, Hx2 in Hy. injection Hy as <-. unfold id. destruct (ok_data _ _ _ Hok) as (h & Hd & Hh & _); [done|].
    destruct (pullheader_spec _ h [] (ok_wf _ _ _ Hok) Hd Hh) as (x4 & -> & [W4 M4 _ _]). apply wp_bind. eapply wp_lift; [done|]. cbv beta iota. apply wp_bind.
    eapply (wp_setp O dev _ s3 p signal_info signal_info); try done.
    { unfold meta in M4. injection M4 as F4 _ _ _ _ _ _. destruct Hok. split; rewrite ?F4; done. }
    intros s4 H4 _. eapply wp_PKTFREE; [done|apply lookup_insert_eq|done..|].
    intros s5 H5. apply wp_ret. rewrite !delete_insert_eq in H5. eapply HQ; [constructor|]. by rewrite delete_id in H5.
Qed.

Lemma wp_pending_check dev G s e prec Q :
  inv O dev G s -> 0 <= e < n_entries -> 0 <= prec <= AC_COUNT -> (∀ b G' s', grows G G' -> inv O dev G' s' -> Q b s') ->
  wp (_dhd_wlfc_traffic_pending_check cfg env e prec) s Q.
Proof.
  intros H He Hp HQ. assert (Z.shiftl prec 1 = prec * 2) as E by (rewrite Z.shiftl_mul_pow2 by lia; lia). unfold AC_COUNT in Hp.
  unfold _dhd_wlfc_traffic_pending_check. rewrite E. wauto1. wauto1. wthen.
  { apply wp_if; intros _; [|by apply wp_ret]. apply wp_bind. eapply wp_psq_len; [done|done|lia|]. intros k0. apply wp_bind.
    eapply wp_psq_len; [done|done|lia|]. intros k1. by wauto. }
  intros rc s1 H1. apply wp_if; intros _; [|apply wp_ret; eapply HQ; [constructor|done]].
  do 4 wauto1. apply wp_if; intros _; [|apply wp_ret; eapply HQ; [constructor|done]]. do 2 wauto1. apply wp_bind.
  eapply wp_signalonly; [done|done|]. intros rc' G' s' Hg H'. wauto. by eapply HQ.
Qed.

(** ** Into the queues *)

Lemma hand_facts i b e : i_place i = Hand b (Some e) -> data i = true ∧ pos_of i = None.
Proof. unfold data, pos_of. by intros ->. Qed.

(** There is room, so that nothing is dropped. *)
Lemma wp_enq_with_drop dev G s p i e b prec qHead cs Q :
  inv O dev G s -> G !! p = Some i -> i_place i = Hand b (Some e) -> i_waiting i = false ->
  prec = (if b then PSQ_SUP_IDX (i_ac i) else PSQ_DLY_IDX (i_ac i)) ->
  (∀ s', inv O dev (<[p := set_waiting true (set_place (waiting_at b e) i)]> G) s' -> Q true s') ->
  wp (_dhd_wlfc_prec_enq_with_drop e p prec qHead cs) s Q.
Proof.
  intros H Hi Ei Ew Eprec HQ. destruct (inv_hand _ _ _ _ _ _ _ _ H Hi Ei) as [Ha Hv]. pose proof Hv as [He HO].
  destruct (hand_facts _ _ _ Ei) as [Hdat Epos].
  unfold _dhd_wlfc_prec_enq_with_drop. apply wp_bind. eapply wp_getd; [done|done|]. intros d Hd _.
  destruct (inv_places _ _ _ _ H) as (L & HL & Hlen). assert (0 <= e < N_QUEUES) as Hk by (unfold N_QUEUES; lia).
  pose proof (lens_psq O L e (i_ac i) b Hlen Hv Ha) as Hn. rewrite <-Eprec in Hn.
  assert (0 <= prec ∧ Z.shiftr prec 1 = i_ac i) as [Hp0 Eac].
  { rewrite Eprec. unfold PSQ_SUP_IDX, PSQ_DLY_IDX. rewrite Z.shiftr_div_pow2 by lia. change (2 ^ 1) with 2. destruct b; split; Z.to_euclidean_division_equations; lia. }
  pose proof (pl_q _ _ _ _ HL e Hk) as Hq. pose proof (qok_getq _ _ _ _ Hq Hn) as (qp & Hg & Hqp & Hmax).
  destruct (qok_pqrep _ _ _ Hq) as (Hr & Hmaxq & _); [lia|]. rewrite (queue_of_psq _ _ _ Hd He) in Hg, Hr, Hmaxq. rewrite Z2Nat.id in Hg by lia.
  pose proof (inv_room _ _ _ _ _ _ _ e H HL Hi Hdat Epos Hk) as Hroom. pose proof (total_ge (L e) (Z.to_nat prec)) as Hle.
  apply wp_bind. eapply wp_lift; [exact Hg|]. apply wp_bind. eapply wp_lift.
  { unfold evict_prec, pktqprec_full, pktq_full. rewrite Hmax, Hmaxq, (PktqSpec.qrep_len _ _ _ Hqp), (pqrep_tot _ _ _ Hr).
    rewrite !bool_decide_false by (unfold WLFC_PSQ_LEN; lia). reflexivity. }
  cbv beta iota. apply wp_bind, wp_ret, wp_bind. eapply wp_prec_enque; [done|done|done|done|]. intros s1 H1. apply wp_bind.
  assert ((<[p := set_place (waiting_at b e) i]> G) !! p = Some (set_place (waiting_at b e) i)) as Hi1 by apply lookup_insert_eq.
  eapply wp_pkt_if; [done|done|]. rewrite Eac.
  eapply (wp_wait O dev _ s1 p (set_place (waiting_at b e) i) true); [done|done|done|done|]. intros s2 H2. rewrite insert_insert_eq in H2. apply wp_bind. unfold add_in_psq.
  eapply (wp_modw O dev); [done|done|]. intros s3 H3. apply wp_ret. by apply HQ.
Qed.

Lemma wp_enque_delayq dev G s p i Q :
  inv O dev G s -> G !! p = Some i -> i_place i = Hand false None -> i_waiting i = false ->
  (∀ e G' s', valid O e -> grows (<[p := set_waiting true (set_place (Delayed e) i)]> G) G' -> inv O dev G' s' -> Q BCME_OK s') ->
  wp (_dhd_wlfc_enque_delayq cfg env (Some p) (i_ac i)) s Q.
Proof.
  intros H Hi Ei Ew HQ. destruct (inv_pkt _ _ _ _ H p i Hi) as (x & _ & Hok). pose proof (ok_range _ _ _ Hok) as Ha. rewrite Ei in Ha. specialize (Ha eq_refl).
  unfold _dhd_wlfc_enque_delayq. apply wp_bind. eapply wp_find_new; [done|done|done|]. intros e s1 Hv H1. apply wp_bind.
  eapply wp_SEQCOUNT; [done|apply Hv|done|]. intros cs. apply wp_bind.
  eapply (wp_enq_with_drop dev _ s1 p (set_place (Hand false (Some e)) i) e false); [done|apply lookup_insert_eq|done|done|cbn; unfold PSQ_DLY_IDX; rewrite Z.shiftl_mul_pow2; lia|].
  intros s2 H2. rewrite insert_insert_eq in H2. apply wp_if; [done|intros _]. apply wp_bind. eapply wp_pending_check; [done|apply Hv|done|].
  intros b G' s' Hg H'. apply wp_ret. by eapply HQ.
Qed.

Lemma wp_enque_suppressed dev G s p i e Q :
  inv O dev G s -> G !! p = Some i -> i_place i = Hand true (Some e) -> i_waiting i = false ->
  (∀ G' s', grows (<[p := set_waiting true (set_place (Suppressed e) i)]> G) G' -> inv O dev G' s' -> Q BCME_OK s') ->
  wp (_dhd_wlfc_enque_suppressed cfg env (i_ac i) p) s Q.
Proof.
  intros H Hi Ei Ew HQ. destruct (inv_hand _ _ _ _ _ _ _ _ H Hi Ei) as [Ha Hv].
  unfold _dhd_wlfc_enque_suppressed. apply wp_bind. eapply wp_find_known; [done|done|by rewrite Ei|]. apply wp_bind.
  eapply wp_SEQCOUNT; [done|apply Hv|done|]. intros cs. apply wp_bind.
  eapply (wp_enq_with_drop dev _ s p i e true); [done|done|done|done|unfold PSQ_SUP_IDX; rewrite Z.shiftl_mul_pow2; lia|].
  intros s2 H2. apply wp_if; [done|intros _]. apply wp_bind. eapply wp_pending_check; [done|apply Hv|done|].
  intros b G' s' Hg H'. do 2 wauto1. apply wp_bind. eapply wp_pkt_if; [done|eapply grows_lookup; [done|apply lookup_insert_eq]|]. apply wp_bind.
  pose proof (inv_if _ _ _ _ _ _ H Hi). eapply wp_flow_check; [done|cbn; lia|]. intros s4 H4. apply wp_ret. by eapply HQ.
Qed.

(** A packet that the bus did not take goes back to the head of its queue. *)
Lemma wp_rollback dev G s p i e (needs_hdr : bool) Q :
  inv O dev G s -> G !! p = Some i -> i_place i = Hand true (Some e) -> i_waiting i = false ->
  (∀ s', inv O dev (<[p := set_waiting true (set_place (waiting_at (negb needs_hdr) e) i)]> G) s' -> Q BCME_OK s') ->
  wp (_dhd_wlfc_rollback_packet_toq p (if needs_hdr then eWLFC_PKTTYPE_DELAYED else eWLFC_PKTTYPE_SUPPRESSED)) s Q.
Proof.
  intros H Hi Ei Ew HQ. destruct (inv_hand _ _ _ _ _ _ _ _ H Hi Ei) as [Ha Hv]. pose proof Hv as [He HO].
  unfold _dhd_wlfc_rollback_packet_toq. apply wp_bind. eapply wp_find_known; [done|done|by rewrite Ei|]. apply wp_bind.
  eapply wp_pkt_fifo; [done|done|]. cbv zeta. apply wp_bind. eapply wp_getp; [done|done|]. intros x Hx Hok. wthen; [by wauto|]. intros _ s1 H1. apply wp_bind.
  assert (Z.shiftl (i_ac i) 1 = i_ac i * 2) as Esh by (rewrite Z.shiftl_mul_pow2; lia).
  assert (∀ s2, inv O dev (<[p := set_place (Hand (negb needs_hdr) (Some e)) i]> G) s2 ->
    wp (rc ← (current_seq ← WLFC_SEQCOUNT e (Z.shiftr (if needs_hdr then Z.shiftl (i_ac i) 1 else Z.shiftl (i_ac i) 1 + 1) 1);
              ok ← _dhd_wlfc_prec_enq_with_drop e p (if needs_hdr then Z.shiftl (i_ac i) 1 else Z.shiftl (i_ac i) 1 + 1) true current_seq;
              mret (if (ok : bool) then BCME_OK else BCME_ERROR));
        _ ← (if bool_decide (rc ≠ BCME_OK) then _dhd_wlfc_prec_drop (if needs_hdr then Z.shiftl (i_ac i) 1 else Z.shiftl (i_ac i) 1 + 1) p false else mret 0);
        mret rc) s2 Q) as Hend.
  { intros s2 H2. rewrite Esh. apply wp_bind, wp_bind. eapply wp_SEQCOUNT; [done|done| |].
    { rewrite Z.shiftr_div_pow2 by lia. change (2 ^ 1) with 2. destruct needs_hdr; Z.to_euclidean_division_equations; lia. }
    intros cs. apply wp_bind.
    eapply (wp_enq_with_drop dev _ s2 p (set_place (Hand (negb needs_hdr) (Some e)) i) e (negb needs_hdr)); [done|apply lookup_insert_eq|done|done| |].
    { cbn. unfold PSQ_SUP_IDX, PSQ_DLY_IDX. by destruct needs_hdr. }
    intros s3 H3. rewrite insert_insert_eq in H3. apply wp_ret. apply wp_bind, wp_ret, wp_ret. by apply HQ. }
  destruct needs_hdr; cbn [decide decide_rel].
  - rewrite decide_True by done. rewrite decide_False by done. apply wp_bind. eapply wp_DECR; [done|done|done|]. intros s2 H2. apply wp_bind. eapply wp_getp; [done|done|].
    intros y Hy Hoky. unfold id. destruct (ok_data _ _ _ Hoky) as (h & Hd & Hh & Hroom); [by rewrite Ei|]. rewrite Ei in Hh.
    destruct (pullheader_spec _ h _ (ok_wf _ _ _ Hoky) Hd Hh) as (x4 & -> & [W4 M4 O4 D4]). apply wp_bind. eapply wp_lift; [done|]. cbv beta iota. apply wp_bind.
    eapply (wp_setp O dev _ s2 p i (set_place (Hand false (Some e)) i)); try done.
    + unfold meta in M4. injection M4 as F1 _ F3 _ F5 _ _. destruct Hoky. rewrite Ei in *. split; cbn; rewrite ?F1, ?F3, ?F5; auto; try done.
      * intros _. exists []. split; [done|]. split; [done|]. cbn. lia.
      * intros e0 [= <-]. split; [by apply ok_valid|done].
    + unfold pos_of. by rewrite Ei.
    + by rewrite Ei.
    + unfold data. by rewrite Ei.
    + intros e'. unfold in_transit. by rewrite Ei.
    + intros s4 H4 _. apply wp_ret. by apply Hend.
  - rewrite decide_False by done. apply wp_ret. apply Hend.
    rewrite insert_id; [done|]. rewrite Hi. f_equal. destruct i. cbn in *. by rewrite Ei.
Qed.
End Send.

(** * Wireless flow control: taking packets out, and handing them to the bus *)

(** Between the calls every packet is somewhere, and is counted where it is. *)
Definition tidy (i : pinfo) : Prop :=
  match i_place i with
  | Delayed _ | Suppressed _ => i_waiting i = true ∧ i_counted i = true
  | OnBus _ | AtDongle _ => i_waiting i = false ∧ i_counted i = true
  | SignalOnBus => i_waiting i = false ∧ i_counted i = false
  | _ => False
  end.

Definition all_tidy (G : packets) : Prop := ∀ p i, G !! p = Some i -> tidy i.

Section Dequeue.
Context (O : Z -> bool) (cfg : dhd_cfg) (env : wenv).
Context (Hother : valid O other) (Hhdr : 0 <= dhd_hdrlen cfg).

(** ** Whose turn it is *)

Lemma inv_head dev G s o e : inv O dev G s -> o = Some e -> valid O e -> inv O dev G (set_w (set_w_active_entry_head o (s_w s)) s).
Proof. intros [? ? ? ? Hs [] ?] -> Hv. split; try done. destruct Hs. split; try done. by exists e. Qed.

Lemma wp_active_head dev G s Q : inv O dev G s -> (∀ e, valid O e -> Q e s) -> wp (e ← getw w_active_entry_head; lift e) s Q.
Proof. intros H HQ. destruct (sh_head _ _ (inv_shape _ _ _ _ H)) as (e & He & Hv). apply wp_bind, wp_getw. eapply wp_lift; [exact He|auto]. Qed.

Lemma wp_move_head dev G s Q : inv O dev G s -> (∀ s', inv O dev G s' -> Q tt s') -> wp move_head s Q.
Proof.
  intros H HQ. unfold move_head. destruct (sh_head _ _ (inv_shape _ _ _ _ H)) as (e & He & Hv). wauto1. wauto1. apply wp_bind. eapply wp_lift; [exact He|].
  apply wp_bind. eapply wp_getd; [done|apply Hv|]. intros d _ Hd. pose proof (dok_next _ _ _ Hd) as Hn. rewrite (proj2 Hv) in Hn. destruct Hn as (e' & He' & Hv').
  apply wp_modify, HQ. by eapply inv_head.
Qed.

Lemma wp_requested dev G s i Q :
  inv O dev G s -> 0 <= i < w_requested_entry_count (s_w s) -> (∀ e, valid O e -> Q e s) -> wp (e ← cnt w_requested_entry i; lift e) s Q.
Proof.
  intros H Hi HQ. destruct (sh_requested _ _ (inv_shape _ _ _ _ H)) as (l & Hc & Hl & Hlen & _ & Hv).
  destruct (lookup_lt_is_Some_2 l (Z.to_nat i)) as [e He]; [lia|].
  assert (at_ (w_requested_entry (s_w s)) i = Some (Some e)) as Hat.
  { apply at_Some. split; [lia|]. apply (lookup_take_Some _ (Z.to_nat (w_requested_entry_count (s_w s))) (Z.to_nat i) (Some e)).
    rewrite Hl, list_lookup_fmap, He. done. }
  apply wp_bind. eapply wp_cnt; [by apply at_range in Hat|]. intros o Ho. assert (o = Some e) as -> by congruence. eapply wp_lift; [done|]. apply HQ, Hv. by eapply list_elem_of_lookup_2.
Qed.

(** ** Open or not *)

Lemma wp_destination_open dev G s e prec Q : inv O dev G s -> 0 <= e < n_entries -> (∀ b, Q b s) -> wp (_dhd_wlfc_is_destination_open e prec) s Q.
Proof.
  intros H He HQ. unfold _dhd_wlfc_is_destination_open. apply wp_bind. eapply wp_getd; [done|done|]. intros d _ Hd. unfold id.
  pose proof (dok_ifid _ _ _ Hd). destruct (bool_decide (d_interface_id d >= WLFC_MAX_IFNUM)) eqn:E; [by apply wp_ret|].
  apply bool_decide_eq_false in E. apply wp_bind. eapply wp_getd; [done|in_range|]. intros i _ _. cbv zeta.
  destruct (_ && _ && _); [by apply wp_ret|]. destruct (_ || _); by apply wp_ret.
Qed.

Lemma wp_may_take dev G s e prec Q : inv O dev G s -> 0 <= e < n_entries -> (∀ b, Q b s) -> wp (may_take e prec) s Q.
Proof.
  intros H He HQ. unfold may_take. apply wp_bind. eapply wp_getd; [done|done|]. intros d _ _. unfold id. apply wp_bind.
  destruct (d_occupied d); [eapply wp_destination_open; [done|done|]; intros b|]; repeat apply wp_ret; apply HQ.
Qed.

(** ** Accounting *)

Lemma flag_kept k x v :
  8 <= k -> let y := set_field k (Z.ones 1) x v in
  k ≠ 10 -> DHD_PKTTAG_IF y = DHD_PKTTAG_IF x ∧ DHD_PKTTAG_FIFO y = DHD_PKTTAG_FIFO x ∧ DHD_PKTTAG_SIGNALONLY y = DHD_PKTTAG_SIGNALONLY x.
Proof.
  intros Hk y Hne. subst y. unfold DHD_PKTTAG_IF, DHD_PKTTAG_FIFO, DHD_PKTTAG_SIGNALONLY, DHD_PKTTAG_IF_SHIFT, DHD_PKTTAG_FIFO_SHIFT, DHD_PKTTAG_SIGNALONLY_SHIFT.
  change DHD_PKTTAG_IF_MASK with (Z.ones 4). change DHD_PKTTAG_FIFO_MASK with (Z.ones 3). change DHD_PKTTAG_SIGNALONLY_MASK with (Z.ones 1).
  split_and!; rewrite get_set_other by lia; done.
Qed.

Lemma pkt_ok_flag i x k v : pkt_ok O i x -> 8 <= k -> k ≠ 10 -> pkt_ok O i (set_if_flags (set_field k (Z.ones 1) (if_flags x) v) x).
Proof.
  intros [] Hk Hne. destruct (flag_kept k (if_flags x) v Hk Hne) as (E1 & E2 & E3). split; cbn; rewrite ?E1, ?E2, ?E3; done.
Qed.

Lemma wp_account dev G s p i e b Q :
  inv O dev G s -> G !! p = Some i -> i_place i = Hand b (Some e) -> i_waiting i = true ->
  (∀ s', inv O dev (<[p := set_waiting false i]> G) s' -> Q tt s') -> wp (account_dequeued e (i_ac i) p) s Q.
Proof.
  intros H Hi Ei Ew HQ. destruct (inv_hand _ _ _ _ _ _ _ _ H Hi Ei) as [Ha Hv]. pose proof Hv as [He HO]. unfold account_dequeued.
  do 4 wauto1. wthen.
  { apply wp_if; intros _; [by wauto|]. apply wp_if; intros _; [|by apply wp_ret]. do 2 wauto1. eapply wp_modp; [done|done| |done].
    intros x _ Hok. by apply (pkt_ok_flag i x 11 1 Hok). }
  intros _ s1 H1. apply wp_bind. eapply wp_pkt_if; [done|done|]. eapply (wp_wait O dev G s1 p i false); [done|done|done|done|].
  clear s H d d0 W W0 W1 W2. intros s H. apply wp_bind. unfold add_in_psq. wauto1. wauto1. wauto1. apply wp_if; intros _; [|by apply wp_ret, HQ].
  apply wp_bind. eapply wp_getd; [done|done|]. intros d1 Hd1 Hok1. unfold AC_COUNT in Ha.
  destruct (at_is_Some (d_release_count d1) (i_ac i)) as [x Hx]; [rewrite (dok_release _ _ _ Hok1); lia|].
  apply wp_bind. eapply wp_lift; [done|]. cbv zeta. apply wp_bind. eapply wp_lift; [by eapply put_Some|].
  assert (∀ l, length l = 5%nat -> ∀ d0, dok O e d0 -> drelevant (set_d_release_count l d0) = drelevant d0) as Hrel.
  { intros l Hl d0 Hok0. unfold drelevant. cbn. by rewrite Hl, (dok_release _ _ _ Hok0). }
  apply wp_bind. eapply wp_modd; [done|done|apply Hrel; by rewrite length_insert, (dok_release _ _ _ Hok1)|]. intros s2 H2.
  apply wp_bind. eapply wp_getd; [done|done|]. intros d2 Hd2 Hok2. destruct (inv_places _ _ _ _ H2) as (L & HL & Hlen).
  pose proof (pl_q _ _ _ _ HL e ltac:(unfold N_QUEUES; lia)) as Hq. destruct (qok_pqrep _ _ _ Hq) as (Hr & _ & _).
  { destruct (Hlen e He) as [-> _]. rewrite HO. lia. }
  rewrite (queue_of_psq _ _ _ Hd2 He) in Hr. apply wp_bind. eapply wp_lift; [by eapply pktq_mlen_spec|]. wauto1. wauto1. apply wp_if; intros _; [|by apply wp_ret, HQ].
  apply wp_bind. eapply wp_lift; [eapply put_Some, at_insert_eq, Hx|].
  apply wp_bind. eapply wp_modd; [done|done|apply Hrel; by rewrite !length_insert, (dok_release _ _ _ Hok1)|]. intros s3 H3. by eapply wp_move_head.
Qed.

(** ** The search for a packet *)

(** What a search that has found something leaves. *)
Definition found (dev : Z -> Z) (G : packets) (prec : Z) (d : dequeued) (s : sys) : Prop :=
  ∃ p i e G', dq_p d = Some p ∧ dq_entry d = Some e ∧ G !! p = Some i ∧ i_place i = waiting_at (negb (dq_needs_hdr d)) e ∧ i_ac i = prec
    ∧ valid O e ∧ grows (<[p := set_waiting false (set_place (Hand (negb (dq_needs_hdr d)) (Some e)) i)]> G) G' ∧ inv O dev G' s.

Lemma wp_take_from dev G s e p i b prec spent Q :
  inv O dev (<[p := set_place (Hand b (Some e)) i]> G) s -> G !! p = Some i -> i_place i = waiting_at b e -> i_ac i = prec -> i_waiting i = true -> valid O e ->
  0 <= prec <= AC_COUNT -> (∀ d s', found dev G prec d s' -> Q d s') ->
  wp (_ ← account_dequeued e prec p; pq ← getd e d_psq; ifid ← pkt_if p;
      _ ← _dhd_wlfc_flow_control_check env pq ifid; _ ← _dhd_wlfc_traffic_pending_check cfg env e prec;
      mret (mk_deq (Some p) spent (negb b) (Some e))) s Q.
Proof.
  intros H Hi Ei Ea Ew Hv Hp HQ. apply wp_bind. rewrite <-Ea.
  eapply (wp_account dev _ s p (set_place (Hand b (Some e)) i)); [done|apply lookup_insert_eq|done|done|]. intros s1 H1. rewrite insert_insert_eq in H1.
  wauto1. wauto1. apply wp_bind. eapply wp_pkt_if; [done|apply lookup_insert_eq|]. apply wp_bind.
  pose proof (inv_if O dev _ s1 p _ H1 (lookup_insert_eq _ _ _)) as Hif. eapply wp_flow_check; [done|lia|]. intros s2 H2.
  apply wp_bind. eapply wp_pending_check; [done|done|apply Hv|by rewrite Ea|]. intros _ G' s3 Hg H3. apply wp_ret, HQ. exists p, i, e, G'. cbn. rewrite negb_involutive.
  by rewrite Ea.
Qed.

Lemma wp_deque_loop dev G prec spent only Q :
  (∀ p i, G !! p = Some i -> tidy i) -> 0 <= prec <= AC_COUNT ->
  (∀ d s', dq_p d = None -> inv O dev G s' -> Q d s') -> (∀ d s', found dev G prec d s' -> Q d s') ->
  ∀ n i s acs nh, inv O dev G s -> 0 <= i -> (only = true -> i + Z.of_nat n <= w_requested_entry_count (s_w s)) ->
  wp (deque_loop cfg env n i prec spent only acs nh) s Q.
Proof.
  intros Htidy Hp HN HF. induction n as [|n IH]; intros i s acs nh H Hi Hreq; cbn [deque_loop]; [by apply wp_ret, HN|].
  assert (∀ s' acs nh, inv O dev G s' -> requests (s_w s') = requests (s_w s) ->
    wp (_ ← (if only then mret tt else move_head); deque_loop cfg env n (i + 1) prec spent only acs nh) s' Q) as Hnext.
  { intros s' acs' nh' H' Er. injection Er as _ Er. apply wp_bind. destruct only.
    - apply wp_ret, IH; [done|lia|]. intros _. rewrite Er. specialize (Hreq eq_refl). lia.
    - eapply wp_move_head; [done|]. intros s2 H2. apply IH; [done|lia|done]. }
  apply wp_bind. assert (∀ R, (∀ e, valid O e -> R e s) ->
    wp (if only then e ← cnt w_requested_entry i; lift e else e ← getw w_active_entry_head; lift e) s R) as Hentry.
  { intros R HR. destruct only; [eapply wp_requested; [done|specialize (Hreq eq_refl); lia|done]|by eapply wp_active_head]. }
  apply Hentry. intros e Hv. apply wp_bind. eapply wp_may_take; [done|apply Hv|]. intros b. destruct b; [|by apply Hnext].
  wauto1. wauto1. cbv zeta. apply wp_bind. eapply (wp_psq_deq O dev G s e prec true); [done|done|done|done| |].
  - intros s1 H1 E1. apply wp_bind. cbv beta iota. eapply (wp_psq_deq O dev G s1 e prec false); [done|done|done|done| |].
    + intros s2 H2 E2. cbn [isNULL]. apply Hnext; [done|congruence].
    + intros p j s2 Hj Ej Ea H2. cbn [isNULL]. eapply (wp_take_from dev G s2 e p j false); try done. specialize (Htidy p j Hj). unfold tidy in Htidy. rewrite Ej in Htidy. apply Htidy.
  - intros p j s2 Hj Ej Ea H2. apply wp_bind, wp_ret. cbn [isNULL]. eapply (wp_take_from dev G s2 e p j true); try done. specialize (Htidy p j Hj). unfold tidy in Htidy. rewrite Ej in Htidy. apply Htidy.
Qed.

Lemma wp_deque dev G s prec nh only Q :
  inv O dev G s -> all_tidy G -> 0 <= prec <= AC_COUNT -> (∀ d s', dq_p d = None -> inv O dev G s' -> Q d s') -> (∀ d s', found dev G prec d s' -> Q d s') ->
  wp (_dhd_wlfc_deque_delayedq cfg env prec nh only) s Q.
Proof.
  intros H Ht Hp HN HF. unfold _dhd_wlfc_deque_delayedq. wauto1. wauto1. cbv zeta. wauto1. wauto1. apply wp_deque_loop with dev G; try done.
  intros ->. destruct (sh_requested _ _ (inv_shape _ _ _ _ H)) as (l & Hc & _). lia.
Qed.

(** ** To the bus *)

Lemma hand_same i b b' e : i_place i = Hand b e -> pos_of (set_place (Hand b' e) i) = pos_of i ∧ on_bus (Hand b' e) = on_bus (i_place i)
  ∧ data (set_place (Hand b' e) i) = data i ∧ (∀ e', in_transit e' (set_place (Hand b' e) i) = in_transit e' i).
Proof. unfold pos_of, data, in_transit. by intros ->. Qed.

(** A packet is pulled or pushed in hand. *)
Lemma wp_setp_hand dev G s p i b b' e x Q :
  inv O dev G s -> G !! p = Some i -> i_place i = Hand b e -> pkt_ok O (set_place (Hand b' e) i) x ->
  (∀ s', inv O dev (<[p := set_place (Hand b' e) i]> G) s' -> Q tt s') -> wp (setp p x) s Q.
Proof.
  intros H Hi Ei Hok HQ. destruct (hand_same i b b' e Ei) as (E1 & E2 & E3 & E4). eapply (wp_setp O dev G s p i _ x); try done. intros s' H' _. by apply HQ.
Qed.

Lemma pkt_ok_pulled i x x' (h : list Z) e :
  pkt_ok O i x -> i_place i = Hand true (Some e) -> moved x x' (pkt_off x + Z.of_nat (length h)) (i_payload i) -> 16 <= pkt_off x + Z.of_nat (length h) ->
  pkt_ok O (set_place (Hand false (Some e)) i) x'.
Proof.
  intros Hok Ei [W M O1 D] Hr. unfold meta in M. injection M as F1 _ F3 _ F5 _ _. destruct Hok. rewrite Ei in *. split; cbn; rewrite ?F1, ?F3, ?F5; auto; try done.
  - intros _. exists []. split; [done|]. split; [done|]. cbn. lia.
  - intros e0 [= <-]. split; [by apply ok_valid|done].
Qed.

Lemma pkt_ok_pushed i x x' tim bmp handle htod e :
  pkt_ok O i x -> i_place i = Hand false (Some e) -> _dhd_wlfc_pushheader false x tim bmp handle htod 0 false = Some x' -> WL_TXSTATUS_GET_HSLOT htod = e ->
  pkt_ok O (set_place (Hand true (Some e)) i) (DHD_PKTTAG_SET_H2DTAG htod x').
Proof.
  intros Hok Ei E Eh. destruct (ok_data _ _ _ Hok) as (h & Hd & Hh & Hr); [by rewrite Ei|]. rewrite Ei in Hh. cbn in Hh. subst h. cbn in Hd, Hr.
  destruct (pushheader_spec false x tim bmp handle htod 0 (ok_wf _ _ _ Hok)) as (x2 & E2 & [W M O1 D]); [lia|]. assert (x2 = x') as -> by congruence.
  unfold meta in M. injection M as F1 _ F3 _ F5 _ _. destruct Hok. rewrite Ei in *. split; cbn; rewrite ?F1, ?F5; auto; try done.
  - intros _. exists (bdc x (Z.of_nat (length (elements false tim bmp handle htod 0)) / 4) ++ elements false tim bmp handle htod 0).
    change (PKTDATA (DHD_PKTTAG_SET_H2DTAG htod x')) with (PKTDATA x'). rewrite D, Hd, app_assoc. split; [done|].
    split; [exact (elements_header x false tim bmp handle htod 0)|]. change (pkt_off (DHD_PKTTAG_SET_H2DTAG htod x')) with (pkt_off x').
    rewrite O1, length_app. unfold bdc. cbn [length]. lia.
  - intros e0 [= <-]. split; [by apply ok_valid|done].
Qed.

Lemma tag_hslot free_ctr e fifo gen b : 0 <= e < n_entries -> WL_TXSTATUS_GET_HSLOT (pretx_tag free_ctr e fifo gen b) = e.
Proof. intros He. destruct (pretx_tag_fields free_ctr e fifo gen b) as (_ & -> & _). apply Z.mod_small. in_range. Qed.

Lemma wp_pull dev G s p i e Q :
  inv O dev G s -> G !! p = Some i -> i_place i = Hand true (Some e) ->
  (∀ s', inv O dev (<[p := set_place (Hand false (Some e)) i]> G) s' -> Q tt s') ->
  wp (x ← getp p id; '(_, x) ← lift (_dhd_wlfc_pullheader x); setp p x) s Q.
Proof.
  intros H Hi Ei HQ. apply wp_bind. eapply wp_getp; [done|done|]. intros x Hx Hok. unfold id. destruct (ok_data _ _ _ Hok) as (h & Hd & Hh & Hr); [by rewrite Ei|].
  rewrite Ei in Hh. destruct (pullheader_spec x h _ (ok_wf _ _ _ Hok) Hd Hh) as (x' & -> & M). apply wp_bind. eapply wp_lift; [done|]. cbv beta iota.
  eapply wp_setp_hand; [done|done|done| |done]. by eapply pkt_ok_pulled.
Qed.

Lemma wp_pretx dev G s p i e b Q :
  inv O dev G s -> G !! p = Some i -> i_place i = Hand b (Some e) ->
  (∀ s', inv O dev (<[p := set_place (Hand true (Some e)) i]> G) s' -> Q BCME_OK s') -> wp (_dhd_wlfc_pretx_pktprocess (Some e) p (negb b)) s Q.
Proof.
  intros H Hi Ei HQ. destruct (inv_hand _ _ _ _ _ _ _ _ H Hi Ei) as [Ha Hv]. pose proof Hv as [He HO]. unfold _dhd_wlfc_pretx_pktprocess.
  assert (e < 3072) as Hslot by in_range.
  apply wp_bind, wp_ret. wauto1. wauto1. wthen; [by wauto|]. intros _ s1 H1. apply wp_bind. eapply wp_pkt_fifo; [done|done|]. apply wp_bind.
  set (i' := set_place (Hand false (Some e)) i).
  eapply (wp_mono _ _ (λ r s', r.1.1 = e ∧ inv O dev (<[p := i']> G) s')).
  { destruct b; cbn [negb].
    - apply wp_bind. eapply wp_getp; [done|done|]. intros x Hx Hok.
      assert (WL_TXSTATUS_GET_HSLOT (htod_tag x) = e) as Eh by (apply (ok_valid _ _ _ Hok); by rewrite Ei).
      assert (∀ {B} (m : M B) R, wp (_ ← (x ← getp p id; '(_, x) ← lift (_dhd_wlfc_pullheader x); setp p x); m) s1 R ->
        wp (x ← getp p id; '(_, x) ← lift (_dhd_wlfc_pullheader x); _ ← setp p x; m) s1 R) as Hassoc.
      { intros B m R (a & s' & E & HR). exists a, s'. split; [|done]. revert E. unfold mbind, M_bind. destruct (getp p id s1) as [[y s2]|]; [|done].
        destruct (lift (_dhd_wlfc_pullheader y) s2) as [[[? z] s3]|]; [|done]. done. }
      apply Hassoc. apply wp_bind. eapply wp_pull; [done|done|done|]. intros s2 H2. by apply wp_ret.
    - wauto1. wauto1. apply wp_bind. eapply wp_SEQCOUNT; [done|done|done|]. intros y. apply wp_ret. split; [done|]. unfold i'. rewrite insert_id; [done|].
      rewrite Hi. f_equal. destruct i. cbn in *. by rewrite Ei. }
  intros [[hslot gen] free] s2 [E0 H2]. cbn in E0. subst hslot.
  rewrite (bool_decide_false (e >= 3072)) by lia.
  assert ((<[p := i']> G) !! p = Some i') as Hi' by apply lookup_insert_eq.
  apply wp_bind. eapply (wp_modp O dev _ s2 p i'); [done|done| |]. { intros x _ Hok. by apply (pkt_ok_flag i' x 9 1 Hok). }
  intros s3 H3. apply wp_bind. eapply wp_getp; [done|done|]. intros x _ _. cbv zeta. wauto1. wauto1. wauto1. wauto1. apply wp_bind.
  eapply wp_getp; [done|done|]. intros y _ Hok. unfold id. apply wp_bind.
  destruct (ok_data _ _ _ Hok) as (h & Hd & Hh & Hr); [done|]. cbn in Hh. subst h. cbn in Hr.
  destruct (pushheader_spec false y (d_send_tim_signal d) (d_traffic_lastreported_bmp d0) (d_mac_handle d1)
    (pretx_tag free e (i_ac i) gen (bool_decide (DHD_PKTTAG_CREDITCHECK (if_flags x) ≠ 0))) 0 (ok_wf _ _ _ Hok)) as (y' & E & _); [lia|].
  eapply wp_lift; [exact E|]. apply wp_bind. eapply (wp_setp_hand dev _ s3 p i' false true); [done|done|done| |].
  { eapply pkt_ok_pushed; [done|done|exact E|]. by apply tag_hslot. }
  intros s4 H4. rewrite insert_insert_eq in H4. apply wp_bind.
  destruct b; cbn [negb]; [apply wp_ret|eapply wp_INCR; [done|done|done|]; intros s5 H5]; by apply wp_ret, HQ.
Qed.

Lemma wp_count_sent dev G s p i e Q :
  inv O (λ e', dev e' - Z.b2z (bool_decide (e = e'))) G s -> G !! p = Some i -> valid O e -> (∀ s', inv O dev G s' -> Q tt s') -> wp (count_sent e p) s Q.
Proof.
  intros H Hi [He HO] HQ. unfold count_sent. apply wp_bind. eapply wp_getp; [done|done|]. intros x _ _. wauto1. wauto1. wthen; [by wauto|]. intros _ s1 H1.
  do 2 wauto1. apply wp_bind. eapply wp_set_transit; [done|done|]. intros s2 H2. wauto. apply HQ. eapply inv_dev; [done|].
  intros e' _. cbn. destruct (decide (e = e')) as [<-|Hne]; [rewrite upd_eq, bool_decide_true by done; cbn; lia|].
  rewrite upd_ne, bool_decide_false by done. cbn. lia.
Qed.

Lemma wp_commit dev G s p i e b spent Q :
  inv O dev G s -> G !! p = Some i -> i_place i = Hand b (Some e) -> i_waiting i = false ->
  (∀ s', inv O dev (<[p := set_place (OnBus e) i]> G) s' -> Q BCME_OK s') ->
  (∀ rc s', rc ≠ BCME_OK -> inv O dev (<[p := set_waiting true (set_place (waiting_at b e) i)]> G) s' -> Q rc s') ->
  wp (_dhd_wlfc_handle_packet_commit env e p spent (negb b)) s Q.
Proof.
  intros H Hi Ei Ew HT HF. destruct (inv_hand _ _ _ _ _ _ _ _ H Hi Ei) as [Ha Hv]. unfold _dhd_wlfc_handle_packet_commit.
  apply wp_bind. eapply (wp_modp O dev _ s p i); [done|done| |]. { intros x _ Hok. by apply (pkt_ok_flag i x 8 _ Hok). }
  intros s1 H1. apply wp_bind. eapply wp_pretx; [done|done|done|]. intros s2 H2. set (i2 := set_place (Hand true (Some e)) i) in *.
  assert ((<[p := i2]> G) !! p = Some i2) as Hi2 by apply lookup_insert_eq. rewrite bool_decide_true by done. apply wp_bind, wp_bind.
  eapply (wp_txdata O env dev _ s2 p i2 (set_place (OnBus e) i)); try done.
  - intros x _ Hok. change (pkt_ok O (set_place (OnBus e) i2) x). by apply pkt_ok_place.
  - intros s3 H3 _. rewrite insert_insert_eq in H3. apply wp_bind, wp_if; [intros _|done].
    eapply (wp_count_sent dev); [|apply lookup_insert_eq|done|].
    + eapply inv_dev; [exact H3|]. intros e' _. unfold moved_dev. cbn. lia.
    + intros s4 H4. apply wp_ret. rewrite bool_decide_false by naive_solver. apply wp_bind, wp_ret, wp_ret. by apply HT.
  - intros rc s3 Hrc H3 _. apply wp_bind, wp_if; [by intros ?%bool_decide_eq_true|intros _]. apply wp_ret, wp_ret. rewrite bool_decide_true by done.
    apply wp_bind, wp_bind. eapply (wp_rollback O dev _ s3 p i2 e (negb b)); [done|done|done|done|]. intros s4 H4.
    rewrite insert_insert_eq, negb_involutive in H4. eapply (wp_modp O dev _ s4 p); [done|apply lookup_insert_eq| |].
    { intros x _ Hok. by apply (pkt_ok_flag _ x 8 0 Hok). }
    intros s5 H5. apply wp_ret. by apply HF.
Qed.
End Dequeue.
