(* ===== verification/WlfcTransferTheorems.v ===== *)
(** * Wireless flow control: the transfer loop keeps the invariant and ends *)

From stdpp Require Import functions.
From S2P Require Import Prelude Pktq PktqSpec PktqRefine FlowQueue FlowData WlfcTag WlfcCredit WlfcQueue WlfcHeader.
From S2P Require Import WlfcHeaderTheorems WlfcState WlfcSend WlfcTransfer WlfcEvents WlfcQueueTheorems WlfcInv WlfcMoves.
From S2P Require Import WlfcSendTheorems.

(** ** The arrays of the credits *)

Lemma add_fifo_ok c a d : cok c -> 0 <= a < 6 -> ∃ c', add_fifo a d c = Some c' ∧ cok c'.
Proof.
  intros H Ha. unfold add_fifo, set_fifo. destruct (at_is_Some (FIFO_credit c) a) as [x Hx]; [rewrite (cok_fifo _ H); lia|].
  rewrite Hx. cbn. rewrite (put_Some _ _ _ _ Hx). eexists. split; [done|]. destruct H. split; cbn; rewrite ?length_insert; done.
Qed.

Lemma set_fifo_ok c a x : cok c -> 0 <= a < 6 -> ∃ c', set_fifo a x c = Some c' ∧ cok c'.
Proof.
  intros H Ha. unfold set_fifo. destruct (at_is_Some (FIFO_credit c) a) as [y Hy]; [rewrite (cok_fifo _ H); lia|].
  rewrite (put_Some _ _ _ _ Hy). eexists. split; [done|]. destruct H. split; cbn; rewrite ?length_insert; done.
Qed.

Lemma set_init_ok c a x : cok c -> 0 <= a < 6 -> ∃ c', set_init a x c = Some c' ∧ cok c'.
Proof.
  intros H Ha. unfold set_init. destruct (at_is_Some (Init_FIFO_credit c) a) as [y Hy]; [rewrite (cok_init _ H); lia|].
  rewrite (put_Some _ _ _ _ Hy). eexists. split; [done|]. destruct H. split; cbn; rewrite ?length_insert; done.
Qed.

Lemma row_ok c b : cok c -> 0 <= b < 6 -> ∃ r, at_ (credits_borrowed c) b = Some r ∧ length r = 6%nat.
Proof.
  intros H Hb. destruct (at_is_Some (credits_borrowed c) b) as [r Hr]; [rewrite (cok_borrowed _ H); lia|]. exists r. split; [done|].
  apply at_Some in Hr as [_ Hr]. pose proof (cok_rows _ H) as Hf. by rewrite Forall_lookup in Hf; eapply Hf.
Qed.

Lemma get_borrowed_ok c b a : cok c -> 0 <= b < 6 -> 0 <= a < 6 -> ∃ x, get_borrowed b a c = Some x.
Proof.
  intros H Hb Ha. destruct (row_ok c b H Hb) as (r & Hr & Hl). unfold get_borrowed. rewrite Hr. cbn. apply at_is_Some. lia.
Qed.

Lemma set_borrowed_ok c b a x : cok c -> 0 <= b < 6 -> 0 <= a < 6 -> ∃ c', set_borrowed b a x c = Some c' ∧ cok c'.
Proof.
  intros H Hb Ha. destruct (row_ok c b H Hb) as (r & Hr & Hl). unfold set_borrowed. rewrite Hr. cbn.
  destruct (at_is_Some r a) as [y Hy]; [lia|]. rewrite (put_Some _ _ _ _ Hy). cbn. rewrite (put_Some _ _ _ _ Hr). eexists. split; [done|].
  destruct H. split; cbn; rewrite ?length_insert; try done. apply Forall_insert; [done|]. by rewrite length_insert.
Qed.

Lemma add_borrowed_ok c b a d : cok c -> 0 <= b < 6 -> 0 <= a < 6 -> ∃ c', add_borrowed b a d c = Some c' ∧ cok c'.
Proof.
  intros H Hb Ha. unfold add_borrowed. destruct (get_borrowed_ok c b a H Hb Ha) as [x ->]. by apply set_borrowed_ok.
Qed.

Lemma borrow_loop_ok ls b all c : cok c -> 0 <= b < 6 -> Forall (λ l, 0 <= l < 6) ls -> ∃ l c', borrow_loop ls b all c = Some (l, c') ∧ cok c'.
Proof.
  intros H Hb. induction 1 as [|l ls Hl _ IH]; cbn [borrow_loop]; [by eexists _, _|]. unfold borrow_limit.
  destruct (at_is_Some (Init_FIFO_credit c) l) as [m Hm]; [rewrite (cok_init _ H); lia|].
  destruct (at_is_Some (FIFO_credit c) l) as [f Hf]; [rewrite (cok_fifo _ H); lia|]. rewrite Hm, Hf.
  destruct (add_borrowed_ok c b l 1 H Hb Hl) as (c1 & E1 & H1). destruct (add_fifo_ok c1 l (-1) H1 Hl) as (c2 & E2 & H2).
  destruct all; cbn [mbind option_bind]; (case_bool_decide; [rewrite E1; cbn [mbind option_bind]; rewrite E2; by eexists _, _|done]).
Qed.

Definition in_acs (ac : Z) : Prop := 0 <= ac <= AC_COUNT.

Section Transfer.
Context (O : Z -> bool) (cfg : dhd_cfg) (env : wenv).
Context (Hother : valid O other) (Hhdr : 0 <= dhd_hdrlen cfg).

Lemma inv_credits dev G s c : inv O dev G s -> cok c -> inv O dev G (set_w (set_w_credits c (s_w s)) s).
Proof. intros [? ? ? ? Hs [] ?] Hc. split; try done. destruct Hs. by split. Qed.

Lemma wp_on_credits {A} dev G s (f : wlfc_credits -> option (A * option wlfc_credits)) Q :
  inv O dev G s -> (∀ c, cok c -> ∃ a c', f c = Some (a, Some c') ∧ cok c') -> (∀ a s', inv O dev G s' -> Q a s') -> wp (on_credits f) s Q.
Proof.
  intros H Hf HQ. destruct (Hf _ (sh_credits _ _ (inv_shape _ _ _ _ H))) as (a & c' & E & Hc). unfold on_credits. apply wp_bind, wp_getw, wp_bind.
  eapply wp_lift; [exact E|]. cbv beta iota. apply wp_bind. eapply wp_lift; [done|]. apply wp_bind, wp_modify, wp_ret, HQ. by apply inv_credits.
Qed.

Lemma wp_borrow dev G s ac all Q : inv O dev G s -> in_acs ac -> (∀ l s', inv O dev G s' -> Q l s') -> wp (borrow ac all) s Q.
Proof.
  intros H Ha HQ. eapply wp_on_credits; [done| |done]. intros c Hc. cbn [_dhd_wlfc_borrow_credit].
  destruct (borrow_loop_ok (seqZ 0 (AC_COUNT + 1)) ac all c Hc) as (l & c' & -> & Hc'); [unfold in_acs, AC_COUNT in Ha; lia| |by exists l, c'].
  apply Forall_forall. intros x Hx%elem_of_seqZ. unfold AC_COUNT in Hx. lia.
Qed.

Lemma wp_give_back dev G s l ac Q : inv O dev G s -> in_acs ac -> (∀ x s', inv O dev G s' -> Q x s') -> wp (give_back l ac) s Q.
Proof.
  intros H Ha HQ. eapply wp_on_credits; [done| |done]. intros c Hc. unfold _dhd_wlfc_return_credit, in_acs, AC_COUNT in *.
  destruct (bool_decide (l < 0) || _ || _ || _) eqn:E; [by eexists _, _|]. repeat (apply orb_false_iff in E as [E ?%bool_decide_eq_false]).
  apply bool_decide_eq_false in E. destruct (add_borrowed_ok c ac l (-1) Hc) as (c1 & -> & Hc1); [lia|lia|]. cbn [mbind option_bind].
  destruct (add_fifo_ok c1 l 1 Hc1) as (c2 & -> & Hc2); [lia|]. by eexists _, _.
Qed.

Lemma wp_spend dev G s ac Q : inv O dev G s -> in_acs ac -> (∀ s', inv O dev G s' -> Q tt s') -> wp (spend ac) s Q.
Proof.
  intros H Ha HQ. unfold spend, spend_credit. wauto1. wauto1. destruct (add_fifo_ok _ ac (-1) (sh_credits _ _ (inv_shape _ _ _ _ H))) as (c & E & Hc);
    [unfold in_acs, AC_COUNT in Ha; lia|]. apply wp_bind. eapply wp_lift; [exact E|]. apply wp_modify, HQ. by apply inv_credits.
Qed.

Lemma wp_fifo_credit dev G s ac (B : Type) (k : Z -> M B) Q :
  inv O dev G s -> in_acs ac -> (∀ f, wp (k f) s Q) -> wp (c ← getw w_credits; f ← lift (at_ (FIFO_credit c) ac); k f) s Q.
Proof.
  intros H Ha HQ. wauto1. wauto1. destruct (at_is_Some (FIFO_credit (w_credits (s_w s))) ac) as [f Hf].
  { rewrite (cok_fifo _ (sh_credits _ _ (inv_shape _ _ _ _ H))). unfold in_acs, AC_COUNT in Ha. lia. }
  apply wp_bind. eapply wp_lift; [exact Hf|done].
Qed.
End Transfer.

(** ** What a call does to the packets *)

Definition ident (i : pinfo) := (i_if i, i_ac i, i_payload i).

(** The dongle has the packet, or had it. *)
Definition sent (i : pinfo) : bool := match i_place i with AtDongle _ | Suppressed _ => true | _ => false end.

(** It is the same packet of the network, and it has not come further than the
    bus. *)
Record later (i i' : pinfo) : Prop := {
  lt_data : data i' = true;
  lt_ident : ident i' = ident i;
  lt_sent : sent i' = true -> sent i = true
}.

(** The packets of the network stay, with their data, and there are no new ones. *)
Record evolves (G G' : packets) : Prop := {
  ev_kept : ∀ p i, G !! p = Some i -> data i = true -> ∃ i', G' !! p = Some i' ∧ later i i';
  ev_only : ∀ p i', G' !! p = Some i' -> data i' = true -> ∃ i, G !! p = Some i ∧ data i = true
}.

Lemma later_refl i : data i = true -> later i i.
Proof. by split. Qed.

Lemma later_trans i j k : later i j -> later j k -> later i k.
Proof. intros [] []. split; [done|congruence|auto]. Qed.

Lemma evolves_refl G : evolves G G.
Proof. split; eauto using later_refl. Qed.

Lemma evolves_trans G1 G2 G3 : evolves G1 G2 -> evolves G2 G3 -> evolves G1 G3.
Proof.
  intros [A1 B1] [A2 B2]. split.
  - intros p i Hp Hd. destruct (A1 p i Hp Hd) as (i2 & H2 & E2). destruct (A2 p i2 H2 (lt_data _ _ E2)) as (i3 & H3 & E3). exists i3. split; [done|by eapply later_trans].
  - intros p i Hp Hd. destruct (B2 p i Hp Hd) as (i2 & H2 & D2). by apply (B1 p i2).
Qed.

Lemma evolves_grows G G' : grows G G' -> evolves G G'.
Proof.
  intros Hg. split.
  - intros p i Hp Hd. exists i. split; [by eapply grows_lookup|by apply later_refl].
  - intros p i Hp Hd. destruct (grows_inv _ _ _ _ Hg Hp) as [?| ->]; [by exists i|done].
Qed.

Lemma evolves_insert G p i i' : G !! p = Some i -> data i = true -> later i i' -> evolves G (<[p := i']> G).
Proof.
  intros Hp D E. split.
  - intros q j Hq Dj. destruct (decide (q = p)) as [->|Hne]; [|exists j; rewrite lookup_insert_ne by done; by split; [|apply later_refl]].
    exists i'. rewrite lookup_insert_eq. split; [done|congruence].
  - intros q j. rewrite lookup_insert_Some. intros [[<- <-]|[_ Hq]] Dj; [by exists i|by exists j].
Qed.

Lemma tidy_grows G G' : grows G G' -> all_tidy G -> all_tidy G'.
Proof. intros Hg Ht p i Hp. destruct (grows_inv _ _ _ _ Hg Hp) as [?| ->]; [by apply (Ht p)|done]. Qed.

Lemma tidy_insert G p i : all_tidy G -> tidy i -> all_tidy (<[p := i]> G).
Proof. intros Ht Hi q j. rewrite lookup_insert_Some. intros [[_ <-]|[_ Hq]]; [done|by apply (Ht q)]. Qed.

Lemma tidy_insert_grows G G' p i j : grows (<[p := i]> G) G' -> all_tidy G -> tidy j -> all_tidy (<[p := j]> G').
Proof.
  intros Hg Ht Hj q k. rewrite lookup_insert_Some. intros [[_ <-]|[Hne Hq]]; [done|]. destruct (grows_inv _ _ _ _ Hg Hq) as [Hk| ->]; [|done].
  rewrite lookup_insert_ne in Hk by done. by apply (Ht q).
Qed.

(** A packet is in another place, and the driver's own packets have come. *)
Lemma evolves_moved G G' p i j k :
  grows (<[p := j]> G) G' -> G !! p = Some i -> data i = true -> later i k -> evolves G (<[p := k]> G').
Proof.
  intros Hg Hp D E. eapply evolves_trans; [by eapply (evolves_insert G p i k)|]. apply evolves_grows.
  rewrite <-(insert_insert_eq G p k j). eapply grows_insert; [done|apply lookup_insert_eq].
Qed.

Section Rounds.
Context (O : Z -> bool) (cfg : dhd_cfg) (env : wenv).
Context (Hother : valid O other) (Hhdr : 0 <= dhd_hdrlen cfg).

(** The counts of packets in transit are right, and every packet is somewhere. *)
Definition exact : Z -> Z := λ _, 0.
Definition settled (G : packets) (s : sys) : Prop := inv O exact G s ∧ all_tidy G.

(** ** One packet *)

Lemma wp_found_commit prec G d s p e :
  found O exact G prec d s -> all_tidy G -> dq_p d = Some p -> dq_entry d = Some e ->
  wp (_dhd_wlfc_handle_packet_commit env e p (dq_credit_spent d) (dq_needs_hdr d)) s
    (λ rc s', ∃ G', evolves G G' ∧ settled G' s' ∧ (rc = BCME_OK -> count (waits_ac prec) G' = count (waits_ac prec) G - 1)).
Proof.
  intros (p' & i & e' & G1 & Ep & Ee & Hi & Ei & Ea & Hv & Hg & H) Ht Ep' Ee'. rewrite Ep in Ep'. rewrite Ee in Ee'. injection Ep' as ->. injection Ee' as ->.
  set (b := negb (dq_needs_hdr d)) in *. set (j := set_waiting false (set_place (Hand b (Some e)) i)) in *.
  replace (dq_needs_hdr d) with (negb b) by apply negb_involutive. clearbody b.
  assert (G1 !! p = Some j) as Hj by (eapply grows_lookup; [done|apply lookup_insert_eq]). pose proof (Ht p i Hi) as Hti. unfold tidy in Hti. rewrite Ei in Hti.
  assert (i_waiting i = true ∧ i_counted i = true ∧ data i = true) as (Hw & Hc & Hd) by (unfold data; rewrite Ei; by destruct b, Hti).
  assert (∀ k, later i k -> tidy k -> evolves G (<[p := k]> G1) ∧ all_tidy (<[p := k]> G1)) as Hmoved.
  { intros k Ek Tk. split; [by eapply evolves_moved|by eapply tidy_insert_grows]. }
  eapply (wp_commit O env exact G1 s p j e b); try done.
  - intros s' H'. exists (<[p := set_place (OnBus e) j]> G1). destruct (Hmoved (set_place (OnBus e) j)) as [He' Ht']; [by split|done|].
    split; [done|]. split; [done|]. intros _. rewrite (grows_count (waits_ac prec) (<[p := set_place (OnBus e) j]> (<[p := j]> G)));
      [|eapply grows_insert; [done|apply lookup_insert_eq]|done].
    rewrite insert_insert_eq, (count_update _ _ _ i) by done. unfold waits_ac. cbn. rewrite Hw, bool_decide_true by done. cbn. lia.
  - intros rc s' Hrc H'. exists (<[p := set_waiting true (set_place (waiting_at b e) j)]> G1).
    destruct (Hmoved (set_waiting true (set_place (waiting_at b e) j))) as [He' Ht']; [split; [by destruct b|done|unfold sent; cbn; by rewrite Ei]|by destruct b|]. by split_and!.
Qed.

(** ** Rounds *)

Definition tx_of (o : outcome) : tx := match o with Again t | Break t | Exit t => t end.

(** What a round or a loop leaves of the variables. *)
Definition same_tx (t t' : tx) : Prop := tx_map t' = tx_map t ∧ tx_single_ac t' = tx_single_ac t ∧ tx_bus_retry t <= tx_bus_retry t'.

Lemma same_trans t1 t2 t3 : same_tx t1 t2 -> same_tx t2 t3 -> same_tx t1 t3.
Proof. unfold same_tx. intros (? & ? & ?) (? & ? & ?). split_and!; congruence || lia. Qed.

Ltac rounds := unfold same_tx; split_and!; cbn; done || lia.

Definition round_post (t : tx) (G : packets) (n : packets -> Prop) (o : outcome) (s : sys) : Prop :=
  ∃ G', evolves G G' ∧ settled G' s ∧ same_tx t (tx_of o) ∧ (match o with Again _ => n G' | _ => True end).

Lemma wp_send_round ac t G s :
  settled G s -> in_acs ac -> 0 <= tx_bus_retry t -> wp (send_round cfg env ac t) s (λ r s', round_post t G (λ _, r.2 = 1) r.1 s').
Proof.
  intros [H Ht] Ha Hretry. unfold send_round. do 2 wauto1. wauto1. wauto1. apply wp_bind.
  destruct (at_is_Some (FIFO_credit (w_credits (s_w s))) ac) as [f Hf].
  { rewrite (cok_fifo _ (sh_credits _ _ (inv_shape _ _ _ _ H))). unfold in_acs, AC_COUNT in Ha. lia. }
  eapply wp_lift; [exact Hf|]. cbv zeta. wthen; [destruct (_ && _ && _ && _); [by eapply wp_borrow|by apply wp_ret]|]. intros lender s1 H1.
  apply wp_bind. eapply wp_deque; try done.
  - intros d s2 Ed H2. rewrite Ed. wthen; [destruct (_ && _); [by eapply wp_give_back|by apply wp_ret]|]. intros _ s3 H3. apply wp_ret.
    exists G. split; [apply evolves_refl|]. split; [done|]. split; [|done]. split; [done|]. split; [done|]. cbn. lia.
  - intros d s2 Hf2. pose proof Hf2 as (p & i & e & G1 & Ep & Ee & _). rewrite Ep, Ee. apply wp_bind. eapply wp_lift; [done|]. apply wp_bind.
    eapply wp_mono; [by eapply (wp_found_commit ac G d s2 p e)|]. intros rc s3 (G' & Hev & [H3 Ht3] & _).
    apply wp_if; intros Erc.
    + wthen. { destruct (_ && _); [by eapply wp_spend|]. destruct (_ && _); [|by apply wp_ret]. apply wp_bind. eapply wp_give_back; [done|done|]. intros. by apply wp_ret. }
      intros _ s4 H4. apply wp_ret. exists G'. split_and!; done || by rounds.
    + wthen; [destruct (_ && _); [by eapply wp_give_back|by apply wp_ret]|]. intros _ s4 H4. apply wp_ret. exists G'.
      rewrite bool_decide_true by (unfold BUS_RETRIES; cbn; lia). split_and!; done || by rounds.
Qed.

Lemma wp_send_ac ac : ∀ fuel sent bound t G s,
  settled G s -> in_acs ac -> 0 <= tx_bus_retry t -> bound - sent <= Z.of_nat fuel ->
  wp (send_ac cfg env fuel ac sent bound t) s (λ o s', round_post t G (λ _, False) o s').
Proof.
  induction fuel as [|fuel IH]; intros sent bound t G s H Ha Hr Hf; cbn [send_ac]; apply wp_if; intros E.
  1, 3: apply wp_ret; exists G; split; [apply evolves_refl|]; split; [done|]; split; [|done]; split_and!; done || lia.
  - apply orb_false_iff in E as [_ E%bool_decide_eq_false]. lia.
  - apply wp_bind. eapply wp_mono; [by apply wp_send_round|]. intros [o k] s1 (G1 & Hev & H1 & Hs & Ho). cbn in Hs, Ho.
    destruct o as [t1|t1|t1]; [|apply wp_ret; by exists G1..]. cbn in Hs. subst k.
    eapply wp_mono; [apply (IH (sent + 1) bound t1 G1 s1 H1 Ha)|]; [unfold same_tx in Hs; lia|lia|]. intros o s2 (G2 & Hev2 & H2 & Hs2 & Ho2).
    exists G2. split; [by eapply evolves_trans|]. split; [done|]. split; [by eapply same_trans|done].
Qed.

(** The category of the only traffic is known when there is any. *)
Definition good_tx (t : tx) : Prop := 0 <= tx_bus_retry t ∧ (tx_map t ≠ 0 -> 1 <= tx_single_ac t <= AC_COUNT + 1).

Lemma wp_send_acs acs : ∀ t G s,
  settled G s -> Forall in_acs acs -> good_tx t ->
  wp (send_acs cfg env acs t) s (λ o s', ∃ G', evolves G G' ∧ settled G' s' ∧ good_tx (tx_of o)).
Proof.
  induction acs as [|ac acs IH]; intros t G s H Hacs Hg; cbn [send_acs].
  - apply wp_ret. exists G. split; [apply evolves_refl|done].
  - apply Forall_cons in Hacs as [Ha Hacs]. pose proof H as [Hi _]. apply wp_bind.
    eapply (wp_mono _ _ (λ t' s', good_tx t' ∧ settled G s')).
    { apply wp_if; intros _; [|by apply wp_ret]. apply wp_bind. eapply wp_tick; [done|]. intros n s1 H1. apply wp_bind.
      eapply wp_cnt; [rewrite (sh_rx _ _ (inv_shape _ _ _ _ H1)); unfold in_acs, AC_COUNT in Ha; lia|]. intros ts _. apply wp_ret. split; [by destruct (bool_decide _)|by split; [|apply H]]. }
    intros t1 s1 [Hg1 H1]. pose proof H1 as [Hi1 _]. pose proof (inv_counted _ _ _ _ Hi1) as Hc. apply wp_bind.
    assert (∀ s', settled G s' -> 0 <= ac < Z.of_nat (length (w_pkt_cnt_per_ac (s_w s')))) as Hlen.
    { intros s' [H' _]. rewrite (proj1 (ct_per_ac _ _ _ (inv_counted _ _ _ _ H'))). unfold in_acs, AC_COUNT in Ha. lia. }
    eapply wp_cnt; [by apply Hlen|]. intros n _. apply wp_if; intros _; [by apply IH|]. cbv zeta. do 2 wauto1. apply wp_bind.
    set (t2 := set_single _ _). assert (good_tx t2) as Hg2 by (split; [apply Hg1|intros _; unfold in_acs in Ha; cbn; lia]).
    eapply wp_mono; [apply (wp_send_ac ac _ 0 _ t2 G s1 H1 Ha); [apply Hg2|lia]|]. intros o s2 (G2 & Hev & H2 & (E1 & E2 & E3) & Ho).
    assert (good_tx (tx_of o)) as Hgo by (split; [destruct Hg2; lia|intros _; rewrite E2; unfold in_acs in Ha; cbn; lia]).
    assert (∀ t3, tx_of o = t3 -> wp (n ← cnt w_pkt_cnt_per_ac ac;
      send_acs cfg env acs (if bool_decide (n ≠ 0) then set_packets (Z.lor (tx_packets_map t3) (Z.shiftl 1 ac)) t3 else t3)) s2
      (λ o s', ∃ G', evolves G G' ∧ settled G' s' ∧ good_tx (tx_of o))) as Hnext.
    { intros t3 Et. apply wp_bind. eapply wp_cnt.
      { rewrite (proj1 (ct_per_ac _ _ _ (inv_counted _ _ _ _ (proj1 H2)))). unfold in_acs, AC_COUNT in Ha. lia. }
      intros m _. eapply wp_mono; [apply (IH _ G2 s2 H2 Hacs); rewrite Et in Hgo; by destruct (bool_decide _)|].
      intros o' s' (G' & Hev' & H' & Hg'). exists G'. split; [by eapply evolves_trans|done]. }
    destruct o as [t3|t3|t3]; [by apply Hnext|by apply Hnext|]. apply wp_ret. by exists G2.
Qed.

(** ** Borrowing all *)

Lemma wp_borrow_round ac t G s :
  settled G s -> in_acs ac -> 0 <= tx_bus_retry t ->
  wp (borrow_round cfg env ac t) s (λ o s', round_post t G (λ G', count (waits_ac ac) G' = count (waits_ac ac) G - 1) o s').
Proof.
  intros [H Ht] Ha Hr. unfold borrow_round. assert (∀ s', settled G s' -> round_post t G (λ G', count (waits_ac ac) G' = count (waits_ac ac) G - 1) (Break t) s') as Hbreak.
  { intros s' H'. exists G. split; [apply evolves_refl|]. split; [done|]. split; [|done]. split_and!; done || lia. }
  apply wp_if; intros _; [by apply wp_ret, Hbreak|]. apply wp_bind. eapply wp_borrow; [done|done|]. intros lender s1 H1.
  apply wp_if; intros _; [by apply wp_ret, Hbreak|]. apply wp_bind. eapply wp_deque; try done.
  - intros d s2 Ed H2. cbv zeta. rewrite Ed. apply wp_bind. eapply wp_give_back; [done|done|]. intros _ s3 H3. apply wp_ret.
    exists G. split; [apply evolves_refl|]. split; [done|]. split; [|done]. split; [done|]. split; [done|]. cbn. lia.
  - intros d s2 Hf2. cbv zeta. pose proof Hf2 as (p & i & e & G1 & Ep & Ee & _). rewrite Ep, Ee. apply wp_bind. eapply wp_lift; [done|]. apply wp_bind.
    eapply wp_mono; [by eapply (wp_found_commit ac G d s2 p e)|]. intros rc s3 (G' & Hev & [H3 Ht3] & Hcnt).
    apply wp_if; intros Erc.
    + wthen; [destruct (dq_credit_spent d); [by apply wp_ret|by eapply wp_give_back]|].
      intros _ s4 H4. apply wp_ret. exists G'. apply bool_decide_eq_true in Erc. split_and!; done || (by rounds) || by apply Hcnt.
    + apply wp_bind. eapply wp_give_back; [done|done|]. intros _ s4 H4. apply wp_ret. exists G'.
      rewrite bool_decide_true by (unfold BUS_RETRIES; cbn; lia). split_and!; done || by rounds.
Qed.

Lemma wp_borrow_all ac : ∀ fuel t G s,
  settled G s -> in_acs ac -> 0 <= tx_bus_retry t -> count (waits_ac ac) G < Z.of_nat fuel ->
  wp (borrow_all cfg env fuel ac t) s (λ o s', ∃ G', evolves G G' ∧ settled G' s').
Proof.
  induction fuel as [|fuel IH]; intros t G s H Ha Hr Hf; cbn [borrow_all]; apply wp_if; intros E.
  1, 3: apply wp_ret; exists G; split; [apply evolves_refl|done].
  - pose proof (count_pos (waits_ac ac) G). lia.
  - apply wp_bind. eapply wp_mono; [by apply wp_borrow_round|]. intros o s1 (G1 & Hev & H1 & Hs & Ho).
    destruct o as [t1|t1|t1]; [|apply wp_ret; by exists G1..]. cbn in Hs. eapply wp_mono; [apply (IH t1 G1 s1 H1 Ha)|]; [unfold same_tx in Hs; lia|lia|].
    intros o s2 (G2 & Hev2 & H2). exists G2. split; [by eapply evolves_trans|done].
Qed.

Lemma wp_may_borrow dev G s t Q :
  inv O dev G s -> (∀ r s', inv O dev G s' -> (∀ ac, r = Some ac -> ac = tx_single_ac t - 1) -> Q r s') -> wp (may_borrow env t) s Q.
Proof.
  intros H HQ. assert (∀ s', inv O dev G s' -> Q None s' ∧ Q (Some (tx_single_ac t - 1)) s') as HQ'.
  { intros s' H'. split; apply HQ; try done. by intros ? [= <-]. }
  unfold may_borrow. wauto; by apply HQ'.
Qed.

(** The loop ends, and keeps the packets. *)
Lemma wp_transfer G s : settled G s -> wp (dhd_wlfc_transfer_packets cfg env) s (λ _ s', ∃ G', evolves G G' ∧ settled G' s').
Proof.
  intros H. unfold dhd_wlfc_transfer_packets. apply wp_bind. eapply wp_mono; [apply (wp_send_acs _ _ G s H)|].
  - apply Forall_reverse, Forall_forall. intros x Hx%elem_of_seqZ. unfold in_acs. lia.
  - split; [cbn; lia|done].
  - intros o s1 (G1 & Hev & H1 & Hg). assert (∀ rc : Z, wp (mret rc) s1 (λ _ s', ∃ G', evolves G G' ∧ settled G' s')) as Hret by (intros; apply wp_ret; by exists G1).
    assert (∀ t, tx_of o = t -> wp (if bool_decide (tx_map t = 0) || proptxstatus_credit_ignore cfg then mret BCME_OK
      else r ← may_borrow env t;
        match r with
        | None => mret BCME_OK
        | Some ac =>
            if bool_decide (tx_packets_map t = 0) then mret BCME_OK
            else n ← cnt w_pkt_cnt_per_ac ac; o ← borrow_all cfg env (S (Z.to_nat n)) ac t; match o with Exit t | Again t | Break t => mret (tx_rc t) end
        end) s1 (λ _ s', ∃ G', evolves G G' ∧ settled G' s')) as Hend.
    { intros t Et. apply wp_if; intros Em; [done|]. apply orb_false_iff in Em as [Em%bool_decide_eq_false _]. apply wp_bind. destruct H1 as [H1 Ht1].
      eapply wp_may_borrow; [done|]. intros r s2 H2 Hr. destruct r as [ac|]; [|apply wp_ret; by exists G1]. apply wp_if; intros _; [apply wp_ret; by exists G1|].
      rewrite Et in Hg. destruct Hg as [Hg1 Hg2]. specialize (Hg2 Em). specialize (Hr ac eq_refl). assert (in_acs ac) as Ha by (unfold in_acs; lia).
      pose proof (ct_per_ac _ _ _ (inv_counted _ _ _ _ H2)) as [Hl Hcnt]. apply wp_bind. eapply wp_cnt; [unfold in_acs, AC_COUNT in Ha; lia|]. intros n Hn.
      apply wp_bind. eapply wp_mono; [apply (wp_borrow_all ac (S (Z.to_nat n)) t G1 s2); [done|done|done|rewrite (Hcnt _ _ Hn); pose proof (count_pos (waits_ac ac) G1); lia]|].
      intros o' s3 (G3 & Hev3 & H3). destruct o'; apply wp_ret; exists G3; (split; [by eapply evolves_trans|done]). }
    destruct o as [t|t|t]; [by apply Hend|by apply Hend|done].
Qed.
End Rounds.

(** * Wireless flow control: the calls of the network and of the bus

    A packet that the network commits and one that the bus gives back: both calls
    have a result, and they leave the state settled. *)

(** ** Credits *)

Lemma implied_loop_ok ls b c : cok c -> 0 <= b < 6 -> Forall (λ l, 0 <= l < 6) ls -> ∃ r c', implied_loop ls b c = Some (r, c') ∧ cok c'.
Proof.
  intros H Hb. induction 1 as [|l ls Hl _ IH]; cbn [implied_loop]; [by eexists _, _|].
  destruct (get_borrowed_ok c b l H Hb Hl) as [x ->]. cbn [mbind option_bind]. case_bool_decide; [|done].
  destruct (add_fifo_ok c l 1 H Hl) as (c1 & -> & H1). cbn [mbind option_bind].
  destruct (add_borrowed_ok c1 b l (-1) H1 Hb Hl) as (c2 & -> & H2). by eexists _, _.
Qed.

Lemma lenders_in_range : Forall (λ l, 0 <= l < 6) lenders_down.
Proof. apply Forall_reverse, Forall_forall. intros x Hx%elem_of_seqZ. unfold AC_COUNT in Hx. lia. Qed.

Lemma implied_ok mode c fl : cok c -> 0 <= DHD_PKTTAG_FIFO fl <= AC_COUNT -> ∃ c', _dhd_wlfc_return_implied_credit mode (Some c) (Some fl) = Some (Some c') ∧ cok c'.
Proof.
  intros H Hf. unfold AC_COUNT in Hf. cbn [_dhd_wlfc_return_implied_credit]. destruct (_ && _); [|by eexists].
  destruct (implied_loop_ok lenders_down (DHD_PKTTAG_FIFO fl) c H) as (r & c1 & -> & H1); [lia|apply lenders_in_range|]. cbn [mbind option_bind].
  destruct r; [by eexists|]. destruct (add_fifo_ok c1 (DHD_PKTTAG_FIFO fl) 1 H1) as (c2 & -> & H2); [lia|]. by eexists.
Qed.

Section Calls.
Context (O : Z -> bool) (cfg : dhd_cfg) (env : wenv).
Context (Hother : valid O other) (Hhdr : 0 <= dhd_hdrlen cfg).

Lemma wp_implied dev G s fl Q :
  inv O dev G s -> 0 <= DHD_PKTTAG_FIFO fl <= AC_COUNT -> (∀ s', inv O dev G s' -> Q tt s') -> wp (return_implied_credit cfg fl) s Q.
Proof.
  intros H Hf HQ. unfold return_implied_credit. apply wp_bind, wp_getw, wp_bind.
  destruct (implied_ok (proptxstatus_mode cfg) _ fl (sh_credits _ _ (inv_shape _ _ _ _ H)) Hf) as (c & E & Hc). eapply wp_lift; [exact E|].
  apply wp_bind. eapply wp_lift; [done|]. apply wp_modify, HQ. by apply inv_credits.
Qed.

(** ** Counts of a descriptor *)

(** The count is not zero when it is ahead. *)
Lemma wp_dec_transit dev G s e Q :
  inv O dev G s -> 0 <= e < n_entries -> 1 <= dev e -> (∀ s', inv O (<[e := dev e - 1]> dev) G s' -> Q tt s') -> wp (dec_transit e) s Q.
Proof.
  intros H He Hd HQ. unfold dec_transit. apply wp_bind. eapply wp_getd; [done|done|]. intros d Hat _.
  pose proof (ct_transit _ _ _ (inv_counted _ _ _ _ H) e d Hat) as Hc. pose proof (count_pos (in_transit e) G).
  apply wp_if; [intros _|intros ?%bool_decide_eq_false; lia]. by apply (wp_set_transit O dev G s e d (-1)).
Qed.

Lemma wp_check_suppressed dev G s e Q :
  inv O dev G s -> 0 <= e < n_entries -> (∀ s', inv O dev G s' -> Q tt s') -> wp (check_suppressed e) s Q.
Proof. intros H He HQ. unfold check_suppressed. wauto; by apply HQ. Qed.

Lemma wp_dec_suppr dev G s e Q :
  inv O dev G s -> 0 <= e < n_entries -> (∀ s', inv O dev G s' -> Q tt s') -> wp (dec_suppr e) s Q.
Proof. intros H He HQ. unfold dec_suppr. wauto; [|by apply HQ]. by eapply wp_check_suppressed. Qed.

(** ** A packet of the network *)

(** It has room for the header, a category that there is, and no tag of the flow
    control. *)
Record fresh_pkt (x : wpkt) : Prop := {
  fr_wf : wf_pkt x;
  fr_room : 16 <= pkt_off x;
  fr_fifo : DHD_PKTTAG_FIFO (if_flags x) <= AC_COUNT;
  fr_signal : DHD_PKTTAG_SIGNALONLY (if_flags x) = 0;
  fr_entry : tag_entry x = None
}.
Definition network_info (x : wpkt) : pinfo := mk_info (Hand false None) (DHD_PKTTAG_IF (if_flags x)) (DHD_PKTTAG_FIFO (if_flags x)) false false (PKTDATA x).
Definition handed_in (p : pkt) (x : wpkt) (s : sys) : sys := set_p (<[p := x]> (s_p s)) (set_h (<[p := None]> (s_h s)) s).

Lemma fresh_ok x : fresh_pkt x -> pkt_ok O (network_info x) x.
Proof.
  intros []. split; cbn; try done.
  - intros _. by rewrite fr_signal0.
  - intros _. split; [|done]. apply (get_field_range 4 3); lia.
  - intros _. exists []. cbn. split; [done|]. split; [done|lia].
Qed.

Lemma inv_handed_in dev G s p x :
  inv O dev G s -> s_h s !! p = None -> fresh_pkt x -> count data G < 32767 -> inv O dev (<[p := network_info x]> G) (handed_in p x s).
Proof. intros H Hp Hx Hc. eapply new_inv; try done. by apply fresh_ok. Qed.

(** The packet waits, and what can be sent is sent. *)
Lemma wp_commit_call G s p x :
  settled O G s -> s_h s !! p = None -> fresh_pkt x -> count data G < 32767 ->
  proptxstatus_mode cfg ≠ WLFC_FCMODE_NONE -> proptxstatus_module_ignore cfg = false ->
  wp (dhd_wlfc_commit_packets cfg env (Some p)) (handed_in p x s)
    (λ rc s', rc = BCME_OK ∧ ∃ G', evolves (<[p := network_info x]> G) G' ∧ settled O G' s').
Proof.
  intros [H Ht] Hp Hx Hc Hm Hi. pose proof (inv_handed_in _ _ _ _ _ H Hp Hx Hc) as H1. set (i := network_info x) in *.
  assert ((<[p := i]> G) !! p = Some i) as Hpi by apply lookup_insert_eq.
  unfold dhd_wlfc_commit_packets. rewrite bool_decide_false by done. rewrite Hi. apply wp_bind, wp_bind. eapply wp_pkt_fifo; [done|done|].
  apply wp_bind. eapply (wp_modp O exact _ _ p i); [done|done| |]. { intros y _ Hy. by apply (pkt_ok_flag O i y 15). }
  intros s2 H2. apply wp_bind. eapply (wp_enque_delayq O cfg env Hother Hhdr exact _ s2 p i); [done|done|done|done|].
  intros e G3 s3 Hv Hg H3. rewrite insert_insert_eq in Hg. set (i3 := set_waiting true (set_place (Delayed e) i)) in *.
  assert (G3 !! p = Some i3) as Hi3 by (eapply grows_lookup; [done|apply lookup_insert_eq]).
  rewrite bool_decide_false by naive_solver. apply wp_bind, wp_bind. eapply wp_pkt_if; [done|done|].
  eapply (wp_count O exact G3 s3 p i3 true); [done|done|done| |].
  { destruct (inv_pkt _ _ _ _ H3 p i3 Hi3) as (y & _ & Hy). by apply (ok_range _ _ _ Hy). }
  intros s4 H4. apply wp_ret, wp_bind. eapply wp_mono; [apply (wp_transfer O cfg env Hhdr (<[p := set_counted true i3]> G3))|].
  - split; [done|]. eapply tidy_insert_grows; done.
  - intros _ s5 (G5 & Hev & H5). apply wp_ret. split; [done|]. exists G5. split; [|done]. eapply evolves_trans; [|done].
    apply (evolves_moved _ G3 p i i3); [by rewrite insert_insert_eq|done..|by split].
Qed.

Lemma wp_kick G s :
  settled O G s -> proptxstatus_mode cfg ≠ WLFC_FCMODE_NONE -> proptxstatus_module_ignore cfg = false ->
  wp (dhd_wlfc_commit_packets cfg env None) s (λ rc s', rc = BCME_OK ∧ ∃ G', evolves G G' ∧ settled O G' s').
Proof.
  intros H Hm Hi. unfold dhd_wlfc_commit_packets. rewrite bool_decide_false by done. rewrite Hi. apply wp_bind, wp_ret, wp_bind.
  eapply wp_mono; [by apply (wp_transfer O cfg env Hhdr G)|]. intros ? s1 H1. by apply wp_ret.
Qed.

(** ** A packet that the bus gives back *)

(** It waits for its status, or it is done. *)
Definition completed (ok : bool) (p : pkt) (i : pinfo) (G : packets) : packets :=
  match i_place i with
  | OnBus e => if negb ok || proptxstatus_txstatus_ignore cfg then delete p G else <[p := set_place (AtDongle e) i]> G
  | _ => delete p G
  end.

Lemma wp_complete_signal G s p i ok :
  settled O G s -> G !! p = Some i -> i_place i = SignalOnBus -> proptxstatus_mode cfg ≠ WLFC_FCMODE_NONE ->
  wp (dhd_wlfc_txcomplete cfg p ok) s (λ rc s', rc = BCME_OK ∧ settled O (delete p G) s').
Proof.
  intros [H Ht] Hi Ei Hm. pose proof (Ht p i Hi) as Hti. unfold tidy in Hti. rewrite Ei in Hti. destruct Hti as [Hw Hcn].
  destruct (inv_pkt _ _ _ _ H p i Hi) as (x & Hx & Hok). destruct (ok_data _ _ _ Hok) as (h & Hd & Hh & Ho); [by rewrite Ei|]. rewrite Ei in Hh.
  pose proof (ok_signal _ _ _ Hok) as Hs. rewrite Ei in Hs. specialize (Hs ltac:(done)).
  destruct (pullheader_spec _ h _ (ok_wf _ _ _ Hok) Hd Hh) as (x4 & Ex & [W4 M4 O4 D4]).
  unfold dhd_wlfc_txcomplete. apply wp_bind. set (i1 := set_place SignalHand i).
  eapply (wp_bus_returns O exact G s p i i1); [done|done|unfold pos_of; by rewrite Ei|done|done| |done|unfold data; by rewrite Ei|].
  { intros y _ []. split; cbn; done. }
  intros s1 H1 E1. rewrite bool_decide_false by done.
  assert (inv O exact (<[p := i1]> G) s1) as H1'.
  { eapply inv_dev; [exact H1|]. intros e _. unfold moved_dev, in_transit. rewrite Ei. done. }
  assert ((<[p := i1]> G) !! p = Some i1) as Hi1 by apply lookup_insert_eq.
  apply wp_bind. eapply wp_getp; [done|done|]. intros y Hy _. assert (y = x) as -> by congruence. rewrite Hs. apply wp_bind.
  eapply wp_getp; [done|done|]. intros y Hy' _. assert (y = x) as -> by congruence. apply wp_bind. eapply wp_lift; [exact Ex|]. cbv beta iota. apply wp_bind.
  eapply (wp_setp O exact _ s1 p i1 i1); try done.
  { unfold meta in M4. injection M4 as F1 _ F3 _ F5 _ _. destruct Hok. split; cbn; rewrite ?F1; done. }
  intros s2 H2 _. apply wp_bind. eapply wp_PKTFREE; [exact H2|apply lookup_insert_eq|done..|]. intros s3 H3. apply wp_ret.
  split; [done|]. rewrite !delete_insert_eq in H3. split; [done|]. intros q j [_ Hj]%lookup_delete_Some. by apply (Ht q).
Qed.

(** The packet is in hand, and its descriptor is one ahead. *)
Definition ahead (e : Z) : Z -> Z := <[e := 1]> exact.

Lemma wp_bus_back G s p i e Q :
  inv O exact G s -> G !! p = Some i -> i_place i = OnBus e ->
  (∀ s', inv O (ahead e) (<[p := set_place (Hand true (Some e)) i]> G) s' -> Q tt s') -> wp (bus_returns p) s Q.
Proof.
  intros H Hi Ei HQ. eapply (wp_bus_returns O exact G s p i (set_place (Hand true (Some e)) i)); [done|done|unfold pos_of; by rewrite Ei|done|done| |done|unfold data; by rewrite Ei|].
  - intros x _ Hx. apply pkt_ok_place; by rewrite ?Ei.
  - intros s1 H1 _. apply HQ. eapply inv_dev; [exact H1|]. intros e' _. unfold moved_dev, in_transit, ahead. rewrite Ei. cbn.
    destruct (decide (e = e')) as [<-|Hne]; [by rewrite upd_eq, bool_decide_true|by rewrite upd_ne, bool_decide_false].
Qed.

(** A packet in hand is done with. *)
Lemma wp_done dev G s p i b e Q :
  inv O dev G s -> G !! p = Some i -> i_place i = Hand b (Some e) -> i_waiting i = false -> i_counted i = true ->
  (∀ s', inv O dev (delete p G) s' -> Q tt s') -> wp (i ← pkt_if p; f ← pkt_fifo p; _ ← add_in_drv i f (-1); PKTFREE p) s Q.
Proof.
  intros H Hi Ei Hw Hc HQ. apply wp_bind. eapply wp_pkt_if; [done|done|]. apply wp_bind. eapply wp_pkt_fifo; [done|done|]. apply wp_bind.
  eapply (wp_count O dev G s p i false); [done|done|done|by eapply inv_hand|]. intros s1 H1.
  eapply wp_PKTFREE; [exact H1|apply lookup_insert_eq|unfold pos_of; cbn; by rewrite Ei|cbn; by rewrite Ei|done|done|unfold in_transit; cbn; by rewrite Ei|].
  intros s2 H2. rewrite delete_insert_eq in H2. by apply HQ.
Qed.

Lemma wp_complete_data G s p i e ok :
  settled O G s -> G !! p = Some i -> i_place i = OnBus e -> proptxstatus_mode cfg ≠ WLFC_FCMODE_NONE ->
  wp (dhd_wlfc_txcomplete cfg p ok) s (λ rc s', rc = BCME_OK ∧ settled O (completed ok p i G) s').
Proof.
  intros [H Ht] Hi Ei Hm. pose proof (Ht p i Hi) as Hti. unfold tidy in Hti. rewrite Ei in Hti. destruct Hti as [Hw Hcn].
  unfold dhd_wlfc_txcomplete. apply wp_bind. set (i1 := set_place (Hand true (Some e)) i). rewrite bool_decide_false by done.
  eapply wp_bus_back; [done|done|done|]. fold i1. intros s1 H1. assert ((<[p := i1]> G) !! p = Some i1) as Hi1 by apply lookup_insert_eq.
  destruct (inv_hand _ _ _ _ _ _ _ _ H1 Hi1 eq_refl) as [Ha Hv]. apply wp_bind. eapply wp_getp; [done|done|]. intros x Hx Hok.
  pose proof (ok_signal _ _ _ Hok) as Hs. cbn in Hs. rewrite Hs by done. apply wp_bind. eapply wp_find_known; [done|done|done|]. apply wp_bind.
  eapply (wp_mono _ _ (λ _ s', inv O exact (completed ok p i G) s')).
  - unfold completed. rewrite Ei. destruct (negb ok || _).
    + apply wp_bind. eapply wp_implied; [done|by rewrite (ok_ac _ _ _ Hok)|]. intros s2 H2. apply wp_bind. eapply wp_dec_transit; [done|apply Hv|unfold ahead; by rewrite upd_eq|].
      intros s3 H3. do 2 wauto1. wthen; [by wauto|]. intros _ s4 H4. eapply wp_done; [exact H4|exact Hi1|done|done|done|].
      intros s5 H5. rewrite delete_insert_eq in H5. eapply inv_dev; [exact H5|]. intros e' _. unfold ahead.
      destruct (decide (e = e')) as [<-|Hne]; [by rewrite !upd_eq|by rewrite !upd_ne].
    + apply wp_bind. eapply wp_enque_afq; [done|done|done|]. intros s2 H2. apply wp_ret. rewrite insert_insert_eq in H2.
      eapply inv_dev; [exact H2|]. intros e' _. unfold moved_dev, ahead. cbn.
      destruct (decide (e = e')) as [<-|Hne]; [by rewrite upd_eq, bool_decide_true|by rewrite upd_ne, bool_decide_false].
  - intros _ s2 H2. do 2 wauto1. wthen; [by wauto|]. intros _ s3 H3. apply wp_bind. eapply wp_check_suppressed; [done|apply Hv|]. intros s4 H4.
    apply wp_ret. split; [done|]. split; [done|]. unfold completed. rewrite Ei. intros q j. destruct (negb ok || _).
    + intros [_ Hj]%lookup_delete_Some. by apply (Ht q).
    + apply tidy_insert; [done|]. by cbn.
Qed.

Lemma wp_txcomplete G s p i ok :
  settled O G s -> G !! p = Some i -> on_bus (i_place i) = true -> proptxstatus_mode cfg ≠ WLFC_FCMODE_NONE ->
  wp (dhd_wlfc_txcomplete cfg p ok) s (λ rc s', rc = BCME_OK ∧ settled O (completed ok p i G) s').
Proof.
  intros H Hi Hb Hm. destruct (i_place i) eqn:Ei; try done; [by eapply wp_complete_data|].
  unfold completed. rewrite Ei. by eapply wp_complete_signal.
Qed.
End Calls.
