(* ===== verification/WlfcEventsTheorems.v ===== *)
(** * Wireless flow control: what became of the packets

    A status from the dongle ends the way of a packet, or sends it back to the
    queues of the suppressed.  A status that fits no packet changes nothing. *)

From stdpp Require Import functions.
From S2P Require Import Prelude Pktq PktqSpec PktqRefine PktqSystem FlowQueue FlowData WlfcTag WlfcCredit WlfcQueue.
From S2P Require Import WlfcQueueTheorems WlfcHeader WlfcHeaderTheorems WlfcState WlfcSend WlfcTransfer WlfcEvents WlfcInv.
From S2P Require Import WlfcMoves WlfcSendTheorems WlfcTransferTheorems.

(** ** What statuses do to the packets *)

(** No packet of the network is there; its memory may serve for another. *)
Definition gone (p : pkt) (G : packets) : Prop := ∀ i, G !! p = Some i -> data i = false.

(** Packets that were sent are done with, or are still those; the other packets
    are where they were; there are no new ones of the network. *)
Record answered (G G' : packets) : Prop := {
  an_sent : ∀ p i, G !! p = Some i -> sent i = true -> gone p G' ∨ ∃ i', G' !! p = Some i' ∧ sent i' = true ∧ ident i' = ident i;
  an_same : ∀ p i, G !! p = Some i -> sent i = false -> G' !! p = Some i;
  an_only : ∀ p i', G' !! p = Some i' -> data i' = true -> ∃ i, G !! p = Some i ∧ data i = true
}.

Lemma sent_data i : sent i = true -> data i = true.
Proof. unfold sent, data. by destruct (i_place i). Qed.

Lemma answered_refl G : answered G G.
Proof. split; eauto. Qed.

Lemma answered_trans G1 G2 G3 : answered G1 G2 -> answered G2 G3 -> answered G1 G3.
Proof.
  intros [A1 B1 C1] [A2 B2 C2]. assert (∀ p, gone p G2 -> gone p G3) as Hgone.
  { intros p Hp i Hi. destruct (data i) eqn:D; [|done]. destruct (C2 p i Hi D) as (j & Hj & Dj). rewrite (Hp j Hj) in Dj. done. }
  split.
  - intros p i Hp Hs. destruct (A1 p i Hp Hs) as [Hn|(i2 & H2 & S2 & E2)]; [left; auto|].
    destruct (A2 p i2 H2 S2) as [Hn|(i3 & H3 & S3 & E3)]; [by left|]. right. exists i3. split; [done|]. split; [done|congruence].
  - intros p i Hp Hs. apply B2; [by apply B1|done].
  - intros p i Hp Hd. destruct (C2 p i Hp Hd) as (i2 & H2 & D2). by apply (C1 p i2).
Qed.

Lemma answered_grows G G' : grows G G' -> answered G G'.
Proof.
  intros Hg. split.
  - intros p i Hp Hs. right. exists i. split; [by eapply grows_lookup|done].
  - intros p i Hp _. by eapply grows_lookup.
  - intros p i Hp Hd. destruct (grows_inv _ _ _ _ Hg Hp) as [?| ->]; [by exists i|done].
Qed.

Lemma answered_delete G p i : G !! p = Some i -> sent i = true -> answered G (delete p G).
Proof.
  intros Hp Hs. split.
  - intros q j Hq Sj. destruct (decide (q = p)) as [->|Hne]; [left; intros k; by rewrite lookup_delete_eq|].
    right. exists j. by rewrite lookup_delete_ne.
  - intros q j Hq Sj. rewrite lookup_delete_ne; [done|]. intros ->. congruence.
  - intros q j [_ Hq]%lookup_delete_Some Dj. by exists j.
Qed.

Lemma answered_insert G p i i' : G !! p = Some i -> sent i = true -> sent i' = true -> ident i' = ident i -> answered G (<[p := i']> G).
Proof.
  intros Hp S S' E. split.
  - intros q j Hq Sj. right. destruct (decide (q = p)) as [->|Hne]; [|exists j; by rewrite lookup_insert_ne].
    exists i'. rewrite lookup_insert_eq. split; [done|]. split; [done|congruence].
  - intros q j Hq Sj. rewrite lookup_insert_ne; [done|]. intros ->. congruence.
  - intros q j. rewrite lookup_insert_Some. intros [[<- <-]|[_ Hq]] Dj; [exists i; split; [done|by apply sent_data]|by exists j].
Qed.

Section Status.
Context (O : Z -> bool) (cfg : dhd_cfg) (env : wenv).
Context (Hother : valid O other) (Hhdr : 0 <= dhd_hdrlen cfg).

(** A routine leaves the state settled and answers for the packets. *)
Definition answers {A} (G : packets) (Q : A -> Prop) (a : A) (s : sys) : Prop := Q a ∧ ∃ G', answered G G' ∧ settled O G' s.

Lemma answers_refl {A} G (Q : A -> Prop) a s : Q a -> settled O G s -> answers G Q a s.
Proof. intros. split; [done|]. exists G. split; [apply answered_refl|done]. Qed.

Lemma wp_answers {A B} G (m : M A) (k : A -> M B) (Q : A -> Prop) (R : B -> Prop) s :
  wp m s (answers G Q) -> (∀ a G' s', Q a -> settled O G' s' -> wp (k a) s' (answers G' R)) -> wp (x ← m; k x) s (answers G R).
Proof.
  intros Hm Hk. apply wp_bind. eapply wp_mono; [exact Hm|]. intros a s' (Ha & G' & Han & Hs). eapply wp_mono; [by apply Hk|].
  intros b s2 (Hb & G2 & Han2 & Hs2). split; [done|]. exists G2. split; [by eapply answered_trans|done].
Qed.

(** ** A packet with a status *)

Lemma pkt_ok_generation i x g : pkt_ok O i x -> pkt_ok O i (DHD_PKTTAG_SET_H2DTAG (WL_TXSTATUS_SET_GENERATION (htod_tag x) g) x).
Proof.
  intros []. split; cbn; try done. intros e He. destruct (ok_valid e He) as [Hv Hs]. split; [done|]. intros Hh. rewrite <-(Hs Hh).
  apply (get_set_other 8 16 31 1); lia.
Qed.

Lemma wp_mark dev G s e g Q : inv O dev G s -> 0 <= e < n_entries -> (∀ s', inv O dev G s' -> Q tt s') -> wp (mark_suppressed e g) s Q.
Proof.
  intros H He HQ. unfold mark_suppressed. do 2 wauto1. wthen; [|intros _ s1 H1; wauto; by apply HQ].
  apply wp_if; intros _; [|by apply wp_ret]. wthen; [by wauto|]. intros _ s1 H1. by wauto.
Qed.

Lemma ahead_less e e' : <[e := ahead e e - 1]> (ahead e) e' = exact e'.
Proof. unfold ahead. destruct (decide (e = e')) as [<-|Hne]; [by rewrite !upd_eq|by rewrite !upd_ne]. Qed.

(** The packet is in hand: the dongle has had it, so its descriptor is ahead. *)
Lemma wp_status_of_packet G s p i e g sup :
  inv O (ahead e) (<[p := set_place (Hand true (Some e)) i]> G) s -> G !! p = Some i -> i_place i = AtDongle e -> all_tidy G ->
  wp (status_of_packet cfg env p g sup) s (answers G (λ fifo, 0 <= fifo <= AC_COUNT)).
Proof.
  intros H Hi Ei Ht. pose proof (Ht p i Hi) as Hti. unfold tidy in Hti. rewrite Ei in Hti. destruct Hti as [Hw Hcn].
  set (i1 := set_place (Hand true (Some e)) i) in *. assert ((<[p := i1]> G) !! p = Some i1) as Hi1 by apply lookup_insert_eq.
  destruct (inv_hand _ _ _ _ _ _ _ _ H Hi1 eq_refl) as [Ha Hv]. assert (sent i = true) as Hsent by (unfold sent; by rewrite Ei).
  unfold status_of_packet. apply wp_bind. eapply wp_pkt_fifo; [done|done|]. apply wp_bind. eapply wp_find_known; [done|done|done|].
  wthen; [destruct sup; [by eapply wp_mark; [done|apply Hv|]|by apply wp_ret]|]. intros _ s1 H1. apply wp_bind. eapply wp_getp; [done|done|]. intros x Hx Hok.
  wthen.
  { apply wp_if; intros _; [eapply wp_implied; [done|by rewrite (ok_ac _ _ _ Hok)|done]|]. by wauto. }
  intros _ s2 H2. apply wp_bind.
  eapply (wp_mono _ _ (λ _ s', ∃ G', answered G G' ∧ all_tidy G' ∧ inv O (ahead e) G' s')).
  - destruct sup.
    + apply wp_bind. eapply (wp_modp O _ _ s2 p i1); [done|done|intros y _ Hy; by apply pkt_ok_generation|]. intros s3 H3. apply wp_bind.
      eapply (wp_enque_suppressed O cfg env Hhdr _ _ s3 p i1 e); [done|done|done|done|]. intros G' s4 Hg H4. rewrite bool_decide_false by naive_solver. apply wp_ret.
      exists G'. rewrite insert_insert_eq in Hg. split; [|split; [|done]].
      * eapply answered_trans; [|by apply answered_grows]. by apply (answered_insert G p i).
      * eapply tidy_grows; [done|]. by apply tidy_insert.
    + eapply wp_done; [exact H2|exact Hi1|done|done|done|]. intros s3 H3. rewrite delete_insert_eq in H3. exists (delete p G). split; [by eapply answered_delete|].
      split; [|done]. intros q j [_ Hj]%lookup_delete_Some. by apply (Ht q).
  - intros _ s3 (G' & Han & Ht' & H3). apply wp_bind. eapply wp_dec_transit; [done|apply Hv|unfold ahead; by rewrite upd_eq|]. intros s4 H4. apply wp_bind.
    eapply wp_dec_suppr; [exact H4|apply Hv|]. intros s5 H5. apply wp_ret. split; [done|]. exists G'. split; [done|]. split; [|done].
    eapply inv_dev; [exact H5|]. intros e' _. apply ahead_less.
Qed.

(** ** A suppressed packet that was acknowledged *)

Lemma wp_modd_at e f d s (Q : unit -> sys -> Prop) :
  at_ (w_destination_entries (s_w s)) e = Some d ->
  Q tt (set_w (set_w_destination_entries (<[Z.to_nat e := f d]> (w_destination_entries (s_w s))) (s_w s)) s) -> wp (modd e f) s Q.
Proof.
  intros Hd HQ. unfold modd. apply wp_bind, wp_getw, wp_bind. eapply wp_lift; [exact Hd|]. apply wp_bind. eapply wp_lift; [by eapply put_Some|].
  by apply wp_modify.
Qed.

Lemma wp_acked G s hslot prec hcnt :
  settled O G s -> 0 <= hslot -> 0 <= prec < 8 -> wp (dhd_wlfc_suppressed_acked_update hslot prec hcnt) s (answers G (λ _, True)).
Proof.
  intros [H Ht] Hh Hp. unfold dhd_wlfc_suppressed_acked_update. fold (entry_of hslot). pose proof (entry_of_range hslot Hh) as He. set (e := entry_of hslot) in *.
  cbv zeta. do 2 (apply wp_bind, wp_gets). apply wp_bind. eapply wp_getd; [done|done|]. intros d Hd _.
  assert (Z.shiftl prec 1 + 1 = PSQ_SUP_IDX prec) as Eprec by (unfold PSQ_SUP_IDX; rewrite Z.shiftl_mul_pow2 by lia; lia). rewrite Eprec. apply wp_bind.
  destruct (suppressed_taken O exact G s e d prec hcnt H He Hd Hp) as [->|(p & i & o & h' & pq' & -> & Hi & Ei & Ea & Hv & Hpa & H1)].
  { eapply wp_lift; [done|]. cbv beta iota. apply wp_ret, answers_refl; done. }
  pose proof (Ht p i Hi) as Hti. unfold tidy in Hti. rewrite Ei in Hti. destruct Hti as [Hw Hcn].
  eapply wp_lift; [done|]. cbv beta iota. apply wp_bind, wp_modify, wp_bind.
  change (Z.min hslot other) with e. eapply wp_modd_at; [exact Hd|].
  set (s1 := set_w _ _) in *. change (inv O exact (<[p:=set_place (Hand true (Some e)) i]> G) s1) in H1.
  set (i1 := set_place (Hand true (Some e)) i) in *. assert ((<[p := i1]> G) !! p = Some i1) as Hi1 by apply lookup_insert_eq.
  apply wp_bind. eapply wp_pkt_if; [done|done|]. rewrite <-Ea. change (i_ac i) with (i_ac i1).
  eapply (wp_wait O exact _ s1 p i1 false); [done|done|done|cbn; lia|]. intros s2 H2. rewrite insert_insert_eq in H2. apply wp_bind.
  eapply wp_enque_afq; [exact H2|apply lookup_insert_eq|done|]. intros s3 H3. rewrite insert_insert_eq in H3. apply wp_bind.
  eapply wp_getd; [exact H3|done|]. intros d3 Hd3 _. apply wp_bind. eapply (wp_set_transit O _ _ s3 e d3 1); [exact H3|exact Hd3|]. intros s4 H4. apply wp_ret.
  split; [done|]. eexists. split; [apply (answered_insert G p i (set_place (AtDongle e) (set_waiting false i1))); try done; unfold sent; by rewrite ?Ei|].
  split; [|by apply tidy_insert]. eapply inv_dev; [exact H4|]. intros e' _. unfold moved_dev. cbn. unfold exact.
  destruct (decide (e = e')) as [<-|Hne]; [by rewrite upd_eq, !bool_decide_true|by rewrite upd_ne, !bool_decide_false].
Qed.

(** ** Many statuses *)

Lemma wp_status_loop n : ∀ G s hslot hcnt fifo g fl,
  settled O G s -> 0 <= hslot -> 0 <= fifo < 8 -> wp (status_loop cfg env n hslot hcnt fifo g fl) s (answers G (λ _, True)).
Proof.
  induction n as [|n IH]; intros G s hslot hcnt fifo g fl H Hh Hf; cbn [status_loop]; [by apply wp_ret, answers_refl|].
  eapply (wp_answers G _ _ (λ _, True)).
  { apply wp_if; intros _; [by apply wp_acked|]. by apply wp_ret, answers_refl. }
  intros _ G1 s1 _ [H1 Ht1]. apply wp_bind. eapply wp_deque_afq; [done|done|done| |].
  - intros rc s2 H2. cbv beta iota. eapply (wp_answers G1 _ _ (λ f, 0 <= f < 8)); [by apply wp_ret, answers_refl|]. intros f G2 s3 Hf2 H3. by apply IH.
  - intros p i s2 Hi Ei Ha H2. cbv beta iota. rewrite bool_decide_false by naive_solver. eapply (wp_answers G1 _ _ (λ f, 0 <= f <= AC_COUNT)).
    + eapply wp_status_of_packet; [|done|done|done]. eapply inv_dev; [exact H2|]. intros e' _. unfold moved_dev, in_transit, ahead, exact. rewrite Ei. cbn.
      destruct (decide (entry_of hslot = e')) as [<-|Hne]; [by rewrite upd_eq, bool_decide_true|by rewrite upd_ne, bool_decide_false].
    + intros f G2 s3 Hf2 H3. apply IH; [done|done|unfold AC_COUNT in Hf2; lia].
Qed.
End Status.

(** * Wireless flow control: destinations, requests and credits

    The dongle opens and closes destinations, asks for packets, and gives credits:
    the table of requests, the descriptors and the credits stay well-formed. *)

(** ** The table of requests *)

(** The place of an entry in the table, or the end. *)
Lemma find_requested_spec e post : ∀ l pre,
  ∃ k, find_requested (length l) (pre ++ (Some <$> l) ++ post) (Z.of_nat (length pre)) e = Some (Z.of_nat (length pre + k))
    ∧ (k < length l ∧ l !! k = Some e ∨ k = length l ∧ e ∉ l)%nat.
Proof.
  induction l as [|x l IH]; intros pre; cbn [find_requested length].
  - exists 0%nat. split; [by rewrite Nat.add_0_r|]. right. split; [done|set_solver].
  - assert (at_ (pre ++ (Some <$> x :: l) ++ post) (Z.of_nat (length pre)) = Some (Some x)) as ->.
    { apply at_Some. split; [lia|]. rewrite Nat2Z.id, lookup_app_r, Nat.sub_diag by lia. done. }
    cbn [mbind option_bind]. case_decide as E.
    + injection E as ->. exists 0%nat. split; [by rewrite Nat.add_0_r|]. left. split; [lia|done].
    + destruct (IH (pre ++ [Some x])) as (k & E1 & E2). exists (S k).
      replace (Z.of_nat (length (pre ++ [Some x]))) with (Z.of_nat (length pre) + 1) in E1 by (rewrite length_app; cbn; lia).
      rewrite <-app_assoc in E1. cbn in E1 |- *. rewrite E1. split; [f_equal; rewrite length_app; cbn; lia|].
      destruct E2 as [[? ?]|[-> Hn]]; [left; split; [lia|done]|right]. split; [done|]. apply not_elem_of_cons. split; [congruence|done].
Qed.

(** There is room for an entry that is not in the table. *)
Lemma requests_room (l : list Z) e n : NoDup l -> (∀ x, x ∈ l -> 0 <= x < n) -> 0 <= e < n -> e ∉ l -> Z.of_nat (length l) < n.
Proof.
  intros Hn Hl He Hni. assert (NoDup (e :: l)) as Hn' by by constructor.
  assert (∀ x, x ∈ e :: l -> x ∈ seqZ 0 n) as Hs. { intros x [->|Hx]%elem_of_cons; apply elem_of_seqZ; [lia|]. specialize (Hl x Hx). lia. }
  pose proof (submseteq_length _ _ (NoDup_submseteq _ _ Hn' Hs)) as Hle. rewrite length_seqZ in Hle. cbn in Hle. lia.
Qed.

Section Destinations.
Context (O : Z -> bool) (cfg : dhd_cfg) (env : wenv).
Context (Hother : valid O other) (Hhdr : 0 <= dhd_hdrlen cfg).

Definition requested (l : list Z) (r : list (option Z)) (n : Z) : Prop :=
  ∃ post, r = (Some <$> l) ++ post ∧ n = Z.of_nat (length l) ∧ Z.of_nat (length r) = WLFC_MAC_DESC_TABLE_SIZE ∧ NoDup l
    ∧ ∀ e, e ∈ l -> valid O e ∧ e < WLFC_MAC_DESC_TABLE_SIZE.

Lemma inv_requested dev G s : inv O dev G s -> ∃ l, requested l (w_requested_entry (s_w s)) (w_requested_entry_count (s_w s)).
Proof.
  intros H. destruct (sh_requested _ _ (inv_shape _ _ _ _ H)) as (l & Hc & Hl & Hn & Hd & Hv). exists l, (drop (Z.to_nat (w_requested_entry_count (s_w s))) (w_requested_entry (s_w s))).
  split; [by rewrite <-Hl, take_drop|]. split; [done|]. split; [|done]. apply (sh_requested_len _ _ (inv_shape _ _ _ _ H)).
Qed.

Lemma inv_set_requested dev G s r n l :
  inv O dev G s -> requested l r n ->
  inv O dev G (set_w (set_w_requested_entry_count n (set_w_requested_entry r (s_w s))) s).
Proof.
  intros [? ? ? ? Hs [] ?] (post & E1 & E2 & E3 & Hn & Hv). split; try done. destruct Hs. split; try done. cbn.
  exists l. split; [lia|]. rewrite E2, Nat2Z.id, E1. split; [|done]. by rewrite take_app_length' by by rewrite length_fmap.
Qed.

Lemma wp_add_requested dev G s e Q :
  inv O dev G s -> valid O e -> e < WLFC_MAC_DESC_TABLE_SIZE -> (∀ s', inv O dev G s' -> Q tt s') -> wp (_dhd_wlfc_add_requested_entry e) s Q.
Proof.
  clear Hother Hhdr.
  intros H Hv He HQ. destruct (inv_requested _ _ _ H) as (l & post & E1 & E2 & E3 & Hn & Hl). unfold _dhd_wlfc_add_requested_entry.
  do 4 wstep. rewrite E1, E2, Nat2Z.id. destruct (find_requested_spec e post l []) as (k & Ek & Hk). cbn [length app Nat.add] in Ek. apply wp_bind.
  eapply wp_lift; [exact Ek|]. destruct Hk as [[Hk _]|[-> Hni]].
  { rewrite bool_decide_false by lia. apply wp_ret. by apply HQ. }
  rewrite bool_decide_true by done. assert (Z.of_nat (length l) < WLFC_MAC_DESC_TABLE_SIZE) as Hroom.
  { apply (requests_room l e); [done| |destruct Hv; lia|done]. intros x Hx. destruct (Hl x Hx) as [[[? ?] _] ?]. lia. }
  rewrite E1, length_app, length_fmap in E3. destruct post as [|y post]; [cbn in E3; lia|]. apply wp_bind.
  eapply wp_lift; [eapply (put_Some _ _ y)|].
  { apply at_Some. split; [lia|]. rewrite Nat2Z.id, lookup_app_r by (rewrite length_fmap; lia). by rewrite length_fmap, Nat.sub_diag. }
  rewrite Nat2Z.id. wstep. wstep. wstep. apply HQ. refine (inv_set_requested _ _ s _ _ (l ++ [e]) H _). exists post.
  assert (<[length l:=Some e]> ((Some <$> l) ++ y :: post) = (Some <$> l ++ [e]) ++ post) as ->.
  { rewrite insert_app_r_alt by (rewrite length_fmap; lia). rewrite length_fmap, Nat.sub_diag, fmap_app, <-app_assoc. done. }
  split; [done|]. split; [rewrite length_app; cbn; lia|]. split; [revert E3; rewrite !length_app, length_fmap, length_app; cbn; lia|].
  split; [apply NoDup_app; split; [done|]; split; [set_solver|apply NoDup_singleton]|].
  intros x [Hx| ->%list_elem_of_singleton]%elem_of_app; [by apply Hl|done].
Qed.

Lemma wp_remove_requested dev G s e Q :
  inv O dev G s -> (∀ s', inv O dev G s' -> w_destination_entries (s_w s') = w_destination_entries (s_w s) -> Q tt s') -> wp (_dhd_wlfc_remove_requested_entry e) s Q.
Proof.
  clear Hother Hhdr.
  intros H HQ. destruct (inv_requested _ _ _ H) as (l & post & E1 & E2 & E3 & Hn & Hl). unfold _dhd_wlfc_remove_requested_entry.
  do 4 wstep. rewrite E1, E2, Nat2Z.id. destruct (find_requested_spec e post l []) as (k & Ek & Hk). cbn [length app Nat.add] in Ek. apply wp_bind.
  eapply wp_lift; [exact Ek|]. destruct Hk as [[Hk He]|[-> _]]; [|rewrite bool_decide_false by lia; apply wp_ret; by apply HQ].
  rewrite bool_decide_true by lia. destruct l as [|z l _] using rev_ind; [cbn in Hk; lia|]. rewrite length_app in *. cbn [length] in *.
  replace (Z.of_nat (length l + 1) - 1) with (Z.of_nat (length l)) by lia.
  set (l' := if decide (k = length l) then l else <[k := z]> l). set (r := w_requested_entry (s_w s)) in *.
  assert (∀ r', r' = (Some <$> l') ++ Some z :: post -> ∀ s1, s1 = set_w (set_w_requested_entry_count (Z.of_nat (length l)) (s_w s)) s ->
    wp (r ← lift (put_ r' (Z.of_nat (length l)) None); modw (set_w_requested_entry r)) s1 Q) as Hend.
  { intros r' -> s1 ->. assert (length l' = length l) as Hll by (subst l'; case_decide; by rewrite ?length_insert). apply wp_bind.
    eapply wp_lift; [eapply (put_Some _ _ (Some z))|].
    { apply at_Some. split; [lia|]. rewrite Nat2Z.id, lookup_app_r by (rewrite length_fmap; lia). by rewrite length_fmap, Hll, Nat.sub_diag. }
    rewrite Nat2Z.id. wstep. apply HQ; [|done]. refine (inv_set_requested _ _ s (<[length l := None]> ((Some <$> l') ++ Some z :: post)) _ l' H _). exists (None :: post).
    split; [rewrite insert_app_r_alt by (rewrite length_fmap; lia); by rewrite length_fmap, Hll, Nat.sub_diag|]. split; [by rewrite Hll|]. rewrite length_insert.
    split; [rewrite E1 in E3; rewrite length_app, length_fmap, ?length_app in *; cbn in *; rewrite Hll; lia|].
    apply NoDup_app in Hn as (Hn1 & Hn2 & _). subst l'. case_decide as Ek'.
    - split; [done|]. intros x Hx. apply Hl. set_solver.
    - assert (z ∉ l) as Hz by (intros Hz; apply (Hn2 z Hz); set_solver). split.
      + apply NoDup_alt. intros i j x Hi Hj. rewrite NoDup_alt in Hn1.
        apply list_lookup_insert_Some in Hi as [(-> & -> & _)|[Hi1 Hi2]]; apply list_lookup_insert_Some in Hj as [(-> & Hj & _)|[Hj1 Hj2]]; try done.
        * by apply list_elem_of_lookup_2 in Hj2.
        * subst x. by apply list_elem_of_lookup_2 in Hi2.
        * by eapply Hn1.
      + intros x [i Hx]%list_elem_of_lookup. apply Hl. apply list_lookup_insert_Some in Hx as [(_ & -> & _)|[_ Hx]]; [set_solver|].
        apply elem_of_app. left. by eapply list_elem_of_lookup_2. }
  assert ((Some <$> l ++ [z]) ++ post = (Some <$> l) ++ Some z :: post) as Er by (by rewrite fmap_app, <-app_assoc).
  wstep. wstep. apply wp_bind. unfold l' in Hend. case_decide as Ek'.
  - rewrite bool_decide_false by lia. apply wp_ret. by apply Hend.
  - rewrite bool_decide_true by lia. apply wp_bind. eapply wp_lift.
    { apply at_Some. split; [lia|]. rewrite Er, Nat2Z.id, lookup_app_r by (rewrite length_fmap; lia). by rewrite length_fmap, Nat.sub_diag. }
    assert (k < length l)%nat as Hkl by lia. destruct (lookup_lt_is_Some_2 _ _ Hkl) as [y Hy]. eapply wp_lift; [eapply (put_Some _ _ (Some y))|].
    { apply at_Some. split; [lia|]. rewrite Er, Nat2Z.id, lookup_app_l by (rewrite length_fmap; lia). by rewrite list_lookup_fmap, Hy. }
    rewrite Er, Nat2Z.id. apply Hend; [|done]. rewrite insert_app_l by (rewrite length_fmap; lia). by rewrite list_fmap_insert.
Qed.

(** ** Elements about a destination *)

Lemma lookup_index h : 0 <= WLFC_MAC_DESC_GET_LOOKUP_INDEX h < WLFC_MAC_DESC_TABLE_SIZE.
Proof. unfold WLFC_MAC_DESC_GET_LOOKUP_INDEX. change 31 with (Z.ones 5). rewrite Z.land_ones by lia. by apply (Z.mod_pos_bound h 32). Qed.

Lemma node_range h : 0 <= WLFC_MAC_DESC_GET_LOOKUP_INDEX h < n_entries.
Proof. pose proof (lookup_index h). unfold n_entries, WLFC_MAC_DESC_TABLE_SIZE, WLFC_MAX_IFNUM in *. lia. Qed.

(** A number of a descriptor that is in use. *)
Lemma occupied_valid dev G s e d : inv O dev G s -> 0 <= e < n_entries -> at_ (w_destination_entries (s_w s)) e = Some d -> d_occupied d = true -> valid O e.
Proof. intros H He Hd Ho. split; [done|]. by rewrite <-(dok_occupied _ _ _ (sh_desc _ _ (inv_shape _ _ _ _ H) _ _ Hd)). Qed.

Lemma wp_request set dev G s value Q :
  inv O dev G s -> (3 <= length value)%nat -> (∀ n d, drelevant (set n d) = drelevant d) -> (∀ s', inv O dev G s' -> Q BCME_OK s') -> wp (request set value) s Q.
Proof.
  intros H Hl Hset HQ. unfold request. destruct value as [|a [|b [|c value]]]; cbn in Hl; try lia.
  apply wp_bind. eapply wp_lift; [done|]. apply wp_bind. eapply wp_lift; [done|]. pose proof (node_range b) as Hnr. pose proof (lookup_index b) as Hli. cbv zeta. apply wp_bind.
  eapply wp_getd; [done|done|]. intros d Hd _. wthen; [|intros _ s1 H1; by apply wp_ret, HQ]. destruct (d_occupied d) eqn:Eo; [|by apply wp_ret].
  pose proof (occupied_valid _ _ _ _ _ H ltac:(done) Hd Eo) as Hv. apply wp_bind.
  eapply (wp_modd O dev G s); [done|done|by intros|]. intros s1 H1. apply wp_bind. eapply wp_lift; [done|]. wauto1. wauto1. eapply wp_add_requested; [done|done|lia|done].
Qed.

Lemma wp_release dev G s e Q : inv O dev G s -> 0 <= e < n_entries -> (∀ s', inv O dev G s' -> Q tt s') -> wp (modd e (set_d_release_count no_release)) s Q.
Proof.
  intros H He HQ. eapply wp_modd; [done|done| |done]. intros d Hd. unfold drelevant. cbn. by rewrite (dok_release _ _ _ Hd).
Qed.

Lemma wp_pending_checks acs : ∀ G s e,
  settled O G s -> 0 <= e < n_entries -> Forall (λ a, 0 <= a <= AC_COUNT) acs -> wp (pending_checks cfg env acs e) s (answers O G (λ _, True)).
Proof.
  induction acs as [|ac acs IH]; intros G s e H He Hacs; cbn [pending_checks]; [by apply wp_ret, answers_refl|].
  apply Forall_cons in Hacs as [Ha Hacs]. destruct H as [H Ht]. eapply (wp_answers O G _ _ (λ _, True)).
  - eapply wp_pending_check; [done|done|done|done|]. intros b G' s' Hg H'. split; [done|]. exists G'. split; [by apply answered_grows|]. split; [done|]. by eapply tidy_grows.
  - intros _ G' s' _ H'. by apply IH.
Qed.

(** A step that no packet takes part in. *)
Lemma answers_inv {A} G (Q : A -> Prop) a s : all_tidy G -> Q a -> inv O exact G s -> answers O G Q a s.
Proof. intros Ht Ha H. by apply answers_refl. Qed.

Lemma wp_psmode G s value type :
  settled O G s -> (1 <= length value)%nat -> wp (_dhd_wlfc_psmode_update cfg env value type) s (answers O G (λ _, True)).
Proof.
  intros [H Ht] Hl. unfold _dhd_wlfc_psmode_update. destruct value as [|h value]; cbn in Hl; [lia|]. apply wp_bind. eapply wp_lift; [done|]. cbv zeta.
  pose proof (node_range h) as Hr. set (e := WLFC_MAC_DESC_GET_LOOKUP_INDEX h) in *. apply wp_bind. eapply wp_getd; [done|done|]. intros d _ _.
  eapply (wp_answers O G _ _ (λ _, True)); [|intros _ G' s' _ H'; by apply wp_ret, answers_refl]. destruct (d_occupied d); [|by apply wp_ret, answers_refl].
  apply wp_bind. eapply wp_release; [done|done|]. intros s1 H1. apply wp_if; intros _.
  - do 8 wauto1. eapply wp_remove_requested; [done|]. intros s9 H9 _. by apply answers_inv.
  - do 2 wauto1. apply wp_pending_checks; [done|done|]. apply Forall_forall. intros x Hx%elem_of_seqZ. lia.
Qed.

Lemma wp_interface_update dev G s value type Q :
  inv O dev G s -> (1 <= length value)%nat -> (∀ h, at_ value 0 = Some h -> 0 <= h) -> (∀ s', inv O dev G s' -> Q BCME_OK s') -> wp (_dhd_wlfc_interface_update value type) s Q.
Proof.
  intros H Hl Hb HQ. unfold _dhd_wlfc_interface_update. destruct value as [|h value]; cbn in Hl; [lia|]. specialize (Hb h eq_refl).
  apply wp_bind. eapply wp_lift; [done|]. wthen; [|intros _ s1 H1; by apply wp_ret, HQ]. apply wp_if; [|intros _; by apply wp_ret]. intros Hi%bool_decide_eq_true.
  do 2 wauto1. destruct (d_occupied d); [|by apply wp_ret]. apply wp_bind. eapply wp_release; [done|in_range|]. intros s1 H1. by wauto1.
Qed.
End Destinations.

(** * Wireless flow control: destinations that come, and the start

    A descriptor that was free gets empty queues and a place in the ring, and the
    first one is there from the start.  While it is set up the state does not fit
    the invariant; it is the state before, with another descriptor and another
    array of queues. *)

(** ** Empty queues *)

Lemma qok_init h pq n :
  qok h pq [] -> 0 < n <= 16 -> ∃ pq', pktq_init pq n WLFC_PSQ_LEN = Some (true, pq') ∧ ∀ h', qok h' pq' (replicate (Z.to_nat n) []).
Proof.
  intros [Hl _ Hs] Hn. unfold pktq_init. rewrite Hl. rewrite decide_True by (unfold PKTQ_MAX_PREC; lia). eexists. split; [done|]. intros h'.
  change (u16 WLFC_PSQ_LEN) with 32768. unfold PKTQ_MAX_PREC in Hl. split; cbn [q num_prec pq_max_pkts].
  - rewrite length_app, length_replicate, length_drop. unfold PKTQ_MAX_PREC. lia.
  - right. split; [|done]. split; cbn [q num_prec hi_prec n_pkts_tot]; rewrite ?total_replicate_nil, ?length_replicate; try done.
    + rewrite length_app, length_replicate. lia.
    + rewrite u16_small; lia.
    + intros i qp Hi Hq. rewrite lookup_app_l in Hq by (by rewrite length_replicate). apply lookup_replicate in Hq as [-> _]. by rewrite lookup_total_replicate_nil.
    + intros i j x Hx. rewrite lookup_total_replicate_nil in Hx. by apply elem_of_nil in Hx.
    + rewrite u16_small; lia.
    + rewrite u16_small; lia.
    + intros. apply lookup_total_replicate_nil.
  - intros i qp Hq. rewrite length_replicate. destruct (decide (i < Z.to_nat n)%nat) as [Hi|Hi].
    + rewrite lookup_app_l in Hq by (by rewrite length_replicate). by apply lookup_replicate in Hq as [-> _].
    + rewrite lookup_app_r, length_replicate, lookup_drop in Hq by (rewrite length_replicate; lia). apply Hs in Hq. by rewrite decide_False in Hq by (cbn; lia).
Qed.

(** ** Programs that do not look at the descriptors *)

Definition upd (l : list wlfc_mac_descriptor) (a : wlfc_afqs) (s : sys) : sys := set_w (set_w_afqs a (set_w_destination_entries l (s_w s))) s.

Definition blind {A} (m : M A) : Prop := ∀ l a s, m (upd l a s) = match m s with Some (x, s') => Some (x, upd l a s') | None => None end.

Lemma blind_ret {A} (x : A) : blind (mret x).
Proof. done. Qed.
Lemma blind_lift {A} (o : option A) : blind (lift o).
Proof. intros l a s. unfold lift. by destruct o. Qed.
Lemma blind_bind {A B} (m : M A) (k : A -> M B) : blind m -> (∀ x, blind (k x)) -> blind (x ← m; k x).
Proof. intros Hm Hk l a s. unfold mbind, M_bind. rewrite Hm. destruct (m s) as [[x s']|]; [apply Hk|done]. Qed.
Lemma blind_tick : blind tick.
Proof. done. Qed.
Lemma blind_getw {A} (f : wlfc -> A) : (∀ w l a, f (set_w_afqs a (set_w_destination_entries l w)) = f w) -> blind (getw f).
Proof. intros Hf l a s. unfold getw, gets, upd. cbn. by rewrite Hf. Qed.
Lemma blind_modw (f : wlfc -> wlfc) :
  (∀ w l a, f (set_w_afqs a (set_w_destination_entries l w)) = set_w_afqs a (set_w_destination_entries l (f w))) -> blind (modw f).
Proof. intros Hf l a s. unfold modw, modify, upd, set_w. cbn. by rewrite Hf. Qed.

Ltac blinded :=
  repeat first
    [ apply blind_ret | apply blind_tick | apply blind_lift | apply blind_getw; by intros | apply blind_modw; by intros
    | apply blind_bind; [|intros ?] | case_match ].

Lemma blind_flow_check env pq ifid : blind (_dhd_wlfc_flow_control_check env pq ifid).
Proof. unfold _dhd_wlfc_flow_control_check, _dhd_wlfc_allow_fc, set_flow_state, cnt. blinded. Qed.

(** What is proved where the descriptors are in order holds with others. *)
Lemma wp_blind {A} (m : M A) s (P : A -> sys -> Prop) l a :
  blind m -> wp m s P ->
  wp m (upd l a s) (λ x s', ∃ s0, s' = upd l a s0 ∧ P x s0 ∧ w_destination_entries (s_w s0) = w_destination_entries (s_w s) ∧ w_afqs (s_w s0) = w_afqs (s_w s)).
Proof.
  intros Hb (x & s0 & E & HP). exists x, (upd l a s0). rewrite Hb, E. split; [done|]. exists s0. split; [done|]. split; [done|].
  pose proof (Hb (w_destination_entries (s_w s)) (w_afqs (s_w s)) s) as E2. assert (upd (w_destination_entries (s_w s)) (w_afqs (s_w s)) s = s) as E3.
  { destruct s as [[] ? ? ? ?]. done. }
  rewrite E3, E in E2. injection E2 as E2. by rewrite E2 at 1 2.
Qed.

(** ** The descriptor that is set up *)

Section On.
Context (e : Z) (l : list wlfc_mac_descriptor) (a : wlfc_afqs) (s : sys).
Context (He : 0 <= e < Z.of_nat (length l)).

Lemma at_on d : at_ (<[Z.to_nat e := d]> l) e = Some d.
Proof. apply at_Some. split; [lia|]. apply list_lookup_insert_eq. lia. Qed.

Lemma wp_modd_on f d Q : Q tt (upd (<[Z.to_nat e := f d]> l) a s) -> wp (modd e f) (upd (<[Z.to_nat e := d]> l) a s) Q.
Proof. intros HQ. eapply wp_modd_at; [apply at_on|]. cbn [upd set_w s_w w_destination_entries set_w_afqs set_w_destination_entries]. by rewrite list_insert_insert_eq. Qed.

Lemma wp_getd_on {A} (f : wlfc_mac_descriptor -> A) d Q :
  Q (f d) (upd (<[Z.to_nat e := d]> l) a s) -> wp (getd e f) (upd (<[Z.to_nat e := d]> l) a s) Q.
Proof. intros HQ. unfold getd. apply wp_bind, wp_getw, wp_bind. eapply wp_lift; [apply at_on|]. by apply wp_ret. Qed.
End On.

(** The steps of a destination that is added, up to the ring. *)
Record fresh_desc (d : wlfc_mac_descriptor) : Prop := {
  fd_occupied : d_occupied d = true;
  fd_ifid : 0 <= d_interface_id d;
  fd_seq : length (d_seq d) = 5%nat;
  fd_release : length (d_release_count d) = 5%nat;
  fd_transit : d_transit_count d = 0
}.

Lemma wp_entry_added cfg env e l a s d0 pq0 pq1 pq2 a' ifid iftype ea fn (P : unit -> sys -> Prop) Q :
  0 <= e < Z.of_nat (length l) -> length (d_seq d0) = 5%nat -> d_next d0 = None -> 0 <= ifid ->
  pktq_init (d_psq d0) WLFC_PSQ_PREC_COUNT WLFC_PSQ_LEN = Some (true, pq1) ->
  get_afq a e = Some pq0 -> pktq_init pq0 WLFC_AFQ_PREC_COUNT WLFC_PSQ_LEN = Some (true, pq2) -> put_afq a e pq2 = Some a' ->
  wp (_dhd_wlfc_flow_control_check env pq1 ifid) s P ->
  (∀ d s0, P tt s0 -> w_destination_entries (s_w s0) = w_destination_entries (s_w s) -> w_afqs (s_w s0) = w_afqs (s_w s) ->
     fresh_desc d -> d_psq d = pq1 -> d_next d = None -> wp (link_active e) (upd (<[Z.to_nat e := d]> l) a' s0) (λ _ s', Q BCME_OK s')) ->
  wp (_dhd_wlfc_mac_entry_update cfg env e eWLFC_MAC_ENTRY_ACTION_ADD ifid iftype ea fn) (upd (<[Z.to_nat e := d0]> l) a s) Q.
Proof.
  intros He Hseq Hnx Hif E1 Hpq0 E2 Ea Hflow HQ. unfold _dhd_wlfc_mac_entry_update. apply wp_bind. rewrite bool_decide_true by done. cbn [orb].
  do 7 (apply wp_bind; apply wp_modd_on; [lia|]). apply wp_bind.
  set (ok := λ d, d_occupied d = true ∧ 0 <= d_interface_id d ∧ length (d_seq d) = 5%nat ∧ length (d_release_count d) = 5%nat ∧ d_psq d = d_psq d0 ∧ d_next d = None).
  eapply (wp_mono _ _ (λ _ s', ∃ d, ok d ∧ s' = upd (<[Z.to_nat e := d]> l) a s)).
  { destruct ea; [apply wp_modd_on; [lia|]|apply wp_ret]; eexists; (split; [|reflexivity]); by split_and!. }
  intros _ s1 (d & (D1 & D2 & D3 & D4 & D5 & D6) & ->). do 5 (apply wp_bind; apply wp_modd_on; [lia|]). apply wp_bind. unfold init_psq.
  apply wp_bind, wp_getd_on; [lia|]. cbn [d_psq set_d_onbus_pkts_count set_d_suppr_transit_count set_d_transit_maxcount set_d_transit_count set_d_suppressed].
  rewrite D5. apply wp_bind. eapply wp_lift; [exact E1|]. cbv beta iota. apply wp_modd_on; [lia|]. apply wp_bind, wp_getd_on; [lia|]. apply wp_bind.
  eapply wp_mono; [apply (wp_blind _ s P); [apply blind_flow_check|exact Hflow]|].
  intros [] s1 (s0 & -> & H0 & El & Eafq). apply wp_bind. unfold init_afq. apply wp_bind, wp_getw. cbn [upd set_w s_w w_afqs set_w_afqs].
  apply wp_bind. eapply wp_lift; [exact Hpq0|]. apply wp_bind. eapply wp_lift; [exact E2|]. cbv beta iota. apply wp_bind. eapply wp_lift; [exact Ea|]. apply wp_modify.
  match goal with |- context [set_w_afqs a' (s_w (upd (<[_ := ?d]> _) _ _))] => set (d2 := d) end.
  change (set_w _ _) with (upd (<[Z.to_nat e := d2]> l) a' s0). apply wp_bind, wp_getd_on; [lia|]. change (d_next d2) with (d_next d). rewrite D6.
  rewrite bool_decide_true by done. eapply wp_mono; [by apply HQ|]. intros ? s3 H3. by apply wp_ret.
Qed.

(** ** One descriptor more *)

Section More.
Context (O : Z -> bool) (e : Z) (He : 0 <= e < n_entries) (HO : O e = false).

Definition more : Z -> bool := <[e := true]> O.

Lemma valid_more x : valid O x -> valid more x.
Proof. intros [Hx Ho]. split; [done|]. unfold more. destruct (decide (e = x)) as [<-|Hne]; [by rewrite upd_eq|by rewrite upd_ne]. Qed.

Lemma more_ne x : x ≠ e -> more x = O x.
Proof. intros Hne. unfold more. by rewrite upd_ne. Qed.

Lemma valid_ne x : valid O x -> x ≠ e.
Proof. intros [_ Hx] ->. congruence. Qed.

Lemma pkt_ok_more i x : pkt_ok O i x -> pkt_ok more i x.
Proof. intros []. split; try done. intros k Hk. destruct (ok_valid k Hk). split; [by apply valid_more|done]. Qed.

Lemma dok_more k d : k ≠ e -> dok O k d -> dok more k d.
Proof.
  intros Hne []. pose proof (more_ne k Hne) as E. split; rewrite ?E; try done; destruct (O k); try done.
  - destruct dok_next as (k' & ? & ?). exists k'. split; [done|by apply valid_more].
  - destruct dok_prev as (k' & ? & ?). exists k'. split; [done|by apply valid_more].
Qed.

(** No packet is at the descriptor yet. *)
Lemma no_transit dev G s : inv O dev G s -> count (in_transit e) G = 0.
Proof.
  intros H. apply count_none. intros p i Hi. destruct (inv_pkt _ _ _ _ H p i Hi) as (x & _ & Hok). pose proof (ok_valid _ _ _ Hok e) as Hv.
  unfold in_transit. destruct (i_place i); try done; apply bool_decide_eq_false; intros ->; destruct (Hv eq_refl) as [[_ ?] _]; congruence.
Qed.

(** The descriptor, set up. *)
Record set_up (s : sys) (d : wlfc_mac_descriptor) : Prop := {
  su_fresh : fresh_desc d;
  su_psq : qok (s_h s) (d_psq d) (replicate 10 [])
}.

Lemma inv_more G s d a' pq nx pv :
  inv O exact G s -> set_up s d -> d_next d = Some nx -> valid O nx -> d_prev d = Some pv -> valid O pv ->
  put_afq (w_afqs (s_w s)) e pq = Some a' -> qok (s_h s) pq (replicate 5 []) ->
  inv more exact G (upd (<[Z.to_nat e := d]> (w_destination_entries (s_w s))) a' s).
Proof.
  intros H Hd En Hn Ep Hp Ea Hq. pose proof (inv_shape _ _ _ _ H) as Hs.
  destruct (put_afq_lens (w_afqs (s_w s)) e pq (sh_nodes _ _ Hs) (sh_ifs _ _ Hs)) as (a2 & Ea2 & Hga & L1 & L2 & L3); [lia|].
  assert (a2 = a') as -> by congruence. pose proof (no_transit _ _ _ H) as Hnone. destruct (desc_lookup _ _ _ _ _ H He) as (d0 & Hd0 & _).
  destruct H as [(L & HL & Hlen) Hdm Hpk Hb _ Hc Hf]. split; try done.
  - exists (<[n_entries + e := replicate 5 []]> (<[e := replicate 10 []]> L)). destruct (Hlen e He) as [L10 L5]. rewrite HO in L10, L5.
    apply length_zero_iff_nil in L10, L5. split.
    + eapply (placed_ext _ (<[n_entries + e := pq]> (<[e := d_psq d]> (queue_of (s_w s))))).
      * apply placed_init; [apply placed_init; [done|unfold N_QUEUES; lia| | |apply Hd]|unfold N_QUEUES; lia| | |done].
        -- intros n. by rewrite L10.
        -- intros n. apply lookup_total_replicate_nil.
        -- intros n. rewrite upd_ne by lia. by rewrite L5.
        -- intros n. apply lookup_total_replicate_nil.
      * intros k Hk. unfold N_QUEUES in Hk. unfold queue_of. cbn. destruct (decide (k = n_entries + e)) as [->|Hne].
        -- rewrite upd_eq, bool_decide_false by lia. replace (n_entries + e - n_entries) with e by lia. by rewrite Hga, bool_decide_true by lia.
        -- rewrite upd_ne by done. destruct (decide (k = e)) as [->|Hne2].
           ++ by rewrite upd_eq, bool_decide_true, (at_insert_eq _ _ _ _ Hd0) by lia.
           ++ rewrite upd_ne by done. case_bool_decide; [by rewrite at_insert_ne by lia|]. rewrite Hga by lia. rewrite !entry_of_id by lia. by rewrite bool_decide_false by lia.
    + intros k Hk. unfold more. destruct (decide (e = k)) as [<-|Hne].
      * rewrite upd_eq, upd_ne, !upd_eq by lia. done.
      * rewrite !(upd_ne _ _ k) by lia. rewrite (upd_ne _ (n_entries + e)), (upd_ne _ e) by lia. by apply Hlen.
  - intros p i Hi. destruct (Hpk p i Hi) as (x & Hx & Hok). exists x. split; [done|by apply pkt_ok_more].
  - destruct Hs. split; cbn; rewrite ?length_insert, ?L1, ?L2, ?L3; try done.
    + intros k d1. destruct (decide (e = k)) as [<-|Hne].
      * rewrite (at_insert_eq _ _ _ _ Hd0). intros [= <-]. destruct Hd as [[] ?]. split; unfold more; rewrite ?upd_eq; try done.
        -- exists nx. split; [done|by apply valid_more].
        -- exists pv. split; [done|by apply valid_more].
      * intros Hk. rewrite at_insert_ne in Hk; [|lia|by apply at_range in Hk]. apply dok_more; [done|by apply sh_desc].
    + destruct sh_head as (k & ? & ?). exists k. split; [done|by apply valid_more].
    + destruct sh_requested as (r & ? & ? & ? & ? & Hr). exists r. split_and!; try done. intros k Hk. destruct (Hr k Hk). split; [by apply valid_more|done].
  - destruct Hc as [H1 H2 H3 H4]. split; try done. cbn. intros k d1. destruct (decide (e = k)) as [<-|Hne].
    + rewrite (at_insert_eq _ _ _ _ Hd0). intros [= <-]. by rewrite (fd_transit _ (su_fresh _ _ Hd)), Hnone.
    + intros Hk. rewrite at_insert_ne in Hk; [auto|lia|by apply at_range in Hk].
Qed.

(** *** The ring *)

Lemma wp_modd_inv k f d s Q :
  at_ (w_destination_entries (s_w s)) k = Some d -> wp (modd k f) s Q ->
  Q tt (set_w (set_w_destination_entries (<[Z.to_nat k := f d]> (w_destination_entries (s_w s))) (s_w s)) s).
Proof.
  intros Hd (x & s' & E & HQ). destruct (wp_modd_at k f d s (λ _ s2, s2 = set_w (set_w_destination_entries (<[Z.to_nat k := f d]> (w_destination_entries (s_w s))) (s_w s)) s) Hd)
    as (y & s2 & E2 & <-); [done|]. destruct x, y. congruence.
Qed.

Lemma wp_modd_comm k f h s de Q :
  k ≠ e -> 0 <= k < Z.of_nat (length (w_destination_entries (s_w s))) -> at_ (w_destination_entries (s_w s)) e = Some de ->
  wp (modd k f) (set_w (set_w_destination_entries (<[Z.to_nat e := h de]> (w_destination_entries (s_w s))) (s_w s)) s) Q ->
  wp (_ ← modd k f; modd e h) s Q.
Proof.
  intros Hne Hk Hde H. destruct (at_is_Some _ k Hk) as [dk Hdk]. apply wp_bind. eapply wp_modd_at; [exact Hdk|].
  eapply wp_modd_at; [cbn [set_w s_w w_destination_entries set_w_destination_entries]; rewrite at_insert_ne by lia; exact Hde|].
  eapply wp_modd_inv in H; [|cbn [set_w s_w w_destination_entries set_w_destination_entries]; rewrite at_insert_ne by lia; exact Hdk].
  cbn [set_w s_w w_destination_entries set_w_destination_entries] in H |- *. by rewrite list_insert_insert_ne by lia.
Qed.

(** The descriptor of its own is changed before the two others. *)
Lemma wp_modd_last k1 f1 k2 f2 h s de Q :
  k1 ≠ e -> k2 ≠ e -> 0 <= k1 < Z.of_nat (length (w_destination_entries (s_w s))) -> 0 <= k2 < Z.of_nat (length (w_destination_entries (s_w s))) ->
  at_ (w_destination_entries (s_w s)) e = Some de ->
  wp (modd k1 f1) (set_w (set_w_destination_entries (<[Z.to_nat e := h de]> (w_destination_entries (s_w s))) (s_w s)) s)
    (λ _ s', wp (modd k2 f2) s' Q) ->
  wp (_ ← modd k1 f1; _ ← modd k2 f2; modd e h) s Q.
Proof.
  intros H1 H2 Hk1 Hk2 Hde H. destruct (at_is_Some _ k1 Hk1) as [d1 Hd1]. apply wp_bind. eapply wp_modd_at; [exact Hd1|].
  eapply wp_modd_comm; [done|cbn [set_w s_w w_destination_entries set_w_destination_entries]; by rewrite length_insert|
    cbn [set_w s_w w_destination_entries set_w_destination_entries]; rewrite at_insert_ne by lia; exact Hde|].
  eapply wp_modd_inv in H; [|cbn [set_w s_w w_destination_entries set_w_destination_entries]; rewrite at_insert_ne by lia; exact Hd1].
  cbn [set_w s_w w_destination_entries set_w_destination_entries] in H |- *. by rewrite list_insert_insert_ne by lia.
Qed.

(** A descriptor in use becomes a neighbour of another. *)
Lemma wp_set_next dev G s k k' Q : inv O dev G s -> valid O k -> valid O k' -> (∀ s', inv O dev G s' -> Q tt s') -> wp (modd k (set_d_next (Some k'))) s Q.
Proof.
  intros H Hk Hk' HQ. eapply wp_modd_raw; [done|apply Hk|]. intros d Hd Hok. apply HQ. eapply inv_dev.
  - eapply inv_desc; [done|done| |done]. destruct Hok. split; cbn; try done. destruct Hk as [_ ->]. by exists k'.
  - intros x _. cbn. destruct (decide (k = x)) as [<-|Hne]; [rewrite upd_eq; lia|by rewrite upd_ne].
Qed.

Lemma wp_set_prev dev G s k k' Q : inv O dev G s -> valid O k -> valid O k' -> (∀ s', inv O dev G s' -> Q tt s') -> wp (modd k (set_d_prev (Some k'))) s Q.
Proof.
  intros H Hk Hk' HQ. eapply wp_modd_raw; [done|apply Hk|]. intros d Hd Hok. apply HQ. eapply inv_dev.
  - eapply inv_desc; [done|done| |done]. destruct Hok. split; cbn; try done. destruct Hk as [_ ->]. by exists k'.
  - intros x _. cbn. destruct (decide (k = x)) as [<-|Hne]; [rewrite upd_eq; lia|by rewrite upd_ne].
Qed.
End More.

Section Link.
Context (O : Z -> bool) (e : Z) (He : 0 <= e < n_entries) (HO : O e = false).

(** The descriptor is put at the end of the ring. *)
Lemma wp_link G s d a' pq Q :
  inv O exact G s -> set_up s d -> put_afq (w_afqs (s_w s)) e pq = Some a' -> qok (s_h s) pq (replicate 5 []) ->
  (∀ s', inv (more O e) exact G s' -> Q tt s') ->
  wp (link_active e) (upd (<[Z.to_nat e := d]> (w_destination_entries (s_w s))) a' s) Q.
Proof.
  intros H Hd Ea Hq HQ. pose proof (sh_entries _ _ (inv_shape _ _ _ _ H)) as Hl. set (l := w_destination_entries (s_w s)) in *.
  destruct (sh_head _ _ (inv_shape _ _ _ _ H)) as (hd & Ehd & Hhd). destruct (desc_lookup _ _ _ _ _ H (proj1 Hhd)) as (dh & Hdh & Hokh).
  pose proof (dok_prev _ _ _ Hokh) as Hpv. destruct Hhd as [Hhd HOh]. rewrite HOh in Hpv. destruct Hpv as (pv & Epv & Hpv).
  assert (hd ≠ e) as Hne1 by (intros ->; congruence). pose proof (valid_ne O e HO pv Hpv) as Hne2. destruct Hpv as [Hpv HOp].
  unfold link_active. apply wp_bind, wp_getw. cbn [upd set_w s_w w_active_entry_head set_w_afqs set_w_destination_entries]. rewrite Ehd. apply wp_bind, wp_bind.
  unfold getd at 1. apply wp_bind, wp_getw, wp_bind. eapply wp_lift.
  { cbn [upd set_w s_w w_destination_entries set_w_afqs set_w_destination_entries]. rewrite at_insert_ne by lia. exact Hdh. }
  apply wp_ret. rewrite Epv. apply wp_bind. apply wp_modd_on; [lia|]. apply wp_bind. eapply wp_lift; [done|].
  set (d1 := set_d_prev (Some pv) d). set (d2 := set_d_next (Some hd) d1).
  assert (inv (more O e) exact G (upd (<[Z.to_nat e := d2]> l) a' s)) as H2.
  { apply (inv_more O e He HO G s d2 a' pq hd pv); try done. by destruct Hd as [[] ?]. }
  eapply (wp_modd_last e He pv _ hd _ _ _ d1); cbn [upd set_w s_w w_destination_entries set_w_afqs set_w_destination_entries];
    rewrite ?length_insert; [done|done|lia|lia|apply at_on; lia|]. rewrite list_insert_insert_eq. fold d2. change (set_w _ _) with (upd (<[Z.to_nat e := d2]> l) a' s).
  assert (valid (more O e) e) as Hve by (split; [done|unfold more; by rewrite upd_eq]).
  eapply wp_set_next; [exact H2|by apply valid_more|done|]. intros s3 H3. eapply wp_set_prev; [exact H3|by apply valid_more|done|]. intros s4 H4.
  eapply wp_modw; [exact H4|done|done].
Qed.

Context (cfg : dhd_cfg) (env : wenv).

Lemma unused_queue G s L : inv O exact G s -> placed (s_h s) (queue_of (s_w s)) L (pos_of <$> G) -> lens_ok O L ->
  qok (s_h s) (queue_of (s_w s) e) [] ∧ qok (s_h s) (queue_of (s_w s) (n_entries + e)) [].
Proof.
  intros H HL Hlen. destruct (Hlen e He) as [L1 L2]. rewrite HO in L1, L2. apply length_zero_iff_nil in L1, L2.
  pose proof (pl_q _ _ _ _ HL e ltac:(unfold N_QUEUES; lia)) as Q1. pose proof (pl_q _ _ _ _ HL (n_entries + e) ltac:(unfold N_QUEUES; lia)) as Q2.
  rewrite L1 in Q1. by rewrite L2 in Q2.
Qed.

(** A destination that is added. *)
Lemma wp_add G s ifid iftype ea fn Q :
  inv O exact G s -> 0 <= ifid -> (∀ s', inv (more O e) exact G s' -> Q BCME_OK s') ->
  wp (_dhd_wlfc_mac_entry_update cfg env e eWLFC_MAC_ENTRY_ACTION_ADD ifid iftype ea fn) s Q.
Proof.
  intros H Hif HQ. destruct (desc_lookup _ _ _ _ _ H He) as (d0 & Hd0 & Hok0). pose proof (sh_entries _ _ (inv_shape _ _ _ _ H)) as Hl.
  destruct (inv_places _ _ _ _ H) as (L & HL & Hlen). destruct (unused_queue _ _ _ H HL Hlen) as [Q1 Q2].
  destruct (afq_lookup O _ e (inv_shape _ _ _ _ H) He) as [pq0 Hpq0]. rewrite (queue_of_psq _ _ _ Hd0 He) in Q1. rewrite (queue_of_afq _ _ _ Hpq0) in Q2 by lia.
  destruct (qok_init _ _ WLFC_PSQ_PREC_COUNT Q1) as (pq1 & E1 & HQ1); [done|]. destruct (qok_init _ _ WLFC_AFQ_PREC_COUNT Q2) as (pq2 & E2 & HQ2); [done|].
  destruct (put_afq_lens (w_afqs (s_w s)) e pq2 (sh_nodes _ _ (inv_shape _ _ _ _ H)) (sh_ifs _ _ (inv_shape _ _ _ _ H))) as (a' & Ea & _); [lia|].
  assert (s = upd (<[Z.to_nat e := d0]> (w_destination_entries (s_w s))) (w_afqs (s_w s)) s) as Es.
  { rewrite list_insert_id by (by apply at_Some in Hd0 as [_ ?]). destruct s as [[] ? ? ? ?]. done. }
  pose proof (dok_next _ _ _ Hok0) as Hnx. rewrite HO in Hnx. rewrite Es.
  eapply (wp_entry_added cfg env e _ _ s d0 pq0 pq1 pq2 a' ifid iftype ea fn (λ _ s', inv O exact G s')); try done; [lia|apply Hok0|by eapply wp_flow_check|].
  intros d s0 H0 El Eafq Hfd Epq Enx. rewrite <-El. eapply (wp_link G s0 d a' pq2); [done| |by rewrite Eafq|done|done].
  split; [done|by rewrite Epq].
Qed.

End Link.

(** A destination that is updated. *)
Lemma wp_modd_ok O dev G s k f Q :
  inv O dev G s -> 0 <= k < n_entries ->
  (∀ d, dok O k d -> dok O k (f d) ∧ d_psq (f d) = d_psq d ∧ d_transit_count (f d) = d_transit_count d) ->
  (∀ s', inv O dev G s' -> Q tt s') -> wp (modd k f) s Q.
Proof.
  intros H Hk Hf HQ. eapply wp_modd_raw; [done|done|]. intros d Hd Hok. destruct (Hf d Hok) as (F1 & F2 & F3). apply HQ. eapply inv_dev.
  - by eapply inv_desc.
  - intros x _. rewrite F3. destruct (decide (k = x)) as [<-|Hne]; [rewrite upd_eq; lia|by rewrite upd_ne].
Qed.

Lemma wp_update O cfg env dev G s k ifid iftype ea fn Q :
  inv O dev G s -> valid O k -> 0 <= ifid -> (∀ s', inv O dev G s' -> Q BCME_OK s') ->
  wp (_dhd_wlfc_mac_entry_update cfg env k eWLFC_MAC_ENTRY_ACTION_UPDATE ifid iftype ea fn) s Q.
Proof.
  intros H Hk Hif HQ. unfold _dhd_wlfc_mac_entry_update. rewrite (bool_decide_false (eWLFC_MAC_ENTRY_ACTION_UPDATE = _)) by done.
  rewrite bool_decide_true by done. cbn [orb]. wthen; [|intros _ s1 H1; by apply wp_ret, HQ]. apply wp_bind.
  eapply wp_modd_ok; [done|apply Hk| |].
  { intros d []. destruct Hk as [_ Hk]. by split. }
  intros s1 H1. do 4 wauto1. apply wp_bind. eapply wp_modd_ok; [done|apply Hk| |].
  { intros d []. by split. }
  intros s4 H4. do 4 wauto1. wthen; [eapply wp_release; [done|apply Hk|done]|]. intros _ s7 H7.
  wthen; [destruct ea; [by wauto1|by apply wp_ret]|]. intros _ s8 H8. by apply wp_ret.
Qed.

(** ** The start *)

(** Only the descriptor for all others is in use. *)
Definition at_start : Z -> bool := <[other := true]> (λ _, false).

Definition start_lists (k : Z) : lists :=
  if decide (k = other) then replicate 10 [] else if decide (k = n_entries + other) then replicate 5 [] else [].

Lemma at_start_true e : at_start e = true <-> e = other.
Proof. unfold at_start. destruct (decide (other = e)) as [<-|Hne]; [by rewrite upd_eq|]. rewrite upd_ne by done. naive_solver. Qed.

Lemma valid_start : valid at_start other.
Proof. split; [done|]. by apply at_start_true. Qed.

Lemma qok_zero h : qok h zero_pktq [].
Proof. split; [done|by left|]. intros i qp Hq. cbn [zero_pktq q] in Hq. by apply lookup_replicate in Hq as [-> _]. Qed.

Lemma start_lists_nil k n : start_lists k !!! n = [].
Proof. unfold start_lists. repeat case_decide; [apply lookup_total_replicate_nil..|done]. Qed.

Lemma dok_zero e : at_start e = false -> dok at_start e zero_desc.
Proof. intros E. split; rewrite ?E; done. Qed.

Lemma count_empty f : count f ∅ = 0.
Proof. by apply count_none. Qed.

Lemma counts_zero n f : (∀ a, f a = 0) -> counts n (replicate n 0) f.
Proof. intros Hf. split; [by rewrite length_replicate|]. intros a x [_ [-> _]%lookup_replicate]%at_Some. by rewrite Hf. Qed.

Lemma at_rep {A} n (x y : A) i : at_ (replicate n x) i = Some y -> y = x.
Proof. by intros [_ [-> _]%lookup_replicate]%at_Some. Qed.

(** The part of the state that is as [memset] left it. *)
Record cleared (w : wlfc) : Prop := {
  cl_credits : w_credits w = no_credits;
  cl_requested : w_requested_entry w = replicate 32 None;
  cl_requested_count : w_requested_entry_count w = 0;
  cl_in_q : w_pkt_cnt_in_q w = replicate 16 (replicate 5 0);
  cl_per_ac : w_pkt_cnt_per_ac w = replicate 5 0;
  cl_in_drv : w_pkt_cnt_in_drv w = replicate 16 (replicate 5 0);
  cl_rx : length (w_rx_timestamp w) = 5%nat;
  cl_flow : length (w_hostif_flow_state w) = 16%nat
}.

Lemma cleared_counted w d :
  cleared w -> d_transit_count d = 0 -> w_destination_entries w = <[Z.to_nat other := d]> (w_destination_entries zero_state) -> counted exact ∅ w.
Proof.
  intros [] Hd El. split.
  - rewrite cl_in_q0. split; [done|]. intros i r ->%at_rep. apply counts_zero. intros. apply count_empty.
  - rewrite cl_per_ac0. apply counts_zero. intros. apply count_empty.
  - rewrite cl_in_drv0. split; [done|]. intros i r ->%at_rep. apply counts_zero. intros. apply count_empty.
  - rewrite El. intros e d' [He Hd']%at_Some. rewrite count_empty. unfold exact. apply list_lookup_insert_Some in Hd' as [(_ & <- & _)|[_ Hd']]; [lia|].
    cbn [zero_state w_destination_entries] in Hd'. by apply lookup_replicate in Hd' as [-> _].
Qed.

Lemma cleared_shape w d a' pq :
  cleared w -> fresh_desc d -> d_next d = Some other -> d_prev d = Some other ->
  w_destination_entries w = <[Z.to_nat other := d]> (w_destination_entries zero_state) -> w_active_entry_head w = Some other ->
  put_afq (w_afqs zero_state) other pq = Some a' -> w_afqs w = a' -> shape at_start w.
Proof.
  intros [] [] En Ep El Eh Ea Ew. destruct (put_afq_lens (w_afqs zero_state) other pq) as (a2 & Ea2 & _ & L1 & L2 & L3); [done..|].
  assert (a2 = a') as -> by congruence. split; rewrite ?El, ?Ew, ?L1, ?L2, ?L3, ?cl_requested0, ?cl_requested_count0; try done.
  - intros e d' [He Hd']%at_Some. apply list_lookup_insert_Some in Hd' as [(Ee & <- & _)|[Ee Hd']].
    + assert (e = other) as -> by (change other with 48 in *; lia). split; try done; rewrite (proj2 (at_start_true other)) by done; try done; exists other; (split; [done|apply valid_start]).
    + cbn [zero_state w_destination_entries] in Hd'. apply lookup_replicate in Hd' as [-> _]. apply dok_zero.
      apply not_true_is_false. intros ->%at_start_true. lia.
  - rewrite cl_credits0. split; try done. cbn. repeat constructor.
  - exists other. split; [done|apply valid_start].
  - exists []. split_and!; try done; [constructor|]. intros e He. by apply elem_of_nil in He.
Qed.

Lemma inv_start w s d a' pq :
  s_h s = ∅ -> s_p s = ∅ -> s_bus s = [] ->
  cleared w -> fresh_desc d -> d_next d = Some other -> d_prev d = Some other ->
  w_destination_entries w = <[Z.to_nat other := d]> (w_destination_entries zero_state) -> w_active_entry_head w = Some other ->
  put_afq (w_afqs zero_state) other pq = Some a' -> w_afqs w = a' ->
  (∀ h, qok h (d_psq d) (replicate 10 [])) -> (∀ h, qok h pq (replicate 5 [])) -> inv at_start exact ∅ (set_w w s).
Proof.
  intros Eh Ep Eb Hcl Hd En Epv El Ehd Ea Ew Hq1 Hq2. split; cbn [set_w s_h s_p s_bus s_w].
  - exists start_lists. split.
    + split.
      * by rewrite Eh.
      * intros k Hk. unfold queue_of, start_lists. rewrite El, Ew.
        destruct (put_afq_lens (w_afqs zero_state) other pq) as (a2 & Ea2 & Hga & _); [done..|]. assert (a2 = a') as -> by congruence.
        assert (0 <= other < n_entries) as Ho by done. case_decide as E1.
        -- subst k. rewrite bool_decide_true by done. rewrite at_on by done. apply Hq1.
        -- case_decide as E2.
           ++ subst k. rewrite bool_decide_false by lia. replace (n_entries + other - n_entries) with other by lia. rewrite Hga, bool_decide_true by done. apply Hq2.
           ++ unfold N_QUEUES in Hk. case_bool_decide as E3.
              ** rewrite at_insert_ne by lia. destruct (at_ (w_destination_entries zero_state) k) as [d'|] eqn:Ed; [|apply qok_zero].
                 cbn [zero_state w_destination_entries] in Ed. apply at_rep in Ed as ->. apply qok_zero.
              ** rewrite Hga by lia. rewrite !entry_of_id by lia. rewrite bool_decide_false by lia. unfold get_afq.
                 repeat case_bool_decide; cbn [zero_state w_afqs af_nodes af_interfaces af_other]; [| |apply qok_zero];
                   match goal with |- context [at_ ?l ?i] => destruct (at_ l i) eqn:Ed end; try apply qok_zero; apply at_rep in Ed as ->; apply qok_zero.
      * intros k n p Hk. rewrite start_lists_nil, fmap_empty. split; [by intros ?%elem_of_nil|done].
      * intros p k n. by rewrite fmap_empty.
      * intros p. by rewrite fmap_empty.
    + intros e He. unfold start_lists. destruct (at_start e) eqn:E.
      * apply at_start_true in E as ->. by rewrite !decide_True by done.
      * assert (e ≠ other) as Hne by (intros He2%at_start_true; congruence). rewrite !decide_False; [done|..]; unfold other, n_entries in *; lia.
  - by rewrite Ep.
  - done.
  - intros p. rewrite Eb. split; [by intros ?%elem_of_nil|by intros (i & ? & _)].
  - by eapply cleared_shape.
  - eapply cleared_counted; [done|apply Hd|done].
  - by rewrite count_empty.
Qed.

(** The flow control starts. *)
Lemma wp_enable cfg env s :
  s_h s = ∅ -> s_p s = ∅ -> s_bus s = [] ->
  wp (dhd_wlfc_enable cfg env) s (λ rc s', rc = BCME_OK ∧ settled at_start ∅ s').
Proof.
  intros Eh Ep Eb. destruct (qok_init (s_h s) _ WLFC_PSQ_PREC_COUNT (qok_zero _)) as (pq1 & E1 & HQ1); [done|].
  destruct (qok_init (s_h s) _ WLFC_AFQ_PREC_COUNT (qok_zero _)) as (pq2 & E2 & HQ2); [done|].
  destruct (put_afq_lens (w_afqs zero_state) other pq2) as (a' & Ea & _); [done..|].
  unfold dhd_wlfc_enable. apply wp_bind, wp_modify, wp_bind, wp_modify, wp_bind.
  set (s1 := set_w _ _).
  assert (s1 = upd (<[Z.to_nat other := zero_desc]> (w_destination_entries zero_state)) (w_afqs zero_state) s1) as -> by reflexivity.
  eapply (wp_entry_added cfg env other _ _ s1 zero_desc zero_pktq pq1 pq2 a' 255 0 None None (λ _ s', s' = s1)); try done.
  { by apply wp_ret. }
  intros d s0 -> _ _ Hd Epq _. unfold link_active. apply wp_bind, wp_getw. cbn [upd set_w s_w w_active_entry_head set_w_afqs set_w_destination_entries].
  change (w_active_entry_head (s_w s1)) with (@None Z). cbv beta iota. apply wp_bind, wp_bind, wp_modd_on; [done|]. apply wp_bind, wp_modd_on; [done|].
  apply wp_modify, wp_modify. do 3 (apply wp_bind, wp_modify). apply wp_ret. split; [done|]. split; [|done].
  match goal with |- context [upd (<[_ := ?d2]> _) _ _] => set (d1 := d2) end.
  eapply (inv_start _ s d1 a' pq2); try done.
  - destruct Hd. by split.
  - intros h. cbn [d1 d_psq set_d_prev set_d_next]. rewrite Epq. apply HQ1.
Qed.

(** * Wireless flow control: the elements of a header

    What the dongle says to the host in front of a packet: a header of complete
    elements is read to its end, and each element is handled. *)

(** ** Credits *)

Lemma back_loop_ok ls i : 0 <= i < 6 -> Forall (λ l, 0 <= l < 6) ls -> ∀ k c, cok c -> ∃ k' c', back_loop ls i k c = Some (k', c') ∧ cok c'.
Proof.
  intros Hi. induction 1 as [|l ls Hl _ IH]; intros k c H; cbn [back_loop]; [by eexists _, _|].
  case_bool_decide as E0; [|by eexists _, _]. destruct (get_borrowed_ok c i l H Hi Hl) as [x ->]. cbn [mbind option_bind].
  case_bool_decide as E1; [|by apply IH]. case_bool_decide as E2.
  - destruct (add_fifo_ok c l x H Hl) as (c1 & -> & H1). cbn [mbind option_bind]. destruct (set_borrowed_ok c1 i l 0 H1 Hi Hl) as (c2 & -> & H2).
    cbn [mbind option_bind]. by apply IH.
  - destruct (add_borrowed_ok c i l (- k) H Hi Hl) as (c1 & -> & H1). cbn [mbind option_bind]. destruct (add_fifo_ok c1 l k H1 Hl) as (c2 & -> & H2).
    cbn [mbind option_bind]. by apply IH.
Qed.

Lemma back_ac_ok i k c : 0 <= i < 6 -> cok c -> ∃ k' c', back_ac i k c = Some (k', c') ∧ cok c'.
Proof.
  intros Hi H. unfold back_ac. destruct (back_loop_ok lenders_down i Hi lenders_in_range k c H) as (k1 & c1 & -> & H1). cbn [mbind option_bind].
  assert (∃ c2, (if bool_decide (k1 > 0) then add_fifo i k1 c1 else Some c1) = Some c2 ∧ cok c2) as (c2 & -> & H2).
  { case_bool_decide; [by apply add_fifo_ok|by eexists]. }
  cbn [mbind option_bind]. destruct (at_is_Some (FIFO_credit c2) i) as [f ->]; [rewrite (cok_fifo _ H2); lia|]. cbn [mbind option_bind].
  destruct (at_is_Some (Init_FIFO_credit c2) i) as [m ->]; [rewrite (cok_init _ H2); lia|]. cbn [mbind option_bind].
  case_bool_decide; [|by eexists _, _]. destruct (set_fifo_ok c2 i m H2 Hi) as (c3 & -> & H3). by eexists _, _.
Qed.

(** The credits are written into the element, and nowhere else. *)
Lemma back_all_ok mode acs : Forall (λ i, 0 <= i < 6) acs -> ∀ v rest c, (6 <= length v)%nat -> cok c ->
  ∃ v' c', back_all acs mode (v ++ rest) c = Some (v' ++ rest, c') ∧ cok c' ∧ length v' = length v.
Proof.
  induction 1 as [|i acs Hi _ IH]; intros v rest c Hv H; cbn [back_all]; [by eexists _, _|].
  case_bool_decide; [|by apply IH]. assert (at_ (v ++ rest) i = at_ v i) as Ea.
  { unfold at_. case_bool_decide; [|done]. by rewrite lookup_app_l by lia. }
  rewrite Ea. destruct (at_is_Some v i) as [k Hk]; [lia|]. rewrite Hk. cbn [mbind option_bind]. destruct (back_ac_ok i k c Hi H) as (k' & c1 & -> & H1).
  cbn [mbind option_bind]. rewrite (put_Some _ _ k) by by rewrite Ea. cbn [mbind option_bind]. rewrite insert_app_l by lia.
  destruct (IH (<[Z.to_nat i := k']> v) rest c1) as (v' & c' & -> & H' & Hl); [by rewrite length_insert|done|]. exists v', c'. split; [done|]. split; [done|].
  by rewrite Hl, length_insert.
Qed.

Lemma for_each_ok (f : Z -> wlfc_credits -> option wlfc_credits) acs : (∀ i c, i ∈ acs -> cok c -> ∃ c', f i c = Some c' ∧ cok c') ->
  ∀ c, cok c -> ∃ c', for_each_ac f acs c = Some c' ∧ cok c'.
Proof.
  unfold for_each_ac. induction acs as [|i acs IH]; intros Hf c H; cbn [foldl]; [by exists c|].
  destruct (Hf i c) as (c1 & E & H1); [set_solver|done|]. cbn [mbind option_bind]. rewrite E. apply IH; [|done]. intros j d Hj. apply Hf. set_solver.
Qed.

Lemma creditmap_ok c credits : cok c -> (5 <= length credits)%nat -> ∃ rc c', _dhd_wlfc_FIFOcreditmap_update c credits = Some (rc, c') ∧ rc = BCME_OK ∧ cok c'.
Proof.
  intros H Hl. unfold _dhd_wlfc_FIFOcreditmap_update. assert (∀ i, i ∈ [0; 1; 2; 3; 4] -> 0 <= i < 5) as Hr.
  { intros i. rewrite !elem_of_cons, elem_of_nil. lia. }
  destruct (for_each_ok (map_fifo credits) [0; 1; 2; 3; 4]) with c as (c1 & -> & H1); [|done|].
  { intros i d Hi Hd. specialize (Hr i Hi). unfold map_fifo. destruct (at_is_Some credits i) as [k ->]; [lia|]. cbn [mbind option_bind].
    destruct (at_is_Some (Init_FIFO_credit d) i) as [m ->]; [rewrite (cok_init _ Hd); lia|]. cbn [mbind option_bind]. apply add_fifo_ok; [done|lia]. }
  cbn [mbind option_bind]. destruct (for_each_ok (map_init credits) [0; 1; 2; 3; 4]) with c1 as (c2 & -> & H2); [|done|].
  { intros i d Hi Hd. specialize (Hr i Hi). unfold map_init. destruct (at_is_Some credits i) as [k ->]; [lia|]. cbn [mbind option_bind]. apply set_init_ok; [done|lia]. }
  cbn [mbind option_bind]. destruct (set_fifo_ok c2 5 0 H2) as (c3 & -> & H3); [lia|]. cbn [mbind option_bind].
  destruct (set_init_ok c3 5 0 H3) as (c4 & -> & H4); [lia|]. by eexists _, _.
Qed.

(** ** Elements *)

Inductive wlfc_element := Filler | Element (type : Z) (value : list Z).

Definition encode (x : wlfc_element) : list Z :=
  match x with Filler => [WLFC_CTL_TYPE_FILLER] | Element t v => t :: Z.of_nat (length v) :: v end.
Definition encode_all (l : list wlfc_element) : list Z := concat (encode <$> l).

(** The bytes that the host reads of an element, which it does not compare with
    the length. *)
Definition value_len (type : Z) : nat :=
  if bool_decide (type = WLFC_CTL_TYPE_TXSTATUS) then 4
  else if bool_decide (type = WLFC_CTL_TYPE_COMP_TXSTATUS) then 5
  else if bool_decide (type = WLFC_CTL_TYPE_FIFO_CREDITBACK) then 6
  else if bool_decide (type = WLFC_CTL_TYPE_MAC_REQUEST_CREDIT) || bool_decide (type = WLFC_CTL_TYPE_MAC_REQUEST_PACKET) then 3
  else if bool_decide (type = WLFC_CTL_TYPE_MACDESC_ADD) then 8
  else if bool_decide (type = WLFC_CTL_TYPE_MAC_OPEN) || bool_decide (type = WLFC_CTL_TYPE_MAC_CLOSE)
       || bool_decide (type = WLFC_CTL_TYPE_INTERFACE_OPEN) || bool_decide (type = WLFC_CTL_TYPE_INTERFACE_CLOSE) then 1
  else if bool_decide (type = WLFC_CTL_TYPE_TRANS_ID) then 6
  else 0.

(** A station comes to an interface that there is, and is not known elsewhere. *)
Definition may_come (s : sys) (v : list Z) : Prop :=
  ∃ handle ifid ea, v = handle :: ifid :: ea ∧ ifid < WLFC_MAX_IFNUM
    ∧ let i := find_mac (take (Z.to_nat WLFC_MAC_DESC_TABLE_SIZE) (w_destination_entries (s_w s))) (take ETHER_ADDR_LEN ea) 0 in
      i = WLFC_MAC_DESC_ID_INVALID ∨ i = WLFC_MAC_DESC_GET_LOOKUP_INDEX handle.

(** An element that the theorems are about: stations do not leave. *)
Definition complete (s : sys) (x : wlfc_element) : Prop :=
  match x with
  | Filler => True
  | Element t v =>
      t ≠ WLFC_CTL_TYPE_FILLER ∧ t ≠ WLFC_CTL_TYPE_MACDESC_DEL ∧ Forall (λ b, 0 <= b < 256) v ∧ (value_len t <= length v)%nat
      ∧ (t = WLFC_CTL_TYPE_MACDESC_ADD -> may_come s v)
  end.

(** The state fits some places of the packets, whatever descriptors are in use. *)
Definition fits (G : packets) (s : sys) : Prop := ∃ O, valid O other ∧ settled O G s.

Definition handled (G : packets) (s : sys) : Prop := ∃ G', answered G G' ∧ fits G' s.

Lemma handled_trans G1 G2 s : answered G1 G2 -> handled G2 s -> handled G1 s.
Proof. intros H (G3 & H3 & Hf). exists G3. split; [by eapply answered_trans|done]. Qed.

Lemma handled_refl G s : fits G s -> handled G s.
Proof. intros H. exists G. split; [apply answered_refl|done]. Qed.

Section Elements.
Context (cfg : dhd_cfg) (env : wenv) (Hhdr : 0 <= dhd_hdrlen cfg).

Lemma at_app (v rest : list Z) i : 0 <= i < Z.of_nat (length v) -> at_ (v ++ rest) i = at_ v i.
Proof. intros Hi. unfold at_. rewrite !bool_decide_true by lia. by rewrite lookup_app_l by lia. Qed.

(** *** Statuses *)

Lemma ltoh32_ok v rest i : 0 <= i -> i + 4 <= Z.of_nat (length v) -> ∃ x, ltoh32_at (v ++ rest) i = Some x.
Proof.
  intros H0 Hi. unfold ltoh32_at.
  destruct (at_is_Some (v ++ rest) i) as [a ->]; [rewrite length_app; lia|]. destruct (at_is_Some (v ++ rest) (i + 1)) as [b ->]; [rewrite length_app; lia|].
  destruct (at_is_Some (v ++ rest) (i + 2)) as [c ->]; [rewrite length_app; lia|]. destruct (at_is_Some (v ++ rest) (i + 3)) as [d ->]; [rewrite length_app; lia|].
  by eexists.
Qed.

Lemma wp_txstatus O G s v rest n :
  valid O other -> settled O G s -> (4 <= length v)%nat -> wp (_dhd_wlfc_compressed_txstatus_update cfg env (v ++ rest) n) s (answers O G (λ _, True)).
Proof.
  intros Ho H Hl. destruct (ltoh32_ok v rest 0) as [x Hx]; [lia..|]. unfold _dhd_wlfc_compressed_txstatus_update. apply wp_bind. eapply wp_lift; [exact Hx|].
  eapply (wp_answers O G _ _ (λ _, True)); [|intros; by apply wp_ret, answers_refl]. apply wp_if; intros _; [by apply wp_ret, answers_refl|].
  apply wp_status_loop; try done.
  - apply (get_field_range 8 16); lia.
  - apply (get_field_range 24 3); lia.
Qed.

(** *** A station comes *)

Lemma wp_mac_add O G s v rest :
  valid O other -> settled O G s -> Forall (λ b, 0 <= b < 256) v -> (8 <= length v)%nat -> may_come s v ->
  wp (_dhd_wlfc_mac_table_update cfg env (v ++ rest) WLFC_CTL_TYPE_MACDESC_ADD) s (λ _ s', fits G s').
Proof.
  intros Ho [H Ht] Hb Hl (handle & ifid & ea & -> & Hif & Hea). cbn in Hl.
  unfold _dhd_wlfc_mac_table_update. apply wp_bind. eapply wp_lift; [done|]. apply wp_bind. eapply wp_lift; [done|]. apply wp_bind.
  destruct (at_is_Some ((handle :: ifid :: ea) ++ rest) 7) as [y Hy]; [rewrite length_app; cbn; lia|]. eapply wp_lift; [by rewrite Hy|].
  cbn [drop app]. rewrite drop_0. cbv zeta. set (e := WLFC_MAC_DESC_GET_LOOKUP_INDEX handle) in *. pose proof (node_range handle) as He. fold e in He.
  apply wp_bind. eapply wp_remove_requested; [done|]. intros s1 H1 E1. apply wp_bind.
  eapply (wp_mono _ _ (λ _ s', fits G s')).
  - rewrite bool_decide_true by done. apply wp_bind, wp_bind, wp_getw, wp_ret. rewrite take_app_le by (unfold ETHER_ADDR_LEN; lia). rewrite E1.
    assert (∀ s2, inv O exact G s2 -> wp (occ ← getd e d_occupied;
      if (occ : bool) then mret tt
      else _ ← modd e (set_d_mac_handle handle); iftype ← iftype_of ifid;
           _ ← _dhd_wlfc_mac_entry_update cfg env e eWLFC_MAC_ENTRY_ACTION_ADD ifid iftype (Some (ea ++ rest)) None; mret tt) s2 (λ _ s', fits G s')) as Hadd.
    { intros s2 H2. apply wp_bind. eapply wp_getd; [done|done|]. intros d Hd Hok. pose proof (dok_occupied _ _ _ Hok) as Eo.
      destruct (d_occupied d); [apply wp_ret; by exists O|]. do 2 wauto1. unfold iftype_of. rewrite bool_decide_true by done.
      apply Forall_cons in Hb as [_ [Hi0 _]%Forall_cons]. apply wp_bind. eapply wp_getd; [done|in_range|]. intros di _ _. apply wp_bind.
      eapply (wp_add O e He); [done|done|lia|]. intros s4 H4. apply wp_ret. exists (more O e). split; [by apply valid_more|done]. }
    destruct (bool_decide (find_mac _ _ _ ≠ _) && _) eqn:E.
    + exfalso. apply andb_true_iff in E as [En1%bool_decide_eq_true En2%bool_decide_eq_true]. by destruct Hea.
    + apply wp_bind, wp_ret. by apply Hadd.
  - intros _ s2 H2. rewrite bool_decide_false by done. apply wp_bind, wp_ret, wp_ret. done.
Qed.

(** *** Any element *)

(** What the handler returns of the buffer, and what it did. *)
Definition handles (G : packets) (v rest : list Z) (value' : list Z) (s' : sys) : Prop :=
  ∃ v', value' = v' ++ rest ∧ length v' = length v ∧ handled G s'.

Lemma wp_same {A} (m : M A) G v rest s : wp m s (λ _ s', handled G s') -> wp (_ ← m; mret (v ++ rest)) s (handles G v rest).
Proof. intros H. apply wp_bind. eapply wp_mono; [exact H|]. intros ? s' H'. apply wp_ret. by exists v. Qed.

Lemma handled_answers {A} O G (Q : A -> Prop) a s : valid O other -> answers O G Q a s -> handled G s.
Proof. intros Ho (_ & G' & Han & H). exists G'. split; [done|]. by exists O. Qed.

Lemma wp_handle_element t len v rest G s :
  fits G s -> complete s (Element t v) -> wp (handle_element cfg env t len (v ++ rest)) s (handles G v rest).
Proof.
  intros (O & Ho & H) (Hnf & Hnd & Hb & Hl & Hadd). pose proof H as [Hi Ht].
  assert (∀ s', inv O exact G s' -> handled G s') as Hdone by (intros; apply handled_refl; by exists O).
  assert (∀ A (m : M A) (Q : A -> Prop), wp m s (answers O G Q) -> wp m s (λ _ s', handled G s')) as Hans.
  { intros A m Q Hm. eapply wp_mono; [exact Hm|]. intros a s'. by apply handled_answers. }
  unfold handle_element, value_len in *. case_bool_decide as E1; [by eapply wp_same, Hans, wp_txstatus|].
  case_bool_decide as E2.
  { apply wp_bind. destruct (at_is_Some v WLFC_CTL_VALUE_LEN_TXSTATUS) as [n Hn]; [unfold WLFC_CTL_VALUE_LEN_TXSTATUS; lia|].
    eapply wp_lift; [rewrite at_app; [exact Hn|by apply at_range in Hn]|]. eapply wp_same, Hans, wp_txstatus; [done|done|lia]. }
  case_bool_decide as E3.
  { apply wp_bind, wp_getw, wp_bind.
    destruct (back_all_ok (proptxstatus_mode cfg) (seqZ 0 WLFC_CTL_VALUE_LEN_FIFO_CREDITBACK)) with v rest (w_credits (s_w s)) as (v' & c' & E & Hc & Hl').
    - apply Forall_forall. intros x Hx%elem_of_seqZ. unfold WLFC_CTL_VALUE_LEN_FIFO_CREDITBACK in Hx. lia.
    - lia.
    - apply (sh_credits _ _ (inv_shape _ _ _ _ Hi)).
    - eapply wp_lift; [unfold _dhd_wlfc_fifocreditback_indicate; by rewrite E|]. cbv beta iota. apply wp_bind, wp_modify, wp_ret. exists v'. split_and!; [done..|].
      apply Hdone. by apply inv_credits. }
  assert ((3 <= length v)%nat -> (3 <= length (v ++ rest))%nat) as Happ3 by (rewrite length_app; lia).
  assert ((1 <= length v)%nat -> (1 <= length (v ++ rest))%nat) as Happ1 by (rewrite length_app; lia).
  case_bool_decide as E4; [apply wp_same; eapply wp_request; [done|by apply Happ3|done|auto]|]. cbn [orb] in Hl.
  case_bool_decide as E5; [apply wp_same; eapply wp_request; [done|by apply Happ3|done|auto]|].
  rewrite (bool_decide_false (t = WLFC_CTL_TYPE_MACDESC_DEL)) by done. rewrite orb_false_r.
  destruct (bool_decide (t = WLFC_CTL_TYPE_MACDESC_ADD)) eqn:E6.
  { apply bool_decide_eq_true in E6. subst t. rewrite !bool_decide_false by done. cbn [orb]. apply wp_same.
    eapply wp_mono; [by eapply wp_mac_add; [| |done|lia|auto]|]. intros ? s' H'. by apply handled_refl. }
  case_bool_decide as E7; [apply wp_same; cbn [orb] in Hl; eapply Hans, wp_psmode; [done|done|auto]|].
  case_bool_decide as E8; [apply wp_same; cbn [orb] in Hl; eapply Hans, wp_psmode; [done|done|auto]|]. cbn [orb] in Hl |- *.
  destruct (bool_decide (t = WLFC_CTL_TYPE_TRANS_ID)) eqn:E9.
  { apply bool_decide_eq_true in E9. subst t. apply wp_same. destruct (ltoh32_ok v rest 2) as [x Hx]; [lia|change (6 <= length v)%nat in Hl; lia|].
    eapply wp_lift; [unfold _dhd_wlfc_dbg_senum_check; by rewrite Hx|]. by apply Hdone. }
  assert (bool_decide (t = WLFC_CTL_TYPE_INTERFACE_OPEN) || bool_decide (t = WLFC_CTL_TYPE_INTERFACE_CLOSE) = true ->
    wp (_dhd_wlfc_interface_update (v ++ rest) t) s (λ _ s', handled G s')) as Hif.
  { intros E. rewrite E in Hl. eapply wp_interface_update; [exact Hi|exact (Happ1 Hl)| |auto]. intros h Hh. rewrite at_app in Hh by lia.
    apply at_Some in Hh as [_ Hh]. rewrite Forall_lookup in Hb. specialize (Hb _ _ Hh). cbn in Hb. lia. }
  destruct (bool_decide (t = WLFC_CTL_TYPE_INTERFACE_OPEN) || _); [by apply wp_same, Hif|]. apply wp_ret. exists v. split_and!; [done..|]. by apply Hdone.
Qed.

(** ** A header *)

(** The buffer for the order of received packets, when there is one. *)
Definition roomy (r : reorder) : Prop := ∀ b, reorder_info_buf r = Some b -> WLHOST_REORDERDATA_TOTLEN <= Z.of_nat (length b).

Lemma reorder_ok v rest r : roomy r -> ∃ r', _dhd_wlfc_reorderinfo_indicate (v ++ rest) (Z.of_nat (length v)) r = Some r' ∧ roomy r'.
Proof.
  intros H. unfold _dhd_wlfc_reorderinfo_indicate. destruct (reorder_info_len r); [|by exists r]. destruct (reorder_info_buf r) as [b|] eqn:Eb.
  - specialize (H b Eb). case_bool_decide as E; [|eexists; split; [done|]; by intros ? [= <-]].
    rewrite !bool_decide_true by (rewrite ?length_app; lia). eexists. split; [done|]. intros b' [= <-]. rewrite length_app, length_take, length_drop, length_app. lia.
  - eexists. split; [done|]. by intros ? [=].
Qed.

(** Each element is complete where it is handled. *)
Fixpoint completes (payload : list Z) (es : list wlfc_element) (s : sys) : Prop :=
  match es with
  | [] => True
  | Filler :: es => completes payload es s
  | Element t v :: es =>
      complete s (Element t v)
      ∧ ∀ value s', handle_element cfg env t (Z.of_nat (length v)) (v ++ encode_all es ++ payload) s = Some (value, s') -> completes payload es s'
  end.

Lemma encode_all_cons x es : encode_all (x :: es) = encode x ++ encode_all es.
Proof. done. Qed.

Lemma handle_tlv_ok t v rest G s r :
  proptxstatus_mode cfg = WLFC_FCMODE_EXPLICIT_CREDIT -> fits G s -> complete s (Element t v) -> roomy r ->
  let l := Z.of_nat (length v) in
  ∃ v' s1 r1, handle_element cfg env t l (v ++ rest) s = Some (v' ++ rest, s1) ∧ handle_tlv cfg env t l (v ++ rest) (s, r) = Some (v' ++ rest, (s1, r1))
    ∧ length v' = length v ∧ roomy r1 ∧ handled G s1.
Proof.
  intros Hmode Hf Hx Hr l. destruct (wp_handle_element t l v rest G s Hf Hx) as (value & s1 & Eh & v' & -> & Hv' & Hh).
  assert (∃ r1, (if bool_decide (t = WLFC_CTL_TYPE_HOST_REORDER_RXPKTS) then _dhd_wlfc_reorderinfo_indicate (v ++ rest) l r else Some r) = Some r1 ∧ roomy r1)
    as (r1 & Er & Hr1). { case_bool_decide; [by apply reorder_ok|by exists r]. }
  exists v', s1, r1. split; [done|]. split; [|done]. unfold handle_tlv. rewrite Er. cbn [mbind option_bind].
  rewrite bool_decide_false by (by rewrite Hmode). by rewrite Eh.
Qed.

Lemma parse_complete : proptxstatus_mode cfg = WLFC_FCMODE_EXPLICIT_CREDIT -> ∀ es pre payload fuel G s r,
  fits G s -> roomy r -> completes payload es s ->
  Z.of_nat (length pre) + Z.of_nat (length (encode_all es)) < 65536 -> (length (encode_all es) < fuel)%nat ->
  ∃ n s' r', parse_loop (handle_tlv cfg env) fuel (pre ++ encode_all es ++ payload) (Z.of_nat (length pre)) (Z.of_nat (length (encode_all es))) (s, r)
             = Some (n, (s', r')) ∧ handled G s'.
Proof.
  intros Hmode. induction es as [|x es IH]; intros pre payload fuel G s r Hf Hr Hc Hlen Hfuel.
  { exists 0, s, r. cbn. split; [|by apply handled_refl]. destruct fuel; cbn [parse_loop]; by rewrite andb_false_r. }
  rewrite encode_all_cons in Hlen, Hfuel |- *. rewrite length_app in Hlen, Hfuel |- *. destruct fuel as [|fuel]; [lia|]. cbn [parse_loop].
  destruct (bool_decide (Z.of_nat (length pre) < _) && _) eqn:Ego; [|by exists (Z.of_nat (length (encode x) + length (encode_all es))), s, r; split; [|apply handled_refl]].
  destruct x as [|t v].
  - cbn [encode length] in Hlen, Hfuel |- *. assert (at_ (pre ++ ([WLFC_CTL_TYPE_FILLER] ++ encode_all es) ++ payload) (Z.of_nat (length pre)) = Some WLFC_CTL_TYPE_FILLER) as ->.
    { apply at_Some. split; [lia|]. by rewrite Nat2Z.id, lookup_app_r, Nat.sub_diag by lia. }
    cbn [mbind option_bind]. rewrite bool_decide_true by done.
    specialize (IH (pre ++ [WLFC_CTL_TYPE_FILLER]) payload fuel G s r Hf Hr Hc). rewrite length_app, <-app_assoc in IH. cbn [length] in IH.
    rewrite !u16_small by lia. replace (Z.of_nat (length pre) + 1) with (Z.of_nat (length pre + 1)) by lia.
    replace (Z.of_nat (1 + length (encode_all es)) - 1) with (Z.of_nat (length (encode_all es))) by lia. rewrite <-app_assoc. apply IH; lia.
  - destruct Hc as [Hx Hc]. pose proof Hx as (Hnf & _). cbn [encode length] in Hlen, Hfuel |- *. set (l := Z.of_nat (length v)) in *.
    set (tmp := pre ++ ((t :: l :: v) ++ encode_all es) ++ payload).
    assert (at_ tmp (Z.of_nat (length pre)) = Some t) as ->.
    { apply at_Some. split; [lia|]. unfold tmp. by rewrite Nat2Z.id, lookup_app_r, Nat.sub_diag by lia. }
    cbn [mbind option_bind]. rewrite bool_decide_false by done.
    assert (at_ tmp (Z.of_nat (length pre) + 1) = Some l) as ->.
    { apply at_Some. split; [lia|]. unfold tmp. rewrite lookup_app_r by lia. replace (Z.to_nat (Z.of_nat (length pre) + 1) - length pre)%nat with 1%nat by lia. done. }
    cbn [mbind option_bind]. rewrite bool_decide_false by lia.
    assert (tmp = (pre ++ [t; l]) ++ v ++ encode_all es ++ payload) as Etmp by (unfold tmp; by rewrite <-!app_assoc).
    assert (Z.to_nat (Z.of_nat (length pre) + 2) = length (pre ++ [t; l])) as -> by (rewrite length_app; cbn; lia).
    rewrite Etmp, drop_app_length, take_app_length.
    destruct (handle_tlv_ok t v (encode_all es ++ payload) G s r Hmode Hf Hx Hr) as (v' & s1 & r1 & Eh & Et & Hv' & Hr1 & G1 & Han & Hf1).
    fold l in Eh, Et. rewrite Et. cbn [mbind option_bind]. specialize (Hc _ _ Eh).
    specialize (IH ((pre ++ [t; l]) ++ v') payload fuel G1 s1 r1 Hf1 Hr1 Hc). rewrite !length_app, Hv', <-app_assoc in IH. cbn [length] in IH.
    rewrite !u16_small by lia. destruct IH as (n & s' & r' & E & Hh); [lia|lia|]. exists n, s', r'. split; [|by eapply handled_trans].
    rewrite <-E. f_equal; lia.
Qed.

(** The header of a packet from the dongle. *)
Lemma header_handled es payload G s r :
  proptxstatus_mode cfg = WLFC_FCMODE_EXPLICIT_CREDIT -> fits G s -> roomy r -> completes payload es s -> Z.of_nat (length (encode_all es)) < 65536 ->
  ∃ s' r', dhd_wlfc_parse_header_info cfg env (encode_all es ++ payload) (Z.of_nat (length (encode_all es))) (s, r) = Some (BCME_OK, (s', r')) ∧ handled G s'.
Proof.
  intros Hmode Hf Hr Hc Hlen. unfold dhd_wlfc_parse_header_info. rewrite bool_decide_false by (by rewrite Hmode). cbv zeta. rewrite u16_small by lia. rewrite Nat2Z.id.
  destruct (parse_complete Hmode es [] payload (S (length (encode_all es))) G s r Hf Hr Hc) as (n & s' & r' & E & Hh); [cbn; lia|lia|].
  cbn [app length] in E. change (Z.of_nat 0) with 0 in E. rewrite E. by exists s', r'.
Qed.
End Elements.
