(* ===== verification/WlfcRunTheorems.v ===== *)
(** * Wireless flow control: runs

    The calls of the network, of the bus and of the dongle in any order: what a
    caller has to keep to, and what each call does to the packets. *)

From stdpp Require Import functions.
From S2P Require Import Prelude Pktq PktqSpec PktqRefine FlowQueue FlowData WlfcTag WlfcCredit WlfcQueue WlfcHeader.
From S2P Require Import WlfcHeaderTheorems WlfcState WlfcSend WlfcTransfer WlfcEvents WlfcQueueTheorems WlfcInv WlfcMoves.
From S2P Require Import WlfcSendTheorems WlfcTransferTheorems WlfcEventsTheorems.

(** ** Calls *)

Inductive call :=
| Commit (p : pkt) (x : wpkt)                       (* the network has a packet *)
| Kick                                              (* it has none *)
| Complete (p : pkt) (success : bool)               (* the bus gives one back *)
| Header (es : list wlfc_element) (payload : list Z) (r : reorder) (* the dongle reports *)
| Interface (action ifid iftype : Z) (ea : option (list Z))
| CreditMap (data : list Z)
| CreditSupport
| MaxCount (ifid n : Z)
| RxPath (prio : Z)
| Txoff (state : bool)
| BorrowEvent (data : Z).

Definition exec (env : wenv) (cl : call) (c : dhd_cfg) (s : sys) : option (dhd_cfg * sys) :=
  let result (m : M Z) := '(_, s) ← m s; Some (c, s) in
  match cl with
  | Commit p x => result (λ s, dhd_wlfc_commit_packets c env (Some p) (handed_in p x s))
  | Kick => result (dhd_wlfc_commit_packets c env None)
  | Complete p ok => result (dhd_wlfc_txcomplete c p ok)
  | Header es payload r =>
      '(_, (s, _)) ← dhd_wlfc_parse_header_info c env (encode_all es ++ payload) (Z.of_nat (length (encode_all es))) (s, r); Some (c, s)
  | Interface action ifid iftype ea => result (dhd_wlfc_interface_event c env action ifid iftype ea)
  | CreditMap data => result (dhd_wlfc_FIFOcreditmap_event c data)
  | CreditSupport => result (dhd_wlfc_BCMCCredit_support_event c)
  | MaxCount ifid n => result (dhd_wlfc_update_maxcount c ifid n)
  | RxPath prio => result (dhd_wlfc_save_rxpath_ac_time c env prio)
  | Txoff b => Some (snd (dhd_wlfc_flowcontrol c b), s)
  | BorrowEvent n => Some (dhd_wlfc_disable_credit_borrow_event c n, s)
  end.

(** The entry of an interface is, or is not, in use. *)
Definition in_use (e : Z) (b : bool) (s : sys) : Prop := ∃ d, at_ (w_destination_entries (s_w s)) e = Some d ∧ d_occupied d = b.

(** What the calls of a run keep to.
    - A packet that the network hands in is new, has 16 bytes in front for the
      header, and is not a packet of signals only (Commit with [fresh_pkt]).  The
      driver has fewer than 32767 packets, so that no queue is full.
    - The bus completes a packet that it has.
    - The headers of the dongle are shorter than 65536 bytes, and each element has
      the bytes that the host reads of it ([value_len]).  No station departs
      (MACDESC_DEL), and one comes (MACDESC_ADD) at one of the 16 interfaces and is
      not known under another handle ([may_come]).
    - Of interfaces there is ADD for one that is not in use and UPDATE for one
      that is; none is deleted.
    - A credit map has 5 bytes.
    Anything else, among them freeing the queues and the end of the flow control,
    is not a call of a run. *)
Definition allowed (env : wenv) (cl : call) (c : dhd_cfg) (s : sys) : Prop :=
  match cl with
  | Commit p x => s_h s !! p = None ∧ fresh_pkt x ∧ Z.of_nat (size (s_p s)) < 32767
  | Complete p _ => p ∈ s_bus s
  | Header es payload r => completes c env payload es s ∧ Z.of_nat (length (encode_all es)) < 65536 ∧ roomy r
  | Interface action ifid _ _ =>
      0 <= ifid ∧ (ifid < WLFC_MAX_IFNUM -> action = eWLFC_MAC_ENTRY_ACTION_ADD ∧ in_use (interfaces ifid) false s
                                           ∨ action = eWLFC_MAC_ENTRY_ACTION_UPDATE ∧ in_use (interfaces ifid) true s)
  | CreditMap data => (5 <= length data)%nat
  | MaxCount ifid _ => 0 <= ifid
  | RxPath prio => 0 <= prio
  | Kick | CreditSupport | Txoff _ | BorrowEvent _ => True
  end.

(** What a call does to the packets. *)
Definition effect (c : dhd_cfg) (cl : call) (G G' : packets) : Prop :=
  match cl with
  | Commit p x => G !! p = None ∧ evolves (<[p := network_info x]> G) G'
  | Kick => evolves G G'
  | Complete p ok => ∃ i, G !! p = Some i ∧ on_bus (i_place i) = true ∧ G' = completed c ok p i G
  | Header _ _ _ => answered G G'
  | _ => G' = G
  end.

(** The settings that dhd_wlfc_init leaves. *)
Record enabled (c : dhd_cfg) : Prop := {
  en_mode : proptxstatus_mode c = WLFC_FCMODE_EXPLICIT_CREDIT;
  en_module : proptxstatus_module_ignore c = false;
  en_hdrlen : 0 <= dhd_hdrlen c
}.

(** ** Each call *)

Section Call.
Context (env : wenv) (c : dhd_cfg) (Hc : enabled c).

Lemma not_none : proptxstatus_mode c ≠ WLFC_FCMODE_NONE.
Proof. by rewrite (en_mode _ Hc). Qed.

Lemma supported_on (m : M Z) : supported c m = m.
Proof. unfold supported. by rewrite bool_decide_false by apply not_none. Qed.

Lemma fits_few O G s : settled O G s -> Z.of_nat (size (s_p s)) < 32767 -> count data G < 32767.
Proof.
  intros [H _] Hs. assert (size (s_p s) = size G) as E by (by rewrite <-!size_dom, (inv_dom _ _ _ _ H)). unfold count.
  enough (size (filter (λ x : pkt * pinfo, data x.2 = true) G) <= size G)%nat by lia. rewrite <-!size_dom. apply subseteq_size, dom_filter_subseteq.
Qed.

(** A routine with a result, of which only the state matters. *)
Lemma wp_exec (m : M Z) (s : sys) (E : packets -> Prop) :
  wp m s (λ _ s', ∃ G', E G' ∧ fits G' s') -> ∃ s', ('(_, s) ← m s; Some (c, s)) = Some (c, s') ∧ ∃ G', E G' ∧ fits G' s'.
Proof. intros (a & s' & Em & H). exists s'. by rewrite Em. Qed.

Lemma exec_fits G s : ∀ cl, fits G s -> allowed env cl c s ->
  ∃ c' s', exec env cl c s = Some (c', s') ∧ enabled c' ∧ proptxstatus_txstatus_ignore c' = proptxstatus_txstatus_ignore c
    ∧ ∃ G', effect c cl G G' ∧ fits G' s'.
Proof.
  intros cl (O & Ho & Hs) Ha. pose proof Hs as [H Ht]. pose proof (en_hdrlen _ Hc) as Hhdr.
  assert (∀ (m : M Z) (E : packets -> Prop), wp m s (λ _ s', ∃ G', E G' ∧ fits G' s') ->
    ∃ c' s', ('(_, s) ← m s; Some (c, s)) = Some (c', s') ∧ enabled c' ∧ proptxstatus_txstatus_ignore c' = proptxstatus_txstatus_ignore c ∧ ∃ G', E G' ∧ fits G' s') as Hm.
  { intros m E Hw. destruct (wp_exec m s E Hw) as (s' & Es & HE). by exists c, s'. }
  assert (∀ s', inv O exact G s' -> ∃ G', G' = G ∧ fits G' s') as Hsame by (intros s' H'; exists G; split; [done|]; by exists O).
  destruct cl as [p x| |p ok|es payload r|action ifid iftype ea|d| |ifid n|prio|b|n]; cbn [exec allowed effect] in *.
  - destruct Ha as (Hp & Hx & Hn). apply (Hm (λ s, dhd_wlfc_commit_packets c env (Some p) (handed_in p x s))).
    change (wp (dhd_wlfc_commit_packets c env (Some p)) (handed_in p x s) (λ _ s', ∃ G', (G !! p = None ∧ evolves (<[p:=network_info x]> G) G') ∧ fits G' s')).
    eapply wp_mono; [apply (wp_commit_call O c env Ho Hhdr G s p x); try done|].
    + by eapply fits_few.
    + apply not_none.
    + apply Hc.
    + intros rc s' (_ & G' & Hev & H'). exists G'. split; [|by exists O]. split; [|done]. apply not_elem_of_dom. rewrite <-(dom_fmap_L pos_of).
      destruct (inv_places _ _ _ _ H) as (L & HL & _). rewrite <-(pl_dom _ _ _ _ HL). by apply not_elem_of_dom.
  - apply Hm. eapply wp_mono; [apply (wp_kick O c env Hhdr G s); [done|apply not_none|apply Hc]|]. intros rc s' (_ & G' & Hev & H'). exists G'. split; [done|by exists O].
  - apply (inv_bus _ _ _ _ H) in Ha as (i & Hi & Hb). apply Hm. eapply wp_mono; [apply (wp_txcomplete O c G s p i ok); [done..|apply not_none]|].
    intros rc s' (_ & H'). eexists. split; [by exists i|by exists O].
  - destruct Ha as (Hcomp & Hlen & Hr). destruct (header_handled c env Hhdr es payload G s r (en_mode _ Hc)) as (s' & r' & E & HG); [by exists O|done..|].
    rewrite E. by exists c, s'.
  - destruct Ha as [Hi0 Ha]. apply Hm. unfold dhd_wlfc_interface_event. rewrite supported_on. unfold _dhd_wlfc_interface_entry_update.
    apply wp_if; [intros _; by apply wp_ret, Hsame|]. intros Hi%bool_decide_eq_false. assert (ifid < WLFC_MAX_IFNUM) as Hlt by lia.
    assert (0 <= interfaces ifid < n_entries) as Hr by in_range. destruct (Ha Hlt) as [[-> (d & Hd & Hocc)]|[-> (d & Hd & Hocc)]];
      pose proof (dok_occupied _ _ _ (sh_desc _ _ (inv_shape _ _ _ _ H) _ _ Hd)) as Eo; rewrite Hocc in Eo.
    + eapply (wp_add O (interfaces ifid) Hr); [done|done|done|]. intros s' H'. exists G. split; [done|]. exists (more O (interfaces ifid)).
      split; [by apply valid_more|done].
    + eapply wp_update; [done|by split|done|]. by intros s' H'; apply Hsame.
  - apply Hm. unfold dhd_wlfc_FIFOcreditmap_event. rewrite supported_on. apply wp_bind, wp_getw, wp_bind.
    destruct (creditmap_ok _ d (sh_credits _ _ (inv_shape _ _ _ _ H)) Ha) as (rc & c' & E & _ & Hok). eapply wp_lift; [exact E|]. cbv beta iota.
    apply wp_bind, wp_modify, wp_ret, Hsame. by apply inv_credits.
  - apply Hm. unfold dhd_wlfc_BCMCCredit_support_event. rewrite supported_on. unfold _dhd_wlfc_BCMCCredit_support_update. do 2 wauto1. apply wp_ret. by apply Hsame.
  - apply Hm. unfold dhd_wlfc_update_maxcount. rewrite supported_on. apply wp_if; [intros _; by apply wp_ret, Hsame|]. intros Hi%bool_decide_eq_false.
    do 2 wauto1. apply wp_ret. by apply Hsame.
  - apply Hm. unfold dhd_wlfc_save_rxpath_ac_time. apply wp_if; [intros _; by apply wp_ret, Hsame|]. intros Hp%bool_decide_eq_false.
    apply wp_if; [intros _; by apply wp_ret, Hsame|]. intros _. rewrite supported_on. unfold NUMPRIO in Hp.
    destruct (at_is_Some prio2fifo prio) as [ac Hac]; [cbn; lia|]. apply wp_bind. eapply wp_lift; [done|]. do 4 wauto1.
    assert (0 <= ac < 5) as Hacr.
    { apply at_Some in Hac as [_ Hac]. apply list_elem_of_lookup_2 in Hac. revert Hac. unfold prio2fifo. rewrite !elem_of_cons, elem_of_nil. lia. }
    match goal with H : inv _ _ _ ?s2 |- wp _ ?s2 _ => pose proof (sh_rx _ _ (inv_shape _ _ _ _ H)) as Hrx; destruct (at_is_Some (w_rx_timestamp (s_w s2)) ac) as [y Hy]; [lia|] end.
    apply wp_bind. eapply wp_lift; [by eapply put_Some|]. apply wp_bind. eapply wp_modw; [done| |].
    + unfold relevant. cbn. by rewrite length_insert.
    + intros s' H'. apply wp_ret. by apply Hsame.
  - unfold dhd_wlfc_flowcontrol. rewrite bool_decide_false by apply not_none. rewrite (en_module _ Hc). cbn. eexists _, s. split; [done|]. split; [by destruct Hc|].
    split; [done|]. by apply Hsame.
  - eexists _, s. split; [done|]. split; [by destruct Hc|]. split; [done|]. by apply Hsame.
Qed.
End Call.

(** * Wireless flow control: theorems about runs *)

(** ** Runs *)

Fixpoint run (env : wenv) (cls : list call) (c : dhd_cfg) (s : sys) : option (dhd_cfg * sys) :=
  match cls with
  | [] => Some (c, s)
  | cl :: cls => '(c, s) ← exec env cl c s; run env cls c s
  end.

(** Each call is allowed when it comes. *)
Fixpoint allowed_run (env : wenv) (cls : list call) (c : dhd_cfg) (s : sys) : Prop :=
  match cls with
  | [] => True
  | cl :: cls => allowed env cl c s ∧ ∀ c' s', exec env cl c s = Some (c', s') -> allowed_run env cls c' s'
  end.

Fixpoint effects (c : dhd_cfg) (cls : list call) (G G' : packets) : Prop :=
  match cls with
  | [] => G' = G
  | cl :: cls => ∃ G1, effect c cl G G1 ∧ effects c cls G1 G'
  end.

(** Before the start there is nothing. *)
Definition nothing (s : sys) : Prop := s_h s = ∅ ∧ s_p s = ∅ ∧ s_bus s = [].

(** The flow control starts, and then the calls come. *)
Definition run_from_start (cfg : dhd_cfg) (env : wenv) (ibss : bool) (cls : list call) (s : sys) : option (dhd_cfg * sys) :=
  let c := enabled_cfg cfg ibss in '(_, s) ← dhd_wlfc_enable c env s; run env cls c s.
Definition allowed_from_start (cfg : dhd_cfg) (env : wenv) (ibss : bool) (cls : list call) (s : sys) : Prop :=
  let c := enabled_cfg cfg ibss in ∀ rc s1, dhd_wlfc_enable c env s = Some (rc, s1) -> allowed_run env cls c s1.

Lemma effect_ignore c c' cl G G' : proptxstatus_txstatus_ignore c = proptxstatus_txstatus_ignore c' -> effect c cl G G' -> effect c' cl G G'.
Proof. intros E. destruct cl; try done. cbn. unfold completed. by rewrite E. Qed.

Lemma effects_ignore c c' cls : proptxstatus_txstatus_ignore c = proptxstatus_txstatus_ignore c' -> ∀ G G', effects c cls G G' -> effects c' cls G G'.
Proof.
  intros E. induction cls as [|cl cls IH]; intros G G'; cbn; [done|]. intros (G1 & H1 & H2). exists G1. split; [by eapply effect_ignore|by apply IH].
Qed.

Lemma run_fits env cls : ∀ c G s, enabled c -> fits G s -> allowed_run env cls c s ->
  ∃ c' s' G', run env cls c s = Some (c', s') ∧ effects c cls G G' ∧ fits G' s'.
Proof.
  induction cls as [|cl cls IH]; intros c G s Hc Hf Ha; cbn [run effects]; [by exists c, s, G|]. destruct Ha as [Ha Hnext].
  destruct (exec_fits env c Hc G s cl Hf Ha) as (c1 & s1 & E & Hc1 & Eig & G1 & He & Hf1). rewrite E. cbn [mbind option_bind].
  destruct (IH c1 G1 s1 Hc1 Hf1 (Hnext _ _ E)) as (c' & s' & G' & Er & Hes & Hf'). exists c', s', G'. split; [done|]. split; [|done].
  exists G1. split; [done|]. by eapply effects_ignore.
Qed.

Lemma enabled_start cfg ibss : 0 <= dhd_hdrlen cfg -> proptxstatus_module_ignore cfg = false -> enabled (enabled_cfg cfg ibss).
Proof. by split. Qed.

Lemma start_fits cfg env ibss cls s :
  0 <= dhd_hdrlen cfg -> proptxstatus_module_ignore cfg = false -> nothing s -> allowed_from_start cfg env ibss cls s ->
  ∃ c' s' G, run_from_start cfg env ibss cls s = Some (c', s') ∧ effects cfg cls ∅ G ∧ fits G s'.
Proof.
  intros Hh Hm (E1 & E2 & E3) Ha. unfold run_from_start, allowed_from_start in *. set (c := enabled_cfg cfg ibss) in *.
  destruct (wp_enable c env s E1 E2 E3) as (rc & s1 & Es & _ & Hs). rewrite Es. cbn [mbind option_bind].
  destruct (run_fits env cls c ∅ s1) as (c' & s' & G & Er & He & Hf); [by apply enabled_start|exists at_start; split; [apply valid_start|done]|by eapply Ha|].
  exists c', s', G. split; [done|]. split; [|done]. by apply (effects_ignore c cfg).
Qed.

(** *** An example *)

Definition demo_cfg : dhd_cfg := mk_cfg 0 false false false false false true 12.
Definition demo_env : wenv := mk_env (λ _, 0) (λ _, true) (λ n, Z.of_nat n * 100) (λ _ _, false) (λ _ l, l) (λ _, 64).
Definition demo_start : sys := mk_sys zero_state ∅ ∅ [] 0.

(** A packet of category 1 with room for the header, and a status of the packet
    with a counter at a descriptor. *)
Definition net_pkt : wpkt := mk_wpkt 0x10 [2; 0; 0; 0; 0; 1] 0 0 None 5 false 20 (replicate 20 170 ++ [1; 2; 3; 4; 5]).
Definition status (slot ctr flags : Z) : wlfc_element := Element WLFC_CTL_TYPE_TXSTATUS [ctr; slot; 0; 1 + flags * 8].
Definition no_reorder : reorder := mk_reorder None None.

(** A packet is suppressed, sent again, and at last done with; another one goes
    to a station that came. *)
Definition demo_calls : list call :=
  [CreditMap [4; 4; 4; 4; 4; 0]; Commit 1 net_pkt; Complete 1 true;
   Header [Filler; status 48 0 WLFC_CTL_PKTFLAG_WLSUPPRESS] [7; 7] no_reorder; Kick; Complete 1 true;
   Interface 0 0 0 None; Header [Element WLFC_CTL_TYPE_MACDESC_ADD [3; 0; 2; 0; 0; 0; 0; 1]; status 48 0 WLFC_CTL_PKTFLAG_DISCARD] [] no_reorder;
   Commit 2 net_pkt; Complete 2 true; Header [status 3 0 WLFC_CTL_PKTFLAG_DISCARD; Element WLFC_CTL_TYPE_FIFO_CREDITBACK [0; 2; 0; 0; 0; 0]] [] no_reorder].

(** A packet stays with the bus, whatever a status says. *)
Definition demo_stays : list call := [Commit 2 net_pkt; Header [status 48 0 WLFC_CTL_PKTFLAG_DISCARD] [] no_reorder; Kick].

Lemma net_pkt_fresh : fresh_pkt net_pkt.
Proof. by split. Qed.

(** Each call of a concrete run is allowed: the state it comes to is computed. *)
Ltac next_state := let x := fresh in let s := fresh in let E := fresh in intros x s E; vm_compute in E; injection E as <- <-.

Ltac is_complete :=
  split_and!; [vm_compute; discriminate|vm_compute; discriminate|refine (bool_decide_unpack _ _); vm_compute; exact I|vm_compute; lia|
    first [let H := fresh in intros H; vm_compute in H; discriminate H|intros _; eexists _, _, _; split; [reflexivity|split; [done|left; vm_compute; reflexivity]]]].

Ltac is_completes :=
  lazymatch goal with
  | |- True => exact I
  | |- completes _ _ _ _ _ => cbn [completes]; is_completes
  | |- _ ∧ _ => split; [is_complete|next_state; is_completes]
  end.

Ltac is_allowed :=
  lazymatch goal with
  | |- allowed_run _ [] _ _ => exact I
  | |- allowed_run _ _ _ _ => split; [is_allowed|next_state; is_allowed]
  | |- allowed _ (Commit _ _) _ _ => split; [reflexivity|split; [apply net_pkt_fresh|vm_compute; reflexivity]]
  | |- allowed _ (Complete _ _) _ _ => by repeat constructor
  | |- allowed _ (CreditMap _) _ _ => cbn; lia
  | |- allowed _ Kick _ _ => exact I
  | |- allowed _ (Interface _ _ _ _) _ _ => split; [done|]; intros _; left; split; [done|]; eexists; split; vm_compute; reflexivity
  | |- allowed _ (Header _ _ _) _ _ => split; [unfold status; is_completes|split; [vm_compute; reflexivity|by intros ? [=]]]
  end.

Lemma demo_allowed : allowed_from_start demo_cfg demo_env false demo_calls demo_start.
Proof. intros rc s1 E. vm_compute in E. injection E as <- <-. unfold demo_calls. is_allowed. Qed.

Lemma demo_stays_allowed : allowed_from_start demo_cfg demo_env false ([CreditMap [4; 4; 4; 4; 4; 0]] ++ Commit 1 net_pkt :: demo_stays) demo_start.
Proof. intros rc s1 E. vm_compute in E. injection E as <- <-. unfold demo_stays. cbn [app]. is_allowed. Qed.

Lemma demo_nothing : nothing demo_start.
Proof. done. Qed.

(** C14.  The flow control of packets at the dongle never gets lost: from its
    start, whatever the memory and the clock answer, every sequence of allowed
    calls of the network, the bus and the dongle has a result: no loop goes on, no
    array is left, no freed packet is used.  [allowed] says which calls those are:
    no station departs, no interface is deleted, no queue is full, the elements of
    a header are complete.  At the end each packet is in one place (a queue of its
    descriptor, the bus, or the queue of packets whose status is awaited), with
    its data behind a whole header or none; the counters pkt_cnt_in_q (of an
    interface and category), pkt_cnt_per_ac, pkt_cnt_in_drv and the transit_count
    of each descriptor equal the numbers of such packets; and the packets are
    those that the calls account for.  Nothing is said of pkt_cnt_in_psq, the
    total of the suppressed queues, which does not equal a number of packets
    ([psq_leak]). *)
Theorem flow_control_runs cfg env ibss cls s :
  0 <= dhd_hdrlen cfg -> proptxstatus_module_ignore cfg = false -> nothing s -> allowed_from_start cfg env ibss cls s ->
  ∃ c' s' G O, run_from_start cfg env ibss cls s = Some (c', s') ∧ effects cfg cls ∅ G ∧ inv O exact G s' ∧ all_tidy G.
Proof.
  intros Hh Hm H0 Ha. destruct (start_fits cfg env ibss cls s Hh Hm H0 Ha) as (c' & s' & G & E & He & O & _ & H & Ht).
  exists c', s', G, O. exact (conj E (conj He (conj H Ht))).
Qed.

Lemma flow_control_runs_witness :
  0 <= dhd_hdrlen demo_cfg ∧ proptxstatus_module_ignore demo_cfg = false ∧ nothing demo_start
  ∧ allowed_from_start demo_cfg demo_env false demo_calls demo_start
  ∧ ∃ c' s' G O, run_from_start demo_cfg demo_env false demo_calls demo_start = Some (c', s') ∧ effects demo_cfg demo_calls ∅ G ∧ inv O exact G s' ∧ all_tidy G.
Proof.
  split; [done|]. split; [done|]. split; [exact demo_nothing|]. split; [exact demo_allowed|].
  apply (flow_control_runs demo_cfg demo_env false demo_calls demo_start); [done|done|exact demo_nothing|exact demo_allowed].
Defined.

(** ** A packet that the bus has not completed *)

Definition completes_pkt (p : pkt) (cl : call) : Prop := match cl with Complete q _ => q = p | _ => False end.

Definition kept (p : pkt) (i : pinfo) (G : packets) : Prop := ∃ i', G !! p = Some i' ∧ later i i'.

Lemma kept_evolves p i G G' : evolves G G' -> kept p i G -> kept p i G'.
Proof. intros H (i' & Hi & Hl). destruct (ev_kept _ _ H p i' Hi (lt_data _ _ Hl)) as (i2 & H2 & Hl2). exists i2. split; [done|by eapply later_trans]. Qed.

Lemma kept_effect c cl p i G G' : sent i = false -> ¬ completes_pkt p cl -> effect c cl G G' -> kept p i G -> kept p i G'.
Proof.
  intros Hs Hn He Hk. destruct cl as [q x| |q ok| | | | | | | |]; cbn in Hn, He; subst; try done.
  - destruct He as [Hq He]. eapply kept_evolves; [exact He|]. destruct Hk as (i' & Hi & Hl). exists i'. split; [|done]. rewrite lookup_insert_ne; [done|]. congruence.
  - by eapply kept_evolves.
  - destruct He as (j & Hj & Hb & ->). destruct Hk as (i' & Hi & Hl). exists i'. split; [|done]. unfold completed.
    destruct (i_place j); try (by rewrite lookup_delete_ne). destruct (_ || _); [by rewrite lookup_delete_ne|by rewrite lookup_insert_ne].
  - destruct Hk as (i' & Hi & Hl). exists i'. split; [|done]. apply (an_same _ _ He); [done|]. destruct (sent i') eqn:E; [|done].
    apply (lt_sent _ _ Hl) in E. congruence.
Qed.

Lemma kept_effects c cls p i : sent i = false -> Forall (λ cl, ¬ completes_pkt p cl) cls -> ∀ G G', effects c cls G G' -> kept p i G -> kept p i G'.
Proof.
  intros Hs. induction 1 as [|cl cls Hn _ IH]; cbn; intros G G'; [by intros ->|]. intros (G1 & H1 & H2) Hk. eapply IH; [done|]. by eapply kept_effect.
Qed.

Lemma effects_app c cls1 cls2 G G' : effects c (cls1 ++ cls2) G G' -> ∃ G1, effects c cls1 G G1 ∧ effects c cls2 G1 G'.
Proof.
  revert G. induction cls1 as [|cl cls1 IH]; intros G; cbn; [by exists G|]. intros (G1 & H1 & (G2 & H2 & H3)%IH). exists G2. split; [by exists G1|done].
Qed.

(** C15.  In a run of allowed calls (no station departs, no interface is
    deleted, no queue is full, the elements of a header are complete: [allowed]) a
    packet that the network hands in stays in the driver until the bus completes
    it, whatever else of those calls comes: other packets, headers from the
    dongle, even with statuses that name it, stations, interfaces and credits.
    Its data, its interface and its category are as they were, and in front of
    the data is nothing or one whole header. *)
Theorem packet_stays cfg env ibss cls1 p x cls2 s c' s' :
  0 <= dhd_hdrlen cfg -> proptxstatus_module_ignore cfg = false -> nothing s -> allowed_from_start cfg env ibss (cls1 ++ Commit p x :: cls2) s ->
  Forall (λ cl, ¬ completes_pkt p cl) cls2 -> run_from_start cfg env ibss (cls1 ++ Commit p x :: cls2) s = Some (c', s') ->
  ∃ y h, s_p s' !! p = Some y ∧ PKTDATA y = h ++ PKTDATA x ∧ (h = [] ∨ header h)
    ∧ DHD_PKTTAG_IF (if_flags y) = DHD_PKTTAG_IF (if_flags x) ∧ DHD_PKTTAG_FIFO (if_flags y) = DHD_PKTTAG_FIFO (if_flags x).
Proof.
  intros Hh Hm H0 Ha Hn E. destruct (start_fits cfg env ibss _ s Hh Hm H0 Ha) as (c2 & s2 & G & E2 & He & O & _ & H & _).
  assert (s2 = s') as -> by congruence. apply effects_app in He as (G1 & _ & G2 & (_ & Hev) & He).
  assert (kept p (network_info x) G) as (i & Hi & Hl).
  { eapply kept_effects; [done|exact Hn|exact He|]. eapply kept_evolves; [exact Hev|]. exists (network_info x). split; [apply lookup_insert_eq|by apply later_refl]. }
  destruct (inv_pkt _ _ _ _ H p i Hi) as (y & Hy & Hok). pose proof (lt_ident _ _ Hl) as Eid. unfold ident in Eid. injection Eid as F1 F2 F3.
  pose proof (lt_data _ _ Hl) as Hd. destruct (ok_data _ _ _ Hok) as (h & Hh' & Hhd & _); [intros Ep; unfold data in Hd; by rewrite Ep in Hd|].
  exists y, h. split; [done|]. split; [by rewrite Hh', F3|]. split; [destruct (headed (i_place i)); auto|].
  rewrite (ok_if _ _ _ Hok), (ok_ac _ _ _ Hok). exact (conj F1 F2).
Qed.

(** The state in which a run ends. *)
Definition end_of (cls : list call) : dhd_cfg * sys := default (demo_cfg, demo_start) (run_from_start demo_cfg demo_env false cls demo_start).

Lemma demo_stays_run :
  run_from_start demo_cfg demo_env false ([CreditMap [4; 4; 4; 4; 4; 0]] ++ Commit 1 net_pkt :: demo_stays) demo_start
  = Some (end_of ([CreditMap [4; 4; 4; 4; 4; 0]] ++ Commit 1 net_pkt :: demo_stays)).
Proof. vm_compute. reflexivity. Qed.

Lemma packet_stays_witness :
  allowed_from_start demo_cfg demo_env false ([CreditMap [4; 4; 4; 4; 4; 0]] ++ Commit 1 net_pkt :: demo_stays) demo_start
  ∧ Forall (λ cl, ¬ completes_pkt 1 cl) demo_stays
  ∧ ∃ y h, s_p (snd (end_of ([CreditMap [4; 4; 4; 4; 4; 0]] ++ Commit 1 net_pkt :: demo_stays))) !! 1%positive = Some y
    ∧ PKTDATA y = h ++ PKTDATA net_pkt ∧ (h = [] ∨ header h)
    ∧ DHD_PKTTAG_IF (if_flags y) = DHD_PKTTAG_IF (if_flags net_pkt) ∧ DHD_PKTTAG_FIFO (if_flags y) = DHD_PKTTAG_FIFO (if_flags net_pkt).
Proof.
  assert (Forall (λ cl, ¬ completes_pkt 1 cl) demo_stays) as Hn by (repeat constructor; by intros []).
  split; [exact demo_stays_allowed|]. split; [exact Hn|].
  apply (packet_stays demo_cfg demo_env false [CreditMap [4; 4; 4; 4; 4; 0]] 1%positive net_pkt demo_stays demo_start
           (fst (end_of ([CreditMap [4; 4; 4; 4; 4; 0]] ++ Commit 1 net_pkt :: demo_stays))) _);
    [done|done|exact demo_nothing|exact demo_stays_allowed|exact Hn|rewrite demo_stays_run; by destruct (end_of _)].
Defined.

(** ** When all is done *)

(** C16.  When after a run of allowed calls (as in [flow_control_runs]) the
    driver has no packet, the counters pkt_cnt_in_q of each interface and
    category, pkt_cnt_per_ac of each category, pkt_cnt_in_drv of each interface
    and category, and transit_count of each descriptor are all zero.  The total
    pkt_cnt_in_psq is not among them: in [psq_leak] it is 1. *)
Theorem counters_return cfg env ibss cls s c' s' :
  0 <= dhd_hdrlen cfg -> proptxstatus_module_ignore cfg = false -> nothing s -> allowed_from_start cfg env ibss cls s ->
  run_from_start cfg env ibss cls s = Some (c', s') -> s_p s' = ∅ ->
  (∀ i r a n, at_ (w_pkt_cnt_in_q (s_w s')) i = Some r -> at_ r a = Some n -> n = 0)
  ∧ (∀ a n, at_ (w_pkt_cnt_per_ac (s_w s')) a = Some n -> n = 0)
  ∧ (∀ i r a n, at_ (w_pkt_cnt_in_drv (s_w s')) i = Some r -> at_ r a = Some n -> n = 0)
  ∧ (∀ e d, at_ (w_destination_entries (s_w s')) e = Some d -> d_transit_count d = 0).
Proof.
  intros Hh Hm H0 Ha E Ep. destruct (start_fits cfg env ibss cls s Hh Hm H0 Ha) as (c2 & s2 & G & E2 & _ & O & _ & H & _).
  assert (s2 = s') as -> by congruence. assert (G = ∅) as ->.
  { apply dom_empty_inv_L. rewrite <-(inv_dom _ _ _ _ H), Ep. apply dom_empty_L. }
  destruct (inv_counted _ _ _ _ H) as [[_ C1] [_ C2] [_ C3] C4]. split_and!.
  - intros i r a n Hr Hn. destruct (C1 i r Hr) as [_ Hc]. by rewrite (Hc a n Hn), count_empty.
  - intros a n Hn. by rewrite (C2 a n Hn), count_empty.
  - intros i r a n Hr Hn. destruct (C3 i r Hr) as [_ Hc]. by rewrite (Hc a n Hn), count_empty.
  - intros e d Hd. by rewrite (C4 e d Hd), count_empty.
Qed.

Lemma demo_run : run_from_start demo_cfg demo_env false demo_calls demo_start = Some (end_of demo_calls).
Proof. vm_compute. reflexivity. Qed.

Lemma counters_return_witness :
  s_p (snd (end_of demo_calls)) = ∅ ∧ ∀ a n, at_ (w_pkt_cnt_per_ac (s_w (snd (end_of demo_calls)))) a = Some n -> n = 0.
Proof.
  assert (s_p (snd (end_of demo_calls)) = ∅) as Hp by (vm_compute; reflexivity). split; [exact Hp|].
  apply (counters_return demo_cfg demo_env false demo_calls demo_start (fst (end_of demo_calls)) (snd (end_of demo_calls)));
    [done|done|exact demo_nothing|exact demo_allowed|rewrite demo_run; by destruct (end_of _)|exact Hp].
Defined.

(** A packet that was suppressed and then acknowledged after all (the dongle says
    SUPPRESSED_ACKED) is counted off [pkt_cnt_per_ac] and freed, but not off
    [pkt_cnt_in_psq]: these calls are allowed, no packet is left, and the total of
    the suppressed queues is 1. *)
Definition leak_calls : list call :=
  [CreditMap [4; 4; 4; 4; 4; 0]; Commit 1 net_pkt; Complete 1 true;
   Header [status 48 0 WLFC_CTL_PKTFLAG_WLSUPPRESS] [] no_reorder; Header [status 48 0 WLFC_CTL_PKTFLAG_SUPPRESS_ACKED] [] no_reorder].

Example psq_leak :
  allowed_from_start demo_cfg demo_env false leak_calls demo_start
  ∧ run_from_start demo_cfg demo_env false leak_calls demo_start = Some (end_of leak_calls)
  ∧ s_p (snd (end_of leak_calls)) = ∅ ∧ w_pkt_cnt_in_psq (s_w (snd (end_of leak_calls))) = 1.
Proof.
  split; [intros rc s1 E; vm_compute in E; injection E as <- <-; unfold leak_calls; is_allowed|].
  split; [vm_compute; reflexivity|]. split; vm_compute; reflexivity.
Qed.
