(* ===== verification/Wbrc.v ===== *)
(** * wb_regon_coordinator.c: the coordinator of the shared power line (model)

    A Bluetooth stack in user space and the Wi-Fi driver ask each other for resets
    through a character device and one message slot.  The routines run in any
    number of threads at once.  A routine is a program over the accesses it makes
    to the shared structure, one access each step, so that the steps of threads
    interleave at every access; a mutex that is held stops the thread that wants
    it.  Memory is sequentially consistent, as the mutex and the barriers make it.

    WBRC and WBRC_BT2WL_RESET are not defined for the board: the file is modelled
    as it is with the second switch off, so the dongle is not trapped when
    Bluetooth asks for a reset.  The routines run after wbrc_init and before
    wbrc_exit, so g_wbrc_data is set, and [char] is unsigned, as for the
    processor of the board. *)

From S2P Require Import Prelude.

Definition WBRC_MSG_LEN : Z := 4.

Definition HEADER_DIR_WL2BT : Z := 0x01.
Definition HEADER_DIR_BT2WL : Z := 0x02.

Definition TYPE_WIFI_CMD : Z := 0x01.
Definition TYPE_WIFI_ACK : Z := 0x02.
Definition TYPE_BT_CMD : Z := 0x03.
Definition TYPE_BT_ACK : Z := 0x04.

Definition CMD_RESET_WIFI : Z := 0x40.
Definition CMD_RESET_WIFI_WITH_ACK : Z := 0x41.
Definition CMD_RESET_BT : Z := 0x42.
Definition CMD_RESET_BT_WITH_ACK : Z := 0x43.
Definition ACK_RESET_WIFI_COMPLETE : Z := 0x80.
Definition ACK_RESET_BT_COMPLETE : Z := 0x81.

(** Of the kernel's headers. *)
Definition EFAULT : Z := 14.
Definition ENOMEM : Z := 12.
Definition EPOLLIN : Z := 0x1.
Definition EPOLLHUP : Z := 0x10.
Definition EPOLLRDNORM : Z := 0x40.

(** The fields that more than one thread uses; the acknowledgements hold TRUE and
    FALSE only. *)
Record wbrc_pvt_data := mk_wbrc {
  bt_dev_opened : bool;
  bt_reset_ack : bool;
  wlan_reset_ack : bool;
  wlan_on_ack : bool;
  wl2bt_message : list Z; (* char [WBRC_MSG_LEN] *)
  read_data_available : bool
}.

Inductive waitq := bt_reset_waitq | wlan_reset_waitq | wlan_on_waitq | outmsg_waitq.

(** The condition that a queue waits for. *)
Definition condition (q : waitq) (d : wbrc_pvt_data) : bool :=
  match q with
  | bt_reset_waitq => bt_reset_ack d
  | wlan_reset_waitq => wlan_reset_ack d
  | wlan_on_waitq => wlan_on_ack d
  | outmsg_waitq => read_data_available d
  end.

(** An assignment to a field, and to a byte of the message. *)
Inductive assignment :=
  | Opened (b : bool)
  | Bt_reset_ack (b : bool)
  | Wlan_reset_ack (b : bool)
  | Wlan_on_ack (b : bool)
  | Message (i : nat) (x : Z)
  | Available (b : bool).

Definition assign (a : assignment) (d : wbrc_pvt_data) : wbrc_pvt_data :=
  let '(mk_wbrc o b r n m v) := d in
  match a with
  | Opened o => mk_wbrc o b r n m v
  | Bt_reset_ack b => mk_wbrc o b r n m v
  | Wlan_reset_ack r => mk_wbrc o b r n m v
  | Wlan_on_ack n => mk_wbrc o b r n m v
  | Message i x => mk_wbrc o b r n (<[i := x]> m) v
  | Available v => mk_wbrc o b r n m v
  end.

(** ** Programs *)

(** [Wait] ends when the condition of the queue holds or the time is over;
    [CopyTo] and [CopyFrom] are the copies to and from user space, whose answer
    is the number of bytes that were not copied. *)
Inductive prog (A : Type) : Type :=
  | Ret (a : A)
  | Lock (k : prog A)
  | Unlock (k : prog A)
  | Get (k : wbrc_pvt_data -> prog A)
  | Assign (a : assignment) (k : prog A)
  | Wait (q : waitq) (k : prog A)
  | Wake (q : waitq) (k : prog A)
  | CopyTo (data : list Z) (k : Z -> prog A)
  | CopyFrom (k : Z -> list Z -> prog A).
Arguments Ret {A} a.
Arguments Lock {A} k.
Arguments Unlock {A} k.
Arguments Get {A} k.
Arguments Assign {A} a k.
Arguments Wait {A} q k.
Arguments Wake {A} q k.
Arguments CopyTo {A} data k.
Arguments CopyFrom {A} k.

Fixpoint prog_bind {A B} (f : A -> prog B) (p : prog A) : prog B :=
  match p with
  | Ret a => f a
  | Lock k => Lock (prog_bind f k)
  | Unlock k => Unlock (prog_bind f k)
  | Get k => Get (λ d, prog_bind f (k d))
  | Assign a k => Assign a (prog_bind f k)
  | Wait q k => Wait q (prog_bind f k)
  | Wake q k => Wake q (prog_bind f k)
  | CopyTo data k => CopyTo data (λ n, prog_bind f (k n))
  | CopyFrom k => CopyFrom (λ n m, prog_bind f (k n m))
  end.
#[export] Instance prog_mbind : MBind prog := @prog_bind.

Definition WBRC_LOCK : prog unit := Lock (Ret tt).
Definition WBRC_UNLOCK : prog unit := Unlock (Ret tt).
Definition get {A} (f : wbrc_pvt_data -> A) : prog A := Get (λ d, Ret (f d)).
Definition set (a : assignment) : prog unit := Assign a (Ret tt).
Definition wake_up (q : waitq) : prog unit := Wake q (Ret tt).
Definition copy_to_user (data : list Z) : prog Z := CopyTo data Ret.
Definition copy_from_user : prog (Z * list Z) := CopyFrom (λ n m, Ret (n, m)).

(** The callers do not use the result. *)
Definition wbrc_reset_wait_on_condition (q : waitq) : prog unit := Wait q (Ret tt).

(** A byte of the message: the array has WBRC_MSG_LEN of them. *)
Definition byte (m : list Z) (i : nat) : Z := default 0 (m !! i).

(** ** The routines *)

Definition wbrc_bt_dev_read (len : Z) : prog Z :=
  _ ← WBRC_LOCK;
  available ← get read_data_available;
  ret ← (if negb available then Ret 0
         else if bool_decide (len < WBRC_MSG_LEN) then Ret (- EFAULT)
         else m ← get wl2bt_message;
              err_count ← copy_to_user m;
              _ ← set (Available false);
              Ret (if bool_decide (err_count = 0) then 0 else - EFAULT));
  _ ← WBRC_UNLOCK;
  Ret ret.

Definition wbrc_wl_reset_ack : prog Z :=
  _ ← set (Wlan_reset_ack true);
  _ ← set (Message 0 HEADER_DIR_WL2BT);
  _ ← set (Message 1 2);
  _ ← set (Message 2 TYPE_WIFI_ACK);
  _ ← set (Message 3 ACK_RESET_WIFI_COMPLETE);
  _ ← set (Available true);
  _ ← wake_up outmsg_waitq;
  _ ← wake_up wlan_reset_waitq;
  Ret 0.

Definition wbrc_signal_wlan_reset : prog Z := _ ← wbrc_wl_reset_ack; Ret 0.

Definition wbrc_bt2wl_reset : prog Z :=
  _ ← set (Wlan_reset_ack false);
  _ ← wbrc_signal_wlan_reset;
  _ ← wbrc_reset_wait_on_condition wlan_reset_waitq;
  ack ← get wlan_reset_ack;
  Ret (if (ack : bool) then 0 else -1).

Definition wbrc_bt_reset_ack : prog Z :=
  _ ← set (Bt_reset_ack true); _ ← wake_up bt_reset_waitq; Ret 0.

Definition wbrc_bt_dev_write (len : Z) : prog Z :=
  _ ← WBRC_LOCK;
  ret ← (if bool_decide (len ≠ WBRC_MSG_LEN) then Ret (- EFAULT)
         else
           c ← copy_from_user;
           let '(err_count, message) := (c : Z * list Z) in
           if bool_decide (err_count ≠ 0) then Ret (- EFAULT)
           else if bool_decide (byte message 0 ≠ HEADER_DIR_BT2WL) then Ret (- EFAULT)
           else
             _ ← (if bool_decide (byte message 2 = TYPE_BT_CMD)
                     && bool_decide (byte message 3 = CMD_RESET_WIFI_WITH_ACK)
                  then wbrc_bt2wl_reset else Ret 0);
             _ ← (if bool_decide (byte message 2 = TYPE_BT_ACK)
                     && bool_decide (byte message 3 = ACK_RESET_BT_COMPLETE)
                  then wbrc_bt_reset_ack else Ret 0);
             Ret 0);
  _ ← WBRC_UNLOCK;
  Ret ret.

Definition wbrc_bt_dev_poll : prog Z :=
  available ← get read_data_available;
  opened ← get bt_dev_opened;
  let mask := if (available : bool) then Z.lor EPOLLIN EPOLLRDNORM else 0 in
  Ret (if negb opened then Z.lor mask EPOLLHUP else mask).

Definition wbrc_bt_dev_open : prog Z :=
  _ ← WBRC_LOCK;
  opened ← get bt_dev_opened;
  if (opened : bool) then _ ← WBRC_UNLOCK; Ret (- EFAULT)
  else
    _ ← set (Opened true);
    on ← get wlan_on_ack;
    if negb on then
      _ ← WBRC_UNLOCK;
      _ ← wbrc_reset_wait_on_condition wlan_on_waitq;
      _ ← get wlan_on_ack;
      Ret 0
    else _ ← WBRC_UNLOCK; Ret 0.

Definition wbrc_bt_dev_release : prog Z :=
  _ ← WBRC_LOCK; _ ← set (Opened false); _ ← WBRC_UNLOCK; _ ← wake_up outmsg_waitq; Ret 0.

Definition wbrc_signal_bt_reset : prog unit :=
  _ ← set (Message 0 HEADER_DIR_WL2BT);
  _ ← set (Message 1 2);
  _ ← set (Message 2 TYPE_WIFI_CMD);
  _ ← set (Message 3 CMD_RESET_BT_WITH_ACK);
  _ ← set (Available true);
  wake_up outmsg_waitq.

Definition wbrc_wlan_on_ack : prog Z :=
  _ ← WBRC_LOCK;
  on ← get wlan_on_ack;
  _ ← (if negb on then _ ← set (Wlan_on_ack true); wake_up wlan_on_waitq else Ret tt);
  _ ← WBRC_UNLOCK;
  Ret 0.

Definition wbrc_wlan_on_started : prog Z :=
  _ ← WBRC_LOCK; _ ← set (Wlan_on_ack false); _ ← WBRC_UNLOCK; Ret 0.

Definition wbrc_wl2bt_reset : prog Z :=
  _ ← WBRC_LOCK;
  opened ← get bt_dev_opened;
  if negb opened then _ ← WBRC_UNLOCK; Ret (-1)
  else
    _ ← set (Bt_reset_ack false);
    _ ← wbrc_signal_bt_reset;
    _ ← WBRC_UNLOCK;
    _ ← wbrc_reset_wait_on_condition bt_reset_waitq;
    _ ← get bt_reset_ack;
    Ret 0.

(** ** Start and end *)

(** What the module holds. *)
Inductive resource := Data | Chrdev | Class | Device.
#[export] Instance resource_eq_dec : EqDecision resource.
Proof. solve_decision. Defined.

(** The memory as [kzalloc] clears it and wbrc_init completes it. *)
Definition wbrc_start : wbrc_pvt_data := mk_wbrc false false false true [0; 0; 0; 0] false.

(** Giving one back. *)
Definition drop (r : resource) (held : list resource) : list resource := filter (λ x, x ≠ r) held.

(** The labels of the error paths, each falling into the next. *)
Definition err_register (err : Z) (held : list resource) : Z * list resource * bool := (err, drop Data held, false).
Definition err_class (err : Z) (held : list resource) : Z * list resource * bool := err_register err (drop Chrdev held).
Definition err_device (err : Z) (held : list resource) : Z * list resource * bool := err_class err (drop Class held).

(** Whether there is memory, and what the kernel answers: the major number, the
    class and the device, which is a negative error or not.  The result, what is
    held afterwards, and whether g_wbrc_data is set. *)
Definition wbrc_init (alloc : bool) (major class device : Z) : Z * list resource * bool :=
  if negb alloc then (- ENOMEM, [], false)
  else
    let held := [Data] in
    if bool_decide (major < 0) then err_register major held
    else
      let held := Chrdev :: held in
      if bool_decide (class < 0) then err_class class held
      else
        let held := Class :: held in
        if bool_decide (device < 0) then err_device device held
        else (0, Device :: held, true).

(** Without g_wbrc_data it reads through NULL. *)
Definition wbrc_exit (held : list resource) (g : bool) : option (list resource * bool) :=
  if g then Some (drop Data (drop Chrdev (drop Class (drop Device held))), false) else None.

(** ** Threads *)

Inductive call :=
  | CRead (len : Z) | CWrite (len : Z) | CPoll | COpen | CRelease | CWlanOnAck | CWlanOnStarted | CWl2btReset.

Definition code (c : call) : prog Z :=
  match c with
  | CRead len => wbrc_bt_dev_read len
  | CWrite len => wbrc_bt_dev_write len
  | CPoll => wbrc_bt_dev_poll
  | COpen => wbrc_bt_dev_open
  | CRelease => wbrc_bt_dev_release
  | CWlanOnAck => wbrc_wlan_on_ack
  | CWlanOnStarted => wbrc_wlan_on_started
  | CWl2btReset => wbrc_wl2bt_reset
  end.

(** What a step does; [LWait] tells whether the condition held. *)
Inductive label :=
  | LCall (c : call) | LReturn (r : Z) | LLock | LUnlock | LGet | LAssign (a : assignment)
  | LWait (q : waitq) (holds : bool) | LWake (q : waitq) | LCopyTo (data : list Z) (rest : Z) | LCopyFrom (rest : Z) (data : list Z).

(** The shared structure, who has the mutex, what the threads still have to do,
    and what they did, the last step first. *)
Record world := mk_world {
  w_data : wbrc_pvt_data;
  w_mutex : option positive;
  w_threads : gmap positive (prog Z);
  w_trace : list (positive * label)
}.

Definition wbrc_world : world := mk_world wbrc_start None ∅ [].

(** One step of a thread with the rest of its program; [rest] and [data] are the
    answer to a copy.  [None]: the thread has to wait for the mutex. *)
Definition run1 (t : positive) (p : prog Z) (rest : Z) (data : list Z) (w : world) : option world :=
  let '(mk_world d l T tr) := w in
  match p with
  | Ret r => Some (mk_world d l (delete t T) ((t, LReturn r) :: tr))
  | Lock k =>
      match l with
      | None => Some (mk_world d (Some t) (<[t := k]> T) ((t, LLock) :: tr))
      | Some _ => None
      end
  | Unlock k => Some (mk_world d None (<[t := k]> T) ((t, LUnlock) :: tr))
  | Get k => Some (mk_world d l (<[t := k d]> T) ((t, LGet) :: tr))
  | Assign a k => Some (mk_world (assign a d) l (<[t := k]> T) ((t, LAssign a) :: tr))
  | Wait q k => Some (mk_world d l (<[t := k]> T) ((t, LWait q (condition q d)) :: tr))
  | Wake q k => Some (mk_world d l (<[t := k]> T) ((t, LWake q) :: tr))
  | CopyTo m k => Some (mk_world d l (<[t := k rest]> T) ((t, LCopyTo m rest) :: tr))
  | CopyFrom k => Some (mk_world d l (<[t := k rest data]> T) ((t, LCopyFrom rest data) :: tr))
  end.

(** A thread calls a routine, or goes one step on. *)
Inductive wact := Start (t : positive) (c : call) | Step (t : positive) (rest : Z) (data : list Z).

Definition wstep (a : wact) (w : world) : option world :=
  match a with
  | Start t c =>
      match w_threads w !! t with
      | Some _ => None
      | None => Some (mk_world (w_data w) (w_mutex w) (<[t := code c]> (w_threads w)) ((t, LCall c) :: w_trace w))
      end
  | Step t rest data => p ← w_threads w !! t; run1 t p rest data w
  end.

Fixpoint wsteps (acts : list wact) (w : world) : option world :=
  match acts with [] => Some w | a :: acts => w ← wstep a w; wsteps acts w end.
