(* ===== verification/WbrcTheorems.v ===== *)
(** * wb_regon_coordinator.c: every interleaving of the routines is safe *)

From S2P Require Import Prelude Wbrc.

(** ** What a program may do

    The two messages that the driver writes, and the acknowledgement that the
    Bluetooth stack writes. *)
Definition reset_bt_message : list Z := [HEADER_DIR_WL2BT; 2; TYPE_WIFI_CMD; CMD_RESET_BT_WITH_ACK].
Definition reset_wifi_message : list Z := [HEADER_DIR_WL2BT; 2; TYPE_WIFI_ACK; ACK_RESET_WIFI_COMPLETE].
Definition whole (m : list Z) : Prop := m = reset_bt_message ∨ m = reset_wifi_message.

Definition is_bt_ack (m : list Z) : bool :=
  bool_decide (byte m 0 = HEADER_DIR_BT2WL) && bool_decide (byte m 2 = TYPE_BT_ACK)
  && bool_decide (byte m 3 = ACK_RESET_BT_COMPLETE).

(** The structure while nobody changes it. *)
Record good (d : wbrc_pvt_data) : Prop := {
  good_length : length (wl2bt_message d) = 4%nat;
  good_message : read_data_available d = true -> whole (wl2bt_message d)
}.

(** The write that completes the message of a request. *)
Definition request : assignment := Message 3 CMD_RESET_BT_WITH_ACK.
#[export] Instance assignment_eq_dec : EqDecision assignment.
Proof. solve_decision. Defined.

(** A request makes the earlier acknowledgements void; one is only taken note of
    when one was read, and none is taken note of when a request is made. *)
Definition acked_after (a : assignment) (acked : bool) : bool := bool_decide (a ≠ request) && acked.
Definition allowed (a : assignment) (d : wbrc_pvt_data) (acked : bool) : Prop :=
  (a = Bt_reset_ack true -> acked = true) ∧ (a = request -> bt_reset_ack d = false).

(** [fine held acked d p]: the rest [p] of a program, of a thread that has the
    mutex or not and has read an acknowledgement since it got it or not, keeps
    the rules when it goes on from [d]: it writes and copies the message with
    the mutex only, does not wait for a condition that does not hold while it
    has the mutex, gives it back with the structure in order, and ends without
    it.  Without the mutex the structure may be any that is in order. *)
Fixpoint fine (held acked : bool) (d : wbrc_pvt_data) (p : prog Z) : Prop :=
  match p with
  | Ret _ => held = false
  | Lock k => held = false ∧ ∀ d, good d -> fine true false d k
  | Unlock k => held = true ∧ good d ∧ fine false false d k
  | Get k => if held then fine held acked d (k d) else ∀ d, fine held acked d (k d)
  | Assign a k => held = true ∧ allowed a d acked ∧ fine held (acked_after a acked) (assign a d) k
  | Wait q k => (held = true -> condition q d = true) ∧ fine held acked d k
  | Wake _ k => fine held acked d k
  | CopyTo m k => held = true ∧ whole m ∧ ∀ r, fine held acked d (k r)
  | CopyFrom k => held = true ∧ ∀ r m, fine held (acked || bool_decide (r = 0) && is_bt_ack m) d (k r m)
  end.

(** Without the mutex the structure does not matter. *)
Lemma fine_any p : ∀ d d', fine false false d p -> fine false false d' p.
Proof.
  induction p as [a|k IH|k IH|k IH|a k IH|q k IH|q k IH|m k IH|k IH]; intros d d'; cbn [fine]; try done; try (by intros [? _]).
  - intros [_ H2]. split; [done|]. by eapply IH.
  - apply IH.
Qed.

(** ** Every routine keeps the rules *)

Lemma start_good : good wbrc_start.
Proof. by split. Qed.

(** The structure with its four bytes at hand. *)
Ltac open_good :=
  match goal with
  | |- ∀ d : wbrc_pvt_data, good d -> _ =>
      let H := fresh in let H' := fresh in let m := fresh "m" in
      intros [? ? ? ? m ?] [H H']; cbn in H, H';
      destruct m as [|? [|? [|? [|? []]]]]; try discriminate H; clear H
  end.

(** The message is one of the two. *)
Ltac whole_message :=
  first [ by left | by right | match goal with H : _ -> whole _ |- _ => by apply H end ].

(** Along a program, case by case. *)
Ltac walk :=
  repeat first
    [ progress cbn
    | match goal with
      | |- good _ => split; cbn; [done|intros; first [done | whole_message]]
      | |- whole _ => whole_message
      | |- context [acked_after ?a ?b] => change (acked_after a b) with b
      | |- allowed ?a _ _ => split; intros E; try discriminate E; clear E; try done
      | |- _ ∧ _ => split
      end
    | done
    | open_good
    | intro
    | match goal with
      | |- context [bool_decide ?P] => destruct (decide P); [rewrite (bool_decide_true P) by done | rewrite (bool_decide_false P) by done]
      | |- context [if ?b then _ else _] => is_var b; destruct b
      | |- context [negb ?b] => is_var b; destruct b
      end ].

Lemma read_fine len d : fine false false d (wbrc_bt_dev_read len).
Proof. unfold wbrc_bt_dev_read. walk. Qed.

Lemma is_bt_ack_true m :
  ¬ byte m 0 ≠ HEADER_DIR_BT2WL -> byte m 2 = TYPE_BT_ACK -> byte m 3 = ACK_RESET_BT_COMPLETE -> is_bt_ack m = true.
Proof. intros H%dec_stable ? ?. unfold is_bt_ack. by rewrite !bool_decide_true. Qed.

Lemma write_fine len d : fine false false d (wbrc_bt_dev_write len).
Proof. unfold wbrc_bt_dev_write. walk; by apply is_bt_ack_true. Qed.

Lemma code_fine c d : fine false false d (code c).
Proof.
  destruct c; cbn [code]; [apply read_fine|apply write_fine|..];
    unfold wbrc_bt_dev_poll, wbrc_bt_dev_open, wbrc_bt_dev_release, wbrc_wlan_on_ack,
      wbrc_wlan_on_started, wbrc_wl2bt_reset; walk.
Qed.

(** ** The invariant *)

(** Whether an acknowledgement was read since the latest request; the trace has
    the latest step first. *)
Fixpoint acked_since (tr : list (positive * label)) : bool :=
  match tr with
  | [] => false
  | (_, LCopyFrom r m) :: tr => bool_decide (r = 0) && is_bt_ack m || acked_since tr
  | (_, LAssign a) :: tr => acked_after a (acked_since tr)
  | _ :: tr => acked_since tr
  end.

(** What the steps have done. *)
Fixpoint orderly (tr : list (positive * label)) : Prop :=
  match tr with
  | [] => True
  | (_, LCopyTo m _) :: tr => whole m ∧ orderly tr
  | (_, LWait bt_reset_waitq true) :: tr => acked_since tr = true ∧ orderly tr
  | _ :: tr => orderly tr
  end.

Definition holds (w : world) (t : positive) : bool := bool_decide (w_mutex w = Some t).

(** The threads keep the rules; the structure is in order when nobody has the
    mutex; an acknowledgement that is taken note of was read. *)
Record safe (w : world) : Prop := {
  safe_good : w_mutex w = None -> good (w_data w);
  safe_holder t : w_mutex w = Some t -> is_Some (w_threads w !! t);
  safe_fine t p : w_threads w !! t = Some p ->
    ∃ acked, fine (holds w t) acked (w_data w) p ∧ (acked = true -> holds w t = true ∧ acked_since (w_trace w) = true);
  safe_ack : bt_reset_ack (w_data w) = true -> acked_since (w_trace w) = true;
  safe_trace : orderly (w_trace w)
}.

Lemma wbrc_world_safe : safe wbrc_world.
Proof. split; cbn; try done. Qed.

Lemma start_safe t c w w' : safe w -> wstep (Start t c) w = Some w' -> safe w'.
Proof.
  intros [Hg Hh Hf Ha Ht] H. cbn in H. destruct (w_threads w !! t) eqn:Hn; simplify_eq. split; cbn; try done.
  - intros u Hu. destruct (decide (u = t)) as [->|]; [rewrite lookup_insert_eq; eauto|rewrite lookup_insert_ne by done; eauto].
  - intros u p Hu. destruct (decide (u = t)) as [->|].
    + rewrite lookup_insert_eq in Hu. simplify_eq. exists false. unfold holds. cbn. rewrite bool_decide_false.
      * split; [apply code_fine|done].
      * intros E. destruct (Hh _ E). congruence.
    + rewrite lookup_insert_ne in Hu by done. exact (Hf u p Hu).
Qed.

(** After a step of a thread it is enough to look at that thread, when the
    structure is the same, or when the thread has the mutex before or after. *)
Lemma step_safe_frame t p acked d l T tr d' l' (x : label) :
  safe (mk_world d l T tr) ->
  (∀ u, u ≠ t -> l = Some u -> l' = Some u ∧ d' = d) -> (∀ u, u ≠ t -> l' = Some u -> l = Some u) ->
  (l' = None -> good d') ->
  fine (bool_decide (l' = Some t)) acked d' p -> (acked = true -> l' = Some t ∧ acked_since ((t, x) :: tr) = true) ->
  (∀ u, u ≠ t -> l = Some u -> acked_since tr = true -> acked_since ((t, x) :: tr) = true) ->
  (bt_reset_ack d' = true -> acked_since ((t, x) :: tr) = true) -> orderly ((t, x) :: tr) ->
  safe (mk_world d' l' (<[t := p]> T) ((t, x) :: tr)).
Proof.
  intros [_ Hh Hf _ _] Hl Hl' Hg Hp Hk Hs Ha Ht. cbn in *. split; cbn; try done.
  - intros u Hu. destruct (decide (u = t)) as [->|]; [rewrite lookup_insert_eq; eauto|rewrite lookup_insert_ne by done; eauto].
  - intros u q Hu. unfold holds. cbn. destruct (decide (u = t)) as [->|Hne].
    + rewrite lookup_insert_eq in Hu. simplify_eq. exists acked. rewrite bool_decide_eq_true. eauto.
    + rewrite lookup_insert_ne in Hu by done. destruct (Hf u q Hu) as (b & H1 & H2). unfold holds in *. cbn in *.
      rewrite bool_decide_eq_true in H2. destruct (decide (l = Some u)) as [E|E].
      * destruct (Hl u Hne E) as [-> ->]. subst l. exists b. split; [done|].
        intros Hb. destruct (H2 Hb). rewrite bool_decide_eq_true. eauto.
      * assert (l' ≠ Some u) by (intros ?; apply E; eauto). rewrite bool_decide_false in H1 by done.
        exists false. rewrite bool_decide_false by done. split; [|done].
        destruct b; [by destruct (H2 eq_refl)|]. by eapply fine_any.
Qed.

(** The end of a routine. *)
Lemma return_safe t r d l T tr :
  safe (mk_world d l T tr) -> l ≠ Some t -> safe (mk_world d l (delete t T) ((t, LReturn r) :: tr)).
Proof.
  intros [Hg Hh Hf Ha Ht] Hl. split; cbn in *; try done.
  - intros u Hu. rewrite lookup_delete_ne by congruence. eauto.
  - intros u q [_ Hu]%lookup_delete_Some. exact (Hf u q Hu).
Qed.

(** A step that changes neither the structure nor the mutex. *)
Lemma quiet_safe t p acked acked' d l T tr x :
  safe (mk_world d l T tr) -> fine (bool_decide (l = Some t)) acked' d p ->
  (acked = true -> l = Some t ∧ acked_since tr = true) ->
  (acked' = true -> acked = true ∨ l = Some t ∧ acked_since ((t, x) :: tr) = true) ->
  (acked_since tr = true -> acked_since ((t, x) :: tr) = true) -> orderly ((t, x) :: tr) ->
  safe (mk_world d l (<[t := p]> T) ((t, x) :: tr)).
Proof.
  intros S Hp Hk Hk' Hs Ht. eapply step_safe_frame; try done; try (intros; by split).
  - apply S.
  - intros E. destruct (Hk' E) as [E'|?]; [destruct (Hk E'); auto|done].
  - intros E. apply Hs. exact (safe_ack _ S E).
Qed.

Lemma run1_safe t p rest data w w' :
  safe w -> w_threads w !! t = Some p -> run1 t p rest data w = Some w' -> safe w'.
Proof.
  destruct w as [d l T tr]. intros S Hp H. destruct (safe_fine _ S t p Hp) as (acked & Hf & Hk).
  unfold holds in *. cbn in Hp, Hf, Hk. rewrite bool_decide_eq_true in Hk.
  destruct p as [r|k|k|k|a k|q k|q k|m k|k]; cbn [run1] in H; cbn [fine] in Hf.
  - simplify_eq. apply return_safe; [done|]. by apply bool_decide_eq_false in Hf.
  - destruct l; simplify_eq. destruct Hf as [_ Hf].
    eapply (step_safe_frame t k false); try done; try congruence; rewrite ?bool_decide_true by done.
    + apply Hf, (safe_good _ S eq_refl).
    + apply (safe_ack _ S).
    + apply (safe_trace _ S).
  - destruct Hf as (Hl%bool_decide_eq_true & Hg & Hf). simplify_eq.
    eapply (step_safe_frame t k false); try done; try congruence.
    + apply (safe_ack _ S).
    + apply (safe_trace _ S).
  - simplify_eq. eapply (quiet_safe t (k d) acked acked); try done; [|auto|apply (safe_trace _ S)].
    case_bool_decide; auto.
  - destruct Hf as (Hl%bool_decide_eq_true & Hw & Hf). simplify_eq.
    eapply (step_safe_frame t k (acked_after a acked)); try done; try congruence; rewrite ?bool_decide_true in * by done.
    + unfold acked_after. intros [Hne E]%andb_true_iff. split; [done|]. cbn. unfold acked_after. by rewrite Hne, (proj2 (Hk E)).
    + cbn. unfold acked_after. destruct Hw as [Hw1 Hw2], (decide (a = request)) as [->|Hne].
      * specialize (Hw2 eq_refl). destruct d; cbn in *; congruence.
      * rewrite (bool_decide_true (a ≠ request)) by done. pose proof (safe_ack _ S) as Ha.
        destruct d, a as [|[]| | | |]; cbn in *; try done. intros _. apply Hk. by apply Hw1.
    + destruct a; apply (safe_trace _ S).
  - simplify_eq. destruct Hf as [Hw Hf]. eapply (quiet_safe t k acked acked); try done; [by auto|].
    destruct q; cbn; try apply (safe_trace _ S).
    destruct (bt_reset_ack d) eqn:E; [split; [exact (safe_ack _ S E)|]|]; apply (safe_trace _ S).
  - simplify_eq. eapply (quiet_safe t k acked acked); try done; [by auto|apply (safe_trace _ S)].
  - simplify_eq. destruct Hf as (Hl & Hm & Hf). eapply (quiet_safe t (k rest) acked acked); try done; [by auto|].
    split; [done|apply (safe_trace _ S)].
  - simplify_eq. destruct Hf as (Hl & Hf).
    eapply (quiet_safe t (k rest data) acked (acked || bool_decide (rest = 0) && is_bt_ack data));
      try done; [| |apply (safe_trace _ S)]; cbn.
    + intros [E|E]%orb_true_iff; [by left|right]. rewrite E. by apply bool_decide_eq_true in Hl.
    + intros ->. apply orb_true_r.
Qed.

Lemma wsteps_safe acts : ∀ w w', safe w -> wsteps acts w = Some w' -> safe w'.
Proof.
  induction acts as [|[t c|t rest data] acts IH]; intros w w' S H; cbn [wsteps] in H; [congruence|..];
    apply bind_Some in H as (w1 & H1 & H); refine (IH w1 w' _ H).
  - by eapply start_safe.
  - cbn [wstep] in H1. apply bind_Some in H1 as (p & Hp & H1). by eapply run1_safe.
Qed.

(** ** What the invariant gives *)

Lemma wbrc_safe acts w : wsteps acts wbrc_world = Some w -> safe w.
Proof. apply wsteps_safe, wbrc_world_safe. Qed.

Lemma orderly_app tr1 : ∀ tr2, orderly (tr1 ++ tr2) -> orderly tr2.
Proof. induction tr1 as [|[t [| | | | | |[] []| | |]] tr1 IH]; cbn; naive_solver. Qed.

Lemma orderly_copy tr t m r : orderly tr -> (t, LCopyTo m r) ∈ tr -> whole m.
Proof. intros H (tr1 & tr2 & ->)%list_elem_of_split. by apply orderly_app in H as [? _]. Qed.

Lemma acked_since_split tr :
  acked_since tr = true ->
  ∃ tr1 u m tr2, tr = tr1 ++ (u, LCopyFrom 0 m) :: tr2 ∧ is_bt_ack m = true
    ∧ ∀ v, (v, LAssign request) ∉ tr1.
Proof.
  induction tr as [|[t x] tr IH]; cbn [acked_since]; [done|]. intros H.
  assert (K : acked_since tr = true -> x ≠ LAssign request ->
    ∃ tr1 u m tr2, (t, x) :: tr = tr1 ++ (u, LCopyFrom 0 m) :: tr2 ∧ is_bt_ack m = true
      ∧ ∀ v, (v, LAssign request) ∉ tr1).
  { intros (tr1 & u & m & tr2 & -> & Hm & Hn)%IH Hx. exists ((t, x) :: tr1), u, m, tr2.
    split; [done|]. split; [done|]. intros v. rewrite not_elem_of_cons. split; [congruence|apply Hn]. }
  destruct x as [| | | | |a| | | |r m]; try by apply K.
  - unfold acked_after in H. apply andb_true_iff in H as [Ha%bool_decide_eq_true H].
    apply K; [done|congruence].
  - apply orb_true_iff in H as [[Hr%bool_decide_eq_true Hm]%andb_true_iff|H]; [|by apply K].
    subst r. exists [], t, m, tr. split_and!; [done..|]. intros v. apply not_elem_of_nil.
Qed.

(** The steps of thread [t] from number [i] on, with the answers [f] to its copies. *)
Definition steps_of (t : positive) (f : nat -> Z * list Z) (i n : nat) : list wact :=
  map (λ j, Step t (f j).1 (f j).2) (seq i n).

(** The owner of the mutex gives it back when it goes on. *)
Lemma holder_unlocks t f p : ∀ i acked d T tr,
  fine true acked d p -> T !! t = Some p ->
  ∃ n w', wsteps (steps_of t f i n) (mk_world d (Some t) T tr) = Some w' ∧ w_mutex w' = None.
Proof.
  induction p as [r|k IH|k IH|k IH|a k IH|q k IH|q k IH|m k IH|k IH]; intros i acked d T tr Hf Hp;
    cbn [fine] in Hf; try done; try (by destruct Hf); try (destruct Hf as (? & ? & Hf)); try (destruct Hf as [? Hf]).
  1: exists 1%nat; eexists; cbn; by rewrite Hp.
  all: edestruct (IH (f i).1) as (n & w' & Hs & Hw) || edestruct IH as (n & w' & Hs & Hw);
    [by eauto|apply lookup_insert_eq|].
  all: exists (S n), w'; split; [|done]; cbn; rewrite Hp; cbn; exact Hs.
Qed.

(** [n] steps of thread [t]; the copies succeed and bring [data]. *)
Definition go (t : positive) (n : nat) (data : list Z) : list wact := repeat (Step t 0 data) n.

Definition bt_ack : list Z := [HEADER_DIR_BT2WL; 2; TYPE_BT_ACK; ACK_RESET_BT_COMPLETE].
Definition wifi_cmd : list Z := [HEADER_DIR_BT2WL; 2; TYPE_BT_CMD; CMD_RESET_WIFI_WITH_ACK].

(** Thread 1 opens the device, thread 2 asks for a reset of Bluetooth, thread 3
    reads the message, thread 4 is in the middle of writing the acknowledgement. *)
Definition reset_acts : list wact :=
  Start 1 COpen :: go 1 5 [] ++ Start 2 CWl2btReset :: go 2 10 [] ++ Start 3 (CRead 4) :: go 3 6 []
  ++ Start 4 (CWrite 4) :: go 4 4 bt_ack.

Definition copied_out (w : world) : list (list Z) :=
  omap (λ e, match e.2 with LCopyTo m _ => Some m | _ => None end) (w_trace w).

(** C22.  However the calls of any number of threads interleave, access by access:
    every message that goes to user space is a whole one, never a mixture of
    two; the owner of the mutex never waits for a condition that does not hold,
    so the time of its waits is never spent; and from every state that is
    reached the owner, going on alone and whatever the copies answer, gives the
    mutex back. *)
Theorem wbrc_interleavings_safe acts w :
  wsteps acts wbrc_world = Some w ->
  (∀ t m r, (t, LCopyTo m r) ∈ w_trace w -> whole m)
  ∧ (∀ t q k, w_mutex w = Some t -> w_threads w !! t = Some (Wait q k) -> condition q (w_data w) = true)
  ∧ (∀ t f, w_mutex w = Some t -> ∃ n w', wsteps (steps_of t f 0 n) w = Some w' ∧ w_mutex w' = None).
Proof.
  intros S%wbrc_safe. split_and!.
  - intros t m r. apply orderly_copy, S.
  - intros t q k Hl Hp. destruct (safe_fine _ S t _ Hp) as (acked & Hf & _). unfold holds in Hf.
    rewrite bool_decide_true in Hf by done. by apply Hf.
  - intros t f Hl. destruct (safe_holder _ S t Hl) as [p Hp]. destruct (safe_fine _ S t p Hp) as (acked & Hf & _).
    unfold holds in Hf. rewrite bool_decide_true in Hf by done. destruct w as [d l T tr]; cbn in *; subst l.
    by eapply holder_unlocks.
Qed.

Lemma wbrc_interleavings_safe_witness :
  ∃ w, wsteps reset_acts wbrc_world = Some w ∧ w_mutex w = Some 4%positive
    ∧ (3%positive, LCopyTo reset_bt_message 0) ∈ w_trace w ∧ whole reset_bt_message
    ∧ ∃ n w', wsteps (steps_of 4 (λ _, (0, [])) 0 n) w = Some w' ∧ w_mutex w' = None.
Proof.
  assert (H : (λ w, (w_mutex w, w_trace w !! 7%nat)) <$> wsteps reset_acts wbrc_world
    = Some (Some 4%positive, Some (3%positive, LCopyTo reset_bt_message 0))) by (vm_compute; reflexivity).
  apply fmap_Some in H as (w & E & [= Hl Hc]). symmetry in Hl, Hc. apply list_elem_of_lookup_2 in Hc.
  destruct (wbrc_interleavings_safe reset_acts w E) as (H1 & _ & H3).
  exists w. split; [exact E|]. split; [exact Hl|]. split; [exact Hc|].
  split; [exact (H1 _ _ _ Hc)|exact (H3 4%positive _ Hl)].
Defined.

(** C23.  When the wait of wbrc_wl2bt_reset for the acknowledgement ends with its
    condition, in whatever interleaving, then since the latest request a write
    of the Bluetooth stack brought the acknowledgement of a reset: no
    acknowledgement of an earlier request is taken for it. *)
Theorem wl2bt_reset_acknowledged acts w tr t tr' :
  wsteps acts wbrc_world = Some w -> w_trace w = tr ++ (t, LWait bt_reset_waitq true) :: tr' ->
  ∃ tr1 u m tr2, tr' = tr1 ++ (u, LCopyFrom 0 m) :: tr2 ∧ is_bt_ack m = true
    ∧ ∀ v, (v, LAssign request) ∉ tr1.
Proof.
  intros S%wbrc_safe Htr. pose proof (safe_trace _ S) as H. rewrite Htr in H.
  apply orderly_app in H as [H _]. by apply acked_since_split.
Qed.

Lemma wl2bt_reset_acknowledged_witness :
  ∃ w tr', wsteps (reset_acts ++ go 4 1 [] ++ go 2 1 []) wbrc_world = Some w
    ∧ w_trace w = [] ++ (2%positive, LWait bt_reset_waitq true) :: tr'
    ∧ ∃ tr1 u m tr2, tr' = tr1 ++ (u, LCopyFrom 0 m) :: tr2 ∧ is_bt_ack m = true
        ∧ ∀ v, (v, LAssign request) ∉ tr1.
Proof.
  assert (H : (λ w, head (w_trace w)) <$> wsteps (reset_acts ++ go 4 1 [] ++ go 2 1 []) wbrc_world
    = Some (Some (2%positive, LWait bt_reset_waitq true))) by (vm_compute; reflexivity).
  apply fmap_Some in H as (w & E & Hh). destruct (w_trace w) as [|x tr'] eqn:Htr; [discriminate Hh|].
  injection Hh as <-. exists w, tr'. split; [exact E|]. split; [exact Htr|].
  exact (wl2bt_reset_acknowledged _ w [] 2%positive tr' E Htr).
Defined.

(** ** Start, and behaviour on concrete runs *)

(** wbrc_init fails or not by the first answer that is an error; it then holds
    nothing, and otherwise wbrc_exit gives everything back. *)
Lemma wbrc_init_spec alloc major class device r held g :
  wbrc_init alloc major class device = (r, held, g) ->
  (r < 0 ∧ held = [] ∧ g = false)
  ∨ (r = 0 ∧ g = true ∧ (∀ x, x ∈ held) ∧ wbrc_exit held g = Some ([], false)).
Proof.
  unfold wbrc_init, ENOMEM. intros H. destruct alloc; cbn [negb] in H; [|simplify_eq; by left].
  repeat case_bool_decide; try (vm_compute in H; simplify_eq; auto; fail).
  injection H as <- <- <-. right. split_and!; [done|done| |by vm_compute]. intros []; set_solver.
Qed.

(** A read that delivers the message returns 0, the end of the file. *)
Example read_returns_0 :
  (λ w, (copied_out w, head (w_trace w)))
    <$> wsteps (Start 1 COpen :: go 1 5 [] ++ Start 2 CWl2btReset :: go 2 10 [] ++ Start 3 (CRead 4) :: go 3 7 []) wbrc_world
  = Some ([reset_bt_message], Some (3%positive, LReturn 0)).
Proof. vm_compute. reflexivity. Qed.

(** A request of the Bluetooth stack overwrites the command that was not read:
    the only message that is read is the answer. *)
Example command_lost :
  copied_out <$> wsteps (Start 1 COpen :: go 1 5 [] ++ Start 2 CWl2btReset :: go 2 10 []
    ++ Start 4 (CWrite 4) :: go 4 14 wifi_cmd ++ Start 3 (CRead 4) :: go 3 7 [] ++ Start 5 (CRead 4) :: go 5 4 []) wbrc_world
  = Some [reset_wifi_message].
Proof. vm_compute. reflexivity. Qed.

(** Without an acknowledgement the reset of Bluetooth still ends with 0. *)
Example reset_without_acknowledgement :
  (λ w, head (w_trace w)) <$> wsteps (Start 1 COpen :: go 1 5 [] ++ Start 2 CWl2btReset :: go 2 13 []) wbrc_world
  = Some (Some (2%positive, LReturn 0)).
Proof. vm_compute. reflexivity. Qed.
