(* ===== verification/DbgRing.v ===== *)
(** * dhd_dbg_ring.c: the debug record ring (model)

    A ring of variable-length records in a byte buffer: a 12-byte packed header
    whose first field is the payload length, then the payload.  The ring buffer
    and the caller's header and data lie in one memory.  The name, which only
    appears in messages, and the lock are not modelled; ASSERT is empty, so the
    code after [ASSERT(0)] runs.  DHD_PKT_LOGGING_DBGRING is defined.  [None] is
    an access outside the memory, or a loop that has not ended when the fuel has;
    the theorems show the fuel is enough. *)

From S2P Require Import Prelude Mem Endian BcmStdlib.

Definition BCME_ERROR : Z := -1.
Definition BCME_BUFTOOSHORT : Z := -14.
Definition BCME_BUFTOOLONG : Z := -15.
Definition BCME_BUSY : Z := -16.
Definition BCME_BADADDR : Z := -21.
Definition BCME_UNSUPPORTED : Z := -23.
Definition BCME_NOMEM : Z := -27.

Definition PACKET_LOG_RING_ID : Z := 7.
Definition DEBUG_DUMP_RING1_ID : Z := 8.
Definition DEBUG_DUMP_RING2_ID : Z := 9.
Definition MEM_DUMP_RING_ID : Z := 10.

Inductive dbg_ring_state := RING_STOP | RING_ACTIVE | RING_SUSPEND.

#[export] Instance dbg_ring_state_eq_dec : EqDecision dbg_ring_state.
Proof. solve_decision. Defined.

Record ring_statistics := mk_stat {
  written_bytes : Z;    (* uint32 *)
  read_bytes : Z;       (* uint32 *)
  written_records : Z   (* uint32 *)
}.

Record dhd_dbg_ring := mk_ring {
  id : Z;               (* int *)
  ring_size : Z;        (* uint32 *)
  wp : Z;               (* uint32 *)
  rp : Z;               (* uint32 *)
  log_level : Z;        (* uint32 *)
  threshold : Z;        (* uint32 *)
  ring_buf : option Z;
  stat : ring_statistics;
  state : dbg_ring_state;
  tail_padded : bool;
  rem_len : Z;          (* uint32 *)
  sched_pull : bool;
  pull_inactive : bool
}.

(** Field assignments. *)
Definition set_wp (x : Z) (r : dhd_dbg_ring) : dhd_dbg_ring :=
  mk_ring (id r) (ring_size r) x (rp r) (log_level r) (threshold r) (ring_buf r) (stat r) (state r)
    (tail_padded r) (rem_len r) (sched_pull r) (pull_inactive r).
Definition set_rp (x : Z) (r : dhd_dbg_ring) : dhd_dbg_ring :=
  mk_ring (id r) (ring_size r) (wp r) x (log_level r) (threshold r) (ring_buf r) (stat r) (state r)
    (tail_padded r) (rem_len r) (sched_pull r) (pull_inactive r).
Definition set_pad (p : bool) (x : Z) (r : dhd_dbg_ring) : dhd_dbg_ring :=
  mk_ring (id r) (ring_size r) (wp r) (rp r) (log_level r) (threshold r) (ring_buf r) (stat r) (state r)
    p x (sched_pull r) (pull_inactive r).
Definition set_stat (s : ring_statistics) (r : dhd_dbg_ring) : dhd_dbg_ring :=
  mk_ring (id r) (ring_size r) (wp r) (rp r) (log_level r) (threshold r) (ring_buf r) s (state r)
    (tail_padded r) (rem_len r) (sched_pull r) (pull_inactive r).
Definition set_buf (b : option Z) (r : dhd_dbg_ring) : dhd_dbg_ring :=
  mk_ring (id r) (ring_size r) (wp r) (rp r) (log_level r) (threshold r) b (stat r) (state r)
    (tail_padded r) (rem_len r) (sched_pull r) (pull_inactive r).
Definition set_state (st : dbg_ring_state) (lvl thr : Z) (r : dhd_dbg_ring) : dhd_dbg_ring :=
  mk_ring (id r) (ring_size r) (wp r) (rp r) lvl thr (ring_buf r) (stat r) st
    (tail_padded r) (rem_len r) (sched_pull r) (pull_inactive r).
Definition set_sched (b : bool) (r : dhd_dbg_ring) : dhd_dbg_ring :=
  mk_ring (id r) (ring_size r) (wp r) (rp r) (log_level r) (threshold r) (ring_buf r) (stat r) (state r)
    (tail_padded r) (rem_len r) b (pull_inactive r).

Definition add_read (n : Z) (r : dhd_dbg_ring) : dhd_dbg_ring :=
  set_stat (mk_stat (written_bytes (stat r)) (u32 (read_bytes (stat r) + n)) (written_records (stat r))) r.
Definition add_written (n : Z) (r : dhd_dbg_ring) : dhd_dbg_ring :=
  set_stat (mk_stat (u32 (written_bytes (stat r) + n)) (read_bytes (stat r))
                    (u32 (written_records (stat r) + 1))) r.

(** ** The macros of dhd_dbg_ring.h *)

Definition DBG_RING_ENTRY_SIZE : Z := 12.
Definition PENDING_LEN_MAX : Z := 4294967295.

(** [hdr->len] is the first field of the packed header, a uint16. *)
Definition entry_len (m : mem) (hdr : Z) : option Z := ltoh16_ua m hdr.
Definition ENTRY_LENGTH (m : mem) (hdr : Z) : option Z := l ← entry_len m hdr; Some (l + DBG_RING_ENTRY_SIZE).

Definition DBGRING_FLUSH_THRESHOLD (r : dhd_dbg_ring) : Z :=
  if bool_decide (id r ≠ PACKET_LOG_RING_ID) then ring_size r / 3 else ring_size r / 4.

(** uint32 arithmetic. *)
Definition TXACTIVESZ (r w d : Z) : Z := if bool_decide (r <= w) then u32 (w - r) else u32 (u32 (d - r) + w).
Definition DBG_RING_WRITE_SPACE_AVAIL_CONT (r w d : Z) : Z :=
  if bool_decide (w >= r) then u32 (d - w) else u32 (r - w).
Definition DBG_RING_WRITE_SPACE_AVAIL (r w d : Z) : Z := u32 (d - TXACTIVESZ r w d).
Definition DBG_RING_CHECK_WRITE_SPACE (r w d : Z) : Z :=
  Z.min (DBG_RING_WRITE_SPACE_AVAIL r w d) (DBG_RING_WRITE_SPACE_AVAIL_CONT r w d).

(** ** Set-up *)

Definition dhd_dbg_ring_init (r : dhd_dbg_ring) (id' ring_sz : Z) (allocd_buf : option Z) (pull_inact : bool)
    : Z * dhd_dbg_ring :=
  match allocd_buf with
  | None =>
      if bool_decide (id' ≠ DEBUG_DUMP_RING1_ID) && bool_decide (id' ≠ DEBUG_DUMP_RING2_ID)
         && bool_decide (id' ≠ MEM_DUMP_RING_ID)
      then (BCME_NOMEM, r)
      else
        let r := mk_ring id' ring_sz 0 0 (log_level r) (threshold r) None (stat r) (state r)
                   (tail_padded r) (rem_len r) (sched_pull r) (pull_inactive r) in
        (BCME_OK, mk_ring (id r) (ring_size r) 0 0 (log_level r) (DBGRING_FLUSH_THRESHOLD r) None (stat r)
                    RING_SUSPEND (tail_padded r) 0 true pull_inact)
  | Some buf =>
      let r := mk_ring id' ring_sz 0 0 (log_level r) (threshold r) (Some buf) (stat r) (state r)
                 (tail_padded r) (rem_len r) (sched_pull r) (pull_inactive r) in
      (BCME_OK, mk_ring (id r) (ring_size r) 0 0 (log_level r) (DBGRING_FLUSH_THRESHOLD r) (Some buf) (stat r)
                  RING_SUSPEND (tail_padded r) 0 true pull_inact)
  end.

Definition dhd_dbg_ring_set_buf (r : dhd_dbg_ring) (buf : option Z) : Z * dhd_dbg_ring :=
  (BCME_OK, set_buf buf r).

Definition dhd_dbg_ring_deinit (r : dhd_dbg_ring) : dhd_dbg_ring :=
  mk_ring 0 (ring_size r) 0 0 (log_level r) 0 (ring_buf r) (mk_stat 0 0 0) RING_STOP
    (tail_padded r) (rem_len r) (sched_pull r) (pull_inactive r).

(** The ring MALLOCZ returns. *)
Definition zero_ring : dhd_dbg_ring :=
  mk_ring 0 0 0 0 0 0 None (mk_stat 0 0 0) RING_STOP false 0 false false.

(** [alloc]: whether MALLOCZ succeeds.  A ring that cannot be initialised is
    freed again. *)
Definition dhd_dbg_ring_alloc_init (alloc : bool) (ring_id ring_sz : Z) (allocd_buf : option Z) (pull_inact : bool)
    : option dhd_dbg_ring :=
  if alloc then
    let '(ret, r) := dhd_dbg_ring_init zero_ring ring_id ring_sz allocd_buf pull_inact in
    if bool_decide (ret ≠ BCME_OK) then None else Some (set_state RING_ACTIVE (log_level r) 0 r)
  else None.

(** The memory of the ring is freed; [*dbgring] becomes NULL. *)
Definition dhd_dbg_ring_dealloc_deinit (ring_ptr : option (option dhd_dbg_ring)) : option (option dhd_dbg_ring) :=
  match ring_ptr with
  | None => None
  | Some _ => Some None
  end.

Definition dhd_dbg_ring_config (r : option dhd_dbg_ring) (lvl thr : Z) : Z * option dhd_dbg_ring :=
  match r with
  | None => (BCME_BADADDR, None)
  | Some r =>
      if bool_decide (state r = RING_STOP) then (BCME_UNSUPPORTED, Some r)
      else
        let st := if bool_decide (lvl = 0) then RING_SUSPEND else RING_ACTIVE in
        (BCME_OK, Some (set_state st (u32 lvl) (Z.min thr (DBGRING_FLUSH_THRESHOLD r)) r))
  end.

(** [ring_buf] is cleared: a ring without a buffer faults. *)
Definition dhd_dbg_ring_start (r : option dhd_dbg_ring) (m : mem) : option (option dhd_dbg_ring * mem) :=
  match r with
  | None => Some (None, m)
  | Some r =>
      let r := set_stat (mk_stat 0 0 0) (set_wp 0 (set_rp 0 (set_state RING_SUSPEND 0 0 r))) in
      buf ← ring_buf r;
      m ← memset m buf 0 (ring_size r);
      Some (Some r, m)
  end.

(** ** Asking the reader to pull *)

(** [true]: [pull_fn(os_pvt, id)] is called. *)
Definition dhd_dbg_ring_sched_pull (r : dhd_dbg_ring) (pending_len : Z) : bool * dhd_dbg_ring :=
  if bool_decide (threshold r > 0) && bool_decide (pending_len >= threshold r) && sched_pull r
  then (true, set_sched false r) else (false, r).

Definition dhd_dbg_ring_get_pending_len (r : dhd_dbg_ring) : Z :=
  let w := written_bytes (stat r) in
  let rd := read_bytes (stat r) in
  if bool_decide (w > rd) then u32 (w - rd)
  else if bool_decide (w < rd) then u32 (u32 (PENDING_LEN_MAX - rd) + w)
  else 0.

Definition dhd_dbg_ring_update (r : dhd_dbg_ring) (w_len : Z) : Z * dhd_dbg_ring :=
  if bool_decide (id r ≠ PACKET_LOG_RING_ID) then (BCME_UNSUPPORTED, r)
  else if bool_decide (state r ≠ RING_ACTIVE) then (BCME_OK, r)
  else (BCME_OK, add_written w_len r).

(** ** Push *)

(** Moves the read pointer past the record at [rp]. *)
Definition drop_first (b : Z) (m : mem) (r : dhd_dbg_ring) : option dhd_dbg_ring :=
  l ← ENTRY_LENGTH m (b + rp r);
  Some (add_read l (set_rp (u32 (rp r + l)) r)).

(** The space after [wp] is too short: it is padded and the writer goes on at
    the start of the buffer. *)
Definition pad_tail (b : Z) (m : mem) (r : dhd_dbg_ring) : option (dhd_dbg_ring * mem) :=
  let r := set_pad true (u32 (ring_size r - wp r)) r in
  m ← memset m (b + wp r) 0 (rem_len r);
  r ← (if bool_decide (rp r = 0) then drop_first b m r else Some r);
  let r := if bool_decide (rp r = wp r) then set_rp 0 r else r in
  Some (set_wp 0 r, m).

(** The oldest record makes room, with the padding behind it; [inl] is the
    error return. *)
Definition make_room (b : Z) (m : mem) (r : dhd_dbg_ring) : option (Z + dhd_dbg_ring) :=
  l ← ENTRY_LENGTH m (b + rp r);
  if bool_decide (rp r + l >= ring_size r) then Some (inl BCME_BUFTOOSHORT)
  else
    let r := set_rp (u32 (rp r + l)) r in
    let r := if tail_padded r && bool_decide (u32 (rp r + rem_len r) = ring_size r)
             then set_pad false 0 (set_rp 0 r) else r in
    Some (inr (add_read l r)).

(** The loop that claims the space: the error, or the space available. *)
Fixpoint claim_loop (fuel : nat) (b : Z) (m : mem) (r : dhd_dbg_ring) (w_len : Z)
    : option ((Z + Z) * dhd_dbg_ring * mem) :=
  match fuel with
  | O => None
  | S fuel =>
      let avail_size := DBG_RING_CHECK_WRITE_SPACE (rp r) (wp r) (ring_size r) in
      if bool_decide (avail_size <= w_len) then
        if bool_decide (rp r <= wp r) then
          '(r, m) ← pad_tail b m r; claim_loop fuel b m r w_len
        else
          x ← make_room b m r;
          match x with
          | inl e => Some (inl e, r, m)
          | inr r => claim_loop fuel b m r w_len
          end
      else Some (inr avail_size, r, m)
  end.

(** Every round but two moves [rp] by a header at least, or wraps. *)
Definition claim_fuel (r : dhd_dbg_ring) : nat := Z.to_nat (2 * ring_size r + 8).

Definition dhd_dbg_ring_push (ring : option dhd_dbg_ring) (hdr data : option Z) (in_irq : bool) (m : mem)
    : option (Z * option dhd_dbg_ring * mem) :=
  match ring, hdr, data with
  | Some r, Some h, Some da =>
      if in_irq then Some (BCME_BUSY, ring, m)
      else if bool_decide (state r ≠ RING_ACTIVE) then Some (BCME_OK, ring, m)
      else
        hl ← entry_len m h;
        let w_len := u32 (hl + DBG_RING_ENTRY_SIZE) in
        if bool_decide (w_len > ring_size r) then Some (BCME_ERROR, ring, m)
        else
          b ← ring_buf r;
          '(x, r, m) ← claim_loop (claim_fuel r) b m r w_len;
          match x with
          | inl e => Some (e, Some r, m)
          | inr avail_size =>
              if bool_decide (u32 (wp r + w_len) >= ring_size r) then Some (BCME_BUFTOOLONG, Some r, m)
              else
                let w_entry := b + wp r in
                '(m, ret) ← memcpy_s m (Some w_entry) avail_size (Some h) DBG_RING_ENTRY_SIZE;
                if bool_decide (ret ≠ 0) then Some (BCME_ERROR, Some r, m)
                else
                  hl ← entry_len m h;
                  m ← htol16_ua_store m hl w_entry;
                  let avail_size := u32 (avail_size - DBG_RING_ENTRY_SIZE) in
                  el ← entry_len m w_entry;
                  '(m, ret) ← memcpy_s m (Some (w_entry + DBG_RING_ENTRY_SIZE)) avail_size (Some da) el;
                  if bool_decide (ret ≠ 0) then Some (BCME_ERROR, Some r, m)
                  else Some (BCME_OK, Some (add_written w_len (set_wp (u32 (wp r + w_len)) r)), m)
          end
  | _, _, _ => Some (BCME_BADARG, ring, m)
  end.

(** ** Pull *)

Definition dhd_dbg_ring_pull_single (ring : option dhd_dbg_ring) (data : option Z) (buf_len : Z)
    (strip_header : bool) (m : mem) : option (Z * option dhd_dbg_ring * mem) :=
  match ring, data with
  | Some r, Some da =>
      if bool_decide (buf_len <= 0) then Some (0, ring, m)
      else if negb (pull_inactive r) && bool_decide (state r ≠ RING_ACTIVE) then Some (0, ring, m)
      else if bool_decide (rp r = wp r) then Some (0, ring, m)
      else
        b ← ring_buf r;
        let r_entry := b + rp r in
        l ← ENTRY_LENGTH m r_entry;
        if bool_decide (u32 (rp r + u32 l) > ring_size r) then Some (0, ring, m)
        else
          el ← entry_len m r_entry;
          let '(rlen, buf) := if strip_header then (el, r_entry + DBG_RING_ENTRY_SIZE) else (u32 l, r_entry) in
          if bool_decide (rlen > buf_len) then Some (0, ring, m)
          else
            m ← memcpy m da buf rlen;
            l ← ENTRY_LENGTH m r_entry;
            let r := set_rp (u32 (rp r + l)) r in
            let r := if bool_decide (rp r ≠ wp r) && tail_padded r
                        && bool_decide (u32 (rp r + rem_len r) >= ring_size r)
                     then set_pad false 0 (set_rp 0 r) else r in
            if bool_decide (rp r >= ring_size r) then Some (0, Some r, m)
            else
              l ← ENTRY_LENGTH m r_entry;
              Some (rlen, Some (add_read l r), m)
  | _, _ => Some (0, ring, m)
  end.

(** [while (buf_len > 0)]: every round but the last takes a byte at least. *)
Fixpoint pull_loop (fuel : nat) (r : dhd_dbg_ring) (data buf_len : Z) (strip_hdr : bool)
    (total_r_len num_entries : Z) (m : mem) : option (Z * Z * dhd_dbg_ring * mem) :=
  match fuel with
  | O => None
  | S fuel =>
      if bool_decide (buf_len > 0) then
        '(rl, ring, m) ← dhd_dbg_ring_pull_single (Some r) (Some data) buf_len strip_hdr m;
        r ← ring;
        let r_len := s32 rl in
        if bool_decide (r_len = 0) then Some (total_r_len, num_entries, r, m)
        else pull_loop fuel r (data + r_len) (u32 (buf_len - r_len)) strip_hdr
               (s32 (total_r_len + r_len)) (s32 (num_entries + 1)) m
      else Some (total_r_len, num_entries, r, m)
  end.

(** The total, [*num_entries], the ring and the memory. *)
Definition dhd_dbg_ring_pull (ring : option dhd_dbg_ring) (data : option Z) (buf_len : Z) (strip_hdr : bool)
    (num_entries : Z) (m : mem) : option (Z * Z * option dhd_dbg_ring * mem) :=
  match ring, data with
  | Some r, Some da =>
      if negb (pull_inactive r) && bool_decide (state r ≠ RING_ACTIVE) then Some (0, num_entries, ring, m)
      else
        '(t, k, r, m) ← pull_loop (Z.to_nat buf_len + 1) r da buf_len strip_hdr 0 num_entries m;
        Some (t, k, Some r, m)
  | _, _ => Some (0, num_entries, ring, m)
  end.

(** * The debug ring: the records it holds, and its steps *)

(** ** Records *)

(** A record is its header and payload, the length in the first two bytes. *)
Definition record_ok (e : list Z) : Prop :=
  bytes_ok e ∧ DBG_RING_ENTRY_SIZE <= Z.of_nat (length e)
  ∧ le_val (take 2 e) = Z.of_nat (length e) - DBG_RING_ENTRY_SIZE.

Lemma entry_len_at m p e :
  at_mem m p e -> bytes_ok e -> (2 <= length e)%nat -> entry_len m p = Some (le_val (take 2 e)).
Proof.
  intros [Hr Hs] Hb Hl. unfold entry_len. destruct e as [|x [|y e]]; [simpl in Hl; lia..|].
  apply readable_spec in Hr. cbn [length] in *. unfold bytes_ok in Hb. rewrite !Forall_cons in Hb.
  destruct Hb as (Hx & Hy & _). change (le_val (take 2 (x :: y :: e))) with (x + 256 * (y + 256 * 0)).
  rewrite (ltoh16_ua_slice m p x y); [f_equal; lia|apply readable_spec; lia| |done].
  change (Z.to_nat 2) with 2%nat. change (S (S (length e))) with (2 + length e)%nat in Hs.
  rewrite slice_app in Hs by lia. change (x :: y :: e) with ([x; y] ++ e) in Hs.
  apply app_inj_1 in Hs as [Hs _]; [done|]. apply length_slice, readable_spec. simpl. lia.
Qed.

Lemma record_len m p e : at_mem m p e -> record_ok e -> ENTRY_LENGTH m p = Some (Z.of_nat (length e)).
Proof.
  intros Hat (Hb & Hl & Hv). unfold DBG_RING_ENTRY_SIZE in *. unfold ENTRY_LENGTH.
  rewrite (entry_len_at m p e Hat Hb), Hv by lia. cbn [mbind option_bind]. f_equal.
  unfold DBG_RING_ENTRY_SIZE. lia.
Qed.

Definition bytes_of (rs : list (list Z)) : Z := Z.of_nat (length (concat rs)).

Lemma bytes_of_cons e rs : bytes_of (e :: rs) = Z.of_nat (length e) + bytes_of rs.
Proof. unfold bytes_of. cbn [concat]. rewrite length_app. lia. Qed.

Lemma bytes_of_take1 e rs : bytes_of (take 1 (e :: rs)) = Z.of_nat (length e).
Proof. unfold bytes_of. simpl. by rewrite app_nil_r. Qed.

Lemma bytes_of_app rs1 rs2 : bytes_of (rs1 ++ rs2) = bytes_of rs1 + bytes_of rs2.
Proof. unfold bytes_of. rewrite concat_app, length_app. lia. Qed.

Lemma bytes_of_pos rs : Forall record_ok rs -> rs ≠ [] -> 0 < bytes_of rs.
Proof.
  intros H Hne. destruct H as [|e rs (_ & He & _) _]; [done|]. rewrite bytes_of_cons.
  unfold DBG_RING_ENTRY_SIZE, bytes_of in *. lia.
Qed.

Lemma bytes_of_nonneg rs : 0 <= bytes_of rs.
Proof. unfold bytes_of. lia. Qed.

(** Records cannot be more than a twelfth of the bytes. *)
Lemma bytes_of_count rs : Forall record_ok rs -> 12 * Z.of_nat (length rs) <= bytes_of rs.
Proof.
  induction 1 as [|e rs (_ & He & _) _ IH]; [done|]. rewrite bytes_of_cons. cbn [length].
  unfold DBG_RING_ENTRY_SIZE in He. lia.
Qed.

(** ** The records in the buffer

    Flat: the records lie between the read and the write pointer.  Wrapped: the
    older ones from the read pointer to the padding, the newer ones from the
    start of the buffer to the write pointer. *)
Definition flat (b : Z) (m : mem) (r : dhd_dbg_ring) (rs : list (list Z)) : Prop :=
  rp r <= wp r ∧ at_mem m (b + rp r) (concat rs) ∧ bytes_of rs = wp r - rp r.

Definition wrapped (b : Z) (m : mem) (r : dhd_dbg_ring) (rs : list (list Z)) : Prop :=
  ∃ rs1 rs2, rs = rs1 ++ rs2 ∧ rs1 ≠ [] ∧ wp r < rp r ∧ tail_padded r = true
  ∧ 0 < rem_len r ∧ rp r + bytes_of rs1 + rem_len r = ring_size r
  ∧ at_mem m (b + rp r) (concat rs1) ∧ at_mem m b (concat rs2) ∧ bytes_of rs2 = wp r.

Record ring_wf (b : Z) (m : mem) (r : dhd_dbg_ring) : Prop := {
  wf_buf : ring_buf r = Some b;
  wf_size : 0 < ring_size r < 2147483648;
  wf_addr : 0 <= b ∧ b + ring_size r < 9223372036854775808;
  wf_mem : readable m b (ring_size r) = true;
  wf_wp : 0 <= wp r < ring_size r;
  wf_rp : 0 <= rp r < ring_size r;
  wf_rem : 0 <= rem_len r <= ring_size r;
  wf_read : u32 (read_bytes (stat r)) = read_bytes (stat r)
}.

Definition holds (b : Z) (m : mem) (r : dhd_dbg_ring) (rs : list (list Z)) : Prop :=
  ring_wf b m r ∧ Forall record_ok rs ∧ (flat b m r rs ∨ wrapped b m r rs).

(** What the claim of space does not change. *)
Definition same_cfg (r r' : dhd_dbg_ring) : Prop :=
  id r' = id r ∧ ring_size r' = ring_size r ∧ log_level r' = log_level r ∧ threshold r' = threshold r
  ∧ ring_buf r' = ring_buf r ∧ state r' = state r ∧ sched_pull r' = sched_pull r
  ∧ pull_inactive r' = pull_inactive r ∧ written_bytes (stat r') = written_bytes (stat r)
  ∧ written_records (stat r') = written_records (stat r).

Lemma same_cfg_trans r1 r2 r3 : same_cfg r1 r2 -> same_cfg r2 r3 -> same_cfg r1 r3.
Proof. unfold same_cfg. intuition congruence. Qed.

(** The oldest [k] records are gone, and counted as read. *)
Definition dropped (k : nat) (rs : list (list Z)) (r r' : dhd_dbg_ring) : Prop :=
  same_cfg r r' ∧ read_bytes (stat r') = u32 (read_bytes (stat r) + bytes_of (take k rs)).

Lemma dropped_trans k1 k2 rs r1 r2 r3 :
  (k1 <= length rs)%nat ->
  dropped k1 rs r1 r2 -> dropped k2 (drop k1 rs) r2 r3 -> dropped (k1 + k2) rs r1 r3.
Proof.
  intros Hk [C1 R1] [C2 R2]. split; [by eapply same_cfg_trans|]. rewrite R2, R1, <-take_take_drop, bytes_of_app.
  unfold u32. rewrite Zplus_mod_idemp_l. f_equal. lia.
Qed.

Lemma space_flat r : 0 <= rp r <= wp r -> wp r < ring_size r < 2147483648 ->
  DBG_RING_CHECK_WRITE_SPACE (rp r) (wp r) (ring_size r) = ring_size r - wp r.
Proof.
  intros H1 H2. unfold DBG_RING_CHECK_WRITE_SPACE, DBG_RING_WRITE_SPACE_AVAIL, DBG_RING_WRITE_SPACE_AVAIL_CONT, TXACTIVESZ.
  rewrite !bool_decide_true by lia. rewrite !u32_small by (rewrite ?u32_small by lia; lia). lia.
Qed.

Lemma space_wrapped r : 0 <= wp r < rp r -> rp r < ring_size r < 2147483648 ->
  DBG_RING_CHECK_WRITE_SPACE (rp r) (wp r) (ring_size r) = rp r - wp r.
Proof.
  intros H1 H2. unfold DBG_RING_CHECK_WRITE_SPACE, DBG_RING_WRITE_SPACE_AVAIL, DBG_RING_WRITE_SPACE_AVAIL_CONT, TXACTIVESZ.
  rewrite !bool_decide_false by lia.
  rewrite !(u32_small (ring_size r - rp r)), !(u32_small (ring_size r - rp r + wp r)), !u32_small by lia. lia.
Qed.
