(* ===== verification/DbgRingTheorems.v ===== *)
(** * The debug ring: its properties *)

From S2P Require Import Prelude Mem Endian BcmStdlib BcmStdlibTheorems DbgRing.

Ltac ringcbn := cbn [id ring_size wp rp log_level threshold ring_buf stat state tail_padded rem_len
  sched_pull pull_inactive written_bytes read_bytes written_records
  set_wp set_rp set_pad set_stat add_read add_written] in *.

(** ** The steps that make room *)

Lemma memset_splice m p c n :
  0 < n -> readable m p n = true -> memset m p c n = Some (splice m p (replicate (Z.to_nat n) (u8 c))).
Proof. intros Hn Hr. unfold memset. by rewrite bool_decide_false, Hr by lia. Qed.

Lemma at_mem_concat_cons m p e rs :
  at_mem m p (concat (e :: rs)) <-> at_mem m p e ∧ at_mem m (p + Z.of_nat (length e)) (concat rs).
Proof. apply at_mem_app. Qed.

(** With the padding written, the records start at [rp]. *)
Lemma wrap_around b m r rs :
  ring_wf b m r -> Forall record_ok rs -> rs ≠ [] ->
  0 < rp r -> rp r + bytes_of rs + rem_len r = ring_size r -> 0 < rem_len r -> tail_padded r = true ->
  at_mem m (b + rp r) (concat rs) -> wrapped b m (set_wp 0 r) rs.
Proof.
  intros [] Hrs Hne Hrp Hsz Hrem Ht Hat. exists rs, []. rewrite app_nil_r. ringcbn.
  split_and!; try done. apply at_mem_nil. apply readable_spec in wf_mem. lia.
Qed.

Lemma pad_step b m r rs w_len :
  ring_wf b m r -> Forall record_ok rs -> flat b m r rs ->
  ring_size r - wp r <= w_len -> w_len < ring_size r ->
  ∃ k r' m', (k <= length rs)%nat ∧ pad_tail b m r = Some (r', m') ∧ only_in b (ring_size r) m m'
  ∧ dropped k rs r r' ∧ ring_wf b m' r'
  ∧ ((drop k rs = [] ∧ rp r' = 0 ∧ wp r' = 0) ∨ wrapped b m' r' (drop k rs)).
Proof.
  intros Hwf Hrs (Hle & Hat & Hb) Hsp Hw. pose proof Hwf as []. unfold pad_tail. ringcbn.
  rewrite u32_small by lia. pose proof (proj1 (readable_spec _ _ _) wf_mem).
  assert (readable m (b + wp r) (ring_size r - wp r) = true) as Hrd by (apply readable_spec; lia).
  rewrite memset_splice by (done || lia). cbn [mbind option_bind].
  set (z := replicate (Z.to_nat (ring_size r - wp r)) (u8 0)).
  assert (Z.of_nat (length z) = ring_size r - wp r) as Hz by (unfold z; rewrite length_replicate; lia).
  set (m' := splice m (b + wp r) z).
  assert (only_in b (ring_size r) m m') as Ho by (apply only_in_splice; rewrite ?Hz; done || lia).
  assert (at_mem m' (b + rp r) (concat rs)) as Hat'.
  { apply at_mem_splice; [done|by rewrite Hz|]. left. unfold bytes_of in Hb. lia. }
  assert (readable m' b (ring_size r) = true) as Hm' by by rewrite (only_in_readable _ _ _ _ _ _ Ho).
  destruct (decide (rp r = 0)) as [E0|E0].
  - rewrite bool_decide_true by done. destruct rs as [|e rs]; [unfold bytes_of in Hb; simpl in Hb; lia|].
    apply Forall_cons in Hrs as [He Hrs]. apply at_mem_concat_cons in Hat' as [Hate Hatr].
    rewrite bytes_of_cons in Hb. pose proof (bytes_of_nonneg rs). pose proof He as (_ & Hel & _).
    unfold DBG_RING_ENTRY_SIZE in Hel. unfold drop_first. ringcbn.
    rewrite (record_len _ _ _ Hate He). cbn [mbind option_bind]. ringcbn.
    rewrite E0, Z.add_0_l, u32_small by lia. exists 1%nat. change (drop 1 (e :: rs)) with rs.
    destruct (decide (Z.of_nat (length e) = wp r)) as [Ee|Ee].
    + assert (rs = []) as -> by (destruct rs; [done|]; pose proof (bytes_of_pos _ Hrs ltac:(done)); lia).
      rewrite bool_decide_true by done. eexists _, _. split; [simpl; lia|]. split; [done|]. split; [done|].
      split; [|split; [|by left]].
      * split; [done|]. ringcbn. by rewrite bytes_of_take1.
      * split; ringcbn; try (done || lia). unfold u32. by rewrite Z.mod_mod by lia.
    + rewrite bool_decide_false by done. eexists _, _. split; [simpl; lia|]. split; [done|]. split; [done|].
      assert (ring_wf b m' (add_read (Z.of_nat (length e)) (set_rp (Z.of_nat (length e))
                              (set_pad true (ring_size r - wp r) r)))) as Hwf'.
      { split; ringcbn; try (done || lia). unfold u32. by rewrite Z.mod_mod by lia. }
      split; [|split].
      * split; [done|]. ringcbn. by rewrite bytes_of_take1.
      * destruct Hwf'. ringcbn. split; ringcbn; try (done || lia).
      * right. apply wrap_around; ringcbn; try (done || lia).
        -- intros ->. unfold bytes_of in Hb. simpl in Hb. lia.
        -- rewrite E0 in Hatr. by rewrite Z.add_0_r in Hatr.
  - rewrite bool_decide_false by done. cbn [mbind option_bind]. exists 0%nat. change (drop 0 rs) with rs.
    assert (∀ r', same_cfg r r' -> stat r' = stat r -> dropped 0 rs r r') as Hdrop.
    { intros r' Hc Hs. split; [done|]. rewrite Hs, take_0. unfold bytes_of. simpl. by rewrite Z.add_0_r. }
    destruct (decide (rp r = wp r)) as [Ee|Ee].
    + assert (rs = []) as -> by (destruct rs; [done|]; pose proof (bytes_of_pos _ Hrs ltac:(done)); lia).
      rewrite bool_decide_true by (ringcbn; done). eexists _, _. split; [simpl; lia|]. split; [done|]. split; [done|].
      split; [by apply Hdrop|]. split; [|by left]. split; ringcbn; try (done || lia).
    + rewrite bool_decide_false by (ringcbn; done). eexists _, _. split; [lia|]. split; [done|]. split; [done|].
      split; [by apply Hdrop|].
      assert (ring_wf b m' (set_pad true (ring_size r - wp r) r)) as Hwf' by (split; ringcbn; try (done || lia)).
      split; [split; ringcbn; try (done || lia)|]. right. apply wrap_around; ringcbn; try (done || lia).
      intros ->. unfold bytes_of in Hb. simpl in Hb. lia.
Qed.

Lemma room_step b m r rs :
  ring_wf b m r -> Forall record_ok rs -> wrapped b m r rs ->
  ∃ r', make_room b m r = Some (inr r') ∧ dropped 1 rs r r' ∧ ring_wf b m r' ∧ rs ≠ []
  ∧ (flat b m r' (drop 1 rs) ∨ wrapped b m r' (drop 1 rs)).
Proof.
  intros Hwf Hrs (rs1 & rs2 & -> & Hne & Hlt & Ht & Hrem & Hsz & Hat1 & Hat2 & Hb2). pose proof Hwf as [].
  destruct rs1 as [|e rs1]; [done|]. rewrite bytes_of_cons in Hsz.
  apply at_mem_concat_cons in Hat1 as [Hate Hat1]. cbn [app] in Hrs. apply Forall_cons in Hrs as [He Hrs].
  pose proof (bytes_of_nonneg rs1). pose proof He as (_ & Hel & _). unfold DBG_RING_ENTRY_SIZE in Hel.
  unfold make_room. rewrite (record_len _ _ _ Hate He). cbn [mbind option_bind].
  rewrite bool_decide_false by lia. rewrite u32_small by lia. ringcbn. rewrite Ht, u32_small by lia.
  cbn [andb app]. change (drop 1 (e :: rs1 ++ rs2)) with (rs1 ++ rs2). apply Forall_app in Hrs as [Hrs1 Hrs2].
  assert (∀ r', same_cfg r r' -> stat r' = stat (add_read (Z.of_nat (length e)) r) ->
            dropped 1 (e :: rs1 ++ rs2) r r') as Hdrop.
  { intros r' Hc Hs. split; [done|]. rewrite Hs. by rewrite bytes_of_take1. }
  assert (u32 (u32 (read_bytes (stat r) + Z.of_nat (length e))) = u32 (read_bytes (stat r) + Z.of_nat (length e))) as Hu
    by (unfold u32; by rewrite Z.mod_mod by lia).
  destruct (decide (rs1 = [])) as [->|Hne1].
  - rewrite bool_decide_true by (unfold bytes_of in Hsz; simpl in Hsz; lia). eexists. split; [done|].
    split; [by apply Hdrop|]. split; [split; ringcbn; try (done || lia)|]. split; [done|].
    left. unfold flat. ringcbn. rewrite Z.add_0_r. cbn [app]. split_and!; [lia|done|lia].
  - pose proof (bytes_of_pos _ Hrs1 Hne1). rewrite bool_decide_false by lia. eexists. split; [done|].
    split; [by apply Hdrop|]. split; [split; ringcbn; try (done || lia)|]. split; [done|].
    right. exists rs1, rs2. ringcbn. split_and!; try (done || lia).
    by replace (b + (rp r + Z.of_nat (length e))) with (b + rp r + Z.of_nat (length e)) by lia.
Qed.

(** ** The claim of space *)

(** How far the claim loop is from its end. *)
Definition rounds (r : dhd_dbg_ring) (rs : list (list Z)) : nat :=
  2 * length rs + (if bool_decide (rp r <= wp r) then 2 else 1).

(** What the loop has done when it stops. *)
Definition claimed (b w_len : Z) (m : mem) (r : dhd_dbg_ring) (rs : list (list Z)) (k : nat)
    (avail : Z) (r' : dhd_dbg_ring) (m' : mem) : Prop :=
  (k <= length rs)%nat ∧ dropped k rs r r' ∧ only_in b (ring_size r) m m' ∧ holds b m' r' (drop k rs)
  ∧ avail = DBG_RING_CHECK_WRITE_SPACE (rp r') (wp r') (ring_size r') ∧ w_len < avail.

Lemma dropped_0 b m r rs : ring_wf b m r -> dropped 0 rs r r.
Proof.
  intros []. split; [done|]. unfold bytes_of. rewrite take_0. simpl. by rewrite Z.add_0_r.
Qed.

Lemma claimed_later b w_len m1 r1 rs k1 r2 m2 k2 avail r3 m3 :
  (k1 <= length rs)%nat -> dropped k1 rs r1 r2 -> only_in b (ring_size r1) m1 m2 ->
  claimed b w_len m2 r2 (drop k1 rs) k2 avail r3 m3 ->
  claimed b w_len m1 r1 rs (k1 + k2) avail r3 m3.
Proof.
  intros Hk Hd Ho (Hk2 & Hd2 & Ho2 & Hh & Ha & Hw). rewrite length_drop in Hk2.
  assert (ring_size r2 = ring_size r1) as Hs by apply Hd. split_and!; [lia| | | |done|done].
  - by eapply dropped_trans.
  - rewrite Hs in Ho2. by eapply only_in_trans.
  - by rewrite <-drop_drop.
Qed.

Lemma claim_now fuel b m r rs w_len :
  holds b m r rs -> w_len < DBG_RING_CHECK_WRITE_SPACE (rp r) (wp r) (ring_size r) ->
  claim_loop (S fuel) b m r w_len
    = Some (inr (DBG_RING_CHECK_WRITE_SPACE (rp r) (wp r) (ring_size r)), r, m)
  ∧ claimed b w_len m r rs 0 (DBG_RING_CHECK_WRITE_SPACE (rp r) (wp r) (ring_size r)) r m.
Proof.
  intros H Hw. cbn [claim_loop]. rewrite bool_decide_false by lia. split; [done|].
  split_and!; [lia|eapply dropped_0; apply H|apply only_in_refl|done|done|done].
Qed.

Lemma claim_spec fuel : ∀ b m r rs w_len,
  holds b m r rs -> w_len < ring_size r -> (rounds r rs <= fuel)%nat ->
  ∃ k avail r' m', claim_loop fuel b m r w_len = Some (inr avail, r', m')
    ∧ claimed b w_len m r rs k avail r' m'.
Proof.
  induction fuel as [|fuel IH]; intros b m r rs w_len H Hw Hf.
  { unfold rounds in Hf. case_bool_decide; lia. }
  destruct (decide (w_len < DBG_RING_CHECK_WRITE_SPACE (rp r) (wp r) (ring_size r))) as [Hn|Hn].
  { destruct (claim_now fuel b m r rs w_len H Hn) as [E Hc]. eauto 6. }
  cbn [claim_loop]. rewrite bool_decide_true by lia.
  destruct H as (Hwf & Hrs & [Hfl|Hwr]).
  - pose proof Hfl as (Hle & _). unfold rounds in Hf. rewrite bool_decide_true in * by done.
    rewrite space_flat in Hn by (destruct Hwf; lia).
    destruct (pad_step b m r rs w_len Hwf Hrs Hfl) as (k & r1 & m1 & Hk & -> & Ho & Hd & Hwf1 & Hcase); [lia..|].
    cbn [mbind option_bind]. assert (ring_size r1 = ring_size r) as Hs1 by apply Hd.
    destruct Hcase as [(Hnil & Hr0 & Hw0)|Hwr].
    + destruct fuel as [|fuel]; [lia|]. assert (holds b m1 r1 (drop k rs)) as Hh.
      { split; [done|]. split; [by apply Forall_drop|]. left. split; [lia|].
        rewrite Hnil. split; [|unfold bytes_of; simpl; lia]. apply at_mem_nil. destruct Hwf1.
        apply readable_spec in wf_mem. lia. }
      edestruct (claim_now fuel b m1 r1 (drop k rs) w_len Hh) as [E Hc].
      { rewrite space_flat; destruct Hwf1; lia. }
      eexists _, _, _, _. split; [exact E|]. by eapply claimed_later.
    + destruct (IH b m1 r1 (drop k rs) w_len) as (k2 & av & r2 & m2 & E & Hc).
      * split; [done|]. split; [by apply Forall_drop|by right].
      * lia.
      * destruct Hwr as (? & ? & ? & ? & ? & _). unfold rounds. rewrite bool_decide_false, length_drop by lia. lia.
      * eexists _, _, _, _. split; [exact E|]. by eapply claimed_later.
  - destruct (room_step b m r rs Hwf Hrs Hwr) as (r1 & E1 & Hd & Hwf1 & Hne & Hcase).
    pose proof Hwr as (_ & _ & _ & _ & Hlt & _). rewrite bool_decide_false by lia. rewrite E1. cbn [mbind option_bind].
    assert (1 <= length rs)%nat as Hl by (destruct rs; [done|simpl; lia]).
    destruct (IH b m r1 (drop 1 rs) w_len) as (k2 & av & r2 & m2 & E & Hc).
    + split; [done|]. split; [by apply Forall_drop|done].
    + destruct Hd as [(_ & -> & _) _]. done.
    + unfold rounds in *. rewrite (bool_decide_false (rp r <= wp r)) in Hf by lia. rewrite length_drop.
      case_bool_decide; lia.
    + eexists _, _, _, _. split; [exact E|]. eapply claimed_later; [done|done|apply only_in_refl|done].
Qed.

Lemma claim_fuel_enough b m r rs : holds b m r rs -> (rounds r rs <= claim_fuel r)%nat.
Proof.
  intros (Hwf & Hrs & Hl). unfold rounds, claim_fuel. destruct Hwf.
  assert (bytes_of rs <= 2 * ring_size r) as Hb.
  { destruct Hl as [(_ & _ & ->)|(rs1 & rs2 & -> & _ & ? & _ & ? & ? & _ & _ & ?)]; [lia|].
    rewrite bytes_of_app. lia. }
  pose proof (bytes_of_count rs Hrs). case_bool_decide; lia.
Qed.

(** ** Appending a record *)

Lemma append_holds b m r rs e :
  holds b m r rs -> record_ok e ->
  Z.of_nat (length e) < DBG_RING_CHECK_WRITE_SPACE (rp r) (wp r) (ring_size r) ->
  let r' := add_written (Z.of_nat (length e)) (set_wp (wp r + Z.of_nat (length e)) r) in
  wp r + Z.of_nat (length e) < ring_size r ∧ holds b (splice m (b + wp r) e) r' (rs ++ [e]).
Proof.
  intros (Hwf & Hrs & Hl) He Hsp r'. pose proof Hwf as []. pose proof (proj1 (readable_spec _ _ _) wf_mem).
  assert (wp r + Z.of_nat (length e) < ring_size r) as Hw.
  { destruct Hl as [(? & _)|(? & ? & _ & _ & ? & _)];
      [rewrite space_flat in Hsp by lia|rewrite space_wrapped in Hsp by lia]; lia. }
  split; [done|]. assert (readable m (b + wp r) (Z.of_nat (length e)) = true) as Hrd by (apply readable_spec; lia).
  split; [|split].
  - split; subst r'; ringcbn; try (done || lia). by rewrite readable_splice.
  - apply Forall_app. split; [done|]. by apply Forall_singleton.
  - destruct Hl as [(Hle & Hat & Hb)|(rs1 & rs2 & -> & Hne & Hlt & Ht & Hrem & Hsz & Hat1 & Hat2 & Hb2)].
    + left. subst r'. unfold flat. ringcbn. rewrite concat_app, bytes_of_app, at_mem_app. cbn [concat].
      rewrite app_nil_r. unfold bytes_of in *. cbn [concat]. rewrite app_nil_r. split_and!; [lia| | |lia].
      * apply at_mem_splice; [done|done|left; lia].
      * replace (b + rp r + Z.of_nat (length (concat rs))) with (b + wp r) by lia. by apply at_mem_splice_same.
    + right. rewrite space_wrapped in Hsp by lia. exists rs1, (rs2 ++ [e]). subst r'. ringcbn.
      rewrite concat_app, bytes_of_app, at_mem_app. cbn [concat]. rewrite app_nil_r.
      unfold bytes_of in *. cbn [concat]. rewrite app_nil_r.
      split_and!; [by rewrite app_assoc|done|lia|done|lia|lia| | | |lia].
      * apply at_mem_splice; [done|done|right; lia].
      * apply at_mem_splice; [done|done|left; lia].
      * rewrite Hb2. by apply at_mem_splice_same.
Qed.

(** The writes of push put the record at the write pointer. *)
Lemma push_writes m h da hdr pl p avail :
  0 <= p -> p + avail < 9223372036854775808 -> Z.of_nat (length m) < 9223372036854775808 ->
  12 + Z.of_nat (length pl) < avail -> avail < 4294967296 ->
  length hdr = 12%nat -> bytes_ok hdr -> le_val (take 2 hdr) = Z.of_nat (length pl) ->
  at_mem m h hdr -> at_mem m da pl -> readable m p (12 + Z.of_nat (length pl)) = true ->
  disjoint_areas p avail h 12 -> disjoint_areas p avail da (Z.of_nat (length pl)) ->
  ∀ (A : Type) (fail : mem -> option A) (k : mem -> option A),
  ('(m, ret) ← memcpy_s m (Some p) avail (Some h) DBG_RING_ENTRY_SIZE;
   if bool_decide (ret ≠ 0) then fail m
   else
     hl ← entry_len m h;
     m ← htol16_ua_store m hl p;
     el ← entry_len m p;
     '(m, ret) ← memcpy_s m (Some (p + DBG_RING_ENTRY_SIZE)) (u32 (avail - DBG_RING_ENTRY_SIZE)) (Some da) el;
     if bool_decide (ret ≠ 0) then fail m else k m)
  = k (splice m p (hdr ++ pl)).
Proof.
  intros Hp Hpa Hlm Hav Hav32 Hlh Hbh Hv Hh Hda Hrd Hd1 Hd2 A fail k. unfold DBG_RING_ENTRY_SIZE.
  pose proof Hh as [Hrh Hsh]. pose proof Hda as [Hrda Hsda]. rewrite Hlh in Hrh, Hsh.
  pose proof (proj1 (readable_spec _ _ _) Hrh). pose proof (proj1 (readable_spec _ _ _) Hrda).
  pose proof (proj1 (readable_spec _ _ _) Hrd). unfold disjoint_areas in *.
  change (memcpy_s m (Some p) avail (Some h) 12) with (memcpy_s m (Some p) avail (Some h) (Z.of_nat 12)).
  rewrite (memcpy_s_ok m p avail h 12); [|lia|lia|lia|lia|apply readable_spec; lia|done|unfold disjoint_areas; lia].
  rewrite Hsh. cbn [mbind option_bind]. rewrite bool_decide_false by tauto.
  assert (readable m p (Z.of_nat (length hdr)) = true) as Hrp by (rewrite Hlh; apply readable_spec; lia).
  set (m1 := splice m p hdr). assert (at_mem m1 h hdr) as Hh1 by (apply at_mem_splice; [done|done|unfold disjoint_areas; lia]).
  assert (at_mem m1 p hdr) as Hp1 by by apply at_mem_splice_same.
  rewrite (entry_len_at m1 h hdr Hh1 Hbh), Hv by lia. cbn [mbind option_bind].
  assert (splice m1 p (le_bytes 2 (Z.of_nat (length pl))) = m1) as Hsame.
  { apply splice_at. rewrite <-Hv.
    assert (hdr = take 2 hdr ++ drop 2 hdr) as Es by by rewrite take_drop. rewrite Es in Hp1 at 1.
    apply at_mem_app in Hp1 as [Hp1 _].
    assert (length (take 2 hdr) = 2%nat) as Hl2 by (rewrite length_take; lia).
    rewrite <-Hl2 at 1. rewrite le_bytes_val; [done|]. by apply Forall_take. }
  assert (length m1 = length m) as Hlm1 by by apply length_splice.
  rewrite htol16_ua_store_splice, Hsame by (apply readable_spec; lia). cbn [mbind option_bind].
  rewrite (entry_len_at m1 p hdr Hp1 Hbh), Hv, u32_small by lia. cbn [mbind option_bind].
  assert (at_mem m1 da pl) as [Hrda1 Hsda1] by (apply at_mem_splice; [done|done|unfold disjoint_areas; lia]).
  rewrite memcpy_s_ok; [|lia|lia|lia|lia|apply readable_spec; lia|done|unfold disjoint_areas; lia].
  rewrite Hsda1. cbn [mbind option_bind]. rewrite bool_decide_false by tauto.
  subst m1. replace 12 with (Z.of_nat (length hdr)) by lia. rewrite splice_app; [done|].
  rewrite length_app, Hlh. apply readable_spec. lia.
Qed.

(** The caller's header and payload, outside the ring's buffer. *)
Record caller_record (b d : Z) (m : mem) (h da : Z) (hdr pl : list Z) : Prop := {
  cr_hdr : at_mem m h hdr ∧ length hdr = 12%nat ∧ bytes_ok hdr;
  cr_data : at_mem m da pl ∧ bytes_ok pl ∧ le_val (take 2 hdr) = Z.of_nat (length pl);
  cr_apart : disjoint_areas h 12 b d ∧ disjoint_areas da (Z.of_nat (length pl)) b d;
  cr_mem : Z.of_nat (length m) < 9223372036854775808
}.

Lemma caller_record_ok b d m h da hdr pl : caller_record b d m h da hdr pl -> record_ok (hdr ++ pl).
Proof.
  intros [(_ & Hl & Hb) (_ & Hp & Hv) _ _]. split; [by apply Forall_app|].
  rewrite length_app, Hl, take_app_le, Hv by lia. unfold DBG_RING_ENTRY_SIZE. lia.
Qed.

Lemma push_active b m r rs h da hdr pl :
  holds b m r rs -> state r = RING_ACTIVE -> caller_record b (ring_size r) m h da hdr pl ->
  Z.of_nat (length (hdr ++ pl)) < ring_size r ->
  ∃ k avail r1 m1, claimed b (Z.of_nat (length (hdr ++ pl))) m r rs k avail r1 m1
  ∧ (Z.of_nat (length (hdr ++ pl)) < DBG_RING_CHECK_WRITE_SPACE (rp r) (wp r) (ring_size r) -> k = 0%nat)
  ∧ dhd_dbg_ring_push (Some r) (Some h) (Some da) false m
    = Some (BCME_OK, Some (add_written (Z.of_nat (length (hdr ++ pl)))
                             (set_wp (wp r1 + Z.of_nat (length (hdr ++ pl))) r1)),
            splice m1 (b + wp r1) (hdr ++ pl)).
Proof.
  intros Hh Hst Hc Hw. pose proof Hc as [(Hath & Hlh & Hbh) (Hatd & Hbd & Hv) (Hdh & Hdd) Hlm].
  pose proof (caller_record_ok _ _ _ _ _ _ _ Hc) as He. pose proof Hh as ([] & _ & _).
  set (w := Z.of_nat (length (hdr ++ pl))) in *.
  assert (w = 12 + Z.of_nat (length pl)) as Ew by (subst w; rewrite length_app, Hlh; lia).
  assert (∃ k avail r1 m1, claim_loop (claim_fuel r) b m r w = Some (inr avail, r1, m1)
            ∧ claimed b w m r rs k avail r1 m1
            ∧ (w < DBG_RING_CHECK_WRITE_SPACE (rp r) (wp r) (ring_size r) -> k = 0%nat)) as (k & avail & r1 & m1 & E & Hcl & Hk).
  { destruct (decide (w < DBG_RING_CHECK_WRITE_SPACE (rp r) (wp r) (ring_size r))) as [Hn|Hn].
    - assert (∃ f, claim_fuel r = S f) as [f ->] by (exists (pred (claim_fuel r)); unfold claim_fuel; lia).
      destruct (claim_now f b m r rs w Hh Hn). eauto 8.
    - destruct (claim_spec (claim_fuel r) b m r rs w Hh Hw (claim_fuel_enough b m r rs Hh)) as (k & av & r1 & m1 & E & Hcl).
      exists k, av, r1, m1. split_and!; [done|done|lia]. }
  exists k, avail, r1, m1. split; [done|]. split; [done|].
  destruct Hcl as (_ & [(Hid & Hsz & _ & _ & Hbuf & _) _] & Ho & Hh1 & Ea & Hav).
  pose proof (append_holds b m1 r1 _ _ Hh1 He ltac:(subst w; lia)) as [Hw1 _]. fold w in Hw1.
  pose proof Hh1 as (Hwf1 & _). pose proof (DbgRing.wf_wp _ _ _ Hwf1). pose proof (DbgRing.wf_rp _ _ _ Hwf1).
  assert (wp r1 + avail <= ring_size r1) as Hava.
  { rewrite Ea. destruct (decide (rp r1 <= wp r1)); [rewrite space_flat by lia|rewrite space_wrapped by lia]; lia. }
  unfold dhd_dbg_ring_push. rewrite bool_decide_false by (rewrite Hst; tauto).
  rewrite (entry_len_at m h hdr Hath Hbh), Hv by lia. cbn [mbind option_bind].
  replace (u32 (Z.of_nat (length pl) + DBG_RING_ENTRY_SIZE)) with w
    by (unfold DBG_RING_ENTRY_SIZE; rewrite u32_small; lia).
  rewrite bool_decide_false, wf_buf by lia. cbn [mbind option_bind]. rewrite E. cbn [mbind option_bind].
  rewrite u32_small, bool_decide_false by lia. rewrite Hsz in *.
  pose proof (proj1 (readable_spec _ _ _) wf_mem). pose proof (proj1 Ho) as Hlm1.
  etransitivity; [eapply (push_writes m1 h da hdr pl (b + wp r1) avail)|reflexivity]; try done; try lia.
  - eapply only_in_at; [done|done|]. by rewrite Hlh.
  - by eapply only_in_at.
  - apply readable_spec. lia.
  - unfold disjoint_areas in *. lia.
  - unfold disjoint_areas in *. lia.
Qed.

(** ** Runs on a ring of a hundred bytes

    The buffer is at 0; the caller's headers and payloads follow it. *)

Definition demo_mem : mem := replicate 100 0 ++ (48 :: replicate 11 0) ++ (38 :: 0 :: replicate 10 1) ++ (8 :: 0 :: replicate 10 2) ++ replicate 164 3.
Definition demo_ring : dhd_dbg_ring :=
  mk_ring 2 100 0 0 0 0 (Some 0) (mk_stat 0 0 0) RING_ACTIVE false 0 true false.

Lemma demo_alloc : dhd_dbg_ring_alloc_init true 2 100 (Some 0) false = Some demo_ring.
Proof. reflexivity. Qed.

(** The pushes of a list of headers, the payload always at 200. *)
Fixpoint pushes (hs : list Z) (r : dhd_dbg_ring) (m : mem) : option (dhd_dbg_ring * mem) :=
  match hs with
  | [] => Some (r, m)
  | h :: hs => '(ret, r, m) ← dhd_dbg_ring_push (Some r) (Some h) (Some 200) false m; r ← r; pushes hs r m
  end.

(** Two records; and the four that leave stale padding: the second resets both
    pointers to the start behind a padding of 40 bytes. *)
Definition demo_two : dhd_dbg_ring * mem :=
  Eval vm_compute in default (demo_ring, demo_mem) (pushes [112; 124] demo_ring demo_mem).
Definition demo_four : dhd_dbg_ring * mem :=
  Eval vm_compute in default (demo_ring, demo_mem) (pushes [100; 112; 124; 124] demo_ring demo_mem).

Definition rec1 : list Z := (48 :: replicate 11 0) ++ replicate 48 3.
Definition rec2 : list Z := (38 :: 0 :: replicate 10 1) ++ replicate 38 3.
Definition rec3 : list Z := (8 :: 0 :: replicate 10 2) ++ replicate 8 3.

Ltac record_ok_tac :=
  split; [repeat (apply Forall_cons_2; [lia|]); apply Forall_nil_2|];
  split; [vm_compute; discriminate|reflexivity].

Lemma rec2_ok : record_ok rec2.
Proof. unfold rec2; simpl. record_ok_tac. Qed.
Lemma rec3_ok : record_ok rec3.
Proof. unfold rec3; simpl. record_ok_tac. Qed.

Lemma demo_ring_holds : holds 0 demo_mem demo_ring [].
Proof.
  split; [split; cbn; done || lia|]. split; [apply Forall_nil_2|]. left.
  split; [cbn; lia|]. split; [split; reflexivity|reflexivity].
Qed.

Lemma demo_two_holds : holds 0 (demo_two.2) (demo_two.1) [rec2; rec3].
Proof.
  split; [split; cbn; done || lia|]. split; [apply Forall_cons_2; [apply rec2_ok|apply Forall_singleton, rec3_ok]|].
  left. split; [cbn; lia|]. split; [split; reflexivity|reflexivity].
Qed.

(** C24.  Pushing a record on an active ring that holds whole records ([holds]:
    the pointers are within the buffer, and from the read pointer to the write
    pointer, directly or over marked padding at the end, there are the records and
    nothing else; a new ring is such) ends, and leaves such a ring.  A record
    longer than the ring is refused and nothing changes; a record shorter than the
    ring is always stored, behind the records the ring keeps: none is dropped when
    the space at the write pointer suffices, and otherwise those dropped are the
    oldest ones and are counted as read.  Only the ring's buffer is written.  A
    record of exactly the size of the ring is not among them: it is not stored,
    and the ring it leaves does not hold whole records ([push_exact_size]). *)
Theorem dbg_ring_push_spec (b : Z) (m : mem) (r : dhd_dbg_ring) (rs : list (list Z)) (h da : Z) (hdr pl : list Z) :
  holds b m r rs -> state r = RING_ACTIVE -> caller_record b (ring_size r) m h da hdr pl ->
  let w := Z.of_nat (length (hdr ++ pl)) in
  (ring_size r < w -> dhd_dbg_ring_push (Some r) (Some h) (Some da) false m = Some (BCME_ERROR, Some r, m))
  ∧ (w < ring_size r -> ∃ k r' m',
      dhd_dbg_ring_push (Some r) (Some h) (Some da) false m = Some (BCME_OK, Some r', m')
      ∧ (k <= length rs)%nat ∧ holds b m' r' (drop k rs ++ [hdr ++ pl])
      ∧ (w < DBG_RING_CHECK_WRITE_SPACE (rp r) (wp r) (ring_size r) -> k = 0%nat)
      ∧ stat r' = mk_stat (u32 (written_bytes (stat r) + w)) (u32 (read_bytes (stat r) + bytes_of (take k rs)))
                    (u32 (written_records (stat r) + 1))
      ∧ state r' = RING_ACTIVE ∧ ring_size r' = ring_size r ∧ pull_inactive r' = pull_inactive r
      ∧ only_in b (ring_size r) m m').
Proof.
  intros Hh Hst Hc w. split.
  - intros Hw. pose proof Hc as [(Hath & Hlh & Hbh) (Hatd & Hbd & Hv) _ _]. pose proof Hh as ([] & _ & _).
    pose proof (le_val_range (take 2 hdr) ltac:(by apply Forall_take)) as Hvr.
    rewrite length_take in Hvr. replace (2 `min` length hdr)%nat with 2%nat in Hvr by lia.
    change (256 ^ Z.of_nat 2) with 65536 in Hvr.
    unfold dhd_dbg_ring_push. rewrite bool_decide_false by (rewrite Hst; tauto).
    rewrite (entry_len_at m h hdr Hath Hbh) by lia. cbn [mbind option_bind].
    subst w. rewrite length_app, Hlh in Hw. unfold DBG_RING_ENTRY_SIZE.
    rewrite u32_small, bool_decide_true by lia. done.
  - intros Hw. destruct (push_active b m r rs h da hdr pl Hh Hst Hc Hw) as (k & av & r1 & m1 & Hcl & Hk & E).
    destruct Hcl as (Hkl & [(Hid & Hsz & _ & _ & _ & Hs & _ & Hpi & Hwb & Hwr) Hrb] & Ho & Hh1 & Ea & Hav).
    pose proof (append_holds b m1 r1 _ _ Hh1 (caller_record_ok _ _ _ _ _ _ _ Hc) ltac:(lia)) as [Hw1 Hh2].
    exists k, (add_written w (set_wp (wp r1 + w) r1)), (splice m1 (b + wp r1) (hdr ++ pl)).
    split_and!; [done|done|done|done| |by rewrite <-Hst|done|done|].
    + ringcbn. by rewrite Hwb, Hwr, Hrb.
    + eapply only_in_trans; [exact Ho|]. pose proof Hh1 as ([] & _ & _). rewrite Hsz in *.
      pose proof (proj1 (readable_spec _ _ _) wf_mem).
      apply only_in_splice; [apply readable_spec; lia|lia|lia].
Qed.

Lemma dbg_ring_push_spec_witness :
  ∃ r' m', dhd_dbg_ring_push (Some demo_ring) (Some 100) (Some 200) false demo_mem = Some (BCME_OK, Some r', m')
  ∧ holds 0 m' r' [rec1].
Proof.
  destruct (dbg_ring_push_spec 0 demo_mem demo_ring [] 100 200 (48 :: replicate 11 0) (replicate 48 3))
    as (_ & H).
  - exact demo_ring_holds.
  - reflexivity.
  - split.
    + split; [split; reflexivity|]. split; [reflexivity|]. repeat (apply Forall_cons_2; [lia|]). apply Forall_nil_2.
    + split; [split; reflexivity|]. split; [|reflexivity]. repeat (apply Forall_cons_2; [lia|]). apply Forall_nil_2.
    + unfold disjoint_areas. cbn. lia.
    + cbn. lia.
  - destruct (H ltac:(cbn; lia)) as (k & r' & m' & E & Hk & Hh & _). exists r', m'. split; [exact E|].
    rewrite drop_nil in Hh. exact Hh.
Defined.

(** ** Pulling records *)

(** What the reader gets of a record. *)
Definition delivered (strip : bool) (e : list Z) : list Z := if strip then drop 12 e else e.

(** The reader stands inside a flat ring behind which padding is still marked. *)
Definition stale (r : dhd_dbg_ring) (e : list Z) : bool :=
  bool_decide (rp r <= wp r) && bool_decide (rp r + Z.of_nat (length e) ≠ wp r) && tail_padded r
  && bool_decide (rp r + Z.of_nat (length e) + rem_len r >= ring_size r).

Definition readable_ring (r : dhd_dbg_ring) : Prop := pull_inactive r = true ∨ state r = RING_ACTIVE.

Lemma readable_ring_bool r :
  readable_ring r -> negb (pull_inactive r) && bool_decide (state r ≠ RING_ACTIVE) = false.
Proof. intros [->| ->]; [done|]. by rewrite andb_false_r. Qed.

Lemma length_delivered strip e : record_ok e ->
  Z.of_nat (length (delivered strip e)) = Z.of_nat (length e) - (if strip then 12 else 0).
Proof. intros (_ & Hl & _). unfold DBG_RING_ENTRY_SIZE in Hl. destruct strip; simpl; [rewrite length_drop|]; lia. Qed.

Lemma record_length e : record_ok e -> 12 <= Z.of_nat (length e) < 65548.
Proof.
  intros (Hb & Hl & Hv). unfold DBG_RING_ENTRY_SIZE in *.
  pose proof (le_val_range (take 2 e) ltac:(by apply Forall_take)) as Hr. rewrite length_take in Hr.
  replace (2 `min` length e)%nat with 2%nat in Hr by lia. change (256 ^ Z.of_nat 2) with 65536 in Hr. lia.
Qed.

(** The first record of a ring. *)
Lemma holds_first b m r e rs : holds b m r (e :: rs) ->
  at_mem m (b + rp r) e ∧ record_ok e ∧ rp r + Z.of_nat (length e) < ring_size r ∧ rp r ≠ wp r.
Proof.
  intros ([] & [He Hrs]%Forall_cons & Hl). pose proof (record_length e He).
  destruct Hl as [(Hle & Hat & Hb)|(rs1 & rs2 & Ers & Hne & Hlt & Ht & Hrem & Hsz & Hat1 & Hat2 & Hb2)].
  - apply at_mem_concat_cons in Hat as [Hat _]. rewrite bytes_of_cons in Hb.
    pose proof (bytes_of_nonneg rs). split_and!; [done..|lia|lia].
  - destruct rs1 as [|e1 rs1]; [done|]. injection Ers as <- Ers. apply at_mem_concat_cons in Hat1 as [Hat _].
    rewrite bytes_of_cons in Hsz. pose proof (bytes_of_nonneg rs1). split_and!; [done..|lia|lia].
Qed.

Lemma holds_nil b m r : holds b m r [] -> rp r = wp r.
Proof.
  intros (_ & _ & [(Hle & _ & Hb)|(rs1 & rs2 & Ers & Hne & _)]); [unfold bytes_of in Hb; simpl in Hb; lia|].
  by destruct rs1.
Qed.

(** The ring after the record at [rp] has been taken. *)
Definition taken (r : dhd_dbg_ring) (e : list Z) : dhd_dbg_ring :=
  let n := Z.of_nat (length e) in
  let r1 := set_rp (rp r + n) r in
  let r1 := if bool_decide (rp r + n ≠ wp r) && tail_padded r && bool_decide (rp r + n + rem_len r >= ring_size r)
            then set_pad false 0 (set_rp 0 r1) else r1 in
  add_read n r1.

Lemma pull_single_some b m r e rs da n strip :
  holds b m r (e :: rs) -> readable_ring r -> 0 < n < 4294967296 ->
  Z.of_nat (length (delivered strip e)) <= n -> readable m da (Z.of_nat (length (delivered strip e))) = true ->
  disjoint_areas da (Z.of_nat (length (delivered strip e))) b (ring_size r) ->
  dhd_dbg_ring_pull_single (Some r) (Some da) n strip m
  = Some (Z.of_nat (length (delivered strip e)), Some (taken r e), splice m da (delivered strip e)).
Proof.
  intros Hh Hrd Hn Hfit Hda Hdis. destruct (holds_first _ _ _ _ _ Hh) as (Hat & He & Hlt & Hne).
  pose proof (record_length e He) as Hle. pose proof (length_delivered strip e He) as Hld. pose proof Hh as ([] & _).
  pose proof He as (Hb & _ & Hv). pose proof Hat as [Hre Hse]. pose proof (proj1 (readable_spec _ _ _) Hre).
  unfold dhd_dbg_ring_pull_single. rewrite bool_decide_false by lia. rewrite (readable_ring_bool r Hrd).
  rewrite bool_decide_false, wf_buf by done. cbn [mbind option_bind].
  rewrite (record_len _ _ _ Hat He). cbn [mbind option_bind].
  rewrite (u32_small (Z.of_nat (length e))), u32_small, bool_decide_false by lia.
  rewrite (entry_len_at _ _ _ Hat Hb), Hv by lia. cbn [mbind option_bind]. unfold DBG_RING_ENTRY_SIZE.
  set (out := delivered strip e) in *.
  assert (∃ src, (if strip then (Z.of_nat (length e) - 12, b + rp r + 12) else (Z.of_nat (length e), b + rp r))
          = (Z.of_nat (length out), src) ∧ at_mem m src out ∧ b + rp r <= src
          ∧ src + Z.of_nat (length out) = b + rp r + Z.of_nat (length e)) as (src & -> & [Hrs Hss] & Hs1 & Hs2).
  { subst out. destruct strip; simpl in *; (eexists; split; [by rewrite Hld, ?Z.sub_0_r|]).
    - rewrite <-(take_drop 12 e) in Hat. apply at_mem_app in Hat as [_ Hat]. rewrite length_take in Hat.
      replace (12 `min` length e)%nat with 12%nat in Hat by lia. split; [done|lia].
    - split; [done|lia]. }
  rewrite bool_decide_false by lia. unfold disjoint_areas in Hdis.
  rewrite memcpy_splice by (try done; unfold disjoint_areas; lia). rewrite Hss. cbn [mbind option_bind].
  assert (at_mem (splice m da out) (b + rp r) e) as Hat'.
  { apply at_mem_splice; [done..|]. unfold disjoint_areas. lia. }
  rewrite !(record_len _ _ _ Hat' He). cbn [mbind option_bind]. ringcbn. rewrite (u32_small (rp r + _)) by lia.
  rewrite (u32_small (rp r + Z.of_nat (length e) + rem_len r)) by lia. unfold taken. ringcbn.
  destruct (bool_decide (rp r + Z.of_nat (length e) ≠ wp r) && tail_padded r
            && bool_decide (rp r + Z.of_nat (length e) + rem_len r >= ring_size r)); ringcbn;
    by rewrite bool_decide_false by lia.
Qed.

Lemma only_in_holds b m m' r rs p n :
  holds b m r rs -> only_in p n m m' -> disjoint_areas p n b (ring_size r) -> holds b m' r rs.
Proof.
  intros ([] & Hrs & Hl) Ho Hd. split; [|split; [done|]].
  { split; try done. by rewrite (only_in_readable _ _ _ _ _ _ Ho). }
  destruct Hl as [(Hle & Hat & Hb)|(rs1 & rs2 & -> & Hne & Hlt & Ht & Hrem & Hsz & Hat1 & Hat2 & Hb2)].
  - left. split; [done|]. split; [|done]. eapply only_in_at; [done..|]. unfold bytes_of, disjoint_areas in *. lia.
  - right. exists rs1, rs2. pose proof (bytes_of_nonneg rs1). unfold bytes_of, disjoint_areas in *. split_and!; try done.
    + eapply only_in_at; [done..|]. unfold disjoint_areas. lia.
    + eapply only_in_at; [done..|]. unfold disjoint_areas. lia.
Qed.

Lemma taken_holds b m r e rs :
  holds b m r (e :: rs) -> stale r e = false -> holds b m (taken r e) rs.
Proof.
  intros Hh Hns. destruct (holds_first _ _ _ _ _ Hh) as (_ & He & Hlt & Hne).
  pose proof (record_length e He). destruct Hh as ([] & [_ Hrs]%Forall_cons & Hl).
  assert (∀ x, u32 (u32 x) = u32 x) as Hu by (intros x; unfold u32; by rewrite Z.mod_mod by lia).
  unfold stale in Hns. unfold taken.
  destruct Hl as [(Hle & Hat & Hb)|(rs1 & rs2 & Ers & Hne1 & Hw & Ht & Hrem & Hsz & Hat1 & Hat2 & Hb2)].
  - rewrite bool_decide_true in Hns by done. cbn [andb] in Hns. rewrite Hns.
    apply at_mem_concat_cons in Hat as [_ Hat]. rewrite bytes_of_cons in Hb. pose proof (bytes_of_nonneg rs).
    split; [split; ringcbn; try (done || lia)|]. split; [done|]. left. unfold flat. ringcbn.
    split_and!; [lia| |lia]. by rewrite Z.add_assoc.
  - rewrite (bool_decide_true (_ ≠ _)), Ht by lia. cbn [andb]. destruct rs1 as [|e1 rs1]; [done|].
    injection Ers as <- ->. rewrite bytes_of_cons in Hsz. apply at_mem_concat_cons in Hat1 as [_ Hat1].
    apply Forall_app in Hrs as [Hrs1 Hrs2]. destruct (decide (rs1 = [])) as [->|Hne2].
    + rewrite bool_decide_true by (unfold bytes_of in Hsz; simpl in Hsz; lia).
      split; [split; ringcbn; try (done || lia)|]. split; [by apply Forall_app|]. left. unfold flat. ringcbn.
      rewrite Z.add_0_r. cbn [app]. split_and!; [lia|done|lia].
    + pose proof (bytes_of_pos _ Hrs1 Hne2). rewrite bool_decide_false by lia.
      split; [split; ringcbn; try (done || lia)|]. split; [by apply Forall_app|]. right. exists rs1, rs2. ringcbn.
      split_and!; try (done || lia). by rewrite Z.add_assoc.
Qed.

(** No padding is marked behind a flat ring. *)
Definition clean (r : dhd_dbg_ring) : Prop := rp r <= wp r -> tail_padded r = false.

Lemma clean_not_stale r e : clean r -> stale r e = false.
Proof.
  intros Hc. unfold stale. case_bool_decide; [|done]. rewrite Hc by done. by rewrite andb_false_r.
Qed.

Lemma taken_clean b m r e rs : holds b m r (e :: rs) -> clean r -> clean (taken r e).
Proof.
  intros Hh Hc. destruct (holds_first _ _ _ _ _ Hh) as (_ & He & Hlt & Hne). pose proof (record_length e He).
  destruct Hh as ([] & _ & Hl). unfold clean, taken.
  destruct Hl as [(Hle & _)|(rs1 & rs2 & Ers & Hne1 & Hw & Ht & _)].
  - rewrite (Hc Hle), andb_false_r. cbn [andb]. ringcbn. intros _. by apply Hc.
  - rewrite (bool_decide_true (_ ≠ _)), Ht by lia. cbn [andb]. case_bool_decide; ringcbn; [done|lia].
Qed.

Lemma taken_cfg r e : pull_inactive (taken r e) = pull_inactive r ∧ state (taken r e) = state r
  ∧ ring_size (taken r e) = ring_size r ∧ wp (taken r e) = wp r
  ∧ read_bytes (stat (taken r e)) = u32 (read_bytes (stat r) + Z.of_nat (length e)).
Proof. unfold taken. ringcbn. by destruct (_ && _). Qed.

(** The records a reader with [n] bytes of room gets, and those that stay: it
    stops at the first that does not fit, and behind one without payload when
    headers are stripped. *)
Fixpoint fit (strip : bool) (n : Z) (rs : list (list Z)) : list (list Z) * list (list Z) :=
  match rs with
  | [] => ([], [])
  | e :: rs' =>
      let o := delivered strip e in
      if bool_decide (n = 0) || bool_decide (Z.of_nat (length o) > n) then ([], rs)
      else if bool_decide (length o = 0%nat) then ([], rs')
      else let '(os, rest) := fit strip (n - Z.of_nat (length o)) rs' in (o :: os, rest)
  end.

Lemma pull_single_none b m r da n strip : holds b m r [] ->
  dhd_dbg_ring_pull_single (Some r) (Some da) n strip m = Some (0, Some r, m).
Proof.
  intros Hh. unfold dhd_dbg_ring_pull_single. rewrite (bool_decide_true _ (holds_nil b m r Hh)).
  case_bool_decide; [done|]. by destruct (_ && _).
Qed.

Lemma pull_single_short b m r e rs da n strip :
  holds b m r (e :: rs) -> n < Z.of_nat (length (delivered strip e)) ->
  dhd_dbg_ring_pull_single (Some r) (Some da) n strip m = Some (0, Some r, m).
Proof.
  intros Hh Hn. destruct (holds_first _ _ _ _ _ Hh) as (Hat & He & Hlt & Hne).
  pose proof (record_length e He) as Hle. pose proof (length_delivered strip e He) as Hld. pose proof Hh as ([] & _).
  pose proof He as (Hb & _ & Hv). unfold dhd_dbg_ring_pull_single.
  case_bool_decide; [done|]. destruct (_ && _); [done|].
  rewrite bool_decide_false, wf_buf by done. cbn [mbind option_bind].
  rewrite (record_len _ _ _ Hat He). cbn [mbind option_bind].
  rewrite (u32_small (Z.of_nat (length e))), u32_small, bool_decide_false by lia.
  rewrite (entry_len_at _ _ _ Hat Hb), Hv by lia. cbn [mbind option_bind]. unfold DBG_RING_ENTRY_SIZE in *.
  destruct strip; by rewrite bool_decide_true by lia.
Qed.

Lemma pull_loop_spec fuel : ∀ b m r rs da n strip total num,
  holds b m r rs -> clean r -> readable_ring r -> 0 <= n < 2147483648 -> (Z.to_nat n < fuel)%nat ->
  readable m da n = true -> disjoint_areas da n b (ring_size r) ->
  0 <= total -> total + n < 2147483648 -> 0 <= num -> num + n < 2147483648 ->
  ∀ os rest, fit strip n rs = (os, rest) ->
  ∃ r' m', pull_loop fuel r da n strip total num m = Some (total + bytes_of os, num + Z.of_nat (length os), r', m')
  ∧ at_mem m' da (concat os) ∧ holds b m' r' rest ∧ clean r'
  ∧ read_bytes (stat r') = u32 (read_bytes (stat r) + (bytes_of rs - bytes_of rest)) ∧ only_in da n m m'.
Proof.
  induction fuel as [|fuel IH]; intros b m r rs da n strip total num Hh Hc Hrd Hn Hf Hda Hdis Ht Htn Hk Hkn os rest Hfit;
    [lia|]. cbn [pull_loop]. pose proof (proj1 (readable_spec _ _ _) Hda).
  assert (∀ rest', rest' = rs -> ∃ r' m', Some (total, num, r, m)
       = Some (total + bytes_of [], num + Z.of_nat (@length (list Z) []), r', m')
       ∧ at_mem m' da (concat []) ∧ holds b m' r' rest' ∧ clean r'
       ∧ read_bytes (stat r') = u32 (read_bytes (stat r) + (bytes_of rs - bytes_of rest'))
       ∧ only_in da n m m') as Hstop.
  { intros rest' ->. exists r, m. unfold bytes_of at 1. simpl. rewrite !Z.add_0_r, Z.sub_diag, Z.add_0_r.
    split_and!; try done; [apply at_mem_nil; lia|]. by destruct Hh as [[] _]. }
  destruct (decide (n = 0)) as [->|Hn0].
  { rewrite bool_decide_false by lia.
    assert (os = [] ∧ rest = rs) as [-> ->] by (destruct rs; injection Hfit; auto). by apply Hstop. }
  rewrite bool_decide_true by lia. destruct rs as [|e rs].
  { rewrite (pull_single_none b m r da n strip Hh). cbn [mbind option_bind]. rewrite bool_decide_true by done.
    injection Hfit as <- <-. by apply Hstop. }
  cbn [fit] in Hfit. rewrite (bool_decide_false (n = 0)) in Hfit by done. cbn [orb] in Hfit.
  set (o := delivered strip e) in *. destruct (decide (Z.of_nat (length o) > n)) as [Hbig|Hsmall].
  { rewrite bool_decide_true in Hfit by done. injection Hfit as <- <-.
    rewrite (pull_single_short b m r e rs) by (done || (subst o; lia)). cbn [mbind option_bind].
    rewrite bool_decide_true by done. by apply Hstop. }
  rewrite bool_decide_false in Hfit by done.
  assert (readable m da (Z.of_nat (length o)) = true) as Hro by (apply readable_spec; lia).
  assert (disjoint_areas da (Z.of_nat (length o)) b (ring_size r)) as Hdo by (unfold disjoint_areas in *; lia).
  rewrite (pull_single_some b m r e rs da n strip Hh Hrd) by (done || (subst o; lia)).
  fold o. cbn [mbind option_bind]. rewrite s32_small by lia.
  destruct (taken_cfg r e) as (Hpi & Hst & Hsz & Hwp & Hrb).
  pose proof (taken_holds b m r e rs Hh (clean_not_stale r e Hc)) as Hh1.
  assert (only_in da (Z.of_nat (length o)) m (splice m da o)) as Ho1 by (apply only_in_splice; done || lia).
  pose proof (only_in_holds b m (splice m da o) (taken r e) rs da _ Hh1 Ho1 ltac:(by rewrite Hsz)) as Hh2.
  pose proof (taken_clean b m r e rs Hh Hc) as Hc2. rewrite (bytes_of_cons e rs).
  destruct (decide (length o = 0%nat)) as [Hz|Hz].
  { rewrite bool_decide_true in Hfit |- * by (done || lia). injection Hfit as <- <-.
    exists (taken r e), (splice m da o). change (bytes_of []) with 0. change (Z.of_nat (length [])) with 0.
    rewrite !Z.add_0_r.
    assert (o = []) as Eo by by apply length_zero_iff_nil. rewrite Eo, splice_nil in * by lia.
    do 2 (split; [first [done | apply at_mem_nil; lia]|]). split; [done|]. split; [done|].
    split; [rewrite Hrb; f_equal; lia|apply only_in_refl]. }
  rewrite bool_decide_false in Hfit |- * by lia. destruct (fit _ _ rs) as [os' rest'] eqn:Ef. injection Hfit as <- <-.
  rewrite !(u32_small (n - _)), !s32_small by lia.
  destruct (IH b (splice m da o) (taken r e) rs (da + Z.of_nat (length o)) (n - Z.of_nat (length o)) strip
    (total + Z.of_nat (length o)) (num + 1)) with (os := os') (rest := rest') as (r' & m' & E & Hat & Hh' & Hc' & Hrb' & Ho2);
    try done; try lia.
  - unfold readable_ring. by rewrite Hpi, Hst.
  - rewrite readable_splice by done. apply readable_spec. lia.
  - rewrite Hsz. unfold disjoint_areas in *. lia.
  - exists r', m'. rewrite E, bytes_of_cons. cbn [length]. split_and!; try done.
    + do 2 f_equal. f_equal; f_equal; lia.
    + apply at_mem_concat_cons. split; [|done].
      eapply only_in_at; [exact Ho2|by apply at_mem_splice_same|]. unfold disjoint_areas. lia.
    + rewrite Hrb', Hrb. unfold u32. rewrite Zplus_mod_idemp_l. f_equal. lia.
    + destruct Ho1 as [L1 H1], Ho2 as [L2 H2]. split; [congruence|]. intros q k Hq Hd. unfold disjoint_areas in Hd.
      rewrite H2, H1; [done|done|unfold disjoint_areas; lia|done|unfold disjoint_areas; lia].
Qed.

(** C25.  A pull from a ring that holds whole records ([holds]) and has no stale
    padding mark ([clean]: padding is only marked while the write pointer is behind
    the read pointer) takes the oldest records in order, as many as fit the reader's buffer, and puts exactly their
    bytes there (their payloads when headers are stripped); the other records
    stay, and the ring is again without a stale mark.  When headers are stripped
    and a record without payload comes, the pull ends there; that record is gone
    and not counted ([fit]).  A push can leave a stale mark, and then records are
    delivered twice ([dbg_ring_stale_pad]). *)
Theorem dbg_ring_pull_spec (b : Z) (m : mem) (r : dhd_dbg_ring) (rs : list (list Z)) (da n : Z) (strip : bool)
    (num : Z) (os rest : list (list Z)) :
  holds b m r rs -> clean r -> readable_ring r -> 0 <= n < 2147483648 -> 0 <= num -> num + n < 2147483648 ->
  readable m da n = true -> disjoint_areas da n b (ring_size r) -> fit strip n rs = (os, rest) ->
  ∃ r' m', dhd_dbg_ring_pull (Some r) (Some da) n strip num m
           = Some (bytes_of os, num + Z.of_nat (length os), Some r', m')
  ∧ at_mem m' da (concat os) ∧ holds b m' r' rest ∧ clean r'
  ∧ read_bytes (stat r') = u32 (read_bytes (stat r) + (bytes_of rs - bytes_of rest)) ∧ only_in da n m m'.
Proof.
  intros Hh Hc Hrd Hn Hk Hkn Hda Hdis Hfit. unfold dhd_dbg_ring_pull. rewrite (readable_ring_bool r Hrd).
  destruct (pull_loop_spec (Z.to_nat n + 1) b m r rs da n strip 0 num) with (os := os) (rest := rest)
    as (r' & m' & E & H); try done; try lia.
  rewrite E. cbn [mbind option_bind]. rewrite Z.add_0_l. eauto.
Qed.

Lemma dbg_ring_pull_spec_witness :
  ∃ r' m', dhd_dbg_ring_pull (Some (demo_two.1)) (Some 200) 60 true 0 (demo_two.2) = Some (46, 2, Some r', m')
  ∧ at_mem m' 200 (replicate 46 3) ∧ holds 0 m' r' [].
Proof.
  destruct (dbg_ring_pull_spec 0 (demo_two.2) (demo_two.1) [rec2; rec3] 200 60 true 0
              [replicate 38 3; replicate 8 3] []) as (r' & m' & E & Ha & Hh & _).
  - exact demo_two_holds.
  - intros _. reflexivity.
  - right. reflexivity.
  - lia.
  - lia.
  - lia.
  - reflexivity.
  - unfold disjoint_areas. cbn. lia.
  - reflexivity.
  - exists r', m'. split; [exact E|]. split; [exact Ha|exact Hh].
Defined.

(** After the pull of the first of them. *)
Definition demo_stale : dhd_dbg_ring := Eval vm_compute in taken (demo_four.1) rec2.

Lemma demo_stale_holds : holds 0 (demo_four.2) demo_stale [rec3; rec3].
Proof.
  split; [split; cbn; done || lia|]. split; [apply Forall_cons_2; [apply rec3_ok|apply Forall_singleton, rec3_ok]|].
  left. split; [cbn; lia|]. split; [split; reflexivity|reflexivity].
Qed.

(** Once the reader or the writer has emptied a padded ring, the mark of the
    padding stays although the writer has gone back to the start.  A reader
    that then reaches the marked distance from the end while records follow is
    sent back to the start of the buffer: the records found there, among them
    the one just delivered, are held again. *)
Theorem dbg_ring_stale_pad (b : Z) (m : mem) (r : dhd_dbg_ring) (e : list Z) (rs all : list (list Z)) (da n : Z) (strip : bool) :
  holds b m r (e :: rs) -> readable_ring r -> stale r e = true ->
  0 < n < 4294967296 -> Z.of_nat (length (delivered strip e)) <= n ->
  readable m da (Z.of_nat (length (delivered strip e))) = true ->
  disjoint_areas da (Z.of_nat (length (delivered strip e))) b (ring_size r) ->
  Forall record_ok all -> at_mem m b (concat all) -> bytes_of all = wp r ->
  ∃ r' m', dhd_dbg_ring_pull_single (Some r) (Some da) n strip m
           = Some (Z.of_nat (length (delivered strip e)), Some r', m')
  ∧ rp r' = 0 ∧ wp r' = wp r ∧ clean r' ∧ holds b m' r' all.
Proof.
  intros Hh Hrd Hs Hn Hfit Hda Hdis Hall Hat Hb. pose proof (proj1 (readable_spec _ _ _) Hda).
  rewrite (pull_single_some b m r e rs da n strip) by done. eexists _, _. split; [done|].
  unfold stale in Hs. rewrite !andb_true_iff, !bool_decide_eq_true in Hs. destruct Hs as (((Hle & Hne) & Ht) & Hge).
  assert (rp (taken r e) = 0 ∧ tail_padded (taken r e) = false ∧ rem_len (taken r e) = 0) as (Hr0 & Ht0 & Hm0).
  { unfold taken. rewrite !bool_decide_true, Ht by done. by ringcbn. }
  destruct (taken_cfg r e) as (Hpi & Hst & Hsz & Hwp & Hrb). split; [done|]. split; [done|]. split; [by intros _|].
  apply only_in_holds with (p := da) (n := Z.of_nat (length (delivered strip e))) (m := m);
    [|by apply only_in_splice; (done || lia)|by rewrite Hsz].
  destruct Hh as ([] & _ & _). split; [|split; [done|]].
  - split; rewrite ?Hsz, ?Hwp, ?Hr0, ?Hm0; try (done || lia).
    + unfold taken. by destruct (_ && _).
    + rewrite Hrb. unfold u32. by rewrite Z.mod_mod by lia.
  - left. unfold flat. rewrite Hr0, Hwp, !Z.add_0_r, Z.sub_0_r. split_and!; [lia|done|done].
Qed.

(** The four pushes of [demo_four], one pull, and the next pull delivers the
    first of the two remaining records and makes the ring hold all three. *)
Lemma dbg_ring_stale_pad_witness :
  pushes [100; 112; 124; 124] demo_ring demo_mem = Some demo_four
  ∧ (∃ m', dhd_dbg_ring_pull_single (Some (demo_four.1)) (Some 200) 50 false (demo_four.2)
           = Some (50, Some demo_stale, m'))
  ∧ ∃ r' m', dhd_dbg_ring_pull_single (Some demo_stale) (Some 200) 50 false (demo_four.2) = Some (20, Some r', m')
    ∧ holds 0 m' r' [rec2; rec3; rec3].
Proof.
  split; [vm_compute; reflexivity|]. split; [eexists; vm_compute; reflexivity|].
  destruct (dbg_ring_stale_pad 0 (demo_four.2) demo_stale rec3 [rec3] [rec2; rec3; rec3] 200 50 false)
    as (r' & m' & E & _ & _ & _ & Hh).
  - exact demo_stale_holds.
  - right. reflexivity.
  - reflexivity.
  - lia.
  - vm_compute. discriminate.
  - reflexivity.
  - unfold disjoint_areas. cbn. lia.
  - apply Forall_cons_2; [apply rec2_ok|]. apply Forall_cons_2; [apply rec3_ok|]. apply Forall_singleton, rec3_ok.
  - split; reflexivity.
  - reflexivity.
  - exists r', m'. split; [exact E|exact Hh].
Defined.

(** A record of exactly the ring's size is not refused: the push fails on the
    way and leaves a ring that reads as holding records of zeros. *)
Example push_exact_size :
  let m := replicate 100 0 ++ (88 :: replicate 11 0) ++ replicate 88 3 in
  ∃ r m', dhd_dbg_ring_push (Some demo_ring) (Some 100) (Some 112) false m = Some (BCME_BUFTOOSHORT, Some r, m')
    ∧ rp r = 96 ∧ wp r = 0.
Proof. vm_compute. by eexists _, _. Qed.

(** The wrapped case of dhd_dbg_ring_get_pending_len is one byte short. *)
Lemma pending_len_wrapped r :
  0 <= written_bytes (stat r) < read_bytes (stat r) -> read_bytes (stat r) < 4294967296 ->
  dhd_dbg_ring_get_pending_len r = u32 (written_bytes (stat r) - read_bytes (stat r)) - 1.
Proof.
  intros Hw Hr. unfold dhd_dbg_ring_get_pending_len, PENDING_LEN_MAX.
  rewrite bool_decide_false, bool_decide_true by lia. rewrite (u32_small (4294967295 - _)), u32_small by lia.
  unfold u32. rewrite <-(Z.mod_add _ 1) by lia. rewrite Z.mod_small; lia.
Qed.
