(* ===== verification/Bloom.v ===== *)
(** * bcmbloom.c: the Bloom filter (model)

    The hash functions, and the contexts they read, belong to the caller: they
    are values of the model.  The memory callbacks are too: whether an
    allocation succeeds is an argument, and what is freed is returned.  [None] is
    an access outside a block, a call through NULL or a remainder by zero. *)

From S2P Require Import Prelude.

Definition BCME_OK : Z := 0.
Definition BCME_BADARG : Z := -2.
Definition BCME_BUFTOOSHORT : Z := -14.
Definition BCME_UNSUPPORTED : Z := -23.
Definition BCME_NOMEM : Z := -27.
Definition BCME_NOTFOUND : Z := -30.
Definition BCME_NORESOURCE : Z := -22.

(** [hash(ctx, idx, tag, len)], a uint. *)
Abbreviation bcm_bloom_hash_t := (Z -> Z -> list Z -> Z).

Record bcm_bloom_filter := mk_bloom {
  cb_ctx : Z;
  max_hash : Z;                          (* uint *)
  hash : list (option bcm_bloom_hash_t); (* [max_hash] *)
  filter_size : Z;                       (* uint, in bytes *)
  filter : option (list Z)
}.

Definition BLOOM_BIT_LEN (x : Z) : Z := u32 (Z.shiftl x 3).

(** ** The bit macros of bcmutils.h *)

Definition setbit (a : list Z) (i : Z) : option (list Z) :=
  b ← a !! Z.to_nat (i / 8);
  Some (<[Z.to_nat (i / 8) := u8 (Z.lor b (Z.shiftl 1 (i mod 8)))]> a).

Definition isclr (a : list Z) (i : Z) : option bool :=
  b ← a !! Z.to_nat (i / 8);
  Some (bool_decide (Z.land b (Z.shiftl 1 (i mod 8)) = 0)).

(** [a % b] on uint. *)
Definition umod (a b : Z) : option Z := if bool_decide (b = 0) then None else Some (a mod b).

(** ** Creation and destruction *)

Inductive block := FilterBlock | HashBlock | StructBlock.

(** The blocks freed, in order, and [*bloom]. *)
Definition bcm_bloom_destroy (bloom : option (option bcm_bloom_filter)) (has_filter has_hash free_cb : bool)
    : list block * option (option bcm_bloom_filter) :=
  match bloom with
  | Some (Some _) =>
      if free_cb then
        ((if has_filter then [FilterBlock] else []) ++ (if has_hash then [HashBlock] else []) ++ [StructBlock],
         Some None)
      else ([], bloom)
  | _ => ([], bloom)
  end.

(** [alloc_cb]: [None] when NULL, else whether its calls for the structure, the
    hash array and the filter succeed.  The hash array of 64-bit pointers is
    cleared over [8 * max_hash] bytes, but a uint of them is asked for. *)
Definition bcm_bloom_create (alloc_cb : option (bool * bool * bool)) (free_cb : bool) (ctx max_hash' filter_size' : Z)
    (bloom : bool) : option (Z * list block * option bcm_bloom_filter) :=
  match alloc_cb with
  | Some (a1, a2, a3) =>
      if negb bloom || bool_decide (max_hash' = 0) then Some (BCME_BADARG, [], None)
      else if negb a1 then Some (BCME_NOMEM, [], None)
      else
        let hs := replicate (Z.to_nat max_hash') None in
        let bp := mk_bloom ctx max_hash' hs 0 None in
        if negb a2 then Some (BCME_NOMEM, fst (bcm_bloom_destroy (Some (Some bp)) false false free_cb), None)
        else if bool_decide (4294967296 <= 8 * max_hash') then None
        else if bool_decide (filter_size' > 0) then
          if negb a3 then Some (BCME_NOMEM, fst (bcm_bloom_destroy (Some (Some bp)) false true free_cb), None)
          else Some (BCME_OK, [], Some (mk_bloom ctx max_hash' hs filter_size' (Some (replicate (Z.to_nat filter_size') 0))))
        else Some (BCME_OK, [], Some bp)
  | None => Some (BCME_BADARG, [], None)
  end.

(** ** Hash functions *)

(** The first free slot from [i] on, with [n] slots left. *)
Fixpoint free_slot (n : nat) (i : Z) (hs : list (option bcm_bloom_hash_t)) : option Z :=
  match n with
  | O => Some i
  | S n => h ← hs !! Z.to_nat i;
           match h with None => Some i | Some _ => free_slot n (i + 1) hs end
  end.

(** The result, [*idx] when it is set, and the filter. *)
Definition bcm_bloom_add_hash (bp : option bcm_bloom_filter) (h : option bcm_bloom_hash_t) (idx : bool)
    : option (Z * option Z * option bcm_bloom_filter) :=
  match bp, h with
  | Some b, Some h =>
      if negb idx then Some (BCME_BADARG, None, bp)
      else
        i ← free_slot (Z.to_nat (max_hash b)) 0 (hash b);
        if bool_decide (i >= max_hash b) then Some (BCME_NORESOURCE, None, bp)
        else Some (BCME_OK, Some i,
                   Some (mk_bloom (cb_ctx b) (max_hash b) (<[Z.to_nat i := Some h]> (hash b)) (filter_size b) (filter b)))
  | _, _ => Some (BCME_BADARG, None, bp)
  end.

Definition bcm_bloom_remove_hash (bp : option bcm_bloom_filter) (idx : Z) : option (Z * option bcm_bloom_filter) :=
  match bp with
  | None => Some (BCME_BADARG, None)
  | Some b =>
      if bool_decide (idx >= max_hash b) then Some (BCME_NOTFOUND, bp)
      else
        _ ← hash b !! Z.to_nat idx;
        Some (BCME_OK, Some (mk_bloom (cb_ctx b) (max_hash b) (<[Z.to_nat idx := None]> (hash b)) (filter_size b) (filter b)))
  end.

(** ** Members *)

(** The loop of is_member over the slots from [i] on, with [n] left. *)
Fixpoint member_loop (n : nat) (i ctx : Z) (hs : list (option bcm_bloom_hash_t)) (tag buf : list Z) (buf_len : Z) : option Z :=
  match n with
  | O => Some BCME_OK
  | S n =>
      h ← hs !! Z.to_nat i;
      match h with
      | None => member_loop n (i + 1) ctx hs tag buf buf_len
      | Some h =>
          p ← umod (h ctx i tag) (BLOOM_BIT_LEN buf_len);
          clear ← isclr buf p;
          if clear : bool then Some BCME_NOTFOUND else member_loop n (i + 1) ctx hs tag buf buf_len
      end
  end.

(** The error code; [tag] NULL is [None], and [buf] likewise. *)
Definition member_err (bp : option bcm_bloom_filter) (tag : option (list Z)) (buf : option (list Z)) : option Z :=
  match tag with
  | Some ((_ :: _) as t) =>
      b ← bp;
      match (match buf with Some ((_ :: _) as l) => Some (l, Z.of_nat (length l))
             | _ => match filter b with Some l => Some (l, filter_size b) | None => None end end) with
      | None => Some BCME_OK
      | Some (l, len) => member_loop (Z.to_nat (max_hash b)) 0 (cb_ctx b) (hash b) t l len
      end
  | _ => Some BCME_OK
  end.

(** The function returns the error code as a [bool]. *)
Definition bcm_bloom_is_member (bp : option bcm_bloom_filter) (tag : option (list Z)) (buf : option (list Z)) : option bool :=
  err ← member_err bp tag buf; Some (bool_decide (err ≠ 0)).

Fixpoint add_loop (n : nat) (i ctx : Z) (hs : list (option bcm_bloom_hash_t)) (tag fl : list Z) (size : Z) : option (list Z) :=
  match n with
  | O => Some fl
  | S n =>
      h ← hs !! Z.to_nat i;
      match h with
      | None => add_loop n (i + 1) ctx hs tag fl size
      | Some h =>
          p ← umod (h ctx i tag) (BLOOM_BIT_LEN size);
          fl ← setbit fl p;
          add_loop n (i + 1) ctx hs tag fl size
      end
  end.

Definition bcm_bloom_add_member (bp : option bcm_bloom_filter) (tag : option (list Z))
    : option (Z * option bcm_bloom_filter) :=
  match bp, tag with
  | Some b, Some ((_ :: _) as t) =>
      match filter b with
      | None => Some (BCME_UNSUPPORTED, bp)
      | Some fl =>
          fl ← add_loop (Z.to_nat (max_hash b)) 0 (cb_ctx b) (hash b) t fl (filter_size b);
          Some (BCME_OK, Some (mk_bloom (cb_ctx b) (max_hash b) (hash b) (filter_size b) (Some fl)))
      end
  | _, _ => Some (BCME_BADARG, bp)
  end.

(** The result, [*buf_len] when it is asked for, and the bytes copied to
    [buf], if any. *)
Definition bcm_bloom_get_filter_data (bp : option bcm_bloom_filter) (buf_size : Z) : Z * option Z * option (list Z) :=
  match bp with
  | None => (BCME_BADARG, None, None)
  | Some b =>
      if bool_decide (buf_size < filter_size b) then (BCME_BUFTOOSHORT, Some (filter_size b), None)
      else match filter b with
           | Some fl => if bool_decide (filter_size b ≠ 0)
                        then (BCME_OK, Some (filter_size b), Some (take (Z.to_nat (filter_size b)) fl))
                        else (BCME_OK, Some (filter_size b), None)
           | None => (BCME_OK, Some (filter_size b), None)
           end
  end.
