(* ===== verification/BloomTheorems.v ===== *)
(** * The Bloom filter: its properties *)

From S2P Require Import Prelude Mem Bloom.

(** ** Bits of a byte array *)

Definition bitset (fl : list Z) (j : Z) : bool :=
  match fl !! Z.to_nat (j / 8) with Some b => Z.testbit b (j mod 8) | None => false end.

Lemma isclr_bitset fl j : 0 <= j < 8 * Z.of_nat (length fl) -> isclr fl j = Some (negb (bitset fl j)).
Proof.
  intros Hj. assert (0 <= j / 8 < Z.of_nat (length fl)) by (split; [apply Z.div_pos; lia|apply Z.div_lt_upper_bound; lia]).
  pose proof (Z.mod_pos_bound j 8 ltac:(lia)). unfold isclr, bitset.
  destruct (lookup_lt_is_Some_2 fl (Z.to_nat (j / 8))) as [b Hb]; [lia|]. rewrite Hb. cbn [mbind option_bind]. f_equal.
  destruct (Z.testbit b (j mod 8)) eqn:E; cbn [negb].
  - apply bool_decide_false. intros Hz. assert (Z.testbit (Z.land b (Z.shiftl 1 (j mod 8))) (j mod 8) = true) as Ht.
    { rewrite Z.land_spec, E, Z.shiftl_spec, Z.sub_diag by lia. done. }
    rewrite Hz, Z.bits_0 in Ht. done.
  - apply bool_decide_true. apply Z.bits_inj'. intros i Hi. rewrite Z.land_spec, Z.bits_0, Z.shiftl_spec by lia.
    destruct (decide (i = j mod 8)) as [->|Hne]; [by rewrite E|].
    destruct (decide (i < j mod 8)); [by rewrite (Z.testbit_neg_r 1), andb_false_r by lia|].
    replace (Z.testbit 1 (i - j mod 8)) with false; [by rewrite andb_false_r|].
    symmetry. apply (Z.bits_above_log2 1); simpl; lia.
Qed.

Lemma testbit_set b k i : 0 <= b < 256 -> 0 <= k < 8 -> 0 <= i < 8 ->
  Z.testbit (u8 (Z.lor b (Z.shiftl 1 k))) i = Z.testbit b i || bool_decide (i = k).
Proof.
  intros Hb Hk Hi. unfold u8. change 256 with (2 ^ 8). rewrite Z.mod_pow2_bits_low, Z.lor_spec, Z.shiftl_spec by lia.
  f_equal. case_bool_decide as E; [by rewrite E, Z.sub_diag|].
  destruct (decide (i < k)); [by rewrite Z.testbit_neg_r by lia|].
  apply (Z.bits_above_log2 1); simpl; lia.
Qed.

Lemma setbit_spec fl j : bytes_ok fl -> 0 <= j < 8 * Z.of_nat (length fl) ->
  ∃ fl', setbit fl j = Some fl' ∧ length fl' = length fl ∧ bytes_ok fl'
  ∧ ∀ k, 0 <= k -> bitset fl' k = bitset fl k || bool_decide (k = j).
Proof.
  intros Hok Hj. assert (0 <= j / 8 < Z.of_nat (length fl)) by (split; [apply Z.div_pos; lia|apply Z.div_lt_upper_bound; lia]).
  pose proof (Z.mod_pos_bound j 8 ltac:(lia)). unfold setbit, bitset.
  destruct (lookup_lt_is_Some_2 fl (Z.to_nat (j / 8))) as [b Hb]; [lia|]. rewrite Hb. cbn [mbind option_bind].
  assert (0 <= b < 256) as Hbr by (eapply (Forall_lookup_1 _ _ _ _ Hok Hb)).
  eexists. split; [done|]. split; [by rewrite length_insert|].
  split; [apply Forall_insert; [done|apply u8_range]|]. intros k Hk.
  pose proof (Z.div_mod j 8 ltac:(lia)) as Dj. pose proof (Z.div_mod k 8 ltac:(lia)) as Dk.
  pose proof (Z.mod_pos_bound k 8 ltac:(lia)). pose proof (Z.div_pos k 8 Hk ltac:(lia)).
  destruct (decide (k / 8 = j / 8)) as [Eq|Eq].
  - rewrite Eq, list_lookup_insert_eq, Hb, testbit_set by lia. f_equal. apply bool_decide_ext. lia.
  - rewrite list_lookup_insert_ne by lia. rewrite (bool_decide_false (k = j)) by (intros ->; lia).
    by rewrite orb_false_r.
Qed.

(** ** The positions of a tag *)

Fixpoint positions_from (size ctx i : Z) (hs : list (option bcm_bloom_hash_t)) (t : list Z) : list Z :=
  match hs with
  | [] => []
  | Some h :: hs => h ctx i t mod (8 * size) :: positions_from size ctx (i + 1) hs t
  | None :: hs => positions_from size ctx (i + 1) hs t
  end.

Definition positions (b : bcm_bloom_filter) (t : list Z) : list Z :=
  positions_from (filter_size b) (cb_ctx b) 0 (hash b) t.

(** A filter that keeps its own bytes, of a size whose bits can be counted. *)
Record bloom_wf (b : bcm_bloom_filter) (fl : list Z) : Prop := {
  bw_hash : Z.of_nat (length (hash b)) = max_hash b;
  bw_filter : filter b = Some fl;
  bw_size : Z.of_nat (length fl) = filter_size b;
  bw_range : 0 < filter_size b < 536870912;
  bw_bytes : bytes_ok fl
}.

Lemma bit_len size : 0 < size < 536870912 -> BLOOM_BIT_LEN size = 8 * size.
Proof. intros H. unfold BLOOM_BIT_LEN. rewrite Z.shiftl_mul_pow2, u32_small by lia. lia. Qed.

Lemma umod_ok p size : 0 < size < 536870912 ->
  umod p (BLOOM_BIT_LEN size) = Some (p mod (8 * size)) ∧ 0 <= p mod (8 * size) < 8 * size.
Proof.
  intros H. unfold umod. rewrite bit_len, bool_decide_false by lia.
  split; [done|]. apply Z.mod_pos_bound. lia.
Qed.

Lemma lookup_drop_cons {A} (l : list A) i x r : drop i l = x :: r -> l !! i = Some x ∧ drop (S i) l = r.
Proof.
  intros H. split.
  - rewrite <-(Nat.add_0_r i), <-lookup_drop, H. done.
  - rewrite <-Nat.add_1_r, <-drop_drop, H. done.
Qed.

Lemma add_loop_spec ctx hs t size rest : ∀ i fl,
  0 < size < 536870912 -> Z.of_nat (length fl) = size -> bytes_ok fl -> drop i hs = rest ->
  ∃ fl', add_loop (length rest) (Z.of_nat i) ctx hs t fl size = Some fl' ∧ Z.of_nat (length fl') = size ∧ bytes_ok fl'
  ∧ ∀ k, 0 <= k -> bitset fl' k = bitset fl k || bool_decide (k ∈ positions_from size ctx (Z.of_nat i) rest t).
Proof.
  induction rest as [|h rest IH]; intros i fl Hs Hl Hb Hd; cbn [length add_loop].
  - exists fl. split_and!; [done..|]. intros k _. rewrite bool_decide_false by apply not_elem_of_nil. by rewrite orb_false_r.
  - apply lookup_drop_cons in Hd as [Hh Hd]. rewrite Nat2Z.id, Hh. cbn [mbind option_bind].
    replace (Z.of_nat i + 1) with (Z.of_nat (S i)) by lia. destruct h as [h|].
    + destruct (umod_ok (h ctx (Z.of_nat i) t) size Hs) as [-> Hp]. cbn [mbind option_bind].
      destruct (setbit_spec fl (h ctx (Z.of_nat i) t mod (8 * size)) Hb) as (fl1 & -> & Hl1 & Hb1 & Hset); [lia|].
      cbn [mbind option_bind]. destruct (IH (S i) fl1 Hs ltac:(lia) Hb1 Hd) as (fl' & -> & Hl' & Hb' & Hset').
      exists fl'. split_and!; [done..|]. intros k Hk. rewrite Hset', Hset by done. rewrite <-orb_assoc. f_equal.
      replace (Z.of_nat (S i)) with (Z.of_nat i + 1) by lia. cbn [positions_from].
      destruct (decide (k = h ctx (Z.of_nat i) t mod (8 * size))) as [->|Hne].
      * rewrite bool_decide_true by done. cbn [orb]. symmetry. apply bool_decide_true. by left.
      * rewrite (bool_decide_false (k = _)) by done. cbn [orb]. apply bool_decide_ext. rewrite elem_of_cons. tauto.
    + destruct (IH (S i) fl Hs Hl Hb Hd) as (fl' & -> & Hl' & Hb' & Hset'). exists fl'. split_and!; [done..|].
      intros k Hk. rewrite Hset' by done. by replace (Z.of_nat (S i)) with (Z.of_nat i + 1) by lia.
Qed.

Lemma member_loop_spec ctx hs t size rest fl : ∀ i,
  0 < size < 536870912 -> Z.of_nat (length fl) = size -> drop i hs = rest ->
  member_loop (length rest) (Z.of_nat i) ctx hs t fl size
  = Some (if forallb (bitset fl) (positions_from size ctx (Z.of_nat i) rest t) then BCME_OK else BCME_NOTFOUND).
Proof.
  induction rest as [|h rest IH]; intros i Hs Hl Hd; cbn [length member_loop]; [done|].
  apply lookup_drop_cons in Hd as [Hh Hd]. rewrite Nat2Z.id, Hh. cbn [mbind option_bind].
  replace (Z.of_nat i + 1) with (Z.of_nat (S i)) by lia. destruct h as [h|].
  - destruct (umod_ok (h ctx (Z.of_nat i) t) size Hs) as [-> Hp]. cbn [mbind option_bind].
    rewrite isclr_bitset by lia. cbn [mbind option_bind positions_from forallb].
    destruct (bitset fl _); cbn [negb andb]; [|done]. rewrite IH by done.
    by replace (Z.of_nat (S i)) with (Z.of_nat i + 1) by lia.
  - rewrite IH by done. cbn [positions_from]. by replace (Z.of_nat (S i)) with (Z.of_nat i + 1) by lia.
Qed.

(** Adding the tags of a list. *)
Fixpoint add_all (ts : list (list Z)) (bp : option bcm_bloom_filter) : option (option bcm_bloom_filter) :=
  match ts with
  | [] => Some bp
  | t :: ts => '(_, bp) ← bcm_bloom_add_member bp (Some t); add_all ts bp
  end.

Definition with_filter (b : bcm_bloom_filter) (fl : list Z) : bcm_bloom_filter :=
  mk_bloom (cb_ctx b) (max_hash b) (hash b) (filter_size b) (Some fl).

Lemma add_all_spec ts : ∀ b fl, bloom_wf b fl -> Forall (λ t, t ≠ []) ts ->
  ∃ fl', add_all ts (Some b) = Some (Some (with_filter b fl')) ∧ bloom_wf (with_filter b fl') fl'
  ∧ ∀ k, 0 <= k -> bitset fl' k = bitset fl k || bool_decide (k ∈ concat (map (positions b) ts)).
Proof.
  induction ts as [|t ts IH]; intros b fl [] Hts; cbn [add_all].
  - exists fl. split; [destruct b; unfold with_filter; cbn in *; by rewrite bw_filter0|]. split; [by split|].
    intros k _. cbn [map concat]. rewrite bool_decide_false by apply not_elem_of_nil. by rewrite orb_false_r.
  - apply Forall_cons in Hts as [Ht Hts]. unfold bcm_bloom_add_member. destruct t as [|c t]; [done|].
    rewrite bw_filter0.
    destruct (add_loop_spec (cb_ctx b) (hash b) (c :: t) (filter_size b) (hash b) 0 fl) as (fl1 & E & Hl1 & Hb1 & Hset1); [done..|].
    replace (Z.to_nat (max_hash b)) with (length (hash b)) by lia. change 0 with (Z.of_nat 0). rewrite E.
    cbn [mbind option_bind]. fold (with_filter b fl1).
    destruct (IH (with_filter b fl1) fl1) as (fl' & -> & Hwf & Hset); [by split|done|].
    exists fl'. split; [done|]. split; [done|]. intros k Hk. rewrite Hset, Hset1 by done. rewrite <-orb_assoc. f_equal.
    cbn [map concat]. change (map (positions (with_filter b fl1)) ts) with (map (positions b) ts).
    change (positions_from (filter_size b) (cb_ctx b) (Z.of_nat 0) (hash b) (c :: t)) with (positions b (c :: t)).
    destruct (decide (k ∈ positions b (c :: t))) as [Hi|Hi].
    + rewrite bool_decide_true by done. cbn [orb]. symmetry. apply bool_decide_true. apply elem_of_app. by left.
    + rewrite (bool_decide_false (k ∈ positions b (c :: t))) by done. cbn [orb]. apply bool_decide_ext.
      rewrite elem_of_app. tauto.
Qed.

(** ** From creation on *)

Fixpoint add_hashes (hs : list bcm_bloom_hash_t) (bp : option bcm_bloom_filter) : option (option bcm_bloom_filter) :=
  match hs with
  | [] => Some bp
  | h :: hs => '(_, _, bp) ← bcm_bloom_add_hash bp (Some h) true; add_hashes hs bp
  end.

Definition build (ctx max size : Z) (hs : list bcm_bloom_hash_t) : option (option bcm_bloom_filter) :=
  '(_, _, bp) ← bcm_bloom_create (Some (true, true, true)) true ctx max size true; add_hashes hs bp.

Lemma free_slot_spec (l : list bcm_bloom_hash_t) r k n : (n = length l - k + S r)%nat -> (k <= length l)%nat ->
  free_slot n (Z.of_nat k) (map Some l ++ replicate (S r) None) = Some (Z.of_nat (length l)).
Proof.
  intros -> Hk. remember (length l - k)%nat as d eqn:Ed. revert k Hk Ed.
  induction d as [|d IH]; intros k Hk Ed; cbn [plus free_slot]; rewrite Nat2Z.id.
  - replace k with (length l) by lia.
    rewrite lookup_app_r by (rewrite length_map; lia). rewrite length_map, Nat.sub_diag. done.
  - destruct (lookup_lt_is_Some_2 l k) as [h Hh]; [lia|].
    rewrite lookup_app_l, list_lookup_fmap by (rewrite length_map; lia). rewrite Hh. cbn [mbind option_bind fmap option_fmap option_map].
    replace (Z.of_nat k + 1) with (Z.of_nat (S k)) by lia. apply IH; lia.
Qed.

Lemma add_hashes_spec hs : ∀ b (l : list bcm_bloom_hash_t) r,
  hash b = map Some l ++ replicate (length hs + r) None -> max_hash b = Z.of_nat (length l + (length hs + r)) ->
  ∃ b', add_hashes hs (Some b) = Some (Some b') ∧ hash b' = map Some (l ++ hs) ++ replicate r None
  ∧ max_hash b' = max_hash b ∧ cb_ctx b' = cb_ctx b ∧ filter_size b' = filter_size b ∧ filter b' = filter b.
Proof.
  induction hs as [|h hs IH]; intros b l r Hb Hm; cbn [add_hashes].
  - exists b. rewrite app_nil_r. done.
  - unfold bcm_bloom_add_hash. cbn [negb]. rewrite Hb, Hm, Nat2Z.id. cbn [length plus].
    change 0 with (Z.of_nat 0) at 1. rewrite free_slot_spec by lia. cbn [mbind option_bind].
    rewrite bool_decide_false by (cbn [length]; lia). rewrite Nat2Z.id. cbn [mbind option_bind].
    destruct (IH (mk_bloom (cb_ctx b) (max_hash b) (map Some (l ++ [h]) ++ replicate (length hs + r) None) (filter_size b) (filter b))
                (l ++ [h]) r) as (b' & E & Hh & Hrest); [done|cbn; rewrite Hm, length_app; cbn [length]; lia|].
    exists b'. rewrite <-app_assoc in Hh. cbn [length plus] in Hm. rewrite <-Hm.
    split; [|exact (conj Hh Hrest)]. rewrite <-E. do 3 f_equal.
    rewrite map_app, insert_app_r_alt by (rewrite length_map; lia).
    rewrite length_map, Nat.sub_diag, <-app_assoc. done.
Qed.

Lemma positions_from_none size ctx i n t : positions_from size ctx i (replicate n None) t = [].
Proof. revert i. induction n as [|n IH]; intros i; [done|]. apply IH. Qed.

Lemma build_spec ctx max size hs :
  0 < max < 536870912 -> 0 < size < 536870912 -> Z.of_nat (length hs) <= max ->
  ∃ b, build ctx max size hs = Some (Some b) ∧ bloom_wf b (replicate (Z.to_nat size) 0)
  ∧ hash b = map Some hs ++ replicate (Z.to_nat max - length hs) None ∧ cb_ctx b = ctx ∧ filter_size b = size.
Proof.
  intros Hm Hs Hl. unfold build, bcm_bloom_create. cbn [negb orb].
  rewrite !bool_decide_false, bool_decide_true by lia. cbn [mbind option_bind].
  edestruct (add_hashes_spec hs (mk_bloom ctx max (replicate (Z.to_nat max) None) size (Some (replicate (Z.to_nat size) 0)))
    [] (Z.to_nat max - length hs)) as (b & -> & Hh & Hmx & Hc & Hsz & Hf).
  - cbn [map app hash]. f_equal. lia.
  - cbn [max_hash length]. lia.
  - exists b. cbn [app] in Hh. split; [done|]. split; [|done]. split; rewrite ?Hsz, ?Hmx; cbn; try done.
    + rewrite Hh, length_app, length_map, length_replicate. lia.
    + rewrite length_replicate. lia.
    + apply Forall_replicate. lia.
Qed.

Lemma bitset_zero n k : bitset (replicate n 0) k = false.
Proof.
  unfold bitset. destruct (replicate n 0 !! _) as [b|] eqn:E; [|done].
  apply lookup_replicate in E as [-> _]. apply Z.bits_0.
Qed.

(** The bits of a query against a filter kept by [b], or any bytes given. *)
Lemma is_member_spec b fl t buf :
  Z.of_nat (length (hash b)) = max_hash b -> t ≠ [] -> 0 < Z.of_nat (length fl) < 536870912 ->
  (buf = Some fl ∨ (buf = None ∧ filter b = Some fl ∧ filter_size b = Z.of_nat (length fl))) ->
  bcm_bloom_is_member (Some b) (Some t) buf
  = Some (negb (forallb (bitset fl) (positions_from (Z.of_nat (length fl)) (cb_ctx b) 0 (hash b) t))).
Proof.
  intros Hm Ht Hl Hb. unfold bcm_bloom_is_member, member_err. destruct t as [|c t]; [done|]. cbn [mbind option_bind].
  assert ((match buf with Some ((_ :: _) as l) => Some (l, Z.of_nat (length l))
           | _ => match filter b with Some l => Some (l, filter_size b) | None => None end end)
          = Some (fl, Z.of_nat (length fl))) as ->.
  { destruct Hb as [->|(-> & -> & ->)]; [|done]. destruct fl; [simpl in Hl; lia|done]. }
  replace (Z.to_nat (max_hash b)) with (length (hash b)) by lia. change 0 with (Z.of_nat 0).
  rewrite (member_loop_spec _ (hash b) _ _ (hash b)) by done. cbn [mbind option_bind]. by destruct (forallb _ _).
Qed.

(** The positions of an added tag are hit, and taking a hash function away only
    takes positions away. *)
Lemma elem_concat_positions b ts t p : t ∈ ts -> p ∈ positions b t -> p ∈ concat (map (positions b) ts).
Proof.
  intros Ht Hp. apply list_elem_of_In, in_concat. exists (positions b t).
  split; [apply in_map|]; by apply list_elem_of_In.
Qed.

Lemma positions_remove size ctx hs t p : ∀ i k,
  p ∈ positions_from size ctx i (<[k := None]> hs) t -> p ∈ positions_from size ctx i hs t.
Proof.
  induction hs as [|h hs IH]; intros i [|k]; [done|done|..]; cbn [insert list_insert positions_from].
  - destruct h; [by right|done].
  - destruct h as [h|]; [|apply IH]. intros [->|Hp]%elem_of_cons; [by left|right]. by eapply IH.
Qed.

Lemma positions_range size ctx hs t p : 0 < size -> ∀ i, p ∈ positions_from size ctx i hs t -> 0 <= p.
Proof.
  intros Hs. induction hs as [|[h|] hs IH]; intros i; cbn [positions_from]; [by intros ?%elem_of_nil| |apply IH].
  intros [->|Hp]%elem_of_cons; [apply Z.mod_pos_bound; lia|by eapply IH].
Qed.

Lemma forallb_elem {A} (f : A -> bool) l : forallb f l = true <-> ∀ x, x ∈ l -> f x = true.
Proof. rewrite forallb_forall. by setoid_rewrite list_elem_of_In. Qed.

Lemma forallb_ext_elem {A} (f g : A -> bool) l : (∀ x, x ∈ l -> f x = g x) -> forallb f l = forallb g l.
Proof.
  induction l as [|x l IH]; intros H; [done|]. cbn [forallb]. rewrite H by left. f_equal. apply IH.
  intros y Hy. apply H. by right.
Qed.

(** C32.  A filter to which first the hash functions and then any tags have been
    added: bcm_bloom_is_member, whose result in this code is a bool, answers false
    for exactly the tags all of whose positions were hit by an added tag, so for
    every added one, also after a hash function has been removed, and true for all
    others.  (The header says that it returns BCME_OK or BCME_NOTFOUND; as a bool
    these are false and true.)  The same answer comes from its exported bytes in a
    filter with the same hash functions that keeps none of its own.  A hash
    function that is added after a tag can lose the tag ([hash_added_later]). *)
Theorem bloom_no_false_negative (ctx max size : Z) (hs : list bcm_bloom_hash_t) (ts : list (list Z)) (t : list Z) :
  0 < max < 536870912 -> 0 < size < 536870912 -> Z.of_nat (length hs) <= max ->
  Forall (λ t, t ≠ []) ts -> t ≠ [] ->
  ∃ b fl, (b0 ← build ctx max size hs; add_all ts b0) = Some (Some b)
  ∧ bcm_bloom_get_filter_data (Some b) size = (BCME_OK, Some size, Some fl)
  ∧ bcm_bloom_is_member (Some b) (Some t) None
    = Some (negb (forallb (λ p, bool_decide (p ∈ concat (map (positions b) ts))) (positions b t)))
  ∧ (∀ fs f, bcm_bloom_is_member (Some (mk_bloom ctx (max_hash b) (hash b) fs f)) (Some t) (Some fl)
             = bcm_bloom_is_member (Some b) (Some t) None)
  ∧ (t ∈ ts -> bcm_bloom_is_member (Some b) (Some t) None = Some false
      ∧ ∀ i b', bcm_bloom_remove_hash (Some b) i = Some (BCME_OK, Some b') ->
          bcm_bloom_is_member (Some b') (Some t) None = Some false).
Proof.
  intros Hmx Hsz Hl Hts Ht. destruct (build_spec ctx max size hs Hmx Hsz Hl) as (b0 & E0 & Hwf0 & Hh & Hc & Hs).
  destruct (add_all_spec ts b0 _ Hwf0 Hts) as (fl & E & [Hbh Hbf Hbs Hbr Hbb] & Hset).
  exists (with_filter b0 fl), fl. rewrite E0. cbn [mbind option_bind]. split; [done|].
  cbn [filter_size hash max_hash filter with_filter] in Hbh, Hbs, Hbr.
  assert (Z.of_nat (length fl) = size) as Hfl by congruence.
  assert (∀ p, p ∈ positions b0 t -> bitset fl p = bool_decide (p ∈ concat (map (positions b0) ts))) as Hbit.
  { intros p Hp. apply positions_range in Hp; [|lia]. by rewrite Hset, bitset_zero. }
  assert (∀ fs f buf, buf = Some fl ∨ (buf = None ∧ f = Some fl ∧ fs = size) ->
    bcm_bloom_is_member (Some (mk_bloom ctx (max_hash b0) (hash b0) fs f)) (Some t) buf
    = Some (negb (forallb (λ p, bool_decide (p ∈ concat (map (positions b0) ts))) (positions b0 t)))) as Hm.
  { intros fs f buf Hb. rewrite (is_member_spec _ fl); [|done|done|lia|].
    - cbn [cb_ctx hash]. rewrite Hfl. do 2 f_equal. unfold positions at 3. rewrite Hs, Hc.
      apply forallb_ext_elem. intros p Hp. apply Hbit. unfold positions. by rewrite Hs, Hc.
    - destruct Hb as [->|(-> & -> & ->)]; [by left|right]. by cbn. }
  assert (bcm_bloom_is_member (Some (with_filter b0 fl)) (Some t) None
    = Some (negb (forallb (λ p, bool_decide (p ∈ concat (map (positions b0) ts))) (positions b0 t)))) as Hm0.
  { unfold with_filter. rewrite Hc, Hs. apply Hm. by right. }
  split; [|split; [exact Hm0|split]].
  - unfold bcm_bloom_get_filter_data. cbn [filter_size filter with_filter]. rewrite Hs.
    rewrite bool_decide_false, bool_decide_true, take_ge by lia. done.
  - intros fs f. rewrite Hm0. apply Hm. by left.
  - intros Hin. split.
    + rewrite Hm0. do 2 f_equal. apply negb_false_iff, forallb_elem. intros p Hp.
      apply bool_decide_eq_true. by eapply elem_concat_positions.
    + intros i b'. unfold bcm_bloom_remove_hash. cbn [max_hash hash with_filter]. case_bool_decide; [done|].
      destruct (hash b0 !! Z.to_nat i) as [h|] eqn:Eh; [|done]. cbn [mbind option_bind]. intros [= <-].
      rewrite (is_member_spec _ fl); cbn [hash max_hash cb_ctx filter filter_size with_filter];
        [|by rewrite length_insert|done|lia|by right].
      do 2 f_equal. apply negb_false_iff, forallb_elem. intros p Hp. rewrite Hfl, Hc in Hp.
      apply positions_remove in Hp. assert (p ∈ positions b0 t) as Hp' by (unfold positions; by rewrite Hs, Hc).
      rewrite Hbit by done. apply bool_decide_eq_true. by eapply elem_concat_positions.
Qed.

Lemma bloom_no_false_negative_witness :
  ∃ b fl, (b0 ← build 0 4 2 [λ _ i t, default 0 (t !! 0%nat) + i; λ _ _ t, 3 * default 0 (t !! 0%nat)];
           add_all [[5; 1]; [9]] b0) = Some (Some b)
  ∧ bcm_bloom_get_filter_data (Some b) 2 = (BCME_OK, Some 2, Some fl) ∧ fl = [32; 138]
  ∧ bcm_bloom_is_member (Some b) (Some [9]) None = Some false.
Proof.
  destruct (bloom_no_false_negative 0 4 2 [λ _ i t, default 0 (t !! 0%nat) + i; λ _ _ t, 3 * default 0 (t !! 0%nat)]
              [[5; 1]; [9]] [9]) as (b & fl & E & Eg & _ & _ & Hm).
  - lia.
  - lia.
  - vm_compute. discriminate.
  - apply Forall_cons_2; [discriminate|]. apply Forall_singleton. discriminate.
  - discriminate.
  - exists b, fl. split; [exact E|]. split; [exact Eg|]. split; [|apply Hm; right; left].
    vm_compute in E. injection E as <-. vm_compute in Eg. by injection Eg as <-.
Defined.

(** The tag was added with the first hash function only. *)
Example hash_added_later :
  (b ← build 0 4 2 [λ _ i t, default 0 (t !! 0%nat) + i];
   b ← add_all [[9]] b;
   '(_, _, b) ← bcm_bloom_add_hash b (Some (λ _ _ t, 3 * default 0 (t !! 0%nat))) true;
   bcm_bloom_is_member b (Some [9]) None) = Some true.
Proof. vm_compute. reflexivity. Qed.
