(* ===== verification/Xtlv.v ===== *)
(** * bcmxtlv.c: extended type/length/value buffers (model)

    An element is its address; the options choose the widths, the byte order
    and the alignment of its header.  A routine that updates its caller's
    pointers and lengths returns them; output pointers that every caller in the
    file passes non-null are results.  Callbacks are arguments: an unpack
    callback reads the memory, a pack callback writes it. *)

From S2P Require Import Prelude Mem Endian.

Definition BCM_XTLV_OPTION_ALIGN32 : Z := 0x0001.
Definition BCM_XTLV_OPTION_IDU8 : Z := 0x0002.
Definition BCM_XTLV_OPTION_LENU8 : Z := 0x0004.
Definition BCM_XTLV_OPTION_IDBE : Z := 0x0008.
Definition BCM_XTLV_OPTION_LENBE : Z := 0x0010.

Definition BCME_OK : Z := 0.
Definition BCME_BADARG : Z := -2.
Definition BCME_BUFTOOSHORT : Z := -14.
Definition BCME_UNSUPPORTED : Z := -23.
Definition BCME_BADLEN : Z := -24.
Definition BCME_NOMEM : Z := -27.

(** [opts & flag] as a condition. *)
Definition has (opts flag : Z) : bool := negb (bool_decide (Z.land opts flag = 0)).

Definition bcm_xtlv_hdr_size (opts : Z) : Z :=
  let len := 4 in
  let len := if has opts BCM_XTLV_OPTION_LENU8 then len - 1 else len in
  if has opts BCM_XTLV_OPTION_IDU8 then len - 1 else len.

(** [ALIGN_SIZE(size, boundary)] on int. *)
Definition ALIGN_SIZE (size boundary : Z) : Z := Z.land (s32 (size + boundary - 1)) (Z.lnot (boundary - 1)).

Definition bcm_xtlv_size_for_data (dlen opts : Z) : Z :=
  let hsz := bcm_xtlv_hdr_size opts in
  if has opts BCM_XTLV_OPTION_ALIGN32 then ALIGN_SIZE (dlen + hsz) 4 else s32 (dlen + hsz).

(** [elt->len] and [elt->id]: 16-bit loads at the nominal offsets. *)
Definition bcm_xtlv_len (m : mem) (elt opts : Z) : option Z :=
  let lenp := elt + 2 in
  let lenp := if has opts BCM_XTLV_OPTION_IDU8 then lenp - 1 else lenp in
  if has opts BCM_XTLV_OPTION_LENU8 then rd8 m lenp
  else if has opts BCM_XTLV_OPTION_LENBE then v ← ltoh16_ua m (elt + 2); Some (BCMSWAP16 v)
  else ltoh16_ua m lenp.

Definition bcm_xtlv_id (m : mem) (elt opts : Z) : option Z :=
  if has opts BCM_XTLV_OPTION_IDU8 then rd8 m elt
  else if has opts BCM_XTLV_OPTION_IDBE then v ← ltoh16_ua m elt; Some (BCMSWAP16 v)
  else ltoh16_ua m elt.

Definition bcm_xtlv_size (m : mem) (elt opts : Z) : option Z :=
  len ← bcm_xtlv_len m elt opts;
  Some (bcm_xtlv_size_for_data len opts).

Definition bcm_valid_xtlv (m : mem) (elt : option Z) (buf_len opts : Z) : option bool :=
  match elt with
  | None => Some false
  | Some e =>
      if bool_decide (bcm_xtlv_hdr_size opts <= buf_len)
      then sz ← bcm_xtlv_size m e opts; Some (bool_decide (sz <= buf_len))
      else Some false
  end.

(** Returns the next element and the new [*buflen] ([*buflen -= sz] is
    computed on uint and stored in an int). *)
Definition bcm_next_xtlv (m : mem) (elt : option Z) (buflen opts : Z) : option (option Z * Z) :=
  v ← bcm_valid_xtlv m elt buflen opts;
  match elt with
  | Some e =>
      if (v : bool) then
        sz ← bcm_xtlv_size m e opts;
        let elt := e + sz in
        let buflen := s32 (buflen - sz) in
        v ← bcm_valid_xtlv m (Some elt) buflen opts;
        Some (if (v : bool) then Some elt else None, buflen)
      else Some (None, buflen)
  | None => Some (None, buflen)
  end.

(** ** Writing into a buffer *)

Record bcm_xtlvbuf := {
  opts : Z;
  size : Z;
  head : Z;
  buf : Z
}.

Definition set_buf (t : bcm_xtlvbuf) (b : Z) : bcm_xtlvbuf :=
  {| opts := opts t; size := size t; head := head t; buf := b |}.

(** [tlv_buf] is the buffer to initialise: it is returned. *)
Definition bcm_xtlv_buf_init (tlv_buf : option bcm_xtlvbuf) (b : option Z) (len o : Z)
    : Z * option bcm_xtlvbuf :=
  match tlv_buf, b with
  | Some _, Some b =>
      if bool_decide (len = 0) then (BCME_BADARG, tlv_buf)
      else (BCME_OK, Some {| opts := o; size := len; head := b; buf := b |})
  | _, _ => (BCME_BADARG, tlv_buf)
  end.

Definition bcm_xtlv_buf_len (tbuf : option bcm_xtlvbuf) : Z :=
  match tbuf with Some t => u16 (buf t - head t) | None => 0 end.

Definition bcm_xtlv_buf_rlen (tbuf : option bcm_xtlvbuf) : Z :=
  match tbuf with Some t => u16 (size t - bcm_xtlv_buf_len tbuf) | None => 0 end.

Definition bcm_xtlv_buf (tbuf : option bcm_xtlvbuf) : option Z := buf <$> tbuf.

Definition bcm_xtlv_head (tbuf : option bcm_xtlvbuf) : option Z := head <$> tbuf.

(** The four header forms; [type] and [len] are uint16. *)
Definition bcm_xtlv_pack_xtlv (m : mem) (xtlv type len : Z) (data : option Z) (o : Z) : option mem :=
  let idu8 := has o BCM_XTLV_OPTION_IDU8 in
  let lenu8 := has o BCM_XTLV_OPTION_LENU8 in
  let idp := xtlv in
  '(data_buf, m) ←
    (if negb idu8 && negb lenu8 then
       let lenp := idp + 2 in
       m ← htol16_ua_store m type idp; m ← htol16_ua_store m len lenp; Some (lenp + 2, m)
     else if idu8 && lenu8 then
       let lenp := idp + 1 in
       m ← wr8 m idp (u8 type); m ← wr8 m lenp (u8 len); Some (lenp + 1, m)
     else if idu8 then
       let lenp := idp + 1 in
       m ← wr8 m idp (u8 type); m ← htol16_ua_store m len lenp; Some (lenp + 2, m)
     else
       let lenp := idp + 2 in
       m ← htol16_ua_store m type idp; m ← wr8 m lenp (u8 len); Some (lenp + 1, m));
  let len := if lenu8 then Z.land len 0xff else len in
  match data with
  | Some d => memcpy m data_buf d len
  | None => Some m
  end.

(** [type], [len] and the address of the data. *)
Definition bcm_xtlv_unpack_xtlv (m : mem) (xtlv o : Z) : option (Z * Z * Z) :=
  id ← bcm_xtlv_id m xtlv o;
  len ← bcm_xtlv_len m xtlv o;
  Some (u16 id, u16 len, xtlv + bcm_xtlv_hdr_size o).

Definition bcm_xtlv_put_data (m : mem) (tbuf : option bcm_xtlvbuf) (type : Z) (data : option Z) (n : Z)
    : option (Z * option bcm_xtlvbuf * mem) :=
  match tbuf with
  | None => Some (BCME_BADARG, tbuf, m)
  | Some t =>
      let sz := bcm_xtlv_size_for_data n (opts t) in
      if bool_decide (bcm_xtlv_buf_rlen tbuf < sz) then Some (BCME_NOMEM, tbuf, m)
      else
        m ← bcm_xtlv_pack_xtlv m (buf t) type (u16 n) data (opts t);
        Some (BCME_OK, Some (set_buf t (buf t + sz)), m)
  end.

(** [for (; n != 0; --n, xtlv_data += int_sz, data += int_sz)]: a negative [n]
    runs off the buffer. *)
Fixpoint put_int_loop (n : nat) (m : mem) (xtlv_data data int_sz : Z) : option (Z * mem) :=
  match n with
  | O => Some (BCME_OK, m)
  | S n =>
      if bool_decide (int_sz = 1) then put_int_loop n m (xtlv_data + int_sz) (data + int_sz) int_sz
      else if bool_decide (int_sz = 2) then
        v ← ltoh16_ua m data; m ← htol16_ua_store m v xtlv_data;
        put_int_loop n m (xtlv_data + int_sz) (data + int_sz) int_sz
      else if bool_decide (int_sz = 4) then
        v ← ltoh32_ua m data; m ← htol32_ua_store m v xtlv_data;
        put_int_loop n m (xtlv_data + int_sz) (data + int_sz) int_sz
      else if bool_decide (int_sz = 8) then
        v ← ltoh64_ua m data; m ← htol64_ua_store m v xtlv_data;
        put_int_loop n m (xtlv_data + int_sz) (data + int_sz) int_sz
      else Some (BCME_UNSUPPORTED, m)
  end.

Definition bcm_xtlv_put_int (m : mem) (tbuf : option bcm_xtlvbuf) (type data n int_sz : Z)
    : option (Z * option bcm_xtlvbuf * mem) :=
  match tbuf with
  | None => Some (BCME_BADARG, tbuf, m)
  | Some t =>
      let xtlv := buf t in
      let xtlv_len := s32 (n * int_sz) in
      '(err, tbuf, m) ← bcm_xtlv_put_data m tbuf type None xtlv_len;
      if negb (bool_decide (err = BCME_OK)) then Some (err, tbuf, m)
      else
        let xtlv_data := xtlv + bcm_xtlv_hdr_size (opts t) in
        if bool_decide (n < 0) then None
        else
          '(err, m) ← put_int_loop (Z.to_nat n) m xtlv_data data int_sz;
          Some (err, tbuf, m)
  end.

Definition bcm_xtlv_put16 (m : mem) (tbuf : option bcm_xtlvbuf) (type data n : Z) :=
  bcm_xtlv_put_int m tbuf type data n 2.
Definition bcm_xtlv_put32 (m : mem) (tbuf : option bcm_xtlvbuf) (type data n : Z) :=
  bcm_xtlv_put_int m tbuf type data n 4.
Definition bcm_xtlv_put64 (m : mem) (tbuf : option bcm_xtlvbuf) (type data n : Z) :=
  bcm_xtlv_put_int m tbuf type data n 8.

(** ** Entries *)

(** Returns the error, the new [*tlv_buf] and the memory. *)
Definition bcm_unpack_xtlv_entry (m : mem) (tlv_buf xpct_type xpct_len : Z) (dst_data : option Z) (o : Z)
    : option (Z * Z * mem) :=
  let ptlv := tlv_buf in
  '(type, len, data) ← bcm_xtlv_unpack_xtlv m ptlv o;
  if negb (bool_decide (len = 0)) && (negb (bool_decide (type = xpct_type)) || bool_decide (xpct_len < len))
  then Some (BCME_BADARG, tlv_buf, m)
  else
    m ← (match dst_data with
         | Some d => if bool_decide (len = 0) then Some m else memcpy m d data len
         | None => Some m
         end);
    sz ← bcm_xtlv_size m ptlv o;
    Some (BCME_OK, tlv_buf + sz, m).

(** Returns the error, the new [*tlv_buf], [*buflen] and the memory. *)
Definition bcm_pack_xtlv_entry (m : mem) (tlv_buf buflen type len : Z) (src_data : option Z) (o : Z)
    : option (Z * Z * Z * mem) :=
  let ptlv := tlv_buf in
  let sz := bcm_xtlv_size_for_data len o in
  if bool_decide (buflen < sz) then Some (BCME_BADLEN, tlv_buf, buflen, m)
  else
    m ← bcm_xtlv_pack_xtlv m ptlv type len src_data o;
    Some (BCME_OK, tlv_buf + sz, u16 (buflen - u16 sz), m).

(** ** Whole buffers

    Each pass takes a header, two bytes at least, off the buffer. *)

Section Callbacks.
Context {W : Type}.

Section Unpack.
Variable cbfn : mem -> W -> Z -> Z -> Z -> Z * W.

Fixpoint unpack_loop (fuel : nat) (m : mem) (ctx : W) (tlv_buf sbuflen o res : Z) : option (Z * W) :=
  match fuel with
  | O => None
  | S fuel =>
      if bool_decide (bcm_xtlv_hdr_size o <= sbuflen) then
        let ptlv := tlv_buf in
        '(type, len, data) ← bcm_xtlv_unpack_xtlv m ptlv o;
        let sz := u32 (bcm_xtlv_size_for_data len o) in
        if bool_decide (sbuflen < sz) then Some (res, ctx)
        else
          let sbuflen := sbuflen - sz in
          let '(res, ctx) := cbfn m ctx data type len in
          if negb (bool_decide (res = BCME_OK)) then Some (res, ctx)
          else unpack_loop fuel m ctx (tlv_buf + sz) sbuflen o res
      else Some (res, ctx)
  end.

Definition bcm_unpack_xtlv_buf (m : mem) (ctx : W) (tlv_buf buflen o : Z) : option (Z * W) :=
  unpack_loop (S (Z.to_nat buflen)) m ctx tlv_buf buflen o BCME_OK.
End Unpack.

Section Pack.
Variable get_next : W -> bool * Z * Z * W.
Variable pack_next : mem -> W -> Z -> Z -> Z -> option (W * mem).

Fixpoint pack_loop (fuel : nat) (m : mem) (ctx : W) (buf endp o : Z) (more : bool) : option (Z * Z * W * mem) :=
  match fuel with
  | O => None
  | S fuel =>
      if more && bool_decide (buf < endp) then
        let '(more, tlv_id, tlv_len, ctx) := get_next ctx in
        let sz := bcm_xtlv_size_for_data tlv_len o in
        if bool_decide (endp < buf + sz) then Some (BCME_BUFTOOSHORT, buf, ctx, m)
        else
          m ← bcm_xtlv_pack_xtlv m buf tlv_id tlv_len None o;
          '(ctx, m) ← pack_next m ctx tlv_id tlv_len (buf + bcm_xtlv_hdr_size o);
          pack_loop fuel m ctx (buf + sz) endp o more
      else Some (if more then BCME_BUFTOOSHORT else BCME_OK, buf, ctx, m)
  end.

(** Returns the error, [*outlen], the context and the memory. *)
Definition bcm_pack_xtlv_buf (m : mem) (ctx : W) (tlv_buf buflen o : Z) : option (Z * Z * W * mem) :=
  '(res, buf, ctx, m) ← pack_loop (S (Z.to_nat buflen)) m ctx tlv_buf (tlv_buf + buflen) o true;
  Some (res, s32 (buf - tlv_buf), ctx, m).
End Pack.

End Callbacks.

(** ** Descriptors *)

Record xtlv_desc := {
  type : Z;
  len : Z;
  ptr : option Z
}.

(** [items] ends at the descriptor of type 0; running past the array is
    undefined.  Returns the error, the new pointer and length, and the memory. *)
Fixpoint pack_items (m : mem) (ptlv buflen : Z) (items : list xtlv_desc) (o : Z) : option (Z * Z * Z * mem) :=
  match items with
  | [] => None
  | it :: items =>
      if bool_decide (type it = 0) then Some (BCME_OK, ptlv, buflen, m)
      else if negb (bool_decide (len it = 0)) && negb (bool_decide (ptr it = None)) then
        '(res, ptlv, buflen, m) ← bcm_pack_xtlv_entry m ptlv buflen (type it) (len it) (ptr it) o;
        if negb (bool_decide (res = BCME_OK)) then Some (res, ptlv, buflen, m)
        else pack_items m ptlv buflen items o
      else pack_items m ptlv buflen items o
  end.

Definition bcm_pack_xtlv_buf_from_mem (m : mem) (tlv_buf buflen : Z) (items : list xtlv_desc) (o : Z)
    : option (Z * Z * Z * mem) :=
  pack_items m tlv_buf buflen items o.

(** [while (dst_desc->type != 0)] *)
Fixpoint match_items (m : mem) (id n data : Z) (items : list xtlv_desc) : option (Z * mem) :=
  match items with
  | [] => None
  | it :: items =>
      if bool_decide (type it = 0) then Some (BCME_OK, m)
      else if bool_decide (id = type it) then
        if negb (bool_decide (n = len it)) then Some (BCME_BADLEN, m)
        else if bool_decide (n = 0) then Some (BCME_OK, m)
        else p ← ptr it; m ← memcpy m p data n; Some (BCME_OK, m)
      else match_items m id n data items
  end.

Fixpoint to_mem_loop (fuel : nat) (m : mem) (elt : option Z) (buflen : Z) (items : list xtlv_desc) (o res : Z)
    : option (Z * Z * mem) :=
  match fuel with
  | O => None
  | S fuel =>
      match elt with
      | None => Some (res, buflen, m)
      | Some e =>
          if negb (bool_decide (res = BCME_OK)) then Some (res, buflen, m)
          else
            '(id, n, data) ← bcm_xtlv_unpack_xtlv m e o;
            '(res, m) ← match_items m id n data items;
            '(elt, buflen) ← bcm_next_xtlv m elt buflen o;
            to_mem_loop fuel m elt buflen items o res
      end
  end.

(** Returns the error, the new [*buflen] and the memory. *)
Definition bcm_unpack_xtlv_buf_to_mem (m : mem) (tlv_buf : option Z) (buflen : Z)
    (items : option (list xtlv_desc)) (o : Z) : option (Z * Z * mem) :=
  v ← bcm_valid_xtlv m tlv_buf buflen o;
  let elt := if (v : bool) then tlv_buf else None in
  match elt, items with
  | Some _, Some items =>
      '(res, buflen, m) ← to_mem_loop (S (S (Z.to_nat buflen))) m elt buflen items o BCME_OK;
      Some (if bool_decide (res = BCME_OK) && negb (bool_decide (buflen = 0))
            then BCME_BUFTOOSHORT else res, buflen, m)
  | _, _ => Some (BCME_BADARG, buflen, m)
  end.

Fixpoint get_data_loop (fuel : nat) (m : mem) (tlv_buf sbuflen id o : Z) : option (option Z * Z) :=
  match fuel with
  | O => None
  | S fuel =>
      if bool_decide (bcm_xtlv_hdr_size o <= sbuflen) then
        '(type, len, data) ← bcm_xtlv_unpack_xtlv m tlv_buf o;
        let sz := bcm_xtlv_size_for_data len o in
        let sbuflen := s32 (sbuflen - sz) in
        if bool_decide (sbuflen < 0) then Some (None, 0)
        else if bool_decide (id = type) then Some (Some data, len)
        else get_data_loop fuel m (tlv_buf + sz) sbuflen id o
      else Some (None, 0)
  end.

(** Returns the data pointer and [*datalen]. *)
Definition bcm_get_data_from_xtlv_buf (m : mem) (tlv_buf buflen id o : Z) : option (option Z * Z) :=
  get_data_loop (S (Z.to_nat buflen)) m tlv_buf buflen id o.

Definition bcm_xtlv_bcopy (m : mem) (src dst : option Z) (src_buf_len dst_buf_len o : Z)
    : option (option Z * mem) :=
  v ← bcm_valid_xtlv m src src_buf_len o;
  let src := if (v : bool) then src else None in
  match src, dst with
  | Some s, Some d =>
      '(type, len, data) ← bcm_xtlv_unpack_xtlv m s o;
      let sz := bcm_xtlv_size_for_data len o in
      if bool_decide (sz <= dst_buf_len) then
        m ← bcm_xtlv_pack_xtlv m d type len (Some data) o;
        Some (Some (d + sz), m)
      else Some (None, m)
  | _, _ => Some (None, m)
  end.
