(* ===== verification/XtlvSpec.v ===== *)
(** * bcmxtlv.c: the wire format (specification and lemmas)

    [xenc o x] is the encoding of element [x] under options [o]: its id and
    length in the chosen widths and byte orders, its data, and the padding of
    the 32-bit alignment.  [xlayout] says what a buffer holds, as [layout] does
    for the plain elements. *)

From S2P Require Import Prelude Mem Endian Xtlv.

Record xtlv := { x_id : Z; x_data : list Z; x_pad : list Z }.

Definition x_len (x : xtlv) : Z := Z.of_nat (length (x_data x)).

(** Two bytes, in the order of a flag. *)
Definition enc16 (be : bool) (v : Z) : list Z :=
  if be then [v / 256; v mod 256] else [v mod 256; v / 256].

Section Options.
Variable o : Z.

Abbreviation hdr := (bcm_xtlv_hdr_size o).
Abbreviation idu8 := (has o BCM_XTLV_OPTION_IDU8).
Abbreviation lenu8 := (has o BCM_XTLV_OPTION_LENU8).
Abbreviation idbe := (has o BCM_XTLV_OPTION_IDBE).
Abbreviation lenbe := (has o BCM_XTLV_OPTION_LENBE).

Definition id_enc (id : Z) : list Z := if idu8 then [id] else enc16 idbe id.
Definition len_enc (n : Z) : list Z := if lenu8 then [n] else enc16 lenbe n.
Definition id_max : Z := if idu8 then 256 else 65536.
Definition len_max : Z := if lenu8 then 256 else 65536.

(** A big-endian length is read at its nominal offset: not after an 8-bit id. *)
Definition readable_opts : Prop := idu8 && negb lenu8 && lenbe = false.

(** The packer writes little-endian headers only. *)
Definition writable_opts : Prop := (idu8 = true ∨ idbe = false) ∧ (lenu8 = true ∨ lenbe = false).

Definition xenc (x : xtlv) : list Z := id_enc (x_id x) ++ len_enc (x_len x) ++ x_data x ++ x_pad x.
Definition xencs (xs : list xtlv) : list Z := concat (xenc <$> xs).
Definition x_size (x : xtlv) : Z := bcm_xtlv_size_for_data (x_len x) o.

Definition xwf (x : xtlv) : Prop :=
  0 <= x_id x < id_max ∧ x_len x < len_max ∧ Z.of_nat (length (x_pad x)) = x_size x - hdr - x_len x.

(** Too short for a header, or for the element its header announces. *)
Definition xstuck (rest : list Z) : Prop :=
  Z.of_nat (length rest) < hdr
  ∨ ∃ id n r, rest = id_enc id ++ len_enc n ++ r ∧ 0 <= id < id_max ∧ 0 <= n < len_max
      ∧ Z.of_nat (length rest) < bcm_xtlv_size_for_data n o.

Definition xlayout (m : mem) (b n : Z) (xs : list xtlv) (rest : list Z) : Prop :=
  readable m b n = true ∧ slice m b (Z.to_nat n) = xencs xs ++ rest ∧ Forall xwf xs ∧ xstuck rest.

(** ** Sizes *)

Lemma hdr_range : 2 <= hdr <= 4.
Proof. unfold bcm_xtlv_hdr_size. destruct (has o _), (has o _); lia. Qed.

Lemma length_id_enc id : Z.of_nat (length (id_enc id)) = if idu8 then 1 else 2.
Proof. unfold id_enc, enc16. by destruct idu8, idbe. Qed.

Lemma length_hdr id n : Z.of_nat (length (id_enc id) + length (len_enc n)) = hdr.
Proof. unfold id_enc, len_enc, enc16, bcm_xtlv_hdr_size. by destruct idu8, lenu8, idbe, lenbe. Qed.

Lemma size_for_data_spec n :
  0 <= n < 65536 ->
  bcm_xtlv_size_for_data n o
  = if has o BCM_XTLV_OPTION_ALIGN32 then (n + hdr + 3) / 4 * 4 else n + hdr.
Proof.
  intros Hn. pose proof hdr_range. unfold bcm_xtlv_size_for_data, ALIGN_SIZE.
  destruct (has o _); rewrite s32_small by lia; [|done].
  change (Z.lnot (4 - 1)) with (Z.lnot (Z.ones 2)). rewrite <-Z.ldiff_land, Z.ldiff_ones_r by lia.
  rewrite Z.shiftr_div_pow2, Z.shiftl_mul_pow2 by lia. change (2 ^ 2) with 4. do 2 f_equal. lia.
Qed.

Lemma size_for_data_bounds n :
  0 <= n < 65536 -> n + hdr <= bcm_xtlv_size_for_data n o < n + hdr + 4.
Proof.
  intros Hn. rewrite size_for_data_spec by done. pose proof (Z.div_mod (n + hdr + 3) 4).
  pose proof (Z.mod_pos_bound (n + hdr + 3) 4). destruct (has o _); lia.
Qed.

Lemma len_max_le : len_max <= 65536.
Proof. unfold len_max. destruct lenu8; lia. Qed.

Lemma x_size_bounds x : xwf x -> 0 <= x_len x < 65536 ∧ x_len x + hdr <= x_size x < x_len x + hdr + 4.
Proof.
  intros (_ & H & _). pose proof len_max_le. assert (0 <= x_len x) by (unfold x_len; lia).
  split; [lia|]. apply size_for_data_bounds. lia.
Qed.

Lemma length_xenc x : xwf x -> Z.of_nat (length (xenc x)) = x_size x.
Proof.
  intros (_ & _ & H). unfold xenc. rewrite !length_app. pose proof (length_hdr (x_id x) (x_len x)).
  unfold x_len in *. lia.
Qed.

Lemma xencs_cons x xs : xencs (x :: xs) = xenc x ++ xencs xs.
Proof. done. Qed.

Lemma xencs_app xs1 xs2 : xencs (xs1 ++ xs2) = xencs xs1 ++ xencs xs2.
Proof. unfold xencs. by rewrite fmap_app, concat_app. Qed.

(** ** Reading a header *)

Lemma enc16_range be v : 0 <= v < 65536 -> bytes_ok (enc16 be v).
Proof.
  intros Hv. assert (0 <= v / 256 < 256) by (split; [apply Z.div_pos|apply Z.div_lt_upper_bound]; lia).
  pose proof (Z.mod_pos_bound v 256). unfold enc16, bytes_ok. destruct be; rewrite !Forall_cons; lia || (repeat split; try lia; constructor).
Qed.

Lemma swap16 x y : 0 <= x < 256 -> 0 <= y < 256 -> BCMSWAP16 (x + 256 * y) = y + 256 * x.
Proof.
  intros Hx Hy. unfold BCMSWAP16. rewrite Z.shiftr_land. change (Z.shiftr 0xff00 8) with (Z.ones 8).
  change 0x00ff with (Z.ones 8). rewrite !Z.land_ones, Z.shiftr_div_pow2 by lia. change (2 ^ 8) with 256.
  rewrite (Z.mul_comm 256 y), Z.mod_add, Z.div_add, Z.div_small, Z.mod_small, (Z.mod_small (0 + y)) by lia.
  rewrite Z.lor_comm, lor_shift by lia. rewrite u16_small by lia. lia.
Qed.

(** A 16-bit field read in its byte order. *)
Lemma read16 m p n be v l :
  readable m p n = true -> slice m p (Z.to_nat n) = enc16 be v ++ l -> 0 <= v < 65536 ->
  (if be then w ← ltoh16_ua m p; Some (BCMSWAP16 w) else ltoh16_ua m p) = Some v.
Proof.
  intros Hr Hs Hv. pose proof (area_head _ _ _ _ _ Hr Hs) as Hh.
  pose proof (area_tail _ _ _ _ _ Hr Hs) as (Hn & _ & _).
  assert (0 <= v / 256 < 256) by (split; [apply Z.div_pos|apply Z.div_lt_upper_bound]; lia).
  pose proof (Z.mod_pos_bound v 256). pose proof (Z.div_mod v 256).
  assert (readable m p 2 = true) as H2.
  { apply readable_spec in Hr. apply readable_spec. destruct be; simpl in Hn; lia. }
  destruct be; simpl in Hh; rewrite (ltoh16_ua_slice m p _ _ H2 Hh) by lia; simpl.
  - rewrite swap16 by lia. f_equal. lia.
  - f_equal. lia.
Qed.

Lemma read_id m b n id l :
  readable m b n = true -> slice m b (Z.to_nat n) = id_enc id ++ l -> 0 <= id < id_max ->
  bcm_xtlv_id m b o = Some id.
Proof.
  intros Hr Hs Hid. unfold bcm_xtlv_id, id_enc, id_max in *. destruct idu8.
  - by apply (rd8_nth _ _ _ _ 0 _ _ Hr Hs); [|lia].
  - by apply (read16 _ _ _ _ _ _ Hr Hs).
Qed.

Lemma read_len m b n id k l :
  readable_opts -> readable m b n = true -> slice m b (Z.to_nat n) = id_enc id ++ len_enc k ++ l ->
  0 <= k < len_max -> bcm_xtlv_len m b o = Some k.
Proof.
  intros Ho Hr Hs Hk. destruct (area_tail _ _ _ _ _ Hr Hs) as (_ & Hr' & Hs').
  rewrite length_id_enc in Hr', Hs'. unfold readable_opts in Ho.
  unfold bcm_xtlv_len, len_enc, len_max in *. destruct idu8, lenu8; simpl in Ho.
  - replace (b + 2 - 1) with (b + 1) by lia. apply (rd8_nth _ _ _ _ 0 _ _ Hr' Hs'); [done|lia].
  - rewrite Ho in *. replace (b + 2 - 1) with (b + 1) by lia. by apply (read16 _ _ _ false _ _ Hr' Hs').
  - apply (rd8_nth _ _ _ _ 0 _ _ Hr' Hs'); [done|lia].
  - by apply (read16 _ _ _ _ _ _ Hr' Hs').
Qed.

Lemma read_unpack m b n id k l :
  readable_opts -> readable m b n = true -> slice m b (Z.to_nat n) = id_enc id ++ len_enc k ++ l ->
  0 <= id < id_max -> 0 <= k < len_max -> bcm_xtlv_unpack_xtlv m b o = Some (id, k, b + hdr).
Proof.
  intros Ho Hr Hs Hid Hk. unfold bcm_xtlv_unpack_xtlv. rewrite (read_id _ _ _ _ _ Hr Hs Hid).
  rewrite (read_len _ _ _ _ _ _ Ho Hr Hs Hk). cbn [mbind option_bind].
  pose proof len_max_le. assert (id_max <= 65536) by (unfold id_max; destruct idu8; lia).
  by rewrite !u16_small by lia.
Qed.

(** Every header's bytes are the encoding of an id and a length. *)
Lemma enc16_exists be x y :
  0 <= x < 256 -> 0 <= y < 256 -> ∃ v, 0 <= v < 65536 ∧ enc16 be v = [x; y].
Proof.
  intros Hx Hy. assert (∀ a b, 0 <= a < 256 -> 0 <= b < 256 -> (a + b * 256) / 256 = b ∧ (a + b * 256) mod 256 = a)
    as Hab by (intros a b Ha Hb; rewrite Z.div_add, Z.mod_add, Z.div_small, Z.mod_small by lia; lia).
  destruct be; [exists (y + x * 256)|exists (x + y * 256)]; (split; [lia|]); unfold enc16.
  - by destruct (Hab y x Hy Hx) as [-> ->].
  - by destruct (Hab x y Hx Hy) as [-> ->].
Qed.

Lemma field_exists (narrow be : bool) l :
  bytes_ok l -> (if narrow then 1 else 2) <= Z.of_nat (length l) ->
  ∃ v r, l = (if narrow then [v] else enc16 be v) ++ r ∧ 0 <= v < if narrow then 256 else 65536.
Proof.
  intros Hl Hn. unfold bytes_ok in Hl.
  destruct narrow, l as [|x [|y r]]; simpl in Hn; try lia; rewrite ?Forall_cons in Hl; destruct_ex.
  - by exists x, [].
  - by exists x, (y :: r).
  - destruct (enc16_exists be x y) as (v & Hv & He); [done..|]. exists v, r. by rewrite He.
Qed.

Lemma header_exists l :
  bytes_ok l -> hdr <= Z.of_nat (length l) ->
  ∃ id k r, l = id_enc id ++ len_enc k ++ r ∧ 0 <= id < id_max ∧ 0 <= k < len_max.
Proof.
  intros Hl Hn. pose proof (length_hdr 0 0) as Hh. pose proof (length_id_enc 0) as Hi.
  destruct (field_exists idu8 idbe l Hl) as (id & r & -> & Hid); [destruct idu8; lia|].
  apply Forall_app in Hl as [_ Hr].
  destruct (field_exists lenu8 lenbe r Hr) as (k & r' & -> & Hk).
  { rewrite length_app in Hn. fold (id_enc id) in Hn. pose proof (length_id_enc id).
    assert (Z.of_nat (length (len_enc 0)) = if lenu8 then 1 else 2)
      by (unfold len_enc, enc16; by destruct lenu8, lenbe).
    destruct idu8, lenu8; lia. }
  by exists id, k, r'.
Qed.

Lemma xsplit_exists j (l : list Z) :
  (length l <= j)%nat -> bytes_ok l -> ∃ xs rest, l = xencs xs ++ rest ∧ Forall xwf xs ∧ xstuck rest.
Proof.
  revert l. induction j as [|j IH]; intros l Hj Hl; pose proof hdr_range.
  { exists [], []. destruct l; [|simpl in Hj; lia]. repeat split; [constructor|]. left. simpl. lia. }
  destruct (decide (Z.of_nat (length l) < hdr)) as [Hn|Hn].
  { exists [], l. repeat split; [constructor|by left]. }
  destruct (header_exists l Hl) as (id & k & r & Heq & Hid & Hk); [lia|].
  pose proof len_max_le. pose proof (size_for_data_bounds k ltac:(lia)) as Hsz.
  pose proof (length_hdr id k) as Hh.
  destruct (decide (Z.of_nat (length l) < bcm_xtlv_size_for_data k o)) as [Hlt|Hge].
  { exists [], l. repeat split; [constructor|]. right. by exists id, k, r. }
  assert (length l = length (id_enc id) + length (len_enc k) + length r)%nat as Hlen
    by (rewrite Heq, !length_app; lia).
  set (p := Z.to_nat (bcm_xtlv_size_for_data k o - hdr)).
  destruct (IH (drop p r)) as (xs & rest & Hd & Hwf & Hst).
  { rewrite length_drop. lia. }
  { rewrite Heq in Hl. apply Forall_app in Hl as [_ Hl]. apply Forall_app in Hl as [_ Hl]. by apply Forall_drop. }
  exists ({| x_id := id; x_data := take (Z.to_nat k) (take p r); x_pad := drop (Z.to_nat k) (take p r) |} :: xs), rest.
  assert (x_len {| x_id := id; x_data := take (Z.to_nat k) (take p r);
                   x_pad := drop (Z.to_nat k) (take p r) |} = k) as Hxl.
  { unfold x_len. simpl. rewrite take_take, length_take. lia. }
  split; [|split; [|done]].
  - rewrite xencs_cons. unfold xenc. rewrite Hxl. cbn [x_id x_data x_pad].
    rewrite take_drop, <-!app_assoc, <-Hd, take_drop. done.
  - constructor; [|done]. unfold xwf, x_size. rewrite Hxl. cbn [x_id x_pad].
    split; [done|]. split; [lia|]. rewrite length_drop, length_take. lia.
Qed.

Lemma xlayout_exists m b n :
  bytes_ok m -> readable m b n = true -> ∃ xs rest, xlayout m b n xs rest.
Proof.
  intros Hm Hr. destruct (xsplit_exists _ (slice m b (Z.to_nat n)) (le_n _)) as (xs & rest & Hs & Hwf & Hst).
  - by apply bytes_ok_slice.
  - by exists xs, rest.
Qed.

Lemma xlayout_cons m b n x xs rest :
  readable_opts -> xlayout m b n (x :: xs) rest ->
  bcm_xtlv_unpack_xtlv m b o = Some (x_id x, x_len x, b + hdr)
  ∧ bcm_xtlv_len m b o = Some (x_len x) ∧ xwf x ∧ x_size x <= n
  ∧ readable m (b + hdr) (x_len x) = true ∧ slice m (b + hdr) (Z.to_nat (x_len x)) = x_data x
  ∧ xlayout m (b + x_size x) (n - x_size x) xs rest.
Proof.
  intros Ho (Hr & Hs & Hwf & Hst). apply Forall_cons in Hwf as [Hx Hwf].
  rewrite xencs_cons, <-app_assoc in Hs. pose proof (x_size_bounds x Hx) as [Hl Hsz].
  pose proof (area_tail _ _ _ _ _ Hr Hs) as (Hn & Hr' & Hs').
  rewrite length_xenc in Hn, Hr', Hs' by done.
  unfold xenc in Hs. rewrite <-!app_assoc in Hs.
  pose proof Hx as (Hid & Hlen & _).
  split; [apply (read_unpack _ _ _ _ _ _ Ho Hr Hs); [done|lia]|].
  split; [apply (read_len _ _ _ _ _ _ Ho Hr Hs); lia|]. split; [done|]. split; [done|].
  rewrite app_assoc in Hs. pose proof (area_tail _ _ _ _ _ Hr Hs) as (Hn2 & Hr2 & Hs2).
  rewrite length_app, length_hdr in Hn2, Hr2, Hs2.
  split. { apply readable_spec in Hr2. apply readable_spec. pose proof hdr_range. lia. }
  split. { unfold x_len. rewrite Nat2Z.id. by apply (area_head _ _ _ _ _ Hr2 Hs2). }
  done.
Qed.

Lemma xlayout_nil m b n rest :
  readable_opts -> xlayout m b n [] rest ->
  n < hdr ∨ hdr <= n ∧ ∃ id k, bcm_xtlv_unpack_xtlv m b o = Some (id, k, b + hdr)
    ∧ bcm_xtlv_len m b o = Some k ∧ 0 <= k < 65536 ∧ n < bcm_xtlv_size_for_data k o.
Proof.
  intros Ho (Hr & Hs & _ & Hst). simpl in Hs.
  pose proof (proj1 (readable_spec _ _ _) Hr) as Hb.
  assert (length (slice m b (Z.to_nat n)) = Z.to_nat n) as Hl by (apply length_slice, readable_spec; lia).
  rewrite Hs in Hl. destruct (decide (n < hdr)); [by left|right]. split; [lia|].
  destruct Hst as [Hst|(id & k & r & -> & Hid & Hk & Hlt)]; [lia|]. exists id, k.
  pose proof len_max_le. split; [by apply (read_unpack _ _ _ _ _ _ Ho Hr Hs)|].
  split; [by apply (read_len _ _ _ _ _ _ Ho Hr Hs)|]. lia.
Qed.

Lemma xlayout_skip m b n xs1 xs2 rest :
  let k := Z.of_nat (length (xencs xs1)) in
  xlayout m b n (xs1 ++ xs2) rest -> k <= n ∧ xlayout m (b + k) (n - k) xs2 rest.
Proof.
  intros k (Hr & Hs & Hwf & Hst). rewrite xencs_app, <-app_assoc in Hs.
  apply Forall_app in Hwf as [_ Hwf]. destruct (area_tail _ _ _ _ _ Hr Hs) as (Hk & Hr' & Hs'). done.
Qed.

(** ** Writing *)

Lemma writable_readable : writable_opts -> readable_opts.
Proof. intros [_ [H|H]]; unfold readable_opts; rewrite H; simpl; by rewrite ?andb_false_r. Qed.

Lemma enc16_le v : 0 <= v < 65536 -> le_bytes 2 v = enc16 false v.
Proof.
  intros Hv. unfold enc16. cbn [le_bytes]. unfold u8 at 1.
  rewrite u8_small; [done|]. split; [apply Z.div_pos|apply Z.div_lt_upper_bound]; lia.
Qed.

(** A store after [l]. *)
Lemma htol16_more m p l q v :
  q = p + Z.of_nat (length l) -> readable m p (Z.of_nat (length l) + 2) = true -> 0 <= v < 65536 ->
  htol16_ua_store (splice m p l) v q = Some (splice m p (l ++ enc16 false v)).
Proof.
  intros -> H Hv. pose proof (proj1 (readable_spec _ _ _) H).
  rewrite htol16_ua_store_splice, enc16_le, splice_app; [done| |done|].
  - rewrite length_app. apply readable_spec. simpl. lia.
  - rewrite readable_splice; apply readable_spec; lia.
Qed.

Lemma land_ff k : 0 <= k < 256 -> Z.land k 0xff = k.
Proof. intros Hk. change 0xff with (Z.ones 8). rewrite Z.land_ones by lia. by apply Z.mod_small. Qed.

Lemma pack_header m d id k data :
  writable_opts -> 0 <= id < id_max -> 0 <= k < len_max -> readable m d hdr = true ->
  bcm_xtlv_pack_xtlv m d id k data o
  = match data with
    | Some s => memcpy (splice m d (id_enc id ++ len_enc k)) (d + hdr) s k
    | None => Some (splice m d (id_enc id ++ len_enc k))
    end.
Proof.
  intros [Hi Hl] Hid Hk Hr. pose proof (proj1 (readable_spec _ _ _) Hr) as Hb.
  unfold bcm_xtlv_pack_xtlv, id_enc, len_enc, id_max, len_max, bcm_xtlv_hdr_size in *.
  destruct idu8, lenu8; cbn [negb andb];
    try (destruct Hi as [Hi|Hi]; [discriminate|rewrite Hi]); try (destruct Hl as [Hl|Hl]; [discriminate|rewrite Hl]).
  - rewrite wr8_splice by (apply readable_spec; lia). cbn [mbind option_bind].
    rewrite wr8_more by (done || (apply readable_spec; simpl; lia)). cbn [mbind option_bind app].
    rewrite !u8_small, land_ff by (rewrite ?u8_small; lia).
    destruct data; [|done]. f_equal. lia.
  - rewrite wr8_splice by (apply readable_spec; lia). cbn [mbind option_bind].
    rewrite htol16_more by (first [done | apply readable_spec; simpl; lia]). cbn [mbind option_bind app].
    rewrite !u8_small by (rewrite ?u8_small; lia). destruct data; [|done]. f_equal. lia.
  - rewrite htol16_ua_store_splice by (apply readable_spec; lia). cbn [mbind option_bind].
    rewrite enc16_le by lia.
    rewrite wr8_more by (done || (apply readable_spec; simpl; lia)). cbn [mbind option_bind].
    rewrite !u8_small, land_ff by (rewrite ?u8_small; lia).
    destruct data; [|done]. f_equal. lia.
  - rewrite htol16_ua_store_splice by (apply readable_spec; lia). cbn [mbind option_bind].
    rewrite enc16_le by lia.
    rewrite htol16_more by (first [done | apply readable_spec; simpl; lia]). cbn [mbind option_bind].
    destruct data; [|done]. f_equal. lia.
Qed.

(** The element that packing [k] bytes at [d] leaves there: the padding is what
    the memory held. *)
Definition packed (m : mem) (d id k : Z) (data : list Z) : xtlv :=
  {| x_id := id; x_data := data;
     x_pad := slice m (d + hdr + k) (Z.to_nat (bcm_xtlv_size_for_data k o - hdr - k)) |}.

Lemma pack_data m d id k s :
  writable_opts -> 0 <= id < id_max -> Z.of_nat k < len_max -> readable m d (hdr + Z.of_nat k) = true ->
  readable m s (Z.of_nat k) = true -> disjoint_areas s (Z.of_nat k) d (hdr + Z.of_nat k) ->
  bcm_xtlv_pack_xtlv m d id (Z.of_nat k) (Some s) o
  = Some (splice m d (id_enc id ++ len_enc (Z.of_nat k) ++ slice m s k)).
Proof.
  intros Hw Hid Hk Hd Hs Hdis. pose proof (proj1 (readable_spec _ _ _) Hd). pose proof hdr_range.
  pose proof (proj1 (readable_spec _ _ _) Hs). unfold disjoint_areas in Hdis.
  pose proof (length_hdr id (Z.of_nat k)) as Hh. rewrite <-length_app in Hh.
  rewrite pack_header by (done || lia || (apply readable_spec; lia)).
  assert (readable m d (Z.of_nat (length (id_enc id ++ len_enc (Z.of_nat k)))) = true) as Hrh
    by (apply readable_spec; lia).
  rewrite memcpy_splice; [|rewrite readable_splice by done; apply readable_spec; lia
    |by rewrite readable_splice|unfold disjoint_areas; lia].
  rewrite slice_splice_other by (done || lia || (unfold disjoint_areas; lia)).
  rewrite <-Hh, splice_app, <-app_assoc; [done|].
  rewrite length_app, length_slice by done. apply readable_spec. lia.
Qed.

Lemma x_len_packed m d id k data : Z.of_nat (length data) = k -> x_len (packed m d id k data) = k.
Proof. done. Qed.

Lemma xwf_packed m d id k data :
  0 <= id < id_max -> 0 <= k < len_max -> Z.of_nat (length data) = k ->
  readable m d (bcm_xtlv_size_for_data k o) = true -> xwf (packed m d id k data).
Proof.
  intros Hid Hk Hlen Hr. unfold xwf, x_size. rewrite x_len_packed by done. split; [done|]. split; [lia|].
  pose proof len_max_le. pose proof (size_for_data_bounds k ltac:(lia)). pose proof hdr_range.
  apply readable_spec in Hr. cbn [packed x_pad]. rewrite length_slice; [lia|]. apply readable_spec. lia.
Qed.

(** Appending an element to a full buffer. *)
Lemma xlayout_append m b n xs id k data :
  xlayout m b n xs [] -> 0 <= id < id_max -> 0 <= k < len_max -> Z.of_nat (length data) = k ->
  readable m (b + n) (bcm_xtlv_size_for_data k o) = true ->
  xlayout (splice m (b + n) (id_enc id ++ len_enc k ++ data)) b (n + bcm_xtlv_size_for_data k o)
    (xs ++ [packed m (b + n) id k data]) [].
Proof.
  intros (Hr & Hs & Hwf & Hst) Hid Hk Hlen Hd. pose proof (proj1 (readable_spec _ _ _) Hr) as Hb.
  pose proof (proj1 (readable_spec _ _ _) Hd) as Hb2. pose proof len_max_le.
  pose proof (size_for_data_bounds k ltac:(lia)) as Hsz. pose proof hdr_range.
  set (l := id_enc id ++ len_enc k ++ data).
  assert (Z.of_nat (length l) = hdr + k) as Hl.
  { unfold l. rewrite !length_app. pose proof (length_hdr id k). lia. }
  assert (readable m (b + n) (Z.of_nat (length l)) = true) as Hrl by (apply readable_spec; lia).
  split; [rewrite readable_splice by done; apply readable_spec; lia|]. split; [|split].
  - rewrite app_nil_r in *. rewrite xencs_app, xencs_cons, app_nil_r.
    set (j := Z.to_nat (bcm_xtlv_size_for_data k o - hdr - k)).
    replace (Z.to_nat (n + bcm_xtlv_size_for_data k o)) with (Z.to_nat n + (length l + j))%nat by lia.
    rewrite slice_app, Z2Nat.id by lia. rewrite slice_app by lia.
    rewrite slice_splice_same, !slice_splice_other by (done || lia || (unfold disjoint_areas; lia)).
    rewrite Hs. f_equal. unfold xenc. rewrite x_len_packed by done. unfold packed, l, j.
    cbn [x_id x_data x_pad]. rewrite <-!app_assoc. do 4 f_equal. fold l. lia.
  - apply Forall_app. split; [done|]. constructor; [|constructor]. by apply xwf_packed.
  - done.
Qed.

End Options.
