(* ===== verification/XtlvTheorems.v ===== *)
(** * bcmxtlv.c: extended type/length/value buffers (properties)

    The readers visit the elements of a layout in order; the writers append an
    element to one; the descriptor routines are folds of these.  Their
    theorems also show where the options do not work: see [readable_opts] and
    [writable_opts] of XtlvSpec. *)

From S2P Require Import Prelude Mem Endian Xtlv XtlvSpec.

(** ** Readers *)

(** The data and length of the first element of id [id]. *)
Fixpoint first_data (o b : Z) (xs : list xtlv) (id : Z) : option Z * Z :=
  match xs with
  | [] => (None, 0)
  | x :: xs => if bool_decide (id = x_id x) then (Some (b + bcm_xtlv_hdr_size o), x_len x)
               else first_data o (b + x_size o x) xs id
  end.

(** The callback on every element in order, until it fails. *)
Fixpoint visit {W} (o : Z) (cbfn : mem -> W -> Z -> Z -> Z -> Z * W) (m : mem) (b : Z) (ctx : W) (xs : list xtlv)
    : Z * W :=
  match xs with
  | [] => (BCME_OK, ctx)
  | x :: xs =>
      let '(res, ctx) := cbfn m ctx (b + bcm_xtlv_hdr_size o) (x_id x) (x_len x) in
      if bool_decide (res = BCME_OK) then visit o cbfn m (b + x_size o x) ctx xs else (res, ctx)
  end.

Section Readers.
Variable o : Z.
Hypothesis Ho : readable_opts o.

Lemma get_data_loop_first m id xs fuel b n rest :
  xlayout o m b n xs rest -> (Z.to_nat n < fuel)%nat -> n < 65536 ->
  get_data_loop fuel m b n id o = Some (first_data o b xs id).
Proof.
  pose proof (hdr_range o) as Hh.
  revert fuel b n. induction xs as [|x xs IH]; intros [|fuel] b n Hl Hf Hn; try lia; cbn [get_data_loop first_data].
  - apply (xlayout_nil _ _ _ _ _ Ho) in Hl as [Hlt|(Hge & id' & k & -> & _ & Hk & Hsz)].
    { by rewrite bool_decide_false by lia. }
    rewrite bool_decide_true by lia. cbn [mbind option_bind].
    pose proof (size_for_data_bounds o k Hk). rewrite s32_small by lia. by rewrite bool_decide_true by lia.
  - pose proof (xlayout_cons _ _ _ _ _ _ _ Ho Hl) as (-> & _ & Hx & Hsz & _ & _ & Hl').
    pose proof (x_size_bounds o x Hx). fold (x_size o x).
    rewrite bool_decide_true by lia. cbn [mbind option_bind]. fold (x_size o x).
    rewrite s32_small by lia. rewrite bool_decide_false by lia.
    case_bool_decide; [done|]. apply IH; [done|lia..].
Qed.

Lemma unpack_loop_visit {W} (cbfn : mem -> W -> Z -> Z -> Z -> Z * W) m xs fuel b n rest ctx :
  xlayout o m b n xs rest -> (Z.to_nat n < fuel)%nat -> n < 65536 ->
  unpack_loop cbfn fuel m ctx b n o BCME_OK = Some (visit o cbfn m b ctx xs).
Proof.
  pose proof (hdr_range o) as Hh.
  revert fuel b n ctx. induction xs as [|x xs IH]; intros [|fuel] b n ctx Hl Hf Hn; try lia; cbn [unpack_loop visit].
  - apply (xlayout_nil _ _ _ _ _ Ho) in Hl as [Hlt|(Hge & id' & k & -> & _ & Hk & Hsz)].
    { by rewrite bool_decide_false by lia. }
    rewrite bool_decide_true by lia. cbn [mbind option_bind].
    pose proof (size_for_data_bounds o k Hk). rewrite u32_small by lia. by rewrite bool_decide_true by lia.
  - pose proof (xlayout_cons _ _ _ _ _ _ _ Ho Hl) as (-> & _ & Hx & Hsz & _ & _ & Hl').
    pose proof (x_size_bounds o x Hx).
    rewrite bool_decide_true by lia. cbn [mbind option_bind]. fold (x_size o x).
    rewrite u32_small by lia. rewrite bool_decide_false by lia.
    destruct (cbfn _ _ _ _ _) as [res ctx']. case_bool_decide; simpl; [|done].
    subst res. apply IH; [done|lia..].
Qed.

Lemma valid_xtlv_layout m b n xs rest :
  xlayout o m b n xs rest -> bcm_valid_xtlv m (Some b) n o = Some (match xs with [] => false | _ => true end).
Proof.
  intros Hl. unfold bcm_valid_xtlv, bcm_xtlv_size. pose proof (hdr_range o). destruct xs as [|x xs].
  - apply (xlayout_nil _ _ _ _ _ Ho) in Hl as [Hlt|(Hge & id' & k & _ & -> & _ & Hsz)].
    { by rewrite bool_decide_false by lia. }
    rewrite bool_decide_true by lia. cbn [mbind option_bind]. by rewrite bool_decide_false by lia.
  - apply (xlayout_cons _ _ _ _ _ _ _ Ho) in Hl as (_ & -> & Hx & Hsz & _).
    pose proof (x_size_bounds o x Hx). rewrite bool_decide_true by lia. cbn [mbind option_bind].
    fold (x_size o x). by rewrite bool_decide_true by lia.
Qed.

Lemma next_xtlv_layout m b n x xs rest :
  xlayout o m b n (x :: xs) rest -> n < 2147483648 ->
  bcm_next_xtlv m (Some b) n o
  = Some (match xs with [] => None | _ => Some (b + x_size o x) end, n - x_size o x).
Proof.
  intros Hl Hn. unfold bcm_next_xtlv, bcm_xtlv_size. rewrite (valid_xtlv_layout _ _ _ _ _ Hl).
  apply (xlayout_cons _ _ _ _ _ _ _ Ho) in Hl as (_ & -> & Hx & Hsz & _ & _ & Hl).
  cbn [mbind option_bind]. fold (x_size o x). pose proof (x_size_bounds o x Hx). pose proof (hdr_range o).
  rewrite s32_small by lia. rewrite (valid_xtlv_layout _ _ _ _ _ Hl). cbn [mbind option_bind]. by destruct xs.
Qed.
End Readers.

(** ** Writers *)

Section Writers.
Variable o : Z.
Hypothesis Hw : writable_opts o.

(** [put_int] copies the integers: the host's byte order is the wire's. *)
Lemma put_int_loop_copy sz j m xd data :
  (sz = 2 ∨ sz = 4 ∨ sz = 8)%nat -> bytes_ok m ->
  readable m xd (Z.of_nat (j * sz)) = true -> readable m data (Z.of_nat (j * sz)) = true ->
  disjoint_areas data (Z.of_nat (j * sz)) xd (Z.of_nat (j * sz)) ->
  put_int_loop j m xd data (Z.of_nat sz) = Some (BCME_OK, splice m xd (slice m data (j * sz))).
Proof.
  intros Hsz. revert m xd data. induction j as [|j IH]; intros m xd data Hm Hx Hd Hdis.
  { simpl. unfold slice. rewrite take_0, splice_nil; [done|]. apply readable_spec in Hx. lia. }
  pose proof (proj1 (readable_spec _ _ _) Hx) as Hx'. pose proof (proj1 (readable_spec _ _ _) Hd) as Hd'.
  unfold disjoint_areas in Hdis. simpl in Hx', Hd', Hdis.
  assert (readable m data (Z.of_nat sz) = true) as Hds by (apply readable_spec; lia).
  assert (readable m xd (Z.of_nat sz) = true) as Hxs by (apply readable_spec; lia).
  pose proof (bytes_ok_slice m data sz Hm) as Hok. pose proof (length_slice _ _ _ Hds) as Hlen.
  pose proof (le_bytes_val _ Hok) as Hle. rewrite Hlen in Hle.
  assert (put_int_loop (S j) m xd data (Z.of_nat sz)
    = put_int_loop j (splice m xd (slice m data sz)) (xd + Z.of_nat sz) (data + Z.of_nat sz) (Z.of_nat sz)) as ->.
  { destruct Hsz as [-> | [-> | ->]]; cbn [put_int_loop]; rewrite bool_decide_false by lia;
      repeat (first [rewrite bool_decide_true by lia | rewrite bool_decide_false by lia]).
    - pose proof Hlen as Hl2. destruct (slice m data 2) as [|a [|b [|]]] eqn:Hs; try discriminate Hl2.
      assert (0 <= a < 256) by (inversion Hok; lia).
      rewrite (ltoh16_ua_slice m data a b Hds Hs) by done. cbn [mbind option_bind].
      rewrite htol16_ua_store_splice by done. cbn [mbind option_bind].
      replace (a + 256 * b) with (le_val [a; b]) by (cbn; lia). by rewrite Hle.
    - rewrite (ltoh32_ua_slice m data _ Hds eq_refl Hok). cbn [mbind option_bind].
      change (Z.to_nat 4) with 4%nat. rewrite htol32_ua_store_splice by done. cbn [mbind option_bind]. by rewrite Hle.
    - rewrite (ltoh64_ua_slice m data _ Hds eq_refl Hok). cbn [mbind option_bind].
      change (Z.to_nat 8) with 8%nat. rewrite htol64_ua_store_splice by done. cbn [mbind option_bind]. by rewrite Hle. }
  assert (readable m xd (Z.of_nat (length (slice m data sz))) = true) as Hrl by (by rewrite Hlen).
  rewrite IH; [|by apply bytes_ok_splice|rewrite readable_splice by done; apply readable_spec; lia
    |rewrite readable_splice by done; apply readable_spec; lia|unfold disjoint_areas; lia].
  rewrite slice_splice_other by (done || lia || (rewrite Hlen; unfold disjoint_areas; lia)).
  replace (xd + Z.of_nat sz) with (xd + Z.of_nat (length (slice m data sz))) by (by rewrite Hlen).
  rewrite splice_app.
  - do 2 f_equal. change (S j * sz)%nat with (sz + j * sz)%nat. by rewrite slice_app by lia.
  - rewrite length_app, Hlen, length_slice by (apply readable_spec; lia). apply readable_spec. lia.
Qed.

(** The result of appending [k] bytes [data] with id [id] at [d]. *)
Definition appended (m : mem) (d id k : Z) (data : list Z) : mem :=
  splice m d (id_enc o id ++ len_enc o k ++ data).

Definition outside (m : mem) (s : Z) (k : nat) (d n : Z) : Prop :=
  readable m s (Z.of_nat k) = true ∧ disjoint_areas s (Z.of_nat k) d n.

Lemma pack_appends m d n id k s :
  0 <= id < id_max o -> Z.of_nat k < len_max o -> readable m d n = true -> outside m s k d n ->
  bcm_xtlv_size_for_data (Z.of_nat k) o <= n ->
  bcm_xtlv_pack_xtlv m d id (Z.of_nat k) (Some s) o = Some (appended m d id (Z.of_nat k) (slice m s k)).
Proof.
  intros Hid Hk Hd [Hs Hdis] Hn. pose proof (len_max_le o).
  pose proof (size_for_data_bounds o (Z.of_nat k) ltac:(lia)). apply readable_spec in Hd. pose proof (hdr_range o).
  apply pack_data; try done; [apply readable_spec; lia|]. unfold disjoint_areas in *. lia.
Qed.

Lemma pack_entry_spec m d n id k s :
  0 <= id < id_max o -> Z.of_nat k < len_max o -> 0 <= n < 65536 -> readable m d n = true -> outside m s k d n ->
  let sz := bcm_xtlv_size_for_data (Z.of_nat k) o in
  bcm_pack_xtlv_entry m d n id (Z.of_nat k) (Some s) o
  = Some (if bool_decide (sz <= n) then (BCME_OK, d + sz, n - sz, appended m d id (Z.of_nat k) (slice m s k))
          else (BCME_BADLEN, d, n, m)).
Proof.
  intros Hid Hk Hn Hd Hs sz. unfold bcm_pack_xtlv_entry. fold sz. pose proof (len_max_le o).
  pose proof (size_for_data_bounds o (Z.of_nat k) ltac:(lia)) as Hsz. fold sz in Hsz. pose proof (hdr_range o).
  case_bool_decide as H1; case_bool_decide as H2; try lia; [done|].
  rewrite (pack_appends m d n) by done. cbn [mbind option_bind]. by rewrite !u16_small by (rewrite ?u16_small; lia).
Qed.

(** The space left. *)
Lemma rlen_spec t :
  0 <= buf t - head t <= size t -> size t < 65536 -> bcm_xtlv_buf_rlen (Some t) = size t - (buf t - head t).
Proof.
  intros Hb Hs. unfold bcm_xtlv_buf_rlen, bcm_xtlv_buf_len. by rewrite !u16_small by (rewrite ?u16_small; lia).
Qed.

(** A buffer of these options holding [xs]. *)
Definition xbuf_holds (m : mem) (t : bcm_xtlvbuf) (xs : list xtlv) : Prop :=
  opts t = o ∧ 0 <= buf t - head t <= size t ∧ size t < 65536 ∧ readable m (head t) (size t) = true
  ∧ xlayout o m (head t) (buf t - head t) xs [].

Definition room (t : bcm_xtlvbuf) : Z := size t - (buf t - head t).

Lemma xbuf_room m t xs : xbuf_holds m t xs -> 0 <= room t < 65536 ∧ readable m (buf t) (room t) = true.
Proof.
  intros (_ & Hb & Hs & Hr & _). unfold room. split; [lia|]. apply readable_spec in Hr. apply readable_spec. lia.
Qed.

Lemma put_data_spec m t xs id k s :
  xbuf_holds m t xs -> 0 <= id < id_max o -> Z.of_nat k < len_max o -> outside m s k (buf t) (room t) ->
  let sz := bcm_xtlv_size_for_data (Z.of_nat k) o in
  bcm_xtlv_put_data m (Some t) id (Some s) (Z.of_nat k)
  = Some (if bool_decide (sz <= room t)
          then (BCME_OK, Some (set_buf t (buf t + sz)), appended m (buf t) id (Z.of_nat k) (slice m s k))
          else (BCME_NOMEM, Some t, m)).
Proof.
  intros Ht Hid Hk Hs sz. destruct (xbuf_room _ _ _ Ht) as [Hroom Hrr]. destruct Ht as (Hopts & Hb & Hsz & _).
  unfold bcm_xtlv_put_data. rewrite rlen_spec, Hopts by done. fold sz (room t). pose proof (len_max_le o).
  case_bool_decide as H1; case_bool_decide as H2; try lia; [done|].
  rewrite u16_small by lia. rewrite (pack_appends m (buf t) (room t)) by done. done.
Qed.

(** After a put that fits, the buffer holds one more element. *)
Lemma xbuf_append m t xs id k data :
  xbuf_holds m t xs -> 0 <= id < id_max o -> 0 <= k < len_max o -> Z.of_nat (length data) = k ->
  let sz := bcm_xtlv_size_for_data k o in
  sz <= room t ->
  xbuf_holds (appended m (buf t) id k data) (set_buf t (buf t + sz)) (xs ++ [packed o m (buf t) id k data]).
Proof.
  intros Ht Hid Hk Hlen sz Hfit. destruct (xbuf_room _ _ _ Ht) as [Hroom Hrr].
  destruct Ht as (Hopts & Hb & Hsz & Hr & Hl). unfold room in *. pose proof (len_max_le o).
  pose proof (size_for_data_bounds o k ltac:(lia)) as Hbd. fold sz in Hbd. pose proof (hdr_range o).
  pose proof (proj1 (readable_spec _ _ _) Hrr).
  pose proof (xlayout_append o m (head t) (buf t - head t) xs id k data Hl Hid Hk Hlen) as Hl'.
  replace (head t + (buf t - head t)) with (buf t) in Hl' by lia. fold sz in Hl'.
  assert (readable m (buf t) sz = true) as Hrs by (apply readable_spec; lia). specialize (Hl' Hrs).
  split; [done|]. cbn [set_buf buf head size]. split; [lia|]. split; [done|].
  replace (buf t + sz - head t) with (buf t - head t + sz) by lia. split; [|done].
  unfold appended. rewrite readable_splice; [done|]. rewrite !length_app.
  pose proof (length_hdr o id k). apply readable_spec. lia.
Qed.

Lemma put_int_is_put_data m t xs id j sz s :
  (sz = 2 ∨ sz = 4 ∨ sz = 8)%nat -> bytes_ok m ->
  xbuf_holds m t xs -> 0 <= id < id_max o -> Z.of_nat (j * sz) < len_max o ->
  outside m s (j * sz) (buf t) (room t) ->
  bcm_xtlv_put_int m (Some t) id s (Z.of_nat j) (Z.of_nat sz)
  = bcm_xtlv_put_data m (Some t) id (Some s) (Z.of_nat (j * sz)).
Proof.
  intros Hsz Hm Ht Hid Hk Hs. rewrite (put_data_spec _ _ xs) by done.
  destruct (xbuf_room _ _ _ Ht) as [Hroom Hrr]. destruct Ht as (Hopts & Hb & Hsize & _).
  pose proof (len_max_le o). unfold bcm_xtlv_put_int. rewrite <-Nat2Z.inj_mul, s32_small by lia.
  set (k := (j * sz)%nat) in *. set (size := bcm_xtlv_size_for_data (Z.of_nat k) o).
  pose proof (size_for_data_bounds o (Z.of_nat k) ltac:(lia)) as Hbd. fold size in Hbd.
  pose proof (proj1 (readable_spec _ _ _) Hrr). pose proof (hdr_range o) as Hh.
  unfold bcm_xtlv_put_data. rewrite rlen_spec, Hopts by done. fold size (room t).
  destruct (decide (size <= room t));
    [rewrite (bool_decide_false (room t < size)), (bool_decide_true (size <= _)) by lia
    |rewrite (bool_decide_true (room t < size)), (bool_decide_false (size <= _)) by lia; done].
  rewrite u16_small, pack_header by (done || lia || (apply readable_spec; lia)).
  cbn [mbind option_bind]. rewrite (bool_decide_true (BCME_OK = BCME_OK)) by done. cbn [negb].
  rewrite bool_decide_false by lia.
  destruct Hs as [Hs Hdis]. pose proof (proj1 (readable_spec _ _ _) Hs). unfold disjoint_areas in Hdis.
  pose proof (length_hdr o id (Z.of_nat k)) as Hlh. rewrite <-length_app in Hlh.
  set (h := id_enc o id ++ len_enc o (Z.of_nat k)) in *.
  assert (readable m (buf t) (Z.of_nat (length h)) = true) as Hrh by (apply readable_spec; lia).
  assert (bytes_ok h) as Hbh.
  { apply Forall_app. unfold id_enc, len_enc, id_max, len_max in *.
    split; [destruct (has o BCM_XTLV_OPTION_IDU8)|destruct (has o BCM_XTLV_OPTION_LENU8)];
      first [by apply enc16_range; lia | repeat constructor; lia]. }
  rewrite Nat2Z.id, put_int_loop_copy; [|done|by apply bytes_ok_splice|rewrite readable_splice by done;
    fold k; apply readable_spec; lia|rewrite readable_splice by done; fold k; apply readable_spec; lia
    |fold k; unfold disjoint_areas; lia].
  fold k. cbn [mbind option_bind]. rewrite slice_splice_other by (done || lia || (unfold disjoint_areas; lia)).
  rewrite <-Hlh, splice_app.
  - unfold appended, h. by rewrite <-app_assoc.
  - rewrite length_app, length_slice by done. apply readable_spec. lia.
Qed.
End Writers.

(** ** Descriptors *)

Section Descriptors.
Variable o : Z.
Hypothesis Hw : writable_opts o.

(** The descriptors before the terminator that are packed. *)
Fixpoint kept (items : list xtlv_desc) : option (list xtlv_desc) :=
  match items with
  | [] => None
  | it :: items =>
      if bool_decide (type it = 0) then Some []
      else ks ← kept items;
           Some (if negb (bool_decide (len it = 0)) && negb (bool_decide (ptr it = None)) then it :: ks else ks)
  end.

Definition item_data (m : mem) (it : xtlv_desc) : list Z :=
  match ptr it with Some s => slice m s (Z.to_nat (len it)) | None => [] end.

(** A packable descriptor: fields in range, its bytes apart from the buffer. *)
Definition item_ok (m : mem) (d n : Z) (it : xtlv_desc) : Prop :=
  0 <= type it < id_max o ∧ 0 <= len it < len_max o
  ∧ ∃ s, ptr it = Some s ∧ outside m s (Z.to_nat (len it)) d n.

(** [m'] is [m] outside [d, d + n). *)
Definition frame (m m' : mem) (d n : Z) : Prop :=
  length m' = length m ∧ ∀ q k, 0 <= q -> disjoint_areas q (Z.of_nat k) d n -> slice m' q k = slice m q k.

Lemma frame_splice m d n l :
  readable m d n = true -> Z.of_nat (length l) <= n -> frame m (splice m d l) d n.
Proof.
  intros Hd%readable_spec Hl. assert (readable m d (Z.of_nat (length l)) = true) by (apply readable_spec; lia).
  split; [by apply length_splice|]. intros q k Hq Hdis. apply slice_splice_other; [done..|].
  unfold disjoint_areas in *. lia.
Qed.

Lemma frame_tail m m1 m2 d n j :
  0 <= j -> frame m m1 d n -> frame m1 m2 (d + j) (n - j) -> frame m m2 d n.
Proof.
  intros Hj [Hl1 H1] [Hl2 H2]. split; [congruence|]. intros q k Hq Hdis. rewrite H2, H1; [done..|].
  unfold disjoint_areas in *. lia.
Qed.

Lemma readable_frame m m' d n q k : frame m m' d n -> readable m' q k = readable m q k.
Proof. intros [Hl _]. unfold readable. by rewrite Hl. Qed.

Lemma item_ok_frame m m' d n j it :
  0 <= j -> frame m m' d n -> item_ok m d n it ->
  item_ok m' (d + j) (n - j) it ∧ item_data m' it = item_data m it.
Proof.
  intros Hj Hf (Ht & Hl & s & Hs & Hr & Hdis). unfold item_data. rewrite Hs. split.
  - split; [done|]. split; [done|]. exists s. split; [done|]. split; [by rewrite (readable_frame _ _ _ _ _ _ Hf)|].
    unfold disjoint_areas in *. lia.
  - apply readable_spec in Hr. destruct Hf as [_ Hf]. apply Hf; [lia|done].
Qed.

Lemma length_appended_bytes id k data :
  0 <= k < 65536 -> Z.of_nat (length data) = k ->
  Z.of_nat (length (id_enc o id ++ len_enc o k ++ data)) <= bcm_xtlv_size_for_data k o.
Proof.
  intros Hk Hd. rewrite !length_app. pose proof (length_hdr o id k). pose proof (size_for_data_bounds o k Hk). lia.
Qed.

Lemma length_item_data m d n it : item_ok m d n it -> Z.of_nat (length (item_data m it)) = len it.
Proof.
  intros (_ & Hl & s & Hs & Hr & _). unfold item_data. rewrite Hs, length_slice by done. lia.
Qed.

(** One descriptor: its element is appended, in [d, d + sz), or it does not fit. *)
Lemma pack_item m d n it :
  item_ok m d n it -> 0 <= n < 65536 -> readable m d n = true ->
  let sz := bcm_xtlv_size_for_data (len it) o in
  let m1 := appended o m d (type it) (len it) (item_data m it) in
  bcm_pack_xtlv_entry m d n (type it) (len it) (ptr it) o
  = Some (if bool_decide (sz <= n) then (BCME_OK, d + sz, n - sz, m1) else (BCME_BADLEN, d, n, m))
  ∧ 0 <= sz ∧ (sz <= n -> readable m d sz = true ∧ frame m m1 d n).
Proof.
  intros Hit Hn Hr sz m1. pose proof (length_item_data _ _ _ _ Hit) as Hlen.
  destruct Hit as (Hid & Hl & s & Hs & Hout). pose proof (len_max_le o). pose proof (hdr_range o).
  pose proof (size_for_data_bounds o (len it) ltac:(lia)) as Hsz. fold sz in Hsz. split; [|split; [lia|]].
  - subst sz m1. unfold item_data. rewrite Hs. remember (Z.to_nat (len it)) as k eqn:Hk.
    replace (len it) with (Z.of_nat k) by lia. apply (pack_entry_spec _ Hw); try done. lia.
  - intros Hfit. apply readable_spec in Hr. split; [apply readable_spec; lia|].
    apply frame_splice; [apply readable_spec; lia|]. etrans; [apply length_appended_bytes; lia|]. done.
Qed.

(** The descriptors packed, in order, until one does not fit. *)
Definition packed_as (m : mem) (it : xtlv_desc) (y : xtlv) : Prop :=
  x_id y = type it ∧ x_data y = item_data m it.

Lemma pack_items_spec items ks m b n0 xs n :
  kept items = Some ks -> xlayout o m b n0 xs [] -> 0 <= n < 65536 -> readable m (b + n0) n = true ->
  Forall (item_ok m (b + n0) n) ks ->
  ∃ m' n' done todo ys,
    pack_items m (b + n0) n items o
    = Some (if todo is [] then BCME_OK else BCME_BADLEN, b + n0 + (n - n'), n', m')
    ∧ ks = done ++ todo ∧ Forall2 (packed_as m) done ys ∧ 0 <= n' <= n
    ∧ (if todo is it :: _ then n' < bcm_xtlv_size_for_data (len it) o else True)
    ∧ xlayout o m' b (n0 + (n - n')) (xs ++ ys) [] ∧ frame m m' (b + n0) n.
Proof.
  revert ks m n0 xs n. induction items as [|it items IH]; intros ks m n0 xs n Hk Hl Hn Hr Hok; [done|].
  simpl in Hk |- *. case_bool_decide as Hty.
  { injection Hk as <-. exists m, n, [], [], []. rewrite Z.sub_diag, !Z.add_0_r, (app_nil_r xs).
    split_and!; try done; lia. }
  destruct (kept items) as [ks'|] eqn:Hks; [|done]. simpl in Hk. injection Hk as <-.
  destruct (negb (bool_decide (len it = 0)) && negb (bool_decide (ptr it = None))) eqn:Hkeep;
    [|by apply IH].
  apply Forall_cons in Hok as [Hit Hok]. destruct (pack_item _ _ _ _ Hit Hn Hr) as (-> & Hsz0 & Hfr).
  cbn [mbind option_bind]. set (sz := bcm_xtlv_size_for_data (len it) o) in *.
  destruct (decide (sz <= n)) as [Hfit|Hfit];
    [rewrite (bool_decide_true (sz <= n)) by done|rewrite (bool_decide_false (sz <= n)) by done].
  2: { exists m, n, [], (it :: ks'), []. rewrite Z.sub_diag, !Z.add_0_r, (app_nil_r xs).
       rewrite bool_decide_false by (unfold BCME_BADLEN, BCME_OK; lia). split_and!; try done; fold sz; lia. }
  rewrite bool_decide_true by done. cbn [negb]. destruct (Hfr Hfit) as [Hrsz Hf].
  pose proof Hit as (Hid & Hlen & _).
  pose proof (xlayout_append o m b n0 xs (type it) (len it) _ Hl Hid Hlen (length_item_data _ _ _ _ Hit) Hrsz) as Hl'.
  fold sz in Hl'. fold (appended o m (b + n0) (type it) (len it) (item_data m it)) in Hl'.
  set (m1 := appended o m _ _ _ _) in *. set (y := packed o m (b + n0) (type it) (len it) _) in *.
  destruct (IH ks' m1 (n0 + sz) (xs ++ [y]) (n - sz)) as (m' & n' & done & todo & ys & He & -> & Hys & Hn' & Hst & Hlay & Hf').
  - done.
  - done.
  - lia.
  - rewrite (readable_frame _ _ _ _ _ _ Hf). apply readable_spec in Hr. apply readable_spec. lia.
  - eapply Forall_impl; [exact Hok|]. intros it' Hit'. rewrite Z.add_assoc. by apply (item_ok_frame m m1); [lia|..].
  - exists m', n', (it :: done), todo, (y :: ys). rewrite Z.add_assoc in He. rewrite He.
    replace (b + n0 + sz + (n - sz - n')) with (b + n0 + (n - n')) by lia. split; [done|]. split; [done|]. split.
    { constructor; [done|].
      apply Forall_app in Hok as [Hok _]. clear -Hys Hok Hf. induction Hys as [|it' y' l l' Hy Hys IH]; [constructor|].
      apply Forall_cons in Hok as [Hit Hok]. constructor; [|by apply IH].
      destruct Hy as [Hy1 Hy2]. split; [done|]. rewrite Hy2. by apply (item_ok_frame m m1 (b + n0) n 0). }
    split; [lia|]. split; [done|]. split.
    + rewrite <-app_assoc in Hlay. cbn [app] in Hlay.
      replace (n0 + (n - n')) with (n0 + sz + (n - sz - n')) by lia. done.
    + apply (frame_tail _ m1 _ _ _ sz); [lia|done|]. by rewrite <-Z.add_assoc.
Qed.
End Descriptors.

(** ** Unpacking to memory *)

Section Unpacking.
Variable o : Z.
Hypothesis Ho : readable_opts o.

(** The descriptor of an id; [its] is the array without its terminator. *)
Definition find_item (its : list xtlv_desc) (id : Z) : option xtlv_desc :=
  List.find (fun it => bool_decide (id = type it)) its.

Definition store (m : mem) (it : xtlv_desc) (data : list Z) : mem :=
  match ptr it with Some p => splice m p data | None => m end.

(** The elements delivered to the descriptors in order, up to the first one
    whose length is not its descriptor's; with what is left of the buffer. *)
Fixpoint deliver (its : list xtlv_desc) (m : mem) (n : Z) (xs : list xtlv) : Z * Z * mem :=
  match xs with
  | [] => (BCME_OK, n, m)
  | x :: xs =>
      match find_item its (x_id x) with
      | None => deliver its m (n - x_size o x) xs
      | Some it =>
          if bool_decide (x_len x = len it) then deliver its (store m it (x_data x)) (n - x_size o x) xs
          else (BCME_BADLEN, n - x_size o x, m)
      end
  end.

(** A destination: room for the descriptor's length, apart from the buffer. *)
Definition dest_ok (m : mem) (b n : Z) (it : xtlv_desc) : Prop :=
  type it ≠ 0 ∧ 0 <= len it ∧ ∃ p, ptr it = Some p ∧ readable m p (len it) = true ∧ disjoint_areas p (len it) b n.

Lemma match_items_find m id k data its stop :
  Forall (fun it => type it ≠ 0) its -> type stop = 0 ->
  match_items m id k data (its ++ [stop])
  = match find_item its id with
    | None => Some (BCME_OK, m)
    | Some it => if negb (bool_decide (k = len it)) then Some (BCME_BADLEN, m)
                 else if bool_decide (k = 0) then Some (BCME_OK, m)
                 else p ← ptr it; m ← memcpy m p data k; Some (BCME_OK, m)
    end.
Proof.
  intros Hits Hstop. unfold find_item. induction Hits as [|it its Hit Hits IH]; simpl.
  - by rewrite bool_decide_true.
  - rewrite bool_decide_false by done. by destruct (bool_decide (id = type it)).
Qed.

Lemma find_item_in its id it : find_item its id = Some it -> it ∈ its.
Proof.
  intros H. apply List.find_some in H as [H _]. by apply list_elem_of_In.
Qed.

(** What is stored leaves the buffer and the destinations as they were. *)
Lemma store_keeps m b n it data :
  dest_ok m b n it -> Z.of_nat (length data) = len it ->
  (∀ q k, readable (store m it data) q k = readable m q k)
  ∧ (∀ q k, 0 <= q -> b <= q -> q + Z.of_nat k <= b + n -> slice (store m it data) q k = slice m q k).
Proof.
  intros (_ & Hl & p & Hp & Hr & Hdis) Hd. unfold store. rewrite Hp. rewrite <-Hd in *. split.
  - intros q k. by apply readable_splice.
  - intros q k Hq Hb Hk. apply slice_splice_other; [done..|]. unfold disjoint_areas in *. lia.
Qed.

Lemma xlayout_keeps m m' b n xs rest :
  (∀ q k, readable m' q k = readable m q k) -> (∀ q k, 0 <= q -> b <= q -> q + Z.of_nat k <= b + n -> slice m' q k = slice m q k) ->
  xlayout o m b n xs rest -> xlayout o m' b n xs rest.
Proof.
  intros Hr Hs (H1 & H2 & H3). pose proof (proj1 (readable_spec _ _ _) H1).
  split; [by rewrite Hr|]. split; [|done]. rewrite Hs; [done|lia..].
Qed.

Lemma dest_ok_tail m m' b n j it :
  0 <= j -> (∀ q k, readable m' q k = readable m q k) -> dest_ok m b n it -> dest_ok m' (b + j) (n - j) it.
Proof.
  intros Hj Hr (H1 & H2 & p & Hp & H3 & H4). split; [done|]. split; [done|]. exists p. rewrite Hr.
  split_and!; try done. unfold disjoint_areas in *. lia.
Qed.

(** The delivery of one element. *)
Lemma match_items_store m b n x xs rest its stop :
  xlayout o m b n (x :: xs) rest -> Forall (dest_ok m b n) its -> type stop = 0 ->
  match_items m (x_id x) (x_len x) (b + bcm_xtlv_hdr_size o) (its ++ [stop])
  = Some (match find_item its (x_id x) with
          | None => (BCME_OK, m)
          | Some it => if bool_decide (x_len x = len it) then (BCME_OK, store m it (x_data x)) else (BCME_BADLEN, m)
          end).
Proof.
  intros Hl Hd Hstop. rewrite match_items_find; [|eapply Forall_impl; [exact Hd|by intros it (H & _)]|done].
  destruct (find_item its (x_id x)) as [it|] eqn:Hf; [|done].
  apply find_item_in in Hf. rewrite Forall_forall in Hd. destruct (Hd it Hf) as (_ & _ & p & Hp & Hr & Hdis).
  destruct (decide (x_len x = len it)) as [Hlen|Hlen];
    [rewrite bool_decide_true by done|by rewrite bool_decide_false by done].
  simpl. unfold store. rewrite Hp. pose proof (proj1 (readable_spec _ _ _) Hr).
  apply (xlayout_cons _ _ _ _ _ _ _ Ho) in Hl as (_ & _ & Hx & Hsz & Hrd & Hsd & _). unfold x_len in *.
  case_bool_decide as Hz.
  - assert (x_data x = []) as ->; [apply nil_length_inv; lia|]. rewrite splice_nil; [done|lia].
  - cbn [mbind option_bind]. rewrite <-Hlen in *. rewrite Nat2Z.id in Hsd.
    pose proof (x_size_bounds o x Hx). unfold x_len in *. pose proof (hdr_range o). unfold disjoint_areas in *.
    rewrite memcpy_splice; [|done|done|unfold disjoint_areas; lia]. by rewrite Hsd.
Qed.

Lemma to_mem_loop_deliver its stop x xs fuel m b n rest :
  xlayout o m b n (x :: xs) rest -> (length xs < fuel)%nat -> n < 2147483648 ->
  Forall (dest_ok m b n) its -> type stop = 0 ->
  to_mem_loop (S fuel) m (Some b) n (its ++ [stop]) o BCME_OK = Some (deliver its m n (x :: xs)).
Proof.
  revert fuel m b n x. induction xs as [|y xs IH]; intros fuel m b n x Hl Hf Hn Hd Hstop.
  all: pose proof (xlayout_cons _ _ _ _ _ _ _ Ho Hl) as (Hu & _ & Hx & Hsz & _ & _ & Hl');
    destruct fuel as [|fuel]; [lia|]; cbn [to_mem_loop deliver];
    rewrite (bool_decide_true (BCME_OK = BCME_OK)) by done; cbn [negb]; rewrite Hu; cbn [mbind option_bind];
    rewrite (match_items_store _ _ _ _ _ _ _ _ Hl Hd Hstop); cbn [mbind option_bind];
    pose proof (x_size_bounds o x Hx); pose proof (hdr_range o).
  - assert (∀ m', (∀ q k, readable m' q k = readable m q k) ->
      (∀ q k, 0 <= q -> b <= q -> q + Z.of_nat k <= b + n -> slice m' q k = slice m q k) ->
      bcm_next_xtlv m' (Some b) n o = Some (None, n - x_size o x)) as Hnext.
    { intros m' H1 H2. apply (next_xtlv_layout o Ho m' b n x [] rest); [|done]. by apply (xlayout_keeps m). }
    destruct (find_item its (x_id x)) as [it|] eqn:Hfi; [|by rewrite Hnext].
    case_bool_decide as Hlen; [|by rewrite Hnext].
    apply find_item_in in Hfi. rewrite Forall_forall in Hd.
    destruct (store_keeps m b n it (x_data x) (Hd it Hfi) Hlen) as [H1 H2]. by rewrite Hnext.
  - assert (∀ m', (∀ q k, readable m' q k = readable m q k) ->
      (∀ q k, 0 <= q -> b <= q -> q + Z.of_nat k <= b + n -> slice m' q k = slice m q k) ->
      bcm_next_xtlv m' (Some b) n o = Some (Some (b + x_size o x), n - x_size o x)
      ∧ to_mem_loop (S fuel) m' (Some (b + x_size o x)) (n - x_size o x) (its ++ [stop]) o BCME_OK
        = Some (deliver its m' (n - x_size o x) (y :: xs))) as Hgo.
    { intros m' H1 H2. split.
      - apply (next_xtlv_layout o Ho m' b n x (y :: xs) rest); [|done]. by apply (xlayout_keeps m).
      - apply IH; [|simpl in Hf; lia|lia| |done].
        + apply (xlayout_keeps m); [done| |done]. intros q k Hq Hb Hk. apply H2; lia.
        + eapply Forall_impl; [exact Hd|]. intros it Hit. apply (dest_ok_tail m); [lia|done..]. }
    destruct (find_item its (x_id x)) as [it|] eqn:Hfi.
    + case_bool_decide as Hlen.
      * apply find_item_in in Hfi. pose proof (proj1 (Forall_forall _ _) Hd it Hfi) as Hdi.
        destruct (store_keeps m b n it (x_data x) Hdi Hlen) as [H1 H2]. destruct (Hgo _ H1 H2) as [-> Hrec].
        cbn [mbind option_bind]. exact Hrec.
      * destruct (Hgo m) as [-> _]; done.
    + destruct (Hgo m) as [-> Hrec]; [done..|]. cbn [mbind option_bind]. exact Hrec.
Qed.
End Unpacking.

(** ** Properties *)

(** Concrete buffers. *)
Ltac prove_xlayout :=
  split; [reflexivity|]; split; [reflexivity|]; split;
  [repeat (apply Forall_cons; split; [split; [vm_compute; split; [discriminate|reflexivity]
                                             |split; reflexivity]|]); apply Forall_nil; exact I
  |first [left; reflexivity]].

(** With an 8-bit id and a big-endian 16-bit length, the only options
    outside [readable_opts], the length is read at the nominal offset 2, a byte
    past the 3-byte header: walking a buffer that ends with a bare header reads
    outside it. *)
Lemma header_overread (o : Z) (m : mem) (b : Z) :
  ¬ readable_opts o -> readable m b 3 = true -> Z.of_nat (length m) = b + 3 ->
  bcm_xtlv_hdr_size o = 3
  ∧ (∀ id, bcm_get_data_from_xtlv_buf m b 3 id o = None)
  ∧ ∀ (W : Type) (cbfn : mem -> W -> Z -> Z -> Z -> Z * W) ctx, bcm_unpack_xtlv_buf cbfn m ctx b 3 o = None.
Proof.
  intros Ho Hr Hend. apply not_false_is_true in Ho. apply andb_true_iff in Ho as [Ho Hbe].
  apply andb_true_iff in Ho as [Hi Hl]. apply negb_true_iff in Hl.
  assert (bcm_xtlv_hdr_size o = 3) as Hh by (unfold bcm_xtlv_hdr_size; by rewrite Hi, Hl).
  assert (bcm_xtlv_unpack_xtlv m b o = None) as Hu.
  { unfold bcm_xtlv_unpack_xtlv, bcm_xtlv_id, bcm_xtlv_len. rewrite Hi, Hl, Hbe.
    assert (ltoh16_ua m (b + 2) = None) as ->; [|by destruct (rd8 m b)].
    apply readable_spec in Hr. unfold ltoh16_ua. replace (b + 2 + 1) with (b + 3) by lia.
    assert (rd8 m (b + 3) = None) as ->; [|by destruct (rd8 m (b + 2))].
    unfold rd8. case_bool_decide; [|done]. apply lookup_ge_None_2. lia. }
  split; [done|]. split.
  - intros id. unfold bcm_get_data_from_xtlv_buf. cbn [get_data_loop]. rewrite Hh, bool_decide_true, Hu by lia. done.
  - intros W cbfn ctx. unfold bcm_unpack_xtlv_buf. cbn [unpack_loop]. rewrite Hh, bool_decide_true, Hu by lia. done.
Qed.

(** C30.  Under the options of [readable_opts], every buffer is a sequence of
    elements and a tail too short for one, and reading stays inside it: the
    lookup returns the data and length of the first element of the id, the
    callback is called on every element in order until it fails, and
    [bcm_next_xtlv] goes from each element to the following one.  Under the
    other options (an 8-bit id and a big-endian 16-bit length) the length is
    read a byte past the 3-byte header: walking a buffer that ends with a bare
    header reads outside it. *)
Theorem xtlv_buffer_reads (m : mem) (b n o : Z) :
  bytes_ok m -> readable m b n = true -> n < 65536 ->
  (readable_opts o -> ∃ xs rest, xlayout o m b n xs rest
  ∧ (∀ id, bcm_get_data_from_xtlv_buf m b n id o = Some (first_data o b xs id))
  ∧ (∀ (W : Type) (cbfn : mem -> W -> Z -> Z -> Z -> Z * W) ctx,
       bcm_unpack_xtlv_buf cbfn m ctx b n o = Some (visit o cbfn m b ctx xs))
  ∧ bcm_valid_xtlv m (Some b) n o = Some (match xs with [] => false | _ => true end)
  ∧ (∀ x xs', xs = x :: xs' ->
       slice m (b + bcm_xtlv_hdr_size o) (Z.to_nat (x_len x)) = x_data x
       ∧ xlayout o m (b + x_size o x) (n - x_size o x) xs' rest
       ∧ bcm_next_xtlv m (Some b) n o
         = Some (match xs' with [] => None | _ => Some (b + x_size o x) end, n - x_size o x)))
  ∧ (¬ readable_opts o -> n = 3 -> Z.of_nat (length m) = b + 3 ->
     bcm_xtlv_hdr_size o = 3
     ∧ (∀ id, bcm_get_data_from_xtlv_buf m b n id o = None)
     ∧ ∀ (W : Type) (cbfn : mem -> W -> Z -> Z -> Z -> Z * W) ctx, bcm_unpack_xtlv_buf cbfn m ctx b n o = None).
Proof.
  intros Hm Hr Hn. split; [intros Ho|intros Ho -> Hend; by apply header_overread].
  destruct (xlayout_exists o m b n Hm Hr) as (xs & rest & Hl). exists xs, rest.
  split; [done|]. split_and!.
  - intros id. by apply (get_data_loop_first o Ho m id xs _ b n rest); [|lia|].
  - intros W cbfn ctx. by apply (unpack_loop_visit o Ho cbfn m xs _ b n rest); [|lia|].
  - by apply (valid_xtlv_layout o Ho _ _ _ _ rest).
  - intros x xs' ->. pose proof (xlayout_cons _ _ _ _ _ _ _ Ho Hl) as (_ & _ & _ & _ & _ & Hs & Hl').
    split_and!; [done..|]. apply (next_xtlv_layout o Ho m b n x xs' rest Hl). lia.
Qed.

(** Two aligned elements: 7 -> [1; 2; 3] and 8 -> []. *)
Definition xsample : mem := [7; 0; 3; 0; 1; 2; 3; 99; 8; 0; 0; 0].

Lemma xtlv_buffer_reads_witness :
  (∃ xs rest, xlayout BCM_XTLV_OPTION_ALIGN32 xsample 0 12 xs rest
   ∧ bcm_get_data_from_xtlv_buf xsample 0 12 8 BCM_XTLV_OPTION_ALIGN32
     = Some (first_data BCM_XTLV_OPTION_ALIGN32 0 xs 8))
  ∧ bcm_get_data_from_xtlv_buf [7; 0; 0] 0 3 7 (Z.lor BCM_XTLV_OPTION_IDU8 BCM_XTLV_OPTION_LENBE) = None.
Proof.
  split.
  - destruct (xtlv_buffer_reads xsample 0 12 BCM_XTLV_OPTION_ALIGN32) as [H _].
    + unfold bytes_ok, xsample. repeat (apply Forall_cons; split; [lia|]). apply Forall_nil. exact I.
    + reflexivity.
    + lia.
    + destruct H as (xs & rest & Hl & H & _); [reflexivity|]. exists xs, rest. split; [exact Hl|apply H].
  - destruct (xtlv_buffer_reads [7; 0; 0] 0 3 (Z.lor BCM_XTLV_OPTION_IDU8 BCM_XTLV_OPTION_LENBE)) as [_ H].
    + unfold bytes_ok. repeat (apply Forall_cons; split; [lia|]). apply Forall_nil. exact I.
    + reflexivity.
    + lia.
    + destruct H as (_ & H & _); [intros H; discriminate H|reflexivity..|]. apply H.
Defined.

Example xsample_second :
  bcm_get_data_from_xtlv_buf xsample 0 12 8 BCM_XTLV_OPTION_ALIGN32 = Some (Some 12, 0)
  ∧ bcm_get_data_from_xtlv_buf xsample 0 12 7 BCM_XTLV_OPTION_ALIGN32 = Some (Some 4, 3).
Proof. split; reflexivity. Qed.

(** C31.  Let the options write an id and a length that they can read again
    ([writable_opts]: each is of 8 bits or little-endian), let the id and the
    length of the data be within them (below 256 or 65536), and let the buffer be
    well-formed and apart from the data.  Then putting data appends exactly one
    element when it fits, padding and header included, and otherwise returns
    BCME_NOMEM and changes nothing; the integer forms put the bytes of their
    array; packing an entry does the same with a pointer and a length, and
    BCME_BADLEN.  Without these bounds a put that fits does not append that
    element: a big-endian option is ignored, a length over 255 truncated
    ([bcm_xtlv_pack_header_reads]). *)
Theorem bcm_xtlv_put_appends (m : mem) (t : bcm_xtlvbuf) (xs : list xtlv) (o id : Z) (k : nat) (s : Z) :
  writable_opts o -> xbuf_holds o m t xs -> 0 <= id < id_max o -> Z.of_nat k < len_max o ->
  outside m s k (buf t) (room t) ->
  let sz := bcm_xtlv_size_for_data (Z.of_nat k) o in
  let t' := set_buf t (buf t + sz) in
  let m' := appended o m (buf t) id (Z.of_nat k) (slice m s k) in
  bcm_xtlv_put_data m (Some t) id (Some s) (Z.of_nat k)
  = Some (if bool_decide (sz <= room t) then (BCME_OK, Some t', m') else (BCME_NOMEM, Some t, m))
  ∧ (sz <= room t -> xbuf_holds o m' t' (xs ++ [packed o m (buf t) id (Z.of_nat k) (slice m s k)]))
  ∧ bcm_pack_xtlv_entry m (buf t) (room t) id (Z.of_nat k) (Some s) o
    = Some (if bool_decide (sz <= room t) then (BCME_OK, buf t + sz, room t - sz, m')
            else (BCME_BADLEN, buf t, room t, m))
  ∧ (bytes_ok m ->
     (∀ j, k = (j * 2)%nat -> bcm_xtlv_put16 m (Some t) id s (Z.of_nat j)
                              = bcm_xtlv_put_data m (Some t) id (Some s) (Z.of_nat k))
     ∧ (∀ j, k = (j * 4)%nat -> bcm_xtlv_put32 m (Some t) id s (Z.of_nat j)
                                = bcm_xtlv_put_data m (Some t) id (Some s) (Z.of_nat k))
     ∧ (∀ j, k = (j * 8)%nat -> bcm_xtlv_put64 m (Some t) id s (Z.of_nat j)
                                = bcm_xtlv_put_data m (Some t) id (Some s) (Z.of_nat k))).
Proof.
  intros Hw Ht Hid Hk Hs sz t' m'. destruct (xbuf_room _ _ _ _ Ht) as [Hroom Hrr].
  split; [by apply (put_data_spec o Hw m t xs)|]. split; [|split].
  - intros Hfit. apply (xbuf_append o m t xs id); try done; [lia|]. by rewrite length_slice by apply Hs.
  - by apply (pack_entry_spec o Hw).
  - intros Hm. assert (∀ sz j, (sz = 2 ∨ sz = 4 ∨ sz = 8)%nat -> k = (j * sz)%nat ->
      bcm_xtlv_put_int m (Some t) id s (Z.of_nat j) (Z.of_nat sz)
      = bcm_xtlv_put_data m (Some t) id (Some s) (Z.of_nat k)) as Hint.
    { intros z j Hz ->. by apply (put_int_is_put_data o Hw m t xs). }
    split_and!; intros j Hj; [apply (Hint 2%nat)|apply (Hint 4%nat)|apply (Hint 8%nat)]; auto.
Qed.

(** A buffer of 8 bytes with one element, then two 16-bit integers. *)
Definition xbuf_mem : mem := [9; 0; 5; 0; 0; 0; 0; 0; 1; 2; 3; 4].
Definition xbuf8 : bcm_xtlvbuf := {| opts := 6; size := 8; head := 0; buf := 2 |}.

Lemma bcm_xtlv_put_appends_witness :
  bcm_xtlv_put16 xbuf_mem (Some xbuf8) 5 8 2
  = Some (BCME_OK, Some (set_buf xbuf8 8), [9; 0; 5; 4; 1; 2; 3; 4; 1; 2; 3; 4]).
Proof.
  destruct (bcm_xtlv_put_appends xbuf_mem xbuf8 [{| x_id := 9; x_data := []; x_pad := [] |}]
    6 5 4 8) as (H1 & _ & _ & H2).
  - split; left; reflexivity.
  - split; [reflexivity|]. split; [cbn; lia|]. split; [cbn; lia|]. split; [reflexivity|]. prove_xlayout.
  - vm_compute. split; [discriminate|reflexivity].
  - vm_compute. reflexivity.
  - split; [reflexivity|]. right. vm_compute. discriminate.
  - destruct H2 as [H2 _].
    + unfold bytes_ok. cbn. repeat (apply Forall_cons; split; [lia|]). apply Forall_nil. exact I.
    + etransitivity; [exact (H2 2%nat eq_refl)|]. exact H1.
Defined.

(** Packing a descriptor array appends, in order, the elements of the
    descriptors that have a length and a pointer, each with its type and its
    bytes, until the terminator (BCME_OK) or the first that does not fit
    (BCME_BADLEN, with those before it packed); nothing outside the buffer
    changes. *)
Theorem bcm_pack_xtlv_buf_from_mem_spec (o : Z) (items ks : list xtlv_desc) (m : mem) (b n0 n : Z) (xs : list xtlv) :
  writable_opts o -> kept items = Some ks -> xlayout o m b n0 xs [] -> 0 <= n < 65536 ->
  readable m (b + n0) n = true -> Forall (item_ok o m (b + n0) n) ks ->
  ∃ m' n' done todo ys,
    bcm_pack_xtlv_buf_from_mem m (b + n0) n items o
    = Some (if todo is [] then BCME_OK else BCME_BADLEN, b + n0 + (n - n'), n', m')
    ∧ ks = done ++ todo ∧ Forall2 (packed_as m) done ys ∧ 0 <= n' <= n
    ∧ (if todo is it :: _ then n' < bcm_xtlv_size_for_data (len it) o else True)
    ∧ xlayout o m' b (n0 + (n - n')) (xs ++ ys) [] ∧ frame m m' (b + n0) n.
Proof. intros Hw. by apply pack_items_spec. Qed.

(** Eight free bytes and four bytes of data. *)
Definition pack_mem : mem := [0; 0; 0; 0; 0; 0; 0; 0; 1; 2; 3; 4].
Definition pack_descs : list xtlv_desc :=
  [{| type := 5; len := 2; ptr := Some 8 |}; {| type := 6; len := 0; ptr := None |};
   {| type := 7; len := 1; ptr := Some 11 |}; {| type := 0; len := 0; ptr := None |}].

Lemma bcm_pack_xtlv_buf_from_mem_spec_witness :
  bcm_pack_xtlv_buf_from_mem pack_mem 0 8 pack_descs 6 = Some (BCME_OK, 7, 1, [5; 2; 1; 2; 7; 1; 4; 0; 1; 2; 3; 4])
  ∧ ∃ m' n' (done todo : list xtlv_desc) ys,
      bcm_pack_xtlv_buf_from_mem pack_mem (0 + 0) 8 pack_descs 6
      = Some (if todo is [] then BCME_OK else BCME_BADLEN, 0 + 0 + (8 - n'), n', m')
      ∧ xlayout 6 m' 0 (0 + (8 - n')) ([] ++ ys) [] ∧ Forall2 (packed_as pack_mem) done ys.
Proof.
  split; [reflexivity|].
  destruct (bcm_pack_xtlv_buf_from_mem_spec 6 pack_descs
    [{| type := 5; len := 2; ptr := Some 8 |}; {| type := 7; len := 1; ptr := Some 11 |}] pack_mem 0 0 8 [])
    as (m' & n' & done & todo & ys & He & _ & Hys & _ & _ & Hl & _).
  - split; left; reflexivity.
  - reflexivity.
  - prove_xlayout.
  - lia.
  - reflexivity.
  - apply Forall_cons. split; [|apply Forall_cons; split; [|apply Forall_nil; exact I]];
      (split; [vm_compute; split; [discriminate|reflexivity]|]; split; [vm_compute; split; [discriminate|reflexivity]|]; eexists; split; [reflexivity|]; split; [reflexivity|]; right; vm_compute; discriminate).
  - exists m', n', done, todo, ys. auto.
Defined.

(** Unpacking a buffer to memory delivers the elements in order to the
    descriptors of their ids, skipping ids without one, and stops with
    BCME_BADLEN at the first whose length is not its descriptor's; a buffer
    with a tail that is no element ends in BCME_BUFTOOSHORT, after every
    delivery; without a first element or descriptors it is BCME_BADARG.  The
    buffer length becomes what is left. *)
Theorem bcm_unpack_xtlv_buf_to_mem_spec (o : Z) (its : list xtlv_desc) (stop : xtlv_desc) (m : mem) (b n : Z)
    (xs : list xtlv) (rest : list Z) :
  readable_opts o -> xlayout o m b n xs rest -> n < 2147483648 -> Forall (dest_ok m b n) its -> type stop = 0 ->
  bcm_unpack_xtlv_buf_to_mem m (Some b) n (Some (its ++ [stop])) o
  = Some (match xs with
          | [] => (BCME_BADARG, n, m)
          | _ => let '(res, kleft, m') := deliver o its m n xs in
                 (if bool_decide (res = BCME_OK) && negb (bool_decide (kleft = 0)) then BCME_BUFTOOSHORT else res,
                  kleft, m')
          end)
  ∧ bcm_unpack_xtlv_buf_to_mem m (Some b) n None o = Some (BCME_BADARG, n, m)
  ∧ (fst (fst (deliver o its m n xs)) = BCME_OK -> snd (fst (deliver o its m n xs)) = Z.of_nat (length rest)).
Proof.
  intros Ho Hl Hn Hd Hstop. unfold bcm_unpack_xtlv_buf_to_mem. rewrite (valid_xtlv_layout o Ho _ _ _ _ _ Hl).
  cbn [mbind option_bind]. split_and!.
  - destruct xs as [|x xs]; [done|]. rewrite (to_mem_loop_deliver o Ho its stop x xs _ m b n rest Hl); try done.
    + cbn [mbind option_bind]. by destruct (deliver o its m n (x :: xs)) as [[res kleft] m'].
    + destruct (xlayout_skip o m b n (x :: xs) [] rest) as [Hlen _]; [by rewrite app_nil_r|].
      destruct Hl as (_ & _ & Hwf & _). enough (Z.of_nat (length xs) <= n) by lia.
      etrans; [|exact Hlen]. clear -Hwf. apply Forall_cons in Hwf as [_ Hwf]. rewrite xencs_cons, length_app.
      induction Hwf as [|y xs Hy _ IH]; [simpl; lia|]. rewrite xencs_cons, length_app. simpl length.
      pose proof (length_xenc o y Hy). pose proof (x_size_bounds o y Hy). pose proof (hdr_range o). lia.
  - by destruct xs.
  - destruct Hl as (Hr & Hs & Hwf & _). pose proof (proj1 (readable_spec _ _ _) Hr).
    assert (n = Z.of_nat (length (xencs o xs)) + Z.of_nat (length rest)) as ->.
    { pose proof (length_slice m b (Z.to_nat n)) as Hls. rewrite Hs, length_app in Hls.
      rewrite <-Nat2Z.inj_add, Hls; [lia|]. apply readable_spec. lia. }
    clear -Hwf. revert m. induction Hwf as [|x xs Hx _ IH]; intros m; cbn [deliver].
    { simpl. lia. }
    replace (Z.of_nat (length (xencs o (x :: xs))) + Z.of_nat (length rest) - x_size o x)
      with (Z.of_nat (length (xencs o xs)) + Z.of_nat (length rest)).
    + destruct (find_item its (x_id x)); [|apply IH]. case_bool_decide; [apply IH|]. cbn. discriminate.
    + rewrite xencs_cons, length_app. pose proof (length_xenc o x Hx). lia.
Qed.

(** Two 8-bit elements, 5 -> [1; 2] and 7 -> [4], and three bytes to write. *)
Definition unpack_mem : mem := [5; 2; 1; 2; 7; 1; 4; 0; 0; 0].

Lemma bcm_unpack_xtlv_buf_to_mem_spec_witness :
  bcm_unpack_xtlv_buf_to_mem unpack_mem (Some 0) 7
    (Some ([{| type := 7; len := 1; ptr := Some 7 |}; {| type := 5; len := 2; ptr := Some 8 |}]
           ++ [{| type := 0; len := 0; ptr := None |}])) 6
  = Some (BCME_OK, 0, [5; 2; 1; 2; 7; 1; 4; 4; 1; 2]).
Proof.
  destruct (bcm_unpack_xtlv_buf_to_mem_spec 6
    [{| type := 7; len := 1; ptr := Some 7 |}; {| type := 5; len := 2; ptr := Some 8 |}]
    {| type := 0; len := 0; ptr := None |} unpack_mem 0 7
    [{| x_id := 5; x_data := [1; 2]; x_pad := [] |}; {| x_id := 7; x_data := [4]; x_pad := [] |}] []) as [H _].
  - reflexivity.
  - prove_xlayout.
  - lia.
  - repeat (apply Forall_cons; split; [split; [discriminate|]; split; [discriminate|];
      eexists; split; [reflexivity|]; split; [reflexivity|]; right; discriminate|]). apply Forall_nil. exact I.
  - reflexivity.
  - exact H.
Defined.

(** Unpacking one entry copies the element's data and moves to the next
    one when the element is empty, whatever its type, or has the expected type
    and at most the expected length; otherwise it is BCME_BADARG and nothing
    changes.  Copying an element writes it, with its padding left as it was, or
    returns null when the destination is too small. *)
Theorem bcm_unpack_xtlv_entry_spec (o : Z) (m : mem) (b n : Z) (x : xtlv) (xs : list xtlv) (rest : list Z)
    (t l d dn : Z) :
  writable_opts o -> xlayout o m b n (x :: xs) rest ->
  readable m d dn = true -> x_len x <= dn -> disjoint_areas d dn b n ->
  let ok := bool_decide (x_len x = 0) || bool_decide (x_id x = t) && bool_decide (x_len x <= l) in
  bcm_unpack_xtlv_entry m b t l (Some d) o
  = Some (if ok then (BCME_OK, b + x_size o x, splice m d (x_data x)) else (BCME_BADARG, b, m))
  ∧ bcm_unpack_xtlv_entry m b t l None o
    = Some (if ok then (BCME_OK, b + x_size o x, m) else (BCME_BADARG, b, m))
  ∧ xlayout o m (b + x_size o x) (n - x_size o x) xs rest
  ∧ bcm_xtlv_bcopy m (Some b) (Some d) n dn o
    = Some (if bool_decide (x_size o x <= dn)
            then (Some (d + x_size o x), appended o m d (x_id x) (x_len x) (x_data x)) else (None, m)).
Proof.
  intros Hw Hl Hd Hdn Hdis ok. pose proof (writable_readable _ Hw) as Ho.
  pose proof (xlayout_cons _ _ _ _ _ _ _ Ho Hl) as (Hu & Hlen & Hx & Hsz & Hr & Hs & Hl').
  pose proof (x_size_bounds o x Hx) as [Hl0 Hsz2]. pose proof (hdr_range o).
  pose proof (proj1 (readable_spec _ _ _) Hd). pose proof (proj1 (readable_spec _ _ _) Hr).
  assert (negb (bool_decide (x_len x = 0)) && (negb (bool_decide (x_id x = t)) || bool_decide (l < x_len x)) = negb ok)
    as Hok.
  { unfold ok. rewrite negb_orb, negb_andb. do 2 f_equal.
    destruct (decide (x_len x <= l)); [rewrite bool_decide_false, bool_decide_true by lia
                                      |rewrite bool_decide_true, bool_decide_false by lia]; done. }
  assert (∀ m', xlayout o m' b n (x :: xs) rest -> bcm_xtlv_size m' b o = Some (x_size o x)) as Hsize.
  { intros m' Hm'. unfold bcm_xtlv_size. pose proof (xlayout_cons _ _ _ _ _ _ _ Ho Hm') as (_ & -> & _). done. }
  unfold x_len in Hr, Hdn, Hl0, Hs. rewrite Nat2Z.id in Hs. unfold disjoint_areas in Hdis.
  assert (readable m d (Z.of_nat (length (x_data x))) = true) as Hdx by (apply readable_spec; lia).
  split_and!; [| |done|].
  - unfold bcm_unpack_xtlv_entry. rewrite Hu. cbn [mbind option_bind]. rewrite Hok. destruct ok; [|done]. cbn [negb].
    assert ((if bool_decide (x_len x = 0) then Some m else memcpy m d (b + bcm_xtlv_hdr_size o) (x_len x))
            = Some (splice m d (x_data x))) as ->.
    { unfold x_len in *. case_bool_decide as Hz.
      - assert (x_data x = []) as ->; [apply nil_length_inv; lia|]. by rewrite splice_nil by lia.
      - rewrite memcpy_splice by (done || (unfold disjoint_areas; lia)). by rewrite Hs. }
    cbn [mbind option_bind]. rewrite Hsize; [done|].
    apply (xlayout_keeps o m); [intros; by apply readable_splice| |done].
    intros q k Hq Hb Hk. apply slice_splice_other; [done..|]. unfold disjoint_areas. lia.
  - unfold bcm_unpack_xtlv_entry. rewrite Hu. cbn [mbind option_bind]. rewrite Hok. destruct ok; [|done]. cbn [negb].
    cbn [mbind option_bind]. by rewrite (Hsize m Hl).
  - unfold bcm_xtlv_bcopy. rewrite (valid_xtlv_layout o Ho _ _ _ _ _ Hl). cbn [mbind option_bind].
    rewrite Hu. cbn [mbind option_bind]. fold (x_size o x). clear Hok ok. case_bool_decide; [|done].
    destruct Hx as (Hid & Hlm & _). unfold x_size, x_len in *.
    rewrite (pack_appends o Hw m d dn); [by rewrite Hs|done..| |done].
    split; [done|]. unfold disjoint_areas. lia.
Qed.

Lemma bcm_unpack_xtlv_entry_spec_witness :
  bcm_unpack_xtlv_entry unpack_mem 0 5 4 (Some 7) 6 = Some (BCME_OK, 4, [5; 2; 1; 2; 7; 1; 4; 1; 2; 0]).
Proof.
  destruct (bcm_unpack_xtlv_entry_spec 6 unpack_mem 0 7 {| x_id := 5; x_data := [1; 2]; x_pad := [] |}
    [{| x_id := 7; x_data := [4]; x_pad := [] |}] [] 5 4 7 3) as [H _].
  - split; left; reflexivity.
  - prove_xlayout.
  - reflexivity.
  - vm_compute. discriminate.
  - right. discriminate.
  - exact H.
Defined.

(** The options that the packer looks at. *)
Definition narrow (o : Z) : Z := Z.land o 6.

Lemma has_narrow o f : Z.land 6 f = f -> has (narrow o) f = has o f.
Proof. intros Hf. unfold has, narrow. by rewrite <-Z.land_assoc, Hf. Qed.

Lemma narrow_writable o : writable_opts (narrow o).
Proof.
  assert (∀ f, Z.land 6 f = 0 -> has (narrow o) f = false) as Hnot.
  { intros f Hf. unfold has, narrow. by rewrite <-Z.land_assoc, Hf, Z.land_0_r. }
  split; right; by apply Hnot.
Qed.

Definition narrow_id (o id : Z) : Z := if has o BCM_XTLV_OPTION_IDU8 then u8 id else id.
Definition narrow_len (o k : Z) : Z := if has o BCM_XTLV_OPTION_LENU8 then u8 k else k.

Lemma narrow_fields o id k :
  0 <= id < 65536 -> 0 <= k < 65536 ->
  0 <= narrow_id o id < id_max (narrow o) ∧ 0 <= narrow_len o k < len_max (narrow o).
Proof.
  intros Hid Hk. unfold id_max, len_max, narrow_id, narrow_len. rewrite !has_narrow by reflexivity.
  split; [destruct (has o BCM_XTLV_OPTION_IDU8)|destruct (has o BCM_XTLV_OPTION_LENU8)]; done || apply u8_range.
Qed.

(** The packer ignores the byte-order options and truncates to the widths. *)
Lemma pack_narrow o m d id k :
  bcm_xtlv_pack_xtlv m d id k None o = bcm_xtlv_pack_xtlv m d (narrow_id o id) (narrow_len o k) None (narrow o).
Proof.
  unfold bcm_xtlv_pack_xtlv, narrow_id, narrow_len. rewrite !has_narrow by reflexivity.
  assert (∀ v, u8 (u8 v) = u8 v) as Hu by (intros v; apply u8_small, u8_range).
  destruct (has o BCM_XTLV_OPTION_IDU8), (has o BCM_XTLV_OPTION_LENU8); cbn [negb andb]; by rewrite ?Hu.
Qed.

Lemma id_narrow o m d :
  bcm_xtlv_id m d o
  = (v ← bcm_xtlv_id m d (narrow o);
     Some (if negb (has o BCM_XTLV_OPTION_IDU8) && has o BCM_XTLV_OPTION_IDBE then BCMSWAP16 v else v)).
Proof.
  unfold bcm_xtlv_id. rewrite has_narrow by reflexivity.
  assert (has (narrow o) BCM_XTLV_OPTION_IDBE = false) as ->.
  { unfold has, narrow. by rewrite <-Z.land_assoc, Z.land_0_r. }
  destruct (has o BCM_XTLV_OPTION_IDU8), (has o BCM_XTLV_OPTION_IDBE);
    cbn [negb andb]; try (by destruct (rd8 m d)); by destruct (ltoh16_ua m d).
Qed.

Lemma len_narrow o m d :
  readable_opts o ->
  bcm_xtlv_len m d o
  = (v ← bcm_xtlv_len m d (narrow o);
     Some (if negb (has o BCM_XTLV_OPTION_LENU8) && has o BCM_XTLV_OPTION_LENBE then BCMSWAP16 v else v)).
Proof.
  unfold readable_opts, bcm_xtlv_len. intros Ho. rewrite !has_narrow by reflexivity.
  assert (has (narrow o) BCM_XTLV_OPTION_LENBE = false) as ->.
  { unfold has, narrow. by rewrite <-Z.land_assoc, Z.land_0_r. }
  destruct (has o BCM_XTLV_OPTION_IDU8), (has o BCM_XTLV_OPTION_LENU8), (has o BCM_XTLV_OPTION_LENBE);
    try discriminate Ho; cbn [negb andb];
    lazymatch goal with
    | |- context [rd8 m ?p] => by destruct (rd8 m p)
    | |- context [ltoh16_ua m ?p] => by destruct (ltoh16_ua m p)
    end.
Qed.

(** What a packed header reads back as, under every combination of
    options: the id and the length come back unchanged when they fit their
    widths and no big-endian option applies to them; an 8-bit field keeps the
    low byte, so an [n] over 255 packed with LENU8 leaves a longer element than
    its length says; and because the packer always writes little-endian, a
    big-endian id or length is read back with its bytes swapped. *)
Theorem bcm_xtlv_pack_header_reads (o : Z) (m : mem) (d id k : Z) :
  0 <= id < 65536 -> 0 <= k < 65536 -> readable m d 4 = true ->
  ∃ m', bcm_xtlv_pack_xtlv m d id k None o = Some m'
  ∧ bcm_xtlv_id m' d o
    = Some (if has o BCM_XTLV_OPTION_IDU8 then u8 id
            else if has o BCM_XTLV_OPTION_IDBE then BCMSWAP16 id else id)
  ∧ (readable_opts o ->
     bcm_xtlv_len m' d o
     = Some (if has o BCM_XTLV_OPTION_LENU8 then u8 k
             else if has o BCM_XTLV_OPTION_LENBE then BCMSWAP16 k else k)).
Proof.
  intros Hid Hk Hr. destruct (narrow_fields o id k Hid Hk) as [Hid' Hk'].
  pose proof (narrow_writable o) as Hw. pose proof (hdr_range (narrow o)) as Hh.
  pose proof (proj1 (readable_spec _ _ _) Hr). pose proof (length_hdr (narrow o) (narrow_id o id) (narrow_len o k)) as Hlh.
  rewrite pack_narrow, (pack_header _ _ _ _ _ _ Hw Hid' Hk') by (apply readable_spec; lia). eexists. split; [done|].
  set (h := id_enc _ _ ++ len_enc _ _). rewrite <-length_app in Hlh. fold h in Hlh.
  assert (readable m d (Z.of_nat (length h)) = true) as Hrh by (apply readable_spec; lia).
  assert (readable (splice m d h) d (Z.of_nat (length h)) = true) as Hr' by (by rewrite readable_splice).
  assert (slice (splice m d h) d (Z.to_nat (Z.of_nat (length h))) = h) as Hs
    by (rewrite Nat2Z.id; by apply slice_splice_same).
  rewrite id_narrow, (read_id _ _ _ _ _ _ Hr' Hs Hid'). cbn [mbind option_bind]. split.
  - unfold narrow_id. by destruct (has o BCM_XTLV_OPTION_IDU8), (has o BCM_XTLV_OPTION_IDBE).
  - intros Ho. unfold h in Hs at 3. rewrite <-(app_nil_r (len_enc _ _)) in Hs.
    rewrite len_narrow, (read_len _ _ _ _ _ _ _ (writable_readable _ Hw) Hr' Hs Hk') by done.
    cbn [mbind option_bind]. unfold narrow_len.
    by destruct (has o BCM_XTLV_OPTION_LENU8), (has o BCM_XTLV_OPTION_LENBE).
Qed.

(** Id 0x102 packed with a big-endian id reads back as 0x201. *)
Lemma bcm_xtlv_pack_header_reads_witness :
  ∃ m', bcm_xtlv_pack_xtlv [0; 0; 0; 0] 0 0x102 0 None BCM_XTLV_OPTION_IDBE = Some m'
  ∧ bcm_xtlv_id m' 0 BCM_XTLV_OPTION_IDBE = Some 0x201.
Proof.
  destruct (bcm_xtlv_pack_header_reads BCM_XTLV_OPTION_IDBE [0; 0; 0; 0] 0 0x102 0) as (m' & H1 & H2 & _).
  - lia.
  - lia.
  - reflexivity.
  - exists m'. split; [exact H1|]. etransitivity; [exact H2|reflexivity].
Defined.
