(* ===== verification/RecoveryInit.v ===== *)
(** * recovery_init.c: the emergency init (model)

    The program only makes system calls.  The kernel is a parameter: a state
    [K] and a function [sys] from a call to its reply; nothing is assumed of it
    here.  A run records the calls and their replies, in order.  A run
    whose result is [None] did not get to its end: out of the loops' fuel, or at
    a read outside a buffer.  It keeps the state that it has reached, with the
    calls so far.

    A call keeps the arguments that the program passes; strings are the bytes
    up to the terminator.  Strings are ASCII: no literal and no file name holds
    a zero byte. *)

From Stdlib Require Import String Ascii.
From S2P Require Import Prelude Mem Endian.

#[local] Open Scope string_scope.

Definition AT_FDCWD : Z := -100.
Definition AT_SYMLINK_NOFOLLOW : Z := 0x100.
Definition AT_REMOVEDIR : Z := 0x200.
Definition O_RDONLY : Z := 0.
Definition O_RDWR : Z := 2.
Definition O_DIRECTORY : Z := 65536.
(** 01101, the literal of [copy_file]: O_WRONLY, O_CREAT and O_TRUNC. *)
Definition O_WRONLY_CREAT_TRUNC : Z := 577.
(** 0755 *)
Definition MODE_0755 : Z := 493.
Definition S_IFMT : Z := 61440.
Definition S_IFDIR : Z := 16384.

Definition S_ISDIR (m : Z) : bool := bool_decide (Z.land m S_IFMT = S_IFDIR).

(** [mkdirat] with [None] is the two-argument call: the mode is whatever the
    third register holds. *)
Inductive call :=
  | write (fd : Z) (data : list Z)
  | nanosleep (sec nsec : Z)
  | openat (dirfd : Z) (path : string) (flags mode : Z)
  | close (fd : Z)
  | unlinkat (dirfd : Z) (path : string) (flags : Z)
  | read (fd count : Z)
  | getdents64 (fd count : Z)
  | renameat (olddirfd : Z) (oldpath : string) (newdirfd : Z) (newpath : string)
  | mkdirat (dirfd : Z) (path : string) (mode : option Z)
  | mount (source target fstype : string) (flags data : Z)
  | symlinkat (target : string) (newdirfd : Z) (linkpath : string)
  | newfstatat (dirfd : Z) (path : string) (flags : Z)
  | sync
  | umount2 (target : string) (flags : Z).

(** [out_bytes] is what the buffer of a read holds afterwards, [st_mode] the
    mode that a stat stores. *)
Record reply := { ret : Z; out_bytes : mem; st_mode : Z }.

Definition event : Type := call * reply.

Fixpoint str_eq (a b : string) : bool :=
  match a, b with
  | String x a, String y b => if Ascii.eqb x y then str_eq a b else false
  | EmptyString, EmptyString => true
  | _, _ => false
  end.

Definition bytes_of (s : string) : list Z := Z.of_nat ∘ nat_of_ascii <$> list_ascii_of_string s.

(** The string at [p]: the bytes before the first zero. *)
Fixpoint cstring (fuel : nat) (m : mem) (p : Z) : option string :=
  match fuel with
  | O => None
  | S fuel =>
      x ← rd8 m p;
      if bool_decide (x = 0) then Some EmptyString
      else s ← cstring fuel m (p + 1); Some (String (ascii_of_nat (Z.to_nat x)) s)
  end.

(** The fields of [struct linux_dirent64] at [d]: [d_reclen] after two 64-bit
    fields, [d_name] after it and [d_type]. *)
Definition d_reclen (m : mem) (d : Z) : option Z := ltoh16_ua m (d + 16).
Definition d_name (m : mem) (d : Z) : option string := cstring (S (length m)) m (d + 19).

(** A line: the text and its newline. *)
Definition ln (s : string) : string := String.append s (String "010" EmptyString).

(** How [_start] ends: both ends are endless loops of sleeps. *)
Inductive outcome := Fatal | Complete.

Section Program.
Context {K : Type} (sys : call -> K -> reply * K).

Record state := { kernel : K; out_fd : Z; trace : list event }.

Definition M (A : Type) : Type := state -> option A * state.

#[global] Instance M_ret : MRet M := fun A a s => (Some a, s).
#[global] Instance M_bind : MBind M := fun A B f m s =>
  match m s with (Some a, s) => f a s | (None, s) => (None, s) end.

(** A value that may be undefined. *)
Definition lift {A} (x : option A) : M A := fun s => (x, s).

Definition sys_call (c : call) : M reply := fun s =>
  let '(r, k) := sys c (kernel s) in
  (Some r, {| kernel := k; out_fd := out_fd s; trace := trace s ++ [(c, r)] |}).

Definition get_out_fd : M Z := fun s => (Some (out_fd s), s).

Definition set_out_fd (fd : Z) : M unit := fun s =>
  (Some tt, {| kernel := kernel s; out_fd := fd; trace := trace s |}).

Definition print (s : string) : M unit :=
  fd ← get_out_fd; _ ← sys_call (write fd (bytes_of s)); mret tt.

Definition sleep_sec (s : Z) : M unit := _ ← sys_call (nanosleep s 0); mret tt.

(** [while ((n = read(in, buf, sizeof(buf))) > 0)]: the result of the write is
    not used. *)
Fixpoint copy_loop (fuel : nat) (inp out : Z) : M unit :=
  match fuel with
  | O => lift None
  | S fuel =>
      r ← sys_call (read inp 4096);
      let n := ret r in
      if bool_decide (0 < n) then
        _ ← sys_call (write out (take (Z.to_nat n) (out_bytes r)));
        copy_loop fuel inp out
      else mret tt
  end.

Definition copy_file (fuel : nat) (src dst : string) (mode : Z) : M unit :=
  inp ← sys_call (openat AT_FDCWD src 0 0);
  if bool_decide (ret inp < 0) then
    _ ← print "  [ERROR] Cannot open source: "; _ ← print src; print (ln "")
  else
    _ ← sys_call (unlinkat AT_FDCWD dst 0);
    out ← sys_call (openat AT_FDCWD dst O_WRONLY_CREAT_TRUNC mode);
    if bool_decide (ret out < 0) then
      _ ← print "  [ERROR] Cannot create dest: "; _ ← print dst; _ ← print (ln "");
      _ ← sys_call (close (ret inp)); mret tt
    else
      _ ← copy_loop fuel (ret inp) (ret out);
      _ ← sys_call (close (ret inp));
      _ ← sys_call (close (ret out));
      _ ← print "  Installed: "; _ ← print dst; print (ln "").

Section Merge.
Variable merge_sub : Z -> Z -> string -> M unit.

(** One directory entry.  The descriptors are [int] parameters: the [long]
    results of [openat] are converted. *)
Definition merge_entry (src_fd dst_fd : Z) (indent name : string) : M unit :=
  if negb (str_eq name ".") && negb (str_eq name "..") then
    _ ← print indent; _ ← print "  Processing: "; _ ← print name;
    r ← sys_call (renameat src_fd name dst_fd name);
    if bool_decide (ret r = 0) then print (ln " -> [MOVED]")
    else
      _ ← print (ln " -> [MERGING SUBDIR]");
      sub_src ← sys_call (openat src_fd name (Z.lor O_RDONLY O_DIRECTORY) 0);
      _ ← sys_call (mkdirat dst_fd name (Some MODE_0755));
      sub_dst ← sys_call (openat dst_fd name (Z.lor O_RDONLY O_DIRECTORY) 0);
      _ ← (if bool_decide (0 <= ret sub_src) && bool_decide (0 <= ret sub_dst)
           then merge_sub (s32 (ret sub_src)) (s32 (ret sub_dst)) "    " else mret tt);
      _ ← (if bool_decide (0 <= ret sub_src) then _ ← sys_call (close (ret sub_src)); mret tt else mret tt);
      _ ← (if bool_decide (0 <= ret sub_dst) then _ ← sys_call (close (ret sub_dst)); mret tt else mret tt);
      _ ← sys_call (unlinkat src_fd name AT_REMOVEDIR);
      mret tt
  else mret tt.

(** [while (bpos < nread)]: a record takes at least one byte. *)
Fixpoint entries_loop (fuel : nat) (src_fd dst_fd : Z) (indent : string) (buf : mem) (nread bpos : Z) : M unit :=
  match fuel with
  | O => lift None
  | S fuel =>
      if bool_decide (bpos < nread) then
        name ← lift (d_name buf bpos);
        _ ← merge_entry src_fd dst_fd indent name;
        reclen ← lift (d_reclen buf bpos);
        entries_loop fuel src_fd dst_fd indent buf nread (bpos + reclen)
      else mret tt
  end.
End Merge.

(** The fuel bounds the getdents64 calls that return entries, here and in the
    nested directories. *)
Fixpoint merge_dir (fuel : nat) (src_fd dst_fd : Z) (indent : string) : M unit :=
  match fuel with
  | O => lift None
  | S fuel =>
      r ← sys_call (getdents64 src_fd 2048);
      let nread := ret r in
      if bool_decide (0 < nread) then
        _ ← entries_loop (merge_dir fuel) (S (Z.to_nat nread)) src_fd dst_fd indent (out_bytes r) nread 0;
        merge_dir fuel src_fd dst_fd indent
      else mret tt
  end.

(** [for (int retry = 1; retry <= 15; retry++)] *)
Fixpoint mount_loop (retries : nat) (ret0 : Z) : M Z :=
  match retries with
  | O => mret ret0
  | S retries =>
      r ← sys_call (mount "/dev/mmcblk0p6" "/mnt" "ext4" 0 0);
      if bool_decide (ret r = 0) then mret (ret r)
      else
        _ ← print (ln "    Waiting for /dev/mmcblk0p6...");
        _ ← sleep_sec 1;
        mount_loop retries (ret r)
  end.

(** Steps 1 to 3: the console and the mount. *)
Definition setup : M Z :=
  _ ← sys_call (mkdirat AT_FDCWD "/dev" None);
  _ ← sys_call (mount "devtmpfs" "/dev" "devtmpfs" 0 0);
  cfd ← sys_call (openat AT_FDCWD "/dev/console" O_RDWR 0);
  _ ← (if bool_decide (0 <= ret cfd) then set_out_fd (s32 (ret cfd)) else mret tt);
  _ ← print (ln (ln ""));
  _ ← print (ln "========================================================");
  _ ← print (ln "===   HUB-11 ULTIMATE RESCUE & RESTORATION v3.0      ===");
  _ ← print (ln (ln "========================================================"));
  _ ← sys_call (mkdirat AT_FDCWD "/mnt" None);
  _ ← print (ln ">>> Waiting for eMMC and mounting /dev/mmcblk0p6 on /mnt...");
  mount_loop 15 (-1).

(** Steps 4 and 5: the directories, and the two merges. *)
Definition merge_libs (fuel : nat) : M unit :=
  _ ← sys_call (mkdirat AT_FDCWD "/mnt/usr" None);
  _ ← sys_call (mkdirat AT_FDCWD "/mnt/usr/lib" None);
  _ ← sys_call (mkdirat AT_FDCWD "/mnt/usr/lib64" None);
  _ ← sys_call (mkdirat AT_FDCWD "/mnt/usr/lib/aarch64-linux-gnu" None);
  _ ← sys_call (mkdirat AT_FDCWD "/mnt/usr/lib/modules" None);
  dst_lib ← sys_call (openat AT_FDCWD "/mnt/usr/lib" (Z.lor O_RDONLY O_DIRECTORY) 0);
  old_lib ← sys_call (openat AT_FDCWD "/mnt/lib_old" (Z.lor O_RDONLY O_DIRECTORY) 0);
  _ ← (if bool_decide (0 <= ret old_lib) then
         _ ← print (ln ">>> Merging /mnt/lib_old into /mnt/usr/lib...");
         _ ← merge_dir fuel (s32 (ret old_lib)) (s32 (ret dst_lib)) "";
         _ ← sys_call (close (ret old_lib));
         _ ← sys_call (unlinkat AT_FDCWD "/mnt/lib_old" AT_REMOVEDIR);
         mret tt
       else mret tt);
  st ← sys_call (newfstatat AT_FDCWD "/mnt/lib" AT_SYMLINK_NOFOLLOW);
  _ ← (if bool_decide (ret st = 0) && S_ISDIR (st_mode st) then
         _ ← print (ln ">>> Merging /mnt/lib into /mnt/usr/lib...");
         cur_lib ← sys_call (openat AT_FDCWD "/mnt/lib" (Z.lor O_RDONLY O_DIRECTORY) 0);
         _ ← (if bool_decide (0 <= ret cur_lib) then
                _ ← merge_dir fuel (s32 (ret cur_lib)) (s32 (ret dst_lib)) "";
                _ ← sys_call (close (ret cur_lib));
                mret tt
              else mret tt);
         _ ← sys_call (unlinkat AT_FDCWD "/mnt/lib" AT_REMOVEDIR);
         mret tt
       else mret tt);
  if bool_decide (0 <= ret dst_lib) then _ ← sys_call (close (ret dst_lib)); mret tt else mret tt.

(** Steps 6 and 7: the symbolic links and the linkers. *)
Definition install (fuel : nat) : M unit :=
  _ ← print (ln ">>> Rebuilding UsrMerge symlinks (/lib -> usr/lib, /lib64 -> usr/lib64)...");
  _ ← sys_call (unlinkat AT_FDCWD "/mnt/lib" 0);
  _ ← sys_call (unlinkat AT_FDCWD "/mnt/lib" AT_REMOVEDIR);
  _ ← sys_call (symlinkat "usr/lib" AT_FDCWD "/mnt/lib");
  _ ← sys_call (unlinkat AT_FDCWD "/mnt/lib64" 0);
  _ ← sys_call (unlinkat AT_FDCWD "/mnt/lib64" AT_REMOVEDIR);
  _ ← sys_call (symlinkat "usr/lib64" AT_FDCWD "/mnt/lib64");
  _ ← print (ln ">>> Installing verified Debian dynamic linkers directly onto eMMC storage...");
  _ ← copy_file fuel "/ld-linux-aarch64.so.1" "/mnt/usr/lib/aarch64-linux-gnu/ld-linux-aarch64.so.1" MODE_0755;
  _ ← copy_file fuel "/ld-2.31.so" "/mnt/usr/lib/aarch64-linux-gnu/ld-2.31.so" MODE_0755;
  _ ← copy_file fuel "/ld-linux-aarch64.so.1" "/mnt/usr/lib/ld-linux-aarch64.so.1" MODE_0755;
  _ ← sys_call (symlinkat "ld-linux-aarch64.so.1" AT_FDCWD "/mnt/usr/lib/aarch64-linux-gnu/ld-2.31.so");
  _ ← sys_call (symlinkat "aarch64-linux-gnu/ld-linux-aarch64.so.1" AT_FDCWD "/mnt/usr/lib/ld-linux-aarch64.so.1");
  mret tt.

(** Step 8: the verification. *)
Definition verify : M unit :=
  _ ← print (ln ">>> Verifying /mnt/lib/ld-linux-aarch64.so.1 resolution...");
  tfd ← sys_call (openat AT_FDCWD "/mnt/lib/ld-linux-aarch64.so.1" O_RDONLY 0);
  if bool_decide (0 <= ret tfd) then
    _ ← print (ln ">>> [SUCCESS]: Dynamic linker is VERIFIED ACCESSIBLE through /lib!");
    _ ← sys_call (close (ret tfd));
    mret tt
  else print (ln ">>> [WARNING]: Could not open dynamic linker through /lib!").

Definition banner : list string :=
  [(ln "");
   (ln "========================================================");
   (ln "===      REPAIR COMPLETE! SYSTEM RESTORED!           ===");
   (ln "========================================================");
   (ln ">>> Rootfs /dev/mmcblk0p6 is fully repaired and unmounted.");
   (ln (ln ">>> Dynamic linker and core libraries are verified in place."));
   (ln ">>> WHAT TO DO NOW:");
   (ln ">>> 1. Unplug the DC power barrel jack.");
   (ln ">>> 2. Hold the recovery pin in the 3.5mm AV jack.");
   (ln ">>> 3. Reconnect DC power (hold pin for 3s) to enter Loader mode.");
   (ln ">>> 4. Lab will now flash the known-good 13:38 kernel!");
   (ln (ln "========================================================"))].

Fixpoint print_all (l : list string) : M unit :=
  match l with
  | [] => mret tt
  | s :: l => _ ← print s; print_all l
  end.

(** Steps 9 and 10. *)
Definition finish : M unit :=
  _ ← print (ln ">>> Syncing all changes to eMMC storage...");
  _ ← sys_call sync;
  _ ← print (ln ">>> Safely unmounting /mnt...");
  _ ← sys_call (umount2 "/mnt" 0);
  _ ← sys_call sync;
  print_all banner.

(** The endless sleeps are the outcome. *)
Definition _start (fuel : nat) : M outcome :=
  r ← setup;
  if negb (bool_decide (r = 0)) then
    _ ← print (ln "FATAL: Failed to mount /dev/mmcblk0p6!");
    _ ← print (ln ">>> System halted.");
    mret Fatal
  else
    _ ← print (ln (ln ">>> Rootfs mounted successfully!"));
    _ ← merge_libs fuel;
    _ ← install fuel;
    _ ← verify;
    _ ← finish;
    mret Complete.
End Program.

Arguments state : clear implicits.
