(* ===== verification/RecoverySpec.v ===== *)
(** * recovery_init.c: reasoning about its runs (lemmas)

    [runs m P Q]: whatever the kernel does, a run of [m] adds events [t] to the
    trace with [P t], whether or not it gets to its end, and with [Q a t] when
    it ends and returns [a].  The rules of the other predicates are instances:
    [emits] (completed runs), [owes] (descriptors), [guarded] (calls allowed after
    the events so far).  [total]: with a kernel
    that behaves like a file system, [m] gets to its end. *)

From Stdlib Require Import String Ascii.
From stdpp Require Import gmultiset.
From S2P Require Import Prelude Mem Endian RecoveryInit.

Section Kernel.
Context {K : Type} (sys : call -> K -> reply * K).

Implicit Types (s : state K) (t : list event).

Definition runs {A} (m : M (K:=K) A) (P : list event -> Prop) (Q : A -> list event -> Prop) : Prop :=
  ∀ s, ∃ t, trace (snd (m s)) = trace s ++ t ∧ P t ∧ ∀ a, fst (m s) = Some a -> Q a t.

Lemma runs_ret {A} (a : A) P (Q : A -> list event -> Prop) : P [] -> Q a [] -> runs (mret a) P Q.
Proof. intros HP HQ s. exists []. rewrite app_nil_r. split_and!; [done..|]. by intros ? [= <-]. Qed.

Lemma runs_bind {A B} (m : M A) (f : A -> M B) P Q (R : B -> list event -> Prop) :
  runs m P Q -> (∀ a t, Q a t -> runs (f a) (fun t' => P (t ++ t')) (fun b t' => R b (t ++ t'))) ->
  runs (m ≫= f) P R.
Proof.
  intros Hm Hf s. unfold mbind, M_bind. destruct (Hm s) as (t1 & H1 & HP & HQ).
  destruct (m s) as [[a|] s1]; simpl in *; [|by exists t1].
  destruct (Hf a t1 (HQ a eq_refl) s1) as (t2 & H2 & HP2 & HR). exists (t1 ++ t2). by rewrite app_assoc, <-H1.
Qed.

Lemma runs_weaken {A} (m : M A) (P P' : list event -> Prop) (Q Q' : A -> list event -> Prop) :
  runs m P Q -> (∀ t, P t -> P' t) -> (∀ a t, Q a t -> Q' a t) -> runs m P' Q'.
Proof. intros Hm HP HQ s. destruct (Hm s) as (t & Ht & H1 & H2). exists t. split_and!; eauto. Qed.

(** A call, with the reply of the kernel. *)
Lemma runs_sys_reply c P (Q : reply -> list event -> Prop) :
  (∀ k, P [(c, fst (sys c k))] ∧ Q (fst (sys c k)) [(c, fst (sys c k))]) -> runs (sys_call sys c) P Q.
Proof.
  intros H s. specialize (H (kernel s)). unfold sys_call. destruct (sys c (kernel s)) as [r k]. simpl in *.
  eexists. split; [done|]. split; [apply H|]. intros ? [= <-]. apply H.
Qed.

Lemma runs_sys c P (Q : reply -> list event -> Prop) :
  (∀ r, P [(c, r)] ∧ Q r [(c, r)]) -> runs (sys_call sys c) P Q.
Proof. intros H. apply runs_sys_reply. auto. Qed.

Lemma runs_lift {A} (x : option A) P (Q : A -> list event -> Prop) :
  P [] -> (∀ a, x = Some a -> Q a []) -> runs (lift x) P Q.
Proof. intros HP HQ s. exists []. rewrite app_nil_r. by split_and!. Qed.

Lemma runs_get P (Q : Z -> list event -> Prop) : P [] -> (∀ fd, Q fd []) -> runs get_out_fd P Q.
Proof. intros HP HQ s. exists []. rewrite app_nil_r. split_and!; [done..|]. intros a [= <-]. apply HQ. Qed.

Lemma runs_set fd P (Q : unit -> list event -> Prop) : P [] -> Q tt [] -> runs (set_out_fd fd) P Q.
Proof. intros HP HQ s. exists []. rewrite app_nil_r. split_and!; [done..|]. by intros [] _. Qed.

Lemma runs_print str P (Q : unit -> list event -> Prop) :
  P [] -> (∀ fd r, P [(write fd (bytes_of str), r)] ∧ Q tt [(write fd (bytes_of str), r)]) ->
  runs (print sys str) P Q.
Proof.
  intros H0 H. unfold print. apply (runs_bind _ _ _ (fun _ t => t = [])); [by apply runs_get|]. intros fd ? ->.
  apply (runs_bind _ _ _ (fun r t => t = [(write fd (bytes_of str), r)])).
  - apply runs_sys. intros r. split; [apply H|done].
  - intros r ? ->. apply runs_ret; apply H.
Qed.

(** ** Completed runs *)

Definition emits {A} (m : M A) (Q : A -> list event -> Prop) : Prop := runs m (fun _ => True) Q.

Lemma emits_ret {A} (a : A) (Q : A -> list event -> Prop) : Q a [] -> emits (mret a) Q.
Proof. by apply runs_ret. Qed.

Lemma emits_bind {A B} (m : M A) (f : A -> M B) Q (R : B -> list event -> Prop) :
  emits m Q -> (∀ a t, Q a t -> emits (f a) (fun b t' => R b (t ++ t'))) -> emits (m ≫= f) R.
Proof. apply runs_bind. Qed.

Lemma emits_weaken {A} (m : M A) (Q R : A -> list event -> Prop) :
  emits m Q -> (∀ a t, Q a t -> R a t) -> emits m R.
Proof. intros Hm Hw. by eapply runs_weaken. Qed.

Lemma emits_sys c (Q : reply -> list event -> Prop) : (∀ r, Q r [(c, r)]) -> emits (sys_call sys c) Q.
Proof. intros HQ. by apply runs_sys. Qed.

Lemma emits_lift {A} (x : option A) (Q : A -> list event -> Prop) : (∀ a, x = Some a -> Q a []) -> emits (lift x) Q.
Proof. by apply runs_lift. Qed.

(** ** Open file descriptors *)

(** The descriptors that [t] leaves open when it starts with [X], one more for
    each opening; [None] when it closes one that is not open. *)
Fixpoint fds (t : list event) (X : gmultiset Z) : option (gmultiset Z) :=
  match t with
  | [] => Some X
  | (openat _ _ _ _, r) :: t => fds t (if bool_decide (0 <= ret r) then {[+ ret r +]} ⊎ X else X)
  | (close x, _) :: t => if bool_decide (x ∈ X) then fds t (X ∖ {[+ x +]}) else None
  | _ :: t => fds t X
  end.

Lemma fds_app t1 t2 X : fds (t1 ++ t2) X = fds t1 X ≫= fds t2.
Proof.
  revert X. induction t1 as [|[c r] t1 IH]; intros X; [done|]. destruct c; simpl; try apply IH.
  by case_bool_decide; [apply IH|].
Qed.

Definition held (x : Z) : gmultiset Z := if bool_decide (0 <= x) then {[+ x +]} else ∅.

Definition owed (l : list Z) : gmultiset Z := foldr (fun x X => held x ⊎ X) ∅ l.

Lemma owed_app l1 l2 : owed (l1 ++ l2) = owed l1 ⊎ owed l2.
Proof. induction l1 as [|x l1 IH]; simpl; [|rewrite IH]; multiset_solver. Qed.

(** [m] closes the descriptors [l] and those that it opens itself, and no other:
    a run that gets to its end leaves just those that were open besides [l]. *)
Definition owes {A} (l : list Z) (m : M A) : Prop :=
  runs m (fun t => ∀ X, is_Some (fds t (owed l ⊎ X))) (fun _ t => ∀ X, fds t (owed l ⊎ X) = Some X).

Lemma owes_ret {A} (a : A) : owes [] (mret a).
Proof. apply runs_ret; intros X; [done|]. simpl. f_equal. multiset_solver. Qed.

Lemma owes_bind {A B} l1 l2 (m : M A) (f : A -> M B) : owes l1 m -> (∀ a, owes l2 (f a)) -> owes (l1 ++ l2) (m ≫= f).
Proof.
  intros Hm Hf. assert (∀ X, owed (l1 ++ l2) ⊎ X = owed l1 ⊎ (owed l2 ⊎ X)) as He.
  { intros X. rewrite owed_app. multiset_solver. }
  eapply runs_bind; [eapply runs_weaken; [exact Hm|intros t Ht X; by rewrite He|exact (fun _ _ H => H)]|].
  intros a t Ht. eapply runs_weaken; [apply Hf| |]; cbv beta; intros;
    rewrite He, fds_app, Ht; cbn [mbind option_bind]; eauto.
Qed.

Lemma owes_step {A B} l (m : M A) (f : A -> M B) : owes [] m -> (∀ a, owes l (f a)) -> owes l (m ≫= f).
Proof. apply (owes_bind []). Qed.

Lemma owed_cons x l X : owed (x :: l) ⊎ X = held x ⊎ (owed l ⊎ X).
Proof. simpl. multiset_solver. Qed.

Lemma fds_openat d p f mo r X : fds [(openat d p f mo, r)] X = Some (held (ret r) ⊎ X).
Proof. unfold held. simpl. case_bool_decide; f_equal; multiset_solver. Qed.

Lemma fds_close x r X : 0 <= x -> fds [(close x, r)] (held x ⊎ X) = Some X.
Proof.
  intros Hx. unfold held. rewrite bool_decide_true by done. simpl. rewrite bool_decide_true by multiset_solver.
  f_equal. multiset_solver.
Qed.

Lemma owes_open {B} l d p f mo (g : reply -> M B) :
  (∀ r, owes (ret r :: l) (g r)) -> owes l (sys_call sys (openat d p f mo) ≫= g).
Proof.
  intros Hg. apply (runs_bind _ _ _ (fun r t => ∀ X, fds t X = Some (held (ret r) ⊎ X))).
  - apply runs_sys. intros r. split; intros X; rewrite fds_openat; eauto.
  - intros r t Ht. eapply runs_weaken; [apply Hg| |]; cbv beta; intros; rewrite fds_app, Ht; cbn [mbind option_bind]; rewrite <-owed_cons; eauto.
Qed.

Lemma owes_close {B} l x (g : reply -> M B) :
  0 <= x -> (∀ r, owes l (g r)) -> owes (x :: l) (sys_call sys (close x) ≫= g).
Proof.
  intros Hx Hg. apply (runs_bind _ _ _ (fun _ t => ∀ X, fds t (held x ⊎ X) = Some X)).
  - apply runs_sys. intros r. split; intros X; rewrite ?owed_cons, fds_close; eauto.
  - intros r t Ht. eapply runs_weaken; [apply Hg| |]; cbv beta; intros; rewrite owed_cons, fds_app, Ht; cbn [mbind option_bind]; eauto.
Qed.

Lemma owes_ext {A} l l' (m : M A) : owed l = owed l' -> owes l m -> owes l' m.
Proof. intros He. unfold owes. by rewrite He. Qed.

Lemma owes_neg {A} l x (m : M A) : x < 0 -> owes l m -> owes (x :: l) m.
Proof.
  intros Hx. apply owes_ext. simpl. unfold held. rewrite bool_decide_false by lia. multiset_solver.
Qed.

Lemma owes_swap {A} l x y (m : M A) : owes (x :: y :: l) m -> owes (y :: x :: l) m.
Proof. apply owes_ext. simpl. multiset_solver. Qed.

(** [if (x >= 0) close(x);] *)
Lemma owes_close_if x :
  owes [x] (if bool_decide (0 <= x) then _ ← sys_call sys (close x); mret tt else mret tt).
Proof.
  case_bool_decide; [apply owes_close; [done|]; intros _; apply owes_ret|]. apply owes_neg; [lia|apply owes_ret].
Qed.

Definition plain (c : call) : Prop := match c with openat _ _ _ _ | close _ => False | _ => True end.

Lemma fds_plain c r X : plain c -> fds [(c, r)] (∅ ⊎ X) = Some X.
Proof. intros Hc. rewrite (left_id_L ∅ _). by destruct c. Qed.

Lemma owes_plain c : plain c -> owes [] (sys_call sys c).
Proof. intros Hc. apply runs_sys. intros r. split; intros X; simpl owed; rewrite fds_plain; eauto. Qed.

Lemma owes_print str : owes [] (print sys str).
Proof.
  apply runs_print; [done|]. intros fd r. split; intros X; simpl owed; rewrite fds_plain; eauto; done.
Qed.

Lemma owes_print_all l : owes [] (print_all sys l).
Proof.
  induction l as [|str l IH]; [apply owes_ret|]. apply owes_step; [apply owes_print|]. done.
Qed.

Lemma owes_lift {A} (x : option A) : owes [] (lift x).
Proof. apply runs_lift; [intros X; done|]. intros a _ X. simpl. f_equal. multiset_solver. Qed.

Lemma owes_set fd : owes [] (set_out_fd fd).
Proof. apply runs_set; intros X; [done|]. simpl. f_equal. multiset_solver. Qed.
End Kernel.

(** Steps over the calls that open and close nothing. *)
Ltac owes_steps :=
  repeat first
    [ apply owes_ret | apply owes_print | apply owes_print_all | apply owes_lift | apply owes_set
    | apply owes_plain; exact I
    | apply owes_step; [first [apply owes_print | apply owes_plain; exact I | apply owes_lift | apply owes_set]|intros ?] ].

Section Programs.
Context {K : Type} (sys : call -> K -> reply * K).

(** ** Descriptors of the program's parts *)

Lemma owes_copy_loop fuel inp out : owes [] (copy_loop sys fuel inp out).
Proof.
  induction fuel as [|fuel IH]; cbn [copy_loop]; owes_steps. case_bool_decide; owes_steps. done.
Qed.

Lemma owes_copy_file fuel src dst mode : owes [] (copy_file sys fuel src dst mode).
Proof.
  unfold copy_file. apply owes_open. intros inp. case_bool_decide; [apply owes_neg; [done|]; owes_steps|].
  owes_steps. apply owes_open. intros out. case_bool_decide.
  - apply owes_neg; [done|]. owes_steps. apply owes_close; [lia|]. intros ?. owes_steps.
  - apply owes_swap. apply owes_step; [apply owes_copy_loop|]. intros ?.
    apply owes_close; [lia|]. intros ?. apply owes_close; [lia|]. intros ?. owes_steps.
Qed.

Lemma owes_entries_loop rec fuel src dst indent buf nread bpos :
  (∀ a b i, owes [] (rec a b i)) -> owes [] (entries_loop sys rec fuel src dst indent buf nread bpos).
Proof.
  intros Hrec. revert bpos. induction fuel as [|fuel IH]; intros bpos; cbn [entries_loop]; owes_steps.
  case_bool_decide; owes_steps. apply owes_step; [|intros ?; owes_steps; apply IH].
  unfold merge_entry. case_match; owes_steps. case_bool_decide; owes_steps.
  apply owes_open. intros s1. owes_steps. apply owes_open. intros s2. apply owes_swap.
  apply owes_step; [case_match; [apply Hrec|owes_steps]|]. intros ?.
  apply (owes_bind [_] [_]); [apply owes_close_if|]. intros ?.
  apply (owes_bind [_] []); [apply owes_close_if|]. intros ?. owes_steps.
Qed.

Lemma owes_merge_dir fuel src dst indent : owes [] (merge_dir sys fuel src dst indent).
Proof.
  revert src dst indent. induction fuel as [|fuel IH]; intros src dst indent; cbn [merge_dir]; owes_steps.
  case_bool_decide; owes_steps. apply owes_step; [by apply owes_entries_loop|]. intros ?. apply IH.
Qed.

Lemma owes_mount_loop n r0 : owes [] (mount_loop sys n r0).
Proof.
  revert r0. induction n as [|n IH]; intros r0; cbn [mount_loop]; owes_steps. case_bool_decide; owes_steps.
  apply owes_step; [unfold sleep_sec; owes_steps|]. intros ?. apply IH.
Qed.

Lemma owes_merge_libs fuel : owes [] (merge_libs sys fuel).
Proof.
  unfold merge_libs. owes_steps. apply owes_open. intros dst. apply owes_open. intros old.
  apply (owes_bind [_] [_]).
  { case_bool_decide; [|apply owes_neg; [lia|]; owes_steps]. apply owes_step; [apply owes_print|]. intros ?.
    apply owes_step; [apply owes_merge_dir|]. intros ?. apply owes_close; [done|]. intros ?. owes_steps. }
  intros ?. owes_steps. apply owes_step; [|intros ?; apply owes_close_if].
  destruct (_ && _); owes_steps. apply owes_open. intros cur. apply (owes_bind [_] []); [|intros ?; owes_steps].
  case_bool_decide; [|apply owes_neg; [lia|]; owes_steps].
  apply owes_step; [apply owes_merge_dir|]. intros ?. apply owes_close; [done|]. intros ?. owes_steps.
Qed.

Lemma owes_install fuel : owes [] (install sys fuel).
Proof.
  unfold install. owes_steps. do 3 (apply owes_step; [apply owes_copy_file|]; intros ?). owes_steps.
Qed.

Lemma owes_verify : owes [] (verify sys).
Proof.
  unfold verify. owes_steps. apply owes_open. intros fd. case_bool_decide; [|apply owes_neg; [lia|]; owes_steps].
  owes_steps. apply owes_close; [done|]. intros ?. owes_steps.
Qed.

Lemma owes_finish : owes [] (finish sys).
Proof. unfold finish. owes_steps. Qed.
End Programs.

(** ** Directory entries *)

(** A record of getdents64: the two 64-bit fields, the type, the name and the
    padding. *)
Record dirent := { e_head : list Z; e_type : Z; e_name : string; e_pad : list Z }.

Definition e_reclen (e : dirent) : Z := 20 + Z.of_nat (String.length (e_name e)) + Z.of_nat (length (e_pad e)).

Definition enc_dirent (e : dirent) : list Z :=
  e_head e ++ le_bytes 2 (e_reclen e) ++ e_type e :: bytes_of (e_name e) ++ 0 :: e_pad e.

Definition dirent_ok (e : dirent) : Prop :=
  length (e_head e) = 16%nat ∧ e_reclen e < 65536 ∧ Forall (fun x => x ≠ 0) (bytes_of (e_name e)).

(** The first [nread] bytes of [buf] are the records [es]. *)
Definition dirents (buf : mem) (nread : Z) (es : list dirent) : Prop :=
  Forall dirent_ok es ∧ nread = Z.of_nat (length (concat (enc_dirent <$> es)))
  ∧ ∃ r, buf = concat (enc_dirent <$> es) ++ r.

Lemma length_bytes_of str : length (bytes_of str) = String.length str.
Proof. unfold bytes_of. rewrite length_fmap. induction str; simpl; congruence. Qed.

Lemma length_enc_dirent e : dirent_ok e -> Z.of_nat (length (enc_dirent e)) = e_reclen e.
Proof.
  intros (Hh & _). unfold enc_dirent, e_reclen. rewrite !length_app, length_le_bytes. simpl.
  rewrite length_app, length_bytes_of. simpl. lia.
Qed.

(** What is at an address of a memory split there. *)
Lemma rd8_split m l1 x l2 p : m = l1 ++ x :: l2 -> p = Z.of_nat (length l1) -> rd8 m p = Some x.
Proof.
  intros -> ->. unfold rd8. rewrite bool_decide_true, Nat2Z.id by lia. by rewrite lookup_app_r, Nat.sub_diag.
Qed.

Lemma cstring_split str fuel m l1 l2 p :
  m = l1 ++ bytes_of str ++ 0 :: l2 -> p = Z.of_nat (length l1) -> (String.length str < fuel)%nat ->
  Forall (fun x => x ≠ 0) (bytes_of str) -> cstring fuel m p = Some str.
Proof.
  revert fuel l1 p. induction str as [|c str IH]; intros [|fuel] l1 p Hm Hp Hf Hnz; simpl in Hf; try lia; cbn [cstring].
  - by rewrite (rd8_split _ _ _ _ _ Hm Hp).
  - unfold bytes_of in Hm, Hnz. cbn [list_ascii_of_string fmap list_fmap app] in Hm, Hnz. fold (bytes_of str) in Hm, Hnz.
    apply Forall_cons in Hnz as [Hc Hnz]. cbn [compose] in Hm, Hc.
    rewrite (rd8_split _ _ _ _ _ Hm Hp). cbn [mbind option_bind]. rewrite bool_decide_false by done.
    rewrite (IH fuel (l1 ++ [Z.of_nat (nat_of_ascii c)]) (p + 1));
      [|by rewrite <-app_assoc|rewrite length_app; simpl; lia|lia|done].
    cbn [mbind option_bind]. by rewrite Nat2Z.id, ascii_nat_embedding.
Qed.

Lemma dirent_fields m l1 e l2 p :
  m = l1 ++ enc_dirent e ++ l2 -> p = Z.of_nat (length l1) -> dirent_ok e ->
  d_name m p = Some (e_name e) ∧ d_reclen m p = Some (e_reclen e).
Proof.
  intros Hm Hp He. pose proof He as (Hh & Hr & Hnz).
  assert (0 <= e_reclen e) by (unfold e_reclen; lia).
  unfold enc_dirent in Hm. rewrite <-!app_assoc in Hm. split.
  - unfold d_name.
    apply (cstring_split _ _ _ (l1 ++ e_head e ++ le_bytes 2 (e_reclen e) ++ [e_type e]) (e_pad e ++ l2)).
    + rewrite Hm, <-!app_assoc. cbn [app]. rewrite <-!app_assoc. done.
    + rewrite !length_app, length_le_bytes, Hh. simpl. lia.
    + rewrite Hm, !length_app, length_le_bytes. simpl. rewrite !length_app, length_bytes_of. lia.
    + done.
  - unfold d_reclen, ltoh16_ua.
    assert (le_bytes 2 (e_reclen e) = [u8 (e_reclen e); u8 (e_reclen e / 256)]) as Hle by done.
    rewrite Hle in Hm. cbn [app] in Hm.
    rewrite (rd8_split m (l1 ++ e_head e) (u8 (e_reclen e)) _ (p + 16) (eq_trans Hm (app_assoc _ _ _)))
      by (rewrite length_app; lia). cbn [mbind option_bind].
    rewrite (rd8_split m (l1 ++ e_head e ++ [u8 (e_reclen e)]) (u8 (e_reclen e / 256))
      (e_type e :: (bytes_of (e_name e) ++ 0 :: e_pad e) ++ l2) (p + 16 + 1)).
    + cbn [mbind option_bind]. pose proof (u8_range (e_reclen e)). rewrite lor_shift by lia. f_equal.
      unfold u8. rewrite (Z.mod_small (e_reclen e / 256)).
      * pose proof (Z.div_mod (e_reclen e) 256). lia.
      * split; [apply Z.div_pos|apply Z.div_lt_upper_bound]; lia.
    + rewrite Hm, <-!app_assoc. done.
    + rewrite !length_app. simpl. lia.
Qed.

Section Entries.
Context {K : Type} (sys : call -> K -> reply * K).

Fixpoint for_each {A} (f : A -> M (K:=K) unit) (l : list A) : M unit :=
  match l with [] => mret tt | x :: l => _ ← f x; for_each f l end.

Lemma bind_ext {A B} (m : M (K:=K) A) (f g : A -> M B) s : (∀ a s, f a s = g a s) -> (m ≫= f) s = (m ≫= g) s.
Proof. intros H. unfold mbind, M_bind. destruct (m s) as [[a|] s']; [|done]. apply H. Qed.

Lemma entries_loop_each rec src dst indent buf nread es l1 r fuel s :
  buf = l1 ++ concat (enc_dirent <$> es) ++ r -> Forall dirent_ok es ->
  nread = Z.of_nat (length l1 + length (concat (enc_dirent <$> es))) -> (length es < fuel)%nat ->
  entries_loop sys rec fuel src dst indent buf nread (Z.of_nat (length l1)) s
  = for_each (fun e => merge_entry sys rec src dst indent (e_name e)) es s.
Proof.
  intros Hbuf Hok. revert l1 fuel s Hbuf. induction Hok as [|e es He Hes IH]; intros l1 [|fuel] s Hbuf Hn Hf;
    try (simpl in Hf; lia); cbn [entries_loop for_each].
  - rewrite bool_decide_false; [done|]. simpl in Hn. lia.
  - cbn [fmap list_fmap concat] in Hbuf, Hn. pose proof (length_enc_dirent e He) as Hlen.
    assert (0 < e_reclen e) by (unfold e_reclen; lia). rewrite length_app in Hn.
    rewrite bool_decide_true by lia. rewrite <-app_assoc in Hbuf.
    destruct (dirent_fields buf l1 e _ _ Hbuf eq_refl He) as [Hname Hrec]. rewrite Hname, Hrec.
    change (lift (Some (e_name e)) ≫= ?f) with (f (e_name e)). cbv beta. apply bind_ext. intros [] s'.
    change (lift (Some (e_reclen e)) ≫= ?f) with (f (e_reclen e)). cbv beta.
    replace (Z.of_nat (length l1) + e_reclen e) with (Z.of_nat (length (l1 ++ enc_dirent e)))
      by (rewrite length_app; lia).
    apply IH; [by rewrite <-app_assoc|rewrite length_app; lia|simpl in Hf; lia].
Qed.

Lemma entries_loop_dirents rec src dst indent buf nread es s :
  dirents buf nread es ->
  entries_loop sys rec (S (Z.to_nat nread)) src dst indent buf nread 0 s
  = for_each (fun e => merge_entry sys rec src dst indent (e_name e)) es s.
Proof.
  intros (Hok & Hn & r & Hbuf). apply (entries_loop_each _ _ _ _ _ _ _ [] r); [done..|].
  rewrite Hn, Nat2Z.id. clear -Hok. induction Hok as [|e es He _ IH]; [simpl; lia|].
  rewrite fmap_cons. cbn [concat length]. rewrite length_app. pose proof (length_enc_dirent e He).
  unfold e_reclen in *. lia.
Qed.

End Entries.

(** ** A kernel that behaves like a file system *)

Local Open Scope string_scope.


(** What is known of a descriptor: open on a file or directory of the trees that
    are read, on a directory of the tree merged into, on something else. *)
Inductive fd_kind := Closed | Source | Dest | Other.

(** The descriptor of the directory that the call puts an entry in. *)
Definition into (c : call) : option Z :=
  match c with renameat _ _ d _ | mkdirat d _ _ => Some d | _ => None end.

(** One component of a path. *)
Definition one_name (p : string) : Prop := String.index 0 "/" p = None.

(** The trees that are read and the tree merged into do not overlap.  [left] is
    what is still to be read at a source: bytes or entries.  A file or directory
    of the sources holds at most [N] when it is opened, and can be opened and
    read again at any time; a directory of the sources is above the directories
    that can be opened in it, in at most [D] levels. *)
Class FileSystem {K : Type} (sys : call -> K -> reply * K) (N D : nat) := {
  kind : K -> Z -> fd_kind;
  left : K -> Z -> nat;
  height : K -> Z -> nat;
  (** The last [newfstatat] of /mnt/lib has found a directory, and not a link. *)
  lib_dir : K -> Prop;
  (** A descriptor stays as it is until it is closed, and a source does not grow
      by what is put in directories of the destination. *)
  fs_keeps : ∀ c k fd, let k' := snd (sys c k) in
    kind k fd ≠ Closed -> c ≠ close fd -> (∀ d, into c = Some d -> d < 0 ∨ kind k d = Dest) ->
    kind k' fd = kind k fd
    ∧ (kind k fd = Source -> (left k' fd <= left k fd)%nat ∧ (height k' fd <= height k fd)%nat);
  fs_openat : ∀ d p f m k, let r := ret (fst (sys (openat d p f m) k)) in let k' := snd (sys (openat d p f m) k) in
    0 <= r -> r < 2147483648 ∧ kind k r = Closed
    ∧ (kind k' r = Source -> (left k' r <= N)%nat ∧ (height k' r <= D)%nat);
  (** An errno, and none of them is read as AT_FDCWD. *)
  fs_openat_error : ∀ d p f m k, let r := ret (fst (sys (openat d p f m) k)) in
    r < 0 -> -4096 < r ∧ r ≠ AT_FDCWD;
  (** Which opens give a source, and which the destination. *)
  fs_usr_lib : ∀ f m k, let '(r, k') := sys (openat AT_FDCWD "/mnt/usr/lib" f m) k in
    0 <= ret r -> kind k' (ret r) = Dest;
  fs_lib_old : ∀ f m k, let '(r, k') := sys (openat AT_FDCWD "/mnt/lib_old" f m) k in
    0 <= ret r -> kind k' (ret r) = Source;
  fs_lib : ∀ f m k, let '(r, k') := sys (openat AT_FDCWD "/mnt/lib" f m) k in
    lib_dir k -> 0 <= ret r -> kind k' (ret r) = Source;
  fs_linker : ∀ p m k, let '(r, k') := sys (openat AT_FDCWD p 0 m) k in
    p ∈ ["/ld-linux-aarch64.so.1"; "/ld-2.31.so"] -> 0 <= ret r -> kind k' (ret r) = Source;
  fs_child : ∀ d p m k, let '(r, k') := sys (openat d p O_DIRECTORY m) k in
    one_name p -> p ≠ "." -> p ≠ ".." -> 0 <= ret r ->
    (d < 0 -> d = AT_FDCWD) ∧ (kind k d = Dest -> kind k' (ret r) = Dest)
    ∧ (kind k d = Source -> kind k' (ret r) = Source ∧ (height k' (ret r) < height k d)%nat);
  fs_stat : ∀ k, let '(r, k') := sys (newfstatat AT_FDCWD "/mnt/lib" AT_SYMLINK_NOFOLLOW) k in
    ret r = 0 -> S_ISDIR (st_mode r) = true -> lib_dir k';
  fs_write : ∀ fd data k, lib_dir k -> lib_dir (snd (sys (write fd data) k));
  (** Reading takes from what is left. *)
  fs_read : ∀ fd n k, let '(r, k') := sys (read fd n) k in
    kind k fd = Source -> 0 < ret r -> (left k' fd < left k fd)%nat;
  fs_getdents : ∀ fd n k, let '(r, k') := sys (getdents64 fd n) k in
    kind k fd = Source -> 0 < ret r ->
    (left k' fd < left k fd)%nat ∧ ∃ es, dirents (out_bytes r) (ret r) es
      ∧ Forall (fun e => one_name (e_name e)) es;
}.

Section Total.
Context {K : Type} (sys : call -> K -> reply * K) {N D : nat} {FS : FileSystem sys N D}.

(** From the kernel state [k], [m] gets to its end, with [Q]. *)
Definition wp {A} (m : M (K:=K) A) (Q : A -> K -> Prop) (k : K) : Prop :=
  ∀ s, kernel s = k -> ∃ a s', m s = (Some a, s') ∧ Q a (kernel s').

Lemma wp_mret {A} (a : A) (Q : A -> K -> Prop) k : Q a k -> wp (mret a) Q k.
Proof. intros HQ s <-. by exists a, s. Qed.

Lemma wp_mbind {A B} (m : M A) (f : A -> M B) Q k : wp m (fun a => wp (f a) Q) k -> wp (m ≫= f) Q k.
Proof.
  intros Hm s Hs. destruct (Hm s Hs) as (a & s1 & H1 & Hf). unfold mbind, M_bind. rewrite H1. by apply Hf.
Qed.

Lemma wp_weaken {A} (m : M A) (Q R : A -> K -> Prop) k : wp m Q k -> (∀ a k', Q a k' -> R a k') -> wp m R k.
Proof. intros Hm HQ s Hs. destruct (Hm s Hs) as (a & s' & H1 & H2). eauto. Qed.

Lemma wp_sys c (Q : reply -> K -> Prop) k : Q (fst (sys c k)) (snd (sys c k)) -> wp (sys_call sys c) Q k.
Proof. intros HQ s <-. unfold sys_call. destruct (sys c (kernel s)) as [r k']. by eexists _, _. Qed.

Lemma wp_set fd (Q : unit -> K -> Prop) k : Q tt k -> wp (set_out_fd fd) Q k.
Proof. intros HQ s <-. by eexists _, _. Qed.

Lemma wp_print str (Q : unit -> K -> Prop) k :
  (∀ fd, Q tt (snd (sys (write fd (bytes_of str)) k))) -> wp (print sys str) Q k.
Proof. intros HQ s <-. unfold print, mbind, M_bind, sys_call, get_out_fd.
  specialize (HQ (out_fd s)). destruct (sys _ _) as [r k']. by eexists _, _.
Qed.

Lemma wp_print_all l (Q : unit -> K -> Prop) k : (∀ k, Q tt k) -> wp (print_all sys l) Q k.
Proof.
  intros HQ. revert k. induction l as [|str l IH]; intros k; [by apply wp_mret|]. apply wp_mbind, wp_print. intros fd. apply IH.
Qed.

(** ** Descriptors that stay as they are *)

Definition keeps (k k' : K) (fd : Z) : Prop :=
  kind k' fd = kind k fd
  ∧ (kind k fd = Source -> (left k' fd <= left k fd)%nat ∧ (height k' fd <= height k fd)%nat).

Definition steady (k k' : K) : Prop := ∀ fd, kind k fd ≠ Closed -> keeps k k' fd.

#[export] Instance steady_preorder : PreOrder steady.
Proof.
  split.
  - intros k fd _. split; [done|]. lia.
  - intros k1 k2 k3 H1 H2 fd Hfd. destruct (H1 fd Hfd) as [E1 L1]. destruct (H2 fd) as [E2 L2]; [by rewrite E1|].
    split; [by rewrite E2|]. intros Hs. destruct (L1 Hs), L2; [by rewrite E1|]. lia.
Qed.

Lemma steady_sys c k :
  (∀ x, c ≠ close x) -> (∀ d, into c = Some d -> d < 0 ∨ kind k d = Dest) -> steady k (snd (sys c k)).
Proof. intros Hc Hd fd Hfd. by apply fs_keeps. Qed.

(** Closing a descriptor that was not open yet. *)
Lemma steady_close k0 k x : steady k0 k -> kind k0 x = Closed -> steady k0 (snd (sys (close x) k)).
Proof.
  intros Hst Hx fd Hfd. destruct (Hst fd Hfd) as [E L]. destruct (fs_keeps (close x) k fd) as [E' L'].
  - by rewrite E.
  - intros [= ->]. done.
  - done.
  - split; [by rewrite E'|]. intros Hs. destruct (L Hs), L'; [by rewrite E|]. lia.
Qed.

Lemma steady_kind k k' fd : steady k k' -> kind k fd ≠ Closed -> kind k' fd = kind k fd.
Proof. intros Hst Hfd. by destruct (Hst fd Hfd). Qed.

Lemma steady_fresh k k' fd : steady k k' -> kind k' fd = Closed -> kind k fd = Closed.
Proof. intros Hst Hfd. destruct (kind k fd) eqn:E; [done|..]; rewrite <-E, <-(steady_kind k k' fd Hst); congruence. Qed.
End Total.
