(* ===== verification/RecoveryTheorems.v ===== *)
(** * recovery_init.c: the emergency init (properties)

    What a run has called holds for every kernel, whatever it replies, and for
    every fuel; that a run gets to its end is for the kernels that behave like a
    file system ([FileSystem]). *)

From Stdlib Require Import String Ascii.
From S2P Require Import Prelude Mem Endian RecoveryInit RecoverySpec.

(** ** Exact sequences of calls *)

(** A call without the descriptor of a write: the console may change. *)
Definition erase_fd (c : call) : call := match c with write _ data => write 0 data | c => c end.

Definition calls (t : list event) : list call := erase_fd ∘ fst <$> t.

Definition says (str : string) : call := write 0 (bytes_of str).

Section Runs.
Context {K : Type} (sys : call -> K -> reply * K).

Definition does {A} (m : M (K:=K) A) (l : list call) : Prop := emits m (fun _ t => calls t = l).

Lemma does_ret {A} (a : A) : does (mret a) [].
Proof. by apply emits_ret. Qed.

Lemma does_bind {A B} (m : M A) (f : A -> M B) l1 l2 : does m l1 -> (∀ a, does (f a) l2) -> does (m ≫= f) (l1 ++ l2).
Proof.
  intros Hm Hf. eapply emits_bind; [exact Hm|]. intros a t Ht. eapply emits_weaken; [apply Hf|].
  intros b t' Ht'. unfold calls in *. by rewrite fmap_app, Ht, Ht'.
Qed.

Lemma does_step {A B} (m : M A) (f : A -> M B) c l : does m [c] -> (∀ a, does (f a) l) -> does (m ≫= f) (c :: l).
Proof. apply (does_bind m f [c] l). Qed.

Lemma does_sys c : does (sys_call sys c) [erase_fd c].
Proof. by apply emits_sys. Qed.

Lemma does_print str : does (print sys str) [says str].
Proof. by apply runs_print. Qed.

Lemma does_print_end {B} str (f : unit -> M B) l : (∀ a, does (f a) l) -> does (print sys str ≫= f) (says str :: l).
Proof. apply does_step, does_print. Qed.

Lemma does_print_all l : does (print_all sys l) (says <$> l).
Proof. induction l as [|str l IH]; [apply does_ret|]. apply does_step; [apply does_print|]. done. Qed.

(** ** Copying a file *)

(** The loop between two open files: every chunk read is written whole, in
    order, until a read returns nothing or fails; the writes' replies do not
    matter. *)
Inductive copied (inp out : Z) : list event -> Prop :=
  | copied_end r : ret r <= 0 -> copied inp out [(read inp 4096, r)]
  | copied_more r w t :
      0 < ret r -> copied inp out t ->
      copied inp out ((read inp 4096, r) :: (write out (take (Z.to_nat (ret r)) (out_bytes r)), w) :: t).

Lemma copy_loop_copied fuel inp out : emits (copy_loop sys fuel inp out) (fun _ t => copied inp out t).
Proof.
  induction fuel as [|fuel IH]; cbn [copy_loop]; [by apply emits_lift|].
  apply (emits_bind _ _ (fun r t => t = [(read inp 4096, r)])); [by apply emits_sys|]. intros r t ->.
  case_bool_decide as Hr; [|apply emits_ret; constructor; lia].
  apply (emits_bind _ _ (fun w t => t = [(write out (take (Z.to_nat (ret r)) (out_bytes r)), w)]));
    [by apply emits_sys|]. intros w t ->. eapply emits_weaken; [exact IH|]. intros ? t Ht. by constructor.
Qed.

Local Open Scope string_scope.

(** The three ends of a copy. *)
Definition copy_trace (src dst : string) (mode : Z) (t : list event) : Prop :=
  ∃ ri t1, t = (openat AT_FDCWD src 0 0, ri) :: t1 ∧
  (ret ri < 0 -> calls t1 = [says "  [ERROR] Cannot open source: "; says src; says (ln "")]) ∧
  (0 <= ret ri -> ∃ ru ro t2,
     t1 = (unlinkat AT_FDCWD dst 0, ru) :: (openat AT_FDCWD dst O_WRONLY_CREAT_TRUNC mode, ro) :: t2 ∧
     (ret ro < 0 -> calls t2 = [says "  [ERROR] Cannot create dest: "; says dst; says (ln ""); close (ret ri)]) ∧
     (0 <= ret ro -> ∃ t3 t4, t2 = (t3 ++ t4)%list ∧ copied (ret ri) (ret ro) t3 ∧
        calls t4 = [close (ret ri); close (ret ro); says "  Installed: "; says dst; says (ln "")])).

Lemma copy_file_trace fuel src dst mode : emits (copy_file sys fuel src dst mode) (fun _ t => copy_trace src dst mode t).
Proof.
  unfold copy_file, copy_trace.
  apply (emits_bind _ _ (fun r t => t = [(openat AT_FDCWD src 0 0, r)])); [by apply emits_sys|]. intros ri t ->.
  case_bool_decide as Hi.
  - eapply emits_weaken; [do 2 (apply does_print_end; intros ?); apply does_print|].
    intros ? t Ht. exists ri, t. split; [done|]. split; [done|lia].
  - apply (emits_bind _ _ (fun r t => t = [(unlinkat AT_FDCWD dst 0, r)])); [by apply emits_sys|]. intros ru t ->.
    apply (emits_bind _ _ (fun r t => t = [(openat AT_FDCWD dst O_WRONLY_CREAT_TRUNC mode, r)])); [by apply emits_sys|].
    intros ro t ->. case_bool_decide as Hro.
    + eapply emits_weaken; [do 3 (apply does_print_end; intros ?); apply does_step; [apply does_sys|intros ?; apply does_ret]|].
      intros ? t Ht. exists ri, ((unlinkat AT_FDCWD dst 0, ru) :: (openat AT_FDCWD dst O_WRONLY_CREAT_TRUNC mode, ro) :: t).
      split; [done|]. split; [lia|]. intros _. exists ru, ro, t. split; [done|]. split; [done|lia].
    + eapply emits_bind; [apply copy_loop_copied|]. intros ? t3 Ht3.
      eapply emits_weaken; [apply does_step; [apply does_sys|intros ?]; apply does_step; [apply does_sys|intros ?];
        do 2 (apply does_print_end; intros ?); apply does_print|].
      intros ? t4 Ht4. eexists ri, _. split; [done|]. split; [lia|]. intros _. eexists ru, ro, _. split; [done|].
      split; [lia|]. intros _. by exists t3, t4.
Qed.
End Runs.

Local Open Scope string_scope.

(** ** What the program may change *)

Definition linkers : list string :=
  ["/mnt/usr/lib/aarch64-linux-gnu/ld-linux-aarch64.so.1"; "/mnt/usr/lib/aarch64-linux-gnu/ld-2.31.so";
   "/mnt/usr/lib/ld-linux-aarch64.so.1"].

(** [p] is a name of a directory listing read at [d], but not "." and "..". *)
Definition listed (h : list event) (d : Z) (p : string) : Prop :=
  p ≠ "." ∧ p ≠ ".." ∧ ∃ n r b, (getdents64 d n, r) ∈ h ∧ b < ret r ∧ d_name (out_bytes r) b = Some p.

(** [d] is the descriptor of a directory that the program has opened. *)
Definition directory (h : list event) (d : Z) : Prop :=
  ∃ d' p m r, (openat d' p O_DIRECTORY m, r) ∈ h ∧ d = s32 (ret r).

(** The calls that may follow the events [h]: what removes, renames, creates,
    links or mounts something is restricted to the fixed paths of the program,
    and to the entries that it has listed, which move from the listed directory
    to one that it has opened and keep their name. *)
Definition allowed (h : list event) (e : event) : Prop :=
  match fst e with
  | write _ _ | nanosleep _ _ | read _ _ | getdents64 _ _ | close _ | newfstatat _ _ _ | sync => True
  | openat d p f m =>
      f = O_RDONLY ∨ f = O_DIRECTORY ∨ d = AT_FDCWD ∧ p = "/dev/console" ∧ f = O_RDWR
      ∨ d = AT_FDCWD ∧ p ∈ linkers ∧ f = O_WRONLY_CREAT_TRUNC ∧ m = MODE_0755
  | unlinkat d p f =>
      d = AT_FDCWD ∧ p ∈ "/mnt/lib" :: "/mnt/lib64" :: linkers ∧ f = 0
      ∨ d = AT_FDCWD ∧ p ∈ ["/mnt/lib_old"; "/mnt/lib"; "/mnt/lib64"] ∧ f = AT_REMOVEDIR
      ∨ directory h d ∧ listed h d p ∧ f = AT_REMOVEDIR
  | renameat d p d' p' => p' = p ∧ directory h d ∧ listed h d p ∧ directory h d'
  | mkdirat d p m =>
      d = AT_FDCWD ∧ m = None ∧
      p ∈ ["/dev"; "/mnt"; "/mnt/usr"; "/mnt/usr/lib"; "/mnt/usr/lib64"; "/mnt/usr/lib/aarch64-linux-gnu"; "/mnt/usr/lib/modules"]
      ∨ m = Some MODE_0755 ∧ directory h d ∧ ∃ d', directory h d' ∧ listed h d' p
  | symlinkat target d p => d = AT_FDCWD ∧ (target, p) ∈
      [("usr/lib", "/mnt/lib"); ("usr/lib64", "/mnt/lib64");
       ("ld-linux-aarch64.so.1", "/mnt/usr/lib/aarch64-linux-gnu/ld-2.31.so");
       ("aarch64-linux-gnu/ld-linux-aarch64.so.1", "/mnt/usr/lib/ld-linux-aarch64.so.1")]
  | mount s t ty f data =>
      (s, t, ty) ∈ [("devtmpfs", "/dev", "devtmpfs"); ("/dev/mmcblk0p6", "/mnt", "ext4")] ∧ f = 0 ∧ data = 0
  | umount2 p f => p = "/mnt" ∧ f = 0
  end.

(** Every event of [t] is allowed after [h] and those before it. *)
Fixpoint safe (h t : list event) : Prop :=
  match t with [] => True | e :: t => allowed h e ∧ safe (h ++ [e])%list t end.

Lemma safe_app h t1 t2 : safe h (t1 ++ t2)%list <-> safe h t1 ∧ safe (h ++ t1)%list t2.
Proof.
  revert h. induction t1 as [|e t1 IH]; intros h; simpl; [rewrite app_nil_r; tauto|].
  rewrite IH, <-app_assoc. simpl. tauto.
Qed.

Lemma listed_mono h h' d p : h ⊆ h' -> listed h d p -> listed h' d p.
Proof. intros Hh (? & ? & n & r & b & Hr & ? & ?). split_and!; [done..|]. exists n, r, b. auto. Qed.

Lemma directory_mono h h' d : h ⊆ h' -> directory h d -> directory h' d.
Proof. intros Hh (d' & p & m & r & Hr & ?). exists d', p, m, r. auto. Qed.

Lemma str_eq_true a b : str_eq a b = true <-> a = b.
Proof.
  revert b. induction a as [|x a IH]; intros [|y b]; simpl; try done.
  destruct (Ascii.eqb_spec x y) as [->|Hne]; [rewrite IH; split; congruence|split; congruence].
Qed.

Section Guarded.
Context {K : Type} (sys : call -> K -> reply * K).

(** After the events [h0], and maybe others, [m] makes allowed calls only. *)
Definition guarded {A} (h0 : list event) (m : M (K:=K) A) : Prop :=
  ∀ h, h0 ⊆ h -> runs m (safe h) (fun _ => safe h).

Lemma guarded_ret {A} h0 (a : A) : guarded h0 (mret a).
Proof. intros h _. by apply runs_ret. Qed.

Lemma guarded_lift {A} h0 (x : option A) : guarded h0 (lift x).
Proof. intros h _. by apply runs_lift. Qed.

Lemma guarded_set h0 fd : guarded h0 (set_out_fd fd).
Proof. intros h _. by apply runs_set. Qed.

Lemma guarded_print h0 str : guarded h0 (print sys str).
Proof. intros h _. by apply runs_print. Qed.

Lemma guarded_step {A B} h0 (m : M A) (f : A -> M B) :
  guarded h0 m -> (∀ a, guarded h0 (f a)) -> guarded h0 (m ≫= f).
Proof.
  intros Hm Hf h Hh. eapply runs_bind; [by apply Hm|]. intros a t Ht.
  eapply runs_weaken; [apply (Hf a (h ++ t)%list); set_solver| |]; intros; by apply safe_app.
Qed.

Lemma guarded_sys h0 c : (∀ h r, h0 ⊆ h -> allowed h (c, r)) -> guarded h0 (sys_call sys c).
Proof. intros Hc h Hh. apply runs_sys. intros r. split; (split; [by apply Hc|done]). Qed.

Lemma guarded_call {B} h0 c (f : reply -> M B) :
  (∀ h r, h0 ⊆ h -> allowed h (c, r)) -> (∀ r, guarded (h0 ++ [(c, r)])%list (f r)) -> guarded h0 (sys_call sys c ≫= f).
Proof.
  intros Hc Hf h Hh. apply (runs_bind _ _ _ (fun r t => t = [(c, r)])).
  - apply runs_sys. intros r. split; [|done]. split; [by apply Hc|done].
  - intros r t ->. eapply runs_weaken; [apply (Hf r (h ++ [(c, r)])%list); set_solver| |];
      intros; (apply safe_app; split; [split; [by apply Hc|done]|done]).
Qed.

Lemma guarded_lift_eq {A B} h0 (x : option A) (f : A -> M B) :
  (∀ a, x = Some a -> guarded h0 (f a)) -> guarded h0 (lift x ≫= f).
Proof.
  intros Hf h Hh. apply (runs_bind _ _ _ (fun a t => x = Some a ∧ t = [])).
  - by apply runs_lift.
  - intros a t [Ha ->]. by apply Hf.
Qed.

Lemma guarded_print_all h0 l : guarded h0 (print_all sys l).
Proof. induction l as [|str l IH]; [apply guarded_ret|]. by apply guarded_step; [apply guarded_print|]. Qed.

(** Runs through calls that are allowed after any events. *)
Ltac by_allowed :=
  intros; unfold allowed, linkers; cbn [fst]; rewrite ?elem_of_cons; tauto.

Ltac guarded_steps :=
  repeat first
    [ apply guarded_ret | apply guarded_lift | apply guarded_set | apply guarded_print | apply guarded_print_all
    | apply guarded_step; [|intros ?]
    | apply guarded_sys; by_allowed
    | match goal with |- guarded _ (if ?b then _ else _) => destruct b eqn:? end ].

Lemma guarded_copy_file h0 fuel src dst : dst ∈ linkers -> guarded h0 (copy_file sys fuel src dst MODE_0755).
Proof.
  intros Hdst. assert (∀ inp out, guarded h0 (copy_loop sys fuel inp out)) as Hloop.
  { intros inp out. induction fuel as [|f IH]; cbn [copy_loop]; guarded_steps. done. }
  unfold copy_file. guarded_steps; [..|apply Hloop]; apply guarded_sys; intros; unfold allowed; cbn [fst]; tauto || set_solver.
Qed.

Section Merge.
Variable rec : Z -> Z -> string -> M (K:=K) unit.
Hypothesis Hrec : ∀ h0 src dst indent, directory h0 src -> directory h0 dst -> guarded h0 (rec src dst indent).

Lemma guarded_merge_entry h0 src dst indent name :
  directory h0 src -> directory h0 dst -> (name ≠ "." -> name ≠ ".." -> listed h0 src name) ->
  guarded h0 (merge_entry sys rec src dst indent name).
Proof.
  intros Hs Hd Hl. unfold merge_entry. destruct (negb _ && negb _) eqn:Hdot; [|apply guarded_ret].
  apply andb_true_iff in Hdot as [H1 H2]. apply negb_true_iff in H1, H2.
  assert (listed h0 src name) as Hname by (apply Hl; intros Hn; apply str_eq_true in Hn; congruence).
  assert (∀ h r, h0 ⊆ h -> allowed h (mkdirat dst name (Some MODE_0755), r)) as Hmk.
  { intros h r Hh. right. eauto 8 using directory_mono, listed_mono. }
  do 3 (apply guarded_step; [apply guarded_print|intros _]).
  apply guarded_step; [apply guarded_sys; intros h r Hh; unfold allowed; cbn [fst]; eauto 8 using directory_mono, listed_mono|].
  intros r. case_bool_decide; [apply guarded_print|]. apply guarded_step; [apply guarded_print|intros _].
  apply guarded_call; [by_allowed|]. intros s1.
  apply guarded_call; [intros; apply Hmk; set_solver|]. intros mr.
  apply guarded_call; [by_allowed|]. intros s2.
  apply guarded_step.
  { case_match; [|apply guarded_ret].
    apply Hrec; [exists src, name, 0, s1|exists dst, name, 0, s2]; (split; [set_solver|done]). }
  intros ?. guarded_steps. apply guarded_sys. intros h r' Hh. right. right.
  split_and!; [| |done]; [eapply directory_mono; [|exact Hs]|eapply listed_mono; [|exact Hname]]; set_solver.
Qed.

Lemma guarded_entries_loop h0 fuel src dst indent r bpos :
  directory h0 src -> directory h0 dst -> (getdents64 src 2048, r) ∈ h0 ->
  guarded h0 (entries_loop sys rec fuel src dst indent (out_bytes r) (ret r) bpos).
Proof.
  intros Hs Hd Hr. revert bpos. induction fuel as [|fuel IH]; intros bpos; cbn [entries_loop]; [apply guarded_lift|].
  case_bool_decide as Hb; [|apply guarded_ret]. apply guarded_lift_eq. intros name Hname.
  apply guarded_step; [|intros _; apply guarded_step; [apply guarded_lift|intros ?; apply IH]].
  apply guarded_merge_entry; [done..|]. intros H1 H2. split_and!; [done..|]. by exists 2048, r, bpos.
Qed.
End Merge.

Lemma guarded_merge_dir h0 fuel src dst indent :
  directory h0 src -> directory h0 dst -> guarded h0 (merge_dir sys fuel src dst indent).
Proof.
  revert h0 src dst indent. induction fuel as [|fuel IH]; intros h0 src dst indent Hs Hd; cbn [merge_dir];
    [apply guarded_lift|].
  apply guarded_call; [by_allowed|]. intros r. case_bool_decide; [|apply guarded_ret].
  assert (∀ d, directory h0 d -> directory (h0 ++ [(getdents64 src 2048, r)])%list d) as Hm.
  { intros d. apply directory_mono. set_solver. }
  apply guarded_step; [|intros _; apply IH; auto].
  apply guarded_entries_loop; [exact IH|auto..]. set_solver.
Qed.

Lemma guarded_mount_loop h0 n r0 : guarded h0 (mount_loop sys n r0).
Proof.
  revert r0. induction n as [|n IH]; intros r0; cbn [mount_loop]; unfold sleep_sec; guarded_steps. apply IH.
Qed.

Lemma guarded_merge_libs h0 fuel : guarded h0 (merge_libs sys fuel).
Proof.
  assert (∀ h p r d, (openat AT_FDCWD p (Z.lor O_RDONLY O_DIRECTORY) 0, r) ∈ h -> d = s32 (ret r) -> directory h d) as Hdir.
  { intros h p r d Hr ->. by exists AT_FDCWD, p, 0, r. }
  unfold merge_libs. do 5 (apply guarded_step; [apply guarded_sys; by_allowed|intros ?]).
  apply guarded_call; [by_allowed|]. intros dst. apply guarded_call; [by_allowed|]. intros old.
  apply guarded_step.
  { guarded_steps. apply guarded_merge_dir; (eapply Hdir; [|reflexivity]; rewrite !elem_of_app, !list_elem_of_singleton; eauto). }
  intros ?. apply guarded_step; [guarded_steps|]. intros st.
  apply guarded_step; [|intros ?; guarded_steps].
  case_match; [|apply guarded_ret]. apply guarded_step; [apply guarded_print|]. intros ?.
  apply guarded_call; [by_allowed|]. intros cur. guarded_steps.
  apply guarded_merge_dir; (eapply Hdir; [|reflexivity]; rewrite !elem_of_app, !list_elem_of_singleton; eauto).
Qed.

#[local] Opaque copy_file mount_loop.

Lemma guarded_install h0 fuel : guarded h0 (install sys fuel).
Proof. unfold install. guarded_steps; apply guarded_copy_file; by_allowed. Qed.

Lemma guarded_setup h0 : guarded h0 (setup sys).
Proof. unfold setup. guarded_steps. apply guarded_mount_loop. Qed.

#[local] Opaque setup merge_libs install.

Lemma guarded_start h0 fuel : guarded h0 (_start sys fuel).
Proof.
  unfold _start, verify, finish. guarded_steps; auto using guarded_setup, guarded_install, guarded_merge_libs.
Qed.
#[local] Transparent copy_file mount_loop setup merge_libs install.
End Guarded.

(** ** The mount *)

(** The calls of the setup: they only create and mount on /dev and /mnt. *)
Definition quiet (e : event) : Prop :=
  match fst e with
  | write _ _ | nanosleep _ _ => True
  | mkdirat d p _ => d = AT_FDCWD ∧ (p = "/dev" ∨ p = "/mnt")
  | openat d p _ _ => d = AT_FDCWD ∧ p = "/dev/console"
  | mount s t _ _ _ => (s, t) ∈ [("devtmpfs", "/dev"); ("/dev/mmcblk0p6", "/mnt")]
  | _ => False
  end.

Definition mount_root : call := mount "/dev/mmcblk0p6" "/mnt" "ext4" 0 0.

(** The failed attempts to mount the root file system. *)
Fixpoint failed_mounts (t : list event) : nat :=
  match t with
  | [] => 0
  | (mount s _ _ _ _, r) :: t =>
      (if bool_decide (s = "/dev/mmcblk0p6") && negb (bool_decide (ret r = 0)) then 1 else 0) + failed_mounts t
  | _ :: t => failed_mounts t
  end.

Lemma failed_mounts_app t1 t2 : failed_mounts (t1 ++ t2)%list = (failed_mounts t1 + failed_mounts t2)%nat.
Proof. induction t1 as [|[c r] t1 IH]; [done|]. destruct c; simpl; rewrite IH; lia. Qed.

(** How the mounting ended. *)
Definition mounted (n : nat) (r : Z) (t : list event) : Prop :=
  Forall quiet t ∧
  (r = 0 -> ∃ t1 rp, t = (t1 ++ [(mount_root, rp)])%list ∧ ret rp = 0) ∧ (r ≠ 0 -> failed_mounts t = n).

Section Mount.
Context {K : Type} (sys : call -> K -> reply * K).

(** Setup calls that are no failed mount of the root file system. *)
Definition calm (t : list event) : Prop := Forall quiet t ∧ failed_mounts t = 0%nat.

Definition is_calm {A} (m : M (K:=K) A) : Prop := runs m (Forall quiet) (fun _ => calm).

Lemma mounted_step {A} n (m : M (K:=K) A) (f : A -> M Z) :
  is_calm m -> (∀ a, runs (f a) (Forall quiet) (mounted n)) -> runs (m ≫= f) (Forall quiet) (mounted n).
Proof.
  intros Hm Hf. eapply runs_bind; [exact Hm|]. intros a t [Hq H0].
  eapply runs_weaken; [apply Hf|intros t' Ht'; by apply Forall_app|].
  intros r t' (Hq' & Hok & Hno). split; [by apply Forall_app|]. rewrite failed_mounts_app, H0. split; [|done].
  intros Hr. destruct (Hok Hr) as (t1 & rp & -> & Hrp). exists (t ++ t1)%list, rp. by rewrite app_assoc.
Qed.

Lemma calm_sys c : (∀ r, quiet (c, r)) -> (∀ r, failed_mounts [(c, r)] = 0%nat) -> is_calm (sys_call sys c).
Proof. intros Hq H0. apply runs_sys. intros r. split; [by repeat constructor|]. split; [by repeat constructor|done]. Qed.

Lemma calm_print str : is_calm (print sys str).
Proof. apply runs_print; [done|]. intros fd r. split; [|split]; by repeat constructor. Qed.

Lemma calm_sleep n : is_calm (sleep_sec sys n).
Proof.
  unfold sleep_sec. apply (runs_bind _ _ _ (fun r t => t = [(nanosleep n 0, r)])).
  - apply runs_sys. intros r. split; [by repeat constructor|done].
  - intros r t ->. apply runs_ret; [|split]; by repeat constructor.
Qed.

Lemma quiet_mount r : quiet (mount_root, r).
Proof. unfold quiet, mount_root. cbn [fst]. rewrite !elem_of_cons. tauto. Qed.

Lemma mount_loop_mounted n r0 : r0 ≠ 0 -> runs (mount_loop sys n r0) (Forall quiet) (mounted n).
Proof.
  revert r0. induction n as [|n IH]; intros r0 Hr0; cbn [mount_loop].
  { apply runs_ret; [constructor|]. by split; [constructor|]. }
  apply (runs_bind _ _ _ (fun r t => t = [(mount_root, r)])).
  { apply runs_sys. intros r. split; [by repeat constructor; apply quiet_mount|done]. }
  intros rp t ->. case_bool_decide as Hrp.
  - apply runs_ret; [by repeat constructor; apply quiet_mount|]. rewrite Hrp.
    split; [by repeat constructor; apply quiet_mount|]. split; [|done]. intros _. by exists [], rp.
  - eapply runs_weaken; [apply (mounted_step n); [apply calm_print|]; intros ?; apply mounted_step; [apply calm_sleep|];
      intros ?; by apply IH| |].
    + intros t Ht. constructor; [apply quiet_mount|done].
    + intros r t (Hqt & Hok & Hno). split; [constructor; [apply quiet_mount|done]|]. split.
      * intros Hr. destruct (Hok Hr) as (t1 & rp' & -> & Hrp'). by exists ((mount_root, rp) :: t1)%list, rp'.
      * intros Hr. simpl. rewrite Hno by done. by rewrite bool_decide_false by done.
Qed.

Lemma setup_mounted : runs (setup sys) (Forall quiet) (mounted 15).
Proof.
  unfold setup.
  repeat first [apply mount_loop_mounted; done | apply mounted_step; [|intros ?]]; try apply calm_print.
  all: try (apply calm_sys; [|done]; intros r; unfold quiet; cbn [fst]; rewrite ?elem_of_cons; tauto).
  case_match; [by apply runs_set|by apply runs_ret].
Qed.

(** The calls of the last steps: sync, unmount, sync, and the banner. *)
Definition closing : list call :=
  says (ln ">>> Syncing all changes to eMMC storage...") :: sync
  :: says (ln ">>> Safely unmounting /mnt...") :: umount2 "/mnt" 0 :: sync :: (says <$> banner).

Lemma finish_does : does (finish sys) closing.
Proof.
  unfold finish, closing. apply does_print_end. intros ?. apply does_step; [apply does_sys|]. intros ?.
  apply does_print_end. intros ?. apply does_step; [apply does_sys|]. intros ?.
  apply does_step; [apply does_sys|]. intros ?. apply does_print_all.
Qed.

(** What the two ends of a run have done. *)
Definition outcome_trace (o : outcome) (t : list event) : Prop :=
  match o with
  | Fatal => Forall quiet t ∧ failed_mounts t = 15%nat
  | Complete => ∃ t1 rp t2 t3, t = (t1 ++ (mount_root, rp) :: t2 ++ t3)%list ∧ ret rp = 0 ∧ Forall quiet t1
                ∧ calls t3 = closing
  end.

(** The events of a run, whether or not it has got to its end: nothing but the
    setup until the root file system is mounted. *)
Definition mount_first (t : list event) : Prop :=
  Forall quiet t ∨ ∃ t1 rp t2, t = (t1 ++ (mount_root, rp) :: t2)%list ∧ ret rp = 0 ∧ Forall quiet t1.

Lemma owes_emits {A} l (m : M (K:=K) A) : owes l m -> emits m (fun _ _ => True).
Proof. intros Hm. by eapply runs_weaken. Qed.

(** The steps after the mount. *)
Lemma repair_closing fuel :
  emits (_ ← print sys (ln (ln ">>> Rootfs mounted successfully!"));
         _ ← merge_libs sys fuel; _ ← install sys fuel; _ ← verify sys; _ ← finish sys; mret Complete)
    (fun o t => o = Complete ∧ ∃ t2 t3, t = (t2 ++ t3)%list ∧ calls t3 = closing).
Proof.
  eapply emits_bind; [apply does_print|]. intros ? t2 _.
  eapply emits_bind; [eapply owes_emits, owes_merge_libs|]. intros ? t3 _.
  eapply emits_bind; [eapply owes_emits, owes_install|]. intros ? t4 _.
  eapply emits_bind; [eapply owes_emits, owes_verify|]. intros ? t5 _.
  eapply emits_bind; [apply finish_does|]. intros ? t6 Ht6. apply emits_ret. rewrite app_nil_r.
  split; [done|]. exists (t2 ++ t3 ++ t4 ++ t5)%list, t6. by rewrite <-!app_assoc.
Qed.

Lemma start_outcome fuel : runs (_start sys fuel) mount_first outcome_trace.
Proof.
  unfold _start. eapply runs_bind; [eapply runs_weaken; [apply setup_mounted|by left|exact (fun _ _ H => H)]|].
  intros r t (Hq & Hok & Hno). case_bool_decide as Hr; cbn [negb].
  - destruct (Hok Hr) as (t1 & rp & -> & Hrp). clear Hok Hno. apply Forall_app in Hq as [Hq _].
    eapply runs_weaken; [apply repair_closing| |].
    + intros t _. right. exists t1, rp, t. by rewrite <-app_assoc.
    + intros o t (-> & t2 & t3 & -> & Ht3). exists t1, rp, t2, t3. by rewrite <-app_assoc.
  - specialize (Hno Hr).
    assert (∀ (o : outcome) (a b : list event), calm a -> calm b -> o = Fatal -> outcome_trace o (t ++ a ++ b)%list) as Hend.
    { intros o a b [Ha Ha0] [Hb Hb0] ->. split; [by repeat (apply Forall_app; split)|].
      rewrite !failed_mounts_app, Hno, Ha0, Hb0. done. }
    assert (runs (_ ← print sys (ln "FATAL: Failed to mount /dev/mmcblk0p6!");
                  _ ← print sys (ln ">>> System halted."); mret Fatal) (Forall quiet)
                 (fun o t' => outcome_trace o (t ++ t')%list)) as Hrun.
    { eapply runs_bind; [apply calm_print|]. intros ? a Ha.
      eapply runs_bind; [eapply runs_weaken; [apply calm_print|intros b Hb; apply Forall_app; split; [apply Ha|done]|
        exact (fun _ _ H => H)]|]. intros ? b Hb.
      apply runs_ret; rewrite app_nil_r; [apply Forall_app; split; [apply Ha|apply Hb]|by apply Hend]. }
    eapply runs_weaken; [exact Hrun| |done]. intros t' Ht'. left. by apply Forall_app.
Qed.
End Mount.

(** ** Descriptors of the whole run *)

Section Descriptors.
Context {K : Type} (sys : call -> K -> reply * K).

Definition console : call := openat AT_FDCWD "/dev/console" O_RDWR 0.

(** The console stays open, and nothing else. *)
Definition leaves_console {A} (m : M (K:=K) A) : Prop :=
  runs m (fun t => ∀ X, is_Some (fds t X))
         (fun _ t => ∃ r, (console, r) ∈ t ∧ ∀ X, fds t X = Some (held (ret r) ⊎ X)).

Lemma owes_fds {A} (m : M (K:=K) A) :
  owes [] m -> runs m (fun t => ∀ X, is_Some (fds t X)) (fun _ t => ∀ X, fds t X = Some X).
Proof.
  assert (∀ X, owed [] ⊎ X = X) as He by (intros X; apply (left_id_L ∅ (⊎))).
  intros Hm. eapply runs_weaken; [exact Hm|intros t Ht X|intros a t Ht X]; specialize (Ht X); by rewrite He in Ht.
Qed.

Lemma leaves_console_step {A B} (m : M (K:=K) A) (f : A -> M B) :
  owes [] m -> (∀ a, leaves_console (f a)) -> leaves_console (m ≫= f).
Proof.
  intros Hm Hf. eapply runs_bind; [by apply owes_fds|]. intros a t Ht. eapply runs_weaken; [apply Hf| |].
  - intros t' Ht' X. rewrite fds_app, Ht. apply Ht'.
  - intros b t' (r & Hr & Ht'). exists r. split; [set_solver|]. intros X. rewrite fds_app, Ht. apply Ht'.
Qed.

Lemma leaves_console_then {A B} (m : M (K:=K) A) (f : A -> M B) :
  leaves_console m -> (∀ a, owes [] (f a)) -> leaves_console (m ≫= f).
Proof.
  intros Hm Hf. eapply runs_bind; [exact Hm|]. intros a t (r & Hr & Ht). eapply runs_weaken; [apply owes_fds, Hf| |].
  - intros t' Ht' X. rewrite fds_app, Ht. apply Ht'.
  - intros b t' Ht'. exists r. split; [set_solver|]. intros X. rewrite fds_app, Ht. apply Ht'.
Qed.

Lemma leaves_console_open : leaves_console (sys_call sys console).
Proof.
  apply runs_sys. intros r. split; [intros X; unfold console; rewrite fds_openat; eauto|].
  exists r. split; [by apply list_elem_of_singleton|]. intros X. apply fds_openat.
Qed.

#[local] Opaque mount_loop merge_libs install verify finish.

Lemma start_descriptors fuel : leaves_console (_start sys fuel).
Proof.
  unfold _start. apply leaves_console_then.
  - unfold setup. do 2 (apply leaves_console_step; [by apply owes_plain|intros ?]).
    apply leaves_console_then; [apply leaves_console_open|]. intros cfd.
    apply owes_step; [case_match; owes_steps|]. intros ?. owes_steps. apply owes_mount_loop.
  - intros r. case_match; owes_steps.
    apply owes_step; [apply owes_merge_libs|]. intros ?. apply owes_step; [apply owes_install|]. intros ?.
    apply owes_step; [apply owes_verify|]. intros ?. apply owes_step; [apply owes_finish|]. intros ?. owes_steps.
Qed.
#[local] Transparent mount_loop merge_libs install verify finish.
End Descriptors.

(** ** Termination *)

(** With this much fuel the program ends: one directory takes at most [N + 1]
    of it, and there are at most [D + 1] levels of them. *)
Definition enough (N D fuel : nat) : Prop := ((N + 1) * (D + 1) <= fuel)%nat.

Section Termination.
Context {K : Type} (sys : call -> K -> reply * K) {N D : nat} {FS : FileSystem sys N D}.

(** Runs through calls that close nothing and put nothing in a directory that is
    open; what follows holds whatever their replies. *)
Ltac wp_steps :=
  repeat first
    [ apply wp_mret | apply (wp_print sys); intros ? | apply (wp_print_all sys); intros ?
    | apply wp_set | apply (wp_sys sys) | apply wp_mbind ].

Lemma steady_then c k0 k :
  steady (FS:=FS) sys k0 k -> (∀ x, c ≠ close x) -> (∀ d, into c = Some d -> d < 0 ∨ kind k d = Dest) ->
  steady (FS:=FS) sys k0 (snd (sys c k)).
Proof. intros Hst Hc Hd. etrans; [exact Hst|]. by apply (steady_sys sys). Qed.

Lemma steady_source k k' fd :
  steady (FS:=FS) sys k k' -> kind k fd = Source ->
  kind k' fd = Source ∧ (left k' fd <= left k fd)%nat ∧ (height k' fd <= height k fd)%nat.
Proof. intros Hst Hk. destruct (Hst fd) as [E L]; [congruence|]. rewrite E. auto. Qed.

Lemma wp_copy_loop fuel inp out k :
  kind k inp = Source -> (left k inp < fuel)%nat ->
  wp (copy_loop sys fuel inp out) (fun _ k' => steady (FS:=FS) sys k k') k.
Proof.
  revert k. induction fuel as [|fuel IH]; intros k Hk Hf; [lia|]. cbn [copy_loop]. wp_steps.
  pose proof (fs_read inp 4096 k) as Hr. assert (steady sys k (snd (sys (read inp 4096) k))) as Hst by (by apply steady_sys).
  destruct (sys (read inp 4096) k) as [r k1]. cbn [fst snd] in *.
  case_bool_decide; [|by apply wp_mret]. wp_steps. set (w := write _ _).
  assert (steady sys k1 (snd (sys w k1))) as Hw by (by apply steady_sys).
  destruct (steady_source _ _ _ Hst Hk) as (Hk1 & _). destruct (steady_source _ _ _ Hw Hk1) as (Hk2 & Hl2 & _).
  specialize (Hr Hk). eapply wp_weaken; [apply IH; [done|lia]|intros ? k' Hk']. etrans; [|exact Hk']. by etrans.
Qed.

Lemma wp_copy_file fuel src dst mode k :
  src ∈ ["/ld-linux-aarch64.so.1"; "/ld-2.31.so"] -> (N < fuel)%nat ->
  wp (copy_file sys fuel src dst mode) (fun _ _ => True) k.
Proof.
  intros Hsrc Hf. unfold copy_file. wp_steps.
  pose proof (fs_linker src 0 k) as Hlk. pose proof (fs_openat AT_FDCWD src 0 0 k) as Ho.
  cbn zeta in Ho. destruct (sys (openat AT_FDCWD src 0 0) k) as [ri k1].
  cbn [fst snd] in *. case_bool_decide as Hri; [by wp_steps|].
  specialize (Hlk Hsrc ltac:(lia)). destruct Ho as (_ & _ & Hb); [lia|]. destruct (Hb Hlk) as [Hl _].
  wp_steps. set (u := unlinkat _ _ _). set (op := openat _ _ _ _).
  assert (steady sys k1 (snd (sys u k1))) as H2 by (by apply steady_sys).
  assert (steady sys k1 (snd (sys op (snd (sys u k1))))) as H3 by (by apply steady_then).
  destruct (sys op (snd (sys u k1))) as [ro k3]. cbn [fst snd] in *. case_bool_decide; [by wp_steps|].
  destruct (steady_source _ _ _ H3 Hlk) as (Hk3 & Hl3 & _).
  apply wp_mbind. eapply wp_weaken; [apply wp_copy_loop; [done|lia]|]. intros ? k4 _. by wp_steps.
Qed.

(** *** Steps that leave the open descriptors as they are *)

Definition is_dest (k : K) (d : Z) : Prop := d < 0 ∧ d ≠ AT_FDCWD ∨ kind k d = Dest.

Lemma is_dest_steady k k' d : steady (FS:=FS) sys k k' -> is_dest k d -> is_dest k' d.
Proof. intros Hst [Hd|Hd]; [by left|right]. rewrite (steady_kind _ _ _ _ Hst); congruence. Qed.

Lemma is_dest_into k d : is_dest k d -> d < 0 ∨ kind k d = Dest.
Proof. intros [[??]|?]; auto. Qed.

Lemma wp_print_bind {B} k0 k str (f : unit -> M (K:=K) B) Q :
  steady (FS:=FS) sys k0 k -> (∀ k1, steady (FS:=FS) sys k0 k1 -> wp (f tt) Q k1) -> wp (print sys str ≫= f) Q k.
Proof. intros Hst Hf. apply wp_mbind, wp_print. intros fd. apply Hf. by apply steady_then. Qed.

Lemma wp_call_bind {B} k0 k c (f : reply -> M (K:=K) B) Q :
  steady (FS:=FS) sys k0 k -> (∀ x, c ≠ close x) -> (∀ d, into c = Some d -> d < 0 ∨ kind k d = Dest) ->
  (∀ r k1, steady (FS:=FS) sys k0 k1 -> wp (f r) Q k1) -> wp (sys_call sys c ≫= f) Q k.
Proof. intros Hst Hc Hd Hf. apply wp_mbind, wp_sys, Hf. by apply steady_then. Qed.

(** [if (x >= 0) close(x);] with a descriptor opened since [k0]. *)
Lemma wp_close_if_bind {B} k0 k x (f : unit -> M (K:=K) B) Q :
  steady (FS:=FS) sys k0 k -> (0 <= x -> kind k0 x = Closed) ->
  (∀ k1, steady (FS:=FS) sys k0 k1 -> wp (f tt) Q k1) ->
  wp ((if bool_decide (0 <= x) then _ ← sys_call sys (close x); mret tt else mret tt) ≫= f) Q k.
Proof.
  intros Hst Hx Hf. apply wp_mbind. case_bool_decide; [|apply wp_mret; by apply Hf].
  apply wp_mbind, wp_sys, wp_mret, Hf. apply steady_close; auto.
Qed.

(** Opening a directory below another. *)
Lemma wp_open_bind {B} k0 k d p (f : reply -> M (K:=K) B) Q :
  steady (FS:=FS) sys k0 k -> one_name p -> p ≠ "." -> p ≠ ".." ->
  (∀ r k1, steady (FS:=FS) sys k0 k1 -> steady (FS:=FS) sys k k1 ->
     (0 <= ret r -> s32 (ret r) = ret r ∧ kind k0 (ret r) = Closed ∧ kind k (ret r) = Closed
        ∧ (is_dest k d -> kind k1 (ret r) = Dest)
        ∧ (kind k d = Source -> kind k1 (ret r) = Source ∧ (height k1 (ret r) < height k d)%nat ∧ (left k1 (ret r) <= N)%nat)) ->
     wp (f r) Q k1) ->
  wp (sys_call sys (openat d p O_DIRECTORY 0) ≫= f) Q k.
Proof.
  intros Hst H1 H2 H3 Hf. apply wp_mbind, wp_sys.
  pose proof (fs_child d p 0 k) as Hc. pose proof (fs_openat d p O_DIRECTORY 0 k) as Ho. cbn zeta in Ho.
  assert (steady sys k (snd (sys (openat d p O_DIRECTORY 0) k))) as Hk by (by apply steady_sys).
  destruct (sys (openat d p O_DIRECTORY 0) k) as [r k1]. cbn [fst snd] in *. apply Hf; [by etrans|done|].
  intros Hr. destruct (Ho Hr) as (Hs & Hcl & Hb). destruct (Hc H1 H2 H3 Hr) as (Hneg & Hd & Hsrc).
  split_and!.
  - apply s32_small. lia.
  - by apply (steady_fresh _ _ _ _ Hst).
  - done.
  - intros [[Hn Hat]|Hk']; [by destruct (Hat (Hneg Hn))|auto].
  - intros Hk'. destruct (Hsrc Hk') as [Hk1 Hh]. split_and!; [done..|apply Hb, Hk1].
Qed.

(** *** Merging *)

Section MergeEntry.
Context (rec : Z -> Z -> string -> M (K:=K) unit) (h : nat).
Hypothesis Hrec : ∀ k src dst indent,
  kind k src = Source -> is_dest k dst -> (left k src <= N)%nat -> (height k src < h)%nat ->
  wp (rec src dst indent) (fun _ k' => steady (FS:=FS) sys k k') k.

Lemma wp_merge_entry k src dst indent name :
  kind k src = Source -> is_dest k dst -> (height k src <= h)%nat -> one_name name ->
  wp (merge_entry sys rec src dst indent name) (fun _ k' => steady (FS:=FS) sys k k') k.
Proof.
  intros Hs Hd Hh Hone. unfold merge_entry. destruct (negb _ && negb _) eqn:Hdot; [|by apply wp_mret].
  apply andb_true_iff in Hdot as [H1 H2]. apply negb_true_iff in H1, H2.
  assert (name ≠ "." ∧ name ≠ "..") as [Hn1 Hn2] by (rewrite <-!str_eq_true, H1, H2; done). clear H1 H2.
  apply (wp_print_bind k); [done|]. intros k1 H1. apply (wp_print_bind k); [done|]. clear k1 H1. intros k1 H1.
  apply (wp_print_bind k); [done|]. clear k1 H1. intros k1 H1.
  apply (wp_call_bind k); [done..|intros ? [= <-]; by apply is_dest_into, (is_dest_steady k)|]. clear k1 H1.
  intros r k1 H1. case_bool_decide; [apply wp_print; intros fd; by apply steady_then|].
  apply (wp_print_bind k); [done|]. clear k1 H1. intros k1 H1.
  destruct (steady_source _ _ _ H1 Hs) as (Hs1 & _ & Hh1).
  apply (wp_open_bind k); [done..|]. intros s1 k2 H2 H12 Hs1'.
  apply (wp_call_bind k2); [done..|intros ? [= <-]; by apply is_dest_into, (is_dest_steady k)|]. intros mr k3 H23.
  assert (steady sys k k3) as H3 by (by etrans).
  apply (wp_open_bind k2); [done..|]. intros s2 k4 H24 H34 Hs2'.
  assert (steady sys k k4) as H4 by (by etrans).
  apply wp_mbind. apply (wp_weaken _ (fun _ k' => steady sys k4 k')).
  { destruct (bool_decide (0 <= ret s1) && bool_decide (0 <= ret s2)) eqn:Hb; [|by apply wp_mret].
    apply andb_true_iff in Hb as [Hb1%bool_decide_eq_true Hb2%bool_decide_eq_true].
    destruct (Hs1' Hb1) as (E1 & _ & _ & _ & Hsrc). destruct (Hs2' Hb2) as (E2 & _ & _ & Hdst & _).
    destruct (Hsrc Hs1) as (Hk2 & Hlt & HlN). destruct (steady_source _ _ _ H24 Hk2) as (Hk4 & Hl4 & Hh4).
    rewrite E1, E2. apply Hrec; [done| |lia..]. right. apply Hdst. by apply (is_dest_steady k). }
  intros ? k5 H5. apply (wp_close_if_bind k); [by etrans|apply Hs1'|]. intros k6 H6.
  apply (wp_close_if_bind k); [done| |].
  { intros Hr. apply (steady_fresh _ _ _ _ H3), Hs2', Hr. }
  intros k7 H7. apply wp_mbind, wp_sys, wp_mret. by apply steady_then.
Qed.
End MergeEntry.

Lemma wp_for_each {A} (f : A -> M (K:=K) unit) l k0 :
  (∀ x k, x ∈ l -> steady (FS:=FS) sys k0 k -> wp (f x) (fun _ k' => steady (FS:=FS) sys k k') k) ->
  ∀ k, steady (FS:=FS) sys k0 k -> wp (for_each f l) (fun _ k' => steady (FS:=FS) sys k0 k') k.
Proof.
  induction l as [|x l IH]; intros Hf k Hk; [by apply wp_mret|]. apply wp_mbind.
  eapply wp_weaken; [apply Hf; [set_solver|done]|]. intros ? k1 H1. apply IH; [|by etrans].
  intros y k2 Hy. apply Hf. set_solver.
Qed.

Lemma wp_ext {A} (m m' : M (K:=K) A) Q k : (∀ s, m s = m' s) -> wp m' Q k -> wp m Q k.
Proof. intros He Hm s Hs. rewrite He. by apply Hm. Qed.

(** The fuel for a source: the getdents64 calls on it, then those on a directory
    below. *)
Lemma wp_merge_dir fuel k src dst indent :
  kind k src = Source -> is_dest k dst -> (left k src + height k src * (N + 1) < fuel)%nat ->
  wp (merge_dir sys fuel src dst indent) (fun _ k' => steady (FS:=FS) sys k k') k.
Proof.
  revert k src dst indent. induction fuel as [|fuel IH]; intros k src dst indent Hs Hd Hf; [lia|]. cbn [merge_dir].
  apply wp_mbind, wp_sys. pose proof (fs_getdents src 2048 k) as Hg.
  assert (steady sys k (snd (sys (getdents64 src 2048) k))) as H1 by (by apply steady_sys).
  destruct (sys (getdents64 src 2048) k) as [r k1]. cbn [fst snd] in *.
  case_bool_decide as Hr; [|by apply wp_mret].
  destruct (Hg Hs Hr) as (Hlt & es & Hes & Hone).
  destruct (steady_source _ _ _ H1 Hs) as (Hs1 & _ & Hh1).
  apply wp_mbind. apply (wp_weaken _ (fun _ k' => steady sys k1 k')).
  - eapply wp_ext; [intros s; by apply entries_loop_dirents|]. apply wp_for_each; [|done].
    intros e k2 He H2. rewrite Forall_forall in Hone. destruct (steady_source _ _ _ H2 Hs1) as (Hs2 & _ & Hh2).
    apply (wp_merge_entry _ (height k src)); [|done| |lia|by apply Hone].
    + intros k3 src' dst' ind' Hk3 Hd3 Hl3 Hh3. apply IH; [done..|].
      assert (height k3 src' * (N + 1) + (N + 1) <= height k src * (N + 1))%nat by nia. lia.
    + apply (is_dest_steady k); [by etrans|done].
  - intros ? k2 H2. destruct (steady_source _ _ _ H2 Hs1) as (Hs2 & Hl2 & Hh2).
    eapply wp_weaken; [apply IH; [done| |]|].
    + apply (is_dest_steady k); [by etrans|done].
    + assert (height k2 src * (N + 1) <= height k src * (N + 1))%nat by nia. lia.
    + intros ? k3 H3. etrans; [|exact H3]. by etrans.
Qed.

Lemma is_dest_usr_lib k f m :
  let '(r, k') := sys (openat AT_FDCWD "/mnt/usr/lib" f m) k in is_dest k' (s32 (ret r)).
Proof.
  pose proof (fs_usr_lib f m k) as Hd. pose proof (fs_openat AT_FDCWD "/mnt/usr/lib" f m k) as Ho.
  pose proof (fs_openat_error AT_FDCWD "/mnt/usr/lib" f m k) as He. cbn zeta in *.
  destruct (sys _ _) as [r k']. cbn [fst snd] in *. destruct (decide (0 <= ret r)) as [Hr|Hr].
  - right. destruct (Ho Hr) as [Hs _]. rewrite s32_small by lia. auto.
  - left. destruct He; [lia|]. rewrite s32_small by lia. split; [lia|done].
Qed.

(** Opening one of the two directories to merge, merging it and closing it. *)
Lemma wp_merge_open fuel k0 k p dst :
  (N + D * (N + 1) < fuel)%nat -> steady (FS:=FS) sys k0 k -> is_dest k0 dst ->
  (0 <= ret (fst (sys (openat AT_FDCWD p (Z.lor O_RDONLY O_DIRECTORY) 0) k)) ->
     kind (snd (sys (openat AT_FDCWD p (Z.lor O_RDONLY O_DIRECTORY) 0) k))
          (ret (fst (sys (openat AT_FDCWD p (Z.lor O_RDONLY O_DIRECTORY) 0) k))) = Source) ->
  wp (sys_call sys (openat AT_FDCWD p (Z.lor O_RDONLY O_DIRECTORY) 0))
    (fun r k1 => steady (FS:=FS) sys k0 k1 ∧ (0 <= ret r -> kind k0 (ret r) = Closed ∧
       ∀ k2 indent, steady (FS:=FS) sys k1 k2 ->
         wp (merge_dir sys fuel (s32 (ret r)) dst indent) (fun _ k' => steady (FS:=FS) sys k2 k') k2)) k.
Proof.
  intros Hf Hst Hd Hp. apply wp_sys. set (c := openat _ _ _ _) in *. pose proof (fs_openat AT_FDCWD p (Z.lor O_RDONLY O_DIRECTORY) 0 k) as Ho.
  fold c in Ho. cbn zeta in Ho. assert (steady sys k0 (snd (sys c k))) as H1 by (by apply steady_then).
  destruct (sys c k) as [r k1]. cbn [fst snd] in *. split; [done|]. intros Hr.
  destruct (Ho Hr) as (Hs & Hcl & Hb). specialize (Hp Hr). destruct (Hb Hp) as [HlN HhD].
  split; [by apply (steady_fresh _ _ _ _ Hst)|]. intros k2 indent H2.
  destruct (steady_source _ _ _ H2 Hp) as (Hk2 & Hl2 & Hh2). rewrite s32_small by lia.
  apply wp_merge_dir; [done| |].
  - apply (is_dest_steady k0); [by etrans|done].
  - assert (height k2 (ret r) * (N + 1) <= D * (N + 1))%nat by nia. lia.
Qed.

Lemma wp_merge_libs fuel k : (N + D * (N + 1) < fuel)%nat -> wp (merge_libs sys fuel) (fun _ _ => True) k.
Proof.
  intros Hf. unfold merge_libs. do 5 (apply wp_mbind, wp_sys). set (k' := snd _). clearbody k'. clear k. rename k' into k.
  apply wp_mbind, wp_sys. pose proof (is_dest_usr_lib k (Z.lor O_RDONLY O_DIRECTORY) 0) as Hd.
  destruct (sys (openat AT_FDCWD "/mnt/usr/lib" (Z.lor O_RDONLY O_DIRECTORY) 0) k) as [dst k1]. cbn [fst snd].
  apply wp_mbind. eapply wp_weaken; [apply (wp_merge_open fuel k1 k1 "/mnt/lib_old" (s32 (ret dst))); [done..|]|].
  { pose proof (fs_lib_old (Z.lor O_RDONLY O_DIRECTORY) 0 k1) as Ho. by destruct (sys _ _). }
  intros old k2 [H2 Hold]. apply wp_mbind. apply (wp_weaken _ (fun _ k' => steady sys k1 k')).
  { case_bool_decide as Hr; [|by apply wp_mret]. destruct (Hold Hr) as [Hcl Hm].
    apply (wp_print_bind k2); [done|]. intros k3 H3. apply wp_mbind. eapply wp_weaken; [by apply Hm|]. intros ? k4 H4.
    do 2 apply wp_mbind, wp_sys. apply wp_mret. apply steady_then; [|done..]. apply steady_close; [|done].
    etrans; [exact H2|]. by etrans. }
  intros ? k3 H3. apply wp_mbind, wp_sys. pose proof (fs_stat k3) as Hst. set (c := newfstatat _ _ _) in *.
  assert (steady sys k1 (snd (sys c k3))) as H4 by (by apply steady_then).
  destruct (sys c k3) as [st k4]. cbn [fst snd] in *.
  apply wp_mbind. apply (wp_weaken _ (fun _ _ => True)); [|intros; case_match; by wp_steps].
  destruct (bool_decide (ret st = 0) && S_ISDIR (st_mode st)) eqn:Hdir; [|by apply wp_mret].
  apply andb_true_iff in Hdir as [Hr%bool_decide_eq_true Hm]. specialize (Hst Hr Hm).
  apply wp_mbind, wp_print. intros fd. set (w := write _ _).
  assert (steady sys k1 (snd (sys w k4))) as H5 by (by apply steady_then). pose proof (fs_write _ _ _ Hst : lib_dir (snd (sys w k4))) as Hlib.
  set (k5 := snd (sys w k4)) in *. clearbody k5.
  apply wp_mbind. eapply wp_weaken; [apply (wp_merge_open fuel k1 k5 "/mnt/lib" (s32 (ret dst))); [done..|]|].
  { pose proof (fs_lib (Z.lor O_RDONLY O_DIRECTORY) 0 k5) as Ho. destruct (sys _ _). by apply Ho. }
  intros cur k6 [H6 Hcur]. apply wp_mbind. apply (wp_weaken _ (fun _ _ => True)); [|intros; by wp_steps].
  case_bool_decide as Hc; [|by apply wp_mret]. destruct (Hcur Hc) as [_ Hmg].
  apply wp_mbind. eapply wp_weaken; [by apply Hmg|]. intros. by wp_steps.
Qed.

Lemma wp_true_bind {A B} (m : M (K:=K) A) (f : A -> M B) k :
  wp m (fun _ _ => True) k -> (∀ a k, wp (f a) (fun _ _ => True) k) -> wp (m ≫= f) (fun _ _ => True) k.
Proof. intros Hm Hf. apply wp_mbind. eapply wp_weaken; [exact Hm|]. auto. Qed.

Lemma wp_mount_loop n r0 k : wp (mount_loop sys n r0) (fun _ _ => True) k.
Proof.
  revert r0 k. induction n as [|n IH]; intros r0 k; cbn [mount_loop]; [by apply wp_mret|].
  apply wp_mbind, wp_sys. case_bool_decide; [by apply wp_mret|]. unfold sleep_sec. wp_steps. apply IH.
Qed.

Lemma wp_setup k : wp (setup sys) (fun _ _ => True) k.
Proof.
  unfold setup. do 3 (apply wp_mbind, wp_sys). apply wp_true_bind; [case_match; by wp_steps|]. intros ? k'.
  do 4 (apply wp_mbind, wp_print; intros ?). apply wp_mbind, wp_sys. apply wp_mbind, wp_print; intros ?. apply wp_mount_loop.
Qed.

Lemma wp_install fuel k : (N < fuel)%nat -> wp (install sys fuel) (fun _ _ => True) k.
Proof.
  intros Hf. unfold install. apply wp_mbind, wp_print; intros ?. do 6 (apply wp_mbind, wp_sys). apply wp_mbind, wp_print; intros ?.
  do 3 (apply wp_true_bind; [apply wp_copy_file; [rewrite !elem_of_cons; tauto|done]|intros ? ?]). by wp_steps.
Qed.

Lemma wp_start fuel k : enough N D fuel -> wp (_start sys fuel) (fun _ _ => True) k.
Proof.
  intros Hf. unfold enough in Hf. unfold _start. apply wp_true_bind; [apply wp_setup|]. intros r k1. case_match; [by wp_steps|].
  apply wp_mbind, wp_print; intros ?. apply wp_true_bind; [apply wp_merge_libs; lia|]. intros ? k2.
  apply wp_true_bind; [apply wp_install; lia|]. intros ? k3.
  unfold verify, finish. apply wp_true_bind; [apply wp_mbind, wp_print; intros ?; apply wp_mbind, wp_sys; case_match; by wp_steps|].
  intros ? k4. by wp_steps.
Qed.
End Termination.

(** ** Merging *)

Definition closes (x : Z) : list call := if bool_decide (0 <= x) then [close x] else [].

(** The calls before and after the rename of an entry. *)
Definition announced (indent name : string) : list call := [says indent; says "  Processing: "; says name].

(** What merging the directory [src] into [dst] calls.  The records of each
    getdents64 reply are handled one by one and in order; then more are asked
    for, until none are left.  A record is renamed to the same name in the
    destination; when that fails the two directories of that name are merged, if
    both can be opened, and the source one is removed, if it is empty. *)
Inductive merges : Z -> Z -> string -> list event -> Prop :=
  | merges_end src dst indent r : ret r <= 0 -> merges src dst indent [(getdents64 src 2048, r)]
  | merges_more src dst indent r es t1 t2 :
      0 < ret r -> dirents (out_bytes r) (ret r) es ->
      merges_all src dst indent (e_name <$> es) t1 -> merges src dst indent t2 ->
      merges src dst indent ((getdents64 src 2048, r) :: t1 ++ t2)%list
with merges_all : Z -> Z -> string -> list string -> list event -> Prop :=
  | merges_nil src dst indent : merges_all src dst indent [] []
  | merges_cons src dst indent name names t1 t2 :
      merges_entry src dst indent name t1 -> merges_all src dst indent names t2 ->
      merges_all src dst indent (name :: names) (t1 ++ t2)%list
with merges_entry : Z -> Z -> string -> string -> list event -> Prop :=
  | entry_dots src dst indent name : name = "." ∨ name = ".." -> merges_entry src dst indent name []
  | entry_moved src dst indent name t0 r t1 :
      name ≠ "." -> name ≠ ".." -> calls t0 = announced indent name ->
      ret r = 0 -> calls t1 = [says (ln " -> [MOVED]")] ->
      merges_entry src dst indent name (t0 ++ (renameat src name dst name, r) :: t1)%list
  | entry_merged src dst indent name t0 r t1 s1 mr s2 t2 t3 :
      name ≠ "." -> name ≠ ".." -> calls t0 = announced indent name ->
      ret r ≠ 0 -> calls t1 = [says (ln " -> [MERGING SUBDIR]")] ->
      (0 <= ret s1 -> 0 <= ret s2 -> merges (s32 (ret s1)) (s32 (ret s2)) "    " t2) ->
      (ret s1 < 0 ∨ ret s2 < 0 -> t2 = []) ->
      calls t3 = (closes (ret s1) ++ closes (ret s2) ++ [unlinkat src name AT_REMOVEDIR])%list ->
      merges_entry src dst indent name
        (t0 ++ (renameat src name dst name, r) :: t1
         ++ (openat src name O_DIRECTORY 0, s1) :: (mkdirat dst name (Some MODE_0755), mr)
         :: (openat dst name O_DIRECTORY 0, s2) :: t2 ++ t3)%list.

Section Merging.
Context {K : Type} (sys : call -> K -> reply * K).

(** Every getdents64 reply is a sequence of records. *)
Definition well_formed_listings : Prop :=
  ∀ fd n k, let r := fst (sys (getdents64 fd n) k) in 0 < ret r -> ∃ es, dirents (out_bytes r) (ret r) es.

Lemma closes_does x : does (if bool_decide (0 <= x) then _ ← sys_call sys (close x); mret tt else mret tt) (closes x).
Proof.
  unfold closes. case_bool_decide; [|apply does_ret]. apply does_step; [apply does_sys|]. intros _. apply does_ret.
Qed.

Lemma emits_call {B} c (f : reply -> M (K:=K) B) (R : B -> list event -> Prop) :
  (∀ r, emits (f r) (fun b t => R b ((c, r) :: t))) -> emits (sys_call sys c ≫= f) R.
Proof. intros Hf. apply (emits_bind _ _ (fun r t => t = [(c, r)])); [by apply emits_sys|]. intros r t ->. apply Hf. Qed.

Lemma announce_emits {B} indent name (g : M (K:=K) B) (R : B -> list event -> Prop) :
  (∀ t0, calls t0 = announced indent name -> emits g (fun b t => R b (t0 ++ t)%list)) ->
  emits (_ ← print sys indent; _ ← print sys "  Processing: "; _ ← print sys name; g) R.
Proof.
  intros Hf. eapply emits_bind; [apply does_print|]. intros ? p1 Hp1.
  eapply emits_bind; [apply does_print|]. intros ? p2 Hp2. eapply emits_bind; [apply does_print|]. intros ? p3 Hp3.
  eapply emits_weaken; [apply (Hf (p1 ++ p2 ++ p3)%list)|].
  - unfold calls in *. by rewrite !fmap_app, Hp1, Hp2, Hp3.
  - intros b t Ht. cbv beta in Ht. by rewrite <-!app_assoc in Ht.
Qed.

Lemma merge_entry_emits rec src dst indent name :
  (∀ a b, emits (rec a b "    ") (fun _ t => merges a b "    " t)) ->
  emits (merge_entry sys rec src dst indent name) (fun _ t => merges_entry src dst indent name t).
Proof.
  intros Hrec. unfold merge_entry. destruct (negb (str_eq name ".") && negb (str_eq name "..")) eqn:Hdot.
  2: { apply emits_ret. constructor. apply andb_false_iff in Hdot. by rewrite !negb_false_iff, !str_eq_true in Hdot. }
  apply andb_true_iff in Hdot as [H1 H2]. apply negb_true_iff in H1, H2.
  assert (name ≠ "." ∧ name ≠ "..") as [Hn1 Hn2] by (rewrite <-!str_eq_true, H1, H2; done).
  apply announce_emits. intros t0 Ht0. apply emits_call. intros r. case_bool_decide as Hr.
  { eapply emits_weaken; [apply does_print|]. intros ? t Ht. by constructor. }
  eapply emits_bind; [apply does_print|]. intros ? t1 Ht1. apply emits_call. intros s1.
  apply emits_call. intros mr. apply emits_call. intros s2.
  apply (emits_bind _ _ (fun _ t => (0 <= ret s1 -> 0 <= ret s2 -> merges (s32 (ret s1)) (s32 (ret s2)) "    " t)
                                    ∧ (ret s1 < 0 ∨ ret s2 < 0 -> t = []))).
  { do 2 case_bool_decide; cbn [andb]; try (apply emits_ret; split; [lia|done]).
    eapply emits_weaken; [apply Hrec|]. intros ? t Ht. split; [done|lia]. }
  intros ? t2 [Ht2 Ht2']. eapply emits_weaken.
  { apply does_bind; [apply closes_does|]. intros ?. apply does_bind; [apply closes_does|]. intros ?.
    apply does_step; [apply does_sys|]. intros ?. apply does_ret. }
  intros ? t3 Ht3. by apply (entry_merged src dst indent name t0 r t1 s1 mr s2 t2 t3).
Qed.

Lemma for_each_emits (f : string -> M (K:=K) unit) src dst indent (es : list dirent) :
  (∀ name, emits (f name) (fun _ t => merges_entry src dst indent name t)) ->
  emits (for_each (fun e => f (e_name e)) es) (fun _ t => merges_all src dst indent (e_name <$> es) t).
Proof.
  intros Hf. induction es as [|e es IH]; [apply emits_ret; constructor|].
  eapply emits_bind; [apply Hf|]. intros ? t1 Ht1. eapply emits_weaken; [exact IH|]. intros ? t2 Ht2. by constructor.
Qed.

Lemma merge_dir_emits fuel src dst indent :
  well_formed_listings -> emits (merge_dir sys fuel src dst indent) (fun _ t => merges src dst indent t).
Proof.
  intros Hwf. revert src dst indent. induction fuel as [|fuel IH]; intros src dst indent; cbn [merge_dir]; [by apply emits_lift|].
  apply (emits_bind _ _ (fun r t => t = [(getdents64 src 2048, r)] ∧ (0 < ret r -> ∃ es, dirents (out_bytes r) (ret r) es))).
  { apply runs_sys_reply. intros k. split; [done|]. split; [done|]. apply Hwf. }
  intros r ? [-> Hr]. case_bool_decide as Hpos; [|apply emits_ret; constructor; lia].
  destruct (Hr Hpos) as [es Hes].
  apply (emits_bind _ _ (fun _ t => merges_all src dst indent (e_name <$> es) t)).
  - intros s. rewrite (entries_loop_dirents _ _ _ _ _ _ _ _ _ Hes).
    apply (for_each_emits (merge_entry sys (merge_dir sys fuel) src dst indent)). intros name. by apply merge_entry_emits.
  - intros ? t1 Ht1. eapply emits_weaken; [apply IH|]. intros ? t2 Ht2. by apply (merges_more src dst indent r es t1 t2).
Qed.
End Merging.

(** ** A small file system *)

(** Open files: what they are, what is left in them and their height.  Every
    directory of the sources has one record, of name "a", the top ones are above
    one level of directories, and the linkers have two bytes; renames fail, and
    the linker cannot be opened through /lib. *)
Record demo := { next : Z; tab : gmap Z (fd_kind * nat * nat) }.

Definition demo_kind (k : demo) (fd : Z) : fd_kind :=
  match tab k !! fd with Some (kd, _, _) => if bool_decide (0 <= fd) then kd else Closed | None => Closed end.
Definition demo_left (k : demo) (fd : Z) : nat := match tab k !! fd with Some (_, l, _) => l | None => 0%nat end.
Definition demo_height (k : demo) (fd : Z) : nat := match tab k !! fd with Some (_, _, h) => h | None => 0%nat end.

Definition demo_target (k : demo) (d : Z) (p : string) : option (fd_kind * nat * nat) :=
  if bool_decide (d = AT_FDCWD) then
    if str_eq p "/mnt/usr/lib" then Some (Dest, 0%nat, 0%nat)
    else if str_eq p "/mnt/lib_old" || str_eq p "/mnt/lib" then Some (Source, 1%nat, 1%nat)
    else if str_eq p "/ld-linux-aarch64.so.1" || str_eq p "/ld-2.31.so" then Some (Source, 2%nat, 0%nat)
    else if str_eq p "/mnt/lib/ld-linux-aarch64.so.1" then None
    else Some (Other, 0%nat, 0%nat)
  else match demo_kind k d, demo_height k d with
       | Dest, _ => Some (Dest, 0%nat, 0%nat)
       | Source, S _ => Some (Source, 1%nat, 0%nat)
       | _, _ => None
       end.

Definition demo_entry : dirent := {| e_head := replicate 16 0; e_type := 4; e_name := "a"; e_pad := [0; 0; 0] |}.

Definition answer (n : Z) (bytes : list Z) : reply := {| ret := n; out_bytes := bytes; st_mode := S_IFDIR |}.

Definition demo_take (k : demo) (fd : Z) (bytes : list Z) : reply * demo :=
  match demo_kind k fd, demo_left k fd with
  | Source, S l => (answer (Z.of_nat (length bytes)) bytes,
                    {| next := next k; tab := <[fd := (Source, l, demo_height k fd)]> (tab k) |})
  | _, _ => (answer 0 [], k)
  end.

Definition demo_sys (c : call) (k : demo) : reply * demo :=
  match c with
  | openat d p _ _ =>
      match demo_target k d p with
      | Some x =>
          if bool_decide (0 <= next k < 2147483648) && bool_decide (tab k !! next k = None)
          then (answer (next k) [], {| next := next k + 1; tab := <[next k := x]> (tab k) |})
          else (answer (-24) [], k)
      | None => (answer (-2) [], k)
      end
  | close fd => (answer 0 [], {| next := next k; tab := delete fd (tab k) |})
  | read fd _ => demo_take k fd [7]
  | getdents64 fd _ => demo_take k fd (enc_dirent demo_entry)
  | renameat _ _ _ _ => (answer (-39) [], k)
  | _ => (answer 0 [], k)
  end.

Definition demo_state : state demo := {| kernel := {| next := 3; tab := ∅ |}; out_fd := 1; trace := [] |}.

Example demo_whole_run : fst (_start demo_sys 6 demo_state) = Some Complete ∧ length (trace (snd (_start demo_sys 6 demo_state))) = 146%nat.
Proof. vm_compute. split; reflexivity. Qed.

Lemma demo_take_keeps k k0 fd bytes r :
  demo_take k fd bytes = (r, k0) ->
  ∀ x, demo_kind k x ≠ Closed ->
    demo_kind k0 x = demo_kind k x ∧ (demo_kind k x = Source -> (demo_left k0 x <= demo_left k x)%nat ∧ (demo_height k0 x <= demo_height k x)%nat).
Proof.
  unfold demo_take. intros H x Hx. destruct (demo_kind k fd) eqn:Ek, (demo_left k fd) eqn:El; injection H as <- <-; try (split; [done|lia]).
  unfold demo_kind, demo_left, demo_height in *. simpl. destruct (decide (x = fd)) as [->|Hne].
  - rewrite lookup_insert_eq. destruct (tab k !! fd) as [[[kd l] h]|] eqn:E; [|done]. case_bool_decide; [|done]. subst. split; [done|lia].
  - rewrite lookup_insert_ne by done. split; [done|lia].
Qed.

Lemma demo_take_less k fd bytes :
  demo_kind k fd = Source -> 0 < ret (fst (demo_take k fd bytes)) ->
  (demo_left (snd (demo_take k fd bytes)) fd < demo_left k fd)%nat
  ∧ fst (demo_take k fd bytes) = answer (Z.of_nat (length bytes)) bytes.
Proof.
  unfold demo_take. intros -> H. destruct (demo_left k fd) eqn:El; [done|]. simpl. unfold demo_left at 1. simpl.
  rewrite lookup_insert_eq. split; [lia|done].
Qed.

(** What an open gives. *)
Lemma demo_openat d p f m k :
  let '(r, k') := demo_sys (openat d p f m) k in
  (ret r < 0 ∧ k' = k ∧ (ret r = -2 ∨ ret r = -24))
  ∨ 0 <= ret r < 2147483648 ∧ tab k !! ret r = None ∧ ∃ x, demo_target k d p = Some x
    ∧ tab k' = <[ret r := x]> (tab k).
Proof.
  simpl. destruct (demo_target k d p) as [x|] eqn:E; [|left; simpl; split_and!; auto; lia].
  do 2 case_bool_decide; simpl; try (left; simpl; split_and!; auto; lia). right. split; [done|]. split; [done|]. by exists x.
Qed.

Lemma demo_target_bound k d p kd l h :
  demo_target k d p = Some (kd, l, h) ->
  (l <= 2)%nat ∧ (h <= 1)%nat
  ∧ (d ≠ AT_FDCWD -> demo_kind k d = kd ∧ 0 <= d ∧ (kd = Source -> (h < demo_height k d)%nat)).
Proof.
  unfold demo_target. intros H. case_bool_decide.
  - repeat case_match; simplify_eq/=; split_and!; intros; done || lia.
  - unfold demo_kind, demo_height in *. destruct (tab k !! d) as [[[kd' l'] h']|]; [|done].
    case_bool_decide; [|done]. destruct kd', h'; simplify_eq; split_and?; intros; split_and?; intros; done || lia.
Qed.

Lemma demo_kind_open k k' r x :
  tab k' = <[r := x]> (tab k) -> 0 <= r ->
  demo_kind k' r = x.1.1 ∧ demo_left k' r = x.1.2 ∧ demo_height k' r = x.2.
Proof.
  intros Ht Hr. unfold demo_kind, demo_left, demo_height. rewrite Ht, !lookup_insert_eq. destruct x as [[kd l] h].
  by rewrite bool_decide_true.
Qed.

(** An open of a fixed path. *)
Lemma demo_fixed p x f m k :
  (∀ k, demo_target k AT_FDCWD p = Some x) ->
  let '(r, k') := demo_sys (openat AT_FDCWD p f m) k in 0 <= ret r -> demo_kind k' (ret r) = x.1.1.
Proof.
  intros Hx. pose proof (demo_openat AT_FDCWD p f m k) as Ho. destruct (demo_sys _ k) as [r k'].
  destruct Ho as [[Hn _]|(Hr & _ & y & Hy & Ht)]; [lia|]. rewrite Hx in Hy. injection Hy as <-.
  intros _. apply (demo_kind_open k k' (ret r) x); [done|lia].
Qed.

Lemma demo_keeps c k fd :
  demo_kind k fd ≠ Closed -> c ≠ close fd ->
  demo_kind (snd (demo_sys c k)) fd = demo_kind k fd
  ∧ (demo_kind k fd = Source ->
     (demo_left (snd (demo_sys c k)) fd <= demo_left k fd)%nat ∧ (demo_height (snd (demo_sys c k)) fd <= demo_height k fd)%nat).
Proof.
  intros Hfd Hc. destruct c; try (simpl; split; [done|lia]).
  - pose proof (demo_openat dirfd path flags mode k) as Ho. destruct (demo_sys _ k) as [r k']. simpl.
    destruct Ho as [(_ & -> & _)|(_ & Hnew & x & _ & Ht)]; [split; [done|lia]|].
    assert (fd ≠ ret r) by (intros ->; unfold demo_kind in Hfd; by rewrite Hnew in Hfd).
    unfold demo_kind, demo_left, demo_height. rewrite Ht, !lookup_insert_ne by done. split; [done|lia].
  - simpl. unfold demo_kind, demo_left, demo_height. simpl. rewrite !lookup_delete_ne by congruence. split; [done|lia].
  - simpl. destruct (demo_take k fd0 [7]) as [r k'] eqn:E. by apply (demo_take_keeps _ _ _ _ _ E).
  - simpl. destruct (demo_take k fd0 (enc_dirent demo_entry)) as [r k'] eqn:E. by apply (demo_take_keeps _ _ _ _ _ E).
Qed.

#[export] Instance demo_file_system : FileSystem demo_sys 2 1.
Proof.
  refine {| kind := demo_kind; left := demo_left; height := demo_height; lib_dir := fun _ => True |}.
  - intros c k fd k' Hfd Hc _. by apply demo_keeps.
  - intros d p f m k. pose proof (demo_openat d p f m k) as Ho. destruct (demo_sys _ k) as [r k']. cbn zeta. simpl. intros Hr.
    destruct Ho as [[Hn _]|(Hb & Hnew & x & Hx & Ht)]; [lia|]. split; [lia|].
    split; [unfold demo_kind; by rewrite Hnew|]. intros _. destruct (demo_kind_open k k' (ret r) x Ht Hr) as (_ & -> & ->).
    destruct x as [[kd l] h]. destruct (demo_target_bound k d p kd l h Hx) as (? & ? & _). done.
  - intros d p f m k. pose proof (demo_openat d p f m k) as Ho. destruct (demo_sys _ k) as [r k']. cbn zeta. simpl. intros Hr.
    destruct Ho as [(_ & _ & [-> | ->])|(Hb & _)]; [split; [lia|done]..|lia].
  - intros f m k. by apply (demo_fixed "/mnt/usr/lib" (Dest, 0%nat, 0%nat)).
  - intros f m k. by apply (demo_fixed "/mnt/lib_old" (Source, 1%nat, 1%nat)).
  - intros f m k. pose proof (demo_fixed "/mnt/lib" (Source, 1%nat, 1%nat) f m k (fun _ => eq_refl)) as H.
    destruct (demo_sys _ k). auto.
  - intros p m k. pose proof (demo_fixed p (Source, 2%nat, 0%nat) 0 m k) as H. destruct (demo_sys _ k).
    intros Hp. apply H. intros k'. rewrite !elem_of_cons, elem_of_nil in Hp. by destruct Hp as [-> | [-> |]].
  - intros d p m k. pose proof (demo_openat d p O_DIRECTORY m k) as Ho. destruct (demo_sys _ k) as [r k']. intros Hone _ _ Hr.
    destruct Ho as [[Hn _]|(Hb & Hnew & x & Hx & Ht)]; [lia|].
    destruct (demo_kind_open k k' (ret r) x Ht Hr) as (-> & _ & ->). destruct x as [[kd l] h].
    destruct (demo_target_bound k d p kd l h Hx) as (_ & _ & Hd). simpl.
    destruct (decide (d = AT_FDCWD)) as [->|Hne].
    + split; [done|]. unfold demo_kind. split; destruct (tab k !! AT_FDCWD) as [[[??]?]|]; done.
    + destruct (Hd Hne) as (Hk & H0 & Hh). split; [lia|]. rewrite Hk. auto.
  - intros k. simpl. done.
  - done.
  - intros fd n k. pose proof (demo_take_less k fd [7]) as H. simpl. destruct (demo_take k fd [7]). intros Hk Hr. by apply H.
  - intros fd n k. pose proof (demo_take_less k fd (enc_dirent demo_entry)) as H. simpl.
    destruct (demo_take k fd (enc_dirent demo_entry)) as [r k']. intros Hk Hr. destruct (H Hk Hr) as [H1 H2]. simpl in H1, H2.
    split; [done|]. rewrite H2. exists [demo_entry]. split; [|by repeat constructor].
    split; [|split; [done|by exists []]]. repeat constructor; vm_compute; discriminate || done.
Defined.

(** ** Properties *)

(** C36.  With a kernel that behaves like a file system, in which the trees that
    are read do not overlap with the one merged into, hold at most [N] entries
    or bytes per file and are at most [D] levels deep without a loop, but can be
    read any number of times, the program reaches one of its two final sleeps:
    [(N + 1) * (D + 1)] units of fuel are enough for all its loops and for the
    recursion. *)
Theorem recovery_terminates {K : Type} (sys : call -> K -> reply * K) (N D fuel : nat) (s : state K) :
  FileSystem sys N D -> enough N D fuel -> ∃ o s', _start sys fuel s = (Some o, s').
Proof. intros FS Hf. destruct (wp_start sys fuel (kernel s) Hf s eq_refl) as (o & s' & H & _). eauto. Qed.

Lemma recovery_terminates_witness : ∃ o s', _start demo_sys 6 demo_state = (Some o, s').
Proof. apply (recovery_terminates demo_sys 2 1 6 demo_state _). unfold enough. lia. Defined.

(** Copying a file never touches the destination when the source cannot
    be opened; otherwise it replaces the destination and writes every chunk it
    reads, whole and in order, until a read returns nothing or fails, closes
    both files, and reports the destination as installed, whatever the writes
    and the last read returned. *)
Theorem copy_file_spec {K : Type} (sys : call -> K -> reply * K) (fuel : nat) (src dst : string) (mode : Z)
    (s : state K) :
  ∃ t, trace (snd (copy_file sys fuel src dst mode s)) = (trace s ++ t)%list
       ∧ ∀ u, fst (copy_file sys fuel src dst mode s) = Some u -> copy_trace src dst mode t.
Proof. destruct (copy_file_trace sys fuel src dst mode s) as (t & Ht & _ & H). eauto. Qed.

(** C37.  When the replies of getdents64 are sequences of records, a finished
    merge of a directory has made the calls that [merges] describes: every
    record, but "." and "..", in order, renamed to its name in the destination,
    or else merged into the directory of that name, from the descriptor of the
    source one into that of the destination one, and both closed and the source
    one removed if empty.  With a kernel that behaves like a file system the
    merge does finish. *)
Theorem merge_dir_spec {K : Type} (sys : call -> K -> reply * K) (fuel : nat) (src dst : Z) (indent : string)
    (s : state K) :
  well_formed_listings sys ->
  let '(res, s') := merge_dir sys fuel src dst indent s in
  (∃ t, trace s' = (trace s ++ t)%list ∧ (res = Some tt -> merges src dst indent t))
  ∧ ∀ N D (FS : FileSystem sys N D),
      kind (kernel s) src = Source -> is_dest sys (kernel s) dst ->
      (left (kernel s) src + height (kernel s) src * (N + 1) < fuel)%nat -> res = Some tt.
Proof.
  intros Hwf. pose proof (merge_dir_emits sys fuel src dst indent Hwf s) as (t & Ht & _ & Hm).
  destruct (merge_dir sys fuel src dst indent s) as [res s'] eqn:E. simpl in *. split; [eauto|].
  intros N D FS Hs Hd Hf. destruct (wp_merge_dir sys fuel (kernel s) src dst indent Hs Hd Hf s eq_refl) as ([] & s1 & H1 & _).
  congruence.
Qed.

(** Descriptor 3 is a directory to merge, 4 the one to merge into. *)
Definition demo_merging : state demo :=
  {| kernel := {| next := 5; tab := {[3 := (Source, 1%nat, 1%nat); 4 := (Dest, 0%nat, 0%nat)]} |}; out_fd := 1; trace := [] |}.

(** The entry is merged from descriptor 5, which has an entry as well. *)
Lemma merge_dir_spec_witness :
  ∃ t, trace (snd (merge_dir demo_sys 6 3 4 "" demo_merging)) = t ∧ merges 3 4 "" t
       ∧ omap (fun e => match fst e with getdents64 fd _ => Some (fd, ret (snd e)) | _ => None end) t
         = [(3, 24); (5, 24); (5, 0); (3, 0)].
Proof.
  assert (well_formed_listings demo_sys) as Hwf.
  { intros fd n k r Hr. subst r. simpl in *. unfold demo_take in *. destruct (demo_kind k fd), (demo_left k fd); try done.
    exists [demo_entry]. split; [|split; [done|by exists []]]. repeat constructor; vm_compute; discriminate || done. }
  pose proof (merge_dir_spec demo_sys 6 3 4 "" demo_merging Hwf) as H.
  destruct (merge_dir demo_sys 6 3 4 "" demo_merging) as [res s'] eqn:E. destruct H as [(t & Ht & Hm) Hend].
  exists t. simpl in Ht. split; [exact Ht|]. split.
  - apply Hm, (Hend 2%nat 1%nat _); [reflexivity|right; reflexivity|vm_compute; lia].
  - rewrite <-Ht. vm_compute in E. injection E as <- <-. reflexivity.
Defined.

(** C38.  Whatever the kernel replies and wherever a run stops, every call of it
    that removes, renames, creates, opens for writing, links or mounts something
    is one of the intended ones: on one of the program's fixed paths, or on an
    entry of a directory listing that it has read, which is only renamed to its
    own name in a directory that it has opened, created there as a directory, or
    removed from the listed directory if it is an empty directory. *)
Theorem recovery_calls_allowed {K : Type} (sys : call -> K -> reply * K) (fuel : nat) (s : state K) :
  ∃ t, trace (snd (_start sys fuel s)) = (trace s ++ t)%list ∧ safe [] t.
Proof. destruct (guarded_start sys [] fuel [] ltac:(done) s) as (t & Ht & Hs & _). eauto. Qed.

(** C39.  Whatever the kernel replies and wherever a run stops, the program only
    closes descriptors that it has opened and not closed since; when it gets to
    its end all are closed but the console's.  It does get there when the kernel
    behaves like a file system. *)
Theorem recovery_descriptors {K : Type} (sys : call -> K -> reply * K) (fuel : nat) (s : state K) :
  (∃ t X, trace (snd (_start sys fuel s)) = (trace s ++ t)%list ∧ fds t ∅ = Some X
     ∧ ∀ o, fst (_start sys fuel s) = Some o -> ∃ r, (console, r) ∈ t ∧ X = held (ret r))
  ∧ ∀ N D, FileSystem sys N D -> enough N D fuel -> is_Some (fst (_start sys fuel s)).
Proof.
  split.
  - destruct (start_descriptors sys fuel s) as (t & Ht & HP & HQ). destruct (HP ∅) as [X HX]. exists t, X.
    split; [done|]. split; [done|]. intros o Ho. destruct (HQ o Ho) as (r & Hr & Hf). exists r. split; [done|].
    rewrite Hf, (right_id_L ∅ _) in HX. congruence.
  - intros N D FS Hf. by destruct (wp_start sys fuel (kernel s) Hf s eq_refl) as (o & s' & -> & _).
Qed.

Lemma recovery_descriptors_witness :
  ∃ t r, trace (snd (_start demo_sys 6 demo_state)) = t ∧ (console, r) ∈ t ∧ fds t ∅ = Some (held (ret r)).
Proof.
  destruct (recovery_descriptors demo_sys 6 demo_state) as [(t & X & Ht & HX & Hc) Hend].
  destruct (Hend 2%nat 1%nat _ ltac:(unfold enough; lia)) as [o E]. destruct (Hc o E) as (r & Hr & ->). exists t, r. auto.
Defined.

(** C40.  Wherever a run stops, it has called nothing below /mnt before a
    successful mount of the root file system there.  A run ends in the fatal
    sleep only after fifteen failed mounts, with nothing below /mnt called at
    all, and in the other one only after syncing, unmounting, syncing and
    announcing the complete repair, whatever the copies and the verification of
    the linker returned.  It does end when the kernel behaves like a file
    system. *)
Theorem recovery_outcome {K : Type} (sys : call -> K -> reply * K) (fuel : nat) (s : state K) :
  (∃ t, trace (snd (_start sys fuel s)) = (trace s ++ t)%list ∧ mount_first t
     ∧ ∀ o, fst (_start sys fuel s) = Some o -> outcome_trace o t)
  ∧ ∀ N D, FileSystem sys N D -> enough N D fuel -> is_Some (fst (_start sys fuel s)).
Proof.
  split.
  - destruct (start_outcome sys fuel s) as (t & Ht & HP & HQ). eauto.
  - intros N D FS Hf. by destruct (wp_start sys fuel (kernel s) Hf s eq_refl) as (o & s' & -> & _).
Qed.

(** The repair is announced also when the verification fails. *)
Lemma recovery_outcome_witness :
  ∃ t, trace (snd (_start demo_sys 6 demo_state)) = t ∧ outcome_trace Complete t
       ∧ says (ln ">>> [WARNING]: Could not open dynamic linker through /lib!") ∈ calls t.
Proof.
  destruct (recovery_outcome demo_sys 6 demo_state) as [(t & Ht & _ & Ho) Hend].
  destruct (Hend 2%nat 1%nat _ ltac:(unfold enough; lia)) as [o E]. specialize (Ho o E).
  exists t. split; [exact Ht|]. simpl in Ht. subst t. revert Ho. vm_compute in E. injection E as <-. intros Ho.
  split; [exact Ho|]. vm_compute. repeat (apply list_elem_of_here || apply list_elem_of_further).
Defined.
